(* ===== verification/_CoqProject ===== *)
-Q . S2P
Prelude.v
CInt.v
RealArith.v
CList.v
CListFacts.v
CListSpec.v
CListOrder.v
CStdlib.v
CStdlibSpec.v
Arithmetic.v
CString.v
CStringSpec.v
Stdio.v
StdioSpec.v
Ustar.v
Hash.v
HashSpec.v
Threads.v
ThreadsInv.v
Scheduler.v
SynchInv.v
ThreadOps.v
SchedSafe.v
SchedSpec.v
Bitmap.v
Palloc.v
PallocSpec.v
Malloc.v
MallocArena.v
MallocRun.v
MallocSpec.v
MallocSafe.v
Pagedir.v
PagedirRun.v
PagedirSpec.v
PagedirDestroy.v
Mmu.v
MmuMachine.v
Bytes.v
Random.v
Block.v
Intq.v
Partition.v
Devices.v
Serial.v
Swap.v
Vm.v
VmFalloc.v
VmLoad.v
VmStack.v
VmSpec.v
Process.v
SyscallFile.v
Exec.v
Syscall.v
ExecSpec.v
SyscallSpec.v
Cache.v
Inode.v
InodeSpec.v
InodeWrite.v
FsInv.v
FreeMapSpec.v
InodeExtend.v
FileGrow.v
File.v
FileSpec.v
FileRemove.v
FsFiles.v
Directory.v
DirMap.v
DirectorySpec.v
DirList.v
Filesys.v
FilesysSpec.v
FsDemo.v
Fsutil.v
DirDemo.v
VmDemo.v
UserKernel.v
