(* ===== verification/Prelude.v ===== *)
(** * Pintos: a machine-checked model of the CS140 kernel

    [src/pintos] is an instructional kernel: threads with priority donation
    and a multilevel feedback scheduler, a file system with a buffer cache,
    indexed inodes and a directory tree, user programs and virtual memory.
    This library translates its C functions into Rocq functions and proves
    what makes them correct.

    ** How code becomes a definition

    A C function is a definition of the same name in the state and error monad
    [ST S A] below: explicit state passing with the outcomes [Ok], [Panic] (a
    failed [ASSERT] or [PANIC]), [Fault] (an access C leaves undefined: null or
    freed object, index out of range, uninitialised string) and [Timeout] (a
    loop that used up the fuel given to it).  Structures are records, heap
    objects are entries of finite maps from keys to records, and pointers are
    keys (null is [None] where the code tests for it); [list.c] and [string.c]
    are modelled over the pointers and bytes themselves.  Machine integers are
    [Z] with the wrap-around of their width written out ([u8], [u32], [s32],
    [s64] of [CInt]).  A loop is a [Fixpoint]: structural where the code counts
    down, and with fuel elsewhere, always fuel that the theorems prove to be
    enough: the length of the list for [list.c] and [hash.c], one more than the
    mapped bytes for [string.c], one more than the bytes left for [inode_read_at]
    and [inode_write_at], the number of entries of the largest file for the
    loops of [directory.c], the length of the path for [parse_name], 32 halvings
    in [rehash], 20 steps for the start of the idle thread, 2001 pages for the
    growth of the stack, the number of pages for segments and mappings, 33 words of
    a command line, 64 digits and 32 steps more than the format is long for
    [printf], 64 bytes for a queue, the size of the file for archiving.  The one
    loop that no fuel is enough for is the scan of extended partitions
    ([extended_scan_never_ends]).  Functions on a
    cycle ([inode_write_at] and the free map, [dir_add] and [dir_init]) take the
    one they call as an argument and the knot is tied at depth 2, the deepest
    nesting the code reaches.

    ** Parts, files and what they show

    - Libraries.  [CInt]: integers of fixed width and [lib/round.h].
      [CList], [CListFacts], [CListSpec], [CListOrder]: [lib/kernel/list.c] over
      a heap of links; every call implements its counterpart on sequences, and
      the sorting functions are right.  [Hash], [HashSpec]: [lib/kernel/hash.c]
      is a set, through rehashing and failed allocations.  [CString],
      [CStringSpec]: [lib/string.c] over a byte memory.  [CStdlib],
      [CStdlibSpec]: [lib/stdlib.c].  [Bitmap]: [lib/kernel/bitmap.c].
      [Arithmetic]: the 64-bit division of [lib/arithmetic.c] is division.
      [Random]: [lib/random.c] keeps a permutation of the bytes.  [Stdio]:
      formatted output and the console, [lib/stdio.c] and
      [lib/kernel/console.c], over an output function; [StdioSpec]: what it
      writes to a buffer or the console is the same text, whole and in order,
      numbers fit in their buffer and are read back by [atoi].  [Ustar]: a
      header made by [lib/ustar.c] is parsed as what it was made from.
    - Scheduler.  [RealArith]: [threads/real-arithmetic.c] and the formulas of
      the feedback scheduler.  [Threads]: [threads/thread.c], [threads/synch.c],
      the timer of [devices/timer.c] and the external path of
      [threads/interrupt.c] as operations of a state [sys]; an operation that
      may block, or works on a shared list with interrupts on, is a sequence of
      atomic steps in the running thread's list of things to do, so that
      interleavings are sequences of steps ([timer_sleep] is two, the scan of
      the ready list in [thread_set_priority] one per element).  [ThreadsInv]
      has the invariant (who is in which list, who holds which lock),
      [Scheduler], [SynchInv], [ThreadOps] that every operation
      keeps it, [SchedSafe] the reachable states and which operations
      are safe in them, [SchedSpec] the resulting properties.
    - Memory.  [Palloc]: [threads/vaddr.h] and [threads/palloc.c], pages
      from two pools over a byte memory; [PallocSpec] its properties.  [Malloc]:
      [threads/malloc.c] in that memory, headers and free lists included;
      [MallocArena] has the heap invariant, [MallocArena] and [MallocRun]
      that the operations keep it, [MallocSpec] and [MallocSafe]
      that blocks are large enough, apart and keep their contents, on a concrete
      heap too.
    - Page tables and swap.  [Pagedir]: [userprog/pagedir.c] and [threads/pte.h]
      on the words of that memory; [PagedirRun] says what a page directory is
      and runs its operations, [PagedirSpec] shows that they are
      operations on a map from pages to frames, [PagedirDestroy] that a
      directory gives back all it owns, on a concrete machine too.  [Swap]:
      [vm/swap.c] over a block device is a map from slots to pages.
    - Virtual memory.  [Vm]: [vm/frame.c], [vm/page.c] and the page fault
      handler of [userprog/exception.c], over the interfaces [Mmu] (frames, page
      directories and the processor's accesses; [MmuMachine] shows that [Palloc]
      and [Pagedir] implement it) and [PageFiles] (open files; [FsFiles] shows
      that [File] implements it).  [VmFalloc] says what a process's memory contains
      wherever its pages are, and how pages, frames, directories and slots fit
      together, and shows that eviction keeps this, [VmLoad] loading,
      [VmStack] the growth of the stack; [VmSpec] has the resulting properties, above all
      that paging is invisible, and [VmDemo] a process to which they apply.
    - Devices.  [Block]: reading and writing of [devices/block.c] and the
      partitions of [devices/partition.c] over the interface [BlockDriver].
      [Partition]: the registry of devices, the partition tables, and the
      devices [threads/init.c] chooses; the scan finds the partitions of the
      table.  [Devices]: [devices/vga.c], which shows the end of what is
      written, [devices/rtc.c] and [devices/pit.c].  [Intq]: the queues of
      [devices/intq.c].  [Serial]: [devices/serial.c], [input.c] and [kbd.c];
      no byte is lost or overtaken.
    - Buffer cache.  [Cache]:
      [filesys/cache.c]; the class [SectorStore] is what it promises the file
      system, and the cache over any driver is an instance.
    - Files.  [Bytes]: bytes and little-endian words.  [Inode]: [filesys/inode.c]
      and [filesys/free-map.c] over a [SectorStore].  [InodeSpec] gives an
      inode its meaning (sectors owned, bytes contained),
      [InodeWrite], [InodeExtend] and [FileGrow] run its operations,
      [FsInv] has the invariant of the whole file system and a test for it,
      [FreeMapSpec] allocation.  [File]: [filesys/file.c]; [FileSpec],
      [FileRemove] its properties.
    - Directories.  [Directory]: [filesys/directory.c].  [DirMap] reads the
      bytes of a directory as a map from names to sectors and runs its loops, [DirectorySpec], [DirList] show that searching,
      adding, removing and listing are the operations of that map.  [Filesys]:
      [filesys/filesys.c]; [FilesysSpec]: paths mean what the tree says.
    - Processes and system calls.  [Process]: the process list, [process_execute],
      [process_wait] and [process_exit] of [userprog/process.c], over the
      interfaces [Pagedirs] and [UserFiles] and the memory manager of [Vm];
      [SyscallFile]: [userprog/syscall-file.c] and [exit]; [Exec]: ELF files and
      the stack of a new program; [Syscall]: the handler and the calls of
      [userprog/syscall.c].  Code that may end the thread returns [None] when it
      has; a call that waits on a semaphore is split there.  The kernel reads
      and writes a program's memory through [Vm], page faults included.
      [ExecSpec]: a segment reads as its file, and the arguments are on the
      stack.  [SyscallSpec]: descriptors, the process list, [wait] and [exit].
      [UserKernel]: [Filesys] and [MmuMachine] implement the interfaces, calls
      with which a program brings the kernel down, and a kernel with a few
      processes to which the properties apply.
    - Utilities.  [Fsutil]: the archives and listings of [filesys/fsutil.c],
      and the command line of [threads/init.c] with its options and actions.
    - [FsDemo], [DirDemo]: small concrete file systems on which the properties
      are instantiated, and behaviours computed on them.

    ** Kinds of theorems

    Refinement of an abstract object by the code (sequences by [list.c], sets by
    [hash.c], an array of sectors by the cache, maps by directories and page
    tables, a process's memory by frames, swap and files, queues by rings of
    bytes, an endless sheet by the display); invariants
    of reachable states (threads and lists, locks, ownership of sectors);
    functional behaviour of each operation, with the frame of what it leaves
    alone; termination, as an [Ok] result for the fuel given; bounds of the
    fixed-point and integer arithmetic; round trips through bitmaps, files, archive
    headers and printed numbers;
    and error behaviour, which includes what the code gets wrong: the theorems
    [free_map_allocate_failure], [inode_close_leaks],
    [inode_write_crossing_panics], [inode_read_past_eof_panics],
    [rmdir_after_reboot_faults], [timer_sleep_window_panics],
    [set_priority_scan_lost], [kernel_steps_safe], [cache_copy_race],
    [memmove_correct], [allocation_sizes_wrap], [stack_fault_correct],
    [eviction_correct], [arguments_correct], [descriptor_reused],
    [orphan_exit_faults], [unchecked_arguments_crash], [division_correct],
    [trailing_percent_faults], [extended_scan_never_ends], [rtc_get_time_correct],
    [fsutil_append_correct], [command_line_runs] and
    [mlfqs_priority_nearest_unclamped] describe such behaviour exactly.

    ** Assumptions and limits

    Heap allocations of the file system, of the swap table and, in the system
    calls, of processes succeed; in [hash.c] and in [process_execute]
    their outcome is an argument, and [Malloc] and [Pagedir] model running out of
    memory.  Requests to [malloc] and [calloc] are below 2^32 - 11 bytes, from
    where on sizes wrap around ([allocation_sizes_wrap]).  Keys of threads and heap objects are not reused, so a use
    after free is a [Fault].  Interrupts arrive between atomic steps; the code
    between [intr_disable] and [intr_set_level] is one step, and so is a call
    of the memory allocators and of virtual memory, which hold a lock throughout
    (a program can write to a page that is being evicted all the same, which is
    not modelled), a call of the buffer cache, whose copy is made without the
    lock ([cache_copy_race]), the scan of [cond_signal], the start of a process,
    whose thread does not run before [process_execute] returns, and a system
    call up to where it waits.  The scheduler's runs end where an element is
    pushed on a second list.  [timer_interrupt] leaves out its call of
    [frame_tick], which is modelled in [Vm] and works on frames and accessed
    bits, nothing the scheduler reads.
    Growth theorems
    cover files of up to 140 blocks and directories within their 12 direct
    blocks, beyond which the code has the defects named above.

    ** Not modelled

    The disk driver [devices/ide.c], [speaker.c] and [shutdown.c], and in
    [devices/timer.c] and [threads/interrupt.c] calibration, busy waits and the
    interrupt controller: sequences of port accesses and delays whose meaning is
    that of the hardware (the disk's is assumed as [BlockDriver]).  Boot and
    descriptor tables (the rest of [threads/init.c], [userprog/gdt.c], [tss.c]
    and the assembly files): tables for the processor.  [lib/debug.c] and
    [lib/user]: stack traces and system call stubs.  The tests, the example
    programs and the host tools under [utils] are not part of the kernel. *)
From stdpp Require Export base list gmap sets numbers decidable tactics.
From stdpp Require Export sorting.
From Stdlib Require Export ZArith Lia.

(** ** Outcomes of C code

    [Ok] is a normal return.  [Err Panic] is a failed [ASSERT] or an explicit
    [PANIC]; [Err Fault] is an access outside the objects the code may touch
    (null or dangling pointer, array index out of range), which C leaves
    undefined; [Err Timeout] is a loop that has used up the fuel it was given,
    so a theorem that concludes [Ok] also shows that the loop stops. *)
Inductive err := Panic | Fault | Timeout.

Inductive res (A : Type) :=
| Ok (a : A)
| Err (e : err).
Arguments Ok {A} a.
Arguments Err {A} e.

#[global] Instance err_eq_dec : EqDecision err.
Proof. solve_decision. Defined.

#[global] Instance res_eq_dec `{EqDecision A} : EqDecision (res A).
Proof. solve_decision. Defined.

(** Kernel code with state [S]: explicit state passing with failure. *)
Definition ST (S A : Type) : Type := S → res (A * S).

#[global] Instance ST_ret S : MRet (ST S) := λ A a s, Ok (a, s).

#[global] Instance ST_bind S : MBind (ST S) := λ A B k m s,
  match m s with
  | Ok (a, s') => k a s'
  | Err e => Err e
  end.

Definition fail {S A} (e : err) : ST S A := λ _, Err e.
Definition get {S} : ST S S := λ s, Ok (s, s).
Definition put {S} (s : S) : ST S unit := λ _, Ok (tt, s).
Definition modify {S} (f : S → S) : ST S unit := λ s, Ok (tt, f s).
Definition gets {S A} (f : S → A) : ST S A := λ s, Ok (f s, s).

(** [ASSERT (b)]. *)
Definition ASSERT {S} (b : bool) : ST S unit := if b then mret tt else fail Panic.

(** Reading through a partial map: [None] is an invalid access. *)
Definition deref {S A} (o : option A) : ST S A :=
  match o with Some a => mret a | None => fail Fault end.

(** A result that does not depend on the state. *)
Definition lift {S A} (r : res A) : ST S A := λ s,
  match r with Ok a => Ok (a, s) | Err e => Err e end.

(** Runs [m] on the part of the state that [g] reads and [p] writes. *)
Definition zoom {S T A} (g : S → T) (p : T → S → S) (m : ST T A) : ST S A := λ s,
  match m (g s) with
  | Ok (a, t) => Ok (a, p t s)
  | Err e => Err e
  end.

(** ** Lemmas on runs *)
Section runs.
Context {S A B : Type}.

Lemma run_bind_ok (m : ST S A) (k : A → ST S B) s a s' :
  m s = Ok (a, s') → (m ≫= k) s = k a s'.
Proof. intros H. unfold mbind, ST_bind. by rewrite H. Qed.

Lemma run_bind_err (m : ST S A) (k : A → ST S B) s e :
  m s = Err e → (m ≫= k) s = Err e.
Proof. intros H. unfold mbind, ST_bind. by rewrite H. Qed.

Lemma run_bind_inv (m : ST S A) (k : A → ST S B) s b s' :
  (m ≫= k) s = Ok (b, s') → ∃ a s1, m s = Ok (a, s1) ∧ k a s1 = Ok (b, s').
Proof.
  unfold mbind, ST_bind. destruct (m s) as [[a s1]|]; naive_solver.
Qed.

Lemma run_assert (b : bool) s : b = true → @ASSERT S b s = Ok (tt, s).
Proof. by intros ->. Qed.

Lemma run_assert_fail (b : bool) s : b = false → @ASSERT S b s = Err Panic.
Proof. by intros ->. Qed.

Lemma run_zoom_ok {T} (g : S → T) (p : T → S → S) (m : ST T A) s a t :
  m (g s) = Ok (a, t) → zoom g p m s = Ok (a, p t s).
Proof. intros H. unfold zoom. by rewrite H. Qed.

Lemma run_zoom_err {T} (g : S → T) (p : T → S → S) (m : ST T A) s e :
  m (g s) = Err e → zoom g p m s = Err e.
Proof. intros H. unfold zoom. by rewrite H. Qed.

Lemma run_deref (o : option A) s a : o = Some a → @deref S A o s = Ok (a, s).
Proof. by intros ->. Qed.
End runs.

(** Runs one bind whose first action is known, by rewriting or by [H]. *)
Ltac run_with H := erewrite run_bind_ok; [| exact H].
Ltac run_assert := erewrite run_bind_ok; [| apply run_assert ].
Ltac run_deref := erewrite run_bind_ok; [| apply run_deref ].

(** Case analysis on a boolean test under its reflection lemma. *)
Ltac bcase :=
  match goal with
  | |- context [Z.ltb ?a ?b] => destruct (Z.ltb_spec a b)
  | |- context [Z.leb ?a ?b] => destruct (Z.leb_spec a b)
  | |- context [Z.eqb ?a ?b] => destruct (Z.eqb_spec a b)
  | |- context [Nat.ltb ?a ?b] => destruct (Nat.ltb_spec a b)
  | |- context [Nat.leb ?a ?b] => destruct (Nat.leb_spec a b)
  | |- context [Nat.eqb ?a ?b] => destruct (Nat.eqb_spec a b)
  | |- context [N.ltb ?a ?b] => destruct (N.ltb_spec a b)
  | |- context [N.leb ?a ?b] => destruct (N.leb_spec a b)
  | |- context [N.eqb ?a ?b] => destruct (N.eqb_spec a b)
  end.

(** [lia] with the defining equations of division and remainder. *)
Ltac divlia := Z.to_euclidean_division_equations; lia.

(** ** What every run keeps *)

(** Each successful run of [m] is a step of [R]. *)
Definition preserves {S A} (R : relation S) (m : ST S A) : Prop := ∀ s a s', m s = Ok (a, s') → R s s'.

Section preserves.
Context {S : Type} (R : relation S) `{!PreOrder R}.

Lemma preserves_bind {A B} (m : ST S A) (k : A → ST S B) :
  preserves R m → (∀ a, preserves R (k a)) → preserves R (m ≫= k).
Proof. intros Hm Hk s b s' (a & s1 & H1 & H2)%run_bind_inv. transitivity s1; [by eapply Hm|by eapply Hk]. Qed.

Lemma preserves_ret {A} (a : A) : preserves R (mret a).
Proof. intros s b s' [= _ <-]. reflexivity. Qed.
Lemma preserves_get : preserves R get.
Proof. intros s b s' [= _ <-]. reflexivity. Qed.
Lemma preserves_gets {A} (f : S → A) : preserves R (gets f).
Proof. intros s b s' [= _ <-]. reflexivity. Qed.
Lemma preserves_fail {A} e : preserves R (@fail S A e).
Proof. by intros s b s'. Qed.
Lemma preserves_assert b : preserves R (ASSERT b).
Proof. destruct b; [apply preserves_ret|apply preserves_fail]. Qed.
Lemma preserves_deref {A} (o : option A) : preserves R (deref o).
Proof. destruct o; [apply preserves_ret|apply preserves_fail]. Qed.
Lemma preserves_lift {A} (r : res A) : preserves R (lift r).
Proof. intros s b s'. unfold lift. destruct r; [|done]. intros [= _ <-]. reflexivity. Qed.
Lemma preserves_modify f : (∀ s, R s (f s)) → preserves R (modify f).
Proof. intros Hf s b s' [= _ <-]. apply Hf. Qed.
Lemma preserves_zoom {T A} (g : S → T) (p : T → S → S) (m : ST T A) : (∀ s t, R s (p t s)) → preserves R (zoom g p m).
Proof. intros Hp s b s'. unfold zoom. destruct (m (g s)) as [[a t]|]; [|done]. intros [= _ <-]. apply Hp. Qed.
Lemma preserves_zoom_with {T A} (Q : relation T) (g : S → T) (p : T → S → S) (m : ST T A) :
  preserves Q m → (∀ s t, Q (g s) t → R s (p t s)) → preserves R (zoom g p m).
Proof.
  intros Hm Hp s b s'. unfold zoom. destruct (m (g s)) as [[a t]|] eqn:E; [|done]. intros [= _ <-]. apply Hp. by eapply Hm.
Qed.
End preserves.

Create HintDb preserves discriminated.
#[export] Hint Resolve preserves_ret preserves_get preserves_gets preserves_fail preserves_assert preserves_deref
  preserves_lift : preserves.

(** Takes a program apart down to operations that the hints cover. *)
Ltac preserve :=
  repeat first
    [ progress intros
    | solve [eauto 2 with preserves typeclass_instances]
    | apply preserves_bind; [typeclasses eauto| |]
    | case_match ].
