(* ===== verification/CInt.v ===== *)
(** * C integers of the i386 target

    Values are [Z]; every C type is the range its values live in and a
    conversion into that range.  Unsigned conversions wrap as C prescribes;
    the conversions to signed types and signed overflow wrap in two's
    complement, which is what the compiler of [src/pintos/Make.config] emits
    on i386.  Division and remainder truncate toward zero ([Z.quot], [Z.rem]).
    The macros of [src/pintos/lib/round.h] are here too. *)
From S2P Require Import Prelude.

Open Scope Z_scope.

(** Conversion to [uint32_t], [unsigned], [size_t], [block_sector_t]. *)
Definition u32 (x : Z) : Z := x mod 2 ^ 32.
(** Conversion to [int], [int32_t], [off_t]. *)
Definition s32 (x : Z) : Z := (x + 2 ^ 31) mod 2 ^ 32 - 2 ^ 31.
(** Conversion to [int64_t], [long long]. *)
Definition s64 (x : Z) : Z := (x + 2 ^ 63) mod 2 ^ 64 - 2 ^ 63.
(** Conversion to [unsigned long long]. *)
Definition u64 (x : Z) : Z := x mod 2 ^ 64.
(** Conversion to [uint8_t], [unsigned char]. *)
Definition u8 (x : Z) : Z := x mod 2 ^ 8.

Definition in_u32 (x : Z) : Prop := 0 ≤ x < 2 ^ 32.
Definition in_s32 (x : Z) : Prop := - 2 ^ 31 ≤ x < 2 ^ 31.
Definition in_s64 (x : Z) : Prop := - 2 ^ 63 ≤ x < 2 ^ 63.
Definition in_u8 (x : Z) : Prop := 0 ≤ x < 2 ^ 8.

(** [lib/round.h], with [/] on [unsigned] operands. *)
Definition ROUND_UP (x step : Z) : Z := Z.quot (x + step - 1) step * step.
Definition DIV_ROUND_UP (x step : Z) : Z := Z.quot (x + step - 1) step.
Definition ROUND_DOWN (x step : Z) : Z := Z.quot x step * step.

Create HintDb cint.
Create Rewrite HintDb cint.
#[export] Hint Unfold in_u32 in_s32 in_s64 in_u8 : cint.

(** Every conversion lands in its type and is the identity on it. *)
Lemma u32_range x : in_u32 (u32 x).
Proof. apply Z.mod_pos_bound. lia. Qed.
Lemma s32_range x : in_s32 (s32 x).
Proof.
  unfold in_s32, s32. pose proof (Z.mod_pos_bound (x + 2 ^ 31) (2 ^ 32) ltac:(lia)). lia.
Qed.
Lemma u32_id x : in_u32 x → u32 x = x.
Proof. unfold in_u32, u32. apply Z.mod_small. Qed.
Lemma s32_id x : in_s32 x → s32 x = x.
Proof. unfold in_s32, s32. intros. rewrite Z.mod_small; lia. Qed.
Lemma s64_id x : in_s64 x → s64 x = x.
Proof. unfold in_s64, s64. intros. rewrite Z.mod_small; lia. Qed.
Lemma u8_id x : in_u8 x → u8 x = x.
Proof. unfold in_u8, u8. apply Z.mod_small. Qed.
Lemma u8_range x : in_u8 (u8 x).
Proof. apply Z.mod_pos_bound. lia. Qed.

#[export] Hint Resolve u32_range s32_range u8_range : cint.
#[export] Hint Rewrite u32_id s32_id s64_id u8_id using (unfold in_u32, in_s32, in_s64, in_u8 in *; lia) : cint.

(** Removes conversions whose argument is provably in range. *)
Ltac cint := autorewrite with cint.

(** Truncating division of a non-negative dividend is the Euclidean one. *)
Lemma quot_div_nonneg a b : 0 ≤ a → 0 < b → Z.quot a b = a / b.
Proof. intros. apply Z.quot_div_nonneg; lia. Qed.

Lemma DIV_ROUND_UP_div x step :
  0 ≤ x → 0 < step → DIV_ROUND_UP x step = (x + step - 1) / step.
Proof. intros. unfold DIV_ROUND_UP. apply quot_div_nonneg; lia. Qed.

(** [DIV_ROUND_UP x step] is the least [n] with [x <= n * step]. *)
Lemma DIV_ROUND_UP_spec x step n :
  0 ≤ x → 0 < step → DIV_ROUND_UP x step ≤ n ↔ x ≤ n * step.
Proof.
  intros Hx Hs. rewrite DIV_ROUND_UP_div by lia.
  assert (Hd := Z.div_mod (x + step - 1) step ltac:(lia)).
  assert (Hm := Z.mod_pos_bound (x + step - 1) step Hs).
  set (d := (x + step - 1) / step) in *. set (r := (x + step - 1) mod step) in *.
  split; intros; nia.
Qed.

Lemma DIV_ROUND_UP_0 step : 0 < step → DIV_ROUND_UP 0 step = 0.
Proof.
  intros. rewrite DIV_ROUND_UP_div by lia. apply Z.div_small. lia.
Qed.

Lemma DIV_ROUND_UP_nonneg x step : 0 ≤ x → 0 < step → 0 ≤ DIV_ROUND_UP x step.
Proof. intros. rewrite DIV_ROUND_UP_div by lia. apply Z.div_pos; lia. Qed.

Lemma DIV_ROUND_UP_mono x y step :
  0 ≤ x ≤ y → 0 < step → DIV_ROUND_UP x step ≤ DIV_ROUND_UP y step.
Proof. intros. rewrite !DIV_ROUND_UP_div by lia. apply Z.div_le_mono; lia. Qed.
