(* ===== verification/RealArith.v ===== *)
(** * Fixed-point arithmetic and the MLFQS formulas

    [src/pintos/threads/real-arithmetic.c] and the arithmetic of the
    multi-level feedback queue scheduler in [src/pintos/threads/thread.c]
    ([thread_tick], [thread_update_mlfqs_priority], the two getters that
    report scaled values). *)
From S2P Require Import Prelude CInt.

Open Scope Z_scope.

Module RealArith.

(** ** real-arithmetic.c *)

Definition q : Z := 14.
Definition f : Z := Z.shiftl 1 q.

Definition int_to_fp (n : Z) : Z := s32 (n * f).

Definition fp_to_int (x : Z) (round_to_nearest : bool) : Z :=
  if round_to_nearest then
    if 0 <=? x then Z.quot (s32 (x + Z.quot f 2)) f
    else Z.quot (s32 (x - Z.quot f 2)) f
  else Z.quot x f.

Definition fp_mul (x y : Z) : Z := s32 (Z.quot (s64 (x * y)) f).

(** The result for [y = 0] is not meaningful: the processor traps. *)
Definition fp_div (x y : Z) : Z := s32 (Z.quot (s64 (x * f)) y).

(** ** The formulas of thread.c *)

Definition PRI_MIN : Z := 0.
Definition PRI_DEFAULT : Z := 31.
Definition PRI_MAX : Z := 63.

(** [load_avg = 59 * load_avg / 60 + int_to_fp (ready_threads) / 60]. *)
Definition next_load_avg (load_avg ready_threads : Z) : Z :=
  s32 (Z.quot (s32 (59 * load_avg)) 60 + Z.quot (int_to_fp ready_threads) 60).

(** [fp_mul (fp_div (2*load_avg, 2*load_avg + int_to_fp (1)), recent_cpu)
    + int_to_fp (nice)]. *)
Definition next_recent_cpu (load_avg recent_cpu nice : Z) : Z :=
  s32 (fp_mul (fp_div (s32 (2 * load_avg)) (s32 (s32 (2 * load_avg) + int_to_fp 1)))
         recent_cpu
       + int_to_fp nice).

(** The value [thread_update_mlfqs_priority] stores in [t->priority]. *)
Definition mlfqs_priority (recent_cpu nice : Z) : Z :=
  fp_to_int (s32 (s32 (int_to_fp PRI_MAX - Z.quot recent_cpu 4)
                  - s32 (int_to_fp nice * 2))) true.

(** [thread_get_load_avg] and [thread_get_recent_cpu]. *)
Definition thread_get_load_avg (load_avg : Z) : Z := fp_to_int (s32 (100 * load_avg)) true.
Definition thread_get_recent_cpu (recent_cpu : Z) : Z :=
  fp_to_int (s32 (100 * recent_cpu)) true.

(** ** Lemmas *)

Lemma f_val : f = 16384.
Proof. reflexivity. Qed.

(** Distance between a truncated quotient and the exact one. *)
Lemma quot_close a b : 0 < b → Z.abs (a - Z.quot a b * b) < b.
Proof.
  intros Hb. pose proof (Z.quot_rem' a b). pose proof (Z.rem_bound_abs a b ltac:(lia)).
  replace (a - Z.quot a b * b) with (Z.rem a b) by lia. lia.
Qed.

Lemma quot_sign a b : 0 < b → (0 ≤ a → 0 ≤ Z.quot a b) ∧ (a ≤ 0 → Z.quot a b ≤ 0).
Proof.
  intros Hb. split; intros Ha.
  - by apply Z.quot_pos.
  - rewrite <- (Z.opp_involutive a), Z.quot_opp_l by lia.
    pose proof (Z.quot_pos (- a) b ltac:(lia) Hb). lia.
Qed.

Lemma quot_abs_le a b : 0 < b → Z.abs (Z.quot a b) * b ≤ Z.abs a.
Proof.
  intros Hb. rewrite <- Z.quot_abs by lia. rewrite (Z.abs_eq b) by lia.
  pose proof (Z.mul_quot_le (Z.abs a) b ltac:(lia) ltac:(lia)). lia.
Qed.

Lemma int_to_fp_exact n : - 2 ^ 17 ≤ n < 2 ^ 17 → int_to_fp n = n * f.
Proof. intros. unfold int_to_fp. rewrite f_val. cint. lia. Qed.

(** Without overflow, rounding is to a nearest integer. *)
Lemma fp_to_int_nearest x :
  - 2 ^ 31 + f / 2 ≤ x < 2 ^ 31 - f / 2 → Z.abs (2 * (x - fp_to_int x true * f)) ≤ f.
Proof.
  unfold fp_to_int. rewrite f_val. change (Z.quot 16384 2) with 8192.
  change (16384 / 2) with 8192. intros.
  destruct (Z.leb_spec 0 x); cint; divlia.
Qed.

(** The coefficient that decays [recent_cpu] is at most [2 la / (2 la + 1)]. *)
Lemma decay_coefficient la :
  0 ≤ la ≤ 2 ^ 26 →
  let c := fp_div (s32 (2 * la)) (s32 (s32 (2 * la) + int_to_fp 1)) in
  0 ≤ c ∧ c * (2 * la + f) ≤ 2 * la * f.
Proof.
  intros Hla. simpl. rewrite int_to_fp_exact, f_val by lia.
  rewrite (s32_id (2 * la)) by (unfold in_s32; lia).
  rewrite (s32_id (2 * la + _)) by (unfold in_s32; lia).
  unfold fp_div. rewrite f_val, s64_id by (unfold in_s64; lia).
  pose proof (Z.quot_pos (2 * la * 16384) (2 * la + 1 * 16384) ltac:(lia) ltac:(lia)).
  pose proof (Z.mul_quot_le (2 * la * 16384) (2 * la + 1 * 16384) ltac:(lia) ltac:(lia)).
  set (c := Z.quot _ _) in *.
  assert (c ≤ 16384) by nia.
  rewrite s32_id by (unfold in_s32; lia). lia.
Qed.

(** ** Properties *)

(** Converting an integer to fixed point and back is the identity, with
    either rounding, for every integer the 17.14 format can hold. *)
Theorem fp_roundtrip n round_to_nearest :
  - 2 ^ 17 < n < 2 ^ 17 → fp_to_int (int_to_fp n) round_to_nearest = n.
Proof.
  intros Hn. rewrite int_to_fp_exact by lia.
  unfold fp_to_int. rewrite f_val. change (Z.quot 16384 2) with 8192.
  destruct round_to_nearest; [destruct (Z.leb_spec 0 (n * 16384))|]; cint; divlia.
Qed.

Lemma fp_roundtrip_witness :
  fp_to_int (int_to_fp (-59)) true = -59 ∧ fp_to_int (int_to_fp 131071) false = 131071.
Proof. split; apply fp_roundtrip; lia. Defined.

(** Products and quotients of fixed-point numbers are exact up to less
    than one unit in the last place whenever the true result fits an [int],
    and the intermediate 64-bit value never overflows. *)
Theorem fp_mul_div_accurate x y :
  in_s32 x → in_s32 y →
  (Z.abs (x * y) < 2 ^ 31 * f → Z.abs (fp_mul x y * f - x * y) < f) ∧
  (y ≠ 0 → Z.abs (x * f) < 2 ^ 31 * Z.abs y →
   Z.abs (fp_div x y * y - x * f) < Z.abs y).
Proof.
  unfold in_s32. rewrite f_val. intros Hx Hy. split.
  - intros Hr. unfold fp_mul. rewrite f_val, s64_id by (unfold in_s64; nia).
    pose proof (quot_close (x * y) 16384 ltac:(lia)).
    pose proof (quot_abs_le (x * y) 16384 ltac:(lia)).
    rewrite s32_id by (unfold in_s32; lia). lia.
  - intros Hy0 Hr. unfold fp_div. rewrite f_val, s64_id by (unfold in_s64; nia).
    pose proof (Z.quot_rem' (x * 16384) y).
    pose proof (Z.rem_bound_abs (x * 16384) y Hy0).
    assert (Z.abs (Z.quot (x * 16384) y) < 2 ^ 31).
    { rewrite <- Z.quot_abs by done.
      apply Z.quot_lt_upper_bound; lia. }
    rewrite s32_id by (unfold in_s32; lia). lia.
Qed.

Lemma fp_mul_div_accurate_witness :
  Z.abs (fp_mul (int_to_fp 3) (-40000) * f - int_to_fp 3 * -40000) < f ∧
  Z.abs (fp_div 59 (-60) * -60 - 59 * f) < Z.abs (-60).
Proof.
  split.
  - apply (fp_mul_div_accurate (int_to_fp 3) (-40000)); vm_compute; intuition congruence.
  - apply (fp_mul_div_accurate 59 (-60)); vm_compute; intuition congruence.
Defined.

(** With at most [n] runnable threads the load average stays between 0
    and [n], and a thread that is charged at most one tick per timer interrupt
    for the 100 interrupts between two updates keeps [recent_cpu] within
    [240 n + 20]: no step of the two recurrences overflows an [int]. *)
Theorem mlfqs_recurrences_bounded n la ready rc nice :
  1 ≤ n ≤ 512 → 0 ≤ la ≤ n * f → 0 ≤ ready ≤ n → -20 ≤ nice ≤ 20 →
  Z.abs rc ≤ (240 * n + 120) * f →
  0 ≤ next_load_avg la ready ≤ n * f ∧
  Z.abs (next_recent_cpu la rc nice) ≤ (240 * n + 20) * f.
Proof.
  intros Hn Hla Hr Hnice Hrc. split.
  - unfold next_load_avg. rewrite int_to_fp_exact by lia. rewrite f_val in *.
    rewrite (s32_id (59 * la)) by (unfold in_s32; lia).
    assert (0 ≤ Z.quot (59 * la) 60 + Z.quot (ready * 16384) 60 ≤ n * 16384) by divlia.
    rewrite s32_id by (unfold in_s32; lia). lia.
  - destruct (decay_coefficient la) as [Hc0 Hc1]; [rewrite f_val in *; lia|].
    unfold next_recent_cpu. set (c := fp_div _ _) in *.
    rewrite (int_to_fp_exact nice) by lia. rewrite f_val in *.
    assert (Hcf : c * (2 * n + 1) ≤ 2 * n * 16384) by nia.
    assert (Hab : Z.abs (c * rc) = c * Z.abs rc) by (rewrite Z.abs_mul, Z.abs_eq; lia).
    pose proof (quot_abs_le (c * rc) 16384 ltac:(lia)) as Hq.
    assert (Hm : Z.abs (c * rc) * (2 * n + 1) ≤ 2 * n * 16384 * ((240 * n + 120) * 16384))
      by (rewrite Hab; nia).
    assert (Hqb : Z.abs (Z.quot (c * rc) 16384) ≤ 240 * n * 16384) by nia.
    unfold fp_mul. rewrite f_val, s64_id by (unfold in_s64; nia).
    rewrite (s32_id (Z.quot _ _)) by (unfold in_s32; lia).
    rewrite s32_id by (unfold in_s32; lia). lia.
Qed.

Lemma mlfqs_recurrences_bounded_witness :
  0 ≤ next_load_avg (int_to_fp 3) 5 ≤ 60 * f ∧
  Z.abs (next_recent_cpu (int_to_fp 3) (int_to_fp 1000) (-20)) ≤ (240 * 60 + 20) * f.
Proof. apply (mlfqs_recurrences_bounded 60); vm_compute; intuition congruence. Defined.

(** The priority that the feedback scheduler computes is a nearest
    integer to [PRI_MAX - recent_cpu / 4 - 2 nice], and it is not clamped to
    the range [PRI_MIN .. PRI_MAX] that [thread.h] declares: a thread with
    [nice] -20 gets priority 103, one with [nice] 20 and 100 ticks of
    [recent_cpu] gets -2. *)
Theorem mlfqs_priority_nearest_unclamped :
  (∀ rc nice, Z.abs rc ≤ 2 ^ 30 → -20 ≤ nice ≤ 20 →
     Z.abs (2 * (PRI_MAX * f - Z.quot rc 4 - 2 * nice * f - mlfqs_priority rc nice * f)) ≤ f) ∧
  mlfqs_priority 0 (-20) = 103 ∧ PRI_MAX < 103 ∧
  mlfqs_priority (int_to_fp 100) 20 = -2 ∧ -2 < PRI_MIN.
Proof.
  split; [|vm_compute; intuition congruence].
  intros rc nice Hrc Hnice. unfold mlfqs_priority. unfold PRI_MAX.
  rewrite !int_to_fp_exact by lia. rewrite f_val.
  pose proof (quot_abs_le rc 4 ltac:(lia)).
  rewrite (s32_id (63 * _ - _)), (s32_id (nice * _ * _)) by (unfold in_s32; lia).
  rewrite s32_id by (unfold in_s32; lia).
  pose proof (fp_to_int_nearest (63 * 16384 - Z.quot rc 4 - nice * 16384 * 2)) as H0.
  rewrite f_val in H0. change (16384 / 2) with 8192 in H0. lia.
Qed.

End RealArith.
