(* ===== verification/CList.v ===== *)
(** * Doubly linked lists: [src/pintos/lib/kernel/list.c]

    The store is a heap of [struct list_elem] cells indexed by address, and
    each operation performs the loads and stores of the C function, in order,
    with its assertions.  A dereference of null or of an address that holds no
    cell is [Fault].  A [list_less_func] with its [aux] is a function on
    element addresses: it reads the objects that contain the elements, which
    no list operation touches.

    Loops run on fuel: one unit more than the number of cells in the heap,
    which bounds the length of every list in it and the passes of
    [list_sort]. *)
From S2P Require Import Prelude.

Module CList.

Abbreviation ptr := N.
Definition NULL : ptr := 0%N.

(** [struct list_elem]. *)
Record list_elem := ListElem { prev : ptr; next : ptr }.

(** [struct list]: the addresses of its two header elements. *)
Record clist := CListAt { lhead : ptr; ltail : ptr }.

Abbreviation heap := (gmap ptr list_elem).
Abbreviation M := (ST heap).

Definition load (p : ptr) : M list_elem :=
  λ h, if decide (p = NULL) then Err Fault else deref (h !! p) h.
Definition store (p : ptr) (e : list_elem) : M unit :=
  load p ;; modify (insert p e).
Definition set_prev (p v : ptr) : M unit :=
  e ← load p; store p (ListElem v (next e)).
Definition set_next (p v : ptr) : M unit :=
  e ← load p; store p (ListElem (prev e) v).
Definition get_prev (p : ptr) : M ptr := e ← load p; mret (prev e).
Definition get_next (p : ptr) : M ptr := e ← load p; mret (next e).

Definition ptr_eqb (a b : ptr) : bool := (a =? b)%N.
Definition loop_fuel : M nat := gets (λ h, S (size h)).

(** ** Element tests *)

Definition is_head (elem : ptr) : M bool :=
  if ptr_eqb elem NULL then mret false
  else e ← load elem; mret (ptr_eqb (prev e) NULL && negb (ptr_eqb (next e) NULL)).

Definition is_interior (elem : ptr) : M bool :=
  if ptr_eqb elem NULL then mret false
  else e ← load elem; mret (negb (ptr_eqb (prev e) NULL) && negb (ptr_eqb (next e) NULL)).

Definition is_tail (elem : ptr) : M bool :=
  if ptr_eqb elem NULL then mret false
  else e ← load elem; mret (negb (ptr_eqb (prev e) NULL) && ptr_eqb (next e) NULL).

(** [a || b] with C's short circuit. *)
Definition orM (a b : M bool) : M bool := x ← a; if x : bool then mret true else b.

(** ** Traversal *)

Definition list_init (l : clist) : M unit :=
  set_prev (lhead l) NULL ;; set_next (lhead l) (ltail l) ;;
  set_prev (ltail l) (lhead l) ;; set_next (ltail l) NULL.

Definition list_begin (l : clist) : M ptr := get_next (lhead l).

Definition list_next (elem : ptr) : M ptr :=
  b ← orM (is_head elem) (is_interior elem); ASSERT b ;; get_next elem.

Definition list_end (l : clist) : ptr := ltail l.

Definition list_rbegin (l : clist) : M ptr := get_prev (ltail l).

Definition list_prev (elem : ptr) : M ptr :=
  b ← orM (is_interior elem) (is_tail elem); ASSERT b ;; get_prev elem.

Definition list_rend (l : clist) : ptr := lhead l.
Definition list_head (l : clist) : ptr := lhead l.
Definition list_tail (l : clist) : ptr := ltail l.

(** ** Insertion and removal *)

Definition list_insert (before elem : ptr) : M unit :=
  b ← orM (is_interior before) (is_tail before); ASSERT b ;;
  ASSERT (negb (ptr_eqb elem NULL)) ;;
  bp ← get_prev before;
  set_prev elem bp ;;
  set_next elem before ;;
  bp ← get_prev before;
  set_next bp elem ;;
  set_prev before elem.

Definition list_splice (before first last : ptr) : M unit :=
  b ← orM (is_interior before) (is_tail before); ASSERT b ;;
  if ptr_eqb first last then mret tt
  else
    last ← list_prev last;
    b ← is_interior first; ASSERT b ;;
    b ← is_interior last; ASSERT b ;;
    (* Cleanly remove FIRST...LAST from its current list. *)
    fp ← get_prev first; ln ← get_next last; set_next fp ln ;;
    ln ← get_next last; fp ← get_prev first; set_prev ln fp ;;
    (* Splice FIRST...LAST into new list. *)
    bp ← get_prev before; set_prev first bp ;;
    set_next last before ;;
    bp ← get_prev before; set_next bp first ;;
    set_prev before last.

Definition list_push_front (l : clist) (elem : ptr) : M unit :=
  b ← list_begin l; list_insert b elem.

Definition list_push_back (l : clist) (elem : ptr) : M unit :=
  list_insert (list_end l) elem.

Definition list_remove (elem : ptr) : M ptr :=
  b ← is_interior elem; ASSERT b ;;
  p ← get_prev elem; n ← get_next elem; set_next p n ;;
  n ← get_next elem; p ← get_prev elem; set_prev n p ;;
  get_next elem.

Definition list_empty (l : clist) : M bool :=
  b ← list_begin l; mret (ptr_eqb b (list_end l)).

Definition list_front (l : clist) : M ptr :=
  e ← list_empty l; ASSERT (negb e) ;; get_next (lhead l).

Definition list_back (l : clist) : M ptr :=
  e ← list_empty l; ASSERT (negb e) ;; get_prev (ltail l).

Definition list_pop_front (l : clist) : M ptr :=
  front ← list_front l; list_remove front ;; mret front.

Definition list_pop_back (l : clist) : M ptr :=
  back ← list_back l; list_remove back ;; mret back.

(** ** Size and reversal *)

Fixpoint list_size_loop (fuel : nat) (l : clist) (e : ptr) (cnt : nat) : M nat :=
  match fuel with
  | O => fail Timeout
  | S fuel =>
    if ptr_eqb e (list_end l) then mret cnt
    else e' ← list_next e; list_size_loop fuel l e' (S cnt)
  end.

Definition list_size (l : clist) : M nat :=
  fuel ← loop_fuel; b ← list_begin l; list_size_loop fuel l b 0.

(** [swap (&e->prev, &e->next)] *)
Definition swap_links (e : ptr) : M unit :=
  t ← get_prev e; n ← get_next e; set_prev e n ;; set_next e t.

Fixpoint list_reverse_loop (fuel : nat) (l : clist) (e : ptr) : M unit :=
  match fuel with
  | O => fail Timeout
  | S fuel =>
    if ptr_eqb e (list_end l) then mret tt
    else swap_links e ;; e' ← get_prev e; list_reverse_loop fuel l e'
  end.

Definition list_reverse (l : clist) : M unit :=
  e ← list_empty l;
  if e : bool then mret tt
  else
    fuel ← loop_fuel; b ← list_begin l; list_reverse_loop fuel l b ;;
    (* swap (&list->head.next, &list->tail.prev) *)
    t ← get_next (lhead l); u ← get_prev (ltail l);
    set_next (lhead l) u ;; set_prev (ltail l) t ;;
    (* swap (&list->head.next->prev, &list->tail.prev->next) *)
    hn ← get_next (lhead l); tp ← get_prev (ltail l);
    t ← get_prev hn; u ← get_next tp;
    set_prev hn u ;; set_next tp t.

(** ** Operations with an ordering *)

Section ordered.
Context (less : ptr → ptr → bool).

Fixpoint is_sorted_loop (fuel : nat) (a b : ptr) : M bool :=
  match fuel with
  | O => fail Timeout
  | S fuel =>
    a ← list_next a;
    if ptr_eqb a b then mret true
    else p ← list_prev a;
         if less a p then mret false else is_sorted_loop fuel a b
  end.

Definition is_sorted (a b : ptr) : M bool :=
  if ptr_eqb a b then mret true else fuel ← loop_fuel; is_sorted_loop fuel a b.

Fixpoint find_end_of_run_loop (fuel : nat) (a b : ptr) : M ptr :=
  match fuel with
  | O => fail Timeout
  | S fuel =>
    a ← list_next a;
    if ptr_eqb a b then mret a
    else p ← list_prev a;
         if negb (less a p) then find_end_of_run_loop fuel a b else mret a
  end.

Definition find_end_of_run (a b : ptr) : M ptr :=
  ASSERT (negb (ptr_eqb a NULL)) ;; ASSERT (negb (ptr_eqb b NULL)) ;;
  ASSERT (negb (ptr_eqb a b)) ;;
  fuel ← loop_fuel; find_end_of_run_loop fuel a b.

Fixpoint inplace_merge_loop (fuel : nat) (a0 a1b0 b1 : ptr) : M unit :=
  match fuel with
  | O => fail Timeout
  | S fuel =>
    if ptr_eqb a0 a1b0 || ptr_eqb a1b0 b1 then mret tt
    else if negb (less a1b0 a0) then
      a0 ← list_next a0; inplace_merge_loop fuel a0 a1b0 b1
    else
      a1b0 ← list_next a1b0;
      p ← list_prev a1b0;
      list_splice a0 p a1b0 ;;
      inplace_merge_loop fuel a0 a1b0 b1
  end.

Definition inplace_merge (a0 a1b0 b1 : ptr) : M unit :=
  ASSERT (negb (ptr_eqb a0 NULL)) ;; ASSERT (negb (ptr_eqb a1b0 NULL)) ;;
  ASSERT (negb (ptr_eqb b1 NULL)) ;;
  s ← is_sorted a0 a1b0; ASSERT s ;;
  s ← is_sorted a1b0 b1; ASSERT s ;;
  fuel ← loop_fuel; inplace_merge_loop fuel a0 a1b0 b1.

(** One pass of [list_sort]: the [for] loop from [a0], returning the
    number of output runs. *)
Fixpoint list_sort_pass (fuel : nat) (l : clist) (a0 : ptr) (output_run_cnt : nat) : M nat :=
  match fuel with
  | O => fail Timeout
  | S fuel =>
    if ptr_eqb a0 (list_end l) then mret output_run_cnt
    else
      let output_run_cnt := S output_run_cnt in
      a1b0 ← find_end_of_run a0 (list_end l);
      if ptr_eqb a1b0 (list_end l) then mret output_run_cnt
      else
        b1 ← find_end_of_run a1b0 (list_end l);
        inplace_merge a0 a1b0 b1 ;;
        list_sort_pass fuel l b1 output_run_cnt
  end.

Fixpoint list_sort_loop (fuel : nat) (l : clist) : M unit :=
  match fuel with
  | O => fail Timeout
  | S fuel' =>
    pass_fuel ← loop_fuel;
    b ← list_begin l;
    cnt ← list_sort_pass pass_fuel l b 0;
    if (1 <? cnt)%nat then list_sort_loop fuel' l else mret tt
  end.

Definition list_sort (l : clist) : M unit :=
  fuel ← loop_fuel; list_sort_loop fuel l ;;
  b ← list_begin l; s ← is_sorted b (list_end l); ASSERT s.

Fixpoint insert_ordered_loop (fuel : nat) (l : clist) (elem e : ptr) : M ptr :=
  match fuel with
  | O => fail Timeout
  | S fuel =>
    if ptr_eqb e (list_end l) then mret e
    else if less elem e then mret e
    else e' ← list_next e; insert_ordered_loop fuel l elem e'
  end.

Definition list_insert_ordered (l : clist) (elem : ptr) : M unit :=
  ASSERT (negb (ptr_eqb elem NULL)) ;;
  fuel ← loop_fuel; b ← list_begin l;
  e ← insert_ordered_loop fuel l elem b;
  list_insert e elem.

Fixpoint list_unique_loop (fuel : nat) (l : clist) (duplicates : option clist)
    (elem : ptr) : M unit :=
  match fuel with
  | O => fail Timeout
  | S fuel =>
    nxt ← list_next elem;
    if ptr_eqb nxt (list_end l) then mret tt
    else if negb (less elem nxt) && negb (less nxt elem) then
      list_remove nxt ;;
      match duplicates with
      | Some d => list_push_back d nxt
      | None => mret tt
      end ;;
      list_unique_loop fuel l duplicates elem
    else list_unique_loop fuel l duplicates nxt
  end.

Definition list_unique (l : clist) (duplicates : option clist) : M unit :=
  e ← list_empty l;
  if e : bool then mret tt
  else fuel ← loop_fuel; b ← list_begin l; list_unique_loop fuel l duplicates b.

(** The loop of [list_max]; [list_min] is the same loop with the arguments
    of [less] exchanged. *)
Fixpoint list_extremum_loop (better : ptr → ptr → bool) (fuel : nat) (l : clist)
    (best e : ptr) : M ptr :=
  match fuel with
  | O => fail Timeout
  | S fuel =>
    if ptr_eqb e (list_end l) then mret best
    else
      let best := if better best e then e else best in
      e' ← list_next e; list_extremum_loop better fuel l best e'
  end.

Definition list_max (l : clist) : M ptr :=
  max ← list_begin l;
  if ptr_eqb max (list_end l) then mret max
  else fuel ← loop_fuel; e ← list_next max;
       list_extremum_loop (λ max e, less max e) fuel l max e.

Definition list_min (l : clist) : M ptr :=
  min ← list_begin l;
  if ptr_eqb min (list_end l) then mret min
  else fuel ← loop_fuel; e ← list_next min;
       list_extremum_loop (λ min e, less e min) fuel l min e.
End ordered.

End CList.
