(* ===== verification/CListFacts.v ===== *)
(** * Representation of linked lists and the functional behaviour of list.c

    [linked h p ns q] says that the cells [ns] are chained in both directions
    in heap [h], the first one pointing back to [p] and the last one forward
    to [q].  [is_list h l xs] is the invariant of [struct list]: the two
    headers and the elements [xs] between them form one chain without
    repetition that starts and ends at null.  Every operation is shown to be
    safe (no [Fault], no failed assertion), to terminate and to act on [xs] as
    its functional counterpart, leaving every other cell of the heap alone. *)
From S2P Require Import Prelude CList.
Import CList.

Fixpoint linked (h : heap) (p : ptr) (ns : list ptr) (q : ptr) : Prop :=
  match ns with
  | [] => True
  | n :: ns' =>
    h !! n = Some (ListElem p (match ns' with [] => q | m :: _ => m end)) ∧ linked h n ns' q
  end.

Definition first_or (q : ptr) (ns : list ptr) : ptr :=
  match ns with [] => q | n :: _ => n end.

Fixpoint last_or (p : ptr) (ns : list ptr) : ptr :=
  match ns with [] => p | n :: ns' => last_or n ns' end.

Definition dll (h : heap) (ns : list ptr) : Prop :=
  linked h NULL ns NULL ∧ NoDup ns ∧ NULL ∉ ns.

Definition nodes (l : clist) (xs : list ptr) : list ptr := lhead l :: xs ++ [ltail l].

Definition is_list (h : heap) (l : clist) (xs : list ptr) : Prop := dll h (nodes l xs).

(** [h'] differs from [h] only in cells of [ns], and has the same cells. *)
Definition frame (ns : list ptr) (h h' : heap) : Prop :=
  (∀ x, x ∉ ns → h' !! x = h !! x) ∧ dom h' = dom h.

Definition upd_prev (n v : ptr) (h : heap) : heap := alter (λ e, ListElem v (next e)) n h.
Definition upd_next (n v : ptr) (h : heap) : heap := alter (λ e, ListElem (prev e) v) n h.

(** ** Chains *)
Section chains.
Implicit Types (h : heap) (p q n v : ptr) (ns a b : list ptr).

Lemma first_or_app q a b : first_or q (a ++ b) = first_or (first_or q b) a.
Proof. by destruct a. Qed.
Lemma last_or_app p a b : last_or p (a ++ b) = last_or (last_or p a) b.
Proof. revert p. induction a; simpl; auto. Qed.

Lemma linked_app h p a b q :
  linked h p (a ++ b) q ↔ linked h p a (first_or q b) ∧ linked h (last_or p a) b q.
Proof.
  revert p. induction a as [|n a IH]; intros p; simpl; [tauto|].
  rewrite IH. destruct a; simpl; [destruct b|]; simpl; tauto.
Qed.

Lemma linked_frame h h' p ns q :
  (∀ n, n ∈ ns → h' !! n = h !! n) → linked h p ns q → linked h' p ns q.
Proof.
  revert p. induction ns as [|n ns IH]; intros p Hf; simpl; [done|].
  intros [H1 H2]. split; [|apply IH; set_solver].
  rewrite Hf by set_solver. done.
Qed.

Lemma linked_lookup h p a n b q :
  linked h p (a ++ n :: b) q → h !! n = Some (ListElem (last_or p a) (first_or q b)).
Proof. rewrite linked_app. simpl. destruct b; naive_solver. Qed.

Lemma linked_upd_next_last h p ns n q v :
  n ∉ ns → linked h p (ns ++ [n]) q → linked (upd_next n v h) p (ns ++ [n]) v.
Proof.
  intros Hn. rewrite !linked_app. simpl. intros (H1 & H2 & _). split; [|split; [|done]].
  - eapply linked_frame; [|done]. intros m Hm. unfold upd_next.
    apply lookup_alter_ne. set_solver.
  - unfold upd_next. by rewrite lookup_alter_eq, H2.
Qed.

Lemma linked_upd_prev_first h p ns n q v :
  n ∉ ns → linked h p (n :: ns) q → linked (upd_prev n v h) v (n :: ns) q.
Proof.
  simpl. intros Hn (H1 & H2). split.
  - unfold upd_prev. by rewrite lookup_alter_eq, H1.
  - eapply linked_frame; [|done]. intros m Hm. apply lookup_alter_ne. set_solver.
Qed.

Lemma linked_upd_next_ne h p ns q n v :
  n ∉ ns → linked h p ns q → linked (upd_next n v h) p ns q.
Proof.
  intros Hn. apply linked_frame. intros m Hm. apply lookup_alter_ne. set_solver.
Qed.

Lemma linked_upd_prev_ne h p ns q n v :
  n ∉ ns → linked h p ns q → linked (upd_prev n v h) p ns q.
Proof.
  intros Hn. apply linked_frame. intros m Hm. apply lookup_alter_ne. set_solver.
Qed.

Lemma frame_refl ns h : frame ns h h.
Proof. done. Qed.

Lemma frame_trans ns h1 h2 h3 : frame ns h1 h2 → frame ns h2 h3 → frame ns h1 h3.
Proof. unfold frame. intros [H1 H2] [H3 H4]. split; [|congruence]. intros. rewrite H3; auto. Qed.

Lemma frame_mono ns ns' h h' : ns ⊆ ns' → frame ns h h' → frame ns' h h'.
Proof. intros Hs [H1 H2]. split; [|done]. intros x Hx. apply H1. set_solver. Qed.

Lemma frame_upd_next ns h0 h n v : n ∈ ns → frame ns h0 h → frame ns h0 (upd_next n v h).
Proof.
  intros Hn [H1 H2]. split; unfold upd_next.
  - intros x Hx. rewrite lookup_alter_ne by set_solver. auto.
  - by rewrite dom_alter_L.
Qed.

Lemma frame_upd_prev ns h0 h n v : n ∈ ns → frame ns h0 h → frame ns h0 (upd_prev n v h).
Proof.
  intros Hn [H1 H2]. split; unfold upd_prev.
  - intros x Hx. rewrite lookup_alter_ne by set_solver. auto.
  - by rewrite dom_alter_L.
Qed.

Lemma frame_linked ns h h' p a q :
  frame ns h h' → (∀ n, n ∈ a → n ∉ ns) → linked h p a q → linked h' p a q.
Proof. intros [Hf _] Hd. apply linked_frame. intros n Hn. apply Hf, Hd, Hn. Qed.

Lemma frame_size ns h h' : frame ns h h' → size h' = size h.
Proof. intros [_ Hd]. by rewrite <- !size_dom, Hd. Qed.
End chains.

(** ** Loads and stores on chains *)
Section accesses.
Implicit Types (h : heap) (p q n v : ptr) (ns a b : list ptr).

Lemma load_ok h n e : n ≠ NULL → h !! n = Some e → load n h = Ok (e, h).
Proof. intros Hn He. unfold load. rewrite decide_False by done. by rewrite He. Qed.

Lemma get_prev_ok h n e : n ≠ NULL → h !! n = Some e → get_prev n h = Ok (prev e, h).
Proof. intros. unfold get_prev. by run_with (load_ok h n e ltac:(done) ltac:(done)). Qed.

Lemma get_next_ok h n e : n ≠ NULL → h !! n = Some e → get_next n h = Ok (next e, h).
Proof. intros. unfold get_next. by run_with (load_ok h n e ltac:(done) ltac:(done)). Qed.

Lemma set_prev_ok h n e v :
  n ≠ NULL → h !! n = Some e → set_prev n v h = Ok (tt, upd_prev n v h).
Proof.
  intros Hn He. unfold set_prev. run_with (load_ok h n e Hn He).
  unfold store. run_with (load_ok h n e Hn He). unfold modify, upd_prev.
  f_equal. f_equal. apply map_eq. intros i.
  rewrite lookup_insert, lookup_alter. case_decide; subst; [|done]. by rewrite He.
Qed.

Lemma set_next_ok h n e v :
  n ≠ NULL → h !! n = Some e → set_next n v h = Ok (tt, upd_next n v h).
Proof.
  intros Hn He. unfold set_next. run_with (load_ok h n e Hn He).
  unfold store. run_with (load_ok h n e Hn He). unfold modify, upd_next.
  f_equal. f_equal. apply map_eq. intros i.
  rewrite lookup_insert, lookup_alter. case_decide; subst; [|done]. by rewrite He.
Qed.

Lemma get_prev_first h p n ns q :
  n ≠ NULL → linked h p (n :: ns) q → get_prev n h = Ok (p, h).
Proof. intros Hn [H _]. by apply (get_prev_ok _ _ _ Hn) in H. Qed.

Lemma get_next_last h p ns n q :
  n ≠ NULL → linked h p (ns ++ [n]) q → get_next n h = Ok (q, h).
Proof. intros Hn H%linked_lookup. by apply (get_next_ok _ _ _ Hn) in H. Qed.

Lemma set_prev_first h p n ns q v :
  n ≠ NULL → linked h p (n :: ns) q → set_prev n v h = Ok (tt, upd_prev n v h).
Proof. intros Hn [H _]. by eapply set_prev_ok. Qed.

Lemma set_next_last h p ns n q v :
  n ≠ NULL → linked h p (ns ++ [n]) q → set_next n v h = Ok (tt, upd_next n v h).
Proof. intros Hn H%linked_lookup. by eapply set_next_ok. Qed.

Lemma is_head_run h n e : n ≠ NULL → h !! n = Some e →
  is_head n h = Ok (ptr_eqb (prev e) NULL && negb (ptr_eqb (next e) NULL), h).
Proof.
  intros Hn He. unfold is_head, ptr_eqb at 1. rewrite (proj2 (N.eqb_neq _ _) Hn).
  by run_with (load_ok h n e Hn He).
Qed.

Lemma is_interior_run h n e : n ≠ NULL → h !! n = Some e →
  is_interior n h = Ok (negb (ptr_eqb (prev e) NULL) && negb (ptr_eqb (next e) NULL), h).
Proof.
  intros Hn He. unfold is_interior, ptr_eqb at 1. rewrite (proj2 (N.eqb_neq _ _) Hn).
  by run_with (load_ok h n e Hn He).
Qed.

Lemma is_tail_run h n e : n ≠ NULL → h !! n = Some e →
  is_tail n h = Ok (negb (ptr_eqb (prev e) NULL) && ptr_eqb (next e) NULL, h).
Proof.
  intros Hn He. unfold is_tail, ptr_eqb at 1. rewrite (proj2 (N.eqb_neq _ _) Hn).
  by run_with (load_ok h n e Hn He).
Qed.

Lemma ptr_eqb_neq n m : n ≠ m → ptr_eqb n m = false.
Proof. apply N.eqb_neq. Qed.
Lemma ptr_eqb_refl n : ptr_eqb n n = true.
Proof. apply N.eqb_refl. Qed.

(** The three guards of the element tests, from the links. *)
Lemma interior_true h n e :
  n ≠ NULL → h !! n = Some e → prev e ≠ NULL → next e ≠ NULL →
  is_interior n h = Ok (true, h).
Proof.
  intros Hn He Hp Hx. rewrite (is_interior_run _ _ _ Hn He).
  by rewrite !ptr_eqb_neq.
Qed.

Lemma guard_before h n e :
  n ≠ NULL → h !! n = Some e → prev e ≠ NULL →
  orM (is_interior n) (is_tail n) h = Ok (true, h).
Proof.
  intros Hn He Hp. unfold orM. run_with (is_interior_run _ _ _ Hn He).
  rewrite (ptr_eqb_neq _ _ Hp). simpl. destruct (ptr_eqb (next e) NULL) eqn:E; simpl.
  - rewrite (is_tail_run _ _ _ Hn He), E, (ptr_eqb_neq _ _ Hp). done.
  - done.
Qed.

Lemma guard_after h n e :
  n ≠ NULL → h !! n = Some e → next e ≠ NULL →
  orM (is_head n) (is_interior n) h = Ok (true, h).
Proof.
  intros Hn He Hp. unfold orM. run_with (is_head_run _ _ _ Hn He).
  rewrite (ptr_eqb_neq _ _ Hp). simpl. destruct (ptr_eqb (prev e) NULL) eqn:E; simpl.
  - done.
  - rewrite (is_interior_run _ _ _ Hn He), E, (ptr_eqb_neq _ _ Hp). done.
Qed.
End accesses.

(** Membership and disjointness goals, without the chain hypotheses. *)
Ltac mem :=
  repeat match goal with
         | H : linked _ _ _ _ |- _ => clear H
         | H : _ !! _ = _ |- _ => clear H
         | H : frame _ _ _ |- _ => clear H
         | H : _ ≠ [] |- _ => clear H
         | x := _ : ptr |- _ => clearbody x
         | x := _ : list ptr |- _ => clearbody x
         | _ : context [last_or ?p ?S] |- _ => generalize dependent (last_or p S); intros
         | |- context [last_or ?p ?S] => generalize dependent (last_or p S); intros
         end; set_solver.

(** Carries every chain of heap [h] over an update of a cell outside it. *)
Ltac carry_next n v h :=
  repeat match goal with
         | H : linked h ?p ?ns ?q |- _ => apply (linked_upd_next_ne h p ns q n v) in H; [|first [assumption | mem]]
         end.
Ltac carry_prev n v h :=
  repeat match goal with
         | H : linked h ?p ?ns ?q |- _ => apply (linked_upd_prev_ne h p ns q n v) in H; [|first [assumption | mem]]
         end.

(** ** Segments named by their two ends *)
Section segments.
Implicit Types (h : heap) (p q n v : ptr) (S : list ptr).

Lemma nonempty_snoc p S : S ≠ [] → ∃ S', S = S' ++ [last_or p S].
Proof.
  induction S as [|x S _] using rev_ind; [done|]. intros _. exists S.
  by rewrite last_or_app.
Qed.

Lemma seg_last_in p S : S ≠ [] → last_or p S ∈ S.
Proof.
  revert p. induction S as [|x [|y S] IH]; intros p Hne; [done|left|].
  right. by apply (IH x).
Qed.

Lemma seg_lookup_last h p S q :
  S ≠ [] → linked h p S q → ∃ pp, h !! last_or p S = Some (ListElem pp q).
Proof.
  intros Hne H. destruct (nonempty_snoc p S Hne) as [S' HS]. rewrite HS in H.
  apply linked_lookup in H. eauto.
Qed.

Lemma seg_get_next h p S q :
  S ≠ [] → NULL ∉ S → linked h p S q → get_next (last_or p S) h = Ok (q, h).
Proof.
  intros Hne Hnn [pp H]%seg_lookup_last; [|done].
  pose proof (seg_last_in p S Hne). assert (Hn : last_or p S ≠ NULL) by mem.
  by rewrite (get_next_ok _ _ _ Hn H).
Qed.

Lemma seg_set_next h p S q v :
  S ≠ [] → NULL ∉ S → linked h p S q →
  set_next (last_or p S) v h = Ok (tt, upd_next (last_or p S) v h).
Proof.
  intros Hne Hnn [pp H]%seg_lookup_last; [|done].
  pose proof (seg_last_in p S Hne). assert (Hn : last_or p S ≠ NULL) by mem.
  by eapply set_next_ok.
Qed.

Lemma seg_upd_next h p S q v :
  S ≠ [] → NoDup S → linked h p S q → linked (upd_next (last_or p S) v h) p S v.
Proof.
  intros Hne Hnd H. destruct (nonempty_snoc p S Hne) as [S' HS]. rewrite HS in H.
  rewrite HS in Hnd. apply NoDup_app in Hnd as (_ & Hd & _).
  assert (Hl : last_or p S ∉ S') by mem.
  pose proof (linked_upd_next_last h p S' (last_or p S) q v Hl H) as H'.
  by rewrite <- HS in H'.
Qed.

Lemma seg_upd_prev h p n S q v :
  NoDup (n :: S) → linked h p (n :: S) q → linked (upd_prev n v h) v (n :: S) q.
Proof. intros [Hn _]%NoDup_cons. by apply linked_upd_prev_first. Qed.

Lemma seg_interior h p S n q :
  p ≠ NULL → q ≠ NULL → NULL ∉ S → n ∈ S → linked h p S q → is_interior n h = Ok (true, h).
Proof.
  intros Hp Hq Hnn Hn H. apply list_elem_of_split in Hn as (a & b & ->).
  apply linked_lookup in H. apply (interior_true h n _ ltac:(mem) H); simpl.
  - destruct (decide (a = [])) as [->|Ha]; [done|].
    pose proof (seg_last_in p a Ha). mem.
  - destruct b; simpl; [done|]. mem.
Qed.
End segments.

(** ** Insertion, removal and splicing on chains *)
Section pieces.
Implicit Types (h : heap) (p q n v bp before elem : ptr) (L R S : list ptr).

Lemma list_insert_pieces h p L elem before R q e0 :
  L ≠ [] → NoDup (L ++ elem :: before :: R) → NULL ∉ L ++ elem :: before :: R →
  linked h p L before → linked h (last_or p L) (before :: R) q → h !! elem = Some e0 →
  ∃ h', list_insert before elem h = Ok (tt, h') ∧
        linked h' p (L ++ elem :: before :: R) q ∧
        frame (last_or p L :: elem :: [before]) h h'.
Proof.
  intros HL Hnd Hnn H1 H3 He. pose proof (seg_last_in p L HL) as Hbp.
  set (bp := last_or p L) in *.
  apply NoDup_app in Hnd as (HdL & Hdis & HdR).
  pose proof (NoDup_cons_1_1 _ _ HdR) as HeR. pose proof (NoDup_cons_1_2 _ _ HdR) as HdB.
  assert (HnL : NULL ∉ L) by mem. assert (Hbpn : bp ≠ NULL) by mem.
  assert (Hen : elem ≠ NULL) by mem. assert (Hbn : before ≠ NULL) by mem.
  assert (H2 : linked h (prev e0) [elem] (next e0)) by (simpl; rewrite He; by destruct e0).
  unfold list_insert. clear He.
  run_with (guard_before h before _ Hbn (proj1 H3) Hbpn). run_assert; [|done].
  run_assert; [|by rewrite ptr_eqb_neq].
  run_with (get_prev_first _ _ _ _ _ Hbn H3).
  run_with (set_prev_first _ _ _ _ _ bp Hen H2).
  apply (seg_upd_prev h _ _ _ _ bp) in H2; [|apply NoDup_singleton]. carry_prev elem bp h.
  set (h1 := upd_prev elem bp h) in *.
  run_with (seg_set_next h1 bp [elem] _ before ltac:(done) ltac:(mem) H2). simpl last_or.
  apply (seg_upd_next h1 _ _ _ before) in H2; [|done|apply NoDup_singleton].
  carry_next elem before h1. simpl last_or in H2. set (h2 := upd_next elem before h1) in *.
  run_with (get_prev_first h2 _ _ _ _ Hbn H3).
  run_with (seg_set_next h2 _ _ _ elem HL HnL H1). fold bp.
  apply (seg_upd_next h2 _ _ _ elem) in H1; [|done|done]. fold bp in H1.
  carry_next bp elem h2. set (h3 := upd_next bp elem h2) in *.
  rewrite (set_prev_first h3 _ _ _ _ elem Hbn H3).
  apply (seg_upd_prev h3 _ _ _ _ elem) in H3; [|done]. carry_prev before elem h3.
  eexists. split; [done|]. split.
  - rewrite linked_app. split; [done|]. by destruct H2, H3.
  - apply frame_upd_prev; [mem|]. do 2 (apply frame_upd_next; [mem|]).
    apply frame_upd_prev; [mem|]. apply frame_refl.
Qed.

Lemma list_remove_pieces h p L elem R b q :
  L ≠ [] → NoDup (L ++ elem :: b :: R) → NULL ∉ L ++ elem :: b :: R →
  linked h p (L ++ elem :: b :: R) q →
  ∃ h', list_remove elem h = Ok (b, h') ∧ linked h' p (L ++ b :: R) q ∧
        h' !! elem = h !! elem ∧ frame (last_or p L :: [b]) h h'.
Proof.
  intros HL Hnd Hnn H0. pose proof (seg_last_in p L HL) as Ha.
  apply linked_app in H0 as [H1 [He H3]]. simpl in H1, He.
  set (a := last_or p L) in *.
  apply NoDup_app in Hnd as (HdL & Hdis & HdR).
  pose proof (NoDup_cons_1_1 _ _ HdR) as HeR. pose proof (NoDup_cons_1_2 _ _ HdR) as HdB.
  assert (HnL : NULL ∉ L) by mem. assert (Han : a ≠ NULL) by mem.
  assert (Hen : elem ≠ NULL) by mem. assert (Hbn : b ≠ NULL) by mem.
  assert (Hea : elem ≠ a) by mem. assert (Heb : elem ≠ b) by mem.
  unfold list_remove. run_with (interior_true h elem _ Hen He Han Hbn). run_assert; [|done].
  run_with (get_prev_ok h elem _ Hen He). run_with (get_next_ok h elem _ Hen He). simpl.
  run_with (seg_set_next h _ _ _ b HL HnL H1). fold a.
  assert (He1 : upd_next a b h !! elem = h !! elem) by (by apply lookup_alter_ne).
  apply (seg_upd_next h _ _ _ b) in H1; [|done|done]. fold a in H1. carry_next a b h.
  set (h1 := upd_next a b h) in *. rewrite He in He1.
  run_with (get_next_ok h1 elem _ Hen He1). run_with (get_prev_ok h1 elem _ Hen He1). simpl.
  run_with (set_prev_first h1 _ _ _ _ a Hbn H3).
  assert (He2 : upd_prev b a h1 !! elem = Some (ListElem a b))
    by (rewrite <- He1; by apply lookup_alter_ne).
  rewrite (get_next_ok _ elem _ Hen He2).
  apply (seg_upd_prev h1 _ _ _ _ a) in H3; [|done]. carry_prev b a h1.
  eexists. split; [done|]. split; [|split].
  - rewrite linked_app. done.
  - congruence.
  - apply frame_upd_prev; [mem|]. apply frame_upd_next; [mem|]. apply frame_refl.
Qed.

(** [list_splice] inside one list: the range moves to an earlier place.
    [B] starts at [before]; the moved range [S] ends just before [ln]. *)
Lemma list_splice_pieces h p L before B first S ln R q :
  let N := L ++ (before :: B) ++ (first :: S) ++ ln :: R in
  L ≠ [] → NoDup N → NULL ∉ N → linked h p N q →
  ∃ h', list_splice before first ln h = Ok (tt, h') ∧
        linked h' p (L ++ (first :: S) ++ (before :: B) ++ ln :: R) q ∧ frame N h h'.
Proof.
  intros N HL Hnd Hnn H0. unfold N in Hnd, Hnn, H0.
  apply linked_app in H0 as [H1 H0]. apply linked_app in H0 as [H2 H0].
  apply linked_app in H0 as [H3 H4]. simpl first_or in *.
  pose proof (seg_last_in p L HL) as Hbp. set (bp := last_or p L) in *.
  pose proof (seg_last_in bp (before :: B) ltac:(done)) as Hfp.
  set (fp := last_or bp (before :: B)) in *.
  pose proof (seg_last_in fp (first :: S) ltac:(done)) as Hlst.
  set (lst := last_or fp (first :: S)) in *.
  apply NoDup_app in Hnd as (HdL & HxL & Hnd). apply NoDup_app in Hnd as (HdB & HxB & Hnd).
  apply NoDup_app in Hnd as (HdS & HxS & HdR).
  assert (HfS : first ∈ first :: S) by left. assert (HbB : before ∈ before :: B) by left.
  assert (HlR : ln ∈ ln :: R) by left.
  set (BB := before :: B) in *. set (SS := first :: S) in *. set (RR := ln :: R) in *.
  assert (Hn : bp ≠ NULL ∧ before ≠ NULL ∧ fp ≠ NULL ∧ first ≠ NULL ∧ lst ≠ NULL ∧ ln ≠ NULL)
    by mem.
  destruct Hn as (Hbpn & Hbn & Hfpn & Hfn & Hlstn & Hlnn).
  setoid_rewrite not_elem_of_app in HxL. setoid_rewrite not_elem_of_app in HxL.
  setoid_rewrite not_elem_of_app in HxB.
  assert (HLx : ∀ x, x ∈ BB ∨ x ∈ SS ∨ x ∈ RR → x ∉ L) by firstorder.
  assert (HBx : ∀ x, x ∈ SS ∨ x ∈ RR → x ∉ BB) by firstorder.
  assert (HSx : ∀ x, x ∈ RR → x ∉ SS) by firstorder.
  destruct (HxL bp Hbp) as (? & ? & ?).
  pose proof (HLx fp ltac:(auto)). destruct (HxB fp Hfp).
  pose proof (HLx before ltac:(auto)). destruct (HxB before HbB).
  pose proof (HLx first ltac:(auto)). pose proof (HBx first ltac:(auto)).
  pose proof (HxS first HfS). pose proof (HLx lst ltac:(auto)).
  pose proof (HBx lst ltac:(auto)). pose proof (HxS lst Hlst).
  pose proof (HLx ln ltac:(auto)). pose proof (HBx ln ltac:(auto)).
  pose proof (HSx ln ltac:(auto)). clear HxL HxB HxS HLx HBx HSx.
  assert (Hnn' : NULL ∉ L ∧ NULL ∉ BB ∧ NULL ∉ SS) by mem. destruct Hnn' as (HnL & HnB & HnS).
  unfold list_splice.
  run_with (guard_before h before _ Hbn (proj1 H2) Hbpn). run_assert; [|done].
  rewrite ptr_eqb_neq by congruence.
  assert (Hlp : list_prev ln h = Ok (lst, h)).
  { unfold list_prev. run_with (guard_before h ln _ Hlnn (proj1 H4) Hlstn). run_assert; [|done].
    by apply (get_prev_first _ _ _ _ _ Hlnn H4). }
  run_with Hlp. clear Hlp.
  run_with (seg_interior h fp SS first ln Hfpn Hlnn HnS HfS H3). run_assert; [|done].
  run_with (seg_interior h fp SS lst ln Hfpn Hlnn HnS Hlst H3). run_assert; [|done].
  run_with (get_prev_first h fp first S ln Hfn H3).
  run_with (seg_get_next h fp SS ln ltac:(done) HnS H3).
  run_with (seg_set_next h bp BB first ln ltac:(done) HnB H2). fold fp.
  apply (seg_upd_next h _ _ _ ln) in H2; [|done|done]. fold fp in H2. carry_next fp ln h.
  set (h1 := upd_next fp ln h) in *.
  run_with (seg_get_next h1 fp SS ln ltac:(done) HnS H3).
  run_with (get_prev_first h1 fp first S ln Hfn H3).
  run_with (set_prev_first h1 _ _ _ _ fp Hlnn H4).
  apply (seg_upd_prev h1 _ _ _ _ fp) in H4; [|done]. carry_prev ln fp h1.
  set (h2 := upd_prev ln fp h1) in *.
  run_with (get_prev_first h2 _ _ _ _ Hbn H2).
  run_with (set_prev_first h2 _ _ _ _ bp Hfn H3).
  apply (seg_upd_prev h2 _ _ _ _ bp) in H3; [|done]. carry_prev first bp h2.
  set (h3 := upd_prev first bp h2) in *.
  run_with (seg_set_next h3 bp SS ln before ltac:(done) HnS H3).
  apply (seg_upd_next h3 _ _ _ before) in H3; [|done|done].
  change (last_or bp (first :: S)) with lst in *. change (last_or bp SS) with lst in *.
  carry_next lst before h3. set (h4 := upd_next lst before h3) in *.
  run_with (get_prev_first h4 _ _ _ _ Hbn H2).
  run_with (seg_set_next h4 _ _ _ first HL HnL H1). fold bp.
  apply (seg_upd_next h4 _ _ _ first) in H1; [|done|done]. fold bp in H1.
  carry_next bp first h4. set (h5 := upd_next bp first h4) in *.
  rewrite (set_prev_first h5 _ _ _ _ lst Hbn H2).
  apply (seg_upd_prev h5 _ _ _ _ lst) in H2; [|done]. carry_prev before lst h5.
  eexists. split; [done|]. split.
  - rewrite !linked_app. done.
  - assert (Hin : ∀ x, x ∈ [fp; ln; first; lst; bp; before] → x ∈ N)
      by (unfold N; intros x Hx; rewrite !elem_of_app; mem).
    apply frame_upd_prev; [apply Hin; mem|]. do 2 (apply frame_upd_next; [apply Hin; mem|]).
    do 2 (apply frame_upd_prev; [apply Hin; mem|]). apply frame_upd_next; [apply Hin; mem|].
    apply frame_refl.
Qed.

(** ... the range moves to a later place, beyond [M], which starts at [ln]. *)
Lemma list_splice_later h p L first S ln B before R q :
  let N := L ++ (first :: S) ++ (ln :: B) ++ before :: R in
  L ≠ [] → NoDup N → NULL ∉ N → linked h p N q →
  ∃ h', list_splice before first ln h = Ok (tt, h') ∧
        linked h' p (L ++ (ln :: B) ++ (first :: S) ++ before :: R) q ∧ frame N h h'.
Proof.
  intros N HL Hnd Hnn H0. unfold N in Hnd, Hnn, H0.
  apply linked_app in H0 as [H1 H0]. apply linked_app in H0 as [H2 H0].
  apply linked_app in H0 as [H3 H4]. simpl first_or in *.
  pose proof (seg_last_in p L HL) as Hfp. set (fp := last_or p L) in *.
  pose proof (seg_last_in fp (first :: S) ltac:(done)) as Hlst. set (lst := last_or fp (first :: S)) in *.
  pose proof (seg_last_in lst (ln :: B) ltac:(done)) as Hbp. set (bp := last_or lst (ln :: B)) in *.
  apply NoDup_app in Hnd as (HdL & HxL & Hnd). apply NoDup_app in Hnd as (HdS & HxS & Hnd).
  apply NoDup_app in Hnd as (HdM & HxM & HdR).
  assert (HfS : first ∈ first :: S) by left. assert (HlM : ln ∈ ln :: B) by left.
  assert (HbR : before ∈ before :: R) by left.
  set (SS := first :: S) in *. set (MM := ln :: B) in *. set (RR := before :: R) in *.
  assert (Hn : bp ≠ NULL ∧ before ≠ NULL ∧ fp ≠ NULL ∧ first ≠ NULL ∧ lst ≠ NULL ∧ ln ≠ NULL) by mem.
  destruct Hn as (Hbpn & Hbn & Hfpn & Hfn & Hlstn & Hlnn).
  setoid_rewrite not_elem_of_app in HxL. setoid_rewrite not_elem_of_app in HxL.
  setoid_rewrite not_elem_of_app in HxS.
  assert (HLx : ∀ x, x ∈ SS ∨ x ∈ MM ∨ x ∈ RR → x ∉ L) by firstorder.
  assert (HSx : ∀ x, x ∈ MM ∨ x ∈ RR → x ∉ SS) by firstorder.
  assert (HMx : ∀ x, x ∈ RR → x ∉ MM) by firstorder.
  destruct (HxL fp Hfp) as (? & ? & ?). destruct (HxS first HfS), (HxS lst Hlst).
  pose proof (HxM ln HlM). pose proof (HxM bp Hbp).
  pose proof (HLx first ltac:(auto)). pose proof (HLx lst ltac:(auto)).
  pose proof (HLx ln ltac:(auto)). pose proof (HLx bp ltac:(auto)). pose proof (HLx before ltac:(auto)).
  pose proof (HSx ln ltac:(auto)). pose proof (HSx bp ltac:(auto)). pose proof (HSx before ltac:(auto)).
  pose proof (HMx before ltac:(auto)). clear HxL HxS HxM HLx HSx HMx.
  assert (Hnn' : NULL ∉ L ∧ NULL ∉ MM ∧ NULL ∉ SS) by mem. destruct Hnn' as (HnL & HnM & HnS).
  unfold list_splice.
  run_with (guard_before h before _ Hbn (proj1 H4) Hbpn). run_assert; [|done].
  rewrite ptr_eqb_neq by congruence.
  assert (Hlp : list_prev ln h = Ok (lst, h)).
  { unfold list_prev. run_with (guard_before h ln _ Hlnn (proj1 H3) Hlstn). run_assert; [|done].
    by apply (get_prev_first _ _ _ _ _ Hlnn H3). }
  run_with Hlp. clear Hlp.
  run_with (seg_interior h fp SS first ln Hfpn Hlnn HnS HfS H2). run_assert; [|done].
  run_with (seg_interior h fp SS lst ln Hfpn Hlnn HnS Hlst H2). run_assert; [|done].
  run_with (get_prev_first h fp first S ln Hfn H2).
  run_with (seg_get_next h fp SS ln ltac:(done) HnS H2).
  run_with (seg_set_next h p L first ln HL HnL H1). fold fp.
  apply (seg_upd_next h _ _ _ ln) in H1; [|done|done]. fold fp in H1. carry_next fp ln h.
  set (h1 := upd_next fp ln h) in *.
  run_with (seg_get_next h1 fp SS ln ltac:(done) HnS H2).
  run_with (get_prev_first h1 fp first S ln Hfn H2).
  run_with (set_prev_first h1 _ _ _ _ fp Hlnn H3).
  apply (seg_upd_prev h1 _ _ _ _ fp) in H3; [|done]. carry_prev ln fp h1.
  set (h2 := upd_prev ln fp h1) in *.
  run_with (get_prev_first h2 _ _ _ _ Hbn H4).
  run_with (set_prev_first h2 _ _ _ _ bp Hfn H2).
  apply (seg_upd_prev h2 _ _ _ _ bp) in H2; [|done]. carry_prev first bp h2.
  set (h3 := upd_prev first bp h2) in *.
  run_with (seg_set_next h3 bp SS ln before ltac:(done) HnS H2).
  apply (seg_upd_next h3 _ _ _ before) in H2; [|done|done].
  change (last_or bp (first :: S)) with lst in *. change (last_or bp SS) with lst in *.
  carry_next lst before h3. set (h4 := upd_next lst before h3) in *.
  run_with (get_prev_first h4 _ _ _ _ Hbn H4).
  run_with (seg_set_next h4 fp MM before first ltac:(done) HnM H3).
  apply (seg_upd_next h4 _ _ _ first) in H3; [|done|done].
  change (last_or fp (ln :: B)) with bp in *. change (last_or fp MM) with bp in *.
  carry_next bp first h4. set (h5 := upd_next bp first h4) in *.
  rewrite (set_prev_first h5 _ _ _ _ lst Hbn H4).
  apply (seg_upd_prev h5 _ _ _ _ lst) in H4; [|done]. carry_prev before lst h5.
  eexists. split; [done|]. split.
  - rewrite !linked_app. done.
  - assert (Hin : ∀ x, x ∈ [fp; ln; first; lst; bp; before] → x ∈ N)
      by (unfold N; intros x Hx; rewrite !elem_of_app; mem).
    apply frame_upd_prev; [apply Hin; mem|]. do 2 (apply frame_upd_next; [apply Hin; mem|]).
    do 2 (apply frame_upd_prev; [apply Hin; mem|]). apply frame_upd_next; [apply Hin; mem|].
    apply frame_refl.
Qed.

(** ... or stays where it is. *)
Lemma list_splice_stay h p L first S ln R q :
  let N := L ++ (first :: S) ++ ln :: R in
  L ≠ [] → NoDup N → NULL ∉ N → linked h p N q →
  ∃ h', list_splice ln first ln h = Ok (tt, h') ∧ linked h' p N q ∧ frame N h h'.
Proof.
  intros N HL Hnd Hnn H0. unfold N in Hnd, Hnn, H0.
  apply linked_app in H0 as [H1 H0]. apply linked_app in H0 as [H2 H3]. simpl first_or in *.
  pose proof (seg_last_in p L HL) as Hfp. set (fp := last_or p L) in *.
  pose proof (seg_last_in fp (first :: S) ltac:(done)) as Hlst. set (lst := last_or fp (first :: S)) in *.
  apply NoDup_app in Hnd as (HdL & HxL & Hnd). apply NoDup_app in Hnd as (HdS & HxS & HdR).
  assert (HfS : first ∈ first :: S) by left. assert (HlR : ln ∈ ln :: R) by left.
  set (SS := first :: S) in *. set (RR := ln :: R) in *.
  assert (Hn : fp ≠ NULL ∧ first ≠ NULL ∧ lst ≠ NULL ∧ ln ≠ NULL) by mem.
  destruct Hn as (Hfpn & Hfn & Hlstn & Hlnn). setoid_rewrite not_elem_of_app in HxL.
  destruct (HxL fp Hfp). pose proof (HxS first HfS). pose proof (HxS lst Hlst).
  assert (HLx : ∀ x, x ∈ SS ∨ x ∈ RR → x ∉ L) by firstorder.
  assert (HSx : ∀ x, x ∈ RR → x ∉ SS) by firstorder.
  pose proof (HLx first ltac:(auto)). pose proof (HLx lst ltac:(auto)).
  pose proof (HLx ln ltac:(auto)). pose proof (HSx ln HlR). clear HxL HxS HLx HSx.
  assert (Hnn' : NULL ∉ L ∧ NULL ∉ SS) by mem. destruct Hnn' as (HnL & HnS). unfold list_splice.
  run_with (guard_before h ln _ Hlnn (proj1 H3) Hlstn). run_assert; [|done].
  rewrite ptr_eqb_neq by congruence.
  assert (Hlp : list_prev ln h = Ok (lst, h)).
  { unfold list_prev. run_with (guard_before h ln _ Hlnn (proj1 H3) Hlstn). run_assert; [|done].
    by apply (get_prev_first _ _ _ _ _ Hlnn H3). }
  run_with Hlp. clear Hlp.
  run_with (seg_interior h fp SS first ln Hfpn Hlnn HnS HfS H2). run_assert; [|done].
  run_with (seg_interior h fp SS lst ln Hfpn Hlnn HnS Hlst H2). run_assert; [|done].
  run_with (get_prev_first h fp first S ln Hfn H2).
  run_with (seg_get_next h fp SS ln ltac:(done) HnS H2).
  run_with (seg_set_next h p L first ln HL HnL H1). fold fp.
  apply (seg_upd_next h _ _ _ ln) in H1; [|done|done]. fold fp in H1. carry_next fp ln h.
  set (h1 := upd_next fp ln h) in *.
  run_with (seg_get_next h1 fp SS ln ltac:(done) HnS H2).
  run_with (get_prev_first h1 fp first S ln Hfn H2).
  run_with (set_prev_first h1 _ _ _ _ fp Hlnn H3).
  apply (seg_upd_prev h1 _ _ _ _ fp) in H3; [|done]. carry_prev ln fp h1.
  set (h2 := upd_prev ln fp h1) in *.
  run_with (get_prev_first h2 _ _ _ _ Hlnn H3).
  run_with (set_prev_first h2 _ _ _ _ fp Hfn H2).
  apply (seg_upd_prev h2 _ _ _ _ fp) in H2; [|done]. carry_prev first fp h2.
  set (h3 := upd_prev first fp h2) in *.
  run_with (seg_set_next h3 fp SS ln ln ltac:(done) HnS H2).
  apply (seg_upd_next h3 _ _ _ ln) in H2; [|done|done].
  change (last_or fp (first :: S)) with lst in H2 |- *. change (last_or fp SS) with lst in H2 |- *.
  carry_next lst ln h3. set (h4 := upd_next lst ln h3) in *.
  run_with (get_prev_first h4 _ _ _ _ Hlnn H3).
  run_with (seg_set_next h4 _ _ _ first HL HnL H1). fold fp.
  apply (seg_upd_next h4 _ _ _ first) in H1; [|done|done]. fold fp in H1.
  carry_next fp first h4. set (h5 := upd_next fp first h4) in *.
  rewrite (set_prev_first h5 _ _ _ _ lst Hlnn H3).
  apply (seg_upd_prev h5 _ _ _ _ lst) in H3; [|done]. carry_prev ln lst h5.
  eexists. split; [done|]. split.
  - unfold N. rewrite !linked_app. done.
  - assert (Hin : ∀ x, x ∈ [fp; ln; first; lst] → x ∈ N)
      by (unfold N; intros x Hx; rewrite !elem_of_app; mem).
    apply frame_upd_prev; [apply Hin; mem|]. do 2 (apply frame_upd_next; [apply Hin; mem|]).
    do 2 (apply frame_upd_prev; [apply Hin; mem|]). apply frame_upd_next; [apply Hin; mem|].
    apply frame_refl.
Qed.
End pieces.
