(* ===== verification/CListSpec.v ===== *)
(** * The operations of list.c on whole lists

    Each lemma [..._ok] says what an operation of [CList] does to the sequence
    of elements of a list; the properties at the end put them together. *)
From S2P Require Import Prelude CList CListFacts.
Import CList.

(** ** Operations on a whole list *)
Section lists.
Implicit Types (h : heap) (l : clist) (xs ys zs ns A B : list ptr).

Lemma loop_fuel_run h : loop_fuel h = Ok (S (size h), h).
Proof. done. Qed.

Lemma dll_not_null h ns n : dll h ns → n ∈ ns → n ≠ NULL.
Proof. intros (_ & _ & Hn) Hin ->. done. Qed.

Lemma dll_length h ns : dll h ns → length ns ≤ size h.
Proof.
  intros (Hl & Hnd & _). rewrite <- size_dom.
  rewrite <- (size_list_to_set (C := gset ptr) ns) by done.
  apply subseteq_size. intros n [A [B ->]]%elem_of_list_to_set%list_elem_of_split.
  apply linked_lookup in Hl. apply elem_of_dom. eauto.
Qed.

Lemma dll_dom h ns n : dll h ns → n ∈ ns → n ∈ dom h.
Proof.
  intros (Hl & _) [A [B ->]]%list_elem_of_split. apply linked_lookup in Hl.
  apply elem_of_dom. eauto.
Qed.

Lemma is_list_length h l xs : is_list h l xs → S (length xs) < size h.
Proof. intros H%dll_length. revert H. unfold nodes. simpl. rewrite length_app. simpl. lia. Qed.

Lemma dll_next h A n m B : dll h (A ++ n :: m :: B) → list_next n h = Ok (m, h).
Proof.
  intros Hd. assert (Hn : n ≠ NULL) by (eapply dll_not_null; [done|set_solver]).
  assert (Hm : m ≠ NULL) by (eapply dll_not_null; [done|set_solver]).
  destruct Hd as (Hl%linked_lookup & _ & _). unfold list_next.
  run_with (guard_after h n _ Hn Hl Hm). run_assert; [|done].
  by rewrite (get_next_ok h n _ Hn Hl).
Qed.

Lemma dll_prev h A m n B : dll h (A ++ m :: n :: B) → list_prev n h = Ok (m, h).
Proof.
  intros Hd. assert (Hn : n ≠ NULL) by (eapply dll_not_null; [done|set_solver]).
  assert (Hm : m ≠ NULL) by (eapply dll_not_null; [done|set_solver]).
  destruct Hd as (Hl & _ & _). replace (A ++ m :: n :: B) with ((A ++ [m]) ++ n :: B) in Hl
    by (by rewrite <- (assoc_L (++))).
  apply linked_lookup in Hl. rewrite last_or_app in Hl. simpl in Hl. unfold list_prev.
  run_with (guard_before h n _ Hn Hl Hm). run_assert; [|done].
  by rewrite (get_prev_ok h n _ Hn Hl).
Qed.

Lemma list_begin_ok h l xs : is_list h l xs → list_begin l h = Ok (first_or (ltail l) xs, h).
Proof.
  intros Hd. assert (Hn : lhead l ≠ NULL) by (eapply dll_not_null; [done|left]).
  destruct Hd as (Hl & _ & _). apply (linked_lookup h NULL [] (lhead l)) in Hl.
  unfold list_begin. rewrite (get_next_ok _ _ _ Hn Hl). simpl. by rewrite first_or_app.
Qed.

Lemma list_rbegin_ok h l xs : is_list h l xs → list_rbegin l h = Ok (last_or (lhead l) xs, h).
Proof.
  intros Hd. assert (Hn : ltail l ≠ NULL) by (eapply dll_not_null; [done|set_solver]).
  destruct Hd as (Hl & _ & _). apply (linked_lookup h NULL (lhead l :: xs) (ltail l)) in Hl.
  unfold list_rbegin. by rewrite (get_prev_ok _ _ _ Hn Hl).
Qed.

Lemma is_list_tail_ne h l ys z zs : is_list h l (ys ++ z :: zs) → ptr_eqb z (list_end l) = false.
Proof.
  intros (_ & Hnd & _). apply ptr_eqb_neq. unfold list_end. intros ->. unfold nodes in Hnd.
  apply NoDup_cons in Hnd as [_ Hnd]. apply NoDup_app in Hnd as (_ & Hd & _).
  apply (Hd (ltail l)); set_solver.
Qed.

Lemma list_empty_ok h l xs :
  is_list h l xs → list_empty l h = Ok (bool_decide (xs = []), h).
Proof.
  intros Hd. unfold list_empty. run_with (list_begin_ok _ _ _ Hd).
  destruct xs as [|x xs]; simpl first_or.
  - unfold list_end. by rewrite ptr_eqb_refl.
  - by rewrite (is_list_tail_ne h l [] x xs).
Qed.

(** The element after [z], or the tail. *)
Lemma is_list_next h l ys z zs :
  is_list h l (ys ++ z :: zs) → list_next z h = Ok (first_or (ltail l) zs, h).
Proof.
  unfold is_list, nodes. intros Hd. destruct zs as [|z' zs]; simpl.
  - apply (dll_next h (lhead l :: ys) z (ltail l) []). by rewrite <- (assoc_L (++)) in Hd.
  - apply (dll_next h (lhead l :: ys) z z' (zs ++ [ltail l])).
    by rewrite <- (assoc_L (++)) in Hd.
Qed.

Lemma list_size_loop_ok fuel h l ys zs cnt :
  is_list h l (ys ++ zs) → length zs < fuel →
  list_size_loop fuel l (first_or (ltail l) zs) cnt h = Ok (cnt + length zs, h).
Proof.
  revert ys zs cnt. induction fuel as [|fuel IH]; intros ys zs cnt Hd Hf; [lia|].
  destruct zs as [|z zs]; simpl.
  - unfold list_end. rewrite ptr_eqb_refl, Nat.add_0_r. done.
  - rewrite (is_list_tail_ne h l ys z zs) by done. run_with (is_list_next _ _ _ _ _ Hd).
    rewrite (IH (ys ++ [z]) zs) by
      (simpl in *; first [lia | by rewrite <- (assoc_L (++))]).
    do 2 f_equal. simpl. lia.
Qed.

Lemma list_size_ok h l xs : is_list h l xs → list_size l h = Ok (length xs, h).
Proof.
  intros Hd. pose proof (is_list_length _ _ _ Hd). unfold list_size.
  run_with (loop_fuel_run h). run_with (list_begin_ok _ _ _ Hd). by apply (list_size_loop_ok _ h l [] xs 0); [|lia].
Qed.

(** Inserting before any position, removing any element. *)
Lemma list_insert_ok h l ys zs elem e0 :
  is_list h l (ys ++ zs) → h !! elem = Some e0 → elem ≠ NULL → elem ∉ nodes l (ys ++ zs) →
  ∃ h', list_insert (first_or (ltail l) zs) elem h = Ok (tt, h') ∧
        is_list h' l (ys ++ elem :: zs) ∧ frame (elem :: nodes l (ys ++ zs)) h h'.
Proof.
  intros (Hl & Hnd & Hnn) He Hen Hnin.
  set (b := first_or (ltail l) zs). set (R := match zs with [] => [] | _ :: zs' => zs' ++ [ltail l] end).
  assert (Hsplit : nodes l (ys ++ zs) = (lhead l :: ys) ++ b :: R).
  { unfold nodes, b, R. rewrite <- (assoc_L (++)). by destruct zs. }
  assert (Hnew : nodes l (ys ++ elem :: zs) = (lhead l :: ys) ++ elem :: b :: R).
  { unfold nodes, b, R. rewrite <- (assoc_L (++)). by destruct zs. }
  rewrite Hsplit in *.
  assert (Hnd' : NoDup ((lhead l :: ys) ++ elem :: b :: R)).
  { rewrite <- Permutation_middle. by apply NoDup_cons. }
  assert (Hnn' : NULL ∉ (lhead l :: ys) ++ elem :: b :: R) by set_solver.
  apply linked_app in Hl as [H1 H3].
  destruct (list_insert_pieces h NULL (lhead l :: ys) elem b R NULL e0)
    as (h' & Hrun & Hl' & Hf); try done.
  exists h'. split; [done|]. split.
  - unfold is_list. rewrite Hnew. done.
  - eapply frame_mono; [|done].
    pose proof (seg_last_in NULL (lhead l :: ys) ltac:(done)).
    intros x Hx. rewrite !elem_of_cons in Hx. set_solver.
Qed.

Lemma list_remove_ok h l ys x zs :
  is_list h l (ys ++ x :: zs) →
  ∃ h', list_remove x h = Ok (first_or (ltail l) zs, h') ∧ is_list h' l (ys ++ zs) ∧
        frame (nodes l (ys ++ zs)) h h'.
Proof.
  intros (Hl & Hnd & Hnn).
  set (b := first_or (ltail l) zs). set (R := match zs with [] => [] | _ :: zs' => zs' ++ [ltail l] end).
  assert (Hsplit : nodes l (ys ++ x :: zs) = (lhead l :: ys) ++ x :: b :: R).
  { unfold nodes, b, R. rewrite <- (assoc_L (++)). by destruct zs. }
  assert (Hnew : nodes l (ys ++ zs) = (lhead l :: ys) ++ b :: R).
  { unfold nodes, b, R. rewrite <- (assoc_L (++)). by destruct zs. }
  rewrite Hsplit in *.
  destruct (list_remove_pieces h NULL (lhead l :: ys) x R b NULL)
    as (h' & Hrun & Hl' & Hx & Hf); try done.
  exists h'. split; [done|]. rewrite Hnew. unfold is_list, dll. rewrite Hnew. split; [split; [done|]|].
  - split; [|set_solver].
    apply NoDup_app in Hnd as (Hd1 & Hd2 & [_ Hd3]%NoDup_cons). apply NoDup_app.
    split; [done|]. split; [|done]. intros y Hy Hy'. apply (Hd2 y Hy). by right.
  - eapply frame_mono; [|done].
    pose proof (seg_last_in NULL (lhead l :: ys) ltac:(done)).
    intros y Hy. rewrite !elem_of_cons in Hy. set_solver.
Qed.

(** The three chains of a list: head, elements, tail. *)
Lemma is_list_chains h l xs :
  is_list h l xs ↔
  (linked h NULL [lhead l] (first_or (ltail l) xs) ∧ linked h (lhead l) xs (ltail l) ∧
   linked h (last_or (lhead l) xs) [ltail l] NULL) ∧
  NoDup (nodes l xs) ∧ NULL ∉ nodes l xs.
Proof.
  unfold is_list, dll, nodes. change (lhead l :: xs ++ [ltail l]) with ([lhead l] ++ xs ++ [ltail l]).
  rewrite !linked_app. rewrite first_or_app. simpl. tauto.
Qed.

Lemma nodes_perm l xs ys : xs ≡ₚ ys → nodes l xs ≡ₚ nodes l ys.
Proof. intros Hp. unfold nodes. by rewrite Hp. Qed.

(** The nodes from a position on, which is an element or the tail. *)
Lemma nodes_from (t : ptr) zs : ∃ R, zs ++ [t] = first_or t zs :: R.
Proof. destruct zs; simpl; eauto. Qed.

Lemma nodes_mid l ys zs : nodes l (ys ++ zs) = (lhead l :: ys) ++ zs ++ [ltail l].
Proof. unfold nodes. simpl. by rewrite <- (assoc_L (++)). Qed.

Lemma nodes_range l A SS zs :
  ∃ R, nodes l (A ++ SS ++ zs) = (lhead l :: A) ++ SS ++ first_or (ltail l) zs :: R.
Proof.
  destruct (nodes_from (ltail l) zs) as [R HR]. exists R. by rewrite nodes_mid, <- (assoc_L (++)), HR.
Qed.
Lemma nodes_ranges l A SS B zs :
  ∃ R, nodes l (A ++ SS ++ B ++ zs) = (lhead l :: A) ++ SS ++ B ++ first_or (ltail l) zs :: R ∧
       nodes l (A ++ B ++ SS ++ zs) = (lhead l :: A) ++ B ++ SS ++ first_or (ltail l) zs :: R.
Proof.
  destruct (nodes_from (ltail l) zs) as [R HR]. exists R.
  by rewrite !nodes_mid, <- !(assoc_L (++)), HR.
Qed.

Lemma is_list_perm h l xs ys :
  NoDup (nodes l xs) → NULL ∉ nodes l xs → xs ≡ₚ ys → linked h NULL (nodes l ys) NULL → is_list h l ys.
Proof. intros Hnd Hnn Hp Hl. assert (Hn := nodes_perm l _ _ Hp). split; [done|]. by rewrite <- Hn. Qed.

(** Moving a range: to its own place, to a later one, to an earlier one. *)
Lemma list_splice_same h l A first S C :
  is_list h l (A ++ (first :: S) ++ C) →
  ∃ h', list_splice (first_or (ltail l) C) first (first_or (ltail l) C) h = Ok (tt, h') ∧
        is_list h' l (A ++ (first :: S) ++ C) ∧ frame (nodes l (A ++ (first :: S) ++ C)) h h'.
Proof.
  destruct (nodes_range l A (first :: S) C) as [R HR]. unfold is_list. rewrite HR. intros (Hl & Hnd & Hnn).
  destruct (list_splice_stay h NULL (lhead l :: A) first S (first_or (ltail l) C) R NULL)
    as (h' & Hrun & Hl' & Hf); [done..|]. by exists h'.
Qed.
Lemma list_splice_forth h l A first S ln M Q :
  is_list h l (A ++ (first :: S) ++ (ln :: M) ++ Q) →
  ∃ h', list_splice (first_or (ltail l) Q) first ln h = Ok (tt, h') ∧
        is_list h' l (A ++ (ln :: M) ++ (first :: S) ++ Q) ∧
        frame (nodes l (A ++ (first :: S) ++ (ln :: M) ++ Q)) h h'.
Proof.
  intros (Hl & Hnd & Hnn). destruct (nodes_ranges l A (first :: S) (ln :: M) Q) as (R & H1 & H2).
  destruct (list_splice_later h NULL (lhead l :: A) first S ln M (first_or (ltail l) Q) R NULL)
    as (h' & Hrun & Hl' & Hf); rewrite <- ?H1; [done..|]. exists h'. rewrite <- H1 in Hf. rewrite <- H2 in Hl'.
  split; [done|]. split; [|done]. eapply is_list_perm; [exact Hnd|exact Hnn| |done].
  apply Permutation_app_head. by rewrite !(assoc_L (++)), (Permutation_app_comm (ln :: M)).
Qed.
Lemma list_splice_back h l P b M first S C :
  is_list h l (P ++ (b :: M) ++ (first :: S) ++ C) →
  ∃ h', list_splice b first (first_or (ltail l) C) h = Ok (tt, h') ∧
        is_list h' l (P ++ (first :: S) ++ (b :: M) ++ C) ∧
        frame (nodes l (P ++ (b :: M) ++ (first :: S) ++ C)) h h'.
Proof.
  intros (Hl & Hnd & Hnn). destruct (nodes_ranges l P (b :: M) (first :: S) C) as (R & H1 & H2).
  destruct (list_splice_pieces h NULL (lhead l :: P) b M first S (first_or (ltail l) C) R NULL)
    as (h' & Hrun & Hl' & Hf); rewrite <- ?H1; [done..|]. exists h'. rewrite <- H1 in Hf. rewrite <- H2 in Hl'.
  split; [done|]. split; [|done]. eapply is_list_perm; [exact Hnd|exact Hnn| |done].
  apply Permutation_app_head. by rewrite !(assoc_L (++)), (Permutation_app_comm (first :: S)).
Qed.

(** To any position outside it. *)
Lemma list_splice_ok h l A first S C P Q :
  is_list h l (A ++ (first :: S) ++ C) → P ++ Q = A ++ C →
  ∃ h', list_splice (first_or (ltail l) Q) first (first_or (ltail l) C) h = Ok (tt, h') ∧
        is_list h' l (P ++ (first :: S) ++ Q) ∧ frame (nodes l (A ++ (first :: S) ++ C)) h h'.
Proof.
  intros Hd E. destruct (app_eq_app _ _ _ _ E) as ([|m M] & [[-> ->]|[-> ->]]).
  - rewrite app_nil_r. by apply list_splice_same.
  - rewrite app_nil_r in *. by apply list_splice_same.
  - rewrite <- (assoc_L (++)). by apply list_splice_forth.
  - rewrite <- (assoc_L (++)) in *. by apply list_splice_back.
Qed.

Lemma first_or_reverse q xs : first_or q (reverse xs) = last_or q xs.
Proof.
  revert q. induction xs as [|x xs IH]; intros q; simpl; [done|].
  by rewrite reverse_cons, first_or_app, IH.
Qed.
Lemma last_or_reverse q xs : last_or q (reverse xs) = first_or q xs.
Proof. destruct xs as [|x xs]; simpl; [done|]. by rewrite reverse_cons, last_or_app. Qed.

Lemma swap_links_ok h z p n :
  z ≠ NULL → h !! z = Some (ListElem p n) → swap_links z h = Ok (tt, <[z := ListElem n p]> h).
Proof.
  intros Hz He. unfold swap_links.
  run_with (get_prev_ok _ _ _ Hz He). run_with (get_next_ok _ _ _ Hz He). simpl.
  run_with (set_prev_ok _ _ _ n Hz He).
  assert (He' : upd_prev z n h !! z = Some (ListElem n n))
    by (unfold upd_prev; by rewrite lookup_alter_eq, He).
  rewrite (set_next_ok _ _ _ p Hz He'). do 2 f_equal. apply map_eq. intros i.
  unfold upd_next, upd_prev. destruct (decide (z = i)) as [->|Hi].
  - by rewrite lookup_insert_eq, !lookup_alter_eq, He.
  - by rewrite lookup_insert_ne, !lookup_alter_ne.
Qed.

Lemma list_reverse_loop_ok fuel h l ys zs :
  linked h (first_or (ltail l) zs) (reverse ys) (lhead l) →
  linked h (last_or (lhead l) ys) zs (ltail l) →
  NoDup (ys ++ zs) → NULL ∉ zs → ltail l ∉ zs → length zs < fuel →
  ∃ h', list_reverse_loop fuel l (first_or (ltail l) zs) h = Ok (tt, h') ∧
        linked h' (ltail l) (reverse (ys ++ zs)) (lhead l) ∧ frame zs h h'.
Proof.
  revert h ys zs. induction fuel as [|fuel IH]; intros h ys zs H1 H2 Hnd Hnn Ht Hf; [lia|].
  destruct zs as [|z zs]; simpl.
  { unfold list_end. rewrite ptr_eqb_refl. exists h. by rewrite app_nil_r. }
  unfold list_end. rewrite ptr_eqb_neq by set_solver.
  assert (Hz : z ≠ NULL) by set_solver. destruct H2 as [Hc H2].
  run_with (swap_links_ok _ _ _ _ Hz Hc). change (match zs with [] => _ | m :: _ => _ end)
    with (first_or (ltail l) zs) in *.
  set (h1 := <[z := _]> h).
  assert (Hc1 : h1 !! z = Some (ListElem (first_or (ltail l) zs) (last_or (lhead l) ys)))
    by apply lookup_insert_eq.
  run_with (get_prev_ok _ _ _ Hz Hc1). simpl prev.
  assert (Hnd' := Hnd). apply NoDup_app in Hnd' as (Hd1 & Hd2 & [Hd3 Hd4]%NoDup_cons).
  destruct (IH h1 (ys ++ [z]) zs) as (h' & Hrun & Hl & Hfr).
  - rewrite reverse_snoc. split.
    + rewrite Hc1. change (match reverse ys with [] => _ | m :: _ => _ end)
        with (first_or (lhead l) (reverse ys)). by rewrite first_or_reverse.
    + eapply linked_frame; [|done]. intros n Hn. rewrite elem_of_reverse in Hn.
      apply lookup_insert_ne. intros ->. apply (Hd2 n Hn). left.
  - rewrite last_or_app. simpl. eapply linked_frame; [|done]. intros n Hn.
    apply lookup_insert_ne. congruence.
  - by rewrite <- (assoc_L (++)).
  - set_solver.
  - set_solver.
  - simpl in Hf. lia.
  - exists h'. rewrite <- (assoc_L (++)) in Hl. split; [done|]. split; [done|].
    destruct Hfr as [Hf1 Hf2]. split.
    + intros x Hx. rewrite Hf1 by set_solver. apply lookup_insert_ne. set_solver.
    + rewrite Hf2. apply dom_insert_lookup_L. eauto.
Qed.

(** The two header swaps at the end of [list_reverse]. *)
Lemma reverse_headers_ok h l ys p q :
  ys ≠ [] → NoDup (nodes l ys) → NULL ∉ nodes l ys →
  linked h NULL [lhead l] (last_or p ys) → linked h (first_or q ys) [ltail l] NULL →
  linked h (ltail l) ys (lhead l) →
  ∃ h', (t ← get_next (lhead l); u ← get_prev (ltail l);
         set_next (lhead l) u ;; set_prev (ltail l) t ;;
         hn ← get_next (lhead l); tp ← get_prev (ltail l);
         t ← get_prev hn; u ← get_next tp;
         set_prev hn u ;; set_next tp t) h = Ok (tt, h') ∧
        is_list h' l ys ∧ frame (nodes l ys) h h'.
Proof.
  intros Hne Hnd Hnn C1 C3 C2. destruct ys as [|y ys]; [done|]. clear Hne. simpl first_or in C3.
  pose proof (seg_last_in p (y :: ys) ltac:(done)) as Hz.
  set (z := last_or p (y :: ys)) in *. set (Y := y :: ys) in *.
  assert (Hy : y ∈ Y) by left. assert (Hnd0 := Hnd). unfold nodes in Hnd0, Hnn.
  apply NoDup_cons in Hnd0 as [Hh Hnd0]. apply NoDup_app in Hnd0 as (Hdx & Hdt & _).
  assert (Hd : lhead l ∉ Y ∧ ltail l ∉ Y ∧ lhead l ≠ ltail l ∧ NULL ∉ Y ∧ lhead l ≠ NULL ∧
               ltail l ≠ NULL ∧ y ≠ NULL ∧ z ≠ NULL ∧ y ≠ lhead l ∧ y ≠ ltail l ∧
               z ≠ lhead l ∧ z ≠ ltail l).
  { assert (ltail l ∉ Y) by (intros ?; apply (Hdt (ltail l)); mem).
    assert (lhead l ∉ Y) by mem. repeat split; mem. }
  destruct Hd as (HhY & HtY & Hht & HnY & Hhn & Htn & Hyn & Hzn & Hyh & Hyt & Hzh & Hzt).
  run_with (seg_get_next h NULL [lhead l] z ltac:(done) ltac:(mem) C1).
  run_with (get_prev_first h _ _ _ _ Htn C3).
  run_with (seg_set_next h NULL [lhead l] z y ltac:(done) ltac:(mem) C1). simpl last_or.
  apply (seg_upd_next h _ _ _ y) in C1; [|done|apply NoDup_singleton]. simpl last_or in C1.
  carry_next (lhead l) y h. set (h1 := upd_next (lhead l) y h) in *.
  run_with (set_prev_first h1 _ _ _ _ z Htn C3).
  apply (seg_upd_prev h1 _ _ _ _ z) in C3; [|apply NoDup_singleton].
  carry_prev (ltail l) z h1. set (h2 := upd_prev (ltail l) z h1) in *.
  run_with (seg_get_next h2 NULL [lhead l] y ltac:(done) ltac:(mem) C1).
  run_with (get_prev_first h2 _ _ _ _ Htn C3).
  run_with (get_prev_first h2 _ _ _ _ Hyn C2).
  run_with (seg_get_next h2 _ Y _ ltac:(done) HnY C2).
  run_with (set_prev_first h2 _ _ _ _ (lhead l) Hyn C2).
  apply (seg_upd_prev h2 _ _ _ _ (lhead l)) in C2; [|done].
  carry_prev y (lhead l) h2. set (h3 := upd_prev y (lhead l) h2) in *.
  pose proof (seg_set_next h3 _ Y _ (ltail l) ltac:(done) HnY C2) as Hrun.
  change (last_or (lhead l) Y) with z in Hrun. rewrite Hrun. clear Hrun.
  apply (seg_upd_next h3 _ _ _ (ltail l)) in C2; [|done|done].
  change (last_or (lhead l) Y) with z in *. change (last_or (lhead l) (y :: ys)) with z in *.
  carry_next z (ltail l) h3. eexists. split; [done|]. split.
  - apply is_list_chains. split; [|done]. done.
  - apply frame_upd_next; [unfold nodes; mem|]. apply frame_upd_prev; [unfold nodes; mem|].
    apply frame_upd_prev; [unfold nodes; mem|]. apply frame_upd_next; [unfold nodes; mem|].
    apply frame_refl.
Qed.

Lemma list_reverse_ok h l xs :
  is_list h l xs →
  ∃ h', list_reverse l h = Ok (tt, h') ∧ is_list h' l (reverse xs) ∧ frame (nodes l xs) h h'.
Proof.
  intros Hd. unfold list_reverse. run_with (list_empty_ok _ _ _ Hd).
  case_bool_decide as Hx; [subst; by exists h|].
  pose proof (is_list_length _ _ _ Hd) as Hlen.
  run_with (loop_fuel_run h). run_with (list_begin_ok _ _ _ Hd).
  assert (Hd0 := Hd). apply is_list_chains in Hd0 as ((C1 & C2 & C3) & Hnd & Hnn).
  assert (Hnd0 := Hnd). unfold nodes in Hnd0.
  apply NoDup_cons in Hnd0 as [Hh Hnd0]. apply NoDup_app in Hnd0 as (Hdx & Hdt & _).
  assert (Htx : ltail l ∉ xs) by (intros ?; apply (Hdt (ltail l)); mem).
  assert (Hhx : lhead l ∉ xs) by mem.
  assert (Hnx : NULL ∉ xs) by (unfold nodes in Hnn; mem).
  destruct (list_reverse_loop_ok (S (size h)) h l [] xs) as (h1 & Hrun & C2' & Hf);
    [done..|lia|]. run_with Hrun. clear Hrun C2. simpl in C2'.
  apply (frame_linked _ _ _ _ _ _ Hf) in C1; [|mem].
  apply (frame_linked _ _ _ _ _ _ Hf) in C3; [|mem].
  assert (Hp := nodes_perm l _ _ (reverse_Permutation xs)).
  destruct (reverse_headers_ok h1 l (reverse xs) (ltail l) (lhead l)) as (h' & Hrun & Hl & Hf').
  - intros E%(f_equal reverse). by rewrite reverse_involutive in E.
  - by rewrite Hp.
  - by rewrite Hp.
  - by rewrite last_or_reverse.
  - by rewrite first_or_reverse.
  - done.
  - exists h'. split; [done|]. split; [done|]. eapply frame_trans.
    + eapply frame_mono; [|done]. unfold nodes. mem.
    + eapply frame_mono; [|done]. intros x. by rewrite Hp.
Qed.
End lists.

(** ** The list as a sequence: an abstract machine and its refinement *)

(** Calls a client makes, with the values they return. *)
Inductive list_op :=
| OpPushFront (e : ptr) | OpPushBack (e : ptr) | OpPopFront | OpPopBack
| OpInsert (before e : ptr) | OpSplice (before first last : ptr)
| OpRemove (e : ptr) | OpFront | OpBack | OpSize | OpEmpty | OpReverse.

Inductive list_ret := RUnit | RPtr (p : ptr) | RNat (n : nat) | RBool (b : bool).

(** The calls as list.c executes them. *)
Definition call (l : clist) (op : list_op) : CList.M list_ret :=
  match op with
  | OpPushFront e => list_push_front l e ;; mret RUnit
  | OpPushBack e => list_push_back l e ;; mret RUnit
  | OpPopFront => p ← list_pop_front l; mret (RPtr p)
  | OpPopBack => p ← list_pop_back l; mret (RPtr p)
  | OpInsert before e => list_insert before e ;; mret RUnit
  | OpSplice before first last => list_splice before first last ;; mret RUnit
  | OpRemove e => p ← list_remove e; mret (RPtr p)
  | OpFront => p ← list_front l; mret (RPtr p)
  | OpBack => p ← list_back l; mret (RPtr p)
  | OpSize => n ← list_size l; mret (RNat n)
  | OpEmpty => b ← list_empty l; mret (RBool b)
  | OpReverse => list_reverse l ;; mret RUnit
  end.

Fixpoint calls (l : clist) (ops : list list_op) : CList.M (list list_ret) :=
  match ops with
  | [] => mret []
  | op :: ops => r ← call l op; rs ← calls l ops; mret (r :: rs)
  end.

(** The same calls on a sequence without repetitions.  [None]: the caller has
    broken the contract (empty list, element absent, element inserted
    twice). *)
Fixpoint spec_remove (t e : ptr) (xs : list ptr) : option (ptr * list ptr) :=
  match xs with
  | [] => None
  | x :: xs =>
    if decide (x = e) then Some (first_or t xs, xs)
    else '(n, ys) ← spec_remove t e xs; Some (n, x :: ys)
  end.

(** The elements before position [e] and those from it on, where [e] is an
    element or the tail [t]. *)
Fixpoint spec_split (t e : ptr) (xs : list ptr) : option (list ptr * list ptr) :=
  if decide (first_or t xs = e) then Some ([], xs)
  else match xs with
       | [] => None
       | x :: xs => '(A, B) ← spec_split t e xs; Some (x :: A, B)
       end.
(** The range from [first] up to [last] is cut out and put in before
    [before], which is not in it. *)
Definition spec_splice (t before first last : ptr) (xs : list ptr) : option (list ptr) :=
  if decide (first = last) then _ ← spec_split t before xs; Some xs
  else
    '(A, B) ← spec_split t first xs;
    '(range, C) ← spec_split t last B;
    '(P, Q) ← spec_split t before (A ++ C);
    Some (P ++ range ++ Q).

Definition spec_op (l : clist) (op : list_op) (xs : list ptr) : option (list_ret * list ptr) :=
  match op with
  | OpPushFront e => if decide (e ∈ nodes l xs) then None else Some (RUnit, e :: xs)
  | OpPushBack e => if decide (e ∈ nodes l xs) then None else Some (RUnit, xs ++ [e])
  | OpPopFront => match xs with [] => None | x :: xs => Some (RPtr x, xs) end
  | OpPopBack => match reverse xs with [] => None | x :: rs => Some (RPtr x, reverse rs) end
  | OpInsert before e =>
    if decide (e ∈ nodes l xs) then None
    else '(A, B) ← spec_split (ltail l) before xs; Some (RUnit, A ++ e :: B)
  | OpSplice before first last => ys ← spec_splice (ltail l) before first last xs; Some (RUnit, ys)
  | OpRemove e => '(n, ys) ← spec_remove (ltail l) e xs; Some (RPtr n, ys)
  | OpFront => match xs with [] => None | x :: _ => Some (RPtr x, xs) end
  | OpBack => match reverse xs with [] => None | x :: _ => Some (RPtr x, xs) end
  | OpSize => Some (RNat (length xs), xs)
  | OpEmpty => Some (RBool (bool_decide (xs = [])), xs)
  | OpReverse => Some (RUnit, reverse xs)
  end.

Fixpoint spec_ops (l : clist) (ops : list list_op) (xs : list ptr)
    : option (list list_ret * list ptr) :=
  match ops with
  | [] => Some ([], xs)
  | op :: ops => '(r, ys) ← spec_op l op xs; '(rs, zs) ← spec_ops l ops ys; Some (r :: rs, zs)
  end.

(** Elements a sequence of calls inserts. *)
Definition pushed (op : list_op) : list ptr :=
  match op with OpPushFront e | OpPushBack e | OpInsert _ e => [e] | _ => [] end.

Section refinement.
Implicit Types (h : heap) (l : clist) (xs ys zs : list ptr).

Lemma list_push_front_ok h l xs e :
  is_list h l xs → e ∈ dom h → e ≠ NULL → e ∉ nodes l xs →
  ∃ h', list_push_front l e h = Ok (tt, h') ∧ is_list h' l (e :: xs) ∧
        frame (e :: nodes l xs) h h'.
Proof.
  intros Hd [e0 He]%elem_of_dom Hn Hnin. unfold list_push_front.
  run_with (list_begin_ok _ _ _ Hd). by apply (list_insert_ok h l [] xs e e0).
Qed.

Lemma list_push_back_ok h l xs e :
  is_list h l xs → e ∈ dom h → e ≠ NULL → e ∉ nodes l xs →
  ∃ h', list_push_back l e h = Ok (tt, h') ∧ is_list h' l (xs ++ [e]) ∧
        frame (e :: nodes l xs) h h'.
Proof.
  intros Hd [e0 He]%elem_of_dom Hn Hnin. unfold list_push_back.
  pose proof (list_insert_ok h l xs [] e e0) as H. rewrite app_nil_r in H. by apply H.
Qed.

Lemma list_front_ok h l x xs : is_list h l (x :: xs) → list_front l h = Ok (x, h).
Proof.
  intros Hd. unfold list_front. run_with (list_empty_ok _ _ _ Hd). run_assert; [|done].
  by apply (list_begin_ok h l (x :: xs)).
Qed.

Lemma list_back_ok h l xs x : is_list h l (xs ++ [x]) → list_back l h = Ok (x, h).
Proof.
  intros Hd. unfold list_back. run_with (list_empty_ok _ _ _ Hd).
  run_assert; [|by rewrite bool_decide_false by (by destruct xs)].
  pose proof (list_rbegin_ok h l _ Hd) as H. rewrite last_or_app in H. done.
Qed.

Lemma list_pop_front_ok h l x xs :
  is_list h l (x :: xs) →
  ∃ h', list_pop_front l h = Ok (x, h') ∧ is_list h' l xs ∧ frame (nodes l xs) h h'.
Proof.
  intros Hd. unfold list_pop_front. run_with (list_front_ok _ _ _ _ Hd).
  destruct (list_remove_ok h l [] x xs Hd) as (h' & Hrun & Hl & Hf). exists h'.
  by run_with Hrun.
Qed.

Lemma list_pop_back_ok h l xs x :
  is_list h l (xs ++ [x]) →
  ∃ h', list_pop_back l h = Ok (x, h') ∧ is_list h' l xs ∧ frame (nodes l xs) h h'.
Proof.
  intros Hd. unfold list_pop_back. run_with (list_back_ok _ _ _ _ Hd).
  destruct (list_remove_ok h l xs x [] Hd) as (h' & Hrun & Hl & Hf). rewrite app_nil_r in *.
  exists h'. by run_with Hrun.
Qed.

Lemma spec_remove_split t e xs n ys :
  spec_remove t e xs = Some (n, ys) →
  ∃ A B, xs = A ++ e :: B ∧ ys = A ++ B ∧ n = first_or t B.
Proof.
  revert n ys. induction xs as [|x xs IH]; intros n ys; simpl; [done|]. case_decide.
  - intros [= <- <-]. subst. by exists [], xs.
  - destruct (spec_remove t e xs) as [[n' ys']|] eqn:E; simpl; [|done].
    intros [= <- <-]. destruct (IH _ _ eq_refl) as (A & B & -> & -> & ->).
    by exists (x :: A), B.
Qed.

Lemma spec_split_app t e xs A B : spec_split t e xs = Some (A, B) → xs = A ++ B ∧ e = first_or t B.
Proof.
  revert A B. induction xs as [|x xs IH]; intros A B; simpl; case_decide; try done;
    [by intros [= <- <-]..|]. destruct (spec_split t e xs) as [[A' B']|]; simpl; [|done].
  intros [= <- <-]. destruct (IH _ _ eq_refl) as [-> ->]. done.
Qed.

(** Before an element or the tail, [list_splice] passes its first assertion. *)
Lemma list_splice_empty h l A B e :
  is_list h l (A ++ B) → list_splice (first_or (ltail l) B) e e h = Ok (tt, h).
Proof.
  intros (Hl & Hnd & Hnn). destruct (nodes_from (ltail l) B) as [R HR]. rewrite nodes_mid, HR in *.
  pose proof (linked_lookup _ _ _ _ _ _ Hl) as He. pose proof (seg_last_in NULL (lhead l :: A) ltac:(done)) as Hin. simpl in Hin.
  assert (H1 : first_or (ltail l) B ≠ NULL) by (intros Hx; rewrite Hx in Hnn; set_solver).
  assert (H2 : last_or (lhead l) A ≠ NULL) by (intros Hx; rewrite Hx in Hin; set_solver).
  unfold list_splice. run_with (guard_before h _ _ H1 He H2).
  run_assert; [|done]. by rewrite ptr_eqb_refl.
Qed.

Lemma spec_splice_refines h l before first last xs ys :
  is_list h l xs → spec_splice (ltail l) before first last xs = Some ys →
  ∃ h', list_splice before first last h = Ok (tt, h') ∧ is_list h' l ys ∧ frame (nodes l xs) h h'.
Proof.
  intros Hd. unfold spec_splice. case_decide as Efl.
  - destruct (spec_split _ before xs) as [[A B]|] eqn:E; simpl; [|done]. intros [= <-].
    apply spec_split_app in E as [-> ->]. subst. exists h. by rewrite (list_splice_empty h l A B last Hd).
  - destruct (spec_split _ first xs) as [[A B]|] eqn:E1; simpl; [|done].
    destruct (spec_split _ last B) as [[S C]|] eqn:E2; simpl; [|done].
    destruct (spec_split _ before (A ++ C)) as [[P Q]|] eqn:E3; simpl; [|done]. intros [= <-].
    apply spec_split_app in E1 as [-> E1], E2 as [-> ->], E3 as [E3 ->].
    destruct S as [|x S]; simpl in E1; [done|]. subst x.
    destruct (list_splice_ok h l A first S C P Q Hd (eq_sym E3)) as (h' & Hrun & Hd' & Hf).
    by exists h'.
Qed.

Lemma spec_splice_perm t before first last xs ys : spec_splice t before first last xs = Some ys → ys ≡ₚ xs.
Proof.
  unfold spec_splice. case_decide.
  - destruct (spec_split t before xs); simpl; [|done]. by intros [= <-].
  - destruct (spec_split t first xs) as [[A B]|] eqn:E1; simpl; [|done].
    destruct (spec_split t last B) as [[S C]|] eqn:E2; simpl; [|done].
    destruct (spec_split t before (A ++ C)) as [[P Q]|] eqn:E3; simpl; [|done]. intros [= <-].
    apply spec_split_app in E1 as [-> _], E2 as [-> _], E3 as [E3 _].
    rewrite !(Permutation_app_comm S), !(assoc_L (++)). by rewrite <- E3.
Qed.

Lemma reverse_cons_inv xs x rs : reverse xs = x :: rs → xs = reverse rs ++ [x].
Proof. intros H%(f_equal reverse). rewrite reverse_involutive, reverse_cons in H. done. Qed.

Lemma nodes_subset l xs ys : xs ⊆ ys → nodes l xs ⊆ nodes l ys.
Proof. unfold nodes. set_solver. Qed.

(** One call refines one abstract step. *)
Lemma call_refines h l op xs r ys :
  is_list h l xs → Forall (λ e, e ∈ dom h ∧ e ≠ NULL) (pushed op) →
  spec_op l op xs = Some (r, ys) →
  ∃ h', call l op h = Ok (r, h') ∧ is_list h' l ys ∧ frame (pushed op ++ nodes l xs) h h'.
Proof.
  intros Hd Hp Hs. destruct op as [e|e| | |b e|b f la|e| | | | |]; simpl in *.
  - apply Forall_singleton in Hp as [He Hn]. case_decide; simplify_eq.
    destruct (list_push_front_ok h l xs e) as (h' & Hrun & ? & ?); [done..|].
    exists h'. by run_with Hrun.
  - apply Forall_singleton in Hp as [He Hn]. case_decide; simplify_eq.
    destruct (list_push_back_ok h l xs e) as (h' & Hrun & ? & ?); [done..|].
    exists h'. by run_with Hrun.
  - destruct xs as [|x xs]; simplify_eq.
    destruct (list_pop_front_ok h l x ys Hd) as (h' & Hrun & ? & ?). exists h'.
    run_with Hrun. split; [done|]. split; [done|]. eapply frame_mono; [|done].
    apply nodes_subset. set_solver.
  - destruct (reverse xs) as [|x rs] eqn:E; simplify_eq. apply reverse_cons_inv in E as ->.
    destruct (list_pop_back_ok h l (reverse rs) x Hd) as (h' & Hrun & ? & ?). exists h'.
    run_with Hrun. split; [done|]. split; [done|]. eapply frame_mono; [|done].
    apply nodes_subset. set_solver.
  - apply Forall_singleton in Hp as [[e0 He]%elem_of_dom Hn]. case_decide; [done|].
    destruct (spec_split (ltail l) b xs) as [[A B]|] eqn:E; simplify_eq/=. apply spec_split_app in E as [-> ->].
    destruct (list_insert_ok h l A B e e0) as (h' & Hrun & ? & ?); [done..|]. exists h'. by run_with Hrun.
  - destruct (spec_splice (ltail l) b f la xs) as [zs|] eqn:E; simplify_eq/=.
    destruct (spec_splice_refines h l b f la xs ys Hd E) as (h' & Hrun & ? & ?). exists h'. by run_with Hrun.
  - destruct (spec_remove (ltail l) e xs) as [[n zs]|] eqn:E; simplify_eq/=.
    apply spec_remove_split in E as (A & B & -> & -> & ->).
    destruct (list_remove_ok h l A e B Hd) as (h' & Hrun & ? & ?). exists h'.
    run_with Hrun. split; [done|]. split; [done|]. eapply frame_mono; [|done].
    apply nodes_subset. set_solver.
  - destruct xs as [|x xs]; simplify_eq. exists h. by run_with (list_front_ok _ _ _ _ Hd).
  - destruct (reverse xs) as [|x rs] eqn:E; simplify_eq. apply reverse_cons_inv in E as ->.
    exists h. by run_with (list_back_ok _ _ _ _ Hd).
  - simplify_eq. exists h. by run_with (list_size_ok _ _ _ Hd).
  - simplify_eq. exists h. by run_with (list_empty_ok _ _ _ Hd).
  - simplify_eq. destruct (list_reverse_ok h l xs Hd) as (h' & Hrun & ? & ?). exists h'.
    by run_with Hrun.
Qed.

Lemma spec_op_subset l op xs r ys :
  spec_op l op xs = Some (r, ys) → ys ⊆ pushed op ++ xs.
Proof.
  destruct op as [e|e| | |b e|b f la|e| | | | |]; simpl; intros Hs; try (case_decide; simplify_eq; set_solver).
  - destruct xs; simplify_eq; set_solver.
  - destruct (reverse xs) as [|x rs] eqn:E; simplify_eq. apply reverse_cons_inv in E as ->.
    set_solver.
  - case_decide; [done|]. destruct (spec_split (ltail l) b xs) as [[A B]|] eqn:E; simplify_eq/=.
    apply spec_split_app in E as [-> _]. set_solver.
  - destruct (spec_splice (ltail l) b f la xs) as [zs|] eqn:E; simplify_eq/=.
    intros x. by rewrite (spec_splice_perm _ _ _ _ _ _ E).
  - destruct (spec_remove (ltail l) e xs) as [[n zs]|] eqn:E; simplify_eq/=.
    apply spec_remove_split in E as (A & B & -> & -> & ->). set_solver.
  - destruct xs; simplify_eq; set_solver.
  - destruct (reverse xs); simplify_eq; set_solver.
  - simplify_eq. set_solver.
  - simplify_eq. set_solver.
  - simplify_eq. intros x. by rewrite elem_of_reverse.
Qed.
End refinement.

(** C7: the pointer code of list.c implements sequences.  From a well-formed
    list, any series of insertions at the ends or before any element, pops,
    removals, moves of a range to any place outside it ([list_splice] within
    the list), reversals and queries that respects the interface (no pop or
    front of an empty list, no removal of an absent element, no double
    insertion, positions and ranges that are in the list) runs without a fault or a failed assertion, terminates, returns exactly
    what the same calls return on the sequence of elements, leaves a
    well-formed list of the resulting sequence, and touches no cell other
    than those of the list and of the inserted elements. *)
Theorem list_calls_refine (ops : list list_op) (h : heap) (l : clist) (xs ys : list ptr) rs :
  is_list h l xs →
  Forall (λ e, e ∈ dom h ∧ e ≠ NULL) (ops ≫= pushed) →
  spec_ops l ops xs = Some (rs, ys) →
  ∃ h', calls l ops h = Ok (rs, h') ∧ is_list h' l ys ∧ frame ((ops ≫= pushed) ++ nodes l xs) h h'.
Proof.
  revert h xs rs. induction ops as [|op ops IH]; intros h xs rs Hd Hp Hs; simpl in *.
  { simplify_eq. by exists h. }
  apply Forall_app in Hp as [Hp1 Hp2].
  destruct (spec_op l op xs) as [[r zs]|] eqn:E1; simplify_eq/=.
  destruct (spec_ops l ops zs) as [[rs' ws]|] eqn:E2; simplify_eq/=.
  destruct (call_refines h l op xs r zs Hd Hp1 E1) as (h1 & Hrun1 & Hd1 & Hf1).
  destruct (IH h1 zs rs' Hd1) as (h2 & Hrun2 & Hd2 & Hf2); [|done|].
  { rewrite (proj2 Hf1). done. }
  exists h2. run_with Hrun1. run_with Hrun2. split; [done|]. split; [done|].
  pose proof (spec_op_subset _ _ _ _ _ E1). eapply frame_trans.
  - eapply frame_mono; [|done]. set_solver.
  - eapply frame_mono; [|done]. unfold nodes. set_solver.
Qed.

(** A heap with a fresh list header at 1 and 2 and three loose elements. *)
Definition demo_heap : heap :=
  list_to_map [(1, ListElem 0 2); (2, ListElem 1 0); (3, ListElem 0 0); (4, ListElem 0 0);
               (5, ListElem 0 0)]%N.
Definition demo_list : clist := CListAt 1 2.

Lemma demo_is_list : is_list demo_heap demo_list [].
Proof.
  split; [vm_compute; auto|]. split.
  - by refine (bool_decide_unpack _ _); vm_compute.
  - by refine (bool_decide_unpack _ _); vm_compute.
Qed.

Lemma list_calls_refine_witness :
  ∃ h', calls demo_list [OpPushBack 3; OpInsert 3 4; OpPushBack 5; OpSplice 4 3 2; OpReverse; OpRemove 3;
                         OpPopBack; OpSize]%N demo_heap
        = Ok ([RUnit; RUnit; RUnit; RUnit; RUnit; RPtr 2; RPtr 5; RNat 1]%N, h') ∧
        is_list h' demo_list [4%N].
Proof.
  destruct (list_calls_refine [OpPushBack 3; OpInsert 3 4; OpPushBack 5; OpSplice 4 3 2; OpReverse;
                               OpRemove 3; OpPopBack; OpSize]%N demo_heap demo_list [] [4%N]
              [RUnit; RUnit; RUnit; RUnit; RUnit; RPtr 2; RPtr 5; RNat 1]%N) as (h' & H1 & H2 & _).
  - exact demo_is_list.
  - simpl. repeat (apply Forall_cons; split; [split; [apply elem_of_dom; vm_compute; eauto | done]|]).
    apply Forall_nil. done.
  - vm_compute. reflexivity.
  - exists h'. split; assumption.
Defined.

(** [list_init] turns any two cells into an empty list. *)
Lemma list_init_ok (h : heap) (l : clist) :
  lhead l ∈ dom h → ltail l ∈ dom h → NoDup [lhead l; ltail l; NULL] →
  ∃ h', list_init l h = Ok (tt, h') ∧ is_list h' l [] ∧ frame (nodes l []) h h'.
Proof.
  intros [e1 H1]%elem_of_dom [e2 H2]%elem_of_dom Hnd.
  apply NoDup_cons in Hnd as [Hd1 Hnd]. apply NoDup_cons in Hnd as [Hd2 _].
  assert (Hn1 : lhead l ≠ NULL) by set_solver. assert (Hn2 : ltail l ≠ NULL) by set_solver.
  assert (Hne : lhead l ≠ ltail l) by set_solver.
  assert (C1 : linked h (prev e1) [lhead l] (next e1)) by (simpl; rewrite H1; by destruct e1).
  assert (C2 : linked h (prev e2) [ltail l] (next e2)) by (simpl; rewrite H2; by destruct e2).
  unfold list_init. run_with (set_prev_first _ _ _ _ _ NULL Hn1 C1).
  apply (seg_upd_prev h _ _ _ _ NULL) in C1; [|apply NoDup_singleton]. carry_prev (lhead l) NULL h.
  set (h1 := upd_prev (lhead l) NULL h) in *.
  run_with (seg_set_next h1 NULL [lhead l] _ (ltail l) ltac:(done) ltac:(mem) C1). simpl last_or.
  apply (seg_upd_next h1 _ _ _ (ltail l)) in C1; [|done|apply NoDup_singleton]. simpl last_or in C1.
  carry_next (lhead l) (ltail l) h1. set (h2 := upd_next (lhead l) (ltail l) h1) in *.
  run_with (set_prev_first _ _ _ _ _ (lhead l) Hn2 C2).
  apply (seg_upd_prev h2 _ _ _ _ (lhead l)) in C2; [|apply NoDup_singleton].
  carry_prev (ltail l) (lhead l) h2. set (h3 := upd_prev (ltail l) (lhead l) h2) in *.
  rewrite (set_next_last h3 _ [] _ _ NULL Hn2 C2).
  apply (seg_upd_next h3 _ _ _ NULL) in C2; [|done|apply NoDup_singleton]. simpl last_or in C2.
  carry_next (ltail l) NULL h3. eexists. split; [done|]. split.
  - apply is_list_chains. split; [done|]. unfold nodes. simpl. split; [|mem].
    repeat constructor; mem.
  - apply frame_upd_next; [unfold nodes; mem|]. apply frame_upd_prev; [unfold nodes; mem|].
    apply frame_upd_next; [unfold nodes; mem|]. apply frame_upd_prev; [unfold nodes; mem|].
    apply frame_refl.
Qed.
