(* ===== verification/CListOrder.v ===== *)
(** * The ordering operations of list.c

    [list_sort], [list_insert_ordered], [list_unique], [list_max] and
    [list_min] for a comparison that is a strict weak order, as [list.h]
    requires of a [list_less_func]. *)
From S2P Require Import Prelude CList CListFacts CListSpec.
Import CList.

(** What [list_less_func] promises. *)
Class StrictWeakOrder (less : ptr → ptr → bool) : Prop := {
  less_asym a b : less a b = true → less b a = false;
  less_ge_trans a b c : less b a = false → less c b = false → less c a = false;
}.

Section order.
Context (less : ptr → ptr → bool).
Implicit Types (h : heap) (l : clist) (xs ys zs A B pre post : list ptr) (a b : ptr).

(** [a] may stand before [b]. *)
Definition le a b : Prop := less b a = false.

(** Sortedness as [is_sorted] tests it: no element is less than the one
    before it. *)
Fixpoint sortedb_from (p : ptr) xs : bool :=
  match xs with
  | [] => true
  | x :: xs => negb (less x p) && sortedb_from x xs
  end.
Definition sortedb xs : bool := match xs with [] => true | x :: xs => sortedb_from x xs end.

(** The maximal nondecreasing prefix after [p], and the rest. *)
Fixpoint take_run (p : ptr) xs : list ptr * list ptr :=
  match xs with
  | [] => ([], [])
  | x :: xs' =>
    if negb (less x p) then let '(r, s) := take_run x xs' in (x :: r, s) else ([], xs)
  end.

Fixpoint merge A : list ptr → list ptr :=
  fix merge_aux B :=
    match A, B with
    | [], _ => B
    | _, [] => A
    | a :: A', b :: B' =>
      if negb (less b a) then a :: merge A' B else b :: merge_aux B'
    end.

(** Neither of [a] and [x] is less than the other. *)
Definition tied a x : bool := negb (less a x) && negb (less x a).

(** Tied elements stand in the same order in [ys] and [xs]. *)
Definition same_ties ys xs : Prop := ∀ a, List.filter (tied a) ys = List.filter (tied a) xs.

(** Number of maximal nondecreasing runs. *)
Fixpoint breaks (p : ptr) xs : nat :=
  match xs with
  | [] => 0
  | x :: xs => (if less x p then 1 else 0) + breaks x xs
  end.
Definition nruns xs : nat := match xs with [] => 0 | x :: xs => S (breaks x xs) end.

(** ** Facts on sequences *)

Lemma take_run_app p xs : let '(r, s) := take_run p xs in xs = r ++ s.
Proof.
  revert p. induction xs as [|x xs IH]; intros p; simpl; [done|].
  destruct (negb (less x p)); [|done]. specialize (IH x).
  destruct (take_run x xs) as [r s]. simpl. congruence.
Qed.

Lemma take_run_sorted p xs : sortedb_from p (take_run p xs).1 = true.
Proof.
  revert p. induction xs as [|x xs IH]; intros p; simpl; [done|].
  destruct (negb (less x p)) eqn:E; [|done]. specialize (IH x).
  destruct (take_run x xs) as [r s]. simpl in *. by rewrite E.
Qed.

Lemma take_run_nruns p xs : nruns (p :: xs) = S (nruns (take_run p xs).2).
Proof.
  simpl. f_equal. revert p. induction xs as [|x xs IH]; intros p; simpl; [done|].
  destruct (less x p) eqn:E; simpl; [done|]. rewrite IH. by destruct (take_run x xs).
Qed.

Lemma merge_perm A B : merge A B ≡ₚ A ++ B.
Proof.
  revert B. induction A as [|a A IHA]; intros B; [by destruct B|].
  induction B as [|b B IHB]; [by rewrite app_nil_r|].
  simpl. destruct (negb (less b a)).
  - by rewrite IHA.
  - simpl in IHB. rewrite IHB. rewrite <- Permutation_middle. simpl. apply Permutation_swap.
Qed.

Lemma breaks_app p A B : breaks p (A ++ B) ≤ breaks p A + nruns B.
Proof.
  revert p. induction A as [|a A IH]; intros p; simpl.
  - destruct B as [|b B]; simpl; [lia|]. destruct (less b p); lia.
  - specialize (IH a). lia.
Qed.

Lemma nruns_app A B : nruns (A ++ B) ≤ nruns A + nruns B.
Proof. destruct A as [|a A]; simpl; [lia|]. pose proof (breaks_app a A B). lia. Qed.

Lemma sorted_breaks p xs : sortedb_from p xs = true ↔ breaks p xs = 0.
Proof.
  revert p. induction xs as [|x xs IH]; intros p; simpl; [done|].
  destruct (less x p); simpl; [split; [done|lia]|]. apply IH.
Qed.

Lemma nruns_sorted xs : sortedb xs = true ↔ nruns xs ≤ 1.
Proof. destruct xs as [|x xs]; simpl; [split; [lia|done]|]. rewrite sorted_breaks. lia. Qed.

Lemma nruns_length xs : nruns xs ≤ length xs.
Proof.
  destruct xs as [|x xs]; simpl; [lia|]. apply le_n_S. revert x.
  induction xs as [|y xs IH]; intros x; simpl; [lia|]. specialize (IH y).
  destruct (less y x); lia.
Qed.

Lemma nruns_pos x xs : 0 < nruns (x :: xs).
Proof. simpl. lia. Qed.

Context `{!StrictWeakOrder less}.

Lemma merge_sorted_from p A B :
  sortedb_from p A = true → sortedb_from p B = true → sortedb_from p (merge A B) = true.
Proof.
  revert p B. induction A as [|a A IHA]; intros p B; [by destruct B|].
  revert p. induction B as [|b B IHB]; intros p HA HB; [done|].
  simpl in HA, HB. apply andb_true_iff in HA as [Ha HA], HB as [Hb HB].
  simpl. destruct (negb (less b a)) eqn:E; simpl.
  - rewrite Ha. simpl. apply IHA; [done|]. simpl. by rewrite E.
  - rewrite Hb. simpl. apply (IHB b); [|done]. simpl. apply andb_true_iff. split; [|done].
    apply negb_true_iff. apply less_asym. by apply negb_false_iff in E.
Qed.

Lemma merge_sorted A B : sortedb A = true → sortedb B = true → sortedb (merge A B) = true.
Proof.
  destruct A as [|a A]; intros HA HB; [by destruct B|]. destruct B as [|b B]; [done|].
  simpl in HA, HB. simpl. destruct (negb (less b a)) eqn:E; simpl.
  - apply merge_sorted_from; [done|]. simpl. by rewrite E.
  - apply (merge_sorted_from b (a :: A) B); [|done]. simpl. apply andb_true_iff. split; [|done].
    apply negb_true_iff, less_asym. by apply negb_false_iff in E.
Qed.

Lemma sortedb_StronglySorted xs : sortedb xs = true → StronglySorted le xs.
Proof.
  assert (Hle : ∀ p xs, sortedb_from p xs = true → Forall (le p) xs).
  { intros p ys. revert p. induction ys as [|y ys IH]; intros p H; [by constructor|].
    simpl in H. apply andb_true_iff in H as [H1%negb_true_iff H2]. constructor; [done|].
    eapply Forall_impl; [by apply IH|]. intros z Hz. eapply less_ge_trans; [exact H1|done]. }
  induction xs as [|x xs IH]; simpl; intros H; constructor.
  - apply IH. destruct xs as [|y xs]; simpl in *; [done|]. by apply andb_true_iff in H as [_ H].
  - by apply Hle.
Qed.

Lemma tied_trans a b x : tied a b = true → tied a x = true → less b x = false.
Proof.
  unfold tied. rewrite !andb_true_iff, !negb_true_iff. intros [H1 H2] [H3 H4].
  by eapply (less_ge_trans x a b).
Qed.

(** No element of a sorted sequence that starts above [b] ties with what ties
    with [b]. *)
Lemma ties_above a b x xs :
  sortedb (x :: xs) = true → less b x = true → tied a b = true → List.filter (tied a) (x :: xs) = [].
Proof.
  intros Hs Hb Ht. apply sortedb_StronglySorted in Hs.
  assert (Hall : ∀ y, y ∈ x :: xs → less b y = true).
  { intros y [->|Hy]%elem_of_cons; [done|]. apply StronglySorted_inv in Hs as [_ Hle].
    rewrite Forall_forall in Hle. specialize (Hle y Hy). unfold le in Hle.
    destruct (less b y) eqn:E; [done|]. assert (less b x = false); [|congruence]. by eapply (less_ge_trans x y b). }
  induction (x :: xs) as [|y ys IH]; [done|]. simpl. destruct (tied a y) eqn:Ey.
  - assert (Hy := Hall y ltac:(left)). rewrite (tied_trans a b y Ht Ey) in Hy. done.
  - apply StronglySorted_inv in Hs as [Hs _]. apply IH; [done|]. intros z Hz. apply Hall. by right.
Qed.

(** The merge takes tied elements of the first run first. *)
Lemma merge_ties A B : sortedb A = true → same_ties (merge A B) (A ++ B).
Proof.
  intros HA a. revert B HA. induction A as [|x A IHA]; intros B HA; [by destruct B|].
  induction B as [|b B IHB]; [by rewrite app_nil_r|].
  assert (HA' : sortedb A = true) by (destruct A as [|y A]; [done|]; simpl in *; by apply andb_true_iff in HA as [_ ?]).
  cbn [merge]. destruct (negb (less b x)) eqn:E.
  - cbn [List.filter app]. rewrite (IHA (b :: B) HA'). done.
  - apply negb_false_iff in E. change ((fix merge_aux B := _) B) with (merge (x :: A) B).
    transitivity ((if tied a b then [b] else []) ++ List.filter (tied a) (merge (x :: A) B)).
    { simpl. by destruct (tied a b). }
    rewrite IHB, !List.filter_app. destruct (tied a b) eqn:Et.
    + rewrite (ties_above a b x A HA E Et). simpl. by rewrite Et.
    + simpl. by rewrite Et.
Qed.
End order.

Section steps.
Implicit Types (h : heap) (pre post S : list ptr) (b x : ptr).

(** Stepping inside [pre ++ S ++ b :: post]. *)
Lemma seg_next h pre x S b post :
  dll h (pre ++ (x :: S) ++ b :: post) → list_next x h = Ok (first_or b S, h).
Proof.
  intros Hd. destruct S as [|y S]; simpl in *.
  - by eapply dll_next.
  - by eapply (dll_next h pre x y (S ++ b :: post)).
Qed.

Lemma seg_first_ne h pre S b post :
  dll h (pre ++ S ++ b :: post) → ptr_eqb (first_or b S) b = bool_decide (S = []).
Proof.
  intros (_ & Hnd & _). destruct S as [|x S]; simpl first_or.
  - by rewrite ptr_eqb_refl.
  - apply ptr_eqb_neq. intros ->. apply NoDup_app in Hnd as (_ & _ & Hnd).
    apply NoDup_app in Hnd as (_ & Hd & _). apply (Hd b); set_solver.
Qed.

Lemma seg_fuel h pre S b post : dll h (pre ++ S ++ b :: post) → length S < size h.
Proof. intros H%dll_length. revert H. rewrite !length_app. simpl. lia. Qed.

(** Re-bracketing a node list so that one more element is in the prefix. *)
Lemma seg_shift pre x S : pre ++ x :: S = (pre ++ [x]) ++ S.
Proof. by rewrite <- (assoc_L (++)). Qed.
End steps.

Section loops.
Context (less : ptr → ptr → bool).
Implicit Types (h : heap) (l : clist) (xs ys zs A B pre post S : list ptr) (a b x : ptr).

Abbreviation le := (le less).
Abbreviation sortedb := (sortedb less).
Abbreviation merge := (merge less).
Abbreviation nruns := (nruns less).

Lemma is_sorted_loop_ok fuel h pre x S b post :
  dll h (pre ++ (x :: S) ++ b :: post) → length S < fuel →
  is_sorted_loop less fuel x b h = Ok (sortedb_from less x S, h).
Proof.
  revert pre x S. induction fuel as [|fuel IH]; intros pre x S Hd Hf; [lia|]. simpl.
  run_with (seg_next _ _ _ _ _ _ Hd).
  assert (Hd' : dll h ((pre ++ [x]) ++ S ++ b :: post)) by (by rewrite <- (assoc_L (++))).
  rewrite (seg_first_ne _ _ _ _ _ Hd'). destruct S as [|y S]; [done|]. simpl first_or.
  rewrite bool_decide_false by done.
  run_with (dll_prev h pre x y (S ++ b :: post) Hd). simpl in *.
  destruct (less y x); simpl; [done|]. apply (IH (pre ++ [x])); [|lia]. done.
Qed.

Lemma is_sorted_ok h pre S b post :
  dll h (pre ++ S ++ b :: post) → is_sorted less (first_or b S) b h = Ok (sortedb S, h).
Proof.
  intros Hd. unfold is_sorted. rewrite (seg_first_ne _ _ _ _ _ Hd).
  destruct S as [|x S]; [done|]. rewrite bool_decide_false by done.
  run_with (loop_fuel_run h). pose proof (seg_fuel _ _ _ _ _ Hd).
  apply (is_sorted_loop_ok _ h pre x S b post Hd). simpl in *. lia.
Qed.

Lemma find_end_of_run_loop_ok fuel h pre x S b post :
  dll h (pre ++ (x :: S) ++ b :: post) → length S < fuel →
  find_end_of_run_loop less fuel x b h = Ok (first_or b (take_run less x S).2, h).
Proof.
  revert pre x S. induction fuel as [|fuel IH]; intros pre x S Hd Hf; [lia|]. simpl.
  run_with (seg_next _ _ _ _ _ _ Hd).
  assert (Hd' : dll h ((pre ++ [x]) ++ S ++ b :: post)) by (by rewrite <- (assoc_L (++))).
  rewrite (seg_first_ne _ _ _ _ _ Hd'). destruct S as [|y S]; [done|]. simpl first_or.
  rewrite bool_decide_false by done.
  run_with (dll_prev h pre x y (S ++ b :: post) Hd). simpl in *.
  destruct (less y x) eqn:E; simpl; [done|].
  rewrite (IH (pre ++ [x]) y S) by (done || lia). by destruct (take_run less y S).
Qed.

Lemma find_end_of_run_ok h pre x S b post :
  dll h (pre ++ (x :: S) ++ b :: post) →
  find_end_of_run less x b h = Ok (first_or b (take_run less x S).2, h).
Proof.
  intros Hd. unfold find_end_of_run.
  assert (Hx : x ≠ NULL) by (eapply dll_not_null; [done|set_solver]).
  assert (Hb : b ≠ NULL) by (eapply dll_not_null; [done|set_solver]).
  pose proof (seg_first_ne _ _ _ _ _ Hd) as Hne. simpl in Hne.
  run_assert; [|by rewrite ptr_eqb_neq]. run_assert; [|by rewrite ptr_eqb_neq].
  run_assert; [|by rewrite Hne]. run_with (loop_fuel_run h).
  pose proof (seg_fuel _ _ _ _ _ Hd) as Hf. simpl in Hf.
  apply (find_end_of_run_loop_ok _ h pre x S b post Hd). lia.
Qed.

Lemma inplace_merge_loop_ok fuel h pre A B b1 post :
  pre ≠ [] → dll h (pre ++ A ++ B ++ b1 :: post) → length A + length B < fuel →
  ∃ h', inplace_merge_loop less fuel (first_or (first_or b1 B) A) (first_or b1 B) b1 h = Ok (tt, h') ∧
        dll h' (pre ++ merge A B ++ b1 :: post) ∧
        frame (pre ++ A ++ B ++ b1 :: post) h h'.
Proof.
  revert h pre A B. induction fuel as [|fuel IH]; intros h pre A B Hp Hd Hf; [lia|].
  assert (Hd1 : dll h ((pre ++ A) ++ B ++ b1 :: post)) by (by rewrite <- (assoc_L (++))).
  simpl inplace_merge_loop. rewrite (seg_first_ne _ _ _ _ _ Hd1).
  destruct B as [|b B].
  { rewrite orb_true_r. exists h. split; [done|]. split; [|apply frame_refl].
    by destruct A. }
  rewrite orb_false_r. simpl (first_or b1 (b :: B)).
  assert (Hd2 : dll h (pre ++ A ++ b :: (B ++ b1 :: post))) by done.
  rewrite (seg_first_ne _ _ _ _ _ Hd2). destruct A as [|a A].
  { exists h. split; [done|]. split; [done|apply frame_refl]. }
  rewrite bool_decide_false by done. change (first_or b (a :: A)) with a. simpl (merge _ _).
  destruct (negb (less b a)) eqn:E.
  - run_with (seg_next h pre a A b (B ++ b1 :: post) Hd2).
    destruct (IH h (pre ++ [a]) A (b :: B)) as (h' & Hrun & Hd' & Hfr).
    + by destruct pre.
    + rewrite <- (assoc_L (++)). done.
    + simpl in *. lia.
    + exists h'. rewrite <- (assoc_L (++)) in Hd', Hfr. done.
  - assert (Hd3 : dll h ((pre ++ a :: A) ++ (b :: B) ++ b1 :: post))
      by (by rewrite <- (assoc_L (++))).
    run_with (seg_next h _ b B b1 post Hd3).
    assert (Hsp : ∃ R, B ++ b1 :: post = first_or b1 B :: R).
    { destruct B as [|b' B]; simpl; eauto. }
    destruct Hsp as [R HR].
    assert (Hd4 : dll h (pre ++ (a :: A) ++ (b :: []) ++ first_or b1 B :: R)).
    { rewrite <- HR. done. }
    assert (Hd5 : dll h ((pre ++ a :: A) ++ b :: first_or b1 B :: R))
      by (by rewrite <- (assoc_L (++))).
    run_with (dll_prev h (pre ++ a :: A) b (first_or b1 B) R Hd5).
    destruct Hd4 as (Hl & Hnd & Hnn).
    destruct (list_splice_pieces h NULL pre a A b [] (first_or b1 B) R NULL)
      as (h1 & Hrun1 & Hl1 & Hf1); [done..|].
    run_with Hrun1. rewrite <- HR in Hl1, Hf1, Hnd, Hnn.
    assert (Hpm : pre ++ [b] ++ (a :: A) ++ B ++ b1 :: post
                  ≡ₚ pre ++ (a :: A) ++ [b] ++ B ++ b1 :: post).
    { f_equiv. rewrite !(assoc_L (++)). f_equiv. f_equiv. apply (comm (++)). }
    destruct (IH h1 (pre ++ [b]) (a :: A) B) as (h' & Hrun & Hd' & Hfr).
    + by destruct pre.
    + rewrite <- (assoc_L (++)). split; [done|]. rewrite Hpm. done.
    + simpl in *. lia.
    + exists h'. split; [done|]. rewrite <- !(assoc_L (++)) in Hd', Hfr. split; [done|].
      eapply frame_trans; [done|]. eapply frame_mono; [|done].
      intros z Hz. simpl in Hpm. by rewrite <- Hpm.
Qed.

Lemma inplace_merge_ok h pre A B b1 post :
  pre ≠ [] → A ≠ [] → B ≠ [] → sortedb A = true → sortedb B = true →
  dll h (pre ++ A ++ B ++ b1 :: post) →
  ∃ h', inplace_merge less (first_or b1 A) (first_or b1 B) b1 h = Ok (tt, h') ∧
        dll h' (pre ++ merge A B ++ b1 :: post) ∧
        frame (pre ++ A ++ B ++ b1 :: post) h h'.
Proof.
  intros Hp HA HB HsA HsB Hd. destruct A as [|a A]; [done|]. destruct B as [|b B]; [done|].
  simpl first_or. unfold inplace_merge.
  assert (Ha : a ≠ NULL) by (eapply dll_not_null; [done|set_solver]).
  assert (Hb : b ≠ NULL) by (eapply dll_not_null; [done|set_solver]).
  assert (Hb1 : b1 ≠ NULL) by (eapply dll_not_null; [done|set_solver]).
  do 3 (run_assert; [|by rewrite ptr_eqb_neq]).
  assert (Hd2 : dll h ((pre ++ a :: A) ++ (b :: B) ++ b1 :: post))
    by (by rewrite <- (assoc_L (++))).
  run_with (is_sorted_ok h pre (a :: A) b (B ++ b1 :: post) Hd). run_assert; [|done].
  run_with (is_sorted_ok h (pre ++ a :: A) (b :: B) b1 post Hd2). run_assert; [|done].
  run_with (loop_fuel_run h).
  apply (inplace_merge_loop_ok (Datatypes.S (size h)) h pre (a :: A) (b :: B) b1 post Hp Hd).
  apply dll_length in Hd. rewrite !length_app in Hd. simpl in *. lia.
Qed.
End loops.

Section sorting.
Context (less : ptr → ptr → bool) `{!StrictWeakOrder less}.
Implicit Types (h : heap) (l : clist) (xs ys zs A B pre post : list ptr) (a b x : ptr).

Abbreviation le := (le less).
Abbreviation sortedb := (sortedb less).
Abbreviation nruns := (nruns less).

(** A pass halves the number of runs, rounding up, and reports it. *)
Definition halved (n : nat) : nat := (n + 1) / 2.

Lemma halved_SS n : halved (S (S n)) = S (halved n).
Proof.
  unfold halved. replace (S (S n) + 1) with (n + 1 + 1 * 2) by lia.
  rewrite Nat.div_add by lia. lia.
Qed.

Lemma halved_lt n : 1 < halved n → halved n < n.
Proof. unfold halved. intros. pose proof (Nat.div_mod_eq (n + 1) 2). pose proof (Nat.mod_upper_bound (n + 1) 2). lia. Qed.

Lemma list_sort_pass_ok fuel h l pre xs cnt :
  pre ≠ [] → dll h (pre ++ xs ++ [ltail l]) → length xs < fuel →
  ∃ h' ys, list_sort_pass less fuel l (first_or (ltail l) xs) cnt h
           = Ok (cnt + halved (nruns xs), h') ∧
           dll h' (pre ++ ys ++ [ltail l]) ∧ ys ≡ₚ xs ∧ same_ties less ys xs ∧
           nruns ys ≤ halved (nruns xs) ∧
           frame (pre ++ xs ++ [ltail l]) h h'.
Proof.
  revert h pre xs cnt. induction fuel as [|fuel IH]; intros h pre xs cnt Hp Hd Hf; [lia|].
  cbn [list_sort_pass]. unfold list_end. rewrite (seg_first_ne _ _ _ _ _ Hd).
  destruct xs as [|x xs].
  { exists h, []. change (halved (nruns [])) with 0. rewrite Nat.add_0_r. done. }
  rewrite bool_decide_false by done. change (first_or (ltail l) (x :: xs)) with x.
  run_with (find_end_of_run_ok less h pre x xs (ltail l) [] Hd).
  pose proof (take_run_app less x xs) as Happ. pose proof (take_run_sorted less x xs) as Hs1.
  pose proof (take_run_nruns less x xs) as Hn1.
  destruct (take_run less x xs) as [r1 s1]. simpl in Happ, Hs1, Hn1. subst xs. cbn [snd].
  assert (Hd1 : dll h ((pre ++ x :: r1) ++ s1 ++ [ltail l])).
  { rewrite <- (assoc_L (++)). simpl in *. by rewrite <- (assoc_L (++)) in Hd. }
  rewrite (seg_first_ne _ _ _ _ _ Hd1). destruct s1 as [|b s1].
  { exists h, (x :: r1 ++ []). assert (Hn : nruns (x :: r1 ++ []) = 1) by done.
    rewrite Hn. change (halved 1) with 1. rewrite Nat.add_1_r.
    split; [done|]. split; [done|]. split; [done|]. split; [done|]. split; [lia|]. apply frame_refl. }
  rewrite bool_decide_false by done. change (first_or (ltail l) (b :: s1)) with b.
  run_with (find_end_of_run_ok less h (pre ++ x :: r1) b s1 (ltail l) [] Hd1).
  pose proof (take_run_app less b s1) as Happ. pose proof (take_run_sorted less b s1) as Hs2.
  pose proof (take_run_nruns less b s1) as Hn2.
  destruct (take_run less b s1) as [r2 s2]. simpl in Happ, Hs2, Hn2. subst s1. cbn [snd].
  assert (Hsp : ∃ R, s2 ++ [ltail l] = first_or (ltail l) s2 :: R) by (destruct s2; simpl; eauto).
  destruct Hsp as [R HR].
  assert (Hd2 : dll h (pre ++ (x :: r1) ++ (b :: r2) ++ first_or (ltail l) s2 :: R)).
  { rewrite <- HR. simpl in *. by rewrite <- !(assoc_L (++)) in Hd; simpl in Hd; rewrite <- (assoc_L (++)) in Hd. }
  destruct (inplace_merge_ok less h pre (x :: r1) (b :: r2) (first_or (ltail l) s2) R)
    as (h1 & Hrun1 & Hdm & Hfm); [done..|]. simpl first_or in Hrun1. run_with Hrun1.
  rewrite <- HR in Hdm, Hfm.
  set (m := merge less (x :: r1) (b :: r2)) in *.
  assert (Hms : sortedb m = true) by (by apply merge_sorted).
  assert (Hmp : m ≡ₚ (x :: r1) ++ b :: r2) by apply merge_perm.
  assert (Hmt : same_ties less m ((x :: r1) ++ b :: r2)) by (by apply merge_ties).
  destruct (IH h1 (pre ++ m) s2 (S cnt)) as (h2 & ys & Hrun2 & Hd2' & Hperm & Htie & Hnr & Hf2).
  - by destruct pre.
  - by rewrite <- (assoc_L (++)).
  - simpl in Hf. rewrite !length_app in Hf. simpl in Hf. rewrite length_app in Hf. lia.
  - assert (Hruns : nruns (x :: r1 ++ b :: r2 ++ s2) = S (S (nruns s2))).
    { etrans; [exact Hn1|]. f_equal. exact Hn2. }
    exists h2, (m ++ ys). rewrite Hrun2, Hruns, halved_SS. split; [do 2 f_equal; lia|].
    split; [by rewrite <- !(assoc_L (++)) in *|]. split; [|split; [|split]].
    + rewrite Hperm, Hmp. simpl. by rewrite <- (assoc_L (++)).
    + intros a. change (x :: r1 ++ b :: r2 ++ s2) with ((x :: r1) ++ (b :: r2) ++ s2).
      rewrite List.filter_app, Hmt, Htie, <- List.filter_app. by rewrite <- (assoc_L (++)).
    + pose proof (nruns_app less m ys). apply nruns_sorted in Hms. lia.
    + assert (Hsub : ∀ z, z ∈ pre ++ m ++ s2 ++ [ltail l] → z ∈ pre ++ (x :: r1 ++ b :: r2 ++ s2) ++ [ltail l]).
      { intros z. rewrite Hmp. clear. set_solver. }
      eapply frame_trans; (eapply frame_mono; [|done]); intros z Hz; apply Hsub;
        [rewrite Hmp; revert Hz; clear; set_solver | by rewrite <- (assoc_L (++)) in Hz].
Qed.

Lemma list_sort_loop_ok fuel h l xs :
  is_list h l xs → nruns xs < fuel →
  ∃ h' ys, list_sort_loop less fuel l h = Ok (tt, h') ∧ is_list h' l ys ∧ ys ≡ₚ xs ∧
           same_ties less ys xs ∧ sortedb ys = true ∧ frame (nodes l xs) h h'.
Proof.
  revert h xs. induction fuel as [|fuel IH]; intros h xs Hd Hf; [lia|]. cbn [list_sort_loop].
  pose proof (is_list_length _ _ _ Hd). run_with (loop_fuel_run h).
  run_with (list_begin_ok _ _ _ Hd).
  destruct (list_sort_pass_ok (S (size h)) h l [lhead l] xs 0)
    as (h1 & ys & Hrun & Hd1 & Hperm & Htie & Hnr & Hf1); [done|done|lia|].
  run_with Hrun. simpl (0 + _). destruct (Nat.ltb_spec 1 (halved (nruns xs))).
  - pose proof (halved_lt (nruns xs)).
    destruct (IH h1 ys) as (h2 & zs & Hrun2 & Hd2 & Hperm2 & Htie2 & Hs & Hf2); [done|lia|].
    exists h2, zs. split; [done|]. split; [done|]. split; [by etrans|].
    split; [by intros a; rewrite Htie2|]. split; [done|].
    eapply frame_trans; [done|]. eapply frame_mono; [|done].
    intros z. by rewrite (nodes_perm l _ _ Hperm).
  - exists h1, ys. split; [done|]. split; [done|]. split; [done|]. split; [done|]. split; [|done].
    apply nruns_sorted. lia.
Qed.

(** C8: [list_sort], a natural merge sort on the links themselves, always
    terminates without tripping one of its assertions, and leaves the same
    elements in nondecreasing order, elements that compare equal in the order
    they had; no other cell of the heap changes. *)
Theorem list_sort_correct h l xs :
  is_list h l xs →
  ∃ h' ys, list_sort less l h = Ok (tt, h') ∧ is_list h' l ys ∧ ys ≡ₚ xs ∧
           StronglySorted le ys ∧ same_ties less ys xs ∧ frame (nodes l xs) h h'.
Proof.
  intros Hd. pose proof (is_list_length _ _ _ Hd). pose proof (nruns_length less xs).
  unfold list_sort. run_with (loop_fuel_run h).
  destruct (list_sort_loop_ok (S (size h)) h l xs Hd) as (h' & ys & Hrun & Hd' & Hp & Ht & Hs & Hf);
    [lia|].
  run_with Hrun. run_with (list_begin_ok _ _ _ Hd').
  run_with (is_sorted_ok less h' [lhead l] ys (ltail l) [] Hd').
  rewrite (run_assert _ _ Hs). exists h', ys.
  split_and!; try done. by apply sortedb_StronglySorted.
Qed.
End sorting.

(** Elements compare by address, so that an unsorted list is 5, 3, 4. *)
#[export] Instance ltb_swo : StrictWeakOrder N.ltb.
Proof. split; intros *; rewrite ?N.ltb_lt, ?N.ltb_ge; lia. Qed.

Lemma list_sort_correct_witness :
  ∃ h l h' ys, is_list h l [5; 3; 4]%N ∧ list_sort N.ltb l h = Ok (tt, h') ∧
    is_list h' l ys ∧ ys ≡ₚ [5; 3; 4]%N ∧ StronglySorted (le N.ltb) ys.
Proof.
  destruct (list_push_back_ok demo_heap demo_list [] 5%N) as (h1 & _ & H1 & F1);
    [exact demo_is_list | by apply elem_of_dom; vm_compute; eauto | done
    | by refine (bool_decide_unpack _ _); vm_compute |].
  destruct (list_push_back_ok h1 demo_list [5%N] 3%N) as (h2 & _ & H2 & F2);
    [exact H1 | rewrite (proj2 F1); by apply elem_of_dom; vm_compute; eauto | done
    | by refine (bool_decide_unpack _ _); vm_compute |].
  destruct (list_push_back_ok h2 demo_list [5; 3]%N 4%N) as (h3 & _ & H3 & F3);
    [exact H2 | rewrite (proj2 F2), (proj2 F1); by apply elem_of_dom; vm_compute; eauto | done
    | by refine (bool_decide_unpack _ _); vm_compute |].
  destruct (list_sort_correct N.ltb h3 demo_list [5; 3; 4]%N H3) as (h' & ys & A & B & C & D & _).
  exists h3, demo_list, h', ys. eauto 10.
Defined.

(** ** Ordered insertion, extrema and duplicates *)
Section single_pass.
Context (less : ptr → ptr → bool).
Implicit Types (h : heap) (l d : clist) (xs ys zs A B : list ptr) (e x : ptr).

Abbreviation le := (le less).

(** Elements before the insertion point: those not greater than [e]. *)
Fixpoint before_greater e xs : list ptr * list ptr :=
  match xs with
  | [] => ([], [])
  | x :: xs' => if less e x then ([], xs) else let '(A, B) := before_greater e xs' in (x :: A, B)
  end.

Lemma before_greater_app e xs : let '(A, B) := before_greater e xs in
  xs = A ++ B ∧ Forall (λ x, le x e) A ∧ (∀ b B', B = b :: B' → less e b = true).
Proof.
  induction xs as [|x xs IH]; simpl; [done|]. destruct (less e x) eqn:E.
  - split; [done|]. split; [done|]. by intros b B' [= <- <-].
  - destruct (before_greater e xs) as [A B]. destruct IH as (-> & HA & HB).
    split; [done|]. split; [|done]. by constructor.
Qed.

Lemma insert_ordered_loop_ok fuel h l ys zs e :
  is_list h l (ys ++ zs) → length zs < fuel →
  insert_ordered_loop less fuel l e (first_or (ltail l) zs) h
  = Ok (first_or (ltail l) (before_greater e zs).2, h).
Proof.
  revert ys zs. induction fuel as [|fuel IH]; intros ys zs Hd Hf; [lia|].
  destruct zs as [|z zs]; simpl; [unfold list_end; by rewrite ptr_eqb_refl|].
  rewrite (is_list_tail_ne h l ys z zs) by done. destruct (less e z) eqn:E; [done|].
  run_with (is_list_next _ _ _ _ _ Hd).
  rewrite (IH (ys ++ [z]) zs) by (simpl in *; first [lia | by rewrite <- (assoc_L (++))]).
  by destruct (before_greater e zs).
Qed.

(** Inserting into a sorted list keeps it sorted: the new element goes
    after every element that is not greater than it and before the rest. *)
Theorem list_insert_ordered_correct `{!StrictWeakOrder less} h l xs e :
  is_list h l xs → StronglySorted le xs → e ∈ dom h → e ≠ NULL → e ∉ nodes l xs →
  ∃ h' A B, list_insert_ordered less l e h = Ok (tt, h') ∧ xs = A ++ B ∧
    is_list h' l (A ++ e :: B) ∧ Forall (λ x, le x e) A ∧ Forall (λ x, less e x = true) B ∧
    StronglySorted le (A ++ e :: B) ∧ frame (e :: nodes l xs) h h'.
Proof.
  intros Hd Hs [e0 He]%elem_of_dom Hn Hnin. unfold list_insert_ordered.
  run_assert; [|by rewrite ptr_eqb_neq]. run_with (loop_fuel_run h).
  pose proof (is_list_length _ _ _ Hd). run_with (list_begin_ok _ _ _ Hd).
  run_with (insert_ordered_loop_ok (S (size h)) h l [] xs e Hd ltac:(lia)).
  pose proof (before_greater_app e xs) as Hbg.
  destruct (before_greater e xs) as [A B]. destruct Hbg as (-> & HA & HB). cbn [snd].
  destruct (list_insert_ok h l A B e e0 Hd He Hn Hnin) as (h' & Hrun & Hl & Hf).
  apply StronglySorted_app in Hs as (Hab & HsA & HsB).
  assert (HBg : Forall (λ x, less e x = true) B).
  { destruct B as [|b B]; [done|]. specialize (HB _ _ eq_refl).
    apply StronglySorted_inv in HsB as [_ HsB]. constructor; [done|].
    eapply Forall_impl; [done|]. intros x Hx. unfold CListOrder.le in Hx.
    destruct (less e x) eqn:E; [done|].
    pose proof (less_ge_trans _ _ _ Hx E) as Hc. congruence. }
  assert (HBl : Forall (le e) B).
  { eapply Forall_impl; [done|]. intros x Hx. by apply less_asym. }
  exists h', A, B. split_and!; try done. apply StronglySorted_app. split_and!; [|done|].
  - intros x y Hx [->|Hy]%elem_of_cons.
    + by apply (proj1 (Forall_forall _ _) HA).
    + by apply Hab.
  - by constructor.
Qed.

(** The earliest element that no later one beats. *)
Fixpoint best_of (better : ptr → ptr → bool) (m : ptr) xs : ptr :=
  match xs with
  | [] => m
  | x :: xs => best_of better (if better m x then x else m) xs
  end.

Lemma list_extremum_loop_ok better fuel h l ys zs m :
  is_list h l (ys ++ zs) → length zs < fuel →
  list_extremum_loop better fuel l m (first_or (ltail l) zs) h = Ok (best_of better m zs, h).
Proof.
  revert ys zs m. induction fuel as [|fuel IH]; intros ys zs m Hd Hf; [lia|].
  destruct zs as [|z zs]; simpl; [unfold list_end; by rewrite ptr_eqb_refl|].
  rewrite (is_list_tail_ne h l ys z zs) by done. run_with (is_list_next _ _ _ _ _ Hd).
  apply (IH (ys ++ [z]) zs); [|simpl in *; lia]. by rewrite <- (assoc_L (++)).
Qed.

(** A strict weak order [better], read as: [better m x] when [x] beats [m]. *)
Lemma best_of_split better m xs :
  (∀ a b, better a b = true → better b a = false) →
  (∀ a b c, better b a = false → better c b = false → better c a = false) →
  ∃ A B, m :: xs = A ++ best_of better m xs :: B ∧
    Forall (λ x, better x (best_of better m xs) = true) A ∧
    Forall (λ x, better (best_of better m xs) x = false) B.
Proof.
  intros Hasym Htr. revert m. induction xs as [|x xs IH]; intros m; simpl.
  { by exists [], []. }
  destruct (better m x) eqn:E.
  - destruct (IH x) as (A & B & Heq & HA & HB). exists (m :: A), B. simpl. rewrite <- Heq.
    split; [done|]. split; [|done]. constructor; [|done].
    set (r := best_of better x xs) in *.
    destruct (better m r) eqn:Er; [done|]. destruct A as [|a A]; simplify_eq/=.
    + congruence.
    + apply Forall_cons in HA as [HA _].
      pose proof (Htr _ _ _ (Hasym _ _ HA) Er). congruence.
  - destruct (IH m) as (A & B & Heq & HA & HB). set (r := best_of better m xs) in *.
    clearbody r. destruct A as [|a A]; injection Heq as Hm Hxs.
    + exists [], (x :: B). subst. split; [done|]. split; [done|]. by constructor.
    + apply Forall_cons in HA as [Hmr HA]. subst a.
      exists (m :: x :: A), B. simpl. split; [congruence|]. split; [|done].
      constructor; [done|]. constructor; [|done].
      destruct (better x r) eqn:Exr; [done|].
      pose proof (Htr _ _ _ Exr E) as Hc. congruence.
Qed.

(** [list_max] returns an element that no other exceeds and that
    exceeds every earlier one, so the first of several maxima; [list_min]
    likewise; on an empty list both return the tail. *)
Theorem list_max_min_first `{!StrictWeakOrder less} h l xs :
  is_list h l xs →
  match xs with
  | [] => list_max less l h = Ok (list_end l, h) ∧ list_min less l h = Ok (list_end l, h)
  | _ =>
    (∃ A m B, xs = A ++ m :: B ∧ list_max less l h = Ok (m, h) ∧
       Forall (λ x, less x m = true) A ∧ Forall (λ x, less m x = false) B) ∧
    (∃ A m B, xs = A ++ m :: B ∧ list_min less l h = Ok (m, h) ∧
       Forall (λ x, less m x = true) A ∧ Forall (λ x, less x m = false) B)
  end.
Proof.
  intros Hd. pose proof (is_list_length _ _ _ Hd) as Hlen.
  assert (Hb := list_begin_ok _ _ _ Hd). unfold list_max, list_min.
  destruct xs as [|x xs].
  { split; run_with Hb; unfold list_end; simpl; by rewrite ptr_eqb_refl. }
  simpl first_or in Hb. assert (Hne := is_list_tail_ne h l [] x xs Hd).
  assert (Hnx := is_list_next h l [] x xs Hd). simpl in Hlen.
  assert (Hloop : ∀ better, list_extremum_loop better (S (size h)) l x (first_or (ltail l) xs) h
                            = Ok (best_of better x xs, h)).
  { intros better. apply (list_extremum_loop_ok better _ h l [x] xs); [done|lia]. }
  split.
  - destruct (best_of_split (λ m e, less m e) x xs) as (A & B & Heq & HA & HB);
      [intros; by apply less_asym | intros; by eapply less_ge_trans |].
    exists A, (best_of (λ m e, less m e) x xs), B. split; [done|]. split; [|done].
    run_with Hb. rewrite Hne. run_with (loop_fuel_run h). run_with Hnx. apply Hloop.
  - destruct (best_of_split (λ m e, less e m) x xs) as (A & B & Heq & HA & HB);
      [intros; by apply less_asym | intros; by eapply less_ge_trans |].
    exists A, (best_of (λ m e, less e m) x xs), B. split; [done|]. split; [|done].
    run_with Hb. rewrite Hne. run_with (loop_fuel_run h). run_with Hnx. apply Hloop.
Qed.

(** What [list_unique] keeps and drops: an element is dropped when it is
    equivalent to the last one kept. *)
Definition same e x : bool := negb (less e x) && negb (less x e).

Fixpoint uniq_from e xs : list ptr * list ptr :=
  match xs with
  | [] => ([], [])
  | x :: xs =>
    if same e x then let '(k, d) := uniq_from e xs in (k, x :: d)
    else let '(k, d) := uniq_from x xs in (x :: k, d)
  end.

Definition uniq xs : list ptr * list ptr :=
  match xs with [] => ([], []) | x :: xs => let '(k, d) := uniq_from x xs in (x :: k, d) end.

Lemma frame_is_list ns h h' l xs :
  frame ns h h' → (∀ n, n ∈ nodes l xs → n ∉ ns) → is_list h l xs → is_list h' l xs.
Proof.
  intros Hf Hd (Hl & Hnd & Hnn). split; [|done]. by eapply frame_linked.
Qed.

Lemma list_unique_loop_none fuel h l ys e zs :
  is_list h l (ys ++ e :: zs) → length zs < fuel →
  ∃ h', list_unique_loop less fuel l None e h = Ok (tt, h') ∧
        is_list h' l (ys ++ e :: (uniq_from e zs).1) ∧ frame (nodes l (ys ++ e :: zs)) h h'.
Proof.
  revert h ys e zs. induction fuel as [|fuel IH]; intros h ys e zs Hd Hf; [lia|].
  cbn [list_unique_loop]. run_with (is_list_next _ _ _ _ _ Hd).
  destruct zs as [|z zs]; simpl.
  { unfold list_end. rewrite ptr_eqb_refl. exists h. split; [done|]. split; [done|]. apply frame_refl. }
  assert (Hd' : is_list h l ((ys ++ [e]) ++ z :: zs)) by (by rewrite <- (assoc_L (++))).
  rewrite (is_list_tail_ne h l _ z zs Hd'). fold (same e z). simpl in Hf.
  destruct (same e z).
  - destruct (list_remove_ok h l _ z zs Hd') as (h1 & Hrun & Hl1 & Hf1).
    run_with Hrun. rewrite <- (assoc_L (++)) in Hl1, Hf1. simpl in Hl1, Hf1.
    erewrite run_bind_ok; [|reflexivity].
    destruct (IH h1 ys e zs Hl1) as (h2 & Hrun2 & Hl2 & Hf2); [lia|]. exists h2.
    destruct (uniq_from e zs) as [k dd]. split; [done|]. split; [done|].
    eapply frame_trans; (eapply frame_mono; [|done]); apply nodes_subset; set_solver.
  - destruct (IH h (ys ++ [e]) z zs Hd') as (h2 & Hrun2 & Hl2 & Hf2); [lia|]. exists h2.
    destruct (uniq_from z zs) as [k dd]. rewrite <- (assoc_L (++)) in Hl2, Hf2. done.
Qed.

Lemma list_unique_loop_some fuel h l d ys e zs ds :
  is_list h l (ys ++ e :: zs) → is_list h d ds →
  (∀ n, n ∈ nodes d ds → n ∉ nodes l (ys ++ e :: zs)) → length zs < fuel →
  ∃ h', list_unique_loop less fuel l (Some d) e h = Ok (tt, h') ∧
        is_list h' l (ys ++ e :: (uniq_from e zs).1) ∧ is_list h' d (ds ++ (uniq_from e zs).2) ∧
        frame (nodes l (ys ++ e :: zs) ++ nodes d ds) h h'.
Proof.
  revert h ys e zs ds. induction fuel as [|fuel IH]; intros h ys e zs ds Hd Hds Hdj Hf; [lia|].
  cbn [list_unique_loop]. run_with (is_list_next _ _ _ _ _ Hd).
  destruct zs as [|z zs]; simpl.
  { unfold list_end. rewrite ptr_eqb_refl. exists h. rewrite app_nil_r.
    split; [done|]. split; [done|]. split; [done|]. apply frame_refl. }
  assert (Hd' : is_list h l ((ys ++ [e]) ++ z :: zs)) by (by rewrite <- (assoc_L (++))).
  rewrite (is_list_tail_ne h l _ z zs Hd'). fold (same e z). simpl in Hf.
  destruct (same e z).
  - destruct (list_remove_ok h l _ z zs Hd') as (h1 & Hrun & Hl1 & Hf1).
    run_with Hrun. rewrite <- (assoc_L (++)) in Hl1, Hf1. simpl in Hl1, Hf1.
    assert (Hzl : z ∉ nodes l (ys ++ e :: zs)).
    { destruct Hd as (_ & Hnd & _). unfold nodes in *. revert Hnd. clear.
      replace (lhead l :: (ys ++ e :: z :: zs) ++ [ltail l])
        with ((lhead l :: ys ++ [e]) ++ z :: zs ++ [ltail l])
        by (simpl; rewrite <- !(assoc_L (++)); done).
      rewrite <- Permutation_middle. intros [Hn _]%NoDup_cons. set_solver. }
    assert (Hz : z ∈ nodes l (ys ++ e :: z :: zs)) by (unfold nodes; set_solver).
    assert (Hsub : nodes l (ys ++ e :: zs) ⊆ nodes l (ys ++ e :: z :: zs))
      by (apply nodes_subset; set_solver).
    assert (Hds1 : is_list h1 d ds).
    { eapply frame_is_list; [exact Hf1| |done]. intros n Hn Hin. apply (Hdj n Hn), Hsub, Hin. }
    assert (Hzd : z ∉ nodes d ds) by (intros Hin; by apply (Hdj z Hin)).
    assert (Hzdom : z ∈ dom h1) by (rewrite (proj2 Hf1); exact (dll_dom _ _ _ Hd Hz)).
    assert (Hzn : z ≠ NULL) by (eapply dll_not_null; [exact Hd|done]).
    destruct (list_push_back_ok h1 d ds z Hds1 Hzdom Hzn Hzd) as (h2 & Hrun2 & Hd2 & Hf2).
    run_with Hrun2.
    assert (Hl2 : is_list h2 l (ys ++ e :: zs)).
    { eapply frame_is_list; [exact Hf2| |done]. intros n Hn [->|Hin]%elem_of_cons; [done|].
      by apply (Hdj n Hin), Hsub. }
    destruct (IH h2 ys e zs (ds ++ [z]) Hl2 Hd2) as (h3 & Hrun3 & Hl3 & Hd3 & Hf3); [|lia|].
    { intros n Hn Hin. assert (Hn' : n = z ∨ n ∈ nodes d ds) by (unfold nodes in *; set_solver).
      destruct Hn' as [->|Hn']; [done|]. by apply (Hdj n Hn'), Hsub. }
    exists h3. destruct (uniq_from e zs) as [k dd]. rewrite <- (assoc_L (++)) in Hd3.
    split; [done|]. split; [done|]. split; [done|].
    eapply frame_trans; [eapply frame_mono; [|exact Hf1]; set_solver|].
    eapply frame_trans; [eapply frame_mono; [|exact Hf2]; set_solver|].
    eapply frame_mono; [|exact Hf3]. revert Hsub Hz. unfold nodes. clear. set_solver.
  - destruct (IH h (ys ++ [e]) z zs ds Hd' Hds) as (h2 & Hrun2 & Hl2 & Hd2 & Hf2);
      [by rewrite <- (assoc_L (++))|lia|]. exists h2.
    destruct (uniq_from z zs) as [k dd]. rewrite <- (assoc_L (++)) in Hl2, Hf2. done.
Qed.

Lemma list_unique_start h l xs dup :
  is_list h l xs → xs ≠ [] →
  list_unique less l dup h = list_unique_loop less (S (size h)) l dup (first_or (ltail l) xs) h.
Proof.
  intros Hd Hx. unfold list_unique. run_with (list_empty_ok _ _ _ Hd).
  rewrite bool_decide_false by done. run_with (loop_fuel_run h). by run_with (list_begin_ok _ _ _ Hd).
Qed.

(** [list_unique] keeps exactly the first element of each group of
    adjacent equivalent elements and, when a second list is given, moves the
    others to its end in order; both lists stay well formed. *)
Theorem list_unique_correct h l d xs ds :
  is_list h l xs → is_list h d ds → (∀ n, n ∈ nodes d ds → n ∉ nodes l xs) →
  (∃ h', list_unique less l None h = Ok (tt, h') ∧ is_list h' l (uniq xs).1) ∧
  (∃ h', list_unique less l (Some d) h = Ok (tt, h') ∧ is_list h' l (uniq xs).1 ∧
         is_list h' d (ds ++ (uniq xs).2)).
Proof.
  intros Hd Hds Hdj. pose proof (is_list_length _ _ _ Hd) as Hlen.
  destruct xs as [|x xs]; simpl in *.
  - split; exists h; rewrite ?app_nil_r; unfold list_unique;
      (run_with (list_empty_ok _ _ _ Hd)); done.
  - split; rewrite (list_unique_start h l (x :: xs) _ Hd ltac:(done)); cbn [first_or].
    + destruct (list_unique_loop_none (S (size h)) h l [] x xs Hd) as (h' & Hrun & Hl & _);
        [lia|]. exists h'. by destruct (uniq_from x xs).
    + destruct (list_unique_loop_some (S (size h)) h l d [] x xs ds Hd Hds Hdj)
        as (h' & Hrun & Hl & Hl' & _); [lia|]. exists h'. by destruct (uniq_from x xs).
Qed.
End single_pass.

(** A heap with the list 3, 5 under headers 1 and 2, a loose element 4 and an
    empty list under headers 6 and 7. *)
Definition demo2_heap : heap :=
  list_to_map [(1, ListElem 0 3); (3, ListElem 1 5); (5, ListElem 3 2); (2, ListElem 5 0);
               (4, ListElem 0 0); (6, ListElem 0 7); (7, ListElem 6 0)]%N.
Definition demo2_dups : clist := CListAt 6 7.

Lemma demo2_is_list : is_list demo2_heap demo_list [3; 5]%N.
Proof.
  split; [vm_compute; auto|].
  split; by refine (bool_decide_unpack _ _); vm_compute.
Qed.

Lemma demo2_dups_is_list : is_list demo2_heap demo2_dups [].
Proof.
  split; [vm_compute; auto|].
  split; by refine (bool_decide_unpack _ _); vm_compute.
Qed.

Lemma list_insert_ordered_correct_witness :
  ∃ h' A B, list_insert_ordered N.ltb demo_list 4%N demo2_heap = Ok (tt, h') ∧
    [3; 5]%N = A ++ B ∧ is_list h' demo_list (A ++ 4%N :: B) ∧
    StronglySorted (le N.ltb) (A ++ 4%N :: B).
Proof.
  destruct (list_insert_ordered_correct N.ltb demo2_heap demo_list [3; 5]%N 4%N)
    as (h' & A & B & H1 & H2 & H3 & _ & _ & H4 & _).
  - exact demo2_is_list.
  - repeat constructor.
  - apply elem_of_dom. vm_compute. eauto.
  - done.
  - by refine (bool_decide_unpack _ _); vm_compute.
  - exists h', A, B. auto.
Defined.

Lemma list_max_min_first_witness :
  ∃ A m B, [3; 5]%N = A ++ m :: B ∧ list_max N.ltb demo_list demo2_heap = Ok (m, demo2_heap) ∧
    Forall (λ x, N.ltb x m = true) A.
Proof.
  destruct (list_max_min_first N.ltb demo2_heap demo_list [3; 5]%N demo2_is_list)
    as [(A & m & B & H1 & H2 & H3 & _) _].
  exists A, m, B. auto.
Defined.

Lemma list_unique_correct_witness :
  ∃ h', list_unique (λ _ _, false) demo_list (Some demo2_dups) demo2_heap = Ok (tt, h') ∧
    is_list h' demo_list [3%N] ∧ is_list h' demo2_dups [5%N].
Proof.
  destruct (list_unique_correct (λ _ _, false) demo2_heap demo_list demo2_dups [3; 5]%N [])
    as [_ (h' & H1 & H2 & H3)].
  - exact demo2_is_list.
  - exact demo2_dups_is_list.
  - apply Forall_forall. by refine (bool_decide_unpack _ _); vm_compute.
  - exists h'. auto.
Defined.
