(* ===== verification/CStdlib.v ===== *)
(** * Conversion, sorting and searching

    [src/pintos/lib/stdlib.c].  An array is the list of its elements; the
    elements' bytes are moved together.  Indexes are [size_t], 1-based in the
    heap as in the code. *)
From S2P Require Import Prelude CInt.

Open Scope Z_scope.

Module CStdlib.

(** ** atoi *)

(** [isspace] and [isdigit] of [ctype.h]. *)
Definition isspace (c : Z) : bool :=
  (c =? 32) || (c =? 12) || (c =? 10) || (c =? 13) || (c =? 9) || (c =? 11).
Definition isdigit (c : Z) : bool := (48 <=? c) && (c <=? 57).

Fixpoint skip_space (s : list Z) : list Z :=
  match s with
  | c :: s' => if isspace c then skip_space s' else s
  | [] => []
  end.
(** The loop over the digits, on the negated value. *)
Fixpoint parse_digits (s : list Z) (value : Z) : Z :=
  match s with
  | c :: s => if isdigit c then parse_digits s (s32 (s32 (value * 10) - (c - 48))) else value
  | [] => value
  end.
(** [s] is the string up to its null character. *)
Definition atoi (s : list Z) : Z :=
  let s := skip_space s in
  let '(negative, s) :=
    match s with
    | c :: s' => if c =? 43 then (false, s') else if c =? 45 then (true, s') else (false, s)
    | [] => (false, s)
    end in
  let value := parse_digits s 0 in
  if negative : bool then value else s32 (- value).

(** ** Heap sort and binary search *)
Section array.
Context {A : Type} (compare : A → A → Z).
Abbreviation M := (ST (list A)).

(** The element with 1-based index [i]. *)
Definition elem_at (i : Z) : M A := l ← get; if i <? 1 then fail Fault else deref (l !! Z.to_nat (i - 1)).

Definition do_swap (a_idx b_idx : Z) : M unit :=
  a ← elem_at a_idx; b ← elem_at b_idx;
  modify (λ l, <[Z.to_nat (b_idx - 1) := a]> (<[Z.to_nat (a_idx - 1) := b]> l)).

Definition do_compare (a_idx b_idx : Z) : M Z := a ← elem_at a_idx; b ← elem_at b_idx; mret (compare a b).

(** [if (child <= cnt && do_compare (child, max) > 0) max = child]. *)
Definition larger (child max cnt : Z) : M Z :=
  if child <=? cnt then c ← do_compare child max; mret (if 0 <? c then child else max) else mret max.

Fixpoint heapify (fuel : nat) (i cnt : Z) : M unit :=
  let left := u32 (2 * i) in
  let right := u32 (2 * i + 1) in
  max ← larger left i cnt;
  max ← larger right max cnt;
  if max =? i then mret tt
  else match fuel with O => fail Timeout | S fuel => do_swap i max ;; heapify fuel max cnt end.

(** [for (i = n; i > 0; i--) heapify (array, i, cnt)]. *)
Fixpoint build_loop (n : nat) (cnt : Z) : M unit :=
  match n with
  | O => mret tt
  | S n' => heapify (Z.to_nat cnt) (Z.of_nat n) cnt ;; build_loop n' cnt
  end.
(** [for (i = n; i > 1; i--)]. *)
Fixpoint extract_loop (n : nat) : M unit :=
  match n with
  | S (S _ as n') =>
    do_swap 1 (Z.of_nat n) ;; heapify n' 1 (Z.of_nat n - 1) ;; extract_loop n'
  | _ => mret tt
  end.
(** [sort]; [qsort] calls it with its own [compare]. *)
Definition sort : M unit :=
  l ← get;
  let cnt := Z.of_nat (length l) in
  build_loop (Z.to_nat (cnt / 2)) cnt ;;
  extract_loop (length l).
Definition qsort : M unit := sort.

(** [binary_search]: the index of a match among [first, ..., last - 1]. *)
Fixpoint binary_search_loop (fuel : nat) (key : A) (l : list A) (first last : Z) : res (option Z) :=
  if first <? last then
    let middle := first + (last - first) / 2 in
    match l !! Z.to_nat middle with
    | None => Err Fault
    | Some x =>
      let cmp := compare key x in
      if cmp =? 0 then Ok (Some middle)
      else
        match fuel with
        | O => Err Timeout
        | S fuel =>
          if cmp <? 0 then binary_search_loop fuel key l first middle
          else binary_search_loop fuel key l (middle + 1) last
        end
    end
  else Ok None.
Definition binary_search (key : A) (l : list A) : res (option Z) :=
  binary_search_loop (length l) key l 0 (Z.of_nat (length l)).
Definition bsearch : A → list A → res (option Z) := binary_search.
End array.

End CStdlib.
