(* ===== verification/CStdlibSpec.v ===== *)
(** * Sorting and searching are correct

    [sort] is a heap sort in place: it ends, sorts, and permutes.
    [binary_search] finds an element of a sorted array if there is one. *)
From S2P Require Import Prelude CInt CStdlib.
Import CStdlib.

Open Scope Z_scope.

(** ** Exchanging two elements *)
Lemma swap_perm {A} (l : list A) i j a b :
  l !! i = Some a → l !! j = Some b → <[j := a]> (<[i := b]> l) ≡ₚ l.
Proof.
  assert (Hlt : ∀ i j a b, (i < j)%nat → l !! i = Some a → l !! j = Some b →
    <[j := a]> (<[i := b]> l) ≡ₚ l).
  { clear. intros i j a b Hij Hi Hj. apply list_elem_of_split_length in Hi as (l1 & l2 & -> & ->).
    rewrite lookup_app_r in Hj by lia. destruct (j - length l1)%nat as [|k] eqn:Ek; [lia|]. simpl in Hj.
    apply list_elem_of_split_length in Hj as (l3 & l4 & -> & ->).
    rewrite (insert_app_r_alt _ _ (length l1)) by lia. rewrite Nat.sub_diag. simpl.
    rewrite insert_app_r_alt by lia. rewrite Ek. simpl. rewrite insert_app_r_alt by lia. rewrite Nat.sub_diag. simpl.
    apply Permutation_app_head. rewrite <- !Permutation_middle. constructor. }
  intros Hi Hj. destruct (Nat.lt_total i j) as [H|[<-|H]].
  - by apply Hlt.
  - assert (a = b) as -> by congruence. rewrite list_insert_insert_eq. by rewrite list_insert_id.
  - rewrite list_insert_insert_ne by lia. by apply Hlt.
Qed.

Section order.
Context {A : Type} (compare : A → A → Z).
Implicit Types (l : list A) (i j k n : Z).

(** What [sort] asks of [compare]. *)
Definition le (a b : A) : Prop := compare a b ≤ 0.
Class Comparison : Prop := {
  cmp_total a b : 0 < compare a b → compare b a ≤ 0;
  cmp_trans a b c : compare a b ≤ 0 → compare b c ≤ 0 → compare a c ≤ 0;
}.
Context `{HC : !Comparison}.

(** The element at 1-based index [k]. *)
Definition at_ l k : option A := if k <? 1 then None else l !! Z.to_nat (k - 1).

Lemma at_some l k : 1 ≤ k ≤ Z.of_nat (length l) → ∃ x, at_ l k = Some x.
Proof.
  intros Hk. unfold at_. rewrite (proj2 (Z.ltb_ge k 1)) by lia. apply lookup_lt_is_Some. lia.
Qed.
Lemma elem_at_ok l k x : at_ l k = Some x → elem_at k l = Ok (x, l).
Proof.
  unfold at_, elem_at. intros H. erewrite run_bind_ok by reflexivity. destruct (k <? 1); [done|]. by rewrite H.
Qed.

(** [l] with the elements at [i] and [j] exchanged. *)
Definition swapped l i j (a b : A) : list A := <[Z.to_nat (j - 1) := a]> (<[Z.to_nat (i - 1) := b]> l).

Lemma do_swap_ok l i j a b :
  at_ l i = Some a → at_ l j = Some b → do_swap i j l = Ok (tt, swapped l i j a b).
Proof.
  intros Hi Hj. unfold do_swap. erewrite run_bind_ok by (by apply elem_at_ok).
  by erewrite run_bind_ok by (by apply elem_at_ok).
Qed.
Lemma at_range l k x : at_ l k = Some x → 1 ≤ k ≤ Z.of_nat (length l).
Proof.
  unfold at_. destruct (Z.ltb_spec k 1); [done|]. intros Hk%lookup_lt_Some. lia.
Qed.
Lemma at_swapped l i j a b k :
  at_ l i = Some a → at_ l j = Some b → i ≠ j →
  at_ (swapped l i j a b) k = if k =? j then Some a else if k =? i then Some b else at_ l k.
Proof.
  intros Hi Hj Hne. apply at_range in Hi as Ri. apply at_range in Hj as Rj. unfold at_, swapped.
  destruct (Z.ltb_spec k 1); [bcase; [lia|]; bcase; [lia|done]|].
  destruct (Z.eqb_spec k j) as [->|Hkj].
  - rewrite list_lookup_insert_eq; [done|]. rewrite length_insert. lia.
  - rewrite list_lookup_insert_ne by lia. destruct (Z.eqb_spec k i) as [->|Hki].
    + by rewrite list_lookup_insert_eq by lia.
    + by rewrite list_lookup_insert_ne by lia.
Qed.

(** Permutation of the first [n] elements; the others stay. *)
Definition permuted n l l' : Prop :=
  take (Z.to_nat n) l' ≡ₚ take (Z.to_nat n) l ∧ drop (Z.to_nat n) l' = drop (Z.to_nat n) l.

Lemma permuted_refl n l : permuted n l l.
Proof. by split. Qed.
Lemma permuted_trans n l1 l2 l3 : permuted n l1 l2 → permuted n l2 l3 → permuted n l1 l3.
Proof. intros [P1 D1] [P2 D2]. split; [by rewrite P2|congruence]. Qed.
Lemma permuted_all n l l' : permuted n l l' → l' ≡ₚ l.
Proof.
  intros [P D]. rewrite <- (take_drop (Z.to_nat n) l), <- (take_drop (Z.to_nat n) l'). by rewrite P, D.
Qed.
Lemma permuted_length n l l' : permuted n l l' → length l' = length l.
Proof. intros P. by apply Permutation_length, (permuted_all n). Qed.

Lemma permuted_swap n l i j a b :
  at_ l i = Some a → at_ l j = Some b → i ≤ n → j ≤ n → permuted n l (swapped l i j a b).
Proof.
  intros Hi Hj Hin Hjn. apply at_range in Hi as Ri. apply at_range in Hj as Rj. unfold swapped. split.
  - rewrite !take_insert_lt by lia. unfold at_ in Hi, Hj.
    rewrite (proj2 (Z.ltb_ge i 1)) in Hi by lia. rewrite (proj2 (Z.ltb_ge j 1)) in Hj by lia.
    apply swap_perm; rewrite lookup_take_lt by lia; done.
  - by rewrite !drop_insert_lt by lia.
Qed.

(** ** Heaps *)
Definition child (k c : Z) : Prop := c = 2 * k ∨ c = 2 * k + 1.
Definition ordered l k (c : Z) : Prop := ∀ x y, at_ l k = Some x → at_ l c = Some y → le y x.
(** Every node from [s] on is at least as large as its children among the
    first [n] elements. *)
Definition heap_from l (s n : Z) : Prop := ∀ k c, s ≤ k → child k c → c ≤ n → ordered l k c.
(** The same but for node [i], whose children are below its parent. *)
Definition heap_but l (s n i : Z) : Prop :=
  (∀ k c, s ≤ k → k ≠ i → child k c → c ≤ n → ordered l k c) ∧
  (∀ p c, s ≤ p → child p i → child i c → c ≤ n → ordered l p c).

Lemma le_refl (a : A) : le a a.
Proof. unfold le. destruct (Z_le_gt_dec (compare a a) 0); [done|]. apply cmp_total. lia. Qed.
Lemma le_trans (a b c : A) : le a b → le b c → le a c.
Proof. apply cmp_trans. Qed.

Lemma larger_ok l (c max n : Z) (x : A) :
  at_ l max = Some x → 1 ≤ c → n ≤ Z.of_nat (length l) →
  ∃ m y, larger compare c max n l = Ok (m, l) ∧ at_ l m = Some y ∧ le x y ∧
    (m = max ∨ m = c ∧ c ≤ n) ∧ (c ≤ n → ∀ z, at_ l c = Some z → le z y).
Proof.
  intros Hx Hc Hn. unfold larger. destruct (Z.leb_spec c n) as [Hcn|Hcn].
  - destruct (at_some l c) as [z Hz]; [lia|]. unfold do_compare.
    erewrite run_bind_ok; cycle 1.
    { erewrite run_bind_ok by (by apply elem_at_ok). erewrite run_bind_ok by (by apply elem_at_ok). reflexivity. }
    destruct (Z.ltb_spec 0 (compare z x)) as [Hgt|Hle].
    + exists c, z. split_and!; [done|done|by apply cmp_total|by right|]. intros _ z' Hz'.
      assert (z' = z) as -> by congruence. apply le_refl.
    + exists max, x. split_and!; [done|done|apply le_refl|by left|]. intros _ z' Hz'.
      assert (z' = z) as -> by congruence. done.
  - exists max, x. split_and!; [done|done|apply le_refl|by left|lia].
Qed.

(** The largest of a node and its children. *)
Lemma max_child_ok l i n (x : A) :
  at_ l i = Some x → 1 ≤ i ≤ n → n ≤ Z.of_nat (length l) → n < 2 ^ 30 →
  ∃ m y, (max ← larger compare (u32 (2 * i)) i n; larger compare (u32 (2 * i + 1)) max n) l = Ok (m, l) ∧
    at_ l m = Some y ∧ (m = i ∨ child i m ∧ m ≤ n) ∧ le x y ∧
    ∀ c z, child i c → c ≤ n → at_ l c = Some z → le z y.
Proof.
  intros Hx Hi Hn Hb. rewrite !u32_id by (unfold in_u32; lia).
  destruct (larger_ok l (2 * i) i n x Hx) as (m1 & y1 & Hrun1 & Hy1 & Hle1 & Hm1 & Hc1); [lia|lia|].
  destruct (larger_ok l (2 * i + 1) m1 n y1 Hy1) as (m & y & Hrun & Hy & Hle & Hm & Hc); [lia|lia|].
  exists m, y. run_with Hrun1. split_and!; [done|done| |by eapply le_trans|].
  - destruct Hm as [->|[-> ?]]; [destruct Hm1 as [->|[-> ?]]; [by left|]|]; right; (split; [|done]); [by left|by right].
  - intros c z [->| ->] Hcn Hz; [|by apply Hc]. eapply le_trans; [by apply (Hc1 Hcn z Hz)|done].
Qed.

Lemma heap_sift l (s n i m : Z) (x y : A) :
  heap_but l s n i → 1 ≤ s ≤ i → at_ l i = Some x → at_ l m = Some y → child i m → m ≤ n → le x y →
  (∀ c z, child i c → c ≤ n → at_ l c = Some z → le z y) →
  heap_but (swapped l i m x y) s n m.
Proof.
  intros [H1 H2] Hs Hx Hy Hch Hmn Hle Hmax. assert (Him : i ≠ m) by (unfold child in Hch; lia).
  assert (Hat : ∀ k, at_ (swapped l i m x y) k = if k =? m then Some x else if k =? i then Some y else at_ l k)
    by (intros k; by apply at_swapped).
  split.
  - intros k c Hk Hkm Hc Hcn u v. rewrite !Hat. rewrite (proj2 (Z.eqb_neq k m)) by done.
    destruct (Z.eqb_spec k i) as [->|Hki].
    + intros [= <-]. destruct (Z.eqb_spec c m) as [->|Hcm]; [by intros [= <-]|].
      rewrite (proj2 (Z.eqb_neq c i)) by (unfold child in Hc; lia). intros Hv. by eapply Hmax.
    + intros Hu. destruct (Z.eqb_spec c m) as [->|Hcm]; [unfold child in *; lia|].
      destruct (Z.eqb_spec c i) as [->|Hci].
      * intros [= <-]. by apply (H2 k m Hk Hc Hch Hmn u y).
      * intros Hv. by apply (H1 k c Hk Hki Hc Hcn u v).
  - intros p c Hp Hpm Hmc Hcn u v. rewrite !Hat. assert (p = i) as -> by (unfold child in *; lia).
    rewrite (proj2 (Z.eqb_neq i m)), Z.eqb_refl by done. intros [= <-].
    rewrite (proj2 (Z.eqb_neq c m)), (proj2 (Z.eqb_neq c i)) by (unfold child in *; lia). intros Hv.
    by apply (H1 m c) with (x := y); [unfold child in *; lia|done|done|done|done|].
Qed.

Lemma heap_done l (s n i : Z) (x : A) :
  heap_but l s n i → at_ l i = Some x → (∀ c z, child i c → c ≤ n → at_ l c = Some z → le z x) → heap_from l s n.
Proof.
  intros [H1 _] Hx Hmax k c Hk Hc Hcn u v Hu Hv. destruct (Z.eq_dec k i) as [->|Hki].
  - assert (u = x) as -> by congruence. by eapply Hmax.
  - by eapply (H1 k c).
Qed.

Lemma heapify_ok (s n : Z) fuel : ∀ l i,
  heap_but l s n i → 1 ≤ s ≤ i → i ≤ n ≤ Z.of_nat (length l) → n < 2 ^ 30 → n - i ≤ Z.of_nat fuel →
  ∃ l', heapify compare fuel i n l = Ok (tt, l') ∧ heap_from l' s n ∧ permuted n l l'.
Proof.
  induction fuel as [|fuel IH]; intros l i Hh Hs Hi Hn Hf;
    destruct (at_some l i ltac:(lia)) as [x Hx];
    destruct (max_child_ok l i n x Hx ltac:(lia) ltac:(lia) Hn) as (m & y & Hrun & Hy & Hm & Hle & Hmax);
    apply run_bind_inv in Hrun as (m1 & l1 & E1 & E2); cbn [heapify]; run_with E1; run_with E2.
  - assert (m = i) as -> by (unfold child in Hm; lia). assert (y = x) as -> by congruence.
    rewrite Z.eqb_refl. exists l. split_and!; [done|by eapply heap_done|apply permuted_refl].
  - destruct (Z.eqb_spec m i) as [->|Hmi].
    { assert (y = x) as -> by congruence. exists l. split_and!; [done|by eapply heap_done|apply permuted_refl]. }
    destruct Hm as [?|[Hch Hmn]]; [done|]. erewrite run_bind_ok by (by apply do_swap_ok).
    assert (Hp := permuted_swap n l i m x y Hx Hy ltac:(lia) Hmn). assert (Hl := permuted_length _ _ _ Hp).
    destruct (IH (swapped l i m x y) m) as (l' & Hrun' & Hheap & Hp').
    + by apply heap_sift.
    + unfold child in Hch. lia.
    + rewrite Hl. lia.
    + done.
    + unfold child in Hch. lia.
    + exists l'. split_and!; [done|done|]. by eapply permuted_trans.
Qed.

Lemma permuted_high n l l' k : permuted n l l' → 0 ≤ n < k → at_ l' k = at_ l k.
Proof.
  intros [_ D] Hk. unfold at_. destruct (k <? 1); [done|].
  replace (Z.to_nat (k - 1)) with (Z.to_nat n + Z.to_nat (k - 1 - n))%nat by lia. by rewrite <- !lookup_drop, D.
Qed.
Lemma permuted_low n l l' k (x : A) :
  permuted n l l' → k ≤ n → at_ l' k = Some x → ∃ k', 1 ≤ k' ≤ n ∧ at_ l k' = Some x.
Proof.
  intros [P _] Hk Hx. apply at_range in Hx as Hr. unfold at_ in Hx. rewrite (proj2 (Z.ltb_ge k 1)) in Hx by lia.
  assert (Hin : x ∈ take (Z.to_nat n) l').
  { apply list_elem_of_lookup. exists (Z.to_nat (k - 1)). by rewrite lookup_take_lt by lia. }
  rewrite P in Hin. apply list_elem_of_lookup in Hin as [i Hi]. apply lookup_take_Some in Hi as [Hi Hin].
  exists (Z.of_nat i + 1). split; [lia|]. unfold at_. rewrite (proj2 (Z.ltb_ge _ 1)) by lia.
  by replace (Z.to_nat (Z.of_nat i + 1 - 1)) with i by lia.
Qed.

(** ** Building the heap *)
Lemma build_loop_ok (cnt : Z) (n : nat) : ∀ l,
  heap_from l (Z.of_nat n + 1) cnt → Z.of_nat n ≤ cnt → cnt = Z.of_nat (length l) → cnt < 2 ^ 30 →
  ∃ l', build_loop compare n cnt l = Ok (tt, l') ∧ heap_from l' 1 cnt ∧ permuted cnt l l'.
Proof.
  induction n as [|n IH]; intros l Hh Hn Hcnt Hb.
  { exists l. split_and!; [done|exact Hh|apply permuted_refl]. }
  cbn [build_loop]. destruct (heapify_ok (Z.of_nat (S n)) cnt (Z.to_nat cnt) l (Z.of_nat (S n)))
    as (l1 & Hrun1 & Hh1 & Hp1); [|lia..|].
  - split.
    + intros k c Hk Hne. apply Hh. lia.
    + intros p c Hp Hch. unfold child in Hch. lia.
  - run_with Hrun1. assert (Hl := permuted_length _ _ _ Hp1).
    destruct (IH l1) as (l' & Hrun & Hh' & Hp'); [|lia|lia|done|].
    + by replace (Z.of_nat n + 1) with (Z.of_nat (S n)) by lia.
    + exists l'. split_and!; [done|done|]. by eapply permuted_trans.
Qed.

(** The root of a heap is its maximum. *)
Lemma heap_root l n (r : A) : heap_from l 1 n → at_ l 1 = Some r → ∀ m k (x : A),
  k ≤ Z.of_nat m → 1 ≤ k ≤ n → at_ l k = Some x → le x r.
Proof.
  intros Hh Hr. induction m as [|m IH]; intros k x Hm Hk Hx; [lia|].
  destruct (Z.eq_dec k 1) as [->|Hne]; [assert (x = r) as -> by congruence; apply le_refl|].
  apply at_range in Hx as Hrg. destruct (at_some l (k / 2)) as [y Hy]; [divlia|].
  apply (le_trans x y); [|apply (IH (k / 2)); [divlia|divlia|done]].
  apply (Hh (k / 2) k); [divlia|unfold child; divlia|lia|done|done].
Qed.

(** ** Taking the maxima out *)

(** From index [n + 1] on the array is sorted and above the rest. *)
Definition bounded l n : Prop := ∀ i j x y, i ≤ j → n < j → at_ l i = Some x → at_ l j = Some y → le x y.

Lemma bounded_permuted l l' n : 0 ≤ n → bounded l n → permuted n l l' → bounded l' n.
Proof.
  intros Hn Hb Hp i j x y Hij Hj Hx Hy. rewrite (permuted_high n l l' j Hp) in Hy by lia.
  destruct (Z_le_gt_dec i n).
  - destruct (permuted_low n l l' i x Hp ltac:(lia) Hx) as (i' & Hi' & Hx'). by apply (Hb i' j); [lia|..].
  - rewrite (permuted_high n l l' i Hp) in Hx by lia. by apply (Hb i j).
Qed.

Lemma bounded_swap l n (x y : A) :
  2 ≤ n ≤ Z.of_nat (length l) → heap_from l 1 n → bounded l n → at_ l 1 = Some x → at_ l n = Some y →
  bounded (swapped l 1 n x y) (n - 1).
Proof.
  intros Hn Hh Hb Hx Hy. assert (Hp := permuted_swap n l 1 n x y Hx Hy ltac:(lia) ltac:(lia)).
  intros i j u v Hij Hj Hu Hv. destruct (Z.eq_dec j n) as [->|Hjn].
  - rewrite (at_swapped l 1 n x y n) in Hv by (done || lia). rewrite Z.eqb_refl in Hv. injection Hv as <-.
    destruct (permuted_low n l _ i u Hp Hij Hu) as (i' & Hi' & Hu').
    by apply (heap_root l n x Hh Hx (Z.to_nat n) i'); [lia|..].
  - by apply (bounded_permuted l _ n ltac:(lia) Hb Hp i j); [|lia|..].
Qed.

Lemma extract_loop_ok (n : nat) : ∀ l,
  (n ≤ length l)%nat → Z.of_nat n < 2 ^ 30 → heap_from l 1 (Z.of_nat n) → bounded l (Z.of_nat n) →
  ∃ l', extract_loop compare n l = Ok (tt, l') ∧ bounded l' 1 ∧ l' ≡ₚ l.
Proof.
  induction n as [|[|n] IH]; intros l Hn Hb Hh Hbd.
  - exists l. split_and!; [done| |done]. intros i j x y Hij Hj. apply Hbd; lia.
  - exists l. by split_and!.
  - change (extract_loop compare (S (S n))) with
      (do_swap 1 (Z.of_nat (S (S n))) ;; heapify compare (S n) 1 (Z.of_nat (S (S n)) - 1) ;; extract_loop compare (S n)).
    set (k := Z.of_nat (S (S n))) in *. destruct (at_some l 1) as [x Hx]; [lia|]. destruct (at_some l k) as [y Hy]; [lia|].
    erewrite run_bind_ok by (by apply do_swap_ok).
    assert (Hp1 := permuted_swap k l 1 k x y Hx Hy ltac:(lia) ltac:(lia)). assert (Hl1 := permuted_length _ _ _ Hp1).
    assert (Hbd1 := bounded_swap l k x y ltac:(lia) Hh Hbd Hx Hy).
    destruct (heapify_ok 1 (k - 1) (S n) (swapped l 1 k x y) 1) as (l2 & Hrun2 & Hh2 & Hp2); [|lia..|].
    { split.
      - intros a c Ha Hne Hc Hcn u v. rewrite !at_swapped by (done || lia).
        rewrite !(proj2 (Z.eqb_neq _ _)) by (unfold child in Hc; lia). by apply Hh; [|..|lia].
      - intros p c Hp Hch. unfold child in Hch. lia. }
    run_with Hrun2. assert (Hl2 := permuted_length _ _ _ Hp2).
    assert (Ek : k - 1 = Z.of_nat (S n)) by lia. rewrite Ek in *.
    destruct (IH l2) as (l' & Hrun & Hbd' & Hp'); [lia|lia|done|by eapply bounded_permuted; [lia|..]|].
    exists l'. split_and!; [done|done|]. rewrite Hp', (permuted_all _ _ _ Hp2). by apply (permuted_all k).
Qed.

(** C28: for any array of fewer than 2^30 elements and any comparison that
    orders them, [sort] (and [qsort]) ends without leaving the array, its
    result is a permutation of the array, and it is in order. *)
Theorem sort_correct l :
  Z.of_nat (length l) < 2 ^ 30 →
  ∃ l', sort compare l = Ok (tt, l') ∧ l' ≡ₚ l ∧
    ∀ (i j : nat) x y, (i ≤ j)%nat → l' !! i = Some x → l' !! j = Some y → compare x y ≤ 0.
Proof.
  intros Hb. unfold sort. erewrite run_bind_ok by reflexivity. set (cnt := Z.of_nat (length l)) in *.
  destruct (build_loop_ok cnt (Z.to_nat (cnt / 2)) l) as (l1 & Hrun1 & Hh1 & Hp1); [|divlia|done|done|].
  { intros k c Hk Hc Hcn. unfold child in Hc. divlia. }
  run_with Hrun1. assert (Hl1 := permuted_length _ _ _ Hp1).
  destruct (extract_loop_ok (length l) l1) as (l' & Hrun & Hbd & Hp'); [lia|done|done| |].
  { intros i j x y Hij Hj Hx Hy. apply at_range in Hy. lia. }
  exists l'. split_and!; [done|by rewrite Hp'; eapply permuted_all|].
  intros i j x y Hij Hx Hy. destruct (decide (j = 0%nat)) as [->|Hj].
  - assert (i = 0%nat) as -> by lia. assert (x = y) as -> by congruence. apply le_refl.
  - apply (Hbd (Z.of_nat i + 1) (Z.of_nat j + 1)); [lia|lia|..]; unfold at_;
      rewrite (proj2 (Z.ltb_ge _ 1)) by lia; [replace (Z.to_nat _) with i by lia|replace (Z.to_nat _) with j by lia]; done.
Qed.
End order.

Lemma sub_comparison : Comparison Z.sub.
Proof. split; intros; lia. Qed.
Lemma sort_correct_witness :
  ∃ l', sort Z.sub [3; 1; 2; 3; 0] = Ok (tt, l') ∧ l' ≡ₚ [3; 1; 2; 3; 0] ∧
    ∀ i j x y, (i ≤ j)%nat → l' !! i = Some x → l' !! j = Some y → x - y ≤ 0.
Proof. apply (sort_correct Z.sub (HC := sub_comparison)). simpl. lia. Defined.
