(* ===== verification/Arithmetic.v ===== *)
(** * 64-bit division: [src/pintos/lib/arithmetic.c]

    The routines the compiler calls for [/] and [%] on 64-bit operands.  The
    processor's [divl] traps when its quotient does not fit in 32 bits or the
    divisor is zero, and so does [%] by zero: [Err Panic], since the kernel
    does not survive it. *)
From S2P Require Import Prelude CInt.

Open Scope Z_scope.

Module Arithmetic.

(** ** The code *)

(** [n / d] and [n % d] on [uint32_t]. *)
Definition div32 (n d : Z) : res Z := if d =? 0 then Err Panic else Ok (n / d).
Definition mod32 (n d : Z) : res Z := if d =? 0 then Err Panic else Ok (n mod d).

Definition divl (n d : Z) : res Z :=
  if d =? 0 then Err Panic else
  let q := n / d in
  if q <? 2 ^ 32 then Ok q else Err Panic.

(** [if (x <= limit) { n += k; x <<= k; }]. *)
Definition nlz_step (limit k : Z) (nx : Z * Z) : Z * Z :=
  let '(n, x) := nx in if x <=? limit then (n + k, u32 (Z.shiftl x k)) else (n, x).
Definition nlz (x : Z) : Z :=
  let nx := nlz_step 0x0000FFFF 16 (0, x) in
  let nx := nlz_step 0x00FFFFFF 8 nx in
  let nx := nlz_step 0x0FFFFFFF 4 nx in
  let '(n, x) := nlz_step 0x3FFFFFFF 2 nx in
  if x <=? 0x7FFFFFFF then n + 1 else n.

Definition bind {A B} (r : res A) (k : A → res B) : res B := match r with Ok a => k a | Err e => Err e end.

Definition udiv64 (n d : Z) : res Z :=
  if Z.shiftr d 32 =? 0 then
    let b := Z.shiftl 1 32 in
    let n1 := u32 (Z.shiftr n 32) in
    let n0 := u32 n in
    let d0 := u32 d in
    bind (mod32 n1 d0) (λ r,
    bind (divl (u64 (u64 (b * r) + n0)) d0) (λ q,
    bind (div32 n1 d0) (λ q1, Ok (u64 (q + u64 (b * q1))))))
  else if n <? d then Ok 0
  else
    let d1 := u32 (Z.shiftr d 32) in
    let s := nlz d1 in
    bind (divl (Z.shiftr n 1) (u32 (Z.shiftr (u64 (Z.shiftl d s)) 32))) (λ q0,
    let q := Z.shiftr q0 (31 - s) in
    Ok (if u64 (n - u64 (u64 (q - 1) * d)) <? d then u64 (q - 1) else q)).

(** The results of the remainders are 32 bits wide. *)
Definition umod64 (n d : Z) : res Z := bind (udiv64 n d) (λ q, Ok (u32 (u64 (n - u64 (d * q))))).

Definition sdiv64 (n d : Z) : res Z :=
  let n_abs := if 0 <=? n then u64 n else u64 (- u64 n) in
  let d_abs := if 0 <=? d then u64 d else u64 (- u64 d) in
  bind (udiv64 n_abs d_abs) (λ q_abs,
  Ok (if Bool.eqb (n <? 0) (d <? 0) then s64 q_abs else s64 (- s64 q_abs))).
Definition smod64 (n d : Z) : res Z := bind (sdiv64 n d) (λ q, Ok (s32 (s64 (n - s64 (d * q))))).

Definition __divdi3 (n d : Z) : res Z := sdiv64 n d.
Definition __moddi3 (n d : Z) : res Z := smod64 n d.
Definition __udivdi3 (n d : Z) : res Z := udiv64 n d.
Definition __umoddi3 (n d : Z) : res Z := umod64 n d.

(** ** What it computes *)
Definition in_u64 (x : Z) : Prop := 0 ≤ x < 2 ^ 64.

Lemma u64_id x : in_u64 x → u64 x = x.
Proof. apply Z.mod_small. Qed.

(** After a step the leading bits are in place, and [x] has been shifted by
    [n]. *)
Definition shifted (x0 bound : Z) (nx : Z * Z) : Prop :=
  let '(n, x) := nx in x = x0 * 2 ^ n ∧ bound ≤ x < 2 ^ 32 ∧ 0 ≤ n.

Lemma nlz_step_ok x0 k bound limit nx : 0 ≤ k → bound * 2 ^ k = limit + 1 → (limit + 1) * 2 ^ k ≤ 2 ^ 32 →
  shifted x0 bound nx → shifted x0 (limit + 1) (nlz_step limit k nx) ∧ (fst (nlz_step limit k nx) ≤ fst nx + k).
Proof.
  intros Hk Hb Hl. destruct nx as [n x]. intros (-> & [Hlow Hhi] & Hn). unfold nlz_step.
  assert (H2 := Z.pow_pos_nonneg 2 k ltac:(lia) Hk).
  destruct (Z.leb_spec (x0 * 2 ^ n) limit); [|simpl; lia]. rewrite Z.shiftl_mul_pow2 by done.
  rewrite u32_id by (unfold in_u32; nia). simpl. rewrite Z.pow_add_r by done. split; [|lia]. split_and!; nia.
Qed.

Lemma nlz_ok x : 0 < x < 2 ^ 32 → 0 ≤ nlz x ≤ 31 ∧ 2 ^ 31 ≤ x * 2 ^ nlz x < 2 ^ 32.
Proof.
  intros Hx. unfold nlz.
  assert (H0 : shifted x 1 (0, x)) by (simpl; lia).
  destruct (nlz_step_ok x 16 1 0xFFFF _ ltac:(lia) eq_refl ltac:(lia) H0) as [H1 L1]. revert H1 L1. generalize (nlz_step 0xFFFF 16 (0, x)). intros nx1 H1 L1.
  destruct (nlz_step_ok x 8 (0xFFFF + 1) 0xFFFFFF _ ltac:(lia) eq_refl ltac:(lia) H1) as [H2 L2]. revert H2 L2. generalize (nlz_step 0xFFFFFF 8 nx1). intros nx2 H2 L2.
  destruct (nlz_step_ok x 4 (0xFFFFFF + 1) 0xFFFFFFF _ ltac:(lia) eq_refl ltac:(lia) H2) as [H3 L3]. revert H3 L3. generalize (nlz_step 0xFFFFFFF 4 nx2). intros nx3 H3 L3.
  destruct (nlz_step_ok x 2 (0xFFFFFFF + 1) 0x3FFFFFFF _ ltac:(lia) eq_refl ltac:(lia) H3) as [H4 L4]. revert H4 L4. generalize (nlz_step 0x3FFFFFFF 2 nx3). intros [n x'] H4 L4.
  destruct H4 as (-> & H4 & Hn). simpl in *.
  destruct (Z.leb_spec (x * 2 ^ n) 0x7FFFFFFF); [|lia]. rewrite Z.pow_add_r by lia. lia.
Qed.

Lemma divl_ok n d : 0 ≤ n → 0 < d → n < 2 ^ 32 * d → divl n d = Ok (n / d).
Proof.
  intros Hn Hd Hq. unfold divl. rewrite (proj2 (Z.eqb_neq d 0)) by lia.
  rewrite (proj2 (Z.ltb_lt _ _)); [done|]. apply Z.div_lt_upper_bound; lia.
Qed.

(** A divisor of at most 32 bits: schoolbook division in two steps. *)
Lemma udiv64_small n d : in_u64 n → 0 < d < 2 ^ 32 → udiv64 n d = Ok (n / d).
Proof.
  intros Hn Hd. unfold in_u64 in Hn. unfold udiv64. rewrite !Z.shiftr_div_pow2, (Z.div_small d) by lia.
  cbn [Z.eqb]. rewrite (u32_id d) by (unfold in_u32; lia). change (Z.shiftl 1 32) with (2 ^ 32).
  set (n1 := n / 2 ^ 32). assert (H1 : 0 ≤ n1 < 2 ^ 32) by (split; [apply Z.div_pos|apply Z.div_lt_upper_bound]; lia).
  rewrite (u32_id n1) by done. unfold u32. set (n0 := n mod 2 ^ 32).
  assert (Hn0 := Z.mod_pos_bound n (2 ^ 32) ltac:(lia)). fold n0 in Hn0.
  assert (En := Z.div_mod n (2 ^ 32) ltac:(lia)). fold n1 n0 in En.
  unfold mod32, div32. rewrite (proj2 (Z.eqb_neq d 0)) by lia. cbn [bind].
  assert (Hr := Z.mod_pos_bound n1 d ltac:(lia)). assert (E1 := Z.div_mod n1 d ltac:(lia)).
  set (r := n1 mod d) in *. set (q1 := n1 / d) in *.
  rewrite (u64_id (2 ^ 32 * r)) by (unfold in_u64; nia). rewrite (u64_id (_ + n0)) by (unfold in_u64; nia).
  rewrite divl_ok by nia. cbn [bind].
  assert (Hq1 : 0 ≤ q1 < 2 ^ 32) by nia. rewrite (u64_id (2 ^ 32 * q1)) by (unfold in_u64; nia).
  assert (E : n / d = (2 ^ 32 * r + n0) / d + 2 ^ 32 * q1).
  { rewrite <- Z.div_add by lia. f_equal. nia. }
  rewrite <- E, u64_id; [done|]. unfold in_u64. split; [apply Z.div_pos; lia|]. apply Z.div_lt_upper_bound; nia.
Qed.

(** The quotient by the leading 32 bits of the divisor, put back in place, is
    the quotient or one too large. *)
Lemma quotient_estimate n d d' E e : 0 ≤ n < 2 ^ 64 → 2 ^ 31 ≤ d' → 1 < E → 0 ≤ e < E → d = d' * E + e →
  n / d ≤ n / (d' * E) ≤ n / d + 1.
Proof.
  intros Hn Hd' HE He ->. split; [apply Z.div_le_compat_l; nia|].
  set (m := d' * E). assert (Hm : 2 ^ 31 * E ≤ m) by nia.
  assert (H1 := Z.div_mod n (m + e) ltac:(nia)). assert (H2 := Z.mod_pos_bound n (m + e) ltac:(nia)).
  set (Q := n / (m + e)) in *. set (r := n mod (m + e)) in *.
  assert (HQ : 0 ≤ Q) by (apply Z.div_pos; nia).
  apply Z.lt_succ_r, Z.div_lt_upper_bound; [nia|]. assert (Hkey : Q * e + e ≤ m); [|nia].
  assert (Hsq : 2 ^ 62 * (E * E) ≤ m * m) by nia. assert (HE4 : 4 * (E - 1) ≤ E * E) by nia.
  assert (Hlt : Q * e * (m + e) < m * m); [|].
  { assert (Q * (m + e) < 2 ^ 64) by nia. assert (Q * e * (m + e) ≤ 2 ^ 64 * (E - 1)) by nia. nia. }
  nia.
Qed.

Lemma udiv64_large n d : in_u64 n → 2 ^ 32 ≤ d < 2 ^ 64 → udiv64 n d = Ok (n / d).
Proof.
  intros Hn Hd. unfold in_u64 in Hn. unfold udiv64. rewrite !Z.shiftr_div_pow2 by lia. set (d1 := d / 2 ^ 32).
  assert (Hd1 : 0 < d1 < 2 ^ 32) by (split; [apply Z.div_str_pos|apply Z.div_lt_upper_bound]; lia).
  rewrite (proj2 (Z.eqb_neq d1 0)) by lia. destruct (Z.ltb_spec n d); [by rewrite Z.div_small by lia|].
  rewrite (u32_id d1) by (unfold in_u32; lia). destruct (nlz_ok d1 Hd1) as [Hs Hnlz]. set (s := nlz d1) in *.
  assert (Hp := Z.pow_pos_nonneg 2 s ltac:(lia) ltac:(lia)). set (E := 2 ^ (32 - s)).
  assert (HE : E * 2 ^ s = 2 ^ 32) by (unfold E; rewrite <- Z.pow_add_r by lia; f_equal; lia).
  assert (HE1 : 1 < E) by (unfold E; apply Z.pow_gt_1; lia).
  assert (Ed := Z.div_mod d (2 ^ 32) ltac:(lia)). assert (Hm := Z.mod_pos_bound d (2 ^ 32) ltac:(lia)). fold d1 in Ed.
  rewrite Z.shiftl_mul_pow2 by lia. rewrite (u64_id (d * 2 ^ s)) by (unfold in_u64; nia).
  assert (Edd : d * 2 ^ s / 2 ^ 32 = d / E) by (rewrite <- HE, Z.div_mul_cancel_r by lia; done). rewrite Edd.
  assert (Hd' : 2 ^ 31 ≤ d / E < 2 ^ 32).
  { rewrite <- Edd. assert (Hlt : d1 * 2 ^ s < E * 2 ^ s) by lia. apply Z.mul_lt_mono_pos_r in Hlt; [|done].
    assert (Hle : (d1 + 1) * 2 ^ s ≤ E * 2 ^ s) by (apply Z.mul_le_mono_pos_r; lia).
    assert (Hd2 : d * 2 ^ s < 2 ^ 32 * ((d1 + 1) * 2 ^ s)) by (rewrite Z.mul_assoc; apply Z.mul_lt_mono_pos_r; lia).
    split; [apply Z.div_le_lower_bound|apply Z.div_lt_upper_bound]; [lia| |lia|lia]. rewrite Ed, Z.mul_add_distr_r.
    assert (0 ≤ d mod 2 ^ 32 * 2 ^ s) by (apply Z.mul_nonneg_nonneg; lia). lia. }
  rewrite (u32_id (d / E)) by (unfold in_u32; lia). set (d' := d / E) in *.
  rewrite divl_ok; [|apply Z.div_pos; lia|lia|apply Z.div_lt_upper_bound; nia]. cbn [bind].
  rewrite Z.shiftr_div_pow2 by lia. change (2 ^ 1) with 2.
  assert (Eq : n / 2 / d' / 2 ^ (31 - s) = n / (d' * E)).
  { rewrite !Z.div_div by lia. f_equal. unfold E. replace (32 - s) with (1 + (31 - s)) by lia. rewrite Z.pow_add_r by lia. lia. }
  rewrite Eq. assert (Ede := Z.div_mod d E ltac:(lia)). fold d' in Ede.
  assert (Hq := quotient_estimate n d d' E (d mod E) Hn ltac:(lia) HE1 (Z.mod_pos_bound d E ltac:(lia)) ltac:(lia)).
  set (q := n / (d' * E)) in *. assert (En := Z.div_mod n d ltac:(lia)). assert (Hr := Z.mod_pos_bound n d ltac:(lia)).
  set (Q := n / d) in *. assert (HQ : 1 ≤ Q) by (unfold Q; apply Z.div_le_lower_bound; lia).
  rewrite (u64_id (q - 1)) by (unfold in_u64; nia). rewrite (u64_id ((q - 1) * d)) by (unfold in_u64; nia).
  rewrite (u64_id (n - _)) by (unfold in_u64; nia).
  destruct (Z.ltb_spec (n - (q - 1) * d) d); f_equal; nia.
Qed.

Lemma udiv64_ok n d : in_u64 n → 0 < d < 2 ^ 64 → udiv64 n d = Ok (n / d).
Proof. intros Hn Hd. destruct (Z.lt_ge_cases d (2 ^ 32)); [apply udiv64_small|apply udiv64_large]; done || lia. Qed.

Lemma umod64_ok n d : in_u64 n → 0 < d < 2 ^ 64 → umod64 n d = Ok (u32 (n mod d)).
Proof.
  intros Hn Hd. unfold umod64. rewrite (udiv64_ok n d Hn Hd). cbn [bind]. unfold in_u64 in *.
  assert (E := Z.div_mod n d ltac:(lia)). assert (Hm := Z.mod_pos_bound n d ltac:(lia)).
  assert (0 ≤ n / d) by (apply Z.div_pos; lia).
  rewrite (u64_id (d * _)) by (unfold in_u64; nia). rewrite u64_id by (unfold in_u64; lia). do 2 f_equal. lia.
Qed.

Lemma abs_ok n : in_s64 n → (if 0 <=? n then u64 n else u64 (- u64 n)) = Z.abs n.
Proof.
  unfold in_s64. intros Hn. destruct (Z.leb_spec 0 n); [rewrite u64_id by (unfold in_u64; lia); lia|].
  assert (E : u64 n = n + 2 ^ 64) by (symmetry; apply (Z.mod_unique_pos _ _ (-1)); lia).
  rewrite E. replace (Z.abs n) with (- n) by lia. symmetry. apply (Z.mod_unique_pos _ _ (-1)); lia.
Qed.

(** [-2^63 / -1] overflows. *)
Lemma sdiv64_ok n d : in_s64 n → in_s64 d → d ≠ 0 → n ÷ d < 2 ^ 63 → sdiv64 n d = Ok (n ÷ d).
Proof.
  intros Hn Hd H0 Hov. unfold sdiv64. rewrite (abs_ok n Hn), (abs_ok d Hd). unfold in_s64 in *.
  rewrite udiv64_ok by (unfold in_u64; lia). cbn [bind]. f_equal. rewrite Z.quot_div in * by done.
  assert (Hq : 0 ≤ Z.abs n / Z.abs d) by (apply Z.div_pos; lia).
  assert (Hq' : Z.abs n / Z.abs d ≤ 2 ^ 63) by (apply Z.div_le_upper_bound; nia).
  destruct (Z.eq_dec n 0) as [->|Hn0]; [by rewrite Z.abs_0, Z.div_0_l by lia; destruct (d <? 0)|].
  set (q := Z.abs n / Z.abs d) in *.
  destruct (Z.ltb_spec n 0), (Z.ltb_spec d 0); cbn [Bool.eqb];
    [rewrite (Z.sgn_neg n), (Z.sgn_neg d) in * by lia|rewrite (Z.sgn_neg n), (Z.sgn_pos d) in * by lia
    |rewrite (Z.sgn_pos n), (Z.sgn_neg d) in * by lia|rewrite (Z.sgn_pos n), (Z.sgn_pos d) in * by lia];
    try (rewrite s64_id by (unfold in_s64; lia); lia);
    (destruct (Z.eq_dec q (2 ^ 63)) as [->|]; [reflexivity|rewrite !s64_id by (unfold in_s64; rewrite ?s64_id by (unfold in_s64; lia); lia); lia]).
Qed.

Lemma smod64_ok n d : in_s64 n → in_s64 d → d ≠ 0 → n ÷ d < 2 ^ 63 → smod64 n d = Ok (s32 (Z.rem n d)).
Proof.
  intros Hn Hd H0 Hov. unfold smod64. rewrite sdiv64_ok by done. cbn [bind]. unfold in_s64 in *.
  assert (E := Z.quot_rem n d H0). assert (Hr := Z.rem_bound_abs n d H0).
  assert (Hs : 0 ≤ Z.rem n d * n) by (by apply Z.rem_sign_mul).
  assert (Hle : Z.abs (Z.rem n d) ≤ Z.abs n).
  { rewrite <- Z.rem_abs by done. apply Z.rem_le; lia. }
  rewrite (s64_id (d * _)) by (unfold in_s64; nia). rewrite s64_id by (unfold in_s64; nia). do 2 f_equal. lia.
Qed.

(** C34: 64-bit division.  The quotients that the compiler's calls return are
    those of C for all operands, except for division by zero and the one
    quotient that does not fit, and nothing traps; the remainders are right
    modulo 2^32 only, because [umod64] and [smod64] return 32 bits. *)
Theorem division_correct n d :
  (in_u64 n → 0 < d < 2 ^ 64 → __udivdi3 n d = Ok (n / d) ∧ __umoddi3 n d = Ok (u32 (n mod d))) ∧
  (in_s64 n → in_s64 d → d ≠ 0 → n ÷ d < 2 ^ 63 → __divdi3 n d = Ok (n ÷ d) ∧ __moddi3 n d = Ok (s32 (Z.rem n d))).
Proof.
  split; [intros Hn Hd; split; [by apply udiv64_ok|by apply umod64_ok]|].
  intros Hn Hd H0 Hov. split; [by apply sdiv64_ok|by apply smod64_ok].
Qed.

(** [(2^33 - 1) % 2^33]. *)
Lemma division_correct_witness : __umoddi3 8589934591 8589934592 = Ok 4294967295 ∧ __divdi3 (-7) 2 = Ok (-3).
Proof.
  split.
  - destruct (division_correct 8589934591 8589934592) as [H1 _]. destruct H1 as [_ H1]; [unfold in_u64; lia|lia|]. exact H1.
  - destruct (division_correct (-7) 2) as [_ H2]. destruct H2 as [H2 _]; [unfold in_s64; lia|unfold in_s64; lia|lia|reflexivity|]. exact H2.
Defined.
End Arithmetic.
