(* ===== verification/CString.v ===== *)
(** * Memory blocks and strings

    [src/pintos/lib/string.c].  Memory maps addresses to bytes; an access to
    an address that is not mapped is a fault.  Pointers are addresses, null is
    0.  A loop that runs to a null character gets as many steps as there are
    mapped bytes: it stops at the character or faults before it uses them. *)
From S2P Require Import Prelude CInt.

Open Scope Z_scope.

Module CString.

Abbreviation mem := (gmap Z Z).
Abbreviation M := (ST mem).
Definition NULL : Z := 0.

Definition load (p : Z) : M Z := m ← get; deref (m !! p).
Definition store (p v : Z) : M unit := m ← get; deref (m !! p) ;; put (<[p := v]> m).
Definition str_fuel : M nat := gets (λ m, S (size m)).
(** [ASSERT (p != NULL || size == 0)]. *)
Definition assert_block (p size : Z) : M unit := ASSERT (negb (p =? NULL) || (size =? 0)).
Definition assert_nonnull (p : Z) : M unit := ASSERT (negb (p =? NULL)).

(** ** Blocks *)

(** [while (size-- > 0) *dst++ = *src++]. *)
Fixpoint copy_up (n : nat) (dst src : Z) : M Z :=
  match n with
  | O => mret dst
  | S n => c ← load src; store dst c ;; copy_up n (dst + 1) (src + 1)
  end.
(** [while (size-- > 0) *--dst = *--src]. *)
Fixpoint copy_down (n : nat) (dst src : Z) : M Z :=
  match n with
  | O => mret dst
  | S n => c ← load (src - 1); store (dst - 1) c ;; copy_down n (dst - 1) (src - 1)
  end.

Definition memcpy (dst src size : Z) : M Z :=
  assert_block dst size ;;
  assert_block src size ;;
  copy_up (Z.to_nat size) dst src ;;
  mret dst.

(** It returns the variable that the loops change. *)
Definition memmove (dst src size : Z) : M Z :=
  assert_block dst size ;;
  assert_block src size ;;
  if dst <? src then copy_up (Z.to_nat size) dst src
  else copy_down (Z.to_nat size) (dst + size) (src + size).

Fixpoint memcmp_loop (n : nat) (a b : Z) : M Z :=
  match n with
  | O => mret 0
  | S n =>
    x ← load a; y ← load b;
    if negb (x =? y) then mret (if y <? x then 1 else -1) else memcmp_loop n (a + 1) (b + 1)
  end.
Definition memcmp (a b size : Z) : M Z :=
  assert_block a size ;; assert_block b size ;; memcmp_loop (Z.to_nat size) a b.

Fixpoint memchr_loop (n : nat) (block ch : Z) : M Z :=
  match n with
  | O => mret NULL
  | S n => c ← load block; if c =? ch then mret block else memchr_loop n (block + 1) ch
  end.
Definition memchr (block ch size : Z) : M Z :=
  assert_block block size ;; memchr_loop (Z.to_nat size) block (u8 ch).

Fixpoint memset_loop (n : nat) (dst value : Z) : M unit :=
  match n with
  | O => mret tt
  | S n => store dst (u8 value) ;; memset_loop n (dst + 1) value
  end.
Definition memset (dst value size : Z) : M Z :=
  assert_block dst size ;; memset_loop (Z.to_nat size) dst value ;; mret dst.

(** ** Strings *)
Fixpoint strlen_loop (fuel : nat) (p : Z) : M Z :=
  c ← load p;
  if c =? 0 then mret p
  else match fuel with O => fail Timeout | S fuel => strlen_loop fuel (p + 1) end.
Definition strlen (string : Z) : M Z :=
  assert_nonnull string ;;
  n ← str_fuel; p ← strlen_loop n string; mret (p - string).

Fixpoint strnlen_loop (n : nat) (string length : Z) : M Z :=
  c ← load (string + length);
  if c =? 0 then mret length
  else match n with O => mret length | S n => strnlen_loop n string (length + 1) end.
Definition strnlen (string maxlen : Z) : M Z := strnlen_loop (Z.to_nat maxlen) string 0.

Fixpoint strcmp_loop (fuel : nat) (a b : Z) : M Z :=
  x ← load a;
  if x =? 0 then y ← load b; mret (if x <? y then -1 else Z.b2z (y <? x))
  else
    y ← load b;
    if x =? y then match fuel with O => fail Timeout | S fuel => strcmp_loop fuel (a + 1) (b + 1) end
    else mret (if x <? y then -1 else Z.b2z (y <? x)).
Definition strcmp (a b : Z) : M Z :=
  assert_nonnull a ;; assert_nonnull b ;; n ← str_fuel; strcmp_loop n a b.

Fixpoint strchr_loop (fuel : nat) (string c : Z) : M Z :=
  x ← load string;
  if x =? c then mret string
  else if x =? 0 then mret NULL
  else match fuel with O => fail Timeout | S fuel => strchr_loop fuel (string + 1) c end.
Definition strchr (string c : Z) : M Z :=
  assert_nonnull string ;; n ← str_fuel; strchr_loop n string (u8 c).

(** The loops of [strcspn] ([stop_at = true]) and [strspn]. *)
Fixpoint span_loop (stop_at : bool) (fuel : nat) (string set length : Z) : M Z :=
  c ← load (string + length);
  if c =? 0 then mret length
  else
    r ← strchr set c;
    if Bool.eqb (negb (r =? NULL)) stop_at then mret length
    else match fuel with O => fail Timeout | S fuel => span_loop stop_at fuel string set (length + 1) end.
Definition strcspn (string stop : Z) : M Z := n ← str_fuel; span_loop true n string stop 0.
Definition strspn (string skip : Z) : M Z := n ← str_fuel; span_loop false n string skip 0.

Fixpoint strpbrk_loop (fuel : nat) (string stop : Z) : M Z :=
  c ← load string;
  if c =? 0 then mret NULL
  else
    r ← strchr stop c;
    if negb (r =? NULL) then mret string
    else match fuel with O => fail Timeout | S fuel => strpbrk_loop fuel (string + 1) stop end.
Definition strpbrk (string stop : Z) : M Z := n ← str_fuel; strpbrk_loop n string stop.

Fixpoint strrchr_loop (fuel : nat) (string c p : Z) : M Z :=
  x ← load string;
  if x =? 0 then mret p
  else match fuel with
       | O => fail Timeout
       | S fuel => strrchr_loop fuel (string + 1) c (if x =? c then string else p)
       end.
Definition strrchr (string c : Z) : M Z := n ← str_fuel; strrchr_loop n string (u8 c) NULL.

Fixpoint strstr_loop (n : nat) (haystack needle needle_len i : Z) : M Z :=
  r ← memcmp (haystack + i) needle needle_len;
  if r =? 0 then mret (haystack + i)
  else match n with O => mret NULL | S n => strstr_loop n haystack needle needle_len (i + 1) end.
Definition strstr (haystack needle : Z) : M Z :=
  haystack_len ← strlen haystack;
  needle_len ← strlen needle;
  if needle_len <=? haystack_len
  then strstr_loop (Z.to_nat (haystack_len - needle_len)) haystack needle needle_len 0
  else mret NULL.

Definition strlcpy (dst src size : Z) : M Z :=
  assert_nonnull dst ;; assert_nonnull src ;;
  src_len ← strlen src;
  (if 0 <? size then
     let dst_len := if src_len <? size - 1 then src_len else size - 1 in
     memcpy dst src dst_len ;; store (dst + dst_len) 0
   else mret tt) ;;
  mret src_len.

Definition strlcat (dst src size : Z) : M Z :=
  assert_nonnull dst ;; assert_nonnull src ;;
  src_len ← strlen src;
  dst_len ← strlen dst;
  (if (0 <? size) && (dst_len <? size) then
     let copy_cnt := if src_len <? size - dst_len - 1 then src_len else size - dst_len - 1 in
     memcpy (dst + dst_len) src copy_cnt ;; store (dst + dst_len + copy_cnt) 0
   else mret tt) ;;
  mret (src_len + dst_len).

(** ** Tokens *)

(** Skips delimiters; [None] at the end of the string. *)
Fixpoint skip_delimiters (fuel : nat) (s delimiters : Z) : M (Z * bool) :=
  c ← load s;
  r ← strchr delimiters c;
  if negb (r =? NULL) then
    if c =? 0 then mret (s, false)
    else match fuel with O => fail Timeout | S fuel => skip_delimiters fuel (s + 1) delimiters end
  else mret (s, true).
Fixpoint skip_token (fuel : nat) (s delimiters : Z) : M Z :=
  c ← load s;
  r ← strchr delimiters c;
  if r =? NULL then match fuel with O => fail Timeout | S fuel => skip_token fuel (s + 1) delimiters end
  else mret s.
(** Returns the token and the new value of [*save_ptr]. *)
Definition strtok_r (s delimiters save_ptr : Z) : M (Z * Z) :=
  assert_nonnull delimiters ;;
  let s := if s =? NULL then save_ptr else s in
  assert_nonnull s ;;
  n ← str_fuel;
  r ← skip_delimiters n s delimiters;
  let '(s, more) := r in
  if negb more then mret (NULL, s)
  else
    let token := s in
    s ← skip_token n s delimiters;
    c ← load s;
    if negb (c =? 0) then store s 0 ;; mret (token, s + 1) else mret (token, s).

(** A buffer with a copy of [s] at address 16, for [strtok_r] with the single
    delimiter [c], a string at address 1. *)
Definition buffer : Z := 16.
Definition delimiter : Z := 1.
Definition token_mem (c : Z) (s : list Z) : mem :=
  list_to_map ((delimiter, c) :: (delimiter + 1, 0) :: imap (λ i x, (buffer + Z.of_nat i, x)) (s ++ [0])).

(** The string at an address. *)
Fixpoint string_loop (fuel : nat) (m : mem) (p : Z) : res (list Z) :=
  match m !! p with
  | None => Err Fault
  | Some c =>
    if c =? 0 then Ok []
    else match fuel with
         | O => Err Timeout
         | S fuel => match string_loop fuel m (p + 1) with Ok s => Ok (c :: s) | Err e => Err e end
         end
  end.
Definition string_at (m : mem) (p : Z) : res (list Z) := string_loop (base.size m) m p.

End CString.
