(* ===== verification/CStringSpec.v ===== *)
(** * What the string functions compute

    Blocks and null-terminated strings in memory as lists of bytes. *)
From S2P Require Import Prelude CInt CString.
Import CString.

Open Scope Z_scope.

(** ** Lists in memory *)

(** The bytes [l] are at address [a]. *)
Definition bytes_at (m : mem) (a : Z) (l : list Z) : Prop :=
  ∀ i x, l !! i = Some x → m !! (a + Z.of_nat i) = Some x.
(** The characters of the string at [a] are [s]. *)
Definition cstr (m : mem) (a : Z) (s : list Z) : Prop :=
  bytes_at m a (s ++ [0]) ∧ Forall (λ c, 0 < c < 256) s.
(** The memories agree but for the addresses from [a] to [a + n - 1]. *)
Definition same_outside (m m' : mem) (a n : Z) : Prop := ∀ p, ¬ (a ≤ p < a + n) → m' !! p = m !! p.

Lemma bytes_at_cons m a x l : bytes_at m a (x :: l) ↔ m !! a = Some x ∧ bytes_at m (a + 1) l.
Proof.
  split.
  - intros H. split; [specialize (H 0%nat x eq_refl); by rewrite Z.add_0_r in H|].
    intros i y Hi. specialize (H (S i) y Hi). by replace (a + 1 + Z.of_nat i) with (a + Z.of_nat (S i)) by lia.
  - intros [H1 H2] [|i] y Hi; simplify_eq/=; [by rewrite Z.add_0_r|].
    specialize (H2 i y Hi). by replace (a + Z.of_nat (S i)) with (a + 1 + Z.of_nat i) by lia.
Qed.
Lemma bytes_at_app m a l1 l2 :
  bytes_at m a (l1 ++ l2) ↔ bytes_at m a l1 ∧ bytes_at m (a + Z.of_nat (length l1)) l2.
Proof.
  revert a. induction l1 as [|x l1 IH]; intros a; simpl.
  - rewrite Z.add_0_r. split; [by intros|by intros [_ ?]].
  - rewrite !bytes_at_cons, IH. replace (a + 1 + Z.of_nat (length l1)) with (a + Z.of_nat (S (length l1))) by lia.
    naive_solver.
Qed.
Lemma bytes_at_nil m a : bytes_at m a [].
Proof. intros i x Hi. done. Qed.

Lemma bytes_at_outside m m' a n b l :
  same_outside m m' a n → bytes_at m b l → b + Z.of_nat (length l) ≤ a ∨ a + n ≤ b → bytes_at m' b l.
Proof.
  intros Ho Hb Hd i x Hi. rewrite Ho; [by apply Hb|]. apply lookup_lt_Some in Hi. lia.
Qed.
Lemma cstr_outside m m' a n b s :
  same_outside m m' a n → cstr m b s → b + Z.of_nat (length s) < a ∨ a + n ≤ b → cstr m' b s.
Proof.
  intros Ho [Hb Hs] Hd. split; [|done]. eapply bytes_at_outside; [done|done|]. rewrite length_app. simpl. lia.
Qed.
Lemma same_outside_trans m1 m2 m3 a n b k c j :
  same_outside m1 m2 a n → same_outside m2 m3 b k → c ≤ a → a + n ≤ c + j → c ≤ b → b + k ≤ c + j →
  same_outside m1 m3 c j.
Proof. intros H1 H2 ? ? ? ? p Hp. rewrite H2, H1 by lia. done. Qed.

(** A block in memory is no longer than the memory. *)
Lemma bytes_at_size m a l : bytes_at m a l → (length l ≤ size m)%nat.
Proof.
  revert m a. induction l as [|x l IH]; intros m a; simpl; [lia|].
  intros [H1 H2]%bytes_at_cons. assert (Hd : bytes_at (delete a m) (a + 1) l).
  { intros i y Hi. rewrite lookup_delete_ne by lia. by apply H2. }
  specialize (IH _ _ Hd). assert (Hs : size (delete a m) = pred (size m)) by (apply map_size_delete_Some; by eexists).
  assert (size m ≠ 0%nat); [|lia]. intros E. apply map_size_empty_inv in E. subst m. by rewrite lookup_empty in H1.
Qed.

Lemma mem_load_ok m p x : m !! p = Some x → load p m = Ok (x, m).
Proof. intros H. unfold load. erewrite run_bind_ok by reflexivity. by rewrite H. Qed.
Lemma mem_store_ok m p v x : m !! p = Some x → store p v m = Ok (tt, <[p := v]> m).
Proof. intros H. unfold store. erewrite run_bind_ok by reflexivity. run_deref; [|exact H]. done. Qed.

Ltac run_load H := erewrite run_bind_ok by (apply mem_load_ok; exact H).

Lemma cstr_nil m a : cstr m a [] ↔ m !! a = Some 0.
Proof.
  unfold cstr. simpl. rewrite bytes_at_cons. split; [naive_solver|]. intros H. split; [|done].
  split; [done|apply bytes_at_nil].
Qed.
Lemma cstr_cons m a c s : cstr m a (c :: s) ↔ m !! a = Some c ∧ 0 < c < 256 ∧ cstr m (a + 1) s.
Proof. unfold cstr. simpl. rewrite bytes_at_cons, Forall_cons. naive_solver. Qed.
Lemma cstr_app m a s1 s2 : cstr m a (s1 ++ s2) → cstr m (a + Z.of_nat (length s1)) s2.
Proof.
  intros [Hb Hf]. apply Forall_app in Hf as [_ Hf]. split; [|done].
  rewrite <- (assoc_L (++)) in Hb. by apply bytes_at_app in Hb as [_ Hb].
Qed.
Lemma cstr_fuel m a s : cstr m a s → (length s < size m)%nat.
Proof. intros [Hb _]. apply bytes_at_size in Hb. rewrite length_app in Hb. simpl in Hb. lia. Qed.

(** ** strlen *)
Lemma strlen_loop_ok m fuel : ∀ a s,
  cstr m a s → (length s ≤ fuel)%nat → strlen_loop fuel a m = Ok (a + Z.of_nat (length s), m).
Proof.
  induction fuel as [|fuel IH]; intros a [|c s] Hs Hf; simpl in Hf; try lia; simpl.
  - apply cstr_nil in Hs. run_load Hs. by rewrite Z.add_0_r.
  - apply cstr_nil in Hs. run_load Hs. by rewrite Z.add_0_r.
  - apply cstr_cons in Hs as (Hc & Hr & Hs). run_load Hc. rewrite (proj2 (Z.eqb_neq c 0)) by lia.
    rewrite (IH (a + 1) s) by (done || lia). do 2 f_equal. lia.
Qed.
Lemma strlen_ok m a s : a ≠ NULL → cstr m a s → strlen a m = Ok (Z.of_nat (length s), m).
Proof.
  intros Ha Hs. unfold strlen, assert_nonnull. run_assert; [|by apply negb_true_iff, Z.eqb_neq].
  erewrite run_bind_ok by reflexivity. erewrite run_bind_ok; cycle 1.
  { apply strlen_loop_ok; [exact Hs|]. apply cstr_fuel in Hs. lia. }
  unfold mret, ST_ret. do 2 f_equal. lia.
Qed.

(** ** strchr *)
Lemma strchr_loop_ok m fuel c : 0 ≤ c < 256 → ∀ d ds,
  0 < d → cstr m d ds → (length ds ≤ fuel)%nat →
  ∃ r, strchr_loop fuel d c m = Ok (r, m) ∧ (r = NULL ↔ c ≠ 0 ∧ c ∉ ds).
Proof.
  intros Hc. induction fuel as [|fuel IH]; intros d [|x ds] Hd Hs Hf; simpl in Hf; try lia; simpl.
  1, 2: apply cstr_nil in Hs; run_load Hs; bcase; [exists d|exists NULL]; (split; [done|]);
    unfold NULL; rewrite elem_of_nil; naive_solver lia.
  apply cstr_cons in Hs as (Hx & Hr & Hs). run_load Hx.
  destruct (Z.eqb_spec x c) as [->|Hne].
  { exists d. split; [done|]. unfold NULL. rewrite elem_of_cons. naive_solver lia. }
  rewrite (proj2 (Z.eqb_neq x 0)) by lia. destruct (IH (d + 1) ds) as (r & Hrun & Hiff); [lia|done|lia|].
  exists r. split; [done|]. rewrite Hiff, elem_of_cons. naive_solver.
Qed.
Lemma strchr_ok m d ds c : 0 < d → cstr m d ds → 0 ≤ c < 256 →
  ∃ r, strchr d c m = Ok (r, m) ∧ (r =? NULL) = bool_decide (c ≠ 0 ∧ c ∉ ds).
Proof.
  intros Hd Hs Hc. unfold strchr, assert_nonnull.
  destruct (strchr_loop_ok m (S (size m)) c Hc d ds Hd Hs) as (r & Hrun & Hiff); [apply cstr_fuel in Hs; lia|].
  exists r. split.
  - run_assert; [|apply negb_true_iff, Z.eqb_neq; unfold NULL; lia]. erewrite run_bind_ok by reflexivity.
    by rewrite u8_id by (unfold in_u8; lia).
  - destruct (Z.eqb_spec r NULL) as [E|E]; symmetry; [apply bool_decide_eq_true|apply bool_decide_eq_false]; naive_solver.
Qed.

(** ** Tokens *)
Section tokens.
Context (d : Z) (ds : list Z) (Hd : 0 < d).
Implicit Types (m : mem) (s w : list Z).

(** The maximal runs of characters that are not delimiters. *)
Fixpoint words_from (w s : list Z) : list (list Z) :=
  match s with
  | [] => if decide (w = []) then [] else [w]
  | c :: s =>
    if decide (c ∈ ds) then (if decide (w = []) then words_from [] s else w :: words_from [] s)
    else words_from (w ++ [c]) s
  end.
Definition words (s : list Z) : list (list Z) := words_from [] s.

Lemma words_skip pre s : Forall (λ c, c ∈ ds) pre → words (pre ++ s) = words s.
Proof. unfold words. induction 1 as [|c pre Hc _ IH]; simpl; [done|]. rewrite decide_True by done. exact IH. Qed.
Lemma words_from_run w w' s : Forall (λ c, c ∉ ds) w' → words_from w (w' ++ s) = words_from (w ++ w') s.
Proof.
  intros H. revert w. induction H as [|c w' Hc _ IH]; intros w; simpl; [by rewrite app_nil_r|].
  rewrite decide_False by done. rewrite IH. by rewrite <- (assoc_L (++)).
Qed.
Lemma words_token w s : w ≠ [] → Forall (λ c, c ∉ ds) w →
  words (w ++ s) = match s with [] => [w] | c :: s' => if decide (c ∈ ds) then w :: words s' else words_from w s end.
Proof.
  intros Hne Hw. unfold words. rewrite words_from_run by done. simpl. destruct s as [|c s]; simpl.
  - by rewrite decide_False.
  - destruct (decide (c ∈ ds)); [by rewrite decide_False|done].
Qed.

(** A string splits at its first character with a given property. *)
Lemma span_split (P : Z → Prop) `{∀ c, Decision (P c)} s :
  ∃ s1 s2, s = s1 ++ s2 ∧ Forall P s1 ∧ match s2 with [] => True | c :: _ => ¬ P c end.
Proof.
  induction s as [|c s (s1 & s2 & -> & H1 & H2)]; [by exists [], []|].
  destruct (decide (P c)); [exists (c :: s1), s2|exists [], (c :: s1 ++ s2)]; split_and!; by try constructor.
Qed.

Lemma delimiter_test m c : cstr m d ds → 0 < c < 256 →
  ∃ r, strchr d c m = Ok (r, m) ∧ (r =? NULL) = bool_decide (c ∉ ds).
Proof.
  intros Hds Hc. destruct (strchr_ok m d ds c Hd Hds) as (r & Hrun & Hr); [lia|]. exists r. split; [done|].
  rewrite Hr. apply bool_decide_ext. naive_solver lia.
Qed.
Lemma null_test m : cstr m d ds → ∃ r, strchr d 0 m = Ok (r, m) ∧ (r =? NULL) = false.
Proof.
  intros Hds. destruct (strchr_ok m d ds 0 Hd Hds) as (r & Hrun & Hr); [lia|]. exists r. split; [done|].
  rewrite Hr. apply bool_decide_eq_false. naive_solver.
Qed.

Lemma skip_delimiters_ok m : cstr m d ds → ∀ pre a s fuel,
  cstr m a (pre ++ s) → Forall (λ c, c ∈ ds) pre → match s with [] => True | c :: _ => c ∉ ds end →
  (length pre ≤ fuel)%nat →
  skip_delimiters fuel a d m = Ok ((a + Z.of_nat (length pre), negb (bool_decide (s = []))), m).
Proof.
  intros Hds. induction pre as [|c pre IH]; intros a s fuel Hs Hpre Hnd Hf; simpl in *.
  - rewrite Z.add_0_r. destruct s as [|c s].
    + apply cstr_nil in Hs. destruct (null_test m Hds) as (r & Hr & Er).
      destruct fuel; simpl; run_load Hs; run_with Hr; rewrite Er; done.
    + apply cstr_cons in Hs as (Hc & Hcr & _). destruct (delimiter_test m c Hds Hcr) as (r & Hr & Er).
      rewrite bool_decide_true in Er by done. destruct fuel; simpl; run_load Hc; run_with Hr; rewrite Er; done.
  - destruct fuel as [|fuel]; [lia|]. apply Forall_cons in Hpre as [Hc Hpre].
    apply cstr_cons in Hs as (Hx & Hcr & Hs). destruct (delimiter_test m c Hds Hcr) as (r & Hr & Er).
    rewrite bool_decide_false in Er by naive_solver. simpl. run_load Hx. run_with Hr. rewrite Er. cbn [negb].
    rewrite (proj2 (Z.eqb_neq c 0)) by lia. rewrite (IH (a + 1) s fuel) by (done || lia). do 3 f_equal. lia.
Qed.

Lemma skip_token_ok m : cstr m d ds → ∀ w a s fuel,
  cstr m a (w ++ s) → Forall (λ c, c ∉ ds) w → match s with [] => True | c :: _ => c ∈ ds end →
  (length w ≤ fuel)%nat → skip_token fuel a d m = Ok (a + Z.of_nat (length w), m).
Proof.
  intros Hds. induction w as [|c w IH]; intros a s fuel Hs Hw Hnd Hf; simpl in *.
  - rewrite Z.add_0_r. destruct s as [|c s].
    + apply cstr_nil in Hs. destruct (null_test m Hds) as (r & Hr & Er).
      destruct fuel; simpl; run_load Hs; run_with Hr; rewrite Er; done.
    + apply cstr_cons in Hs as (Hc & Hcr & _). destruct (delimiter_test m c Hds Hcr) as (r & Hr & Er).
      rewrite bool_decide_false in Er by naive_solver. destruct fuel; simpl; run_load Hc; run_with Hr; rewrite Er; done.
  - destruct fuel as [|fuel]; [lia|]. apply Forall_cons in Hw as [Hc Hw].
    apply cstr_cons in Hs as (Hx & Hcr & Hs). destruct (delimiter_test m c Hds Hcr) as (r & Hr & Er).
    rewrite bool_decide_true in Er by done. simpl. run_load Hx. run_with Hr. rewrite Er.
    rewrite (IH (a + 1) s fuel) by (done || lia). do 2 f_equal. lia.
Qed.

(** The delimiters are not inside the string that is taken apart. *)
Definition apart (a n : Z) : Prop := d + Z.of_nat (length ds) < a ∨ a + n < d.

Lemma cstr_ext m m' a s : (∀ i : nat, (i ≤ length s)%nat → m' !! (a + Z.of_nat i) = m !! (a + Z.of_nat i)) →
  cstr m a s → cstr m' a s.
Proof.
  intros H [Hb Hf]. split; [|done]. intros i x Hi. rewrite H; [by apply Hb|].
  apply lookup_lt_Some in Hi. rewrite length_app in Hi. simpl in Hi. lia.
Qed.

(** Cutting a string in two. *)
Lemma cstr_cut m a w c s :
  cstr m a (w ++ c :: s) →
  let p := a + Z.of_nat (length w) in
  m !! p = Some c ∧ c ≠ 0 ∧ cstr (<[p := 0]> m) a w ∧ cstr (<[p := 0]> m) (p + 1) s.
Proof.
  intros Hs p. destruct (Hs) as [Hb Hf]. apply Forall_app in Hf as [Hw Hcs]. apply Forall_cons in Hcs as [Hc _].
  assert (Hrest := cstr_app m a w (c :: s) Hs). apply cstr_cons in Hrest as (Hp & _ & Hrest).
  split_and!; [done|lia| |].
  - split; [|done]. apply bytes_at_app. rewrite <- (assoc_L (++)) in Hb. apply bytes_at_app in Hb as [Hb _]. split.
    + intros i x Hi. rewrite lookup_insert_ne; [by apply Hb|]. apply lookup_lt_Some in Hi. unfold p. lia.
    + apply bytes_at_cons. split; [apply lookup_insert_eq|apply bytes_at_nil].
  - eapply cstr_ext; [|exact Hrest]. intros i _. apply lookup_insert_ne. lia.
Qed.

(** One call: the token it returns, what it saves, and what it writes. *)
Lemma strtok_r_ok m a s first save :
  cstr m d ds → 0 < a → cstr m a s → apart a (Z.of_nat (length s)) →
  (if first =? NULL then save else first) = a →
  (words s = [] ∧ strtok_r first d save m = Ok ((NULL, a + Z.of_nat (length s)), m)) ∨
  ∃ t w m' a' s', strtok_r first d save m = Ok ((t, a'), m') ∧ words s = w :: words s' ∧
    cstr m' t w ∧ cstr m' a' s' ∧ cstr m' d ds ∧ same_outside m m' a (Z.of_nat (length s)) ∧
    a ≤ t ∧ t + Z.of_nat (length w) < a' + (if decide (s' = []) then 1 else 0) ∧
    a < a' ∧ a' + Z.of_nat (length s') = a + Z.of_nat (length s) ∧ (∀ p, p ≤ t → m' !! p = m !! p).
Proof.
  intros Hds Ha Hs Hap Hfirst. unfold strtok_r, assert_nonnull.
  run_assert; [|apply negb_true_iff, Z.eqb_neq; unfold NULL; lia]. rewrite Hfirst.
  run_assert; [|apply negb_true_iff, Z.eqb_neq; unfold NULL; lia]. erewrite run_bind_ok by reflexivity.
  destruct (span_split (λ c, c ∈ ds) s) as (pre & s1 & -> & Hpre & Hs1).
  assert (Hfuel := cstr_fuel m a _ Hs). rewrite length_app in *.
  erewrite run_bind_ok by (apply (skip_delimiters_ok m Hds pre a s1); [done|done|by destruct s1|lia]).
  rewrite (words_skip pre s1 Hpre). destruct s1 as [|c0 s1].
  { left. split; [done|]. simpl. by rewrite Nat.add_0_r. }
  right. cbn [negb bool_decide decide decide_rel]. rewrite bool_decide_false by done. cbn [negb].
  destruct (span_split (λ c, c ∉ ds) (c0 :: s1)) as (w & s2 & Ew & Hw & Hs2).
  assert (Hne : w ≠ []) by (intros ->; simpl in Ew; subst s2; done).
  rewrite Ew in *. assert (Hs' := cstr_app m a pre _ Hs). set (t := a + Z.of_nat (length pre)) in *.
  rewrite length_app in *. assert (0 < length w)%nat by (destruct w; simpl; [done|lia]).
  erewrite run_bind_ok.
  2: { apply (skip_token_ok m Hds w t s2); [done|done| |lia]. destruct s2; [done|]. by apply dec_stable. }
  set (e := t + Z.of_nat (length w)). rewrite (words_token w s2 Hne Hw). destruct s2 as [|c2 s3].
  - assert (He : m !! e = Some 0) by (exact (proj1 (cstr_nil m e) (cstr_app m t w [] Hs'))). run_load He.
    rewrite app_nil_r in Hs'. exists t, w, m, e, []. simpl. unfold e, t in *. split_and!; try done; try lia.
    by apply cstr_nil.
  - rewrite decide_True by (by apply dec_stable). destruct (cstr_cut m t w c2 s3 Hs') as (Hc2 & Hz & Ht & Hr).
    run_load Hc2. rewrite (proj2 (Z.eqb_neq c2 0)) by done. cbn [negb]. erewrite run_bind_ok by (by eapply mem_store_ok).
    assert (Hsame : same_outside m (<[e := 0]> m) a (Z.of_nat (length pre + (length w + length (c2 :: s3))))).
    { intros p Hp. apply lookup_insert_ne. unfold e, t in *. simpl in Hp. lia. }
    exists t, w, (<[e := 0]> m), (e + 1), s3. split_and!; try done.
    + eapply cstr_outside; [exact Hsame|exact Hds|]. unfold apart in Hap. lia.
    + unfold t. lia.
    + unfold e. destruct (decide (s3 = [])); lia.
    + unfold e, t. lia.
    + unfold e, t. simpl. lia.
    + intros p Hp. apply lookup_insert_ne. unfold e. lia.
Qed.

(** The loop of the comment on [strtok_r]: all the tokens, in order. *)
Fixpoint token_loop (fuel : nat) (first save : Z) : M (list Z) :=
  match fuel with
  | O => fail Timeout
  | S fuel =>
    r ← strtok_r first d save;
    if r.1 =? NULL then mret [] else l ← token_loop fuel NULL r.2; mret (r.1 :: l)
  end.

Lemma token_loop_ok fuel : ∀ m a s first save,
  cstr m d ds → 0 < a → cstr m a s → apart a (Z.of_nat (length s)) →
  (if first =? NULL then save else first) = a → (length s < fuel)%nat →
  ∃ m' l, token_loop fuel first save m = Ok (l, m') ∧ Forall2 (cstr m') l (words s) ∧
    same_outside m m' a (Z.of_nat (length s)).
Proof.
  induction fuel as [|fuel IH]; intros m a s first save Hds Ha Hs Hap Hfirst Hf; [lia|]. simpl.
  destruct (strtok_r_ok m a s first save Hds Ha Hs Hap Hfirst)
    as [[Ew Hrun]|(t & w & m1 & a1 & s1 & Hrun & Ew & Ht & Hs1 & Hds1 & Ho1 & Hta & Htw & Haa & Hlen & _)].
  - run_with Hrun. simpl. exists m, []. rewrite Ew. split_and!; [done|constructor|by intros p _].
  - run_with Hrun. cbn [fst snd]. rewrite (proj2 (Z.eqb_neq t NULL)) by (unfold NULL; lia).
    destruct (IH m1 a1 s1 NULL a1) as (m' & l & Hrun2 & Hl & Ho2);
      [done|lia|done|unfold apart in *; lia|done|lia|].
    run_with Hrun2. exists m', (t :: l). rewrite Ew. split_and!; [done| |].
    + constructor; [|done]. destruct s1 as [|c s1].
      * eapply cstr_ext; [|exact Ht]. intros i _. apply Ho2. simpl. lia.
      * eapply cstr_outside; [exact Ho2|exact Ht|]. left. rewrite decide_False in Htw by done. lia.
    + eapply same_outside_trans; [exact Ho1|exact Ho2|lia..].
Qed.
End tokens.

(** The memory between two calls of [strtok_r] with the delimiters [ds] at [d]:
    the last token is [w], what is left is [rest]. *)
Record between (d : Z) (ds : list Z) (m : mem) (token : Z) (w : list Z) (save : Z) (rest : list Z) : Prop := Between {
  bt_delimiters : cstr m d ds;
  bt_token : cstr m token w;
  bt_save : cstr m save rest;
  bt_pos : d + Z.of_nat (length ds) < save ∧ token ≠ NULL;
  bt_before : token + Z.of_nat (length w) < save ∨ rest = [];
}.

Lemma next_token d ds (Hd : 0 < d) m token w save rest : between d ds m token w save rest →
  (words ds rest = [] ∧ strtok_r NULL d save m = Ok ((NULL, save + Z.of_nat (length rest)), m)) ∨
  ∃ t w' m' save' rest', strtok_r NULL d save m = Ok ((t, save'), m') ∧
    words ds rest = w' :: words ds rest' ∧ cstr m' token w ∧ between d ds m' t w' save' rest' ∧
    (length rest' < length rest)%nat.
Proof.
  intros [H1 H2 H3 [H4 H4'] H5].
  destruct (strtok_r_ok d ds Hd m save rest NULL save H1 ltac:(lia) H3 (or_introl H4) eq_refl)
    as [[Ew Hrun]|(t & w' & m' & a' & s' & Hrun & Ew & Ht & Hs' & Hds & Hsame & Hat & Htw & Haa & Hlen & Hle)].
  - by left.
  - right. exists t, w', m', a', s'. split; [done|]. split; [done|]. split; [|split].
    + destruct H5 as [H5| ->]; [|by simpl in Ew]. eapply cstr_outside; [exact Hsame|exact H2|]. lia.
    + split; try done; [split; [lia|unfold NULL; lia]|]. destruct (decide (s' = [])); [by right|left; lia].
    + lia.
Qed.

Lemma token_mem_delimiter c s : 0 < c < 256 → cstr (token_mem c s) delimiter [c].
Proof.
  intros Hc. split; [|by apply Forall_singleton]. intros i x Hi. unfold token_mem. cbn [list_to_map foldr fst snd].
  destruct i as [|[|i]]; simpl in Hi; [| |done]; injection Hi as <-.
  - by rewrite Z.add_0_r, lookup_insert_eq.
  - rewrite lookup_insert_ne by done. by rewrite lookup_insert_eq.
Qed.

Lemma imap_bytes_at (l : list Z) (k : nat) (a : Z) i x : l !! i = Some x →
  (list_to_map (imap (λ j c, (a + Z.of_nat (k + j), c)) l) : gmap Z Z) !! (a + Z.of_nat (k + i)) = Some x.
Proof.
  revert k i. induction l as [|y l IH]; intros k i Hi; [done|]. cbn [imap list_to_map foldr fst snd].
  destruct i as [|i].
  - injection Hi as ->. by rewrite lookup_insert_eq.
  - rewrite lookup_insert_ne by lia. specialize (IH (S k) i Hi).
    replace (k + S i)%nat with (S k + i)%nat by lia. rewrite <- IH. f_equal.
    f_equal. apply imap_ext. intros j c _. simpl. do 2 f_equal. lia.
Qed.

Lemma token_mem_buffer c s : Forall (λ x, 0 < x < 256) s → cstr (token_mem c s) buffer s.
Proof.
  intros Hs. split; [|done]. intros i x Hi. unfold token_mem. cbn [list_to_map foldr fst snd].
  rewrite !lookup_insert_ne by (unfold buffer, delimiter; lia). by apply (imap_bytes_at (s ++ [0]) 0 buffer).
Qed.

(** The first call of [strtok_r] on the buffer. *)
Lemma tokens_start c s : 0 < c < 256 → Forall (λ x, 0 < x < 256) s →
  ∃ t save m, strtok_r buffer delimiter NULL (token_mem c s) = Ok ((t, save), m) ∧
    (∀ p, p ≤ buffer → m !! p = token_mem c s !! p) ∧
    ((words [c] s = [] ∧ t = NULL ∧ m = token_mem c s) ∨
     ∃ w rest, words [c] s = w :: words [c] rest ∧ between delimiter [c] m t w save rest ∧ (length rest < length s)%nat).
Proof.
  intros Hc Hs.
  destruct (strtok_r_ok delimiter [c] ltac:(done) (token_mem c s) buffer s buffer NULL
              (token_mem_delimiter c s Hc) ltac:(done) (token_mem_buffer c s Hs) (or_introl (eq_refl : delimiter + 1 < buffer)) eq_refl)
    as [[Ew Hrun]|(t & w & m & a & s' & Hrun & Ew & Ht & Hs' & Hds & Hsame & Hat & Htw & Haa & Hlen & Hle)].
  - exists NULL. eexists _, _. split; [exact Hrun|]. split; [done|]. by left.
  - exists t, a, m. split; [done|]. split; [intros p Hp; apply Hle; lia|]. right.
    exists w, s'. split; [done|]. unfold buffer, delimiter, NULL in *. split; [|lia].
    split; try done; [unfold NULL; simpl; lia|]. destruct (decide (s' = [])); [by right|left; lia].
Qed.

Lemma string_loop_ok m s : ∀ p fuel, cstr m p s → (length s ≤ fuel)%nat → string_loop fuel m p = Ok s.
Proof.
  induction s as [|c s IH]; intros p fuel Hs Hf.
  - apply cstr_nil in Hs. destruct fuel; simpl; by rewrite Hs.
  - apply cstr_cons in Hs as (Hc & Hr & Hs). simpl in Hf. destruct fuel as [|fuel]; [lia|]. simpl. rewrite Hc.
    rewrite (proj2 (Z.eqb_neq c 0)) by lia. by rewrite (IH (p + 1) fuel) by (done || lia).
Qed.
Lemma string_at_ok m p s : cstr m p s → string_at m p = Ok s.
Proof. intros H. apply string_loop_ok; [done|]. apply cstr_fuel in H. lia. Qed.


(** Taking a string apart with [strtok_r], as its comment shows, always
    ends, and the tokens it returns are exactly the maximal runs of
    characters that are not delimiters, in order, each a proper string in the
    memory it leaves; it writes nothing outside the string. *)
Theorem strtok_r_tokens m a s d ds :
  0 < d → 0 < a → cstr m d ds → cstr m a s → apart d ds a (Z.of_nat (length s)) →
  ∃ m' l, token_loop d (S (length s)) a NULL m = Ok (l, m') ∧ Forall2 (cstr m') l (words ds s) ∧
    same_outside m m' a (Z.of_nat (length s)).
Proof.
  intros Hd Ha Hds Hs Hap. apply (token_loop_ok d ds Hd); try done; [|lia].
  by rewrite (proj2 (Z.eqb_neq a NULL)) by (unfold NULL; lia).
Qed.

(** ["/a//bc"] at address 10 with the delimiter string ["/"] at address 5. *)
Definition demo_mem : mem := list_to_map
  [(5, 47); (6, 0); (10, 47); (11, 97); (12, 47); (13, 47); (14, 98); (15, 99); (16, 0)].
Lemma demo_bytes a l : forallb (λ '(i, x), bool_decide (demo_mem !! (a + Z.of_nat i) = Some x)) (imap pair l) = true →
  bytes_at demo_mem a l.
Proof.
  intros H i x Hi. rewrite forallb_forall in H. specialize (H (i, x)).
  apply (bool_decide_unpack _), Is_true_true, H, list_elem_of_In, elem_of_lookup_imap. eauto.
Qed.
Lemma strtok_r_tokens_witness :
  ∃ m' l, token_loop 5 7 10 NULL demo_mem = Ok (l, m') ∧ Forall2 (cstr m') l [[97]; [98; 99]] ∧
    same_outside demo_mem m' 10 6.
Proof.
  apply (strtok_r_tokens demo_mem 10 [47; 97; 47; 47; 98; 99] 5 [47]); [lia|lia| | |left; simpl; lia].
  - split; [by apply demo_bytes|repeat constructor; lia].
  - split; [by apply demo_bytes|repeat constructor; lia].
Defined.

(** ** Copying *)

(** The addresses from [a] to [a + n - 1] may be accessed. *)
Definition mapped (m : mem) (a : Z) (n : nat) : Prop := ∀ i, (i < n)%nat → is_Some (m !! (a + Z.of_nat i)).

Lemma mapped_insert m a n p v : mapped m a n → mapped (<[p := v]> m) a n.
Proof. intros H i Hi. apply lookup_insert_is_Some'. right. auto. Qed.
Lemma mapped_S m a n : mapped m a (S n) → is_Some (m !! a) ∧ mapped m (a + 1) n ∧ mapped m a n ∧ is_Some (m !! (a + Z.of_nat n)).
Proof.
  intros H. split_and!.
  - specialize (H 0%nat ltac:(lia)). by rewrite Z.add_0_r in H.
  - intros i Hi. specialize (H (S i) ltac:(lia)). by replace (a + 1 + Z.of_nat i) with (a + Z.of_nat (S i)) by lia.
  - intros i Hi. apply H. lia.
  - apply H. lia.
Qed.

(** Copying upwards is right unless the destination overlaps the end of the
    source. *)
Lemma copy_up_ok l : ∀ m dst src,
  bytes_at m src l → mapped m dst (length l) → dst ≤ src ∨ src + Z.of_nat (length l) ≤ dst →
  ∃ m', copy_up (length l) dst src m = Ok (dst + Z.of_nat (length l), m') ∧ bytes_at m' dst l ∧
    same_outside m m' dst (Z.of_nat (length l)).
Proof.
  induction l as [|x l IH]; intros m dst src Hb Hm Hd; simpl.
  { exists m. rewrite Z.add_0_r. split_and!; [done|apply bytes_at_nil|by intros p _]. }
  apply bytes_at_cons in Hb as [Hx Hb]. apply mapped_S in Hm as ([y Hy] & Hm & _). simpl in Hd.
  run_load Hx. erewrite run_bind_ok by (by eapply mem_store_ok).
  destruct (IH (<[dst := x]> m) (dst + 1) (src + 1)) as (m' & Hrun & Hb' & Ho).
  - intros i z Hi. rewrite lookup_insert_ne; [by apply Hb|]. apply lookup_lt_Some in Hi. lia.
  - by apply mapped_insert.
  - lia.
  - exists m'. rewrite Hrun. split_and!.
    + do 2 f_equal. lia.
    + apply bytes_at_cons. split; [|done]. rewrite Ho by lia. apply lookup_insert_eq.
    + intros p Hp. rewrite Ho by lia. apply lookup_insert_ne. lia.
Qed.
(** Downwards, unless it overlaps the start. *)
Lemma copy_down_ok l : ∀ m dst src,
  bytes_at m src l → mapped m dst (length l) → src ≤ dst →
  ∃ m', copy_down (length l) (dst + Z.of_nat (length l)) (src + Z.of_nat (length l)) m = Ok (dst, m') ∧
    bytes_at m' dst l ∧ same_outside m m' dst (Z.of_nat (length l)).
Proof.
  induction l as [|x l IH] using rev_ind; intros m dst src Hb Hm Hd.
  { exists m. simpl. rewrite Z.add_0_r. split_and!; [done|apply bytes_at_nil|by intros p _]. }
  apply bytes_at_app in Hb as [Hb Hx]. apply bytes_at_cons in Hx as [Hx _].
  rewrite length_app, Nat.add_comm in *. simpl in *. apply mapped_S in Hm as (_ & _ & Hm & [y Hy]).
  replace (src + Z.of_nat (S (length l)) - 1) with (src + Z.of_nat (length l)) by lia.
  replace (dst + Z.of_nat (S (length l)) - 1) with (dst + Z.of_nat (length l)) by lia.
  run_load Hx. erewrite run_bind_ok by (by eapply mem_store_ok). set (p := dst + Z.of_nat (length l)) in *.
  destruct (IH (<[p := x]> m) dst src) as (m' & Hrun & Hb' & Ho).
  - intros i z Hi. rewrite lookup_insert_ne; [by apply Hb|]. apply lookup_lt_Some in Hi. lia.
  - by apply mapped_insert.
  - done.
  - exists m'. split_and!; [done| |].
    + apply bytes_at_app. split; [done|]. apply bytes_at_cons. split; [|apply bytes_at_nil].
      rewrite Ho by lia. apply lookup_insert_eq.
    + intros k Hk. rewrite Ho by lia. apply lookup_insert_ne. lia.
Qed.

Lemma assert_block_ok p n m : p ≠ NULL → assert_block p n m = Ok (tt, m).
Proof. intros H. unfold assert_block. rewrite (proj2 (Z.eqb_neq p NULL)) by done. done. Qed.

(** [memmove] copies correctly however the blocks overlap: the
    destination holds what the source held, and nothing else changes.  The
    pointer it returns is the destination only when it copied downwards; when
    it copied upwards it is the end of the destination, unlike what its
    comment says. *)
Theorem memmove_correct m dst src l :
  dst ≠ NULL → src ≠ NULL → bytes_at m src l → mapped m dst (length l) →
  ∃ m', memmove dst src (Z.of_nat (length l)) m =
      Ok ((if dst <? src then dst + Z.of_nat (length l) else dst), m') ∧
    bytes_at m' dst l ∧ same_outside m m' dst (Z.of_nat (length l)).
Proof.
  intros Hd Hs Hb Hm. unfold memmove. erewrite run_bind_ok by (by apply assert_block_ok).
  erewrite run_bind_ok by (by apply assert_block_ok). rewrite Nat2Z.id.
  destruct (Z.ltb_spec dst src); [apply copy_up_ok|apply copy_down_ok]; (done || lia).
Qed.

Lemma memmove_correct_witness :
  ∃ m', memmove 12 11 3 demo_mem = Ok (12, m') ∧ bytes_at m' 12 [97; 47; 47] ∧ same_outside demo_mem m' 12 3.
Proof.
  apply (memmove_correct demo_mem 12 11 [97; 47; 47]); [done|done|by apply demo_bytes|].
  intros i Hi. do 3 (destruct i as [|i]; [eexists; vm_compute; reflexivity|]). simpl in Hi. lia.
Defined.

Lemma memcpy_ok m dst src l :
  dst ≠ NULL → src ≠ NULL → bytes_at m src l → mapped m dst (length l) →
  src + Z.of_nat (length l) ≤ dst ∨ dst + Z.of_nat (length l) ≤ src →
  ∃ m', memcpy dst src (Z.of_nat (length l)) m = Ok (dst, m') ∧
    bytes_at m' dst l ∧ same_outside m m' dst (Z.of_nat (length l)).
Proof.
  intros Hd Hs Hb Hm Hdis. unfold memcpy. erewrite run_bind_ok by (by apply assert_block_ok).
  erewrite run_bind_ok by (by apply assert_block_ok). rewrite Nat2Z.id.
  destruct (copy_up_ok l m dst src Hb Hm) as (m' & Hrun & H); [lia|]. run_with Hrun. by exists m'.
Qed.

(** [strlcpy] never writes beyond the [size] bytes it is given, always
    terminates what it writes, and stores the longest prefix that fits; it
    returns the length of the source, so that a caller can tell that the copy
    was cut. *)
Theorem strlcpy_correct m dst src s size :
  dst ≠ NULL → src ≠ NULL → 0 < size → cstr m src s → mapped m dst (Z.to_nat size) →
  src + Z.of_nat (length s) < dst ∨ dst + size ≤ src →
  ∃ m', strlcpy dst src size m = Ok (Z.of_nat (length s), m') ∧
    cstr m' dst (take (Z.to_nat (size - 1)) s) ∧ same_outside m m' dst size.
Proof.
  intros Hd Hs Hsz Hc Hm Hdis. unfold strlcpy, assert_nonnull.
  run_assert; [|by apply negb_true_iff, Z.eqb_neq]. run_assert; [|by apply negb_true_iff, Z.eqb_neq].
  erewrite run_bind_ok by (by apply strlen_ok). rewrite (proj2 (Z.ltb_lt 0 size)) by done.
  set (l := take (Z.to_nat (size - 1)) s).
  assert (Hl : (length l = Nat.min (Z.to_nat (size - 1)) (length s))%nat) by apply length_take.
  assert (E : (if Z.of_nat (length s) <? size - 1 then Z.of_nat (length s) else size - 1) = Z.of_nat (length l))
    by (bcase; lia). rewrite E.
  destruct (Hc) as [Hb Hf]. apply bytes_at_app in Hb as [Hb _].
  assert (Hbl : bytes_at m src l) by (intros i x Hi; apply Hb; by apply lookup_take_Some in Hi as [Hi _]).
  assert (Hml : mapped m dst (length l)) by (intros i Hi; apply Hm; lia).
  destruct (memcpy_ok m dst src l Hd Hs Hbl Hml) as (m1 & Hrun & Hb1 & Ho1); [lia|].
  destruct (Hm (length l)) as [y Hy]; [lia|]. rewrite <- Ho1 in Hy by lia.
  erewrite run_bind_ok by (run_with Hrun; by eapply mem_store_ok).
  eexists. split; [reflexivity|]. split; [split|].
  - apply bytes_at_app. split.
    + intros i x Hi. rewrite lookup_insert_ne; [by apply Hb1|]. apply lookup_lt_Some in Hi. lia.
    + apply bytes_at_cons. split; [apply lookup_insert_eq|apply bytes_at_nil].
  - by apply Forall_take.
  - intros p Hp. rewrite lookup_insert_ne by lia. apply Ho1. lia.
Qed.

(** ["/"] from address 5 into the two bytes at 13. *)
Lemma strlcpy_correct_witness :
  (∃ m', strlcpy 13 5 2 demo_mem = Ok (1, m') ∧ cstr m' 13 [47] ∧ same_outside demo_mem m' 13 2).
Proof.
  apply (strlcpy_correct demo_mem 13 5 [47] 2); [done|done|lia| | |left; simpl; lia].
  - split; [by apply demo_bytes|repeat constructor; lia].
  - intros i Hi. do 2 (destruct i as [|i]; [eexists; vm_compute; reflexivity|]). simpl in Hi. lia.
Defined.
