(* ===== verification/Stdio.v ===== *)
(** * Formatted output and the console

    [src/pintos/lib/stdio.c] and [src/pintos/lib/kernel/console.c].  A string
    is the sequence of its characters without the null character at its end;
    reading on behind that is a [Fault].  The arguments of a variadic function
    are words of the stack: one for an [int] or a pointer, two for a 64-bit
    integer; a string argument stands for the pointer to it.  [output], the
    function that takes the characters, is code in any state. *)
From S2P Require Import Prelude CInt CString CStdlib.
From stdpp Require Import strings.

Open Scope Z_scope.

Module Stdio.

(** The characters of a literal. *)
Definition chars (l : string) : list Z := (λ a, Z.of_N (Ascii.N_of_ascii a)) <$> String.list_ascii_of_string l.

(** ** Arguments *)
Inductive arg := Int (w : Z) | Wide (w : Z) | Str (p : option (list Z)).

Definition va_word (args : list arg) : res (Z * list arg) :=
  match args with Int w :: args => Ok (w, args) | _ => Err Fault end.
Definition va_wide (args : list arg) : res (Z * list arg) :=
  match args with Wide w :: args => Ok (w, args) | _ => Err Fault end.
Definition va_string (args : list arg) : res (option (list Z) * list arg) :=
  match args with Str p :: args => Ok (p, args) | _ => Err Fault end.

(** ** Conversions *)
Definition MINUS : Z := Z.shiftl 1 0.
Definition PLUS : Z := Z.shiftl 1 1.
Definition SPACE : Z := Z.shiftl 1 2.
Definition POUND : Z := Z.shiftl 1 3.
Definition ZERO : Z := Z.shiftl 1 4.
Definition GROUP : Z := Z.shiftl 1 5.

Inductive arg_type := CHAR | SHORT | INT | INTMAX | LONG | LONGLONG | PTRDIFFT | SIZET.

Record printf_conversion := MkConversion { flags : Z; width : Z; precision : Z; type : arg_type }.

Definition has (fl f : Z) : bool := negb (Z.land fl f =? 0).

Record integer_base := MkBase { base : Z; digits : list Z; x_char : Z; group : Z }.
Definition base_d : integer_base := MkBase 10 (chars "0123456789") 0 3.
Definition base_o : integer_base := MkBase 8 (chars "01234567") 0 3.
Definition base_x : integer_base := MkBase 16 (chars "0123456789abcdef") 120 4.
Definition base_X : integer_base := MkBase 16 (chars "0123456789ABCDEF") 88 4.

(** The flag that a character stands for. *)
Definition flag_of (ch : Z) : option Z :=
  if ch =? 45 then Some MINUS else if ch =? 43 then Some PLUS else if ch =? 32 then Some SPACE
  else if ch =? 35 then Some POUND else if ch =? 48 then Some ZERO else if ch =? 39 then Some GROUP else None.
Fixpoint parse_flags (format : list Z) (fl : Z) : Z * list Z :=
  match format with
  | ch :: rest => match flag_of ch with Some f => parse_flags rest (Z.lor fl f) | None => (fl, format) end
  | [] => (fl, [])
  end.

(** [for (; isdigit ( *format); format++) n = n * 10 + *format - '0']. *)
Fixpoint parse_number (format : list Z) (n : Z) : Z * list Z :=
  match format with
  | ch :: rest => if CStdlib.isdigit ch then parse_number rest (s32 (s32 (n * 10) + ch - 48)) else (n, format)
  | [] => (n, [])
  end.

(** A number or [*], which takes it from the arguments. *)
Definition parse_field (format : list Z) (args : list arg) : res (Z * list Z * list arg) :=
  match format with
  | 42 :: rest => match va_word args with Ok (w, args) => Ok (s32 w, rest, args) | Err e => Err e end
  | _ => let '(n, rest) := parse_number format 0 in Ok (n, rest, args)
  end.

Definition parse_type (format : list Z) : arg_type * list Z :=
  match format with
  | 104 :: 104 :: rest => (CHAR, rest)
  | 104 :: rest => (SHORT, rest)
  | 106 :: rest => (INTMAX, rest)
  | 108 :: 108 :: rest => (LONGLONG, rest)
  | 108 :: rest => (LONG, rest)
  | 116 :: rest => (PTRDIFFT, rest)
  | 122 :: rest => (SIZET, rest)
  | _ => (INT, format)
  end.

Definition parse_conversion (format : list Z) (args : list arg) : res (printf_conversion * list Z * list arg) :=
  let '(fl, format) := parse_flags format 0 in
  let fl := if has fl MINUS then Z.ldiff fl ZERO else fl in
  let fl := if has fl PLUS then Z.ldiff fl SPACE else fl in
  match parse_field format args with
  | Err e => Err e
  | Ok (w, format, args) =>
    let '(w, fl) := if w <? 0 then (s32 (- w), Z.lor fl MINUS) else (w, fl) in
    match (match format with
           | 46 :: format =>
             match parse_field format args with
             | Ok (p, format, args) => Ok (if p <? 0 then -1 else p, format, args)
             | Err e => Err e
             end
           | _ => Ok (-1, format, args)
           end) with
    | Err e => Err e
    | Ok (p, format, args) =>
      let fl := if 0 <=? p then Z.ldiff fl ZERO else fl in
      let '(t, format) := parse_type format in
      Ok (MkConversion fl w p t, format, args)
    end
  end.

(** ** Integers *)

(** [*cp++ = ch], in a buffer of 64 characters. *)
Definition push (ch : Z) (buf : list Z) : res (list Z) :=
  if (length buf <? 64)%nat then Ok (buf ++ [ch]) else Err Fault.

(** The digits, the last one first. *)
Fixpoint digits_loop (fuel : nat) (b : integer_base) (fl value digit_cnt : Z) (buf : list Z) : res (list Z) :=
  if negb (0 <? value) then Ok buf else
  match fuel with
  | O => Err Timeout
  | S fuel =>
    match (if has fl GROUP && (0 <? digit_cnt) && (Z.rem digit_cnt (group b) =? 0) then push 44 buf else Ok buf) with
    | Err e => Err e
    | Ok buf =>
      match digits b !! Z.to_nat (value mod base b) with
      | None => Err Fault
      | Some d =>
        match push d buf with
        | Err e => Err e
        | Ok buf => digits_loop fuel b fl (value / base b) (digit_cnt + 1) buf
        end
      end
    end
  end.

Fixpoint zeros_loop (fuel : nat) (p : Z) (buf : list Z) : res (list Z) :=
  if negb ((Z.of_nat (length buf) <? p) && (Z.of_nat (length buf) <? 63)) then Ok buf else
  match fuel with
  | O => Err Timeout
  | S fuel => match push 48 buf with Ok buf => zeros_loop fuel p buf | Err e => Err e end
  end.

(** The sign character, or 0. *)
Definition sign_char (is_signed negative : bool) (fl : Z) : Z :=
  if is_signed then
    if has fl PLUS then (if negative then 45 else 43)
    else if has fl SPACE then (if negative then 45 else 32)
    else if negative then 45 else 0
  else 0.

(** What the buffer holds in the end. *)
Definition integer_buf (value : Z) (b : integer_base) (c : printf_conversion) : res (list Z) :=
  match digits_loop 64 b (flags c) value 0 [] with
  | Err e => Err e
  | Ok buf =>
    let p := if precision c <? 0 then 1 else precision c in
    match zeros_loop 64 p buf with
    | Err e => Err e
    | Ok buf =>
      if has (flags c) POUND && (base b =? 8) && (match last buf with None => true | Some ch => negb (ch =? 48) end)
      then push 48 buf else Ok buf
    end
  end.

Section output.
Context {A : Type} (output : Z → ST A unit).
Abbreviation M := (ST A).

Fixpoint output_all (l : list Z) : M unit :=
  match l with [] => mret tt | ch :: l => output ch ;; output_all l end.

Fixpoint output_dup (ch : Z) (cnt : nat) : M unit :=
  match cnt with O => mret tt | S cnt => output ch ;; output_dup ch cnt end.

Definition format_integer (value : Z) (is_signed negative : bool) (b : integer_base) (c : printf_conversion) : M unit :=
  let sign := sign_char is_signed negative (flags c) in
  let x := if has (flags c) POUND && negb (value =? 0) then x_char b else 0 in
  buf ← lift (integer_buf value b c);
  let pad_cnt := width c - Z.of_nat (length buf) - (if x =? 0 then 0 else 2) - (if sign =? 0 then 0 else 1) in
  let pad_cnt := Z.to_nat (if pad_cnt <? 0 then 0 else pad_cnt) in
  (if Z.land (flags c) (Z.lor MINUS ZERO) =? 0 then output_dup 32 pad_cnt else mret tt) ;;
  (if sign =? 0 then mret tt else output sign) ;;
  (if x =? 0 then mret tt else output 48 ;; output x) ;;
  (if has (flags c) ZERO then output_dup 48 pad_cnt else mret tt) ;;
  output_all (reverse buf) ;;
  if has (flags c) MINUS then output_dup 32 pad_cnt else mret tt.

Definition format_string (str : list Z) (length : Z) (c : printf_conversion) : M unit :=
  (if (length <? width c) && negb (has (flags c) MINUS) then output_dup 32 (Z.to_nat (width c - length)) else mret tt) ;;
  output_all (take (Z.to_nat length) str) ;;
  if (length <? width c) && has (flags c) MINUS then output_dup 32 (Z.to_nat (width c - length)) else mret tt.

(** The argument of a signed and of an unsigned conversion. *)
Definition s8 (x : Z) : Z := (x + 2 ^ 7) mod 2 ^ 8 - 2 ^ 7.
Definition s16 (x : Z) : Z := (x + 2 ^ 15) mod 2 ^ 16 - 2 ^ 15.
Definition signed_value (t : arg_type) (args : list arg) : res (Z * list arg) :=
  match t with
  | INTMAX | LONGLONG => match va_wide args with Ok (w, args) => Ok (s64 w, args) | Err e => Err e end
  | _ => match va_word args with
         | Err e => Err e
         | Ok (w, args) =>
           Ok (match t with
               | CHAR => s8 w
               | SHORT => s16 w
               | SIZET => if 2147483647 <? u32 w then u32 w - 4294967295 - 1 else u32 w
               | _ => s32 w
               end, args)
         end
  end.
Definition unsigned_value (t : arg_type) (args : list arg) : res (Z * list arg) :=
  match t with
  | INTMAX | LONGLONG => match va_wide args with Ok (w, args) => Ok (u64 w, args) | Err e => Err e end
  | _ => match va_word args with
         | Err e => Err e
         | Ok (w, args) => Ok (match t with CHAR => u8 w | SHORT => w mod 2 ^ 16 | _ => u32 w end, args)
         end
  end.

Definition no_in_kernel : list Z := chars "<<no %%%c in kernel>>".
Definition no_conversion : list Z := chars "<<no %%%c conversion>>".

(** The switch on the conversion character [ch]; [printf] is [__printf]. *)
Definition convert (printf : list Z → list arg → M unit) (ch : Z) (c : printf_conversion) (args : list arg) : M (list arg) :=
  if (ch =? 100) || (ch =? 105) then
    r ← lift (signed_value (type c) args); let '(value, args) := r in
    format_integer (u64 (if value <? 0 then - value else value)) true (value <? 0) base_d c ;; mret args
  else if (ch =? 111) || (ch =? 117) || (ch =? 120) || (ch =? 88) then
    r ← lift (unsigned_value (type c) args); let '(value, args) := r in
    let b := if ch =? 111 then base_o else if ch =? 117 then base_d else if ch =? 120 then base_x else base_X in
    format_integer value false false b c ;; mret args
  else if ch =? 99 then
    r ← lift (va_word args); let '(w, args) := r in format_string [u8 w] 1 c ;; mret args
  else if ch =? 115 then
    r ← lift (va_string args); let '(p, args) := r in
    let str := match p with Some str => str | None => chars "(null)" end in
    let len := if u32 (precision c) <? Z.of_nat (length str) then u32 (precision c) else Z.of_nat (length str) in
    format_string str (s32 len) c ;; mret args
  else if ch =? 112 then
    r ← lift (va_word args); let '(w, args) := r in
    format_integer (u32 w) false false base_x (MkConversion POUND (width c) (precision c) (type c)) ;; mret args
  else if (ch =? 102) || (ch =? 101) || (ch =? 69) || (ch =? 103) || (ch =? 71) || (ch =? 110) then
    printf no_in_kernel [Int ch] ;; mret args
  else printf no_conversion [Int ch] ;; mret args.

(** The loop of [__vprintf].  At the end of the format a conversion character
    is the null character, and the loop goes on behind it. *)
Fixpoint vprintf_loop (fuel : nat) (format : list Z) (args : list arg) : M unit :=
  match fuel with
  | O => fail Timeout
  | S fuel =>
    match format with
    | [] => mret tt
    | ch :: rest =>
      if negb (ch =? 37) then output ch ;; vprintf_loop fuel rest args else
      match rest with
      | 37 :: rest => output 37 ;; vprintf_loop fuel rest args
      | _ =>
        r ← lift (parse_conversion rest args); let '(c, format, args) := r in
        match format with
        | ch :: rest => args ← convert (vprintf_loop fuel) ch c args; vprintf_loop fuel rest args
        | [] => convert (vprintf_loop fuel) 0 c args ;; fail Fault
        end
      end
    end
  end.
Definition __vprintf (format : list Z) (args : list arg) : M unit := vprintf_loop (length format + 32) format args.
Definition __printf (format : list Z) (args : list arg) : M unit := __vprintf format args.
End output.

(** ** Output to a buffer *)
Record vsnprintf_aux := MkAux { buffer : CString.mem; p : Z; length_ : Z; max_length : Z }.

Definition vsnprintf_helper (ch : Z) : ST vsnprintf_aux unit :=
  a ← get;
  if length_ a <? max_length a then
    r ← lift (CString.store (p a) ch (buffer a)); let '(_, m) := r in
    put (MkAux m (p a + 1) (s32 (length_ a + 1)) (max_length a))
  else put (MkAux (buffer a) (p a) (s32 (length_ a + 1)) (max_length a)).

Definition vsnprintf (buf buf_size : Z) (format : list Z) (args : list arg) : ST CString.mem Z :=
  m ← get;
  let aux := MkAux m buf 0 (s32 (if 0 <? buf_size then buf_size - 1 else 0)) in
  r ← lift (__vprintf vsnprintf_helper format args aux); let '(_, a) := r in
  put (buffer a) ;;
  (if 0 <? buf_size then CString.store (p a) 0 else mret tt) ;;
  mret (length_ a).
Definition snprintf (buf buf_size : Z) (format : list Z) (args : list arg) : ST CString.mem Z := vsnprintf buf buf_size format args.

(** ** The console

    [screen] is what the serial port and the display have received; the lock
    has a holder. *)
Record console := MkConsole {
  console_lock : option Z; use_console_lock : bool; console_lock_depth : Z; write_cnt : Z; screen : list Z
}.

Section console.
Context (intr_context : bool) (cur : Z).
Abbreviation M := (ST console).

Definition console_init : M unit := modify (λ c, MkConsole None true (console_lock_depth c) (write_cnt c) (screen c)).
Definition console_panic : M unit := modify (λ c, MkConsole (console_lock c) false (console_lock_depth c) (write_cnt c) (screen c)).

Definition set_console_lock x c := MkConsole x (use_console_lock c) (console_lock_depth c) (write_cnt c) (screen c).
Definition set_depth x c := MkConsole (console_lock c) (use_console_lock c) x (write_cnt c) (screen c).

(** A thread that has to wait for the lock does not get past this point. *)
Definition acquire_console : M unit :=
  c ← get;
  if negb intr_context && use_console_lock c then
    if decide (console_lock c = Some cur) then modify (set_depth (console_lock_depth c + 1))
    else match console_lock c with Some _ => fail Timeout | None => modify (set_console_lock (Some cur)) end
  else mret tt.
Definition release_console : M unit :=
  c ← get;
  if negb intr_context && use_console_lock c then
    if 0 <? console_lock_depth c then modify (set_depth (console_lock_depth c - 1))
    else ASSERT (bool_decide (console_lock c = Some cur)) ;; modify (set_console_lock None)
  else mret tt.
Definition console_locked_by_current_thread : M bool :=
  gets (λ c, intr_context || negb (use_console_lock c) || bool_decide (console_lock c = Some cur)).

Definition putchar_have_lock (ch : Z) : M unit :=
  b ← console_locked_by_current_thread; ASSERT b ;;
  modify (λ c, MkConsole (console_lock c) (use_console_lock c) (console_lock_depth c) (s64 (write_cnt c + 1)) (screen c ++ [ch])).

Definition puts (str : list Z) : M Z :=
  acquire_console ;; output_all putchar_have_lock str ;; putchar_have_lock 10 ;; release_console ;; mret 0.
Definition putbuf (buf : list Z) : M unit :=
  acquire_console ;; output_all putchar_have_lock buf ;; release_console.
Definition putchar (ch : Z) : M Z :=
  acquire_console ;; putchar_have_lock (u8 ch) ;; release_console ;; mret ch.

(** The state of [vprintf]: the console and [char_cnt]. *)
Definition vprintf_helper (ch : Z) : ST (console * Z) unit :=
  modify (λ s, (s.1, s32 (s.2 + 1))) ;; zoom fst (λ c s, (c, s.2)) (putchar_have_lock ch).
Definition vprintf (format : list Z) (args : list arg) : M Z :=
  acquire_console ;;
  c ← get;
  r ← lift (__vprintf vprintf_helper format args (c, 0)); let '(_, (c, char_cnt)) := r in
  put c ;;
  release_console ;;
  mret char_cnt.
Definition printf (format : list Z) (args : list arg) : M unit := vprintf format args ;; mret tt.

Definition console_print_stats : M unit :=
  c ← get; printf (chars "Console: %lld characters output" ++ [10]) [Wide (write_cnt c)].

(** ** Dumps and sizes *)
Fixpoint repeat_printf (n : nat) (format : list Z) : M unit :=
  match n with O => mret tt | S n => printf format [] ;; repeat_printf n format end.

(** The bytes of a line as numbers, from place [i] on, and as characters. *)
Fixpoint dump_bytes (i : Z) (l : list Z) : M unit :=
  match l with
  | [] => mret tt
  | b :: l => printf (chars "%02hhx%c") [Int b; Int (if i =? 7 then 45 else 32)] ;; dump_bytes (i + 1) l
  end.
Definition isprint (c : Z) : bool := (32 <=? c) && (c <? 127).
Fixpoint dump_ascii (l : list Z) : M unit :=
  match l with
  | [] => mret tt
  | b :: l => printf (chars "%c") [Int (if isprint b then b else 46)] ;; dump_ascii l
  end.

(** [ofs] is a [uintptr_t]. *)
Fixpoint hex_dump_loop (fuel : nat) (ofs : Z) (buf : list Z) (ascii : bool) : M unit :=
  match buf with
  | [] => mret tt
  | _ =>
    match fuel with
    | O => fail Timeout
    | S fuel =>
      let start := ofs mod 16 in
      let size := Z.of_nat (length buf) in
      let end_ := if size <? 16 - start then start + size else 16 in
      let n := end_ - start in
      let line := take (Z.to_nat n) buf in
      printf (chars "%08jx  ") [Wide (ROUND_DOWN ofs 16)] ;;
      repeat_printf (Z.to_nat start) (chars "   ") ;;
      dump_bytes start line ;;
      (if ascii then
         repeat_printf (Z.to_nat (16 - end_)) (chars "   ") ;;
         printf (chars "|") [] ;;
         repeat_printf (Z.to_nat start) (chars " ") ;;
         dump_ascii line ;;
         repeat_printf (Z.to_nat (16 - end_)) (chars " ") ;;
         printf (chars "|") []
       else mret tt) ;;
      printf [10] [] ;;
      hex_dump_loop fuel (u32 (ofs + n)) (drop (Z.to_nat n) buf) ascii
    end
  end.
Definition hex_dump (ofs : Z) (buf : list Z) (ascii : bool) : M unit := hex_dump_loop (length buf) ofs buf ascii.

(** [for (fp = factors; size >= 1024 && fp[1] != NULL; fp++) size /= 1024]. *)
Fixpoint human_loop (size : Z) (fp : list Z) (factors : list (list Z)) : Z * list Z :=
  match factors with
  | next :: factors => if 1024 <=? size then human_loop (size / 1024) next factors else (size, fp)
  | [] => (size, fp)
  end.
Definition print_human_readable_size (size : Z) : M unit :=
  if size =? 1 then printf (chars "1 byte") [] else
  let '(size, factor) := human_loop size (chars "bytes") [chars "kB"; chars "MB"; chars "GB"; chars "TB"] in
  printf (chars "%llu %s") [Wide size; Str (Some factor)].
End console.

(** Examples of what is printed. *)
Definition fresh : console := MkConsole None true 0 0 [].
Definition shown {A} (m : ST console A) : list Z := match m fresh with Ok (_, c) => screen c | Err _ => [] end.
Example printf_example : shown (printf false 1 (chars "%5d|%-4x|%04o|%+d|%'u|%s") [Int (-42); Int 255; Int 8; Int 7; Int 1234567; Str (Some (chars "ok"))])
  = chars "  -42|ff  |0010|+7|1,234,567|ok".
Proof. vm_compute. reflexivity. Qed.
Example hex_dump_example : shown (hex_dump false 1 0x1003 (chars "Pintos") true)
  = chars "00001000           50 69 6e 74 6f-73                      |   Pintos       |" ++ [10].
Proof. vm_compute. reflexivity. Qed.
Example human_example : shown (print_human_readable_size false 1 262144) = chars "256 kB".
Proof. vm_compute. reflexivity. Qed.
End Stdio.
