(* ===== verification/StdioSpec.v ===== *)
(** * Properties of formatted output and the console

    What [__vprintf] gives to [output] does not depend on [output] ([emitted]);
    from this follow the properties of [vsnprintf] and of the console.  Integers
    are printed so that [atoi] reads them back. *)
From S2P Require Import Prelude CInt CString CStdlib Stdio.
From stdpp Require Import strings.

Open Scope Z_scope.

Module StdioSpec.
Import Stdio.

(** ** The characters of the output *)

(** Collects the characters.  The text of a format is what [__vprintf] emits
    for it, so that properties stated with [emitted] say where the text goes;
    what the conversions print is the matter of [integer_fits] and
    [printf_atoi_roundtrip]. *)
Definition emit (ch : Z) : ST (list Z) unit := modify (λ l, l ++ [ch]).
Definition emitted (format : list Z) (args : list arg) (cs : list Z) : Prop := __vprintf emit format args [] = Ok (tt, cs).

Section tracks.
Context {A : Type} (output : Z → ST A unit).

(** [m'], which collects characters, appends [cs], and [m] gives [cs] to
    [output]. *)
Definition tracks {X} (m : ST A X) (m' : ST (list Z) X) : Prop :=
  ∀ l x l', m' l = Ok (x, l') → ∃ cs, l' = l ++ cs ∧ ∀ s, m s = (output_all output cs ;; mret x) s.

Lemma output_all_app cs cs' s : output_all output (cs ++ cs') s = (output_all output cs ;; output_all output cs') s.
Proof.
  revert s. induction cs as [|ch cs IH]; intros s; [done|]. simpl. unfold mbind, ST_bind in *.
  destruct (output ch s) as [[[] s1]|]; [|done]. apply IH.
Qed.

Lemma tracks_ret {X} (x : X) : tracks (mret x) (mret x).
Proof. intros l y l' [= <- <-]. exists []. by rewrite app_nil_r. Qed.
Lemma tracks_fail {X} e : tracks (fail e) (fail (A := X) e).
Proof. by intros l x l'. Qed.
Lemma tracks_lift {X} (r : res X) : tracks (lift r) (lift r).
Proof. destruct r; [apply tracks_ret|apply tracks_fail]. Qed.
Lemma tracks_output ch : tracks (output ch) (emit ch).
Proof.
  intros l x l' [= <- <-]. exists [ch]. split; [done|]. intros s. simpl. unfold mbind, ST_bind, mret, ST_ret.
  by destruct (output ch s) as [[[] s']|].
Qed.
Lemma tracks_bind {X Y} (m : ST A X) m' (k : X → ST A Y) k' :
  tracks m m' → (∀ x, tracks (k x) (k' x)) → tracks (m ≫= k) (m' ≫= k').
Proof.
  intros Hm Hk l y l'' (x & l' & H1 & H2)%run_bind_inv. destruct (Hm _ _ _ H1) as (cs & -> & E1).
  destruct (Hk _ _ _ _ H2) as (cs' & -> & E2). exists (cs ++ cs'). split; [by rewrite (assoc_L (++))|].
  intros s. specialize (E1 s). unfold mbind, ST_bind, mret, ST_ret in *. rewrite E1, output_all_app. unfold mbind, ST_bind.
  destruct (output_all output cs s) as [[[] s']|]; [|done]. by rewrite E2.
Qed.

Create HintDb tracks discriminated.
#[local] Hint Resolve tracks_ret tracks_fail tracks_lift tracks_output : tracks.
Ltac track := repeat first
  [ solve [eauto 1 with tracks] | progress intros | apply tracks_bind
  | match goal with |- tracks (if ?b then _ else _) _ => destruct b end
  | match goal with |- tracks (match ?x with _ => _ end) _ => destruct x end ].

Lemma tracks_all l : tracks (output_all output l) (output_all emit l).
Proof. induction l; simpl; track. Qed.
Lemma tracks_dup ch n : tracks (output_dup output ch n) (output_dup emit ch n).
Proof. induction n; simpl; track. Qed.
#[local] Hint Resolve tracks_all tracks_dup : tracks.
Lemma tracks_integer v sg ng b c : tracks (format_integer output v sg ng b c) (format_integer emit v sg ng b c).
Proof. unfold format_integer. track. Qed.
Lemma tracks_string l n c : tracks (format_string output l n c) (format_string emit l n c).
Proof. unfold format_string. track. Qed.
#[local] Hint Resolve tracks_integer tracks_string : tracks.

Lemma tracks_convert pf pf' ch c args : (∀ f a, tracks (pf f a) (pf' f a)) →
  tracks (convert output pf ch c args) (convert emit pf' ch c args).
Proof. intros Hp. unfold convert. track. Qed.
#[local] Hint Resolve tracks_convert : tracks.

Lemma tracks_loop fuel : ∀ format args, tracks (vprintf_loop output fuel format args) (vprintf_loop emit fuel format args).
Proof.
  induction fuel as [|fuel IH]; intros format args; [apply tracks_fail|]. cbn [vprintf_loop].
  destruct format as [|ch rest]; [apply tracks_ret|].
  assert (Hc : ∀ ch c a, tracks (convert output (vprintf_loop output fuel) ch c a) (convert emit (vprintf_loop emit fuel) ch c a)).
  { intros. by apply tracks_convert. }
  track.
Qed.

Lemma vprintf_output format args cs s : emitted format args cs →
  __vprintf output format args s = output_all output cs s.
Proof.
  intros He. destruct (tracks_loop _ _ _ _ _ _ He) as (cs' & E & H). simpl in E. subst cs'. unfold __vprintf. rewrite H.
  unfold mbind, ST_bind, mret, ST_ret. by destruct (output_all output cs s) as [[[] s']|].
Qed.
End tracks.

(** ** Buffers *)

(** Bytes from [a] on. *)
Fixpoint write_bytes (a : Z) (bs : list Z) (m : CString.mem) : CString.mem :=
  match bs with [] => m | b :: bs => write_bytes (a + 1) bs (<[a := b]> m) end.
Definition mapped (m : CString.mem) (a : Z) (n : Z) : Prop := ∀ i, a ≤ i < a + n → is_Some (m !! i).

Lemma mapped_write bs : ∀ a m b n, mapped m b n → mapped (write_bytes a bs m) b n.
Proof.
  induction bs as [|c bs IH]; intros a m b n Hm; [done|]. apply IH. intros i Hi.
  destruct (decide (i = a)) as [->|]; [rewrite lookup_insert_eq; by eexists|rewrite lookup_insert_ne by done; by apply Hm].
Qed.

Lemma lookup_write bs : ∀ a m i, write_bytes a bs m !! i =
  if decide (a ≤ i < a + Z.of_nat (length bs)) then bs !! Z.to_nat (i - a) else m !! i.
Proof.
  induction bs as [|b bs IH]; intros a m i; cbn [write_bytes length]; [by rewrite decide_False by lia|]. rewrite IH.
  destruct (decide (a = i)) as [<-|Hne].
  - rewrite decide_False by lia. rewrite decide_True by lia. by rewrite lookup_insert_eq, Z.sub_diag.
  - rewrite lookup_insert_ne by done. destruct (decide (a + 1 ≤ i < a + 1 + Z.of_nat (length bs))).
    + rewrite decide_True by lia. by replace (Z.to_nat (i - a)) with (S (Z.to_nat (i - (a + 1)))) by lia.
    + by rewrite decide_False by lia.
Qed.

Lemma write_app bs bs' : ∀ a m, write_bytes a (bs ++ bs') m = write_bytes (a + Z.of_nat (length bs)) bs' (write_bytes a bs m).
Proof.
  induction bs as [|b bs IH]; intros a m; [by rewrite Z.add_0_r|]. simpl. rewrite IH. f_equal. lia.
Qed.

Lemma store_ok m a v : is_Some (m !! a) → CString.store a v m = Ok (tt, <[a := v]> m).
Proof. intros [x Hx]. unfold CString.store. erewrite run_bind_ok by reflexivity. by rewrite Hx. Qed.

Lemma helper_all cs : ∀ m a len max, 0 ≤ len → len + Z.of_nat (length cs) < 2 ^ 31 → mapped m a (max - len) →
  output_all vsnprintf_helper cs (MkAux m a len max) =
    Ok (tt, let t := take (Z.to_nat (max - len)) cs in
            MkAux (write_bytes a t m) (a + Z.of_nat (length t)) (len + Z.of_nat (length cs)) max).
Proof.
  induction cs as [|ch cs IH]; intros m a len max Hlen Hb Hm; cbn [output_all length] in *.
  { unfold mret, ST_ret. rewrite take_nil. simpl. by rewrite !Z.add_0_r. }
  set (t := take (Z.to_nat (max - len)) (ch :: cs)). destruct (Z.ltb_spec len max) as [Hlt|Hge].
  - assert (Et : t = ch :: take (Z.to_nat (max - (len + 1))) cs).
    { unfold t. by replace (Z.to_nat (max - len)) with (S (Z.to_nat (max - (len + 1)))) by lia. }
    rewrite (run_bind_ok _ _ _ tt (MkAux (<[a := ch]> m) (a + 1) (len + 1) max)).
    + rewrite IH; [|lia|lia|]. { rewrite Et. cbn [write_bytes length]. do 3 f_equal; lia. }
      intros i Hi. destruct (decide (i = a)) as [->|]; [rewrite lookup_insert_eq; by eexists|rewrite lookup_insert_ne by done; apply Hm; lia].
    + unfold vsnprintf_helper. erewrite run_bind_ok by reflexivity. cbn [length_ max_length p buffer].
      rewrite (proj2 (Z.ltb_lt len max)) by done. rewrite store_ok by (apply Hm; lia). erewrite run_bind_ok by reflexivity.
      by rewrite s32_id by (unfold in_s32; lia).
  - assert (Et : t = []) by (unfold t; by replace (Z.to_nat (max - len)) with 0%nat by lia).
    rewrite (run_bind_ok _ _ _ tt (MkAux m a (len + 1) max)).
    + rewrite IH; [|lia|lia|]; [|intros i Hi; lia].
      replace (Z.to_nat (max - (len + 1))) with 0%nat by lia. rewrite Et. simpl. do 3 f_equal. lia.
    + unfold vsnprintf_helper. erewrite run_bind_ok by reflexivity. cbn [length_ max_length p buffer].
      rewrite (proj2 (Z.ltb_ge len max)) by done. by rewrite s32_id by (unfold in_s32; lia).
Qed.

Lemma vsnprintf_ok format args cs m buf n : emitted format args cs → Z.of_nat (length cs) < 2 ^ 31 →
  0 ≤ n ≤ 2 ^ 31 → mapped m buf n →
  ∃ m', vsnprintf buf n format args m = Ok (Z.of_nat (length cs), m') ∧
    let text := if decide (n = 0) then [] else take (Z.to_nat (n - 1)) cs ++ [0] in
    ∀ i, m' !! i = if decide (buf ≤ i < buf + Z.of_nat (length text)) then text !! Z.to_nat (i - buf) else m !! i.
Proof.
  intros He Hl Hn Hm. unfold vsnprintf. erewrite run_bind_ok by reflexivity. rewrite (vprintf_output _ _ _ _ _ He).
  destruct (decide (n = 0)) as [->|Hn0].
  - change (s32 (if 0 <? 0 then 0 - 1 else 0)) with 0. rewrite helper_all; [|lia|lia|intros i Hi; lia]. erewrite run_bind_ok by reflexivity. cbv beta iota zeta.
    erewrite run_bind_ok by reflexivity. eexists. split; [reflexivity|]. intros i. simpl. by rewrite decide_False by lia.
  - rewrite (proj2 (Z.ltb_lt 0 n)) by lia. rewrite s32_id by (unfold in_s32; lia).
    rewrite helper_all; [|lia|lia|intros i Hi; apply Hm; lia]. rewrite Z.sub_0_r. erewrite run_bind_ok by reflexivity. cbv beta iota zeta.
    erewrite run_bind_ok by reflexivity. cbn [buffer p length_].
    set (t := take (Z.to_nat (n - 1)) cs). assert (Ht : (length t ≤ Z.to_nat (n - 1))%nat) by (unfold t; rewrite length_take; lia).
    erewrite run_bind_ok; [|apply store_ok; apply (mapped_write t buf m buf n Hm); lia].
    eexists. split; [reflexivity|]. intros i. rewrite <- (lookup_write (t ++ [0])). f_equal. by rewrite write_app.
Qed.

(** C30: Formatting into a buffer of [n] bytes: [vsnprintf] stores the first
    [n - 1] characters of the output with a null character behind them, leaves
    all other memory alone, and returns the length the whole output has; with
    [n] zero it stores nothing. *)
Theorem vsnprintf_correct format args cs m buf n : emitted format args cs → Z.of_nat (length cs) < 2 ^ 31 →
  0 ≤ n ≤ 2 ^ 31 → mapped m buf n →
  ∃ m', vsnprintf buf n format args m = Ok (Z.of_nat (length cs), m') ∧
    let text := if decide (n = 0) then [] else take (Z.to_nat (n - 1)) cs ++ [0] in
    ∀ i, m' !! i = if decide (buf ≤ i < buf + Z.of_nat (length text)) then text !! Z.to_nat (i - buf) else m !! i.
Proof. by apply vsnprintf_ok. Qed.

(** [%d!] of 125 into three bytes. *)
Definition demo_memory : CString.mem := {[ 100 := 9; 101 := 9; 102 := 9 ]}.
Lemma vsnprintf_correct_witness :
  ∃ m', vsnprintf 100 3 (chars "%d!") [Int 125] demo_memory = Ok (4, m') ∧ m' !! 101 = Some 50 ∧ m' !! 102 = Some 0.
Proof.
  destruct (vsnprintf_correct (chars "%d!") [Int 125] [49; 50; 53; 33] demo_memory 100 3) as (m' & Hrun & Hm).
  - vm_compute. reflexivity.
  - simpl. lia.
  - lia.
  - intros i Hi. assert (i = 100 ∨ i = 101 ∨ i = 102) as [->|[->| ->]] by lia; by eexists.
  - exists m'. split; [exact Hrun|]. rewrite !Hm. split; reflexivity.
Defined.

(** ** The console *)
Section console.
Context (intr_context : bool) (cur : Z).
Implicit Type c : console.

(** The thread may print: it can take the lock, or has it already. *)
Definition may_print c : Prop :=
  intr_context = true ∨ use_console_lock c = false ∨ console_lock c = None ∧ console_lock_depth c = 0 ∨
  console_lock c = Some cur ∧ 0 ≤ console_lock_depth c.

(** [n] more characters have been printed. *)
Definition printed (cs : list Z) c : console :=
  MkConsole (console_lock c) (use_console_lock c) (console_lock_depth c) (write_cnt c + Z.of_nat (length cs)) (screen c ++ cs).

Definition counts c (n : nat) : Prop := 0 ≤ write_cnt c ∧ write_cnt c + Z.of_nat n < 2 ^ 63.

Definition locked c : Prop := intr_context || negb (use_console_lock c) || bool_decide (console_lock c = Some cur) = true.

Lemma putchar_ok c ch : locked c → counts c 1 → putchar_have_lock intr_context cur ch c = Ok (tt, printed [ch] c).
Proof.
  intros Hl Hc. unfold putchar_have_lock. erewrite run_bind_ok by reflexivity. run_assert; [|done].
  unfold modify, printed. destruct Hc. by rewrite s64_id by (unfold in_s64; simpl in *; lia).
Qed.

Lemma printed_nil c : printed [] c = c.
Proof. unfold printed. simpl. rewrite Z.add_0_r, app_nil_r. by destruct c. Qed.
Lemma printed_cons ch cs c : printed (ch :: cs) c = printed cs (printed [ch] c).
Proof. unfold printed. simpl. f_equal; [lia|]. by rewrite <- (assoc_L (++)). Qed.

Lemma vprintf_helper_all cs : ∀ c n, locked c → counts c (length cs) → 0 ≤ n → n + Z.of_nat (length cs) < 2 ^ 31 →
  output_all (vprintf_helper intr_context cur) cs (c, n) = Ok (tt, (printed cs c, n + Z.of_nat (length cs))).
Proof.
  induction cs as [|ch cs IH]; intros c n Hl [Hw Hc] Hn Hb; cbn [output_all length] in *.
  { by rewrite printed_nil, Z.add_0_r. }
  rewrite (run_bind_ok _ _ _ tt (printed [ch] c, n + 1)).
  - rewrite IH; [|done|split; simpl; lia|lia|lia]. rewrite <- printed_cons. do 3 f_equal. lia.
  - unfold vprintf_helper. erewrite run_bind_ok by reflexivity. cbn [fst snd]. rewrite s32_id by (unfold in_s32; lia).
    erewrite run_zoom_ok; [reflexivity|]. apply putchar_ok; [done|split; simpl; lia].
Qed.

(** Taking and giving back the lock. *)
Lemma acquire_release c cs : may_print c → ∃ c1, acquire_console intr_context cur c = Ok (tt, c1) ∧ locked c1 ∧
  write_cnt c1 = write_cnt c ∧ release_console intr_context cur (printed cs c1) = Ok (tt, printed cs c).
Proof.
  intros Hm. unfold acquire_console, release_console, locked. destruct (negb intr_context && use_console_lock c) eqn:E.
  - apply andb_true_iff in E as [Ei Eu]. apply negb_true_iff in Ei. rewrite Ei in *. cbn [negb andb].
    destruct Hm as [?|[?|[[El Ed]|[El Ed]]]]; [congruence|congruence| |].
    + eexists. erewrite run_bind_ok by reflexivity. rewrite Eu. cbn [andb]. rewrite decide_False by congruence. rewrite El.
      split; [reflexivity|]. cbn. rewrite Eu, bool_decide_true by done. split; [done|]. split; [done|].
      unfold release_console. erewrite run_bind_ok by reflexivity. cbn. rewrite Eu, Ed. cbn. run_assert; [|by apply bool_decide_eq_true].
      unfold modify, set_console_lock, printed. simpl. by rewrite El, Ed, Eu.
    + eexists. erewrite run_bind_ok by reflexivity. rewrite Eu. cbn [andb]. rewrite decide_True by done.
      split; [reflexivity|]. cbn. rewrite Eu, bool_decide_true by done. split; [done|]. split; [done|].
      erewrite run_bind_ok by reflexivity. cbn. rewrite Eu. rewrite (proj2 (Z.ltb_lt 0 _)) by lia.
      unfold modify, set_depth, printed. simpl. do 3 f_equal. lia.
  - exists c. erewrite run_bind_ok by reflexivity. rewrite E. split; [done|].
    split; [apply andb_false_iff in E as [->%negb_false_iff| ->]; [done|by rewrite orb_true_r]|]. split; [done|].
    erewrite run_bind_ok by reflexivity. cbn. by rewrite E.
Qed.

(** C31: Printing: [vprintf] writes exactly the characters of the output to
    the console and returns their number, whether the console lock is free,
    held by this thread already, or not in use (in an interrupt, at boot or in
    a panic), and leaves the lock and its depth as they were. *)
Theorem vprintf_correct format args cs c : emitted format args cs → may_print c → counts c (length cs) →
  Z.of_nat (length cs) < 2 ^ 31 →
  vprintf intr_context cur format args c = Ok (Z.of_nat (length cs), printed cs c).
Proof.
  intros He Hm Hc Hl. destruct (acquire_release c cs Hm) as (c1 & Ha & Hk & Hw & Hr). unfold vprintf.
  rewrite (run_bind_ok _ _ _ _ _ Ha). erewrite run_bind_ok by reflexivity. rewrite (vprintf_output _ _ _ _ _ He).
  rewrite vprintf_helper_all; [|done|unfold counts in *; by rewrite Hw|lia|lia]. erewrite run_bind_ok by reflexivity. cbv beta iota.
  erewrite run_bind_ok by reflexivity. by rewrite (run_bind_ok _ _ _ _ _ Hr).
Qed.
End console.

(** The thread has the lock already. *)
Lemma vprintf_correct_witness :
  ∃ c, vprintf false 4 (chars "%d!") [Int 125] (MkConsole (Some 4) true 1 0 [10]) = Ok (4, c) ∧ screen c = [10; 49; 50; 53; 33].
Proof.
  eexists. split; [apply (vprintf_correct false 4 (chars "%d!") [Int 125] [49; 50; 53; 33])|reflexivity].
  - vm_compute. reflexivity.
  - right. right. right. split; [reflexivity|simpl; lia].
  - split; simpl; lia.
  - simpl. lia.
Defined.

(** ** Integers *)

(** The number that digits stand for in base [b], behind those of [acc]. *)
Definition dec (b acc : Z) (ds : list Z) : Z := foldl (λ a ch, a * b + (ch - 48)) acc ds.
Abbreviation all_digits := (Forall (λ ch, CStdlib.isdigit ch = true)).
Definition no_digit (l : list Z) : Prop := match l with ch :: _ => CStdlib.isdigit ch = false | [] => True end.

Lemma digit_range ch : CStdlib.isdigit ch = true → 48 ≤ ch ≤ 57.
Proof. unfold CStdlib.isdigit. intros [H1%Z.leb_le H2%Z.leb_le]%andb_true_iff. lia. Qed.

Lemma dec_ge ds : ∀ acc, 0 ≤ acc → all_digits ds → acc ≤ dec 10 acc ds.
Proof.
  induction ds as [|ch ds IH]; intros acc Ha Hd; [done|]. apply Forall_cons in Hd as [Hch%digit_range Hd].
  specialize (IH (acc * 10 + (ch - 48)) ltac:(lia) Hd). change (dec 10 acc (ch :: ds)) with (dec 10 (acc * 10 + (ch - 48)) ds). lia.
Qed.

Lemma parse_digits_ok ds rest : ∀ acc, 0 ≤ acc → all_digits ds → no_digit rest → dec 10 acc ds ≤ 2 ^ 31 →
  CStdlib.parse_digits (ds ++ rest) (- acc) = - dec 10 acc ds.
Proof.
  induction ds as [|ch ds IH]; intros acc Ha Hd Hr Hb; simpl.
  { destruct rest as [|ch rest]; [done|]. simpl. by rewrite Hr. }
  apply Forall_cons in Hd as [Hch Hd]. rewrite Hch. apply digit_range in Hch.
  assert (Hge := dec_ge ds (acc * 10 + (ch - 48)) ltac:(lia) Hd). change (dec 10 acc (ch :: ds)) with (dec 10 (acc * 10 + (ch - 48)) ds) in *.
  rewrite (s32_id (- acc * 10)) by (unfold in_s32; lia). rewrite s32_id by (unfold in_s32; lia).
  replace (- acc * 10 - (ch - 48)) with (- (acc * 10 + (ch - 48))) by lia. apply IH; [lia|done..].
Qed.

Lemma skip_spaces n l : CStdlib.skip_space (replicate n 32 ++ l) = CStdlib.skip_space l.
Proof. by induction n. Qed.

Lemma spaces_no_digit n : no_digit (replicate n 32).
Proof. by destruct n. Qed.

(** What [atoi] makes of a number with blanks around it. *)
Lemma atoi_text n sign ds m (negative : bool) : all_digits ds → dec 10 0 ds < 2 ^ 31 + (if negative then 1 else 0) →
  sign = (if negative then [45] else []) ∨ (negative = false ∧ (sign = [43] ∨ sign = [32])) →
  CStdlib.atoi (replicate n 32 ++ sign ++ ds ++ replicate m 32) = if negative then - dec 10 0 ds else dec 10 0 ds.
Proof.
  intros Hd Hb Hs. unfold CStdlib.atoi. rewrite skip_spaces.
  assert (Hge := dec_ge ds 0 ltac:(lia) Hd). assert (Hp := parse_digits_ok ds (replicate m 32) 0 ltac:(lia) Hd (spaces_no_digit m)).
  change (- 0) with 0 in Hp.
  assert (Hplain : (let s := CStdlib.skip_space (ds ++ replicate m 32) in
    let '(neg, s) := match s with c :: s' => if c =? 43 then (false, s') else if c =? 45 then (true, s') else (false, s) | [] => (false, s) end in
    if neg : bool then CStdlib.parse_digits s 0 else s32 (- CStdlib.parse_digits s 0)) = dec 10 0 ds ∨ negative = true).
  { destruct negative; [by right|left]. specialize (Hp ltac:(lia)). destruct ds as [|ch ds].
    - rewrite app_nil_l, <- (app_nil_r (replicate m 32)), skip_spaces. done.
    - apply Forall_cons in Hd as [Hch _]. apply digit_range in Hch. simpl app. cbn [CStdlib.skip_space].
      assert (Es : CStdlib.isspace ch = false) by (unfold CStdlib.isspace; repeat (rewrite (proj2 (Z.eqb_neq ch _)) by lia); done).
      rewrite Es. rewrite (proj2 (Z.eqb_neq ch 43)), (proj2 (Z.eqb_neq ch 45)) by lia. cbv zeta.
      change (ch :: ds ++ replicate m 32) with ((ch :: ds) ++ replicate m 32). rewrite Hp, s32_id by (unfold in_s32; lia). lia. }
  destruct Hs as [->|[-> [->| ->]]].
  - destruct negative; [|destruct Hplain as [Hplain|?]; [exact Hplain|done]]. simpl. rewrite Hp by lia. done.
  - simpl. rewrite Hp, s32_id by (unfold in_s32; lia). lia.
  - destruct Hplain as [Hplain|?]; [exact Hplain|done].
Qed.

(** ** The buffer of [format_integer] *)

(** The bases that are used. *)
Definition good_base (b : integer_base) : Prop := 8 ≤ base b ∧ Z.of_nat (length (digits b)) = base b.

Lemma push_char_ok ch buf : (length buf < 64)%nat → push ch buf = Ok (buf ++ [ch]).
Proof. intros Hl. unfold push. by rewrite (proj2 (Nat.ltb_lt _ _) Hl). Qed.

Lemma digits_loop_total b fl k : good_base b → ∀ fuel value cnt buf, 0 ≤ value < 8 ^ Z.of_nat k → (k ≤ fuel)%nat →
  (length buf + 2 * k ≤ 64)%nat → ∃ buf', digits_loop fuel b fl value cnt buf = Ok buf' ∧ (length buf' ≤ length buf + 2 * k)%nat.
Proof.
  intros [Hb Hd]. induction k as [|k IH]; intros fuel value cnt buf Hv Hf Hl.
  { exists buf. split; [|lia]. change (8 ^ Z.of_nat 0) with 1 in Hv. assert (value = 0) as -> by lia. by destruct fuel. }
  destruct fuel as [|fuel]; [lia|]. cbn [digits_loop]. destruct (Z.ltb_spec 0 value); cbn [negb]; [|exists buf; split; [done|lia]].
  assert (Hm := Z.mod_pos_bound value (base b) ltac:(lia)).
  destruct (lookup_lt_is_Some_2 (digits b) (Z.to_nat (value mod base b))) as [d Hd']; [lia|]. rewrite Hd'.
  assert (Hstep : ∀ buf1, (length buf1 ≤ length buf + 1)%nat → ∃ buf',
    match push d buf1 with Err e => Err e | Ok buf => digits_loop fuel b fl (value / base b) (cnt + 1) buf end = Ok buf' ∧
    (length buf' ≤ length buf + 2 * S k)%nat).
  { intros buf1 H1. rewrite push_char_ok by lia. destruct (IH fuel (value / base b) (cnt + 1) (buf1 ++ [d])) as (buf' & Hr & Hl').
    - rewrite Nat2Z.inj_succ, Z.pow_succ_r in Hv by lia. split; [apply Z.div_pos; lia|apply Z.div_lt_upper_bound; [lia|]].
      assert (0 < 8 ^ Z.of_nat k) by (apply Z.pow_pos_nonneg; lia). nia.
    - lia.
    - rewrite length_app. simpl. lia.
    - exists buf'. split; [done|]. rewrite length_app in Hl'. simpl in Hl'. lia. }
  destruct (has fl GROUP && (0 <? cnt) && (Z.rem cnt (group b) =? 0)).
  - rewrite push_char_ok by lia. apply Hstep. rewrite length_app. simpl. lia.
  - apply Hstep. lia.
Qed.

Lemma zeros_loop_total p fuel : ∀ buf, (64 ≤ length buf + fuel)%nat →
  ∃ n, zeros_loop fuel p buf = Ok (buf ++ replicate n 48) ∧ (length buf + n ≤ length buf `max` 63)%nat ∧
    (length buf + n ≤ Z.to_nat p `max` length buf)%nat.
Proof.
  induction fuel as [|fuel IH]; intros buf Hf; cbn [zeros_loop]; destruct (Z.ltb_spec (Z.of_nat (length buf)) p), (Z.ltb_spec (Z.of_nat (length buf)) 63);
    cbn [andb negb]; try (exists 0%nat; rewrite app_nil_r; split; [done|lia]); try lia.
  rewrite push_char_ok by lia. destruct (IH (buf ++ [48])) as (n & Hr & Hn & Hn'); [rewrite length_app; simpl; lia|].
  exists (S n). rewrite Hr, <- (assoc_L (++)). split; [done|]. rewrite length_app in Hn, Hn'. simpl in Hn, Hn'. lia.
Qed.

(** C32: No integer conversion overruns the 64 characters of its buffer:
    whatever the value, the base, the flags, the width and the precision, all
    digits, group separators and leading zeros fit. *)
Theorem integer_fits value b c : 0 ≤ value < 2 ^ 64 → good_base b →
  ∃ buf, integer_buf value b c = Ok buf ∧ (length buf ≤ 64)%nat.
Proof.
  intros Hv Hb. unfold integer_buf.
  destruct (digits_loop_total b (flags c) 22 Hb 64 value 0 []) as (ds & -> & Hl); [change (8 ^ Z.of_nat 22) with (2 ^ 66); lia|lia|simpl; lia|].
  destruct (zeros_loop_total (if precision c <? 0 then 1 else precision c) 64 ds) as (n & -> & Hn & _); [lia|].
  assert (Hlen : (length (ds ++ replicate n 48%Z) ≤ 63)%nat) by (rewrite length_app, length_replicate; simpl in *; lia).
  destruct (_ && _ && _); [|eexists; split; [done|lia]]. rewrite push_char_ok by lia. eexists. split; [done|]. rewrite length_app. simpl. lia.
Qed.

Lemma integer_fits_witness : ∃ buf, integer_buf 18446744073709551615 base_o (MkConversion (Z.lor POUND GROUP) 0 80 INTMAX) = Ok buf ∧ (length buf ≤ 64)%nat.
Proof. apply integer_fits; [lia|split; [unfold base_o; simpl; lia|reflexivity]]. Defined.

(** Digits, the last one first. *)
Definition le_value (b : Z) (ds : list Z) : Z := foldr (λ ch a, a * b + (ch - 48)) 0 ds.

Lemma dec_reverse b ds : dec b 0 (reverse ds) = le_value b ds.
Proof.
  induction ds as [|ch ds IH]; [done|]. rewrite reverse_cons. unfold dec in *. rewrite foldl_app, IH. done.
Qed.

(** Bases whose digits are decimal digits. *)
Definition plain_base (b : integer_base) : Prop :=
  good_base b ∧ base b ≤ 10 ∧ ∀ d, 0 ≤ d < base b → digits b !! Z.to_nat d = Some (48 + d).

Lemma base_d_plain : plain_base base_d.
Proof.
  split; [split; [simpl; lia|reflexivity]|]. split; [simpl; lia|]. intros d Hd. simpl in Hd.
  assert (d = 0 ∨ d = 1 ∨ d = 2 ∨ d = 3 ∨ d = 4 ∨ d = 5 ∨ d = 6 ∨ d = 7 ∨ d = 8 ∨ d = 9) as H by lia.
  by repeat destruct H as [->|H]; subst.
Qed.
Lemma base_o_plain : plain_base base_o.
Proof.
  split; [split; [simpl; lia|reflexivity]|]. split; [simpl; lia|]. intros d Hd. simpl in Hd.
  assert (d = 0 ∨ d = 1 ∨ d = 2 ∨ d = 3 ∨ d = 4 ∨ d = 5 ∨ d = 6 ∨ d = 7) as H by lia.
  by repeat destruct H as [->|H]; subst.
Qed.

(** Characters that are digits in base [b]. *)
Abbreviation digits_of b := (Forall (λ ch, 48 ≤ ch < 48 + base b)).

Lemma digits_loop_value b fl fuel : plain_base b → has fl GROUP = false → ∀ value cnt buf buf', 0 ≤ value → digits_loop fuel b fl value cnt buf = Ok buf' →
  ∃ ds, buf' = buf ++ ds ∧ digits_of b ds ∧ le_value (base b) ds = value ∧ ∀ k, value < base b ^ Z.of_nat k → (length ds ≤ k)%nat.
Proof.
  intros ([Hb _] & Hb10 & Hdig) Hg. induction fuel as [|fuel IH]; intros value cnt buf buf' Hv; cbn [digits_loop]; destruct (Z.ltb_spec 0 value); cbn [negb];
    try (intros [= <-]; exists []; rewrite app_nil_r; split; [done|]; split; [done|]; simpl; split; [lia|intros; lia]); [done|].
  rewrite Hg. cbn [andb]. assert (Hm := Z.mod_pos_bound value (base b) ltac:(lia)).
  rewrite Hdig by done. unfold push at 1. destruct (length buf <? 64)%nat; [|done].
  intros (ds & -> & Hd & Hval & Hk)%IH; [|apply Z.div_pos; lia]. exists ((48 + value mod base b) :: ds).
  split; [by rewrite <- (assoc_L (++))|]. split; [constructor; [lia|done]|]. split.
  - cbn [le_value foldr]. fold (le_value (base b) ds). rewrite Hval. assert (E := Z.div_mod value (base b) ltac:(lia)). lia.
  - intros [|k] Hlt; [change (base b ^ Z.of_nat 0) with 1 in Hlt; lia|]. simpl. apply le_n_S, Hk.
    rewrite Nat2Z.inj_succ, Z.pow_succ_r in Hlt by lia. apply Z.div_lt_upper_bound; lia.
Qed.

Lemma le_value_zeros b ds n : le_value b (ds ++ replicate n 48) = le_value b ds.
Proof.
  induction ds as [|ch ds IH]; [|simpl; unfold le_value in *; by rewrite IH]. rewrite app_nil_l.
  induction n as [|n IH]; [done|]. cbn [replicate le_value foldr]. fold (le_value b (replicate n 48)). rewrite IH. simpl. lia.
Qed.

Lemma zeros_digits n : all_digits (replicate n 48).
Proof. by apply Forall_replicate. Qed.

Lemma plain_buf b value c : plain_base b → 0 ≤ value < 2 ^ 64 → has (flags c) GROUP = false → (base b ≠ 8 ∨ has (flags c) POUND = false) →
  ∃ ds n, integer_buf value b c = Ok (ds ++ replicate n 48) ∧ digits_of b (ds ++ replicate n 48) ∧ dec (base b) 0 (reverse (ds ++ replicate n 48)) = value ∧
    (∀ k, value < base b ^ Z.of_nat k → (length ds ≤ k)%nat) ∧ (precision c < 0 → (length ds + n ≤ 1 `max` length ds)%nat).
Proof.
  intros Hb Hv Hg Hp. unfold integer_buf. assert (Hgood := proj1 Hb).
  destruct (digits_loop_total b (flags c) 22 Hgood 64 value 0 []) as (buf & Hr & _);
    [change (8 ^ Z.of_nat 22) with (2 ^ 66); lia|lia|simpl; lia|].
  rewrite Hr. destruct (digits_loop_value b _ _ Hb Hg _ _ _ _ (proj1 Hv) Hr) as (ds & -> & Hd & Hval & Hk). rewrite app_nil_l.
  destruct (zeros_loop_total (if precision c <? 0 then 1 else precision c) 64 ds) as (n & Hz & _ & Hn); [lia|]. rewrite Hz.
  assert (Epound : has (flags c) POUND && (base b =? 8) = false).
  { destruct Hp as [Hp| ->]; [|done]. rewrite (proj2 (Z.eqb_neq _ _) Hp). apply andb_false_r. }
  rewrite Epound. cbn [andb]. exists ds, n. split; [done|]. split; [apply Forall_app_2; [done|]; apply Forall_replicate; destruct Hgood; lia|].
  split; [by rewrite dec_reverse, le_value_zeros|]. split; [done|]. intros Hneg. rewrite (proj2 (Z.ltb_lt _ _) Hneg) in Hn. lia.
Qed.

Lemma decimal_buf value c : 0 ≤ value < 2 ^ 64 → has (flags c) GROUP = false →
  ∃ buf, integer_buf value base_d c = Ok buf ∧ all_digits buf ∧ dec 10 0 (reverse buf) = value.
Proof.
  intros Hv Hg. destruct (plain_buf base_d value c base_d_plain Hv Hg ltac:(by left)) as (ds & n & Hr & Hd & Hval & _).
  exists (ds ++ replicate n 48). split; [done|]. split; [|exact Hval]. eapply Forall_impl; [exact Hd|].
  intros ch Hch. simpl in Hch. unfold CStdlib.isdigit. apply andb_true_iff. rewrite !Z.leb_le. lia.
Qed.

(** ** Round trip *)

Lemma emit_all cs : ∀ l, output_all emit cs l = Ok (tt, l ++ cs).
Proof.
  induction cs as [|ch cs IH]; intros l; cbn [output_all]; [by rewrite app_nil_r|]. erewrite run_bind_ok by reflexivity.
  rewrite IH. by rewrite <- (assoc_L (++)).
Qed.
Lemma emit_dup ch n : ∀ l, output_dup emit ch n l = Ok (tt, l ++ replicate n ch).
Proof.
  induction n as [|n IH]; intros l; cbn [output_dup]; [by rewrite app_nil_r|]. erewrite run_bind_ok by reflexivity.
  rewrite IH. by rewrite <- (assoc_L (++)).
Qed.
Lemma emit_dup_if (b : bool) ch n l : (if b then output_dup emit ch n else mret tt) l = Ok (tt, l ++ replicate (if b then n else 0) ch).
Proof. destruct b; [apply emit_dup|]. by rewrite app_nil_r. Qed.
Lemma emit_sign_if ch l : (if ch =? 0 then mret tt else emit ch) l = Ok (tt, l ++ if ch =? 0 then [] else [ch]).
Proof. destruct (ch =? 0); [by rewrite app_nil_r|done]. Qed.

(** A decimal number on its way out: blanks, sign, zeros, digits, blanks. *)
Lemma format_decimal value sg ng c buf l : integer_buf value base_d c = Ok buf →
  ∃ n z m, format_integer emit value sg ng base_d c l =
    Ok (tt, l ++ replicate n 32 ++ (if sign_char sg ng (flags c) =? 0 then [] else [sign_char sg ng (flags c)]) ++
            (replicate z 48 ++ reverse buf) ++ replicate m 32).
Proof.
  intros Hb. unfold format_integer. rewrite Hb. erewrite run_bind_ok by reflexivity.
  assert (Ex : (if has (flags c) POUND && negb (value =? 0) then x_char base_d else 0) = 0) by (by destruct (_ && _)). rewrite Ex.
  cbn [Z.eqb]. set (k := Z.to_nat _). do 3 eexists.
  rewrite (run_bind_ok _ _ _ _ _ (emit_dup_if _ _ _ _)), (run_bind_ok _ _ _ _ _ (emit_sign_if _ _)).
  erewrite run_bind_ok by reflexivity. rewrite (run_bind_ok _ _ _ _ _ (emit_dup_if _ _ _ _)), (run_bind_ok _ _ _ _ _ (emit_all _ _)).
  rewrite emit_dup_if. by rewrite <- !(assoc_L (++)).
Qed.

Lemma sign_shape ng fl : (if sign_char true ng fl =? 0 then [] else [sign_char true ng fl]) = (if ng then [45] else []) ∨
  (ng = false ∧ ((if sign_char true ng fl =? 0 then [] else [sign_char true ng fl]) = [43] ∨
                 (if sign_char true ng fl =? 0 then [] else [sign_char true ng fl]) = [32])).
Proof. unfold sign_char. destruct (has fl PLUS), (has fl SPACE), ng; simpl; auto. Qed.

Lemma dec_zeros z ds : dec 10 0 (replicate z 48 ++ ds) = dec 10 0 ds.
Proof. induction z as [|z IH]; [done|]. exact IH. Qed.

Lemma format_integer_text v c l : in_s32 v → has (flags c) GROUP = false →
  ∃ text, format_integer emit (u64 (if v <? 0 then - v else v)) true (v <? 0) base_d c l = Ok (tt, l ++ text) ∧ CStdlib.atoi text = v.
Proof.
  unfold in_s32. intros Hv Hg. set (a := if v <? 0 then - v else v).
  assert (Ha : 0 ≤ a ≤ 2 ^ 31 ∧ a = Z.abs v) by (unfold a; destruct (Z.ltb_spec v 0); lia).
  assert (Eu : u64 a = a) by (unfold u64; apply Z.mod_small; lia). rewrite Eu.
  destruct (decimal_buf a c ltac:(lia) Hg) as (buf & Hbuf & Hd & Hval).
  destruct (format_decimal a true (v <? 0) c buf l Hbuf) as (n & z & m & Hrun). eexists. split; [exact Hrun|].
  rewrite (atoi_text n _ (replicate z 48 ++ reverse buf) m (v <? 0)).
  - rewrite dec_zeros, Hval. unfold a. destruct (Z.ltb_spec v 0); lia.
  - apply Forall_app_2; [apply zeros_digits|by apply Forall_reverse].
  - rewrite dec_zeros, Hval. unfold a. destruct (Z.ltb_spec v 0); lia.
  - apply sign_shape.
Qed.

(** The loop at a conversion. *)
Lemma loop_conversion {A} (output : Z → ST A unit) fuel rest args : head rest ≠ Some 37 →
  vprintf_loop output (S fuel) (37 :: rest) args =
    (r ← lift (parse_conversion rest args); let '(c, format, args) := r in
     match format with
     | ch :: rest => args ← convert output (vprintf_loop output fuel) ch c args; vprintf_loop output fuel rest args
     | [] => convert output (vprintf_loop output fuel) 0 c args ;; fail Fault
     end).
Proof.
  intros Hh. cbn [vprintf_loop Z.eqb Pos.eqb negb]. destruct rest as [|[|q|q] rest]; try done.
  repeat (destruct q as [q|q|]; try reflexivity). done.
Qed.

(** C33: What [printf] writes for an [int], [atoi] reads back: for every
    value and every conversion specification [%...d], with any flags but the
    grouping one and any width and precision, the output is produced, and
    [atoi] of it is the value. *)
Theorem printf_atoi_roundtrip spec c v : in_s32 v → type c = INT → has (flags c) GROUP = false →
  parse_conversion (spec ++ [100]) [Int v] = Ok (c, [100], [Int v]) →
  ∃ text, emitted (37 :: spec ++ [100]) [Int v] text ∧ CStdlib.atoi text = v.
Proof.
  intros Hv Ht Hg Hp. assert (Hh : head (spec ++ [100]) ≠ Some 37).
  { intros E. destruct spec as [|h spec]; [done|]. simpl in E. injection E as ->. discriminate Hp. }
  destruct (format_integer_text v c [] Hv Hg) as (text & Hrun & Ha). exists text. split; [|done].
  unfold emitted, __vprintf. cbn [length]. set (n := length (spec ++ [100])).
  replace (S n + 32)%nat with (S (S (n + 31))) by lia. rewrite loop_conversion by done. rewrite Hp. erewrite run_bind_ok by reflexivity. cbv beta iota.
  erewrite run_bind_ok; [reflexivity|]. unfold convert. cbn [Z.eqb Pos.eqb orb]. rewrite Ht. cbn [signed_value va_word].
  erewrite run_bind_ok by reflexivity. cbv beta iota. rewrite s32_id by done. by rewrite (run_bind_ok _ _ _ _ _ Hrun).
Qed.

(** [%-+8.5d] of -42. *)
Lemma printf_atoi_roundtrip_witness : ∃ text, emitted (chars "%-+8.5d") [Int (-42)] text ∧ CStdlib.atoi text = -42.
Proof.
  apply (printf_atoi_roundtrip (chars "-+8.5") (MkConversion 3 8 5 INT)); [unfold in_s32; lia|reflexivity|reflexivity|reflexivity].
Defined.

(** A format that ends in [%]: [__vprintf] takes the null character for
    the conversion, and goes on reading behind the end of the format. *)
Theorem trailing_percent_faults text args : Forall (λ ch, ch ≠ 37) text → __vprintf emit (text ++ [37]) args [] = Err Fault.
Proof.
  intros Ht. unfold __vprintf. rewrite length_app. cbn [length].
  assert (Hloop : ∀ l fuel, (length text + 25 ≤ fuel)%nat → vprintf_loop emit fuel (text ++ [37]) args l = Err Fault); [|apply Hloop; lia].
  induction Ht as [|ch text Hch _ IH]; intros l fuel Hf; (destruct fuel as [|fuel]; [simpl in Hf; lia|]).
  - simpl app. rewrite loop_conversion by done. do 24 (destruct fuel as [|fuel]; [simpl in Hf; lia|]). reflexivity.
  - simpl app. cbn [vprintf_loop]. rewrite (proj2 (Z.eqb_neq ch 37)) by done. cbn [negb].
    erewrite run_bind_ok by reflexivity. apply IH. simpl in Hf. lia.
Qed.
Lemma trailing_percent_faults_witness : __vprintf emit (chars "100%") [] [] = Err Fault.
Proof. apply (trailing_percent_faults (chars "100")). repeat constructor; discriminate. Defined.
End StdioSpec.
