(* ===== verification/Ustar.v ===== *)
(** * Archive headers: [src/pintos/lib/ustar.c]

    A header is 512 bytes, which [decode] takes apart into the fields of
    [struct ustar_header] and [encode] puts together.  File names are strings
    without their null character. *)
From S2P Require Import Prelude CInt CString CStdlib Stdio StdioSpec.
From stdpp Require Import strings.

Open Scope Z_scope.

Module Ustar.
Import Stdio.

Definition USTAR_REGULAR : Z := 48.
Definition USTAR_DIRECTORY : Z := 53.
Definition USTAR_EOF : Z := -1.
Definition USTAR_HEADER_SIZE : nat := 512.

Record ustar_header := MkHeader {
  name : list Z; mode : list Z; uid : list Z; gid : list Z; size : list Z; mtime : list Z; chksum : list Z; typeflag : Z;
  linkname : list Z; magic : list Z; version : list Z; uname : list Z; gname : list Z; devmajor : list Z; devminor : list Z;
  prefix : list Z; padding : list Z
}.
Definition set_chksum x h := MkHeader (name h) (mode h) (uid h) (gid h) (size h) (mtime h) x (typeflag h) (linkname h) (magic h) (version h) (uname h) (gname h) (devmajor h) (devminor h) (prefix h) (padding h).

Definition encode (h : ustar_header) : list Z :=
  name h ++ mode h ++ uid h ++ gid h ++ size h ++ mtime h ++ chksum h ++ [typeflag h] ++ linkname h ++ magic h ++ version h ++
  uname h ++ gname h ++ devmajor h ++ devminor h ++ prefix h ++ padding h.

Definition field (ofs n : nat) (bs : list Z) : list Z := take n (drop ofs bs).
Definition decode (bs : list Z) : ustar_header :=
  MkHeader (field 0 100 bs) (field 100 8 bs) (field 108 8 bs) (field 116 8 bs) (field 124 12 bs) (field 136 12 bs) (field 148 8 bs)
    (nth 0 (field 156 1 bs) 0) (field 157 100 bs) (field 257 6 bs) (field 263 2 bs) (field 265 32 bs) (field 297 32 bs) (field 329 8 bs)
    (field 337 8 bs) (field 345 155 bs) (field 500 12 bs).

(** The loop of [calculate_chksum], from byte [i] on. *)
Fixpoint chksum_loop (bs : list Z) (i sum : Z) : Z :=
  match bs with
  | [] => sum
  | b :: bs => chksum_loop bs (i + 1) (u32 (sum + if (148 <=? i) && (i <? 156) then 32 else b))
  end.
Definition calculate_chksum (bs : list Z) : Z := chksum_loop bs 0 0.

(** ** Names *)
Definition starts_with (p l : list Z) : bool := bool_decide (take (length p) l = p).
Definition antisocial (l : list Z) : bool := starts_with [47] l || starts_with [46; 47] l || starts_with [46; 46; 47] l.

(** [strchr (l, '/') + 1]. *)
Fixpoint after_slash (l : list Z) : res (list Z) :=
  match l with [] => Err Fault | ch :: l => if ch =? 47 then Ok l else after_slash l end.

Fixpoint strip_loop (fuel : nat) (l : list Z) : res (list Z) :=
  if negb (antisocial l) then Ok l else
  match fuel with
  | O => Err Timeout
  | S fuel => match after_slash l with Ok l => strip_loop fuel l | Err e => Err e end
  end.
Definition strip_antisocial_prefixes (file_name : list Z) : res (list Z) :=
  match strip_loop (length file_name) file_name with
  | Ok l => Ok (if bool_decide (l = []) || bool_decide (l = [46; 46]) then [46] else l)
  | Err e => Err e
  end.

(** ** Making a header *)

(** [strlcpy] into a field of [n] zeros. *)
Definition strlcpy_field (n : nat) (src : list Z) : list Z := let t := take (n - 1) src in t ++ replicate (n - length t) 0.

(** [snprintf] into a field of [n] zeros, at address 1. *)
Definition zeros_at (n : nat) : CString.mem := list_to_map ((λ i, (Z.of_nat i, 0)) <$> seq 1 n).
Definition snprintf_field (n : nat) (format : list Z) (args : list arg) : res (list Z) :=
  match snprintf 1 (Z.of_nat n) format args (zeros_at n) with
  | Ok (_, m) => match mapM (λ i, m !! Z.of_nat i) (seq 1 n) with Some bs => Ok bs | None => Err Fault end
  | Err e => Err e
  end.

(** The header but for its checksum. *)
Definition new_header (file_name mode sz mtime : list Z) (type : Z) : ustar_header :=
  MkHeader (strlcpy_field 100 file_name) mode (strlcpy_field 8 (chars "0000000")) (strlcpy_field 8 (chars "0000000")) sz mtime
    (replicate 8 0) type (replicate 100 0) (strlcpy_field 6 (chars "ustar")) [48; 48] (strlcpy_field 32 (chars "root"))
    (strlcpy_field 32 (chars "root")) (replicate 8 0) (replicate 8 0) (replicate 155 0) (replicate 12 0).

Definition ustar_make_header (file_name : list Z) (type sz : Z) : res (option (list Z)) :=
  if negb ((type =? USTAR_REGULAR) || (type =? USTAR_DIRECTORY)) then Err Panic else
  match strip_antisocial_prefixes file_name with
  | Err e => Err e
  | Ok file_name =>
    if (99 <? length file_name)%nat then Ok None else
    match snprintf_field 8 (chars "%07o") [Int (if type =? USTAR_REGULAR then 420 else 493)],
          snprintf_field 12 (chars "%011o") [Int sz], snprintf_field 12 (chars "%011o") [Int 1136102400] with
    | Ok mode, Ok sz, Ok mtime =>
      let h := new_header file_name mode sz mtime type in
      match snprintf_field 8 (chars "%07o") [Int (calculate_chksum (encode h))] with
      | Ok sum => Ok (Some (encode (set_chksum sum h)))
      | Err e => Err e
      end
    | Err e, _, _ | _, Err e, _ | _, _, Err e => Err e
    end
  end.

(** ** Parsing a header *)
Fixpoint parse_octal_loop (s : list Z) (ofs : nat) (value : Z) : option Z :=
  match s with
  | [] => None
  | c :: s =>
    if (48 <=? c) && (c <=? 55) then
      if 4294967295 / 8 <? value then None else parse_octal_loop s (S ofs) (u32 (c - 48 + u32 (value * 8)))
    else if (c =? 32) || (c =? 0) then if (0 <? ofs)%nat then Some value else None
    else None
  end.
Definition parse_octal_field (s : list Z) : option Z := parse_octal_loop s 0 0.

Definition is_all_zeros (block : list Z) : bool := forallb (λ b, b =? 0) block.

(** The string at the start of a field. *)
Fixpoint string_in (l : list Z) : list Z := match l with [] => [] | ch :: l => if ch =? 0 then [] else ch :: string_in l end.

(** The error message, or the name (null at the end of the archive), the type
    and the size. *)
Definition ustar_parse_header (header : list Z) : res (list Z + option (list Z) * Z * Z) :=
  if is_all_zeros header then Ok (inr (None, USTAR_EOF, 0)) else
  let h := decode header in
  if negb (bool_decide (magic h = chars "ustar" ++ [0])) then Ok (inl (chars "not a ustar archive"))
  else if negb (bool_decide (version h = [48; 48])) then Ok (inl (chars "invalid ustar version"))
  else match parse_octal_field (chksum h) with
  | None => Ok (inl (chars "corrupt chksum field"))
  | Some sum =>
    if negb (sum =? calculate_chksum header) then Ok (inl (chars "checksum mismatch"))
    else if negb (nth 99 (name h) 0 =? 0) || negb (nth 0 (prefix h) 0 =? 0) then Ok (inl (chars "file name too long"))
    else if negb (typeflag h =? USTAR_REGULAR) && negb (typeflag h =? USTAR_DIRECTORY) then Ok (inl (chars "unimplemented file type"))
    else
      let done sz := match strip_antisocial_prefixes (string_in (name h)) with Ok l => Ok (inr (Some l, typeflag h, sz)) | Err e => Err e end in
      if typeflag h =? USTAR_REGULAR then
        match parse_octal_field (size h) with
        | None => Ok (inl (chars "corrupt file size field"))
        | Some size_ul => if 2147483647 <? size_ul then Ok (inl (chars "file too large")) else done size_ul
        end
      else done 0
  end.

Example ustar_example : match ustar_make_header (chars "../x/./y") USTAR_REGULAR 1000 with
  | Ok (Some h) => ustar_parse_header h | _ => Err Panic end = Ok (inr (Some (chars "x/./y"), USTAR_REGULAR, 1000)).
Proof. vm_compute. reflexivity. Qed.

(** ** Names *)
Lemma after_slash_ok l : antisocial l = true → ∃ l', after_slash l = Ok l' ∧ (length l' < length l)%nat ∧ l' `suffix_of` l.
Proof.
  intros Ha. unfold antisocial, starts_with in Ha. rewrite !orb_true_iff, !bool_decide_eq_true in Ha.
  destruct Ha as [[H|H]|H].
  - destruct l as [|a l]; [done|]. injection H as ->. exists l. split; [done|]. split; [simpl; lia|by exists [47]].
  - destruct l as [|a [|b l]]; try done. injection H as -> ->. exists l. split; [done|]. split; [simpl; lia|by exists [46; 47]].
  - destruct l as [|a [|b [|c l]]]; try done. injection H as -> -> ->. exists l. split; [done|]. split; [simpl; lia|by exists [46; 46; 47]].
Qed.

Lemma strip_loop_ok fuel : ∀ l, (length l ≤ fuel)%nat → ∃ l', strip_loop fuel l = Ok l' ∧ antisocial l' = false ∧ l' `suffix_of` l.
Proof.
  induction fuel as [|fuel IH]; intros l Hl; cbn [strip_loop]; destruct (antisocial l) eqn:Ha; cbn [negb]; try (exists l; done).
  - destruct (after_slash_ok l Ha) as (l' & _ & ? & _). lia.
  - destruct (after_slash_ok l Ha) as (l' & -> & Hlt & Hs). destruct (IH l') as (l'' & Hr & Hn & Hs'); [lia|].
    exists l''. split; [done|]. split; [done|]. by transitivity l'.
Qed.

(** Stripping ends, and what is left is stripped. *)
Definition social (l : list Z) : Prop := antisocial l = false ∧ l ≠ [] ∧ l ≠ [46; 46].

Lemma strip_social l : social l → strip_antisocial_prefixes l = Ok l.
Proof.
  intros (Ha & H1 & H2). unfold strip_antisocial_prefixes. destruct (length l) eqn:E; [by destruct l|]. cbn [strip_loop]. rewrite Ha. cbn [negb].
  by rewrite !bool_decide_false.
Qed.

Lemma strip_ok l (P : Z → Prop) : Forall P l → P 46 → ∃ l', strip_antisocial_prefixes l = Ok l' ∧ social l' ∧ Forall P l'.
Proof.
  intros Hl H46. unfold strip_antisocial_prefixes. destruct (strip_loop_ok (length l) l ltac:(lia)) as (l' & -> & Ha & [r Hr]).
  eexists. split; [reflexivity|]. assert (Hl' : Forall P l') by (rewrite Hr in Hl; by apply Forall_app in Hl as [_ ?]).
  destruct (bool_decide_reflect (l' = [])) as [E|E], (bool_decide_reflect (l' = [46; 46])) as [E'|E']; cbn [orb];
    try (split; [by split|by constructor]). by split.
Qed.

(** ** Fields *)
Lemma field_skip f ofs n r : (length f ≤ ofs)%nat → field ofs n (f ++ r) = field (ofs - length f) n r.
Proof. intros H. unfold field. by rewrite drop_app_ge. Qed.
Lemma field_here f n r : length f = n → field 0 n (f ++ r) = f.
Proof. intros <-. unfold field. simpl. apply take_app_length. Qed.

Record well_formed (h : ustar_header) : Prop := MkWf {
  wf_name : length (name h) = 100%nat; wf_mode : length (mode h) = 8%nat; wf_uid : length (uid h) = 8%nat;
  wf_gid : length (gid h) = 8%nat; wf_size : length (size h) = 12%nat; wf_mtime : length (mtime h) = 12%nat;
  wf_chksum : length (chksum h) = 8%nat; wf_linkname : length (linkname h) = 100%nat; wf_magic : length (magic h) = 6%nat;
  wf_version : length (version h) = 2%nat; wf_uname : length (uname h) = 32%nat; wf_gname : length (gname h) = 32%nat;
  wf_devmajor : length (devmajor h) = 8%nat; wf_devminor : length (devminor h) = 8%nat; wf_prefix : length (prefix h) = 155%nat;
  wf_padding : length (padding h) = 12%nat
}.

Lemma header_decode_encode h : well_formed h → decode (encode h) = h ∧ length (encode h) = 512%nat.
Proof.
  intros [E1 E2 E3 E4 E5 E6 E7 E8 E9 E10 E11 E12 E13 E14 E15 E16]. split.
  - unfold decode, encode. destruct h. cbn [name mode uid gid size mtime chksum typeflag linkname magic version uname gname devmajor devminor prefix padding] in *.
    f_equal.
    all: repeat (rewrite field_skip by (first [rewrite E1|rewrite E2|rewrite E3|rewrite E4|rewrite E5|rewrite E6|rewrite E7|rewrite E8|rewrite E9|rewrite E10|rewrite E11|rewrite E12|rewrite E13|rewrite E14|rewrite E15|idtac]; simpl; lia);
           rewrite ?E1, ?E2, ?E3, ?E4, ?E5, ?E6, ?E7, ?E8, ?E9, ?E10, ?E11, ?E12, ?E13, ?E14, ?E15; cbn [Nat.sub length]).
    all: first [by apply field_here|by rewrite field_here|unfold field; rewrite drop_0; apply take_ge; lia].
  - unfold encode. rewrite !length_app. rewrite E1, E2, E3, E4, E5, E6, E7, E8, E9, E10, E11, E12, E13, E14, E15, E16. reflexivity.
Qed.

(** ** The checksum *)
Lemma chksum_app l l' : ∀ i sum, chksum_loop (l ++ l') i sum = chksum_loop l' (i + Z.of_nat (length l)) (chksum_loop l i sum).
Proof.
  induction l as [|b l IH]; intros i sum; simpl; [by rewrite Z.add_0_r|]. rewrite IH. f_equal. lia.
Qed.
(** It does not depend on its own field. *)
Lemma chksum_own l : ∀ l' i sum, length l = length l' → 148 ≤ i → i + Z.of_nat (length l) ≤ 156 → chksum_loop l i sum = chksum_loop l' i sum.
Proof.
  induction l as [|b l IH]; intros [|b' l'] i sum Hl Hi Hb; try done. simpl in *.
  rewrite (proj2 (Z.leb_le 148 i)), (proj2 (Z.ltb_lt i 156)) by lia. cbn [andb]. apply IH; lia.
Qed.
Lemma chksum_range l : ∀ i sum, Forall (λ b, 0 ≤ b < 256) l → 0 ≤ sum → sum + 255 * Z.of_nat (length l) < 2 ^ 32 →
  0 ≤ chksum_loop l i sum ≤ sum + 255 * Z.of_nat (length l).
Proof.
  induction l as [|b l IH]; intros i sum Hl Hs Hb; cbn [chksum_loop length] in *; [lia|]. apply Forall_cons in Hl as [Hb0 Hl].
  set (x := if (148 <=? i) && (i <? 156) then 32 else b). assert (Hx : 0 ≤ x ≤ 255) by (unfold x; destruct (_ && _); lia).
  rewrite u32_id by (unfold in_u32; lia). specialize (IH (i + 1) (sum + x) Hl ltac:(lia) ltac:(lia)). lia.
Qed.

Lemma chksum_set h a : well_formed h → length a = 8%nat → calculate_chksum (encode (set_chksum a h)) = calculate_chksum (encode h).
Proof.
  intros Hw Ha. unfold calculate_chksum, encode. cbn [name mode uid gid size mtime chksum typeflag linkname magic version uname gname devmajor devminor prefix padding set_chksum].
  rewrite !chksum_app, !Z.add_0_l, (wf_name _ Hw), (wf_mode _ Hw), (wf_uid _ Hw), (wf_gid _ Hw), (wf_size _ Hw), (wf_mtime _ Hw), (wf_chksum _ Hw), Ha.
  rewrite (chksum_own a (chksum h)); [done|by rewrite Ha, (wf_chksum _ Hw)|lia|rewrite Ha; lia].
Qed.

(** ** Numbers *)
Lemma parse_octal_ok text rest : ∀ ofs acc, Forall (λ ch, 48 ≤ ch < 56) text → 0 ≤ acc → (0 < ofs + length text)%nat → StdioSpec.dec 8 acc text < 2 ^ 32 →
  parse_octal_loop (text ++ 0 :: rest) ofs acc = Some (StdioSpec.dec 8 acc text).
Proof.
  induction text as [|ch text IH]; intros ofs acc Ht Ha Ho Hb; cbn [app parse_octal_loop length] in *.
  { destruct ofs; [simpl in Ho; lia|reflexivity]. }
  apply Forall_cons in Ht as [Hch Ht]. rewrite (proj2 (Z.leb_le 48 ch)), (proj2 (Z.leb_le ch 55)) by lia. cbn [andb].
  change (StdioSpec.dec 8 acc (ch :: text)) with (StdioSpec.dec 8 (acc * 8 + (ch - 48)) text) in *.
  assert (Hge : ∀ l a, 0 ≤ a → Forall (λ c, 48 ≤ c < 56) l → a ≤ StdioSpec.dec 8 a l).
  { induction l as [|c l IHl]; intros a H0 Hl; [done|]. apply Forall_cons in Hl as [Hc Hl].
    specialize (IHl (a * 8 + (c - 48)) ltac:(lia) Hl). change (StdioSpec.dec 8 a (c :: l)) with (StdioSpec.dec 8 (a * 8 + (c - 48)) l). lia. }
  specialize (Hge text (acc * 8 + (ch - 48)) ltac:(lia) Ht). change (4294967295 / 8) with 536870911.
  rewrite (proj2 (Z.ltb_ge 536870911 acc)) by lia. rewrite (u32_id (acc * 8)) by (unfold in_u32; lia). rewrite u32_id by (unfold in_u32; lia).
  replace (ch - 48 + acc * 8) with (acc * 8 + (ch - 48)) by lia. apply IH; [done|lia|lia|done].
Qed.

(** [%0<w>o]: [w] octal digits. *)
Lemma octal_text spec w v : parse_conversion spec [Int v] = Ok (MkConversion ZERO (Z.of_nat w) (-1) INT, [111], [Int v]) → head spec ≠ Some 37 →
  (0 < w)%nat → 0 ≤ v < 2 ^ 32 → v < 8 ^ Z.of_nat w →
  ∃ text, StdioSpec.emitted (37 :: spec) [Int v] text ∧ length text = w ∧ Forall (λ ch, 48 ≤ ch < 56) text ∧ StdioSpec.dec 8 0 text = v.
Proof.
  intros Hp Hh Hw Hv Hv8. set (c := MkConversion ZERO (Z.of_nat w) (-1) INT) in *.
  destruct (StdioSpec.plain_buf base_o v c StdioSpec.base_o_plain ltac:(lia) eq_refl ltac:(by right)) as (ds & n & Hbuf & Hd & Hval & Hk & Hn).
  specialize (Hk w Hv8). specialize (Hn ltac:(simpl; lia)). set (buf := ds ++ replicate n 48) in *.
  assert (Hlen : (length buf ≤ w)%nat) by (unfold buf; rewrite length_app, length_replicate; lia).
  exists (replicate (w - length buf) 48 ++ reverse buf). split_and!.
  - unfold StdioSpec.emitted, __vprintf. cbn [length]. replace (S (length spec) + 32)%nat with (S (S (length spec + 31))) by lia.
    rewrite StdioSpec.loop_conversion by done. rewrite Hp. erewrite run_bind_ok by reflexivity. cbv beta iota.
    erewrite run_bind_ok; [reflexivity|]. unfold convert. cbn [Z.eqb Pos.eqb orb type c unsigned_value va_word].
    erewrite run_bind_ok by reflexivity. cbv beta iota. rewrite u32_id by done. erewrite run_bind_ok; [reflexivity|].
    unfold format_integer. rewrite Hbuf. erewrite run_bind_ok by reflexivity. cbn [flags c].
    change (has ZERO POUND) with false. cbn [andb]. change (sign_char false false ZERO) with 0. cbn [Z.eqb].
    change (Z.land ZERO (Z.lor MINUS ZERO) =? 0) with false. change (has ZERO ZERO) with true. change (has ZERO MINUS) with false. cbv iota.
    erewrite run_bind_ok by reflexivity. erewrite run_bind_ok by reflexivity. erewrite run_bind_ok by reflexivity.
    rewrite (run_bind_ok _ _ _ _ _ (StdioSpec.emit_dup _ _ _)), (run_bind_ok _ _ _ _ _ (StdioSpec.emit_all _ _)).
    unfold mret, ST_ret. do 3 f_equal. simpl app. f_equal. f_equal. cbn [width c]. destruct (Z.ltb_spec (Z.of_nat w - Z.of_nat (length buf) - 0 - 0) 0); lia.
  - rewrite length_app, length_replicate, length_reverse. lia.
  - apply Forall_app_2; [by apply Forall_replicate|by apply Forall_reverse].
  - revert Hval. change (base base_o) with 8. intros <-. generalize (w - length buf)%nat. intros z. induction z as [|z IH]; [done|]. exact IH.
Qed.

Lemma zeros_at_lookup n i : 1 ≤ i < 1 + Z.of_nat n → zeros_at n !! i = Some 0.
Proof.
  intros Hi. unfold zeros_at. apply elem_of_list_to_map_1.
  - rewrite <- list_fmap_compose. apply (NoDup_fmap_2_strong _ (seq 1 n)); [intros x y _ _ E; simpl in E; lia|apply NoDup_seq].
  - apply list_elem_of_fmap. exists (Z.to_nat i). split; [f_equal; lia|]. apply elem_of_seq. lia.
Qed.

Lemma snprintf_field_ok n format args text : StdioSpec.emitted format args text → (length text < n)%nat → (n ≤ 512)%nat →
  snprintf_field n format args = Ok (text ++ replicate (n - length text) 0).
Proof.
  intros He Hl Hn. unfold snprintf_field, snprintf.
  destruct (StdioSpec.vsnprintf_ok format args text (zeros_at n) 1 (Z.of_nat n) He) as (m & -> & Hm); [lia|lia|intros i Hi; rewrite zeros_at_lookup by lia; by eexists|].
  rewrite decide_False in Hm by lia. rewrite take_ge in Hm by lia.
  assert (E : mapM (λ i, m !! Z.of_nat i) (seq 1 n) = Some (text ++ replicate (n - length text) 0)); [|by rewrite E].
  apply mapM_Some. apply Forall2_same_length_lookup. split; [rewrite length_seq, length_app, length_replicate; lia|].
  intros k i b Hk Hb. apply lookup_seq in Hk as [-> Hk]. rewrite Hm, length_app. simpl length.
  destruct (decide (k < length text)%nat) as [Hlt|Hge].
  - rewrite lookup_app_l in Hb by done. rewrite decide_True by lia. rewrite lookup_app_l by lia. by replace (Z.to_nat _) with k by lia.
  - rewrite lookup_app_r in Hb by lia. apply lookup_replicate in Hb as [-> _]. destruct (decide (k = length text)) as [->|].
    + rewrite decide_True by lia. rewrite lookup_app_r by lia. replace (Z.to_nat _ - length text)%nat with 0%nat by lia. done.
    + rewrite decide_False by lia. apply zeros_at_lookup. lia.
Qed.

(** An octal field is read back. *)
Lemma octal_field spec w v : parse_conversion spec [Int v] = Ok (MkConversion ZERO (Z.of_nat w) (-1) INT, [111], [Int v]) → head spec ≠ Some 37 →
  (0 < w < 512)%nat → 0 ≤ v < 2 ^ 32 → v < 8 ^ Z.of_nat w →
  ∃ f, snprintf_field (S w) (37 :: spec) [Int v] = Ok f ∧ length f = S w ∧ Forall (λ b, 0 ≤ b < 256) f ∧ parse_octal_field f = Some v.
Proof.
  intros Hp Hh Hw Hv Hv8. destruct (octal_text spec w v Hp Hh ltac:(lia) Hv Hv8) as (text & He & Hl & Ht & Hd).
  exists (text ++ [0]). rewrite (snprintf_field_ok (S w) _ _ text He) by lia. replace (S w - length text)%nat with 1%nat by lia.
  split; [done|]. split; [rewrite length_app; simpl; lia|]. split.
  - apply Forall_app_2; [|by repeat constructor]. eapply Forall_impl; [exact Ht|]. simpl. lia.
  - unfold parse_octal_field. rewrite parse_octal_ok; [by rewrite Hd|done|lia|lia|rewrite Hd; lia].
Qed.

Lemma strlcpy_field_ok n src : (length src < n)%nat → Forall (λ b, 0 < b < 256) src →
  length (strlcpy_field n src) = n ∧ Forall (λ b, 0 ≤ b < 256) (strlcpy_field n src) ∧ string_in (strlcpy_field n src) = src ∧ nth (n - 1) (strlcpy_field n src) 0 = 0.
Proof.
  intros Hl Hs. unfold strlcpy_field. rewrite take_ge by lia. split; [rewrite length_app, length_replicate; lia|]. split.
  { apply Forall_app_2; [eapply Forall_impl; [exact Hs|]; simpl; lia|by apply Forall_replicate]. } split.
  - replace (n - length src)%nat with (S (n - length src - 1)) by lia. generalize (n - length src - 1)%nat. intros k. clear Hl. induction Hs as [|b l Hb _ IH]; [done|].
    simpl. rewrite (proj2 (Z.eqb_neq b 0)) by lia. f_equal. exact IH.
  - rewrite nth_lookup, lookup_app_r by lia. rewrite lookup_replicate_2 by lia. done.
Qed.

Abbreviation bytes := (Forall (λ b, 0 ≤ b < 256)).

Lemma new_header_ok nm fm fs ft type : (length nm ≤ 99)%nat → Forall (λ b, 0 < b < 256) nm → length fm = 8%nat → length fs = 12%nat → length ft = 12%nat →
  bytes fm → bytes fs → bytes ft → 0 ≤ type < 256 →
  well_formed (new_header nm fm fs ft type) ∧ bytes (encode (new_header nm fm fs ft type)).
Proof.
  intros Hl Hn Lm Ls Lt Bm Bs Bt Ht. destruct (strlcpy_field_ok 100 nm ltac:(lia) Hn) as (Lname & Bname & _).
  split; [split; cbn [name mode uid gid size mtime chksum typeflag linkname magic version uname gname devmajor devminor prefix padding new_header];
          first [done|by rewrite length_replicate|reflexivity]|].
  unfold encode, new_header. cbn [name mode uid gid size mtime chksum typeflag linkname magic version uname gname devmajor devminor prefix padding].
  rewrite !Forall_app. split_and!; first [done|apply Forall_replicate; lia|by apply Forall_singleton|vm_compute; repeat constructor; congruence].
Qed.

(** A header that a checksum has been put into is accepted. *)
Lemma parse_ok h sum nm : well_formed h → magic h = chars "ustar" ++ [0] → version h = [48; 48] →
  length sum = 8%nat → parse_octal_field sum = Some (calculate_chksum (encode h)) →
  nth 99 (name h) 0 = 0 → nth 0 (prefix h) 0 = 0 → string_in (name h) = nm → social nm →
  typeflag h = USTAR_REGULAR ∨ typeflag h = USTAR_DIRECTORY → ∀ sz, 0 ≤ sz < 2 ^ 31 → parse_octal_field (size h) = Some sz →
  ustar_parse_header (encode (set_chksum sum h)) = Ok (inr (Some nm, typeflag h, if typeflag h =? USTAR_REGULAR then sz else 0)).
Proof.
  intros Hw Hmagic Hver Lsum Psum Hn99 Hp0 Hstr Hsoc Htype sz Hsz Psz. set (g := set_chksum sum h).
  assert (Hwg : well_formed g) by (destruct Hw; by constructor). destruct (header_decode_encode g Hwg) as [Edec _].
  unfold ustar_parse_header. rewrite Edec. assert (Enz : is_all_zeros (encode g) = false).
  { apply not_true_is_false. unfold is_all_zeros. rewrite forallb_forall. intros Hz. specialize (Hz 117).
    assert (In 117 (encode g)) as Hin; [|by specialize (Hz Hin)]. apply list_elem_of_In. unfold encode. rewrite !elem_of_app.
    do 9 right. left. cbn [magic g set_chksum]. rewrite Hmagic. left. }
  rewrite Enz. cbn [magic version chksum name prefix typeflag size g set_chksum]. fold g. rewrite Hmagic, Hver, !bool_decide_true by done. cbn [negb].
  rewrite Psum. unfold g at 1. rewrite (chksum_set h sum Hw Lsum), Z.eqb_refl. cbn [negb]. rewrite Hn99, Hp0. cbn [Z.eqb negb orb].
  rewrite Hstr, (strip_social nm Hsoc), Psz. destruct Htype as [->| ->]; cbn [Z.eqb negb andb]; [|done].
  change (USTAR_REGULAR =? USTAR_REGULAR) with true. cbn [negb andb]. by rewrite (proj2 (Z.ltb_ge 2147483647 sz)) by lia.
Qed.

(** Composing a header and parsing it. *)
Lemma make_parse_header file_name type sz : Forall (λ b, 0 < b < 256) file_name → 0 ≤ sz < 2 ^ 31 →
  type = USTAR_REGULAR ∨ type = USTAR_DIRECTORY →
  ∃ stripped, strip_antisocial_prefixes file_name = Ok stripped ∧ ((length stripped ≤ 99)%nat →
  ∃ header, ustar_make_header file_name type sz = Ok (Some header) ∧ length header = USTAR_HEADER_SIZE ∧
    ustar_parse_header header = Ok (inr (Some stripped, type, if type =? USTAR_REGULAR then sz else 0))).
Proof.
  intros Hf Hsz Htype. destruct (strip_ok file_name (λ b, 0 < b < 256) Hf ltac:(simpl; lia)) as (nm & Hstrip & Hsoc & Hnm). exists nm. split; [done|]. intros Hlen.
  unfold ustar_make_header. assert (Ht : (type =? USTAR_REGULAR) || (type =? USTAR_DIRECTORY) = true) by (destruct Htype as [->| ->]; done).
  rewrite Ht. cbn [negb]. rewrite Hstrip. rewrite (proj2 (Nat.ltb_ge 99 (length nm))) by lia.
  destruct (octal_field (chars "07o") 7 (if type =? USTAR_REGULAR then 420 else 493)) as (fmode & Emode & Lmode & Bmode & _);
    [reflexivity|done|lia|destruct (type =? USTAR_REGULAR); lia|destruct (type =? USTAR_REGULAR); lia|].
  destruct (octal_field (chars "011o") 11 sz) as (fsize & Esize & Lsize & Bsize & Psize); [reflexivity|done|lia|lia|lia|].
  destruct (octal_field (chars "011o") 11 1136102400) as (ftime & Etime & Ltime & Btime & _); [reflexivity|done|lia|lia|lia|].
  change (chars "%07o") with (37 :: chars "07o"). change (chars "%011o") with (37 :: chars "011o"). rewrite Emode, Esize, Etime.
  destruct (new_header_ok nm fmode fsize ftime type Hlen Hnm Lmode Lsize Ltime Bmode Bsize Btime) as [Hw Hb]; [destruct Htype as [->| ->]; unfold USTAR_REGULAR, USTAR_DIRECTORY; lia|].
  set (h := new_header nm fmode fsize ftime type) in *. assert (Hr := chksum_range (encode h) 0 0 Hb ltac:(lia)).
  rewrite (proj2 (header_decode_encode h Hw)) in Hr. specialize (Hr ltac:(lia)). fold (calculate_chksum (encode h)) in Hr.
  destruct (octal_field (chars "07o") 7 (calculate_chksum (encode h))) as (fsum & Esum & Lsum & _ & Psum); [reflexivity|done|lia|lia|lia|].
  rewrite Esum. eexists. split; [reflexivity|].
  destruct (strlcpy_field_ok 100 nm ltac:(lia) Hnm) as (_ & _ & Sname & Nname).
  split; [apply header_decode_encode; destruct Hw; by constructor|].
  rewrite (parse_ok h fsum nm Hw eq_refl eq_refl Lsum Psum Nname eq_refl Sname Hsoc Htype sz Hsz Psize). done.
Qed.

(** C35: Archive headers.  For a file name of which at most 99 characters are
    left once leading [/], [./] and [../] are stripped, [ustar_make_header]
    makes a header of 512 bytes, and [ustar_parse_header] accepts it, checksum
    included, and returns the stripped name, the type and, for a file, the size. *)
Theorem ustar_roundtrip file_name type sz : Forall (λ b, 0 < b < 256) file_name → 0 ≤ sz < 2 ^ 31 →
  type = USTAR_REGULAR ∨ type = USTAR_DIRECTORY →
  ∃ stripped, strip_antisocial_prefixes file_name = Ok stripped ∧ ((length stripped ≤ 99)%nat →
  ∃ header, ustar_make_header file_name type sz = Ok (Some header) ∧ length header = USTAR_HEADER_SIZE ∧
    ustar_parse_header header = Ok (inr (Some stripped, type, if type =? USTAR_REGULAR then sz else 0))).
Proof. apply make_parse_header. Qed.

Lemma ustar_roundtrip_witness : ∃ header, ustar_make_header (chars "../a.txt") USTAR_REGULAR 1000 = Ok (Some header) ∧
  ustar_parse_header header = Ok (inr (Some (chars "a.txt"), USTAR_REGULAR, 1000)).
Proof.
  destruct (ustar_roundtrip (chars "../a.txt") USTAR_REGULAR 1000) as (nm & Hs & Hh).
  - repeat constructor.
  - lia.
  - left. reflexivity.
  - assert (nm = chars "a.txt") as -> by (injection Hs; intros <-; reflexivity).
    destruct Hh as (header & H1 & _ & H2); [simpl; lia|]. exists header. split; [exact H1|exact H2].
Defined.
End Ustar.
