(* ===== verification/Hash.v ===== *)
(** * Hash tables

    [src/pintos/lib/kernel/hash.c].  A bucket is the sequence of its elements
    (what [list.c] implements); an element is a value of [E] with the user's
    [hash] and [less] functions.  [malloc] may fail in [hash_init] and
    [rehash]: its outcome is the argument [alloc]. *)
From S2P Require Import Prelude CInt.

Open Scope Z_scope.

Module Hash.

(** ** Hash functions *)
Definition FNV_32_PRIME : Z := 16777619.
Definition FNV_32_BASIS : Z := 2166136261.

(** One round of the loops below. *)
Definition fnv_step (hash : Z) (c : Z) : Z := Z.lxor (u32 (hash * FNV_32_PRIME)) c.
Definition hash_bytes (buf : list Z) : Z := fold_left fnv_step buf FNV_32_BASIS.
(** Up to the terminating null character. *)
Fixpoint hash_string_loop (s : list Z) (hash : Z) : res Z :=
  match s with
  | [] => Err Fault
  | c :: s => if c =? 0 then Ok hash else hash_string_loop s (fnv_step hash c)
  end.
Definition hash_string (s : list Z) : res Z := hash_string_loop s FNV_32_BASIS.
(** The four bytes of an [int], little-endian. *)
Definition hash_int (i : Z) : Z :=
  hash_bytes [u32 i mod 256; u32 i / 2 ^ 8 mod 256; u32 i / 2 ^ 16 mod 256; u32 i / 2 ^ 24].

(** ** Tables *)

(** [struct hash]; [bucket_cnt] is the number of buckets. *)
Record hash (E : Type) := MkHash { elem_cnt : Z; buckets : list (list E) }.
Arguments MkHash {E}.
Arguments elem_cnt {E}.
Arguments buckets {E}.

(** [struct hash_iterator]: the bucket and the position in it, -1 for the
    list head; [None] once the elements are exhausted. *)
Record hash_iterator := MkIter { i_bucket : nat; i_elem : option Z }.

Definition turn_off_least_1bit (x : Z) : Z := Z.land x (u32 (x - 1)).
Definition is_power_of_2 (x : Z) : bool := negb (x =? 0) && (turn_off_least_1bit x =? 0).

Definition MIN_ELEMS_PER_BUCKET : Z := 1.
Definition BEST_ELEMS_PER_BUCKET : Z := 2.
Definition MAX_ELEMS_PER_BUCKET : Z := 4.

(** [while (!is_power_of_2 (n)) n = turn_off_least_1bit (n)]. *)
Fixpoint power_loop (fuel : nat) (n : Z) : res Z :=
  if is_power_of_2 n then Ok n
  else match fuel with O => Err Timeout | S fuel => power_loop fuel (turn_off_least_1bit n) end.

Section table.
Context {E : Type} `{EqDecision E} (hashf : E → Z) (less : E → E → bool).
Abbreviation M := (ST (hash E)).

Definition bucket_cnt (h : hash E) : Z := Z.of_nat (length (buckets h)).

(** [hash_clear]; with a destructor it returns the elements destroyed, in
    order. *)
Definition hash_clear (destructor : bool) : M (list E) :=
  h ← get;
  put (MkHash 0 (replicate (length (buckets h)) [])) ;;
  mret (if destructor then concat (buckets h) else []).

(** [None]: [hash_init] returns false. *)
Definition hash_init (alloc : bool) : option (hash E) :=
  if alloc then Some (MkHash 0 (replicate 4 [])) else None.

(** [hash_destroy] with a destructor. *)
Definition hash_destroy : M (list E) := hash_clear true.

(** The index of [find_bucket]. *)
Definition find_bucket (h : hash E) (e : E) : Z := Z.land (hashf e) (bucket_cnt h - 1).

Definition get_bucket (i : Z) : M (list E) := h ← get; deref (buckets h !! Z.to_nat i).
Definition put_bucket (i : Z) (b : list E) : M unit :=
  h ← get; deref (buckets h !! Z.to_nat i) ;;
  put (MkHash (elem_cnt h) (<[Z.to_nat i := b]> (buckets h))).

Definition equal (a b : E) : bool := negb (less a b) && negb (less b a).

Fixpoint find_elem (bucket : list E) (e : E) : option E :=
  match bucket with
  | [] => None
  | hi :: bucket => if equal hi e then Some hi else find_elem bucket e
  end.

Definition insert_elem (i : Z) (e : E) : M unit :=
  modify (λ h, MkHash (u32 (elem_cnt h + 1)) (buckets h)) ;;
  b ← get_bucket i;
  put_bucket i (e :: b).

(** [list_remove] takes the element out of the list it is in. *)
Definition remove_elem (e : E) : M unit :=
  modify (λ h, MkHash (u32 (elem_cnt h - 1)) (List.map (filter (λ x, x ≠ e)) (buckets h))).

(** The inner loop of [rehash]: moves the elements of an old bucket. *)
Fixpoint move_loop (old_bucket : list E) : M unit :=
  match old_bucket with
  | [] => mret tt
  | elem :: next =>
    h ← get;
    let i := find_bucket h elem in
    b ← get_bucket i;
    put_bucket i (elem :: b) ;;
    move_loop next
  end.
Fixpoint rehash_loop (old_buckets : list (list E)) : M unit :=
  match old_buckets with
  | [] => mret tt
  | b :: bs => move_loop b ;; rehash_loop bs
  end.

(** The number of buckets [rehash] wants. *)
Definition ideal_bucket_cnt (elem_cnt : Z) : res Z :=
  let n := elem_cnt / BEST_ELEMS_PER_BUCKET in
  power_loop 32 (if n <? 4 then 4 else n).

Definition rehash (alloc : bool) : M unit :=
  h ← get;
  match ideal_bucket_cnt (elem_cnt h) with
  | Err e => fail e
  | Ok new_bucket_cnt =>
    if new_bucket_cnt =? bucket_cnt h then mret tt
    else if negb alloc then mret tt
    else
      put (MkHash (elem_cnt h) (replicate (Z.to_nat new_bucket_cnt) [])) ;;
      rehash_loop (buckets h)
  end.

Definition hash_insert (alloc : bool) (new : E) : M (option E) :=
  h ← get;
  let i := find_bucket h new in
  bucket ← get_bucket i;
  let old := find_elem bucket new in
  match old with None => insert_elem i new | Some _ => mret tt end ;;
  rehash alloc ;;
  mret old.

Definition hash_replace (alloc : bool) (new : E) : M (option E) :=
  h ← get;
  let i := find_bucket h new in
  bucket ← get_bucket i;
  let old := find_elem bucket new in
  match old with Some o => remove_elem o | None => mret tt end ;;
  insert_elem i new ;;
  rehash alloc ;;
  mret old.

Definition hash_find (e : E) : M (option E) :=
  h ← get;
  bucket ← get_bucket (find_bucket h e);
  mret (find_elem bucket e).

Definition hash_delete (alloc : bool) (e : E) : M (option E) :=
  h ← get;
  bucket ← get_bucket (find_bucket h e);
  let found := find_elem bucket e in
  match found with
  | Some o => remove_elem o ;; rehash alloc
  | None => mret tt
  end ;;
  mret found.

(** The elements in the order [action] is called on them. *)
Definition hash_apply : M (list E) := gets (λ h, concat (buckets h)).

Definition hash_size : M Z := gets elem_cnt.
Definition hash_empty : M bool := gets (λ h, elem_cnt h =? 0).

(** ** Iterators *)
Definition hash_first : hash_iterator := MkIter 0 (Some (-1)).

(** The loop of [hash_next]: skips to the first element from bucket [b],
    position [p]. *)
Fixpoint next_loop (fuel : nat) (h : hash E) (b : nat) (p : Z) : res hash_iterator :=
  match buckets h !! b with
  | None => Err Fault
  | Some l =>
    if p =? Z.of_nat (length l) then
      match fuel with
      | O => Err Timeout
      | S fuel =>
        if (length (buckets h) <=? S b)%nat then Ok (MkIter (S b) None) else next_loop fuel h (S b) 0
      end
    else Ok (MkIter b (Some p))
  end.
(** On an exhausted iterator the C code reads through a null pointer. *)
Definition hash_next (h : hash E) (i : hash_iterator) : res hash_iterator :=
  match i_elem i with
  | None => Err Fault
  | Some p => next_loop (length (buckets h)) h (i_bucket i) (p + 1)
  end.
Definition hash_cur (h : hash E) (i : hash_iterator) : option E :=
  match i_elem i with
  | None => None
  | Some p => buckets h !! i_bucket i ≫= λ l, l !! Z.to_nat p
  end.
End table.

End Hash.
