(* ===== verification/HashSpec.v ===== *)
(** * Hash tables implement sets of elements

    The table is a set of pairwise different elements, whatever the number of
    buckets and the outcome of the allocations in [rehash]; every call gives
    the result of the same call on the set. *)
From S2P Require Import Prelude CInt Hash.
Import Hash.

Open Scope Z_scope.

(** ** Powers of two *)
Lemma land_pred_bit x k : 0 < x → (2 ^ k | x) → 0 ≤ k → (2 ^ (k + 1) | Z.land x (x - 1)).
Proof.
  intros Hx [q Hq] Hk. assert (Hp : 0 < 2 ^ k) by lia.
  destruct (Z.Even_or_Odd q) as [[m Hm]|[m Hm]].
  - apply Z.mod_divide; [lia|]. rewrite <- Z.land_ones by lia. rewrite <- Z.land_assoc, (Z.land_comm (x - 1)), Z.land_assoc.
    assert (E : Z.land x (Z.ones (k + 1)) = 0).
    { rewrite Z.land_ones by lia. apply Z.mod_divide; [lia|]. exists m. rewrite Z.pow_add_r by lia. lia. }
    by rewrite E.
  - assert (E : x = 2 ^ k + m * 2 ^ (k + 1)) by (rewrite Z.pow_add_r by lia; lia).
    assert (E1 : x - 1 = (2 ^ k - 1) + m * 2 ^ (k + 1)) by lia.
    apply Z.mod_divide; [lia|]. rewrite <- Z.land_ones by lia.
    apply Z.bits_inj'. intros n Hn. rewrite Z.bits_0, !Z.land_spec, Z.testbit_ones_nonneg by lia.
    destruct (Z.ltb_spec n (k + 1)); [|by rewrite andb_false_r]. rewrite andb_true_r.
    rewrite <- (Z.mod_pow2_bits_low x (k + 1) n), <- (Z.mod_pow2_bits_low (x - 1) (k + 1) n) by lia.
    rewrite E1, E, !Z.mod_add by lia.
    rewrite (Z.mod_small (2 ^ k)), (Z.mod_small (2 ^ k - 1)) by (rewrite Z.pow_add_r; lia).
    rewrite Z.pow2_bits_eqb by lia. replace (2 ^ k - 1) with (Z.ones k) by (rewrite Z.ones_equiv; lia).
    rewrite Z.testbit_ones_nonneg by lia. bcase; bcase; (done || lia).
Qed.

Lemma turn_off_eq x : 0 < x < 2 ^ 32 → turn_off_least_1bit x = Z.land x (x - 1).
Proof. intros H. unfold turn_off_least_1bit. by rewrite u32_id by (unfold in_u32; lia). Qed.

(** Unless [x] is a power of two, its highest bit stays. *)
Lemma turn_off_log2 x : 0 < x < 2 ^ 32 → x ≠ 2 ^ Z.log2 x →
  0 < turn_off_least_1bit x < 2 ^ 32 ∧ Z.log2 (turn_off_least_1bit x) = Z.log2 x.
Proof.
  intros Hx Hne. rewrite turn_off_eq by done. assert (Hl := Z.log2_spec x ltac:(lia)).
  assert (Hl1 : Z.log2 (x - 1) = Z.log2 x) by (apply Z.log2_unique; [apply Z.log2_nonneg|lia]).
  assert (Hbit : Z.testbit (Z.land x (x - 1)) (Z.log2 x) = true).
  { rewrite Z.land_spec, Z.bit_log2 by lia. rewrite <- Hl1. rewrite Z.bit_log2; [done|].
    assert (1 < x); [|lia]. destruct (Z.eq_dec x 1) as [->|]; [done|lia]. }
  assert (H0 : 0 ≤ Z.land x (x - 1)) by (apply Z.land_nonneg; lia).
  assert (Hne0 : Z.land x (x - 1) ≠ 0) by (intros E; rewrite E, Z.bits_0 in Hbit; done).
  assert (Hle : Z.log2 (Z.land x (x - 1)) ≤ Z.log2 x).
  { etrans; [apply Z.log2_land; lia|]. lia. }
  assert (Hge : Z.log2 x ≤ Z.log2 (Z.land x (x - 1))).
  { destruct (Z_le_gt_dec (Z.log2 x) (Z.log2 (Z.land x (x - 1)))); [done|].
    rewrite Z.bits_above_log2 in Hbit by lia. done. }
  split; [|lia]. split; [lia|].
  assert (Hs := Z.log2_spec (Z.land x (x - 1)) ltac:(lia)).
  assert (Z.log2 x < 32) by (apply Z.log2_lt_pow2; lia).
  assert (2 ^ Z.succ (Z.log2 (Z.land x (x - 1))) ≤ 2 ^ 32); [|lia]. apply Z.pow_le_mono_r; lia.
Qed.

Lemma is_power_spec x : 0 < x < 2 ^ 32 → is_power_of_2 x = true ↔ x = 2 ^ Z.log2 x.
Proof.
  intros Hx. unfold is_power_of_2. rewrite andb_true_iff, negb_true_iff, Z.eqb_neq, Z.eqb_eq. split.
  - intros [_ H]. destruct (Z.eq_dec x (2 ^ Z.log2 x)) as [|Hne]; [done|].
    destruct (turn_off_log2 x Hx Hne) as [? _]. lia.
  - intros E. split; [lia|]. rewrite turn_off_eq by done. assert (Hn := Z.log2_nonneg x).
    rewrite E at 1 2. replace (2 ^ Z.log2 x - 1) with (Z.ones (Z.log2 x)) by (rewrite Z.ones_equiv; lia).
    rewrite Z.land_ones by done. apply Z.mod_same. lia.
Qed.

(** The loop stops at the highest power of two. *)
Lemma power_loop_ok fuel : ∀ x j,
  0 < x < 2 ^ 32 → 0 ≤ j → (2 ^ j | x) → Z.log2 x < j + Z.of_nat fuel + 1 → power_loop fuel x = Ok (2 ^ Z.log2 x).
Proof.
  induction fuel as [|fuel IH]; intros x j Hx Hj Hd Hf; simpl;
    destruct (is_power_of_2 x) eqn:Ep; try (apply is_power_spec in Ep; [by rewrite <- Ep|done]).
  - exfalso. assert (Hn : x ≠ 2 ^ Z.log2 x) by (intros E%is_power_spec; [congruence|done]).
    assert (Hl := Z.log2_spec x ltac:(lia)). apply Z.divide_pos_le in Hd as Hle; [|lia].
    assert (Ej : Z.log2 x = j).
    { assert (j ≤ Z.log2 x); [|lia]. apply Z.log2_le_pow2; lia. }
    rewrite Ej in *. destruct Hd as [q Hq]. rewrite Z.pow_succ_r in Hl by done.
    assert (0 < 2 ^ j) by lia. assert (q = 1) by nia. subst q. lia.
  - assert (Hn : x ≠ 2 ^ Z.log2 x) by (intros E%is_power_spec; [congruence|done]).
    destruct (turn_off_log2 x Hx Hn) as [Hr El]. rewrite <- El.
    apply (IH _ (j + 1)); [done|lia| |lia]. rewrite turn_off_eq by done. apply land_pred_bit; [lia|done|done].
Qed.

Lemma ideal_bucket_cnt_ok n : 0 ≤ n < 2 ^ 32 →
  ∃ k, ideal_bucket_cnt n = Ok (2 ^ k) ∧ 2 ≤ k ≤ 31 ∧ 2 ^ k ≤ Z.max 4 (n / 2) < 2 ^ (k + 1).
Proof.
  intros Hn. unfold ideal_bucket_cnt. change BEST_ELEMS_PER_BUCKET with 2.
  set (x := if n / 2 <? 4 then 4 else n / 2).
  assert (Ex : x = Z.max 4 (n / 2)) by (unfold x; bcase; lia).
  assert (Hx : 4 ≤ x < 2 ^ 32) by (rewrite Ex; divlia).
  exists (Z.log2 x). assert (Hl : Z.log2 x < 32) by (apply Z.log2_lt_pow2; lia).
  assert (2 ≤ Z.log2 x) by (apply Z.log2_le_pow2; lia).
  split; [|rewrite <- Ex; assert (Hs := Z.log2_spec x ltac:(lia)); split; [lia|exact Hs]].
  apply (power_loop_ok 32 x 0); [lia|lia|apply Z.divide_1_l|lia].
Qed.

(** ** Tables *)
Section spec.
Context {E : Type} `{EqE : EqDecision E} (hashf : E → Z) (less : E → E → bool).
Implicit Types (h : hash E) (e a : E) (l : list E).
Notation equal := (equal less).
Notation find_elem := (find_elem less).
Notation find_bucket := (find_bucket hashf).

(** What [hash.h] asks of the user's functions: [less] orders the elements up
    to an equivalence, which [hash] respects. *)
Class HashFunctions : Prop := {
  hf_refl e : less e e = false;
  hf_trans a b c : equal a b = true → equal b c = true → equal a c = true;
  hf_hash a b : equal a b = true → hashf a = hashf b;
  hf_range e : in_u32 (hashf e);
}.
Context `{HF : !HashFunctions}.

(** The elements, bucket by bucket. *)
Definition els h : list E := concat (buckets h).

(** No two members are equal. *)
Definition distinct l : Prop := NoDup l ∧ ∀ a b, a ∈ l → b ∈ l → equal a b = true → a = b.

Record wf h : Prop := Wf {
  wf_pow : ∃ k, bucket_cnt h = 2 ^ k ∧ 0 ≤ k ≤ 31;
  wf_place i b e : buckets h !! i = Some b → e ∈ b → find_bucket h e = Z.of_nat i;
  wf_cnt : elem_cnt h = Z.of_nat (length (els h));
  wf_distinct : distinct (els h);
}.

Lemma equal_refl e : equal e e = true.
Proof. unfold Hash.equal. by rewrite hf_refl. Qed.
Lemma equal_sym a b : equal a b = equal b a.
Proof. unfold Hash.equal. apply andb_comm. Qed.

(** ** Searching *)
Lemma find_elem_some l e o : find_elem l e = Some o → o ∈ l ∧ equal o e = true.
Proof.
  induction l as [|x l IH]; simpl; [done|]. destruct (equal x e) eqn:Ex.
  - intros [= <-]. split; [left|done].
  - intros H. destruct (IH H). split; [by right|done].
Qed.
Lemma find_elem_none l e : find_elem l e = None → ∀ a, a ∈ l → equal a e = false.
Proof.
  induction l as [|x l IH]; simpl; [by intros _ a ?%elem_of_nil|]. destruct (equal x e) eqn:Ex; [done|].
  intros H a [->|Ha]%elem_of_cons; eauto.
Qed.
Lemma find_elem_in l e o : distinct l → o ∈ l → equal o e = true → find_elem l e = Some o.
Proof.
  intros [_ Hd] Ho Eo. destruct (find_elem l e) as [o'|] eqn:F.
  - destruct (find_elem_some l e o' F) as [Ho' Eo']. f_equal. apply Hd; [done..|].
    apply (hf_trans _ e); [done|]. by rewrite equal_sym.
  - rewrite (find_elem_none l e F o Ho) in Eo. done.
Qed.

(** What is found depends on the set only. *)
Lemma find_elem_sub l l' e :
  distinct l → (∀ a, a ∈ l' → a ∈ l) → (∀ a, a ∈ l → equal a e = true → a ∈ l') →
  find_elem l' e = find_elem l e.
Proof.
  intros Hd H1 H2. destruct (find_elem l' e) as [o|] eqn:F'.
  - destruct (find_elem_some l' e o F') as [Ho Eo]. symmetry. apply find_elem_in; auto.
  - destruct (find_elem l e) as [o|] eqn:F; [|done]. destruct (find_elem_some l e o F) as [Ho Eo].
    rewrite (find_elem_none l' e F' o (H2 o Ho Eo)) in Eo. done.
Qed.
Lemma distinct_perm l l' : l ≡ₚ l' → distinct l → distinct l'.
Proof. intros Hp [H1 H2]. split; [by rewrite <- Hp|]. intros a b. rewrite <- Hp. auto. Qed.
Lemma find_elem_perm l l' e : distinct l → l ≡ₚ l' → find_elem l' e = find_elem l e.
Proof. intros Hd Hp. apply find_elem_sub; [done|..]; intros a; by rewrite Hp. Qed.

Lemma distinct_cons l e : distinct l → find_elem l e = None → distinct (e :: l).
Proof.
  intros [H1 H2] F. assert (Hn := find_elem_none l e F). split.
  - apply NoDup_cons. split; [|done]. intros Hin. specialize (Hn e Hin). by rewrite equal_refl in Hn.
  - intros a b [->|Ha]%elem_of_cons [->|Hb]%elem_of_cons Eab; [done|..|auto].
    + rewrite equal_sym, (Hn b Hb) in Eab. done.
    + by rewrite (Hn a Ha) in Eab.
Qed.
Lemma distinct_filter l (P : E → Prop) `{∀ x, Decision (P x)} : distinct l → distinct (filter P l).
Proof.
  intros [H1 H2]. split; [by apply NoDup_filter|]. intros a b [_ Ha]%list_elem_of_filter [_ Hb]%list_elem_of_filter. auto.
Qed.

(** ** Buckets *)
Lemma find_bucket_range h e : (∃ k, bucket_cnt h = 2 ^ k ∧ 0 ≤ k ≤ 31) → 0 ≤ find_bucket h e < bucket_cnt h.
Proof.
  intros (k & E1 & Hk). unfold Hash.find_bucket. rewrite E1.
  replace (2 ^ k - 1) with (Z.ones k) by (rewrite Z.ones_equiv; lia).
  rewrite Z.land_ones by lia. apply Z.mod_pos_bound. lia.
Qed.
Lemma bucket_is_some h e : (∃ k, bucket_cnt h = 2 ^ k ∧ 0 ≤ k ≤ 31) →
  ∃ b, buckets h !! Z.to_nat (find_bucket h e) = Some b.
Proof.
  intros Hp. assert (Hr := find_bucket_range h e Hp). apply lookup_lt_is_Some. unfold bucket_cnt in Hr. lia.
Qed.
Lemma find_bucket_equal h a b : equal a b = true → find_bucket h a = find_bucket h b.
Proof. intros Eq. unfold Hash.find_bucket. by rewrite (hf_hash a b Eq). Qed.

Lemma elem_of_els h e : e ∈ els h ↔ ∃ i b, buckets h !! i = Some b ∧ e ∈ b.
Proof.
  unfold els. rewrite list_elem_of_In, in_concat. split.
  - intros (b & Hb & He). apply list_elem_of_In in Hb, He. apply list_elem_of_lookup in Hb as [i Hi]. eauto.
  - intros (i & b & Hi & He). exists b. rewrite <- !list_elem_of_In. split; [|done]. by eapply list_elem_of_lookup_2.
Qed.

(** Searching the right bucket searches the whole table. *)
Lemma find_in_bucket h e b :
  wf h → buckets h !! Z.to_nat (find_bucket h e) = Some b → find_elem b e = find_elem (els h) e.
Proof.
  intros Hw Hb. apply find_elem_sub; [apply Hw|..].
  - intros a Ha. apply elem_of_els. eauto.
  - intros a (i & b' & Hi & Ha)%elem_of_els Ea. assert (Hp := wf_place h Hw i b' a Hi Ha).
    rewrite (find_bucket_equal h a e Ea) in Hp. rewrite Hp, Nat2Z.id in Hb. congruence.
Qed.

Lemma get_bucket_ok h i b : buckets h !! Z.to_nat i = Some b → get_bucket i h = Ok (b, h).
Proof. intros Hb. unfold get_bucket. erewrite run_bind_ok by reflexivity. by rewrite Hb. Qed.
Lemma put_bucket_ok h i b b' :
  buckets h !! Z.to_nat i = Some b' →
  put_bucket i b h = Ok (tt, MkHash (elem_cnt h) (<[Z.to_nat i := b]> (buckets h))).
Proof. intros Hb. unfold put_bucket. erewrite run_bind_ok by reflexivity. run_deref; [|exact Hb]. done. Qed.

Lemma concat_insert (bs : list (list E)) i b e :
  bs !! i = Some b → concat (<[i := e :: b]> bs) ≡ₚ e :: concat bs.
Proof.
  revert i. induction bs as [|b0 bs IH]; intros [|i] Hi; simplify_eq/=; [done|].
  rewrite (IH i Hi). by rewrite Permutation_middle.
Qed.

(** Elements are where [find_bucket] looks for them. *)
Definition placed h : Prop :=
  (∃ k, bucket_cnt h = 2 ^ k ∧ 0 ≤ k ≤ 31) ∧
  ∀ i b e, buckets h !! i = Some b → e ∈ b → find_bucket h e = Z.of_nat i.

Lemma bucket_cnt_insert h n i b : bucket_cnt (MkHash n (<[i := b]> (buckets h))) = bucket_cnt h.
Proof. unfold bucket_cnt. simpl. by rewrite length_insert. Qed.

Lemma placed_push h n e b :
  placed h → buckets h !! Z.to_nat (find_bucket h e) = Some b →
  let h' := MkHash n (<[Z.to_nat (find_bucket h e) := e :: b]> (buckets h)) in
  placed h' ∧ els h' ≡ₚ e :: els h.
Proof.
  intros [Hp Hpl] Hb h'. assert (Hr := find_bucket_range h e Hp).
  assert (Hf : ∀ a, find_bucket h' a = find_bucket h a).
  { intros a. unfold Hash.find_bucket, h'. by rewrite bucket_cnt_insert. }
  split; [|by apply concat_insert]. split; [unfold h'; by rewrite bucket_cnt_insert|].
  intros i b0 a Hi Ha. rewrite Hf. cbn in Hi. apply list_lookup_insert_Some in Hi as [(<- & <- & _)|[Hne Hi]].
  - apply elem_of_cons in Ha as [->|Ha]; [lia|]. rewrite (Hpl _ _ _ Hb Ha). lia.
  - by eapply Hpl.
Qed.

(** ** Moving the elements to other buckets *)
Lemma move_loop_ok l : ∀ h, placed h →
  ∃ h', move_loop hashf l h = Ok (tt, h') ∧ placed h' ∧ els h' ≡ₚ l ++ els h ∧ elem_cnt h' = elem_cnt h ∧
        bucket_cnt h' = bucket_cnt h.
Proof.
  induction l as [|e l IH]; intros h Hp; simpl; [by exists h|].
  destruct (bucket_is_some h e (proj1 Hp)) as [b Hb]. erewrite run_bind_ok by reflexivity.
  erewrite run_bind_ok by (by apply get_bucket_ok). erewrite run_bind_ok by (by eapply put_bucket_ok).
  destruct (placed_push h (elem_cnt h) e b Hp Hb) as [Hp1 He1].
  destruct (IH _ Hp1) as (h' & Hrun & Hp' & He' & Hc & Hn). exists h'. split_and!; [done|done| |done|].
  - rewrite He', He1. by rewrite <- Permutation_middle.
  - by rewrite Hn, bucket_cnt_insert.
Qed.
Lemma rehash_loop_ok bs : ∀ h, placed h →
  ∃ h', rehash_loop hashf bs h = Ok (tt, h') ∧ placed h' ∧ els h' ≡ₚ concat bs ++ els h ∧ elem_cnt h' = elem_cnt h ∧
        bucket_cnt h' = bucket_cnt h.
Proof.
  induction bs as [|b bs IH]; intros h Hp; simpl; [by exists h|].
  destruct (move_loop_ok b h Hp) as (h1 & Hrun1 & Hp1 & He1 & Hc1 & Hn1). run_with Hrun1.
  destruct (IH h1 Hp1) as (h' & Hrun & Hp' & He' & Hc & Hn). exists h'. split_and!; [done|done| |congruence|congruence].
  rewrite He', He1. rewrite !(assoc_L (++)). by rewrite (Permutation_app_comm b).
Qed.

Lemma concat_replicate_nil n : concat (replicate n ([] : list E)) = [].
Proof. by induction n. Qed.

Lemma rehash_ok alloc h :
  wf h → Z.of_nat (length (els h)) < 2 ^ 32 →
  ∃ h', rehash hashf alloc h = Ok (tt, h') ∧ wf h' ∧ els h' ≡ₚ els h ∧
    (alloc = true → ideal_bucket_cnt (elem_cnt h) = Ok (bucket_cnt h')).
Proof.
  intros Hw Hlen. assert (Hcnt := wf_cnt h Hw). unfold rehash. erewrite run_bind_ok by reflexivity.
  destruct (ideal_bucket_cnt_ok (elem_cnt h)) as (k & Hk & Hkr & _); [lia|]. rewrite Hk.
  destruct (Z.eqb_spec (2 ^ k) (bucket_cnt h)) as [Eq|Hne].
  { exists h. split_and!; [done|done|done|]. by rewrite Eq. }
  destruct alloc; cbn [negb]; [|by exists h]. erewrite run_bind_ok by reflexivity.
  set (h0 := MkHash _ _). assert (Hn0 : bucket_cnt h0 = 2 ^ k).
  { unfold bucket_cnt, h0. simpl. rewrite length_replicate. lia. }
  assert (Hp0 : placed h0).
  { split; [exists k; split; [done|lia]|]. intros i b e Hi He. cbn in Hi.
    apply lookup_replicate in Hi as [-> _]. by apply elem_of_nil in He. }
  destruct (rehash_loop_ok (buckets h) h0 Hp0) as (h' & Hrun & Hp' & He' & Hc & Hn). exists h'.
  assert (He : els h' ≡ₚ els h).
  { rewrite He'. assert (E0 : els h0 = []) by apply concat_replicate_nil. by rewrite E0, app_nil_r. }
  split_and!; [done| |done|]; [|by rewrite Hn, Hn0]. split; [apply Hp'|apply Hp'| |].
  - rewrite Hc, He. exact Hcnt.
  - eapply distinct_perm; [symmetry; exact He|apply Hw].
Qed.

(** ** Inserting and removing *)
Lemma insert_elem_ok h e :
  wf h → find_elem (els h) e = None → Z.of_nat (length (els h)) + 1 < 2 ^ 32 →
  ∃ h', insert_elem (find_bucket h e) e h = Ok (tt, h') ∧ wf h' ∧ els h' ≡ₚ e :: els h.
Proof.
  intros Hw F Hlen. destruct (bucket_is_some h e (wf_pow h Hw)) as [b Hb]. unfold insert_elem.
  erewrite run_bind_ok by reflexivity. erewrite run_bind_ok by (by apply get_bucket_ok).
  eexists. split; [by eapply put_bucket_ok|].
  assert (Hp : placed h) by (split; apply Hw).
  destruct (placed_push h (u32 (elem_cnt h + 1)) e b Hp Hb) as [Hp' He]. split; [|exact He].
  split; [apply Hp'|apply Hp'| |].
  - rewrite He. cbn. rewrite (wf_cnt h Hw). cint. lia.
  - eapply distinct_perm; [symmetry; exact He|]. apply distinct_cons; [apply Hw|done].
Qed.

Lemma concat_filter (P : E → Prop) `{∀ x, Decision (P x)} (bs : list (list E)) :
  concat (List.map (filter P) bs) = filter P (concat bs).
Proof. induction bs as [|b bs IH]; simpl; [done|]. by rewrite filter_app, IH. Qed.

(** The set without [o]. *)
Definition without l o : list E := filter (λ x, x ≠ o) l.

Lemma without_perm l o : NoDup l → o ∈ l → l ≡ₚ o :: without l o.
Proof.
  intros Hn Ho. apply NoDup_Permutation; [done| |].
  - apply NoDup_cons. split; [|by apply NoDup_filter]. unfold without. rewrite list_elem_of_filter. naive_solver.
  - intros x. unfold without. rewrite elem_of_cons, list_elem_of_filter.
    destruct (decide (x = o)) as [->|]; naive_solver.
Qed.

Lemma remove_elem_ok h o :
  wf h → o ∈ els h → Z.of_nat (length (els h)) < 2 ^ 32 →
  ∃ h', remove_elem o h = Ok (tt, h') ∧ wf h' ∧ els h' = without (els h) o ∧ bucket_cnt h' = bucket_cnt h.
Proof.
  intros Hw Ho Hlen. eexists. split; [reflexivity|]. set (h' := MkHash _ _).
  assert (He : els h' = without (els h) o) by apply concat_filter.
  assert (Hn : bucket_cnt h' = bucket_cnt h) by (unfold bucket_cnt, h'; simpl; by rewrite length_map).
  split_and!; [|done|done]. split.
  - rewrite Hn. apply Hw.
  - intros i b e Hi Hb. cbn in Hi. rewrite list_lookup_fmap in Hi.
    destruct (buckets h !! i) as [b0|] eqn:Eb; simplify_eq/=. apply list_elem_of_filter in Hb as [_ Hb].
    assert (Hf : find_bucket h' e = find_bucket h e) by (unfold Hash.find_bucket; by rewrite Hn).
    rewrite Hf. by eapply (wf_place h Hw).
  - rewrite He. assert (Hl := Permutation_length (without_perm (els h) o (proj1 (wf_distinct h Hw)) Ho)).
    unfold h'. cbn [elem_cnt]. rewrite (wf_cnt h Hw). cbn in Hl. cint. lia.
  - rewrite He. apply distinct_filter, Hw.
Qed.

(** ** The calls *)
Inductive hash_op := OInsert (e : E) | OReplace (e : E) | OFind (e : E) | ODelete (e : E) | OSize | OEmpty
  | OApply | OClear.
Inductive answer := AElem (o : option E) | ANum (n : Z) | ABool (b : bool) | AList (n : nat).

(** Calls on the table; [OApply] and [OClear] report how many elements the
    callback saw. *)
Definition run_op (alloc : bool) (o : hash_op) : ST (hash E) answer :=
  match o with
  | OInsert e => r ← hash_insert hashf less alloc e; mret (AElem r)
  | OReplace e => r ← hash_replace hashf less alloc e; mret (AElem r)
  | OFind e => r ← hash_find hashf less e; mret (AElem r)
  | ODelete e => r ← hash_delete hashf less alloc e; mret (AElem r)
  | OSize => n ← hash_size; mret (ANum n)
  | OEmpty => b ← hash_empty; mret (ABool b)
  | OApply => l ← hash_apply; mret (AList (length l))
  | OClear => l ← hash_clear true; mret (AList (length l))
  end.
Fixpoint run_ops (ops : list (bool * hash_op)) : ST (hash E) (list answer) :=
  match ops with
  | [] => mret []
  | (alloc, o) :: ops => a ← run_op alloc o; r ← run_ops ops; mret (a :: r)
  end.

(** The same calls on a set. *)
Definition spec_op (o : hash_op) l : answer * list E :=
  match o with
  | OInsert e => match find_elem l e with Some x => (AElem (Some x), l) | None => (AElem None, e :: l) end
  | OReplace e =>
    match find_elem l e with Some x => (AElem (Some x), e :: without l x) | None => (AElem None, e :: l) end
  | OFind e => (AElem (find_elem l e), l)
  | ODelete e => match find_elem l e with Some x => (AElem (Some x), without l x) | None => (AElem None, l) end
  | OSize => (ANum (Z.of_nat (length l)), l)
  | OEmpty => (ABool (bool_decide (l = [])), l)
  | OApply => (AList (length l), l)
  | OClear => (AList (length l), [])
  end.
Fixpoint spec_ops (ops : list (bool * hash_op)) l : list answer * list E :=
  match ops with
  | [] => ([], l)
  | (_, o) :: ops => let '(a, l1) := spec_op o l in let '(r, l2) := spec_ops ops l1 in (a :: r, l2)
  end.

(** The table holds the set [l]. *)
Definition holds h l : Prop := wf h ∧ els h ≡ₚ l.

Lemma holds_length h l : holds h l → length (els h) = length l.
Proof. intros [_ Hp]. by apply Permutation_length. Qed.
Lemma holds_find h l e : holds h l → find_elem l e = find_elem (els h) e.
Proof. intros [Hw Hp]. by apply find_elem_perm; [apply Hw|]. Qed.

(** The bucket a call looks in, and what it finds. *)
Lemma lookup_ok h l e : holds h l →
  ∃ b, get_bucket (find_bucket h e) h = Ok (b, h) ∧ find_elem b e = find_elem l e.
Proof.
  intros Hh. destruct (Hh) as [Hw _]. destruct (bucket_is_some h e (wf_pow h Hw)) as [b Hb]. exists b.
  split; [by apply get_bucket_ok|]. rewrite (find_in_bucket h e b Hw Hb). symmetry. by apply holds_find.
Qed.

Lemma rehash_holds alloc h l :
  holds h l → Z.of_nat (length l) < 2 ^ 32 → ∃ h', rehash hashf alloc h = Ok (tt, h') ∧ holds h' l.
Proof.
  intros Hh Hl. rewrite <- (holds_length h l Hh) in Hl. destruct Hh as [Hw Hp].
  destruct (rehash_ok alloc h Hw Hl) as (h' & Hrun & Hw' & He & _). exists h'. split; [done|].
  split; [done|]. by rewrite He.
Qed.
Lemma insert_holds h l e :
  holds h l → find_elem l e = None → Z.of_nat (length l) + 1 < 2 ^ 32 →
  ∃ h', insert_elem (find_bucket h e) e h = Ok (tt, h') ∧ holds h' (e :: l).
Proof.
  intros Hh F Hl. rewrite (holds_find h l e Hh) in F. rewrite <- (holds_length h l Hh) in Hl.
  destruct Hh as [Hw Hp]. destruct (insert_elem_ok h e Hw F Hl) as (h' & Hrun & Hw' & He). exists h'.
  split; [done|]. split; [done|]. by rewrite He, Hp.
Qed.
Lemma without_mono l l' o : l ≡ₚ l' → without l o ≡ₚ without l' o.
Proof. intros Hp. unfold without. by rewrite Hp. Qed.
Lemma remove_holds h l o :
  holds h l → o ∈ l → Z.of_nat (length l) < 2 ^ 32 →
  ∃ h', remove_elem o h = Ok (tt, h') ∧ holds h' (without l o) ∧ bucket_cnt h' = bucket_cnt h.
Proof.
  intros Hh Ho Hl. rewrite <- (holds_length h l Hh) in Hl. destruct Hh as [Hw Hp].
  rewrite <- Hp in Ho. destruct (remove_elem_ok h o Hw Ho Hl) as (h' & Hrun & Hw' & He & Hn). exists h'.
  split_and!; [done| |done]. split; [done|]. rewrite He. by apply without_mono.
Qed.
Lemma without_length l o : (length (without l o) ≤ length l)%nat.
Proof. apply length_filter. Qed.
Lemma without_find l e o : distinct l → find_elem l e = Some o → find_elem (without l o) e = None.
Proof.
  intros [_ Hd] F. destruct (find_elem_some l e o F) as [Ho Eo].
  destruct (find_elem (without l o) e) as [x|] eqn:Fx; [|done].
  destruct (find_elem_some _ e x Fx) as [[Hne Hx]%list_elem_of_filter Ex]. destruct Hne. apply Hd; [done..|].
  apply (hf_trans _ e); [done|]. by rewrite equal_sym.
Qed.

(** One call each. *)
Lemma hash_insert_ok alloc e h l :
  holds h l → Z.of_nat (length l) + 1 < 2 ^ 32 →
  ∃ h', hash_insert hashf less alloc e h = Ok (find_elem l e, h') ∧
    holds h' (match find_elem l e with Some _ => l | None => e :: l end).
Proof.
  intros Hh Hl. unfold hash_insert. destruct (lookup_ok h l e Hh) as (b & Hb & Hf).
  erewrite run_bind_ok by reflexivity. run_with Hb. rewrite Hf. destruct (find_elem l e) as [o|] eqn:F.
  - erewrite run_bind_ok by reflexivity. destruct (rehash_holds alloc h l Hh) as (h' & Hrun & Hh'); [lia|].
    run_with Hrun. by exists h'.
  - destruct (insert_holds h l e Hh F Hl) as (h1 & Hrun1 & Hh1). run_with Hrun1.
    destruct (rehash_holds alloc h1 _ Hh1) as (h' & Hrun & Hh'); [cbn; lia|]. run_with Hrun. by exists h'.
Qed.

Lemma hash_replace_ok alloc e h l :
  holds h l → Z.of_nat (length l) + 1 < 2 ^ 32 →
  ∃ h', hash_replace hashf less alloc e h = Ok (find_elem l e, h') ∧
    holds h' (e :: match find_elem l e with Some o => without l o | None => l end).
Proof.
  intros Hh Hl. unfold hash_replace. destruct (lookup_ok h l e Hh) as (b & Hb & Hf).
  erewrite run_bind_ok by reflexivity. run_with Hb. rewrite Hf.
  assert (Hins : ∀ h1 l1, holds h1 l1 → find_elem l1 e = None → (length l1 ≤ length l)%nat →
    bucket_cnt h1 = bucket_cnt h →
    ∃ h', (insert_elem (find_bucket h e) e ;; rehash hashf alloc ;; mret (find_elem l e)) h1 = Ok (find_elem l e, h') ∧
      holds h' (e :: l1)).
  { intros h1 l1 Hh1 F1 Hl1 En. assert (Ef : find_bucket h e = find_bucket h1 e) by (unfold Hash.find_bucket; by rewrite En).
    rewrite Ef. destruct (insert_holds h1 l1 e Hh1 F1) as (h2 & Hrun2 & Hh2); [lia|]. run_with Hrun2.
    destruct (rehash_holds alloc h2 _ Hh2) as (h' & Hrun & Hh'); [cbn; lia|]. run_with Hrun. by exists h'. }
  destruct (find_elem l e) as [o|] eqn:F.
  - destruct (find_elem_some l e o F) as [Ho _].
    destruct (remove_holds h l o Hh Ho) as (h1 & Hrun1 & Hh1 & En); [lia|]. run_with Hrun1.
    apply Hins; [done| |apply without_length|done]. apply without_find; [|done].
    eapply distinct_perm; [apply Hh|apply (wf_distinct h), Hh].
  - erewrite run_bind_ok by reflexivity. by apply Hins.
Qed.

Lemma hash_find_ok e h l : holds h l → hash_find hashf less e h = Ok (find_elem l e, h).
Proof.
  intros Hh. unfold hash_find. destruct (lookup_ok h l e Hh) as (b & Hb & Hf).
  erewrite run_bind_ok by reflexivity. run_with Hb. by rewrite Hf.
Qed.

Lemma hash_delete_ok alloc e h l :
  holds h l → Z.of_nat (length l) + 1 < 2 ^ 32 →
  ∃ h', hash_delete hashf less alloc e h = Ok (find_elem l e, h') ∧
    holds h' (match find_elem l e with Some o => without l o | None => l end).
Proof.
  intros Hh Hl. unfold hash_delete. destruct (lookup_ok h l e Hh) as (b & Hb & Hf).
  erewrite run_bind_ok by reflexivity. run_with Hb. rewrite Hf. destruct (find_elem l e) as [o|] eqn:F.
  - destruct (find_elem_some l e o F) as [Ho _].
    destruct (remove_holds h l o Hh Ho) as (h1 & Hrun1 & Hh1 & En); [lia|].
    assert (Hlw := without_length l o).
    destruct (rehash_holds alloc h1 _ Hh1) as (h' & Hrun & Hh'); [lia|].
    erewrite run_bind_ok by (run_with Hrun1; exact Hrun). by exists h'.
  - erewrite run_bind_ok by reflexivity. by exists h.
Qed.

Lemma hash_clear_ok h l :
  holds h l → ∃ h', hash_clear true h = Ok (els h, h') ∧ holds h' [].
Proof.
  intros [Hw Hp]. eexists. split; [reflexivity|]. set (h' := MkHash _ _).
  assert (E0 : els h' = []) by apply concat_replicate_nil.
  assert (Hn : bucket_cnt h' = bucket_cnt h) by (unfold bucket_cnt, h'; simpl; by rewrite length_replicate).
  split; [|by rewrite E0]. split.
  - rewrite Hn. apply Hw.
  - intros i b e Hi He. cbn in Hi. apply lookup_replicate in Hi as [-> _]. by apply elem_of_nil in He.
  - by rewrite E0.
  - rewrite E0. split; [apply NoDup_nil_2|]. by intros a b ?%elem_of_nil.
Qed.

Lemma hash_op_ok alloc o h l :
  holds h l → Z.of_nat (length l) + 1 < 2 ^ 32 →
  ∃ h', run_op alloc o h = Ok ((spec_op o l).1, h') ∧ holds h' (spec_op o l).2.
Proof.
  intros Hh Hl. assert (Hlen := holds_length h l Hh). destruct o as [e|e|e|e| | | |]; cbn [run_op spec_op].
  - destruct (hash_insert_ok alloc e h l Hh Hl) as (h' & Hrun & Hh'). exists h'. run_with Hrun.
    by destruct (find_elem l e).
  - destruct (hash_replace_ok alloc e h l Hh Hl) as (h' & Hrun & Hh'). exists h'. run_with Hrun.
    by destruct (find_elem l e).
  - exists h. erewrite run_bind_ok by (by apply hash_find_ok). done.
  - destruct (hash_delete_ok alloc e h l Hh Hl) as (h' & Hrun & Hh'). exists h'. run_with Hrun.
    by destruct (find_elem l e).
  - exists h. erewrite run_bind_ok by reflexivity. by rewrite (wf_cnt h (proj1 Hh)), Hlen.
  - exists h. erewrite run_bind_ok by reflexivity. split; [|done]. rewrite (wf_cnt h (proj1 Hh)), Hlen.
    cbn. do 3 f_equal. destruct l; [done|]. by rewrite bool_decide_false.
  - exists h. erewrite run_bind_ok by reflexivity. split; [|done]. cbn. unfold mret, ST_ret. by rewrite <- Hlen.
  - destruct (hash_clear_ok h l Hh) as (h' & Hrun & Hh'). exists h'. run_with Hrun. split; [|done].
    unfold mret, ST_ret. by rewrite Hlen.
Qed.

Lemma spec_op_length o l : (length (spec_op o l).2 ≤ S (length l))%nat.
Proof.
  destruct o as [e|e|e|e| | | |]; cbn; try lia; destruct (find_elem l e) as [x|]; cbn; try lia;
    assert (H := without_length l x); lia.
Qed.

Lemma hash_ops_ok ops : ∀ h l,
  holds h l → Z.of_nat (length l + length ops) < 2 ^ 32 - 1 →
  ∃ h', run_ops ops h = Ok ((spec_ops ops l).1, h') ∧ holds h' (spec_ops ops l).2.
Proof.
  induction ops as [|[alloc o] ops IH]; intros h l Hh Hl; simpl; [by exists h|]. simpl in Hl.
  destruct (hash_op_ok alloc o h l Hh) as (h1 & Hrun1 & Hh1); [lia|]. assert (Hle := spec_op_length o l).
  destruct (spec_op o l) as [a l1] eqn:Es. simpl in *. run_with Hrun1.
  destruct (IH h1 l1 Hh1) as (h2 & Hrun2 & Hh2); [lia|]. run_with Hrun2.
  destruct (spec_ops ops l1) as [r l2]. exists h2. by split.
Qed.

Lemma hash_init_holds h : hash_init true = Some h → holds h [].
Proof.
  intros [= <-]. split; [|done]. split; [by exists 2| |done|].
  - intros i b e Hi He. cbn in Hi. apply (lookup_replicate 4 ([] : list E)) in Hi as [-> _]. by apply elem_of_nil in He.
  - split; [apply NoDup_nil_2|]. by intros a b ?%elem_of_nil.
Qed.

(** C27: a hash table is a set.  From [hash_init], any sequence of fewer than
    2^32 - 1 calls returns what the same calls return on a set of pairwise
    different elements and leaves the table holding that set, with every
    element in the bucket it hashes to, whether or not the allocations of
    [rehash] succeed. *)
Theorem hash_calls_refine h ops :
  hash_init true = Some h → Z.of_nat (length ops) < 2 ^ 32 - 1 →
  ∃ h', run_ops ops h = Ok ((spec_ops ops []).1, h') ∧ els h' ≡ₚ (spec_ops ops []).2 ∧ wf h'.
Proof.
  intros Hi Hl. destruct (hash_ops_ok ops h [] (hash_init_holds h Hi)) as (h' & Hrun & Hw & He); [simpl; lia|].
  by exists h'.
Qed.
End spec.

(** Integers under [hash_int]: inserting ten makes [rehash] grow the table. *)
Lemma demo_functions : HashFunctions (λ i : Z, u32 (hash_int i)) Z.ltb.
Proof.
  assert (Hd : ∀ a b, equal Z.ltb a b = true → a = b).
  { intros a b. unfold equal. rewrite andb_true_iff, !negb_true_iff, !Z.ltb_ge. lia. }
  split.
  - intros e. apply Z.ltb_irrefl.
  - intros a b c ->%Hd. done.
  - intros a b ->%Hd. done.
  - intros e. apply u32_range.
Qed.
Definition demo_calls : list (bool * hash_op) :=
  List.map (λ i : nat, (true, OInsert (Z.of_nat i))) (seq 0 10) ++
  [(true, OInsert 3); (true, OReplace 3); (false, ODelete 7); (true, OFind 7); (true, OSize)].

Lemma hash_calls_refine_witness :
  ∃ h', run_ops (λ i : Z, u32 (hash_int i)) Z.ltb demo_calls (MkHash 0 (replicate 4 [])) =
    Ok ((spec_ops Z.ltb demo_calls []).1, h') ∧
    els h' ≡ₚ (spec_ops Z.ltb demo_calls []).2 ∧ wf (λ i : Z, u32 (hash_int i)) Z.ltb h'.
Proof.
  apply (hash_calls_refine (λ i : Z, u32 (hash_int i)) Z.ltb (HF := demo_functions)); [reflexivity|].
  vm_compute. reflexivity.
Defined.
