(* ===== verification/Threads.v ===== *)
(** * Threads, synchronization and the timer

    [src/pintos/threads/thread.c], [src/pintos/threads/synch.c], the sleeping
    and interrupt parts of [src/pintos/devices/timer.c] and the external
    interrupt path of [intr_handler] in [src/pintos/threads/interrupt.c].

    A kernel function that may switch threads is cut at the points where it
    can lose the processor.  What a thread still has to do once it runs again
    is its [todo] list, the continuation its kernel stack holds: [SemaDown] is
    the test of the [while] loop of [sema_down], [LockAcquired] what
    [lock_acquire] does after [sema_down] returns, and so on.  Executing one
    entry is atomic: most entries run with interrupts off or touch only the
    running thread's own data.  The code that touches shared lists with
    interrupts on is cut further: [timer_sleep] between its
    [list_push_back] and its [intr_disable] ([SleepBlock]), the scan of the
    ready list that [thread_set_priority] and [thread_set_nice] make, at every
    element ([PreemptScan]).  A single list operation or the computation of
    one priority is not cut, nor is the scan of [cond_signal].

    Struct threads are keys of a heap that are not reused; lists are sequences
    of keys, in order.  A struct thread has one [elem] for all of them, so an
    [elem] that is pushed while it is still in another list destroys both:
    the model stops there with [Fault] ([link_elem]). *)
From S2P Require Import Prelude CInt RealArith.
Import RealArith.

Open Scope Z_scope.

Module Threads.

(** [enum thread_status]. *)
Inductive thread_status := THREAD_RUNNING | THREAD_READY | THREAD_BLOCKED | THREAD_DYING.

#[export] Instance thread_status_eq_dec : EqDecision thread_status.
Proof. solve_decision. Defined.

(** Semaphores: free-standing ones, the ones inside locks, the ones of the
    waiters of condition variables, and the [alive_sema] and [loaded_sema] of
    threads. *)
Inductive sema_id := SemUser (n : nat) | SemLock (l : nat) | SemCond (w : nat)
  | SemAlive (t : nat) | SemLoaded (t : nat).

#[export] Instance sema_id_eq_dec : EqDecision sema_id.
Proof. solve_decision. Defined.
#[export] Instance sema_id_countable : Countable sema_id.
Proof.
  apply (inj_countable' (λ s, match s with
    | SemUser n => (0%nat, n) | SemLock n => (1%nat, n) | SemCond n => (2%nat, n)
    | SemAlive n => (3%nat, n) | SemLoaded n => (4%nat, n) end)
    (λ p, match p with
    | (0%nat, n) => SemUser n | (1%nat, n) => SemLock n | (2%nat, n) => SemCond n
    | (3%nat, n) => SemAlive n | (_, n) => SemLoaded n end)).
  by intros [].
Defined.

(** What a thread may have to do. *)
Inductive op :=
| SemaDown (s : sema_id) | SemaTryDown (s : sema_id) | SemaUp (s : sema_id)
| LockAcquire (l : nat) | LockTryAcquire (l : nat) | LockAcquired (l : nat) | LockRelease (l : nat)
| CondWait (c l : nat) | CondSignal (c l : nat) | CondBroadcast (c l : nat)
| Yield | SetPriority (p : Z) | SetNice (n : Z)
| Preempt (p : option Z) | PreemptScan (p : option Z) (e best : nat) | PreemptTest (p : option Z) (best : nat)
| Sleep (n : Z) | SleepBlock | Woken
| Create (p : Z) | SetTid (t : nat) | Launch (t : nat) | Exit | ExitTail.

#[export] Instance op_eq_dec : EqDecision op.
Proof. solve_decision. Defined.

(** [struct thread], less what other components own; [magic] is valid for
    every thread of the heap. *)
Record thread := MkThread {
  tid : Z;
  status : thread_status;
  nice : Z;
  recent_cpu : Z;
  priority : Z;
  locks : list nat;
  next_wakeup : Z;
  alive_sema : bool;
  todo : list op;
}.

(** [struct semaphore]. *)
Record semaphore := MkSema { value : Z; waiters : list nat }.

Record sys := MkSys {
  threads : gmap nat thread;
  ready_list : list nat;
  all_list : list nat;
  cur : nat;
  idle_thread : option nat;
  initial_thread : nat;
  semas : gmap sema_id semaphore;
  holder : gmap nat nat;
  conds : gmap nat (list nat);
  sleeping_list : list nat;
  next_tid : Z;
  next_key : nat;
  thread_ticks : Z;
  load_avg : Z;
  ticks : Z;
  idle_ticks : Z;
  kernel_ticks : Z;
  thread_mlfqs : bool;
  in_external_intr : bool;
  yield_on_return : bool;
}.

Abbreviation M := (ST sys).

Definition TIME_SLICE : Z := 4.
Definition TIMER_FREQ : Z := 100.
(** The lock of [allocate_tid]. *)
Definition tid_lock : nat := 0.

(** ** Field updates *)
Definition set_threads (h : gmap nat thread) (s : sys) : sys :=
  MkSys h (ready_list s) (all_list s) (cur s) (idle_thread s) (initial_thread s) (semas s) (holder s)
    (conds s) (sleeping_list s) (next_tid s) (next_key s) (thread_ticks s) (load_avg s) (ticks s)
    (idle_ticks s) (kernel_ticks s) (thread_mlfqs s) (in_external_intr s) (yield_on_return s).
Definition set_ready (l : list nat) (s : sys) : sys :=
  MkSys (threads s) l (all_list s) (cur s) (idle_thread s) (initial_thread s) (semas s) (holder s)
    (conds s) (sleeping_list s) (next_tid s) (next_key s) (thread_ticks s) (load_avg s) (ticks s)
    (idle_ticks s) (kernel_ticks s) (thread_mlfqs s) (in_external_intr s) (yield_on_return s).
Definition set_all_list (l : list nat) (s : sys) : sys :=
  MkSys (threads s) (ready_list s) l (cur s) (idle_thread s) (initial_thread s) (semas s) (holder s)
    (conds s) (sleeping_list s) (next_tid s) (next_key s) (thread_ticks s) (load_avg s) (ticks s)
    (idle_ticks s) (kernel_ticks s) (thread_mlfqs s) (in_external_intr s) (yield_on_return s).
Definition set_cur (t : nat) (s : sys) : sys :=
  MkSys (threads s) (ready_list s) (all_list s) t (idle_thread s) (initial_thread s) (semas s) (holder s)
    (conds s) (sleeping_list s) (next_tid s) (next_key s) (thread_ticks s) (load_avg s) (ticks s)
    (idle_ticks s) (kernel_ticks s) (thread_mlfqs s) (in_external_intr s) (yield_on_return s).
Definition set_semas (h : gmap sema_id semaphore) (s : sys) : sys :=
  MkSys (threads s) (ready_list s) (all_list s) (cur s) (idle_thread s) (initial_thread s) h (holder s)
    (conds s) (sleeping_list s) (next_tid s) (next_key s) (thread_ticks s) (load_avg s) (ticks s)
    (idle_ticks s) (kernel_ticks s) (thread_mlfqs s) (in_external_intr s) (yield_on_return s).
Definition set_holder (h : gmap nat nat) (s : sys) : sys :=
  MkSys (threads s) (ready_list s) (all_list s) (cur s) (idle_thread s) (initial_thread s) (semas s) h
    (conds s) (sleeping_list s) (next_tid s) (next_key s) (thread_ticks s) (load_avg s) (ticks s)
    (idle_ticks s) (kernel_ticks s) (thread_mlfqs s) (in_external_intr s) (yield_on_return s).
Definition set_conds (h : gmap nat (list nat)) (s : sys) : sys :=
  MkSys (threads s) (ready_list s) (all_list s) (cur s) (idle_thread s) (initial_thread s) (semas s) (holder s)
    h (sleeping_list s) (next_tid s) (next_key s) (thread_ticks s) (load_avg s) (ticks s)
    (idle_ticks s) (kernel_ticks s) (thread_mlfqs s) (in_external_intr s) (yield_on_return s).
Definition set_sleeping (l : list nat) (s : sys) : sys :=
  MkSys (threads s) (ready_list s) (all_list s) (cur s) (idle_thread s) (initial_thread s) (semas s) (holder s)
    (conds s) l (next_tid s) (next_key s) (thread_ticks s) (load_avg s) (ticks s)
    (idle_ticks s) (kernel_ticks s) (thread_mlfqs s) (in_external_intr s) (yield_on_return s).
Definition set_next_tid (n : Z) (s : sys) : sys :=
  MkSys (threads s) (ready_list s) (all_list s) (cur s) (idle_thread s) (initial_thread s) (semas s) (holder s)
    (conds s) (sleeping_list s) n (next_key s) (thread_ticks s) (load_avg s) (ticks s)
    (idle_ticks s) (kernel_ticks s) (thread_mlfqs s) (in_external_intr s) (yield_on_return s).
Definition set_next_key (n : nat) (s : sys) : sys :=
  MkSys (threads s) (ready_list s) (all_list s) (cur s) (idle_thread s) (initial_thread s) (semas s) (holder s)
    (conds s) (sleeping_list s) (next_tid s) n (thread_ticks s) (load_avg s) (ticks s)
    (idle_ticks s) (kernel_ticks s) (thread_mlfqs s) (in_external_intr s) (yield_on_return s).
Definition set_stats (tt' la tk idl ker : Z) (s : sys) : sys :=
  MkSys (threads s) (ready_list s) (all_list s) (cur s) (idle_thread s) (initial_thread s) (semas s) (holder s)
    (conds s) (sleeping_list s) (next_tid s) (next_key s) tt' la tk idl ker
    (thread_mlfqs s) (in_external_intr s) (yield_on_return s).
Definition set_intr (i y : bool) (s : sys) : sys :=
  MkSys (threads s) (ready_list s) (all_list s) (cur s) (idle_thread s) (initial_thread s) (semas s) (holder s)
    (conds s) (sleeping_list s) (next_tid s) (next_key s) (thread_ticks s) (load_avg s) (ticks s)
    (idle_ticks s) (kernel_ticks s) (thread_mlfqs s) i y.

Definition set_idle (i : option nat) (s : sys) : sys :=
  MkSys (threads s) (ready_list s) (all_list s) (cur s) i (initial_thread s) (semas s) (holder s)
    (conds s) (sleeping_list s) (next_tid s) (next_key s) (thread_ticks s) (load_avg s) (ticks s)
    (idle_ticks s) (kernel_ticks s) (thread_mlfqs s) (in_external_intr s) (yield_on_return s).
Definition set_mlfqs (b : bool) (s : sys) : sys :=
  MkSys (threads s) (ready_list s) (all_list s) (cur s) (idle_thread s) (initial_thread s) (semas s) (holder s)
    (conds s) (sleeping_list s) (next_tid s) (next_key s) (thread_ticks s) (load_avg s) (ticks s)
    (idle_ticks s) (kernel_ticks s) b (in_external_intr s) (yield_on_return s).

Definition with_status (x : thread_status) (t : thread) : thread :=
  MkThread (tid t) x (nice t) (recent_cpu t) (priority t) (locks t) (next_wakeup t) (alive_sema t) (todo t).
Definition with_sched (n r p : Z) (t : thread) : thread :=
  MkThread (tid t) (status t) n r p (locks t) (next_wakeup t) (alive_sema t) (todo t).
Definition with_locks (l : list nat) (t : thread) : thread :=
  MkThread (tid t) (status t) (nice t) (recent_cpu t) (priority t) l (next_wakeup t) (alive_sema t) (todo t).
Definition with_wakeup (n : Z) (t : thread) : thread :=
  MkThread (tid t) (status t) (nice t) (recent_cpu t) (priority t) (locks t) n (alive_sema t) (todo t).
Definition with_tid (n : Z) (t : thread) : thread :=
  MkThread n (status t) (nice t) (recent_cpu t) (priority t) (locks t) (next_wakeup t) (alive_sema t) (todo t).
Definition with_alive (b : bool) (t : thread) : thread :=
  MkThread (tid t) (status t) (nice t) (recent_cpu t) (priority t) (locks t) (next_wakeup t) b (todo t).
Definition with_todo (l : list op) (t : thread) : thread :=
  MkThread (tid t) (status t) (nice t) (recent_cpu t) (priority t) (locks t) (next_wakeup t) (alive_sema t) l.

Definition get_thread (t : nat) : M thread := s ← get; deref (threads s !! t).
Definition upd_thread (t : nat) (f : thread → thread) : M unit :=
  s ← get; th ← deref (threads s !! t); put (set_threads (<[t := f th]> (threads s)) s).
Definition get_sema (x : sema_id) : M semaphore := s ← get; deref (semas s !! x).
Definition put_sema (x : sema_id) (m : semaphore) : M unit :=
  modify (λ s, set_semas (<[x := m]> (semas s)) s).
(** [list_remove (&t->elem)] from a list of keys. *)
Definition list_remove (t : nat) (l : list nat) : list nat := List.remove Nat.eq_dec t l.
(** Is [t->elem] in a list? *)
Definition linked (s : sys) (t : nat) : bool :=
  bool_decide (t ∈ ready_list s) || bool_decide (t ∈ sleeping_list s) ||
  negb (bool_decide (map_Forall (λ _ m, t ∉ waiters m) (semas s))).
(** What [list_push_back (l, &t->elem)] needs: the element is in no list. *)
Definition link_elem (t : nat) : M unit :=
  s ← get; if linked s t then fail Fault else mret tt.
(** The running thread's continuation gets new entries in front. *)
Definition push_todo (l : list op) : M unit :=
  s ← get; upd_thread (cur s) (λ t, with_todo (l ++ todo t) t).

(** [thread_current], with its assertion. *)
Definition thread_current : M nat :=
  s ← get;
  th ← get_thread (cur s);
  ASSERT (bool_decide (status th = THREAD_RUNNING)) ;;
  mret (cur s).

(** ** Priorities *)

(** [thread_get_donated_priority (t, depth)] with [n = MAX_DEPTH - depth]. *)
Definition MAX_DEPTH : nat := 8.
Fixpoint donated (s : sys) (n : nat) (t : nat) : Z :=
  match threads s !! t with
  | None => 0
  | Some th =>
    match n with
    | O => priority th
    | S n =>
      fold_left (λ p l,
        fold_left (λ p w, let new_priority := donated s n w in
                          if p <? new_priority then new_priority else p)
          (match semas s !! SemLock l with Some m => waiters m | None => [] end) p)
        (locks th) (priority th)
    end
  end.

Definition given_thread_get_priority (s : sys) (t : nat) : Z :=
  if thread_mlfqs s then match threads s !! t with Some th => priority th | None => 0 end
  else donated s MAX_DEPTH t.

(** The scan of [list_highest_priority_thread] after its first element. *)
Fixpoint highest_loop (s : sys) (l : list nat) (best : nat) : nat :=
  match l with
  | [] => best
  | t :: l =>
    highest_loop s l
      (if given_thread_get_priority s best <? given_thread_get_priority s t then t else best)
  end.
(** On an empty list the C code reads beyond the list. *)
Definition list_highest_priority_thread (l : list nat) : M nat :=
  s ← get;
  match l with
  | [] => fail Fault
  | t :: l => mret (highest_loop s l t)
  end.

(** ** Scheduling *)
Definition next_thread_to_run : M nat :=
  s ← get;
  match ready_list s with
  | [] => match idle_thread s with Some t => mret t | None => fail Panic end
  | l =>
    t ← list_highest_priority_thread l;
    modify (λ s, set_ready (list_remove t (ready_list s)) s) ;;
    mret t
  end.

(** After the switch to [cur]; [prev] is the thread switched from, if any. *)
Definition thread_schedule_tail (prev : option nat) : M unit :=
  s ← get;
  upd_thread (cur s) (with_status THREAD_RUNNING) ;;
  modify (λ s, set_stats 0 (load_avg s) (ticks s) (idle_ticks s) (kernel_ticks s) s) ;;
  match prev with
  | None => mret tt
  | Some p =>
    th ← get_thread p;
    if bool_decide (status th = THREAD_DYING) && negb (p =? initial_thread s)%nat then
      ASSERT (negb (p =? cur s)%nat) ;;
      modify (λ s, set_threads (delete p (threads s)) s)
    else mret tt
  end.

Definition schedule : M unit :=
  s ← get;
  next ← next_thread_to_run;
  th ← get_thread (cur s);
  ASSERT (negb (bool_decide (status th = THREAD_RUNNING))) ;;
  s1 ← get;
  ASSERT (bool_decide (is_Some (threads s1 !! next))) ;;
  if negb (cur s =? next)%nat then
    modify (set_cur next) ;; thread_schedule_tail (Some (cur s))
  else thread_schedule_tail None.

Definition thread_block : M unit :=
  s ← get;
  ASSERT (negb (in_external_intr s)) ;;
  t ← thread_current;
  upd_thread t (with_status THREAD_BLOCKED) ;;
  schedule.

Definition thread_yield : M unit :=
  t ← thread_current;
  s ← get;
  ASSERT (negb (in_external_intr s)) ;;
  (if negb (bool_decide (idle_thread s = Some t))
   then link_elem t ;; modify (λ s, set_ready (ready_list s ++ [t]) s) else mret tt) ;;
  upd_thread t (with_status THREAD_READY) ;;
  schedule.

(** [if (intr_context ()) intr_yield_on_return (); else thread_yield ();] *)
Definition yield_now_or_on_return : M unit :=
  s ← get;
  if in_external_intr s then put (set_intr true true s) else thread_yield.

Definition thread_unblock (t : nat) : M unit :=
  th ← get_thread t;
  ASSERT (bool_decide (status th = THREAD_BLOCKED)) ;;
  link_elem t ;;
  modify (λ s, set_ready (ready_list s ++ [t]) s) ;;
  upd_thread t (with_status THREAD_READY) ;;
  s ← get;
  c ← thread_current;
  if given_thread_get_priority s c <? given_thread_get_priority s t then yield_now_or_on_return
  else mret tt.

(** ** Semaphores *)
Definition sema_init (x : sema_id) (v : Z) : M unit := put_sema x (MkSema v []).

(** One test of the loop of [sema_down]. *)
Definition sema_down (x : sema_id) : M unit :=
  m ← get_sema x;
  if value m =? 0 then
    t ← thread_current;
    link_elem t ;;
    put_sema x (MkSema (value m) (waiters m ++ [t])) ;;
    push_todo [SemaDown x] ;;
    thread_block
  else put_sema x (MkSema (u32 (value m - 1)) (waiters m)).

Definition sema_try_down (x : sema_id) : M bool :=
  m ← get_sema x;
  if 0 <? value m then put_sema x (MkSema (u32 (value m - 1)) (waiters m)) ;; mret true
  else mret false.

Definition sema_up (x : sema_id) : M unit :=
  m ← get_sema x;
  put_sema x (MkSema (u32 (value m + 1)) (waiters m)) ;;
  match waiters m with
  | [] => mret tt
  | l =>
    t ← list_highest_priority_thread l;
    put_sema x (MkSema (u32 (value m + 1)) (list_remove t l)) ;;
    thread_unblock t
  end.

(** ** Locks *)
Definition lock_init (l : nat) : M unit :=
  modify (λ s, set_holder (delete l (holder s)) s) ;; sema_init (SemLock l) 1.

Definition lock_held_by_current_thread (l : nat) : M bool :=
  t ← thread_current; s ← get; mret (bool_decide (holder s !! l = Some t)).

(** [lock->holder = cur; list_push_back (&cur->locks, &lock->elem)]. *)
Definition lock_acquired (l : nat) : M unit :=
  t ← thread_current;
  modify (λ s, set_holder (<[l := t]> (holder s)) s) ;;
  upd_thread t (λ th, with_locks (locks th ++ [l]) th).

Definition lock_acquire (l : nat) : M unit :=
  s ← get;
  ASSERT (negb (in_external_intr s)) ;;
  h ← lock_held_by_current_thread l;
  ASSERT (negb h) ;;
  push_todo [SemaDown (SemLock l); LockAcquired l].

Definition lock_try_acquire (l : nat) : M unit :=
  h ← lock_held_by_current_thread l;
  ASSERT (negb h) ;;
  success ← sema_try_down (SemLock l);
  if success : bool then push_todo [LockAcquired l] else mret tt.

Definition lock_release (l : nat) : M unit :=
  h ← lock_held_by_current_thread l;
  ASSERT h ;;
  s ← get;
  upd_thread (cur s) (λ th, with_locks (list_remove l (locks th)) th) ;;
  modify (λ s, set_holder (delete l (holder s)) s) ;;
  push_todo [SemaUp (SemLock l)].

(** ** Condition variables *)
Definition get_cond (c : nat) : M (list nat) := gets (λ s, default [] (conds s !! c)).

Definition cond_init (c : nat) : M unit := modify (λ s, set_conds (<[c := []]> (conds s)) s).

Definition cond_wait (c l : nat) : M unit :=
  s ← get;
  ASSERT (negb (in_external_intr s)) ;;
  h ← lock_held_by_current_thread l;
  ASSERT h ;;
  let w := next_key s in
  modify (set_next_key (S w)) ;;
  sema_init (SemCond w) 0 ;;
  ws ← get_cond c;
  modify (λ s, set_conds (<[c := ws ++ [w]]> (conds s)) s) ;;
  push_todo [LockRelease l; SemaDown (SemCond w); LockAcquire l].

(** The scan of [cond_signal] over the waiters' semaphores: the waiter with
    the highest (undonated) priority, the first one if none sleeps yet. *)
Fixpoint signal_scan (s : sys) (ws : list nat) (best : nat) (highest : Z) : res nat :=
  match ws with
  | [] => Ok best
  | w :: ws =>
    match semas s !! SemCond w with
    | None => Err Fault
    | Some m =>
      match waiters m with
      | [] => signal_scan s ws best highest
      | t :: l =>
        match threads s !! highest_loop s l t with
        | None => Err Fault
        | Some th =>
          if highest <? priority th then signal_scan s ws w (priority th)
          else signal_scan s ws best highest
        end
      end
    end
  end.

Definition cond_signal (c l : nat) : M unit :=
  s ← get;
  ASSERT (negb (in_external_intr s)) ;;
  h ← lock_held_by_current_thread l;
  ASSERT h ;;
  ws ← get_cond c;
  match ws with
  | [] => mret tt
  | w :: _ =>
    match signal_scan s ws w (-1) with
    | Err e => fail e
    | Ok w =>
      modify (λ s, set_conds (<[c := list_remove w ws]> (conds s)) s) ;;
      push_todo [SemaUp (SemCond w)]
    end
  end.

Definition cond_broadcast (c l : nat) : M unit :=
  ws ← get_cond c;
  match ws with
  | [] => mret tt
  | _ => push_todo [CondSignal c l; CondBroadcast c l]
  end.

(** ** The rest of thread.c *)

(** The test at the end of [thread_set_priority] and [thread_set_nice], with
    interrupts on: [if (!list_empty (&ready_list) && p < priority of the best
    ready thread)] yield.  [p] is the new priority, or [None] for the thread's
    effective one.  The walk of [list_highest_priority_thread] starts at the
    first element... *)
Definition preempt (p : option Z) : M unit :=
  s ← get;
  match ready_list s with
  | [] => mret tt
  | t :: _ => push_todo [PreemptScan p t t]
  end.
(** ... goes on from [e], one element at a time ([list_next (e)], [Some None]
    at the end of the list; without [e] in the list the walk is lost) ... *)
Fixpoint next_elem (e : nat) (l : list nat) : option (option nat) :=
  match l with
  | [] => None
  | x :: l => if (x =? e)%nat then Some (head l) else next_elem e l
  end.
Definition preempt_scan (p : option Z) (e best : nat) : M unit :=
  s ← get;
  match next_elem e (ready_list s) with
  | None => fail Fault
  | Some None => push_todo [PreemptTest p best]
  | Some (Some t) =>
    get_thread best ;;
    push_todo [PreemptScan p t
      (if given_thread_get_priority s best <? given_thread_get_priority s t then t else best)]
  end.
(** ... and ends with the comparison. *)
Definition preempt_test (p : option Z) (best : nat) : M unit :=
  s ← get;
  get_thread best ;;
  if default (given_thread_get_priority s (cur s)) p <? given_thread_get_priority s best then
    if in_external_intr s then put (set_intr true true s) else push_todo [Yield]
  else mret tt.

Definition thread_set_priority (new_priority : Z) : M unit :=
  t ← thread_current;
  upd_thread t (λ th, with_sched (nice th) (recent_cpu th) new_priority th) ;;
  push_todo [Preempt (Some new_priority)].

Definition thread_update_mlfqs_priority (th : thread) : thread :=
  with_sched (nice th) (recent_cpu th) (mlfqs_priority (recent_cpu th) (nice th)) th.

Definition thread_set_nice (n : Z) : M unit :=
  t ← thread_current;
  upd_thread t (λ th, thread_update_mlfqs_priority (with_sched n (recent_cpu th) (priority th) th)) ;;
  push_todo [Preempt None].

(** [init_thread] on a fresh page; [n] is the running thread's nice value. *)
Definition init_thread (mlfqs : bool) (n : Z) (p : Z) : thread :=
  let th := MkThread 0 THREAD_BLOCKED n 0 0 [] 0 false [] in
  if mlfqs then thread_update_mlfqs_priority th else with_sched n 0 p th.

(** [thread_create] when its allocations succeed, up to [allocate_tid]; the
    rest of it is in the continuation. *)
Definition thread_create (p : Z) : M unit :=
  s ← get;
  ASSERT ((PRI_MIN <=? p) && (p <=? PRI_MAX)) ;;
  me ← get_thread (cur s);
  let t := next_key s in
  modify (λ s, set_next_key (S t)
                 (set_all_list (all_list s ++ [t])
                    (set_threads (<[t := init_thread (thread_mlfqs s) (nice me) p]> (threads s)) s))) ;;
  push_todo [LockAcquire tid_lock; SetTid t; LockRelease tid_lock; Launch t].

(** [tid = next_tid++], inside the lock. *)
Definition set_tid (t : nat) : M unit :=
  s ← get;
  upd_thread t (with_tid (next_tid s)) ;;
  modify (set_next_tid (s32 (next_tid s + 1))).

(** The end of [thread_create]. *)
Definition thread_launch (t : nat) : M unit :=
  sema_init (SemLoaded t) 0 ;;
  sema_init (SemAlive t) 0 ;;
  upd_thread t (with_alive true) ;;
  thread_unblock t.

(** [thread_exit]: [process_exit] belongs to another component. *)
Definition thread_exit : M unit :=
  t ← thread_current;
  th ← get_thread t;
  upd_thread t (with_todo ((if alive_sema th then [SemaUp (SemAlive t)] else []) ++ [ExitTail])).

Definition thread_exit_tail : M unit :=
  t ← thread_current;
  modify (λ s, set_all_list (list_remove t (all_list s)) s) ;;
  upd_thread t (with_status THREAD_DYING) ;;
  schedule.

(** ** The timer *)

(** [timer_sleep] puts the running thread in the sleeping list with interrupts
    on; what it does after [intr_disable] is another entry of the
    continuation, and the timer can interrupt in between. *)
Definition timer_sleep (n : Z) : M unit :=
  t ← thread_current;
  s ← get;
  upd_thread t (with_wakeup (s64 (ticks s + n))) ;;
  link_elem t ;;
  modify (λ s, set_sleeping (sleeping_list s ++ [t]) s) ;;
  push_todo [SleepBlock].
Definition timer_sleep_block : M unit := push_todo [Woken] ;; thread_block.

(** [for (e = ...; all_list)] applying [f] to every thread. *)
Fixpoint foreach (f : thread → thread) (l : list nat) : M unit :=
  match l with
  | [] => mret tt
  | t :: l => upd_thread t f ;; foreach f l
  end.

Definition thread_tick : M unit :=
  t ← thread_current;
  modify (λ s,
    if bool_decide (idle_thread s = Some t)
    then set_stats (thread_ticks s) (load_avg s) (ticks s) (s64 (idle_ticks s + 1)) (kernel_ticks s) s
    else set_stats (thread_ticks s) (load_avg s) (ticks s) (idle_ticks s) (s64 (kernel_ticks s + 1)) s) ;;
  modify (λ s, set_stats (u32 (thread_ticks s + 1)) (load_avg s) (ticks s) (idle_ticks s) (kernel_ticks s) s) ;;
  s ← get;
  (if TIME_SLICE <=? thread_ticks s then put (set_intr (in_external_intr s) true s) else mret tt) ;;
  if thread_mlfqs s then
    (if negb (bool_decide (idle_thread s = Some t)) then
       upd_thread t (λ th, with_sched (nice th) (s32 (recent_cpu th + int_to_fp 1)) (priority th) th)
     else mret tt) ;;
    (if Z.rem (ticks s) TIMER_FREQ =? 0 then
       let ready_threads := Z.of_nat (length (ready_list s))
                            + (if bool_decide (idle_thread s = Some t) then 0 else 1) in
       let la := next_load_avg (load_avg s) ready_threads in
       modify (λ s, set_stats (thread_ticks s) la (ticks s) (idle_ticks s) (kernel_ticks s) s) ;;
       foreach (λ th, with_sched (nice th) (next_recent_cpu la (recent_cpu th) (nice th)) (priority th) th)
         (all_list s)
     else mret tt) ;;
    (if Z.rem (ticks s) 4 =? 0 then foreach thread_update_mlfqs_priority (all_list s) else mret tt)
  else mret tt.

(** The wake-up loop of [timer_interrupt] over the sleeping threads. *)
Fixpoint wake_loop (l : list nat) : M unit :=
  match l with
  | [] => mret tt
  | t :: l =>
    s ← get;
    th ← get_thread t;
    (if next_wakeup th <=? ticks s then
       modify (λ s, set_sleeping (list_remove t (sleeping_list s)) s) ;;
       thread_unblock t
     else mret tt) ;;
    wake_loop l
  end.

(** [timer_interrupt] but for its last statement: [frame_tick] works on the
    frames and the accessed bits of user pages, which are no part of this
    state; it is modelled in [Vm]. *)
Definition timer_interrupt : M unit :=
  modify (λ s, set_stats (thread_ticks s) (load_avg s) (s64 (ticks s + 1)) (idle_ticks s) (kernel_ticks s) s) ;;
  thread_tick ;;
  s ← get;
  wake_loop (sleeping_list s).

(** [intr_handler] for the timer's interrupt. *)
Definition timer_intr_handler : M unit :=
  s ← get;
  ASSERT (negb (in_external_intr s)) ;;
  put (set_intr true false s) ;;
  timer_interrupt ;;
  s ← get;
  let y := yield_on_return s in
  put (set_intr false y s) ;;
  if y then thread_yield else mret tt.

(** ** Steps *)
Definition exec (o : op) : M unit :=
  match o with
  | SemaDown x => sema_down x
  | SemaTryDown x => sema_try_down x ;; mret tt
  | SemaUp x => sema_up x
  | LockAcquire l => lock_acquire l
  | LockTryAcquire l => lock_try_acquire l
  | LockAcquired l => lock_acquired l
  | LockRelease l => lock_release l
  | CondWait c l => cond_wait c l
  | CondSignal c l => cond_signal c l
  | CondBroadcast c l => cond_broadcast c l
  | Yield => thread_yield
  | SetPriority p => thread_set_priority p
  | SetNice n => thread_set_nice n
  | Preempt p => preempt p
  | PreemptScan p e best => preempt_scan p e best
  | PreemptTest p best => preempt_test p best
  | Sleep n => timer_sleep n
  | SleepBlock => timer_sleep_block
  | Woken => mret tt
  | Create p => thread_create p
  | SetTid t => set_tid t
  | Launch t => thread_launch t
  | Exit => thread_exit
  | ExitTail => thread_exit_tail
  end.

(** The running thread takes the first entry of its continuation and runs it. *)
Definition run_next : M unit :=
  s ← get;
  th ← get_thread (cur s);
  match todo th with
  | [] => mret tt
  | o :: l => upd_thread (cur s) (with_todo l) ;; exec o
  end.

(** The calls a thread may make; the other operations are internal. *)
Definition user_op (o : op) : bool :=
  match o with
  | SemaDown (SemUser _) | SemaTryDown (SemUser _) | SemaUp (SemUser _)
  | LockAcquire _ | LockTryAcquire _ | LockRelease _
  | CondWait _ _ | CondSignal _ _ | CondBroadcast _ _
  | Yield | SetPriority _ | SetNice _ | Sleep _ | Create _ | Exit => true
  | _ => false
  end.

(** ** Starting the system *)

(** [thread_init]: the running code becomes thread 0, which has taken the
    first identifier.  [thread_mlfqs] is still false. *)
Definition thread_init : sys :=
  let main := with_tid 1 (with_status THREAD_RUNNING (init_thread false 0 PRI_DEFAULT)) in
  MkSys {[0%nat := main]} [] [0%nat] 0 None 0 {[SemLock tid_lock := MkSema 1 []]} ∅ ∅ [] 2 1 0 0 0 0 0
    false false false.

(** The [idle_started] semaphore of [thread_start]. *)
Definition idle_started : sema_id := SemUser 0.

(** The other thread there is while [thread_start] runs executes [idle]. *)
Definition start_step : M unit :=
  s ← get;
  if (cur s =? initial_thread s)%nat then run_next
  else
    match idle_thread s with
    | None => t ← thread_current; modify (set_idle (Some t)) ;; push_todo [SemaUp idle_started]
    | Some _ => th ← get_thread (cur s); match todo th with [] => thread_block | _ => run_next end
    end.
Fixpoint start_loop (fuel : nat) : M unit :=
  s ← get;
  th ← get_thread (initial_thread s);
  match todo th with
  | [] => mret tt
  | _ => match fuel with O => fail Timeout | S n => start_step ;; start_loop n end
  end.

(** [thread_start], until [sema_down (&idle_started)] returns. *)
Definition thread_start : M unit :=
  sema_init idle_started 0 ;;
  push_todo [Create PRI_MIN; SemaDown idle_started] ;;
  start_loop 20.

(** A step of the system: the running thread continues a kernel function or
    calls one, the idle thread blocks again, the timer interrupts, or the
    running thread initializes a new semaphore, lock or condition variable.
    The timer can interrupt between any two entries of a continuation. *)
Inductive step : sys → sys → Prop :=
| step_run s s' : run_next s = Ok (tt, s') → step s s'
| step_call s th o :
    threads s !! cur s = Some th → todo th = [] → idle_thread s ≠ Some (cur s) → user_op o = true →
    step s (set_threads (<[cur s := with_todo [o] th]> (threads s)) s)
| step_idle s s' : idle_thread s = Some (cur s) → thread_block s = Ok (tt, s') → step s s'
| step_tick s s' : timer_intr_handler s = Ok (tt, s') → step s s'
| step_sema_init s s' n v : semas s !! SemUser n = None → sema_init (SemUser n) v s = Ok (tt, s') → step s s'
| step_lock_init s s' l : semas s !! SemLock l = None → lock_init l s = Ok (tt, s') → step s s'
| step_cond_init s s' c : conds s !! c = None → cond_init c s = Ok (tt, s') → step s s'.

End Threads.
