(* ===== verification/ThreadsInv.v ===== *)
(** * The scheduler's invariant

    At any time one thread runs, every other thread that can run is in the
    ready list, every blocked thread is in the one list it waits in and in no
    other, and a lock is held by at most one thread.  A running thread is in no
    list, but for the sleeping list between the two halves of [timer_sleep].
    Every step of the system keeps it so. *)
From S2P Require Import Prelude CInt RealArith Threads.
Import RealArith Threads.

Open Scope Z_scope.

(** ** The lists a [struct thread] can be in, through its [elem] *)
Inductive queue := QReady | QSema (x : sema_id) | QSleep.

#[export] Instance queue_eq_dec : EqDecision queue.
Proof. solve_decision. Defined.

Definition elems (s : sys) (q : queue) : list nat :=
  match q with
  | QReady => ready_list s
  | QSema x => match semas s !! x with Some m => waiters m | None => [] end
  | QSleep => sleeping_list s
  end.

(** Where a thread belongs, by its state. *)
Definition waits_in (s : sys) (t : nat) (th : thread) (q : queue) : Prop :=
  match q with
  | QReady => status th = THREAD_READY ∧ idle_thread s ≠ Some t
  | QSema x => status th = THREAD_BLOCKED ∧ head (todo th) = Some (SemaDown x)
  | QSleep => (status th = THREAD_BLOCKED ∧ head (todo th) = Some Woken) ∨
              (status th = THREAD_RUNNING ∧ head (todo th) = Some SleepBlock)
  end.

(** Not between the two halves of [timer_sleep]. *)
Definition awake (th : thread) : Prop := head (todo th) ≠ Some SleepBlock.

#[export] Instance awake_dec th : Decision (awake th).
Proof. unfold awake. apply _. Defined.

(** A running thread is in no list, unless it is falling asleep. *)
Lemma running_waits s t th q :
  status th = THREAD_RUNNING → waits_in s t th q ↔ q = QSleep ∧ head (todo th) = Some SleepBlock.
Proof. intros Hr. destruct q; cbn; naive_solver congruence. Qed.
Lemma awake_waits s t th q : status th = THREAD_RUNNING → awake th → ¬ waits_in s t th q.
Proof. intros Hr Ha [_ H]%running_waits; done. Qed.

(** Internal operations occur only where the code puts them. *)
Definition is_internal_head (o : option op) : bool :=
  match o with
  | Some (LockAcquired _) | Some (SemaUp (SemLock _)) | Some SleepBlock => true
  | _ => false
  end.
Definition follows (o : op) (rest : list op) : bool :=
  match o with
  | SemaDown (SemLock l) => bool_decide (head rest = Some (LockAcquired l))
  | SemaDown (SemAlive _) | SemaDown (SemLoaded _) => false
  | SemaTryDown (SemLock _) => false
  | Exit => bool_decide (rest = [])
  | SetTid t => negb (is_internal_head (head rest)) && bool_decide (nth_error rest 1 = Some (Launch t))
  | _ => negb (is_internal_head (head rest))
  end.
Fixpoint wf_ops (l : list op) : bool :=
  match l with
  | [] => true
  | o :: rest => follows o rest && wf_ops rest
  end.

(** A thread's claim on lock [l]: it holds it, or it has taken the semaphore
    and not yet recorded it, or it has dropped it and not yet upped. *)
Definition tok (l : nat) (th : thread) : nat :=
  (count_occ Nat.eq_dec (locks th) l
   + match head (todo th) with
     | Some (LockAcquired l') | Some (SemaUp (SemLock l')) => if (l' =? l)%nat then 1 else 0
     | _ => 0
     end)%nat.

Record inv_queues (s : sys) : Prop := InvQueues {
  iq_nodup q : NoDup (elems s q);
  iq_elem q t : t ∈ elems s q ↔ ∃ th, threads s !! t = Some th ∧ waits_in s t th q;
}.

Record inv_locks (s : sys) : Prop := InvLocks {
  il_one l t th : threads s !! t = Some th → (tok l th ≤ 1)%nat;
  il_unique l t1 t2 th1 th2 : threads s !! t1 = Some th1 → threads s !! t2 = Some th2 →
    (0 < tok l th1)%nat → (0 < tok l th2)%nat → t1 = t2;
  il_value l m : semas s !! SemLock l = Some m →
    value m = 0 ∨ (value m = 1 ∧ ∀ t th, threads s !! t = Some th → tok l th = 0%nat);
  il_none l t th : semas s !! SemLock l = None → threads s !! t = Some th → tok l th = 0%nat;
  il_holder l t th : threads s !! t = Some th → (holder s !! l = Some t ↔ l ∈ locks th);
}.

(** A thread that [thread_create] has not yet put in the ready list. *)
Definition newborn (s : sys) (t : nat) : Prop :=
  idle_thread s ≠ Some t ∧
  ∃ th, threads s !! t = Some th ∧ status th = THREAD_BLOCKED ∧ todo th = [].

Record inv_new (s : sys) : Prop := InvNew {
  in_born t t' th : threads s !! t = Some th → Launch t' ∈ todo th → newborn s t';
  in_once t th t' : threads s !! t = Some th → (count_occ op_eq_dec (todo th) (Launch t') ≤ 1)%nat;
  in_unique t1 t2 th1 th2 t' : threads s !! t1 = Some th1 → threads s !! t2 = Some th2 →
    Launch t' ∈ todo th1 → Launch t' ∈ todo th2 → t1 = t2;
}.

Record core (s : sys) : Prop := Core {
  c_queues : inv_queues s;
  c_locks : inv_locks s;
  c_new : inv_new s;
  c_wf t th : threads s !! t = Some th → wf_ops (todo th) = true;
  c_running t th : threads s !! t = Some th → status th = THREAD_RUNNING → t = cur s;
  c_doze t th : threads s !! t = Some th → ¬ awake th → status th = THREAD_RUNNING;
  c_idle : ∃ i th, idle_thread s = Some i ∧ threads s !! i = Some th ∧ todo th = [] ∧
    status th ≠ THREAD_DYING;
  c_fresh t : is_Some (threads s !! t) → (t < next_key s)%nat;
  c_fresh_sema w : is_Some (semas s !! SemCond w) → (w < next_key s)%nat;
  c_conds c ws w : conds s !! c = Some ws → w ∈ ws → is_Some (semas s !! SemCond w);
  c_holder l t : holder s !! l = Some t → (t < next_key s)%nat;
  c_all t : t ∈ all_list s → ∃ th, threads s !! t = Some th ∧ status th ≠ THREAD_DYING;
}.

Record inv (s : sys) : Prop := Inv {
  i_core : core s;
  i_intr : in_external_intr s = false;
  i_run : ∃ th, threads s !! cur s = Some th ∧ status th = THREAD_RUNNING;
}.

(** ** Lists of keys *)
Lemma list_remove_elem t t' l : t' ∈ list_remove t l ↔ t' ∈ l ∧ t' ≠ t.
Proof.
  unfold list_remove. rewrite !list_elem_of_In. split.
  - apply in_remove.
  - intros [H1 H2]. by apply in_in_remove.
Qed.
Lemma list_remove_NoDup t l : NoDup l → NoDup (list_remove t l).
Proof.
  unfold list_remove. induction 1 as [|x l Hx Hl IH]; simpl; [by apply NoDup_nil|].
  destruct (Nat.eq_dec t x); [done|]. apply NoDup_cons. split; [|done].
  rewrite list_elem_of_In. intros [H _]%in_remove. by apply Hx, list_elem_of_In.
Qed.
Lemma NoDup_snoc (t : nat) l : NoDup l → t ∉ l → NoDup (l ++ [t]).
Proof.
  intros Hl Ht. apply NoDup_app. split_and!; [done| |apply NoDup_singleton].
  intros x Hx ->%list_elem_of_singleton. done.
Qed.

(** ** Changing the status of one thread *)

(** What [s'] keeps of [s] when only statuses and lists change. *)
Record frame (s s' : sys) : Prop := Frame {
  fr_idle : idle_thread s' = idle_thread s;
  fr_holder : holder s' = holder s;
  fr_key : next_key s' = next_key s;
  fr_lock l m' : semas s' !! SemLock l = Some m' →
    ∃ m, semas s !! SemLock l = Some m ∧ value m' = value m;
  fr_none l : semas s' !! SemLock l = None → semas s !! SemLock l = None;
  fr_cond w : is_Some (semas s' !! SemCond w) ↔ is_Some (semas s !! SemCond w);
  fr_conds : conds s' = conds s;
  fr_all t : t ∈ all_list s' → t ∈ all_list s;
}.

Lemma frame_same s s' :
  idle_thread s' = idle_thread s → holder s' = holder s → next_key s' = next_key s →
  semas s' = semas s → conds s' = conds s → all_list s' = all_list s → frame s s'.
Proof. intros E1 E2 E3 E4 E5 E6. split; rewrite ?E4, ?E6; eauto. Qed.

(** Same claims on locks, same continuations. *)
Definition same_ops (th th' : thread) : Prop := todo th' = todo th ∧ locks th' = locks th.

Lemma tok_same l th th' : same_ops th th' → tok l th' = tok l th.
Proof. intros [E1 E2]. unfold tok. by rewrite E1, E2. Qed.

Lemma inv_locks_sim s s' :
  inv_locks s → frame s s' →
  (∀ t th', threads s' !! t = Some th' → ∃ th, threads s !! t = Some th ∧ same_ops th th') →
  inv_locks s'.
Proof.
  intros [H1 H2 H3 H5 H4] Hf Hsim. split.
  - intros l t th' Ht. destruct (Hsim t th' Ht) as (th & Ht0 & Hs). rewrite (tok_same _ _ _ Hs). eauto.
  - intros l t1 t2 th1 th2 Ht1 Ht2.
    destruct (Hsim _ _ Ht1) as (th1' & ? & Hs1), (Hsim _ _ Ht2) as (th2' & ? & Hs2).
    rewrite (tok_same _ _ _ Hs1), (tok_same _ _ _ Hs2). eauto.
  - intros l m' Hm'. destruct (fr_lock _ _ Hf l m' Hm') as (m & Hm & ->).
    destruct (H3 l m Hm) as [H|[H Hno]]; [by left|right]. split; [done|].
    intros t th' Ht. destruct (Hsim t th' Ht) as (th & Ht0 & Hs). rewrite (tok_same _ _ _ Hs). eauto.
  - intros l t th' Hn%(fr_none _ _ Hf) Ht. destruct (Hsim t th' Ht) as (th & Ht0 & Hs).
    rewrite (tok_same _ _ _ Hs). eauto.
  - intros l t th' Ht. destruct (Hsim t th' Ht) as (th & Ht0 & [_ ->]). rewrite (fr_holder _ _ Hf). eauto.
Qed.

Lemma inv_new_sim s s' :
  inv_new s →
  (∀ t th', threads s' !! t = Some th' → ∃ th, threads s !! t = Some th ∧ todo th' = todo th) →
  (∀ t t' th', threads s' !! t = Some th' → Launch t' ∈ todo th' → newborn s t' → newborn s' t') →
  inv_new s'.
Proof.
  intros [H1 H2 H3] Hsim Hnb. split.
  - intros t t' th' Ht Hl. destruct (Hsim t th' Ht) as (th & Ht0 & E). apply (Hnb t t' th' Ht Hl).
    rewrite E in Hl. eauto.
  - intros t th' t' Ht. destruct (Hsim t th' Ht) as (th & Ht0 & ->). eauto.
  - intros t1 t2 th1 th2 t' Ht1 Ht2 Hl1 Hl2.
    destruct (Hsim _ _ Ht1) as (th1' & ? & E1), (Hsim _ _ Ht2) as (th2' & ? & E2).
    rewrite E1 in Hl1. rewrite E2 in Hl2. eauto.
Qed.

(** Thread [t] changes status and moves between lists. *)
Lemma core_move s s' t th st :
  core s → frame s s' → threads s !! t = Some th →
  threads s' = <[t := with_status st th]> (threads s) →
  (∀ q, NoDup (elems s' q)) →
  (∀ q t', t' ≠ t → t' ∈ elems s' q ↔ t' ∈ elems s q) →
  (∀ q, t ∈ elems s' q ↔ waits_in s' t (with_status st th) q) →
  (∀ t' th', threads s !! t' = Some th' → t' ≠ t → status th' = THREAD_RUNNING → t' = cur s') →
  (st = THREAD_RUNNING → t = cur s') →
  (idle_thread s = Some t → st ≠ THREAD_DYING) →
  (st = THREAD_DYING → t ∉ all_list s') →
  (¬ awake th → st = THREAD_RUNNING) →
  ((∀ t0 th0, threads s !! t0 = Some th0 → Launch t ∉ todo th0)) →
  core s'.
Proof.
  intros [[Q1 Q2] HL HN HW HR HD HI HF HS HC HH HA] Hf Ht Eth Hnd Hoth Hme Hrun Hrun' Hidle Hdead Hdoze Hnew.
  assert (Hlook : ∀ t' th', threads s' !! t' = Some th' →
    (t' = t ∧ th' = with_status st th) ∨ (t' ≠ t ∧ threads s !! t' = Some th')).
  { intros t' th'. rewrite Eth, lookup_insert_Some. intuition congruence. }
  assert (Hsim : ∀ t' th', threads s' !! t' = Some th' → ∃ th0, threads s !! t' = Some th0 ∧ same_ops th0 th').
  { intros t' th' [[-> ->]|[_ H]]%Hlook; [by exists th|by exists th']. }
  split.
  - split; [done|]. intros q t'. destruct (decide (t' = t)) as [->|Hne].
    + rewrite Hme. rewrite Eth, lookup_insert_eq. split; [by eexists|]. intros (? & [= <-] & H). done.
    + rewrite Hoth, Q2 by done. rewrite Eth, lookup_insert_ne by done.
      split; intros (th' & H1 & H2); exists th'; (split; [done|]); revert H2;
        unfold waits_in; rewrite (fr_idle _ _ Hf); by destruct q.
  - by eapply inv_locks_sim.
  - eapply inv_new_sim; [done| |].
    + intros t' th' (th0 & ? & [? _])%Hsim. eauto.
    + intros t0 t' th0 Ht0 Hl (Hni & th' & Ht' & Hst & Htd). split; [by rewrite (fr_idle _ _ Hf)|].
      exists th'. split; [|done]. rewrite Eth, lookup_insert_ne; [done|]. intros <-.
      destruct (Hsim t0 th0 Ht0) as (th1 & Ht1 & [E _]). rewrite E in Hl. by eapply Hnew.
  - intros t' th' (th0 & H & [-> _])%Hsim. eauto.
  - intros t' th' [[-> ->]|[Hne H]]%Hlook Hst; [by apply Hrun'|]. by eapply Hrun.
  - intros t' th' [[-> ->]|[Hne H]]%Hlook Hna; [by apply Hdoze|]. by eapply HD.
  - destruct HI as (i & thi & Ei & Hi & Htd & Hst). exists i. rewrite (fr_idle _ _ Hf), Ei, Eth.
    destruct (decide (i = t)) as [->|Hne].
    + assert (thi = th) as -> by congruence. exists (with_status st th). rewrite lookup_insert_eq.
      split_and!; try done. cbn. by apply Hidle.
    + exists thi. by rewrite lookup_insert_ne by done.
  - intros t'. rewrite (fr_key _ _ Hf), Eth, lookup_insert_is_Some. intros [<-|[_ H]]; eauto.
  - intros w H%(fr_cond _ _ Hf). rewrite (fr_key _ _ Hf). eauto.
  - intros c ws w. rewrite (fr_conds _ _ Hf). intros H1 H2. apply (fr_cond _ _ Hf). eauto.
  - intros l t'. rewrite (fr_holder _ _ Hf), (fr_key _ _ Hf). eauto.
  - intros t' Hin. rewrite Eth. destruct (decide (t' = t)) as [->|Hne].
    + exists (with_status st th). rewrite lookup_insert_eq. split; [done|]. intros Hd. by apply Hdead.
    + rewrite lookup_insert_ne by done. by apply HA, (fr_all _ _ Hf).
Qed.

(** A dead thread's page is freed. *)
Lemma core_delete s t th :
  core s → threads s !! t = Some th → status th = THREAD_DYING →
  core (set_threads (delete t (threads s)) s).
Proof.
  intros [[Q1 Q2] HL HN HW HR HD HI HF HS HC HH HA] Ht Hst.
  assert (Hlook : ∀ t' th', delete t (threads s) !! t' = Some th' → t' ≠ t ∧ threads s !! t' = Some th').
  { intros t' th'. rewrite lookup_delete_Some. intuition congruence. }
  split.
  - split; [done|]. intros q t'.
    change (elems (set_threads (delete t (threads s)) s) q) with (elems s q). rewrite Q2. cbn [threads set_threads].
    split; intros (th' & H1 & H2).
    + exists th'. split; [|done]. rewrite lookup_delete_ne; [done|]. intros <-.
      rewrite Ht in H1. injection H1 as <-. destruct q; cbn in H2; naive_solver congruence.
    + apply Hlook in H1 as [_ H1]. by exists th'.
  - eapply inv_locks_sim; [done| |]; [by split; eauto|].
    intros t' th' [_ H]%Hlook. by exists th'.
  - eapply inv_new_sim; [done| |].
    + intros t' th' [_ H]%Hlook. eauto.
    + intros t0 t' th0 [_ Ht0]%Hlook Hl (Hni & th' & Ht' & Hst' & Htd). split; [done|]. exists th'.
      split; [|done]. cbn. rewrite lookup_delete_ne; [done|]. intros <-. congruence.
  - intros t' th' [_ H]%Hlook. eauto.
  - intros t' th' [_ H]%Hlook. eauto.
  - intros t' th' [_ H]%Hlook. eauto.
  - destruct HI as (i & thi & Ei & Hi & Htd & Hst'). exists i, thi. split_and!; try done.
    cbn. rewrite lookup_delete_ne; [done|]. intros <-. congruence.
  - intros t' [th' [_ H]%Hlook]. eauto.
  - done.
  - done.
  - done.
  - intros t' Hin. destruct (HA t' Hin) as (th' & Ht' & Hd). exists th'. split; [|done].
    cbn. rewrite lookup_delete_ne; [done|]. intros <-. congruence.
Qed.

(** ** Local changes by the running thread *)

(** How one thread's claim on lock [l] and the lock's semaphore may change. *)
Definition lock_step (s s' : sys) (l : nat) (th th' : thread) : Prop :=
  ((∀ m', semas s' !! SemLock l = Some m' → ∃ m, semas s !! SemLock l = Some m ∧ value m' = value m) ∧
   (semas s' !! SemLock l = None → semas s !! SemLock l = None) ∧ (tok l th' ≤ tok l th)%nat) ∨
  ((∃ m, semas s !! SemLock l = Some m ∧ value m = 1) ∧
   (∃ m', semas s' !! SemLock l = Some m' ∧ value m' = 0) ∧ (tok l th' ≤ 1)%nat) ∨
  ((0 < tok l th)%nat ∧ tok l th' = 0%nat ∧
   ∀ m', semas s' !! SemLock l = Some m' → value m' = 0 ∨ value m' = 1).

Lemma inv_locks_local s s' t th th' :
  inv_locks s → threads s !! t = Some th → threads s' = <[t := th']> (threads s) →
  (∀ l, lock_step s s' l th th') →
  (∀ l, holder s' !! l = Some t ↔ l ∈ locks th') →
  (∀ l t' th0, threads s !! t' = Some th0 → t' ≠ t → (holder s' !! l = Some t' ↔ holder s !! l = Some t')) →
  inv_locks s'.
Proof.
  intros [H1 H2 H3 H5 H4] Ht Eth Hstep Hme Hoth.
  assert (Hlook : ∀ t' th0, threads s' !! t' = Some th0 →
    (t' = t ∧ th0 = th') ∨ (t' ≠ t ∧ threads s !! t' = Some th0)).
  { intros t' th0. rewrite Eth, lookup_insert_Some. intuition congruence. }
  (* in the second case nobody had a claim before; in all cases the others keep theirs *)
  assert (Hone : ∀ l t' th0, threads s !! t' = Some th0 → t' ≠ t → (0 < tok l th')%nat → tok l th0 = 0%nat).
  { intros l t' th0 Ht' Hne Hp. destruct (Hstep l) as [(_ & _ & Hle)|[[(m & Hm & Hv) _]|(_ & E & _)]].
    - destruct (decide (tok l th0 = 0%nat)) as [|Hz]; [done|]. exfalso. apply Hne.
      eapply (H2 l t' t th0 th); (done || lia).
    - destruct (H3 l m Hm) as [?|[_ Hno]]; [lia|]. eauto.
    - lia. }
  split.
  - intros l t' th0 [[-> ->]|[Hne H]]%Hlook; [|eauto].
    specialize (H1 l t th Ht). destruct (Hstep l) as [(_ & _ & ?)|[(_ & _ & ?)|(_ & ? & _)]]; lia.
  - intros l t1 t2 th1 th2 [[-> ->]|[Hn1 Ht1]]%Hlook [[-> ->]|[Hn2 Ht2]]%Hlook Hp1 Hp2; [done|..|eauto];
      exfalso; [rewrite (Hone l t2 th2) in Hp2|rewrite (Hone l t1 th1) in Hp1]; (done || lia).
  - intros l m' Hm'. destruct (Hstep l) as [(Hs & _ & Hle)|[(_ & (m0 & Hm0 & Hv) & _)|(Hp & E & Hv)]].
    + destruct (Hs m' Hm') as (m & Hm & ->). destruct (H3 l m Hm) as [?|[Hv Hno]]; [by left|right].
      split; [done|]. intros t' th0 [[-> ->]|[_ Hx]]%Hlook; [|eauto]. specialize (Hno t th Ht). lia.
    + left. congruence.
    + destruct (Hv m' Hm') as [?|Hv1]; [by left|right]. split; [done|].
      intros t' th0 [[-> ->]|[Hne Hx]]%Hlook; [done|]. destruct (decide (tok l th0 = 0%nat)); [done|].
      exfalso. apply Hne. eapply (H2 l t' t th0 th); (done || lia).
  - intros l t' th0 Hn Ht'. assert (Hz : tok l th' = 0%nat ∧ ∀ t1 th1, threads s !! t1 = Some th1 → t1 ≠ t → tok l th1 = 0%nat).
    { destruct (Hstep l) as [(_ & Hs & Hle)|[(_ & (m' & Hm' & _) & _)|(Hp & E & _)]].
      - split; [specialize (H5 l t th (Hs Hn) Ht); lia|eauto].
      - congruence.
      - split; [done|]. intros t1 th1 Ht1 Hne. destruct (decide (tok l th1 = 0%nat)); [done|].
        exfalso. apply Hne. eapply (H2 l t1 t th1 th); (done || lia). }
    apply Hlook in Ht' as [[-> ->]|[Hne Ht']]; [apply Hz|by eapply Hz].
  - intros l t' th0 [[-> ->]|[Hne H]]%Hlook; [apply Hme|]. rewrite (Hoth l t' th0 H Hne). eauto.
Qed.

Lemma count_launch_elem t l : Launch t ∈ l ↔ (0 < count_occ op_eq_dec l (Launch t))%nat.
Proof. rewrite list_elem_of_In. apply count_occ_In. Qed.

(** The threads that [th'] will launch and [th] would not have. *)
Definition launches (s : sys) (th th' : thread) (t : nat) : Prop :=
  (count_occ op_eq_dec (todo th') (Launch t) ≤ count_occ op_eq_dec (todo th) (Launch t))%nat ∨
  ((count_occ op_eq_dec (todo th') (Launch t) ≤ 1)%nat ∧ newborn s t ∧
   ∀ t0 th0, threads s !! t0 = Some th0 → Launch t ∉ todo th0).

(** The running thread changes, and the places it has in the lists. *)
Lemma core_self s s' th th' :
  core s → threads s !! cur s = Some th → status th = THREAD_RUNNING → status th' = THREAD_RUNNING →
  idle_thread s ≠ Some (cur s) → idle_thread s' = idle_thread s → cur s' = cur s →
  threads s' = <[cur s := th']> (threads s) →
  (∀ q, NoDup (elems s' q)) → (∀ q t, t ≠ cur s → t ∈ elems s' q ↔ t ∈ elems s q) →
  (∀ q, cur s ∈ elems s' q ↔ waits_in s' (cur s) th' q) →
  inv_locks s' → wf_ops (todo th') = true →
  (∀ t, launches s th th' t) →
  (next_key s ≤ next_key s')%nat →
  (∀ w, is_Some (semas s' !! SemCond w) → (w < next_key s')%nat) →
  (∀ c ws w, conds s' !! c = Some ws → w ∈ ws → is_Some (semas s' !! SemCond w)) →
  (∀ l t, holder s' !! l = Some t → t = cur s ∨ holder s !! l = Some t) →
  all_list s' = all_list s →
  core s'.
Proof.
  intros Hc Ht Hst Hst' Hni Ei Ec Eth Hnd Hoth Hme HL' Hwf Hcnt Hkey Hfs Hcd Hhd Eall.
  destruct Hc as [[Q1 Q2] HL [N1 N2 N3] HW HR HD HI HF HS HC HH HA].
  assert (Hlook : ∀ t' th0, threads s' !! t' = Some th0 →
    (t' = cur s ∧ th0 = th') ∨ (t' ≠ cur s ∧ threads s !! t' = Some th0)).
  { intros t' th0. rewrite Eth, lookup_insert_Some. intuition congruence. }
  assert (Hnb : ∀ t', newborn s t' → newborn s' t').
  { intros t' (Hn & th0 & Ht0 & Hb & Htd). split; [by rewrite Ei|]. exists th0. split; [|done].
    rewrite Eth, lookup_insert_ne; [done|]. intros <-. congruence. }
  assert (Hl : ∀ t', Launch t' ∈ todo th' → Launch t' ∈ todo th ∨
    (newborn s t' ∧ ∀ t0 th0, threads s !! t0 = Some th0 → Launch t' ∉ todo th0)).
  { intros t'. rewrite !count_launch_elem. destruct (Hcnt t') as [?|(_ & ? & ?)]; [left; lia|by right]. }
  split.
  - split; [done|]. intros q t'. destruct (decide (t' = cur s)) as [->|Hne].
    + rewrite Hme, Eth, lookup_insert_eq. split; [by eexists|]. by intros (? & [= <-] & H).
    + rewrite Hoth, Q2 by done. rewrite Eth, lookup_insert_ne by done.
      split; intros (th0 & H1 & H2); exists th0; (split; [done|]); revert H2; destruct q; cbn; by rewrite ?Ei.
  - done.
  - split.
    + intros t t' th0 [[-> ->]|[_ H]]%Hlook Hin; apply Hnb; [|eauto].
      destruct (Hl t' Hin) as [?|[? _]]; eauto.
    + intros t th0 t' [[-> ->]|[_ H]]%Hlook; [|eauto]. specialize (N2 _ _ t' Ht).
      destruct (Hcnt t') as [?|[? _]]; lia.
    + intros t1 t2 th1 th2 t' [[-> ->]|[_ H1]]%Hlook [[-> ->]|[_ H2]]%Hlook Hi1 Hi2; [done|..|eauto];
        [destruct (Hl t' Hi1) as [?|[_ Hno]]|destruct (Hl t' Hi2) as [?|[_ Hno]]]; eauto;
        by destruct (Hno _ _ ltac:(eassumption)).
  - intros t th0 [[-> ->]|[_ H]]%Hlook; eauto.
  - intros t th0 [[-> ->]|[_ H]]%Hlook Hr; rewrite Ec; eauto.
  - intros t th0 [[-> ->]|[_ H]]%Hlook Hr; eauto.
  - destruct HI as (i & thi & E & Hi & Htd & Hsti). exists i, thi. rewrite Ei, Eth. split_and!; try done.
    rewrite lookup_insert_ne; [done|]. congruence.
  - intros t [th0 [[-> _]|[_ H]]%Hlook]; [|].
    + specialize (HF (cur s)). rewrite Ht in HF. specialize (HF ltac:(by eexists)). lia.
    + specialize (HF t). rewrite H in HF. specialize (HF ltac:(by eexists)). lia.
  - done.
  - done.
  - intros l t H. apply Hhd in H as [->|H%HH]; [|lia].
    specialize (HF (cur s)). rewrite Ht in HF. specialize (HF ltac:(by eexists)). lia.
  - intros t. rewrite Eall. intros (th0 & Ht0 & Hd)%HA. rewrite Eth. destruct (decide (t = cur s)) as [->|Hne].
    + exists th'. rewrite lookup_insert_eq. split; [done|]. congruence.
    + exists th0. by rewrite lookup_insert_ne.
Qed.

Lemma core_local_gen s s' th th' :
  core s → threads s !! cur s = Some th → status th = THREAD_RUNNING → status th' = THREAD_RUNNING →
  awake th → awake th' →
  idle_thread s ≠ Some (cur s) → idle_thread s' = idle_thread s → cur s' = cur s →
  threads s' = <[cur s := th']> (threads s) → (∀ q, elems s' q = elems s q) →
  inv_locks s' → wf_ops (todo th') = true →
  (∀ t, launches s th th' t) →
  (next_key s ≤ next_key s')%nat →
  (∀ w, is_Some (semas s' !! SemCond w) → (w < next_key s')%nat) →
  (∀ c ws w, conds s' !! c = Some ws → w ∈ ws → is_Some (semas s' !! SemCond w)) →
  (∀ l t, holder s' !! l = Some t → t = cur s ∨ holder s !! l = Some t) →
  all_list s' = all_list s →
  core s'.
Proof.
  intros Hc Ht Hst Hst' Haw Haw' Hni Ei Ec Eth Hel. apply core_self with (th := th); try done.
  - intros q. rewrite Hel. apply Hc.
  - intros q t Hne. by rewrite Hel.
  - intros q. rewrite Hel, (iq_elem s (c_queues s Hc)). split; [|by intros Hw%awake_waits].
    intros (th0 & Ht0 & Hw). exfalso. assert (th0 = th) as -> by congruence. by apply awake_waits in Hw.
Qed.

Lemma core_local s s' th th' :
  core s → threads s !! cur s = Some th → status th = THREAD_RUNNING → status th' = THREAD_RUNNING →
  awake th → awake th' →
  idle_thread s ≠ Some (cur s) → idle_thread s' = idle_thread s → cur s' = cur s →
  threads s' = <[cur s := th']> (threads s) → (∀ q, elems s' q = elems s q) →
  inv_locks s' → wf_ops (todo th') = true →
  (∀ t, count_occ op_eq_dec (todo th') (Launch t) ≤ count_occ op_eq_dec (todo th) (Launch t))%nat →
  (next_key s ≤ next_key s')%nat →
  (∀ w, is_Some (semas s' !! SemCond w) → (w < next_key s')%nat) →
  (∀ c ws w, conds s' !! c = Some ws → w ∈ ws → is_Some (semas s' !! SemCond w)) →
  (∀ l t, holder s' !! l = Some t → t = cur s ∨ holder s !! l = Some t) →
  all_list s' = all_list s →
  core s'.
Proof. intros. eapply core_local_gen; try done. by left. Qed.
