(* ===== verification/Scheduler.v ===== *)
(** * Choosing and switching threads

    [next_thread_to_run], [schedule], and what calls it: blocking, yielding
    and unblocking keep the invariant, and the thread that runs next is the
    first one of highest priority in the ready list. *)
From S2P Require Import Prelude CInt RealArith Threads ThreadsInv.
Import RealArith Threads.

Open Scope Z_scope.

(** ** The highest priority, first come first served *)

(** [t] is the first of the elements of [l] with the highest priority. *)
Definition first_highest (s : sys) (l : list nat) (t : nat) : Prop :=
  ∃ l1 l2, l = l1 ++ t :: l2 ∧
    (∀ t', t' ∈ l1 → given_thread_get_priority s t' < given_thread_get_priority s t) ∧
    (∀ t', t' ∈ l2 → given_thread_get_priority s t' ≤ given_thread_get_priority s t).

Lemma highest_loop_first s l pre best :
  first_highest s pre best → first_highest s (pre ++ l) (highest_loop s l best).
Proof.
  revert pre best. induction l as [|t l IH]; intros pre best Hp; simpl.
  { by rewrite app_nil_r. }
  replace (pre ++ t :: l) with ((pre ++ [t]) ++ l) by (by rewrite <- (assoc_L (++))).
  apply IH. destruct Hp as (l1 & l2 & -> & H1 & H2). bcase.
  - exists (l1 ++ best :: l2), []. split_and!; [done| |].
    + intros t' Ht'. rewrite elem_of_app, elem_of_cons in Ht'. destruct Ht' as [Ht'|[->|Ht']].
      * specialize (H1 t' Ht'). lia.
      * done.
      * specialize (H2 t' Ht'). lia.
    + intros t' Ht'. by apply elem_of_nil in Ht'.
  - exists l1, (l2 ++ [t]). split_and!; [by rewrite <- (assoc_L (++))|done|].
    intros t' Ht'. rewrite elem_of_app, list_elem_of_singleton in Ht'. destruct Ht' as [Ht'| ->]; [auto|lia].
Qed.

Lemma highest_first s t l : first_highest s (t :: l) (highest_loop s l t).
Proof.
  apply (highest_loop_first s l [t] t). exists [], []. split_and!; [done|..]; intros t' Ht'; by apply elem_of_nil in Ht'.
Qed.

Lemma first_highest_elem s l t : first_highest s l t → t ∈ l.
Proof. intros (l1 & l2 & -> & _). apply elem_of_app. right. left. Qed.

(** ** Switching *)

(** Who runs next, seen from the state before [schedule]. *)
Definition picked (s : sys) (t : nat) : Prop :=
  match ready_list s with
  | [] => idle_thread s = Some t
  | l => first_highest s l t
  end.

Lemma next_thread_to_run_ok s :
  core s → ∃ t, next_thread_to_run s = Ok (t, set_ready (list_remove t (ready_list s)) s) ∧ picked s t.
Proof.
  intros Hc. destruct (c_idle s Hc) as (i & thi & Ei & _). unfold next_thread_to_run, picked.
  erewrite run_bind_ok by reflexivity. destruct (ready_list s) as [|t l] eqn:El.
  - rewrite Ei. exists i. split; [|done]. by destruct s; cbn in *; subst.
  - unfold list_highest_priority_thread. erewrite run_bind_ok by (erewrite run_bind_ok; reflexivity).
    erewrite run_bind_ok by reflexivity. exists (highest_loop s l t). rewrite El.
    split; [done|]. apply highest_first.
Qed.

(** The chosen thread exists, waits nowhere else and is not being created. *)
Lemma picked_facts s t : core s → picked s t →
  ∃ th, threads s !! t = Some th ∧ (∀ q, q ≠ QReady → t ∉ elems s q) ∧ awake th ∧
    (∀ t0 th0, threads s !! t0 = Some th0 → Launch t ∉ todo th0) ∧
    (t ∈ ready_list s ∨ (idle_thread s = Some t ∧ ready_list s = [])).
Proof.
  intros Hc Hp. assert (Hq := c_queues s Hc). destruct (c_idle s Hc) as (i & thi & Ei & Hi & Htd & Hst).
  unfold picked in Hp. destruct (ready_list s) as [|t0 l] eqn:El.
  - rewrite Ei in Hp. injection Hp as <-. exists thi. split_and!; [done|..].
    + intros q Hqne Hin%(iq_elem s Hq). destruct Hin as (th & Hth & Hw).
      rewrite Hi in Hth. injection Hth as <-.
      destruct q; [done|..]; cbn in Hw; rewrite Htd in Hw; naive_solver.
    + unfold awake. by rewrite Htd.
    + intros t0 th0 Ht0 Hl. destruct (in_born s (c_new s Hc) t0 i th0 Ht0 Hl) as [H _]. done.
    + by right.
  - apply first_highest_elem in Hp. rewrite <- El in Hp. fold (elems s QReady) in Hp.
    assert (Hp' := Hp). apply (iq_elem s Hq QReady) in Hp' as (th & Hth & Hrd & Hni). exists th.
    split_and!; [done|..|by left; rewrite <- El].
    + intros q Hqne (th' & Hth' & Hw)%(iq_elem s Hq). rewrite Hth in Hth'. injection Hth' as <-.
      destruct q; [done|..]; cbn in Hw; naive_solver congruence.
    + intros Hna. assert (H := c_doze s Hc t th Hth (λ Ha, Ha Hna)). congruence.
    + intros t1 th1 Ht1 Hl. destruct (in_born s (c_new s Hc) t1 t th1 Ht1 Hl) as (_ & th' & Hth' & Hb & _).
      congruence.
Qed.

(** The state in which the chosen thread has just started to run. *)
Definition switched (s : sys) (t : nat) (th : thread) : sys :=
  set_stats 0 (load_avg s) (ticks s) (idle_ticks s) (kernel_ticks s)
    (set_threads (<[t := with_status THREAD_RUNNING th]> (threads s))
       (set_cur t (set_ready (list_remove t (ready_list s)) s))).

Lemma switched_core s t th thc :
  core s → picked s t → threads s !! t = Some th →
  threads s !! cur s = Some thc → status thc ≠ THREAD_RUNNING → core (switched s t th).
Proof.
  intros Hc Hp Hth Hcur Hst. destruct (picked_facts s t Hc Hp) as (th' & Hth' & Hq & Haw & Hl & Hin).
  assert (th' = th) as -> by congruence. assert (HQ := c_queues s Hc).
  assert (Hel : ∀ q, elems (switched s t th) q = match q with QReady => list_remove t (ready_list s) | _ => elems s q end)
    by (by intros []).
  apply (core_move s (switched s t th) t th THREAD_RUNNING); try done.
  - by split; eauto.
  - intros q. rewrite Hel. destruct q as [|x|]; [apply list_remove_NoDup, (iq_nodup s HQ QReady)
      |apply (iq_nodup s HQ (QSema x))|apply (iq_nodup s HQ QSleep)].
  - intros q t' Hne. rewrite Hel. destruct q; [|done..]. rewrite list_remove_elem. naive_solver.
  - intros q. rewrite Hel. destruct q; cbn.
    + rewrite list_remove_elem. naive_solver.
    + split; [intros Hx; exfalso; by apply (Hq (QSema x))|naive_solver].
    + split; [intros Hx; exfalso; by apply (Hq QSleep)|]. unfold awake in Haw. naive_solver.
  - intros t' th0 Ht' Hne Hrun. assert (t' = cur s) as -> by (by eapply (c_running s Hc)). congruence.
Qed.

Lemma upd_thread_ok t f th s :
  threads s !! t = Some th → upd_thread t f s = Ok (tt, set_threads (<[t := f th]> (threads s)) s).
Proof.
  intros H. unfold upd_thread. erewrite run_bind_ok by reflexivity. run_deref; [|exact H]. done.
Qed.
Lemma get_thread_ok t th s : threads s !! t = Some th → get_thread t s = Ok (th, s).
Proof. intros H. unfold get_thread. erewrite run_bind_ok by reflexivity. by rewrite H. Qed.

(** What a switch from [s] leads to: the thread that was due runs, and it is
    no longer in the ready list. *)
Definition switched_to (s s' : sys) : Prop :=
  picked s (cur s') ∧ ready_list s' = list_remove (cur s') (ready_list s).

Lemma schedule_ok s th :
  core s → in_external_intr s = false → threads s !! cur s = Some th → status th ≠ THREAD_RUNNING →
  ∃ s', schedule s = Ok (tt, s') ∧ inv s' ∧ switched_to s s'.
Proof.
  intros Hc Hi Hcur Hst. unfold schedule. erewrite run_bind_ok by reflexivity.
  destruct (next_thread_to_run_ok s Hc) as (t & Hnext & Hp). run_with Hnext.
  destruct (picked_facts s t Hc Hp) as (tht & Htht & _).
  erewrite run_bind_ok by (by apply get_thread_ok).
  run_assert; [|by rewrite bool_decide_false]. erewrite run_bind_ok by reflexivity.
  run_assert; [|apply bool_decide_true; by eexists].
  assert (Hsw := switched_core s t tht th Hc Hp Htht Hcur Hst).
  set (s2 := switched s t tht) in *.
  assert (Hrun2 : threads s2 !! t = Some (with_status THREAD_RUNNING tht)) by (by apply lookup_insert_eq).
  destruct (Nat.eqb_spec (cur s) t) as [E|Hne]; cbn [negb].
  - unfold thread_schedule_tail. erewrite run_bind_ok by reflexivity.
    erewrite run_bind_ok; [|cbn [cur set_ready]; rewrite E; by apply upd_thread_ok].
    erewrite run_bind_ok by reflexivity. eexists. split; [reflexivity|].
    assert (Es : set_stats 0 (load_avg s) (ticks s) (idle_ticks s) (kernel_ticks s)
                   (set_threads (<[t := with_status THREAD_RUNNING tht]> (threads s))
                      (set_ready (list_remove t (ready_list s)) s)) = s2).
    { unfold s2, switched. rewrite <- E. done. }
    cbn [threads set_ready] in *. cbn. rewrite Es. split; [|split; [exact Hp|done]].
    split; [done|done|]. eexists. split; [exact Hrun2|done].
  - erewrite run_bind_ok by reflexivity. unfold thread_schedule_tail. erewrite run_bind_ok by reflexivity.
    erewrite run_bind_ok; [|by apply upd_thread_ok].
    erewrite run_bind_ok by reflexivity.
    assert (Hprev : threads s2 !! cur s = Some th) by (cbn; by rewrite lookup_insert_ne by done).
    erewrite run_bind_ok; [|by apply (get_thread_ok _ th s2)].
    change (initial_thread _) with (initial_thread s).
    destruct (bool_decide (status th = THREAD_DYING) && negb (cur s =? initial_thread s)%nat) eqn:Ed.
    + apply andb_true_iff in Ed as [Ed%bool_decide_eq_true _].
      run_assert; [|apply negb_true_iff; by apply Nat.eqb_neq].
      eexists. split; [reflexivity|]. split; [|by split]. split; [by eapply core_delete|done|].
      exists (with_status THREAD_RUNNING tht). split; [|done]. cbn. rewrite lookup_delete_ne by done.
      exact Hrun2.
    + exists s2. split; [reflexivity|]. split; [|by split]. split; [done|done|].
      eexists. split; [exact Hrun2|done].
Qed.

(** ** Blocking, yielding, unblocking *)

(** Some thread runs, and it is [cur]. *)
Definition running (s : sys) (th : thread) : Prop :=
  threads s !! cur s = Some th ∧ status th = THREAD_RUNNING.

Lemma thread_current_ok s th : running s th → thread_current s = Ok (cur s, s).
Proof.
  intros [Ht Hr]. unfold thread_current. erewrite run_bind_ok by reflexivity.
  erewrite run_bind_ok by (by apply get_thread_ok). run_assert; [done|by apply bool_decide_true].
Qed.

Lemma running_not_new s th t0 th0 :
  core s → running s th → threads s !! t0 = Some th0 → Launch (cur s) ∉ todo th0.
Proof.
  intros Hc [Ht Hr] Ht0 Hl. destruct (in_born s (c_new s Hc) _ _ _ Ht0 Hl) as (_ & th' & Ht' & Hb & _).
  congruence.
Qed.

Lemma running_no_queue s th q : core s → running s th → awake th → cur s ∉ elems s q.
Proof.
  intros Hc [Ht Hr] Ha (th' & Ht' & Hw)%(iq_elem s (c_queues s Hc)). assert (th' = th) as -> by congruence.
  by apply awake_waits in Hw.
Qed.

(** An element in no list can be pushed, any other cannot. *)
Lemma linked_spec s t : linked s t = true ↔ ∃ q, t ∈ elems s q.
Proof.
  unfold linked. rewrite !orb_true_iff, negb_true_iff, !bool_decide_eq_true, bool_decide_eq_false. split.
  - intros [[H|H]|H]; [by exists QReady|by exists QSleep|].
    apply map_not_Forall in H as (x & m & Hm & Hx); [|apply _]. exists (QSema x). cbn. rewrite Hm.
    by apply dec_stable in Hx.
  - intros [[|x|] H]; [by left; left| |by left; right]. right. cbn in H. intros Hall.
    destruct (semas s !! x) as [m|] eqn:Em; [by apply (Hall x m Em)|by apply elem_of_nil in H].
Qed.
Lemma link_elem_ok s t : (∀ q, t ∉ elems s q) → link_elem t s = Ok (tt, s).
Proof.
  intros H. unfold link_elem. erewrite run_bind_ok by reflexivity. destruct (linked s t) eqn:E; [|done].
  apply linked_spec in E as [q Hq]. by destruct (H q).
Qed.
Lemma link_elem_fault s t q : t ∈ elems s q → link_elem t s = Err Fault.
Proof.
  intros H. unfold link_elem. erewrite run_bind_ok by reflexivity.
  by rewrite (proj2 (linked_spec s t)) by eauto.
Qed.

(** The running thread gives up the processor with status [st]; it must
    already be in the list it will wait in, if any. *)
Definition leaving (st : thread_status) (s : sys) (th : thread) : sys :=
  set_threads (<[cur s := with_status st th]> (threads s)) s.

Lemma leave_ok s th st :
  running s th → in_external_intr s = false → st ≠ THREAD_RUNNING → core (leaving st s th) →
  ∃ s', (upd_thread (cur s) (with_status st) ;; schedule) s = Ok (tt, s') ∧ inv s' ∧
    switched_to (leaving st s th) s'.
Proof.
  intros [Ht Hr] Hi Hst Hc. erewrite run_bind_ok by (by apply upd_thread_ok).
  eapply schedule_ok; [exact Hc|done| |].
  - cbn. by rewrite lookup_insert_eq.
  - done.
Qed.

Lemma thread_block_ok s th :
  running s th → in_external_intr s = false → core (leaving THREAD_BLOCKED s th) →
  ∃ s', thread_block s = Ok (tt, s') ∧ inv s' ∧ switched_to (leaving THREAD_BLOCKED s th) s'.
Proof.
  intros Hr Hi Hc. unfold thread_block. erewrite run_bind_ok by reflexivity.
  run_assert; [|by rewrite Hi]. erewrite run_bind_ok by (by eapply thread_current_ok).
  by apply leave_ok.
Qed.

(** The state in which the running thread has put itself in the ready list. *)
Definition yielding (s : sys) (th : thread) : sys :=
  leaving THREAD_READY
    (if bool_decide (idle_thread s = Some (cur s)) then s else set_ready (ready_list s ++ [cur s]) s) th.

Lemma yielding_core s th : core s → running s th → awake th → core (yielding s th).
Proof.
  intros Hc Hr Haw. assert (HQ := c_queues s Hc). destruct (Hr) as [Ht Hst]. unfold yielding.
  case_bool_decide as Hid.
  - apply (core_move s _ (cur s) th THREAD_READY); try done; [by apply frame_same|..].
    + intros q. apply (iq_nodup s HQ q).
    + intros q. split; [intros H; exfalso; by eapply (running_no_queue s th q)|].
      unfold awake in Haw. destruct q; cbn; naive_solver.
    + intros t' th' Ht' Hne Hrun. exfalso. apply Hne. by eapply (c_running s Hc).
    + intros. by eapply running_not_new.
  - apply (core_move s _ (cur s) th THREAD_READY); try done; [by apply frame_same|..].
    + intros [|x|]; [apply NoDup_snoc; [apply (iq_nodup s HQ QReady)|by eapply (running_no_queue s th QReady)]
        |apply (iq_nodup s HQ (QSema x))|apply (iq_nodup s HQ QSleep)].
    + intros [|x|] t' Hne; cbn; [|done..]. rewrite elem_of_app, list_elem_of_singleton. naive_solver.
    + intros [|x|]; cbn.
      * rewrite elem_of_app, list_elem_of_singleton. naive_solver.
      * split; [intros H; exfalso; by eapply (running_no_queue s th (QSema x))|naive_solver].
      * split; [intros H; exfalso; by eapply (running_no_queue s th QSleep)|].
        unfold awake in Haw. naive_solver.
    + intros t' th' Ht' Hne Hrun. exfalso. apply Hne. by eapply (c_running s Hc).
    + intros. by eapply running_not_new.
Qed.

Lemma thread_yield_ok s th :
  core s → running s th → awake th → in_external_intr s = false →
  ∃ s', thread_yield s = Ok (tt, s') ∧ inv s' ∧ switched_to (yielding s th) s'.
Proof.
  intros Hc Hr Haw Hi. assert (Hy := yielding_core s th Hc Hr Haw). unfold thread_yield.
  erewrite run_bind_ok by (by eapply thread_current_ok). erewrite run_bind_ok by reflexivity.
  run_assert; [|by rewrite Hi]. unfold yielding in *.
  destruct (bool_decide (idle_thread s = Some (cur s))); cbn [negb].
  - erewrite run_bind_ok by reflexivity. by apply leave_ok.
  - cbv iota. erewrite run_bind_ok by (erewrite run_bind_ok
      by (apply link_elem_ok; intros q; by eapply running_no_queue); reflexivity).
    by apply (leave_ok (set_ready (ready_list s ++ [cur s]) s) th THREAD_READY).
Qed.

(** A thread that is falling asleep is still in the sleeping list. *)
Lemma thread_yield_asleep s th :
  core s → running s th → ¬ awake th → in_external_intr s = false → thread_yield s = Err Fault.
Proof.
  intros Hc Hr Haw Hi. destruct (Hr) as [Ht Hst]. unfold thread_yield.
  erewrite run_bind_ok by (by eapply thread_current_ok). erewrite run_bind_ok by reflexivity.
  run_assert; [|by rewrite Hi]. assert (Hq : cur s ∈ elems s QSleep).
  { apply (iq_elem s (c_queues s Hc)). exists th. split; [done|]. right. split; [done|]. by apply dec_stable. }
  destruct (c_idle s Hc) as (i & thi & Ei & Hit & Htd & _). rewrite bool_decide_false.
  - cbn [negb]. cbv iota. by erewrite run_bind_err by (by erewrite run_bind_err by (by eapply link_elem_fault)).
  - intros E. apply Haw. assert (thi = th) as -> by congruence. unfold awake. by rewrite Htd.
Qed.

(** Thread [t] has been put in the ready list. *)
Definition woken (s : sys) (t : nat) (th : thread) : sys :=
  set_threads (<[t := with_status THREAD_READY th]> (threads s)) (set_ready (ready_list s ++ [t]) s).

(** [s1] is [s] with [t] taken out of the list it waits in. *)
Lemma woken_core s s1 t th thc :
  core s → running s thc → frame s s1 → threads s1 = threads s → ready_list s1 = ready_list s →
  cur s1 = cur s → threads s !! t = Some th → status th = THREAD_BLOCKED → idle_thread s ≠ Some t →
  (∀ q, NoDup (elems s1 q)) → (∀ q t', t' ≠ t → t' ∈ elems s1 q ↔ t' ∈ elems s q) →
  (∀ q, t ∉ elems s1 q) → (∀ t0 th0, threads s !! t0 = Some th0 → Launch t ∉ todo th0) →
  core (woken s1 t th) ∧ running (woken s1 t th) thc.
Proof.
  intros Hc [Hcur Hrun] Hf Eth Er Ec Ht Hb Hni Hnd Hoth Hme Hnew.
  assert (Hne : cur s ≠ t) by congruence. split.
  - apply (core_move s _ t th THREAD_READY); try done.
    + destruct Hf. by split.
    + cbn. by rewrite Eth.
    + intros [|x|]; cbn; [apply NoDup_snoc; [apply (Hnd QReady)|apply (Hme QReady)]
        |apply (Hnd (QSema x))|apply (Hnd QSleep)].
    + intros [|x|] t' Hn; cbn; [|apply (Hoth (QSema x))|apply (Hoth QSleep)]; [|done..].
      rewrite elem_of_app, list_elem_of_singleton, Er. naive_solver.
    + intros [|x|]; cbn; [|split; [intros H; exfalso; by apply (Hme (QSema x))|naive_solver]
        |split; [intros H; exfalso; by apply (Hme QSleep)|naive_solver]].
      rewrite elem_of_app, list_elem_of_singleton, (fr_idle _ _ Hf). naive_solver.
    + intros t' th' Ht' Hn Hr'. cbn. rewrite Ec. by eapply (c_running s Hc).
    + intros Hna. assert (H := c_doze s Hc t th Ht Hna). congruence.
  - split; [|done]. cbn. rewrite Ec, Eth. by rewrite lookup_insert_ne.
Qed.

Lemma thread_unblock_ok s t th thc :
  threads s !! t = Some th → status th = THREAD_BLOCKED → (∀ q, t ∉ elems s q) →
  core (woken s t th) → running (woken s t th) thc →
  (in_external_intr s = false → awake thc → ∃ s', thread_unblock t s = Ok (tt, s') ∧ inv s') ∧
  (in_external_intr s = true → ∃ y, thread_unblock t s = Ok (tt, set_intr true y (woken s t th))).
Proof.
  intros Ht Hb Hno Hc Hr. unfold thread_unblock. erewrite run_bind_ok by (by apply get_thread_ok).
  run_assert; [|by apply bool_decide_true]. erewrite run_bind_ok by (by apply link_elem_ok). erewrite run_bind_ok by reflexivity.
  erewrite run_bind_ok by (by apply upd_thread_ok). erewrite run_bind_ok by reflexivity.
  change (set_threads _ _) with (woken s t th).
  erewrite run_bind_ok by (by eapply thread_current_ok).
  destruct (given_thread_get_priority (woken s t th) (cur (woken s t th)) <?
            given_thread_get_priority (woken s t th) t).
  - unfold yield_now_or_on_return. erewrite run_bind_ok by reflexivity. split; intros Hi; cbn; rewrite Hi; [intros Haw|].
    + destruct (thread_yield_ok _ _ Hc Hr Haw Hi) as (s' & Hrun & Hinv & _). eauto.
    + by eexists.
  - split; intros Hi; [intros Haw|].
    + eexists. split; [reflexivity|]. destruct Hr. split; [done|done|eauto].
    + exists (yield_on_return s). cbn. by destruct s; cbn in *; subst.
Qed.
