(* ===== verification/SynchInv.v ===== *)
(** * Every step keeps the scheduler's invariant

    One lemma per operation of [synch.c], [thread.c] and [timer.c], from the
    state in which the running thread has taken the operation from its
    continuation.  Each also shows that the operation runs without panic or
    fault unless its caller breaks its contract. *)
From S2P Require Import Prelude CInt RealArith Threads ThreadsInv Scheduler.

Open Scope Z_scope.

Import RealArith Threads.

(** The running thread has taken the head of its continuation. *)
Definition popped (s : sys) (th : thread) (rest : list op) : sys :=
  set_threads (<[cur s := with_todo rest th]> (threads s)) s.

Lemma run_next_eq s th o rest :
  threads s !! cur s = Some th → todo th = o :: rest → run_next s = exec o (popped s th rest).
Proof.
  intros Ht Htd. unfold run_next. erewrite run_bind_ok by reflexivity.
  erewrite run_bind_ok by (by apply get_thread_ok). rewrite Htd.
  by erewrite run_bind_ok by (by apply upd_thread_ok).
Qed.

(** The state an operation of a thread other than the idle thread runs in. *)
Record ready_to_run (s : sys) (th : thread) : Prop := ReadyToRun {
  rr_core : core s;
  rr_run : running s th;
  rr_intr : in_external_intr s = false;
  rr_idle : idle_thread s ≠ Some (cur s);
  rr_awake : awake th;
}.

Lemma ready_inv s th : ready_to_run s th → inv s.
Proof. intros [Hc [Ht Hr] Hi _ _]. split; eauto. Qed.

Lemma inv_busy s th o rest :
  inv s → threads s !! cur s = Some th → todo th = o :: rest → o ≠ SleepBlock →
  ready_to_run s th ∧ status th = THREAD_RUNNING.
Proof.
  intros [Hc Hi (th' & Ht' & Hr)] Ht Htd Ho. assert (th' = th) as -> by congruence.
  split; [|done]. split; [done|by split|done| |by unfold awake; rewrite Htd; cbn; congruence]. intros E.
  destruct (c_idle s Hc) as (i & thi & Ei & Hi' & Hti & _). rewrite E in Ei. injection Ei as <-. congruence.
Qed.

Lemma lock_value_cases s l m :
  core s → semas s !! SemLock l = Some m → value m = 0 ∨ value m = 1.
Proof. intros Hc Hm. destruct (il_value s (c_locks s Hc) l m Hm) as [?|[? _]]; auto. Qed.

(** ** Changing the continuation *)

Lemma tok_no_head l th :
  is_internal_head (head (todo th)) = false → tok l th = count_occ Nat.eq_dec (locks th) l.
Proof.
  unfold tok, is_internal_head. destruct (head (todo th)) as [o|]; [|lia].
  destruct o; try match goal with x : sema_id |- _ => destruct x end; simpl; intros; (done || lia).
Qed.

Lemma awake_no_head th : is_internal_head (head (todo th)) = false → awake th.
Proof. unfold awake. by intros H E; rewrite E in H. Qed.

Lemma tok_count l th : (count_occ Nat.eq_dec (locks th) l ≤ tok l th)%nat.
Proof. unfold tok. lia. Qed.

(** The running thread changes, its lock list and its place in no list do. *)
Lemma core_thread s th th' :
  ready_to_run s th → status th' = THREAD_RUNNING → locks th' = locks th → wf_ops (todo th') = true →
  is_internal_head (head (todo th')) = false ∨ todo th' = todo th →
  (∀ t, count_occ op_eq_dec (todo th') (Launch t) ≤ count_occ op_eq_dec (todo th) (Launch t))%nat →
  ready_to_run (set_threads (<[cur s := th']> (threads s)) s) th'.
Proof.
  intros [Hc [Ht Hr] Hi Hni Haw] Hr' El Hwf Hh Hcnt.
  assert (Haw' : awake th') by (destruct Hh as [?%awake_no_head|E]; [done|by unfold awake; rewrite E]).
  split; [|split; [by apply lookup_insert_eq|done]|done|done|done].
  eapply (core_local s _ th th'); try done.
  - eapply (inv_locks_local s _ (cur s) th th'); [apply Hc|done|done|..].
    + intros l. left. split_and!; [eauto|done|]. destruct Hh as [Hh|Hh].
      * rewrite (tok_no_head l th') by done. rewrite El. apply tok_count.
      * by rewrite (tok_same l th th').
    + intros l. cbn. rewrite El. exact (il_holder s (c_locks s Hc) l (cur s) th Ht).
    + done.
  - apply Hc.
  - apply Hc.
  - by right.
Qed.

Lemma core_todo s th l' :
  ready_to_run s th → wf_ops l' = true → is_internal_head (head l') = false →
  (∀ t, count_occ op_eq_dec l' (Launch t) ≤ count_occ op_eq_dec (todo th) (Launch t))%nat →
  ready_to_run (set_threads (<[cur s := with_todo l' th]> (threads s)) s) (with_todo l' th).
Proof.
  intros Hrr Hwf Hh Hcnt. apply (core_thread s th); try done; [apply (rr_run _ _ Hrr)|by left].
Qed.

Lemma follows_head o rest :
  follows o rest = true → (∀ l, o ≠ SemaDown (SemLock l)) → is_internal_head (head rest) = false.
Proof.
  intros H Hne. destruct o; cbn in H; try (by apply negb_true_iff in H).
  - destruct s; try done; [by apply negb_true_iff in H|by destruct (Hne l)|by apply negb_true_iff in H].
  - destruct s; try done; by apply negb_true_iff in H.
  - apply andb_true_iff in H as [H _]. by apply negb_true_iff in H.
  - apply bool_decide_eq_true in H. by subst.
Qed.

Lemma count_tail o (rest : list op) x :
  (count_occ op_eq_dec rest x ≤ count_occ op_eq_dec (o :: rest) x)%nat.
Proof. simpl. destruct (op_eq_dec o x); lia. Qed.

Lemma popped_ready s th o rest :
  inv s → threads s !! cur s = Some th → todo th = o :: rest →
  (∀ l, o ≠ SemaDown (SemLock l)) → o ≠ SleepBlock →
  ready_to_run (popped s th rest) (with_todo rest th) ∧ follows o rest = true ∧ wf_ops rest = true.
Proof.
  intros Hinv Ht Htd Hne Hno. destruct (inv_busy s th o rest Hinv Ht Htd Hno) as [Hr _].
  assert (Hwf := c_wf s (i_core s Hinv) _ _ Ht). rewrite Htd in Hwf.
  apply andb_true_iff in Hwf as [Hf Hwf]. split; [|done]. apply core_todo; [done|done| |].
  - by eapply follows_head.
  - intros t. rewrite Htd. apply count_tail.
Qed.

(** The head of the continuation is the only claim on lock [l]. *)
Lemma popped_claim s th o rest l :
  inv s → threads s !! cur s = Some th → todo th = o :: rest →
  o = LockAcquired l ∨ o = SemaUp (SemLock l) →
  (∀ t th0, threads (popped s th rest) !! t = Some th0 → tok l th0 = 0%nat) ∧
  (∀ m, semas s !! SemLock l = Some m → value m = 0).
Proof.
  intros Hinv Ht Htd Ho. assert (HL := c_locks s (i_core s Hinv)).
  assert (Htok : tok l th = (count_occ Nat.eq_dec (locks th) l + 1)%nat).
  { unfold tok. rewrite Htd. destruct Ho as [-> | ->]; cbn; by rewrite Nat.eqb_refl. }
  assert (H1 := il_one s HL l _ _ Ht).
  assert (Hwf := c_wf s (i_core s Hinv) _ _ Ht). rewrite Htd in Hwf.
  apply andb_true_iff in Hwf as [Hf _]. split.
  - intros t th0 Ht0. cbn in Ht0. apply lookup_insert_Some in Ht0 as [[<- <-]|[Hne Ht0]].
    + rewrite tok_no_head; [cbn; lia|]. eapply follows_head; [exact Hf|]. by destruct Ho as [-> | ->].
    + destruct (decide (tok l th0 = 0%nat)); [done|]. exfalso. apply Hne.
      eapply (il_unique s HL l (cur s) t th th0); (done || lia).
  - intros m Hm. destruct (il_value s HL l m Hm) as [?|[_ Hno]]; [done|]. specialize (Hno _ _ Ht). lia.
Qed.

(** ** Semaphores *)

(** A semaphore's value changes, its waiters do not. *)
Lemma elems_put_sema s x m m' q :
  semas s !! x = Some m → waiters m' = waiters m →
  elems (set_semas (<[x := m']> (semas s)) s) q = elems s q.
Proof.
  intros Hm E. destruct q as [|y|]; [done| |done]. cbn. destruct (decide (x = y)) as [<-|Hne].
  - by rewrite lookup_insert_eq, Hm.
  - by rewrite lookup_insert_ne.
Qed.

Lemma set_threads_same s th : threads s !! cur s = Some th → <[cur s := th]> (threads s) = threads s.
Proof. intros H. by apply insert_id. Qed.

Lemma cond_sema_put s x m m' w :
  semas s !! x = Some m → is_Some (<[x := m']> (semas s) !! SemCond w) ↔ is_Some (semas s !! SemCond w).
Proof.
  intros Hm. rewrite lookup_insert_is_Some'. split; [|by auto]. intros [E|H]; [|done].
  rewrite <- E, Hm. by eexists.
Qed.

(** One semaphore and the running thread change: what is left to show is that
    the claims on the locks are kept. *)
Lemma core_sema s th x m m' th' :
  ready_to_run s th → semas s !! x = Some m → waiters m' = waiters m →
  status th' = THREAD_RUNNING → awake th' → locks th' = locks th → wf_ops (todo th') = true →
  (∀ t, count_occ op_eq_dec (todo th') (Launch t) ≤ count_occ op_eq_dec (todo th) (Launch t))%nat →
  (∀ l, lock_step s (set_semas (<[x := m']> (semas s)) s) l th th') →
  ready_to_run (set_semas (<[x := m']> (semas s)) (set_threads (<[cur s := th']> (threads s)) s)) th'.
Proof.
  intros [Hc [Ht Hr] Hi Hni Haw] Hm Hw Hr' Haw' El Hwf Hcnt Hls.
  split; [|split; [by apply lookup_insert_eq|done]|done|done|done].
  eapply (core_local s _ th th'); try done.
  - intros q. rewrite <- (elems_put_sema s x m m' q Hm Hw). by destruct q.
  - eapply (inv_locks_local s _ (cur s) th th'); [apply Hc|done|done|..].
    + intros l. apply (Hls l).
    + intros l. cbn. rewrite El. exact (il_holder s (c_locks s Hc) l (cur s) th Ht).
    + done.
  - intros w Hx. apply (c_fresh_sema s Hc). by apply (cond_sema_put s x m m' w Hm).
  - intros c ws w Hcw Hin. apply (cond_sema_put s x m m' w Hm). by eapply (c_conds s Hc).
  - by right.
Qed.

Definition lock_sema (x : sema_id) : bool := match x with SemLock _ => true | _ => false end.

(** A semaphore that is not a lock's. *)
Lemma core_other_sema s th x m m' :
  ready_to_run s th → semas s !! x = Some m → waiters m' = waiters m → lock_sema x = false →
  ready_to_run (set_semas (<[x := m']> (semas s)) s) th.
Proof.
  intros Hrr Hm Hw Hx. assert (Hc := rr_core _ _ Hrr). destruct (rr_run _ _ Hrr) as [Ht Hr].
  assert (E : set_semas (<[x := m']> (semas s)) s =
    set_semas (<[x := m']> (semas s)) (set_threads (<[cur s := th]> (threads s)) s)).
  { rewrite set_threads_same by done. by destruct s. }
  rewrite E. apply (core_sema s th x m m' th); try done; [apply Hrr|by eapply (c_wf s Hc)|].
  intros l. left. cbn. rewrite lookup_insert_ne by (by destruct x). split_and!; eauto.
Qed.

(** A lock's semaphore is taken. *)
Lemma core_take s th th' l m rest :
  ready_to_run s th → semas s !! SemLock l = Some m → value m ≠ 0 →
  th' = with_todo (LockAcquired l :: rest) th → wf_ops (LockAcquired l :: rest) = true →
  (∀ t, count_occ op_eq_dec rest (Launch t) ≤ count_occ op_eq_dec (todo th) (Launch t))%nat →
  ready_to_run (set_semas (<[SemLock l := MkSema (u32 (value m - 1)) (waiters m)]> (semas s))
    (set_threads (<[cur s := th']> (threads s)) s)) th'.
Proof.
  intros Hrr Hm Hv -> Hwf Hcnt. assert (Hc := rr_core _ _ Hrr). destruct (rr_run _ _ Hrr) as [Ht Hr].
  destruct (il_value s (c_locks s Hc) l m Hm) as [?|[Hv1 Hno]]; [done|].
  eapply (core_sema s th (SemLock l) m); try done. intros l'. destruct (decide (l' = l)) as [->|Hne].
  - right. left. split_and!; [eauto| |].
    + eexists. cbn. rewrite lookup_insert_eq. split; [done|]. cbn. by rewrite Hv1.
    + specialize (Hno _ _ Ht). unfold tok in *. cbn. rewrite Nat.eqb_refl. lia.
  - left. cbn. rewrite lookup_insert_ne by congruence. split_and!; [eauto|done|].
    unfold tok. cbn. destruct (Nat.eqb_spec l l'); [congruence|]. lia.
Qed.

Lemma get_sema_ok x m s : semas s !! x = Some m → get_sema x s = Ok (m, s).
Proof. intros H. unfold get_sema. erewrite run_bind_ok by reflexivity. by rewrite H. Qed.

Lemma push_todo_ok s th l :
  threads s !! cur s = Some th →
  push_todo l s = Ok (tt, set_threads (<[cur s := with_todo (l ++ todo th) th]> (threads s)) s).
Proof. intros H. unfold push_todo. erewrite run_bind_ok by reflexivity. by apply (upd_thread_ok _ (λ t, with_todo (l ++ todo t) t)). Qed.

Lemma popped_running s th rest : running s th → running (popped s th rest) (with_todo rest th).
Proof. intros [Ht Hr]. split; [by apply lookup_insert_eq|done]. Qed.

Lemma with_todo_eta th : with_todo (todo th) th = th.
Proof. by destruct th. Qed.

(** The running thread joins the waiters of [x] and blocks. *)
Definition waiting_on (s : sys) (th : thread) (x : sema_id) (m : semaphore) : sys :=
  leaving THREAD_BLOCKED (set_semas (<[x := MkSema (value m) (waiters m ++ [cur s])]> (semas s)) s) th.

Lemma waiting_core s th x m rest :
  ready_to_run s th → todo th = SemaDown x :: rest → semas s !! x = Some m → core (waiting_on s th x m).
Proof.
  intros [Hc Hr Hi Hni Haw] Htd Hm. destruct (Hr) as [Ht Hst]. assert (HQ := c_queues s Hc).
  assert (Hel : ∀ q, elems (waiting_on s th x m) q = elems s q ++ (if decide (q = QSema x) then [cur s] else [])).
  { intros q. destruct (decide (q = QSema x)) as [->|Hne].
    - cbn. by rewrite lookup_insert_eq, Hm.
    - rewrite app_nil_r. destruct q as [|y|]; [done| |done]. cbn. rewrite lookup_insert_ne by congruence. done. }
  apply (core_move s _ (cur s) th THREAD_BLOCKED); try done.
  - split; try done.
    + intros l m' Hm'. cbn in Hm'. apply lookup_insert_Some in Hm' as [[-> <-]|[_ Hm']]; eauto.
    + intros l. cbn. intros [? _]%lookup_insert_None. done.
    + intros w. by apply (cond_sema_put s x m _ w).
  - intros q. rewrite Hel. destruct (decide (q = QSema x)); [|rewrite app_nil_r; apply HQ].
    apply NoDup_snoc; [apply HQ|by eapply running_no_queue].
  - intros q t' Hne. rewrite Hel, elem_of_app. destruct (decide (q = QSema x)).
    + rewrite list_elem_of_singleton. naive_solver.
    + rewrite elem_of_nil. naive_solver.
  - intros q. rewrite Hel, elem_of_app. destruct (decide (q = QSema x)) as [->|Hne].
    + rewrite list_elem_of_singleton. cbn. rewrite Htd. naive_solver.
    + rewrite elem_of_nil. split; [intros [Hq|[]]; exfalso; by eapply (running_no_queue s th q)|].
      destruct q as [|y|]; cbn; [naive_solver| |]; rewrite Htd; cbn; naive_solver.
  - intros t' th' Ht' Hne Hrun. exfalso. apply Hne. by eapply (c_running s Hc).
  - intros. by eapply running_not_new.
Qed.

Lemma sema_down_ok s th x rest m :
  inv s → threads s !! cur s = Some th → todo th = SemaDown x :: rest → semas s !! x = Some m →
  ∃ s', run_next s = Ok (tt, s') ∧ inv s'.
Proof.
  intros Hinv Ht Htd Hm. rewrite (run_next_eq s th _ rest Ht Htd). cbn [exec].
  destruct (inv_busy s th _ rest Hinv Ht Htd ltac:(done)) as [Hrr Hst]. assert (Hr := rr_run _ _ Hrr).
  assert (Hp := popped_running s th rest Hr). unfold sema_down.
  erewrite run_bind_ok by (by apply get_sema_ok). destruct (Z.eqb_spec (value m) 0) as [Hv|Hv].
  - erewrite run_bind_ok by (by eapply thread_current_ok).
    erewrite run_bind_ok by (apply link_elem_ok; intros q; exact (running_no_queue s th q (rr_core _ _ Hrr) Hr (rr_awake _ _ Hrr))).
    erewrite run_bind_ok by reflexivity. erewrite run_bind_ok by (apply push_todo_ok; cbn; by apply lookup_insert_eq).
    assert (E : with_todo ([SemaDown x] ++ todo (with_todo rest th)) (with_todo rest th) = th)
      by (rewrite <- (with_todo_eta th) at 3; by rewrite Htd).
    rewrite E. set (s2 := set_threads _ _).
    assert (E2 : s2 = set_semas (<[x := MkSema (value m) (waiters m ++ [cur s])]> (semas s)) s).
    { unfold s2. cbn. rewrite insert_insert_eq, set_threads_same by done. by destruct s. }
    rewrite E2. destruct (thread_block_ok (set_semas (<[x := MkSema (value m) (waiters m ++ [cur s])]> (semas s)) s) th)
      as (s' & Hb & Hi & _); [done|by apply Hrr|by eapply waiting_core|]. eauto.
  - eexists. split; [reflexivity|]. eapply (ready_inv _ (with_todo rest th)).
    assert (Hwf := c_wf s (i_core s Hinv) _ _ Ht). rewrite Htd in Hwf. apply andb_true_iff in Hwf as [Hf Hwf].
    destruct (lock_sema x) eqn:Ex.
    + destruct x as [| l| | |]; try done. cbn in Hf. apply bool_decide_eq_true in Hf.
      destruct rest as [|o rest']; [done|]. cbn in Hf. injection Hf as ->.
      apply (core_take s th _ l m rest'); try done. intros t. rewrite Htd. etrans; [|apply count_tail]. apply count_tail.
    + destruct (popped_ready s th _ rest Hinv Ht Htd) as [Hpr _]; [by intros l [= ->]|done|].
      by eapply core_other_sema.
Qed.

(** A waiter of [x] is woken. *)
Lemma take_waiter s thc x m t :
  core s → running s thc → semas s !! x = Some m → t ∈ waiters m →
  let s1 := set_semas (<[x := MkSema (value m) (list_remove t (waiters m))]> (semas s)) s in
  ∃ th, threads s !! t = Some th ∧ status th = THREAD_BLOCKED ∧ (∀ q, t ∉ elems s1 q) ∧
    core (woken s1 t th) ∧ running (woken s1 t th) thc.
Proof.
  intros Hc Hr Hm Hin s1. assert (HQ := c_queues s Hc).
  assert (Hx : t ∈ elems s (QSema x)) by (cbn; by rewrite Hm).
  apply (iq_elem s HQ) in Hx as (th & Ht & Hb & Hh). exists th. split; [done|]. split; [done|].
  assert (Hel : ∀ q, elems s1 q = if decide (q = QSema x) then list_remove t (waiters m) else elems s q).
  { intros q. destruct (decide (q = QSema x)) as [->|Hne]; [cbn; by rewrite lookup_insert_eq|].
    destruct q as [|y|]; [done| |done]. cbn. by rewrite lookup_insert_ne by congruence. }
  assert (Hmw : elems s (QSema x) = waiters m) by (cbn; by rewrite Hm).
  destruct (c_idle s Hc) as (i & thi & Ei & Hi & Htdi & _).
  assert (Hno : ∀ q, t ∉ elems s1 q).
  { intros q. rewrite Hel. destruct (decide _) as [->|Hne]; [rewrite list_remove_elem; naive_solver|].
    intros (th' & Ht' & Hw)%(iq_elem s HQ). rewrite Ht in Ht'. injection Ht' as <-.
    destruct q as [|y|]; cbn in Hw; naive_solver congruence. }
  split; [done|]. apply (woken_core s s1 t th thc); try done.
  - split; try done.
    + intros l m'. cbn. intros [[-> <-]|[_ Hm']]%lookup_insert_Some; eauto.
    + intros l. cbn. intros [? _]%lookup_insert_None. done.
    + intros w. by apply (cond_sema_put s x m _ w).
  - intros E. rewrite E in Ei. injection Ei as ->. rewrite Ht in Hi. injection Hi as ->. by rewrite Htdi in Hh.
  - intros q. rewrite Hel. destruct (decide _) as [->|]; [|apply HQ].
    apply list_remove_NoDup. rewrite <- Hmw. apply HQ.
  - intros q t' Hne. rewrite Hel. destruct (decide _) as [->|]; [|done].
    rewrite Hmw, list_remove_elem. naive_solver.
  - intros t0 th0 Ht0 Hl. destruct (in_born s (c_new s Hc) _ _ _ Ht0 Hl) as (_ & th' & Ht' & _ & Htd').
    rewrite Ht in Ht'. injection Ht' as <-. by rewrite Htd' in Hh.
Qed.

Lemma sema_wake_ok s thc x v w :
  ready_to_run s thc → semas s !! x = Some (MkSema v w) →
  ∃ s', (match w with
         | [] => mret tt
         | n :: l => t ← list_highest_priority_thread (n :: l);
                     put_sema x (MkSema v (list_remove t (n :: l))) ;; thread_unblock t
         end) s = Ok (tt, s') ∧ inv s'.
Proof.
  intros Hrr Hm. destruct w as [|t l]; [eexists; split; [reflexivity|]; by eapply ready_inv|].
  unfold list_highest_priority_thread. erewrite run_bind_ok by (erewrite run_bind_ok; reflexivity).
  erewrite run_bind_ok by reflexivity. set (b := highest_loop s l t).
  destruct (take_waiter s thc x _ b (rr_core _ _ Hrr) (rr_run _ _ Hrr) Hm) as (th & Ht & Hb & Hno & Hc & Hr).
  { eapply first_highest_elem, highest_first. }
  apply (λ H, proj1 (thread_unblock_ok _ b th thc H Hb Hno Hc Hr)); [exact Ht|apply Hrr|apply Hrr].
Qed.

(** A lock's semaphore is given back. *)
Lemma core_give s th l m rest :
  inv s → threads s !! cur s = Some th → todo th = SemaUp (SemLock l) :: rest → semas s !! SemLock l = Some m →
  ready_to_run (set_semas (<[SemLock l := MkSema (u32 (value m + 1)) (waiters m)]> (semas s)) (popped s th rest))
    (with_todo rest th).
Proof.
  intros Hinv Ht Htd Hm. destruct (popped_claim s th _ rest l Hinv Ht Htd) as [Hno Hv]; [by right|].
  destruct (inv_busy s th _ rest Hinv Ht Htd ltac:(done)) as [Hrr Hst].
  assert (Hwf := c_wf s (i_core s Hinv) _ _ Ht). rewrite Htd in Hwf. apply andb_true_iff in Hwf as [Hf Hwf].
  apply (core_sema s th (SemLock l) m); try done.
  - apply awake_no_head. by eapply follows_head.
  - intros t. rewrite Htd. apply count_tail.
  - intros l'. destruct (decide (l' = l)) as [->|Hne].
    + right. right. split_and!.
      * unfold tok. rewrite Htd. cbn. rewrite Nat.eqb_refl. lia.
      * apply (Hno (cur s)). by apply lookup_insert_eq.
      * intros m'. cbn. rewrite lookup_insert_eq. intros [= <-]. right. cbn. by rewrite (Hv m Hm).
    + left. cbn [semas set_semas]. rewrite lookup_insert_ne by congruence. split_and!; [eauto|done|].
      rewrite tok_no_head; [exact (tok_count l' th)|]. by eapply follows_head.
Qed.

Lemma sema_up_ok s th x rest m :
  inv s → threads s !! cur s = Some th → todo th = SemaUp x :: rest → semas s !! x = Some m →
  ∃ s', run_next s = Ok (tt, s') ∧ inv s'.
Proof.
  intros Hinv Ht Htd Hm. rewrite (run_next_eq s th _ rest Ht Htd). cbn [exec]. unfold sema_up.
  erewrite run_bind_ok by (by apply get_sema_ok). erewrite run_bind_ok by reflexivity.
  apply (sema_wake_ok _ (with_todo rest th) x (u32 (value m + 1)) (waiters m)); [|by apply lookup_insert_eq].
  destruct (lock_sema x) eqn:Ex.
  - destruct x; try done. by apply (core_give s th l m rest).
  - destruct (popped_ready s th _ rest Hinv Ht Htd) as [Hpr _]; [done..|]. by eapply core_other_sema.
Qed.

Lemma sema_try_down_ok s th x rest m :
  inv s → threads s !! cur s = Some th → todo th = SemaTryDown x :: rest → semas s !! x = Some m →
  ∃ s', run_next s = Ok (tt, s') ∧ inv s'.
Proof.
  intros Hinv Ht Htd Hm. rewrite (run_next_eq s th _ rest Ht Htd). cbn [exec]. unfold sema_try_down.
  destruct (popped_ready s th _ rest Hinv Ht Htd) as (Hpr & Hf & _); [done..|].
  assert (Hx : lock_sema x = false) by (by destruct x).
  destruct (Z.ltb_spec 0 (value m)) as [Hv|Hv].
  - erewrite run_bind_ok by (erewrite run_bind_ok by (by apply get_sema_ok);
      rewrite (proj2 (Z.ltb_lt _ _) Hv); reflexivity).
    eexists. split; [reflexivity|]. eapply ready_inv. by eapply core_other_sema.
  - erewrite run_bind_ok by (erewrite run_bind_ok by (by apply get_sema_ok);
      rewrite (proj2 (Z.ltb_ge _ _) Hv); reflexivity).
    eexists. split; [reflexivity|]. by eapply ready_inv.
Qed.

(** * Locks and condition variables keep the invariant

    One lemma per operation of the lock and condition variable parts of
    [src/pintos/threads/synch.c]. *)
Import RealArith Threads.

Lemma held_eval s th l :
  running s th → lock_held_by_current_thread l s = Ok (bool_decide (holder s !! l = Some (cur s)), s).
Proof.
  intros Hr. unfold lock_held_by_current_thread. erewrite run_bind_ok by (by eapply thread_current_ok). done.
Qed.

(** Pushing operations that launch nobody. *)
Lemma push_ready s th l :
  ready_to_run s th → wf_ops (l ++ todo th) = true → is_internal_head (head (l ++ todo th)) = false →
  (∀ t, count_occ op_eq_dec l (Launch t) = 0%nat) →
  ∃ s', push_todo l s = Ok (tt, s') ∧ inv s'.
Proof.
  intros Hrr Hwf Hh Hcnt. eexists. split; [apply push_todo_ok; apply (rr_run _ _ Hrr)|].
  eapply ready_inv. apply core_todo; try done. intros t. rewrite count_occ_app, Hcnt. done.
Qed.

Lemma count_launch_0 l (H : existsb (λ o, match o with Launch _ => true | _ => false end) l = false) t :
  count_occ op_eq_dec l (Launch t) = 0%nat.
Proof.
  induction l as [|o l IH]; [done|]. cbn in *. apply orb_false_iff in H as [H1 H2].
  destruct (op_eq_dec o (Launch t)); [by subst|auto].
Qed.

Lemma lock_acquire_ok s th l rest :
  inv s → threads s !! cur s = Some th → todo th = LockAcquire l :: rest → holder s !! l ≠ Some (cur s) →
  ∃ s', run_next s = Ok (tt, s') ∧ inv s'.
Proof.
  intros Hinv Ht Htd Hh. rewrite (run_next_eq s th _ rest Ht Htd). cbn [exec]. unfold lock_acquire.
  destruct (popped_ready s th _ rest Hinv Ht Htd) as (Hpr & Hf & Hwf); [done..|].
  erewrite run_bind_ok by reflexivity. run_assert; [|by rewrite (rr_intr _ _ Hpr)].
  erewrite run_bind_ok by (by eapply held_eval, Hpr). run_assert; [|by rewrite bool_decide_false].
  eapply push_ready; [done|..|by apply count_launch_0]; [|done].
  cbn in *. rewrite bool_decide_true by done. by rewrite Hf.
Qed.

Lemma lock_try_acquire_ok s th l rest m :
  inv s → threads s !! cur s = Some th → todo th = LockTryAcquire l :: rest →
  holder s !! l ≠ Some (cur s) → semas s !! SemLock l = Some m →
  ∃ s', run_next s = Ok (tt, s') ∧ inv s'.
Proof.
  intros Hinv Ht Htd Hh Hm. rewrite (run_next_eq s th _ rest Ht Htd). cbn [exec]. unfold lock_try_acquire.
  destruct (popped_ready s th _ rest Hinv Ht Htd) as (Hpr & Hf & Hwf); [done..|].
  erewrite run_bind_ok by (by eapply held_eval, Hpr). run_assert; [|by rewrite bool_decide_false].
  unfold sema_try_down. destruct (Z.ltb_spec 0 (value m)) as [Hv|Hv].
  - erewrite run_bind_ok by (erewrite run_bind_ok by (by apply get_sema_ok);
      rewrite (proj2 (Z.ltb_lt _ _) Hv); reflexivity).
    eexists. split; [apply push_todo_ok; apply (rr_run _ _ Hpr)|]. eapply ready_inv.
    apply (core_take (popped s th rest) (with_todo rest th) _ l m rest Hpr); try done; [lia|].
    cbn in *. by rewrite Hf.
  - erewrite run_bind_ok by (erewrite run_bind_ok by (by apply get_sema_ok);
      rewrite (proj2 (Z.ltb_ge _ _) Hv); reflexivity).
    eexists. split; [reflexivity|]. by eapply ready_inv.
Qed.

(** The running thread and the holder fields change; no semaphore does. *)
Lemma core_locks s s' th th' :
  ready_to_run s th → s' = set_holder (holder s') (set_threads (<[cur s := th']> (threads s)) s) →
  status th' = THREAD_RUNNING → awake th' → wf_ops (todo th') = true →
  (∀ t, count_occ op_eq_dec (todo th') (Launch t) ≤ count_occ op_eq_dec (todo th) (Launch t))%nat →
  (∀ l, (tok l th' ≤ tok l th)%nat) →
  (∀ l, holder s' !! l = Some (cur s) ↔ l ∈ locks th') →
  (∀ l t', holder s' !! l = Some t' → t' = cur s ∨ holder s !! l = Some t') →
  (∀ l t' th0, threads s !! t' = Some th0 → t' ≠ cur s → (holder s' !! l = Some t' ↔ holder s !! l = Some t')) →
  ready_to_run s' th'.
Proof.
  intros [Hc [Ht Hr] Hi Hni Haw] Es Hr' Haw' Hwf Hcnt Htok Hme Hnh Hoth. rewrite Es.
  split; [|split; [by apply lookup_insert_eq|done]|done|done|done].
  eapply (core_local s _ th th'); try done; [|apply Hc..].
  eapply (inv_locks_local s _ (cur s) th th'); [apply Hc|done|done|..|done|done].
  intros l. left. split_and!; [eauto|done|done].
Qed.

Lemma tok_with_locks l ls o rest th :
  tok l (with_todo (o :: rest) (with_locks ls th)) =
  (count_occ Nat.eq_dec ls l + match o with
     | LockAcquired l' | SemaUp (SemLock l') => if (l' =? l)%nat then 1 else 0 | _ => 0 end)%nat.
Proof. done. Qed.

Lemma lock_acquired_ok s th l rest :
  inv s → threads s !! cur s = Some th → todo th = LockAcquired l :: rest →
  ∃ s', run_next s = Ok (tt, s') ∧ inv s'.
Proof.
  intros Hinv Ht Htd. rewrite (run_next_eq s th _ rest Ht Htd). cbn [exec]. unfold lock_acquired.
  destruct (inv_busy s th _ rest Hinv Ht Htd ltac:(done)) as [Hrr Hst].
  destruct (popped_ready s th _ rest Hinv Ht Htd) as (Hpr & Hf & Hwf); [done..|].
  destruct (popped_claim s th _ rest l Hinv Ht Htd) as [Hno _]; [by left|].
  erewrite run_bind_ok by (eapply thread_current_ok, Hpr). erewrite run_bind_ok by reflexivity.
  eexists. split; [apply upd_thread_ok; by apply lookup_insert_eq|].
  eapply (ready_inv _ (with_locks (locks th ++ [l]) (with_todo rest th))).
  eapply (core_locks s _ th); [done| |done|apply awake_no_head; by eapply follows_head|done|..].
  - cbn. by rewrite insert_insert_eq.
  - intros t. rewrite Htd. apply count_tail.
  - intros l'. rewrite tok_no_head by (by eapply follows_head). unfold tok. rewrite Htd. cbn. rewrite count_occ_app. cbn. destruct (Nat.eq_dec l l') as [->|Hne]; [rewrite Nat.eqb_refl; lia|].
    destruct (Nat.eqb_spec l l'); [done|lia].
  - intros l'. cbn. rewrite elem_of_app, list_elem_of_singleton.
    assert (H := il_holder s (c_locks s (i_core s Hinv)) l' _ _ Ht).
    destruct (decide (l' = l)) as [->|Hne]; [rewrite lookup_insert_eq; naive_solver|].
    rewrite lookup_insert_ne by done. naive_solver.
  - intros l' t'. cbn. rewrite lookup_insert_Some. naive_solver.
  - intros l' t' th0 Ht' Hne. cbn. destruct (decide (l' = l)) as [->|Hl]; [|by rewrite lookup_insert_ne].
    rewrite lookup_insert_eq. split; [congruence|]. intros Hx. exfalso.
    apply (il_holder s (c_locks s (i_core s Hinv)) l t' th0 Ht') in Hx.
    assert (Hz := Hno t' th0). cbn in Hz. rewrite lookup_insert_ne in Hz by done. specialize (Hz Ht').
    assert (Hc := tok_count l th0). apply list_elem_of_In, (count_occ_In Nat.eq_dec) in Hx. lia.
Qed.

Lemma count_remove l l' (ls : list nat) :
  count_occ Nat.eq_dec (list_remove l ls) l' = (if Nat.eq_dec l l' then 0 else count_occ Nat.eq_dec ls l')%nat.
Proof.
  unfold list_remove. destruct (Nat.eq_dec l l') as [<-|Hne].
  - apply count_occ_not_In, remove_In.
  - induction ls as [|x ls IH]; simpl; [done|].
    destruct (Nat.eq_dec l x) as [->|], (Nat.eq_dec x l') as [->|]; simpl; try congruence.
    + destruct (Nat.eq_dec l' l'); congruence.
    + destruct (Nat.eq_dec x l'); congruence.
Qed.

Lemma lock_release_ok s th l rest :
  inv s → threads s !! cur s = Some th → todo th = LockRelease l :: rest → holder s !! l = Some (cur s) →
  ∃ s', run_next s = Ok (tt, s') ∧ inv s'.
Proof.
  intros Hinv Ht Htd Hh. rewrite (run_next_eq s th _ rest Ht Htd). cbn [exec]. unfold lock_release.
  destruct (popped_ready s th _ rest Hinv Ht Htd) as (Hpr & Hf & Hwf); [done..|].
  erewrite run_bind_ok by (by eapply held_eval, Hpr). run_assert; [|by rewrite bool_decide_true].
  erewrite run_bind_ok by reflexivity. destruct (rr_run _ _ Hpr) as [Ht1 Hr1].
  erewrite run_bind_ok by (by apply upd_thread_ok). erewrite run_bind_ok by reflexivity.
  eexists. split; [apply push_todo_ok; by apply lookup_insert_eq|].
  assert (HL := il_holder s (c_locks s (i_core s Hinv))).
  assert (Hin : l ∈ locks th) by (by apply (HL l (cur s) th Ht)).
  apply list_elem_of_In, (count_occ_In Nat.eq_dec) in Hin. cbn in Hf.
  eapply (ready_inv _ (with_todo (SemaUp (SemLock l) :: rest) (with_locks (list_remove l (locks th)) th))).
  eapply (core_locks (popped s th rest) _ (with_todo rest th)); [done| |done|done|..].
  - cbn. by rewrite !insert_insert_eq.
  - cbn. by rewrite Hf.
  - done.
  - intros l'. rewrite tok_with_locks, count_remove, tok_no_head by (by apply negb_true_iff in Hf). cbn.
    destruct (Nat.eqb_spec l l') , (Nat.eq_dec l l'); try done; [subst|]; lia.
  - intros l'. cbn. rewrite list_remove_elem, lookup_delete_Some, (HL l' (cur s) th Ht). naive_solver.
  - intros l' t'. cbn. rewrite lookup_delete_Some. naive_solver.
  - intros l' t' th0 Ht' Hne. cbn. rewrite lookup_delete_Some. split; [naive_solver|]. intros Hx.
    split; [|done]. intros <-. cbn in Hne. congruence.
Qed.

(** ** Condition variables *)

Lemma inv_locks_keep s s' th th' :
  inv_locks s → threads s !! cur s = Some th → threads s' = <[cur s := th']> (threads s) →
  holder s' = holder s → locks th' = locks th → (∀ l, tok l th' ≤ tok l th)%nat →
  (∀ l, semas s' !! SemLock l = semas s !! SemLock l) → inv_locks s'.
Proof.
  intros HL Ht Eth Eh El Hle Hs. apply (inv_locks_local s s' (cur s) th th' HL Ht Eth).
  - intros l. left. rewrite Hs. split_and!; [eauto|done|done].
  - intros l. rewrite Eh, El. exact (il_holder s HL l (cur s) th Ht).
  - intros. by rewrite Eh.
Qed.

Lemma inv_locks_todo s s' th th' :
  inv_locks s → threads s !! cur s = Some th → threads s' = <[cur s := th']> (threads s) →
  holder s' = holder s → locks th' = locks th → is_internal_head (head (todo th')) = false →
  (∀ l, semas s' !! SemLock l = semas s !! SemLock l) → inv_locks s'.
Proof.
  intros HL Ht Eth Eh El Hh. apply (inv_locks_keep s s' th th'); try done.
  intros l. rewrite (tok_no_head l th' Hh), El. apply tok_count.
Qed.

Lemma get_cond_elem s c ws w :
  core s → default [] (conds s !! c) = ws → w ∈ ws → is_Some (semas s !! SemCond w).
Proof.
  intros Hc <- Hw. destruct (conds s !! c) as [ws|] eqn:E; [by eapply (c_conds s Hc)|by apply elem_of_nil in Hw].
Qed.

Lemma cond_wait_ok s th c l rest :
  inv s → threads s !! cur s = Some th → todo th = CondWait c l :: rest → holder s !! l = Some (cur s) →
  ∃ s', run_next s = Ok (tt, s') ∧ inv s'.
Proof.
  intros Hinv Ht Htd Hh. rewrite (run_next_eq s th _ rest Ht Htd). cbn [exec]. unfold cond_wait.
  destruct (popped_ready s th _ rest Hinv Ht Htd) as (Hpr & Hf & Hwf); [done..|].
  erewrite run_bind_ok by reflexivity. run_assert; [|by rewrite (rr_intr _ _ Hpr)].
  erewrite run_bind_ok by (by eapply held_eval, Hpr). run_assert; [|by rewrite bool_decide_true].
  do 4 erewrite run_bind_ok by reflexivity. destruct (rr_run _ _ Hpr) as [Ht1 Hr1].
  eexists. split; [apply push_todo_ok; exact Ht1|].
  set (s1 := popped s th rest) in *. assert (Hc := rr_core _ _ Hpr).
  assert (Hw : semas s1 !! SemCond (next_key s1) = None).
  { apply eq_None_not_Some. intros H%(c_fresh_sema s1 Hc). lia. }
  set (th' := with_todo _ _). eapply (ready_inv _ th').
  split; [|split; [by apply lookup_insert_eq|done]|apply Hpr|apply Hpr|done].
  apply (core_local s1 _ (with_todo rest th) th'); try done; [apply Hpr|apply Hpr|..].
  - intros [|y|]; [done| |done]. cbn. destruct (decide (y = SemCond (next_key s1))) as [->|Hne].
    + rewrite lookup_insert_eq. change (semas s) with (semas s1). by rewrite Hw.
    + by rewrite lookup_insert_ne.
  - apply (inv_locks_todo s1 _ (with_todo rest th) th'); try done; [apply Hc|]. intros l'. cbn. by rewrite lookup_insert_ne.
  - cbn in *. by rewrite Hf.
  - cbn. lia.
  - intros w'. cbn. rewrite lookup_insert_is_Some'. intros [[= <-]|H%(c_fresh_sema s1 Hc)]; cbn in *; lia.
  - intros c' ws w'. cbn. rewrite lookup_insert_is_Some'. intros [[<- <-]|[_ H]]%lookup_insert_Some Hin.
    + apply elem_of_app in Hin as [Hin| ->%list_elem_of_singleton]; [right|by left].
      by eapply (get_cond_elem s1).
    + right. by eapply (c_conds s1 Hc).
  - by right.
Qed.

Lemma signal_scan_ok s :
  core s → ∀ ws best h, (∀ w, w ∈ ws → is_Some (semas s !! SemCond w)) →
  ∃ w, signal_scan s ws best h = Ok w ∧ (w = best ∨ w ∈ ws).
Proof.
  intros Hc ws. induction ws as [|w ws IH]; intros best h Hws; [exists best; auto|]. simpl.
  destruct (Hws w) as [m Hm]; [left|]. rewrite Hm.
  assert (Hws' : ∀ w, w ∈ ws → is_Some (semas s !! SemCond w)) by (intros; apply Hws; by right).
  assert (Hnext : ∀ b h, (b = best ∨ b = w) → ∃ w0, signal_scan s ws b h = Ok w0 ∧ (w0 = best ∨ w0 ∈ w :: ws)).
  { intros b h' Hb. destruct (IH b h' Hws') as (w0 & Hr & Hin). exists w0. split; [done|].
    rewrite elem_of_cons. naive_solver. }
  destruct (waiters m) as [|t l] eqn:Ew; [by auto|].
  assert (Hin : highest_loop s l t ∈ elems s (QSema (SemCond w))).
  { cbn. rewrite Hm, Ew. eapply first_highest_elem, highest_first. }
  apply (iq_elem s (c_queues s Hc)) in Hin as (th & Hth & _). rewrite Hth. bcase; auto.
Qed.

Lemma cond_signal_ok s th c l rest :
  inv s → threads s !! cur s = Some th → todo th = CondSignal c l :: rest → holder s !! l = Some (cur s) →
  ∃ s', run_next s = Ok (tt, s') ∧ inv s'.
Proof.
  intros Hinv Ht Htd Hh. rewrite (run_next_eq s th _ rest Ht Htd). cbn [exec]. unfold cond_signal.
  destruct (popped_ready s th _ rest Hinv Ht Htd) as (Hpr & Hf & Hwf); [done..|].
  erewrite run_bind_ok by reflexivity. run_assert; [|by rewrite (rr_intr _ _ Hpr)].
  erewrite run_bind_ok by (by eapply held_eval, Hpr). run_assert; [|by rewrite bool_decide_true].
  erewrite run_bind_ok by reflexivity. set (s1 := popped s th rest) in *. assert (Hc := rr_core _ _ Hpr).
  destruct (default [] (conds s1 !! c)) as [|w0 ws] eqn:Ews; [eexists; split; [reflexivity|]; by eapply ready_inv|].
  assert (Hws : ∀ w, w ∈ w0 :: ws → is_Some (semas s1 !! SemCond w)) by (intros; by eapply get_cond_elem).
  destruct (signal_scan_ok s1 Hc (w0 :: ws) w0 (-1) Hws) as (w & Hscan & Hw). rewrite Hscan.
  erewrite run_bind_ok by reflexivity. destruct (rr_run _ _ Hpr) as [Ht1 Hr1].
  eexists. split; [apply push_todo_ok; exact Ht1|]. set (th' := with_todo _ _). eapply (ready_inv _ th').
  split; [|split; [by apply lookup_insert_eq|done]|apply Hpr|apply Hpr|done].
  apply (core_local s1 _ (with_todo rest th) th'); try done; [apply Hpr|apply Hpr|..].
  - apply (inv_locks_todo s1 _ (with_todo rest th) th'); try done. apply Hc.
  - cbn in *. by rewrite Hf.
  - apply Hc.
  - intros c' ws' w'. cbn [conds set_conds set_threads]. intros [[<- <-]|[_ H]]%lookup_insert_Some Hin; [|by eapply (c_conds s1 Hc)].
    apply Hws. by apply list_remove_elem in Hin as [Hin _].
  - by right.
Qed.

Lemma cond_broadcast_ok s th c l rest :
  inv s → threads s !! cur s = Some th → todo th = CondBroadcast c l :: rest →
  ∃ s', run_next s = Ok (tt, s') ∧ inv s'.
Proof.
  intros Hinv Ht Htd. rewrite (run_next_eq s th _ rest Ht Htd). cbn [exec]. unfold cond_broadcast.
  destruct (popped_ready s th _ rest Hinv Ht Htd) as (Hpr & Hf & Hwf); [done..|].
  erewrite run_bind_ok by reflexivity.
  destruct (default [] _); [eexists; split; [reflexivity|]; by eapply ready_inv|].
  eapply push_ready; [done|..|by apply count_launch_0]; [|done]. cbn in *. by rewrite Hf.
Qed.
