(* ===== verification/ThreadOps.v ===== *)
(** * Thread operations and the timer keep the invariant

    The lemmas of the remaining operations of [src/pintos/threads/thread.c]
    and of the timer of [src/pintos/devices/timer.c]. *)
From S2P Require Import Prelude CInt RealArith Threads ThreadsInv Scheduler SynchInv.

Open Scope Z_scope.

Import RealArith Threads.

(** ** Changes that do not matter to the invariant *)

(** Two threads that differ at most in what the scheduler computes. *)
Definition alike (th th' : thread) : Prop := status th' = status th ∧ same_ops th th'.
Definition alike_threads (h h' : gmap nat thread) : Prop := ∀ t, option_Forall2 alike (h !! t) (h' !! t).

#[export] Instance alike_preorder : PreOrder alike.
Proof.
  split; [by intros th; split|]. intros th1 th2 th3 [E1 [E2 E3]] [F1 [F2 F3]]. split; [|split]; congruence.
Qed.
#[export] Instance alike_threads_preorder : PreOrder alike_threads.
Proof.
  split; [intros h t; by destruct (h !! t); constructor|]. intros h1 h2 h3 H12 H23 t.
  specialize (H12 t). specialize (H23 t). destruct H12; inversion H23; subst; constructor. by etrans.
Qed.

Lemma alike_insert (h : gmap nat thread) t th th' :
  h !! t = Some th → alike th th' → alike_threads h (<[t := th']> h).
Proof.
  intros Ht Ha t'. destruct (decide (t = t')) as [<-|Hne].
  - rewrite lookup_insert_eq, Ht. by constructor.
  - rewrite lookup_insert_ne by done. destruct (h !! t'); by constructor.
Qed.

Lemma alike_back h h' t th' :
  alike_threads h h' → h' !! t = Some th' → ∃ th, h !! t = Some th ∧ alike th th'.
Proof. intros H E. specialize (H t). rewrite E in H. inversion H; subst. eauto. Qed.
Lemma alike_forth h h' t th :
  alike_threads h h' → h !! t = Some th → ∃ th', h' !! t = Some th' ∧ alike th th'.
Proof. intros H E. specialize (H t). rewrite E in H. inversion H; subst. eauto. Qed.

Lemma core_alike s s' :
  core s → frame s s' → cur s' = cur s → (∀ q, elems s' q = elems s q) →
  alike_threads (threads s) (threads s') → core s'.
Proof.
  intros [[Q1 Q2] HL HN HW HR HD HI HF HS HC HH HA] Hf Ec Hel Ha.
  assert (Hw : ∀ t th th' q, alike th th' → waits_in s' t th' q ↔ waits_in s t th q).
  { intros t th th' q [E1 [E2 _]]. destruct q; cbn; by rewrite E1, ?E2, ?(fr_idle _ _ Hf). }
  split.
  - split; intros q; rewrite Hel; [done|]. intros t. rewrite Q2. split.
    + intros (th & Ht & Hx). destruct (alike_forth _ _ _ _ Ha Ht) as (th' & Ht' & Hal). exists th'.
      by rewrite (Hw t th th').
    + intros (th' & Ht & Hx). destruct (alike_back _ _ _ _ Ha Ht) as (th & Ht' & Hal). exists th.
      by rewrite <- (Hw t th th').
  - eapply inv_locks_sim; [done..|]. intros t th' Ht.
    destruct (alike_back _ _ _ _ Ha Ht) as (th & Ht' & [_ Hs]). eauto.
  - eapply inv_new_sim; [done|..].
    + intros t th' Ht. destruct (alike_back _ _ _ _ Ha Ht) as (th & Ht' & [_ [Hs _]]). eauto.
    + intros t t' th' Ht Hl (Hni & tn & Htn & Hb & Htd).
      destruct (alike_forth _ _ _ _ Ha Htn) as (tn' & Htn' & [E1 [E2 _]]).
      split; [by rewrite (fr_idle _ _ Hf)|]. exists tn'. by rewrite E1, E2.
  - intros t th' Ht. destruct (alike_back _ _ _ _ Ha Ht) as (th & Ht' & [_ [Hs _]]). rewrite Hs. eauto.
  - intros t th' Ht. destruct (alike_back _ _ _ _ Ha Ht) as (th & Ht' & [Hs _]). rewrite Hs, Ec. eauto.
  - intros t th' Ht Hna. destruct (alike_back _ _ _ _ Ha Ht) as (th & Ht' & [Hs [E _]]). rewrite Hs.
    apply (HD t th Ht'). unfold awake in *. by rewrite <- E.
  - destruct HI as (i & th & Ei & Hi & Htd & Hst). destruct (alike_forth _ _ _ _ Ha Hi) as (th' & Ht' & [E1 [E2 _]]).
    exists i, th'. by rewrite (fr_idle _ _ Hf), E1, E2.
  - intros t [th' Ht]. destruct (alike_back _ _ _ _ Ha Ht) as (th & Ht' & _). rewrite (fr_key _ _ Hf). eauto.
  - intros w H%(fr_cond _ _ Hf). rewrite (fr_key _ _ Hf). eauto.
  - intros c ws w. rewrite (fr_conds _ _ Hf). intros. apply (fr_cond _ _ Hf). eauto.
  - intros l t. rewrite (fr_holder _ _ Hf), (fr_key _ _ Hf). eauto.
  - intros t (th & Ht & Hd)%(fr_all _ _ Hf)%HA. destruct (alike_forth _ _ _ _ Ha Ht) as (th' & Ht' & [E _]).
    exists th'. by rewrite E.
Qed.

Lemma running_alike s s' th :
  cur s' = cur s → alike_threads (threads s) (threads s') → running s th → ∃ th', running s' th' ∧ alike th th'.
Proof.
  intros Ec Ha [Ht Hr]. destruct (alike_forth _ _ _ _ Ha Ht) as (th' & Ht' & Hal).
  exists th'. split; [|done]. split; [by rewrite Ec|]. destruct Hal. congruence.
Qed.

(** ** Priorities and yielding *)
(** The running thread's scheduling data change. *)
Lemma ready_sched s th n r p :
  ready_to_run s th →
  ready_to_run (set_threads (<[cur s := with_sched n r p th]> (threads s)) s) (with_sched n r p th).
Proof.
  intros Hrr. destruct (rr_run _ _ Hrr) as [Ht Hr]. apply (core_thread s th); try done; [|by right].
  exact (c_wf s (rr_core _ _ Hrr) (cur s) th Ht).
Qed.

(** The running thread goes on with one more operation, which launches nobody. *)
Lemma push_one_ok s th o :
  ready_to_run s th → is_internal_head (head (todo th)) = false →
  follows o (todo th) = negb (is_internal_head (head (todo th))) → is_internal_head (Some o) = false →
  (∀ t, o ≠ Launch t) → ∃ s', push_todo [o] s = Ok (tt, s') ∧ inv s'.
Proof.
  intros Hrr Hh Hfo Ho Hl. apply (push_ready s th [o] Hrr).
  - cbn. rewrite Hfo, Hh. exact (c_wf s (rr_core _ _ Hrr) _ _ (proj1 (rr_run _ _ Hrr))).
  - done.
  - intros t. cbn. by destruct (op_eq_dec o (Launch t)) as [->|]; [destruct (Hl t)|].
Qed.

Lemma thread_set_priority_ok s th p rest :
  inv s → threads s !! cur s = Some th → todo th = SetPriority p :: rest →
  ∃ s', run_next s = Ok (tt, s') ∧ inv s'.
Proof.
  intros Hinv Ht Htd. rewrite (run_next_eq s th _ rest Ht Htd). cbn [exec]. unfold thread_set_priority.
  destruct (popped_ready s th _ rest Hinv Ht Htd) as (Hpr & Hf & Hwf); [done..|].
  erewrite run_bind_ok by (eapply thread_current_ok, Hpr).
  erewrite run_bind_ok by (apply upd_thread_ok, (rr_run _ _ Hpr)).
  eapply push_one_ok; [exact (ready_sched _ _ _ _ _ Hpr)|by apply negb_true_iff in Hf|done..].
Qed.

Lemma thread_set_nice_ok s th n rest :
  inv s → threads s !! cur s = Some th → todo th = SetNice n :: rest →
  ∃ s', run_next s = Ok (tt, s') ∧ inv s'.
Proof.
  intros Hinv Ht Htd. rewrite (run_next_eq s th _ rest Ht Htd). cbn [exec]. unfold thread_set_nice.
  destruct (popped_ready s th _ rest Hinv Ht Htd) as (Hpr & Hf & Hwf); [done..|].
  erewrite run_bind_ok by (eapply thread_current_ok, Hpr).
  erewrite run_bind_ok by (apply upd_thread_ok, (rr_run _ _ Hpr)).
  eapply push_one_ok; [exact (ready_sched _ _ _ _ _ Hpr)|by apply negb_true_iff in Hf|done..].
Qed.

(** The scan of the ready list after it: it goes on as long as the element it
    has come to is still in the list and the best thread so far still exists. *)
Lemma preempt_ok s th p rest :
  inv s → threads s !! cur s = Some th → todo th = Preempt p :: rest →
  ∃ s', run_next s = Ok (tt, s') ∧ inv s'.
Proof.
  intros Hinv Ht Htd. rewrite (run_next_eq s th _ rest Ht Htd). cbn [exec]. unfold preempt.
  destruct (popped_ready s th _ rest Hinv Ht Htd) as (Hpr & Hf & Hwf); [done..|].
  erewrite run_bind_ok by reflexivity.
  destruct (ready_list _); [eexists; split; [reflexivity|]; by eapply ready_inv|].
  eapply push_one_ok; [done|by apply negb_true_iff in Hf|done..].
Qed.

Lemma preempt_scan_ok s th p e best rest :
  inv s → threads s !! cur s = Some th → todo th = PreemptScan p e best :: rest →
  next_elem e (ready_list s) = Some None ∨
  (∃ t, next_elem e (ready_list s) = Some (Some t) ∧ is_Some (threads s !! best)) →
  ∃ s', run_next s = Ok (tt, s') ∧ inv s'.
Proof.
  intros Hinv Ht Htd Hn. rewrite (run_next_eq s th _ rest Ht Htd). cbn [exec]. unfold preempt_scan.
  destruct (popped_ready s th _ rest Hinv Ht Htd) as (Hpr & Hf & Hwf); [done..|].
  erewrite run_bind_ok by reflexivity. change (ready_list (popped s th rest)) with (ready_list s).
  destruct Hn as [->|(t & -> & Hb)]; [eapply push_one_ok; [done|by apply negb_true_iff in Hf|done..]|].
  assert (Hb' : is_Some (threads (popped s th rest) !! best)) by (cbn; apply lookup_insert_is_Some'; by right).
  destruct Hb' as [thb Hb']. erewrite run_bind_ok by (by apply get_thread_ok).
  eapply push_one_ok; [done|by apply negb_true_iff in Hf|done..].
Qed.

Lemma preempt_test_ok s th p best rest :
  inv s → threads s !! cur s = Some th → todo th = PreemptTest p best :: rest → is_Some (threads s !! best) →
  ∃ s', run_next s = Ok (tt, s') ∧ inv s'.
Proof.
  intros Hinv Ht Htd Hb. rewrite (run_next_eq s th _ rest Ht Htd). cbn [exec]. unfold preempt_test.
  destruct (popped_ready s th _ rest Hinv Ht Htd) as (Hpr & Hf & Hwf); [done..|].
  erewrite run_bind_ok by reflexivity.
  assert (Hb' : is_Some (threads (popped s th rest) !! best)) by (cbn; apply lookup_insert_is_Some'; by right).
  destruct Hb' as [thb Hb']. erewrite run_bind_ok by (by apply get_thread_ok).
  destruct (_ <? _); [|eexists; split; [reflexivity|]; by eapply ready_inv]. rewrite (rr_intr _ _ Hpr).
  eapply push_one_ok; [done|by apply negb_true_iff in Hf|done..].
Qed.

Lemma yield_ok s th rest :
  inv s → threads s !! cur s = Some th → todo th = Yield :: rest →
  ∃ s', run_next s = Ok (tt, s') ∧ inv s'.
Proof.
  intros Hinv Ht Htd. rewrite (run_next_eq s th _ rest Ht Htd). cbn [exec].
  destruct (popped_ready s th _ rest Hinv Ht Htd) as (Hpr & Hf & Hwf); [done..|].
  destruct (thread_yield_ok _ _ (rr_core _ _ Hpr) (rr_run _ _ Hpr) (rr_awake _ _ Hpr) (rr_intr _ _ Hpr)) as (s' & H & Hi & _). eauto.
Qed.

(** ** Leaving *)

(** The running thread leaves with status [st]; it is in no list but [q]. *)
Lemma leaving_core s s1 th st (inq : queue → Prop) `{∀ q, Decision (inq q)} :
  core s → running s th → awake th → frame s s1 → threads s1 = threads s → cur s1 = cur s →
  (∀ q, elems s1 q = elems s q ++ (if decide (inq q) then [cur s] else [])) →
  (∀ q, inq q ↔ waits_in s (cur s) (with_status st th) q) →
  st ≠ THREAD_RUNNING → (idle_thread s = Some (cur s) → st ≠ THREAD_DYING) →
  (st = THREAD_DYING → cur s ∉ all_list s1) →
  core (leaving st s1 th).
Proof.
  intros Hc Hr Haw Hf Eth Ec Hel Hq Hst Hdy Hdead. destruct (Hr) as [Ht Hrun]. assert (HQ := c_queues s Hc).
  assert (Hel' : ∀ q, elems (leaving st s1 th) q = elems s q ++ (if decide (inq q) then [cur s] else []))
    by (intros q; rewrite <- Hel; by destruct q).
  apply (core_move s _ (cur s) th st); try done.
  - destruct Hf. by split.
  - unfold leaving. by rewrite Ec, Eth.
  - intros q. rewrite Hel'. case_decide; [|rewrite app_nil_r; apply HQ].
    apply NoDup_snoc; [apply HQ|by eapply running_no_queue].
  - intros q t' Hne. rewrite Hel', elem_of_app. case_decide; set_solver.
  - intros q. rewrite Hel', elem_of_app.
    assert (Hw : waits_in (leaving st s1 th) (cur s) (with_status st th) q ↔ inq q)
      by (rewrite Hq; destruct q; cbn; by rewrite ?(fr_idle _ _ Hf)).
    rewrite Hw. assert (Hno := running_no_queue s th q Hc Hr Haw). case_decide; set_solver.
  - intros t' th' Ht' Hne Hrn. exfalso. apply Hne. by eapply (c_running s Hc).
  - intros. by eapply running_not_new.
Qed.

Lemma thread_exit_tail_ok s th rest :
  inv s → threads s !! cur s = Some th → todo th = ExitTail :: rest →
  ∃ s', run_next s = Ok (tt, s') ∧ inv s'.
Proof.
  intros Hinv Ht Htd. rewrite (run_next_eq s th _ rest Ht Htd). cbn [exec]. unfold thread_exit_tail.
  destruct (popped_ready s th _ rest Hinv Ht Htd) as (Hpr & Hf & Hwf); [done..|].
  erewrite run_bind_ok by (eapply thread_current_ok, Hpr). erewrite run_bind_ok by reflexivity.
  set (s1 := popped s th rest) in *. set (s2 := set_all_list _ s1).
  destruct (leave_ok s2 (with_todo rest th) THREAD_DYING) as (s' & H & Hi & _);
    [apply (rr_run _ _ Hpr)|apply (rr_intr _ _ Hpr)|done| |eauto].
  apply (leaving_core s1 s2 _ _ (λ _, False)); try done; [apply Hpr|apply (rr_run _ _ Hpr)|apply Hpr|..].
  - split; eauto. intros t [H _]%list_remove_elem. done.
  - intros q. case_decide; [done|]. rewrite app_nil_r. by destruct q.
  - intros q. split; [done|]. destruct q; cbn; naive_solver.
  - intros E. by destruct (rr_idle _ _ Hpr).
  - intros _ [_ H]%list_remove_elem. done.
Qed.

Lemma thread_exit_ok s th rest :
  inv s → threads s !! cur s = Some th → todo th = Exit :: rest →
  ∃ s', run_next s = Ok (tt, s') ∧ inv s'.
Proof.
  intros Hinv Ht Htd. rewrite (run_next_eq s th _ rest Ht Htd). cbn [exec]. unfold thread_exit.
  destruct (popped_ready s th _ rest Hinv Ht Htd) as (Hpr & Hf & Hwf); [done..|].
  erewrite run_bind_ok by (eapply thread_current_ok, Hpr).
  erewrite run_bind_ok by (apply get_thread_ok, (rr_run _ _ Hpr)).
  eexists. split; [apply upd_thread_ok, (rr_run _ _ Hpr)|]. eapply ready_inv. apply core_todo; try done.
  - by destruct (alive_sema _).
  - by destruct (alive_sema _).
  - intros t. cbn. destruct (alive_sema th); cbn; lia.
Qed.

(** The first half of [timer_sleep]: the running thread joins the sleepers. *)
Lemma timer_sleep_ok s th n rest :
  inv s → threads s !! cur s = Some th → todo th = Sleep n :: rest →
  ∃ s', run_next s = Ok (tt, s') ∧ inv s'.
Proof.
  intros Hinv Ht Htd. rewrite (run_next_eq s th _ rest Ht Htd). cbn [exec].
  destruct (popped_ready s th _ rest Hinv Ht Htd) as (Hpr & Hf & Hwf); [done..|].
  assert (Hno : ∀ q, cur s ∉ elems (popped s th rest) q)
    by (intros q; exact (running_no_queue _ _ q (rr_core _ _ Hpr) (rr_run _ _ Hpr) (rr_awake _ _ Hpr))).
  set (s1 := popped s th rest) in *. assert (Hc := rr_core _ _ Hpr). assert (HQ := c_queues s1 Hc).
  unfold timer_sleep. erewrite run_bind_ok by (eapply thread_current_ok, Hpr).
  erewrite run_bind_ok by reflexivity. erewrite run_bind_ok by (apply upd_thread_ok, (rr_run _ _ Hpr)).
  erewrite run_bind_ok by (apply link_elem_ok; exact Hno). erewrite run_bind_ok by reflexivity.
  eexists. split; [apply push_todo_ok; cbn; by apply lookup_insert_eq|]. set (th2 := with_todo ([SleepBlock] ++ _) _).
  split; [|apply Hpr|exists th2; split; [by apply lookup_insert_eq|apply (rr_run _ _ Hpr)]].
  apply (core_self s1 _ (with_todo rest th) th2); try done; try apply (rr_run _ _ Hpr); [apply Hpr|..].
  - cbn. by rewrite insert_insert_eq.
  - intros [|x|]; [apply (iq_nodup s1 HQ QReady)|apply (iq_nodup s1 HQ (QSema x))|].
    cbn. apply NoDup_snoc; [apply (iq_nodup s1 HQ QSleep)|apply (Hno QSleep)].
  - intros [|x|] t Hne; [done..|]. cbn. rewrite elem_of_app, list_elem_of_singleton. naive_solver.
  - intros q. rewrite running_waits by apply (rr_run _ _ Hpr).
    destruct q as [|x|]; [split; [by intros ?%(Hno QReady)|naive_solver]
      |split; [by intros ?%(Hno (QSema x))|naive_solver]|].
    cbn. rewrite elem_of_app, list_elem_of_singleton. naive_solver.
  - apply (inv_locks_keep s1 _ (with_todo rest th) th2); try done; [apply Hc|apply (rr_run _ _ Hpr)| |].
    + cbn. by rewrite insert_insert_eq.
    + intros l. assert (H := tok_count l (with_todo rest th)). unfold tok at 1. cbn in *. lia.
  - cbn in *. by rewrite Hf.
  - intros t. by left.
  - apply Hc.
  - apply Hc.
  - by right.
Qed.

(** The second half: the thread blocks, in the list it has joined. *)
Lemma dozing_core s th rest :
  inv s → threads s !! cur s = Some th → todo th = SleepBlock :: rest →
  let th1 := with_todo (Woken :: rest) th in
  core (leaving THREAD_BLOCKED (set_threads (<[cur s := th1]> (threads s)) s) th1).
Proof.
  intros [Hc Hi (th' & Ht' & Hr)] Ht Htd th1. assert (th' = th) as -> by congruence.
  assert (HQ := c_queues s Hc).
  assert (Hidle : idle_thread s ≠ Some (cur s)).
  { intros E. destruct (c_idle s Hc) as (i & thi & Ei & Hit & Htdi & _). congruence. }
  assert (Hwf := c_wf s Hc _ _ Ht). rewrite Htd in Hwf. apply andb_true_iff in Hwf as [Hf Hwf].
  assert (Hin : ∀ q, cur s ∈ elems s q ↔ q = QSleep).
  { intros q. rewrite (iq_elem s HQ). split.
    - intros (th0 & H0 & Hw). assert (th0 = th) as -> by congruence. by apply running_waits in Hw as [? _].
    - intros ->. exists th. split; [done|]. right. by rewrite Htd. }
  set (mid := set_sleeping (list_remove (cur s) (sleeping_list s)) (set_threads (<[cur s := th1]> (threads s)) s)).
  assert (Hmid : core mid).
  { apply (core_self s mid th th1); try done.
    - intros [|x|]; [apply (iq_nodup s HQ QReady)|apply (iq_nodup s HQ (QSema x))|].
      apply list_remove_NoDup, (iq_nodup s HQ QSleep).
    - intros [|x|] t Hne; [done..|]. cbn. rewrite list_remove_elem. naive_solver.
    - intros q. rewrite running_waits by done.
      destruct q as [|x|]; [split; [by intros ?%(Hin QReady)|naive_solver]
        |split; [by intros ?%(Hin (QSema x))|naive_solver]|].
      cbn. rewrite list_remove_elem. naive_solver.
    - apply (inv_locks_todo s mid th th1); try done. apply Hc.
    - cbn in *. by rewrite Hf.
    - intros t. left. rewrite Htd. cbn. lia.
    - apply Hc.
    - apply Hc.
    - by right. }
  apply (core_move mid _ (cur s) th1 THREAD_BLOCKED); try done.
  - by apply frame_same.
  - by apply lookup_insert_eq.
  - intros [|x|]; [apply (iq_nodup s HQ QReady)|apply (iq_nodup s HQ (QSema x))|apply (iq_nodup s HQ QSleep)].
  - intros [|x|] t Hne; [done..|]. cbn. rewrite list_remove_elem. naive_solver.
  - intros q. change (elems _ q) with (elems s q). rewrite Hin. destruct q; cbn; naive_solver.
  - intros t' th0 Ht0 Hne Hrun. exfalso. apply Hne. by eapply (c_running mid Hmid).
  - intros Hna. by destruct Hna.
  - intros t0 th0 Ht0. apply (running_not_new mid th1 t0 th0 Hmid); [|done].
    split; [by apply lookup_insert_eq|done].
Qed.

Lemma timer_sleep_block_ok s th rest :
  inv s → threads s !! cur s = Some th → todo th = SleepBlock :: rest →
  ∃ s', run_next s = Ok (tt, s') ∧ inv s'.
Proof.
  intros Hinv Ht Htd. rewrite (run_next_eq s th _ rest Ht Htd). cbn [exec]. unfold timer_sleep_block.
  assert (Hd := dozing_core s th rest Hinv Ht Htd). destruct (Hinv) as [Hc Hi (th' & Ht' & Hr)].
  assert (th' = th) as -> by congruence.
  erewrite run_bind_ok by (apply push_todo_ok; cbn; by apply lookup_insert_eq).
  cbn [popped cur set_threads threads todo with_todo app]. rewrite insert_insert_eq.
  set (th1 := with_todo _ (with_todo _ _)). set (s2 := set_threads _ _).
  destruct (thread_block_ok s2 th1) as (s' & H & Hi' & _); [split; [by apply lookup_insert_eq|done]|done|exact Hd|].
  eauto.
Qed.

Lemma woken_ok s th rest :
  inv s → threads s !! cur s = Some th → todo th = Woken :: rest →
  ∃ s', run_next s = Ok (tt, s') ∧ inv s'.
Proof.
  intros Hinv Ht Htd. rewrite (run_next_eq s th _ rest Ht Htd).
  destruct (popped_ready s th _ rest Hinv Ht Htd) as (Hpr & _); [done..|].
  eexists. split; [reflexivity|]. by eapply ready_inv.
Qed.

(** ** Creating threads *)

(** A new thread, blocked and in no list, under a fresh key. *)
Definition with_new (s : sys) (nt : thread) : sys :=
  set_next_key (S (next_key s))
    (set_all_list (all_list s ++ [next_key s]) (set_threads (<[next_key s := nt]> (threads s)) s)).

Lemma fresh_thread s : core s → threads s !! next_key s = None.
Proof. intros Hc. apply eq_None_not_Some. intros H%(c_fresh s Hc). lia. Qed.

Lemma core_newborn s nt :
  core s → status nt = THREAD_BLOCKED → todo nt = [] → locks nt = [] → core (with_new s nt).
Proof.
  intros Hc Hst Htd Hlk. assert (Hfr := fresh_thread s Hc).
  destruct Hc as [[Q1 Q2] [L1 L2 L3 L5 L4] [N1 N2 N3] HW HR HD HI HF HS HC HH HA].
  assert (Htok : ∀ l, tok l nt = 0%nat) by (intros l; unfold tok; by rewrite Htd, Hlk).
  assert (Hlook : ∀ t th, threads (with_new s nt) !! t = Some th →
    (t = next_key s ∧ th = nt) ∨ (t ≠ next_key s ∧ threads s !! t = Some th)).
  { intros t th. cbn. rewrite lookup_insert_Some. intuition congruence. }
  assert (Hold : ∀ t th, threads s !! t = Some th → threads (with_new s nt) !! t = Some th).
  { intros t th H. cbn. rewrite lookup_insert_ne; [done|]. congruence. }
  assert (Hlaunch : ∀ x, Launch x ∉ todo nt) by (intros x; rewrite Htd; apply not_elem_of_nil).
  split.
  - split; [done|]. intros q t. change (elems (with_new s nt) q) with (elems s q). rewrite Q2.
    split; intros (th & Ht & Hw); exists th; [split; [by apply Hold|by destruct q]|].
    apply Hlook in Ht as [[-> ->]|[_ Ht]]; [|split; [done|by destruct q]].
    destruct q; cbn in Hw; rewrite ?Htd in Hw; naive_solver congruence.
  - split.
    + intros l t th [[-> ->]|[_ Ht]]%Hlook; [rewrite Htok; lia|eauto].
    + intros l t1 t2 th1 th2 [[-> ->]|[_ H1]]%Hlook [[-> ->]|[_ H2]]%Hlook; rewrite ?Htok; (lia || eauto).
    + intros l m Hm. destruct (L3 l m Hm) as [?|[? Hno]]; [by left|right]. split; [done|].
      intros t th [[-> ->]|[_ Ht]]%Hlook; eauto.
    + intros l t th Hn [[-> ->]|[_ Ht]]%Hlook; [done|by eapply L5].
    + intros l t th [[-> ->]|[_ Ht]]%Hlook; [|by apply L4]. rewrite Hlk, elem_of_nil.
      split; [intros H%HH; lia|done].
  - split.
    + intros t t' th [[-> ->]|[_ Ht]]%Hlook Hl; [by apply Hlaunch in Hl|].
      destruct (N1 t t' th Ht Hl) as (Hni & th' & Ht' & ?). split; [done|]. exists th'. split; [by apply Hold|done].
    + intros t th t' [[-> ->]|[_ Ht]]%Hlook; [rewrite Htd; cbn; lia|eauto].
    + intros t1 t2 th1 th2 t' [[-> ->]|[_ H1]]%Hlook [[-> ->]|[_ H2]]%Hlook Hi1 Hi2;
        [done|by apply Hlaunch in Hi1|by apply Hlaunch in Hi2|eauto].
  - intros t th [[-> ->]|[_ Ht]]%Hlook; [by rewrite Htd|eauto].
  - intros t th [[-> ->]|[_ Ht]]%Hlook Hr; [congruence|]. by eapply HR.
  - intros t th [[-> ->]|[_ Ht]]%Hlook Hna; [|by eapply HD]. destruct Hna. unfold awake. by rewrite Htd.
  - destruct HI as (i & thi & Ei & Hi & ?). exists i, thi. split; [done|]. split; [by apply Hold|done].
  - intros t [th [[-> ->]|[_ Ht]]%Hlook]; cbn; [lia|]. specialize (HF t ltac:(by eexists)). lia.
  - intros w H. specialize (HS w H). cbn. lia.
  - done.
  - intros l t H%HH. cbn. lia.
  - intros t Hin. cbn in Hin. apply elem_of_app in Hin as [(th & Ht & Hd)%HA| ->%list_elem_of_singleton]; [eauto|].
    exists nt. split; [by apply lookup_insert_eq|congruence].
Qed.

Lemma count_create a b c k t :
  (∀ x, a ≠ Launch x) → (∀ x, b ≠ Launch x) → (∀ x, c ≠ Launch x) →
  count_occ op_eq_dec [a; b; c; Launch k] (Launch t) = if decide (t = k) then 1%nat else 0%nat.
Proof.
  intros Ha Hb Hc. rewrite !count_occ_cons_neq by done. destruct (decide (t = k)) as [->|Hne].
  - by rewrite count_occ_cons_eq.
  - by rewrite count_occ_cons_neq by congruence.
Qed.

Lemma thread_create_ok s th p rest :
  inv s → threads s !! cur s = Some th → todo th = Create p :: rest → PRI_MIN ≤ p ≤ PRI_MAX →
  ∃ s', run_next s = Ok (tt, s') ∧ inv s'.
Proof.
  intros Hinv Ht Htd Hp. rewrite (run_next_eq s th _ rest Ht Htd). cbn [exec]. unfold thread_create.
  destruct (popped_ready s th _ rest Hinv Ht Htd) as (Hpr & Hf & Hwf); [done..|].
  erewrite run_bind_ok by reflexivity. run_assert; [|apply andb_true_iff; lia].
  destruct (rr_run _ _ Hpr) as [Ht1 Hr1]. erewrite run_bind_ok by (by apply get_thread_ok).
  erewrite run_bind_ok by reflexivity. set (s1 := popped s th rest) in *.
  set (nt := init_thread _ _ _). change (set_next_key _ _) with (with_new s1 nt).
  assert (Hc := rr_core _ _ Hpr). assert (Hfr := fresh_thread s1 Hc).
  assert (Hnew : core (with_new s1 nt)) by (apply core_newborn; [done|..]; unfold nt, init_thread; by case_match).
  assert (Hne : cur s1 ≠ next_key s1) by congruence.
  assert (Ht2 : threads (with_new s1 nt) !! cur s1 = Some (with_todo rest th))
    by (cbn; by rewrite lookup_insert_ne).
  eexists. split; [by apply push_todo_ok|]. set (th' := with_todo _ _).
  eapply (ready_inv _ th'). split; [|split; [by apply lookup_insert_eq|done]|apply Hpr|apply Hpr|done].
  apply (core_local_gen (with_new s1 nt) _ (with_todo rest th) th'); try done; [apply Hpr|apply Hpr|..].
  - apply (inv_locks_todo (with_new s1 nt) _ (with_todo rest th) th'); try done. apply Hnew.
  - cbn in *. rewrite bool_decide_true by done. by rewrite Hf.
  - intros t. destruct (decide (t = next_key s1)) as [->|Hnt].
    + right. split; [|split].
      * unfold th'. cbn [todo with_todo]. rewrite count_occ_app, count_create, decide_True by done.
        rewrite (proj1 (count_occ_not_In _ _ _)); [lia|].
        intros Hin. destruct (in_born s1 (c_new s1 Hc) (cur s1) (next_key s1) _ Ht1) as (_ & th0 & Ht0 & _);
          [by apply list_elem_of_In|congruence].
      * split; [|by exists nt; split; [by apply lookup_insert_eq|unfold nt, init_thread; by case_match]].
        intros E. destruct (c_idle s1 Hc) as (i & thi & Ei & Hi & _).
        change (idle_thread (with_new s1 nt)) with (idle_thread s1) in E. congruence.
      * intros t0 th0 Hx Hl. cbn in Hx. apply lookup_insert_Some in Hx as [[<- <-]|[_ H]].
        -- revert Hl. unfold nt, init_thread. case_match; apply not_elem_of_nil.
        -- destruct (in_born s1 (c_new s1 Hc) _ _ _ H Hl) as (_ & th1 & H1 & _). congruence.
    + left. unfold th'. cbn [todo with_todo]. by rewrite count_occ_app, count_create, decide_False by done.
  - apply Hnew.
  - apply Hnew.
  - by right.
Qed.

Lemma set_tid_ok s th t rest :
  inv s → threads s !! cur s = Some th → todo th = SetTid t :: rest →
  ∃ s', run_next s = Ok (tt, s') ∧ inv s'.
Proof.
  intros Hinv Ht Htd. rewrite (run_next_eq s th _ rest Ht Htd). cbn [exec]. unfold set_tid.
  destruct (popped_ready s th _ rest Hinv Ht Htd) as (Hpr & Hf & Hwf); [done..|].
  apply andb_true_iff in Hf as [_ Hf%bool_decide_eq_true]. apply nth_error_In, list_elem_of_In in Hf.
  destruct (rr_run _ _ Hpr) as [Ht1 Hr1]. assert (Hc := rr_core _ _ Hpr).
  destruct (in_born _ (c_new _ Hc) (cur (popped s th rest)) t _ Ht1 Hf) as (_ & tn & Htn & _ & _).
  erewrite run_bind_ok by reflexivity. erewrite run_bind_ok by (by apply upd_thread_ok).
  eexists. split; [reflexivity|]. set (s1 := popped s th rest) in *.
  assert (Ha : alike_threads (threads s1) (<[t := with_tid (next_tid s1) tn]> (threads s1))) by (by eapply alike_insert).
  split; [|apply Hpr|].
  - eapply (core_alike s1); try done. by apply frame_same.
  - destruct (alike_forth _ _ _ _ Ha Ht1) as (th' & Hth' & [E _]). exists th'. split; [done|]. congruence.
Qed.

(** Nobody waits for the semaphores of a thread that is being created. *)
Lemma private_sema s x m :
  core s → (∃ t, x = SemAlive t ∨ x = SemLoaded t) → semas s !! x = Some m → waiters m = [].
Proof.
  intros Hc (t & Hx) Hm. destruct (waiters m) as [|w l] eqn:E; [done|]. exfalso.
  assert (Hin : w ∈ elems s (QSema x)) by (cbn; rewrite Hm, E; left).
  apply (iq_elem s (c_queues s Hc)) in Hin as (th & Hth & _ & Hh).
  assert (Hwf := c_wf s Hc _ _ Hth). destruct (todo th) as [|o r]; [done|]. cbn in Hh. injection Hh as ->.
  destruct Hx as [-> | ->]; done.
Qed.

Lemma core_private s x v :
  core s → (∃ t, x = SemAlive t ∨ x = SemLoaded t) →
  core (set_semas (<[x := MkSema v []]> (semas s)) s).
Proof.
  intros Hc Hx. eapply (core_alike s); try done.
  - split; try done.
    + intros l m. cbn. rewrite lookup_insert_ne by (destruct Hx as [? [-> | ->]]; done). eauto.
    + intros l. cbn. intros [? _]%lookup_insert_None. done.
    + intros w. cbn. by rewrite lookup_insert_ne by (destruct Hx as [? [-> | ->]]; done).
  - intros [|y|]; [done| |done]. cbn. destruct (decide (x = y)) as [<-|Hne].
    + rewrite lookup_insert_eq. cbn. destruct (semas s !! x) as [m|] eqn:Em; [|done].
      symmetry. by eapply private_sema.
    + by rewrite lookup_insert_ne.
Qed.

Lemma thread_launch_ok s th t rest :
  inv s → threads s !! cur s = Some th → todo th = Launch t :: rest →
  ∃ s', run_next s = Ok (tt, s') ∧ inv s'.
Proof.
  intros Hinv Ht Htd. rewrite (run_next_eq s th _ rest Ht Htd). cbn [exec]. unfold thread_launch.
  destruct (popped_ready s th _ rest Hinv Ht Htd) as (Hpr & Hf & Hwf); [done..|].
  destruct (rr_run _ _ Hpr) as [Ht1 Hr1]. assert (HN := c_new s (i_core s Hinv)).
  assert (Hl : Launch t ∈ todo th) by (rewrite Htd; left).
  destruct (in_born s HN _ t _ Ht Hl) as (Hni & tn & Htn & Hb & Htdn).
  assert (Hne : cur s ≠ t) by (destruct (inv_busy s th _ rest Hinv Ht Htd ltac:(done)); congruence).
  set (s1 := popped s th rest) in *. do 2 erewrite run_bind_ok by reflexivity. set (s2 := set_semas _ _).
  assert (Hc2 : core s2).
  { apply core_private; [|eauto]. apply core_private; [apply Hpr|eauto]. }
  assert (Htn2 : threads s2 !! t = Some tn) by (cbn; by rewrite lookup_insert_ne).
  erewrite run_bind_ok by (by apply upd_thread_ok). set (s3 := set_threads _ s2). set (tn3 := with_alive true tn).
  assert (Hc3 : core s3).
  { eapply (core_alike s2); try done; [by apply frame_same|]. by eapply alike_insert. }
  assert (Htn3 : threads s3 !! t = Some tn3) by (by apply lookup_insert_eq).
  assert (Hr3 : running s3 (with_todo rest th)) by (split; [cbn; by rewrite lookup_insert_ne, lookup_insert_eq|done]).
  assert (Hno : ∀ q, t ∉ elems s3 q).
  { intros q (th0 & Ht0 & Hw)%(iq_elem s3 (c_queues s3 Hc3)). rewrite Htn3 in Ht0. injection Ht0 as <-.
    destruct q; cbn in Hw; rewrite ?Htdn in Hw; naive_solver congruence. }
  destruct (woken_core s3 s3 t tn3 (with_todo rest th)) as [Hcw Hrw]; try done.
  - by apply frame_same.
  - apply Hc3.
  - intros t0 th0 Ht0 Hl0. cbn in Ht0. apply lookup_insert_Some in Ht0 as [[<- <-]|[_ Ht0]].
    { cbn in Hl0. rewrite Htdn in Hl0. by apply elem_of_nil in Hl0. }
    apply lookup_insert_Some in Ht0 as [[<- <-]|[Hne0 Ht0]].
    + assert (Ho := in_once s HN _ _ t Ht). rewrite Htd, count_occ_cons_eq in Ho by done. apply count_launch_elem in Hl0. cbn [todo with_todo] in Hl0. lia.
    + apply Hne0. by eapply (in_unique s HN (cur s) t0 th th0 t).
  - apply (proj1 (thread_unblock_ok s3 t tn3 _ Htn3 Hb Hno Hcw Hrw)); apply Hpr.
Qed.

(** * The timer interrupt keeps the invariant

    [intr_handler], [timer_interrupt] and [thread_tick] on a system whose
    invariant holds: the handler runs without panic or fault, whatever the
    thread it interrupts has left to do, unless that thread is between the two
    halves of [timer_sleep] and is due, or must yield. *)
Import RealArith Threads.

(** Only scheduling data, statistics and the yield request differ. *)
Record quiet (s s' : sys) : Prop := Quiet {
  qu_ready : ready_list s' = ready_list s;
  qu_all : all_list s' = all_list s;
  qu_cur : cur s' = cur s;
  qu_idle : idle_thread s' = idle_thread s;
  qu_semas : semas s' = semas s;
  qu_holder : holder s' = holder s;
  qu_conds : conds s' = conds s;
  qu_sleep : sleeping_list s' = sleeping_list s;
  qu_key : next_key s' = next_key s;
  qu_intr : in_external_intr s' = in_external_intr s;
  qu_ticks : ticks s' = ticks s;
  qu_wakeup t : next_wakeup <$> threads s' !! t = next_wakeup <$> threads s !! t;
  qu_threads : alike_threads (threads s) (threads s');
}.

#[export] Instance quiet_preorder : PreOrder quiet.
Proof.
  split; [by intros s; split|]. intros s1 s2 s3 [] []. split; (congruence || by etrans).
Qed.

Lemma quiet_core s s' : core s → quiet s s' → core s'.
Proof.
  intros Hc [E1 E2 E3 E4 E5 E6 E7 E8 E9 _ _ _ Ha]. eapply core_alike; [exact Hc|by apply frame_same|done| |done].
  intros [|x|]; cbn; by rewrite ?E1, ?E5, ?E8.
Qed.

Lemma quiet_running s s' th : quiet s s' → running s th → ∃ th', running s' th' ∧ alike th th'.
Proof. intros [] Hr. by eapply running_alike. Qed.

Lemma quiet_stats a b d e s : quiet s (set_stats a b (ticks s) d e s).
Proof. by split. Qed.

(** Code that succeeds and leaves a state that is [quiet] with respect to [s0]. *)
Definition runs_quiet (s0 : sys) (m : M unit) (s : sys) : Prop := ∃ s', m s = Ok (tt, s') ∧ quiet s0 s'.

Lemma rq_bind s0 m (k : M unit) s :
  runs_quiet s0 m s → (∀ s1, quiet s0 s1 → runs_quiet s0 k s1) → runs_quiet s0 (m ;; k) s.
Proof.
  intros (s1 & H1 & Hq1) Hk. destruct (Hk s1 Hq1) as (s2 & H2 & Hq2). exists s2. split; [|done]. by run_with H1.
Qed.
Lemma rq_if s0 (b : bool) m s :
  quiet s0 s → runs_quiet s0 m s → runs_quiet s0 (if b then m else mret tt) s.
Proof. intros Hq H. destruct b; [done|]. by exists s. Qed.
Lemma rq_modify s0 f s : quiet s0 s → quiet s (f s) → runs_quiet s0 (modify f) s.
Proof. intros H1 H2. eexists. split; [reflexivity|]. by etrans. Qed.

Lemma quiet_lookup s0 s t : quiet s0 s → is_Some (threads s0 !! t) → is_Some (threads s !! t).
Proof. intros Hq [th Ht]. destruct (alike_forth _ _ _ _ (qu_threads _ _ Hq) Ht) as (th' & H & _). eauto. Qed.

Lemma rq_upd s0 s t f :
  quiet s0 s → is_Some (threads s0 !! t) → (∀ th, alike th (f th)) →
  (∀ th, next_wakeup (f th) = next_wakeup th) → runs_quiet s0 (upd_thread t f) s.
Proof.
  intros Hq Ht Hf Hw. destruct (quiet_lookup s0 s t Hq Ht) as [th Hth]. eexists. split; [by apply upd_thread_ok|].
  etrans; [exact Hq|]. split; try done; [|by eapply alike_insert]. intros t'. cbn.
  destruct (decide (t = t')) as [<-|Hne]; [rewrite lookup_insert_eq, Hth; cbn; by rewrite Hw|by rewrite lookup_insert_ne].
Qed.
Lemma rq_foreach s0 f l : (∀ th, alike th (f th)) → (∀ th, next_wakeup (f th) = next_wakeup th) → (∀ t, t ∈ l → is_Some (threads s0 !! t)) →
  ∀ s, quiet s0 s → runs_quiet s0 (foreach f l) s.
Proof.
  intros Hf Hw. induction l as [|t l IH]; intros Hl s Hq; [by exists s|]. simpl. apply rq_bind.
  - apply rq_upd; [done|apply Hl; left|done|done].
  - apply IH. intros. apply Hl. by right.
Qed.

Lemma thread_tick_ok s th : core s → running s th → runs_quiet s thread_tick s.
Proof.
  intros Hc Hr. unfold thread_tick, runs_quiet. erewrite run_bind_ok by (by eapply thread_current_ok).
  apply rq_bind; [apply rq_modify; [done|]; case_bool_decide; by split|]. intros s1 Hq1.
  apply rq_bind; [apply rq_modify; [done|apply quiet_stats]|]. intros s2 Hq2.
  unfold runs_quiet. erewrite run_bind_ok by reflexivity.
  apply rq_bind; [apply rq_if; [done|]; eexists; split; [reflexivity|]; etrans; [exact Hq2|]; by split|].
  intros s3 Hq3. apply rq_if; [done|]. assert (Eall : all_list s2 = all_list s) by apply Hq2. rewrite Eall.
  assert (Hex : ∀ t, t ∈ all_list s → is_Some (threads s !! t))
    by (intros t (th' & Ht & _)%(c_all s Hc); eauto).
  apply rq_bind; [apply rq_if; [done|]; apply rq_upd; [done|destruct Hr; by eexists|done|done]|].
  intros s4 Hq4. apply rq_bind; [apply rq_if; [done|]|].
  - apply rq_bind; [apply rq_modify; [done|apply quiet_stats]|]. by apply rq_foreach.
  - intros s5 Hq5. apply rq_if; [done|]. by apply rq_foreach.
Qed.

(** ** Waking the sleepers *)

(** In the interrupt handler: the invariant but for the interrupt flag, with
    [th] interrupted. *)
Record handling (s : sys) (th : thread) : Prop := Handling {
  ha_core : core s;
  ha_intr : in_external_intr s = true;
  ha_run : running s th;
}.

(** The running thread is asleep already and its time has come. *)
Definition due (s : sys) (th : thread) : Prop := ¬ awake th ∧ next_wakeup th ≤ ticks s.

#[export] Instance due_dec s th : Decision (due s th).
Proof. unfold due. apply _. Defined.

(** A sleeper whose time has come moves to the ready list. *)
Lemma wake_one_ok s t th thc :
  handling s thc → t ∈ sleeping_list s → t ≠ cur s → threads s !! t = Some th →
  ∃ s', (modify (λ s, set_sleeping (list_remove t (sleeping_list s)) s) ;; thread_unblock t) s = Ok (tt, s') ∧
    handling s' thc ∧ sleeping_list s' = list_remove t (sleeping_list s) ∧ ticks s' = ticks s ∧ cur s' = cur s.
Proof.
  intros [Hc Hi Hr] Hs Hne Ht. assert (HQ := c_queues s Hc). change (t ∈ elems s QSleep) in Hs.
  apply (iq_elem s HQ) in Hs as (th' & Ht' & Hw). assert (th' = th) as -> by congruence.
  destruct Hw as [[Hb Hhd]|[Hrun _]]; [|by destruct Hne; apply (c_running s Hc t th)].
  set (s1 := set_sleeping (list_remove t (sleeping_list s)) s).
  destruct (c_idle s Hc) as (i & thi & Ei & Hit & Htdi & _).
  assert (Hno : ∀ q, t ∉ elems s1 q).
  { intros [|x|]; [| |cbn; rewrite list_remove_elem; naive_solver];
      intros Hin; [change (t ∈ elems s QReady) in Hin|change (t ∈ elems s (QSema x)) in Hin];
      apply (iq_elem s HQ) in Hin as (th' & H' & Hw); rewrite Ht in H'; injection H' as <-;
      destruct Hw; congruence. }
  destruct (woken_core s s1 t th thc) as [Hcw Hrw]; try done.
  - by apply frame_same.
  - intros E. rewrite E in Ei. injection Ei as ->. rewrite Ht in Hit. injection Hit as ->. by rewrite Htdi in Hhd.
  - intros [|x|]; cbn; [apply (iq_nodup s HQ QReady)|apply (iq_nodup s HQ (QSema x))|].
    apply list_remove_NoDup, (iq_nodup s HQ QSleep).
  - intros [|x|] t' Hn; cbn; [done..|]. rewrite list_remove_elem. naive_solver.
  - intros t0 th0 Ht0 Hx. destruct (in_born s (c_new s Hc) _ _ _ Ht0 Hx) as (_ & th' & H' & _ & Htd').
    rewrite Ht in H'. injection H' as <-. by rewrite Htd' in Hhd.
  - destruct (proj2 (thread_unblock_ok s1 t th thc Ht Hb Hno Hcw Hrw) Hi) as [y Hu].
    eexists. split; [erewrite run_bind_ok by reflexivity; exact Hu|]. split; [|done].
    split; [|done|done]. eapply (core_alike (woken s1 t th)); try done. by apply frame_same.
Qed.

Lemma wake_loop_ok l : ∀ s thc,
  handling s thc → ¬ due s thc → NoDup l → (∀ t, t ∈ l → t ∈ sleeping_list s) →
  ∃ s', wake_loop l s = Ok (tt, s') ∧ handling s' thc.
Proof.
  induction l as [|t l IH]; intros s thc Hh Hdue Hnd Hl; [by exists s|]. simpl. apply NoDup_cons in Hnd as [Hnt Hnd].
  assert (Hs : t ∈ elems s QSleep) by (apply Hl; left).
  apply (iq_elem s (c_queues s (ha_core _ _ Hh))) in Hs as (th & Ht & Hw). erewrite run_bind_ok by reflexivity.
  erewrite run_bind_ok by (by apply get_thread_ok). destruct (Z.leb_spec (next_wakeup th) (ticks s)) as [Hle|_].
  2: { erewrite run_bind_ok by reflexivity. apply IH; [done..|]. intros. apply Hl. by right. }
  assert (Hne : t ≠ cur s).
  { intros ->. destruct (ha_run _ _ Hh) as [Hcur Hrun]. assert (th = thc) as -> by congruence.
    apply Hdue. split; [|done]. intros Haw. by apply awake_waits in Hw. }
  destruct (wake_one_ok s t th thc Hh) as (s1 & H1 & Hh1 & El & Etk & Ec); [apply Hl; left|done|done|].
  run_with H1. apply IH; [done|unfold due in *; by rewrite Etk|done|].
  intros t' Ht'. rewrite El. apply list_remove_elem. split; [apply Hl; by right|]. intros ->. done.
Qed.

(** If the interrupted thread is itself due, the handler tries to unblock a
    running thread. *)
Lemma wake_loop_due l : ∀ s thc,
  handling s thc → due s thc → NoDup l → (∀ t, t ∈ l → t ∈ sleeping_list s) → cur s ∈ l →
  wake_loop l s = Err Panic.
Proof.
  induction l as [|t l IH]; intros s thc Hh Hdue Hnd Hl Hin; [by apply elem_of_nil in Hin|]. simpl.
  apply NoDup_cons in Hnd as [Hnt Hnd]. destruct (ha_run _ _ Hh) as [Hcur Hrun].
  assert (Hs : t ∈ elems s QSleep) by (apply Hl; left).
  apply (iq_elem s (c_queues s (ha_core _ _ Hh))) in Hs as (th & Ht & Hw). erewrite run_bind_ok by reflexivity.
  erewrite run_bind_ok by (by apply get_thread_ok). destruct (decide (t = cur s)) as [->|Hne].
  - assert (th = thc) as -> by congruence. rewrite (proj2 (Z.leb_le _ _) (proj2 Hdue)).
    erewrite run_bind_err; [done|]. erewrite run_bind_ok by reflexivity. unfold thread_unblock.
    erewrite run_bind_ok by (by apply get_thread_ok). rewrite bool_decide_false by congruence. done.
  - apply elem_of_cons in Hin as [E|Hin]; [by destruct Hne|].
    assert (Hl' : ∀ t', t' ∈ l → t' ∈ sleeping_list s) by (intros; apply Hl; by right).
    destruct (Z.leb_spec (next_wakeup th) (ticks s)) as [Hle|_].
    + destruct (wake_one_ok s t th thc Hh) as (s1 & H1 & Hh1 & El & Etk & Ec); [apply Hl; left|done|done|].
      run_with H1. apply (IH s1 thc Hh1); [unfold due in *; by rewrite Etk|done| |by rewrite Ec].
      intros t' Ht'. rewrite El. apply list_remove_elem. split; [by apply Hl'|]. intros ->. done.
    + erewrite run_bind_ok by reflexivity. by apply (IH s thc).
Qed.

(** ** The handler *)

(** The state in which the handler looks at the sleepers. *)
Lemma timer_ticked s th : inv s → running s th →
  ∃ s' th', timer_interrupt (set_intr true false s) = wake_loop (sleeping_list s') s' ∧ handling s' th' ∧
    alike th th' ∧ next_wakeup th' = next_wakeup th ∧ ticks s' = s64 (ticks s + 1) ∧ cur s' = cur s.
Proof.
  intros [Hc Hi _] [Ht Hst]. set (s1 := set_intr true false s). unfold timer_interrupt.
  erewrite run_bind_ok by reflexivity. set (s2 := set_stats _ _ (s64 (ticks s1 + 1)) _ _ s1).
  assert (Hc2 : core s2) by (eapply (core_alike s); try done; by apply frame_same).
  destruct (thread_tick_ok s2 th Hc2) as (s3 & H3 & Hq3); [done|]. run_with H3. erewrite run_bind_ok by reflexivity.
  destruct (quiet_running s2 s3 th Hq3) as (th3 & Hr3 & Ha); [done|].
  exists s3, th3. split_and!; [done| |done| |apply (qu_ticks _ _ Hq3)|apply (qu_cur _ _ Hq3)].
  - split; [by eapply quiet_core|by rewrite (qu_intr _ _ Hq3)|done].
  - assert (H := qu_wakeup _ _ Hq3 (cur s)). destruct Hr3 as [Ht3 _]. rewrite (qu_cur _ _ Hq3) in Ht3.
    change (cur s2) with (cur s) in Ht3. rewrite Ht3 in H. change (threads s2) with (threads s) in H.
    rewrite Ht in H. by injection H.
Qed.

Lemma alike_awake th th' : alike th th' → awake th' ↔ awake th.
Proof. intros [_ [E _]]. unfold awake. by rewrite E. Qed.

Lemma handler_eq s :
  inv s → timer_intr_handler s =
    match timer_interrupt (set_intr true false s) with
    | Ok (_, s1) => (if yield_on_return s1 then thread_yield else mret tt) (set_intr false (yield_on_return s1) s1)
    | Err e => Err e
    end.
Proof.
  intros [_ Hi _]. unfold timer_intr_handler. erewrite run_bind_ok by reflexivity. run_assert; [|by rewrite Hi].
  erewrite run_bind_ok by reflexivity. destruct (timer_interrupt _) as [[[] s1]|e] eqn:E.
  - run_with E. erewrite run_bind_ok by reflexivity. by erewrite run_bind_ok by reflexivity.
  - by rewrite (run_bind_err _ _ _ _ E).
Qed.

(** The thread is falling asleep and due at this tick: the kernel panics. *)
Lemma timer_intr_due s th :
  inv s → running s th → ¬ awake th → next_wakeup th ≤ s64 (ticks s + 1) → timer_intr_handler s = Err Panic.
Proof.
  intros Hinv Hr Hna Hle. rewrite handler_eq by done.
  destruct (timer_ticked s th Hinv Hr) as (s' & th' & E & Hh & Ha & Ew & Et & Ec). rewrite E.
  assert (Hna' : ¬ awake th') by (by rewrite (alike_awake th th')). assert (HQ := c_queues s' (ha_core _ _ Hh)).
  rewrite (wake_loop_due _ s' th'); [done|done|by split; [|rewrite Ew, Et]|apply (iq_nodup s' HQ QSleep)|done|].
  apply (iq_elem s' HQ QSleep). destruct (ha_run _ _ Hh) as [Hcur Hst]. exists th'. split; [done|]. right.
  split; [done|]. by apply dec_stable.
Qed.

(** In all other cases the handler's body runs, and the thread goes on or
    yields; it cannot yield while it is in the sleeping list. *)
Lemma timer_intr_handler_ok s th :
  inv s → running s th → awake th ∨ s64 (ticks s + 1) < next_wakeup th →
  ∃ s1, timer_interrupt (set_intr true false s) = Ok (tt, s1) ∧
    if decide (awake th ∨ yield_on_return s1 = false)
    then ∃ s', timer_intr_handler s = Ok (tt, s') ∧ inv s'
    else timer_intr_handler s = Err Fault.
Proof.
  intros Hinv Hr Hno. rewrite handler_eq by done.
  destruct (timer_ticked s th Hinv Hr) as (s' & th' & E & Hh & Ha & Ew & Et & Ec). rewrite E.
  assert (Haw := alike_awake th th' Ha).
  destruct (wake_loop_ok (sleeping_list s') s' th' Hh) as (s1 & H1 & Hh1);
    [unfold due; rewrite Ew, Et, Haw; intros [? ?]; destruct Hno; [done|lia]
    |apply (iq_nodup s' (c_queues s' (ha_core _ _ Hh)) QSleep)|done|].
  exists s1. split; [done|]. rewrite H1. set (s5 := set_intr false _ s1).
  assert (Hc5 : core s5) by (eapply (core_alike s1); try done; [apply Hh1|by apply frame_same]).
  assert (Hr5 : running s5 th') by apply Hh1.
  destruct (yield_on_return s1); case_decide as Hd.
  - destruct Hd as [Hd|Hd]; [|done]. destruct (thread_yield_ok s5 th') as (s2 & H & Hinv2 & _); [done|done|by apply Haw|done|]. eauto.
  - apply (thread_yield_asleep s5 th'); [done|done| |done]. rewrite Haw. tauto.
  - exists s5. split; [done|]. split; [done|done|]. destruct Hr5. eauto.
  - destruct Hd. by right.
Qed.

(** The idle thread blocks itself. *)
Lemma idle_block_ok s : inv s → idle_thread s = Some (cur s) → ∃ s', thread_block s = Ok (tt, s') ∧ inv s'.
Proof.
  intros [Hc Hi (th & Ht & Hst)] Hid. destruct (c_idle s Hc) as (i & thi & Ei & Hit & Htdi & _).
  assert (i = cur s) as -> by congruence. assert (thi = th) as -> by congruence.
  destruct (thread_block_ok s th) as (s' & H & Hinv & _); [done|done| |eauto].
  apply (leaving_core s s _ _ (λ _, False)); try done; [by unfold awake; rewrite Htdi|by apply frame_same|..].
  - intros q. case_decide; [done|]. by rewrite app_nil_r.
  - intros [|x|]; cbn; rewrite ?Htdi; naive_solver.
Qed.
