(* ===== verification/SchedSafe.v ===== *)
(** * The running system

    From [thread_init] and [thread_start] on, every step of the system keeps
    the scheduler's invariant, and no step panics or faults but for a call
    that breaks its documented contract and for the two places where the code
    works on a shared list with interrupts on. *)
From S2P Require Import Prelude CInt RealArith Threads ThreadsInv Scheduler SynchInv ThreadOps.
Import RealArith Threads.

Open Scope Z_scope.

(** ** The first state *)

(** The state [thread_start] leaves, with or without [-mlfqs]. *)
Definition booted (mlfqs : bool) : sys :=
  match thread_start (set_mlfqs mlfqs thread_init) with Ok (_, s) => s | Err _ => thread_init end.

(** Its threads: [main] runs, and the idle thread waits in no list. *)
Definition main_thread : thread := MkThread 1 THREAD_RUNNING 0 0 31 [] 0 false [].
Definition idle_state (mlfqs : bool) : thread :=
  if mlfqs then MkThread 2 THREAD_BLOCKED 0 0 63 [] 0 true [] else MkThread 2 THREAD_READY 0 0 0 [] 0 true [].

Lemma booted_threads b t th :
  threads (booted b) !! t = Some th → (t = 0%nat ∧ th = main_thread) ∨ (t = 1%nat ∧ th = idle_state b).
Proof.
  assert (E : threads (booted b) = <[0%nat := main_thread]> {[1%nat := idle_state b]})
    by (by destruct b; vm_compute).
  rewrite E. intros [[<- <-]|[_ [<- <-]%lookup_singleton_Some]]%lookup_insert_Some; auto.
Qed.
Lemma booted_semas b x m : semas (booted b) !! x = Some m →
  waiters m = [] ∧ (∀ l, x = SemLock l → value m = 1) ∧ ∀ w, x ≠ SemCond w.
Proof.
  assert (E : semas (booted b) = <[SemLock 0 := MkSema 1 []]> (<[SemUser 0 := MkSema 0 []]>
    (<[SemAlive 1 := MkSema 0 []]> {[SemLoaded 1 := MkSema 0 []]}))) by (by destruct b; vm_compute).
  rewrite E. intros [[<- <-]|[_ H]]%lookup_insert_Some; [by split_and!|].
  apply lookup_insert_Some in H as [[<- <-]|[_ H]]; [by split_and!|].
  apply lookup_insert_Some in H as [[<- <-]|[_ [<- <-]%lookup_singleton_Some]]; by split_and!.
Qed.

Lemma booted_elems b q : elems (booted b) q = [].
Proof.
  destruct q as [|x|]; [by destruct b| |by destruct b]. cbn [elems].
  destruct (semas (booted b) !! x) as [m|] eqn:E; [|done]. by apply booted_semas in E as [? _].
Qed.

Lemma booted_tok b l t th : threads (booted b) !! t = Some th → tok l th = 0%nat.
Proof. intros [[_ ->]|[_ ->]]%booted_threads; [done|by destruct b]. Qed.

Lemma booted_holder b : holder (booted b) = ∅.
Proof. destruct b; by vm_compute. Qed.
Lemma booted_idle b : idle_thread (booted b) = Some 1%nat.
Proof. destruct b; by vm_compute. Qed.
Lemma booted_main b : threads (booted b) !! 0%nat = Some main_thread.
Proof. destruct b; by vm_compute. Qed.
Lemma booted_idle_thread b : threads (booted b) !! 1%nat = Some (idle_state b).
Proof. destruct b; by vm_compute. Qed.
Lemma booted_conds b : conds (booted b) = ∅.
Proof. destruct b; by vm_compute. Qed.
Lemma booted_all b : all_list (booted b) = [0; 1]%nat.
Proof. destruct b; by vm_compute. Qed.
Lemma booted_cur b : cur (booted b) = 0%nat.
Proof. destruct b; by vm_compute. Qed.
Lemma booted_key b : next_key (booted b) = 2%nat.
Proof. destruct b; by vm_compute. Qed.
Lemma idle_state_ok b : todo (idle_state b) = [] ∧ status (idle_state b) ≠ THREAD_DYING.
Proof. by destruct b. Qed.

Lemma booted_inv b : inv (booted b).
Proof.
  split; [|by destruct b|exists main_thread; rewrite booted_cur; split; [apply booted_main|done]].
  split.
  - split; intros q; rewrite booted_elems; [apply NoDup_nil_2|]. intros t. split; [intros []%elem_of_nil|].
    intros (th & Ht & Hw). apply booted_threads in Ht. unfold waits_in in Hw. rewrite booted_idle in Hw.
    destruct Ht as [[-> ->]|[-> ->]]; destruct q, b; cbn in Hw; naive_solver.
  - split.
    + intros l t th Ht. rewrite (booted_tok b l t th Ht). lia.
    + intros l t1 t2 th1 th2 H1 H2. rewrite (booted_tok b l t1 th1 H1). lia.
    + intros l m Hm. apply booted_semas in Hm as (_ & Hv & _). right. split; [by apply (Hv l)|].
      intros. by eapply booted_tok.
    + intros l t th _ Ht. by eapply booted_tok.
    + intros l t th Ht. rewrite booted_holder, lookup_empty. split; [done|].
      apply booted_threads in Ht as [[_ ->]|[_ ->]]; [|destruct b]; intros []%elem_of_nil.
  - split.
    + intros t t' th [[_ ->]|[_ ->]]%booted_threads; [|destruct b]; intros []%elem_of_nil.
    + intros t th t' [[_ ->]|[_ ->]]%booted_threads; [|destruct b]; cbn; lia.
    + intros t1 t2 th1 th2 t' [[_ ->]|[_ ->]]%booted_threads; [|destruct b]; intros ? []%elem_of_nil.
  - intros t th [[_ ->]|[_ ->]]%booted_threads; [|destruct b]; done.
  - intros t th [[-> ->]|[-> ->]]%booted_threads Hst; [by rewrite booted_cur|]. destruct b; discriminate Hst.
  - intros t th [[-> ->]|[-> ->]]%booted_threads Hna; destruct Hna; [done|by destruct b].
  - exists 1%nat, (idle_state b). split; [apply booted_idle|]. split; [apply booted_idle_thread|apply idle_state_ok].
  - intros t [th [[-> _]|[-> _]]%booted_threads]; rewrite booted_key; lia.
  - intros w [m Hm]. apply booted_semas in Hm as (_ & _ & Hx). by destruct (Hx w).
  - intros c ws w. rewrite booted_conds, lookup_empty. discriminate.
  - intros l t. rewrite booted_holder, lookup_empty. discriminate.
  - intros t Hin. rewrite booted_all in Hin.
    apply elem_of_cons in Hin as [->|[->|Hx%elem_of_nil]%elem_of_cons]; [| |done].
    + exists main_thread. split; [apply booted_main|done].
    + exists (idle_state b). split; [apply booted_idle_thread|apply idle_state_ok].
Qed.

(** ** What a caller must guarantee *)

(** The documented contracts: a semaphore is initialized before it is used, a
    lock is not acquired by its holder, only the holder releases a lock or
    uses a condition variable with it, a new thread's priority is in range.
    The scan of the ready list with interrupts on needs more: the element it
    has come to must still be there, and the thread it has chosen. *)
Definition safe_op (s : sys) (o : op) : bool :=
  match o with
  | SemaDown x | SemaTryDown x | SemaUp x => bool_decide (is_Some (semas s !! x))
  | LockAcquire l => negb (bool_decide (holder s !! l = Some (cur s)))
  | LockTryAcquire l =>
    negb (bool_decide (holder s !! l = Some (cur s))) && bool_decide (is_Some (semas s !! SemLock l))
  | LockRelease l | CondWait _ l | CondSignal _ l => bool_decide (holder s !! l = Some (cur s))
  | Create p => (PRI_MIN <=? p) && (p <=? PRI_MAX)
  | PreemptScan _ e best =>
    match next_elem e (ready_list s) with
    | None => false
    | Some None => true
    | Some (Some _) => bool_decide (is_Some (threads s !! best))
    end
  | PreemptTest _ best => bool_decide (is_Some (threads s !! best))
  | _ => true
  end.

Lemma safe_op_runs s th o rest :
  inv s → threads s !! cur s = Some th → todo th = o :: rest → safe_op s o = true →
  ∃ s', run_next s = Ok (tt, s') ∧ inv s'.
Proof.
  intros Hinv Ht Htd Hs. destruct o; cbn in Hs;
    try (apply bool_decide_eq_true in Hs); try (apply negb_true_iff, bool_decide_eq_false in Hs).
  - destruct Hs as [m Hm]. by eapply sema_down_ok.
  - destruct Hs as [m Hm]. by eapply sema_try_down_ok.
  - destruct Hs as [m Hm]. by eapply sema_up_ok.
  - by eapply lock_acquire_ok.
  - apply andb_true_iff in Hs as [H1%negb_true_iff%bool_decide_eq_false H2%bool_decide_eq_true].
    destruct H2 as [m Hm]. by eapply lock_try_acquire_ok.
  - by eapply lock_acquired_ok.
  - by eapply lock_release_ok.
  - by eapply cond_wait_ok.
  - by eapply cond_signal_ok.
  - by eapply cond_broadcast_ok.
  - by eapply yield_ok.
  - by eapply thread_set_priority_ok.
  - by eapply thread_set_nice_ok.
  - by eapply preempt_ok.
  - eapply preempt_scan_ok; [done..|]. destruct (next_elem e (ready_list s)) as [[t|]|]; [|by left|done].
    apply bool_decide_eq_true in Hs. right. eauto.
  - by eapply preempt_test_ok.
  - by eapply timer_sleep_ok.
  - by eapply timer_sleep_block_ok.
  - by eapply woken_ok.
  - apply andb_true_iff in Hs as [H1%Z.leb_le H2%Z.leb_le]. by eapply thread_create_ok.
  - by eapply set_tid_ok.
  - by eapply thread_launch_ok.
  - by eapply thread_exit_ok.
  - by eapply thread_exit_tail_ok.
Qed.

Lemma get_sema_none x s : ¬ is_Some (semas s !! x) → get_sema x s = Err Fault.
Proof. intros H%eq_None_not_Some. unfold get_sema. erewrite run_bind_ok by reflexivity. by rewrite H. Qed.

(** A broken contract ends in a failed assertion or an invalid access. *)
Lemma unsafe_op_fails s th o rest :
  inv s → threads s !! cur s = Some th → todo th = o :: rest → safe_op s o = false →
  ∃ e, run_next s = Err e ∧ (e = Panic ∨ e = Fault).
Proof.
  intros Hinv Ht Htd Hs. destruct (inv_busy s th o rest Hinv Ht Htd) as [Hrr _]; [by intros ->|].
  assert (Hr := popped_running s th rest (rr_run _ _ Hrr)). rewrite (run_next_eq s th o rest Ht Htd).
  assert (Hheld : ∀ l, lock_held_by_current_thread l (popped s th rest) =
    Ok (bool_decide (holder s !! l = Some (cur s)), popped s th rest)) by (intros l; exact (held_eval _ _ l Hr)).
  assert (Hin : negb (in_external_intr (popped s th rest)) = true) by (apply negb_true_iff, (rr_intr _ _ Hrr)).
  assert (Hgone : ∀ t, ¬ is_Some (threads s !! t) → get_thread t (popped s th rest) = Err Fault).
  { intros t Hn%eq_None_not_Some. unfold get_thread. erewrite run_bind_ok by reflexivity. cbn.
    by rewrite lookup_insert_ne, Hn by congruence. }
  destruct o; cbn [exec safe_op] in *; try discriminate.
  - apply bool_decide_eq_false in Hs. exists Fault. split; [|by right]. unfold sema_down.
    by erewrite run_bind_err by (by apply get_sema_none).
  - apply bool_decide_eq_false in Hs. exists Fault. split; [|by right]. unfold sema_try_down.
    by erewrite run_bind_err by (by erewrite run_bind_err by (by apply get_sema_none)).
  - apply bool_decide_eq_false in Hs. exists Fault. split; [|by right]. unfold sema_up.
    by erewrite run_bind_err by (by apply get_sema_none).
  - apply negb_false_iff in Hs. exists Panic. split; [|by left]. unfold lock_acquire.
    erewrite run_bind_ok by reflexivity. run_assert; [|done]. run_with (Hheld l). by rewrite Hs.
  - unfold lock_try_acquire. run_with (Hheld l).
    destruct (bool_decide (holder s !! l = Some (cur s))); [exists Panic; split; [done|by left]|].
    exists Fault. split; [|by right]. run_assert; [|done]. apply bool_decide_eq_false in Hs. unfold sema_try_down.
    by erewrite run_bind_err by (by erewrite run_bind_err by (by apply get_sema_none)).
  - exists Panic. split; [|by left]. unfold lock_release. run_with (Hheld l). by rewrite Hs.
  - exists Panic. split; [|by left]. unfold cond_wait. erewrite run_bind_ok by reflexivity.
    run_assert; [|done]. run_with (Hheld l). by rewrite Hs.
  - exists Panic. split; [|by left]. unfold cond_signal. erewrite run_bind_ok by reflexivity.
    run_assert; [|done]. run_with (Hheld l). by rewrite Hs.
  - exists Fault. split; [|by right]. unfold preempt_scan. erewrite run_bind_ok by reflexivity.
    change (ready_list (popped s th rest)) with (ready_list s).
    destruct (next_elem e (ready_list s)) as [[t|]|]; [|done|done].
    apply bool_decide_eq_false, Hgone in Hs. by rewrite (run_bind_err _ _ _ _ Hs).
  - exists Fault. split; [|by right]. unfold preempt_test. erewrite run_bind_ok by reflexivity.
    apply bool_decide_eq_false, Hgone in Hs. by rewrite (run_bind_err _ _ _ _ Hs).
  - exists Panic. split; [|by left]. unfold thread_create. erewrite run_bind_ok by reflexivity. by rewrite Hs.
Qed.

(** ** Initializing objects *)
Lemma sema_init_inv s x v :
  inv s → semas s !! x = None → lock_sema x = false → (∀ w, x ≠ SemCond w) →
  inv (set_semas (<[x := MkSema v []]> (semas s)) s).
Proof.
  intros [Hc Hi Hr] Hx Hl Hw. split; [|done|done]. eapply (core_alike s); try done.
  - split; try done.
    + intros l m. cbn. rewrite lookup_insert_ne by (by destruct x). eauto.
    + intros l. cbn. intros [? _]%lookup_insert_None. done.
    + intros w. cbn. by rewrite lookup_insert_ne.
  - intros [|y|]; [done| |done]. cbn. destruct (decide (x = y)) as [<-|Hne].
    + by rewrite lookup_insert_eq, Hx.
    + by rewrite lookup_insert_ne.
Qed.

Lemma lock_init_inv s l :
  inv s → semas s !! SemLock l = None →
  inv (set_semas (<[SemLock l := MkSema 1 []]> (semas s)) (set_holder (delete l (holder s)) s)).
Proof.
  intros [[[Q1 Q2] [L1 L2 L3 L5 L4] HN HW HR HD HI HF HS HC HH HA] Hi Hr] Hx. split; [|done|done].
  set (s' := set_semas _ _). assert (Hel : ∀ q, elems s' q = elems s q).
  { intros [|y|]; [done| |done]. cbn. destruct (decide (SemLock l = y)) as [<-|Hne].
    - by rewrite lookup_insert_eq, Hx.
    - by rewrite lookup_insert_ne. }
  split; [| |by destruct HN|exact HW|exact HR|exact HD|exact HI|exact HF| | | |exact HA].
  - split; intros q; rewrite Hel; [apply Q1|]. intros t. rewrite Q2. by destruct q.
  - split; [exact L1|exact L2|..].
    + intros l' m. cbn. intros [[[= <-] <-]|[_ Hm]]%lookup_insert_Some; [right|eauto].
      split; [done|]. intros t th Ht. by eapply L5.
    + intros l' t th. cbn. intros [Hn _]%lookup_insert_None. by apply L5.
    + intros l' t th Ht. cbn. rewrite lookup_delete_Some, (L4 l' t th Ht). split; [by intros [_ ?]|].
      intros Hin. split; [|done]. intros <-. specialize (L5 l t th Hx Ht).
      apply list_elem_of_In, (count_occ_In Nat.eq_dec) in Hin. assert (H := tok_count l th). lia.
  - intros w [m Hm]. cbn in Hm. rewrite lookup_insert_ne in Hm by done. apply HS. by eexists.
  - intros c ws w H1 H2. cbn. rewrite lookup_insert_ne by done. by eapply HC.
  - intros l' t. cbn. rewrite lookup_delete_Some. intros [_ H]. by eapply HH.
Qed.

Lemma cond_init_inv s c : inv s → inv (set_conds (<[c := []]> (conds s)) s).
Proof.
  intros [[HQ HL HN HW HR HD HI HF HS HC HH HA] Hi Hr]. split; [|done|done].
  split; [| | |exact HW|exact HR|exact HD|exact HI|exact HF|exact HS| |exact HH|exact HA].
  - destruct HQ as [Q1 Q2]. split; intros q; [apply (Q1 q)|]. intros t. apply (Q2 q t).
  - by destruct HL.
  - by destruct HN.
  - intros c' ws w. cbn. intros [[<- <-]|[_ H]]%lookup_insert_Some; [intros []%elem_of_nil|by apply (HC c')].
Qed.

(** ** Every step *)
Lemma call_inv s th o :
  inv s → threads s !! cur s = Some th → todo th = [] → idle_thread s ≠ Some (cur s) → user_op o = true →
  inv (set_threads (<[cur s := with_todo [o] th]> (threads s)) s).
Proof.
  intros [Hc Hi (th' & Ht' & Hr)] Ht Htd Hid Ho. assert (th' = th) as -> by congruence.
  eapply (ready_inv _ (with_todo [o] th)). apply core_todo; [by split; try done; unfold awake; rewrite Htd|..].
  - by destruct o; try match goal with x : sema_id |- _ => destruct x end.
  - by destruct o; try match goal with x : sema_id |- _ => destruct x end.
  - intros t. rewrite Htd. rewrite count_occ_cons_neq; [done|]. by intros ->.
Qed.

(** The interrupt, when it does not fail. *)
Lemma timer_intr_inv s s' : inv s → timer_intr_handler s = Ok (tt, s') → inv s'.
Proof.
  intros Hinv H. destruct (i_run s Hinv) as (th & Hr).
  destruct (decide (awake th ∨ s64 (ticks s + 1) < next_wakeup th)) as [Hd|Hd].
  - destruct (timer_intr_handler_ok s th Hinv Hr Hd) as (s1 & _ & H1).
    case_decide; [destruct H1 as (s2 & H2 & Hi); congruence|congruence].
  - rewrite (timer_intr_due s th Hinv Hr) in H; [done|tauto|lia].
Qed.

Lemma step_inv s s' : inv s → step s s' → inv s'.
Proof.
  intros Hinv Hs. destruct Hs as [s s' H|s th o Ht Htd Hid Ho|s s' Hid H|s s' H|s s' n v Hx H|s s' l Hx H|s s' c Hx H].
  - destruct (i_run s Hinv) as (th & Ht & Hst). destruct (todo th) as [|o rest] eqn:Htd.
    + unfold run_next in H. erewrite run_bind_ok in H by reflexivity.
      erewrite run_bind_ok in H by (by apply get_thread_ok). rewrite Htd in H. by injection H as <-.
    + destruct (safe_op s o) eqn:Es.
      * destruct (safe_op_runs s th o rest Hinv Ht Htd Es) as (s1 & H1 & Hi1). congruence.
      * destruct (unsafe_op_fails s th o rest Hinv Ht Htd Es) as (e & He & _). congruence.
  - by apply call_inv.
  - destruct (idle_block_ok s Hinv Hid) as (s1 & H1 & Hi1). congruence.
  - by eapply timer_intr_inv.
  - injection H as <-. by apply sema_init_inv.
  - injection H as <-. by apply lock_init_inv.
  - injection H as <-. by apply cond_init_inv.
Qed.

(** What the system can come to. *)
Definition reachable (mlfqs : bool) : sys → Prop := rtc step (booted mlfqs).

Lemma reachable_inv b s : reachable b s → inv s.
Proof.
  intros H. assert (Hb := booted_inv b). unfold reachable in H. revert Hb.
  induction H as [|s1 s2 s3 H12 _ IH]; [done|]. intros H1. by eapply IH, step_inv.
Qed.
