(* ===== verification/SchedSpec.v ===== *)
(** * What the scheduler guarantees

    The properties of threads, locks and priorities that hold in every state
    the system can reach, with a small running system to try them on, and the
    two ways correct callers can still bring the kernel down: the window of
    [timer_sleep] and the scan of [thread_set_priority]. *)
From S2P Require Import Prelude CInt RealArith Threads ThreadsInv Scheduler SynchInv ThreadOps SchedSafe.
Import RealArith Threads.

Open Scope Z_scope.

(** ** Priorities depend on threads and waiters only *)

Definition same_priorities (s s' : sys) : Prop :=
  thread_mlfqs s' = thread_mlfqs s ∧ semas s' = semas s ∧
  ∀ t, (λ th, (priority th, locks th)) <$> threads s' !! t = (λ th, (priority th, locks th)) <$> threads s !! t.

Lemma fold_left_ext {A B} (f g : A → B → A) l a :
  (∀ a b, b ∈ l → f a b = g a b) → fold_left f l a = fold_left g l a.
Proof.
  revert a. induction l as [|b l IH]; intros a H; simpl; [done|]. rewrite (H a b) by left. apply IH.
  intros. apply H. by right.
Qed.

Lemma donated_same s s' n t : same_priorities s s' → donated s' n t = donated s n t.
Proof.
  intros (_ & Es & Ht). revert t. induction n as [|n IH]; intros t; specialize (Ht t);
    simpl; destruct (threads s' !! t) as [th'|], (threads s !! t) as [th|]; simplify_eq/=; try done.
  rewrite H, H0, Es. apply fold_left_ext. intros p l _. apply fold_left_ext. intros p' w _. by rewrite IH.
Qed.

Lemma given_priority_same s s' t :
  same_priorities s s' → given_thread_get_priority s' t = given_thread_get_priority s t.
Proof.
  intros Hs. unfold given_thread_get_priority. rewrite (donated_same s s') by done. destruct Hs as (-> & _ & Ht).
  specialize (Ht t). destruct (threads s' !! t), (threads s !! t); simplify_eq/=; destruct (thread_mlfqs s); congruence.
Qed.

Lemma insert_status_same s t th st :
  threads s !! t = Some th →
  ∀ t', (λ th, (priority th, locks th)) <$> (<[t := with_status st th]> (threads s) !! t') =
        (λ th, (priority th, locks th)) <$> threads s !! t'.
Proof.
  intros Ht t'. destruct (decide (t = t')) as [<-|Hne]; [by rewrite lookup_insert_eq, Ht|by rewrite lookup_insert_ne].
Qed.

(** ** Donation *)

(** Thread [w] waits for a lock that [t] holds. *)
Definition donates (s : sys) (t w : nat) : Prop :=
  ∃ th l m, threads s !! t = Some th ∧ l ∈ locks th ∧ semas s !! SemLock l = Some m ∧ w ∈ waiters m.
(** Thread [w] waits for [t] through at most [n] locks. *)
Inductive chain (s : sys) : nat → nat → nat → Prop :=
| chain_self n t : chain s n t t
| chain_step n t w w' : donates s t w → chain s n w w' → chain s (S n) t w'.

Definition base_priority (s : sys) (t : nat) : Z := match threads s !! t with Some th => priority th | None => 0 end.

(** Folds that compute a maximum. *)
Definition raises {A} (f : Z → A → Z) (g : A → Z → Prop) : Prop :=
  ∀ p a, p ≤ f p a ∧ (f p a = p ∨ g a (f p a)) ∧ ∀ q, g a q → q ≤ f p a.

Lemma fold_raises {A} (f : Z → A → Z) g l : raises f g → ∀ p,
  p ≤ fold_left f l p ∧ (fold_left f l p = p ∨ ∃ a, a ∈ l ∧ g a (fold_left f l p)) ∧
  ∀ a q, a ∈ l → g a q → q ≤ fold_left f l p.
Proof.
  intros Hf. induction l as [|a l IH]; intros p; simpl; [split_and!; [lia|by left|by intros a q ?%elem_of_nil]|].
  destruct (Hf p a) as (H1 & H2 & H3), (IH (f p a)) as (I1 & I2 & I3). split_and!; [lia| |].
  - destruct I2 as [I2|(b & Hb & Hg)].
    + rewrite I2. destruct H2 as [->|H2]; [by left|right]. exists a. split; [left|done].
    + right. exists b. split; [by right|done].
  - intros b q [->|Hb]%elem_of_cons Hg; [|by eapply I3]. specialize (H3 q Hg). lia.
Qed.

(** The threads that wait for lock [l]. *)
Definition lock_waiters (s : sys) (l : nat) : list nat :=
  match semas s !! SemLock l with Some m => waiters m | None => [] end.

Lemma raises_waiter s n :
  raises (λ p w, let new_priority := donated s n w in if p <? new_priority then new_priority else p)
         (λ w q, q = donated s n w).
Proof. intros p w. cbn. bcase; split_and!; (lia || auto || (intros q ->; lia)). Qed.

Lemma raises_lock s n :
  raises (λ p l, fold_left (λ p w, let new_priority := donated s n w in
                                   if p <? new_priority then new_priority else p) (lock_waiters s l) p)
         (λ l q, ∃ w, w ∈ lock_waiters s l ∧ q = donated s n w).
Proof.
  intros p l. destruct (fold_raises _ _ (lock_waiters s l) (raises_waiter s n) p) as (H1 & H2 & H3).
  split_and!; [done|done|]. intros q (w & Hw & Hq). by eapply H3.
Qed.

Lemma lock_waiters_donates s t th l w :
  threads s !! t = Some th → l ∈ locks th → w ∈ lock_waiters s l → donates s t w.
Proof.
  intros Ht Hl Hw. unfold lock_waiters in Hw. destruct (semas s !! SemLock l) as [m|] eqn:Em.
  - by exists th, l, m.
  - by apply elem_of_nil in Hw.
Qed.
Lemma donates_exists s t w : core s → donates s t w → is_Some (threads s !! w).
Proof.
  intros Hc (th & l & m & Ht & Hl & Hm & Hw).
  assert (Hin : w ∈ elems s (QSema (SemLock l))) by (cbn; by rewrite Hm).
  apply (iq_elem s (c_queues s Hc)) in Hin as (thw & Hthw & _). eauto.
Qed.

(** The computed priority is that of some thread of a chain, and the highest. *)
Lemma donated_max s n : core s → ∀ t, is_Some (threads s !! t) →
  (∃ w, chain s n t w ∧ donated s n t = base_priority s w) ∧
  (∀ w, chain s n t w → base_priority s w ≤ donated s n t).
Proof.
  intros Hc. induction n as [|n IH]; intros t [th Ht].
  { simpl. rewrite Ht. split.
    - exists t. split; [constructor|]. unfold base_priority. by rewrite Ht.
    - intros w Hch. inversion Hch; subst. unfold base_priority. rewrite Ht. lia. }
  assert (Eb : base_priority s t = priority th) by (unfold base_priority; by rewrite Ht).
  destruct (fold_raises _ _ (locks th) (raises_lock s n) (priority th)) as (H1 & H2 & H3).
  cbn [donated]. rewrite Ht. change (fold_left _ (locks th) (priority th)) with
    (fold_left (λ p l, fold_left (λ p w, let new_priority := donated s n w in
       if p <? new_priority then new_priority else p) (lock_waiters s l) p) (locks th) (priority th)).
  set (r := fold_left _ (locks th) _) in *. split.
  - destruct H2 as [->|(l & Hl & w & Hw & Er)]; [exists t; split; [constructor|done]|].
    assert (Hd := lock_waiters_donates s t th l w Ht Hl Hw).
    destruct (IH w (donates_exists s t w Hc Hd)) as [(w' & Hch & Hb) _]. exists w'.
    split; [by econstructor|]. congruence.
  - intros w' Hch. inversion Hch as [|? ? w ? (th' & l & m & Ht' & Hl & Hm & Hw) Hch']; subst; [lia|].
    assert (th' = th) as -> by congruence.
    assert (Hd : donates s t w) by (by exists th, l, m).
    destruct (IH w (donates_exists s t w Hc Hd)) as [_ Hle]. specialize (Hle w' Hch').
    assert (donated s n w ≤ r); [|lia]. apply (H3 l); [done|]. exists w. unfold lock_waiters. by rewrite Hm.
Qed.

(** ** Yielding *)
Lemma yielding_priorities s th :
  running s th → same_priorities s (yielding s th).
Proof.
  intros [Ht _]. unfold yielding. case_bool_decide; (split; [done|split; [done|]]);
    exact (insert_status_same s _ th _ Ht).
Qed.

Lemma first_highest_same s s' l t :
  same_priorities s s' → first_highest s' l t → first_highest s l t.
Proof.
  intros Hs (l1 & l2 & -> & H1 & H2). exists l1, l2. split; [done|].
  split; intros t' Ht'; rewrite <- !(given_priority_same s s') by done; auto.
Qed.

(** ** A running system to try the properties on *)

(** Runs the running thread's continuation for [n] entries. *)
Fixpoint advance (n : nat) (s : sys) : sys :=
  match n with
  | O => s
  | S n => match run_next s with Ok (_, s') => advance n s' | Err _ => s end
  end.
(** The running thread calls [o]. *)
Definition call (o : op) (s : sys) : sys :=
  match threads s !! cur s with
  | Some th =>
    if bool_decide (todo th = []) && negb (bool_decide (idle_thread s = Some (cur s))) && user_op o
    then set_threads (<[cur s := with_todo [o] th]> (threads s)) s else s
  | None => s
  end.

Lemma advance_reachable b n : ∀ s, reachable b s → reachable b (advance n s).
Proof.
  induction n as [|n IH]; intros s H; simpl; [done|]. destruct (run_next s) as [[[] s']|e] eqn:E; [|done].
  apply IH. eapply rtc_r; [exact H|]. by constructor.
Qed.
Lemma call_reachable b o s : reachable b s → reachable b (call o s).
Proof.
  intros H. unfold call. destruct (threads s !! cur s) as [th|] eqn:Ht; [|done].
  destruct (_ && user_op o) eqn:E; [|done].
  apply andb_true_iff in E as [[E1%bool_decide_eq_true E2%negb_true_iff]%andb_true_iff E3].
  apply bool_decide_eq_false in E2. eapply rtc_r; [exact H|]. by apply step_call.
Qed.

(** [main] takes lock 5 and creates a thread of higher priority, which starts
    at once and waits for the lock: [main] runs again, on its behalf. *)
Definition demo_free : sys :=
  match lock_init 5 (booted false) with Ok (_, s) => s | Err _ => booted false end.
Definition demo_held : sys := advance 3 (call (LockAcquire 5) demo_free).
Definition demo_created : sys := advance 8 (call (Create 40) demo_held).
Definition demo_waiting : sys := advance 2 (call (LockAcquire 5) demo_created).

Lemma demo_reachable : reachable false demo_waiting.
Proof.
  unfold demo_waiting, demo_created, demo_held. do 3 (apply advance_reachable, call_reachable).
  eapply rtc_r; [apply rtc_refl|]. apply (step_lock_init _ _ 5); by vm_compute.
Qed.

(** ** The properties *)

(** Where the lists say a thread is, given its status: a running thread is in
    none, unless [timer_sleep] has just put it in the sleeping list and has not
    yet blocked it. *)
Definition placed (s : sys) (t : nat) (th : thread) : Prop :=
  match status th with
  | THREAD_RUNNING => t = cur s ∧ ∀ q, t ∈ elems s q ↔ q = QSleep ∧ head (todo th) = Some SleepBlock
  | THREAD_READY => ∀ q, t ∈ elems s q ↔ q = QReady ∧ idle_thread s ≠ Some t
  | THREAD_BLOCKED =>
    match head (todo th) with
    | Some (SemaDown x) => ∀ q, t ∈ elems s q ↔ q = QSema x
    | Some Woken => ∀ q, t ∈ elems s q ↔ q = QSleep
    | _ => ∀ q, t ∉ elems s q
    end
  | THREAD_DYING => ∀ q, t ∉ elems s q
  end.

Lemma inv_placed s t th : inv s → threads s !! t = Some th → placed s t th.
Proof.
  intros [Hc _ _] Ht.
  assert (Hq : ∀ q, t ∈ elems s q ↔ waits_in s t th q).
  { intros q. rewrite (iq_elem s (c_queues s Hc)). split; [intros (th' & Ht' & Hw)|by exists th].
    by assert (th' = th) as -> by congruence. }
  unfold placed. destruct (status th) eqn:Es.
  - split; [by eapply (c_running s Hc)|]. intros q. rewrite Hq. by apply running_waits.
  - intros q. rewrite Hq. destruct q; cbn; rewrite Es; naive_solver.
  - destruct (head (todo th)) as [[]|] eqn:Eh; intros q; rewrite Hq; destruct q; cbn; rewrite Es, ?Eh; naive_solver.
  - intros q. rewrite Hq. destruct q; cbn; rewrite Es; naive_solver.
Qed.

(** C1: in every state the system reaches from [thread_init] and
    [thread_start], under any interleaving of calls and timer interrupts (the
    timer may come between the two halves of [timer_sleep] too), exactly one
    thread runs; every thread is in the one list its status calls for, once,
    and in no other, where a running thread is in no list, but for the sleeping
    list once [timer_sleep] has put it there and until it blocks; and every
    list member is a live thread.  A run ends where a step fails, which is when
    [kernel_steps_safe] says. *)
Theorem every_thread_accounted_for b s (H : reachable b s) :
  (∃ th, threads s !! cur s = Some th ∧ status th = THREAD_RUNNING) ∧
  (∀ t th, threads s !! t = Some th → placed s t th) ∧
  (∀ q, NoDup (elems s q)) ∧ (∀ q t, t ∈ elems s q → is_Some (threads s !! t)).
Proof.
  apply reachable_inv in H. split_and!.
  - apply H.
  - intros t th Ht. by apply inv_placed.
  - intros q. apply (iq_nodup s (c_queues s (i_core s H))).
  - intros q t (th & Ht & _)%(iq_elem s (c_queues s (i_core s H))). by eexists.
Qed.

Lemma every_thread_accounted_for_witness :
  threads demo_waiting !! 2%nat ≠ None ∧ ∀ q, NoDup (elems demo_waiting q).
Proof. split; [by vm_compute|]. apply (every_thread_accounted_for false demo_waiting), demo_reachable. Defined.

(** C2: in every reachable state a lock has at most one holder, which has it
    once in its list; the lock's [holder] field names it, and its semaphore is
    down. *)
Theorem lock_mutual_exclusion b s l t th (H : reachable b s) :
  threads s !! t = Some th → l ∈ locks th →
  holder s !! l = Some t ∧ count_occ Nat.eq_dec (locks th) l = 1%nat ∧
  (∀ m, semas s !! SemLock l = Some m → value m = 0) ∧
  ∀ t' th', threads s !! t' = Some th' → l ∈ locks th' → t' = t.
Proof.
  intros Ht Hl. apply reachable_inv in H. assert (HL := c_locks s (i_core s H)).
  assert (Hpos : ∀ th', l ∈ locks th' → (0 < tok l th')%nat).
  { intros th' Hin. apply list_elem_of_In, (count_occ_In Nat.eq_dec) in Hin. assert (Hx := tok_count l th'). lia. }
  split_and!.
  - by apply (il_holder s HL l t th Ht).
  - assert (H1 := il_one s HL l t th Ht). assert (Hx := tok_count l th).
    apply list_elem_of_In, (count_occ_In Nat.eq_dec) in Hl. lia.
  - intros m Hm. destruct (il_value s HL l m Hm) as [?|[_ Hno]]; [done|].
    specialize (Hpos th Hl). rewrite (Hno t th Ht) in Hpos. lia.
  - intros t' th' Ht' Hl'. eapply (il_unique s HL l t' t th' th); auto.
Qed.

Lemma lock_mutual_exclusion_witness : holder demo_waiting !! 5%nat = Some 0%nat.
Proof.
  apply (lock_mutual_exclusion false demo_waiting 5 0 (MkThread 1 THREAD_RUNNING 0 0 31 [5%nat] 0 false []) demo_reachable).
  - by vm_compute.
  - left.
Defined.



(** A thread other than the idle thread that yields, and is not falling
    asleep, goes to the end of the ready list, and the processor goes to the first of the threads of
    highest (donated) priority in that list, which leaves it. *)
Theorem thread_yield_runs_first_highest b s (H : reachable b s) :
  idle_thread s ≠ Some (cur s) → (∀ th, threads s !! cur s = Some th → awake th) →
  ∃ s', thread_yield s = Ok (tt, s') ∧ inv s' ∧
    first_highest s (ready_list s ++ [cur s]) (cur s') ∧
    ready_list s' = list_remove (cur s') (ready_list s ++ [cur s]).
Proof.
  intros Hid Haw. destruct (reachable_inv b s H) as [Hc Hi (th & Hr)].
  destruct (thread_yield_ok s th Hc Hr (Haw th (proj1 Hr)) Hi) as (s' & Hs & Hinv & Hp & El). exists s'.
  assert (E : ready_list (yielding s th) = ready_list s ++ [cur s])
    by (unfold yielding; by rewrite bool_decide_false).
  unfold picked in Hp. rewrite E in Hp, El. split_and!; [done|done| |done].
  eapply first_highest_same; [by apply (yielding_priorities s th)|].
  by destruct (ready_list s).
Qed.

Lemma thread_yield_runs_first_highest_witness :
  ∃ s', thread_yield demo_waiting = Ok (tt, s') ∧ inv s' ∧
    first_highest demo_waiting (ready_list demo_waiting ++ [cur demo_waiting]) (cur s') ∧
    ready_list s' = list_remove (cur s') (ready_list demo_waiting ++ [cur demo_waiting]).
Proof.
  apply (thread_yield_runs_first_highest false demo_waiting demo_reachable); [by vm_compute|].
  intros th Ht. vm_compute in Ht. by injection Ht as <-.
Defined.

(** C29: without [-mlfqs], the priority of a thread is the highest base
    priority found among the threads that wait for it through a chain of at
    most eight locks, itself included: the thread runs at least at the
    priority of everyone it keeps waiting. *)
Theorem priority_donation_max b s t (H : reachable b s) :
  thread_mlfqs s = false → is_Some (threads s !! t) →
  (∃ w, chain s 8 t w ∧ given_thread_get_priority s t = base_priority s w) ∧
  ∀ w, chain s 8 t w → base_priority s w ≤ given_thread_get_priority s t.
Proof.
  intros Hm Ht. unfold given_thread_get_priority. rewrite Hm.
  by apply donated_max; [apply (reachable_inv b s H)|].
Qed.

Lemma priority_donation_max_witness :
  base_priority demo_waiting 0 = 31 ∧ base_priority demo_waiting 2 ≤ given_thread_get_priority demo_waiting 0.
Proof.
  split; [by vm_compute|].
  apply (priority_donation_max false demo_waiting 0 demo_reachable); [by vm_compute|eexists; vm_compute; reflexivity|].
  econstructor; [|constructor].
  exists (MkThread 1 THREAD_RUNNING 0 0 31 [5%nat] 0 false []), 5%nat, (MkSema 0 [2%nat]).
  split_and!; [by vm_compute|left|by vm_compute|left].
Defined.

(** ** What can still go wrong *)

(** The timer interrupts, when it can. *)
Definition tick (s : sys) : sys := match timer_intr_handler s with Ok (_, s') => s' | Err _ => s end.

Lemma tick_reachable b s : reachable b s → reachable b (tick s).
Proof.
  intros H. unfold tick. destruct (timer_intr_handler s) as [[[] s']|e] eqn:E; [|done].
  eapply rtc_r; [exact H|]. by apply step_tick.
Qed.

(** [main] is in the sleeping list, for one tick or for a hundred, and has not
    yet disabled interrupts; in the second case its time slice is almost over. *)
Definition demo_dozing : sys := advance 1 (call (Sleep 1) (booted false)).
Definition demo_slice : sys := advance 1 (call (Sleep 100) (tick (tick (tick (booted false))))).

(** [timer_sleep] puts the thread in the sleeping list before it disables
    interrupts.  If the timer interrupts in between and the sleep is at most
    one tick long, the handler tries to unblock a running thread and the
    kernel panics; if the tick ends the time slice, the thread's element goes
    into the ready list while it is in the sleeping list; else the thread
    sleeps as it should. *)
Theorem timer_sleep_window_panics :
  (reachable false demo_dozing ∧ timer_intr_handler demo_dozing = Err Panic) ∧
  (reachable false demo_slice ∧ timer_intr_handler demo_slice = Err Fault) ∧
  (sleeping_list (advance 1 demo_dozing) = [0%nat] ∧ cur (advance 1 demo_dozing) = 1%nat).
Proof.
  split_and!; try by vm_compute.
  - apply advance_reachable, call_reachable, rtc_refl.
  - apply advance_reachable, call_reachable. do 3 apply tick_reachable. apply rtc_refl.
Qed.

(** [main] sets its priority to 31 while another thread of that priority is
    ready; the timer preempts it in the middle of the scan, the other thread
    runs and waits for a semaphore, and [main] goes on with an element that is
    no longer in the ready list. *)
Definition demo_scanning : sys :=
  advance 2 (call (SetPriority 31) (advance 8 (call (Create 31) (booted false)))).
Definition demo_lost : sys :=
  advance 1 (call (SemaDown (SemUser 0)) (tick (tick (tick (tick demo_scanning))))).

Theorem set_priority_scan_lost :
  reachable false demo_lost ∧ cur demo_lost = 0%nat ∧ run_next demo_lost = Err Fault.
Proof.
  split_and!; try by vm_compute. unfold demo_lost, demo_scanning.
  apply advance_reachable, call_reachable. do 4 apply tick_reachable.
  do 2 (apply advance_reachable, call_reachable). apply rtc_refl.
Qed.
