(* ===== verification/Bitmap.v ===== *)
(** * Bitmaps: [src/pintos/lib/kernel/bitmap.c]

    A bitmap is its bit count and an array of 32-bit words.  The operations
    are the C functions on that representation: word index, mask, and the
    [orl]/[andl]/[xorl] instructions as bit operations on [Z]; a word index
    outside the array is [Fault], and additions of [size_t] values wrap.  The
    properties relate them to the bits, [bit b i]. *)
From S2P Require Import Prelude CInt.

Open Scope Z_scope.

Module Bitmap.

Definition ELEM_BITS : Z := 32.

(** [SIZE_MAX]. *)
Definition BITMAP_ERROR : Z := 2 ^ 32 - 1.

(** [struct bitmap]. *)
Record bitmap := MkBitmap { bit_cnt : Z; bits : list Z }.

Abbreviation M := (ST bitmap).

Definition elem_idx (bit_idx : Z) : Z := bit_idx / ELEM_BITS.
Definition bit_mask (bit_idx : Z) : Z := u32 (Z.shiftl 1 (bit_idx mod ELEM_BITS)).
Definition elem_cnt (bit_cnt : Z) : Z := u32 (DIV_ROUND_UP bit_cnt ELEM_BITS).
Definition byte_cnt (bit_cnt : Z) : Z := u32 (4 * elem_cnt bit_cnt).
Definition last_mask (b : bitmap) : Z :=
  let last_bits := bit_cnt b mod ELEM_BITS in
  if last_bits =? 0 then u32 (-1) else u32 (u32 (Z.shiftl 1 last_bits) - 1).

(** [b->bits[idx]], read and written. *)
Definition get_elem (idx : Z) : M Z :=
  b ← get; deref (bits b !! Z.to_nat idx).
Definition set_elem (idx v : Z) : M unit :=
  b ← get; deref (bits b !! Z.to_nat idx) ;;
  put (MkBitmap (bit_cnt b) (<[Z.to_nat idx := v]> (bits b))).

(** ** Single bits *)

Definition bitmap_size (b : bitmap) : Z := bit_cnt b.

Definition bitmap_mark (bit_idx : Z) : M unit :=
  let idx := elem_idx bit_idx in
  let mask := bit_mask bit_idx in
  w ← get_elem idx; set_elem idx (Z.lor w mask).

Definition bitmap_reset (bit_idx : Z) : M unit :=
  let idx := elem_idx bit_idx in
  let mask := bit_mask bit_idx in
  w ← get_elem idx; set_elem idx (Z.land w (u32 (Z.lnot mask))).

Definition bitmap_flip (bit_idx : Z) : M unit :=
  let idx := elem_idx bit_idx in
  let mask := bit_mask bit_idx in
  w ← get_elem idx; set_elem idx (Z.lxor w mask).

Definition bitmap_set (idx : Z) (value : bool) : M unit :=
  b ← get; ASSERT (idx <? bit_cnt b) ;;
  if value then bitmap_mark idx else bitmap_reset idx.

Definition bitmap_test (idx : Z) : M bool :=
  b ← get; ASSERT (idx <? bit_cnt b) ;;
  w ← get_elem (elem_idx idx);
  mret (negb (Z.land w (bit_mask idx) =? 0)).

(** ** Multiple bits *)

(** The assertions shared by the range operations. *)
Definition assert_range (start cnt : Z) : M unit :=
  b ← get; ASSERT (start <=? bit_cnt b) ;; ASSERT (u32 (start + cnt) <=? bit_cnt b).

(** [for (i = 0; i < cnt; i++) bitmap_set (b, start + i, value)], [n]
    iterations left. *)
Fixpoint set_multiple_loop (n : nat) (i start : Z) (value : bool) : M unit :=
  match n with
  | O => mret tt
  | S n => bitmap_set (u32 (start + i)) value ;; set_multiple_loop n (i + 1) start value
  end.

Definition bitmap_set_multiple (start cnt : Z) (value : bool) : M unit :=
  assert_range start cnt ;; set_multiple_loop (Z.to_nat cnt) 0 start value.

Definition bitmap_set_all (value : bool) : M unit :=
  b ← get; bitmap_set_multiple 0 (bitmap_size b) value.

Fixpoint count_loop (n : nat) (i start : Z) (value : bool) (value_cnt : Z) : M Z :=
  match n with
  | O => mret value_cnt
  | S n =>
    t ← bitmap_test (u32 (start + i));
    count_loop n (i + 1) start value (if eqb t value then u32 (value_cnt + 1) else value_cnt)
  end.

Definition bitmap_count (start cnt : Z) (value : bool) : M Z :=
  assert_range start cnt ;; count_loop (Z.to_nat cnt) 0 start value 0.

Fixpoint contains_loop (n : nat) (i start : Z) (value : bool) : M bool :=
  match n with
  | O => mret false
  | S n =>
    t ← bitmap_test (u32 (start + i));
    if eqb t value then mret true else contains_loop n (i + 1) start value
  end.

Definition bitmap_contains (start cnt : Z) (value : bool) : M bool :=
  assert_range start cnt ;; contains_loop (Z.to_nat cnt) 0 start value.

Definition bitmap_any (start cnt : Z) : M bool := bitmap_contains start cnt true.
Definition bitmap_none (start cnt : Z) : M bool :=
  c ← bitmap_contains start cnt true; mret (negb c).
Definition bitmap_all (start cnt : Z) : M bool :=
  c ← bitmap_contains start cnt false; mret (negb c).

(** ** Searching *)

Fixpoint scan_loop (n : nat) (i cnt : Z) (value : bool) : M Z :=
  match n with
  | O => mret BITMAP_ERROR
  | S n =>
    c ← bitmap_contains i cnt (negb value);
    if negb c then mret i else scan_loop n (i + 1) cnt value
  end.

Definition bitmap_scan (start cnt : Z) (value : bool) : M Z :=
  b ← get; ASSERT (start <=? bit_cnt b) ;;
  if cnt <=? bit_cnt b then
    let last := bit_cnt b - cnt in
    scan_loop (Z.to_nat (last + 1 - start)) start cnt value
  else mret BITMAP_ERROR.

Definition bitmap_scan_and_flip (start cnt : Z) (value : bool) : M Z :=
  idx ← bitmap_scan start cnt value;
  if negb (idx =? BITMAP_ERROR) then bitmap_set_multiple idx cnt (negb value) ;; mret idx
  else mret idx.

(** ** Creation: [bitmap_create] when its two allocations succeed, with
    arbitrary initial contents [junk] of the allocated words. *)
Definition bitmap_create (bit_cnt : Z) (junk : list Z) : res bitmap :=
  match bitmap_set_all false
          (MkBitmap bit_cnt (take (Z.to_nat (elem_cnt bit_cnt)) junk)) with
  | Ok (_, b) => Ok b
  | Err e => Err e
  end.

Definition bitmap_file_size (b : bitmap) : Z := byte_cnt (bit_cnt b).

(** ** Bits and well-formedness *)

Definition bit (b : bitmap) (i : Z) : bool :=
  Z.testbit (default 0 (bits b !! Z.to_nat (elem_idx i))) (i mod ELEM_BITS).

(** The representation invariant: the words cover the bits and are words. *)
Definition wf (b : bitmap) : Prop :=
  0 ≤ bit_cnt b ≤ 2 ^ 32 - 32 ∧ length (bits b) = Z.to_nat (elem_cnt (bit_cnt b)) ∧
  Forall in_u32 (bits b).

Lemma elem_idx_bound c i :
  0 ≤ c ≤ 2 ^ 32 - 32 → 0 ≤ i < c → (Z.to_nat (elem_idx i) < Z.to_nat (elem_cnt c))%nat.
Proof.
  intros Hc Hi. unfold elem_idx, elem_cnt, ELEM_BITS.
  rewrite DIV_ROUND_UP_div by lia. rewrite u32_id by (unfold in_u32; divlia). divlia.
Qed.

Lemma wf_lookup b i : wf b → 0 ≤ i < bit_cnt b →
  ∃ w, bits b !! Z.to_nat (elem_idx i) = Some w ∧ in_u32 w.
Proof.
  intros (Hc & Hl & Hw) Hi.
  destruct (lookup_lt_is_Some_2 (bits b) (Z.to_nat (elem_idx i))) as [w Hlw].
  { rewrite Hl. apply elem_idx_bound; lia. }
  exists w. split; [done|]. by eapply (Forall_lookup_1 _ _ _ _ Hw).
Qed.

Lemma bit_mask_val i : bit_mask i = Z.shiftl 1 (i mod ELEM_BITS).
Proof.
  unfold bit_mask. apply u32_id. unfold in_u32, ELEM_BITS.
  pose proof (Z.mod_pos_bound i 32 ltac:(lia)). rewrite Z.shiftl_mul_pow2 by lia.
  pose proof (Z.pow_lt_mono_r 2 (i mod 32) 32). pose proof (Z.pow_pos_nonneg 2 (i mod 32)). lia.
Qed.

Lemma bit_mask_testbit i j :
  0 ≤ j → Z.testbit (bit_mask i) j = (j =? i mod ELEM_BITS).
Proof.
  intros Hj. rewrite bit_mask_val. unfold ELEM_BITS.
  pose proof (Z.mod_pos_bound i 32 ltac:(lia)).
  rewrite Z.shiftl_1_l, Z.pow2_bits_eqb by lia. apply Z.eqb_sym.
Qed.

(** Two bit numbers with the same word and the same position are equal. *)
Lemma bit_position i j :
  0 ≤ i → 0 ≤ j → Z.to_nat (elem_idx i) = Z.to_nat (elem_idx j) →
  i mod ELEM_BITS = j mod ELEM_BITS → i = j.
Proof. unfold elem_idx, ELEM_BITS. intros. divlia. Qed.

Lemma in_u32_of_bits w :
  0 ≤ w → (∀ j, 32 ≤ j → Z.testbit w j = false) → in_u32 w.
Proof.
  intros H0 Hj. unfold in_u32. split; [done|].
  destruct (Z.lt_ge_cases w (2 ^ 32)); [done|exfalso].
  pose proof (Z.log2_le_mono (2 ^ 32) w ltac:(lia)) as Hl. rewrite Z.log2_pow2 in Hl by lia.
  specialize (Hj (Z.log2 w) Hl). rewrite Z.bit_log2 in Hj by lia. done.
Qed.

Lemma in_u32_high w j : in_u32 w → 32 ≤ j → Z.testbit w j = false.
Proof.
  unfold in_u32. intros Hw Hj. rewrite <- (Z.mod_small w (2 ^ 32)) by done.
  by apply Z.mod_pow2_bits_high.
Qed.

(** ** Single-bit operations on the bits *)

Definition set_word (b : bitmap) (i w : Z) : bitmap :=
  MkBitmap (bit_cnt b) (<[Z.to_nat (elem_idx i) := w]> (bits b)).

(** [b'] is [b] with bit [i] set to [v]. *)
Definition updated (b b' : bitmap) (upd : Z → option bool) : Prop :=
  wf b' ∧ bit_cnt b' = bit_cnt b ∧
  ∀ k, 0 ≤ k < bit_cnt b → bit b' k = match upd k with Some v => v | None => bit b k end.

Definition one (i : Z) (v : bool) (k : Z) : option bool := if k =? i then Some v else None.
Definition range (start cnt : Z) (v : bool) (k : Z) : option bool :=
  if (start <=? k) && (k <? start + cnt) then Some v else None.

Lemma elem_access b i w :
  wf b → 0 ≤ i < bit_cnt b → bits b !! Z.to_nat (elem_idx i) = Some w →
  get_elem (elem_idx i) b = Ok (w, b) ∧
  ∀ w', set_elem (elem_idx i) w' b = Ok (tt, set_word b i w').
Proof.
  intros _ _ Hw. unfold get_elem, set_elem, get, deref, mbind, ST_bind. simpl. rewrite Hw. done.
Qed.

Lemma set_word_updated b i w w' v :
  wf b → 0 ≤ i < bit_cnt b → bits b !! Z.to_nat (elem_idx i) = Some w → in_u32 w' →
  (∀ j, 0 ≤ j < 32 → Z.testbit w' j = if j =? i mod ELEM_BITS then v else Z.testbit w j) →
  updated b (set_word b i w') (one i v).
Proof.
  intros (Hc & Hl & Hw) Hi Hlw Hw' Hb. split; [|split; [done|]].
  - split; [done|]. split; simpl.
    + by rewrite length_insert.
    + by apply Forall_insert.
  - intros k Hk. unfold bit, set_word, one. simpl.
    assert (Hlt : (Z.to_nat (elem_idx i) < length (bits b))%nat) by (by apply lookup_lt_Some in Hlw).
    destruct (decide (Z.to_nat (elem_idx i) = Z.to_nat (elem_idx k))) as [E|E].
    + rewrite <- E, list_lookup_insert_eq, Hlw by done. simpl.
      rewrite Hb by (apply Z.mod_pos_bound; done).
      destruct (Z.eqb_spec (k mod ELEM_BITS) (i mod ELEM_BITS)) as [E'|E'].
      * rewrite (bit_position k i) by (done || lia). by rewrite Z.eqb_refl.
      * destruct (Z.eqb_spec k i); [congruence|done].
    + rewrite list_lookup_insert_ne by done. destruct (Z.eqb_spec k i); [congruence|done].
Qed.

Lemma bitmap_mark_ok b i : wf b → 0 ≤ i < bit_cnt b →
  ∃ b', bitmap_mark i b = Ok (tt, b') ∧ updated b b' (one i true).
Proof.
  intros Hwf Hi. destruct (wf_lookup b i Hwf Hi) as (w & Hlw & Hw).
  destruct (elem_access b i w Hwf Hi Hlw) as [Hg Hs].
  unfold bitmap_mark. run_with Hg. rewrite Hs. eexists. split; [done|].
  apply (set_word_updated _ _ w); try done.
  - apply in_u32_of_bits.
    + apply Z.lor_nonneg. split; [apply Hw|]. rewrite bit_mask_val. by apply Z.shiftl_nonneg.
    + intros j Hj. rewrite Z.lor_spec, (in_u32_high w j) by done.
      rewrite bit_mask_testbit by lia. unfold ELEM_BITS.
      pose proof (Z.mod_pos_bound i 32 ltac:(lia)). destruct (Z.eqb_spec j (i mod 32)); [lia|done].
  - intros j Hj. rewrite Z.lor_spec, bit_mask_testbit by lia.
    destruct (Z.eqb_spec j (i mod ELEM_BITS)); [apply orb_true_r|apply orb_false_r].
Qed.

Lemma u32_lnot_testbit m j : 0 ≤ j < 32 → Z.testbit (u32 (Z.lnot m)) j = negb (Z.testbit m j).
Proof. intros Hj. unfold u32. rewrite Z.mod_pow2_bits_low, Z.lnot_spec by lia. done. Qed.

Lemma bitmap_reset_ok b i : wf b → 0 ≤ i < bit_cnt b →
  ∃ b', bitmap_reset i b = Ok (tt, b') ∧ updated b b' (one i false).
Proof.
  intros Hwf Hi. destruct (wf_lookup b i Hwf Hi) as (w & Hlw & Hw).
  destruct (elem_access b i w Hwf Hi Hlw) as [Hg Hs].
  unfold bitmap_reset. run_with Hg. rewrite Hs. eexists. split; [done|].
  apply (set_word_updated _ _ w); try done.
  - apply in_u32_of_bits.
    + apply Z.land_nonneg. left. apply Hw.
    + intros j Hj. by rewrite Z.land_spec, (in_u32_high w j).
  - intros j Hj. rewrite Z.land_spec, u32_lnot_testbit, bit_mask_testbit by lia.
    destruct (Z.eqb_spec j (i mod ELEM_BITS)); [apply andb_false_r|apply andb_true_r].
Qed.

Lemma bitmap_flip_ok b i : wf b → 0 ≤ i < bit_cnt b →
  ∃ b', bitmap_flip i b = Ok (tt, b') ∧ updated b b' (one i (negb (bit b i))).
Proof.
  intros Hwf Hi. destruct (wf_lookup b i Hwf Hi) as (w & Hlw & Hw).
  destruct (elem_access b i w Hwf Hi Hlw) as [Hg Hs].
  unfold bitmap_flip. run_with Hg. rewrite Hs. eexists. split; [done|].
  apply (set_word_updated _ _ w); try done.
  - apply in_u32_of_bits.
    + apply Z.lxor_nonneg. rewrite bit_mask_val. split; intros _; [by apply Z.shiftl_nonneg|apply Hw].
    + intros j Hj. rewrite Z.lxor_spec, (in_u32_high w j), bit_mask_testbit by (done || lia).
      unfold ELEM_BITS. pose proof (Z.mod_pos_bound i 32 ltac:(lia)).
      destruct (Z.eqb_spec j (i mod 32)); [lia|done].
  - intros j Hj. rewrite Z.lxor_spec, bit_mask_testbit by lia. unfold bit. rewrite Hlw. simpl.
    destruct (Z.eqb_spec j (i mod ELEM_BITS)) as [->|]; [apply xorb_true_r|apply xorb_false_r].
Qed.

Lemma bitmap_set_ok b i v : wf b → 0 ≤ i < bit_cnt b →
  ∃ b', bitmap_set i v b = Ok (tt, b') ∧ updated b b' (one i v).
Proof.
  intros Hwf Hi. unfold bitmap_set.
  erewrite run_bind_ok; [|reflexivity]. run_assert; [|lia].
  destruct v; [by apply bitmap_mark_ok|by apply bitmap_reset_ok].
Qed.

(** Masking out one bit tests it. *)
Lemma land_mask_zero w k : 0 ≤ k → (Z.land w (Z.shiftl 1 k) =? 0) = negb (Z.testbit w k).
Proof.
  intros Hk. destruct (Z.eqb_spec (Z.land w (Z.shiftl 1 k)) 0) as [E|E].
  - apply (f_equal (λ x, Z.testbit x k)) in E.
    rewrite Z.land_spec, Z.shiftl_1_l, Z.pow2_bits_true, andb_true_r, Z.bits_0 in E by lia.
    by rewrite E.
  - destruct (Z.testbit w k) eqn:Eb; [done|]. exfalso. apply E. apply Z.bits_inj'. intros n Hn.
    rewrite Z.land_spec, Z.bits_0, Z.shiftl_1_l, Z.pow2_bits_eqb by lia.
    destruct (Z.eqb_spec k n); [subst; by rewrite Eb|apply andb_false_r].
Qed.

Lemma bitmap_test_ok b i : wf b → 0 ≤ i < bit_cnt b → bitmap_test i b = Ok (bit b i, b).
Proof.
  intros Hwf Hi. destruct (wf_lookup b i Hwf Hi) as (w & Hlw & Hw).
  destruct (elem_access b i w Hwf Hi Hlw) as [Hg _]. unfold bitmap_test.
  erewrite run_bind_ok; [|reflexivity]. run_assert; [|lia]. run_with Hg.
  rewrite bit_mask_val, land_mask_zero by (apply Z.mod_pos_bound; done).
  rewrite negb_involutive. unfold bit. by rewrite Hlw.
Qed.

Lemma bitmap_test_out b i : bit_cnt b ≤ i → bitmap_test i b = Err Panic.
Proof.
  intros Hi. unfold bitmap_test. erewrite run_bind_ok; [|reflexivity].
  apply run_bind_err, run_assert_fail. lia.
Qed.

(** ** Ranges *)

Lemma updated_refl b : wf b → updated b b (λ _, None).
Proof. done. Qed.

Lemma assert_range_ok b start cnt :
  wf b → 0 ≤ start → 0 ≤ cnt → start + cnt ≤ bit_cnt b → assert_range start cnt b = Ok (tt, b).
Proof.
  intros (Hc & _) H0 H1 H2. unfold assert_range. erewrite run_bind_ok; [|reflexivity].
  run_assert; [|lia]. apply run_assert. rewrite u32_id by (unfold in_u32; lia). lia.
Qed.

Lemma set_multiple_loop_ok n b i start v :
  wf b → 0 ≤ i → 0 ≤ start → start + i + Z.of_nat n ≤ bit_cnt b →
  ∃ b', set_multiple_loop n i start v b = Ok (tt, b') ∧
        updated b b' (range (start + i) (Z.of_nat n) v).
Proof.
  revert b i. induction n as [|n IH]; intros b i Hwf Hi Hs Hn; cbn [set_multiple_loop].
  - exists b. split; [done|]. split; [done|]. split; [done|]. intros k Hk. unfold range.
    destruct (Z.leb_spec (start + i) k), (Z.ltb_spec k (start + i + Z.of_nat 0)); simpl; try done; lia.
  - rewrite u32_id by (destruct Hwf as [? _]; unfold in_u32; lia).
    destruct (bitmap_set_ok b (start + i) v Hwf) as (b1 & Hrun & Hwf1 & Hc1 & Hb1); [lia|].
    run_with Hrun. destruct (IH b1 (i + 1) Hwf1) as (b2 & Hrun2 & Hwf2 & Hc2 & Hb2); [lia..|].
    exists b2. split; [done|]. split; [done|]. split; [congruence|]. intros k Hk.
    rewrite Hb2 by lia. unfold range, one in *. rewrite Hb1 by lia.
    destruct (Z.leb_spec (start + (i + 1)) k), (Z.ltb_spec k (start + (i + 1) + Z.of_nat n)),
      (Z.leb_spec (start + i) k), (Z.ltb_spec k (start + i + Z.of_nat (S n))), (Z.eqb_spec k (start + i));
      simpl; try done; lia.
Qed.

Lemma bitmap_set_multiple_ok b start cnt v :
  wf b → 0 ≤ start → 0 ≤ cnt → start + cnt ≤ bit_cnt b →
  ∃ b', bitmap_set_multiple start cnt v b = Ok (tt, b') ∧ updated b b' (range start cnt v).
Proof.
  intros Hwf H0 H1 H2. unfold bitmap_set_multiple. run_with (assert_range_ok b start cnt Hwf H0 H1 H2).
  destruct (set_multiple_loop_ok (Z.to_nat cnt) b 0 start v Hwf) as (b' & Hrun & Hu); [lia..|].
  rewrite Z.add_0_r, Z2Nat.id in Hu by lia. eauto.
Qed.

(** Is some bit of the range equal to [v]? *)
Definition exists_bit (b : bitmap) (start cnt : Z) (v : bool) : bool :=
  existsb (λ i, eqb (bit b (start + Z.of_nat i)) v) (List.seq 0 (Z.to_nat cnt)).

Lemma contains_loop_ok n b i start v :
  wf b → 0 ≤ i → 0 ≤ start → start + i + Z.of_nat n ≤ bit_cnt b →
  contains_loop n i start v b
  = Ok (existsb (λ k, eqb (bit b (start + Z.of_nat k)) v) (List.seq (Z.to_nat i) n), b).
Proof.
  revert i. induction n as [|n IH]; intros i Hwf Hi Hs Hn; [done|].
  cbn [contains_loop List.seq existsb]. rewrite u32_id by (destruct Hwf as [? _]; unfold in_u32; lia).
  run_with (bitmap_test_ok b (start + i) Hwf ltac:(lia)).
  rewrite Z2Nat.id by done. destruct (eqb (bit b (start + i)) v); [done|].
  rewrite IH by (done || lia). do 3 f_equal. by rewrite <- Z2Nat.inj_succ by lia.
Qed.

Lemma bitmap_contains_ok b start cnt v :
  wf b → 0 ≤ start → 0 ≤ cnt → start + cnt ≤ bit_cnt b →
  bitmap_contains start cnt v b = Ok (exists_bit b start cnt v, b).
Proof.
  intros Hwf H0 H1 H2. unfold bitmap_contains. run_with (assert_range_ok b start cnt Hwf H0 H1 H2).
  apply (contains_loop_ok _ b 0 start v); (done || lia).
Qed.

Lemma exists_bit_true b start cnt v :
  0 ≤ cnt → exists_bit b start cnt v = true ↔ ∃ k, start ≤ k < start + cnt ∧ bit b k = v.
Proof.
  intros Hc. unfold exists_bit. rewrite existsb_exists. split.
  - intros (k & Hk%in_seq & He%eqb_prop). exists (start + Z.of_nat k). split; [lia|done].
  - intros (k & Hk & He). exists (Z.to_nat (k - start)). split; [apply in_seq; lia|].
    rewrite Z2Nat.id by lia. replace (start + (k - start)) with k by lia. by rewrite He, eqb_reflx.
Qed.

Lemma exists_bit_false b start cnt v :
  0 ≤ cnt → exists_bit b start cnt v = false ↔ ∀ k, start ≤ k < start + cnt → bit b k = negb v.
Proof.
  intros Hc. split.
  - intros He k Hk. destruct (bit b k) eqn:Eb, v; try done;
      (assert (exists_bit b start cnt _ = true) as Ht by (apply exists_bit_true; eauto)); congruence.
  - intros H. destruct (exists_bit b start cnt v) eqn:E; [|done]. exfalso.
    apply exists_bit_true in E as (k & Hk & He); [|done]. rewrite H in He by done. by destruct v.
Qed.

(** ** Scanning *)

(** [i] starts a group of [cnt] bits equal to [v]. *)
Definition group (b : bitmap) (cnt : Z) (v : bool) (i : Z) : Prop :=
  ∀ k, i ≤ k < i + cnt → bit b k = v.

Lemma scan_loop_ok n b i cnt v :
  wf b → 0 ≤ i → 0 ≤ cnt → i + Z.of_nat n + cnt ≤ bit_cnt b + 1 →
  ∃ r, scan_loop n i cnt v b = Ok (r, b) ∧
    ((i ≤ r < i + Z.of_nat n ∧ group b cnt v r ∧ ∀ j, i ≤ j < r → ¬ group b cnt v j) ∨
     (r = BITMAP_ERROR ∧ ∀ j, i ≤ j < i + Z.of_nat n → ¬ group b cnt v j)).
Proof.
  revert i. induction n as [|n IH]; intros i Hwf Hi Hc Hn; cbn [scan_loop].
  - exists BITMAP_ERROR. split; [done|]. right. split; [done|]. intros. lia.
  - run_with (bitmap_contains_ok b i cnt (negb v) Hwf Hi Hc ltac:(lia)).
    destruct (exists_bit b i cnt (negb v)) eqn:E; cbn [negb].
    + assert (Hng : ¬ group b cnt v i).
      { intros Hg. apply exists_bit_true in E as (k & Hk & He); [|done].
        rewrite Hg in He by done. by destruct v. }
      destruct (IH (i + 1)) as (r & Hrun & Hr); [done|lia..|]. exists r. split; [done|].
      assert (Hstep : ∀ j, i ≤ j → i + 1 ≤ j ∨ j = i) by lia.
      destruct Hr as [(Hr & Hg & Hmin) | (Hr & Hnone)]; [left|right].
      * split; [lia|]. split; [done|]. intros j Hj. destruct (Hstep j); [lia| |by subst].
        apply Hmin. lia.
      * split; [done|]. intros j Hj. destruct (Hstep j); [lia| |by subst]. apply Hnone. lia.
    + exists i. split; [done|]. left. split; [lia|]. split; [|intros; lia].
      intros k Hk. apply exists_bit_false with (k := k) in E; [|done|done]. by rewrite negb_involutive in E.
Qed.

Lemma bitmap_scan_ok b start cnt v :
  wf b → 0 ≤ start ≤ bit_cnt b → 0 ≤ cnt →
  ∃ r, bitmap_scan start cnt v b = Ok (r, b) ∧
    ((start ≤ r ∧ r + cnt ≤ bit_cnt b ∧ group b cnt v r ∧
      ∀ i, start ≤ i < r → ¬ group b cnt v i) ∨
     (r = BITMAP_ERROR ∧ ∀ i, start ≤ i → i + cnt ≤ bit_cnt b → ¬ group b cnt v i)).
Proof.
  intros Hwf Hs Hc. unfold bitmap_scan. erewrite run_bind_ok; [|reflexivity]. run_assert; [|lia].
  destruct (Z.leb_spec cnt (bit_cnt b)); cycle 1.
  { exists BITMAP_ERROR. split; [done|]. right. split; [done|]. intros. lia. }
  destruct (Z.le_gt_cases start (bit_cnt b - cnt)); cycle 1.
  { rewrite Z2Nat.nonpos by lia. exists BITMAP_ERROR. split; [done|]. right.
    split; [done|]. intros. lia. }
  destruct (scan_loop_ok (Z.to_nat (bit_cnt b - cnt + 1 - start)) b start cnt v)
    as (r & Hrun & Hr); [done|lia..|]. exists r. split; [done|].
  rewrite Z2Nat.id in Hr by lia. destruct Hr as [(H1 & H2 & H3) | (H1 & H2)]; [left|right].
  - split_and!; (done || lia).
  - split; [done|]. intros i Hi Hi'. apply H2. lia.
Qed.

(** ** Counting *)

Definition count_bits (b : bitmap) (start : Z) (v : bool) (ks : list nat) : Z :=
  Z.of_nat (length (List.filter (λ k, eqb (bit b (start + Z.of_nat k)) v) ks)).

Lemma count_loop_ok n b i start v acc :
  wf b → 0 ≤ i → 0 ≤ start → start + i + Z.of_nat n ≤ bit_cnt b → 0 ≤ acc ≤ i →
  count_loop n i start v acc b
  = Ok (acc + count_bits b start v (List.seq (Z.to_nat i) n), b).
Proof.
  revert i acc. induction n as [|n IH]; intros i acc Hwf Hi Hs Hn Ha.
  - simpl. unfold count_bits. simpl. by rewrite Z.add_0_r.
  - cbn [count_loop]. assert (Hc := proj1 Hwf).
    rewrite (u32_id (start + i)) by (unfold in_u32; lia).
    run_with (bitmap_test_ok b (start + i) Hwf ltac:(lia)).
    rewrite u32_id by (unfold in_u32; lia).
    rewrite IH by (try done; try lia; destruct (eqb (bit b (start + i)) v); lia).
    do 2 f_equal. unfold count_bits. cbn [List.seq List.filter].
    rewrite Z2Nat.id, <- Z2Nat.inj_succ by done. unfold Z.succ.
    destruct (eqb (bit b (start + i)) v); cbn [length]; lia.
Qed.

(** ** Properties *)

(** Writing a range of bits and reading any bit back: exactly the bits of
    the range have the new value, every other bit keeps its value, and the
    representation stays well formed, so no mask or word index is ever wrong.
    Toggling a single bit inverts that bit alone. *)
Theorem bitmap_write_read b start cnt v :
  wf b → 0 ≤ start → 0 ≤ cnt → start + cnt ≤ bit_cnt b →
  (∃ b', bitmap_set_multiple start cnt v b = Ok (tt, b') ∧ wf b' ∧
     ∀ k, 0 ≤ k < bit_cnt b →
       bitmap_test k b' = Ok (if (start <=? k) && (k <? start + cnt) then v else bit b k, b')) ∧
  (∀ i, 0 ≤ i < bit_cnt b → ∃ b', bitmap_flip i b = Ok (tt, b') ∧ wf b' ∧
     ∀ k, 0 ≤ k < bit_cnt b →
       bitmap_test k b' = Ok (if k =? i then negb (bit b i) else bit b k, b')).
Proof.
  intros Hwf H0 H1 H2. split.
  - destruct (bitmap_set_multiple_ok b start cnt v Hwf H0 H1 H2) as (b' & Hrun & Hwf' & Hc & Hb).
    exists b'. split; [done|]. split; [done|]. intros k Hk.
    rewrite bitmap_test_ok, Hb by (done || lia). unfold range. by destruct (_ && _).
  - intros i Hi. destruct (bitmap_flip_ok b i Hwf Hi) as (b' & Hrun & Hwf' & Hc & Hb).
    exists b'. split; [done|]. split; [done|]. intros k Hk.
    rewrite bitmap_test_ok, Hb by (done || lia). unfold one. by destruct (k =? i).
Qed.

Definition demo_bitmap : bitmap := MkBitmap 70 [5; 2 ^ 31; 33].

Lemma demo_bitmap_wf : wf demo_bitmap.
Proof. split; [vm_compute; split; congruence|]. split; [done|]. repeat constructor; done. Qed.

Lemma bitmap_write_read_witness :
  ∃ b', bitmap_set_multiple 30 10 true demo_bitmap = Ok (tt, b') ∧ wf b' ∧
    bitmap_test 31 b' = Ok (true, b') ∧ bitmap_test 29 b' = Ok (false, b').
Proof.
  destruct (bitmap_write_read demo_bitmap 30 10 true) as [(b' & H1 & H2 & H3) _];
    [exact demo_bitmap_wf | vm_compute; congruence..|].
  exists b'. split; [exact H1|]. split; [exact H2|]. split; apply H3; vm_compute; intuition congruence.
Defined.

(** [bitmap_scan_and_flip] is a first-fit allocator: it returns the
    least position at or after [start] where [cnt] consecutive bits equal
    [value], and inverts exactly those bits; it returns [BITMAP_ERROR], with
    the bitmap unchanged, only when no such position exists. *)
Theorem bitmap_scan_and_flip_first_fit b start cnt v :
  wf b → 0 ≤ start ≤ bit_cnt b → 0 ≤ cnt →
  ∃ r b', bitmap_scan_and_flip start cnt v b = Ok (r, b') ∧ wf b' ∧
    ((r = BITMAP_ERROR ∧ b' = b ∧
      ∀ i, start ≤ i → i + cnt ≤ bit_cnt b → ¬ group b cnt v i) ∨
     (start ≤ r ∧ r + cnt ≤ bit_cnt b ∧ group b cnt v r ∧
      (∀ i, start ≤ i < r → ¬ group b cnt v i) ∧
      ∀ k, 0 ≤ k < bit_cnt b →
        bit b' k = if (r <=? k) && (k <? r + cnt) then negb v else bit b k)).
Proof.
  intros Hwf Hs Hc. assert (Hcnt := proj1 Hwf). unfold bitmap_scan_and_flip.
  destruct (bitmap_scan_ok b start cnt v Hwf Hs Hc) as (r & Hrun & [(H1 & H2 & H3 & H4) | (-> & H1)]).
  - run_with Hrun. unfold BITMAP_ERROR. destruct (Z.eqb_spec r (2 ^ 32 - 1)); [lia|]. cbn [negb].
    destruct (bitmap_set_multiple_ok b r cnt (negb v) Hwf) as (b' & Hrun' & Hwf' & Hc' & Hb); [lia..|].
    exists r, b'. run_with Hrun'. split; [done|]. split; [done|]. right.
    split_and!; try done. intros k Hk. rewrite Hb by done. unfold range. by destruct (_ && _).
  - run_with Hrun. exists BITMAP_ERROR, b. split; [done|]. split; [done|]. left. done.
Qed.

Lemma bitmap_scan_and_flip_first_fit_witness :
  ∃ r b', bitmap_scan_and_flip 1 2 false demo_bitmap = Ok (r, b') ∧ r = 3 ∧ wf b'.
Proof.
  destruct (bitmap_scan_and_flip_first_fit demo_bitmap 1 2 false) as (r & b' & H1 & H2 & _);
    [exact demo_bitmap_wf | vm_compute; intuition congruence..|].
  exists r, b'. split; [exact H1|]. split; [|exact H2].
  assert (E : bitmap_scan_and_flip 1 2 false demo_bitmap = Ok (3, MkBitmap 70 [29; 2 ^ 31; 33]))
    by (vm_compute; reflexivity).
  rewrite E in H1. injection H1. congruence.
Defined.

(** The comment above [bitmap_scan_and_flip] says that it returns 0 when
    [CNT] is zero; it returns [START]. *)
Lemma bitmap_scan_and_flip_zero b start v :
  wf b → 0 ≤ start ≤ bit_cnt b → bitmap_scan_and_flip start 0 v b = Ok (start, b).
Proof.
  intros Hwf Hs. assert (Hcnt := proj1 Hwf). unfold bitmap_scan_and_flip.
  destruct (bitmap_scan_ok b start 0 v Hwf Hs ltac:(lia)) as (r & Hrun & Hr).
  assert (Hg : ∀ i, group b 0 v i) by (intros i k Hk; lia).
  assert (r = start) as ->.
  { destruct Hr as [(H1 & _ & _ & H2) | (_ & H2)].
    - destruct (Z.eq_dec r start); [done|]. exfalso. apply (H2 start); [lia|done].
    - exfalso. apply (H2 start); [lia..|done]. }
  run_with Hrun. unfold BITMAP_ERROR. destruct (Z.eqb_spec start (2 ^ 32 - 1)); [lia|]. cbn [negb].
  unfold bitmap_set_multiple. erewrite run_bind_ok; [reflexivity|].
  erewrite run_bind_ok; [|apply assert_range_ok; (done || lia)]. reflexivity.
Qed.

Lemma bitmap_create_ok c junk :
  0 ≤ c ≤ 2 ^ 32 - 32 → (Z.to_nat (elem_cnt c) ≤ length junk)%nat → Forall in_u32 junk →
  ∃ b', bitmap_create c junk = Ok b' ∧ wf b' ∧ bit_cnt b' = c ∧ ∀ k, 0 ≤ k < c → bit b' k = false.
Proof.
  intros Hc Hj Hju. set (b0 := MkBitmap c (take (Z.to_nat (elem_cnt c)) junk)).
  assert (Hwf0 : wf b0).
  { split; [done|]. split; simpl; [rewrite length_take; lia|by apply Forall_take]. }
  destruct (bitmap_set_multiple_ok b0 0 c false Hwf0) as (b' & Hrun & Hwf' & Hc' & Hb); [simpl; lia..|].
  exists b'. unfold bitmap_create, bitmap_set_all. fold b0.
  erewrite run_bind_ok; [|reflexivity]. unfold bitmap_size. simpl bit_cnt at 1. rewrite Hrun.
  split; [done|]. split; [done|]. split; [done|]. intros k Hk. rewrite Hb by done. unfold range.
  destruct (Z.leb_spec 0 k), (Z.ltb_spec k (0 + c)); try lia. done.
Qed.

(** The range queries count and test exactly the bits of the range, and
    a fresh bitmap is well formed with every bit clear whatever the allocated
    words contained. *)
Theorem bitmap_queries_correct b start cnt v :
  wf b → 0 ≤ start → 0 ≤ cnt → start + cnt ≤ bit_cnt b →
  bitmap_count start cnt v b = Ok (count_bits b start v (List.seq 0 (Z.to_nat cnt)), b) ∧
  (∃ r, bitmap_any start cnt b = Ok (r, b) ∧ (r = true ↔ ∃ k, start ≤ k < start + cnt ∧ bit b k = true)) ∧
  (∃ r, bitmap_none start cnt b = Ok (r, b) ∧ (r = true ↔ group b cnt false start)) ∧
  (∃ r, bitmap_all start cnt b = Ok (r, b) ∧ (r = true ↔ group b cnt true start)) ∧
  (∀ junk, (length (bits b) ≤ length junk)%nat → Forall in_u32 junk →
     ∃ b', bitmap_create (bit_cnt b) junk = Ok b' ∧ wf b' ∧ bit_cnt b' = bit_cnt b ∧
           ∀ k, 0 ≤ k < bit_cnt b → bit b' k = false).
Proof.
  intros Hwf H0 H1 H2. assert (Hneg : ∀ v', exists_bit b start cnt v' = false ↔ group b cnt (negb v') start)
    by (intros; by apply exists_bit_false).
  split_and!.
  - unfold bitmap_count. run_with (assert_range_ok b start cnt Hwf H0 H1 H2).
    by rewrite (count_loop_ok _ b 0 start v 0) by (done || lia).
  - eexists. split; [by apply bitmap_contains_ok|]. by apply exists_bit_true.
  - eexists. unfold bitmap_none. run_with (bitmap_contains_ok b start cnt true Hwf H0 H1 H2).
    split; [done|]. rewrite negb_true_iff. apply Hneg.
  - eexists. unfold bitmap_all. run_with (bitmap_contains_ok b start cnt false Hwf H0 H1 H2).
    split; [done|]. rewrite negb_true_iff. apply Hneg.
  - intros junk Hj Hju. destruct Hwf as (Hc & Hl & _). apply bitmap_create_ok; [done|lia|done].
Qed.

Lemma bitmap_queries_correct_witness :
  bitmap_count 0 64 true demo_bitmap = Ok (3, demo_bitmap).
Proof.
  destruct (bitmap_queries_correct demo_bitmap 0 64 true) as [H _];
    [exact demo_bitmap_wf | vm_compute; congruence..|].
  exact H.
Defined.

End Bitmap.
