(* ===== verification/Palloc.v ===== *)
(** * The page allocator: [src/pintos/threads/palloc.c]

    Two pools of page frames, each a bitmap of pages in use and a base
    address.  The state also has the bytes of memory: an address without an
    entry holds an indeterminate value (it was never written, or it is part of
    a kernel object modelled elsewhere).  A call is one step: [pool->lock]
    makes the scan atomic. *)
From S2P Require Import Prelude CInt Bitmap.

Open Scope Z_scope.

(** * Virtual addresses: [src/pintos/threads/vaddr.h]

    Addresses are 32-bit values; the page offset is the low 12 bits. *)

Definition BITMASK (SHIFT CNT : Z) : Z := Z.shiftl (Z.shiftl 1 CNT - 1) SHIFT.
Definition PGSHIFT : Z := 0.
Definition PGBITS : Z := 12.
Definition PGSIZE : Z := Z.shiftl 1 PGBITS.
Definition PGMASK : Z := BITMASK PGSHIFT PGBITS.

Definition pg_ofs (va : Z) : Z := Z.land va PGMASK.
Definition pg_no (va : Z) : Z := Z.shiftr va PGBITS.
Definition pg_round_up (va : Z) : Z := Z.land (u32 (va + PGSIZE - 1)) (u32 (Z.lnot PGMASK)).
Definition pg_round_down (va : Z) : Z := Z.land va (u32 (Z.lnot PGMASK)).

Definition PHYS_BASE : Z := 0xc0000000.
Definition is_user_vaddr (va : Z) : bool := va <? PHYS_BASE.
Definition is_kernel_vaddr (va : Z) : bool := PHYS_BASE <=? va.
Definition ptov {S} (paddr : Z) : ST S Z := ASSERT (paddr <? PHYS_BASE) ;; mret (u32 (paddr + PHYS_BASE)).
Definition vtop {S} (va : Z) : ST S Z := ASSERT (is_kernel_vaddr va) ;; mret (u32 (va - PHYS_BASE)).

(** ** Arithmetic of the bit operations *)

Lemma PGSIZE_val : PGSIZE = 4096.
Proof. done. Qed.

Lemma pg_ofs_mod va : pg_ofs va = va mod PGSIZE.
Proof. exact (Z.land_ones va PGBITS ltac:(done)). Qed.

Lemma pg_no_div va : pg_no va = va / PGSIZE.
Proof. exact (Z.shiftr_div_pow2 va PGBITS ltac:(done)). Qed.

(** Clearing the low bits of a word. *)
Lemma land_page_mask va : in_u32 va → Z.land va (u32 (Z.lnot PGMASK)) = PGSIZE * (va / PGSIZE).
Proof.
  intros Hva.
  assert (E : Z.land va (u32 (Z.lnot PGMASK)) = va - Z.land va PGMASK).
  { rewrite Z.sub_nocarry_ldiff.
    - apply Z.bits_inj'. intros n Hn. rewrite Z.land_spec, Z.ldiff_spec, Z.land_spec.
      destruct (Z.lt_ge_cases n 32).
      + unfold u32. rewrite Z.mod_pow2_bits_low, Z.lnot_spec by lia.
        by destruct (Z.testbit va n), (Z.testbit PGMASK n).
      + unfold u32. rewrite Z.mod_pow2_bits_high by lia.
        replace (Z.testbit va n) with false; [done|]. symmetry.
        rewrite <- (u32_id va Hva). unfold u32. apply Z.mod_pow2_bits_high. lia.
    - apply Z.bits_inj'. intros n Hn. rewrite Z.ldiff_spec, Z.land_spec, Z.bits_0.
      by destruct (Z.testbit va n), (Z.testbit PGMASK n). }
  rewrite E. fold (pg_ofs va). rewrite pg_ofs_mod. rewrite PGSIZE_val. divlia.
Qed.

Lemma pg_round_down_div va : in_u32 va → pg_round_down va = PGSIZE * (va / PGSIZE).
Proof. apply land_page_mask. Qed.

Lemma pg_round_up_div va :
  0 ≤ va → va + PGSIZE - 1 < 2 ^ 32 → pg_round_up va = PGSIZE * ((va + PGSIZE - 1) / PGSIZE).
Proof.
  rewrite PGSIZE_val. intros H0 H1. unfold pg_round_up. rewrite PGSIZE_val.
  rewrite u32_id by (unfold in_u32; lia). apply land_page_mask. unfold in_u32; lia.
Qed.

(** ** Memory blocks: what [memset] and [memcpy] do to the bytes *)
Fixpoint fill (n : nat) (p v : Z) (m : gmap Z Z) : gmap Z Z :=
  match n with O => m | S n => fill n (p + 1) v (<[p := v]> m) end.
Definition memset (p v n : Z) (m : gmap Z Z) : gmap Z Z := fill (Z.to_nat n) p (u8 v) m.

(** Forgets the bytes of a range: an object was written there. *)
Fixpoint forget (n : nat) (p : Z) (m : gmap Z Z) : gmap Z Z :=
  match n with O => m | S n => forget n (p + 1) (delete p m) end.

(** [memcpy] between blocks that do not overlap; an indeterminate byte is copied as such. *)
Fixpoint copy (n : nat) (dst src : Z) (m : gmap Z Z) : gmap Z Z :=
  match n with
  | O => m
  | S n => copy n (dst + 1) (src + 1)
             (match m !! src with Some v => <[dst := v]> m | None => delete dst m end)
  end.

Definition in_range (p n k : Z) : bool := (p <=? k) && (k <? p + n).

Lemma in_range_spec p n k : in_range p n k = true ↔ p ≤ k < p + n.
Proof. unfold in_range. rewrite andb_true_iff. lia. Qed.

Lemma in_range_out p n k : ¬ (p ≤ k < p + n) → in_range p n k = false.
Proof. rewrite <- in_range_spec. by destruct (in_range p n k). Qed.

Lemma fill_lookup n p v m k :
  fill n p v m !! k = if in_range p (Z.of_nat n) k then Some v else m !! k.
Proof.
  revert p m. induction n as [|n IH]; intros p m; cbn [fill].
  - by rewrite in_range_out by lia.
  - rewrite IH. destruct (decide (k = p)) as [->|Hne].
    + rewrite in_range_out by lia. rewrite lookup_insert_eq.
      by rewrite (proj2 (in_range_spec p (Z.of_nat (S n)) p)) by lia.
    + rewrite lookup_insert_ne by done.
      replace (in_range (p + 1) (Z.of_nat n) k) with (in_range p (Z.of_nat (S n)) k); [done|].
      apply eq_true_iff_eq. rewrite !in_range_spec. lia.
Qed.

Lemma memset_lookup p v n m k :
  0 ≤ n → memset p v n m !! k = if in_range p n k then Some (u8 v) else m !! k.
Proof. intros Hn. unfold memset. by rewrite fill_lookup, Z2Nat.id. Qed.

Lemma forget_lookup n p m k : ¬ (p ≤ k < p + Z.of_nat n) → forget n p m !! k = m !! k.
Proof.
  revert p m. induction n as [|n IH]; intros p m Hk; cbn [forget]; [done|].
  rewrite IH by lia. apply lookup_delete_ne. lia.
Qed.

Lemma copy_lookup n dst src m q :
  dst + Z.of_nat n ≤ src ∨ src + Z.of_nat n ≤ dst →
  copy n dst src m !! q = if in_range dst (Z.of_nat n) q then m !! (src + (q - dst)) else m !! q.
Proof.
  revert dst src m. induction n as [|n IH]; intros dst src m Hdis; cbn [copy].
  - by rewrite in_range_out by lia.
  - set (m' := match m !! src with Some v => <[dst:=v]> m | None => delete dst m end).
    assert (Hm' : ∀ r, m' !! r = if decide (r = dst) then m !! src else m !! r).
    { intros r. unfold m'. destruct (m !! src) as [v|] eqn:E, (decide (r = dst)) as [->|];
        by rewrite ?lookup_insert_eq, ?lookup_delete_eq, ?lookup_insert_ne, ?lookup_delete_ne by done. }
    rewrite IH by lia. destruct (in_range (dst + 1) (Z.of_nat n) q) eqn:E.
    + apply in_range_spec in E. rewrite (proj2 (in_range_spec dst (Z.of_nat (S n)) q)) by lia.
      rewrite Hm', decide_False by lia. f_equal. lia.
    + rewrite Hm'. destruct (decide (q = dst)) as [->|Hne].
      * rewrite (proj2 (in_range_spec dst (Z.of_nat (S n)) dst)) by lia. f_equal. lia.
      * rewrite in_range_out; [done|]. intros Hq. apply not_true_iff_false in E. apply E, in_range_spec. lia.
Qed.

Module Palloc.

(** [enum palloc_flags]. *)
Definition PAL_ASSERT : Z := 1.
Definition PAL_ZERO : Z := 2.
Definition PAL_USER : Z := 4.

Definition NULL : Z := 0.

(** [struct pool], less its lock. *)
Record pool := MkPool { used_map : Bitmap.bitmap; base : Z }.

Inductive which := Kernel | User.

#[global] Instance which_eq_dec : EqDecision which.
Proof. solve_decision. Defined.

Record palloc := MkPalloc { kernel_pool : pool; user_pool : pool; bytes : gmap Z Z }.

Abbreviation M := (ST palloc).

Definition pool_of (w : which) (s : palloc) : pool :=
  match w with Kernel => kernel_pool s | User => user_pool s end.
Definition with_pool (w : which) (p : pool) (s : palloc) : palloc :=
  match w with
  | Kernel => MkPalloc p (user_pool s) (bytes s)
  | User => MkPalloc (kernel_pool s) p (bytes s)
  end.
Definition with_bytes (m : gmap Z Z) (s : palloc) : palloc :=
  MkPalloc (kernel_pool s) (user_pool s) m.

(** Runs a bitmap function on the used map of a pool. *)
Definition on_map {A} (w : which) (m : Bitmap.M A) : M A :=
  zoom (λ s, used_map (pool_of w s))
       (λ b s, with_pool w (MkPool b (base (pool_of w s))) s) m.

Definition set_bytes (p v n : Z) : M unit := modify (λ s, with_bytes (memset p v n (bytes s)) s).

Definition has_flag (flags f : Z) : bool := negb (Z.land flags f =? 0).

Definition palloc_get_multiple (flags page_cnt : Z) : M Z :=
  let w := if has_flag flags PAL_USER then User else Kernel in
  if page_cnt =? 0 then mret NULL else
  page_idx ← on_map w (Bitmap.bitmap_scan_and_flip 0 page_cnt false);
  s ← get;
  let pages := if negb (page_idx =? Bitmap.BITMAP_ERROR)
               then u32 (base (pool_of w s) + PGSIZE * page_idx) else NULL in
  (if negb (pages =? NULL) then
     if has_flag flags PAL_ZERO then set_bytes pages 0 (u32 (PGSIZE * page_cnt)) else mret tt
   else
     if has_flag flags PAL_ASSERT then fail Panic else mret tt) ;;
  mret pages.

Definition palloc_get_page (flags : Z) : M Z := palloc_get_multiple flags 1.

Definition page_from_pool (p : pool) (page : Z) : bool :=
  let page_no := pg_no page in
  let start_page := pg_no (base p) in
  let end_page := start_page + Bitmap.bitmap_size (used_map p) in
  (start_page <=? page_no) && (page_no <? end_page).

Definition palloc_free_multiple (pages page_cnt : Z) : M unit :=
  ASSERT (pg_ofs pages =? 0) ;;
  if (pages =? NULL) || (page_cnt =? 0) then mret tt else
  s ← get;
  w ← (if page_from_pool (kernel_pool s) pages then mret Kernel
       else if page_from_pool (user_pool s) pages then mret User
       else fail Panic);
  let page_idx := u32 (pg_no pages - pg_no (base (pool_of w s))) in
  set_bytes pages 0xcc (u32 (PGSIZE * page_cnt)) ;;
  all ← on_map w (Bitmap.bitmap_all page_idx page_cnt);
  ASSERT all ;;
  on_map w (Bitmap.bitmap_set_multiple page_idx page_cnt false).

Definition palloc_free_page (page : Z) : M unit := palloc_free_multiple page 1.

(** ** Initialisation *)

(** [sizeof (struct bitmap)] is 8. *)
Definition bitmap_buf_size (bit_cnt : Z) : Z := u32 (8 + Bitmap.byte_cnt bit_cnt).

(** The bitmap at the start of a buffer whose words are [junk]. *)
Definition bitmap_create_in_buf (bit_cnt block_size : Z) (junk : list Z) : res Bitmap.bitmap :=
  if bitmap_buf_size bit_cnt <=? block_size then Bitmap.bitmap_create bit_cnt junk
  else Err Panic.

Definition init_pool (b page_cnt : Z) (junk : list Z) : res pool :=
  let bm_pages := DIV_ROUND_UP (bitmap_buf_size page_cnt) PGSIZE in
  if page_cnt <? bm_pages then Err Panic else
  let page_cnt := page_cnt - bm_pages in
  match bitmap_create_in_buf page_cnt (u32 (bm_pages * PGSIZE)) junk with
  | Ok m => Ok (MkPool m (u32 (b + bm_pages * PGSIZE)))
  | Err e => Err e
  end.

(** The size of memory, [init_ram_pages], is found by the loader; [junk] is
    what memory holds where the bitmaps go. *)
Definition palloc_init (init_ram_pages user_page_limit : Z) (junk junk' : list Z) : M unit :=
  free_start ← ptov (1024 * 1024);
  free_end ← ptov (u32 (init_ram_pages * PGSIZE));
  let free_pages := u32 (Z.quot (s32 (free_end - free_start)) PGSIZE) in
  let user_pages := free_pages / 2 in
  let user_pages := if user_page_limit <? user_pages then user_page_limit else user_pages in
  let kernel_pages := u32 (free_pages - user_pages) in
  k ← lift (init_pool free_start kernel_pages junk);
  u ← lift (init_pool (u32 (free_start + kernel_pages * PGSIZE)) user_pages junk');
  modify (λ s, MkPalloc k u (bytes s)).

End Palloc.
