(* ===== verification/PallocSpec.v ===== *)
(** * Properties of the page allocator

    A pool is an array of page frames, each in use or free.  [palloc_get_multiple]
    takes the first run of free pages that is long enough,
    [palloc_free_multiple] gives a run back, and neither touches any other
    page. *)
From S2P Require Import Prelude CInt Bitmap Palloc.

Open Scope Z_scope.

Module PallocSpec.
Import Palloc.

(** ** Pages of a pool *)
Definition npages (w : which) (s : palloc) : Z := Bitmap.bit_cnt (used_map (pool_of w s)).
Definition page (w : which) (s : palloc) (i : Z) : Z := base (pool_of w s) + PGSIZE * i.
Definition in_use (w : which) (s : palloc) (i : Z) : bool := Bitmap.bit (used_map (pool_of w s)) i.

(** [n] pages from page [i] on are of the pool and free, or in use. *)
Definition run (w : which) (s : palloc) (i n : Z) (v : bool) : Prop :=
  0 ≤ i ∧ i + n ≤ npages w s ∧ ∀ k, i ≤ k < i + n → in_use w s k = v.

(** The pools are page aligned arrays of pages in the kernel's part of the
    address space, the user pool after the kernel pool. *)
Record palloc_ok (s : palloc) : Prop := MkOk {
  ok_map w : Bitmap.wf (used_map (pool_of w s));
  ok_aligned w : base (pool_of w s) mod PGSIZE = 0;
  ok_low w : PHYS_BASE ≤ base (pool_of w s);
  ok_high w : page w s (npages w s) < 2 ^ 32;
  ok_apart : page Kernel s (npages Kernel s) ≤ base (user_pool s)
}.

(** [s'] has the pools of [s], with pages [i] to [i + n] of pool [w] set to [v]. *)
Record changed (w : which) (i n : Z) (v : bool) (s s' : palloc) : Prop := MkChanged {
  ch_base w' : base (pool_of w' s') = base (pool_of w' s);
  ch_size w' : npages w' s' = npages w' s;
  ch_use w' k : 0 ≤ k < npages w' s →
    in_use w' s' k = if bool_decide (w' = w) && in_range i n k then v else in_use w' s k
}.

Lemma npages_pos w s : palloc_ok s → 0 ≤ npages w s.
Proof. intros H. apply (ok_map s H w). Qed.

Lemma changed_page w i n v s s' w' k : changed w i n v s s' → page w' s' k = page w' s k.
Proof. intros H. unfold page. by rewrite (ch_base _ _ _ _ _ _ H). Qed.

Lemma pool_with w w' p s : pool_of w' (with_pool w p s) = if bool_decide (w' = w) then p else pool_of w' s.
Proof. by destruct w, w'. Qed.

Lemma bytes_with w p s : bytes (with_pool w p s) = bytes s.
Proof. by destruct w. Qed.

(** A bitmap update of one pool's map is a change of that pool. *)
Lemma changed_map w s b i n v :
  palloc_ok s → Bitmap.updated (used_map (pool_of w s)) b (Bitmap.range i n v) →
  let s' := with_pool w (MkPool b (base (pool_of w s))) s in palloc_ok s' ∧ changed w i n v s s'.
Proof.
  intros Hok (Hwf & Hc & Hb) s'.
  assert (Hpool : ∀ w', pool_of w' s' = if bool_decide (w' = w) then MkPool b (base (pool_of w s))
                                        else pool_of w' s) by (intros; apply pool_with).
  assert (Hbase : ∀ w', base (pool_of w' s') = base (pool_of w' s)).
  { intros w'. rewrite Hpool. by case_bool_decide; subst. }
  assert (Hn : ∀ w', npages w' s' = npages w' s).
  { intros w'. unfold npages. rewrite Hpool. by case_bool_decide; subst. }
  assert (Hpage : ∀ w' k, page w' s' k = page w' s k) by (intros; unfold page; by rewrite Hbase).
  split; constructor; intros; rewrite ?Hpage, ?Hn, ?Hbase; try done; try by apply Hok.
  - rewrite Hpool. case_bool_decide; [done|by apply Hok].
  - change (user_pool s') with (pool_of User s'). rewrite Hbase. by apply Hok.
  - unfold in_use. rewrite Hpool. case_bool_decide as Hw; [subst w'|done]. cbn [used_map].
    rewrite Hb by done. unfold Bitmap.range, in_range. simpl andb. by destruct (_ && _).
Qed.

Lemma on_map_ok {A} w (m : Bitmap.M A) s a b :
  m (used_map (pool_of w s)) = Ok (a, b) →
  on_map w m s = Ok (a, with_pool w (MkPool b (base (pool_of w s))) s).
Proof. intros H. unfold on_map, zoom. by rewrite H. Qed.

Lemma with_pool_id w s : with_pool w (MkPool (used_map (pool_of w s)) (base (pool_of w s))) s = s.
Proof. destruct s as [[] [] ]. by destruct w. Qed.

Lemma pool_with_bytes w m s : pool_of w (with_bytes m s) = pool_of w s.
Proof. by destruct w. Qed.

Lemma palloc_ok_bytes m s : palloc_ok s → palloc_ok (with_bytes m s).
Proof.
  intros [? ? ? ? ?]. constructor; unfold page, npages in *; intros; rewrite ?pool_with_bytes; auto.
Qed.

Lemma changed_bytes w i n v s s' m m' :
  changed w i n v s s' → changed w i n v (with_bytes m s) (with_bytes m' s').
Proof.
  intros [? ? ?]. constructor; unfold page, npages, in_use in *; intros *; rewrite !pool_with_bytes; auto.
Qed.

Lemma with_bytes_id s : with_bytes (bytes s) s = s.
Proof. by destruct s. Qed.

(** ** Addresses of pages *)

Lemma page_bounds w s i :
  palloc_ok s → 0 ≤ i < npages w s → PHYS_BASE ≤ page w s i ∧ page w s i + PGSIZE < 2 ^ 32.
Proof.
  intros Hok Hi. assert (H1 := ok_low s Hok w). assert (H2 := ok_high s Hok w).
  unfold page in *. rewrite PGSIZE_val in *. lia.
Qed.

Lemma page_aligned w s i : palloc_ok s → page w s i mod PGSIZE = 0.
Proof.
  intros Hok. assert (H := ok_aligned s Hok w). unfold page. rewrite PGSIZE_val in *. divlia.
Qed.

Lemma page_inj w s i j : page w s i = page w s j → i = j.
Proof. unfold page. rewrite PGSIZE_val. lia. Qed.

Lemma page_no w s i :
  palloc_ok s → pg_no (page w s i) - pg_no (base (pool_of w s)) = i.
Proof.
  intros Hok. assert (H := ok_aligned s Hok w). rewrite !pg_no_div. unfold page.
  rewrite PGSIZE_val in *. divlia.
Qed.

Lemma page_from_pool_spec w w' s i :
  palloc_ok s → 0 ≤ i < npages w s → page_from_pool (pool_of w' s) (page w s i) = bool_decide (w' = w).
Proof.
  intros Hok Hi. assert (Hno := page_no w s i Hok).
  assert (H1 := ok_aligned s Hok Kernel). assert (H2 := ok_aligned s Hok User).
  assert (H3 := ok_apart s Hok). unfold page_from_pool, Bitmap.bitmap_size.
  fold (npages w' s). unfold page in *. simpl pool_of in *. rewrite !pg_no_div in *.
  rewrite PGSIZE_val in *.
  case_bool_decide as E; [subst w'; lia|].
  destruct w, w'; try done; simpl pool_of in *; divlia.
Qed.

(** ** The two operations *)

Definition pool_for (flags : Z) : which := if has_flag flags PAL_USER then User else Kernel.

(** What [palloc_get_multiple] does when it finds room. *)
Lemma palloc_get_ok s flags n i :
  palloc_ok s → 0 < n → let w := pool_for flags in
  run w s i n false → (∀ j, 0 ≤ j < i → ¬ run w s j n false) →
  ∃ s', palloc_get_multiple flags n s = Ok (page w s i, s') ∧ palloc_ok s' ∧
    changed w i n true s s' ∧
    bytes s' = if has_flag flags PAL_ZERO then memset (page w s i) 0 (PGSIZE * n) (bytes s) else bytes s.
Proof.
  intros Hok Hn w (Hi & Hin & Hfree) Hmin.
  assert (Hwf := ok_map s Hok w). assert (Hcnt := proj1 Hwf).
  destruct (Bitmap.bitmap_scan_ok _ 0 n false Hwf ltac:(lia) ltac:(lia))
    as (r & Hrun & [(Hr0 & Hr1 & Hr2 & Hr3) | (_ & Hnone)]); cycle 1.
  { exfalso. by apply (Hnone i). }
  assert (r = i) as ->.
  { destruct (Z.lt_trichotomy r i) as [?|[?|?]]; [|done|].
    - exfalso. apply (Hmin r); [lia|]. split; [lia|]. split; [done|]. exact Hr2.
    - exfalso. by apply (Hr3 i). }
  destruct (Bitmap.bitmap_set_multiple_ok _ i n true Hwf ltac:(lia) ltac:(lia) Hr1) as (b & Hset & Hupd).
  destruct (changed_map w s b i n true Hok Hupd) as [Hok' Hch].
  set (s1 := with_pool w (MkPool b (base (pool_of w s))) s) in *.
  assert (Hscan : on_map w (Bitmap.bitmap_scan_and_flip 0 n false) s = Ok (i, s1)).
  { apply on_map_ok. unfold Bitmap.bitmap_scan_and_flip. run_with Hrun.
    unfold Bitmap.BITMAP_ERROR. destruct (Z.eqb_spec i (2 ^ 32 - 1)); [lia|]. cbn [negb].
    by run_with Hset. }
  destruct (page_bounds w s i Hok) as [Hlo Hhi]; [unfold npages; lia|].
  assert (Hend := ok_high s Hok w). unfold PHYS_BASE in Hlo.
  assert (Hbytes : bytes s1 = bytes s) by apply bytes_with.
  unfold palloc_get_multiple. fold (pool_for flags). fold w.
  destruct (Z.eqb_spec n 0); [lia|]. run_with Hscan.
  erewrite run_bind_ok; [|reflexivity]. cbn zeta.
  destruct (Z.eqb_spec i Bitmap.BITMAP_ERROR); [unfold Bitmap.BITMAP_ERROR in *; lia|]. cbn [negb].
  rewrite (ch_base _ _ _ _ _ _ Hch w). fold (page w s i).
  rewrite (u32_id (page w s i)) by (unfold in_u32; rewrite PGSIZE_val in *; lia).
  destruct (Z.eqb_spec (page w s i) NULL); [unfold NULL in *; lia|]. cbn [negb].
  destruct (has_flag flags PAL_ZERO).
  - rewrite u32_id by (unfold in_u32, page, npages in *; rewrite PGSIZE_val in *; lia).
    rewrite <- Hbytes. eexists. erewrite run_bind_ok; [|reflexivity]. split; [reflexivity|].
    split; [by apply palloc_ok_bytes|]. split; [|done].
    rewrite <- (with_bytes_id s). by apply changed_bytes.
  - exists s1. erewrite run_bind_ok; [|reflexivity]. done.
Qed.

(** The other pool is left alone. *)
Lemma palloc_get_other s flags n a s' :
  palloc_get_multiple flags n s = Ok (a, s') → ∀ w, w ≠ pool_for flags → pool_of w s' = pool_of w s.
Proof.
  intros Hrun w Hw. unfold palloc_get_multiple in Hrun. fold (pool_for flags) in Hrun.
  destruct (n =? 0); [by injection Hrun as _ <-|]. apply run_bind_inv in Hrun as (i & s1 & H1 & Hrun).
  assert (E : pool_of w s1 = pool_of w s).
  { unfold on_map, zoom in H1. destruct (Bitmap.bitmap_scan_and_flip _ _ _ _) as [[? b]|]; [|done].
    injection H1 as _ <-. rewrite pool_with. by rewrite bool_decide_false. }
  rewrite <- E. clear E H1. apply run_bind_inv in Hrun as (s2 & s3 & [= -> ->] & Hrun).
  cbv zeta in Hrun. apply run_bind_inv in Hrun as ([] & s4 & H4 & [= _ <-]).
  destruct (negb _), (has_flag flags PAL_ZERO); [injection H4 as <-; apply pool_with_bytes|by injection H4 as <-|..];
    destruct (has_flag flags PAL_ASSERT); try done; by injection H4 as <-.
Qed.

Lemma palloc_get_full s flags n :
  palloc_ok s → 0 < n → let w := pool_for flags in
  (∀ i, ¬ run w s i n false) →
  palloc_get_multiple flags n s = if has_flag flags PAL_ASSERT then Err Panic else Ok (NULL, s).
Proof.
  intros Hok Hn w Hnone. assert (Hwf := ok_map s Hok w). assert (Hcnt := proj1 Hwf).
  destruct (Bitmap.bitmap_scan_ok _ 0 n false Hwf ltac:(lia) ltac:(lia))
    as (r & Hrun & [(Hr0 & Hr1 & Hr2 & Hr3) | (-> & _)]).
  { exfalso. by apply (Hnone r). }
  assert (Hscan : on_map w (Bitmap.bitmap_scan_and_flip 0 n false) s = Ok (Bitmap.BITMAP_ERROR, s)).
  { rewrite <- (with_pool_id w s) at 2. apply on_map_ok. unfold Bitmap.bitmap_scan_and_flip.
    by run_with Hrun. }
  unfold palloc_get_multiple. fold (pool_for flags). fold w.
  destruct (Z.eqb_spec n 0); [lia|]. run_with Hscan.
  erewrite run_bind_ok; [|reflexivity]. cbn zeta. simpl negb. cbv iota.
  by destruct (has_flag flags PAL_ASSERT).
Qed.

(** A pool has a first run of free pages or none. *)
Lemma first_run w s n : palloc_ok s → 0 < n →
  (∃ i, run w s i n false ∧ ∀ j, 0 ≤ j < i → ¬ run w s j n false) ∨ (∀ i, ¬ run w s i n false).
Proof.
  intros Hok Hn. assert (Hwf := ok_map s Hok w). assert (Hcnt := proj1 Hwf).
  destruct (Bitmap.bitmap_scan_ok _ 0 n false Hwf ltac:(lia) ltac:(lia))
    as (r & Hrun & [(Hr0 & Hr1 & Hr2 & Hr3) | (_ & Hnone)]).
  - left. exists r. split; [done|]. intros j Hj (_ & _ & Hg). by apply (Hr3 j).
  - right. intros i (Hi & Hin & Hg). by apply (Hnone i).
Qed.

(** [palloc_free_multiple] of pages of a pool comes down to its bitmap. *)
Lemma palloc_free_run s w i n :
  palloc_ok s → 0 < n → 0 ≤ i → i + n ≤ npages w s →
  palloc_free_multiple (page w s i) n s =
    (all ← on_map w (Bitmap.bitmap_all i n);
     ASSERT all ;; on_map w (Bitmap.bitmap_set_multiple i n false))
      (with_bytes (memset (page w s i) 0xcc (PGSIZE * n) (bytes s)) s).
Proof.
  intros Hok Hn Hi Hin. assert (Hcnt := proj1 (ok_map s Hok w)).
  destruct (page_bounds w s i Hok) as [Hlo Hhi]; [lia|].
  assert (Hend := ok_high s Hok w). unfold PHYS_BASE in Hlo.
  unfold palloc_free_multiple. run_assert.
  2: { rewrite pg_ofs_mod, (page_aligned w s i Hok). done. }
  destruct (Z.eqb_spec (page w s i) NULL); [unfold NULL in *; lia|].
  destruct (Z.eqb_spec n 0); [lia|]. cbn [orb].
  erewrite run_bind_ok; [|reflexivity].
  erewrite run_bind_ok with (a := w) (s' := s).
  2: { assert (H1 := page_from_pool_spec w Kernel s i Hok ltac:(lia)).
       assert (H2 := page_from_pool_spec w User s i Hok ltac:(lia)).
       simpl pool_of in *. rewrite H1, H2. by destruct w. }
  cbn zeta. rewrite page_no, (u32_id i) by (unfold in_u32, npages in *; done || lia).
  rewrite u32_id by (unfold in_u32, page, npages in *; rewrite PGSIZE_val in *; lia).
  by erewrite run_bind_ok; [|reflexivity].
Qed.

Lemma bitmap_all_run s w i n :
  palloc_ok s → 0 ≤ n → 0 ≤ i → i + n ≤ npages w s →
  ∃ r, on_map w (Bitmap.bitmap_all i n) s = Ok (r, s) ∧ (r = true ↔ run w s i n true).
Proof.
  intros Hok Hn Hi Hin. exists (negb (Bitmap.exists_bit (used_map (pool_of w s)) i n false)). split.
  - rewrite <- (with_pool_id w s) at 3. apply on_map_ok. unfold Bitmap.bitmap_all.
    erewrite run_bind_ok; [|apply Bitmap.bitmap_contains_ok; by apply ok_map || done]. done.
  - rewrite negb_true_iff, Bitmap.exists_bit_false by done. unfold run, in_use. naive_solver.
Qed.

Lemma palloc_free_ok s w i n :
  palloc_ok s → 0 < n → run w s i n true →
  ∃ s', palloc_free_multiple (page w s i) n s = Ok (tt, s') ∧ palloc_ok s' ∧
    changed w i n false s s' ∧ bytes s' = memset (page w s i) 0xcc (PGSIZE * n) (bytes s).
Proof.
  intros Hok Hn Huse. destruct Huse as (Hi & Hin & Hu) eqn:E; clear E.
  rewrite palloc_free_run by done. set (s0 := with_bytes _ s).
  assert (Hok0 : palloc_ok s0) by (by apply palloc_ok_bytes).
  assert (Hpool : pool_of w s0 = pool_of w s) by apply pool_with_bytes.
  assert (Hn0 : npages w s0 = npages w s) by (unfold npages; by rewrite Hpool).
  destruct (bitmap_all_run s0 w i n Hok0 ltac:(lia) Hi ltac:(lia)) as (r & Hall & Hr).
  assert (r = true) as ->.
  { apply Hr. unfold run, in_use. by rewrite Hn0, Hpool. }
  destruct (Bitmap.bitmap_set_multiple_ok _ i n false (ok_map s0 Hok0 w) Hi ltac:(lia)) as (b & Hset & Hupd).
  { unfold npages in *. lia. }
  destruct (changed_map w s0 b i n false Hok0 Hupd) as [Hok' Hch].
  run_with Hall. run_assert; [|done]. eexists. split; [by apply on_map_ok|]. split; [done|].
  split; [|apply bytes_with]. set (s1 := with_pool _ _ _) in *.
  rewrite <- (with_bytes_id s1), <- (with_bytes_id s).
  apply (changed_bytes _ _ _ _ s0 s1 (bytes s) (bytes s1) Hch).
Qed.

(** Pages that are not all in use cannot be freed. *)
Lemma palloc_free_panics s w i n :
  palloc_ok s → 0 < n → 0 ≤ i → i + n ≤ npages w s → ¬ run w s i n true →
  palloc_free_multiple (page w s i) n s = Err Panic.
Proof.
  intros Hok Hn Hi Hin Hu. rewrite palloc_free_run by done. set (s0 := with_bytes _ s).
  assert (Hpool : pool_of w s0 = pool_of w s) by apply pool_with_bytes.
  assert (Hn0 : npages w s0 = npages w s) by (unfold npages; by rewrite Hpool).
  destruct (bitmap_all_run s0 w i n (palloc_ok_bytes _ _ Hok) ltac:(lia) Hi ltac:(lia)) as (r & Hall & Hr).
  assert (r = false) as ->.
  { destruct r; [|done]. exfalso. apply Hu. assert (H := proj1 Hr eq_refl).
    unfold run, in_use in *. by rewrite Hn0, Hpool in H. }
  run_with Hall. by apply run_bind_err.
Qed.

(** Pages in use stay in use when others are taken, or others given back. *)
Lemma run_changed i n v P P' j m :
  changed Kernel i n v P P' → run Kernel P j m true →
  (v = true ∨ i + n ≤ j ∨ j + m ≤ i) → run Kernel P' j m true.
Proof.
  intros Hch (Hj & Hm & Hu) Hv. split; [done|]. rewrite (ch_size _ _ _ _ _ _ Hch).
  split; [done|]. intros k Hk. rewrite (ch_use _ _ _ _ _ _ Hch) by lia.
  rewrite bool_decide_true by done. simpl. destruct (in_range i n k) eqn:E; [|by apply Hu].
  apply in_range_spec in E. destruct Hv; [done|lia].
Qed.

Lemma run_new i n P P' : 0 ≤ i → i + n ≤ npages Kernel P → changed Kernel i n true P P' → run Kernel P' i n true.
Proof.
  intros Hi Hn Hch. split; [done|]. rewrite (ch_size _ _ _ _ _ _ Hch). split; [done|]. intros k Hk.
  rewrite (ch_use _ _ _ _ _ _ Hch), bool_decide_true by (done || lia).
  by rewrite (proj2 (in_range_spec i n k)).
Qed.

(** ** Initialisation *)

Lemma init_pool_ok b n junk :
  0 ≤ b → 1 ≤ n < 2 ^ 18 → b + n * PGSIZE < 2 ^ 32 →
  (Z.to_nat n ≤ length junk)%nat → Forall in_u32 junk →
  ∃ p bm, init_pool b n junk = Ok p ∧ (1 ≤ bm ≤ n ∧ bm ≤ 9) ∧ Bitmap.wf (used_map p) ∧
    base p = b + bm * PGSIZE ∧ Bitmap.bit_cnt (used_map p) = n - bm ∧
    ∀ k, 0 ≤ k < n - bm → Bitmap.bit (used_map p) k = false.
Proof.
  intros Hb Hn Hend Hj Hju. rewrite PGSIZE_val in *.
  assert (Hec : ∀ c, 0 ≤ c < 2 ^ 20 → Bitmap.elem_cnt c = (c + 31) / 32).
  { intros c Hc. unfold Bitmap.elem_cnt, Bitmap.ELEM_BITS. rewrite DIV_ROUND_UP_div by lia.
    replace (c + 32 - 1) with (c + 31) by lia. apply u32_id. unfold in_u32. divlia. }
  assert (Hbs : ∀ c, 0 ≤ c < 2 ^ 20 → bitmap_buf_size c = 8 + 4 * ((c + 31) / 32)).
  { intros c Hc. unfold bitmap_buf_size, Bitmap.byte_cnt. rewrite Hec by done.
    rewrite (u32_id (4 * _)) by (unfold in_u32; divlia). apply u32_id. unfold in_u32. divlia. }
  set (bm := DIV_ROUND_UP (bitmap_buf_size n) PGSIZE).
  assert (Ebm : bm = (8 + 4 * ((n + 31) / 32) + 4095) / 4096).
  { unfold bm. rewrite Hbs, DIV_ROUND_UP_div by (rewrite ?PGSIZE_val; divlia).
    rewrite PGSIZE_val. f_equal. lia. }
  assert (Hbm : 1 ≤ bm ≤ n ∧ bm ≤ 9) by (rewrite Ebm; divlia).
  assert (Hfit : 8 + 4 * ((n - bm + 31) / 32) ≤ bm * 4096) by (rewrite Ebm in *; divlia).
  destruct (Bitmap.bitmap_create_ok (n - bm) junk) as (m & Hrun & Hwf & Hc & Hbits); [lia| |done|].
  { rewrite Hec by lia. divlia. }
  exists (MkPool m (b + bm * 4096)), bm. split; [|done].
  unfold init_pool. fold bm. destruct (Z.ltb_spec n bm); [lia|].
  unfold bitmap_create_in_buf. rewrite Hbs by lia. rewrite PGSIZE_val.
  rewrite !u32_id by (unfold in_u32; lia).
  destruct (Z.leb_spec (8 + 4 * ((n - bm + 31) / 32)) (bm * 4096)); [|lia]. by rewrite Hrun.
Qed.

(** ** Properties *)

(** [palloc_init] splits the memory above 1 MB into two disjoint pools
    of the kernel's address space, the user pool within its limit, each less
    the pages its bitmap needs, with every page free. *)
Theorem palloc_init_correct ram limit junk junk' s :
  258 ≤ ram < 2 ^ 18 → 1 ≤ limit < 2 ^ 32 →
  (Z.to_nat ram ≤ length junk)%nat → (Z.to_nat ram ≤ length junk')%nat →
  Forall in_u32 junk → Forall in_u32 junk' →
  ∃ s', palloc_init ram limit junk junk' s = Ok (tt, s') ∧ palloc_ok s' ∧ bytes s' = bytes s ∧
    (∀ w k, 0 ≤ k < npages w s' → in_use w s' k = false) ∧
    npages User s' < limit ∧ npages User s' < (ram - 256) / 2 ∧
    ram - 256 - 18 ≤ npages Kernel s' + Z.min limit ((ram - 256) / 2) < ram - 256 ∧
    ram - 256 - 18 ≤ npages Kernel s' + npages User s'.
Proof.
  intros Hram Hlim Hj Hj' Hju Hju'.
  set (up := Z.min limit ((ram - 256) / 2)). set (kp := ram - 256 - up).
  assert (Hup : 1 ≤ up ≤ (ram - 256) / 2) by (unfold up; divlia).
  assert (Hkp : 1 ≤ kp < 2 ^ 18) by (unfold kp; divlia).
  assert (Hsum : kp + up = ram - 256) by (unfold kp; lia).
  assert (Hbase : 0xc0100000 + (kp + up) * PGSIZE < 2 ^ 32) by (rewrite PGSIZE_val; unfold kp; lia).
  destruct (init_pool_ok 0xc0100000 kp junk) as (k & bk & Hk & Hbk & Hkwf & Hkb & Hkn & Hkf);
    [lia|lia|rewrite PGSIZE_val in *; lia|lia|done|].
  destruct (init_pool_ok (0xc0100000 + kp * PGSIZE) up junk') as (u & bu & Hu & Hbu & Huwf & Hub & Hun & Huf);
    [rewrite PGSIZE_val in *; lia|divlia|lia|lia|done|].
  exists (MkPalloc k u (bytes s)). rewrite PGSIZE_val in *. split; [|split].
  - unfold palloc_init, ptov.
    erewrite run_bind_ok with (a := 0xc0100000); [|by vm_compute].
    erewrite run_bind_ok with (a := 0xc0000000 + ram * 4096); cycle 1.
    { rewrite PGSIZE_val, (u32_id (ram * 4096)) by (unfold in_u32; lia).
      run_assert; [|unfold PHYS_BASE; lia]. unfold PHYS_BASE. rewrite u32_id by (unfold in_u32; lia).
      rewrite (Z.add_comm (ram * 4096)). reflexivity. }
    rewrite s32_id by (unfold in_s32; lia). rewrite PGSIZE_val.
    replace (0xc0000000 + ram * 4096 - 0xc0100000) with ((ram - 256) * 4096) by lia.
    rewrite Z.quot_mul, (u32_id (ram - 256)) by (unfold in_u32; lia).
    replace (if limit <? (ram - 256) / 2 then limit else (ram - 256) / 2) with up
      by (unfold up; destruct (Z.ltb_spec limit ((ram - 256) / 2)); lia).
    fold kp. rewrite (u32_id kp), (u32_id (0xc0100000 + kp * 4096)) by (unfold in_u32; lia).
    rewrite (run_bind_ok _ _ _ k s) by (by rewrite Hk).
    rewrite (run_bind_ok _ _ _ u s) by (by rewrite Hu). done.
  - constructor; [intros []..|]; unfold page, npages; simpl; rewrite ?PGSIZE_val, ?Hkb, ?Hub, ?Hkn, ?Hun;
      unfold PHYS_BASE; try done; try lia; divlia.
  - split; [done|]. unfold npages, in_use. simpl. rewrite Hkn, Hun. split.
    { intros [] i Hi; simpl in *; [apply Hkf|apply Huf]; lia. }
    unfold kp in *. lia.
Qed.

(** Memory before [palloc_init]. *)
Definition no_memory : palloc :=
  MkPalloc (MkPool (Bitmap.MkBitmap 0 []) 0) (MkPool (Bitmap.MkBitmap 0 []) 0) ∅.

Lemma palloc_init_correct_witness :
  ∃ s', palloc_init 300 10 (replicate 300 0xffffffff) (replicate 300 7) no_memory = Ok (tt, s') ∧
    palloc_ok s' ∧ npages Kernel s' = 33 ∧ npages User s' = 9.
Proof.
  destruct (palloc_init_correct 300 10 (replicate 300 0xffffffff) (replicate 300 7) no_memory)
    as (s' & H1 & H2 & _);
    [lia | lia | rewrite length_replicate; lia | rewrite length_replicate; lia
     | apply Forall_replicate; unfold in_u32; lia | apply Forall_replicate; unfold in_u32; lia |].
  exists s'. split; [exact H1|]. split; [exact H2|].
  assert (E : (λ r, match r with Ok (_, x) => Some (npages Kernel x, npages User x) | _ => None end)
                (palloc_init 300 10 (replicate 300 0xffffffff) (replicate 300 7) no_memory)
              = Some (33, 9)) by (vm_compute; reflexivity).
  rewrite H1 in E. injection E. intros E1 E2. split; [exact E2|exact E1].
Defined.

(** [palloc_get_multiple] on every branch.  No pages asked for: null.
    No run of free pages that is long enough: null, or a panic under
    [PAL_ASSERT], with nothing changed.  Otherwise the first run that is long
    enough: its pages, all free before, are in use after, every other page of
    both pools is as it was, and memory changes only under [PAL_ZERO], where
    the bytes of the run become zero.  Giving the run back with
    [palloc_free_multiple] makes the pools what they were; giving it back
    twice panics. *)
Theorem palloc_get_free_correct s flags n :
  palloc_ok s → 0 ≤ n → let w := pool_for flags in
  (n = 0 ∧ palloc_get_multiple flags n s = Ok (NULL, s)) ∨
  (0 < n ∧ (∀ i, ¬ run w s i n false) ∧
   palloc_get_multiple flags n s = if has_flag flags PAL_ASSERT then Err Panic else Ok (NULL, s)) ∨
  (∃ i s', run w s i n false ∧ (∀ j, 0 ≤ j < i → ¬ run w s j n false) ∧
     palloc_get_multiple flags n s = Ok (page w s i, s') ∧ PHYS_BASE ≤ page w s i ∧
     palloc_ok s' ∧ changed w i n true s s' ∧
     (∀ k, bytes s' !! k = if has_flag flags PAL_ZERO && in_range (page w s i) (PGSIZE * n) k
                           then Some 0 else bytes s !! k) ∧
     ∃ s'', palloc_free_multiple (page w s i) n s' = Ok (tt, s'') ∧ palloc_ok s'' ∧
       (∀ w' k, 0 ≤ k < npages w' s → in_use w' s'' k = in_use w' s k) ∧
       (∀ k, in_range (page w s i) (PGSIZE * n) k = false → bytes s'' !! k = bytes s !! k) ∧
       palloc_free_multiple (page w s i) n s'' = Err Panic).
Proof.
  intros Hok Hn w. destruct (Z.eq_dec n 0) as [->|Hn0]; [left; done|]. right.
  assert (Hn' : 0 < n) by lia. clear Hn Hn0.
  destruct (first_run w s n Hok Hn') as [(i & Hrun & Hmin)|Hnone].
  2: { left. split; [done|]. split; [done|]. by apply palloc_get_full. }
  right. assert (Hi := Hrun). destruct Hi as (Hi & Hin & Hfree).
  destruct (palloc_get_ok s flags n i Hok Hn' Hrun Hmin) as (s' & Hget & Hok' & Hch & Hb). fold w in Hget, Hch, Hb.
  assert (Hpg : ∀ s'' v, changed w i n v s' s'' → page w s'' i = page w s i).
  { intros s'' v H. rewrite (changed_page _ _ _ _ _ _ _ _ H). apply (changed_page _ _ _ _ _ _ _ _ Hch). }
  assert (Hbytes : ∀ k, bytes s' !! k = if has_flag flags PAL_ZERO && in_range (page w s i) (PGSIZE * n) k
                                        then Some 0 else bytes s !! k).
  { intros k. rewrite Hb. destruct (has_flag flags PAL_ZERO); [|done].
    by rewrite memset_lookup by (rewrite PGSIZE_val; lia). }
  destruct (palloc_free_ok s' w i n Hok' Hn') as (s'' & Hfr & Hok'' & Hch' & Hb').
  { split; [done|]. rewrite (ch_size _ _ _ _ _ _ Hch). split; [done|]. intros k Hk.
    rewrite (ch_use _ _ _ _ _ _ Hch) by lia. rewrite bool_decide_true by done.
    by rewrite (proj2 (in_range_spec i n k)). }
  assert (Hfree' : ∀ w' k, 0 ≤ k < npages w' s → in_use w' s'' k = in_use w' s k).
  { intros w' k Hk. rewrite (ch_use _ _ _ _ _ _ Hch'), (ch_use _ _ _ _ _ _ Hch)
      by (rewrite ?(ch_size _ _ _ _ _ _ Hch); done).
    case_bool_decide as Hw; [subst w'|done]. destruct (in_range i n k) eqn:E; [|done].
    simpl. symmetry. apply Hfree. by apply in_range_spec. }
  rewrite (changed_page _ _ _ _ _ _ w i Hch) in Hfr, Hb'.
  exists i, s'. split_and!; try done; [apply page_bounds; (done || lia)|].
  exists s''. split_and!; try done.
  - intros k Hk. rewrite Hb', memset_lookup, Hk by (rewrite PGSIZE_val; lia). rewrite Hbytes, Hk.
    by rewrite andb_false_r.
  - rewrite <- (Hpg s'' false Hch'). apply palloc_free_panics; [done..| |].
    + rewrite (ch_size _ _ _ _ _ _ Hch'), (ch_size _ _ _ _ _ _ Hch). done.
    + intros (_ & _ & H). specialize (H i ltac:(lia)). rewrite Hfree' in H by lia.
      rewrite Hfree in H by lia. done.
Qed.

(** A machine of 300 pages. *)
Definition small_machine : palloc :=
  MkPalloc (MkPool (Bitmap.MkBitmap 33 [0; 0]) 0xc0101000)
           (MkPool (Bitmap.MkBitmap 9 [0]) 0xc0123000) ∅.

Example small_machine_init :
  palloc_init 300 10 (replicate 300 0) (replicate 300 0) no_memory = Ok (tt, small_machine).
Proof. vm_compute. reflexivity. Qed.

Lemma small_machine_ok : palloc_ok small_machine.
Proof.
  assert (Hwf : ∀ w, Bitmap.wf (used_map (pool_of w small_machine))).
  { intros []; (split; [simpl; lia|]; split; [reflexivity|]);
      repeat constructor; unfold in_u32; lia. }
  constructor; [exact Hwf|intros []; reflexivity| | |].
  - intros []; unfold PHYS_BASE; simpl; lia.
  - intros []; unfold page, npages; rewrite PGSIZE_val; simpl; lia.
  - unfold page, npages; rewrite PGSIZE_val; simpl; lia.
Qed.

Lemma palloc_get_free_correct_witness :
  (∃ s', palloc_get_multiple PAL_ZERO 2 small_machine = Ok (page Kernel small_machine 0, s') ∧ palloc_ok s') ∧
  palloc_get_multiple PAL_USER 10 small_machine = Ok (NULL, small_machine).
Proof.
  split.
  - destruct (palloc_get_free_correct small_machine PAL_ZERO 2 small_machine_ok ltac:(lia))
      as [(E & _)|[(_ & H & _)|(i & s' & H1 & H2 & H3 & _ & H4 & _)]].
    + exfalso. lia.
    + exfalso. apply (H 0). split; [lia|]. split; [vm_compute; congruence|]. intros k Hk.
      assert (k = 0 ∨ k = 1) as [-> | ->] by lia; vm_compute; reflexivity.
    + assert (i = 0) as ->.
      { destruct (Z.eq_dec i 0) as [E|E]; [exact E|exfalso]. apply (H2 0); [destruct H1; lia|].
        split; [lia|]. split; [vm_compute; congruence|]. intros k Hk.
        assert (k = 0 ∨ k = 1) as [-> | ->] by lia; vm_compute; reflexivity. }
      exists s'. split; [exact H3|exact H4].
  - destruct (palloc_get_free_correct small_machine PAL_USER 10 small_machine_ok ltac:(lia))
      as [(E & _)|[(_ & _ & H)|(i & s' & H1 & _)]].
    + exfalso. lia.
    + exact H.
    + exfalso. destruct H1 as (H1 & H2 & _).
      assert (E : npages (pool_for PAL_USER) small_machine = 9) by (vm_compute; reflexivity). lia.
Defined.

End PallocSpec.
