(* ===== verification/Malloc.v ===== *)
(** * The block allocator: [src/pintos/threads/malloc.c]

    Descriptors with lists of free blocks, over the page allocator.  A pointer
    is an address.  The arena headers are a map from page addresses to records
    and a free list is the sequence of its blocks (what [list.c] implements);
    the bytes under a header or under the links of a free block are
    indeterminate ([forget]), and clearing a page destroys the header in it.
    [d->lock] makes each call one step. *)
From S2P Require Import Prelude CInt Bitmap Palloc.

Open Scope Z_scope.

Module Malloc.
Import Palloc.

(** [struct desc], less its lock. *)
Record desc := MkDesc { d_block_size : Z; d_blocks_per_arena : Z; free_list : list Z }.

Definition ARENA_MAGIC : Z := 0x9a548eed.

(** [struct arena]; the owning descriptor is an index of [descs], [None] for
    a big block. *)
Record arena := MkArena { magic : Z; a_desc : option nat; free_cnt : Z }.

(** [sizeof (struct arena)] and [sizeof (struct block)]. *)
Definition ARENA_SIZE : Z := 12.
Definition BLOCK_SIZE : Z := 8.

(** The globals of the file, the headers and the page allocator. *)
Record heap := MkHeap {
  pages : palloc;
  descs : list desc;
  desc_cnt : nat;
  arenas : gmap Z arena
}.

Abbreviation M := (ST heap).

Definition with_pages (p : palloc) (h : heap) : heap := MkHeap p (descs h) (desc_cnt h) (arenas h).
Definition with_descs (ds : list desc) (h : heap) : heap := MkHeap (pages h) ds (desc_cnt h) (arenas h).
Definition with_arenas (ar : gmap Z arena) (h : heap) : heap := MkHeap (pages h) (descs h) (desc_cnt h) ar.

Definition on_pages {A} : ST palloc A → M A := zoom pages with_pages.
Definition on_bytes (f : gmap Z Z → gmap Z Z) : M unit :=
  on_pages (modify (λ s, with_bytes (f (bytes s)) s)).

Definition get_desc (d : nat) : M desc := h ← get; deref (descs h !! d).
Definition put_desc (d : nat) (x : desc) : M unit :=
  h ← get; deref (descs h !! d) ;; put (with_descs (<[d := x]> (descs h)) h).
Definition get_arena (a : Z) : M arena := h ← get; deref (arenas h !! a).
Definition put_arena (a : Z) (x : arena) : M unit :=
  on_bytes (forget (Z.to_nat ARENA_SIZE) a) ;; modify (λ h, with_arenas (<[a := x]> (arenas h)) h).

(** [descs] and [desc_cnt] before [malloc_init]. *)
Definition empty_heap (p : palloc) : heap := MkHeap p (replicate 10 (MkDesc 0 0 [])) 0 ∅.

(** The loop of [malloc_init]. *)
Fixpoint malloc_init_loop (fuel : nat) (block_size : Z) : M unit :=
  if block_size <? Z.quot PGSIZE 2 then
    match fuel with
    | O => fail Timeout
    | S fuel =>
      h ← get;
      let d := desc_cnt h in
      put (MkHeap (pages h) (descs h) (S d) (arenas h)) ;;
      ASSERT (Nat.leb (S d) 10) ;;
      put_desc d (MkDesc block_size ((PGSIZE - ARENA_SIZE) / block_size) []) ;;
      malloc_init_loop fuel (u32 (block_size * 2))
    end
  else mret tt.
Definition malloc_init : M unit := malloc_init_loop 10 16.

Definition block_to_arena (b : Z) : M Z :=
  let a := pg_round_down b in
  ASSERT (negb (a =? NULL)) ;;
  x ← get_arena a;
  ASSERT (magic x =? ARENA_MAGIC) ;;
  (match a_desc x with
   | None => ASSERT (pg_ofs b =? ARENA_SIZE)
   | Some d => y ← get_desc d; ASSERT (u32 (pg_ofs b - ARENA_SIZE) mod d_block_size y =? 0)
   end) ;;
  mret a.

Definition arena_to_block (a idx : Z) : M Z :=
  ASSERT (negb (a =? NULL)) ;;
  x ← get_arena a;
  ASSERT (magic x =? ARENA_MAGIC) ;;
  d ← deref (a_desc x);
  y ← get_desc d;
  ASSERT (idx <? d_blocks_per_arena y) ;;
  mret (u32 (a + ARENA_SIZE + idx * d_block_size y)).

(** [list_push_back], [list_push_front], [list_pop_front] and [list_remove]
    on the free list of a descriptor. *)
Definition push_back (d : nat) (b : Z) : M unit :=
  on_bytes (forget (Z.to_nat BLOCK_SIZE) b) ;;
  y ← get_desc d;
  put_desc d (MkDesc (d_block_size y) (d_blocks_per_arena y) (free_list y ++ [b])).
Definition push_front (d : nat) (b : Z) : M unit :=
  on_bytes (forget (Z.to_nat BLOCK_SIZE) b) ;;
  y ← get_desc d;
  put_desc d (MkDesc (d_block_size y) (d_blocks_per_arena y) (b :: free_list y)).
Definition pop_front (d : nat) : M Z :=
  y ← get_desc d;
  match free_list y with
  | [] => fail Panic
  | b :: l => put_desc d (MkDesc (d_block_size y) (d_blocks_per_arena y) l) ;; mret b
  end.
Definition list_remove (d : nat) (b : Z) : M unit :=
  y ← get_desc d;
  if bool_decide (b ∈ free_list y) then
    put_desc d (MkDesc (d_block_size y) (d_blocks_per_arena y) (base.filter (λ c, c ≠ b) (free_list y)))
  else fail Fault.

(** [for (d = descs; d < descs + desc_cnt; d++) if (d->block_size >= size)
    break], [n] descriptors left. *)
Fixpoint find_desc (n d : nat) (size : Z) : M nat :=
  match n with
  | O => mret d
  | S n => y ← get_desc d; if size <=? d_block_size y then mret d else find_desc n (S d) size
  end.

(** Adds the blocks [i], [i + 1], ... of a new arena to the free list. *)
Fixpoint push_blocks (n : nat) (i a : Z) (d : nat) : M unit :=
  match n with
  | O => mret tt
  | S n => b ← arena_to_block a i; push_back d b ;; push_blocks n (i + 1) a d
  end.

(** [SIZE] is too big for any descriptor. *)
Definition malloc_big (size : Z) : M Z :=
  let page_cnt := Z.quot (u32 (u32 (size + ARENA_SIZE) + PGSIZE - 1)) PGSIZE in
  a ← on_pages (palloc_get_multiple 0 page_cnt);
  if a =? NULL then mret NULL else
  put_arena a (MkArena ARENA_MAGIC None page_cnt) ;;
  mret (u32 (a + ARENA_SIZE)).

(** Makes sure that the free list of [d] has a block. *)
Definition refill (d : nat) : M bool :=
  y ← get_desc d;
  match free_list y with
  | [] =>
    a ← on_pages (palloc_get_page 0);
    if a =? NULL then mret false else
    put_arena a (MkArena ARENA_MAGIC (Some d) (d_blocks_per_arena y)) ;;
    push_blocks (Z.to_nat (d_blocks_per_arena y)) 0 a d ;;
    mret true
  | _ => mret true
  end.

Definition malloc (size : Z) : M Z :=
  if size =? 0 then mret NULL else
  h ← get;
  d ← find_desc (desc_cnt h) 0 size;
  if Nat.eqb d (desc_cnt h) then malloc_big size else
  ok ← refill d;
  if negb ok then mret NULL else
  b ← pop_front d;
  a ← block_to_arena b;
  x ← get_arena a;
  put_arena a (MkArena (magic x) (a_desc x) (u32 (free_cnt x - 1))) ;;
  mret b.

Definition calloc (a b : Z) : M Z :=
  let size := u32 (a * b) in
  if (size <? a) || (size <? b) then mret NULL else
  p ← malloc size;
  (if negb (p =? NULL) then on_bytes (memset p 0 size) else mret tt) ;;
  mret p.

Definition block_size (block : Z) : M Z :=
  a ← block_to_arena block;
  x ← get_arena a;
  match a_desc x with
  | Some d => y ← get_desc d; mret (d_block_size y)
  | None => mret (u32 (PGSIZE * free_cnt x - pg_ofs block))
  end.

(** Gives pages back; what they held is overwritten. *)
Definition free_pages (a n : Z) : M unit :=
  on_pages (palloc_free_multiple a n) ;; modify (λ h, with_arenas (delete a (arenas h)) h).

Fixpoint remove_blocks (n : nat) (i a : Z) (d : nat) : M unit :=
  match n with
  | O => mret tt
  | S n => b ← arena_to_block a i; list_remove d b ;; remove_blocks n (i + 1) a d
  end.

Definition free (p : Z) : M unit :=
  if negb (p =? NULL) then
    a ← block_to_arena p;
    x ← get_arena a;
    match a_desc x with
    | Some d =>
      y ← get_desc d;
      on_bytes (memset p 0xcc (d_block_size y)) ;;
      push_front d p ;;
      let cnt := u32 (free_cnt x + 1) in
      put_arena a (MkArena (magic x) (a_desc x) cnt) ;;
      if d_blocks_per_arena y <=? cnt then
        ASSERT (cnt =? d_blocks_per_arena y) ;;
        remove_blocks (Z.to_nat (d_blocks_per_arena y)) 0 a d ;;
        free_pages a 1
      else mret tt
    | None => free_pages a (free_cnt x)
    end
  else mret tt.

Definition realloc (old_block new_size : Z) : M Z :=
  if new_size =? 0 then free old_block ;; mret NULL
  else
    new_block ← malloc new_size;
    (if negb (old_block =? NULL) && negb (new_block =? NULL) then
       old_size ← block_size old_block;
       let min_size := if new_size <? old_size then new_size else old_size in
       on_bytes (copy (Z.to_nat min_size) new_block old_block) ;;
       free old_block
     else mret tt) ;;
    mret new_block.

End Malloc.
