(* ===== verification/MallocArena.v ===== *)
(** * Arenas come and go

    How the invariant of the block allocator changes when pages are taken
    from the page allocator for a new arena and when an arena's pages are
    given back. *)
From S2P Require Import Prelude CInt Bitmap Palloc PallocSpec Malloc.

Open Scope Z_scope.

(** * The invariant of the block allocator

    [blocks_ok e P F A live]: the arenas [A] are disjoint runs of pages in use
    of the kernel pool of [P]; each block of an arena is on the free list of
    its descriptor ([F k]) or handed out ([live], from addresses to the sizes
    asked for), never both; an arena counts its free blocks, and only the
    arena [e] may have all its blocks free.  The lemmas say how the steps of
    [malloc] and [free] change it. *)

Module MallocInv.
Import Palloc PallocSpec Malloc.

(** ** Blocks of an arena *)

(** Sizes and numbers of blocks of the seven descriptors. *)
Definition bsz (k : nat) : Z := 16 * 2 ^ Z.of_nat k.
Definition bpa (k : nat) : Z := (PGSIZE - ARENA_SIZE) / bsz k.
Definition block (k : nat) (a i : Z) : Z := a + ARENA_SIZE + i * bsz k.
Definition is_block (k : nat) (a p : Z) : Prop := ∃ i, 0 ≤ i < bpa k ∧ p = block k a i.
Fixpoint blocks_from (k : nat) (a i : Z) (n : nat) : list Z :=
  match n with O => [] | S n => block k a i :: blocks_from k a (i + 1) n end.
Definition blocks (k : nat) (a : Z) : list Z := blocks_from k a 0 (Z.to_nat (bpa k)).
Definition in_page (a p : Z) : Prop := a ≤ p < a + PGSIZE.
#[global] Instance in_page_dec a p : Decision (in_page a p) := _.

Lemma bsz_bounds k : (k < 7)%nat → 16 ≤ bsz k ≤ 1024 ∧ 3 ≤ bpa k ≤ 255 ∧ bpa k * bsz k ≤ 4084.
Proof. intros Hk. do 7 (destruct k as [|k]; [vm_compute; intuition congruence|]). lia. Qed.

Lemma is_block_bounds k a p : (k < 7)%nat → is_block k a p → a + ARENA_SIZE ≤ p ∧ p + bsz k ≤ a + PGSIZE.
Proof.
  intros Hk (i & Hi & ->). destruct (bsz_bounds k Hk) as (H1 & H2 & H3).
  unfold block, ARENA_SIZE. rewrite PGSIZE_val. nia.
Qed.

Lemma is_block_in_page k a p : (k < 7)%nat → is_block k a p → in_page a p.
Proof.
  intros Hk Hp. apply is_block_bounds in Hp; [|done]. pose proof (bsz_bounds k Hk).
  unfold in_page, ARENA_SIZE in *. lia.
Qed.

(** Blocks of an arena do not overlap. *)
Lemma is_block_apart k a p q :
  (k < 7)%nat → is_block k a p → is_block k a q → p < q → p + bsz k ≤ q.
Proof.
  intros Hk (i & Hi & ->) (j & Hj & ->). destruct (bsz_bounds k Hk) as (H1 & H2 & H3).
  unfold block. intros. assert (i < j) by nia. nia.
Qed.

Lemma block_inj k a i j : (k < 7)%nat → block k a i = block k a j → i = j.
Proof. intros Hk. destruct (bsz_bounds k Hk). unfold block. nia. Qed.

Lemma elem_of_blocks_from k a i n p :
  p ∈ blocks_from k a i n ↔ ∃ j, i ≤ j < i + Z.of_nat n ∧ p = block k a j.
Proof.
  revert i. induction n as [|n IH]; intros i; cbn [blocks_from].
  - split; [by intros ?%elem_of_nil|]. intros (j & ? & _). lia.
  - rewrite elem_of_cons, IH. split.
    + intros [->|(j & Hj & ->)]; [exists i; split; [lia|done]|exists j; split; [lia|done]].
    + intros (j & Hj & ->). destruct (Z.eq_dec j i) as [->|Hne]; [by left|right].
      exists j. split; [lia|done].
Qed.

Lemma elem_of_blocks k a p : (k < 7)%nat → p ∈ blocks k a ↔ is_block k a p.
Proof.
  intros Hk. destruct (bsz_bounds k Hk) as (_ & H & _). unfold blocks, is_block.
  rewrite elem_of_blocks_from, Z2Nat.id by lia. done.
Qed.

Lemma NoDup_blocks_from k a i n : (k < 7)%nat → NoDup (blocks_from k a i n).
Proof.
  intros Hk. revert i. induction n as [|n IH]; intros i; cbn [blocks_from]; constructor; [|done].
  rewrite elem_of_blocks_from. intros (j & Hj & E). apply block_inj in E; [lia|done].
Qed.

Lemma NoDup_blocks k a : (k < 7)%nat → NoDup (blocks k a).
Proof. apply NoDup_blocks_from. Qed.

Lemma length_blocks k a : length (blocks k a) = Z.to_nat (bpa k).
Proof. unfold blocks. generalize 0. induction (Z.to_nat (bpa k)); intros; simpl; auto. Qed.

(** ** The invariant *)

Definition arena_pages (x : arena) : Z := match a_desc x with Some _ => 1 | None => free_cnt x end.

(** The part of a free list inside one page. *)
Definition of_page (a : Z) (l : list Z) : list Z := base.filter (in_page a) l.

(** A request for [n] bytes served at [p] by the arena [x] at [a]. *)
Definition placed (a : Z) (x : arena) (p n : Z) : Prop :=
  match a_desc x with
  | Some k => (k < 7)%nat ∧ is_block k a p ∧ n ≤ bsz k
  | None => p = a + ARENA_SIZE ∧ n ≤ PGSIZE * free_cnt x - ARENA_SIZE
  end.

Record blocks_ok (e : option Z) (P : palloc) (F : nat → list Z) (A : gmap Z arena) (live : gmap Z Z) : Prop := {
  b_arena a x : A !! a = Some x →
    magic x = ARENA_MAGIC ∧ 0 < arena_pages x ∧
    ∃ i, a = page Kernel P i ∧ run Kernel P i (arena_pages x) true;
  b_apart a x a' x' : A !! a = Some x → A !! a' = Some x' → a < a' → a + PGSIZE * arena_pages x ≤ a';
  b_big a x : A !! a = Some x → a_desc x = None → is_Some (live !! (a + ARENA_SIZE));
  b_small a x k : A !! a = Some x → a_desc x = Some k →
    (k < 7)%nat ∧ free_cnt x = Z.of_nat (length (of_page a (F k))) ∧
    (e = Some a ∨ free_cnt x < bpa k) ∧ ∀ p, is_block k a p → p ∈ F k ∨ is_Some (live !! p);
  b_nodup k : (k < 7)%nat → NoDup (F k);
  b_free k p : (k < 7)%nat → p ∈ F k →
    live !! p = None ∧ ∃ a x, A !! a = Some x ∧ a_desc x = Some k ∧ is_block k a p;
  b_live p n : live !! p = Some n → 0 < n ∧ ∃ a x, A !! a = Some x ∧ placed a x p n
}.

(** A page belongs to at most one arena. *)
Lemma arena_unique e P F A live a x a' x' p :
  blocks_ok e P F A live → A !! a = Some x → A !! a' = Some x' →
  in_page a p → in_page a' p → a = a'.
Proof.
  intros Hok Ha Ha' Hp Hp'. unfold in_page in *. rewrite PGSIZE_val in *.
  destruct (b_arena _ _ _ _ _ Hok a x Ha) as (_ & H1 & _).
  destruct (b_arena _ _ _ _ _ Hok a' x' Ha') as (_ & H2 & _).
  destruct (Z.lt_trichotomy a a') as [H|[H|H]]; [|done|];
    [assert (H3 := b_apart _ _ _ _ _ Hok a x a' x' Ha Ha' H)
    |assert (H3 := b_apart _ _ _ _ _ Hok a' x' a x Ha' Ha H)]; rewrite PGSIZE_val in *; lia.
Qed.

(** The free list of [k] has, in the page of an arena of [k], blocks of that
    arena. *)
Lemma of_page_blocks e P F A live a x k p :
  blocks_ok e P F A live → A !! a = Some x → a_desc x = Some k → p ∈ of_page a (F k) → is_block k a p.
Proof.
  intros Hok Ha Hk Hp. apply list_elem_of_filter in Hp as [Hin Hp].
  destruct (b_small _ _ _ _ _ Hok a x k Ha Hk) as (Hk7 & _).
  destruct (b_free _ _ _ _ _ Hok k p Hk7 Hp) as (_ & a' & x' & Ha' & _ & Hb).
  assert (a = a') as ->; [|done].
  eapply (arena_unique _ _ _ _ _ a x a' x' p Hok); try done. by eapply is_block_in_page.
Qed.

(** An arena that counts all its blocks free has them all on the list. *)
Lemma all_free e P F A live a x k p :
  blocks_ok e P F A live → A !! a = Some x → a_desc x = Some k → bpa k ≤ free_cnt x →
  is_block k a p → p ∈ F k.
Proof.
  intros Hok Ha Hk Hfull Hp.
  destruct (b_small _ _ _ _ _ Hok a x k Ha Hk) as (Hk7 & Hcnt & _).
  assert (Hperm : of_page a (F k) ≡ₚ blocks k a).
  { apply submseteq_length_Permutation.
    - apply NoDup_submseteq; [apply NoDup_filter, (b_nodup _ _ _ _ _ Hok k Hk7)|].
      intros q Hq. apply elem_of_blocks; [done|]. by eapply of_page_blocks.
    - rewrite length_blocks. lia. }
  assert (Hin : p ∈ of_page a (F k)) by (rewrite Hperm; by apply elem_of_blocks).
  by apply list_elem_of_filter in Hin as [_ ?].
Qed.

(** Live blocks are inside their arena, and do not overlap. *)
Lemma placed_range a x p n :
  placed a x p n → a + ARENA_SIZE ≤ p ∧ p + n ≤ a + PGSIZE * arena_pages x.
Proof.
  unfold placed, arena_pages. destruct (a_desc x) as [k|].
  - intros (Hk & Hb & Hle). pose proof (is_block_bounds k a p Hk Hb). lia.
  - intros (-> & Hle). lia.
Qed.

Lemma live_disjoint e P F A live p n q m :
  blocks_ok e P F A live → live !! p = Some n → live !! q = Some m → p < q → p + n ≤ q.
Proof.
  intros Hok Hp Hq Hlt.
  destruct (b_live _ _ _ _ _ Hok p n Hp) as (Hn & a & x & Ha & Hx).
  destruct (b_live _ _ _ _ _ Hok q m Hq) as (Hm & a' & x' & Ha' & Hx').
  pose proof (placed_range _ _ _ _ Hx). pose proof (placed_range _ _ _ _ Hx'). unfold ARENA_SIZE in *.
  destruct (Z.lt_trichotomy a a') as [Hl|[<-|Hl]].
  - pose proof (b_apart _ _ _ _ _ Hok a x a' x' Ha Ha' Hl). lia.
  - rewrite Ha in Ha'. injection Ha' as <-. unfold placed in *. destruct (a_desc x) as [k|]; [|lia].
    destruct Hx as (Hk & Hb & Hle), Hx' as (_ & Hb' & _).
    pose proof (is_block_apart k a p q Hk Hb Hb' Hlt). lia.
  - pose proof (b_apart _ _ _ _ _ Hok a' x' a x Ha' Ha Hl). lia.
Qed.

(** With nothing handed out, there are no arenas. *)
Lemma nothing_live P F A : blocks_ok None P F A ∅ → A = ∅.
Proof.
  intros Hok. apply map_eq. intros a. rewrite lookup_empty. destruct (A !! a) as [x|] eqn:Ha; [exfalso|done].
  destruct (a_desc x) as [k|] eqn:Hk.
  - destruct (b_small _ _ _ _ _ Hok a x k Ha Hk) as (Hk7 & Hcnt & [?|Hlt] & Hall); [done|].
    assert (Hsub : blocks k a ⊆+ of_page a (F k)).
    { apply NoDup_submseteq; [by apply NoDup_blocks|]. intros p Hp. apply elem_of_blocks in Hp; [|done].
      apply list_elem_of_filter. split; [by eapply is_block_in_page|].
      destruct (Hall p Hp) as [?|[? E]]; [done|]. by rewrite lookup_empty in E. }
    apply submseteq_length in Hsub. rewrite length_blocks in Hsub. lia.
  - destruct (b_big _ _ _ _ _ Hok a x Ha Hk) as [? E]. by rewrite lookup_empty in E.
Qed.

(** ** Handing out and taking back a block of an arena *)

Lemma of_page_cons_in a p l : in_page a p → of_page a (p :: l) = p :: of_page a l.
Proof. intros. by apply filter_cons_True. Qed.

Lemma of_page_cons_out a p l : ¬ in_page a p → of_page a (p :: l) = of_page a l.
Proof. intros. by apply filter_cons_False. Qed.

Lemma of_page_all a l : (∀ p, p ∈ l → in_page a p) → of_page a l = l.
Proof.
  induction l as [|q l IH]; intros H; [done|]. rewrite of_page_cons_in by (apply H; set_solver).
  f_equal. apply IH. set_solver.
Qed.

Lemma of_page_none a l : (∀ p, p ∈ l → ¬ in_page a p) → of_page a l = [].
Proof.
  induction l as [|q l IH]; intros H; [done|]. rewrite of_page_cons_out by (apply H; set_solver).
  apply IH. set_solver.
Qed.

(** Changing the count of an arena keeps its pages. *)
Lemma recount_pages x k c : a_desc x = Some k → arena_pages (MkArena ARENA_MAGIC (Some k) c) = arena_pages x.
Proof. intros H. unfold arena_pages. by rewrite H. Qed.

Section recount.
Context (e : option Z) (P : palloc) (F F' : nat → list Z) (A : gmap Z arena) (live : gmap Z Z).
Context (a : Z) (x : arena) (k : nat) (c : Z).
Context (Hok : blocks_ok e P F A live) (Ha : A !! a = Some x) (Hk : a_desc x = Some k).
Let A' := <[a := MkArena ARENA_MAGIC (Some k) c]> A.

(** Arenas of [A] and of [A'] have the same descriptor and pages. *)
Lemma recount_lookup b y : A' !! b = Some y →
  ∃ z, A !! b = Some z ∧ a_desc y = a_desc z ∧ arena_pages y = arena_pages z ∧ magic y = ARENA_MAGIC ∧
       (b ≠ a → y = z).
Proof.
  unfold A'. intros Hb. destruct (decide (b = a)) as [->|Hne].
  - rewrite lookup_insert_eq in Hb. injection Hb as <-. exists x. rewrite (recount_pages x) by done.
    split; [done|]. by rewrite Hk.
  - rewrite lookup_insert_ne in Hb by done. exists y.
    by destruct (b_arena _ _ _ _ _ Hok b y Hb) as (? & _).
Qed.

Lemma recount_lookup_2 b z : A !! b = Some z → ∃ y, A' !! b = Some y ∧ a_desc y = a_desc z ∧
  (a_desc z = None → y = z).
Proof.
  unfold A'. intros Hb. destruct (decide (b = a)) as [->|Hne].
  - rewrite lookup_insert_eq. simplify_eq. eexists. split; [done|]. simpl. split; [done|congruence].
  - rewrite lookup_insert_ne by done. eauto.
Qed.

Lemma recount_placed b z p n : A !! b = Some z → placed b z p n → ∃ y, A' !! b = Some y ∧ placed b y p n.
Proof.
  intros Hb Hp. destruct (recount_lookup_2 b z Hb) as (y & Hy & Hd & Hbig). exists y. split; [done|].
  unfold placed in *. rewrite Hd. destruct (a_desc z) eqn:E; [done|]. by rewrite Hbig.
Qed.
End recount.

(** Block [p] of arena [a] moves between the free list and the live blocks. *)
Section move.
Context (e e' : option Z) (P : palloc) (F F' : nat → list Z) (A : gmap Z arena) (live live' : gmap Z Z).
Context (a : Z) (x : arena) (k : nat) (p : Z).
Context (Hok : blocks_ok e P F A live) (Ha : A !! a = Some x) (Hk : a_desc x = Some k) (Hp : is_block k a p).
Context (HFj : ∀ j, j ≠ k → F' j = F j) (HFk : ∀ q, q ≠ p → q ∈ F' k ↔ q ∈ F k).
Context (HFb : ∀ b, ¬ in_page b p → of_page b (F' k) = of_page b (F k)).
Context (Hlive : ∀ q, q ≠ p → live' !! q = live !! q) (He : ∀ b, b ≠ a → e = Some b → e' = Some b).

Lemma move_desc : (k < 7)%nat.
Proof using Hok Ha Hk. by apply (b_small _ _ _ _ _ Hok a x k Ha Hk). Qed.

Lemma move_in_page : in_page a p.
Proof using Hok Ha Hk Hp. eapply is_block_in_page; [apply move_desc|done]. Qed.

Lemma move_mem j q : q ≠ p → q ∈ F' j ↔ q ∈ F j.
Proof using HFj HFk. intros Hq. destruct (decide (j = k)) as [->|Hj]; [by apply HFk|by rewrite HFj]. Qed.

(** Only arena [a] has [p]. *)
Lemma move_page b z : A !! b = Some z → in_page b p → b = a.
Proof using Hok Ha Hk Hp.
  intros Hb Hbp. eapply (arena_unique _ _ _ _ _ b z a x p Hok); try done. apply move_in_page.
Qed.

Lemma move_not_free j : (j < 7)%nat → j ≠ k → p ∉ F j.
Proof using Hok Ha Hk Hp.
  intros Hj Hjk Hin. destruct (b_free _ _ _ _ _ Hok j p Hj Hin) as (_ & b & z & Hz & Hd & Hb).
  assert (b = a) as -> by (eapply move_page; [done|by eapply is_block_in_page]). congruence.
Qed.

(** The other arenas are as they were. *)
Lemma move_small b z j : b ≠ a → A !! b = Some z → a_desc z = Some j →
  (j < 7)%nat ∧ free_cnt z = Z.of_nat (length (of_page b (F' j))) ∧
  (e' = Some b ∨ free_cnt z < bpa j) ∧ ∀ q, is_block j b q → q ∈ F' j ∨ is_Some (live' !! q).
Proof using Hok Ha Hk Hp HFj HFk HFb Hlive He.
  intros Hb Hz Hd. destruct (b_small _ _ _ _ _ Hok b z j Hz Hd) as (Hj & Hc & Hlt & Hbl).
  assert (Hnp : ¬ in_page b p) by (intros Hbp; by apply Hb, (move_page b z)).
  split; [done|]. split; [|split].
  - rewrite Hc. destruct (decide (j = k)) as [->|Hjk]; [by rewrite HFb|by rewrite HFj].
  - destruct Hlt; eauto.
  - intros q Hq. assert (Hqp : q ≠ p) by (intros ->; by apply Hnp, (is_block_in_page j)).
    rewrite move_mem, Hlive by done. by apply Hbl.
Qed.

Lemma move_ok c :
  c = Z.of_nat (length (of_page a (F' k))) → (e' = Some a ∨ c < bpa k) → NoDup (F' k) →
  (p ∈ F' k ∧ live' !! p = None ∨ p ∉ F' k ∧ ∃ n, live' !! p = Some n ∧ 0 < n ≤ bsz k) →
  blocks_ok e' P F' (<[a := MkArena ARENA_MAGIC (Some k) c]> A) live'.
Proof using Hok Ha Hk Hp HFj HFk HFb Hlive He.
  intros Hc Hfull Hnd Hpcase. assert (Hk7 := move_desc).
  assert (Hlook := recount_lookup _ _ _ _ _ _ _ _ c Hok Ha Hk).
  assert (Hlook2 := recount_lookup_2 A a x k c Ha Hk). constructor.
  - intros b y Hb. apply Hlook in Hb as (z & Hz & Hd & -> & -> & _).
    by destruct (b_arena _ _ _ _ _ Hok b z Hz) as (_ & ?).
  - intros b y b' y' (z & Hz & _ & -> & _)%Hlook (z' & Hz' & _)%Hlook.
    by apply (b_apart _ _ _ _ _ Hok b z b' z').
  - intros b y (z & Hz & -> & _ & _ & _)%Hlook Hd. rewrite Hlive; [by apply (b_big _ _ _ _ _ Hok b z)|].
    intros E. assert (b = a) as ->; [|congruence]. apply (move_page b z Hz). rewrite <- E.
    unfold in_page, ARENA_SIZE. rewrite PGSIZE_val. lia.
  - intros b y j Hb Hd. destruct (decide (b = a)) as [->|Hba].
    + rewrite lookup_insert_eq in Hb. injection Hb as <-. injection Hd as <-. simpl.
      split_and!; [done..|]. intros q Hq. destruct (decide (q = p)) as [->|Hqp]; [naive_solver|].
      rewrite move_mem, Hlive by done. by apply (b_small _ _ _ _ _ Hok a x k Ha Hk).
    + rewrite lookup_insert_ne in Hb by done. by apply move_small.
  - intros j Hj. destruct (decide (j = k)) as [->|Hjk]; [done|]. rewrite HFj by done. by apply Hok.
  - intros j q Hj Hq. destruct (decide (q = p)) as [->|Hqp].
    + assert (j = k) as ->.
      { destruct (decide (j = k)) as [|Hjk]; [done|]. rewrite HFj in Hq by done. by destruct (move_not_free j Hj Hjk). }
      split; [naive_solver|]. eexists a, _. rewrite lookup_insert_eq. done.
    + rewrite move_mem in Hq by done. destruct (b_free _ _ _ _ _ Hok j q Hj Hq) as (? & b & z & Hz & Hd & Hb).
      rewrite Hlive by done. split; [done|]. destruct (Hlook2 b z Hz) as (y & Hy & Hd' & _).
      exists b, y. by rewrite Hd'.
  - intros q m Hq. destruct (decide (q = p)) as [->|Hqp].
    + destruct Hpcase as [[_ ?]|(_ & n & ? & Hn)]; [congruence|]. assert (m = n) as -> by congruence.
      split; [lia|]. eexists a, _. rewrite lookup_insert_eq. split; [done|]. unfold placed. simpl.
      split; [done|]. split; [done|lia].
    + rewrite Hlive in Hq by done. destruct (b_live _ _ _ _ _ Hok q m Hq) as (Hm & b & z & Hz & Hpl).
      destruct (recount_placed A a x k c Ha Hk b z q m Hz Hpl) as (y & Hy & ?). split; [done|]. by exists b, y.
Qed.
End move.

(** An arena has at most its blocks on the free list. *)
Lemma free_cnt_bound e P F A live a x k :
  blocks_ok e P F A live → A !! a = Some x → a_desc x = Some k → 0 ≤ free_cnt x ≤ bpa k.
Proof.
  intros Hok Ha Hk. destruct (b_small _ _ _ _ _ Hok a x k Ha Hk) as (Hk7 & Hcnt & _).
  assert (Hsub : of_page a (F k) ⊆+ blocks k a).
  { apply NoDup_submseteq; [apply NoDup_filter, (b_nodup _ _ _ _ _ Hok k Hk7)|].
    intros q Hq. apply elem_of_blocks; [done|]. by eapply of_page_blocks. }
  apply submseteq_length in Hsub. rewrite length_blocks in Hsub. pose proof (bsz_bounds k Hk7). lia.
Qed.

Lemma take_block e P F F' A live a x k p n :
  blocks_ok e P F A live → A !! a = Some x → a_desc x = Some k → is_block k a p →
  F k = p :: F' k → (∀ j, j ≠ k → F' j = F j) → (e = None ∨ e = Some a) → 0 < n ≤ bsz k →
  live !! p = None ∧ 0 < free_cnt x ∧
  blocks_ok None P F' (<[a := MkArena ARENA_MAGIC (Some k) (free_cnt x - 1)]> A) (<[p := n]> live).
Proof.
  intros Hok Ha Hk Hp HF HFj He Hn.
  destruct (b_small _ _ _ _ _ Hok a x k Ha Hk) as (Hk7 & Hcnt & _ & _).
  assert (Hle := free_cnt_bound _ _ _ _ _ a x k Hok Ha Hk).
  assert (Hpg : in_page a p) by (by eapply is_block_in_page).
  assert (Hnd := b_nodup _ _ _ _ _ Hok k Hk7). rewrite HF in Hnd. apply NoDup_cons in Hnd as [Hpl Hnd].
  destruct (b_free _ _ _ _ _ Hok k p Hk7) as [Hlive _]; [rewrite HF; set_solver|].
  rewrite HF, of_page_cons_in in Hcnt by done. simpl in Hcnt.
  split; [done|]. split; [lia|].
  apply (move_ok e None P F F' A live _ a x k p); try done; try lia.
  - intros q Hq. rewrite HF. set_solver.
  - intros b Hb. by rewrite HF, of_page_cons_out.
  - intros q Hq. by rewrite lookup_insert_ne.
  - intros b Hb. destruct He; congruence.
  - right. split; [done|]. exists n. by rewrite lookup_insert_eq.
Qed.

Lemma give_block P F F' A live a x k p :
  blocks_ok None P F A live → A !! a = Some x → a_desc x = Some k → is_block k a p →
  is_Some (live !! p) → F' k = p :: F k → (∀ j, j ≠ k → F' j = F j) →
  blocks_ok (Some a) P F' (<[a := MkArena ARENA_MAGIC (Some k) (free_cnt x + 1)]> A) (delete p live).
Proof.
  intros Hok Ha Hk Hp [m Hm] HF HFj.
  destruct (b_small _ _ _ _ _ Hok a x k Ha Hk) as (Hk7 & Hcnt & _ & _).
  assert (Hpg : in_page a p) by (by eapply is_block_in_page).
  assert (Hpl : p ∉ F k).
  { intros Hin. destruct (b_free _ _ _ _ _ Hok k p Hk7 Hin) as [? _]. congruence. }
  apply (move_ok None (Some a) P F F' A live _ a x k p); try done.
  - intros q Hq. rewrite HF. set_solver.
  - intros b Hb. by rewrite HF, of_page_cons_out.
  - intros q Hq. by rewrite lookup_delete_ne.
  - rewrite HF, of_page_cons_in by done. simpl. lia.
  - by left.
  - rewrite HF. apply NoDup_cons. split; [done|]. by apply Hok.
  - left. rewrite HF, lookup_delete_eq. split; [set_solver|done].
Qed.

(** The exception is no longer needed. *)
Lemma blocks_ok_drop e P F A live a x k :
  blocks_ok e P F A live → e = Some a → A !! a = Some x → a_desc x = Some k → free_cnt x < bpa k →
  blocks_ok None P F A live.
Proof.
  intros Hok -> Ha Hk Hlt. constructor; try apply Hok.
  intros b y j Hb Hj. destruct (b_small _ _ _ _ _ Hok b y j Hb Hj) as (H1 & H2 & [[= <-]|H3] & H4).
  - rewrite Ha in Hb. injection Hb as <-. rewrite Hk in Hj. injection Hj as <-. auto.
  - auto.
Qed.

End MallocInv.

Module MallocArena.
Import Palloc PallocSpec Malloc MallocInv.

(** Free pages are outside every arena. *)
Lemma free_outside e P F A live i n b y :
  blocks_ok e P F A live → run Kernel P i n false → 0 < n → A !! b = Some y →
  page Kernel P i + PGSIZE * n ≤ b ∨ b + PGSIZE * arena_pages y ≤ page Kernel P i.
Proof.
  intros Hok (Hi & Hin & Hf) Hn Hb. destruct (b_arena _ _ _ _ _ Hok b y Hb) as (_ & Hpos & j & -> & Hj & Hjm & Hu).
  destruct (Z.le_gt_cases (i + n) j) as [?|H1]; [left; unfold page; rewrite PGSIZE_val; lia|].
  destruct (Z.le_gt_cases (j + arena_pages y) i) as [?|H2]; [right; unfold page; rewrite PGSIZE_val; lia|].
  exfalso. assert (H3 := Hf (Z.max i j) ltac:(lia)). rewrite Hu in H3 by lia. done.
Qed.

(** ** New arenas *)
Section new.
Context (e : option Z) (P P' : palloc) (F : nat → list Z) (A : gmap Z arena) (live : gmap Z Z).
Context (i n : Z) (x : arena).
Context (Hok : blocks_ok e P F A live) (Hn : 0 < n) (Hfree : run Kernel P i n false).
Context (Hch : changed Kernel i n true P P') (Hx : arena_pages x = n) (Hmagic : magic x = ARENA_MAGIC).
Let a := page Kernel P i.

Lemma new_fresh : A !! a = None.
Proof using Hok Hn Hfree.
  destruct (A !! a) as [y|] eqn:Ha; [exfalso|done].
  destruct (b_arena _ _ _ _ _ Hok a y Ha) as (_ & Hpos & _).
  destruct (free_outside _ _ _ _ _ i n a y Hok Hfree Hn Ha); subst a; rewrite PGSIZE_val in *; lia.
Qed.

Lemma new_arena b y : <[a := x]> A !! b = Some y →
  magic y = ARENA_MAGIC ∧ 0 < arena_pages y ∧ ∃ j, b = page Kernel P' j ∧ run Kernel P' j (arena_pages y) true.
Proof using Hok Hn Hfree Hch Hx Hmagic.
  destruct Hfree as (Hi & Hin & _). intros [(<- & <-)|(Hne & Hb)]%lookup_insert_Some.
  - rewrite Hx. split; [done|]. split; [done|]. exists i. split; [symmetry; apply (changed_page _ _ _ _ _ _ _ _ Hch)|].
    by eapply run_new.
  - destruct (b_arena _ _ _ _ _ Hok b y Hb) as (? & ? & j & -> & Hj). split; [done|]. split; [done|].
    exists j. split; [symmetry; apply (changed_page _ _ _ _ _ _ _ _ Hch)|]. eapply run_changed; eauto.
Qed.

Lemma new_apart b y b' y' :
  <[a := x]> A !! b = Some y → <[a := x]> A !! b' = Some y' → b < b' → b + PGSIZE * arena_pages y ≤ b'.
Proof using Hok Hn Hfree Hx.
  intros [(<- & <-)|(Hne & Hb)]%lookup_insert_Some [(<- & <-)|(Hne' & Hb')]%lookup_insert_Some Hlt; [lia|..].
  - rewrite Hx. destruct (b_arena _ _ _ _ _ Hok b' y' Hb') as (_ & ? & _).
    destruct (free_outside _ _ _ _ _ i n b' y' Hok Hfree Hn Hb'); subst a; rewrite PGSIZE_val in *; lia.
  - destruct (free_outside _ _ _ _ _ i n b y Hok Hfree Hn Hb); subst a; rewrite PGSIZE_val in *; lia.
  - by apply (b_apart _ _ _ _ _ Hok b y b' y').
Qed.

(** Nothing handed out is in the new pages. *)
Lemma new_outside p : a ≤ p < a + PGSIZE * n → live !! p = None ∧ ∀ k, (k < 7)%nat → p ∉ F k.
Proof using Hok Hn Hfree.
  intros Hp. assert (Hout : ∀ b y q m, A !! b = Some y → placed b y q m → 0 < m → q ≠ p).
  { intros b y q m Hb Hpl Hm ->. pose proof (placed_range _ _ _ _ Hpl). unfold ARENA_SIZE in *.
    destruct (free_outside _ _ _ _ _ i n b y Hok Hfree Hn Hb); subst a; lia. }
  split.
  - destruct (live !! p) as [m|] eqn:Hl; [exfalso|done].
    destruct (b_live _ _ _ _ _ Hok p m Hl) as (Hm & b & y & Hb & Hpl). by apply (Hout b y p m).
  - intros k Hk Hin. destruct (b_free _ _ _ _ _ Hok k p Hk Hin) as (_ & b & y & Hb & Hd & Hbl).
    apply (Hout b y p 1); [done| |done|done]. unfold placed. rewrite Hd.
    pose proof (bsz_bounds k Hk). split; [done|]. split; [done|lia].
Qed.
End new.

Lemma new_big P P' F A live i n m :
  blocks_ok None P F A live → 0 < n → run Kernel P i n false → changed Kernel i n true P P' →
  0 < m ≤ PGSIZE * n - ARENA_SIZE →
  live !! (page Kernel P i + ARENA_SIZE) = None ∧
  blocks_ok None P' F (<[page Kernel P i := MkArena ARENA_MAGIC None n]> A)
    (<[page Kernel P i + ARENA_SIZE := m]> live).
Proof.
  intros Hok Hn Hfree Hch Hm. set (a := page Kernel P i). set (x := MkArena ARENA_MAGIC None n).
  assert (Hfr : A !! a = None) by (by eapply new_fresh).
  destruct (new_outside None P F A live i n Hok Hn Hfree (a + ARENA_SIZE)) as [Hl HF].
  { subst a. unfold ARENA_SIZE. rewrite PGSIZE_val. lia. }
  assert (Hold : ∀ b y, A !! b = Some y → <[a := x]> A !! b = Some y).
  { intros b y Hb. rewrite lookup_insert_ne; [done|]. intros <-. congruence. }
  split; [done|]. constructor.
  - by eapply new_arena.
  - by eapply new_apart.
  - intros b y [(<- & _)|(_ & Hb)]%lookup_insert_Some Hd; [by rewrite lookup_insert_eq|].
    apply lookup_insert_is_Some'. right. by apply (b_big _ _ _ _ _ Hok b y).
  - intros b y k [(_ & <-)|(_ & Hb)]%lookup_insert_Some Hd; [done|].
    destruct (b_small _ _ _ _ _ Hok b y k Hb Hd) as (H1 & H2 & H3 & H4). split_and!; try done.
    intros p Hp. destruct (H4 p Hp); [by left|right]. apply lookup_insert_is_Some'. by right.
  - apply Hok.
  - intros k p Hk Hp. destruct (b_free _ _ _ _ _ Hok k p Hk Hp) as (? & b & y & ? & ? & ?).
    rewrite lookup_insert_ne by (intros <-; by apply (HF k Hk)). split; [done|]. exists b, y. auto.
  - intros p m' [(<- & <-)|(_ & Hp)]%lookup_insert_Some.
    + split; [lia|]. exists a, x. rewrite lookup_insert_eq. split; [done|]. unfold placed. simpl. split; [done|lia].
    + destruct (b_live _ _ _ _ _ Hok p m' Hp) as (? & b & y & ? & ?). split; [done|]. exists b, y. auto.
Qed.

Lemma new_small P P' F F' A live i k :
  blocks_ok None P F A live → (k < 7)%nat → run Kernel P i 1 false → changed Kernel i 1 true P P' →
  F k = [] → F' k = blocks k (page Kernel P i) → (∀ j, j ≠ k → F' j = F j) →
  blocks_ok (Some (page Kernel P i)) P' F'
    (<[page Kernel P i := MkArena ARENA_MAGIC (Some k) (bpa k)]> A) live.
Proof.
  intros Hok Hk Hfree Hch HF HF' HFj. set (a := page Kernel P i). set (x := MkArena ARENA_MAGIC (Some k) (bpa k)).
  assert (Hfr : A !! a = None) by (by apply (new_fresh None P F A live i 1)).
  assert (Hold : ∀ b y, A !! b = Some y → <[a := x]> A !! b = Some y).
  { intros b y Hb. rewrite lookup_insert_ne; [done|]. intros <-. congruence. }
  destruct (bsz_bounds k Hk) as (_ & Hbpa & _).
  assert (Hmem : ∀ j p, p ∈ F j → p ∈ F' j).
  { intros j p Hp. destruct (decide (j = k)) as [->|Hj]; [|by rewrite HFj]. rewrite HF in Hp. set_solver. }
  assert (Hcnt : of_page a (blocks k a) = blocks k a).
  { apply of_page_all. intros p Hp. apply elem_of_blocks in Hp; [|done].
    by eapply is_block_in_page. }
  constructor.
  - by apply (new_arena None P P' F A live i 1 x).
  - by apply (new_apart None P F A live i 1 x).
  - intros b y [(_ & <-)|(_ & Hb)]%lookup_insert_Some Hd; [done|]. by apply (b_big _ _ _ _ _ Hok b y).
  - intros b y j [(<- & <-)|(Hne & Hb)]%lookup_insert_Some Hd.
    + injection Hd as <-. simpl. rewrite HF'. fold a. rewrite Hcnt, length_blocks. split_and!; [done|lia|by left|].
      intros p Hp. left. by apply elem_of_blocks.
    + destruct (b_small _ _ _ _ _ Hok b y j Hb Hd) as (H1 & H2 & [?|H3] & H4); [done|].
      split; [done|]. split; [|split; [by right|intros p Hp; destruct (H4 p Hp); auto]].
      destruct (decide (j = k)) as [->|Hj]; [|by rewrite HFj]. rewrite H2, HF, HF'. fold a.
      assert (of_page b (blocks k a) = []) as ->; [|done].
      apply of_page_none. intros p Hp Hbp. apply elem_of_blocks in Hp; [|done].
      apply is_block_in_page in Hp; [|done]. unfold in_page in *.
      destruct (b_arena _ _ _ _ _ Hok b y Hb) as (_ & ? & _).
      destruct (free_outside _ _ _ _ _ i 1 b y Hok Hfree ltac:(lia) Hb); subst a; rewrite PGSIZE_val in *; lia.
  - intros j Hj. destruct (decide (j = k)) as [->|Hjk]; [rewrite HF'; by apply NoDup_blocks|].
    rewrite HFj by done. by apply Hok.
  - intros j p Hj Hp. destruct (decide (j = k)) as [->|Hjk].
    + rewrite HF' in Hp. apply elem_of_blocks in Hp; [|done]. split.
      * apply (new_outside None P F A live i 1 Hok ltac:(lia) Hfree). fold a. rewrite Z.mul_1_r.
        by eapply is_block_in_page.
      * exists a, x. by rewrite lookup_insert_eq.
    + rewrite HFj in Hp by done. destruct (b_free _ _ _ _ _ Hok j p Hj Hp) as (? & b & y & ? & ? & ?).
      split; [done|]. exists b, y. auto.
  - intros p m' Hp. destruct (b_live _ _ _ _ _ Hok p m' Hp) as (? & b & y & ? & ?). split; [done|]. exists b, y. auto.
Qed.

(** ** Arenas given back *)
Section drop.
Context (e : option Z) (P P' : palloc) (F : nat → list Z) (A : gmap Z arena) (live : gmap Z Z).
Context (a i : Z) (x : arena).
Context (Hok : blocks_ok e P F A live) (Ha : A !! a = Some x) (Hai : a = page Kernel P i).
Context (Hch : changed Kernel i (arena_pages x) false P P').

Lemma drop_arena b y : delete a A !! b = Some y →
  magic y = ARENA_MAGIC ∧ 0 < arena_pages y ∧ ∃ j, b = page Kernel P' j ∧ run Kernel P' j (arena_pages y) true.
Proof using Hok Ha Hai Hch.
  intros (Hne & Hb)%lookup_delete_Some. destruct (b_arena _ _ _ _ _ Hok b y Hb) as (? & ? & j & Hbj & Hj).
  destruct (b_arena _ _ _ _ _ Hok a x Ha) as (_ & ? & _).
  split; [done|]. split; [done|]. exists j. rewrite (changed_page _ _ _ _ _ _ _ _ Hch). split; [done|].
  eapply run_changed; [done..|]. right. unfold page in *. rewrite PGSIZE_val in *.
  destruct (Z.lt_trichotomy a b) as [Hlt|[?|Hlt]]; [|done|].
  - pose proof (b_apart _ _ _ _ _ Hok a x b y Ha Hb Hlt). rewrite PGSIZE_val in *. lia.
  - pose proof (b_apart _ _ _ _ _ Hok b y a x Hb Ha Hlt). rewrite PGSIZE_val in *. lia.
Qed.

Lemma drop_apart b y b' y' :
  delete a A !! b = Some y → delete a A !! b' = Some y' → b < b' → b + PGSIZE * arena_pages y ≤ b'.
Proof using Hok.
  intros (_ & Hb)%lookup_delete_Some (_ & Hb')%lookup_delete_Some. by apply (b_apart _ _ _ _ _ Hok b y b' y').
Qed.
End drop.

Lemma drop_big P P' F A live a i x :
  blocks_ok None P F A live → A !! a = Some x → a_desc x = None → a = page Kernel P i →
  changed Kernel i (free_cnt x) false P P' →
  blocks_ok None P' F (delete a A) (delete (a + ARENA_SIZE) live).
Proof.
  intros Hok Ha Hd Hai Hch.
  assert (Hch' : changed Kernel i (arena_pages x) false P P') by (unfold arena_pages; by rewrite Hd).
  assert (Hpg : in_page a (a + ARENA_SIZE)) by (unfold in_page, ARENA_SIZE; rewrite PGSIZE_val; lia).
  assert (Hother : ∀ k b y p, A !! b = Some y → a_desc y = Some k → (k < 7)%nat → is_block k b p → p ≠ a + ARENA_SIZE).
  { intros k b y p Hb Hdy Hk Hp ->. assert (b = a) as ->; [|congruence].
    eapply (arena_unique _ _ _ _ _ b y a x _ Hok); try done. by eapply is_block_in_page. }
  constructor.
  - by eapply drop_arena.
  - by eapply drop_apart.
  - intros b y (Hne & Hb)%lookup_delete_Some Hdy. rewrite lookup_delete_ne by lia. by apply (b_big _ _ _ _ _ Hok b y).
  - intros b y k (Hne & Hb)%lookup_delete_Some Hdy.
    destruct (b_small _ _ _ _ _ Hok b y k Hb Hdy) as (H1 & H2 & H3 & H4). split_and!; try done.
    intros p Hp. rewrite lookup_delete_ne by (apply not_eq_sym; by eapply Hother). by apply H4.
  - apply Hok.
  - intros k p Hk Hp. destruct (b_free _ _ _ _ _ Hok k p Hk Hp) as (? & b & y & ? & ? & ?).
    split; [apply lookup_delete_None; by right|]. exists b, y. rewrite lookup_delete_ne by congruence. auto.
  - intros p m (Hne & Hp)%lookup_delete_Some. destruct (b_live _ _ _ _ _ Hok p m Hp) as (? & b & y & Hb & Hpl).
    split; [done|]. exists b, y. rewrite lookup_delete_ne; [done|]. intros <-. apply Hne.
    rewrite Ha in Hb. injection Hb as <-. unfold placed in Hpl. rewrite Hd in Hpl. by destruct Hpl.
Qed.

Lemma drop_small P P' F F' A live a i x k :
  blocks_ok (Some a) P F A live → A !! a = Some x → a_desc x = Some k → bpa k ≤ free_cnt x →
  a = page Kernel P i → changed Kernel i 1 false P P' →
  F' k = base.filter (λ p, p ∉ blocks k a) (F k) → (∀ j, j ≠ k → F' j = F j) →
  blocks_ok None P' F' (delete a A) live.
Proof.
  intros Hok Ha Hd Hfull Hai Hch HF' HFj.
  destruct (b_small _ _ _ _ _ Hok a x k Ha Hd) as (Hk & _).
  assert (Hch' : changed Kernel i (arena_pages x) false P P') by (unfold arena_pages; by rewrite Hd).
  assert (Hsub : ∀ j p, p ∈ F' j → p ∈ F j).
  { intros j p Hp. destruct (decide (j = k)) as [->|Hj]; [|by rewrite <- HFj].
    rewrite HF' in Hp. by apply list_elem_of_filter in Hp as [_ ?]. }
  assert (Hout : ∀ b y p, A !! b = Some y → b ≠ a → in_page b p → p ∉ blocks k a).
  { intros b y p Hb Hne Hbp Hap. apply Hne. eapply (arena_unique _ _ _ _ _ b y a x p Hok); try done.
    apply elem_of_blocks in Hap; [|done]. by eapply is_block_in_page. }
  constructor.
  - by eapply drop_arena.
  - by eapply drop_apart.
  - intros b y (Hne & Hb)%lookup_delete_Some Hdy. by apply (b_big _ _ _ _ _ Hok b y).
  - intros b y j (Hne & Hb)%lookup_delete_Some Hdy.
    destruct (b_small _ _ _ _ _ Hok b y j Hb Hdy) as (H1 & H2 & [[= ?]|H3] & H4); [congruence|].
    split; [done|]. destruct (decide (j = k)) as [->|Hj].
    + rewrite HF'. split; [|split; [by right|]].
      * rewrite H2. unfold of_page. do 2 f_equal. rewrite list_filter_filter. apply list_filter_iff.
        intros p. split; [|by intros []]. intros Hp. split; [done|]. by eapply Hout.
      * intros p Hp. destruct (H4 p Hp); [left|by right]. apply list_elem_of_filter. split; [|done].
        eapply Hout; [done|done|by eapply is_block_in_page].
    + rewrite HFj by done. auto.
  - intros j Hj. destruct (decide (j = k)) as [->|Hjk]; [rewrite HF'; by apply NoDup_filter, Hok|].
    rewrite HFj by done. by apply Hok.
  - intros j p Hj Hp. destruct (b_free _ _ _ _ _ Hok j p Hj (Hsub _ _ Hp)) as (? & b & y & Hb & Hdy & Hbl).
    split; [done|]. exists b, y. rewrite lookup_delete_ne; [done|]. intros <-. assert (j = k) as -> by congruence.
    rewrite HF' in Hp. apply list_elem_of_filter in Hp as [Hnp _]. apply Hnp. by apply elem_of_blocks.
  - intros p m Hp. destruct (b_live _ _ _ _ _ Hok p m Hp) as (? & b & y & Hb & Hpl).
    split; [done|]. exists b, y. rewrite lookup_delete_ne; [done|]. intros <-.
    rewrite Ha in Hb. injection Hb as <-. unfold placed in Hpl. rewrite Hd in Hpl. destruct Hpl as (_ & Hbl & _).
    assert (Hin : p ∈ F k) by (by eapply all_free). destruct (b_free _ _ _ _ _ Hok k p Hk Hin) as [? _]. congruence.
Qed.

End MallocArena.
