(* ===== verification/MallocRun.v ===== *)
(** * Running the steps of the block allocator

    Each step of [malloc.c] returns, under the invariant of [MallocInv], with
    the state given here. *)
From S2P Require Import Prelude CInt Bitmap Palloc PallocSpec Malloc MallocArena.

Open Scope Z_scope.

Module MallocRun.
Import Palloc PallocSpec Malloc MallocInv MallocArena.

(** ** Descriptors *)

Definition fl (h : heap) (k : nat) : list Z :=
  match descs h !! k with Some y => free_list y | None => [] end.

Definition descs_ok (h : heap) : Prop :=
  desc_cnt h = 7%nat ∧ ∀ k, (k < 7)%nat → descs h !! k = Some (MkDesc (bsz k) (bpa k) (fl h k)).

(** The invariant of the allocator's state. *)
Record heap_inv (e : option Z) (h : heap) (live : gmap Z Z) : Prop := MkInv {
  h_pages : palloc_ok (pages h);
  h_descs : descs_ok h;
  h_blocks : blocks_ok e (pages h) (fl h) (arenas h) live
}.
Definition heap_ok : heap → gmap Z Z → Prop := heap_inv None.

Definition set_fl (k : nat) (l : list Z) (h : heap) : heap :=
  with_descs (<[k := MkDesc (bsz k) (bpa k) l]> (descs h)) h.

Lemma get_desc_ok h k : descs_ok h → (k < 7)%nat → get_desc k h = Ok (MkDesc (bsz k) (bpa k) (fl h k), h).
Proof. intros [_ H] Hk. unfold get_desc. erewrite run_bind_ok; [|reflexivity]. by apply run_deref, H. Qed.

Lemma put_desc_ok h k l : descs_ok h → (k < 7)%nat →
  put_desc k (MkDesc (bsz k) (bpa k) l) h = Ok (tt, set_fl k l h).
Proof.
  intros [_ H] Hk. unfold put_desc. erewrite run_bind_ok; [|reflexivity].
  run_deref; [done|by apply H].
Qed.

Lemma fl_set_fl h k l j : descs_ok h → (k < 7)%nat → fl (set_fl k l h) j = if decide (j = k) then l else fl h j.
Proof.
  intros [_ H] Hk. unfold fl, set_fl. simpl. destruct (decide (j = k)) as [->|Hj].
  - rewrite list_lookup_insert_eq; [done|]. eapply lookup_lt_Some, H, Hk.
  - by rewrite list_lookup_insert_ne.
Qed.

Lemma descs_ok_set_fl h k l : descs_ok h → (k < 7)%nat → descs_ok (set_fl k l h).
Proof.
  intros Hd Hk. split; [apply Hd|]. intros j Hj. rewrite fl_set_fl by done. simpl.
  destruct (decide (j = k)) as [->|Hne].
  - rewrite list_lookup_insert_eq; [done|]. eapply lookup_lt_Some, Hd, Hk.
  - rewrite list_lookup_insert_ne by done. by apply Hd.
Qed.

(** [find_desc] finds the smallest descriptor that is large enough. *)
Lemma find_desc_ok n d size h :
  descs_ok h → (d + n = 7)%nat →
  ∃ r, find_desc n d size h = Ok (r, h) ∧ (d ≤ r ≤ 7)%nat ∧ ((r < 7)%nat → size ≤ bsz r) ∧
       ∀ j, (d ≤ j < r)%nat → bsz j < size.
Proof.
  intros Hd. revert d. induction n as [|n IH]; intros d Hn; cbn [find_desc].
  - exists d. split; [done|]. split; [lia|]. split; intros; lia.
  - rewrite (run_bind_ok _ _ _ _ _ (get_desc_ok h d Hd ltac:(lia))). cbn [d_block_size].
    destruct (Z.leb_spec size (bsz d)) as [Hle|Hgt].
    + exists d. split; [done|]. split; [lia|]. split; [done|]. intros; lia.
    + destruct (IH (S d) ltac:(lia)) as (r & Hrun & Hr & H1 & H2). exists r. split; [done|].
      split; [lia|]. split; [done|]. intros j Hj. destruct (decide (j = d)) as [->|]; [lia|]. apply H2. lia.
Qed.

(** ** Memory *)

(** [h'] has the pools of [h], and its memory outside [n] bytes from [a]. *)
Definition kept (a n : Z) (h h' : heap) : Prop :=
  ∃ m, pages h' = with_bytes m (pages h) ∧
       ∀ q, ¬ (a ≤ q < a + n) → m !! q = bytes (pages h) !! q.

Lemma kept_refl a n h : kept a n h h.
Proof. exists (bytes (pages h)). by rewrite with_bytes_id. Qed.

Lemma kept_trans a n h h' h'' : kept a n h h' → kept a n h' h'' → kept a n h h''.
Proof.
  intros (m & E & H) (m' & E' & H'). exists m'. split; [by rewrite E', E|].
  intros q Hq. rewrite H', E by done. by apply H.
Qed.

Lemma kept_mono a n b m h h' : a ≤ b → b + m ≤ a + n → kept b m h h' → kept a n h h'.
Proof. intros H1 H2 (x & E & H). exists x. split; [done|]. intros q Hq. apply H. lia. Qed.

Lemma kept_bytes a n h h' q : kept a n h h' → ¬ (a ≤ q < a + n) → bytes (pages h') !! q = bytes (pages h) !! q.
Proof. intros (m & -> & H) Hq. by apply H. Qed.

Lemma on_bytes_run f h : on_bytes f h = Ok (tt, with_pages (with_bytes (f (bytes (pages h))) (pages h)) h).
Proof. done. Qed.

Lemma kept_forget a n h : kept a (Z.of_nat n) h (with_pages (with_bytes (forget n a (bytes (pages h))) (pages h)) h).
Proof. eexists. split; [done|]. intros q Hq. by apply forget_lookup. Qed.

Lemma put_arena_ok a x h :
  ∃ h', put_arena a x h = Ok (tt, h') ∧ kept a ARENA_SIZE h h' ∧ descs h' = descs h ∧
        desc_cnt h' = desc_cnt h ∧ arenas h' = <[a := x]> (arenas h).
Proof. eexists. split; [reflexivity|]. split; [apply (kept_forget a 12)|done]. Qed.

Lemma blocks_ok_bytes e P m F A live : blocks_ok e P F A live → blocks_ok e (with_bytes m P) F A live.
Proof. intros []. constructor; done. Qed.

Lemma kept_palloc_ok a n h h' : kept a n h h' → palloc_ok (pages h) → palloc_ok (pages h').
Proof. intros (m & -> & _). apply palloc_ok_bytes. Qed.

Lemma kept_blocks_ok e a n h h' F A live :
  kept a n h h' → blocks_ok e (pages h) F A live → blocks_ok e (pages h') F A live.
Proof. intros (m & -> & _). apply blocks_ok_bytes. Qed.

(** ** Free lists *)

Lemma arena_to_block_ok h a x k i :
  descs_ok h → arenas h !! a = Some x → magic x = ARENA_MAGIC → a_desc x = Some k → (k < 7)%nat →
  0 < a → a + PGSIZE < 2 ^ 32 → 0 ≤ i < bpa k → arena_to_block a i h = Ok (block k a i, h).
Proof.
  intros Hd Ha Hm Hk Hk7 H0 Hend Hi. unfold arena_to_block.
  run_assert; [|unfold NULL; destruct (Z.eqb_spec a 0); [lia|done]].
  erewrite run_bind_ok; [|unfold get_arena; erewrite run_bind_ok; [|reflexivity]; by apply run_deref].
  run_assert; [|by rewrite Hm]. run_deref; [|done]. run_with (get_desc_ok h k Hd Hk7). simpl.
  run_assert; [|lia]. pose proof (is_block_bounds k a (block k a i) Hk7) as Hb.
  rewrite u32_id; [done|]. unfold in_u32. fold (block k a i).
  destruct Hb as [H1 H2]; [by exists i|]. pose proof (bsz_bounds k Hk7). unfold ARENA_SIZE in *. lia.
Qed.

(** What a run over the free list of [k] leaves alone. *)
Definition only_list (k : nat) (a : Z) (h h' : heap) : Prop :=
  descs_ok h' ∧ (∀ j, j ≠ k → fl h' j = fl h j) ∧ arenas h' = arenas h ∧ kept a PGSIZE h h'.

Lemma push_blocks_ok n i h a x k :
  descs_ok h → arenas h !! a = Some x → magic x = ARENA_MAGIC → a_desc x = Some k → (k < 7)%nat →
  0 < a → a + PGSIZE < 2 ^ 32 → 0 ≤ i → i + Z.of_nat n ≤ bpa k →
  ∃ h', push_blocks n i a k h = Ok (tt, h') ∧ only_list k a h h' ∧ fl h' k = fl h k ++ blocks_from k a i n.
Proof.
  intros Hd Ha Hm Hk Hk7 H0 Hend. revert i h Hd Ha. induction n as [|n IH]; intros i h Hd Ha Hi Hn.
  - exists h. cbn [push_blocks blocks_from]. rewrite app_nil_r. split; [done|]. split; [|done].
    split_and!; try done. apply kept_refl.
  - cbn [push_blocks blocks_from]. run_with (arena_to_block_ok h a x k i Hd Ha Hm Hk Hk7 H0 Hend ltac:(lia)).
    set (h1 := with_pages (with_bytes (forget (Z.to_nat BLOCK_SIZE) (block k a i) (bytes (pages h))) (pages h)) h).
    set (h2 := set_fl k (fl h k ++ [block k a i]) h1).
    assert (Hpush : push_back k (block k a i) h = Ok (tt, h2)).
    { unfold push_back. run_with (on_bytes_run (forget (Z.to_nat BLOCK_SIZE) (block k a i)) h). fold h1.
      run_with (get_desc_ok h1 k Hd Hk7). by apply (put_desc_ok h1 k). }
    run_with Hpush. assert (Hd2 : descs_ok h2) by (by apply descs_ok_set_fl).
    destruct (IH (i + 1) h2 Hd2 Ha ltac:(lia) ltac:(lia)) as (h' & Hrun & (Hd' & Hj & Har & Hkept) & Hfl).
    exists h'. split; [done|]. split.
    + split_and!; try done.
      * intros j Hne. rewrite Hj by done. unfold h2. rewrite fl_set_fl by done. by destruct (decide (j = k)).
      * eapply kept_trans; [|exact Hkept]. pose proof (is_block_bounds k a (block k a i) Hk7) as [H1 H2];
          [exists i; split; [lia|done]|]. pose proof (bsz_bounds k Hk7). unfold ARENA_SIZE in *.
        apply (kept_mono _ _ (block k a i) 8); [lia..|]. apply (kept_forget (block k a i) 8).
    + rewrite Hfl. unfold h2. rewrite fl_set_fl by done. rewrite decide_True by done. by rewrite <- app_assoc.
Qed.

Lemma filter_not_cons b L (l : list Z) :
  base.filter (λ p, p ∉ L) (base.filter (λ p, p ≠ b) l) = base.filter (λ p, p ∉ b :: L) l.
Proof.
  rewrite list_filter_filter. apply list_filter_iff. intros p. rewrite not_elem_of_cons. tauto.
Qed.

Lemma remove_blocks_ok n i h a x k :
  descs_ok h → arenas h !! a = Some x → magic x = ARENA_MAGIC → a_desc x = Some k → (k < 7)%nat →
  0 < a → a + PGSIZE < 2 ^ 32 → 0 ≤ i → i + Z.of_nat n ≤ bpa k →
  (∀ p, p ∈ blocks_from k a i n → p ∈ fl h k) →
  ∃ h', remove_blocks n i a k h = Ok (tt, h') ∧ only_list k a h h' ∧
        fl h' k = base.filter (λ p, p ∉ blocks_from k a i n) (fl h k).
Proof.
  intros Hd Ha Hm Hk Hk7 H0 Hend. revert i h Hd Ha. induction n as [|n IH]; intros i h Hd Ha Hi Hn Hall.
  - exists h. cbn [remove_blocks blocks_from]. split; [done|]. split; [split_and!; try done; apply kept_refl|].
    induction (fl h k) as [|p l IHl]; [done|]. rewrite filter_cons_True by (by intros ?%elem_of_nil).
    f_equal. apply IHl. intros q Hq. by apply elem_of_nil in Hq.
  - cbn [remove_blocks blocks_from] in *.
    run_with (arena_to_block_ok h a x k i Hd Ha Hm Hk Hk7 H0 Hend ltac:(lia)).
    set (h2 := set_fl k (base.filter (λ c, c ≠ block k a i) (fl h k)) h).
    assert (Hrem : list_remove k (block k a i) h = Ok (tt, h2)).
    { unfold list_remove. run_with (get_desc_ok h k Hd Hk7). simpl.
      rewrite bool_decide_true by (apply Hall; set_solver). by apply put_desc_ok. }
    run_with Hrem. assert (Hd2 : descs_ok h2) by (by apply descs_ok_set_fl).
    assert (Hfl2 : fl h2 k = base.filter (λ c, c ≠ block k a i) (fl h k)).
    { unfold h2. rewrite fl_set_fl by done. by rewrite decide_True. }
    assert (Hnd := NoDup_blocks_from k a i (S n) Hk7). cbn [blocks_from] in Hnd. apply NoDup_cons in Hnd as [Hni _].
    destruct (IH (i + 1) h2 Hd2 Ha ltac:(lia) ltac:(lia)) as (h' & Hrun & (Hd' & Hj & Har & Hkept) & Hfl).
    { intros p Hp. rewrite Hfl2. apply list_elem_of_filter. split; [by intros ->|]. apply Hall. set_solver. }
    exists h'. split; [done|]. split.
    + split_and!; try done. intros j Hne. rewrite Hj by done. unfold h2. rewrite fl_set_fl by done.
      by destruct (decide (j = k)).
    + by rewrite Hfl, Hfl2, filter_not_cons.
Qed.

(** ** From a block to its arena *)

Lemma arena_bounds e h live a x :
  heap_inv e h live → arenas h !! a = Some x →
  a mod PGSIZE = 0 ∧ PHYS_BASE ≤ a ∧ a + PGSIZE * arena_pages x < 2 ^ 32.
Proof.
  intros Hinv Ha. destruct (b_arena _ _ _ _ _ (h_blocks _ _ _ Hinv) a x Ha) as (_ & Hpos & i & -> & Hi & Hn & _).
  assert (Hok := h_pages _ _ _ Hinv). split; [by apply page_aligned|].
  destruct (page_bounds Kernel (pages h) i Hok ltac:(lia)) as [H1 _]. split; [done|].
  assert (H2 := ok_high _ Hok Kernel). unfold page in *. rewrite PGSIZE_val in *. lia.
Qed.

Lemma page_of a p : a mod PGSIZE = 0 → 0 ≤ a → a + PGSIZE < 2 ^ 32 → in_page a p →
  pg_round_down p = a ∧ pg_ofs p = p - a.
Proof.
  unfold in_page. intros H1 H2 H3 H4. rewrite pg_round_down_div, pg_ofs_mod by (unfold in_u32; lia).
  rewrite PGSIZE_val in *. split; divlia.
Qed.

(** A well placed arena. *)
Definition arena_at (h : heap) (a : Z) (x : arena) : Prop :=
  arenas h !! a = Some x ∧ magic x = ARENA_MAGIC ∧ 0 < arena_pages x ∧
  a mod PGSIZE = 0 ∧ PHYS_BASE ≤ a ∧ a + PGSIZE * arena_pages x < 2 ^ 32.

Lemma arena_at_inv e h live a x : heap_inv e h live → arenas h !! a = Some x → arena_at h a x.
Proof.
  intros Hinv Ha. destruct (b_arena _ _ _ _ _ (h_blocks _ _ _ Hinv) a x Ha) as (? & ? & _).
  split_and!; try done; by apply (arena_bounds _ _ _ _ _ Hinv Ha).
Qed.

Lemma arena_at_same h h' a x : arenas h' = arenas h → arena_at h a x → arena_at h' a x.
Proof. unfold arena_at. by intros ->. Qed.

Lemma block_to_arena_ok h a x p n :
  descs_ok h → arena_at h a x → placed a x p n → 0 < n → block_to_arena p h = Ok (a, h).
Proof.
  intros Hd (Ha & Hm & Hpos & Hal & Hlo & Hhi) Hpl Hn. unfold PHYS_BASE in Hlo.
  assert (Hpg : in_page a p).
  { unfold placed, in_page in *. unfold ARENA_SIZE in *. rewrite PGSIZE_val. destruct (a_desc x) as [k|].
    - destruct Hpl as (Hk & Hb & _). apply is_block_in_page in Hb; [|done]. unfold in_page in Hb.
      by rewrite PGSIZE_val in Hb.
    - lia. }
  destruct (page_of a p Hal ltac:(lia)) as [E1 E2]; [rewrite PGSIZE_val in *; lia|done|].
  unfold block_to_arena. rewrite E1. run_assert; [|unfold NULL; destruct (Z.eqb_spec a 0); [lia|done]].
  erewrite run_bind_ok; [|unfold get_arena; erewrite run_bind_ok; [|reflexivity]; by apply run_deref].
  run_assert; [|by rewrite Hm]. unfold placed in Hpl. rewrite E2. destruct (a_desc x) as [k|].
  - destruct Hpl as (Hk & (i & Hi & ->) & _). erewrite run_bind_ok; [reflexivity|].
    run_with (get_desc_ok h k Hd Hk). apply run_assert. simpl.
    destruct (bsz_bounds k Hk) as (H1 & H2 & H3). unfold block, ARENA_SIZE in *.
    rewrite u32_id by (unfold in_u32; nia).
    replace (a + 12 + i * bsz k - a - 12) with (i * bsz k) by lia. rewrite Z.mod_mul by lia. done.
  - destruct Hpl as (-> & _). erewrite run_bind_ok; [reflexivity|]. apply run_assert.
    replace (a + ARENA_SIZE - a) with ARENA_SIZE by lia. by rewrite Z.eqb_refl.
Qed.

Lemma get_arena_ok h a x : arenas h !! a = Some x → get_arena a h = Ok (x, h).
Proof. intros Ha. unfold get_arena. erewrite run_bind_ok; [|reflexivity]. by apply run_deref. Qed.

End MallocRun.

(** * What the block allocator leaves alone

    [frame live h h']: from [h] to [h'] the bytes of the live blocks and the
    pages that others have from the page allocator stay as they are. *)

Module MallocFrame.
Import Palloc PallocSpec Malloc MallocInv MallocArena MallocRun.

(** Address [q] is in a page of an arena. *)
Definition covered (h : heap) (q : Z) : Prop :=
  ∃ a x, arenas h !! a = Some x ∧ a ≤ q < a + PGSIZE * arena_pages x.

(** Page [i] of pool [w] is in use, and not by the block allocator. *)
Definition foreign (w : which) (h : heap) (i : Z) : Prop :=
  in_use w (pages h) i = true ∧ (w = Kernel → ¬ covered h (page w (pages h) i)).

Record frame (live : gmap Z Z) (h h' : heap) : Prop := MkFrame {
  f_size w : npages w (pages h') = npages w (pages h);
  f_page w i : page w (pages h') i = page w (pages h) i;
  f_foreign w i : 0 ≤ i < npages w (pages h) → foreign w h' i ↔ foreign w h i;
  f_bytes p n q : live !! p = Some n → p ≤ q < p + n → bytes (pages h') !! q = bytes (pages h) !! q
}.

Lemma heap_frame_refl live h : frame live h h.
Proof. by constructor. Qed.

Lemma heap_frame_trans live h h' h'' : frame live h h' → frame live h' h'' → frame live h h''.
Proof.
  intros [S1 P1 F1 B1] [S2 P2 F2 B2]. constructor.
  - intros w. by rewrite S2.
  - intros w i. by rewrite P2.
  - intros w i Hi. rewrite F2 by (by rewrite S1). by apply F1.
  - intros p n q Hp Hq. rewrite (B2 p n) by done. by apply (B1 p n).
Qed.

Lemma frame_weaken live live' h h' : live' ⊆ live → frame live h h' → frame live' h h'.
Proof.
  intros Hsub [S1 P1 F1 B1]. constructor; try done. intros p n q Hp. apply (B1 p n).
  by eapply lookup_weaken.
Qed.

(** Writing into memory outside the live blocks. *)
Lemma frame_kept live h h' b m :
  kept b m h h' → (∀ q, covered h' q ↔ covered h q) →
  (∀ p n, live !! p = Some n → p + n ≤ b ∨ b + m ≤ p) → frame live h h'.
Proof.
  intros Hkept Hcov Hout. assert (Hk := Hkept). destruct Hk as (mm & E & _). constructor.
  - intros w. rewrite E. unfold npages. by rewrite pool_with_bytes.
  - intros w i. rewrite E. unfold page. by rewrite pool_with_bytes.
  - intros w i _. unfold foreign. rewrite Hcov, E. unfold in_use, page. by rewrite pool_with_bytes.
  - intros p n q Hp Hq. apply (kept_bytes b m); [done|]. specialize (Hout p n Hp). lia.
Qed.

Lemma covered_recount h h' a x k c :
  arenas h !! a = Some x → a_desc x = Some k →
  arenas h' = <[a := MkArena ARENA_MAGIC (Some k) c]> (arenas h) → ∀ q, covered h' q ↔ covered h q.
Proof.
  intros Ha Hk Har q. unfold covered. rewrite Har. split.
  - intros (b & y & [(<- & <-)|(Hne & Hb)]%lookup_insert_Some & Hq); [|eauto].
    exists a, x. rewrite (recount_pages x) in Hq by done. done.
  - intros (b & y & Hb & Hq). destruct (decide (b = a)) as [->|Hne].
    + eexists a, _. rewrite lookup_insert_eq. split; [done|]. rewrite (recount_pages x) by done.
      by simplify_eq.
    + exists b, y. by rewrite lookup_insert_ne.
Qed.

Section pages_change.
Context (live : gmap Z Z) (h h' : heap) (i n : Z) (a : Z) (x : arena).
Context (Ha : a = page Kernel (pages h) i) (Hx : arena_pages x = n).
Context (Hbytes : ∀ q, ¬ (a ≤ q < a + PGSIZE * n) → bytes (pages h') !! q = bytes (pages h) !! q).
Context (Hout : ∀ p m, live !! p = Some m → p + m ≤ a ∨ a + PGSIZE * n ≤ p).

Lemma pages_live p m q : live !! p = Some m → p ≤ q < p + m → bytes (pages h') !! q = bytes (pages h) !! q.
Proof using Hbytes Hout. intros Hp Hq. apply Hbytes. specialize (Hout p m Hp). lia. Qed.

(** A page is of the run exactly when its address is. *)
Lemma page_in_run k : i ≤ k < i + n ↔ a ≤ page Kernel (pages h) k < a + PGSIZE * n.
Proof using Ha. rewrite Ha. unfold page. rewrite PGSIZE_val. lia. Qed.

(** Taking pages for a new arena. *)
Lemma frame_new :
  changed Kernel i n true (pages h) (pages h') → run Kernel (pages h) i n false →
  arenas h !! a = None → arenas h' = <[a := x]> (arenas h) → frame live h h'.
Proof using Ha Hx Hbytes Hout.
  intros Hch (_ & _ & Hfree) Hfr Har. constructor.
  - intros w. apply (ch_size _ _ _ _ _ _ Hch).
  - intros w k. apply (changed_page _ _ _ _ _ _ _ _ Hch).
  - intros w k Hk. unfold foreign. rewrite (changed_page _ _ _ _ _ _ _ _ Hch).
    rewrite (ch_use _ _ _ _ _ _ Hch) by done. case_bool_decide as Hw; [subst w|simpl; naive_solver].
    simpl. unfold covered. rewrite Har. destruct (in_range i n k) eqn:E.
    + apply in_range_spec in E. rewrite Hfree by done. split; [|by intros []].
      intros [_ H]. destruct (H eq_refl). exists a, x. rewrite lookup_insert_eq, Hx. split; [done|].
      by apply page_in_run.
    + assert (Hk' : ¬ (a ≤ page Kernel (pages h) k < a + PGSIZE * n)).
      { rewrite <- page_in_run, <- in_range_spec. by rewrite E. }
      split; intros [? H]; (split; [done|]); intros _ (b & y & Hb & Hq); apply (H eq_refl).
      * exists b, y. rewrite lookup_insert_ne; [done|]. congruence.
      * apply lookup_insert_Some in Hb as [(<- & <-)|(_ & Hb)]; [by rewrite Hx in Hq|]. by exists b, y.
  - apply pages_live.
Qed.

(** Giving the pages of an arena back. *)
Lemma frame_drop :
  changed Kernel i n false (pages h) (pages h') →
  arenas h !! a = Some x → arenas h' = delete a (arenas h) → frame live h h'.
Proof using Ha Hx Hbytes Hout.
  intros Hch Hax Har. constructor.
  - intros w. apply (ch_size _ _ _ _ _ _ Hch).
  - intros w k. apply (changed_page _ _ _ _ _ _ _ _ Hch).
  - intros w k Hk. unfold foreign. rewrite (changed_page _ _ _ _ _ _ _ _ Hch).
    rewrite (ch_use _ _ _ _ _ _ Hch) by done. case_bool_decide as Hw; [subst w|simpl; naive_solver].
    simpl. unfold covered. rewrite Har. destruct (in_range i n k) eqn:E.
    + apply in_range_spec in E. split; [by intros []|]. intros [_ H]. destruct (H eq_refl). exists a, x.
      rewrite Hx. split; [done|]. by apply page_in_run.
    + assert (Hk' : ¬ (a ≤ page Kernel (pages h) k < a + PGSIZE * n)).
      { rewrite <- page_in_run, <- in_range_spec. by rewrite E. }
      split; intros [? H]; (split; [done|]); intros _ (b & y & Hb & Hq); apply (H eq_refl).
      * exists b, y. rewrite lookup_delete_ne; [done|]. intros <-. simplify_eq. done.
      * apply lookup_delete_Some in Hb as [_ Hb]. by exists b, y.
  - apply pages_live.
Qed.
End pages_change.

(** ** Where live blocks are not *)

Lemma header_disjoint e P F A live a x p n :
  blocks_ok e P F A live → A !! a = Some x → live !! p = Some n → p + n ≤ a ∨ a + ARENA_SIZE ≤ p.
Proof.
  intros Hok Ha Hp. destruct (b_live _ _ _ _ _ Hok p n Hp) as (Hn & b & y & Hb & Hpl).
  apply placed_range in Hpl. destruct (b_arena _ _ _ _ _ Hok a x Ha) as (_ & Hpos & _).
  destruct (Z.lt_trichotomy a b) as [Hl|[->|Hl]].
  - pose proof (b_apart _ _ _ _ _ Hok a x b y Ha Hb Hl). unfold ARENA_SIZE in *. rewrite PGSIZE_val in *. lia.
  - lia.
  - pose proof (b_apart _ _ _ _ _ Hok b y a x Hb Ha Hl). lia.
Qed.

Lemma block_disjoint e P F A live a x k p q m :
  blocks_ok e P F A live → A !! a = Some x → a_desc x = Some k → is_block k a p →
  live !! q = Some m → q ≠ p → q + m ≤ p ∨ p + bsz k ≤ q.
Proof.
  intros Hok Ha Hk Hp Hq Hne. destruct (b_live _ _ _ _ _ Hok q m Hq) as (Hm & b & y & Hb & Hpl).
  destruct (b_small _ _ _ _ _ Hok a x k Ha Hk) as (Hk7 & _).
  destruct (is_block_bounds k a p Hk7 Hp) as [H1 H2]. assert (Hr := placed_range _ _ _ _ Hpl).
  unfold ARENA_SIZE in *. destruct (Z.lt_trichotomy a b) as [Hl|[<-|Hl]].
  - pose proof (b_apart _ _ _ _ _ Hok a x b y Ha Hb Hl). unfold arena_pages in *. rewrite Hk in *. lia.
  - simplify_eq. unfold placed in Hpl. rewrite Hk in Hpl. destruct Hpl as (_ & Hqb & Hle).
    destruct (Z.lt_trichotomy p q) as [?|[?|?]]; [|congruence|].
    + pose proof (is_block_apart k a p q Hk7 Hp Hqb). lia.
    + pose proof (is_block_apart k a q p Hk7 Hqb Hp). lia.
  - pose proof (b_apart _ _ _ _ _ Hok b y a x Hb Ha Hl). lia.
Qed.

(** Blocks of other arenas are outside the pages of this one. *)
Lemma live_outside e e' P P' F F' A live live' a x p n :
  blocks_ok e P F A live' → A !! a = Some x → blocks_ok e' P' F' (delete a A) live → live !! p = Some n →
  p + n ≤ a ∨ a + PGSIZE * arena_pages x ≤ p.
Proof.
  intros Hok Ha Hok' Hp. destruct (b_live _ _ _ _ _ Hok' p n Hp) as (Hn & b & y & Hb & Hpl).
  apply lookup_delete_Some in Hb as [Hne Hb]. apply placed_range in Hpl. unfold ARENA_SIZE in *.
  destruct (Z.lt_trichotomy a b) as [Hl|[?|Hl]]; [|done|].
  - pose proof (b_apart _ _ _ _ _ Hok a x b y Ha Hb Hl). lia.
  - pose proof (b_apart _ _ _ _ _ Hok b y a x Hb Ha Hl). lia.
Qed.

Lemma free_run_outside e P F A live i n p m :
  blocks_ok e P F A live → run Kernel P i n false → 0 < n → live !! p = Some m →
  p + m ≤ page Kernel P i ∨ page Kernel P i + PGSIZE * n ≤ p.
Proof.
  intros Hok Hfree Hn Hp. destruct (b_live _ _ _ _ _ Hok p m Hp) as (Hm & b & y & Hb & Hpl).
  apply placed_range in Hpl. unfold ARENA_SIZE in *.
  destruct (free_outside _ _ _ _ _ i n b y Hok Hfree Hn Hb); lia.
Qed.

End MallocFrame.
