(* ===== verification/MallocSpec.v ===== *)
(** * Properties of the block allocator

    [malloc] hands out blocks that are large enough and overlap nothing that
    is in use, [free] takes them back and returns empty arenas to the page
    allocator, [realloc] keeps the contents; what others own stays as it is.
    Two requests the code gets wrong are described exactly. *)
From S2P Require Import Prelude CInt Bitmap Palloc PallocSpec.
From S2P Require Import Malloc MallocArena MallocRun.

Open Scope Z_scope.

Module MallocSpec.
Import Palloc PallocSpec Malloc MallocInv MallocArena MallocRun MallocFrame.

Lemma on_pages_ok {A} (m : ST palloc A) h a P : m (pages h) = Ok (a, P) → on_pages m h = Ok (a, with_pages P h).
Proof. apply run_zoom_ok. Qed.

Lemma with_pages_id h : with_pages (pages h) h = h.
Proof. by destruct h. Qed.

Lemma fl_same h h' : descs h' = descs h → fl h' = fl h.
Proof. intros E. unfold fl. by rewrite E. Qed.

Lemma descs_ok_same h h' : descs h' = descs h → desc_cnt h' = desc_cnt h → descs_ok h → descs_ok h'.
Proof. intros E1 E2. unfold descs_ok. by rewrite (fl_same h h'), E1, E2. Qed.

(** ** Making a free block *)

(** [refill] has nothing to do, finds no page, or makes an arena. *)
Lemma refill_ok h live k :
  heap_ok h live → (k < 7)%nat →
  (fl h k ≠ [] ∧ refill k h = Ok (true, h)) ∨
  (fl h k = [] ∧ (∀ i, ¬ run Kernel (pages h) i 1 false) ∧ refill k h = Ok (false, h)) ∨
  (∃ h' a, refill k h = Ok (true, h') ∧ heap_inv (Some a) h' live ∧ fl h' k = blocks k a ∧
     is_Some (arenas h' !! a) ∧ frame live h h').
Proof.
  intros Hinv Hk. destruct Hinv as [Hpal Hd Hok]. unfold refill.
  rewrite (run_bind_ok _ _ _ _ _ (get_desc_ok h k Hd Hk)). cbn [free_list d_blocks_per_arena].
  destruct (fl h k) as [|p l] eqn:Hfl; [right|by left].
  destruct (first_run Kernel (pages h) 1 Hpal ltac:(lia)) as [(i & Hfree & Hmin)|Hnone]; [right|left].
  2: { split; [done|]. split; [done|].
       assert (Hget := palloc_get_full (pages h) 0 1 Hpal ltac:(lia) Hnone).
       rewrite (run_bind_ok _ _ _ _ _ (on_pages_ok _ _ _ _ Hget)), with_pages_id. done. }
  destruct (palloc_get_ok (pages h) 0 1 i Hpal ltac:(lia) Hfree Hmin) as (P & Hget & Hpal' & Hch & Hb).
  set (a := page Kernel (pages h) i) in *. change (pool_for 0) with Kernel in *. fold a in Hget.
  destruct (page_bounds Kernel (pages h) i Hpal) as [Hlo Hhi]; [destruct Hfree; lia|]. fold a in Hlo, Hhi.
  unfold PHYS_BASE in Hlo.
  rewrite (run_bind_ok _ _ _ _ _ (on_pages_ok _ _ _ _ Hget)).
  destruct (Z.eqb_spec a NULL); [unfold NULL in *; lia|].
  destruct (put_arena_ok a (MkArena ARENA_MAGIC (Some k) (bpa k)) (with_pages P h))
    as (h1 & Hput & Hkept1 & Hd1 & Hc1 & Ha1). rewrite (run_bind_ok _ _ _ _ _ Hput).
  assert (Hdok1 : descs_ok h1) by (by eapply descs_ok_same).
  destruct (bsz_bounds k Hk) as (_ & Hbpa & _).
  destruct (push_blocks_ok (Z.to_nat (bpa k)) 0 h1 a (MkArena ARENA_MAGIC (Some k) (bpa k)) k)
    as (h2 & Hpush & (Hd2 & Hj2 & Ha2 & Hkept2) & Hfl2);
    [done|rewrite Ha1; apply lookup_insert_eq|done..|lia|done|lia|lia|].
  rewrite (run_bind_ok _ _ _ _ _ Hpush). exists h2, a.
  assert (Hkept : kept a PGSIZE (with_pages P h) h2).
  { eapply kept_trans; [|exact Hkept2]. eapply kept_mono; [..|exact Hkept1]; unfold ARENA_SIZE; rewrite ?PGSIZE_val; lia. }
  assert (Hflk : fl h2 k = blocks k a).
  { rewrite Hfl2. rewrite (fl_same h h1) by (by rewrite Hd1). by rewrite Hfl. }
  assert (Harn : arenas h2 = <[a := MkArena ARENA_MAGIC (Some k) (bpa k)]> (arenas h)) by (by rewrite Ha2, Ha1).
  split; [done|]. split; [|split; [done|split; [rewrite Harn, lookup_insert_eq; eauto|]]].
  - constructor; [by eapply kept_palloc_ok|done|]. eapply kept_blocks_ok; [exact Hkept|].
    rewrite Harn. simpl. apply (new_small (pages h) P (fl h)); try done.
    intros j Hj. rewrite Hj2 by done. by rewrite (fl_same h h1) by (by rewrite Hd1).
  - apply (frame_new live h h2 i 1 a (MkArena ARENA_MAGIC (Some k) (bpa k))); try done.
    + intros q Hq. rewrite Z.mul_1_r in Hq. rewrite (kept_bytes _ _ _ _ q Hkept) by done. simpl. by rewrite Hb.
    + intros p m Hp. by apply (free_run_outside _ _ _ _ _ i 1 p m Hok Hfree).
    + destruct Hkept as (mm & -> & _). rewrite <- (with_bytes_id (pages h)). by apply changed_bytes.
    + by apply (new_fresh None (pages h) (fl h) (arenas h) live i 1).
Qed.

(** ** [malloc] *)

(** The pages a request of [size] bytes needs as a big block. *)
Definition big_pages (size : Z) : Z := (size + ARENA_SIZE + PGSIZE - 1) / PGSIZE.

(** The smallest size class a request fits in, 7 if it is too big for all. *)
Definition size_class (size : Z) (k : nat) : Prop :=
  (k ≤ 7)%nat ∧ ((k < 7)%nat → size ≤ bsz k) ∧ ∀ j, (j < k)%nat → bsz j < size.

(** What it means that there is no memory for a request: no run of pages for a
    big block, or no free block of the request's class and no page to make
    some. *)
Definition no_room (h : heap) (size : Z) : Prop :=
  ∃ k, size_class size k ∧
    if decide (k = 7%nat) then ∀ i, ¬ run Kernel (pages h) i (big_pages size) false
    else fl h k = [] ∧ ∀ i, ¬ run Kernel (pages h) i 1 false.

Lemma size_class_unique size j k : size_class size j → size_class size k → j = k.
Proof.
  intros (Hj & Hj1 & Hj2) (Hk & Hk1 & Hk2). destruct (Nat.lt_trichotomy j k) as [H|[H|H]]; [|done|].
  - specialize (Hk2 j H). specialize (Hj1 ltac:(lia)). lia.
  - specialize (Hj2 k H). specialize (Hk1 ltac:(lia)). lia.
Qed.

(** The result of a call that hands out [size] bytes. *)
Definition handed_out (h : heap) (live : gmap Z Z) (size p : Z) (h' : heap) : Prop :=
  live !! p = None ∧ p ≠ NULL ∧ heap_ok h' (<[p := size]> live) ∧ frame live h h'.

Lemma npages_bound P : palloc_ok P → PGSIZE * npages Kernel P < 2 ^ 30.
Proof.
  intros Hok. assert (H1 := ok_low P Hok Kernel). assert (H2 := ok_high P Hok Kernel).
  unfold page, PHYS_BASE in *. rewrite PGSIZE_val in *. lia.
Qed.

Lemma malloc_big_ok h live size n :
  heap_ok h live → 0 < size → n = Z.quot (u32 (u32 (size + ARENA_SIZE) + PGSIZE - 1)) PGSIZE → 0 ≤ n →
  (malloc_big size h = Ok (NULL, h) ∧ (n = 0 ∨ ∀ i, ¬ run Kernel (pages h) i n false)) ∨
  (∃ i h', run Kernel (pages h) i n false ∧ 0 < n ∧ malloc_big size h = Ok (page Kernel (pages h) i + ARENA_SIZE, h') ∧
     frame live h h' ∧ arenas h' = <[page Kernel (pages h) i := MkArena ARENA_MAGIC None n]> (arenas h) ∧
     (∀ m, 0 < m ≤ PGSIZE * n - ARENA_SIZE → handed_out h live m (page Kernel (pages h) i + ARENA_SIZE) h')).
Proof.
  intros [Hpal Hd Hok] Hsize En Hn. unfold malloc_big. rewrite <- En.
  destruct (Z.eq_dec n 0) as [->|Hn0].
  { left. split; [|by left].
    assert (Hget : palloc_get_multiple 0 0 (pages h) = Ok (NULL, pages h)) by done.
    rewrite (run_bind_ok _ _ _ _ _ (on_pages_ok _ _ _ _ Hget)), with_pages_id. done. }
  assert (Hpos : 0 < n) by lia. clear Hn0.
  destruct (first_run Kernel (pages h) n Hpal Hpos) as [(i & Hfree & Hmin)|Hnone]; [right|left].
  2: { split; [|by right]. assert (Hget := palloc_get_full (pages h) 0 n Hpal Hpos Hnone).
       rewrite (run_bind_ok _ _ _ _ _ (on_pages_ok _ _ _ _ Hget)), with_pages_id. done. }
  destruct (palloc_get_ok (pages h) 0 n i Hpal Hpos Hfree Hmin) as (P & Hget & Hpal' & Hch & Hb).
  set (a := page Kernel (pages h) i) in *. change (pool_for 0) with Kernel in *. fold a in Hget.
  destruct (page_bounds Kernel (pages h) i Hpal) as [Hlo Hhi]; [destruct Hfree; lia|]. fold a in Hlo, Hhi.
  unfold PHYS_BASE in Hlo. rewrite PGSIZE_val in Hhi.
  rewrite (run_bind_ok _ _ _ _ _ (on_pages_ok _ _ _ _ Hget)).
  destruct (Z.eqb_spec a NULL); [unfold NULL in *; lia|].
  destruct (put_arena_ok a (MkArena ARENA_MAGIC None n) (with_pages P h)) as (h1 & Hput & Hkept & Hd1 & Hc1 & Ha1).
  rewrite (run_bind_ok _ _ _ _ _ Hput). exists i, h1. split; [done|]. split; [done|]. fold a.
  split; [by rewrite u32_id by (unfold in_u32, ARENA_SIZE; lia)|].
  assert (Hframe : frame live h h1).
  { apply (frame_new live h h1 i n a (MkArena ARENA_MAGIC None n)); try done.
    - intros q Hq. rewrite (kept_bytes _ _ _ _ q Hkept); [simpl; by rewrite Hb|].
      unfold ARENA_SIZE. rewrite PGSIZE_val in *. lia.
    - intros p m Hp. by apply (free_run_outside _ _ _ _ _ i n p m Hok Hfree).
    - destruct Hkept as (mm & -> & _). rewrite <- (with_bytes_id (pages h)). by apply changed_bytes.
    - by apply (new_fresh None (pages h) (fl h) (arenas h) live i n). }
  split; [done|]. split; [done|]. intros m Hm.
  destruct (new_big (pages h) P (fl h) (arenas h) live i n m Hok Hpos Hfree Hch Hm) as [Hl Hok'].
  split; [done|]. split; [unfold NULL, ARENA_SIZE; lia|]. split; [|done].
  constructor; [by eapply kept_palloc_ok|by eapply descs_ok_same|].
  eapply kept_blocks_ok; [exact Hkept|]. rewrite Ha1, (fl_same h h1) by (by rewrite Hd1). done.
Qed.

(** Taking the first block of a free list. *)
Lemma malloc_take_ok e h live k size :
  heap_inv e h live → (k < 7)%nat → fl h k ≠ [] → 0 < size ≤ bsz k →
  (e = None ∨ ∃ a, e = Some a ∧ fl h k = blocks k a ∧ is_Some (arenas h !! a)) →
  ∃ p h', (b ← pop_front k; a ← block_to_arena b; x ← get_arena a;
           put_arena a (MkArena (magic x) (a_desc x) (u32 (free_cnt x - 1))) ;; mret b) h = Ok (p, h') ∧
    handed_out h live size p h'.
Proof.
  intros Hinv Hk Hne Hsize He. assert (Hinv' := Hinv). destruct Hinv' as [Hpal Hd Hok].
  destruct (fl h k) as [|p l] eqn:Hfl; [done|].
  destruct (b_free _ _ _ _ _ Hok k p Hk) as (_ & a & x & Ha & Hdx & Hb); [rewrite Hfl; set_solver|].
  assert (Hat := arena_at_inv _ _ _ _ _ Hinv Ha). assert (Hm := proj1 (proj2 Hat)).
  assert (Hpg : in_page a p) by (by eapply is_block_in_page).
  assert (He' : e = None ∨ e = Some a).
  { destruct He as [|(a' & -> & E & x' & Ha')]; [by left|right]. f_equal.
    eapply (arena_unique _ _ _ _ _ a' x' a x p Hok); try done. apply (is_block_in_page k); [done|].
    apply elem_of_blocks; [done|]. rewrite <- E. set_solver. }
  set (h1 := set_fl k l h). assert (Hd1 : descs_ok h1) by (by apply descs_ok_set_fl).
  assert (Hpop : pop_front k h = Ok (p, h1)).
  { unfold pop_front. rewrite (run_bind_ok _ _ _ _ _ (get_desc_ok h k Hd Hk)). cbn [free_list]. rewrite Hfl.
    by rewrite (run_bind_ok _ _ _ _ _ (put_desc_ok h k l Hd Hk)). }
  assert (Hbta : block_to_arena p h1 = Ok (a, h1)).
  { apply (block_to_arena_ok h1 a x p size); [done|by apply (arena_at_same h)| |lia].
    unfold placed. rewrite Hdx. split; [done|]. split; [done|lia]. }
  rewrite (run_bind_ok _ _ _ _ _ Hpop), (run_bind_ok _ _ _ _ _ Hbta).
  rewrite (run_bind_ok _ _ _ _ _ (get_arena_ok h1 a x Ha)), Hm, Hdx.
  destruct (take_block e (pages h) (fl h) (fl h1) (arenas h) live a x k p size) as (Hl & Hcnt & Hok'); try done.
  { unfold h1. rewrite fl_set_fl by done. by rewrite decide_True. }
  { intros j Hj. unfold h1. rewrite fl_set_fl by done. by rewrite decide_False. }
  assert (Hle := free_cnt_bound _ _ _ _ _ a x k Hok Ha Hdx). pose proof (bsz_bounds k Hk).
  rewrite u32_id by (unfold in_u32; lia).
  destruct (put_arena_ok a (MkArena ARENA_MAGIC (Some k) (free_cnt x - 1)) h1)
    as (h2 & Hput & Hkept & Hd2 & Hc2 & Ha2). rewrite (run_bind_ok _ _ _ _ _ Hput).
  exists p, h2. split; [done|]. split; [done|].
  assert (Hpn : p ≠ NULL).
  { destruct Hat as (_ & _ & _ & _ & Hlo & _). unfold in_page, PHYS_BASE, NULL in *. lia. }
  split; [done|]. split.
  - constructor; [by eapply kept_palloc_ok|by apply (descs_ok_same h1)|].
    eapply kept_blocks_ok; [exact Hkept|]. by rewrite Ha2, (fl_same h1 h2).
  - apply (frame_kept live h h2 a ARENA_SIZE).
    + destruct Hkept as (mm & E & Hmm). by exists mm.
    + apply (covered_recount h h2 a x k (free_cnt x - 1)); done.
    + intros q m Hq. by apply (header_disjoint _ _ _ _ _ a x q m Hok).
Qed.

Lemma heap_ok_handed h h1 live size p h' :
  frame live h h1 → handed_out h1 live size p h' → handed_out h live size p h'.
Proof. intros Hf (? & ? & ? & Hf'). split_and!; try done. by eapply heap_frame_trans. Qed.

Lemma bsz_mono j k : (j ≤ k)%nat → bsz j ≤ bsz k.
Proof. intros. unfold bsz. pose proof (Z.pow_le_mono_r 2 (Z.of_nat j) (Z.of_nat k)). lia. Qed.

(** The number of pages [malloc] computes is right, or the request cannot fit. *)
Lemma page_cnt_ok h size :
  palloc_ok (pages h) → 0 < size < 2 ^ 32 - 11 →
  let n := Z.quot (u32 (u32 (size + ARENA_SIZE) + PGSIZE - 1)) PGSIZE in
  0 ≤ n ∧ (n = big_pages size ∧ 0 < n ∨ n = 0 ∧ npages Kernel (pages h) < big_pages size).
Proof.
  intros Hpal Hsize n. split.
  { unfold n. apply Z.quot_pos; [|by rewrite PGSIZE_val]. apply u32_range. }
  assert (Hnp := npages_bound _ Hpal). unfold n, big_pages, ARENA_SIZE. rewrite PGSIZE_val in *.
  destruct (Z.eq_dec size (2 ^ 32 - 12)) as [->|Hne]; [right; split; [done|divlia]|].
  rewrite (u32_id (size + 12)) by (unfold in_u32; lia).
  destruct (Z.lt_ge_cases (size + 12 + 4096 - 1) (2 ^ 32)) as [H|H].
  - left. rewrite u32_id by (unfold in_u32; lia). rewrite Z.quot_div_nonneg by lia. split; [done|divlia].
  - right. assert (E : u32 (size + 12 + 4096 - 1) = size + 12 + 4096 - 1 - 2 ^ 32) by (unfold u32; divlia).
    rewrite E. split; [apply Z.quot_small; lia|divlia].
Qed.

(** [malloc] after the choice of the size class. *)
Lemma malloc_class h live size :
  heap_ok h live → 0 < size →
  ∃ k, size_class size k ∧
    malloc size h = (if Nat.eqb k 7 then malloc_big size else
      ok ← refill k;
      if negb ok then mret NULL else
      b ← pop_front k; a ← block_to_arena b; x ← get_arena a;
      put_arena a (MkArena (magic x) (a_desc x) (u32 (free_cnt x - 1))) ;; mret b) h.
Proof.
  intros [_ Hd _] Hsize. destruct (find_desc_ok 7 0 size h Hd eq_refl) as (k & Hfind & Hk & Hfit & Hsmall).
  exists k. split; [split; [lia|]; split; [done|]; intros j Hj; apply Hsmall; lia|].
  unfold malloc. destruct (Z.eqb_spec size 0) as [|_]; [lia|]. erewrite run_bind_ok; [|reflexivity].
  rewrite (proj1 Hd). by rewrite (run_bind_ok _ _ _ _ _ Hfind).
Qed.

Lemma malloc_ok h live size :
  heap_ok h live → 0 < size < 2 ^ 32 - 11 →
  (malloc size h = Ok (NULL, h) ∧ no_room h size) ∨
  (∃ p h', malloc size h = Ok (p, h') ∧ handed_out h live size p h').
Proof.
  intros Hinv Hsize. assert (Hinv' := Hinv). destruct Hinv' as [Hpal Hd Hok].
  destruct (malloc_class h live size Hinv ltac:(lia)) as (k & Hc & ->). assert (Hc' := Hc).
  destruct Hc' as (Hk & Hfit & _). destruct (Nat.eqb_spec k 7) as [->|Hk7].
  - destruct (page_cnt_ok h size Hpal Hsize) as [Hn0 En].
    set (n := Z.quot (u32 (u32 (size + ARENA_SIZE) + PGSIZE - 1)) PGSIZE) in *.
    destruct (malloc_big_ok h live size n Hinv ltac:(lia) eq_refl Hn0)
      as [(Hrun & Hno)|(i & h' & Hfree & Hpos & Hrun & _ & _ & Hout)].
    + left. split; [done|]. exists 7%nat. split; [done|]. rewrite decide_True by done. intros i Hi.
      destruct En as [[En Hp]|[_ Hn]]; [|destruct Hi as (? & ? & _); lia].
      rewrite <- En in Hi. destruct Hno as [E|Hno]; [lia|by apply (Hno i)].
    + right. eexists _, h'. split; [done|]. apply Hout. destruct En as [[En _]|[En _]]; [|lia].
      rewrite En. unfold big_pages, ARENA_SIZE. rewrite PGSIZE_val. divlia.
  - assert (Hk' : (k < 7)%nat) by lia. specialize (Hfit Hk').
    destruct (refill_ok h live k Hinv Hk') as [(Hne & Hrf)|[(Hnil & Hnone & Hrf)|(h1 & a & Hrf & Hinv1 & Hfl & Ha & Hfr)]];
      rewrite (run_bind_ok _ _ _ _ _ Hrf); cbn [negb].
    + right. apply (malloc_take_ok None h live k size); auto. lia.
    + left. split; [done|]. exists k. split; [done|]. by rewrite decide_False.
    + right. destruct (malloc_take_ok (Some a) h1 live k size Hinv1 Hk') as (p & h' & Hrun & Hout); [|lia|eauto|].
      { rewrite Hfl. pose proof (bsz_bounds k Hk'). intros E. apply (f_equal length) in E.
        rewrite length_blocks in E. simpl in E. lia. }
      exists p, h'. split; [done|]. by eapply heap_ok_handed.
Qed.

(** Without room [malloc] gives null. *)
Lemma refill_full h live k :
  heap_ok h live → (k < 7)%nat → fl h k = [] → (∀ i, ¬ run Kernel (pages h) i 1 false) →
  refill k h = Ok (false, h).
Proof.
  intros [Hpal Hd _] Hk Hnil Hnone. unfold refill.
  rewrite (run_bind_ok _ _ _ _ _ (get_desc_ok h k Hd Hk)). cbn [free_list]. rewrite Hnil.
  assert (Hget := palloc_get_full (pages h) 0 1 Hpal ltac:(lia) Hnone).
  by rewrite (run_bind_ok _ _ _ _ _ (on_pages_ok _ _ _ _ Hget)), with_pages_id.
Qed.

Lemma malloc_no_room h live size :
  heap_ok h live → 0 < size < 2 ^ 32 - 11 → no_room h size → malloc size h = Ok (NULL, h).
Proof.
  intros Hinv Hsize (k & Hc & Hno). assert (Hpal := h_pages _ _ _ Hinv).
  destruct (malloc_class h live size Hinv ltac:(lia)) as (k' & Hc' & ->).
  rewrite (size_class_unique size k' k Hc' Hc). destruct (Nat.eqb_spec k 7) as [->|Hk7].
  - rewrite decide_True in Hno by done. destruct (page_cnt_ok h size Hpal Hsize) as [Hn0 En].
    destruct (malloc_big_ok h live size _ Hinv ltac:(lia) eq_refl Hn0)
      as [(Hrun & _)|(i & h' & Hfree & Hpos & _)]; [done|].
    destruct En as [[En _]|[En _]]; [|lia]. rewrite En in Hfree. by destruct (Hno i).
  - rewrite decide_False in Hno by done. destruct Hno as [Hnil Hnone].
    assert (Hk : (k < 7)%nat) by (destruct Hc; lia).
    by rewrite (run_bind_ok _ _ _ _ _ (refill_full h live k Hinv Hk Hnil Hnone)).
Qed.

(** ** [free] *)

(** Giving back the pages of an arena. *)
Lemma free_pages_ok e h live a x :
  heap_inv e h live → arenas h !! a = Some x →
  ∃ i h', a = page Kernel (pages h) i ∧ free_pages a (arena_pages x) h = Ok (tt, h') ∧
    palloc_ok (pages h') ∧ changed Kernel i (arena_pages x) false (pages h) (pages h') ∧
    descs h' = descs h ∧ desc_cnt h' = desc_cnt h ∧ arenas h' = delete a (arenas h) ∧
    ∀ q, ¬ (a ≤ q < a + PGSIZE * arena_pages x) → bytes (pages h') !! q = bytes (pages h) !! q.
Proof.
  intros [Hpal Hd Hok] Ha. destruct (b_arena _ _ _ _ _ Hok a x Ha) as (_ & Hpos & i & Hi & Hrun).
  destruct (palloc_free_ok (pages h) Kernel i (arena_pages x) Hpal Hpos Hrun) as (P & Hfree & Hpal' & Hch & Hb).
  rewrite <- Hi in Hfree, Hb. eexists i, _. split; [done|]. unfold free_pages.
  rewrite (run_bind_ok _ _ _ _ _ (on_pages_ok _ _ _ _ Hfree)). split; [reflexivity|].
  split_and!; try done. intros q Hq. simpl. rewrite Hb, memset_lookup by (rewrite PGSIZE_val; lia).
  by rewrite in_range_out.
Qed.

(** The arena [a] has no block in use. *)
Lemma free_arena_ok h live a x k :
  heap_inv (Some a) h live → arenas h !! a = Some x → a_desc x = Some k → free_cnt x = bpa k →
  ∃ h', (remove_blocks (Z.to_nat (bpa k)) 0 a k ;; free_pages a 1) h = Ok (tt, h') ∧
    heap_ok h' live ∧ frame live h h'.
Proof.
  intros Hinv Ha Hk Hfull. assert (Hinv' := Hinv). destruct Hinv' as [Hpal Hd Hok].
  destruct (b_small _ _ _ _ _ Hok a x k Ha Hk) as (Hk7 & _). pose proof (bsz_bounds k Hk7) as (_ & Hbpa & _).
  destruct (arena_at_inv _ _ _ _ _ Hinv Ha) as (_ & Hm & _ & _ & Hlo & Hhi). unfold PHYS_BASE in Hlo.
  assert (Hpg : arena_pages x = 1) by (unfold arena_pages; by rewrite Hk). rewrite Hpg in Hhi.
  destruct (remove_blocks_ok (Z.to_nat (bpa k)) 0 h a x k) as (h1 & Hrem & (Hd1 & Hj & Har & Hkept) & Hfl);
    [exact Hd|exact Ha|exact Hm|exact Hk|exact Hk7|lia|lia|lia|lia| |].
  { intros p Hp. apply (all_free _ _ _ _ _ a x k p Hok Ha Hk ltac:(lia)).
    exact (proj1 (elem_of_blocks k a p Hk7) Hp). }
  rewrite (run_bind_ok _ _ _ _ _ Hrem).
  destruct (b_arena _ _ _ _ _ Hok a x Ha) as (_ & _ & i & Hi & Hrun). rewrite Hpg in Hrun.
  destruct (palloc_free_ok (pages h1) Kernel i 1) as (P & Hfree & Hpal' & Hch & Hb);
    [by eapply kept_palloc_ok|lia|destruct Hkept as (mm & -> & _); done|].
  assert (Hi1 : page Kernel (pages h1) i = a) by (destruct Hkept as (mm & -> & _); done).
  rewrite Hi1 in Hfree, Hb. unfold free_pages. rewrite (run_bind_ok _ _ _ _ _ (on_pages_ok _ _ _ _ Hfree)).
  eexists. split; [reflexivity|].
  assert (Hch' : changed Kernel i 1 false (pages h) P).
  { destruct Hkept as (mm & E & _). rewrite E in Hch. rewrite <- (with_bytes_id P).
    by apply (changed_bytes _ _ _ _ _ _ (bytes (pages h)) (bytes P)) in Hch; destruct (pages h). }
  assert (Hok' : blocks_ok None P (fl h1) (delete a (arenas h)) live).
  { exact (drop_small (pages h) P (fl h) (fl h1) (arenas h) live a i x k
             Hok Ha Hk ltac:(lia) Hi Hch' Hfl Hj). }
  split.
  - constructor; [exact Hpal'|exact Hd1|]. cbn [pages arenas with_arenas with_pages]. rewrite Har. exact Hok'.
  - apply (frame_drop live h _ i 1 a x Hi Hpg);
      cbn [pages arenas with_arenas with_pages]; [| |exact Hch'|exact Ha|by rewrite Har].
    + intros q Hq. rewrite Hb, memset_lookup, in_range_out by (rewrite ?PGSIZE_val in *; lia).
      apply (kept_bytes a PGSIZE); [exact Hkept|lia].
    + intros p m Hp. rewrite <- Hpg. exact (live_outside _ _ _ _ _ _ _ _ _ a x p m Hok Ha Hok' Hp).
Qed.

Lemma free_big_ok h live a x :
  heap_ok h live → arenas h !! a = Some x → a_desc x = None →
  ∃ h', free_pages a (free_cnt x) h = Ok (tt, h') ∧
    heap_ok h' (delete (a + ARENA_SIZE) live) ∧ frame (delete (a + ARENA_SIZE) live) h h'.
Proof.
  intros Hinv Ha Hk. assert (Hpg : arena_pages x = free_cnt x) by (unfold arena_pages; by rewrite Hk).
  destruct (free_pages_ok None h live a x Hinv Ha) as (i & h' & Hi & Hrun & Hpal & Hch & Hd1 & Hc1 & Har & Hb).
  rewrite Hpg in Hrun. exists h'. split; [done|]. destruct Hinv as [_ Hd Hok].
  assert (Hok' : blocks_ok None (pages h') (fl h') (delete a (arenas h)) (delete (a + ARENA_SIZE) live)).
  { rewrite (fl_same h h') by done. apply (drop_big (pages h) (pages h') (fl h) (arenas h) live a i x); try done.
    by rewrite <- Hpg. }
  split; [constructor; [done|by eapply descs_ok_same|by rewrite Har]|].
  apply (frame_drop _ h h' i (arena_pages x) a x); try done.
  intros p m Hp. exact (live_outside _ _ _ _ _ _ _ _ _ a x p m Hok Ha Hok' Hp).
Qed.

(** The block goes back to the free list. *)
Lemma free_push_ok h live a x k p n :
  heap_ok h live → arenas h !! a = Some x → a_desc x = Some k → is_block k a p → live !! p = Some n →
  ∃ h', (on_bytes (memset p 0xcc (bsz k)) ;; push_front k p ;;
         put_arena a (MkArena (magic x) (a_desc x) (u32 (free_cnt x + 1)))) h = Ok (tt, h') ∧
    heap_inv (Some a) h' (delete p live) ∧ frame (delete p live) h h' ∧
    arenas h' = <[a := MkArena ARENA_MAGIC (Some k) (free_cnt x + 1)]> (arenas h).
Proof.
  intros Hinv Ha Hk Hp Hl. assert (Hinv' := Hinv). destruct Hinv' as [Hpal Hd Hok].
  destruct (b_small _ _ _ _ _ Hok a x k Ha Hk) as (Hk7 & _). pose proof (bsz_bounds k Hk7) as (Hbs & Hbpa & _).
  assert (Hm := proj1 (b_arena _ _ _ _ _ Hok a x Ha)).
  assert (Hle := free_cnt_bound _ _ _ _ _ a x k Hok Ha Hk).
  rewrite Hm, Hk, u32_id by (unfold in_u32; lia).
  set (h1 := with_pages (with_bytes (memset p 0xcc (bsz k) (bytes (pages h))) (pages h)) h).
  set (h2 := with_pages (with_bytes (forget (Z.to_nat BLOCK_SIZE) p (bytes (pages h1))) (pages h1)) h1).
  set (h3 := set_fl k (p :: fl h k) h2).
  assert (Hpush : push_front k p h1 = Ok (tt, h3)).
  { unfold push_front. rewrite (run_bind_ok _ _ _ _ _ (on_bytes_run (forget (Z.to_nat BLOCK_SIZE) p) h1)). fold h2.
    rewrite (run_bind_ok _ _ _ _ _ (get_desc_ok h2 k Hd Hk7)). by apply (put_desc_ok h2 k). }
  rewrite (run_bind_ok _ _ _ _ _ (on_bytes_run (memset p 0xcc (bsz k)) h)). fold h1.
  rewrite (run_bind_ok _ _ _ _ _ Hpush).
  destruct (put_arena_ok a (MkArena ARENA_MAGIC (Some k) (free_cnt x + 1)) h3)
    as (h4 & Hput & Hkept4 & Hd4 & Hc4 & Ha4). rewrite Hput.
  assert (Hkept : kept p (bsz k) h h3).
  { apply (kept_trans _ _ _ h1).
    - eexists. split; [done|]. intros q Hq. by rewrite memset_lookup, in_range_out by lia.
    - apply (kept_mono _ _ p 8); [lia..|]. apply (kept_forget p 8 h1). }
  assert (Hd3 : descs_ok h3) by (by apply descs_ok_set_fl).
  assert (Hok' := give_block (pages h) (fl h) (fl h3) (arenas h) live a x k p Hok Ha Hk Hp ltac:(eauto)).
  exists h4. split; [done|]. split; [|split; [|done]].
  - constructor; [by eapply kept_palloc_ok; [|eapply kept_palloc_ok]|by apply (descs_ok_same h3)|].
    eapply kept_blocks_ok; [exact Hkept4|]. eapply kept_blocks_ok; [exact Hkept|].
    rewrite Ha4, (fl_same h3 h4) by done. apply Hok'.
    + unfold h3. rewrite fl_set_fl by done. by rewrite decide_True.
    + intros j Hj. unfold h3. rewrite fl_set_fl by done. by rewrite decide_False.
  - apply (heap_frame_trans _ h h3 h4).
    + apply (frame_kept _ h h3 p (bsz k)); [done|done|]. intros q m (Hne & Hq)%lookup_delete_Some.
      by apply (block_disjoint _ _ _ _ _ a x k p q m Hok).
    + apply (frame_kept _ h3 h4 a ARENA_SIZE); [done| |].
      * apply (covered_recount h3 h4 a x k (free_cnt x + 1)); done.
      * intros q m (Hne & Hq)%lookup_delete_Some. by apply (header_disjoint _ _ _ _ _ a x q m Hok).
Qed.

Lemma free_ok h live p n :
  heap_ok h live → live !! p = Some n →
  ∃ h', free p h = Ok (tt, h') ∧ heap_ok h' (delete p live) ∧ frame (delete p live) h h'.
Proof.
  intros Hinv Hl. destruct (b_live _ _ _ _ _ (h_blocks _ _ _ Hinv) p n Hl) as (Hn & a & x & Ha & Hpl).
  assert (Hat := arena_at_inv _ _ _ _ _ Hinv Ha). assert (Hr := placed_range _ _ _ _ Hpl). unfold free.
  destruct (Z.eqb_spec p NULL).
  { destruct Hat as (_ & _ & _ & _ & Hlo & _). unfold NULL, PHYS_BASE, ARENA_SIZE in *. lia. }
  cbn [negb]. rewrite (run_bind_ok _ _ _ _ _ (block_to_arena_ok h a x p n (h_descs _ _ _ Hinv) Hat Hpl Hn)).
  rewrite (run_bind_ok _ _ _ _ _ (get_arena_ok h a x Ha)). destruct (a_desc x) as [k|] eqn:Hk; unfold placed in Hpl;
    rewrite Hk in Hpl.
  2: { destruct Hpl as (-> & _). by apply free_big_ok. }
  destruct Hpl as (Hk7 & Hb & _). pose proof (bsz_bounds k Hk7) as (_ & Hbpa & _).
  assert (Hle := free_cnt_bound _ _ _ _ _ a x k (h_blocks _ _ _ Hinv) Ha Hk).
  destruct (b_small _ _ _ _ _ (h_blocks _ _ _ Hinv) a x k Ha Hk) as (_ & _ & [?|Hlt] & _); [done|].
  rewrite (run_bind_ok _ _ _ _ _ (get_desc_ok h k (h_descs _ _ _ Hinv) Hk7)). cbn [d_block_size d_blocks_per_arena].
  destruct (free_push_ok h live a x k p n Hinv Ha Hk Hb Hl) as (h1 & Hpush & Hinv1 & Hfr1 & Har1).
  rewrite Hk in Hpush.
  apply run_bind_inv in Hpush as (u1 & g1 & E1 & Hpush). apply run_bind_inv in Hpush as (u2 & g2 & E2 & E3).
  rewrite (run_bind_ok _ _ _ _ _ E1), (run_bind_ok _ _ _ _ _ E2). cbn zeta. rewrite (run_bind_ok _ _ _ _ _ E3).
  rewrite u32_id by (unfold in_u32; lia).
  assert (Ha1 : arenas h1 !! a = Some (MkArena ARENA_MAGIC (Some k) (free_cnt x + 1))) by (rewrite Har1; apply lookup_insert_eq).
  destruct (Z.leb_spec (bpa k) (free_cnt x + 1)).
  - run_assert; [|apply Z.eqb_eq; lia].
    destruct (free_arena_ok h1 (delete p live) a _ k Hinv1 Ha1 eq_refl) as (h2 & Hrun & Hok2 & Hfr2); [simpl; lia|].
    exists h2. split; [done|]. split; [done|]. by eapply heap_frame_trans.
  - exists h1. split; [done|]. split; [|done]. destruct Hinv1 as [? ? Hok1].
    constructor; [done..|]. by eapply blocks_ok_drop.
Qed.

(** ** [realloc] and [calloc] *)

(** The bytes a block really has. *)
Definition extent (x : arena) : Z :=
  match a_desc x with Some k => bsz k | None => PGSIZE * free_cnt x - ARENA_SIZE end.

Lemma placed_extent a x p n : placed a x p n → n ≤ extent x.
Proof. unfold placed, extent. destruct (a_desc x); naive_solver. Qed.

Lemma block_size_ok h a x p n :
  descs_ok h → arena_at h a x → placed a x p n → 0 < n → block_size p h = Ok (extent x, h).
Proof.
  intros Hd Hat Hpl Hn. unfold block_size.
  rewrite (run_bind_ok _ _ _ _ _ (block_to_arena_ok h a x p n Hd Hat Hpl Hn)).
  rewrite (run_bind_ok _ _ _ _ _ (get_arena_ok h a x (proj1 Hat))).
  unfold placed, extent in *. destruct (a_desc x) as [k|] eqn:Hk.
  - destruct Hpl as (Hk7 & _). by rewrite (run_bind_ok _ _ _ _ _ (get_desc_ok h k Hd Hk7)).
  - destruct Hat as (_ & _ & Hpos & Hal & Hlo & Hhi), Hpl as (-> & Hle). unfold PHYS_BASE in Hlo.
    assert (Hpg : arena_pages x = free_cnt x) by (unfold arena_pages; by rewrite Hk).
    destruct (page_of a (a + ARENA_SIZE) Hal ltac:(lia)) as [_ ->];
      [rewrite PGSIZE_val in *; lia|unfold in_page, ARENA_SIZE; rewrite PGSIZE_val; lia|].
    replace (a + ARENA_SIZE - a) with ARENA_SIZE by lia.
    rewrite u32_id; [done|]. unfold in_u32, ARENA_SIZE in *. rewrite PGSIZE_val in *. lia.
Qed.

(** Live blocks do not reach into the extent of another one. *)
Lemma extent_disjoint e P F A live a x p n q m :
  blocks_ok e P F A live → A !! a = Some x → placed a x p n → live !! q = Some m → q ≠ p →
  q + m ≤ p ∨ p + extent x ≤ q.
Proof.
  intros Hok Ha Hpl Hq Hne. unfold placed, extent in *. destruct (a_desc x) as [k|] eqn:Hk.
  - destruct Hpl as (_ & Hb & _). by eapply block_disjoint.
  - destruct Hpl as (-> & _). destruct (b_live _ _ _ _ _ Hok q m Hq) as (Hm & b & y & Hb & Hpl').
    assert (Hr := placed_range _ _ _ _ Hpl').
    assert (Hpg : arena_pages x = free_cnt x) by (unfold arena_pages; by rewrite Hk).
    destruct (Z.lt_trichotomy a b) as [Hl|[<-|Hl]].
    + pose proof (b_apart _ _ _ _ _ Hok a x b y Ha Hb Hl). unfold ARENA_SIZE in *. lia.
    + rewrite Ha in Hb. injection Hb as <-. unfold placed in Hpl'. rewrite Hk in Hpl'. destruct Hpl'. congruence.
    + pose proof (b_apart _ _ _ _ _ Hok b y a x Hb Ha Hl). unfold ARENA_SIZE in *. lia.
Qed.

(** Writing into a live block. *)
Lemma write_live_ok h live p n b m h' :
  heap_ok h live → live !! p = Some n → p ≤ b → b + m ≤ p + n → kept b m h h' →
  descs h' = descs h → desc_cnt h' = desc_cnt h → arenas h' = arenas h →
  heap_ok h' live ∧ frame (delete p live) h h'.
Proof.
  intros [Hpal Hd Hok] Hp Hb Hm Hkept E1 E2 E3. split.
  - constructor; [by eapply kept_palloc_ok|by eapply descs_ok_same|]. eapply kept_blocks_ok; [exact Hkept|].
    rewrite E3, (fl_same h h') by done. exact Hok.
  - apply (frame_kept _ h h' b m); [done|unfold covered; by rewrite E3|].
    intros q l (Hne & Hq)%lookup_delete_Some. destruct (b_live _ _ _ _ _ Hok p n Hp) as (Hn & _).
    destruct (b_live _ _ _ _ _ Hok q l Hq) as (Hl & _).
    destruct (Z.lt_trichotomy p q) as [Hlt|[?|Hlt]]; [|done|].
    + pose proof (live_disjoint _ _ _ _ _ p n q l Hok Hp Hq Hlt). lia.
    + pose proof (live_disjoint _ _ _ _ _ q l p n Hok Hq Hp Hlt). lia.
Qed.

Lemma realloc_ok h live old n size :
  heap_ok h live → live !! old = Some n → 0 < size < 2 ^ 32 - 11 →
  (realloc old size h = Ok (NULL, h) ∧ no_room h size) ∨
  (∃ p h', realloc old size h = Ok (p, h') ∧ p ≠ NULL ∧ live !! p = None ∧
     heap_ok h' (<[p := size]> (delete old live)) ∧ frame (delete old live) h h' ∧
     ∀ k, 0 ≤ k < Z.min size n → bytes (pages h') !! (p + k) = bytes (pages h) !! (old + k)).
Proof.
  intros Hinv Hold Hsize. unfold realloc. destruct (Z.eqb_spec size 0); [lia|].
  destruct (malloc_ok h live size Hinv Hsize) as [(Hrun & Hno)|(p & h1 & Hrun & Hfresh & Hp & Hinv1 & Hfr1)];
    [left|right]; rewrite (run_bind_ok _ _ _ _ _ Hrun).
  { rewrite andb_false_r. done. }
  assert (Hne : p ≠ old) by congruence.
  assert (Hold1 : <[p := size]> live !! old = Some n) by (by rewrite lookup_insert_ne).
  assert (Hp1 : <[p := size]> live !! p = Some size) by apply lookup_insert_eq.
  destruct (b_live _ _ _ _ _ (h_blocks _ _ _ Hinv1) old n Hold1) as (Hn & a & x & Ha & Hpl).
  assert (Hat := arena_at_inv _ _ _ _ _ Hinv1 Ha). assert (Hr := placed_range _ _ _ _ Hpl).
  assert (Hon : old ≠ NULL).
  { destruct Hat as (_ & _ & _ & _ & Hlo & _). unfold NULL, PHYS_BASE, ARENA_SIZE in *. lia. }
  destruct (Z.eqb_spec old NULL), (Z.eqb_spec p NULL); try done. cbn [negb andb].
  assert (Hext := placed_extent _ _ _ _ Hpl). set (mn := Z.min size (extent x)).
  assert (Hdis : p + mn ≤ old ∨ old + mn ≤ p).
  { destruct (extent_disjoint _ _ _ _ _ a x old n p size (h_blocks _ _ _ Hinv1) Ha Hpl Hp1 Hne); lia. }
  set (h2 := with_pages (with_bytes (copy (Z.to_nat mn) p old (bytes (pages h1))) (pages h1)) h1).
  assert (Hlook : ∀ q, bytes (pages h2) !! q = if in_range p mn q then bytes (pages h1) !! (old + (q - p))
                                               else bytes (pages h1) !! q).
  { intros q. unfold h2. cbn [pages with_pages bytes with_bytes]. rewrite copy_lookup; rewrite Z2Nat.id by lia; done. }
  destruct (write_live_ok h1 (<[p := size]> live) p size p mn h2) as [Hinv2 Hfr2]; [done|done|lia|lia| |done..|].
  { eexists. split; [done|]. intros q Hq. specialize (Hlook q). rewrite in_range_out in Hlook by done. done. }
  destruct (free_ok h2 (<[p := size]> live) old n Hinv2 Hold1) as (h3 & Hfree & Hinv3 & Hfr3).
  assert (Hsub : delete old live ⊆ delete old (<[p := size]> live)).
  { apply delete_mono, insert_subseteq, Hfresh. }
  assert (Hsub' : delete old live ⊆ delete p (<[p := size]> live)).
  { rewrite delete_insert_id by done. apply delete_subseteq. }
  exists p, h3. split.
  { erewrite run_bind_ok; [reflexivity|].
    rewrite (run_bind_ok _ _ _ _ _ (block_size_ok h1 a x old n (h_descs _ _ _ Hinv1) Hat Hpl Hn)).
    replace (if size <? extent x then size else extent x) with mn
      by (unfold mn; destruct (Z.ltb_spec size (extent x)); lia).
    rewrite (run_bind_ok _ _ _ _ _ (on_bytes_run (copy (Z.to_nat mn) p old) h1)). exact Hfree. }
  split; [done|]. split; [done|]. split; [|split].
  - by rewrite <- delete_insert_ne.
  - eapply heap_frame_trans; [eapply frame_weaken; [|exact Hfr1]; apply delete_subseteq|].
    eapply heap_frame_trans; [eapply frame_weaken; [|exact Hfr2]; exact Hsub'|].
    eapply frame_weaken; [|exact Hfr3]. exact Hsub.
  - intros k Hk. rewrite (f_bytes _ _ _ Hfr3 p size) by (rewrite ?lookup_delete_ne by done; done || lia).
    rewrite Hlook, (proj2 (in_range_spec p mn (p + k))) by lia.
    replace (old + (p + k - p)) with (old + k) by lia. apply (f_bytes _ _ _ Hfr1 old n); [done|lia].
Qed.

(** [calloc] of a product that does not wrap around. *)
Lemma calloc_eq h a b :
  0 ≤ a → 0 ≤ b → 0 < a * b < 2 ^ 32 →
  calloc a b h = (p ← malloc (a * b);
    (if negb (p =? NULL) then on_bytes (memset p 0 (a * b)) else mret tt) ;; mret p) h.
Proof.
  intros Ha Hb Hs. unfold calloc. rewrite u32_id by (unfold in_u32; lia).
  assert (a ≠ 0 ∧ b ≠ 0) as [Ha0 Hb0] by (split; intros ->; lia).
  assert (a ≤ a * b ∧ b ≤ a * b) as [H1 H2] by nia.
  by rewrite (proj2 (Z.ltb_ge _ _) H1), (proj2 (Z.ltb_ge _ _) H2).
Qed.

Lemma calloc_no_room h live a b :
  heap_ok h live → 0 ≤ a → 0 ≤ b → 0 < a * b < 2 ^ 32 - 11 → no_room h (a * b) → calloc a b h = Ok (NULL, h).
Proof.
  intros Hinv Ha Hb Hs Hno. rewrite calloc_eq by lia.
  by rewrite (run_bind_ok _ _ _ _ _ (malloc_no_room h live _ Hinv Hs Hno)).
Qed.

Lemma calloc_ok h live a b :
  heap_ok h live → 0 ≤ a → 0 ≤ b → a * b < 2 ^ 32 - 11 → 0 < a * b →
  (calloc a b h = Ok (NULL, h) ∧ no_room h (a * b)) ∨
  (∃ p h', calloc a b h = Ok (p, h') ∧ handed_out h live (a * b) p h' ∧
     ∀ k, 0 ≤ k < a * b → bytes (pages h') !! (p + k) = Some 0).
Proof.
  intros Hinv Ha Hb Hmax Hpos. rewrite calloc_eq by lia.
  destruct (malloc_ok h live (a * b) Hinv ltac:(lia)) as [(Hrun & Hno)|(p & h1 & Hrun & Hfresh & Hp & Hinv1 & Hfr1)];
    [left|right]; rewrite (run_bind_ok _ _ _ _ _ Hrun); [done|].
  destruct (Z.eqb_spec p NULL); [done|]. cbn [negb].
  rewrite (run_bind_ok _ _ _ _ _ (on_bytes_run (memset p 0 (a * b)) h1)).
  eexists p, _. split; [reflexivity|]. set (h2 := with_pages _ h1).
  assert (Hlook : ∀ q, bytes (pages h2) !! q = if in_range p (a * b) q then Some 0 else bytes (pages h1) !! q).
  { intros q. unfold h2. cbn [pages with_pages bytes with_bytes]. by rewrite memset_lookup by lia. }
  destruct (write_live_ok h1 (<[p := a * b]> live) p (a * b) p (a * b) h2) as [Hinv2 Hfr2];
    [done|apply lookup_insert_eq|lia|lia| |done..|].
  { eexists. split; [done|]. intros q Hq. specialize (Hlook q). rewrite in_range_out in Hlook by done. done. }
  split.
  - split; [done|]. split; [done|]. split; [done|]. eapply heap_frame_trans; [exact Hfr1|].
    eapply frame_weaken; [|exact Hfr2]. by rewrite delete_insert_id.
  - intros k Hk. by rewrite Hlook, (proj2 (in_range_spec p (a * b) (p + k))) by lia.
Qed.

End MallocSpec.
