(* ===== verification/MallocSafe.v ===== *)
(** * The block allocator in use

    The states that [malloc_init], any sequence of calls that respects the
    interface, writes into blocks in use and other users of the page allocator
    lead to, and the properties of every call in them. *)
From S2P Require Import Prelude CInt Bitmap Palloc PallocSpec Malloc MallocArena MallocRun MallocSpec.

Open Scope Z_scope.

Module MallocSafe.
Import Palloc PallocSpec Malloc MallocInv MallocArena MallocRun MallocFrame MallocSpec.

(** ** Initialisation *)

Definition initial_heap (P : palloc) : heap :=
  MkHeap P (((λ k, MkDesc (bsz k) (bpa k) []) <$> seq 0 7) ++ replicate 3 (MkDesc 0 0 [])) 7 ∅.

Lemma malloc_init_run P : malloc_init (empty_heap P) = Ok (tt, initial_heap P).
Proof. vm_compute. reflexivity. Qed.

Lemma initial_heap_ok P : palloc_ok P → heap_ok (initial_heap P) ∅.
Proof.
  intros Hpal. assert (Hfl : ∀ k, (k < 7)%nat → fl (initial_heap P) k = []).
  { intros k Hk. do 7 (destruct k as [|k]; [done|]). lia. }
  constructor; [done| |].
  - split; [done|]. intros k Hk. rewrite Hfl by done. do 7 (destruct k as [|k]; [done|]). lia.
  - constructor; simpl; try (intros; simplify_map_eq; done).
    + intros k Hk. rewrite Hfl by done. constructor.
    + intros k p Hk. rewrite Hfl by done. by intros ?%elem_of_nil.
Qed.

(** ** Other users of the page allocator *)

Lemma blocks_ok_taken e P P' w i n F A live :
  changed w i n true P P' → blocks_ok e P F A live → blocks_ok e P' F A live.
Proof.
  intros Hch Hok. constructor; try apply Hok. intros a x Ha.
  destruct (b_arena _ _ _ _ _ Hok a x Ha) as (? & ? & j & -> & Hj & Hjn & Hu). split; [done|]. split; [done|].
  exists j. split; [symmetry; apply (changed_page _ _ _ _ _ _ _ _ Hch)|].
  split; [done|]. split; [by rewrite (ch_size _ _ _ _ _ _ Hch)|]. intros k Hk.
  rewrite (ch_use _ _ _ _ _ _ Hch) by lia. rewrite Hu by done. by destruct (_ && _).
Qed.

Lemma blocks_ok_given_back e h P' w i n live :
  changed w i n false (pages h) P' → (∀ k, i ≤ k < i + n → foreign w h k) →
  blocks_ok e (pages h) (fl h) (arenas h) live → blocks_ok e P' (fl h) (arenas h) live.
Proof.
  intros Hch Hf Hok. constructor; try apply Hok. intros a x Ha.
  destruct (b_arena _ _ _ _ _ Hok a x Ha) as (? & ? & j & Haj & Hj & Hjn & Hu). split; [done|]. split; [done|].
  exists j. split; [by rewrite (changed_page _ _ _ _ _ _ _ _ Hch)|].
  split; [done|]. split; [by rewrite (ch_size _ _ _ _ _ _ Hch)|]. intros k Hk.
  rewrite (ch_use _ _ _ _ _ _ Hch) by lia. rewrite Hu by done.
  case_bool_decide as Hw; [subst w|done]. destruct (in_range i n k) eqn:E; [exfalso|done].
  apply in_range_spec in E. destruct (Hf k E) as [_ Hc]. apply Hc; [done|]. exists a, x. split; [done|].
  rewrite Haj. unfold page. rewrite PGSIZE_val. lia.
Qed.

(** ** Reachable states *)

(** The state [h], with the blocks handed out and the sizes asked for. *)
Inductive reach : heap → gmap Z Z → Prop :=
| reach_init P h : palloc_ok P → malloc_init (empty_heap P) = Ok (tt, h) → reach h ∅
| reach_malloc h live size p h' :
    reach h live → 0 < size < 2 ^ 32 - 11 → malloc size h = Ok (p, h') →
    reach h' (if p =? NULL then live else <[p := size]> live)
| reach_calloc h live a b p h' :
    reach h live → 0 ≤ a → 0 ≤ b → 0 < a * b < 2 ^ 32 - 11 → calloc a b h = Ok (p, h') →
    reach h' (if p =? NULL then live else <[p := a * b]> live)
| reach_free h live p n h' :
    reach h live → live !! p = Some n → free p h = Ok (tt, h') → reach h' (delete p live)
| reach_realloc h live old n size p h' :
    reach h live → live !! old = Some n → 0 < size < 2 ^ 32 - 11 → realloc old size h = Ok (p, h') →
    reach h' (if p =? NULL then live else <[p := size]> (delete old live))
| reach_write h live p n k v :
    reach h live → live !! p = Some n → 0 ≤ k < n →
    reach (with_pages (with_bytes (<[p + k := v]> (bytes (pages h))) (pages h)) h) live
| reach_palloc h live flags n p P' :
    reach h live → 0 ≤ n → palloc_get_multiple flags n (pages h) = Ok (p, P') →
    reach (with_pages P' h) live
| reach_palloc_free h live w i n P' :
    reach h live → 0 < n → run w (pages h) i n true → (∀ k, i ≤ k < i + n → foreign w h k) →
    palloc_free_multiple (page w (pages h) i) n (pages h) = Ok (tt, P') →
    reach (with_pages P' h) live.

Lemma reach_palloc_ok h live flags n p P' :
  heap_ok h live → 0 ≤ n → palloc_get_multiple flags n (pages h) = Ok (p, P') → heap_ok (with_pages P' h) live.
Proof.
  intros [Hpal Hd Hok] Hn Hrun. destruct (Z.eq_dec n 0) as [->|Hn0].
  { injection Hrun as <- <-. rewrite with_pages_id. by constructor. }
  destruct (first_run (pool_for flags) (pages h) n Hpal ltac:(lia)) as [(i & Hfree & Hmin)|Hnone].
  - destruct (palloc_get_ok (pages h) flags n i Hpal ltac:(lia) Hfree Hmin) as (P & Hget & Hpal' & Hch & _).
    rewrite Hget in Hrun. injection Hrun as <- <-. constructor; [done|done|]. by eapply blocks_ok_taken.
  - rewrite (palloc_get_full (pages h) flags n Hpal ltac:(lia) Hnone) in Hrun.
    destruct (has_flag flags PAL_ASSERT); [done|]. injection Hrun as <- <-. rewrite with_pages_id. by constructor.
Qed.

(** Every reachable state satisfies the invariant. *)
Lemma reach_ok h live : reach h live → heap_ok h live.
Proof.
  induction 1 as [P h Hpal Hrun|h live size p h' _ IH Hs Hrun|h live a b p h' _ IH Ha Hb Hab Hrun
    |h live p n h' _ IH Hp Hrun|h live old n size p h' _ IH Hold Hs Hrun|h live p n k v _ IH Hp Hk
    |h live flags n p P' _ IH Hn Hrun|h live w i n P' _ IH Hn Hr Hf Hrun].
  - rewrite malloc_init_run in Hrun. injection Hrun as <-. by apply initial_heap_ok.
  - destruct (malloc_ok h live size IH Hs) as [(E & _)|(p' & h1 & E & Hl & Hp & Hok & _)];
      rewrite E in Hrun; injection Hrun as <- <-; [done|]. by destruct (Z.eqb_spec p' NULL).
  - destruct (calloc_ok h live a b IH Ha Hb ltac:(lia) ltac:(lia)) as [(E & _)|(p' & h1 & E & (Hl & Hp & Hok & _) & _)];
      rewrite E in Hrun; injection Hrun as <- <-; [done|]. by destruct (Z.eqb_spec p' NULL).
  - destruct (free_ok h live p n IH Hp) as (h1 & E & Hok & _). rewrite E in Hrun. by injection Hrun as <-.
  - destruct (realloc_ok h live old n size IH Hold Hs) as [(E & _)|(p' & h1 & E & Hp & _ & Hok & _)];
      rewrite E in Hrun; injection Hrun as <- <-; [done|]. by destruct (Z.eqb_spec p' NULL).
  - apply (write_live_ok h live p n (p + k) 1); [done|done|lia|lia| |done..].
    eexists. split; [done|]. intros q Hq. apply lookup_insert_ne. lia.
  - by eapply reach_palloc_ok.
  - destruct IH as [Hpal Hd Hok].
    destruct (palloc_free_ok (pages h) w i n Hpal Hn Hr) as (P & E & Hpal' & Hch & _).
    rewrite E in Hrun. injection Hrun as <-. constructor; [done|done|]. exact (blocks_ok_given_back None h P w i n live Hch Hf Hok).
Qed.

(** Blocks in use are apart and in kernel memory. *)
Lemma live_apart h live p n :
  heap_ok h live → live !! p = Some n →
  0 < n ∧ PHYS_BASE ≤ p ∧ p + n ≤ 2 ^ 32 ∧
  ∀ q m, live !! q = Some m → q ≠ p → p + n ≤ q ∨ q + m ≤ p.
Proof.
  intros Hinv Hp. assert (Hok := h_blocks _ _ _ Hinv).
  destruct (b_live _ _ _ _ _ Hok p n Hp) as (Hn & a & x & Ha & Hpl).
  apply placed_range in Hpl. destruct (arena_bounds _ _ _ _ _ Hinv Ha) as (_ & Hlo & Hhi). unfold ARENA_SIZE in *.
  split; [done|]. split; [lia|]. split; [lia|]. intros q m Hq Hne.
  destruct (Z.lt_trichotomy p q) as [Hlt|[?|Hlt]]; [left|done|right].
  - by apply (live_disjoint _ _ _ _ _ p n q m Hok Hp Hq).
  - by apply (live_disjoint _ _ _ _ _ q m p n Hok Hq Hp).
Qed.

Lemma no_live_no_arena h i : heap_ok h ∅ → in_use Kernel (pages h) i = true → foreign Kernel h i.
Proof.
  intros Hinv Hu. split; [done|]. intros _ (a & x & Ha & _).
  rewrite (nothing_live _ _ _ (h_blocks _ _ _ Hinv)) in Ha. done.
Qed.

(** ** Properties *)

(** C22: in every state the allocator can get into, whatever the sequence of
    calls, of writes into blocks in use and of other uses of the page
    allocator, as long as no request is of 2^32 - 11 bytes or more (there the
    sizes wrap around, [allocation_sizes_wrap]): the blocks in use lie in
    kernel memory and do not overlap; [malloc], [calloc] and [realloc] of such
    requests return, and [free] of a block in use returns, so that no
    assertion fails, no list operation touches a block that is not on a list
    and no page is given back twice; and when no block is in use, every page
    the allocator took is back in the pool. *)
Theorem malloc_reachable_safe h live :
  reach h live →
  (∀ p n, live !! p = Some n → 0 < n ∧ PHYS_BASE ≤ p ∧ p + n ≤ 2 ^ 32 ∧
     ∀ q m, live !! q = Some m → q ≠ p → p + n ≤ q ∨ q + m ≤ p) ∧
  (∀ size, 0 ≤ size < 2 ^ 32 - 11 → ∃ p h', malloc size h = Ok (p, h')) ∧
  (∀ a b, 0 ≤ a → 0 ≤ b → a * b < 2 ^ 32 - 11 → ∃ p h', calloc a b h = Ok (p, h')) ∧
  (∀ p n, live !! p = Some n → ∃ h', free p h = Ok (tt, h')) ∧
  (∀ p n size, live !! p = Some n → 0 ≤ size < 2 ^ 32 - 11 → ∃ q h', realloc p size h = Ok (q, h')) ∧
  (live = ∅ → ∀ i, in_use Kernel (pages h) i = true → foreign Kernel h i).
Proof.
  intros Hinv%reach_ok. split_and!.
  - intros p n Hp. by eapply live_apart.
  - intros size Hs. destruct (Z.eq_dec size 0) as [->|]; [by eexists _, _|].
    destruct (malloc_ok h live size Hinv ltac:(lia)) as [(E & _)|(p & h' & E & _)]; eauto.
  - intros a b Ha Hb Hs. destruct (Z.eq_dec (a * b) 0) as [E|].
    + exists NULL, h. unfold calloc. rewrite E. change (u32 0) with 0. by destruct ((0 <? a) || (0 <? b)).
    + destruct (calloc_ok h live a b Hinv Ha Hb Hs ltac:(nia)) as [(E & _)|(p & h' & E & _)]; eauto.
  - intros p n Hp. destruct (free_ok h live p n Hinv Hp) as (h' & E & _). eauto.
  - intros p n size Hp Hs. destruct (Z.eq_dec size 0) as [->|].
    + destruct (free_ok h live p n Hinv Hp) as (h' & E & _). exists NULL, h'. unfold realloc. simpl.
      by rewrite (run_bind_ok _ _ _ _ _ E).
    + destruct (realloc_ok h live p n size Hinv Hp ltac:(lia)) as [(E & _)|(q & h' & E & _)]; eauto.
  - intros -> i. by apply no_live_no_arena.
Qed.

(** C23: [malloc] on every branch, for requests of less than 2^32 - 11 bytes
    (from there on the size wraps around, [allocation_sizes_wrap]).  A request
    for no bytes gives null.  Any other request gives null exactly when there
    is no room: no run of free pages for a request too big for every size
    class, else no free block of the smallest class it fits in and no free
    page.  Otherwise the block is new, of at least the size asked for, in
    kernel memory and apart from every block in use, the invariant holds with
    the block added, and neither the bytes of the blocks in use nor the pages
    of others change.  [calloc] is the same, for the product of its arguments,
    with every byte of the block zero. *)
Theorem malloc_correct h live size :
  heap_ok h live → 0 ≤ size < 2 ^ 32 - 11 →
  (size = 0 → malloc size h = Ok (NULL, h)) ∧
  (0 < size → no_room h size → malloc size h = Ok (NULL, h)) ∧
  (0 < size → ¬ no_room h size →
   ∃ p h' s, malloc size h = Ok (p, h') ∧ p ≠ NULL ∧ live !! p = None ∧
     heap_ok h' (<[p := size]> live) ∧ frame live h h' ∧
     PHYS_BASE ≤ p ∧ p + size ≤ 2 ^ 32 ∧ block_size p h' = Ok (s, h') ∧ size ≤ s ∧
     ∀ q m, live !! q = Some m → p + size ≤ q ∨ q + m ≤ p) ∧
  (∀ a b, 0 ≤ a → 0 ≤ b → a * b = size → 0 < size →
     (no_room h size → calloc a b h = Ok (NULL, h)) ∧
     (¬ no_room h size →
      ∃ p h', calloc a b h = Ok (p, h') ∧ p ≠ NULL ∧ live !! p = None ∧
        heap_ok h' (<[p := size]> live) ∧ frame live h h' ∧
        ∀ k, 0 ≤ k < size → bytes (pages h') !! (p + k) = Some 0)).
Proof.
  intros Hinv Hs. split_and!.
  - by intros ->.
  - intros Hpos Hno. apply (malloc_no_room h live size Hinv ltac:(lia) Hno).
  - intros Hpos Hroom.
    destruct (malloc_ok h live size Hinv ltac:(lia)) as [(_ & Hno)|(p & h' & E & Hl & Hp & Hok & Hfr)]; [done|].
    assert (Hp' : <[p := size]> live !! p = Some size) by apply lookup_insert_eq.
    destruct (b_live _ _ _ _ _ (h_blocks _ _ _ Hok) p size Hp') as (Hn & a & x & Ha & Hpl).
    destruct (live_apart h' _ p size Hok Hp') as (_ & H1 & H2 & H3).
    exists p, h', (extent x). split_and!; try done.
    + by apply (block_size_ok h' a x p size (h_descs _ _ _ Hok) (arena_at_inv _ _ _ _ _ Hok Ha)).
    + by eapply placed_extent.
    + intros q m Hq. assert (q ≠ p) by congruence. apply H3; [by rewrite lookup_insert_ne|done].
  - intros a b Ha Hb <- Hpos. split; [intros Hno; apply (calloc_no_room h live a b Hinv Ha Hb); [lia|done]|]. intros Hroom.
    destruct (calloc_ok h live a b Hinv Ha Hb ltac:(lia) Hpos) as [[_ ?]|(p & h' & E & (Hl & Hp & Hok & Hfr) & Hz)];
      [done|]. by exists p, h'.
Qed.

(** C24: [free] of a block in use always succeeds: the block is no longer in
    use, the bytes of the other blocks and the pages of others stay as they
    are, and when it was the last block in use no page is left to the
    allocator.  [free] of null does nothing. *)
Theorem free_correct h live p n :
  heap_ok h live → live !! p = Some n →
  free NULL h = Ok (tt, h) ∧
  ∃ h', free p h = Ok (tt, h') ∧ heap_ok h' (delete p live) ∧ frame (delete p live) h h' ∧
    (live = {[ p := n ]} → arenas h' = ∅ ∧
       ∀ i, 0 ≤ i < npages Kernel (pages h) → in_use Kernel (pages h') i = true ↔ foreign Kernel h i).
Proof.
  intros Hinv Hp. split; [done|]. destruct (free_ok h live p n Hinv Hp) as (h' & E & Hok & Hfr).
  exists h'. split; [done|]. split; [done|]. split; [done|]. intros Hlast.
  assert (Hemp : delete p live = ∅) by (rewrite Hlast; apply delete_singleton_eq). rewrite Hemp in Hok.
  split; [exact (nothing_live _ _ _ (h_blocks _ _ _ Hok))|]. intros i Hi. rewrite <- (f_foreign _ _ _ Hfr) by done.
  split; [by apply no_live_no_arena|by intros [? _]].
Qed.

(** [realloc] of a block in use.  Size 0 frees the block.  Without room
    it gives null and leaves the block alone.  Otherwise the new block holds
    the bytes of the old one up to the smaller of the two sizes, the old one
    is no longer in use, and other blocks and pages stay as they are. *)
Theorem realloc_correct h live old n size :
  heap_ok h live → live !! old = Some n → 0 ≤ size < 2 ^ 32 - 11 →
  (size = 0 ∧ ∃ h', realloc old size h = Ok (NULL, h') ∧ heap_ok h' (delete old live) ∧
                    frame (delete old live) h h') ∨
  (0 < size ∧ realloc old size h = Ok (NULL, h) ∧ no_room h size) ∨
  (∃ p h', realloc old size h = Ok (p, h') ∧ p ≠ NULL ∧ live !! p = None ∧
     heap_ok h' (<[p := size]> (delete old live)) ∧ frame (delete old live) h h' ∧
     ∀ k, 0 ≤ k < Z.min size n → bytes (pages h') !! (p + k) = bytes (pages h) !! (old + k)).
Proof.
  intros Hinv Hold Hs. destruct (Z.eq_dec size 0) as [->|Hne]; [left|right].
  - split; [done|]. destruct (free_ok h live old n Hinv Hold) as (h' & E & Hok & Hfr). exists h'.
    unfold realloc. simpl. by rewrite (run_bind_ok _ _ _ _ _ E).
  - destruct (realloc_ok h live old n size Hinv Hold ltac:(lia)) as [[? ?]|?]; [left|by right].
    split; [lia|done].
Qed.

(** sizes that wrap around.  For the eleven largest sizes the number of
    pages computed by [malloc] wraps to one, and it returns a block of 4084
    bytes as if that were enough.  The overflow test of [calloc] lets products
    pass that wrap to a value no smaller than its arguments: it then allocates
    the wrapped size, as for 65537 elements of 65537 bytes. *)
Theorem allocation_sizes_wrap h live :
  heap_ok h live →
  (∀ size i, 2 ^ 32 - 11 ≤ size < 2 ^ 32 → run Kernel (pages h) i 1 false →
     ∃ p h', malloc size h = Ok (p, h') ∧ p ≠ NULL ∧ block_size p h' = Ok (4084, h')) ∧
  (∀ a b, a ≤ u32 (a * b) → b ≤ u32 (a * b) → 1 ≤ u32 (a * b) → calloc a b h = calloc 1 (u32 (a * b)) h) ∧
  2 ^ 32 ≤ 65537 * 65537 ∧ calloc 65537 65537 h = calloc 1 131073 h.
Proof.
  intros Hinv.
  assert (Hwrap : ∀ a b, a ≤ u32 (a * b) → b ≤ u32 (a * b) → 1 ≤ u32 (a * b) →
                         calloc a b h = calloc 1 (u32 (a * b)) h).
  { intros a b Ha Hb H1. unfold calloc. rewrite Z.mul_1_l, (u32_id (u32 (a * b))) by apply u32_range.
    destruct (Z.ltb_spec (u32 (a * b)) a), (Z.ltb_spec (u32 (a * b)) b), (Z.ltb_spec (u32 (a * b)) 1),
      (Z.ltb_spec (u32 (a * b)) (u32 (a * b))); try lia. done. }
  split; [|split; [done|split; [vm_compute; congruence|apply (Hwrap 65537 65537); vm_compute; congruence]]].
  intros size i Hs Hrun. assert (Hinv' := Hinv). destruct Hinv' as [Hpal Hd Hok]. unfold malloc.
  destruct (Z.eqb_spec size 0) as [|_]; [lia|]. erewrite run_bind_ok; [|reflexivity]. rewrite (proj1 Hd).
  destruct (find_desc_ok 7 0 size h Hd eq_refl) as (k & Hfind & Hk & Hfit & _).
  rewrite (run_bind_ok _ _ _ _ _ Hfind). destruct (Nat.eqb_spec k 7) as [->|Hk7].
  2: { specialize (Hfit ltac:(lia)). pose proof (bsz_bounds k ltac:(lia)). lia. }
  assert (En : 1 = Z.quot (u32 (u32 (size + ARENA_SIZE) + PGSIZE - 1)) PGSIZE).
  { unfold ARENA_SIZE. rewrite PGSIZE_val. assert (E : u32 (size + 12) = size + 12 - 2 ^ 32) by (unfold u32; divlia).
    rewrite E, u32_id by (unfold in_u32; lia). rewrite quot_div_nonneg by lia. divlia. }
  destruct (malloc_big_ok h live size 1 Hinv ltac:(lia) En ltac:(lia))
    as [(_ & [?|Hno])|(j & h' & _ & _ & E & _ & Har & Hout)]; [lia|by destruct (Hno i)|].
  eexists _, h'. split; [done|]. destruct (Hout 1) as (_ & Hp & Hok' & _); [rewrite PGSIZE_val; unfold ARENA_SIZE; lia|].
  split; [done|]. set (a := page Kernel (pages h) j) in *. set (x := MkArena ARENA_MAGIC None 1) in *.
  assert (Ha : arenas h' !! a = Some x) by (rewrite Har; apply lookup_insert_eq).
  apply (block_size_ok h' a x _ 1 (h_descs _ _ _ Hok') (arena_at_inv _ _ _ _ _ Hok' Ha)); [|done].
  unfold placed. simpl. split; [done|]. rewrite PGSIZE_val. unfold ARENA_SIZE. lia.
Qed.

End MallocSafe.

(** * The block allocator on a small machine

    Instances of the properties of [MallocSafe] in a state with one block in
    use. *)

Module MallocDemo.
Import Palloc PallocSpec Malloc MallocInv MallocRun MallocFrame MallocSpec MallocSafe.

(** The first block of the first page of the kernel pool, 600 bytes. *)
Definition demo_block : Z := 0xc010100c.
Definition demo_heap : heap :=
  match malloc 600 (initial_heap small_machine) with Ok (_, h) => h | Err _ => empty_heap small_machine end.
Definition demo_live : gmap Z Z := {[ demo_block := 600 ]}.

Lemma demo_run : malloc 600 (initial_heap small_machine) = Ok (demo_block, demo_heap).
Proof. vm_compute. reflexivity. Qed.

Lemma demo_reach : reach demo_heap demo_live.
Proof.
  change demo_live with (if demo_block =? NULL then ∅ else <[demo_block := 600]> (∅ : gmap Z Z)).
  apply (reach_malloc (initial_heap small_machine) ∅ 600 demo_block demo_heap); [|lia|exact demo_run].
  apply (reach_init small_machine); [exact small_machine_ok|apply malloc_init_run].
Qed.

Lemma demo_ok : heap_ok demo_heap demo_live.
Proof. exact (reach_ok _ _ demo_reach). Qed.

Lemma demo_lookup : demo_live !! demo_block = Some 600.
Proof. apply lookup_singleton_eq. Qed.

(** Is the result a block? *)
Definition is_block_result {S} (r : res (Z * S)) : bool :=
  match r with Ok (p, _) => negb (p =? NULL) | Err _ => false end.

Lemma malloc_reachable_safe_witness :
  (∃ h', free demo_block demo_heap = Ok (tt, h')) ∧ (∃ q h', realloc demo_block 5000 demo_heap = Ok (q, h')).
Proof.
  destruct (malloc_reachable_safe demo_heap demo_live demo_reach) as (_ & _ & _ & H1 & H2 & _).
  split; [exact (H1 _ _ demo_lookup)|apply (H2 _ _ 5000 demo_lookup); lia].
Defined.

Lemma malloc_correct_witness :
  ∃ p h', malloc 100 demo_heap = Ok (p, h') ∧ p ≠ NULL ∧ heap_ok h' (<[p := 100]> demo_live).
Proof.
  assert (E : is_block_result (malloc 100 demo_heap) = true) by (vm_compute; reflexivity).
  destruct (malloc_correct demo_heap demo_live 100 demo_ok ltac:(lia)) as (_ & Hnull & Hblock & _).
  destruct (Hblock ltac:(lia)) as (p & h' & s & H1 & H2 & _ & H3 & _).
  - intros Hno. rewrite (Hnull ltac:(lia) Hno) in E. discriminate E.
  - exists p, h'. split; [exact H1|]. split; [exact H2|exact H3].
Defined.

Lemma free_correct_witness :
  ∃ h', free demo_block demo_heap = Ok (tt, h') ∧ arenas h' = ∅.
Proof.
  destruct (free_correct demo_heap demo_live demo_block 600 demo_ok demo_lookup) as (_ & h' & H1 & _ & _ & H2).
  exists h'. split; [exact H1|]. exact (proj1 (H2 eq_refl)).
Defined.

Lemma realloc_correct_witness :
  ∃ p h', realloc demo_block 2000 demo_heap = Ok (p, h') ∧ p ≠ NULL ∧
    bytes (pages h') !! (p + 599) = bytes (pages demo_heap) !! (demo_block + 599).
Proof.
  assert (E : is_block_result (realloc demo_block 2000 demo_heap) = true) by (vm_compute; reflexivity).
  destruct (realloc_correct demo_heap demo_live demo_block 600 2000 demo_ok demo_lookup ltac:(lia))
    as [(H & _)|[(_ & H & _)|(p & h' & H1 & H2 & _ & _ & _ & H3)]].
  - exfalso. lia.
  - exfalso. rewrite H in E. discriminate E.
  - exists p, h'. split; [exact H1|]. split; [exact H2|]. apply H3. lia.
Defined.

Lemma demo_free_page : run Kernel (pages demo_heap) 1 1 false.
Proof.
  split; [lia|]. split; [vm_compute; congruence|]. intros k Hk. assert (k = 1) as -> by lia.
  vm_compute. reflexivity.
Qed.

Lemma allocation_sizes_wrap_witness :
  ∃ p h', malloc (2 ^ 32 - 5) demo_heap = Ok (p, h') ∧ p ≠ NULL ∧ block_size p h' = Ok (4084, h').
Proof.
  destruct (allocation_sizes_wrap demo_heap demo_live demo_ok) as [H _].
  apply (H (2 ^ 32 - 5) 1); [lia|exact demo_free_page].
Defined.

End MallocDemo.
