(* ===== verification/Pagedir.v ===== *)
(** * Page tables: [src/pintos/threads/pte.h] and [src/pintos/userprog/pagedir.c]

    Page directories and page tables are 32-bit little-endian words in the
    memory that the page allocator hands out; [cr3] is the processor's page
    directory base register.  [init_page_dir] and [init_ram_pages] are set up
    at boot by [threads/init.c] and the loader. *)
From S2P Require Import Prelude CInt Bitmap Palloc.

Open Scope Z_scope.

Module Pagedir.
Import Palloc.

(** ** [threads/pte.h] *)

Definition PTSHIFT : Z := PGBITS.
Definition PTBITS : Z := 10.
Definition PTMASK : Z := BITMASK PTSHIFT PTBITS.
Definition PDSHIFT : Z := PTSHIFT + PTBITS.

Definition pt_no (va : Z) : Z := Z.shiftr (Z.land va PTMASK) PTSHIFT.
Definition pd_no (va : Z) : Z := Z.shiftr va PDSHIFT.

Definition PTE_ADDR : Z := 0xfffff000.
Definition PTE_P : Z := 1.
Definition PTE_W : Z := 2.
Definition PTE_U : Z := 4.
Definition PTE_A : Z := 32.
Definition PTE_D : Z := 64.

Definition pde_create {S} (pt : Z) : ST S Z :=
  ASSERT (pg_ofs pt =? 0) ;;
  p ← vtop pt; mret (Z.lor (Z.lor (Z.lor p PTE_U) PTE_P) PTE_W).
Definition pde_get_pt {S} (pde : Z) : ST S Z :=
  ASSERT (negb (Z.land pde PTE_P =? 0)) ;; ptov (Z.land pde PTE_ADDR).
Definition pte_create_kernel {S} (page : Z) (writable : bool) : ST S Z :=
  ASSERT (pg_ofs page =? 0) ;;
  p ← vtop page; mret (Z.lor (Z.lor p PTE_P) (if writable then PTE_W else 0)).
Definition pte_create_user {S} (page : Z) (writable : bool) : ST S Z :=
  p ← pte_create_kernel page writable; mret (Z.lor p PTE_U).
Definition pte_get_page {S} (pte : Z) : ST S Z := ptov (Z.land pte PTE_ADDR).

(** ** Memory words *)

Record machine := MkMachine { ram : palloc; cr3 : Z }.

Abbreviation M := (ST machine).

Definition with_ram (r : palloc) (s : machine) : machine := MkMachine r (cr3 s).
Definition on_ram {A} : ST palloc A → M A := zoom ram with_ram.

(** The word at [a]; [None] when one of its bytes is indeterminate. *)
Definition word (m : gmap Z Z) (a : Z) : option Z :=
  b0 ← m !! a; b1 ← m !! (a + 1); b2 ← m !! (a + 2); b3 ← m !! (a + 3);
  Some (b0 + 2 ^ 8 * b1 + 2 ^ 16 * b2 + 2 ^ 24 * b3).
Definition set_word (a v : Z) (m : gmap Z Z) : gmap Z Z :=
  <[a := v mod 2 ^ 8]> (<[a + 1 := v / 2 ^ 8 mod 2 ^ 8]>
  (<[a + 2 := v / 2 ^ 16 mod 2 ^ 8]> (<[a + 3 := v / 2 ^ 24 mod 2 ^ 8]> m))).

Definition load (a : Z) : M Z := s ← get; deref (word (bytes (ram s)) a).
Definition store (a v : Z) : M unit :=
  modify (λ s, with_ram (with_bytes (set_word a v (bytes (ram s))) (ram s)) s).

(** ** [userprog/pagedir.c] *)
Section pagedir.
Context (init_page_dir init_ram_pages : Z).

Definition pagedir_activate (pd : Z) : M unit :=
  let pd := if pd =? NULL then init_page_dir else pd in
  p ← vtop pd; modify (λ s, MkMachine (ram s) p).

Definition active_pd : M Z := s ← get; ptov (cr3 s).

Definition invalidate_pagedir (pd : Z) : M unit :=
  a ← active_pd; if a =? pd then pagedir_activate pd else mret tt.

Definition pagedir_create : M Z :=
  pd ← on_ram (palloc_get_page 0);
  (if negb (pd =? NULL) then
     on_ram (modify (λ r, with_bytes (copy (Z.to_nat PGSIZE) pd init_page_dir (bytes r)) r))
   else mret tt) ;;
  mret pd.

(** The inner loop of [pagedir_destroy]: [n] entries of a page table left. *)
Fixpoint destroy_ptes (n : nat) (pte : Z) : M unit :=
  match n with
  | O => mret tt
  | S n =>
    w ← load pte;
    (if negb (Z.land w PTE_P =? 0) then p ← pte_get_page w; on_ram (palloc_free_page p) else mret tt) ;;
    destroy_ptes n (pte + 4)
  end.

(** The outer loop: [n] page directory entries left. *)
Fixpoint destroy_pdes (n : nat) (pde : Z) : M unit :=
  match n with
  | O => mret tt
  | S n =>
    w ← load pde;
    (if negb (Z.land w PTE_P =? 0) then
       pt ← pde_get_pt w;
       destroy_ptes (Z.to_nat (Z.quot PGSIZE 4)) pt ;;
       on_ram (palloc_free_page pt)
     else mret tt) ;;
    destroy_pdes n (pde + 4)
  end.

Definition pagedir_destroy (pd : Z) : M unit :=
  if pd =? NULL then mret tt else
  ASSERT (negb (pd =? init_page_dir)) ;;
  destroy_pdes (Z.to_nat (pd_no PHYS_BASE)) pd ;;
  on_ram (palloc_free_page pd).

(** Null is 0. *)
Definition lookup_page (pd vaddr : Z) (create : bool) : M Z :=
  ASSERT (negb (pd =? NULL)) ;;
  ASSERT (negb create || is_user_vaddr vaddr) ;;
  let pde := pd + 4 * pd_no vaddr in
  w ← load pde;
  ok ← (if w =? 0 then
          if create then
            pt ← on_ram (palloc_get_page PAL_ZERO);
            if pt =? NULL then mret false
            else e ← pde_create pt; store pde e ;; mret true
          else mret false
        else mret true);
  if ok : bool then
    w ← load pde;
    pt ← pde_get_pt w;
    mret (pt + 4 * pt_no vaddr)
  else mret NULL.

Definition pagedir_set_page (pd upage kpage : Z) (writable : bool) : M bool :=
  ASSERT (pg_ofs upage =? 0) ;;
  ASSERT (pg_ofs kpage =? 0) ;;
  ASSERT (is_user_vaddr upage) ;;
  p ← vtop kpage;
  ASSERT (Z.shiftr p PTSHIFT <? init_ram_pages) ;;
  ASSERT (negb (pd =? init_page_dir)) ;;
  pte ← lookup_page pd upage true;
  if negb (pte =? NULL) then
    w ← load pte;
    ASSERT (Z.land w PTE_P =? 0) ;;
    e ← pte_create_user kpage writable;
    store pte e ;;
    mret true
  else mret false.

Definition pagedir_get_page (pd uaddr : Z) : M Z :=
  ASSERT (is_user_vaddr uaddr) ;;
  pte ← lookup_page pd uaddr false;
  if negb (pte =? NULL) then
    w ← load pte;
    if negb (Z.land w PTE_P =? 0) then p ← pte_get_page w; mret (p + pg_ofs uaddr)
    else mret NULL
  else mret NULL.

Definition pagedir_clear_page (pd upage : Z) : M unit :=
  ASSERT (pg_ofs upage =? 0) ;;
  ASSERT (is_user_vaddr upage) ;;
  pte ← lookup_page pd upage false;
  if negb (pte =? NULL) then
    w ← load pte;
    if negb (Z.land w PTE_P =? 0) then
      store pte (Z.land w (u32 (Z.lnot PTE_P))) ;; invalidate_pagedir pd
    else mret tt
  else mret tt.

(** [pagedir_is_dirty] and [pagedir_is_accessed], [pagedir_set_dirty] and
    [pagedir_set_accessed] differ in the bit. *)
Definition pagedir_is (flag pd vpage : Z) : M bool :=
  pte ← lookup_page pd vpage false;
  if negb (pte =? NULL) then w ← load pte; mret (negb (Z.land w flag =? 0)) else mret false.
Definition pagedir_set (flag pd vpage : Z) (b : bool) : M unit :=
  pte ← lookup_page pd vpage false;
  if negb (pte =? NULL) then
    w ← load pte;
    if b then store pte (Z.lor w flag)
    else store pte (Z.land w (u32 (Z.lnot flag))) ;; invalidate_pagedir pd
  else mret tt.

Definition pagedir_is_dirty : Z → Z → M bool := pagedir_is PTE_D.
Definition pagedir_set_dirty : Z → Z → bool → M unit := pagedir_set PTE_D.
Definition pagedir_is_accessed : Z → Z → M bool := pagedir_is PTE_A.
Definition pagedir_set_accessed : Z → Z → bool → M unit := pagedir_set PTE_A.
End pagedir.

End Pagedir.
