(* ===== verification/PagedirRun.v ===== *)
(** * Running the operations on page tables

    What [lookup_page] returns and how writing a page directory entry or a
    page table entry changes the mapping. *)
From S2P Require Import Prelude CInt Bitmap Palloc PallocSpec Pagedir.

Open Scope Z_scope.

(** * The structure of a page directory

    [pd_ok s pd]: the page at [pd] and the page tables its user entries point
    to are distinct pages in use of the kernel pool.  [pte_at s pd u] is the
    entry for address [u], 0 when there is no page table.  A page directory
    only depends on the pages it owns, so that changes elsewhere keep it. *)

Module PagedirInv.
Import Palloc PallocSpec Pagedir.

(** ** Words *)

Lemma word_set_eq a v m : in_u32 v → word (set_word a v m) a = Some v.
Proof.
  intros Hv. unfold word, set_word.
  rewrite lookup_insert_eq, (lookup_insert_ne _ a (a + 1)), lookup_insert_eq by lia.
  rewrite (lookup_insert_ne _ a (a + 2)), (lookup_insert_ne _ (a + 1) (a + 2)), lookup_insert_eq by lia.
  rewrite (lookup_insert_ne _ a (a + 3)), (lookup_insert_ne _ (a + 1) (a + 3)),
    (lookup_insert_ne _ (a + 2) (a + 3)), lookup_insert_eq by lia. simpl. f_equal.
  unfold in_u32 in Hv. change (2 ^ 8) with 256. change (2 ^ 16) with (256 * 256). change (2 ^ 24) with (256 * 256 * 256).
  rewrite <- !Z.div_div by lia. divlia.
Qed.

Lemma word_same m m' a : (∀ k, a ≤ k < a + 4 → m' !! k = m !! k) → word m' a = word m a.
Proof. intros H. unfold word. by rewrite !H by lia. Qed.

Lemma set_word_lookup a v m k : ¬ (a ≤ k < a + 4) → set_word a v m !! k = m !! k.
Proof. intros H. unfold set_word. by rewrite !lookup_insert_ne by lia. Qed.

Lemma word_set_ne a v m b : a + 4 ≤ b ∨ b + 4 ≤ a → word (set_word a v m) b = word m b.
Proof. intros H. apply word_same. intros k Hk. apply set_word_lookup. lia. Qed.

(** ** Indices and flags *)

Lemma pd_no_div u : pd_no u = u / 2 ^ 22.
Proof. exact (Z.shiftr_div_pow2 u 22 ltac:(done)). Qed.

Lemma pt_no_div u : 0 ≤ u → pt_no u = u / 2 ^ 12 mod 2 ^ 10.
Proof.
  intros Hu. unfold pt_no, PTMASK, BITMASK, PTSHIFT, PGBITS, PTBITS. apply Z.bits_inj'. intros n Hn.
  rewrite Z.shiftr_spec, Z.land_spec by lia.
  rewrite Z.shiftl_spec by lia. replace (n + 12 - 12) with n by lia.
  change (Z.shiftl 1 10 - 1) with (Z.ones 10). rewrite <- Z.land_ones by lia.
  rewrite Z.land_spec, <- Z.shiftr_div_pow2, Z.shiftr_spec by lia. done.
Qed.

Lemma index_bounds u : 0 ≤ u < PHYS_BASE → 0 ≤ pd_no u < 768 ∧ 0 ≤ pt_no u < 1024.
Proof.
  intros Hu. rewrite pd_no_div, pt_no_div by lia. unfold PHYS_BASE in Hu. split; divlia.
Qed.

(** Two addresses with the same entry are in the same page. *)
Lemma index_inj u v : 0 ≤ u → 0 ≤ v → pd_no u = pd_no v → pt_no u = pt_no v → pg_no u = pg_no v.
Proof.
  intros Hu Hv. rewrite !pd_no_div, !pt_no_div, !pg_no_div, PGSIZE_val by lia.
  change (2 ^ 22) with (4096 * 1024). change (2 ^ 12) with 4096. change (2 ^ 10) with 1024.
  rewrite <- !Z.div_div by lia. intros H1 H2.
  rewrite (Z.div_mod (u / 4096) 1024), (Z.div_mod (v / 4096) 1024) by lia. congruence.
Qed.

Lemma index_eq u v : 0 ≤ u → 0 ≤ v → pg_no u = pg_no v → pd_no u = pd_no v ∧ pt_no u = pt_no v.
Proof.
  intros Hu Hv. rewrite !pd_no_div, !pt_no_div, !pg_no_div, PGSIZE_val by lia.
  change (2 ^ 22) with (4096 * 1024). change (2 ^ 12) with 4096. rewrite <- !Z.div_div by lia. by intros ->.
Qed.

(** Flags below an aligned address. *)
Lemma lor_flags x f : x mod PGSIZE = 0 → 0 ≤ f < PGSIZE → Z.lor x f = x + f.
Proof.
  rewrite PGSIZE_val. intros Hx Hf. assert (E : Z.land x f = 0).
  { apply Z.bits_inj'. intros n Hn. rewrite Z.land_spec, Z.bits_0. destruct (Z.lt_ge_cases n 12).
    - rewrite <- (Z.mod_pow2_bits_low x 12 n), (Hx : x mod 2 ^ 12 = 0), Z.bits_0 by lia. done.
    - rewrite <- (Z.mod_small f (2 ^ 12)), (Z.mod_pow2_bits_high f) by lia. apply andb_false_r. }
  by rewrite Z.add_nocarry_lxor, Z.lxor_lor.
Qed.

Lemma land_addr w : in_u32 w → Z.land w PTE_ADDR = PGSIZE * (w / PGSIZE).
Proof. exact (land_page_mask w). Qed.

(** ** Pages of the kernel pool in use *)

Definition kernel_page (s : machine) (p : Z) : Prop := ∃ i, run Kernel (ram s) i 1 true ∧ p = page Kernel (ram s) i.

Lemma kernel_page_bounds s p : palloc_ok (ram s) → kernel_page s p →
  p mod PGSIZE = 0 ∧ PHYS_BASE ≤ p ∧ p + PGSIZE < 2 ^ 32.
Proof.
  intros Hok (i & (Hi & Hn & _) & ->). split; [by apply page_aligned|]. apply page_bounds; [done|lia].
Qed.

Lemma kernel_page_apart s p q :
  palloc_ok (ram s) → kernel_page s p → kernel_page s q → p ≠ q → p + PGSIZE ≤ q ∨ q + PGSIZE ≤ p.
Proof.
  intros _ (i & _ & ->) (j & _ & ->). unfold page. rewrite PGSIZE_val.
  destruct (Z.lt_trichotomy i j) as [?|[->|?]]; intros; [lia|congruence|lia].
Qed.

(** ** The invariant *)

Definition mem (s : machine) : gmap Z Z := bytes (ram s).

(** Entry [d] of the page directory points to the page table [pt]. *)
Definition pde_of (pt : Z) : Z := pt - PHYS_BASE + 7.
Definition table (s : machine) (pd d pt : Z) : Prop := word (mem s) (pd + 4 * d) = Some (pde_of pt).

(** Physical addresses, and entries made of them and flags, are below 1 GB. *)
Definition PHYS_LIMIT : Z := 2 ^ 30.

Record pd_ok (s : machine) (pd : Z) : Prop := MkPd {
  pd_ram : palloc_ok (ram s);
  pd_page : kernel_page s pd;
  pd_entry d : 0 ≤ d < 768 → word (mem s) (pd + 4 * d) = Some 0 ∨ ∃ pt, table s pd d pt ∧ kernel_page s pt;
  pd_table d pt : 0 ≤ d < 768 → table s pd d pt → kernel_page s pt →
    pt ≠ pd ∧ ∀ t, 0 ≤ t < 1024 → ∃ w, word (mem s) (pt + 4 * t) = Some w ∧ 0 ≤ w < PHYS_LIMIT;
  pd_inj d d' pt : 0 ≤ d < 768 → 0 ≤ d' < 768 → kernel_page s pt → table s pd d pt → table s pd d' pt → d = d'
}.

(** The page table entry for [u]. *)
Definition pte_at (s : machine) (pd u : Z) : Z :=
  match word (mem s) (pd + 4 * pd_no u) with
  | Some e => if e =? 0 then 0
              else default 0 (word (mem s) (PHYS_BASE + Z.land e PTE_ADDR + 4 * pt_no u))
  | None => 0
  end.

(** The pages of a page directory. *)
Definition owns (s : machine) (pd p : Z) : Prop :=
  p = pd ∨ ∃ d, 0 ≤ d < 768 ∧ table s pd d p ∧ kernel_page s p.

Lemma owns_kernel s pd p : pd_ok s pd → owns s pd p → kernel_page s p.
Proof. intros Hok [->|(d & _ & _ & H)]; [apply Hok|done]. Qed.

Lemma pde_of_inj p q : pde_of p = pde_of q → p = q.
Proof. unfold pde_of. lia. Qed.

Lemma pde_addr s pt : palloc_ok (ram s) → kernel_page s pt →
  in_u32 (pde_of pt) ∧ pde_of pt ≠ 0 ∧ PHYS_BASE + Z.land (pde_of pt) PTE_ADDR = pt ∧ Z.testbit (pde_of pt) 0 = true.
Proof.
  intros Hok Hpt. destruct (kernel_page_bounds s pt Hok Hpt) as (Hal & Hlo & Hhi).
  unfold pde_of, PHYS_BASE in *. rewrite PGSIZE_val in *.
  assert (Hu : in_u32 (pt - 0xc0000000 + 7)) by (unfold in_u32; lia). split; [done|]. split; [lia|]. split.
  - rewrite land_addr, PGSIZE_val by done. divlia.
  - rewrite Z.bit0_odd.
    replace (pt - 0xc0000000 + 7) with (1 + 2 * (pt / 2 - 0x60000000 + 3)) by divlia.
    by rewrite Z.odd_add_mul_2.
Qed.

(** A page directory depends on its own pages only. *)
Lemma pd_local s s' pd :
  pd_ok s pd → palloc_ok (ram s') →
  (∀ p, owns s pd p → kernel_page s' p) →
  (∀ p k, owns s pd p → p ≤ k < p + PGSIZE → mem s' !! k = mem s !! k) →
  pd_ok s' pd ∧ (∀ u, 0 ≤ u < PHYS_BASE → pte_at s' pd u = pte_at s pd u) ∧ (∀ p, owns s' pd p ↔ owns s pd p).
Proof.
  intros Hok Hram Hkp Hmem.
  assert (Hpde : ∀ d, 0 ≤ d < 768 → word (mem s') (pd + 4 * d) = word (mem s) (pd + 4 * d)).
  { intros d Hd. apply word_same. intros k Hk. apply (Hmem pd); [by left|]. rewrite PGSIZE_val. lia. }
  assert (Htab : ∀ d p, 0 ≤ d < 768 → table s' pd d p ↔ table s pd d p).
  { intros d p Hd. unfold table. by rewrite Hpde. }
  assert (Hown : ∀ d p, 0 ≤ d < 768 → table s pd d p → kernel_page s' p → kernel_page s p).
  { intros d p Hd Ht Hp. destruct (pd_entry _ _ Hok d Hd) as [E|(pt & Ht' & Hpt)].
    - unfold table in Ht. rewrite E in Ht. injection Ht as E'. unfold pde_of in E'.
      destruct (kernel_page_bounds s' p Hram Hp) as (_ & Hlo & _). unfold PHYS_BASE in *. lia.
    - unfold table in Ht, Ht'. rewrite Ht in Ht'. injection Ht' as E%pde_of_inj. by subst. }
  assert (Hpte : ∀ d p t, 0 ≤ d < 768 → table s pd d p → kernel_page s p → 0 ≤ t < 1024 →
                          word (mem s') (p + 4 * t) = word (mem s) (p + 4 * t)).
  { intros d p t Hd Ht Hp Htt. apply word_same. intros k Hk. apply (Hmem p); [right; by exists d|].
    rewrite PGSIZE_val. lia. }
  split; [|split].
  - constructor; [done|apply Hkp; by left|..].
    + intros d Hd. rewrite Hpde by done. destruct (pd_entry _ _ Hok d Hd) as [?|(pt & Ht & Hpt)]; [by left|right].
      exists pt. split; [by apply Htab|]. apply Hkp. right. by exists d.
    + intros d pt Hd Ht Hpt. apply Htab in Ht; [|done]. assert (Hpt' := Hown d pt Hd Ht Hpt).
      destruct (pd_table _ _ Hok d pt Hd Ht Hpt') as [? H]. split; [done|]. intros t Htt.
      rewrite (Hpte d) by done. by apply H.
    + intros d d' pt Hd Hd' Hpt Ht Ht'. apply Htab in Ht; [|done]. apply Htab in Ht'; [|done].
      eapply (pd_inj _ _ Hok); eauto.
  - intros u Hu. destruct (index_bounds u Hu) as [Hd Ht]. unfold pte_at. rewrite Hpde by done.
    destruct (pd_entry _ _ Hok (pd_no u) Hd) as [->|(pt & E & Hpt)]; [done|].
    unfold table in E. rewrite E. destruct (pde_addr s pt (pd_ram _ _ Hok) Hpt) as (_ & Hne & -> & _).
    destruct (Z.eqb_spec (pde_of pt) 0); [done|]. by rewrite (Hpte (pd_no u)).
  - intros p. unfold owns. split; (intros [->|(d & Hd & Ht & Hp)]; [by left|right]); exists d; (split; [done|]).
    + apply Htab in Ht; [|done]. split; [done|]. by eapply Hown.
    + split; [by apply Htab|]. apply Hkp. right. by exists d.
Qed.

End PagedirInv.

Module PagedirRun.
Import Palloc PallocSpec Pagedir PagedirInv.

(** ** Single accesses *)

Lemma load_word_ok s a w : word (mem s) a = Some w → load a s = Ok (w, s).
Proof. intros H. unfold load. erewrite run_bind_ok; [|reflexivity]. by apply run_deref. Qed.

Lemma test_flag w n : 0 ≤ n → negb (Z.land w (Z.shiftl 1 n) =? 0) = Z.testbit w n.
Proof. intros Hn. by rewrite Bitmap.land_mask_zero, negb_involutive. Qed.

Lemma test_present w : negb (Z.land w PTE_P =? 0) = Z.testbit w 0.
Proof. exact (test_flag w 0 ltac:(lia)). Qed.

Lemma ptov_ok {S} (s : S) p : 0 ≤ p < 2 ^ 30 → ptov p s = Ok (PHYS_BASE + p, s).
Proof.
  intros Hp. unfold ptov, PHYS_BASE. run_assert; [|lia]. rewrite u32_id by (unfold in_u32; lia).
  by rewrite Z.add_comm.
Qed.

Lemma vtop_ok {S} (s : S) p : PHYS_BASE ≤ p < 2 ^ 32 → vtop p s = Ok (p - PHYS_BASE, s).
Proof.
  unfold PHYS_BASE. intros Hp. unfold vtop, is_kernel_vaddr, PHYS_BASE. run_assert; [|lia].
  by rewrite u32_id by (unfold in_u32; lia).
Qed.

Lemma pde_get_pt_ok s pt : palloc_ok (ram s) → kernel_page s pt → pde_get_pt (pde_of pt) s = Ok (pt, s).
Proof.
  intros Hok Hpt. destruct (pde_addr s pt Hok Hpt) as (_ & _ & Ha & Hb).
  destruct (kernel_page_bounds s pt Hok Hpt) as (_ & Hlo & Hhi). unfold pde_get_pt.
  run_assert; [|by rewrite test_present].
  rewrite ptov_ok by (unfold PHYS_BASE in *; rewrite PGSIZE_val in *; lia). by rewrite Ha.
Qed.

Lemma pde_create_ok s pt : palloc_ok (ram s) → kernel_page s pt → pde_create pt s = Ok (pde_of pt, s).
Proof.
  intros Hok Hpt. destruct (kernel_page_bounds s pt Hok Hpt) as (Hal & Hlo & Hhi). unfold pde_create.
  run_assert; [|by rewrite pg_ofs_mod, Hal].
  rewrite (run_bind_ok _ _ _ _ _ (vtop_ok s pt ltac:(rewrite PGSIZE_val in *; lia))).
  rewrite <- !Z.lor_assoc. change (Z.lor PTE_U (Z.lor PTE_P PTE_W)) with 7.
  rewrite lor_flags; [done| |by rewrite PGSIZE_val]. unfold PHYS_BASE. rewrite PGSIZE_val in *. divlia.
Qed.

(** ** Looking an entry up *)

(** The page table for [u] exists, and where the entry is. *)
Lemma lookup_found s pd u c pt :
  pd_ok s pd → 0 ≤ u < PHYS_BASE → table s pd (pd_no u) pt → kernel_page s pt →
  lookup_page pd u c s = Ok (pt + 4 * pt_no u, s) ∧ word (mem s) (pt + 4 * pt_no u) = Some (pte_at s pd u) ∧
  0 ≤ pte_at s pd u < PHYS_LIMIT ∧ pt + 4 * pt_no u ≠ NULL.
Proof.
  intros Hok Hu Ht Hpt. assert (Hram := pd_ram _ _ Hok). destruct (index_bounds u Hu) as [Hd Htn].
  destruct (pde_addr s pt Hram Hpt) as (_ & Hne & Haddr & _).
  destruct (kernel_page_bounds s pt Hram Hpt) as (_ & Hlo & _).
  destruct (kernel_page_bounds s pd Hram (pd_page _ _ Hok)) as (_ & Hlo' & _). unfold PHYS_BASE in Hlo, Hlo'.
  destruct (proj2 (pd_table _ _ Hok (pd_no u) pt Hd Ht Hpt) (pt_no u) Htn) as (w & Hw & Hwb).
  assert (Hpte : pte_at s pd u = w).
  { unfold pte_at. rewrite Ht. destruct (Z.eqb_spec (pde_of pt) 0); [done|]. by rewrite Haddr, Hw. }
  rewrite Hpte. split; [|split; [done|split; [done|unfold NULL; lia]]].
  unfold lookup_page. run_assert; [|unfold NULL; destruct (Z.eqb_spec pd 0); [lia|done]].
  run_assert; [|unfold is_user_vaddr; rewrite (proj2 (Z.ltb_lt u PHYS_BASE)) by lia; apply orb_true_r].
  rewrite (run_bind_ok _ _ _ _ _ (load_word_ok _ _ _ Ht)).
  erewrite run_bind_ok with (a := true); [|destruct (Z.eqb_spec (pde_of pt) 0); [done|reflexivity]].
  rewrite (run_bind_ok _ _ _ _ _ (load_word_ok _ _ _ Ht)).
  by rewrite (run_bind_ok _ _ _ _ _ (pde_get_pt_ok s pt Hram Hpt)).
Qed.

(** No page table. *)
Lemma lookup_absent s pd u :
  pd_ok s pd → 0 ≤ u < PHYS_BASE → word (mem s) (pd + 4 * pd_no u) = Some 0 →
  lookup_page pd u false s = Ok (NULL, s) ∧ pte_at s pd u = 0.
Proof.
  intros Hok Hu E. split; [|unfold pte_at; by rewrite E].
  destruct (kernel_page_bounds s pd (pd_ram _ _ Hok) (pd_page _ _ Hok)) as (_ & Hlo & _). unfold PHYS_BASE in Hlo.
  unfold lookup_page. run_assert; [|unfold NULL; destruct (Z.eqb_spec pd 0); [lia|done]].
  run_assert; [|done]. by rewrite (run_bind_ok _ _ _ _ _ (load_word_ok _ _ _ E)).
Qed.

(** ** Changes *)

(** From [s] to [s'] only the pages of [pd], and pages that were free, have
    changed. *)
Record only (pd : Z) (s s' : machine) : Prop := MkOnly {
  on_ok : palloc_ok (ram s');
  on_cr3 : cr3 s' = cr3 s;
  on_kernel p : kernel_page s p → kernel_page s' p;
  on_mem p k : kernel_page s p → ¬ owns s pd p → p ≤ k < p + PGSIZE → mem s' !! k = mem s !! k;
  on_owns p : owns s' pd p → owns s pd p ∨ ¬ kernel_page s p;
  on_user : user_pool (ram s') = user_pool (ram s);
  on_outside k : (∀ p, kernel_page s' p → ¬ (p ≤ k < p + PGSIZE)) → mem s' !! k = mem s !! k
}.

Lemma only_refl pd s : palloc_ok (ram s) → only pd s s.
Proof. intros H. constructor; auto. Qed.

Lemma only_trans pd s s' s'' : pd_ok s pd → only pd s s' → only pd s' s'' → only pd s s''.
Proof.
  intros Hok H1 H2. constructor.
  - apply H2.
  - by rewrite (on_cr3 _ _ _ H2), (on_cr3 _ _ _ H1).
  - intros p Hp. by apply (on_kernel _ _ _ H2), (on_kernel _ _ _ H1).
  - intros p k Hp Hn Hk. rewrite (on_mem _ _ _ H2 p k); [by apply (on_mem _ _ _ H1 p k)| | |done].
    + by apply (on_kernel _ _ _ H1).
    + intros Ho. destruct (on_owns _ _ _ H1 p Ho); done.
  - intros p Ho. destruct (on_owns _ _ _ H2 p Ho) as [Ho'|Hn]; [by apply (on_owns _ _ _ H1)|].
    right. intros Hp. by apply Hn, (on_kernel _ _ _ H1).
  - by rewrite (on_user _ _ _ H2), (on_user _ _ _ H1).
  - intros k Hk. rewrite (on_outside _ _ _ H2 k Hk). apply (on_outside _ _ _ H1).
    intros p Hp. by apply Hk, (on_kernel _ _ _ H2).
Qed.

(** Other page directories keep their mappings. *)
Lemma only_isolates pd pd' s s' :
  only pd s s' → pd_ok s pd' → (∀ p, owns s pd p → ¬ owns s pd' p) →
  pd_ok s' pd' ∧ (∀ u, 0 ≤ u < PHYS_BASE → pte_at s' pd' u = pte_at s pd' u) ∧
  ∀ p, owns s' pd p → ¬ owns s' pd' p.
Proof.
  intros Hon Hok Hap. destruct (pd_local s s' pd' Hok (on_ok _ _ _ Hon)) as (H1 & H2 & H3).
  - intros p Ho. by apply (on_kernel _ _ _ Hon), (owns_kernel s pd').
  - intros p k Ho Hk. apply (on_mem _ _ _ Hon p k); [by eapply owns_kernel| |done]. intros Ho'. by apply (Hap p).
  - split; [done|]. split; [done|]. intros p Ho Ho'. apply H3 in Ho'.
    destruct (on_owns _ _ _ Hon p Ho) as [?|Hn]; [by apply (Hap p)|]. apply Hn. by eapply owns_kernel.
Qed.

Definition stored (a v : Z) (s : machine) : machine := with_ram (with_bytes (set_word a v (bytes (ram s))) (ram s)) s.

Lemma stored_kernel a v s p : kernel_page (stored a v s) p ↔ kernel_page s p.
Proof. done. Qed.

(** Writing the page table entry of [u]. *)
Lemma store_pte_ok s pd u pt v :
  pd_ok s pd → 0 ≤ u < PHYS_BASE → table s pd (pd_no u) pt → kernel_page s pt → 0 ≤ v < PHYS_LIMIT →
  let s' := stored (pt + 4 * pt_no u) v s in
  pd_ok s' pd ∧ only pd s s' ∧
  (∀ x, 0 ≤ x < PHYS_BASE → pte_at s' pd x = if pg_no x =? pg_no u then v else pte_at s pd x) ∧
  (∀ d p, 0 ≤ d < 768 → table s' pd d p ↔ table s pd d p).
Proof.
  intros Hok Hu Ht Hpt Hv s'. assert (Hram := pd_ram _ _ Hok). destruct (index_bounds u Hu) as [Hd Htn].
  destruct (pd_table _ _ Hok (pd_no u) pt Hd Ht Hpt) as [Hne Hws].
  assert (Hin : ∀ k, ¬ (pt ≤ k < pt + PGSIZE) → mem s' !! k = mem s !! k).
  { intros k Hk. apply set_word_lookup. rewrite PGSIZE_val in Hk. lia. }
  assert (Hpage : ∀ p, kernel_page s p → p ≠ pt → ∀ k, p ≤ k < p + PGSIZE → mem s' !! k = mem s !! k).
  { intros p Hp Hpne k Hk. apply Hin. destruct (kernel_page_apart s p pt Hram Hp Hpt Hpne); lia. }
  assert (Hpde : ∀ d, 0 ≤ d < 768 → word (mem s') (pd + 4 * d) = word (mem s) (pd + 4 * d)).
  { intros d Hd'. apply word_same. intros k Hk. apply (Hpage pd); [apply Hok|done|rewrite PGSIZE_val; lia]. }
  assert (Htab : ∀ d p, 0 ≤ d < 768 → table s' pd d p ↔ table s pd d p).
  { intros d p Hd'. unfold table. by rewrite Hpde. }
  assert (Hv' : in_u32 v) by (unfold in_u32, PHYS_LIMIT in *; lia).
  assert (Hw : ∀ t, 0 ≤ t < 1024 → word (mem s') (pt + 4 * t) = if t =? pt_no u then Some v else word (mem s) (pt + 4 * t)).
  { intros t Htt. destruct (Z.eqb_spec t (pt_no u)) as [->|]; [by apply word_set_eq|]. apply word_set_ne. lia. }
  split; [|split; [|split; [|done]]].
  - constructor; [by apply palloc_ok_bytes|apply Hok|..].
    + intros d Hd'. rewrite Hpde by done. destruct (pd_entry _ _ Hok d Hd') as [?|(p & H1 & H2)]; [by left|right].
      exists p. split; [by apply Htab|done].
    + intros d p Hd' Ht' Hp. apply Htab in Ht'; [|done]. destruct (pd_table _ _ Hok d p Hd' Ht' Hp) as [? H]. split; [done|].
      intros t Htt. destruct (decide (p = pt)) as [->|Hpne].
      * rewrite Hw by done. destruct (t =? pt_no u); [by exists v|by apply H].
      * rewrite (word_same (mem s) (mem s')); [by apply H|]. intros k Hk. apply (Hpage p Hp Hpne). rewrite PGSIZE_val. lia.
    + intros d d' p Hd' Hd'' Hp H1 H2. apply Htab in H1; [|done]. apply Htab in H2; [|done]. eapply (pd_inj _ _ Hok); eauto.
  - constructor; [by apply palloc_ok_bytes|done|done| | |done|].
    + intros p k Hp Hno Hk. apply (Hpage p Hp); [|done]. intros ->. apply Hno. right. by exists (pd_no u).
    + intros p [->|(d & Hd' & Ht' & Hp)]; left; [by left|right]. exists d. split; [done|]. split; [by apply Htab|done].
    + intros k Hk. by apply Hin, Hk.
  - intros x Hx. destruct (index_bounds x Hx) as [Hdx Htx]. unfold pte_at. rewrite Hpde by done.
    destruct (pd_entry _ _ Hok (pd_no x) Hdx) as [E|(p & E & Hp)]; [rewrite E|rewrite E].
    + destruct (Z.eqb_spec (pg_no x) (pg_no u)) as [Epg|]; [|done]. exfalso.
      destruct (index_eq x u ltac:(lia) ltac:(lia) Epg) as [Ed _].
      rewrite Ed in E. unfold table in Ht. rewrite E in Ht. injection Ht as E0.
      by destruct (pde_addr s pt Hram Hpt) as (_ & Hnz & _).
    + destruct (pde_addr s p Hram Hp) as (_ & Hnz & -> & _). destruct (Z.eqb_spec (pde_of p) 0); [done|].
      destruct (Z.eqb_spec (pg_no x) (pg_no u)) as [Epg|Epg].
      * destruct (index_eq x u ltac:(lia) ltac:(lia) Epg) as [Ed Et].
        rewrite Ed in E. unfold table in E, Ht. rewrite Ht in E. injection E as E%pde_of_inj. subst p.
        rewrite Hw, Et by done. by rewrite Z.eqb_refl.
      * destruct (decide (p = pt)) as [->|Hpne].
        -- assert (Ed : pd_no x = pd_no u) by (eapply (pd_inj _ _ Hok); eauto).
           rewrite Hw by done. destruct (Z.eqb_spec (pt_no x) (pt_no u)) as [Et|]; [|done].
           destruct Epg. apply index_inj; (done || lia).
        -- rewrite (word_same (mem s) (mem s')); [done|]. intros k Hk. apply (Hpage p Hp Hpne). rewrite PGSIZE_val. lia.
Qed.

(** ** A new page table *)

(** [s'] is [s] with a page of the kernel pool taken and cleared. *)
Lemma new_page_ok s :
  palloc_ok (ram s) →
  ((∀ i, ¬ run Kernel (ram s) i 1 false) ∧ on_ram (palloc_get_page PAL_ZERO) s = Ok (NULL, s)) ∨
  (∃ pt s', on_ram (palloc_get_page PAL_ZERO) s = Ok (pt, s') ∧ palloc_ok (ram s') ∧ cr3 s' = cr3 s ∧ pt ≠ NULL ∧
     kernel_page s' pt ∧ ¬ kernel_page s pt ∧ (∀ p, kernel_page s p → kernel_page s' p) ∧
     user_pool (ram s') = user_pool (ram s) ∧
     ∀ k, mem s' !! k = if in_range pt PGSIZE k then Some 0 else mem s !! k).
Proof.
  intros Hok. destruct (first_run Kernel (ram s) 1 Hok ltac:(lia)) as [(i & Hfree & Hmin)|Hnone]; [right|left].
  - destruct (palloc_get_ok (ram s) PAL_ZERO 1 i Hok ltac:(lia) Hfree Hmin) as (r & Hget & Hok' & Hch & Hb).
    change (pool_for PAL_ZERO) with Kernel in *. change (has_flag PAL_ZERO PAL_ZERO) with true in Hb.
    assert (Hi := Hfree). destruct Hi as (Hi & Hin & Hf).
    destruct (page_bounds Kernel (ram s) i Hok ltac:(lia)) as [Hlo _]. unfold PHYS_BASE in Hlo.
    cbv iota in Hb. rewrite Z.mul_1_r in Hb.
    assert (Hlook : ∀ k, mem (with_ram r s) !! k = if in_range (page Kernel (ram s) i) PGSIZE k then Some 0 else mem s !! k).
    { intros k. unfold mem at 1. cbn [ram with_ram]. rewrite Hb. apply memset_lookup. rewrite PGSIZE_val. lia. }
    clear Hb.
    exists (page Kernel (ram s) i), (with_ram r s). split; [exact (run_zoom_ok _ _ _ _ _ _ Hget)|].
    split; [exact Hok'|]. split; [reflexivity|]. split; [unfold NULL; lia|].
    split; [|split; [|split; [|split; [exact (palloc_get_other (ram s) PAL_ZERO 1 _ r Hget User ltac:(done))|exact Hlook]]]].
    + exists i. split; [exact (run_new i 1 (ram s) r Hi Hin Hch)|].
      exact (eq_sym (changed_page _ _ _ _ _ _ Kernel i Hch)).
    + intros (j & (_ & _ & Hu) & E%page_inj). subst j. specialize (Hu i ltac:(lia)). rewrite Hf in Hu by lia. done.
    + intros p (j & Hr & ->). exists j. split; [|exact (eq_sym (changed_page _ _ _ _ _ _ Kernel j Hch))].
      exact (run_changed i 1 true (ram s) r j 1 Hch Hr (or_introl eq_refl)).
  - split; [done|]. unfold on_ram. assert (Hget := palloc_get_full (ram s) PAL_ZERO 1 Hok ltac:(lia) Hnone).
    change (has_flag PAL_ZERO PAL_ASSERT) with false in Hget.
    rewrite (run_zoom_ok _ _ _ _ _ _ Hget). by destruct s.
Qed.

(** Linking a cleared page in as the page table for entry [d]. *)
Section new_table.
Context (s s1 : machine) (pd d pt : Z).
Context (Hok : pd_ok s pd) (Hd : 0 ≤ d < 768) (Hempty : word (mem s) (pd + 4 * d) = Some 0).
Context (Hok1 : palloc_ok (ram s1)) (Hpt : kernel_page s1 pt) (Hfresh : ¬ kernel_page s pt) (Hcr3 : cr3 s1 = cr3 s).
Context (Huser : user_pool (ram s1) = user_pool (ram s)).
Context (Hold : ∀ p, kernel_page s p → kernel_page s1 p) (Hmem : ∀ k, mem s1 !! k = if in_range pt PGSIZE k then Some 0 else mem s !! k).
Let s' := stored (pd + 4 * d) (pde_of pt) s1.

Lemma new_table_mem k : ¬ (pt ≤ k < pt + PGSIZE) → ¬ (pd + 4 * d ≤ k < pd + 4 * d + 4) → mem s' !! k = mem s !! k.
Proof using Hmem.
  intros H1 H2. unfold s', mem, stored. simpl. rewrite set_word_lookup by done. fold (mem s1). rewrite Hmem.
  by rewrite in_range_out.
Qed.

Lemma new_table_ne p : kernel_page s p → p ≠ pt.
Proof using Hfresh. intros Hp E. rewrite E in Hp. exact (Hfresh Hp). Qed.

Lemma new_table_apart p : kernel_page s p → p + PGSIZE ≤ pt ∨ pt + PGSIZE ≤ p.
Proof using Hok1 Hpt Hfresh Hold.
  intros Hp. exact (kernel_page_apart s1 p pt Hok1 (Hold p Hp) Hpt (new_table_ne p Hp)).
Qed.

Lemma new_table_other p k : kernel_page s p → p ≠ pd → p ≤ k < p + PGSIZE → mem s' !! k = mem s !! k.
Proof using Hok Hd Hok1 Hpt Hfresh Hold Hmem.
  intros Hp Hne Hk. assert (Hpd := pd_page _ _ Hok). apply new_table_mem.
  - destruct (new_table_apart p Hp); lia.
  - destruct (kernel_page_apart s1 p pd Hok1 (Hold p Hp) (Hold pd Hpd) Hne); rewrite PGSIZE_val in *; lia.
Qed.

Lemma new_table_pde e : 0 ≤ e < 768 →
  word (mem s') (pd + 4 * e) = if e =? d then Some (pde_of pt) else word (mem s) (pd + 4 * e).
Proof using Hok Hd Hok1 Hpt Hfresh Hold Hmem.
  intros He. destruct (Z.eqb_spec e d) as [->|Hne].
  - apply word_set_eq. by eapply (pde_addr s1).
  - apply word_same. intros k Hk. assert (Hpd := pd_page _ _ Hok). apply new_table_mem; [|lia].
    destruct (new_table_apart pd Hpd); rewrite PGSIZE_val in *; lia.
Qed.

Lemma new_table_pte t : 0 ≤ t < 1024 → word (mem s') (pt + 4 * t) = Some 0.
Proof using Hok Hd Hok1 Hpt Hfresh Hold Hmem.
  intros Ht. assert (Hpd := pd_page _ _ Hok). unfold s', mem, stored. simpl. rewrite word_set_ne.
  - fold (mem s1). unfold word. rewrite !Hmem.
    by rewrite !(proj2 (in_range_spec pt PGSIZE _)) by (rewrite PGSIZE_val; lia).
  - destruct (new_table_apart pd Hpd); rewrite PGSIZE_val in *; lia.
Qed.

(** A table of the new state is the new one, or one of before. *)
Lemma new_table_cases e p : 0 ≤ e < 768 → table s' pd e p → kernel_page s1 p →
  (e = d ∧ p = pt) ∨ (e ≠ d ∧ table s pd e p ∧ kernel_page s p ∧ p ≠ pt).
Proof using Hok Hd Hok1 Hpt Hfresh Hold Hmem.
  intros He Ht Hp. unfold table in Ht. rewrite new_table_pde in Ht by done. destruct (Z.eqb_spec e d) as [->|Hne].
  - left. injection Ht as E%pde_of_inj. done.
  - right. split; [done|]. split; [done|]. destruct (pd_entry _ _ Hok e He) as [E|(q & E & Hq)].
    + rewrite E in Ht. injection Ht as E0. exfalso. by destruct (pde_addr s1 p Hok1 Hp) as (_ & Hnz & _).
    + unfold table in E. rewrite E in Ht. injection Ht as E0%pde_of_inj. subst q. split; [exact Hq|exact (new_table_ne p Hq)].
Qed.

Lemma new_table_ok : pd_ok s' pd.
Proof using Hok Hd Hok1 Hpt Hfresh Hold Hmem.
  constructor; [by apply palloc_ok_bytes|apply Hold, Hok|..].
  - intros e He. destruct (Z.eq_dec e d) as [->|Hne].
    + right. exists pt. split; [|done]. unfold table. by rewrite new_table_pde, Z.eqb_refl.
    + rewrite new_table_pde by done. destruct (Z.eqb_spec e d); [done|].
      destruct (pd_entry _ _ Hok e He) as [?|(p & H1 & H2)]; [by left|right]. exists p. split; [|by apply Hold].
      unfold table. rewrite new_table_pde by done. by destruct (Z.eqb_spec e d).
  - intros e p He Ht Hp. destruct (new_table_cases e p He Ht Hp) as [(-> & ->)|(_ & Ht' & Hp' & Hne)].
    + split; [apply not_eq_sym, new_table_ne, Hok|]. intros t Htt. exists 0. split; [by apply new_table_pte|done].
    + destruct (pd_table _ _ Hok e p He Ht' Hp') as [Hnpd H]. split; [done|]. intros t Htt.
      rewrite (word_same (mem s) (mem s')); [by apply H|]. intros k Hk.
      apply (new_table_other p); [done|done|rewrite PGSIZE_val; lia].
  - intros e e' p He He' Hp Ht Ht'. destruct (new_table_cases e p He Ht Hp) as [(-> & ->)|(_ & H1 & H2 & H3)],
      (new_table_cases e' _ He' Ht' Hp) as [(-> & ?)|(_ & H4 & _ & H5)]; try done. eapply (pd_inj _ _ Hok); eauto.
Qed.

Lemma new_table_only : only pd s s'.
Proof using Hok Hd Hok1 Hpt Hfresh Hcr3 Huser Hold Hmem.
  constructor; [by apply palloc_ok_bytes|done|done| | |done|].
  - intros p k Hp Hno Hk. apply (new_table_other p); [done| |done]. intros ->. apply Hno. by left.
  - intros p [->|(e & He & Ht & Hp)]; [left; by left|].
    destruct (new_table_cases e p He Ht Hp) as [(-> & ->)|(_ & H1 & H2 & _)]; [by right|left; right].
    by exists e.
  - intros k Hk. apply new_table_mem; [by apply Hk|]. intros Hr. apply (Hk pd); [apply Hold, Hok|rewrite PGSIZE_val; lia].
Qed.

Lemma new_table_view u : 0 ≤ u < PHYS_BASE → pte_at s' pd u = pte_at s pd u.
Proof using Hok Hd Hempty Hok1 Hpt Hfresh Hold Hmem.
  intros Hu. destruct (index_bounds u Hu) as [Hdu Htu]. unfold pte_at. rewrite new_table_pde by done.
  destruct (Z.eqb_spec (pd_no u) d) as [->|Hne].
  - rewrite Hempty. simpl. destruct (pde_addr s1 pt Hok1 Hpt) as (_ & _ & -> & _).
    rewrite new_table_pte by done. by destruct (pde_of pt =? 0).
  - destruct (pd_entry _ _ Hok (pd_no u) Hdu) as [->|(p & E & Hp)]; [done|]. unfold table in E. rewrite E.
    destruct (pde_addr s p (pd_ram _ _ Hok) Hp) as (_ & _ & -> & _).
    destruct (pde_of p =? 0); [done|]. f_equal. apply word_same. intros k Hk.
    apply (new_table_other p); [done| |rewrite PGSIZE_val; lia].
    by destruct (pd_table _ _ Hok (pd_no u) p Hdu E Hp) as [? _].
Qed.
End new_table.

(** [lookup_page] with [create]. *)
Lemma lookup_create s pd u :
  pd_ok s pd → 0 ≤ u < PHYS_BASE →
  (lookup_page pd u true s = Ok (NULL, s) ∧ (∀ i, ¬ run Kernel (ram s) i 1 false) ∧ pte_at s pd u = 0) ∨
  (∃ pt s', lookup_page pd u true s = Ok (pt + 4 * pt_no u, s') ∧ pd_ok s' pd ∧ only pd s s' ∧
     table s' pd (pd_no u) pt ∧ kernel_page s' pt ∧
     ∀ x, 0 ≤ x < PHYS_BASE → pte_at s' pd x = pte_at s pd x).
Proof.
  intros Hok Hu. destruct (index_bounds u Hu) as [Hd _]. assert (Hram := pd_ram _ _ Hok).
  destruct (pd_entry _ _ Hok (pd_no u) Hd) as [E|(pt & Ht & Hpt)].
  2: { right. destruct (lookup_found s pd u true pt Hok Hu Ht Hpt) as [Hrun _]. exists pt, s.
       split; [done|]. split; [done|]. split; [by apply only_refl|]. done. }
  destruct (kernel_page_bounds s pd Hram (pd_page _ _ Hok)) as (_ & Hlo & _). unfold PHYS_BASE in Hlo.
  assert (Hhead : ∀ B (k : Z → M B), (ASSERT (negb (pd =? NULL)) ;; ASSERT (negb true || is_user_vaddr u) ;;
                    w ← load (pd + 4 * pd_no u); k w) s = k 0 s).
  { intros B k. run_assert; [|unfold NULL; destruct (Z.eqb_spec pd 0); [lia|done]].
    run_assert; [|unfold is_user_vaddr; rewrite (proj2 (Z.ltb_lt u PHYS_BASE)) by lia; done].
    by rewrite (run_bind_ok _ _ _ _ _ (load_word_ok _ _ _ E)). }
  unfold lookup_page. rewrite Hhead. cbn [Z.eqb]. destruct (new_page_ok s Hram)
    as [(Hnone & Hget)|(pt & s1 & Hget & Hok1 & Hcr3 & Hnn & Hpt & Hfresh & Hold & Huser & Hmem)]; [left|right].
  - split; [|split; [done|unfold pte_at; by rewrite E]].
    erewrite run_bind_ok; [|by rewrite (run_bind_ok _ _ _ _ _ Hget)]. done.
  - set (s2 := stored (pd + 4 * pd_no u) (pde_of pt) s1).
    assert (Hpde : word (mem s2) (pd + 4 * pd_no u) = Some (pde_of pt)).
    { rewrite (new_table_pde s s1 pd (pd_no u) pt Hok Hd Hok1 Hpt Hfresh Hold Hmem) by done. by rewrite Z.eqb_refl. }
    assert (Hok2 : pd_ok s2 pd) by (by apply (new_table_ok s s1)).
    erewrite run_bind_ok with (a := true) (s' := s2); cycle 1.
    { rewrite (run_bind_ok _ _ _ _ _ Hget). destruct (Z.eqb_spec pt NULL); [done|].
      by rewrite (run_bind_ok _ _ _ _ _ (pde_create_ok s1 pt Hok1 Hpt)). }
    rewrite (run_bind_ok _ _ _ _ _ (load_word_ok s2 _ _ Hpde)).
    rewrite (run_bind_ok _ _ _ _ _ (pde_get_pt_ok s2 pt (pd_ram _ _ Hok2) Hpt)).
    exists pt, s2. split; [done|]. split; [done|]. split; [by apply (new_table_only s s1 pd (pd_no u) pt)|].
    split; [done|]. split; [done|]. intros x Hx. by apply (new_table_view s s1 pd (pd_no u) pt).
Qed.

End PagedirRun.
