(* ===== verification/PagedirSpec.v ===== *)
(** * Properties of page tables

    A page directory stands for a mapping of user pages ([view]), and each
    function of [userprog/pagedir.c] is an operation on that mapping that
    leaves other page directories alone. *)
From S2P Require Import Prelude CInt Bitmap Palloc PallocSpec Pagedir PagedirRun.

Open Scope Z_scope.

Module PagedirSpec.
Import Palloc PallocSpec Pagedir PagedirInv PagedirRun.

(** ** Entries *)

(** What a page table entry says about its page. *)
Record mapping := Mapping { m_page : option Z; m_writable : bool; m_accessed : bool; m_dirty : bool }.

Definition decode (w : Z) : mapping :=
  Mapping (if Z.testbit w 0 then Some (PHYS_BASE + PGSIZE * (w / PGSIZE)) else None)
          (Z.testbit w 1) (Z.testbit w 5) (Z.testbit w 6).

Definition view (s : machine) (pd u : Z) : mapping := decode (pte_at s pd u).

(** Setting or clearing a flag keeps the address and the other flags. *)
Lemma lor_flag_div w n : 0 ≤ n < 12 → Z.lor w (Z.shiftl 1 n) / PGSIZE = w / PGSIZE.
Proof.
  intros Hn. change PGSIZE with (2 ^ 12). rewrite <- !Z.shiftr_div_pow2 by lia.
  rewrite Z.shiftr_lor, Z.shiftr_shiftl_r by lia.
  replace (Z.shiftr 1 (12 - n)) with 0; [apply Z.lor_0_r|].
  rewrite Z.shiftr_div_pow2 by lia. symmetry. apply Z.div_small. split; [lia|]. apply Z.pow_gt_1; lia.
Qed.

Lemma clear_flag_testbit w n k : in_u32 w → 0 ≤ n < 32 → 0 ≤ k →
  Z.testbit (Z.land w (u32 (Z.lnot (Z.shiftl 1 n)))) k = Z.testbit w k && negb (k =? n).
Proof.
  intros Hw Hn Hk. rewrite Z.land_spec. destruct (Z.lt_ge_cases k 32).
  - rewrite Bitmap.u32_lnot_testbit by lia. f_equal. f_equal.
    rewrite Z.shiftl_1_l, Z.pow2_bits_eqb by lia. apply Z.eqb_sym.
  - by rewrite (Bitmap.in_u32_high w k).
Qed.

Lemma set_flag_testbit w n k : 0 ≤ n → 0 ≤ k →
  Z.testbit (Z.lor w (Z.shiftl 1 n)) k = Z.testbit w k || (k =? n).
Proof.
  intros Hn Hk. rewrite Z.lor_spec, Z.shiftl_1_l, Z.pow2_bits_eqb by lia. by rewrite (Z.eqb_sym n).
Qed.

Lemma clear_flag_div w n : in_u32 w → 0 ≤ n < 12 →
  Z.land w (u32 (Z.lnot (Z.shiftl 1 n))) / PGSIZE = w / PGSIZE.
Proof.
  intros Hw Hn. change PGSIZE with (2 ^ 12). rewrite <- !Z.shiftr_div_pow2 by lia.
  apply Z.bits_inj'. intros k Hk. rewrite !Z.shiftr_spec, clear_flag_testbit by (done || lia).
  destruct (Z.eqb_spec (k + 12) n); [lia|]. apply andb_true_r.
Qed.

(** Entries stay below the limit when only flags change. *)
Lemma same_div_bound w w' : 0 ≤ w < PHYS_LIMIT → 0 ≤ w' → w' / PGSIZE = w / PGSIZE → 0 ≤ w' < PHYS_LIMIT.
Proof. unfold PHYS_LIMIT. rewrite PGSIZE_val. intros. divlia. Qed.

Lemma bound_u32 w : 0 ≤ w < PHYS_LIMIT → in_u32 w.
Proof. unfold PHYS_LIMIT, in_u32. lia. Qed.

(** The entry made for a page. *)
Definition pte_of (kpage : Z) (writable : bool) : Z := kpage - PHYS_BASE + (if writable then 7 else 5).

Lemma pte_create_user_ok s k w :
  PHYS_BASE ≤ k < 2 ^ 32 → k mod PGSIZE = 0 → @pte_create_user machine k w s = Ok (pte_of k w, s).
Proof.
  intros Hk Hal. unfold pte_create_user, pte_create_kernel.
  rewrite (run_bind_ok _ _ _ (Z.lor (Z.lor (k - PHYS_BASE) PTE_P) (if w then PTE_W else 0)) s).
  - unfold mret, ST_ret, pte_of. rewrite <- !Z.lor_assoc.
    assert (Hm : (k - PHYS_BASE) mod PGSIZE = 0) by (unfold PHYS_BASE; rewrite PGSIZE_val in *; divlia).
    destruct w; [change (Z.lor PTE_P (Z.lor PTE_W PTE_U)) with 7|change (Z.lor PTE_P (Z.lor 0 PTE_U)) with 5];
      rewrite lor_flags by (done || (rewrite PGSIZE_val; lia)); done.
  - run_assert; [|by rewrite pg_ofs_mod, Hal]. by rewrite (run_bind_ok _ _ _ _ _ (vtop_ok s k Hk)).
Qed.

Lemma decode_pte_of k w :
  PHYS_BASE ≤ k < 2 ^ 32 → k mod PGSIZE = 0 →
  0 ≤ pte_of k w < PHYS_LIMIT ∧ decode (pte_of k w) = Mapping (Some k) w false false.
Proof.
  unfold pte_of, PHYS_LIMIT, PHYS_BASE. rewrite PGSIZE_val. intros Hk Hal. split; [destruct w; divlia|].
  set (f := if w then 7 else 5). assert (Hf : 0 ≤ f < 4096) by (destruct w; lia).
  set (x := k - 0xc0000000). assert (Hx : x mod 4096 = 0) by (unfold x; divlia).
  assert (Hbit : ∀ n, 0 ≤ n < 12 → Z.testbit (x + f) n = Z.testbit f n).
  { intros n Hn. rewrite <- (Z.mod_pow2_bits_low (x + f) 12 n), <- (Z.mod_pow2_bits_low f 12 n) by lia.
    change (2 ^ 12) with 4096. f_equal. divlia. }
  unfold decode. rewrite !Hbit by lia. rewrite PGSIZE_val. unfold PHYS_BASE.
  replace (0xc0000000 + 4096 * ((x + f) / 4096)) with k by (unfold x in *; divlia).
  by destruct w.
Qed.

(** ** The operations *)

Definition cr3_ok (s : machine) : Prop := 0 ≤ cr3 s < 2 ^ 30.

(** Reloading the same page directory changes nothing in the model. *)
Lemma invalidate_ok i s pd : cr3_ok s → invalidate_pagedir i pd s = Ok (tt, s).
Proof.
  intros Hc. unfold invalidate_pagedir, active_pd. unfold cr3_ok in Hc.
  rewrite (run_bind_ok _ _ _ (PHYS_BASE + cr3 s) s).
  2: { erewrite run_bind_ok; [|reflexivity]. by apply ptov_ok. }
  destruct (Z.eqb_spec (PHYS_BASE + cr3 s) pd) as [<-|]; [|done]. unfold pagedir_activate.
  destruct (Z.eqb_spec (PHYS_BASE + cr3 s) NULL); [unfold PHYS_BASE, NULL in *; lia|].
  rewrite (run_bind_ok _ _ _ _ _ (vtop_ok s (PHYS_BASE + cr3 s) ltac:(unfold PHYS_BASE; lia))).
  unfold modify. replace (PHYS_BASE + cr3 s - PHYS_BASE) with (cr3 s) by lia. by destruct s.
Qed.

(** The entry of a user page, or none. *)
Lemma lookup_cases s pd u :
  pd_ok s pd → 0 ≤ u < PHYS_BASE →
  (lookup_page pd u false s = Ok (NULL, s) ∧ pte_at s pd u = 0) ∨
  (∃ pt, lookup_page pd u false s = Ok (pt + 4 * pt_no u, s) ∧ table s pd (pd_no u) pt ∧ kernel_page s pt ∧
     load (pt + 4 * pt_no u) s = Ok (pte_at s pd u, s) ∧ 0 ≤ pte_at s pd u < PHYS_LIMIT ∧
     (pt + 4 * pt_no u =? NULL) = false).
Proof.
  intros Hok Hu. destruct (index_bounds u Hu) as [Hd _].
  destruct (pd_entry _ _ Hok (pd_no u) Hd) as [E|(pt & Ht & Hpt)].
  - left. by apply lookup_absent.
  - right. exists pt. destruct (lookup_found s pd u false pt Hok Hu Ht Hpt) as (H1 & H2 & H3 & H4).
    split_and!; try done; [by apply load_word_ok|lia|lia|]. by apply Z.eqb_neq.
Qed.

Lemma get_page_ok s pd u :
  pd_ok s pd → 0 ≤ u < PHYS_BASE →
  pagedir_get_page pd u s =
    Ok (match m_page (view s pd u) with Some k => k + pg_ofs u | None => NULL end, s).
Proof.
  intros Hok Hu. unfold pagedir_get_page, view.
  run_assert; [|unfold is_user_vaddr; apply Z.ltb_lt; lia].
  destruct (lookup_cases s pd u Hok Hu) as [(Hrun & E)|(pt & Hrun & _ & _ & Hload & Hb & Hn)];
    rewrite (run_bind_ok _ _ _ _ _ Hrun); [by rewrite E|]. rewrite Hn. cbn [negb].
  rewrite (run_bind_ok _ _ _ _ _ Hload), test_present. unfold decode. cbn [m_page].
  destruct (Z.testbit (pte_at s pd u) 0); [|done]. unfold pte_get_page.
  rewrite land_addr by (by apply bound_u32).
  rewrite (run_bind_ok _ _ _ _ _ (ptov_ok s (PGSIZE * (pte_at s pd u / PGSIZE))
    ltac:(unfold PHYS_LIMIT in *; rewrite PGSIZE_val; divlia))). done.
Qed.

Lemma is_flag_ok n s pd u :
  pd_ok s pd → 0 ≤ u < PHYS_BASE → 0 ≤ n →
  pagedir_is (Z.shiftl 1 n) pd u s = Ok (Z.testbit (pte_at s pd u) n, s).
Proof.
  intros Hok Hu Hn. unfold pagedir_is.
  destruct (lookup_cases s pd u Hok Hu) as [(Hrun & E)|(pt & Hrun & _ & _ & Hload & Hb & Hnn)];
    rewrite (run_bind_ok _ _ _ _ _ Hrun); [rewrite E, Z.bits_0; done|]. rewrite Hnn. cbn [negb].
  rewrite (run_bind_ok _ _ _ _ _ Hload). by rewrite test_flag.
Qed.

(** There is a page table for [u]. *)
Definition has_table (s : machine) (pd u : Z) : bool :=
  match word (mem s) (pd + 4 * pd_no u) with Some e => negb (e =? 0) | None => false end.

(** [f] applied to the mapping of the page of [u], the rest as before. *)
Definition remapped (s : machine) (pd u : Z) (f : mapping → mapping) (s' : machine) : Prop :=
  pd_ok s' pd ∧ only pd s s' ∧ cr3_ok s' ∧
  ∀ x, 0 ≤ x < PHYS_BASE → view s' pd x = if pg_no x =? pg_no u then f (view s pd x) else view s pd x.

Lemma same_page_pte s pd x u :
  0 ≤ x → 0 ≤ u → pg_no x = pg_no u → pte_at s pd x = pte_at s pd u.
Proof. intros Hx Hu E. destruct (index_eq x u Hx Hu E) as [E1 E2]. unfold pte_at. by rewrite E1, E2. Qed.

(** Writing an entry whose flags alone differ. *)
Lemma store_flags_ok s pd u pt w f :
  pd_ok s pd → cr3_ok s → 0 ≤ u < PHYS_BASE → table s pd (pd_no u) pt → kernel_page s pt →
  0 ≤ w < PHYS_LIMIT → decode w = f (view s pd u) →
  remapped s pd u f (stored (pt + 4 * pt_no u) w s).
Proof.
  intros Hok Hc Hu Ht Hpt Hw Hf. destruct (store_pte_ok s pd u pt w Hok Hu Ht Hpt Hw) as (H1 & H2 & H3 & _).
  split; [done|]. split; [done|]. split; [done|]. intros x Hx. unfold view in *. rewrite H3 by done.
  destruct (Z.eqb_spec (pg_no x) (pg_no u)) as [E|]; [|done].
  by rewrite (same_page_pte s pd x u ltac:(lia) ltac:(lia) E).
Qed.

Lemma remapped_id s pd u f :
  pd_ok s pd → cr3_ok s → f (view s pd u) = view s pd u → 0 ≤ u < PHYS_BASE → remapped s pd u f s.
Proof.
  intros Hok Hc Hf Hu. split; [done|]. split; [apply only_refl, Hok|]. split; [done|]. intros x Hx.
  destruct (Z.eqb_spec (pg_no x) (pg_no u)) as [E|]; [|done].
  unfold view in *. rewrite (same_page_pte s pd x u ltac:(lia) ltac:(lia) E). by rewrite Hf.
Qed.

(** Not present; the flags stay. *)
Definition unmap (m : mapping) : mapping := Mapping None (m_writable m) (m_accessed m) (m_dirty m).
Definition set_dirty (b : bool) (m : mapping) : mapping := Mapping (m_page m) (m_writable m) (m_accessed m) b.
Definition set_accessed (b : bool) (m : mapping) : mapping := Mapping (m_page m) (m_writable m) b (m_dirty m).

Section with_init.
Context (init_page_dir init_ram_pages : Z).

Lemma clear_page_ok s pd u :
  pd_ok s pd → cr3_ok s → 0 ≤ u < PHYS_BASE → u mod PGSIZE = 0 →
  ∃ s', pagedir_clear_page init_page_dir pd u s = Ok (tt, s') ∧ remapped s pd u unmap s' ∧ kernel_pool (ram s') = kernel_pool (ram s).
Proof.
  intros Hok Hc Hu Hal. unfold pagedir_clear_page. run_assert; [|by rewrite pg_ofs_mod, Hal].
  run_assert; [|unfold is_user_vaddr; apply Z.ltb_lt; lia].
  destruct (lookup_cases s pd u Hok Hu) as [(Hrun & E)|(pt & Hrun & Ht & Hpt & Hload & Hb & Hn)];
    rewrite (run_bind_ok _ _ _ _ _ Hrun).
  { exists s. split; [done|]. split; [|done]. apply remapped_id; try done. unfold view. by rewrite E. }
  rewrite Hn. cbn [negb]. rewrite (run_bind_ok _ _ _ _ _ Hload), test_present.
  destruct (Z.testbit (pte_at s pd u) 0) eqn:Ep.
  2: { exists s. split; [done|]. split; [|done]. apply remapped_id; try done. unfold view, decode. by rewrite Ep. }
  set (w := Z.land (pte_at s pd u) (u32 (Z.lnot PTE_P))).
  assert (Hu32 := bound_u32 _ Hb).
  assert (Hdiv : w / PGSIZE = pte_at s pd u / PGSIZE) by (apply (clear_flag_div _ 0); [done|lia]).
  assert (Hw : 0 ≤ w < PHYS_LIMIT).
  { eapply same_div_bound; [exact Hb| |done]. apply Z.land_nonneg. left. lia. }
  exists (stored (pt + 4 * pt_no u) w s). split.
  { erewrite run_bind_ok; [|reflexivity]. apply invalidate_ok. exact Hc. }
  split; [|done]. apply store_flags_ok; try done. unfold view, unmap, decode. cbn [m_writable m_accessed m_dirty].
  rewrite Hdiv. unfold w. change PTE_P with (Z.shiftl 1 0). rewrite !clear_flag_testbit by (done || lia).
  simpl Z.eqb. by rewrite !andb_false_r, !andb_true_r.
Qed.

Lemma set_flag_ok n f s pd u b :
  pd_ok s pd → cr3_ok s → 0 ≤ u < PHYS_BASE → 1 < n < 12 →
  (∀ w w', 0 ≤ w → w' / PGSIZE = w / PGSIZE → (∀ k, 0 ≤ k → Z.testbit w' k = if k =? n then b else Z.testbit w k) →
           decode w' = f (decode w)) →
  ∃ s', pagedir_set init_page_dir (Z.shiftl 1 n) pd u b s = Ok (tt, s') ∧
    (if has_table s pd u then remapped s pd u f s' else s' = s) ∧ kernel_pool (ram s') = kernel_pool (ram s).
Proof.
  intros Hok Hc Hu Hn Hf. unfold pagedir_set. destruct (index_bounds u Hu) as [Hd _].
  destruct (pd_entry _ _ Hok (pd_no u) Hd) as [E|(pt & Ht & Hpt)].
  { destruct (lookup_absent s pd u Hok Hu E) as [Hrun _]. exists s.
    rewrite (run_bind_ok _ _ _ _ _ Hrun). unfold has_table. by rewrite E. }
  destruct (lookup_found s pd u false pt Hok Hu Ht Hpt) as (Hrun & Hw & Hb & Hnn).
  rewrite (run_bind_ok _ _ _ _ _ Hrun). rewrite (proj2 (Z.eqb_neq _ _) Hnn). cbn [negb].
  rewrite (run_bind_ok _ _ _ _ _ (load_word_ok _ _ _ Hw)).
  assert (Htab : has_table s pd u = true).
  { unfold has_table. rewrite Ht. destruct (pde_addr s pt (pd_ram _ _ Hok) Hpt) as (_ & Hnz & _).
    by rewrite (proj2 (Z.eqb_neq _ _) Hnz). }
  rewrite Htab. assert (Hu32 := bound_u32 _ Hb).
  set (w := pte_at s pd u) in *. set (w' := if b then Z.lor w (Z.shiftl 1 n) else Z.land w (u32 (Z.lnot (Z.shiftl 1 n)))).
  assert (Hdiv : w' / PGSIZE = w / PGSIZE).
  { unfold w'. destruct b; [by apply lor_flag_div; lia|by apply clear_flag_div; [done|lia]]. }
  assert (Hpos : 0 ≤ w').
  { unfold w'. destruct b; [apply Z.lor_nonneg; split; [lia|by apply Z.shiftl_nonneg]|apply Z.land_nonneg; left; lia]. }
  exists (stored (pt + 4 * pt_no u) w' s). split.
  { unfold w'. destruct b; [done|]. erewrite run_bind_ok; [|reflexivity]. apply invalidate_ok. exact Hc. }
  split; [|done]. apply store_flags_ok; try done; [by apply (same_div_bound w)|]. apply Hf; [lia|done|].
  intros k Hk. unfold w'. destruct b.
  - rewrite set_flag_testbit by lia. destruct (k =? n); [apply orb_true_r|apply orb_false_r].
  - rewrite clear_flag_testbit by (done || lia). destruct (k =? n); [apply andb_false_r|apply andb_true_r].
Qed.

Lemma set_page_ok s pd u k w :
  pd_ok s pd → cr3_ok s → 0 ≤ u < PHYS_BASE → u mod PGSIZE = 0 →
  PHYS_BASE ≤ k < 2 ^ 32 → k mod PGSIZE = 0 → (k - PHYS_BASE) / PGSIZE < init_ram_pages → pd ≠ init_page_dir →
  m_page (view s pd u) = None →
  (pagedir_set_page init_page_dir init_ram_pages pd u k w s = Ok (false, s) ∧ ∀ i, ¬ run Kernel (ram s) i 1 false) ∨
  (∃ s', pagedir_set_page init_page_dir init_ram_pages pd u k w s = Ok (true, s') ∧
     remapped s pd u (λ _, Mapping (Some k) w false false) s').
Proof.
  intros Hok Hc Hu Hal Hk Hkal Hram Hpd Hfree. unfold pagedir_set_page.
  run_assert; [|by rewrite pg_ofs_mod, Hal]. run_assert; [|by rewrite pg_ofs_mod, Hkal].
  run_assert; [|unfold is_user_vaddr; apply Z.ltb_lt; lia].
  rewrite (run_bind_ok _ _ _ _ _ (vtop_ok s k Hk)).
  run_assert; [|apply Z.ltb_lt; unfold PTSHIFT; rewrite Z.shiftr_div_pow2 by done; exact Hram].
  run_assert; [|by rewrite (proj2 (Z.eqb_neq _ _) Hpd)].
  destruct (lookup_create s pd u Hok Hu) as [(Hrun & Hnone & _)|(pt & s1 & Hrun & Hok1 & Hon & Ht & Hpt & Hview)];
    rewrite (run_bind_ok _ _ _ _ _ Hrun); [left; done|right].
  destruct (lookup_found s1 pd u true pt Hok1 Hu Ht Hpt) as (_ & Hw & _ & Hnn).
  rewrite (proj2 (Z.eqb_neq _ _) Hnn). cbn [negb]. rewrite (run_bind_ok _ _ _ _ _ (load_word_ok _ _ _ Hw)).
  run_assert.
  2: { rewrite Hview by done. assert (Hp := test_present (pte_at s pd u)). unfold view, decode in Hfree.
       destruct (Z.testbit (pte_at s pd u) 0); [done|]. by destruct (Z.land (pte_at s pd u) PTE_P =? 0). }
  rewrite (run_bind_ok _ _ _ _ _ (pte_create_user_ok s1 k w Hk Hkal)).
  destruct (decode_pte_of k w Hk Hkal) as [Hlim Hdec].
  destruct (store_flags_ok s1 pd u pt (pte_of k w) (λ _, Mapping (Some k) w false false)) as (H1 & H2 & H3 & H4); try done.
  { unfold cr3_ok. by rewrite (on_cr3 _ _ _ Hon). }
  exists (stored (pt + 4 * pt_no u) (pte_of k w) s1). split; [done|]. split; [done|].
  split; [by eapply only_trans|]. split; [done|]. intros x Hx. rewrite H4 by done.
  unfold view. by rewrite Hview.
Qed.
End with_init.

(** C25: each operation on a page directory is the operation on the mapping
    it stands for.  Reading: the kernel address of a user address, and the
    dirty and accessed bits.  Writing: a page is mapped at an unmapped address
    with clean bits (or nothing changes because no page is left for a page
    table), unmapped with its bits kept, or has a bit changed where there is a
    page table; in each case the mapping of every other page stays as it is,
    and so does every page directory that shares no page with this one. *)
Theorem pagedir_refines_map init ram_pages s pd u :
  pd_ok s pd → cr3_ok s → 0 ≤ u < PHYS_BASE →
  pagedir_get_page pd u s =
    Ok (match m_page (view s pd u) with Some k => k + pg_ofs u | None => NULL end, s) ∧
  pagedir_is_dirty pd u s = Ok (m_dirty (view s pd u), s) ∧
  pagedir_is_accessed pd u s = Ok (m_accessed (view s pd u), s) ∧
  (u mod PGSIZE = 0 → ∃ s', pagedir_clear_page init pd u s = Ok (tt, s') ∧ remapped s pd u unmap s') ∧
  (∀ b, ∃ s', pagedir_set_dirty init pd u b s = Ok (tt, s') ∧
     if has_table s pd u then remapped s pd u (set_dirty b) s' else s' = s) ∧
  (∀ b, ∃ s', pagedir_set_accessed init pd u b s = Ok (tt, s') ∧
     if has_table s pd u then remapped s pd u (set_accessed b) s' else s' = s) ∧
  (∀ k w, u mod PGSIZE = 0 → PHYS_BASE ≤ k < 2 ^ 32 → k mod PGSIZE = 0 →
     (k - PHYS_BASE) / PGSIZE < ram_pages → pd ≠ init → m_page (view s pd u) = None →
     (pagedir_set_page init ram_pages pd u k w s = Ok (false, s) ∧ ∀ i, ¬ run Kernel (ram s) i 1 false) ∨
     (∃ s', pagedir_set_page init ram_pages pd u k w s = Ok (true, s') ∧
        remapped s pd u (λ _, Mapping (Some k) w false false) s')) ∧
  (∀ f s' pd', remapped s pd u f s' → pd_ok s pd' → (∀ p, owns s pd p → ¬ owns s pd' p) →
     pd_ok s' pd' ∧ (∀ x, 0 ≤ x < PHYS_BASE → view s' pd' x = view s pd' x) ∧
     ∀ p, owns s' pd p → ¬ owns s' pd' p).
Proof.
  intros Hok Hc Hu. split_and!.
  - by apply get_page_ok.
  - apply (is_flag_ok 6); (done || lia).
  - apply (is_flag_ok 5); (done || lia).
  - intros Hal. destruct (clear_page_ok init s pd u) as (s' & ? & ? & _); [done..|]. by exists s'.
  - intros b. destruct (set_flag_ok init 6 (set_dirty b) s pd u b) as (s' & ? & ? & _); [done..|lia| |by exists s'].
    intros w w' Hw Hd Hb. unfold decode, set_dirty. by rewrite Hd, !Hb by lia.
  - intros b. destruct (set_flag_ok init 5 (set_accessed b) s pd u b) as (s' & ? & ? & _); [done..|lia| |by exists s'].
    intros w w' Hw Hd Hb. unfold decode, set_accessed. by rewrite Hd, !Hb by lia.
  - intros k w Hal Hk Hkal Hr Hne Hfree. by apply set_page_ok.
  - intros f s' pd' (_ & Hon & _) Hok' Hap. destruct (only_isolates pd pd' s s' Hon Hok' Hap) as (H1 & H2 & H3).
    split; [done|]. split; [|done]. intros x Hx. unfold view. by rewrite H2.
Qed.

End PagedirSpec.
