(* ===== verification/PagedirDestroy.v ===== *)
(** * Creating and destroying page directories

    [pagedir_create] makes a page directory without user mappings;
    [pagedir_destroy] gives back exactly the pages it maps, its page tables and
    itself. *)
From S2P Require Import Prelude CInt Bitmap Palloc PallocSpec Pagedir PagedirRun PagedirSpec.

Open Scope Z_scope.

Module PagedirDestroy.
Import Palloc PallocSpec Pagedir PagedirInv PagedirRun PagedirSpec.

(** ** Giving back a list of pages *)

(** [p] is a page in use of one of the pools. *)
Definition used_page (r : palloc) (p : Z) : Prop := ∃ w i, run w r i 1 true ∧ p = page w r i.

(** From [r] to [r'] the pages [L] are given back and nothing else changes. *)
Record freed (L : list Z) (r r' : palloc) : Prop := MkFreed {
  fr_ok : palloc_ok r';
  fr_size w : npages w r' = npages w r;
  fr_page w k : page w r' k = page w r k;
  fr_use w k : 0 ≤ k < npages w r →
    in_use w r' k = negb (bool_decide (page w r k ∈ L)) && in_use w r k;
  fr_bytes q : (∀ p, p ∈ L → ¬ (p ≤ q < p + PGSIZE)) → bytes r' !! q = bytes r !! q
}.

Lemma freed_nil r : palloc_ok r → freed [] r r.
Proof. intros Hok. constructor; try done. Qed.

Lemma freed_app L1 L2 r r' r'' : freed L1 r r' → freed L2 r' r'' → freed (L1 ++ L2) r r''.
Proof.
  intros [O1 S1 P1 U1 B1] [O2 S2 P2 U2 B2]. constructor; [done|..].
  - intros w. by rewrite S2.
  - intros w k. by rewrite P2.
  - intros w k Hk. rewrite U2, U1, P1 by (rewrite ?S1; done). rewrite andb_assoc. f_equal.
    rewrite <- negb_orb. f_equal. rewrite <- bool_decide_or. apply bool_decide_ext. set_solver.
  - intros q Hq. rewrite B2, B1; [done|..]; intros p Hp; apply Hq; set_solver.
Qed.

(** Pages of the two pools do not overlap. *)
Lemma pages_apart r w i w' j :
  palloc_ok r → 0 ≤ i < npages w r → 0 ≤ j < npages w' r → page w r i ≠ page w' r j →
  page w r i + PGSIZE ≤ page w' r j ∨ page w' r j + PGSIZE ≤ page w r i.
Proof.
  intros Hok Hi Hj Hne. assert (Hap := ok_apart r Hok). unfold page in *. simpl pool_of in *.
  rewrite PGSIZE_val in *. destruct w, w'; simpl pool_of in *; try lia;
    (destruct (Z.lt_trichotomy i j) as [?|[->|?]]; [lia|congruence|lia]).
Qed.

Lemma page_pool r w i w' j :
  palloc_ok r → 0 ≤ i < npages w r → 0 ≤ j < npages w' r → page w r i = page w' r j → w = w' ∧ i = j.
Proof.
  intros Hok Hi Hj E. assert (Hap := ok_apart r Hok). unfold page in *. simpl pool_of in *.
  rewrite PGSIZE_val in *. destruct w, w'; simpl pool_of in *; (split; [done|lia]) || lia.
Qed.

Lemma used_apart r p q : palloc_ok r → used_page r p → used_page r q → p ≠ q → p + PGSIZE ≤ q ∨ q + PGSIZE ≤ p.
Proof.
  intros Hok (w & i & (Hi & Hin & _) & ->) (w' & j & (Hj & Hjn & _) & ->). apply pages_apart; (done || lia).
Qed.

(** Pages that are not given back stay in use. *)
Lemma freed_run L r r' w i : freed L r r' → run w r i 1 true → page w r i ∉ L → run w r' i 1 true.
Proof.
  intros Hf (Hi & Hin & Hu) Hp. split; [done|]. rewrite (fr_size _ _ _ Hf). split; [done|].
  intros k Hk. assert (k = i) as -> by lia. rewrite (fr_use _ _ _ Hf), Hu by lia. by rewrite bool_decide_false.
Qed.

Lemma freed_used L r r' p : freed L r r' → used_page r p → p ∉ L → used_page r' p.
Proof.
  intros Hf (w & i & Hr & ->) Hp. exists w, i. split; [by eapply freed_run|symmetry; apply Hf].
Qed.

Lemma freed_kernel L s s' p : freed L (ram s) (ram s') → kernel_page s p → p ∉ L → kernel_page s' p.
Proof.
  intros Hf (i & Hr & ->) Hp. exists i. split; [by eapply freed_run|symmetry; apply Hf].
Qed.

Lemma free_page_ok s p :
  palloc_ok (ram s) → used_page (ram s) p →
  ∃ s', on_ram (palloc_free_page p) s = Ok (tt, s') ∧ cr3 s' = cr3 s ∧ freed [p] (ram s) (ram s').
Proof.
  intros Hok (w & i & Hr & ->).
  destruct (palloc_free_ok (ram s) w i 1 Hok ltac:(lia) Hr) as (r & Hrun & Hok' & Hch & Hb).
  rewrite Z.mul_1_r in Hb. destruct Hr as (Hi & Hin & _).
  assert (Hlook : ∀ q, ¬ (page w (ram s) i ≤ q < page w (ram s) i + PGSIZE) → bytes r !! q = bytes (ram s) !! q).
  { intros q Hq. rewrite Hb, memset_lookup, in_range_out by (try exact Hq; rewrite PGSIZE_val; lia). reflexivity. }
  clear Hb. exists (with_ram r s). split; [exact (run_zoom_ok _ _ _ _ _ _ Hrun)|]. split; [done|].
  constructor; [done|apply (ch_size _ _ _ _ _ _ Hch)|intros; apply (changed_page _ _ _ _ _ _ _ _ Hch)| |].
  - intros w' k Hk. simpl. rewrite (ch_use _ _ _ _ _ _ Hch) by done. rewrite (bool_decide_ext (page w' (ram s) k ∈ [page w (ram s) i]) (w' = w ∧ k = i)).
    + destruct (decide (w' = w)) as [->|Hw].
      * rewrite (bool_decide_true (w = w)) by done. simpl. destruct (Z.eq_dec k i) as [->|Hne].
        -- rewrite (proj2 (in_range_spec i 1 i)) by lia. by rewrite bool_decide_true.
        -- rewrite in_range_out by lia. by rewrite bool_decide_false by tauto.
      * rewrite (bool_decide_false (w' = w)) by done. by rewrite bool_decide_false by tauto.
    + rewrite list_elem_of_singleton. split; [|by intros [-> ->]].
      intros E. apply (page_pool (ram s) w' k w i); (done || lia).
  - intros q Hq. apply Hlook, Hq. by apply list_elem_of_singleton.
Qed.

(** ** Creating *)

(** A fresh page of the kernel pool that holds a copy of the page [src]. *)
Lemma copied_page_ok s src :
  palloc_ok (ram s) → kernel_page s src →
  ((∀ i, ¬ run Kernel (ram s) i 1 false) ∧ pagedir_create src s = Ok (NULL, s)) ∨
  (∃ pd s', pagedir_create src s = Ok (pd, s') ∧ palloc_ok (ram s') ∧ cr3 s' = cr3 s ∧ pd ≠ NULL ∧
     kernel_page s' pd ∧ ¬ kernel_page s pd ∧ (∀ p, kernel_page s p → kernel_page s' p) ∧
     user_pool (ram s') = user_pool (ram s) ∧
     ∀ k, mem s' !! k = if in_range pd PGSIZE k then mem s !! (src + (k - pd)) else mem s !! k).
Proof.
  intros Hok Hsrc. destruct (first_run Kernel (ram s) 1 Hok ltac:(lia)) as [(i & Hfree & Hmin)|Hnone]; [right|left].
  2: { split; [done|]. unfold pagedir_create. rewrite (run_bind_ok _ _ _ NULL s); [done|].
       assert (Hget := palloc_get_full (ram s) 0 1 Hok ltac:(lia) Hnone).
       unfold on_ram. rewrite (run_zoom_ok _ _ _ _ _ _ Hget). by destruct s. }
  destruct (palloc_get_ok (ram s) 0 1 i Hok ltac:(lia) Hfree Hmin) as (r & Hget & Hok' & Hch & Hb).
  change (pool_for 0) with Kernel in *. change (has_flag 0 PAL_ZERO) with false in Hb. cbv iota in Hb.
  set (pd := page Kernel (ram s) i) in *. assert (Hi := Hfree). destruct Hi as (Hi & Hin & Hf).
  destruct (page_bounds Kernel (ram s) i Hok ltac:(lia)) as [Hlo _]. fold pd in Hlo. unfold PHYS_BASE in Hlo.
  assert (Hnk : ¬ kernel_page s pd).
  { intros (j & (_ & _ & Hu) & E%page_inj). subst j. specialize (Hu i ltac:(lia)). rewrite Hf in Hu by lia. done. }
  set (m := copy (Z.to_nat PGSIZE) pd src (bytes r)).
  assert (Hlook : ∀ k, m !! k = if in_range pd PGSIZE k then mem s !! (src + (k - pd)) else mem s !! k).
  { intros k. unfold m. rewrite copy_lookup; rewrite Z2Nat.id by (rewrite PGSIZE_val; lia); [by rewrite Hb|].
    destruct Hsrc as (j & Hr & ->). destruct (Z.eq_dec i j) as [<-|Hne]; [by destruct Hnk; exists i|].
    unfold pd, page. rewrite PGSIZE_val. lia. }
  assert (Hrun : pagedir_create src s = Ok (pd, with_ram (with_bytes m r) s)).
  { unfold pagedir_create. rewrite (run_bind_ok _ _ _ _ _ (run_zoom_ok ram with_ram _ _ _ _ Hget)).
    rewrite (proj2 (Z.eqb_neq pd NULL)) by (unfold NULL; lia). cbn [negb].
    rewrite (run_bind_ok _ _ _ tt (with_ram (with_bytes m r) s)); reflexivity. }
  clearbody m. exists pd, (with_ram (with_bytes m r) s). split; [exact Hrun|]. split; [by apply palloc_ok_bytes|].
  split; [done|]. split; [unfold NULL; lia|]. split; [|split; [done|split; [|split; [|exact Hlook]]]].
  3: exact (palloc_get_other (ram s) 0 1 _ r Hget User ltac:(done)).
  - exists i. split; [exact (run_new i 1 (ram s) r Hi Hin Hch)|].
    exact (eq_sym (changed_page _ _ _ _ _ _ Kernel i Hch)).
  - intros p (j & Hr & ->). exists j. split; [|exact (eq_sym (changed_page _ _ _ _ _ _ Kernel j Hch))].
    exact (run_changed i 1 true (ram s) r j 1 Hch Hr (or_introl eq_refl)).
Qed.

(** A copy of a directory without user mappings is one. *)
Lemma create_ok s src :
  palloc_ok (ram s) → kernel_page s src → (∀ d, 0 ≤ d < 768 → word (mem s) (src + 4 * d) = Some 0) →
  ((∀ i, ¬ run Kernel (ram s) i 1 false) ∧ pagedir_create src s = Ok (NULL, s)) ∨
  (∃ pd s', pagedir_create src s = Ok (pd, s') ∧ pd ≠ NULL ∧ pd ≠ src ∧ pd_ok s' pd ∧ cr3 s' = cr3 s ∧
     (∀ u, 0 ≤ u < PHYS_BASE → view s' pd u = Mapping None false false false) ∧
     user_pool (ram s') = user_pool (ram s) ∧
     (∀ k, ¬ (pd ≤ k < pd + PGSIZE) → mem s' !! k = mem s !! k) ∧ (∀ p, kernel_page s p → kernel_page s' p) ∧
     ∀ pd', pd_ok s pd' → pd_ok s' pd' ∧ (∀ u, 0 ≤ u < PHYS_BASE → view s' pd' u = view s pd' u) ∧
                         ∀ p, owns s' pd p → ¬ owns s' pd' p).
Proof.
  intros Hok Hsrc Hzero. destruct (copied_page_ok s src Hok Hsrc)
    as [?|(pd & s' & Hrun & Hok' & Hc & Hnn & Hpd & Hfresh & Hold & Huser & Hmem)]; [by left|right].
  assert (Hpde : ∀ d, 0 ≤ d < 768 → word (mem s') (pd + 4 * d) = Some 0).
  { intros d Hd. rewrite <- (Hzero d Hd). unfold word. rewrite !Hmem.
    rewrite !(proj2 (in_range_spec pd PGSIZE _)) by (rewrite PGSIZE_val; lia).
    replace (src + (pd + 4 * d - pd)) with (src + 4 * d) by lia.
    replace (src + (pd + 4 * d + 1 - pd)) with (src + 4 * d + 1) by lia.
    replace (src + (pd + 4 * d + 2 - pd)) with (src + 4 * d + 2) by lia.
    replace (src + (pd + 4 * d + 3 - pd)) with (src + 4 * d + 3) by lia. done. }
  assert (Hnot : ∀ d pt, 0 ≤ d < 768 → kernel_page s' pt → ¬ table s' pd d pt).
  { intros d pt Hd Hpt Ht. unfold table in Ht. rewrite Hpde in Ht by done. injection Ht as E.
    by destruct (pde_addr s' pt Hok' Hpt) as (_ & Hnz & _). }
  exists pd, s'. split; [done|]. split; [done|]. split; [by intros ->|].
  split; [|split; [done|split; [|split; [done|split; [|split; [done|]]]]]].
  - constructor; try done.
    + intros d Hd. left. by apply Hpde.
    + intros d pt Hd Ht Hpt. by destruct (Hnot d pt Hd Hpt).
    + intros d d' pt Hd Hd' Hpt Ht. by destruct (Hnot d pt Hd Hpt).
  - intros u Hu. destruct (index_bounds u Hu) as [Hd _]. unfold view, pte_at. by rewrite Hpde.
  - intros k Hk. rewrite Hmem, in_range_out; [done|exact Hk].
  - intros pd' Hpd'. destruct (pd_local s s' pd' Hpd' Hok') as (H1 & H2 & H3).
    + intros p Ho. by apply Hold, (owns_kernel s pd').
    + intros p k Ho Hk. rewrite Hmem, in_range_out; [done|].
      assert (Hp := owns_kernel s pd' p Hpd' Ho). assert (Hne : p ≠ pd) by (by intros ->).
      destruct (kernel_page_apart s' p pd Hok' (Hold p Hp) Hpd Hne); lia.
    + split; [done|]. split; [intros u Hu; unfold view; by rewrite H2|].
      intros p [-> | (d & Hd & Ht & Hp)] Ho; [|by apply (Hnot d p)]. apply H3 in Ho.
      apply Hfresh. by eapply owns_kernel.
Qed.

(** ** Destroying *)

(** The page an entry maps. *)
Definition present_page (w : Z) : option Z := m_page (decode w).

(** The pages mapped by a page table with the entries [ws]. *)
Definition frames (ws : list Z) : list Z := omap present_page ws.

Lemma frames_cons w ws :
  frames (w :: ws) = if Z.testbit w 0 then (PHYS_BASE + PGSIZE * (w / PGSIZE)) :: frames ws else frames ws.
Proof.
  unfold frames. cbn [omap list_omap]. unfold present_page at 1, decode. cbn [m_page].
  destruct (Z.testbit w 0); reflexivity.
Qed.

(** [n] words from [a] on. *)
Definition words_at (m : gmap Z Z) (a : Z) (ws : list Z) : Prop :=
  ∀ j w, ws !! j = Some w → word m (a + 4 * Z.of_nat j) = Some w ∧ 0 ≤ w < PHYS_LIMIT.

Lemma words_at_cons m a w ws : words_at m a (w :: ws) → word m a = Some w ∧ 0 ≤ w < PHYS_LIMIT ∧ words_at m (a + 4) ws.
Proof.
  intros H. destruct (H 0%nat w eq_refl) as [H1 H2]. rewrite Z.add_0_r in H1. split; [done|]. split; [done|].
  intros j x Hj. destruct (H (S j) x Hj) as [H3 H4]. split; [|done]. rewrite <- H3. f_equal. lia.
Qed.

Lemma words_at_same m m' a ws :
  (∀ q, a ≤ q < a + 4 * Z.of_nat (length ws) → m' !! q = m !! q) → words_at m a ws → words_at m' a ws.
Proof.
  intros Hs H j w Hj. destruct (H j w Hj) as [H1 H2]. split; [|done]. rewrite <- H1. apply word_same.
  intros q Hq. apply Hs. apply lookup_lt_Some in Hj. lia.
Qed.

(** The pages are apart from [n] bytes at [a]. *)
Definition clear_of (L : list Z) (a n : Z) : Prop := ∀ p, p ∈ L → p + PGSIZE ≤ a ∨ a + n ≤ p.

Lemma destroy_ptes_ok ws a s :
  palloc_ok (ram s) → words_at (mem s) a ws → NoDup (frames ws) → Forall (used_page (ram s)) (frames ws) →
  clear_of (frames ws) a (4 * Z.of_nat (length ws)) →
  ∃ s', destroy_ptes (length ws) a s = Ok (tt, s') ∧ cr3 s' = cr3 s ∧ freed (frames ws) (ram s) (ram s').
Proof.
  revert a s. induction ws as [|w ws IH]; intros a s Hok Hws Hnd Hused Hclear.
  { exists s. split; [done|]. split; [done|]. by apply freed_nil. }
  apply words_at_cons in Hws as (Hw & Hb & Hws). cbn [destroy_ptes length].
  rewrite (run_bind_ok _ _ _ _ _ (load_word_ok s a w Hw)), test_present.
  rewrite frames_cons in *. destruct (Z.testbit w 0); cycle 1.
  { rewrite (run_bind_ok _ _ _ tt s) by done. apply IH; try done. intros p Hp. specialize (Hclear p Hp).
    rewrite length_cons in Hclear. lia. }
  set (p := PHYS_BASE + PGSIZE * (w / PGSIZE)) in *. apply NoDup_cons in Hnd as [Hp Hnd].
  apply Forall_cons in Hused as [Hup Hused].
  destruct (free_page_ok s p Hok Hup) as (s1 & Hfree & Hc & Hfr).
  rewrite (run_bind_ok _ _ _ tt s1); cycle 1.
  { unfold pte_get_page. rewrite land_addr by (by apply bound_u32).
    rewrite (run_bind_ok _ _ _ _ _ (ptov_ok s (PGSIZE * (w / PGSIZE)) ltac:(unfold PHYS_LIMIT in *; rewrite PGSIZE_val; divlia))).
    exact Hfree. }
  assert (Hfar := Hclear p ltac:(set_solver)). rewrite length_cons in *.
  destruct (IH (a + 4) s1) as (s2 & Hrun & Hc2 & Hfr2); [apply Hfr| |done| | |].
  - eapply words_at_same; [|exact Hws]. intros q Hq. apply (fr_bytes _ _ _ Hfr).
    intros p' ->%list_elem_of_singleton. lia.
  - rewrite Forall_forall in Hused |- *. intros q Hq. eapply freed_used; [done|by apply Hused|]. set_solver.
  - intros q Hq. specialize (Hclear q ltac:(set_solver)). lia.
  - exists s2. split; [done|]. split; [congruence|]. by apply (freed_app [p] _ (ram s) (ram s1)).
Qed.

(** The page tables of a directory: where each is and its entries. *)
Definition tab_pages (x : option (Z * list Z)) : list Z :=
  match x with Some (pt, ws) => frames ws ++ [pt] | None => [] end.
Definition dir_pages (tabs : list (option (Z * list Z))) : list Z := concat (tab_pages <$> tabs).

Definition tab_at (s : machine) (a : Z) (x : option (Z * list Z)) : Prop :=
  match x with
  | Some (pt, ws) => word (mem s) a = Some (pde_of pt) ∧ kernel_page s pt ∧
                     Z.of_nat (length ws) = 1024 ∧ words_at (mem s) pt ws
  | None => word (mem s) a = Some 0
  end.
Definition dir_at (s : machine) (a : Z) (tabs : list (option (Z * list Z))) : Prop :=
  ∀ j x, tabs !! j = Some x → tab_at s (a + 4 * Z.of_nat j) x.

Lemma dir_at_cons s a x tabs : dir_at s a (x :: tabs) → tab_at s a x ∧ dir_at s (a + 4) tabs.
Proof.
  intros H. split; [rewrite <- (Z.add_0_r a); exact (H 0%nat x eq_refl)|].
  intros j y Hj. replace (a + 4 + 4 * Z.of_nat j) with (a + 4 * Z.of_nat (S j)) by lia. by apply H.
Qed.

(** What is left of a directory survives giving other pages back. *)
Lemma dir_at_freed L s s' a tabs :
  palloc_ok (ram s) → freed L (ram s) (ram s') → dir_at s a tabs →
  clear_of L a (4 * Z.of_nat (length tabs)) → Forall (used_page (ram s)) L →
  (∀ p, p ∈ dir_pages tabs → p ∉ L) → dir_at s' a tabs.
Proof.
  intros Hok Hf Hdir Hclear Hused Hdis j x Hj. assert (Hx := Hdir j x Hj).
  assert (Hword : word (mem s') (a + 4 * Z.of_nat j) = word (mem s) (a + 4 * Z.of_nat j)).
  { apply word_same. intros q Hq. apply (fr_bytes _ _ _ Hf). intros p Hp.
    apply lookup_lt_Some in Hj. destruct (Hclear p Hp); lia. }
  destruct x as [[pt ws]|]; simpl in *; [|by rewrite Hword].
  destruct Hx as (H1 & H2 & H3 & H4).
  assert (Hpt : pt ∉ L).
  { apply Hdis. unfold dir_pages. apply list_elem_of_In, in_concat. exists (tab_pages (Some (pt, ws))). split.
    - apply list_elem_of_In, list_elem_of_fmap. exists (Some (pt, ws)). split; [done|]. by eapply list_elem_of_lookup_2.
    - apply list_elem_of_In. simpl. set_solver. }
  split; [by rewrite Hword|]. split; [by eapply freed_kernel|]. split; [done|].
  eapply words_at_same; [|exact H4]. intros q Hq. apply (fr_bytes _ _ _ Hf). intros p Hp Hpq.
  rewrite Forall_forall in Hused. assert (Hne : p ≠ pt) by (by intros ->).
  destruct H2 as (i & Hr & ->).
  assert (Hu : used_page (ram s) (page Kernel (ram s) i)) by (by exists Kernel, i).
  destruct (used_apart (ram s) p _ Hok (Hused p Hp) Hu Hne); rewrite PGSIZE_val in *; lia.
Qed.

(** One page table: the pages it maps, then the table. *)
Lemma destroy_tab_ok x a s :
  palloc_ok (ram s) → tab_at s a x → NoDup (tab_pages x) → Forall (used_page (ram s)) (tab_pages x) →
  ∃ s1, (w ← load a;
      if negb (Z.land w PTE_P =? 0) then
        pt ← pde_get_pt w; destroy_ptes (Z.to_nat (Z.quot PGSIZE 4)) pt ;; on_ram (palloc_free_page pt)
      else mret tt) s = Ok (tt, s1) ∧ cr3 s1 = cr3 s ∧ freed (tab_pages x) (ram s) (ram s1).
Proof.
  intros Hok Hx Hnd1 Hu1.
  destruct x as [[pt ws]|]; simpl in Hx.
  2: { exists s. rewrite (run_bind_ok _ _ _ _ _ (load_word_ok s a _ Hx)). split; [done|]. split; [done|]. by apply freed_nil. }
  destruct Hx as (Hw & Hpt & Hlen & Hws). rewrite (run_bind_ok _ _ _ _ _ (load_word_ok s a _ Hw)).
  destruct (pde_addr s pt Hok Hpt) as (_ & _ & _ & Hbit). rewrite test_present, Hbit.
  rewrite (run_bind_ok _ _ _ _ _ (pde_get_pt_ok s pt Hok Hpt)).
  simpl tab_pages in *. apply NoDup_app in Hnd1 as (Hnf & Hptn & _). apply Forall_app in Hu1 as [Huf Hup].
  apply Forall_cons in Hup as [Hup _].
  replace (Z.to_nat (Z.quot PGSIZE 4)) with (length ws) by (rewrite PGSIZE_val; change (Z.quot 4096 4) with 1024; lia).
  destruct (destroy_ptes_ok ws pt s Hok Hws Hnf Huf) as (s1 & Hrun & Hc1 & Hf1).
  { intros p Hp. rewrite Hlen. rewrite Forall_forall in Huf.
    destruct (used_apart (ram s) p pt Hok (Huf p Hp) Hup); [|rewrite PGSIZE_val in *; lia..].
    intros ->. apply (Hptn pt Hp). set_solver. }
  rewrite (run_bind_ok _ _ _ _ _ Hrun).
  destruct (free_page_ok s1 pt) as (s2 & Hfree & Hc2 & Hf2); [apply Hf1| |].
  { eapply freed_used; [exact Hf1|exact Hup|]. intros Hp. apply (Hptn pt Hp). set_solver. }
  exists s2. split; [exact Hfree|]. split; [congruence|]. exact (freed_app _ _ _ _ _ Hf1 Hf2).
Qed.

Lemma destroy_pdes_ok tabs a s :
  palloc_ok (ram s) → dir_at s a tabs → NoDup (dir_pages tabs) → Forall (used_page (ram s)) (dir_pages tabs) →
  clear_of (dir_pages tabs) a (4 * Z.of_nat (length tabs)) →
  ∃ s', destroy_pdes (length tabs) a s = Ok (tt, s') ∧ cr3 s' = cr3 s ∧ freed (dir_pages tabs) (ram s) (ram s').
Proof.
  revert a s. induction tabs as [|x tabs IH]; intros a s Hok Hdir Hnd Hused Hclear.
  { exists s. split; [done|]. split; [done|]. by apply freed_nil. }
  apply dir_at_cons in Hdir as [Hx Hdir]. cbn [destroy_pdes length].
  change (dir_pages (x :: tabs)) with (tab_pages x ++ dir_pages tabs) in *.
  apply NoDup_app in Hnd as (Hnd1 & Hdis & Hnd2). apply Forall_app in Hused as [Hu1 Hu2].
  assert (Hcl : clear_of (dir_pages tabs) (a + 4) (4 * Z.of_nat (length tabs))).
  { intros p Hp. specialize (Hclear p (proj2 (elem_of_app _ _ _) (or_intror Hp))).
    rewrite length_cons in Hclear. lia. }
  assert (Hstep : ∃ s1, (w ← load a;
      if negb (Z.land w PTE_P =? 0) then
        pt ← pde_get_pt w; destroy_ptes (Z.to_nat (Z.quot PGSIZE 4)) pt ;; on_ram (palloc_free_page pt)
      else mret tt) s = Ok (tt, s1) ∧ cr3 s1 = cr3 s ∧ freed (tab_pages x) (ram s) (ram s1)).
  { by apply destroy_tab_ok. }
  destruct Hstep as (s1 & Hrun & Hc1 & Hf1).
  assert (Hfin : ∃ s2, destroy_pdes (length tabs) (a + 4) s1 = Ok (tt, s2) ∧ cr3 s2 = cr3 s1 ∧
                       freed (dir_pages tabs) (ram s1) (ram s2)).
  { apply IH; [exact (fr_ok _ _ _ Hf1)| |exact Hnd2| |exact Hcl].
    - eapply dir_at_freed; [exact Hok|exact Hf1|exact Hdir| |done|].
      + intros p Hp. specialize (Hclear p (proj2 (elem_of_app _ _ _) (or_introl Hp))).
        rewrite length_cons in Hclear. lia.
      + intros p Hp Hp'. by apply (Hdis p).
    - rewrite Forall_forall in Hu2 |- *. intros p Hp. eapply freed_used; [exact Hf1|by apply Hu2|].
      intros Hp'. by apply (Hdis p). }
  destruct Hfin as (s2 & Hrun2 & Hc2 & Hf2). exists s2. split; [|split; [congruence|by eapply freed_app]].
  apply run_bind_inv in Hrun as (w & s0 & Hl & Hbody). rewrite (run_bind_ok _ _ _ _ _ Hl).
  by rewrite (run_bind_ok _ _ _ _ _ Hbody).
Qed.

(** ** Properties *)

(** The page tables of [pd], read from memory. *)
Definition table_words (s : machine) (pt : Z) : list Z :=
  (λ t, default 0 (word (mem s) (pt + 4 * t))) <$> seqZ 0 1024.
Definition tables_of (s : machine) (pd : Z) : list (option (Z * list Z)) :=
  (λ d, match word (mem s) (pd + 4 * d) with
        | Some e => if e =? 0 then None
                    else let pt := PHYS_BASE + Z.land e PTE_ADDR in Some (pt, table_words s pt)
        | None => None
        end) <$> seqZ 0 768.

(** Every page [pagedir_destroy] gives back. *)
Definition all_pages (s : machine) (pd : Z) : list Z := dir_pages (tables_of s pd) ++ [pd].

Lemma table_words_at s pd d pt :
  pd_ok s pd → 0 ≤ d < 768 → table s pd d pt → kernel_page s pt → words_at (mem s) pt (table_words s pt).
Proof.
  intros Hok Hd Ht Hpt j w Hj. unfold table_words in Hj. apply list_lookup_fmap_Some in Hj as (t & -> & Hj).
  apply lookup_seqZ in Hj as [-> Hj]. replace (0 + Z.of_nat j) with (Z.of_nat j) in * by lia.
  destruct (proj2 (pd_table _ _ Hok d pt Hd Ht Hpt) (Z.of_nat j) ltac:(lia)) as (w & Hw & Hb).
  by rewrite Hw.
Qed.

Lemma tables_at s pd : pd_ok s pd → dir_at s pd (tables_of s pd).
Proof.
  intros Hok j x Hj. unfold tables_of in Hj. apply list_lookup_fmap_Some in Hj as (d & -> & Hj).
  apply lookup_seqZ in Hj as [-> Hj]. replace (0 + Z.of_nat j) with (Z.of_nat j) in * by lia.
  destruct (pd_entry _ _ Hok (Z.of_nat j) ltac:(lia)) as [E|(pt & Ht & Hpt)]; [by rewrite E|].
  assert (E := Ht). unfold table in E. rewrite E. destruct (pde_addr s pt (pd_ram _ _ Hok) Hpt) as (_ & Hnz & -> & _).
  rewrite (proj2 (Z.eqb_neq _ _) Hnz). cbn zeta. unfold tab_at. split; [done|]. split; [done|].
  split; [unfold table_words; by rewrite length_fmap, length_seqZ|]. eapply table_words_at; [done| |done|done]. lia.
Qed.

Lemma elem_of_dir_pages p tabs :
  p ∈ dir_pages tabs ↔ ∃ j pt ws, tabs !! j = Some (Some (pt, ws)) ∧ (p ∈ frames ws ∨ p = pt).
Proof.
  unfold dir_pages. induction tabs as [|x tabs IH].
  { split; [by intros ?%elem_of_nil|]. by intros (j & pt & ws & Hj & _). }
  rewrite fmap_cons. cbn [concat]. rewrite elem_of_app, IH. split.
  - intros [Hp|(j & pt & ws & Hj & Hp)]; [|by exists (S j), pt, ws].
    destruct x as [[pt ws]|]; [|by apply elem_of_nil in Hp]. exists 0%nat, pt, ws. split; [done|].
    simpl in Hp. apply elem_of_app in Hp as [?|?%list_elem_of_singleton]; auto.
  - intros ([|j] & pt & ws & Hj & Hp); [left|right; by exists j, pt, ws]. injection Hj as ->. simpl.
    apply elem_of_app. rewrite list_elem_of_singleton. done.
Qed.

(** The address with the given indices. *)
Lemma index_address d t : 0 ≤ d < 768 → 0 ≤ t < 1024 →
  let u := d * 2 ^ 22 + t * 2 ^ 12 in 0 ≤ u < PHYS_BASE ∧ pd_no u = d ∧ pt_no u = t.
Proof.
  intros Hd Ht u. assert (Hu : 0 ≤ u < PHYS_BASE) by (unfold u, PHYS_BASE; lia). split; [done|].
  rewrite pd_no_div, pt_no_div by lia. unfold u. split; divlia.
Qed.

Lemma pte_at_table s pd u pt :
  pd_ok s pd → table s pd (pd_no u) pt → kernel_page s pt →
  pte_at s pd u = default 0 (word (mem s) (pt + 4 * pt_no u)).
Proof.
  intros Hok Ht Hpt. unfold pte_at. rewrite Ht.
  destruct (pde_addr s pt (pd_ram _ _ Hok) Hpt) as (_ & Hnz & -> & _). by rewrite (proj2 (Z.eqb_neq _ _) Hnz).
Qed.

Lemma elem_of_table_frames s pd d pt p :
  pd_ok s pd → 0 ≤ d < 768 → table s pd d pt → kernel_page s pt →
  p ∈ frames (table_words s pt) ↔ ∃ u, 0 ≤ u < PHYS_BASE ∧ pd_no u = d ∧ m_page (view s pd u) = Some p.
Proof.
  intros Hok Hd Ht Hpt. unfold frames, table_words. rewrite list_elem_of_omap. split.
  - intros (w & Hw & Hp). apply list_elem_of_fmap in Hw as (t & -> & Htt%elem_of_seqZ).
    destruct (index_address d t Hd ltac:(lia)) as (Hu & E1 & E2). eexists. split; [exact Hu|]. split; [done|].
    unfold view. rewrite (pte_at_table s pd _ pt) by (done || by rewrite E1). by rewrite E2.
  - intros (u & Hu & E & Hp). destruct (index_bounds u Hu) as [_ Htn]. exists (pte_at s pd u). split; [|done].
    rewrite (pte_at_table s pd u pt) by (done || by rewrite E). apply list_elem_of_fmap. exists (pt_no u).
    split; [done|]. apply elem_of_seqZ. lia.
Qed.

(** The pages given back are those the directory maps and those it is made of. *)
Lemma elem_of_all_pages s pd p :
  pd_ok s pd →
  p ∈ all_pages s pd ↔ owns s pd p ∨ ∃ u, 0 ≤ u < PHYS_BASE ∧ m_page (view s pd u) = Some p.
Proof.
  intros Hok. unfold all_pages. rewrite elem_of_app, list_elem_of_singleton, elem_of_dir_pages.
  assert (Htab : ∀ j pt ws, tables_of s pd !! j = Some (Some (pt, ws)) ↔
    0 ≤ Z.of_nat j < 768 ∧ table s pd (Z.of_nat j) pt ∧ kernel_page s pt ∧ ws = table_words s pt).
  { intros j pt ws. split.
    - intros Hj. assert (Hat := tables_at s pd Hok j _ Hj). destruct Hat as (H1 & H2 & _).
      unfold tables_of in Hj. apply list_lookup_fmap_Some in Hj as (d & Hx & Hj). apply lookup_seqZ in Hj as [-> Hj].
      replace (0 + Z.of_nat j) with (Z.of_nat j) in * by lia. rewrite H1 in Hx.
      destruct (pde_addr s pt (pd_ram _ _ Hok) H2) as (_ & Hnz & E & _). rewrite (proj2 (Z.eqb_neq _ _) Hnz), E in Hx.
      injection Hx as ->. split; [lia|]. done.
    - intros (Hj & Ht & Hpt & ->). unfold tables_of. apply list_lookup_fmap_Some. exists (Z.of_nat j).
      split; [|apply lookup_seqZ; lia]. unfold table in Ht. rewrite Ht.
      destruct (pde_addr s pt (pd_ram _ _ Hok) Hpt) as (_ & Hnz & E & _). by rewrite (proj2 (Z.eqb_neq _ _) Hnz), E. }
  split.
  - intros [(j & pt & ws & (Hj & Ht & Hpt & ->)%Htab & [Hp| ->]) | ->].
    + right. apply (elem_of_table_frames s pd (Z.of_nat j) pt p Hok Hj Ht Hpt) in Hp as (u & Hu & _ & Hp). eauto.
    + left. right. exists (Z.of_nat j). done.
    + left. by left.
  - intros [[-> | (d & Hd & Ht & Hp)] | (u & Hu & Hp)]; [by right|left..].
    + exists (Z.to_nat d), p, (table_words s p). split; [|by right]. apply Htab. rewrite Z2Nat.id by lia. done.
    + destruct (index_bounds u Hu) as [Hd _]. destruct (pd_entry _ _ Hok (pd_no u) Hd) as [E|(pt & Ht & Hpt)].
      { exfalso. unfold view, pte_at in Hp. by rewrite E in Hp. }
      exists (Z.to_nat (pd_no u)), pt, (table_words s pt). rewrite <- (Z2Nat.id (pd_no u)) in Ht by lia.
      split; [by apply Htab; rewrite Z2Nat.id in * by lia|left]. rewrite Z2Nat.id in Ht by lia.
      apply (elem_of_table_frames s pd (pd_no u) pt p Hok Hd Ht Hpt). by exists u.
Qed.

(** [pagedir_destroy] gives back exactly the pages the directory maps,
    its page tables and the directory itself: when these are distinct pages in
    use, it succeeds, they are free afterwards, every other page of both pools
    is as it was, and memory outside them is untouched. *)
Theorem pagedir_destroy_correct init s pd :
  pd_ok s pd → pd ≠ init → NoDup (all_pages s pd) → Forall (used_page (ram s)) (all_pages s pd) →
  (∀ p, p ∈ all_pages s pd ↔ owns s pd p ∨ ∃ u, 0 ≤ u < PHYS_BASE ∧ m_page (view s pd u) = Some p) ∧
  ∃ s', pagedir_destroy init pd s = Ok (tt, s') ∧ cr3 s' = cr3 s ∧ freed (all_pages s pd) (ram s) (ram s').
Proof.
  intros Hok Hne Hnd Hused. split; [intros p; by apply elem_of_all_pages|].
  unfold all_pages in *. apply NoDup_app in Hnd as (Hnd & Hdis & _). apply Forall_app in Hused as [Hu Hupd].
  apply Forall_cons in Hupd as [Hupd _]. assert (Hram := pd_ram _ _ Hok).
  assert (Hlen : length (tables_of s pd) = Z.to_nat (pd_no PHYS_BASE)).
  { unfold tables_of. by rewrite length_fmap, length_seqZ. }
  destruct (destroy_pdes_ok (tables_of s pd) pd s Hram (tables_at s pd Hok) Hnd Hu) as (s1 & Hrun & Hc1 & Hf1).
  { intros p Hp. rewrite Hlen. change (4 * Z.of_nat (Z.to_nat (pd_no PHYS_BASE))) with 3072.
    rewrite Forall_forall in Hu. destruct (used_apart (ram s) p pd Hram (Hu p Hp) Hupd); [|rewrite PGSIZE_val in *; lia..].
    intros ->. apply (Hdis pd Hp). by apply list_elem_of_singleton. }
  destruct (free_page_ok s1 pd) as (s2 & Hfree & Hc2 & Hf2); [exact (fr_ok _ _ _ Hf1)| |].
  { eapply freed_used; [exact Hf1|exact Hupd|]. intros Hp. apply (Hdis pd Hp). by apply list_elem_of_singleton. }
  destruct (kernel_page_bounds s pd Hram (pd_page _ _ Hok)) as (_ & Hlo & _). unfold PHYS_BASE in Hlo.
  exists s2. split; [|split; [congruence|exact (freed_app _ _ _ _ _ Hf1 Hf2)]]. unfold pagedir_destroy.
  rewrite (proj2 (Z.eqb_neq pd NULL)) by (unfold NULL; lia).
  run_assert; [|by rewrite (proj2 (Z.eqb_neq _ _) Hne)]. rewrite <- Hlen.
  by rewrite (run_bind_ok _ _ _ _ _ Hrun).
Qed.

End PagedirDestroy.

(** * A page directory on a small machine

    Instances of the properties of page tables: a machine whose first kernel
    page is the initial page directory and whose second is a new one. *)

Module PagedirDemo.
Import Palloc PallocSpec Pagedir PagedirInv PagedirRun PagedirSpec PagedirDestroy.

(** Both pages are cleared. *)
Definition demo_init : Z := 0xc0101000.
Definition demo_pd : Z := 0xc0102000.
Definition demo_ram : palloc :=
  MkPalloc (MkPool (Bitmap.MkBitmap 33 [3; 0]) 0xc0101000)
           (MkPool (Bitmap.MkBitmap 1 [0]) 0xc0123000) (memset demo_init 0 (2 * PGSIZE) ∅).
Definition demo_machine : machine := MkMachine demo_ram 0x101000.

Lemma demo_ram_ok : palloc_ok demo_ram.
Proof.
  assert (Hwf : ∀ w, Bitmap.wf (used_map (pool_of w demo_ram))).
  { intros []; (split; [simpl; lia|]; split; [reflexivity|]); repeat constructor; unfold in_u32; lia. }
  constructor; [exact Hwf|intros []; reflexivity| | |].
  - intros []; unfold PHYS_BASE; simpl; lia.
  - intros []; unfold page, npages; rewrite PGSIZE_val; simpl; lia.
  - unfold page, npages; rewrite PGSIZE_val; simpl; lia.
Qed.

Lemma demo_kernel_page i : 0 ≤ i < 2 → kernel_page demo_machine (0xc0101000 + 4096 * i).
Proof.
  intros Hi. exists i. split; [|reflexivity]. split; [lia|]. split; [unfold npages; simpl; lia|].
  intros k Hk. assert (k = 0 ∨ k = 1) as [-> | ->] by lia; reflexivity.
Qed.

Lemma demo_word a : demo_init ≤ a → a + 4 ≤ demo_init + 2 * PGSIZE → word (mem demo_machine) a = Some 0.
Proof.
  intros H1 H2. unfold word. change (mem demo_machine) with (memset demo_init 0 (2 * PGSIZE) ∅).
  rewrite !memset_lookup by (rewrite PGSIZE_val; lia).
  rewrite !(proj2 (in_range_spec demo_init (2 * PGSIZE) _)) by lia. reflexivity.
Qed.

Lemma demo_pd_ok : pd_ok demo_machine demo_pd.
Proof.
  assert (Hpde : ∀ d, 0 ≤ d < 768 → word (mem demo_machine) (demo_pd + 4 * d) = Some 0).
  { intros d Hd. apply demo_word; unfold demo_pd, demo_init; rewrite ?PGSIZE_val; lia. }
  assert (Hnot : ∀ d pt, 0 ≤ d < 768 → kernel_page demo_machine pt → ¬ table demo_machine demo_pd d pt).
  { intros d pt Hd Hpt Ht. unfold table in Ht. rewrite Hpde in Ht by exact Hd. injection Ht as E.
    destruct (pde_addr demo_machine pt demo_ram_ok Hpt) as (_ & Hnz & _). exact (Hnz (eq_sym E)). }
  constructor.
  - exact demo_ram_ok.
  - exact (demo_kernel_page 1 ltac:(lia)).
  - intros d Hd. left. exact (Hpde d Hd).
  - intros d pt Hd Ht Hpt. destruct (Hnot d pt Hd Hpt Ht).
  - intros d d' pt Hd Hd' Hpt Ht _. destruct (Hnot d pt Hd Hpt Ht).
Qed.

Lemma demo_cr3_ok : cr3_ok demo_machine.
Proof. unfold cr3_ok. simpl. lia. Qed.

Lemma demo_view u : 0 ≤ u < PHYS_BASE → view demo_machine demo_pd u = Mapping None false false false.
Proof.
  intros Hu. destruct (index_bounds u Hu) as [Hd _]. unfold view, pte_at.
  rewrite demo_word by (unfold demo_pd, demo_init; rewrite ?PGSIZE_val; lia). reflexivity.
Qed.

(** Mapping the first user page at 128 MB, where programs start. *)
Lemma pagedir_refines_map_witness :
  pagedir_get_page demo_pd 0x8048123 demo_machine = Ok (NULL, demo_machine) ∧
  ((pagedir_set_page demo_init 300 demo_pd 0x8048000 0xc0123000 true demo_machine = Ok (false, demo_machine)) ∨
   ∃ s', pagedir_set_page demo_init 300 demo_pd 0x8048000 0xc0123000 true demo_machine = Ok (true, s') ∧
         view s' demo_pd 0x8048123 = Mapping (Some 0xc0123000) true false false).
Proof.
  destruct (pagedir_refines_map demo_init 300 demo_machine demo_pd 0x8048123 demo_pd_ok demo_cr3_ok) as (H1 & _);
    [unfold PHYS_BASE; lia|].
  split; [rewrite demo_view in H1 by (unfold PHYS_BASE; lia); exact H1|].
  destruct (pagedir_refines_map demo_init 300 demo_machine demo_pd 0x8048000 demo_pd_ok demo_cr3_ok)
    as (_ & _ & _ & _ & _ & _ & H2 & _); [unfold PHYS_BASE; lia|].
  destruct (H2 0xc0123000 true) as [[H3 _]|(s' & H3 & _ & _ & _ & H4)];
    [reflexivity|unfold PHYS_BASE; lia|reflexivity|unfold PHYS_BASE; rewrite PGSIZE_val; reflexivity
    |unfold demo_pd, demo_init; lia|rewrite demo_view by (unfold PHYS_BASE; lia); reflexivity| |].
  - left. exact H3.
  - right. exists s'. split; [exact H3|]. rewrite H4 by (unfold PHYS_BASE; lia). reflexivity.
Defined.

Lemma demo_all_pages : all_pages demo_machine demo_pd = [demo_pd].
Proof.
  unfold all_pages. assert (E : dir_pages (tables_of demo_machine demo_pd) = []); [|rewrite E; reflexivity].
  apply elem_of_nil_inv. intros p Hp. apply elem_of_dir_pages in Hp as (j & pt & ws & Hj & _).
  unfold tables_of in Hj. apply list_lookup_fmap_Some in Hj as (d & Hx & Hj). apply lookup_seqZ in Hj as [-> Hj].
  rewrite demo_word in Hx by (unfold demo_pd, demo_init; rewrite ?PGSIZE_val; lia). discriminate Hx.
Qed.

Lemma pagedir_destroy_correct_witness :
  ∃ s', pagedir_destroy demo_init demo_pd demo_machine = Ok (tt, s') ∧ in_use Kernel (ram s') 1 = false.
Proof.
  destruct (pagedir_destroy_correct demo_init demo_machine demo_pd demo_pd_ok) as (_ & s' & H1 & _ & H2).
  - unfold demo_pd, demo_init. lia.
  - rewrite demo_all_pages. apply NoDup_singleton.
  - rewrite demo_all_pages. apply Forall_cons. split; [|apply Forall_nil; exact I]. exists Kernel.
    destruct (demo_kernel_page 1 ltac:(lia)) as (i & Hi). exists i. exact Hi.
  - exists s'. split; [exact H1|]. rewrite (fr_use _ _ _ H2) by (unfold npages; simpl; lia).
    rewrite demo_all_pages. rewrite bool_decide_true; [reflexivity|]. apply list_elem_of_singleton. reflexivity.
Defined.

End PagedirDemo.
