(* ===== verification/Mmu.v ===== *)
(** * Memory as virtual memory management sees it

    [vm/frame.c] and [vm/page.c] use page frames, page directories and the
    bytes of frames.  The class [Mmu] is what they rely on: the operations of
    [threads/palloc.c] and [userprog/pagedir.c], the kernel's access to a frame
    through its own mapping, and the processor's access through a page
    directory, with their effect on an abstract state: what each directory
    maps, what each frame in use holds, and which frames the kernel has written
    through its own mapping (the dirty bits of the kernel's page tables). *)
From S2P Require Import Prelude CInt Palloc Pagedir PagedirSpec.

Open Scope Z_scope.

Export PagedirSpec (mapping, Mapping, m_page, m_writable, m_accessed, m_dirty, unmap, set_dirty, set_accessed).

Definition PGSIZE_nat : nat := 4096.

Record mmu := MkMmu {
  dirs : gset Z;
  maps : Z → Z → mapping;
  frames : gmap Z (list Z);
  kdirty : gset Z
}.

(** A page of the user's part of the address space. *)
Definition user_page (u : Z) : Prop := 0 ≤ u < PHYS_BASE ∧ u mod PGSIZE = 0.

Definition no_mapping : mapping := Mapping None false false false.

Definition map_at (pd u : Z) (f : mapping → mapping) (m : mmu) : mmu :=
  MkMmu (dirs m) (λ pd' u', if (pd' =? pd) && (u' =? u) then f (maps m pd' u') else maps m pd' u')
        (frames m) (kdirty m).
Definition with_frame (k : Z) (d : list Z) (m : mmu) : mmu :=
  MkMmu (dirs m) (maps m) (<[k := d]> (frames m)) (kdirty m).
(** The kernel writes a frame. *)
Definition kernel_write (k : Z) (d : list Z) (m : mmu) : mmu :=
  MkMmu (dirs m) (maps m) (<[k := d]> (frames m)) ({[k]} ∪ kdirty m).
Definition drop_frame (k : Z) (m : mmu) : mmu :=
  MkMmu (dirs m) (maps m) (delete k (frames m)) (kdirty m).

(** [d] with [bs] from [ofs] on. *)
Definition patch (ofs : nat) (bs d : list Z) : list Z := take ofs d ++ bs ++ drop (ofs + length bs) d.

(** The outcome of an access by the processor. *)
Inductive access A := Done (a : A) | NotPresent | ReadOnly.
Arguments Done {A}.
Arguments NotPresent {A}.
Arguments ReadOnly {A}.

Class Mmu (H : Type) := {
  palloc_get_page : Z → ST H Z;
  palloc_free_page : Z → ST H unit;
  pagedir_get_page : Z → Z → ST H Z;
  pagedir_set_page : Z → Z → Z → bool → ST H bool;
  pagedir_clear_page : Z → Z → ST H unit;
  pagedir_is_dirty : Z → Z → ST H bool;
  pagedir_is_accessed : Z → Z → ST H bool;
  pagedir_set_accessed : Z → Z → bool → ST H unit;
  (** The kernel reads a frame, and writes bytes into one at an offset. *)
  frame_read : Z → ST H (list Z);
  frame_write : Z → Z → list Z → ST H unit;
  (** The processor reads and writes a byte. *)
  cpu_read : Z → Z → ST H (access Z);
  cpu_write : Z → Z → Z → ST H (access unit);

  mm_rep : H → mmu → Prop;
  (** There is memory for another page table. *)
  mm_room : H → Prop;

  mm_frame_wf h m k d : mm_rep h m → frames m !! k = Some d →
    length d = PGSIZE_nat ∧ k mod PGSIZE = 0 ∧ PHYS_BASE ≤ k < 2 ^ 32;
  mm_get h m : mm_rep h m →
    palloc_get_page (Z.lor Palloc.PAL_USER Palloc.PAL_ZERO) h = Ok (Palloc.NULL, h) ∨
    ∃ k h', palloc_get_page (Z.lor Palloc.PAL_USER Palloc.PAL_ZERO) h = Ok (k, h') ∧ k ≠ Palloc.NULL ∧
      frames m !! k = None ∧ mm_rep h' (kernel_write k (replicate PGSIZE_nat 0) m) ∧ (mm_room h → mm_room h');
  mm_free h m k d : mm_rep h m → frames m !! k = Some d →
    ∃ h', palloc_free_page k h = Ok (tt, h') ∧ mm_rep h' (drop_frame k m) ∧ (mm_room h → mm_room h');
  mm_get_page h m pd u : mm_rep h m → pd ∈ dirs m → user_page u →
    pagedir_get_page pd u h = Ok (default Palloc.NULL (m_page (maps m pd u)), h);
  mm_set_page h m pd u k w d : mm_rep h m → pd ∈ dirs m → user_page u → frames m !! k = Some d →
    m_page (maps m pd u) = None →
    (¬ mm_room h ∧ pagedir_set_page pd u k w h = Ok (false, h)) ∨
    ∃ h', pagedir_set_page pd u k w h = Ok (true, h') ∧
      mm_rep h' (map_at pd u (λ _, Mapping (Some k) w false false) m);
  mm_clear h m pd u : mm_rep h m → pd ∈ dirs m → user_page u →
    ∃ h', pagedir_clear_page pd u h = Ok (tt, h') ∧ mm_rep h' (map_at pd u unmap m) ∧ (mm_room h → mm_room h');
  mm_is_dirty h m pd u : mm_rep h m → pd ∈ dirs m → user_page u →
    pagedir_is_dirty pd u h = Ok (m_dirty (maps m pd u), h);
  mm_is_kdirty h m pd k d : mm_rep h m → pd ∈ dirs m → frames m !! k = Some d →
    pagedir_is_dirty pd k h = Ok (bool_decide (k ∈ kdirty m), h);
  mm_is_accessed h m pd u : mm_rep h m → pd ∈ dirs m → user_page u →
    pagedir_is_accessed pd u h = Ok (m_accessed (maps m pd u), h);
  mm_clear_accessed h m pd u : mm_rep h m → pd ∈ dirs m → user_page u →
    ∃ h', pagedir_set_accessed pd u false h = Ok (tt, h') ∧ mm_rep h' (map_at pd u (set_accessed false) m) ∧
      (mm_room h → mm_room h');
  mm_read h m k d : mm_rep h m → frames m !! k = Some d → frame_read k h = Ok (d, h);
  mm_write h m k d ofs bs : mm_rep h m → frames m !! k = Some d →
    0 ≤ ofs → ofs + Z.of_nat (length bs) ≤ PGSIZE →
    ∃ h', frame_write k ofs bs h = Ok (tt, h') ∧ mm_rep h' (kernel_write k (patch (Z.to_nat ofs) bs d) m) ∧
      (mm_room h → mm_room h');
  mm_cpu_read h m pd a : mm_rep h m → pd ∈ dirs m → 0 ≤ a < PHYS_BASE →
    let u := pg_round_down a in
    match m_page (maps m pd u) with
    | None => cpu_read pd a h = Ok (NotPresent, h)
    | Some k => ∀ d, frames m !! k = Some d →
        ∃ h', cpu_read pd a h = Ok (Done (default 0 (d !! Z.to_nat (pg_ofs a))), h') ∧
          mm_rep h' (map_at pd u (set_accessed true) m) ∧ (mm_room h → mm_room h')
    end;
  mm_cpu_write h m pd a v : mm_rep h m → pd ∈ dirs m → 0 ≤ a < PHYS_BASE →
    let u := pg_round_down a in
    match m_page (maps m pd u) with
    | None => cpu_write pd a v h = Ok (NotPresent, h)
    | Some k => ∀ d, frames m !! k = Some d →
        if m_writable (maps m pd u) then
          ∃ h', cpu_write pd a v h = Ok (Done tt, h') ∧
            mm_rep h' (map_at pd u (λ x, set_dirty true (set_accessed true x))
                         (with_frame k (<[Z.to_nat (pg_ofs a) := v]> d) m)) ∧ (mm_room h → mm_room h')
        else cpu_write pd a v h = Ok (ReadOnly, h)
    end
}.
