(* ===== verification/MmuMachine.v ===== *)
(** * The page allocator and the page tables implement [Mmu]

    The machine of [Pagedir], with the dirty bits of the kernel's own page
    tables as a set: the kernel's mapping of a frame is shared by all page
    directories, and a write through it sets the bit.  The processor walks the
    page tables and sets the accessed and dirty bits as the IA-32 manual says
    ([IA32-v3a] 3.7.6). *)
From S2P Require Import Prelude CInt Bitmap Palloc PallocSpec Pagedir PagedirRun PagedirSpec PagedirDestroy Mmu.

Open Scope Z_scope.

Module MmuMachine.
Import Palloc (NULL, PAL_USER, PAL_ZERO, PAL_ASSERT, palloc, bytes, with_bytes, pool_of, user_pool, kernel_pool, Kernel, User, has_flag).
Import PallocSpec.
Import Pagedir (pt_no, pd_no, machine, MkMachine, ram, cr3, on_ram, with_ram, lookup_page, load, store, pte_get_page, PTE_P, PTE_W, PTE_A, PTE_D).
Import PagedirInv PagedirRun.
Import PagedirSpec (view, decode, remapped, cr3_ok, has_table, store_flags_ok).
Import PagedirDestroy (used_page, freed, free_page_ok, pages_apart, page_pool).

(** [init_page_dir] and [init_ram_pages] are those of the machine. *)
Record hw (init_page_dir init_ram_pages : Z) := MkHw { mach : machine; kernel_dirty : gset Z }.
Arguments MkHw {_ _}.
Arguments mach {_ _}.
Arguments kernel_dirty {_ _}.

Section hw.
Context {init_page_dir init_ram_pages : Z}.
Abbreviation hw := (hw init_page_dir init_ram_pages).
Abbreviation M := (ST hw).

Definition set_mach (x : machine) (h : hw) : hw := MkHw x (kernel_dirty h).
Definition on_mach {A} : ST machine A → M A := zoom mach set_mach.
(** The kernel writes to the frame [k]. *)
Definition touch (k : Z) : M unit := modify (λ h, MkHw (mach h) ({[k]} ∪ kernel_dirty h)).

Definition hw_get_page (flags : Z) : M Z :=
  k ← on_mach (on_ram (Palloc.palloc_get_page flags));
  (if negb (k =? NULL) && has_flag flags PAL_ZERO then touch k else mret tt) ;; mret k.
Definition hw_free_page (k : Z) : M unit := on_mach (on_ram (Palloc.palloc_free_page k)) ;; touch k.
Definition hw_is_dirty (pd v : Z) : M bool :=
  if is_user_vaddr v then on_mach (Pagedir.pagedir_is_dirty pd v) else gets (λ h, bool_decide (v ∈ kernel_dirty h)).

(** The bytes of a frame. *)
Definition bytes_at (m : gmap Z Z) (k : Z) (n : nat) : option (list Z) := mapM (λ i, m !! (k + Z.of_nat i)) (seq 0 n).
Definition hw_frame_read (k : Z) : M (list Z) := h ← get; deref (bytes_at (mem (mach h)) k PGSIZE_nat).
Fixpoint put_bytes (bs : list Z) (a : Z) (m : gmap Z Z) : gmap Z Z :=
  match bs with [] => m | b :: bs => put_bytes bs (a + 1) (<[a := b]> m) end.
Definition write_mem (bs : list Z) (a : Z) (s : machine) : machine :=
  with_ram (with_bytes (put_bytes bs a (mem s)) (ram s)) s.
Definition hw_frame_write (k ofs : Z) (bs : list Z) : M unit :=
  on_mach (modify (write_mem bs (k + ofs))) ;; touch k.

(** The processor's translation of a user address: the address of the page
    table entry and the entry, if it is present. *)
Definition walk (pd a : Z) : ST machine (option (Z * Z)) :=
  pte ← lookup_page pd a false;
  if pte =? NULL then mret None
  else w ← load pte; mret (if Z.land w PTE_P =? 0 then None else Some (pte, w)).
Definition hw_cpu_read (pd a : Z) : M (access Z) := on_mach (
  t ← walk pd a;
  match t with
  | None => mret NotPresent
  | Some (pte, w) =>
    p ← pte_get_page w; s ← get; b ← deref (mem s !! (p + pg_ofs a));
    store pte (Z.lor w PTE_A) ;; mret (Done b)
  end).
Definition hw_cpu_write (pd a v : Z) : M (access unit) := on_mach (
  t ← walk pd a;
  match t with
  | None => mret NotPresent
  | Some (pte, w) =>
    if Z.land w PTE_W =? 0 then mret ReadOnly else
    p ← pte_get_page w;
    store pte (Z.lor (Z.lor w PTE_A) PTE_D) ;;
    modify (write_mem [v] (p + pg_ofs a)) ;; mret (Done tt)
  end).

(** ** What the machine represents *)

(** A page of the user pool that is in use. *)
Definition user_frame (s : machine) (k : Z) : Prop := ∃ i, run User (ram s) i 1 true ∧ k = page User (ram s) i.

Record hw_rep (h : hw) (m : mmu) : Prop := MkRep {
  r_ram : palloc_ok (ram (mach h));
  r_cr3 : cr3_ok (mach h);
  r_dir pd : pd ∈ dirs m → pd_ok (mach h) pd ∧ pd ≠ init_page_dir ∧ ∀ u, user_page u → view (mach h) pd u = maps m pd u;
  r_apart pd pd' p : pd ∈ dirs m → pd' ∈ dirs m → owns (mach h) pd p → owns (mach h) pd' p → pd = pd';
  r_frame k : is_Some (frames m !! k) ↔ user_frame (mach h) k;
  r_bytes k d : frames m !! k = Some d → length d = PGSIZE_nat ∧ ∀ i, 0 ≤ i < PGSIZE → mem (mach h) !! (k + i) = d !! Z.to_nat i;
  r_dirty k : is_Some (frames m !! k) → k ∈ kernel_dirty h ↔ k ∈ kdirty m;
  r_limit i : 0 ≤ i < npages User (ram (mach h)) → (page User (ram (mach h)) i - PHYS_BASE) / PGSIZE < init_ram_pages
}.

Definition hw_room (h : hw) : Prop := ∃ i, run Kernel (ram (mach h)) i 1 false.

(** ** Changes that keep the representation *)

Lemma frame_bounds s k : palloc_ok (ram s) → user_frame s k →
  k mod PGSIZE = 0 ∧ PHYS_BASE ≤ k ∧ k + PGSIZE < 2 ^ 32.
Proof. intros Hok (i & (Hi & Hn & _) & ->). split; [by apply page_aligned|]. apply page_bounds; [done|lia]. Qed.

(** Kernel pages lie below the user pool. *)
Lemma frame_above s k p : palloc_ok (ram s) → user_frame s k → kernel_page s p → p + PGSIZE ≤ k.
Proof.
  intros Hok (i & (Hi & Hn & _) & ->) (j & (Hj & Hjn & _) & ->). assert (Hap := ok_apart _ Hok).
  unfold page in *. simpl pool_of in *. rewrite PGSIZE_val in *. lia.
Qed.

Lemma frames_disjoint s k k' : user_frame s k → user_frame s k' → k ≠ k' → k + PGSIZE ≤ k' ∨ k' + PGSIZE ≤ k.
Proof.
  intros (i & _ & ->) (j & _ & ->) Hne. unfold page in *. rewrite PGSIZE_val in *.
  destruct (Z.lt_trichotomy i j) as [?|[->|?]]; [lia|congruence|lia].
Qed.

Lemma user_frame_pool s s' k : user_pool (ram s') = user_pool (ram s) → user_frame s' k ↔ user_frame s k.
Proof.
  intros E. unfold user_frame, run, npages, in_use, page.
  change (pool_of User (ram s')) with (user_pool (ram s')). change (pool_of User (ram s)) with (user_pool (ram s)). by rewrite E.
Qed.

(** Directories whose pages have not changed. *)
Lemma dirs_same (h : hw) m s' :
  hw_rep h m → palloc_ok (ram s') → (∀ p, kernel_page (mach h) p → kernel_page s' p) →
  (∀ p a, kernel_page (mach h) p → p ≤ a < p + PGSIZE → mem s' !! a = mem (mach h) !! a) →
  (∀ pd, pd ∈ dirs m → pd_ok s' pd ∧ pd ≠ init_page_dir ∧ ∀ u, user_page u → view s' pd u = maps m pd u) ∧
  (∀ pd pd' p, pd ∈ dirs m → pd' ∈ dirs m → owns s' pd p → owns s' pd' p → pd = pd').
Proof.
  intros Hr Hok Hkp Hmem.
  assert (Hloc : ∀ pd, pd ∈ dirs m → pd_ok s' pd ∧ (∀ u, 0 ≤ u < PHYS_BASE → pte_at s' pd u = pte_at (mach h) pd u) ∧
                       (∀ p, owns s' pd p ↔ owns (mach h) pd p)).
  { intros pd Hpd. destruct (r_dir _ _ Hr pd Hpd) as (Hpdok & _ & _). apply pd_local; [done|done| |].
    - intros p Ho. by apply Hkp, (owns_kernel _ pd).
    - intros p a Ho Ha. apply (Hmem p); [by apply (owns_kernel _ pd)|done]. }
  split.
  - intros pd Hpd. destruct (Hloc pd Hpd) as (H1 & H2 & _), (r_dir _ _ Hr pd Hpd) as (_ & Hne & Hv). split; [done|]. split; [done|].
    intros u Hu. rewrite <- (Hv u Hu). unfold view. by rewrite H2 by apply Hu.
  - intros pd pd' p Hpd Hpd' Ho Ho'. destruct (Hloc pd Hpd) as (_ & _ & H1), (Hloc pd' Hpd') as (_ & _ & H2).
    apply (r_apart _ _ Hr pd pd' p); [done..|by apply H1|by apply H2].
Qed.

(** A page table entry of one directory has changed. *)
Lemma rep_remapped (h : hw) m pd u f s' :
  hw_rep h m → pd ∈ dirs m → user_page u → remapped (mach h) pd u f s' → hw_rep (set_mach s' h) (map_at pd u f m).
Proof.
  intros Hr Hpd Hu (Hok' & Hon & Hc & Hview). destruct (r_dir _ _ Hr pd Hpd) as (Hok & Hne & Hv).
  assert (Hram := r_ram _ _ Hr).
  assert (Hiso : ∀ pd', pd' ∈ dirs m → pd' ≠ pd → pd_ok s' pd' ∧ (∀ v, 0 ≤ v < PHYS_BASE → pte_at s' pd' v = pte_at (mach h) pd' v) ∧
                   (∀ p, owns s' pd' p ↔ owns (mach h) pd' p)).
  { intros pd' Hpd' Hne'. destruct (r_dir _ _ Hr pd' Hpd') as (Hok2 & _ & _). apply pd_local; [done|apply Hon| |].
    - intros p Ho. by apply (on_kernel _ _ _ Hon), (owns_kernel _ pd').
    - intros p a Ho Ha. apply (on_mem _ _ _ Hon p); [by apply (owns_kernel _ pd')| |done].
      intros Ho'. apply Hne'. by apply (r_apart _ _ Hr pd' pd p). }
  assert (Hown : ∀ p, owns s' pd p → owns (mach h) pd p ∨ ¬ kernel_page (mach h) p) by apply Hon.
  constructor; simpl.
  - apply Hon.
  - exact Hc.
  - intros pd' Hpd'. destruct (Z.eqb_spec pd' pd) as [->|Hne'].
    + split; [done|]. split; [done|]. intros v Hvv. rewrite Hview by apply Hvv. rewrite (Hv v Hvv). simpl.
      destruct (Z.eqb_spec v u) as [->|Hvu]; [by rewrite Z.eqb_refl|].
      destruct (Z.eqb_spec (pg_no v) (pg_no u)) as [E|]; [|done]. exfalso. apply Hvu. rewrite !pg_no_div in E.
      destruct Hu as [_ Hu], Hvv as [_ Hvv]. rewrite PGSIZE_val in *. divlia.
    + destruct (Hiso pd' Hpd' Hne') as (H1 & H2 & _), (r_dir _ _ Hr pd' Hpd') as (_ & Hi & Hv'). split; [done|]. split; [done|].
      intros v Hvv. simpl. rewrite <- (Hv' v Hvv). unfold view. by rewrite H2 by apply Hvv.
  - intros p1 p2 p Hp1 Hp2 Ho1 Ho2. destruct (Z.eqb_spec p1 pd) as [->|Hn1], (Z.eqb_spec p2 pd) as [->|Hn2]; [done| | |].
    + destruct (Hiso p2 Hp2 Hn2) as (_ & _ & H2). apply H2 in Ho2. destruct (Hown p Ho1) as [?|Hk].
      * by apply (r_apart _ _ Hr pd p2 p).
      * destruct Hk. apply (owns_kernel _ p2); [|done]. by apply (r_dir _ _ Hr p2).
    + destruct (Hiso p1 Hp1 Hn1) as (_ & _ & H1). apply H1 in Ho1. destruct (Hown p Ho2) as [?|Hk].
      * by apply (r_apart _ _ Hr p1 pd p).
      * destruct Hk. apply (owns_kernel _ p1); [|done]. by apply (r_dir _ _ Hr p1).
    + destruct (Hiso p1 Hp1 Hn1) as (_ & _ & H1), (Hiso p2 Hp2 Hn2) as (_ & _ & H2).
      apply (r_apart _ _ Hr p1 p2 p); [done..|by apply H1|by apply H2].
  - intros k. rewrite (r_frame _ _ Hr). symmetry. apply user_frame_pool. apply Hon.
  - intros k d Hd. destruct (r_bytes _ _ Hr k d Hd) as [Hlen Hb]. split; [done|]. intros i Hi. rewrite <- Hb by done.
    apply (on_outside _ _ _ Hon). intros p Hp Hr'.
    assert (Hk : user_frame s' k) by (apply (user_frame_pool (mach h) s' k); [apply Hon|]; apply (r_frame _ _ Hr); by exists d).
    assert (Hab := frame_above s' k p (on_ok _ _ _ Hon) Hk Hp). lia.
  - apply Hr.
  - intros i Hi. unfold npages, page in *. change (pool_of User (ram s')) with (user_pool (ram s')) in *.
    rewrite (on_user _ _ _ Hon) in *. by apply (r_limit _ _ Hr).
Qed.

(** Frames have changed, but no kernel page. *)
Lemma rep_frames (h : hw) m s' kd fr kdm :
  hw_rep h m → palloc_ok (ram s') → cr3 s' = cr3 (mach h) →
  (∀ i v, run Kernel (ram s') i 1 v ↔ run Kernel (ram (mach h)) i 1 v) →
  (∀ w, npages w (ram s') = npages w (ram (mach h))) → (∀ w k, page w (ram s') k = page w (ram (mach h)) k) →
  (∀ p a, kernel_page (mach h) p → p ≤ a < p + PGSIZE → mem s' !! a = mem (mach h) !! a) →
  (∀ k, is_Some (fr !! k) ↔ user_frame s' k) →
  (∀ k d, fr !! k = Some d → length d = PGSIZE_nat ∧ ∀ i, 0 ≤ i < PGSIZE → mem s' !! (k + i) = d !! Z.to_nat i) →
  (∀ k, is_Some (fr !! k) → k ∈ kd ↔ k ∈ kdm) →
  hw_rep (MkHw s' kd) (MkMmu (dirs m) (maps m) fr kdm) ∧ (hw_room h → hw_room (MkHw s' kd)).
Proof.
  intros Hr Hok Hc Hrun Hn Hpg Hmem Hf Hb Hd.
  assert (Hkp : ∀ p, kernel_page (mach h) p → kernel_page s' p).
  { intros p (i & Hi & ->). exists i. split; [by apply Hrun|by rewrite Hpg]. }
  destruct (dirs_same h m s' Hr Hok Hkp Hmem) as [H1 H2]. split.
  - constructor; simpl; try done.
    + unfold cr3_ok. rewrite Hc. apply Hr.
    + intros i Hi. rewrite Hpg. apply (r_limit _ _ Hr). by rewrite <- Hn.
  - intros [i Hi]. exists i. by apply Hrun.
Qed.

(** ** Bytes *)
Lemma put_bytes_lookup bs a m q :
  put_bytes bs a m !! q = if in_range a (Z.of_nat (length bs)) q then bs !! Z.to_nat (q - a) else m !! q.
Proof.
  revert a m. induction bs as [|b bs IH]; intros a m; cbn [put_bytes length].
  { by rewrite in_range_out by lia. }
  rewrite IH. destruct (decide (q = a)) as [->|Hne].
  - rewrite in_range_out, lookup_insert_eq by lia. rewrite (proj2 (in_range_spec a (Z.of_nat (S (length bs))) a)) by lia.
    by rewrite Z.sub_diag.
  - rewrite lookup_insert_ne by done. destruct (in_range (a + 1) (Z.of_nat (length bs)) q) eqn:E.
    + apply in_range_spec in E. rewrite (proj2 (in_range_spec a (Z.of_nat (S (length bs))) q)) by lia.
      replace (Z.to_nat (q - a)) with (S (Z.to_nat (q - (a + 1)))) by lia. done.
    + rewrite (in_range_out a); [done|]. intros Hr. apply not_true_iff_false in E. apply E, in_range_spec. lia.
Qed.

Lemma bytes_at_Some m k d : (∀ i, 0 ≤ i < Z.of_nat (length d) → m !! (k + i) = d !! Z.to_nat i) → bytes_at m k (length d) = Some d.
Proof.
  intros Hm. apply mapM_Some_2, Forall2_same_length_lookup_2; [apply length_seq|].
  intros i j y Hj Hy. apply lookup_seq in Hj as [-> Hi]. simpl. rewrite Hm by lia. by rewrite Nat2Z.id.
Qed.

(** ** Frames *)
Lemma user_zero_flags : pool_for (Z.lor PAL_USER PAL_ZERO) = User ∧ has_flag (Z.lor PAL_USER PAL_ZERO) PAL_ZERO = true ∧
  has_flag (Z.lor PAL_USER PAL_ZERO) PAL_ASSERT = false.
Proof. done. Qed.

Lemma changed_run i v r r' (j : Z) (b : bool) :
  palloc_ok r → changed User i 1 v r r' → run Kernel r' j 1 b ↔ run Kernel r j 1 b.
Proof.
  intros Hok Hch. unfold run. rewrite (ch_size _ _ _ _ _ _ Hch).
  split; intros (H1 & H2 & H3); (split; [done|]); (split; [done|]); intros k Hk; specialize (H3 k Hk);
    rewrite (ch_use _ _ _ _ _ _ Hch Kernel k) in * by lia; by rewrite bool_decide_false in *.
Qed.

Lemma changed_frame i v s s' k :
  changed User i 1 v (ram s) (ram s') → 0 ≤ i < npages User (ram s) →
  user_frame s' k ↔ if bool_decide (k = page User (ram s) i) then v = true else user_frame s k.
Proof.
  intros Hch Hi. assert (Hpg := changed_page _ _ _ _ _ _ User i Hch). unfold user_frame.
  assert (Hr : ∀ j, run User (ram s') j 1 true ↔ if bool_decide (j = i) then v = true else run User (ram s) j 1 true).
  { intros j. unfold run. rewrite (ch_size _ _ _ _ _ _ Hch). split.
    - intros (H1 & H2 & H3). specialize (H3 j ltac:(lia)). rewrite (ch_use _ _ _ _ _ _ Hch) in H3 by lia.
      rewrite bool_decide_true in H3 by done. simpl in H3. case_bool_decide as E.
      + subst j. by rewrite (proj2 (in_range_spec i 1 i)) in H3 by lia.
      + rewrite in_range_out in H3 by lia. split; [done|]. split; [done|]. intros k' Hk'. by replace k' with j by lia.
    - case_bool_decide as E.
      + intros ->. subst j. split; [lia|]. split; [lia|]. intros k' Hk'. rewrite (ch_use _ _ _ _ _ _ Hch) by lia.
        rewrite bool_decide_true by done. by rewrite (proj2 (in_range_spec i 1 k')) by lia.
      + intros (H1 & H2 & H3). split; [done|]. split; [done|]. intros k' Hk'. rewrite (ch_use _ _ _ _ _ _ Hch) by lia.
        rewrite bool_decide_true by done. rewrite in_range_out by lia. by apply H3. }
  split.
  - intros (j & Hj & ->). rewrite (changed_page _ _ _ _ _ _ User j Hch). apply Hr in Hj. destruct (decide (j = i)) as [->|E].
    + rewrite bool_decide_true in Hj by done. by rewrite bool_decide_true.
    + rewrite bool_decide_false in Hj by done. rewrite bool_decide_false by (by intros ?%page_inj). by exists j.
  - case_bool_decide as E.
    + intros Hv. exists i. split; [apply Hr; by rewrite bool_decide_true|by rewrite E, Hpg].
    + intros (j & Hj & ->). exists j. split; [|symmetry; apply (changed_page _ _ _ _ _ _ User j Hch)].
      apply Hr. rewrite bool_decide_false; [done|]. by intros ->.
Qed.

Lemma frame_zero k (d mm : gmap Z Z) : (∀ q, mm !! q = if in_range k PGSIZE q then Some 0 else d !! q) →
  ∀ i, 0 ≤ i < PGSIZE → mm !! (k + i) = replicate PGSIZE_nat 0 !! Z.to_nat i.
Proof.
  intros Hm i Hi. rewrite Hm, (proj2 (in_range_spec k PGSIZE (k + i))) by lia. rewrite PGSIZE_val in Hi.
  rewrite lookup_replicate_2; [reflexivity|unfold PGSIZE_nat; lia].
Qed.

Lemma hw_get_ok (h : hw) m : hw_rep h m →
  hw_get_page (Z.lor PAL_USER PAL_ZERO) h = Ok (NULL, h) ∨
  ∃ k h', hw_get_page (Z.lor PAL_USER PAL_ZERO) h = Ok (k, h') ∧ k ≠ NULL ∧
    frames m !! k = None ∧ hw_rep h' (kernel_write k (replicate PGSIZE_nat 0) m) ∧ (hw_room h → hw_room h').
Proof.
  intros Hr. assert (Hok := r_ram _ _ Hr). set (s := mach h) in *. destruct user_zero_flags as (F1 & F2 & F3).
  destruct (first_run User (ram s) 1 Hok ltac:(lia)) as [(i & Hfree & Hmin)|Hnone]; [right|left]; cycle 1.
  { assert (Hget := palloc_get_full (ram s) (Z.lor PAL_USER PAL_ZERO) 1 Hok ltac:(lia) Hnone). rewrite F3 in Hget.
    unfold hw_get_page. rewrite (run_bind_ok _ _ _ NULL h); [done|]. unfold on_mach, zoom, on_ram. fold s.
    unfold Palloc.palloc_get_page, zoom. rewrite Hget. unfold s. destruct h as [[]]. done. }
  destruct (palloc_get_ok (ram s) (Z.lor PAL_USER PAL_ZERO) 1 i Hok ltac:(lia) Hfree Hmin) as (r & Hget & Hok' & Hch & Hb).
  rewrite F1 in *. rewrite F2 in Hb. rewrite Z.mul_1_r in Hb.
  destruct Hfree as (Hi & Hin & Hf). destruct (page_bounds User (ram s) i Hok ltac:(lia)) as [Hlo _]. unfold PHYS_BASE in Hlo.
  set (k := page User (ram s) i) in *. set (s' := with_ram r s).
  assert (Hlook : ∀ q, mem s' !! q = if in_range k PGSIZE q then Some 0 else mem s !! q).
  { intros q. unfold mem at 1. cbn [ram with_ram s']. rewrite Hb. apply memset_lookup. rewrite PGSIZE_val. lia. }
  clear Hb. exists k, (MkHw s' ({[k]} ∪ kernel_dirty h)).
  assert (Hrun : hw_get_page (Z.lor PAL_USER PAL_ZERO) h = Ok (k, MkHw s' ({[k]} ∪ kernel_dirty h))).
  { unfold hw_get_page. rewrite (run_bind_ok _ _ _ _ _ (run_zoom_ok mach set_mach _ h _ _ (run_zoom_ok ram with_ram _ s _ _ Hget))).
    rewrite (proj2 (Z.eqb_neq k NULL)) by (unfold NULL; lia). by rewrite F2. }
  assert (Hnf : ¬ user_frame s k).
  { intros (j & (_ & _ & Hu) & E%page_inj). subst j. specialize (Hu i ltac:(lia)). rewrite Hf in Hu by lia. done. }
  assert (Hnk : frames m !! k = None).
  { destruct (frames m !! k) eqn:E; [|done]. destruct Hnf. apply (r_frame _ _ Hr). by rewrite E. }
  assert (Hfr' : ∀ k', user_frame s' k' ↔ if bool_decide (k' = k) then true = true else user_frame s k').
  { intros k'. apply (changed_frame i true s s' k' Hch). lia. }
  assert (Hkf : user_frame s' k) by (apply Hfr'; by rewrite bool_decide_true).
  split; [exact Hrun|]. split; [unfold NULL; lia|]. split; [exact Hnk|].
  apply (rep_frames h m s'); fold s.
  - exact Hr.
  - exact Hok'.
  - reflexivity.
  - intros j b. exact (changed_run i true (ram s) r j b Hok Hch).
  - apply Hch.
  - intros w j. apply (changed_page _ _ _ _ _ _ w j Hch).
  - intros p a Hp Ha. rewrite Hlook, in_range_out; [reflexivity|].
    assert (Hp' : kernel_page s' p).
    { destruct Hp as (j & Hj & ->). exists j. split; [by apply (changed_run i true (ram s) r j true Hok Hch)|].
      symmetry. apply (changed_page _ _ _ _ _ _ Kernel j Hch). }
    assert (Hab := frame_above s' k p Hok' Hkf Hp'). lia.
  - intros k'. rewrite Hfr'. case_bool_decide as E.
    + rewrite E, lookup_insert_eq. by split.
    + rewrite lookup_insert_ne by congruence. apply (r_frame _ _ Hr).
  - intros k' d Hd. destruct (decide (k' = k)) as [->|Hne].
    + rewrite lookup_insert_eq in Hd. apply Some_inj in Hd. rewrite <- Hd. split; [apply length_replicate|exact (frame_zero _ _ _ Hlook)].
    + rewrite lookup_insert_ne in Hd by congruence. destruct (r_bytes _ _ Hr k' d Hd) as [Hlen Hby]. split; [exact Hlen|].
      intros j Hj. rewrite <- (Hby j Hj), Hlook, in_range_out; [reflexivity|].
      assert (Hk' : user_frame s' k') by (apply Hfr'; rewrite bool_decide_false by done; apply (r_frame _ _ Hr); by exists d).
      destruct (frames_disjoint s' k' k Hk' Hkf Hne); lia.
  - intros k' Hk'. destruct (decide (k' = k)) as [->|Hne].
    + split; intros _; apply elem_of_union_l; by apply elem_of_singleton.
    + rewrite lookup_insert_ne in Hk' by congruence. rewrite !elem_of_union, !elem_of_singleton, (r_dirty _ _ Hr k' Hk'). tauto.
Qed.

Lemma hw_free_ok (h : hw) m k d : hw_rep h m → frames m !! k = Some d →
  ∃ h', hw_free_page k h = Ok (tt, h') ∧ hw_rep h' (drop_frame k m) ∧ (hw_room h → hw_room h').
Proof.
  intros Hr Hd. assert (Hok := r_ram _ _ Hr). set (s := mach h) in *.
  assert (Hkf : user_frame s k) by (apply (r_frame _ _ Hr); by exists d). destruct Hkf as (i & Hused & ->).
  destruct (palloc_free_ok (ram s) User i 1 Hok ltac:(lia) Hused) as (r & Hrun & Hok' & Hch & Hb).
  rewrite Z.mul_1_r in Hb. destruct Hused as (Hi & Hin & Hu). set (k := page User (ram s) i) in *. set (s' := with_ram r s).
  assert (Hlook : ∀ q, ¬ (k ≤ q < k + PGSIZE) → mem s' !! q = mem s !! q).
  { intros q Hq. unfold mem at 1. cbn [ram with_ram s']. rewrite Hb, memset_lookup, in_range_out by (exact Hq || (rewrite PGSIZE_val; lia)). reflexivity. }
  clear Hb. exists (MkHw s' ({[k]} ∪ kernel_dirty h)). split.
  { unfold hw_free_page. rewrite (run_bind_ok _ _ _ _ _ (run_zoom_ok mach set_mach _ h _ _ (run_zoom_ok ram with_ram _ s _ _ Hrun))). reflexivity. }
  assert (Hfr' : ∀ k', user_frame s' k' ↔ if bool_decide (k' = k) then false = true else user_frame s k').
  { intros k'. apply (changed_frame i false s s' k' Hch). lia. }
  assert (Hkf : user_frame s k) by (exists i; by split).
  apply (rep_frames h m s'); fold s.
  - exact Hr.
  - exact Hok'.
  - reflexivity.
  - intros j b. exact (changed_run i false (ram s) r j b Hok Hch).
  - apply Hch.
  - intros w j. apply (changed_page _ _ _ _ _ _ w j Hch).
  - intros p a Hp Ha. apply Hlook. assert (Hab := frame_above s k p Hok Hkf Hp). lia.
  - intros k'. rewrite Hfr'. case_bool_decide as E.
    + rewrite E, lookup_delete_eq. split; [by intros []|done].
    + rewrite lookup_delete_ne by congruence. apply (r_frame _ _ Hr).
  - intros k' d' Hd'. apply lookup_delete_Some in Hd' as [Hne Hd']. destruct (r_bytes _ _ Hr k' d' Hd') as [Hlen Hby]. split; [exact Hlen|].
    intros j Hj. rewrite <- (Hby j Hj). apply Hlook.
    assert (Hk' : user_frame s k') by (apply (r_frame _ _ Hr); by exists d').
    destruct (frames_disjoint s k' k Hk' Hkf (not_eq_sym Hne)); lia.
  - intros k' [d' Hd']. apply lookup_delete_Some in Hd' as [Hne Hd'].
    rewrite elem_of_union, elem_of_singleton, (r_dirty _ _ Hr k' ltac:(by exists d')). split; [intros [->|?]; [done|done]|by right].
Qed.

(** ** The bytes of a frame *)
Lemma patch_lookup ofs bs d j : (ofs + length bs ≤ length d)%nat →
  patch ofs bs d !! j = if (ofs <=? j)%nat && (j <? ofs + length bs)%nat then bs !! (j - ofs)%nat else d !! j.
Proof.
  intros Hle. unfold patch. destruct (Nat.leb_spec ofs j); simpl.
  - rewrite lookup_app_r by (rewrite length_take; lia). rewrite length_take, Nat.min_l by lia.
    destruct (Nat.ltb_spec j (ofs + length bs)).
    + by rewrite lookup_app_l by lia.
    + rewrite lookup_app_r, lookup_drop by lia. f_equal. lia.
  - rewrite lookup_app_l by (rewrite length_take; lia). by rewrite lookup_take_lt.
Qed.

Lemma patch_length ofs bs d : (ofs + length bs ≤ length d)%nat → length (patch ofs bs d) = length d.
Proof. intros. unfold patch. rewrite !length_app, length_take, length_drop. lia. Qed.

Lemma patch_one ofs v d : (ofs < length d)%nat → patch ofs [v] d = <[ofs := v]> d.
Proof. intros H. rewrite insert_take_drop by done. unfold patch. simpl. by rewrite Nat.add_1_r. Qed.

Lemma rep_write (h : hw) m k d ofs bs kd kdm :
  hw_rep h m → frames m !! k = Some d → 0 ≤ ofs → ofs + Z.of_nat (length bs) ≤ PGSIZE →
  (∀ k', is_Some (frames m !! k') → k' ∈ kd ↔ k' ∈ kdm) →
  hw_rep (MkHw (write_mem bs (k + ofs) (mach h)) kd) (MkMmu (dirs m) (maps m) (<[k := patch (Z.to_nat ofs) bs d]> (frames m)) kdm) ∧
  (hw_room h → hw_room (MkHw (write_mem bs (k + ofs) (mach h)) kd)).
Proof.
  intros Hr Hd Ho Hle Hkd. assert (Hok := r_ram _ _ Hr). set (s := mach h) in *. set (s' := write_mem bs (k + ofs) s).
  assert (Hkf : user_frame s k) by (apply (r_frame _ _ Hr); by exists d). destruct (r_bytes _ _ Hr k d Hd) as [Hlen Hby].
  assert (Hlook : ∀ q, mem s' !! q = if in_range (k + ofs) (Z.of_nat (length bs)) q then bs !! Z.to_nat (q - (k + ofs)) else mem s !! q).
  { intros q. apply put_bytes_lookup. }
  unfold PGSIZE_nat in Hlen. rewrite PGSIZE_val in Hle.
  assert (Hsome : ∀ k', is_Some (<[k := patch (Z.to_nat ofs) bs d]> (frames m) !! k') ↔ is_Some (frames m !! k')).
  { intros k'. destruct (decide (k' = k)) as [->|]; [rewrite lookup_insert_eq, Hd; split; eauto|by rewrite lookup_insert_ne]. }
  apply (rep_frames h m s'); fold s.
  - exact Hr.
  - by apply palloc_ok_bytes.
  - done.
  - intros j b. done.
  - by intros [].
  - by intros [] j.
  - intros p a Hp Ha. rewrite Hlook, in_range_out; [done|]. assert (Hab := frame_above s k p Hok Hkf Hp). lia.
  - intros k'. rewrite Hsome, (r_frame _ _ Hr). symmetry. by apply user_frame_pool.
  - intros k' d' Hd'. destruct (decide (k' = k)) as [->|Hne].
    + rewrite lookup_insert_eq in Hd'. injection Hd' as <-. rewrite patch_length by lia. split; [done|]. intros j Hj.
      rewrite Hlook, patch_lookup by lia. destruct (in_range (k + ofs) (Z.of_nat (length bs)) (k + j)) eqn:E.
      * apply in_range_spec in E. rewrite (proj2 (Nat.leb_le _ _)), (proj2 (Nat.ltb_lt _ _)) by lia. simpl. f_equal. lia.
      * rewrite Hby by done. destruct (Nat.leb_spec (Z.to_nat ofs) (Z.to_nat j)); [|done]. simpl.
        destruct (Nat.ltb_spec (Z.to_nat j) (Z.to_nat ofs + length bs)); [|done]. exfalso.
        apply not_true_iff_false in E. apply E, in_range_spec. lia.
    + rewrite lookup_insert_ne in Hd' by congruence. destruct (r_bytes _ _ Hr k' d' Hd') as [Hlen' Hby']. split; [done|].
      intros j Hj. rewrite <- (Hby' j Hj), Hlook, in_range_out; [done|].
      assert (Hk' : user_frame s k') by (apply (r_frame _ _ Hr); by exists d').
      destruct (frames_disjoint s k' k Hk' Hkf Hne); rewrite PGSIZE_val in *; lia.
  - intros k' Hk'. apply Hkd. by apply Hsome.
Qed.

Lemma hw_read_ok (h : hw) m k d : hw_rep h m → frames m !! k = Some d → hw_frame_read k h = Ok (d, h).
Proof.
  intros Hr Hd. destruct (r_bytes _ _ Hr k d Hd) as [Hlen Hby]. unfold hw_frame_read. erewrite run_bind_ok; [|reflexivity].
  apply run_deref. rewrite <- Hlen. apply bytes_at_Some. intros i Hi. apply Hby. rewrite Hlen in Hi. rewrite PGSIZE_val. unfold PGSIZE_nat in Hi. lia.
Qed.

Lemma hw_write_ok (h : hw) m k d ofs bs : hw_rep h m → frames m !! k = Some d → 0 ≤ ofs → ofs + Z.of_nat (length bs) ≤ PGSIZE →
  ∃ h', hw_frame_write k ofs bs h = Ok (tt, h') ∧ hw_rep h' (kernel_write k (patch (Z.to_nat ofs) bs d) m) ∧ (hw_room h → hw_room h').
Proof.
  intros Hr Hd Ho Hle. eexists. split; [reflexivity|]. apply (rep_write h m k d ofs bs); [done..|].
  intros k' Hk'. simpl. rewrite !elem_of_union, (r_dirty _ _ Hr k' Hk'). done.
Qed.

(** ** The processor *)
Lemma view_round s pd a : 0 ≤ a < PHYS_BASE → view s pd a = view s pd (pg_round_down a) ∧ pg_no a = pg_no (pg_round_down a).
Proof.
  intros Ha. assert (E : pg_no a = pg_no (pg_round_down a)).
  { rewrite !pg_no_div, pg_round_down_div by (unfold in_u32, PHYS_BASE in *; lia). rewrite PGSIZE_val. divlia. }
  split; [|done]. unfold view. f_equal. apply PagedirSpec.same_page_pte; [lia| |done].
  rewrite pg_round_down_div by (unfold in_u32, PHYS_BASE in *; lia). rewrite PGSIZE_val. divlia.
Qed.

Lemma remapped_round s pd a f s' : 0 ≤ a < PHYS_BASE → remapped s pd a f s' → remapped s pd (pg_round_down a) f s'.
Proof. intros Ha (H1 & H2 & H3 & H4). destruct (view_round s pd a Ha) as [_ E]. unfold remapped. rewrite <- E. done. Qed.

(** What the walk finds. *)
Lemma walk_ok s pd a : pd_ok s pd → 0 ≤ a < PHYS_BASE →
  match m_page (view s pd a) with
  | None => walk pd a s = Ok (None, s)
  | Some k => ∃ pt, walk pd a s = Ok (Some (pt + 4 * pt_no a, pte_at s pd a), s) ∧ table s pd (pd_no a) pt ∧ kernel_page s pt ∧
                0 ≤ pte_at s pd a < PHYS_LIMIT ∧ pte_get_page (pte_at s pd a) s = Ok (k, s)
  end.
Proof.
  intros Hok Ha. unfold walk. destruct (PagedirSpec.lookup_cases s pd a Hok Ha) as [(Hrun & E)|(pt & Hrun & Ht & Hpt & Hload & Hb & Hn)];
    rewrite (run_bind_ok _ _ _ _ _ Hrun); [by unfold view; rewrite E|]. rewrite Hn, (run_bind_ok _ _ _ _ _ Hload).
  assert (Hp := test_present (pte_at s pd a)). unfold view, decode. cbn [m_page].
  destruct (Z.testbit (pte_at s pd a) 0) eqn:Eb.
  - exists pt. destruct (Z.land (pte_at s pd a) PTE_P =? 0); [done|]. split; [done|]. split; [done|]. split; [done|]. split; [done|].
    unfold pte_get_page. rewrite land_addr by (by apply PagedirSpec.bound_u32).
    apply ptov_ok. unfold PHYS_LIMIT in *. rewrite PGSIZE_val. divlia.
  - by destruct (Z.land (pte_at s pd a) PTE_P =? 0).
Qed.

(** Setting the accessed bit, and the dirty bit. *)
Lemma accessed_bit w : 0 ≤ w → let w' := Z.lor w PTE_A in
  0 ≤ w' ∧ w' / PGSIZE = w / PGSIZE ∧ decode w' = set_accessed true (decode w).
Proof.
  intros Hw w'. change PTE_A with (Z.shiftl 1 5) in *.
  assert (Hd : w' / PGSIZE = w / PGSIZE) by (apply PagedirSpec.lor_flag_div; lia).
  split; [apply Z.lor_nonneg; split; [done|by apply Z.shiftl_nonneg]|]. split; [done|].
  unfold decode, set_accessed. rewrite Hd. unfold w'. rewrite !PagedirSpec.set_flag_testbit by lia. simpl Z.eqb.
  by rewrite !orb_false_r, orb_true_r.
Qed.

Lemma dirty_bit w : 0 ≤ w → let w' := Z.lor w PTE_D in
  0 ≤ w' ∧ w' / PGSIZE = w / PGSIZE ∧ decode w' = set_dirty true (decode w).
Proof.
  intros Hw w'. change PTE_D with (Z.shiftl 1 6) in *.
  assert (Hd : w' / PGSIZE = w / PGSIZE) by (apply PagedirSpec.lor_flag_div; lia).
  split; [apply Z.lor_nonneg; split; [done|by apply Z.shiftl_nonneg]|]. split; [done|].
  unfold decode, set_dirty. rewrite Hd. unfold w'. rewrite !PagedirSpec.set_flag_testbit by lia. simpl Z.eqb.
  by rewrite !orb_false_r, orb_true_r.
Qed.

Lemma round_page a : 0 ≤ a < PHYS_BASE → user_page (pg_round_down a).
Proof.
  intros Ha. rewrite pg_round_down_div by (unfold in_u32, PHYS_BASE in *; lia). unfold user_page, PHYS_BASE in *.
  rewrite PGSIZE_val. split; divlia.
Qed.

Lemma rep_view (h : hw) m pd a : hw_rep h m → pd ∈ dirs m → 0 ≤ a < PHYS_BASE → view (mach h) pd a = maps m pd (pg_round_down a).
Proof.
  intros Hr Hpd Ha. destruct (r_dir _ _ Hr pd Hpd) as (_ & _ & Hv). rewrite (proj1 (view_round _ _ _ Ha)). by apply Hv, round_page.
Qed.

(** Writing back the entry the walk has found. *)
Lemma rep_entry (h : hw) m pd a pt w f :
  hw_rep h m → pd ∈ dirs m → 0 ≤ a < PHYS_BASE → table (mach h) pd (pd_no a) pt → kernel_page (mach h) pt →
  0 ≤ w < PHYS_LIMIT → decode w = f (view (mach h) pd a) →
  hw_rep (set_mach (stored (pt + 4 * pt_no a) w (mach h)) h) (map_at pd (pg_round_down a) f m) ∧
  (hw_room h → hw_room (set_mach (stored (pt + 4 * pt_no a) w (mach h)) h)).
Proof.
  intros Hr Hpd Ha Ht Hpt Hw Hf. destruct (r_dir _ _ Hr pd Hpd) as (Hok & _ & _). split; [|done].
  apply rep_remapped; [done|done|by apply round_page|]. apply remapped_round; [done|]. by apply store_flags_ok; [|apply Hr|..].
Qed.

Lemma hw_cpu_read_ok (h : hw) m pd a : hw_rep h m → pd ∈ dirs m → 0 ≤ a < PHYS_BASE →
  match m_page (maps m pd (pg_round_down a)) with
  | None => hw_cpu_read pd a h = Ok (NotPresent, h)
  | Some k => ∀ d, frames m !! k = Some d →
      ∃ h', hw_cpu_read pd a h = Ok (Done (default 0 (d !! Z.to_nat (pg_ofs a))), h') ∧
        hw_rep h' (map_at pd (pg_round_down a) (set_accessed true) m) ∧ (hw_room h → hw_room h')
  end.
Proof.
  intros Hr Hpd Ha. destruct (r_dir _ _ Hr pd Hpd) as (Hok & _ & _). assert (Hw := walk_ok (mach h) pd a Hok Ha).
  rewrite (rep_view h m pd a Hr Hpd Ha) in Hw. unfold hw_cpu_read, on_mach.
  destruct (m_page (maps m pd (pg_round_down a))) as [k|] eqn:Ek; cycle 1.
  { rewrite (run_zoom_ok mach set_mach _ h NotPresent (mach h)); [by destruct h|]. by rewrite (run_bind_ok _ _ _ _ _ Hw). }
  intros d Hd. destruct Hw as (pt & Hwalk & Ht & Hpt & Hlim & Hget). destruct (accessed_bit (pte_at (mach h) pd a) ltac:(lia)) as (A1 & A2 & A3).
  destruct (rep_entry h m pd a pt (Z.lor (pte_at (mach h) pd a) PTE_A) (set_accessed true) Hr Hpd Ha Ht Hpt) as [Hr' Hroom];
    [by apply (PagedirSpec.same_div_bound (pte_at (mach h) pd a))|done|].
  destruct (r_bytes _ _ Hr k d Hd) as [Hlen Hby]. assert (Hofs : 0 ≤ pg_ofs a < PGSIZE) by (rewrite pg_ofs_mod; apply Z.mod_pos_bound; rewrite PGSIZE_val; lia).
  destruct (lookup_lt_is_Some_2 d (Z.to_nat (pg_ofs a))) as [b Eb]; [rewrite Hlen; rewrite PGSIZE_val in Hofs; unfold PGSIZE_nat; lia|].
  eexists. split; [|split; [exact Hr'|exact Hroom]]. apply run_zoom_ok. rewrite (run_bind_ok _ _ _ _ _ Hwalk).
  rewrite (run_bind_ok _ _ _ _ _ Hget). erewrite run_bind_ok; [|reflexivity].
  erewrite run_bind_ok; [|apply run_deref; rewrite Hby by done; exact Eb]. rewrite Eb. done.
Qed.

Lemma hw_cpu_write_ok (h : hw) m pd a v : hw_rep h m → pd ∈ dirs m → 0 ≤ a < PHYS_BASE →
  match m_page (maps m pd (pg_round_down a)) with
  | None => hw_cpu_write pd a v h = Ok (NotPresent, h)
  | Some k => ∀ d, frames m !! k = Some d →
      if m_writable (maps m pd (pg_round_down a)) then
        ∃ h', hw_cpu_write pd a v h = Ok (Done tt, h') ∧
          hw_rep h' (map_at pd (pg_round_down a) (λ x, set_dirty true (set_accessed true x))
                       (with_frame k (<[Z.to_nat (pg_ofs a) := v]> d) m)) ∧ (hw_room h → hw_room h')
      else hw_cpu_write pd a v h = Ok (ReadOnly, h)
  end.
Proof.
  intros Hr Hpd Ha. destruct (r_dir _ _ Hr pd Hpd) as (Hok & _ & _). assert (Hw := walk_ok (mach h) pd a Hok Ha).
  assert (Hv := rep_view h m pd a Hr Hpd Ha). rewrite Hv in Hw. unfold hw_cpu_write, on_mach.
  destruct (m_page (maps m pd (pg_round_down a))) as [k|] eqn:Ek; cycle 1.
  { rewrite (run_zoom_ok mach set_mach _ h NotPresent (mach h)); [by destruct h|]. by rewrite (run_bind_ok _ _ _ _ _ Hw). }
  intros d Hd. destruct Hw as (pt & Hwalk & Ht & Hpt & Hlim & Hget). set (w := pte_at (mach h) pd a) in *.
  assert (Hbit : m_writable (maps m pd (pg_round_down a)) = Z.testbit w 1) by (rewrite <- Hv; done).
  assert (Htest := test_flag w 1 ltac:(lia)). change (Z.shiftl 1 1) with PTE_W in Htest. rewrite Hbit.
  destruct (Z.testbit w 1); cycle 1.
  { rewrite (run_zoom_ok mach set_mach _ h ReadOnly (mach h)); [by destruct h|]. rewrite (run_bind_ok _ _ _ _ _ Hwalk).
    by destruct (Z.land w PTE_W =? 0). }
  destruct (accessed_bit w ltac:(lia)) as (A1 & A2 & A3). destruct (dirty_bit (Z.lor w PTE_A) A1) as (D1 & D2 & D3).
  set (f := λ x, set_dirty true (set_accessed true x)).
  destruct (rep_entry h m pd a pt (Z.lor (Z.lor w PTE_A) PTE_D) f Hr Hpd Ha Ht Hpt) as [Hr' Hroom];
    [apply (PagedirSpec.same_div_bound w); [done|done|congruence]|rewrite D3, A3; done|].
  set (h1 := set_mach _ h) in *.
  assert (Hofs : 0 ≤ pg_ofs a < PGSIZE) by (rewrite pg_ofs_mod; apply Z.mod_pos_bound; rewrite PGSIZE_val; lia).
  assert (Hlen := proj1 (r_bytes _ _ Hr k d Hd)).
  destruct (rep_write h1 (map_at pd (pg_round_down a) f m) k d (pg_ofs a) [v] (kernel_dirty h1) (kdirty m) Hr' Hd) as [Hr2 Hroom2];
    [lia|simpl; lia|apply Hr'|].
  rewrite patch_one in Hr2 by (rewrite Hlen; rewrite PGSIZE_val in Hofs; unfold PGSIZE_nat; lia).
  eexists. split; [|split; [exact Hr2|auto]].
  apply (run_zoom_ok mach set_mach _ h (Done tt) (write_mem [v] (k + pg_ofs a) (mach h1))). rewrite (run_bind_ok _ _ _ _ _ Hwalk).
  destruct (Z.land w PTE_W =? 0); [done|]. by rewrite (run_bind_ok _ _ _ _ _ Hget).
Qed.

(** ** Page tables *)
Lemma on_mach_read {A} (c : ST machine A) (h : hw) a : c (mach h) = Ok (a, mach h) → on_mach c h = Ok (a, h).
Proof. intros E. unfold on_mach. rewrite (run_zoom_ok _ _ _ _ _ _ E). by destruct h. Qed.

Lemma hw_get_page_ok (h : hw) m pd u : hw_rep h m → pd ∈ dirs m → user_page u →
  on_mach (Pagedir.pagedir_get_page pd u) h = Ok (default NULL (m_page (maps m pd u)), h).
Proof.
  intros Hr Hpd [Hu Hal]. destruct (r_dir _ _ Hr pd Hpd) as (Hok & _ & Hv). apply on_mach_read.
  rewrite PagedirSpec.get_page_ok by done. rewrite (Hv u) by done. rewrite pg_ofs_mod, Hal.
  destruct (m_page (maps m pd u)); [|done]. simpl. by rewrite Z.add_0_r.
Qed.

Lemma hw_set_page_ok (h : hw) m pd u k w d : hw_rep h m → pd ∈ dirs m → user_page u → frames m !! k = Some d →
  m_page (maps m pd u) = None →
  (¬ hw_room h ∧ on_mach (Pagedir.pagedir_set_page init_page_dir init_ram_pages pd u k w) h = Ok (false, h)) ∨
  ∃ h', on_mach (Pagedir.pagedir_set_page init_page_dir init_ram_pages pd u k w) h = Ok (true, h') ∧
    hw_rep h' (map_at pd u (λ _, Mapping (Some k) w false false) m).
Proof.
  intros Hr Hpd Hu Hd Hnone. destruct (r_dir _ _ Hr pd Hpd) as (Hok & Hne & Hv). rewrite <- (Hv u Hu) in Hnone.
  assert (Hkf : user_frame (mach h) k) by (apply (r_frame _ _ Hr); by exists d).
  destruct (frame_bounds _ _ (r_ram _ _ Hr) Hkf) as (Hkal & Hklo & Hkhi).
  destruct (PagedirSpec.set_page_ok init_page_dir init_ram_pages (mach h) pd u k w Hok (r_cr3 _ _ Hr)) as [[Hrun Hno]|(s' & Hrun & Hrem)];
    try done; [apply Hu..|rewrite PGSIZE_val in *; lia| |left|right].
  - destruct Hkf as (i & (Hi & Hin & _) & ->). apply (r_limit _ _ Hr). lia.
  - split; [intros [i Hi]; by apply (Hno i)|by apply on_mach_read].
  - exists (set_mach s' h). split; [by apply run_zoom_ok|by apply rep_remapped].
Qed.

Lemma room_kernel (h : hw) s' : kernel_pool (ram s') = kernel_pool (ram (mach h)) → hw_room h → hw_room (set_mach s' h).
Proof.
  intros E [i Hi]. exists i. unfold run, npages, in_use in *. simpl mach.
  change (pool_of Kernel (ram s')) with (kernel_pool (ram s')). by rewrite E.
Qed.

Lemma hw_clear_ok (h : hw) m pd u : hw_rep h m → pd ∈ dirs m → user_page u →
  ∃ h', on_mach (Pagedir.pagedir_clear_page init_page_dir pd u) h = Ok (tt, h') ∧ hw_rep h' (map_at pd u unmap m) ∧ (hw_room h → hw_room h').
Proof.
  intros Hr Hpd Hu. destruct (r_dir _ _ Hr pd Hpd) as (Hok & _ & _).
  destruct (PagedirSpec.clear_page_ok init_page_dir (mach h) pd u Hok (r_cr3 _ _ Hr)) as (s' & Hrun & Hrem & Hk); [apply Hu..|].
  exists (set_mach s' h). split; [by apply run_zoom_ok|]. split; [by apply rep_remapped|by apply room_kernel].
Qed.

Lemma rep_ext (h : hw) m m' : hw_rep h m → dirs m' = dirs m → frames m' = frames m → kdirty m' = kdirty m →
  (∀ pd u, maps m' pd u = maps m pd u) → hw_rep h m'.
Proof.
  intros [] E1 E2 E3 E4. constructor; rewrite ?E1, ?E2, ?E3; try done.
  intros pd Hpd. destruct (r_dir0 pd Hpd) as (? & ? & Hv). split_and!; [done..|]. intros u Hu. by rewrite E4, Hv.
Qed.

Lemma hw_clear_accessed_ok (h : hw) m pd u : hw_rep h m → pd ∈ dirs m → user_page u →
  ∃ h', on_mach (Pagedir.pagedir_set_accessed init_page_dir pd u false) h = Ok (tt, h') ∧
    hw_rep h' (map_at pd u (set_accessed false) m) ∧ (hw_room h → hw_room h').
Proof.
  intros Hr Hpd Hu. destruct (r_dir _ _ Hr pd Hpd) as (Hok & _ & Hv).
  destruct (PagedirSpec.set_flag_ok init_page_dir 5 (set_accessed false) (mach h) pd u false Hok (r_cr3 _ _ Hr)) as (s' & Hrun & Hrem & Hk);
    [apply Hu|lia|intros w w' Hw Hd Hb; unfold decode, set_accessed; by rewrite Hd, !Hb by lia|].
  exists (set_mach s' h). split; [by apply run_zoom_ok|]. split; [|by apply room_kernel].
  destruct (has_table (mach h) pd u) eqn:Et; [by apply rep_remapped|]. subst s'.
  replace (set_mach (mach h) h) with h by (by destruct h). apply (rep_ext h m); [done..|]. intros pd' u'. simpl.
  destruct (Z.eqb_spec pd' pd) as [->|]; [|done]. destruct (Z.eqb_spec u' u) as [->|]; [|done]. simpl. rewrite <- (Hv u Hu).
  assert (Ep : pte_at (mach h) pd u = 0).
  { unfold has_table in Et. unfold pte_at. destruct (Pagedir.word _ _) as [e|]; [|done]. by destruct (e =? 0). }
  unfold view. rewrite Ep. done.
Qed.

#[global] Program Instance machine_mmu : Mmu hw := {|
  palloc_get_page := hw_get_page;
  palloc_free_page := hw_free_page;
  pagedir_get_page pd u := on_mach (Pagedir.pagedir_get_page pd u);
  pagedir_set_page pd u k w := on_mach (Pagedir.pagedir_set_page init_page_dir init_ram_pages pd u k w);
  pagedir_clear_page pd u := on_mach (Pagedir.pagedir_clear_page init_page_dir pd u);
  pagedir_is_dirty := hw_is_dirty;
  pagedir_is_accessed pd u := on_mach (Pagedir.pagedir_is_accessed pd u);
  pagedir_set_accessed pd u b := on_mach (Pagedir.pagedir_set_accessed init_page_dir pd u b);
  frame_read := hw_frame_read;
  frame_write := hw_frame_write;
  cpu_read := hw_cpu_read;
  cpu_write := hw_cpu_write;
  mm_rep := hw_rep;
  mm_room := hw_room;
  mm_get := hw_get_ok;
  mm_free := hw_free_ok;
  mm_get_page := hw_get_page_ok;
  mm_set_page := hw_set_page_ok;
  mm_clear := hw_clear_ok;
  mm_clear_accessed := hw_clear_accessed_ok;
  mm_read := hw_read_ok;
  mm_write := hw_write_ok;
  mm_cpu_read := hw_cpu_read_ok;
  mm_cpu_write := hw_cpu_write_ok
|}.
Next Obligation.
  intros h m k d Hr Hd. destruct (r_bytes _ _ Hr k d Hd) as [Hlen _]. split; [done|].
  destruct (frame_bounds (mach h) k (r_ram _ _ Hr)) as (? & ? & ?); [apply (r_frame _ _ Hr); by exists d|].
  split; [done|]. rewrite PGSIZE_val in *. lia.
Qed.
Next Obligation.
  intros h m pd u Hr Hpd Hu. destruct (r_dir _ _ Hr pd Hpd) as (Hok & _ & Hv). unfold hw_is_dirty.
  unfold is_user_vaddr. rewrite (proj2 (Z.ltb_lt u PHYS_BASE)) by apply Hu. apply on_mach_read.
  rewrite <- (Hv u Hu). apply (PagedirSpec.is_flag_ok 6); [done|apply Hu|lia].
Qed.
Next Obligation.
  intros h m pd k d Hr Hpd Hd. destruct (frame_bounds (mach h) k (r_ram _ _ Hr)) as (_ & Hlo & _); [apply (r_frame _ _ Hr); by exists d|].
  unfold hw_is_dirty, is_user_vaddr. rewrite (proj2 (Z.ltb_ge k PHYS_BASE)) by done. unfold gets. do 2 f_equal.
  apply bool_decide_ext, (r_dirty _ _ Hr). by exists d.
Qed.
Next Obligation.
  intros h m pd u Hr Hpd Hu. destruct (r_dir _ _ Hr pd Hpd) as (Hok & _ & Hv). apply on_mach_read.
  rewrite <- (Hv u Hu). apply (PagedirSpec.is_flag_ok 5); [done|apply Hu|lia].
Qed.
End hw.
End MmuMachine.
