(* ===== verification/Bytes.v ===== *)
(** * Bytes, little-endian words and blocks

    What the file system relies on when it copies C objects to and from
    sectors: [memcpy] into the middle of a buffer ([splice]), the
    little-endian representation of [uint32_t] and of arrays of them, and
    byte strings cut into blocks of equal size. *)
From S2P Require Import Prelude CInt.

Open Scope Z_scope.

(** [l] after [memcpy (l + ofs, bs, length bs)]. *)
Definition splice {A} (ofs : nat) (bs l : list A) : list A :=
  take ofs l ++ bs ++ drop (ofs + length bs) l.

Section splice.
Context {A : Type}.
Implicit Types (l bs : list A).

Lemma splice_length ofs bs l :
  (ofs + length bs ≤ length l)%nat → length (splice ofs bs l) = length l.
Proof. intros. unfold splice. rewrite !length_app, length_take, length_drop. lia. Qed.

Lemma splice_nil ofs l : splice ofs [] l = l.
Proof. unfold splice. simpl. rewrite Nat.add_0_r. apply take_drop. Qed.

Lemma splice_all bs l : length bs = length l → splice 0 bs l = bs.
Proof. intros E. unfold splice. simpl. rewrite drop_ge by lia. apply app_nil_r. Qed.

Lemma splice_app_l ofs bs l1 l2 :
  (ofs + length bs ≤ length l1)%nat → splice ofs bs (l1 ++ l2) = splice ofs bs l1 ++ l2.
Proof.
  intros. unfold splice. rewrite take_app_le, drop_app_le by lia. by rewrite <- !(assoc_L (++)).
Qed.

Lemma splice_app_r ofs bs l1 l2 :
  splice (length l1 + ofs) bs (l1 ++ l2) = l1 ++ splice ofs bs l2.
Proof.
  unfold splice. rewrite take_app_add, <- Nat.add_assoc, drop_app_add.
  by rewrite <- !(assoc_L (++)).
Qed.

(** Two adjacent copies are one. *)
Lemma splice_splice ofs b1 b2 l :
  (ofs + length b1 + length b2 ≤ length l)%nat →
  splice (ofs + length b1) b2 (splice ofs b1 l) = splice ofs (b1 ++ b2) l.
Proof.
  intros. unfold splice at 2.
  replace (ofs + length b1)%nat with (length (take ofs l ++ b1) + 0)%nat
    by (rewrite length_app, length_take; lia).
  rewrite (assoc_L (++)), splice_app_r. unfold splice. simpl.
  rewrite drop_drop, length_app, <- !(assoc_L (++)). do 4 f_equal.
  rewrite !length_app, length_take. lia.
Qed.

(** Reading back what was copied. *)
Lemma splice_read ofs bs l :
  (ofs ≤ length l)%nat → take (length bs) (drop ofs (splice ofs bs l)) = bs.
Proof.
  intros. unfold splice. rewrite drop_app_length' by (rewrite length_take; lia).
  by rewrite take_app_length.
Qed.
End splice.

(** ** Little-endian words *)
Definition le32 (x : Z) : list Z :=
  [x mod 256; x / 2 ^ 8 mod 256; x / 2 ^ 16 mod 256; x / 2 ^ 24 mod 256].
Definition un32 (a b c d : Z) : Z := a + 2 ^ 8 * b + 2 ^ 16 * c + 2 ^ 24 * d.

Definition bytes_of_words (ws : list Z) : list Z := ws ≫= le32.
Fixpoint words_of_bytes (bs : list Z) : list Z :=
  match bs with
  | a :: b :: c :: d :: bs => un32 a b c d :: words_of_bytes bs
  | _ => []
  end.

Lemma un32_le32 x : in_u32 x →
  un32 (x mod 256) (x / 2 ^ 8 mod 256) (x / 2 ^ 16 mod 256) (x / 2 ^ 24 mod 256) = x.
Proof.
  unfold in_u32, un32. intros. Z.to_euclidean_division_equations. lia.
Qed.

Lemma length_bytes_of_words ws : length (bytes_of_words ws) = (4 * length ws)%nat.
Proof.
  unfold bytes_of_words. induction ws as [|w ws IH]; [done|].
  rewrite bind_cons, length_app, IH. simpl. lia.
Qed.

Lemma words_of_bytes_of_words ws rest :
  Forall in_u32 ws → words_of_bytes (bytes_of_words ws ++ rest) = ws ++ words_of_bytes rest.
Proof.
  induction 1 as [|w ws Hw _ IH]; [done|]. cbn -[Z.pow Z.modulo Z.div un32].
  rewrite un32_le32 by done. f_equal. exact IH.
Qed.

Lemma words_of_bytes_app n l1 l2 :
  length l1 = (4 * n)%nat → words_of_bytes (l1 ++ l2) = words_of_bytes l1 ++ words_of_bytes l2.
Proof.
  revert l1. induction n as [|n IH]; intros l1 Hl.
  { by destruct l1. }
  destruct l1 as [|a [|b [|c [|d l1]]]]; simpl in Hl; try lia.
  cbn -[un32]. f_equal. apply IH. lia.
Qed.

Lemma length_words_of_bytes n l : length l = (4 * n)%nat → length (words_of_bytes l) = n.
Proof.
  revert l. induction n as [|n IH]; intros l Hl.
  { by destruct l. }
  destruct l as [|a [|b [|c [|d l]]]]; simpl in Hl; try lia.
  cbn -[un32]. f_equal. apply IH. lia.
Qed.

Lemma words_of_bytes_take k n l :
  length l = (4 * n)%nat → (k ≤ n)%nat → words_of_bytes (take (4 * k) l) = take k (words_of_bytes l).
Proof.
  intros Hl Hk. rewrite <- (take_drop (4 * k) l) at 2.
  assert (Ht : length (take (4 * k) l) = (4 * k)%nat) by (rewrite length_take; lia).
  rewrite (words_of_bytes_app k) by done.
  by rewrite take_app_length' by (symmetry; by apply length_words_of_bytes).
Qed.

Lemma words_of_bytes_drop k n l :
  length l = (4 * n)%nat → (k ≤ n)%nat → words_of_bytes (drop (4 * k) l) = drop k (words_of_bytes l).
Proof.
  intros Hl Hk. rewrite <- (take_drop (4 * k) l) at 2.
  assert (Ht : length (take (4 * k) l) = (4 * k)%nat) by (rewrite length_take; lia).
  rewrite (words_of_bytes_app k) by done.
  by rewrite drop_app_length' by (symmetry; by apply length_words_of_bytes).
Qed.

(** Copying words into a buffer of words. *)
Lemma words_of_bytes_splice k n ws l :
  length l = (4 * n)%nat → (k + length ws ≤ n)%nat → Forall in_u32 ws →
  words_of_bytes (splice (4 * k) (bytes_of_words ws) l) = splice k ws (words_of_bytes l).
Proof.
  intros Hl Hk Hws. unfold splice. rewrite (words_of_bytes_app k) by (rewrite length_take; lia).
  rewrite words_of_bytes_of_words by done.
  rewrite length_bytes_of_words. replace (4 * k + 4 * length ws)%nat with (4 * (k + length ws))%nat by lia.
  rewrite (words_of_bytes_take k n), (words_of_bytes_drop _ n) by (done || lia). done.
Qed.

Lemma words_of_bytes_replicate_0 n : words_of_bytes (replicate (4 * n) 0) = replicate n 0.
Proof.
  induction n as [|n IH]; [done|]. replace (4 * S n)%nat with (S (S (S (S (4 * n))))) by lia.
  cbn -[Nat.mul]. f_equal. exact IH.
Qed.

(** ** Blocks *)
Section blocks.
Context {A : Type} (B : nat).
Implicit Types (bl : list (list A)).

Definition blocks bl : Prop := Forall (λ b, length b = B) bl.

Lemma length_concat_blocks bl : blocks bl → length (concat bl) = (B * length bl)%nat.
Proof. induction 1 as [|b bl Hb _ IH]; simpl; [lia|]. rewrite length_app. lia. Qed.

Lemma concat_split bl k b :
  bl !! k = Some b → concat bl = concat (take k bl) ++ b ++ concat (drop (S k) bl).
Proof.
  intros Hk. rewrite <- (take_drop_middle bl k b Hk) at 1. by rewrite concat_app.
Qed.

Lemma length_concat_take bl k :
  blocks bl → (k ≤ length bl)%nat → length (concat (take k bl)) = (B * k)%nat.
Proof.
  intros Hbl Hk. rewrite length_concat_blocks by (by apply Forall_take). by rewrite length_take_le by lia.
Qed.

(** A read that stays inside one block. *)
Lemma concat_read bl k b o c :
  blocks bl → bl !! k = Some b → (o + c ≤ B)%nat →
  take c (drop (B * k + o) (concat bl)) = take c (drop o b).
Proof.
  intros Hbl Hk Hoc. rewrite (concat_split bl k b Hk).
  assert (Hlen := lookup_lt_Some _ _ _ Hk).
  assert (Hb : length b = B) by (by eapply (Forall_lookup_1 _ _ _ _ Hbl)).
  rewrite <- (length_concat_take bl k) by (done || lia). rewrite drop_app_add.
  rewrite drop_app_le by lia. rewrite take_app_le; [done|]. rewrite length_drop. lia.
Qed.

(** A write that stays inside one block. *)
Lemma concat_splice bl k b o bs :
  blocks bl → bl !! k = Some b → (o + length bs ≤ B)%nat →
  concat (<[k := splice o bs b]> bl) = splice (B * k + o) bs (concat bl).
Proof.
  intros Hbl Hk Hoc. assert (Hlen := lookup_lt_Some _ _ _ Hk).
  assert (Hb : length b = B) by (by eapply (Forall_lookup_1 _ _ _ _ Hbl)).
  rewrite (concat_split bl k b Hk), (insert_take_drop _ _ _ Hlen), concat_app. simpl.
  rewrite <- (length_concat_take bl k) by (done || lia). rewrite splice_app_r.
  by rewrite splice_app_l by lia.
Qed.
End blocks.

(** Reading in two steps. *)
Lemma take_drop_app {A} (l : list A) o c n :
  take (c + n) (drop o l) = take c (drop o l) ++ take n (drop (o + c) l).
Proof. by rewrite <- take_take_drop, drop_drop. Qed.

(** A read inside a prefix does not see the rest. *)
Lemma take_drop_take {A} (l : list A) o c n :
  (o + c ≤ n)%nat → take c (drop o (take n l)) = take c (drop o l).
Proof.
  intros. rewrite !take_drop_commute, take_take. by replace ((o + c) `min` n)%nat with (o + c)%nat by lia.
Qed.

Lemma take_splice {A} (ofs n : nat) (bs l : list A) :
  (ofs + length bs ≤ n)%nat → (n ≤ length l)%nat → take n (splice ofs bs l) = splice ofs bs (take n l).
Proof.
  intros. rewrite <- (take_drop n l) at 1. rewrite splice_app_l by (rewrite length_take; lia).
  apply take_app_length'. rewrite splice_length; rewrite length_take; lia.
Qed.

Lemma drop_splice {A} (ofs n : nat) (bs l : list A) :
  (ofs + length bs ≤ n)%nat → (n ≤ length l)%nat → drop n (splice ofs bs l) = drop n l.
Proof.
  intros. rewrite <- (take_drop n l) at 1. rewrite splice_app_l by (rewrite length_take; lia).
  apply drop_app_length'. rewrite splice_length; rewrite length_take; lia.
Qed.

Lemma take_NoDup {A} (l : list A) n : NoDup l → NoDup (take n l).
Proof. rewrite <- (take_drop n l) at 1. rewrite NoDup_app. tauto. Qed.

Lemma elem_of_take_incl {A} (l : list A) n x : x ∈ take n l → x ∈ l.
Proof. intros H. rewrite <- (take_drop n l). apply elem_of_app. by left. Qed.

Lemma elem_of_drop_incl {A} (l : list A) n x : x ∈ drop n l → x ∈ l.
Proof. intros H. rewrite <- (take_drop n l). apply elem_of_app. by right. Qed.

Lemma nth_splice {A} (k o : nat) (bs l : list A) x :
  (o + length bs ≤ length l)%nat →
  nth k (splice o bs l) x = if (k <? o)%nat then nth k l x
                            else if (k <? o + length bs)%nat then nth (k - o) bs x else nth k l x.
Proof.
  intros Hl. unfold splice. assert (Ht : length (take o l) = o) by (rewrite length_take; lia).
  destruct (Nat.ltb_spec k o); [|destruct (Nat.ltb_spec k (o + length bs))].
  - rewrite app_nth1 by lia. rewrite !nth_lookup, lookup_take. by rewrite decide_True by lia.
  - rewrite app_nth2, app_nth1 by lia. by rewrite Ht.
  - rewrite app_nth2, app_nth2, Ht by lia. rewrite !nth_lookup, lookup_drop. do 2 f_equal. lia.
Qed.

Lemma concat_const {A B} (L : list A) (b : list B) :
  concat ((λ _, b) <$> L) = concat (replicate (length L) b).
Proof. induction L as [|x L IH]; [done|]. simpl in *. by rewrite <- IH. Qed.

Lemma concat_replicate {B} (n m : nat) (x : B) : concat (replicate n (replicate m x)) = replicate (n * m) x.
Proof. induction n as [|n IH]; [done|]. simpl. by rewrite IH, <- replicate_add. Qed.

Lemma Forall_zero_replicate l : Forall (λ b : Z, b = 0) l → l = replicate (length l) 0.
Proof. induction 1 as [|x l -> _ IH]; [done|]. simpl. by rewrite <- IH. Qed.
