(* ===== verification/Random.v ===== *)
(** * Pseudo-random numbers: [src/pintos/lib/random.c]

    The RC4 generator: the table [s], the indexes [s_i] and [s_j], and whether
    it has been seeded. *)
From S2P Require Import Prelude CInt CStdlib CStdlibSpec Bytes.

Open Scope Z_scope.

Module Random.

Record rng := MkRng { s : list Z; s_i : Z; s_j : Z; inited : bool }.

(** The table at an index, which is a byte. *)
Definition at_ (t : list Z) (i : Z) : Z := nth (Z.to_nat i) t 0.

Definition swap_byte (a b : Z) (t : list Z) : list Z :=
  <[Z.to_nat b := at_ t a]> (<[Z.to_nat a := at_ t b]> t).

(** The second loop of [random_init], from [i] on. *)
Fixpoint init_loop (n : nat) (seed i j : Z) (t : list Z) : list Z :=
  match n with
  | O => t
  | S n =>
    let j := u8 (j + (at_ t i + nth (Z.to_nat (i mod 4)) (le32 seed) 0)) in
    init_loop n seed (i + 1) j (swap_byte i j t)
  end.
Definition random_init (seed : Z) (g : rng) : rng :=
  MkRng (init_loop 256 seed 0 0 (seqZ 0 256)) 0 0 true.

Fixpoint bytes_loop (size : nat) (g : rng) : list Z * rng :=
  match size with
  | O => ([], g)
  | S size =>
    let i := u8 (s_i g + 1) in
    let j := u8 (s_j g + at_ (s g) i) in
    let t := swap_byte i j (s g) in
    let k := u8 (at_ t i + at_ t j) in
    let '(buf, g) := bytes_loop size (MkRng t i j (inited g)) in
    (at_ t k :: buf, g)
  end.
Definition random_bytes (size : nat) (g : rng) : list Z * rng :=
  bytes_loop size (if inited g then g else random_init 0 g).

Definition random_ulong (g : rng) : Z * rng :=
  let '(buf, g) := random_bytes 4 g in (un32 (at_ buf 0) (at_ buf 1) (at_ buf 2) (at_ buf 3), g).

(** ** Invariant *)

(** The table is a permutation of the bytes. *)
Record ok (g : rng) : Prop := MkOk {
  ok_table : s g ≡ₚ seqZ 0 256;
  ok_i : in_u8 (s_i g);
  ok_j : in_u8 (s_j g)
}.
Definition valid (g : rng) : Prop := inited g = true → ok g.

Lemma length_table t : t ≡ₚ seqZ 0 256 → length t = 256%nat.
Proof. intros ->. reflexivity. Qed.

Lemma at_lookup t i : t ≡ₚ seqZ 0 256 → in_u8 i → t !! Z.to_nat i = Some (at_ t i).
Proof.
  intros Ht Hi. unfold at_, in_u8 in *. apply length_table in Ht. destruct (lookup_lt_is_Some_2 t (Z.to_nat i)) as [x Hx]; [lia|].
  rewrite nth_lookup, Hx. done.
Qed.

Lemma at_byte t i : t ≡ₚ seqZ 0 256 → in_u8 i → in_u8 (at_ t i).
Proof.
  intros Ht Hi. assert (Hin := list_elem_of_lookup_2 _ _ _ (at_lookup t i Ht Hi)). revert Hin. generalize (at_ t i). intros x.
  rewrite Ht, elem_of_seqZ. unfold in_u8. lia.
Qed.

Lemma swap_table a b t : in_u8 a → in_u8 b → t ≡ₚ seqZ 0 256 → swap_byte a b t ≡ₚ seqZ 0 256.
Proof. intros Ha Hb Ht. unfold swap_byte. rewrite swap_perm; [done|by apply at_lookup..]. Qed.

Lemma init_loop_ok n seed : ∀ i j t, 0 ≤ i → i + Z.of_nat n ≤ 256 → t ≡ₚ seqZ 0 256 → init_loop n seed i j t ≡ₚ seqZ 0 256.
Proof.
  induction n as [|n IH]; intros i j t Hi Hn Ht; [done|]. cbn [init_loop]. apply IH; [lia..|].
  apply swap_table; [unfold in_u8; lia|apply u8_range|done].
Qed.

Lemma random_init_ok seed g : ok (random_init seed g).
Proof.
  split; cbn [s s_i s_j random_init]; [apply init_loop_ok; [lia|lia|reflexivity]|unfold in_u8; lia..].
Qed.

(** One more byte. *)
Lemma step_ok g : ok g →
  let i := u8 (s_i g + 1) in let j := u8 (s_j g + at_ (s g) i) in let t := swap_byte i j (s g) in
  ok (MkRng t i j (inited g)) ∧ in_u8 (at_ t (u8 (at_ t i + at_ t j))).
Proof.
  intros [Ht Hi Hj] i j t. assert (Ht' : t ≡ₚ seqZ 0 256) by (apply swap_table; [apply u8_range..|done]).
  split; [split; [done|apply u8_range..]|]. apply at_byte; [done|apply u8_range].
Qed.

Lemma bytes_loop_ok n : ∀ g, ok g → let '(buf, g') := bytes_loop n g in
  length buf = n ∧ Forall in_u8 buf ∧ ok g' ∧ inited g' = inited g.
Proof.
  induction n as [|n IH]; intros g Hg; cbn [bytes_loop]; [done|]. destruct (step_ok g Hg) as [Hok Hb].
  specialize (IH _ Hok). destruct (bytes_loop n _) as [buf g']. destruct IH as (Hl & Hf & Hok' & Hin).
  split; [simpl; by rewrite Hl|]. split; [by constructor|]. done.
Qed.

Lemma bytes_loop_app n m : ∀ g, bytes_loop (n + m) g =
  let '(b1, g1) := bytes_loop n g in let '(b2, g2) := bytes_loop m g1 in (b1 ++ b2, g2).
Proof.
  induction n as [|n IH]; intros g; cbn [bytes_loop Nat.add]; [by destruct (bytes_loop m g)|]. rewrite IH.
  destruct (bytes_loop n _) as [b1 g1]. by destruct (bytes_loop m g1).
Qed.

(** The random number generator.  In whatever state it is, seeded or not,
    the table of [random_init] is a permutation of the 256 bytes; [random_bytes]
    gives as many bytes as asked for and keeps the table a permutation; and the
    bytes are one stream, whatever sizes it is read in. *)
Theorem random_stream n m seed g : valid g →
  ok (random_init seed g) ∧
  let '(b1, g1) := random_bytes n g in
  let '(b2, g2) := random_bytes m g1 in
  length b1 = n ∧ Forall in_u8 b1 ∧ ok g1 ∧ inited g1 = true ∧ random_bytes (n + m) g = (b1 ++ b2, g2).
Proof.
  intros Hv. split; [apply random_init_ok|]. unfold random_bytes.
  set (g0 := if inited g then g else random_init 0 g).
  assert (Hg0 : ok g0 ∧ inited g0 = true).
  { unfold g0. destruct (inited g) eqn:E; [split; [by apply Hv|done]|]. split; [apply random_init_ok|reflexivity]. }
  assert (H1 := bytes_loop_ok n g0 (proj1 Hg0)). rewrite bytes_loop_app.
  destruct (bytes_loop n g0) as [b1 g1]. destruct H1 as (Hl & Hf & Hok & Hin). rewrite Hin, (proj2 Hg0).
  by destruct (bytes_loop m g1).
Qed.

Lemma random_stream_witness : valid (MkRng [] 9 9 false) ∧ ok (snd (random_bytes 2 (MkRng [] 9 9 false))).
Proof.
  assert (Hv : valid (MkRng [] 9 9 false)) by discriminate. split; [exact Hv|].
  destruct (random_stream 2 3 0 (MkRng [] 9 9 false) Hv) as [_ H1]. destruct (random_bytes 2 _) as [b1 g1].
  destruct (random_bytes 3 g1) as [b2 g2]. apply H1.
Defined.
End Random.
