(* ===== verification/Block.v ===== *)
(** * Block devices: [src/pintos/devices/block.c] and the read and write
    operations of [src/pintos/devices/partition.c]

    A driver is the pair of functions of [struct block_operations].  Its
    contract is the class [BlockDriver]: what the comments of [block.h]
    promise, reading a sector returns what was last written to it.  [block.c]
    adds the bounds check and the counters on top of any driver; a partition
    is again a driver over the block device it belongs to. *)
From S2P Require Import Prelude CInt.

Open Scope Z_scope.

Definition BLOCK_SECTOR_SIZE : Z := 512.

(** [enum block_type]. *)
Inductive block_type :=
| BLOCK_KERNEL | BLOCK_FILESYS | BLOCK_SCRATCH | BLOCK_SWAP | BLOCK_RAW | BLOCK_FOREIGN.

#[export] Instance block_type_eq_dec : EqDecision block_type.
Proof. solve_decision. Defined.

Definition is_sector (data : list Z) : Prop := length data = 512%nat.

(** The contract of a driver for a device of [n] sectors. *)
Class BlockDriver (D : Type) := {
  drv_read : Z → ST D (list Z);
  drv_write : Z → list Z → ST D unit;
  (** What the device holds, and whether it is a working device of [n] sectors. *)
  drv_sector : D → Z → list Z;
  drv_ok : D → Z → Prop;
  drv_sector_len d n s : drv_ok d n → 0 ≤ s < n → is_sector (drv_sector d s);
  drv_read_spec d n s : drv_ok d n → 0 ≤ s < n →
    ∃ d', drv_read s d = Ok (drv_sector d s, d') ∧ drv_ok d' n ∧
          ∀ m, drv_sector d' m = drv_sector d m;
  drv_write_spec d n s data : drv_ok d n → 0 ≤ s < n → is_sector data →
    ∃ d', drv_write s data d = Ok (tt, d') ∧ drv_ok d' n ∧
          ∀ m, drv_sector d' m = if m =? s then data else drv_sector d m;
}.

Module Block.

(** [struct block]; [aux] is the driver's own data. *)
Record block (D : Type) := MkBlock {
  type : block_type;
  size : Z;
  aux : D;
  read_cnt : Z;
  write_cnt : Z;
}.
Arguments MkBlock {D}.
Arguments type {D}.
Arguments size {D}.
Arguments aux {D}.
Arguments read_cnt {D}.
Arguments write_cnt {D}.

Section ops.
Context {D : Type} `{!BlockDriver D}.

Definition set_aux (d : D) (b : block D) : block D :=
  MkBlock (type b) (size b) d (read_cnt b) (write_cnt b).

Definition check_sector (sector : Z) : ST (block D) unit :=
  b ← get; if size b <=? sector then fail Panic else mret tt.

Definition block_read (sector : Z) : ST (block D) (list Z) :=
  check_sector sector ;;
  buffer ← zoom aux set_aux (drv_read sector);
  modify (λ b, MkBlock (type b) (size b) (aux b) (u64 (read_cnt b + 1)) (write_cnt b)) ;;
  mret buffer.

Definition block_write (sector : Z) (buffer : list Z) : ST (block D) unit :=
  check_sector sector ;;
  b ← get; ASSERT (negb (bool_decide (type b = BLOCK_FOREIGN))) ;;
  zoom aux set_aux (drv_write sector buffer) ;;
  modify (λ b, MkBlock (type b) (size b) (aux b) (read_cnt b) (u64 (write_cnt b + 1))).

Definition block_size (b : block D) : Z := size b.

(** A usable device: the driver works, and it may be written. *)
Definition block_ok (b : block D) : Prop :=
  0 ≤ size b < 2 ^ 32 ∧ type b ≠ BLOCK_FOREIGN ∧ drv_ok (aux b) (size b).
Definition sector_of (b : block D) (s : Z) : list Z := drv_sector (aux b) s.

Lemma block_read_ok b s :
  block_ok b → 0 ≤ s < size b →
  ∃ b', block_read s b = Ok (sector_of b s, b') ∧ block_ok b' ∧ size b' = size b ∧
        ∀ m, sector_of b' m = sector_of b m.
Proof.
  intros (Hsz & Hty & Hd) Hs. destruct (drv_read_spec _ _ s Hd Hs) as (d' & Hrun & Hd' & Hm).
  unfold block_read, check_sector.
  erewrite run_bind_ok; [|erewrite run_bind_ok; [|reflexivity]].
  2:{ destruct (Z.leb_spec (size b) s); [lia|reflexivity]. }
  erewrite run_bind_ok; [|by apply run_zoom_ok].
  erewrite run_bind_ok; [|reflexivity]. eexists. split; [done|].
  split; [|done]. done.
Qed.

Lemma block_write_ok b s data :
  block_ok b → 0 ≤ s < size b → is_sector data →
  ∃ b', block_write s data b = Ok (tt, b') ∧ block_ok b' ∧ size b' = size b ∧
        ∀ m, sector_of b' m = if m =? s then data else sector_of b m.
Proof.
  intros (Hsz & Hty & Hd) Hs Hdata.
  destruct (drv_write_spec _ _ s data Hd Hs Hdata) as (d' & Hrun & Hd' & Hm).
  unfold block_write, check_sector.
  erewrite run_bind_ok; [|erewrite run_bind_ok; [|reflexivity]].
  2:{ destruct (Z.leb_spec (size b) s); [lia|reflexivity]. }
  erewrite run_bind_ok; [|reflexivity].
  run_assert; [|by rewrite bool_decide_false].
  erewrite run_bind_ok; [|by apply run_zoom_ok]. eexists. split; [reflexivity|]. done.
Qed.

(** Access past the end of the device panics. *)
Lemma block_read_past_end b s : size b ≤ s → block_read s b = Err Panic.
Proof.
  intros Hs. unfold block_read. apply run_bind_err. unfold check_sector.
  erewrite run_bind_ok; [|reflexivity]. destruct (Z.leb_spec (size b) s); [done|lia].
Qed.
End ops.

(** ** Partitions *)

(** [struct partition]. *)
Record partition (D : Type) := MkPartition { p_block : block D; p_start : Z }.
Arguments MkPartition {D}.
Arguments p_block {D}.
Arguments p_start {D}.

Section partition.
Context {D : Type} `{!BlockDriver D}.

Definition set_p_block (b : block D) (p : partition D) : partition D := MkPartition b (p_start p).

Definition partition_read (sector : Z) : ST (partition D) (list Z) :=
  p ← get; zoom p_block set_p_block (block_read (u32 (p_start p + sector))).

Definition partition_write (sector : Z) (buffer : list Z) : ST (partition D) unit :=
  p ← get; zoom p_block set_p_block (block_write (u32 (p_start p + sector)) buffer).

Definition partition_ok (p : partition D) (n : Z) : Prop :=
  block_ok (p_block p) ∧ 0 ≤ p_start p ∧ 0 ≤ n ∧ p_start p + n ≤ size (p_block p).

(** A partition that lies within its device meets the driver contract: it
    reads and writes its own sectors only, at the right place. *)
#[export] Program Instance partition_driver : BlockDriver (partition D) := {|
  drv_read := partition_read;
  drv_write := partition_write;
  drv_sector p s := sector_of (p_block p) (p_start p + s);
  drv_ok := partition_ok;
|}.
Next Obligation.
  intros p n s ((Hb & _ & Hd) & H0 & H1 & H2) Hs. eapply drv_sector_len; [exact Hd|lia].
Qed.
Next Obligation.
  intros p n s (Hb & H0 & H1 & H2) Hs. assert (Hsz := proj1 Hb).
  destruct (block_read_ok (p_block p) (p_start p + s) Hb) as (b' & Hrun & Hb' & Hsize & Hm); [lia|].
  exists (set_p_block b' p). unfold partition_read. erewrite run_bind_ok; [|reflexivity].
  rewrite u32_id by (unfold in_u32; lia). erewrite run_zoom_ok; [|done].
  split; [done|]. split; [|intros m; apply Hm].
  unfold partition_ok. simpl. rewrite Hsize. done.
Qed.
Next Obligation.
  intros p n s data (Hb & H0 & H1 & H2) Hs Hdata. assert (Hsz := proj1 Hb).
  destruct (block_write_ok (p_block p) (p_start p + s) data Hb) as (b' & Hrun & Hb' & Hsize & Hm);
    [lia|done|].
  exists (set_p_block b' p). unfold partition_write. erewrite run_bind_ok; [|reflexivity].
  rewrite u32_id by (unfold in_u32; lia). erewrite run_zoom_ok; [|done].
  split; [done|]. split; [unfold partition_ok; simpl; rewrite Hsize; done|].
  intros m. rewrite Hm. simpl. destruct (Z.eqb_spec m s), (Z.eqb_spec (p_start p + m) (p_start p + s));
    (done || lia).
Qed.
End partition.

(** ** A driver for examples: sectors held in a list. *)
Abbreviation ramdisk := (list (list Z)).

#[export] Program Instance ramdisk_driver : BlockDriver ramdisk := {|
  drv_read s := d ← get; deref (d !! Z.to_nat s);
  drv_write s data := d ← get; deref (d !! Z.to_nat s) ;; put (<[Z.to_nat s := data]> d);
  drv_sector d s := if s <? 0 then [] else default [] (d !! Z.to_nat s);
  drv_ok d n := n = Z.of_nat (length d) ∧ Forall is_sector d;
|}.
Next Obligation.
  intros d n s [-> Hd] Hs. simpl. destruct (Z.ltb_spec s 0); [lia|].
  destruct (lookup_lt_is_Some_2 d (Z.to_nat s)) as [x Hx]; [lia|]. rewrite Hx. simpl.
  by eapply (Forall_lookup_1 _ _ _ _ Hd).
Qed.
Next Obligation.
  intros d n s [-> Hd] Hs. destruct (lookup_lt_is_Some_2 d (Z.to_nat s)) as [x Hx]; [lia|].
  exists d. split; [|done]. erewrite run_bind_ok; [|reflexivity]. rewrite Hx.
  destruct (Z.ltb_spec s 0); [lia|done].
Qed.
Next Obligation.
  intros d n s data [-> Hd] Hs Hdata. destruct (lookup_lt_is_Some_2 d (Z.to_nat s)) as [x Hx]; [lia|].
  exists (<[Z.to_nat s := data]> d). split; [|split].
  - erewrite run_bind_ok; [|reflexivity]. by rewrite Hx.
  - rewrite length_insert. split; [done|]. by apply Forall_insert.
  - intros m. simpl. destruct (Z.ltb_spec m 0); [destruct (Z.eqb_spec m s); [lia|done]|].
    destruct (Z.eqb_spec m s) as [->|Hm].
    + by rewrite list_lookup_insert_eq by lia.
    + by rewrite list_lookup_insert_ne by lia.
Qed.

End Block.
