(* ===== verification/Intq.v ===== *)
(** * Interrupt queues: [src/pintos/devices/intq.c]

    The circular buffer between drivers and threads.  [level_off] says that
    interrupts are off, [in_intr] that an interrupt handler runs, [cur] is the
    running thread.  A call that has to wait ends where the thread blocks, or
    where it finds the queue's lock taken; it goes on with [woken] when it runs
    again.  [unblocked] are the threads that the queue has woken, in order. *)
From S2P Require Import Prelude CInt.

Open Scope Z_scope.

Module Intq.

Definition INTQ_BUFSIZE : Z := 64.

Record intq := MkIntq {
  lock_holder : option Z;
  not_full : option Z;
  not_empty : option Z;
  buf : list Z;
  head : Z;
  tail : Z;
  unblocked : list Z
}.

Definition set_lock x q := MkIntq x (not_full q) (not_empty q) (buf q) (head q) (tail q) (unblocked q).

(** Whether the call is done or its thread waits: for the lock, or for the
    condition. *)
Inductive outcome (A : Type) := Done (a : A) | Lock | Wait.
Arguments Done {A}.
Arguments Lock {A}.
Arguments Wait {A}.

(** The address of the [not_full] or of the [not_empty] member. *)
Inductive waiter := NotFull | NotEmpty.
Definition get_waiter (w : waiter) (q : intq) : option Z := match w with NotFull => not_full q | NotEmpty => not_empty q end.
Definition set_waiter (w : waiter) (x : option Z) (q : intq) : intq :=
  match w with
  | NotFull => MkIntq (lock_holder q) x (not_empty q) (buf q) (head q) (tail q) (unblocked q)
  | NotEmpty => MkIntq (lock_holder q) (not_full q) x (buf q) (head q) (tail q) (unblocked q)
  end.

Definition intq_init (q : intq) : intq := MkIntq None None None (buf q) 0 0 (unblocked q).

Definition next (pos : Z) : Z := Z.rem (pos + 1) INTQ_BUFSIZE.

Section intq.
Context (level_off in_intr : bool) (cur : Z).
Abbreviation M := (ST intq).

Definition intq_empty : M bool := ASSERT level_off ;; gets (λ q, head q =? tail q).
Definition intq_full : M bool := ASSERT level_off ;; gets (λ q, next (head q) =? tail q).

Definition holds (w : waiter) : M bool := match w with NotEmpty => intq_empty | NotFull => intq_full end.

(** [wait] up to [thread_block]. *)
Definition wait (w : waiter) : M unit :=
  ASSERT (negb in_intr) ;;
  ASSERT level_off ;;
  b ← holds w; ASSERT b ;;
  modify (set_waiter w (Some cur)).

(** [thread_unblock] of the waiting thread. *)
Definition unblock (t : Z) (q : intq) : intq :=
  MkIntq (lock_holder q) (not_full q) (not_empty q) (buf q) (head q) (tail q) (unblocked q ++ [t]).
Definition signal (w : waiter) : M unit :=
  ASSERT level_off ;;
  b ← holds w; ASSERT (negb b) ;;
  q ← get;
  match get_waiter w q with
  | Some t => modify (unblock t) ;; modify (set_waiter w None)
  | None => mret tt
  end.

(** One turn of the loops: [lock_acquire], which panics if the thread has the
    lock, and [wait]. *)
Definition sleep {A} (w : waiter) : M (outcome A) :=
  ASSERT (negb in_intr) ;;
  q ← get;
  ASSERT (bool_decide (lock_holder q ≠ Some cur)) ;;
  match lock_holder q with
  | Some _ => mret Lock
  | None => modify (set_lock (Some cur)) ;; wait w ;; mret Wait
  end.

Definition intq_getc : M (outcome Z) :=
  ASSERT level_off ;;
  e ← intq_empty;
  if e : bool then sleep NotEmpty else
  q ← get;
  byte ← deref (buf q !! Z.to_nat (tail q));
  modify (λ q, MkIntq (lock_holder q) (not_full q) (not_empty q) (buf q) (head q) (next (tail q)) (unblocked q)) ;;
  signal NotFull ;;
  mret (Done byte).

Definition intq_putc (byte : Z) : M (outcome unit) :=
  ASSERT level_off ;;
  f ← intq_full;
  if f : bool then sleep NotFull else
  modify (λ q, MkIntq (lock_holder q) (not_full q) (not_empty q) (<[Z.to_nat (head q) := byte]> (buf q)) (next (head q)) (tail q) (unblocked q)) ;;
  signal NotEmpty ;;
  mret (Done tt).

(** A thread that waited runs again: [lock_release] and the next turn. *)
Definition woken {A} (m : M A) : M A :=
  q ← get; ASSERT (bool_decide (lock_holder q = Some cur)) ;; modify (set_lock None) ;; m.
End intq.

(** ** The queue *)

Record ok (q : intq) : Prop := MkOk {
  ok_buf : length (buf q) = 64%nat;
  ok_head : 0 ≤ head q < INTQ_BUFSIZE;
  ok_tail : 0 ≤ tail q < INTQ_BUFSIZE
}.

(** How many bytes it holds, and which. *)
Definition count (q : intq) : Z := (head q - tail q) mod INTQ_BUFSIZE.
Definition contents (q : intq) : list Z :=
  (λ i, nth (Z.to_nat ((tail q + i) mod INTQ_BUFSIZE)) (buf q) 0) <$> seqZ 0 (count q).

Lemma next_mod p : 0 ≤ p → next p = (p + 1) mod INTQ_BUFSIZE.
Proof. intros. unfold next. apply Z.rem_mod_nonneg; [lia|done]. Qed.

Lemma empty_count q : ok q → (head q =? tail q) = (count q =? 0).
Proof.
  intros [_ Hh Ht]. unfold count, INTQ_BUFSIZE in *. apply eq_true_iff_eq. rewrite !Z.eqb_eq. split; [intros ->; by rewrite Z.sub_diag|].
  intros E. apply Z.mod_divide in E as [k Hk]; lia.
Qed.
Lemma full_count q : ok q → (next (head q) =? tail q) = (count q =? 63).
Proof.
  intros [_ Hh Ht]. unfold count. rewrite next_mod by lia. unfold INTQ_BUFSIZE in *. apply eq_true_iff_eq. rewrite !Z.eqb_eq.
  split; intros E; Z.div_mod_to_equations; lia.
Qed.

Definition put_state (byte : Z) (q : intq) : intq :=
  MkIntq (lock_holder q) (not_full q) (not_empty q) (<[Z.to_nat (head q) := byte]> (buf q)) (next (head q)) (tail q) (unblocked q).
Definition get_state (q : intq) : intq :=
  MkIntq (lock_holder q) (not_full q) (not_empty q) (buf q) (head q) (next (tail q)) (unblocked q).

Lemma count_range q : 0 ≤ count q < 64.
Proof. apply Z.mod_pos_bound. done. Qed.

Lemma next_range p : 0 ≤ p → 0 ≤ next p < INTQ_BUFSIZE.
Proof. intros Hp. rewrite next_mod by done. by apply Z.mod_pos_bound. Qed.

Lemma put_state_ok byte q : ok q → ok (put_state byte q).
Proof. intros [Hb Hh Ht]. split; simpl; [by rewrite length_insert|apply next_range; lia|done]. Qed.
Lemma get_state_ok q : ok q → ok (get_state q).
Proof. intros [Hb Hh Ht]. split; simpl; [done|done|apply next_range; lia]. Qed.

Lemma put_count byte q : ok q → count q < 63 → count (put_state byte q) = count q + 1.
Proof.
  intros [Hb Hh Ht] Hc. unfold count in *. cbn [head tail put_state]. rewrite next_mod by lia. unfold INTQ_BUFSIZE in *.
  Z.div_mod_to_equations; lia.
Qed.
Lemma get_count q : ok q → 0 < count q → count (get_state q) = count q - 1.
Proof.
  intros [Hb Hh Ht] Hc. unfold count in *. cbn [head tail get_state]. rewrite next_mod by lia. unfold INTQ_BUFSIZE in *.
  Z.div_mod_to_equations; lia.
Qed.

Lemma queue_put_contents byte q : ok q → count q < 63 → contents (put_state byte q) = contents q ++ [byte].
Proof.
  intros Hok Hc. assert (Hr := count_range q). unfold contents. rewrite (put_count byte q Hok Hc).
  rewrite seqZ_app, fmap_app by lia. cbn [tail buf put_state]. destruct Hok as [Hb Hh Ht]. f_equal.
  - apply list_fmap_ext. intros k i Hi. apply lookup_seqZ in Hi as [-> Hk]. rewrite !nth_lookup, list_lookup_insert_ne; [done|].
    unfold count, INTQ_BUFSIZE in *. intros E. apply Z2Nat.inj in E; Z.div_mod_to_equations; lia.
  - assert (Es : seqZ (0 + count q) 1 = [count q]) by (unfold seqZ; cbn; f_equal; lia). rewrite Es, list_fmap_singleton. f_equal.
    assert (E : (tail q + count q) mod INTQ_BUFSIZE = head q).
    { unfold count, INTQ_BUFSIZE in *. Z.div_mod_to_equations; lia. }
    rewrite E, nth_lookup, list_lookup_insert_eq by (unfold INTQ_BUFSIZE in *; lia). done.
Qed.

Lemma get_contents q : ok q → 0 < count q → ∃ byte, buf q !! Z.to_nat (tail q) = Some byte ∧ contents q = byte :: contents (get_state q).
Proof.
  intros Hok Hc. assert (Hg := get_count q Hok Hc). destruct Hok as [Hb Hh Ht]. unfold INTQ_BUFSIZE in Ht.
  destruct (lookup_lt_is_Some_2 (buf q) (Z.to_nat (tail q))) as [byte Hbyte]; [lia|]. exists byte. split; [done|].
  unfold contents. rewrite Hg, seqZ_cons by lia. rewrite fmap_cons. f_equal.
  - rewrite Z.add_0_r, Z.mod_small by (unfold INTQ_BUFSIZE; lia). by rewrite nth_lookup, Hbyte.
  - change (Z.succ 0) with (1 + 0). replace (Z.pred (count q)) with (count q - 1) by lia.
    rewrite <- fmap_add_seqZ, <- list_fmap_compose. apply list_fmap_ext. intros k i _. cbn [compose tail buf get_state].
    do 2 f_equal. rewrite next_mod by lia. unfold INTQ_BUFSIZE. rewrite Z.add_mod_idemp_l by done. f_equal. lia.
Qed.

(** ** What the operations do *)
Definition wake (w : waiter) (q : intq) : intq :=
  match get_waiter w q with Some t => set_waiter w None (unblock t q) | None => q end.

Lemma signal_ok q w : holds true w q = Ok (false, q) → signal true w q = Ok (tt, wake w q).
Proof.
  intros Hh. unfold signal. run_assert; [|done]. rewrite (run_bind_ok _ _ _ _ _ Hh). run_assert; [|done].
  erewrite run_bind_ok by reflexivity. unfold wake. by destruct (get_waiter w q).
Qed.

Lemma empty_ok q : ok q → intq_empty true q = Ok (count q =? 0, q).
Proof. intros Hq. unfold intq_empty. run_assert; [|done]. unfold gets. by rewrite empty_count. Qed.
Lemma full_ok q : ok q → intq_full true q = Ok (count q =? 63, q).
Proof. intros Hq. unfold intq_full. run_assert; [|done]. unfold gets. by rewrite full_count. Qed.

Lemma wake_contents w q : contents (wake w q) = contents q ∧ (ok q → ok (wake w q)).
Proof. unfold wake. destruct (get_waiter w q); [|done]. destruct w; (split; [done|by intros []]). Qed.

Lemma length_queue q : Z.of_nat (length (contents q)) = count q.
Proof. unfold contents. rewrite length_fmap, length_seqZ. assert (H := count_range q). lia. Qed.

(** A call that has to wait: an interrupt handler panics, and so does a thread
    that has the lock; a thread that finds it taken waits for it; otherwise it
    takes the lock and becomes the waiter.  The bytes stay as they are. *)
Definition waits {A} (in_intr : bool) (cur : Z) (w : waiter) (q : intq) : res (outcome A * intq) :=
  if in_intr then Err Panic else
  match lock_holder q with
  | None => Ok (Wait, set_waiter w (Some cur) (set_lock (Some cur) q))
  | Some t => if decide (t = cur) then Err Panic else Ok (Lock, q)
  end.

Lemma sleep_ok {A} in_intr cur q w : (∀ x, holds true w (set_lock x q) = Ok (true, set_lock x q)) →
  sleep (A := A) true in_intr cur w q = waits in_intr cur w q.
Proof.
  intros Hs. unfold sleep, waits. destruct in_intr; [done|]. run_assert; [|done]. erewrite run_bind_ok by reflexivity.
  destruct (lock_holder q) as [t|] eqn:Hl.
  - destruct (decide (t = cur)) as [->|Hne]; [by rewrite bool_decide_false by congruence|]. run_assert; [done|].
    apply bool_decide_eq_true. congruence.
  - run_assert; [|done]. erewrite run_bind_ok by reflexivity. erewrite run_bind_ok; [reflexivity|]. unfold wait.
    run_assert; [|done]. run_assert; [|done]. rewrite (run_bind_ok _ _ _ _ _ (Hs _)). run_assert; [|done]. done.
Qed.

Lemma intq_putc_ok in_intr cur q byte : ok q →
  if decide (length (contents q) = 63%nat)
   then intq_putc true in_intr cur byte q = waits in_intr cur NotFull q
   else ∃ q', intq_putc true in_intr cur byte q = Ok (Done tt, q') ∧ ok q' ∧ contents q' = contents q ++ [byte] ∧
          unblocked q' = unblocked q ++ option_list (not_empty q) ∧ not_empty q' = None.
Proof.
  intros Hq. assert (Hr := count_range q). assert (Hlen := length_queue q).
  unfold intq_putc. run_assert; [|done]. rewrite (run_bind_ok _ _ _ _ _ (full_ok q Hq)).
  destruct (decide (length (contents q) = 63%nat)) as [E|E].
  + rewrite (proj2 (Z.eqb_eq _ _)) by lia. apply sleep_ok. intros x. cbn [holds]. rewrite full_ok by (by destruct Hq).
    unfold count. cbn [head tail set_lock]. fold (count q). by rewrite (proj2 (Z.eqb_eq _ _)) by lia.
  + rewrite (proj2 (Z.eqb_neq _ _)) by lia. erewrite run_bind_ok by reflexivity. fold (put_state byte q).
    assert (Hq' := put_state_ok byte q Hq). assert (Hc := put_count byte q Hq ltac:(lia)).
    rewrite (run_bind_ok _ _ _ _ _ (signal_ok (put_state byte q) NotEmpty ltac:(cbn [holds]; rewrite (empty_ok _ Hq'), (proj2 (Z.eqb_neq _ _)) by lia; done))).
    eexists. split; [reflexivity|]. destruct (wake_contents NotEmpty (put_state byte q)) as [Ec Hok].
    split; [by apply Hok|]. split; [rewrite Ec; apply queue_put_contents; [done|lia]|].
    unfold wake. cbn [get_waiter put_state not_empty]. destruct (not_empty q) eqn:En; [done|]. split; [symmetry; apply app_nil_r|done].
Qed.

Lemma intq_getc_ok in_intr cur q : ok q →
  match contents q with
  | [] => intq_getc true in_intr cur q = waits in_intr cur NotEmpty q
  | b :: rest => ∃ q', intq_getc true in_intr cur q = Ok (Done b, q') ∧ ok q' ∧ contents q' = rest ∧
          unblocked q' = unblocked q ++ option_list (not_full q) ∧ not_full q' = None
  end.
Proof.
  intros Hq. assert (Hr := count_range q). assert (Hlen := length_queue q).
  unfold intq_getc. run_assert; [|done]. rewrite (run_bind_ok _ _ _ _ _ (empty_ok q Hq)).
  destruct (Z.eq_dec (count q) 0) as [E|E].
  + assert (Ec : contents q = []) by (unfold contents; rewrite E; done). rewrite Ec. rewrite (proj2 (Z.eqb_eq _ _)) by lia.
    apply sleep_ok. intros x. cbn [holds]. rewrite empty_ok by (by destruct Hq). unfold count. cbn [head tail set_lock]. fold (count q). by rewrite E.
  + rewrite (proj2 (Z.eqb_neq _ _)) by lia. destruct (get_contents q Hq ltac:(lia)) as (b & Hb & Ec). rewrite Ec.
    erewrite run_bind_ok by reflexivity. rewrite Hb. erewrite run_bind_ok by reflexivity. erewrite run_bind_ok by reflexivity. fold (get_state q).
    assert (Hq' := get_state_ok q Hq). assert (Hc := get_count q Hq ltac:(lia)).
    rewrite (run_bind_ok _ _ _ _ _ (signal_ok (get_state q) NotFull ltac:(cbn [holds]; rewrite (full_ok _ Hq'), (proj2 (Z.eqb_neq _ _)) by lia; done))).
    eexists. split; [reflexivity|]. destruct (wake_contents NotFull (get_state q)) as [Ec' Hok].
    split; [by apply Hok|]. split; [exact Ec'|].
    unfold wake. cbn [get_waiter get_state not_full]. destruct (not_full q) eqn:En; [done|]. split; [symmetry; apply app_nil_r|done].
Qed.

(** C36: An interrupt queue is a bounded queue of 63 bytes: it stays well
    formed; [intq_putc] appends a byte and wakes the waiting reader, [intq_getc]
    takes the first byte and wakes the waiting writer; when the queue is full or
    empty the call waits, as [waits] says. *)
Theorem intq_refines_queue in_intr cur q byte : ok q →
  (length (contents q) ≤ 63)%nat ∧
  (if decide (length (contents q) = 63%nat)
   then intq_putc true in_intr cur byte q = waits in_intr cur NotFull q
   else ∃ q', intq_putc true in_intr cur byte q = Ok (Done tt, q') ∧ ok q' ∧ contents q' = contents q ++ [byte] ∧
          unblocked q' = unblocked q ++ option_list (not_empty q) ∧ not_empty q' = None) ∧
  match contents q with
  | [] => intq_getc true in_intr cur q = waits in_intr cur NotEmpty q
  | b :: rest => ∃ q', intq_getc true in_intr cur q = Ok (Done b, q') ∧ ok q' ∧ contents q' = rest ∧
          unblocked q' = unblocked q ++ option_list (not_full q) ∧ not_full q' = None
  end.
Proof.
  intros Hq. assert (Hr := count_range q). assert (Hlen := length_queue q). split; [lia|].
  split; [by apply intq_putc_ok|by apply intq_getc_ok].
Qed.

Definition demo : intq := MkIntq (Some 5) (Some 5) None (seqZ 0 64) 1 62 [].
Lemma intq_refines_queue_witness : contents demo = [62; 63; 0] ∧
  ∃ q, intq_getc true false 1 demo = Ok (Done 62, q) ∧ contents q = [63; 0] ∧ unblocked q = [5].
Proof.
  split; [reflexivity|]. assert (Hq : ok demo) by (split; [reflexivity|split; vm_compute; congruence..]).
  destruct (intq_refines_queue false 1 demo 9 Hq) as (_ & _ & q & H1 & _ & H2 & H3 & _).
  exists q. split; [exact H1|]. split; [exact H2|exact H3].
Defined.
End Intq.
