(* ===== verification/Partition.v ===== *)
(** * The registry of block devices and partition tables

    The scan of [src/pintos/devices/partition.c], the registry of
    [src/pintos/devices/block.c] and the choice of devices of
    [src/pintos/threads/init.c].  A partition table is the sector that holds
    it; [table_entry] takes an entry apart.  A registered device is its
    position in [all_blocks]; for a partition the entry has the place on the
    disk and the text that is printed with it; other messages are left out. *)
From S2P Require Import Prelude CInt CString CStdlib Stdio StdioSpec Ustar Bytes Block.
From stdpp Require Import strings.

Open Scope Z_scope.

Module Partition.
Import Block.

Record partition_table_entry := MkEntry { bootable : Z; type : Z; offset : Z; size : Z }.

Definition byte (bs : list Z) (i : nat) : Z := nth i bs 0.
Definition word (bs : list Z) (i : nat) : Z := un32 (byte bs i) (byte bs (i + 1)) (byte bs (i + 2)) (byte bs (i + 3)).

(** The entries of the table in a sector, and its signature. *)
Definition table_entry (pt : list Z) (i : nat) : partition_table_entry :=
  let e := (446 + 16 * i)%nat in MkEntry (byte pt e) (byte pt (e + 4)) (word pt (e + 8)) (word pt (e + 12)).
Definition partitions (pt : list Z) : list partition_table_entry := table_entry pt <$> seq 0 4.
Definition signature (pt : list Z) : Z := byte pt 510 + 2 ^ 8 * byte pt 511.

Definition type_names : list (Z * string) :=
  [(0x00, "Empty"); (0x01, "FAT12"); (0x02, "XENIX root"); (0x03, "XENIX usr");
   (0x04, "FAT16 <32M"); (0x05, "Extended"); (0x06, "FAT16"); (0x07, "HPFS/NTFS");
   (0x08, "AIX"); (0x09, "AIX bootable"); (0x0a, "OS/2 Boot Manager"); (0x0b, "W95 FAT32");
   (0x0c, "W95 FAT32 (LBA)"); (0x0e, "W95 FAT16 (LBA)"); (0x0f, "W95 Ext'd (LBA)"); (0x10, "OPUS");
   (0x11, "Hidden FAT12"); (0x12, "Compaq diagnostics"); (0x14, "Hidden FAT16 <32M"); (0x16, "Hidden FAT16");
   (0x17, "Hidden HPFS/NTFS"); (0x18, "AST SmartSleep"); (0x1b, "Hidden W95 FAT32"); (0x1c, "Hidden W95 FAT32 (LBA)");
   (0x1e, "Hidden W95 FAT16 (LBA)"); (0x20, "Pintos OS kernel"); (0x21, "Pintos file system"); (0x22, "Pintos scratch");
   (0x23, "Pintos swap"); (0x24, "NEC DOS"); (0x39, "Plan 9"); (0x3c, "PartitionMagic recovery");
   (0x40, "Venix 80286"); (0x41, "PPC PReP Boot"); (0x42, "SFS"); (0x4d, "QNX4.x");
   (0x4e, "QNX4.x 2nd part"); (0x4f, "QNX4.x 3rd part"); (0x50, "OnTrack DM"); (0x51, "OnTrack DM6 Aux1");
   (0x52, "CP/M"); (0x53, "OnTrack DM6 Aux3"); (0x54, "OnTrackDM6"); (0x55, "EZ-Drive");
   (0x56, "Golden Bow"); (0x5c, "Priam Edisk"); (0x61, "SpeedStor"); (0x63, "GNU HURD or SysV");
   (0x64, "Novell Netware 286"); (0x65, "Novell Netware 386"); (0x70, "DiskSecure Multi-Boot"); (0x75, "PC/IX");
   (0x80, "Old Minix"); (0x81, "Minix / old Linux"); (0x82, "Linux swap / Solaris"); (0x83, "Linux");
   (0x84, "OS/2 hidden C: drive"); (0x85, "Linux extended"); (0x86, "NTFS volume set"); (0x87, "NTFS volume set");
   (0x88, "Linux plaintext"); (0x8e, "Linux LVM"); (0x93, "Amoeba"); (0x94, "Amoeba BBT");
   (0x9f, "BSD/OS"); (0xa0, "IBM Thinkpad hibernation"); (0xa5, "FreeBSD"); (0xa6, "OpenBSD");
   (0xa7, "NeXTSTEP"); (0xa8, "Darwin UFS"); (0xa9, "NetBSD"); (0xab, "Darwin boot");
   (0xb7, "BSDI fs"); (0xb8, "BSDI swap"); (0xbb, "Boot Wizard hidden"); (0xbe, "Solaris boot");
   (0xbf, "Solaris"); (0xc1, "DRDOS/sec (FAT-12)"); (0xc4, "DRDOS/sec (FAT-16 < 32M)"); (0xc6, "DRDOS/sec (FAT-16)");
   (0xc7, "Syrinx"); (0xda, "Non-FS data"); (0xdb, "CP/M / CTOS / ..."); (0xde, "Dell Utility");
   (0xdf, "BootIt"); (0xe1, "DOS access"); (0xe3, "DOS R/O"); (0xe4, "SpeedStor");
   (0xeb, "BeOS fs"); (0xee, "EFI GPT"); (0xef, "EFI (FAT-12/16/32)"); (0xf0, "Linux/PA-RISC boot");
   (0xf1, "SpeedStor"); (0xf4, "SpeedStor"); (0xf2, "DOS secondary"); (0xfd, "Linux raid autodetect");
   (0xfe, "LANstep"); (0xff, "BBT")].
Definition partition_type_name (type : Z) : list Z :=
  match list_find (λ e, e.1 = type) type_names with Some (_, (_, n)) => Stdio.chars n | None => Stdio.chars "Unknown" end.

(** An element of [all_blocks], as [block_register] fills it in; [r_info] is
    the text printed with it and [r_start] the place of a partition. *)
Record registered := MkRegistered { r_name : list Z; r_type : block_type; r_info : list Z; r_size : Z; r_start : Z }.

Record registry := MkRegistry { all_blocks : list registered; block_by_role : block_type → option nat }.

(** ** The registry *)
Section registry.
Abbreviation M := (ST registry).

(** [role < BLOCK_ROLE_CNT]. *)
Definition is_role (role : block_type) : bool :=
  match role with BLOCK_KERNEL | BLOCK_FILESYS | BLOCK_SCRATCH | BLOCK_SWAP => true | BLOCK_RAW | BLOCK_FOREIGN => false end.

Definition block_type_name (t : block_type) : list Z :=
  Stdio.chars (match t with
    | BLOCK_KERNEL => "kernel" | BLOCK_FILESYS => "filesys" | BLOCK_SCRATCH => "scratch"
    | BLOCK_SWAP => "swap" | BLOCK_RAW => "raw" | BLOCK_FOREIGN => "foreign" end).

Definition block_get_role (role : block_type) : M (option nat) := ASSERT (is_role role) ;; gets (λ r, block_by_role r role).
Definition block_set_role (role : block_type) (b : option nat) : M unit :=
  ASSERT (is_role role) ;;
  modify (λ r, MkRegistry (all_blocks r) (λ t, if decide (t = role) then b else block_by_role r t)).

(** [list_elem_to_block]: no device at the end of the list. *)
Definition list_elem_to_block (i : nat) : M (option nat) := gets (λ r, if decide (i < length (all_blocks r))%nat then Some i else None).
Definition block_first : M (option nat) := list_elem_to_block 0.
Definition block_next (i : nat) : M (option nat) := list_elem_to_block (S i).

Fixpoint by_name_loop (name : list Z) (l : list registered) (i : nat) : option nat :=
  match l with
  | [] => None
  | b :: l => if bool_decide (name = r_name b) then Some i else by_name_loop name l (S i)
  end.
Definition block_get_by_name (name : list Z) : M (option nat) := gets (λ r, by_name_loop name (all_blocks r) 0).

Definition block_register (name : list Z) (type : block_type) (extra_info : list Z) (size start : Z) : M nat :=
  r ← get;
  put (MkRegistry (all_blocks r ++ [MkRegistered (take 15 name) type extra_info size start]) (block_by_role r)) ;;
  mret (length (all_blocks r)).

(** The search for a device of the type [role], from [block] on. *)
Fixpoint locate_loop (fuel : nat) (role : block_type) (block : option nat) : M (option nat) :=
  match block with
  | None => mret None
  | Some i =>
    r ← get;
    b ← deref (all_blocks r !! i);
    if bool_decide (r_type b = role) then mret (Some i)
    else match fuel with O => fail Timeout | S fuel => next ← block_next i; locate_loop fuel role next end
  end.

Definition locate_block_device (role : block_type) (name : option (list Z)) : M unit :=
  block ← (match name with
           | Some name => b ← block_get_by_name name; match b with Some b => mret (Some b) | None => fail Panic end
           | None => r ← get; b ← block_first; locate_loop (length (all_blocks r)) role b
           end);
  match block with Some b => block_set_role role (Some b) | None => mret tt end.

Definition locate_block_devices (filesys_bdev_name scratch_bdev_name swap_bdev_name : option (list Z)) : M unit :=
  locate_block_device BLOCK_FILESYS filesys_bdev_name ;;
  locate_block_device BLOCK_SCRATCH scratch_bdev_name ;;
  locate_block_device BLOCK_SWAP swap_bdev_name.
End registry.

(** ** The scan *)
Record scan (D : Type) := MkScan { dev : block D; part_nr : Z; reg : registry }.
Arguments MkScan {D}.
Arguments dev {D}.
Arguments part_nr {D}.
Arguments reg {D}.

Section scan.
Context {D : Type} `{!BlockDriver D} (name : list Z).
Abbreviation M := (ST (scan D)).

Definition set_dev (b : block D) (s : scan D) : scan D := MkScan b (part_nr s) (reg s).
Definition set_reg (r : registry) (s : scan D) : scan D := MkScan (dev s) (part_nr s) r.
Definition set_part_nr (n : Z) (s : scan D) : scan D := MkScan (dev s) n (reg s).

Definition role (part_type : Z) : block_type :=
  if part_type =? 0x20 then BLOCK_KERNEL else if part_type =? 0x21 then BLOCK_FILESYS else if part_type =? 0x22 then BLOCK_SCRATCH
  else if part_type =? 0x23 then BLOCK_SWAP else BLOCK_FOREIGN.

Definition found_partition (part_type start sz nr : Z) : M unit :=
  s ← get;
  if block_size (dev s) <=? start then mret tt
  else if (u32 (start + sz) <? start) || (block_size (dev s) <? u32 (start + sz)) then mret tt
  else
    n ← lift (Ustar.snprintf_field 16 (Stdio.chars "%s%d") [Stdio.Str (Some name); Stdio.Int nr]);
    info ← lift (Ustar.snprintf_field 128 (Stdio.chars "%s (%02x)") [Stdio.Str (Some (partition_type_name part_type)); Stdio.Int part_type]);
    zoom reg set_reg (block_register (Ustar.string_in n) (role part_type) (Ustar.string_in info) sz start) ;;
    mret tt.

Definition is_extended (t : Z) : bool := (t =? 0x05) || (t =? 0x0f) || (t =? 0x85) || (t =? 0xc5).

(** The loop over the entries; [read] reads the table of an extended
    partition. *)
Fixpoint entries_loop (read : Z → Z → M unit) (sector primary_extended_sector : Z) (l : list partition_table_entry) : M unit :=
  match l with
  | [] => mret tt
  | e :: l =>
    (if (size e =? 0) || (type e =? 0) then mret tt
     else if is_extended (type e) then
       if sector =? 0 then read (offset e) (offset e)
       else read (u32 (offset e + primary_extended_sector)) primary_extended_sector
     else
       s ← get;
       let nr := s32 (part_nr s + 1) in
       modify (set_part_nr nr) ;;
       found_partition (type e) (u32 (offset e + sector)) (size e) nr) ;;
    entries_loop read sector primary_extended_sector l
  end.

(** It reads sector 0 whatever [sector] is. *)
Fixpoint read_partition_table (fuel : nat) (sector primary_extended_sector : Z) : M unit :=
  s ← get;
  if block_size (dev s) <=? sector then mret tt else
  match fuel with
  | O => fail Timeout
  | S fuel =>
    pt ← zoom dev set_dev (block_read 0);
    if negb (signature pt =? 0xaa55) then mret tt else
    entries_loop (read_partition_table fuel) sector primary_extended_sector (partitions pt)
  end.

(** Tables can be nested as deep as there are sectors. *)
Definition partition_scan : M unit :=
  modify (set_part_nr 0) ;; s ← get; read_partition_table (Z.to_nat (block_size (dev s))) 0 0.
End scan.

(** ** The texts *)
Definition plain : Stdio.printf_conversion := Stdio.MkConversion 0 0 (-1) Stdio.INT.

Lemma format_plain_string str l : Z.of_nat (length str) < 2 ^ 31 →
  Stdio.format_string StdioSpec.emit str (s32 (if u32 (-1) <? Z.of_nat (length str) then u32 (-1) else Z.of_nat (length str))) plain l = Ok (tt, l ++ str).
Proof.
  intros Hl. change (u32 (-1)) with 4294967295. rewrite (proj2 (Z.ltb_ge 4294967295 _)) by lia. rewrite s32_id by (unfold in_s32; lia).
  unfold Stdio.format_string. cbn [Stdio.width Stdio.flags plain]. rewrite (proj2 (Z.ltb_ge (Z.of_nat (length str)) 0)) by lia. cbn [andb].
  erewrite run_bind_ok by reflexivity. rewrite Nat2Z.id, firstn_all. by rewrite (run_bind_ok _ _ _ _ _ (StdioSpec.emit_all _ _)).
Qed.

Lemma format_plain_integer v l : in_s32 v →
  ∃ text, Stdio.format_integer StdioSpec.emit (u64 (if v <? 0 then - v else v)) true (v <? 0) Stdio.base_d plain l = Ok (tt, l ++ text) ∧ (length text ≤ 12)%nat.
Proof.
  unfold in_s32. intros Hv. set (a := if v <? 0 then - v else v).
  assert (Ha : 0 ≤ a ≤ 2 ^ 31) by (unfold a; destruct (Z.ltb_spec v 0); lia).
  assert (Eu : u64 a = a) by (unfold u64; apply Z.mod_small; lia). rewrite Eu.
  destruct (StdioSpec.plain_buf Stdio.base_d a plain StdioSpec.base_d_plain ltac:(lia) eq_refl ltac:(by left)) as (ds & n & Hbuf & _ & _ & Hk & Hn).
  specialize (Hk 10%nat ltac:(simpl; lia)). specialize (Hn ltac:(simpl; lia)). set (buf := ds ++ replicate n 48) in *.
  assert (Hlen : (length buf ≤ 10)%nat) by (unfold buf; rewrite length_app, length_replicate; lia).
  eexists. unfold Stdio.format_integer. rewrite Hbuf. erewrite run_bind_ok by reflexivity. cbn [Stdio.flags plain].
  change (Stdio.has 0 Stdio.POUND) with false. cbn [andb Z.eqb Stdio.width].
  assert (Epad : ∀ p, p ≤ 0 → Z.to_nat (if p <? 0 then 0 else p) = 0%nat) by (intros p Hp; destruct (Z.ltb_spec p 0); lia).
  rewrite Epad by (change (Stdio.width plain) with 0; destruct (Stdio.sign_char true (v <? 0) 0 =? 0); lia).
  erewrite run_bind_ok by reflexivity. rewrite (run_bind_ok _ _ _ _ _ (StdioSpec.emit_sign_if _ _)).
  erewrite run_bind_ok by reflexivity. erewrite run_bind_ok by reflexivity. rewrite (run_bind_ok _ _ _ _ _ (StdioSpec.emit_all _ _)).
  unfold mret, ST_ret. cbn [Stdio.has Z.land Z.eqb negb]. split; [by rewrite <- (assoc_L (++))|].
  rewrite length_app, length_reverse. destruct (_ =? 0); simpl; lia.
Qed.

(** [%s%d]. *)
Lemma emitted_number name nr : (length name ≤ 1000)%nat → in_s32 nr →
  ∃ text, StdioSpec.emitted (Stdio.chars "%s%d") [Stdio.Str (Some name); Stdio.Int nr] (name ++ text) ∧ (length text ≤ 12)%nat ∧
    (0 ≤ nr < 10 → text = [48 + nr]).
Proof.
  intros Hl Hnr. destruct (format_plain_integer nr name Hnr) as (text & Hrun & Hlen). exists text. split; [|split; [done|]].
  - unfold StdioSpec.emitted, Stdio.__vprintf. change (Stdio.chars "%s%d") with [37; 115; 37; 100].
    cbn [length Nat.add]. rewrite StdioSpec.loop_conversion by done.
    change (Stdio.parse_conversion [115; 37; 100] [Stdio.Str (Some name); Stdio.Int nr])
      with (Ok (plain, [115; 37; 100], [Stdio.Str (Some name); Stdio.Int nr])).
    erewrite run_bind_ok by reflexivity. cbv beta iota. rewrite (run_bind_ok _ _ _ [Stdio.Int nr] name).
    2:{ unfold Stdio.convert. cbn [Z.eqb Pos.eqb orb Stdio.va_string]. erewrite run_bind_ok by reflexivity. cbv beta iota zeta.
        cbn [Stdio.precision plain]. by rewrite (run_bind_ok _ _ _ _ _ (format_plain_string name [] ltac:(lia))). }
    rewrite StdioSpec.loop_conversion by done.
    change (Stdio.parse_conversion [100] [Stdio.Int nr]) with (Ok (plain, [100], [Stdio.Int nr])).
    erewrite run_bind_ok by reflexivity. cbv beta iota. rewrite (run_bind_ok _ _ _ [] (name ++ text)); [done|].
    unfold Stdio.convert. cbn [Z.eqb Pos.eqb orb Stdio.type plain Stdio.signed_value Stdio.va_word]. erewrite run_bind_ok by reflexivity. cbv beta iota.
    rewrite s32_id by done. by rewrite (run_bind_ok _ _ _ _ _ Hrun).
  - intros H10. clear Hlen. assert (E : Ok (tt, name ++ text) = Ok (tt, name ++ [48 + nr])); [|by simplify_eq].
    rewrite <- Hrun.
    assert (nr = 0 ∨ nr = 1 ∨ nr = 2 ∨ nr = 3 ∨ nr = 4 ∨ nr = 5 ∨ nr = 6 ∨ nr = 7 ∨ nr = 8 ∨ nr = 9) as Hc by lia.
    repeat (destruct Hc as [->|Hc]; [reflexivity|]). subst nr. reflexivity.
Qed.

(** The text of a type, as [%s (%02x)] prints it. *)
Definition hex_digit (d : Z) : Z := nth (Z.to_nat d) (Stdio.digits Stdio.base_x) 0.
Definition type_text (t : Z) : list Z := partition_type_name t ++ Stdio.chars " (" ++ [hex_digit (t / 16); hex_digit (t mod 16)] ++ Stdio.chars ")".

Lemma type_text_ok t : 0 ≤ t < 256 → ∃ f,
  Ustar.snprintf_field 128 (Stdio.chars "%s (%02x)") [Stdio.Str (Some (partition_type_name t)); Stdio.Int t] = Ok f ∧ Ustar.string_in f = type_text t.
Proof.
  assert (H : forallb (λ t, match Ustar.snprintf_field 128 (Stdio.chars "%s (%02x)") [Stdio.Str (Some (partition_type_name t)); Stdio.Int t] with
    | Ok f => bool_decide (Ustar.string_in f = type_text t) | Err _ => false end) (seqZ 0 256) = true) by (vm_compute; reflexivity).
  intros Ht. rewrite forallb_forall in H. specialize (H t). destruct (Ustar.snprintf_field _ _ _) as [f|e].
  - exists f. split; [done|]. apply (bool_decide_eq_true (Ustar.string_in f = type_text t)), H, list_elem_of_In, elem_of_seqZ. lia.
  - discriminate H. apply list_elem_of_In, elem_of_seqZ. lia.
Qed.

(** Formatting into a field always gives a field. *)
Lemma snprintf_field_total n format args cs : StdioSpec.emitted format args cs → Z.of_nat (length cs) < 2 ^ 31 → (n ≤ 512)%nat →
  ∃ f, Ustar.snprintf_field n format args = Ok f.
Proof.
  intros He Hl Hn. unfold Ustar.snprintf_field, Stdio.snprintf.
  destruct (StdioSpec.vsnprintf_ok format args cs (Ustar.zeros_at n) 1 (Z.of_nat n) He Hl) as (m & -> & Hm);
    [lia|intros i Hi; rewrite Ustar.zeros_at_lookup by lia; by eexists|].
  destruct (mapM (λ i, m !! Z.of_nat i) (seq 1 n)) as [bs|] eqn:E; [by exists bs|]. exfalso.
  apply mapM_None, Exists_exists in E as (i & [Hi1 Hi2]%elem_of_seq & E). cbv zeta in Hm. rewrite Hm in E.
  set (text := if decide (Z.of_nat n = 0) then [] else _) in E. destruct (decide (1 ≤ Z.of_nat i < 1 + Z.of_nat (length text))) as [Hd|].
  - apply lookup_ge_None in E. lia.
  - by rewrite Ustar.zeros_at_lookup in E by lia.
Qed.

(** ** What a table stands for *)
Definition empty (e : partition_table_entry) : bool := (size e =? 0) || (type e =? 0).
Definition fits (n : Z) (e : partition_table_entry) : bool := (offset e <? n) && (offset e + size e <=? n).

(** The devices for the entries [l] on a disk [name] of [n] sectors; [nr]
    entries come before them. *)
Fixpoint parts (name : list Z) (n nr : Z) (l : list partition_table_entry) : list registered :=
  match l with
  | [] => []
  | e :: l =>
    if empty e then parts name n nr l
    else (if fits n e then [MkRegistered (name ++ [48 + (nr + 1)]) (role (type e)) (type_text (type e)) (size e) (offset e)] else []) ++
         parts name n (nr + 1) l
  end.
Definition table_parts (name : list Z) (n : Z) (pt : list Z) : list registered :=
  if signature pt =? 0xaa55 then parts name n 0 (partitions pt) else [].

Definition entry_ok (e : partition_table_entry) : Prop := 0 ≤ type e < 256 ∧ in_u32 (offset e) ∧ in_u32 (size e).

Lemma partitions_ok pt : Forall (λ b, 0 ≤ b < 256) pt → Forall entry_ok (partitions pt).
Proof.
  intros Hpt. assert (Hb : ∀ i, 0 ≤ byte pt i < 256).
  { intros i. unfold byte. rewrite nth_lookup. destruct (pt !! i) as [x|] eqn:E; simpl; [|lia]. exact (Forall_lookup_1 _ _ _ _ Hpt E). }
  assert (Hw : ∀ i, in_u32 (word pt i)).
  { intros i. unfold word, un32, in_u32. assert (H0 := Hb i). assert (H1 := Hb (i + 1)%nat). assert (H2 := Hb (i + 2)%nat). assert (H3 := Hb (i + 3)%nat). lia. }
  apply Forall_fmap, Forall_true. intros i. split; [apply Hb|]. split; apply Hw.
Qed.

Section scan_spec.
Context {D : Type} `{!BlockDriver D} (name : list Z).
Hypothesis Hname : (length name ≤ 14)%nat ∧ Forall (λ b, 0 < b < 256) name.

Definition add_part (r : registered) (g : registry) : registry := MkRegistry (all_blocks g ++ [r]) (block_by_role g).

Lemma string_in_zeros l n : Forall (λ b, 0 < b < 256) l → Ustar.string_in (l ++ replicate (S n) 0) = l.
Proof. induction 1 as [|b l Hb _ IH]; [done|]. simpl. rewrite (proj2 (Z.eqb_neq b 0)) by lia. f_equal. exact IH. Qed.

(** On every branch, for any number. *)
Lemma found_partition_total (s : scan D) e start nr : entry_ok e → in_s32 nr →
  ∃ g, found_partition name (type e) start (size e) nr s = Ok (tt, MkScan (dev s) (part_nr s) g).
Proof.
  intros He Hnr. destruct s as [b pn g]. unfold found_partition. erewrite run_bind_ok by reflexivity. cbn [dev].
  destruct (block_size b <=? start); [by exists g|]. destruct (_ || _); [by exists g|].
  destruct (emitted_number name nr ltac:(lia) Hnr) as (text & Hem & Hlen & _).
  destruct (snprintf_field_total 16 _ _ _ Hem) as (f & Ef); [rewrite length_app; lia|lia|]. rewrite Ef. erewrite run_bind_ok by reflexivity.
  destruct (type_text_ok (type e) (proj1 He)) as (f' & -> & _). erewrite run_bind_ok by reflexivity.
  erewrite run_bind_ok; [|apply run_zoom_ok; reflexivity]. eexists. reflexivity.
Qed.

Lemma found_partition_ok (b : block D) pn (g : registry) e nr : in_u32 (Block.size b) → entry_ok e → 1 ≤ nr < 10 →
  found_partition name (type e) (offset e) (size e) nr (MkScan b pn g) =
  Ok (tt, MkScan b pn (if fits (Block.size b) e then add_part (MkRegistered (name ++ [48 + nr]) (role (type e)) (type_text (type e)) (size e) (offset e)) g else g)).
Proof.
  unfold in_u32. intros Hsz (Ht & Ho & Hs) Hnr. unfold in_u32 in *. unfold found_partition. erewrite run_bind_ok by reflexivity. cbn [dev]. unfold fits, block_size.
  destruct (Z.leb_spec (Block.size b) (offset e)) as [H1|H1]; [by rewrite (proj2 (Z.ltb_ge (offset e) (Block.size b))) by lia|]. rewrite (proj2 (Z.ltb_lt (offset e) (Block.size b))) by lia. cbn [andb].
  assert (Et : (u32 (offset e + size e) <? offset e) || (Block.size b <? u32 (offset e + size e)) = negb (offset e + size e <=? Block.size b)).
  { unfold u32. destruct (Z.leb_spec (offset e + size e) (Block.size b)) as [H2|H2].
    - rewrite Z.mod_small by lia. rewrite (proj2 (Z.ltb_ge _ (offset e))), (proj2 (Z.ltb_ge (Block.size b) _)) by lia. done.
    - cbn [negb]. apply orb_true_iff. rewrite !Z.ltb_lt. destruct (Z_lt_le_dec (offset e + size e) (2 ^ 32)); [rewrite Z.mod_small by lia; lia|].
      left. replace (offset e + size e) with (offset e + size e - 2 ^ 32 + 1 * 2 ^ 32) by lia. rewrite Z.mod_add, Z.mod_small by lia. lia. }
  rewrite Et. destruct (offset e + size e <=? Block.size b); cbn [negb]; [|done].
  destruct (emitted_number name nr ltac:(lia) ltac:(unfold in_s32; lia)) as (text & Hem & _ & Htext). rewrite Htext in Hem by lia.
  rewrite (Ustar.snprintf_field_ok 16 _ _ _ Hem) by (rewrite ?length_app; simpl; lia). erewrite run_bind_ok by reflexivity.
  destruct (type_text_ok (type e) Ht) as (f' & -> & Ef). erewrite run_bind_ok by reflexivity.
  erewrite run_bind_ok; [|apply run_zoom_ok; reflexivity]. unfold mret, ST_ret, set_reg, add_part. cbn [dev part_nr reg].
  rewrite length_app. cbn [length]. replace (16 - (length name + 1))%nat with (S (14 - length name)) by lia.
  rewrite string_in_zeros by (apply Forall_app_2; [apply Hname|apply Forall_singleton; lia]). rewrite Ef.
  rewrite take_ge by (rewrite length_app; simpl; lia). done.
Qed.

(** The entries, when none is an extended partition. *)
Lemma entries_loop_ok read (b : block D) l : in_u32 (Block.size b) → Forall entry_ok l → Forall (λ e, empty e = false → is_extended (type e) = false) l →
  ∀ nr g, 0 ≤ nr → nr + Z.of_nat (length l) < 10 →
  ∃ nr', entries_loop name read 0 0 l (MkScan b nr g) = Ok (tt, MkScan b nr' (MkRegistry (all_blocks g ++ parts name (Block.size b) nr l) (block_by_role g))) ∧
    nr' = nr + Z.of_nat (length (filter (λ e, empty e = false) l)).
Proof.
  intros Hsz Hok Hext. induction l as [|e l IH]; intros nr g Hnr Hlen.
  { exists nr. cbn [entries_loop parts filter list_filter length]. rewrite app_nil_r. destruct g. split; [done|lia]. }
  apply Forall_cons in Hok as [He Hok]. apply Forall_cons in Hext as [Hx Hext]. specialize (IH Hok Hext). cbn [length] in Hlen.
  rewrite filter_cons. cbn [entries_loop parts]. change ((size e =? 0) || (type e =? 0)) with (empty e). destruct (empty e).
  - rewrite decide_False by done. erewrite run_bind_ok by reflexivity. apply IH; lia.
  - rewrite decide_True by done. rewrite (Hx eq_refl). cbn [length].
    assert (Hrun := found_partition_ok b (nr + 1) g e (nr + 1) Hsz He ltac:(lia)).
    destruct (IH (nr + 1) (if fits (Block.size b) e then add_part (MkRegistered (name ++ [48 + (nr + 1)]) (role (type e)) (type_text (type e)) (size e) (offset e)) g else g)
      ltac:(lia) ltac:(lia)) as (nr' & Hrun' & Hnr'). exists nr'. split; [|lia].
    erewrite run_bind_ok.
    2:{ erewrite run_bind_ok by reflexivity. cbn [part_nr]. cbv zeta. erewrite run_bind_ok by reflexivity.
        unfold set_part_nr. cbn [dev reg]. rewrite s32_id by (unfold in_s32; lia). rewrite Z.add_0_r, u32_id by apply He. exact Hrun. }
    rewrite Hrun'. destruct (fits (Block.size b) e); cbn [add_part all_blocks block_by_role app]; [by rewrite <- (assoc_L (++))|done].
Qed.

Lemma parts_fit n l : Forall entry_ok l → ∀ nr, Forall (λ r, 0 ≤ r_start r ∧ 0 ≤ r_size r ∧ r_start r + r_size r ≤ n) (parts name n nr l).
Proof.
  induction 1 as [|e l (_ & Ho & Hs) _ IH]; intros nr; [constructor|]. unfold in_u32 in *. cbn [parts]. destruct (empty e); [apply IH|].
  apply Forall_app_2; [|apply IH]. unfold fits. destruct (Z.leb_spec (offset e + size e) n); [|rewrite andb_false_r; constructor].
  destruct (offset e <? n); [|constructor]. apply Forall_singleton. cbn [r_start r_size]. lia.
Qed.
End scan_spec.

(** The search for a device. *)
Lemma locate_loop_ok role g fuel : ∀ i, (length (all_blocks g) ≤ i + fuel)%nat →
  locate_loop fuel role (if decide (i < length (all_blocks g))%nat then Some i else None) g =
  Ok ((λ x, (i + x.1)%nat) <$> list_find (λ b, r_type b = role) (drop i (all_blocks g)), g).
Proof.
  induction fuel as [|fuel IH]; intros i Hi; destruct (decide (i < length (all_blocks g))%nat) as [Hlt|Hge]; try lia; try (by rewrite drop_ge by lia).
  destruct (lookup_lt_is_Some_2 _ _ Hlt) as [b Hb]. cbn [locate_loop]. erewrite run_bind_ok by reflexivity. rewrite Hb.
  erewrite run_bind_ok by reflexivity. rewrite (drop_S _ _ _ Hb). cbn [list_find]. destruct (decide (r_type b = role)) as [E|E].
  - rewrite bool_decide_true by done. cbn [fmap option_fmap option_map fst]. unfold mret, ST_ret. do 3 f_equal. lia.
  - rewrite bool_decide_false by done. unfold block_next, list_elem_to_block. erewrite run_bind_ok by reflexivity. rewrite IH by lia.
    do 2 f_equal. destruct (list_find _ (drop (S i) _)) as [[k x]|]; [|done]. simpl. f_equal. lia.
Qed.

Lemma locate_block_device_ok role g : is_role role = true →
  locate_block_device role None g = Ok (tt, match list_find (λ b, r_type b = role) (all_blocks g) with
    | Some (i, _) => MkRegistry (all_blocks g) (λ t, if decide (t = role) then Some i else block_by_role g t)
    | None => g end).
Proof.
  intros Hr. unfold locate_block_device, block_first, list_elem_to_block. erewrite run_bind_ok.
  2:{ erewrite run_bind_ok by reflexivity. erewrite run_bind_ok by reflexivity. apply (locate_loop_ok role g _ 0). lia. }
  rewrite drop_0. destruct (list_find _ _) as [[i x]|]; [|done]. cbn [fmap option_fmap option_map fst Nat.add].
  unfold block_set_role. run_assert; [|done]. reflexivity.
Qed.

(** C37: The scan of a disk without extended partitions: it ends, and
    registers, behind the devices there are, exactly the partitions of the
    table that are in use and lie within the disk, in their order, numbered by
    their place among the entries in use (none if the table has no
    signature).  Each of them meets the contract of a driver.  A role for
    which no device is named then goes to the first device of its type. *)
Theorem partition_scan_correct {D : Type} `{!BlockDriver D} (name : list Z) (b : block D) (nr : Z) (g : registry) :
  (length name ≤ 14)%nat → Forall (λ c, 0 < c < 256) name →
  block_ok b → 0 < Block.size b → Forall (λ c, 0 ≤ c < 256) (sector_of b 0) →
  Forall (λ e, empty e = false → is_extended (type e) = false) (partitions (sector_of b 0)) →
  let new := table_parts name (Block.size b) (sector_of b 0) in
  ∃ b' nr', partition_scan name (MkScan b nr g) = Ok (tt, MkScan b' nr' (MkRegistry (all_blocks g ++ new) (block_by_role g))) ∧
    Forall (λ r, partition_ok (MkPartition b' (r_start r)) (r_size r)) new ∧
    ∀ role, is_role role = true → ∃ g', locate_block_device role None (MkRegistry (all_blocks g ++ new) (block_by_role g)) = Ok (tt, g') ∧
      all_blocks g' = all_blocks g ++ new ∧
      ∀ r, block_by_role g' r = if decide (r = role) then from_option (λ x, Some x.1) (block_by_role g r) (list_find (λ d, r_type d = role) (all_blocks g'))
                                else block_by_role g r.
Proof.
  intros Hl Hn Hb H0 Hpt Hext new. set (pt := sector_of b 0) in *. assert (Hsz := proj1 Hb).
  destruct (block_read_ok b 0 Hb ltac:(lia)) as (b' & Hread & Hb' & Hsize & _).
  assert (Hentries := partitions_ok pt Hpt).
  assert (Hscan : ∃ nr', partition_scan name (MkScan b nr g) = Ok (tt, MkScan b' nr' (MkRegistry (all_blocks g ++ new) (block_by_role g)))).
  { unfold partition_scan. erewrite run_bind_ok by reflexivity. erewrite run_bind_ok by reflexivity. unfold set_part_nr. cbn [dev part_nr reg].
    unfold block_size. destruct (Z.to_nat (Block.size b)) as [|fuel] eqn:Ef; [lia|]. cbn [read_partition_table]. erewrite run_bind_ok by reflexivity.
    cbn [dev]. unfold block_size. rewrite (proj2 (Z.leb_gt (Block.size b) 0)) by lia.
    erewrite run_bind_ok; [|apply run_zoom_ok; exact Hread]. fold pt. unfold new, table_parts. destruct (signature pt =? 0xaa55); cbn [negb].
    - destruct (entries_loop_ok name (conj Hl Hn) (read_partition_table name fuel) b' (partitions pt)) with (nr := 0) (g := g) as (nr' & Hrun & _);
        [unfold in_u32; lia|done|done|lia|simpl; lia|]. exists nr'. rewrite Hsize in Hrun. exact Hrun.
    - exists 0. rewrite app_nil_r. by destruct g. }
  destruct Hscan as [nr' Hscan]. exists b', nr'. split; [exact Hscan|]. split.
  - assert (Hfit : Forall (λ r, 0 ≤ r_start r ∧ 0 ≤ r_size r ∧ r_start r + r_size r ≤ Block.size b) new).
    { unfold new, table_parts. destruct (signature pt =? 0xaa55); [by apply parts_fit|constructor]. }
    eapply Forall_impl; [exact Hfit|]. intros r (H1 & H2 & H3). unfold partition_ok. cbn [p_block p_start]. rewrite Hsize. done.
  - intros role Hr. rewrite locate_block_device_ok by done. eexists. split; [reflexivity|]. cbn [all_blocks].
    destruct (list_find _ _) as [[i x]|] eqn:E; cbn [all_blocks block_by_role]; (split; [done|]); intros r; rewrite E; simpl; by destruct (decide (r = role)).
Qed.

(** A disk of 64 sectors with a file system on sectors 1 to 40 and a swap
    partition that does not fit. *)
Definition demo_table : list Z :=
  replicate 446 0 ++ [0; 0; 0; 0; 0x21; 0; 0; 0; 1; 0; 0; 0; 40; 0; 0; 0] ++ replicate 16 0 ++
  [0; 0; 0; 0; 0x23; 0; 0; 0; 41; 0; 0; 0; 24; 0; 0; 0] ++ replicate 16 0 ++ [0x55; 0xaa].
Definition demo_disk (table : list Z) : block ramdisk := MkBlock BLOCK_RAW 64 (table :: replicate 63 (replicate 512 0)) 0 0.
Lemma demo_disk_ok table : length table = 512%nat → block_ok (demo_disk table).
Proof.
  intros Hl. split; [simpl; lia|]. split; [done|]. split; [reflexivity|]. constructor; [exact Hl|]. apply Forall_replicate. reflexivity.
Qed.

Lemma bytes_check l : forallb (λ c, (0 <=? c) && (c <? 256)) l = true → Forall (λ c, 0 ≤ c < 256) l.
Proof.
  intros Hb. apply Forall_forall. intros c Hc. rewrite forallb_forall in Hb. apply list_elem_of_In, Hb, andb_true_iff in Hc.
  rewrite Z.leb_le, Z.ltb_lt in Hc. exact Hc.
Qed.

Lemma partition_scan_correct_witness : ∃ b' nr', partition_scan [104; 100; 97] (MkScan (demo_disk demo_table) 0 (MkRegistry [] (λ _, None))) =
  Ok (tt, MkScan b' nr' (MkRegistry [MkRegistered [104; 100; 97; 49] BLOCK_FILESYS (Stdio.chars "Pintos file system (21)") 40 1] (λ _, None))).
Proof.
  destruct (partition_scan_correct [104; 100; 97] (demo_disk demo_table) 0 (MkRegistry [] (λ _, None))) as (b' & nr' & Hrun & _).
  - simpl. lia.
  - repeat constructor; lia.
  - apply demo_disk_ok. reflexivity.
  - simpl. lia.
  - change (Forall (λ c, 0 ≤ c < 256) demo_table). apply bytes_check. reflexivity.
  - change (Forall (λ e, empty e = false → is_extended (type e) = false) (partitions demo_table)).
    unfold partitions. repeat constructor.
  - exists b', nr'. exact Hrun.
Defined.

(** ** Extended partitions *)
Section extended.
Context {D : Type} `{!BlockDriver D} (name : list Z) (n : Z) (pt : list Z).
Hypothesis Hname : (length name ≤ 14)%nat ∧ Forall (λ b, 0 < b < 256) name.
Hypothesis Hn : 0 < n.
Hypothesis Hpt : Forall (λ c, 0 ≤ c < 256) pt.

(** The disk of [n] sectors has the table [pt]. *)
Definition on_disk (s : scan D) : Prop := block_ok (dev s) ∧ Block.size (dev s) = n ∧ sector_of (dev s) 0 = pt ∧ in_s32 (part_nr s).
Definition stuck (m : ST (scan D) unit) : Prop := ∀ s, on_disk s → m s = Err Timeout.
Definition runs (m : ST (scan D) unit) : Prop := ∀ s, on_disk s → m s = Err Timeout ∨ ∃ s', m s = Ok (tt, s') ∧ on_disk s'.

Lemma runs_bind m k : runs m → runs k → runs (m ;; k).
Proof.
  intros Hm Hk s Hs. destruct (Hm s Hs) as [E|(s' & E & Hs')]; [left; by apply run_bind_err|]. rewrite (run_bind_ok _ _ _ _ _ E). by apply Hk.
Qed.
Lemma stuck_bind m k : runs m → stuck k → stuck (m ;; k).
Proof.
  intros Hm Hk s Hs. destruct (Hm s Hs) as [E|(s' & E & Hs')]; [by apply run_bind_err|]. rewrite (run_bind_ok _ _ _ _ _ E). by apply Hk.
Qed.

(** What the loop does with one entry. *)
Definition visit (read : Z → Z → ST (scan D) unit) (sector pes : Z) (e : partition_table_entry) : ST (scan D) unit :=
  if (size e =? 0) || (type e =? 0) then mret tt
  else if is_extended (type e) then
    if sector =? 0 then read (offset e) (offset e) else read (u32 (offset e + pes)) pes
  else
    s ← get;
    let nr := s32 (part_nr s + 1) in
    modify (set_part_nr nr) ;;
    found_partition name (type e) (u32 (offset e + sector)) (size e) nr.

Lemma visit_runs read sector pes e : (∀ a b, runs (read a b)) → entry_ok e → runs (visit read sector pes e).
Proof.
  intros Hread He. unfold visit. destruct (_ || _); [intros s Hs; right; by exists s|].
  destruct (is_extended _); [by destruct (sector =? 0)|]. intros s (H1 & H2 & H3 & H4). right. erewrite run_bind_ok by reflexivity. cbv zeta.
  erewrite run_bind_ok by reflexivity. assert (Hnr : in_s32 (s32 (part_nr s + 1))).
  { unfold in_s32, s32. assert (H := Z.mod_pos_bound (part_nr s + 1 + 2 ^ 31) (2 ^ 32) ltac:(lia)). lia. }
  destruct (found_partition_total name Hname (set_part_nr (s32 (part_nr s + 1)) s) e (u32 (offset e + sector)) _ He Hnr) as (g & ->).
  eexists. split; [reflexivity|]. done.
Qed.

Lemma entries_runs read sector pes l : (∀ a b, runs (read a b)) → Forall entry_ok l → runs (entries_loop name read sector pes l).
Proof.
  intros Hread. induction 1 as [|e l He _ IH]; [intros s Hs; right; by exists s|]. exact (runs_bind _ _ (visit_runs read sector pes e Hread He) IH).
Qed.

Lemma entries_stuck read sector pes l e : (∀ a b, runs (read a b)) → Forall entry_ok l → e ∈ l → stuck (visit read sector pes e) →
  stuck (entries_loop name read sector pes l).
Proof.
  intros Hread Hl He Hv. induction Hl as [|e' l He' _ IH]; [by apply not_elem_of_nil in He|]. apply elem_of_cons in He as [->|He].
  - intros s Hs. apply run_bind_err. by apply Hv.
  - exact (stuck_bind _ _ (visit_runs read sector pes e' Hread He') (IH He)).
Qed.

(** The table of whatever sector is the one of sector 0. *)
Lemma read_step fuel sector pes s : on_disk s → sector < n →
  ∃ s', on_disk s' ∧ read_partition_table name (S fuel) sector pes s =
    (if negb (signature pt =? 0xaa55) then mret tt else entries_loop name (read_partition_table name fuel) sector pes (partitions pt)) s'.
Proof.
  intros (H1 & H2 & H3 & H4) Hlt. destruct (block_read_ok (dev s) 0 H1 ltac:(lia)) as (b' & Hread & Hb' & Hsize & Hsec).
  cbn [read_partition_table]. erewrite run_bind_ok by reflexivity. unfold block_size. rewrite (proj2 (Z.leb_gt (Block.size (dev s)) sector)) by lia.
  erewrite run_bind_ok; [|apply run_zoom_ok; exact Hread]. rewrite H3. exists (set_dev b' s). split; [|done].
  unfold on_disk. cbn [dev part_nr set_dev]. rewrite Hsize, Hsec. done.
Qed.

Lemma read_runs fuel : ∀ sector pes, runs (read_partition_table name fuel sector pes).
Proof.
  induction fuel as [|fuel IH]; intros sector pes s Hs; destruct (Z_lt_le_dec sector n) as [Hlt|Hge];
    [|right|destruct (read_step fuel sector pes s Hs Hlt) as (s' & Hs' & ->)|right].
  - left. cbn [read_partition_table]. erewrite run_bind_ok by reflexivity. unfold block_size. by rewrite (proj2 (Z.leb_gt (Block.size (dev s)) sector)) by (destruct Hs; lia).
  - exists s. split; [|done]. cbn [read_partition_table]. erewrite run_bind_ok by reflexivity. unfold block_size. by rewrite (proj2 (Z.leb_le (Block.size (dev s)) sector)) by (destruct Hs; lia).
  - destruct (negb _); [right; by exists s'|]. apply (entries_runs _ _ _ _ IH (partitions_ok pt Hpt) s' Hs').
  - exists s. split; [|done]. cbn [read_partition_table]. erewrite run_bind_ok by reflexivity. unfold block_size. by rewrite (proj2 (Z.leb_le (Block.size (dev s)) sector)) by (destruct Hs; lia).
Qed.

Lemma read_stuck e : signature pt = 0xaa55 → e ∈ partitions pt → empty e = false → is_extended (type e) = true →
  offset e < n → u32 (2 * offset e) < n → ∀ fuel sector pes, sector < n → sector = 0 ∨ pes = offset e →
  stuck (read_partition_table name fuel sector pes).
Proof.
  intros Hsig He Hempty Hext Ho H2o. assert (Hok := partitions_ok pt Hpt).
  induction fuel as [|fuel IH]; intros sector pes Hlt Hcase s Hs.
  { cbn [read_partition_table]. erewrite run_bind_ok by reflexivity. unfold block_size. by rewrite (proj2 (Z.leb_gt (Block.size (dev s)) sector)) by (destruct Hs; lia). }
  destruct (read_step fuel sector pes s Hs Hlt) as (s' & Hs' & ->). rewrite Hsig. cbn [Z.eqb Pos.eqb negb].
  apply (entries_stuck _ sector pes _ e (read_runs fuel) Hok He); [|done]. unfold visit. change ((size e =? 0) || (type e =? 0)) with (empty e).
  rewrite Hempty, Hext. destruct (Z.eqb_spec sector 0) as [->|Hne]; [by apply IH; [|right]|].
  destruct Hcase as [->| ->]; [done|]. replace (offset e + offset e) with (2 * offset e) by lia. apply IH; [done|by right].
Qed.
End extended.

(** A disk with an extended partition in its first half.  Every table
    is read from sector 0, so that the extended partition is found in its own
    table again: whatever the depth allowed, the scan does not end. *)
Theorem extended_scan_never_ends {D : Type} `{!BlockDriver D} (name : list Z) (b : block D) (g : registry) e fuel :
  (length name ≤ 14)%nat → Forall (λ c, 0 < c < 256) name →
  block_ok b → 0 < Block.size b → Forall (λ c, 0 ≤ c < 256) (sector_of b 0) → signature (sector_of b 0) = 0xaa55 →
  e ∈ partitions (sector_of b 0) → empty e = false → is_extended (type e) = true → 2 * offset e < Block.size b →
  read_partition_table name fuel 0 0 (MkScan b 0 g) = Err Timeout.
Proof.
  intros Hl Hn Hb H0 Hpt Hsig He Hempty Hext H2. assert (Hsz := proj1 Hb).
  assert (Ho : in_u32 (offset e)) by (apply (proj1 (Forall_forall _ _) (partitions_ok _ Hpt) e He)). unfold in_u32 in Ho.
  apply (read_stuck name (Block.size b) (sector_of b 0) (conj Hl Hn) H0 Hpt e); try done; [lia|rewrite u32_id by (unfold in_u32; lia); lia|by left].
Qed.

(** An extended partition at sector 10 of 64. *)
Definition demo_extended : list Z :=
  replicate 446 0 ++ [0; 0; 0; 0; 0x05; 0; 0; 0; 10; 0; 0; 0; 40; 0; 0; 0] ++ replicate 48 0 ++ [0x55; 0xaa].
Lemma extended_scan_never_ends_witness :
  read_partition_table [104; 100; 97] 1000 0 0 (MkScan (demo_disk demo_extended) 0 (MkRegistry [] (λ _, None))) = Err Timeout.
Proof.
  apply (extended_scan_never_ends [104; 100; 97] (demo_disk demo_extended) _ (MkEntry 0 5 10 40)).
  - simpl. lia.
  - repeat constructor; lia.
  - apply demo_disk_ok. reflexivity.
  - simpl. lia.
  - change (Forall (λ c, 0 ≤ c < 256) demo_extended). apply (bytes_check demo_extended). reflexivity.
  - reflexivity.
  - change (MkEntry 0 5 10 40 ∈ partitions demo_extended). apply list_elem_of_lookup_2 with 0%nat. reflexivity.
  - reflexivity.
  - reflexivity.
  - simpl. lia.
Defined.
End Partition.
