(* ===== verification/Devices.v ===== *)
(** * The text display, the clock and the timer chip

    [Vga]: [src/pintos/devices/vga.c].  [Rtc]: [src/pintos/devices/rtc.c].
    [Pit]: [src/pintos/devices/pit.c].  The registers of the devices are
    fields or arguments. *)
From S2P Require Import Prelude CInt.

Open Scope Z_scope.

Definition u16 (x : Z) : Z := x mod 2 ^ 16.

(** Checking a range of numbers one by one. *)
Lemma forallb_seqZ f a n x : forallb f (seqZ a n) = true → a ≤ x < a + n → f x = true.
Proof. intros H Hx. rewrite forallb_forall in H. apply H, list_elem_of_In, elem_of_seqZ. lia. Qed.

Module Vga.

Definition COL_CNT : Z := 80.
Definition ROW_CNT : Z := 25.
Definition GRAY_ON_BLACK : Z := 0x07.

(** The variables of [vga.c], the frame buffer ([fb[y][x]] is a character
    and an attribute) and the cursor registers 0x0e and 0x0f. *)
Record vga := MkVga { inited : bool; cx : Z; cy : Z; fb : list (list (Z * Z)); crtc : Z * Z }.

Definition set_cx x v := MkVga (inited v) x (cy v) (fb v) (crtc v).
Definition set_cy y v := MkVga (inited v) (cx v) y (fb v) (crtc v).
Definition set_fb f v := MkVga (inited v) (cx v) (cy v) f (crtc v).

Abbreviation M := (ST vga).

(** [outw (0x3d4, w)]: the low byte selects the register, the high byte is
    its value. *)
Definition outw_3d4 (w : Z) : M unit :=
  let index := Z.land w 0xff in
  let data := Z.shiftr (Z.land w 0xff00) 8 in
  modify (λ v, MkVga (inited v) (cx v) (cy v) (fb v)
    (if index =? 0x0e then (data, (crtc v).2) else if index =? 0x0f then ((crtc v).1, data) else crtc v)).

(** [fb[y][x] = { c, attr }]. *)
Definition set_cell (y x c attr : Z) : M unit :=
  v ← get;
  row ← deref (fb v !! Z.to_nat y);
  deref (row !! Z.to_nat x) ;;
  put (set_fb (<[Z.to_nat y := <[Z.to_nat x := (u8 c, attr)]> row]> (fb v)) v).

Fixpoint clear_row_loop (n : nat) (y x : Z) : M unit :=
  match n with O => mret tt | S n => set_cell y x 32 GRAY_ON_BLACK ;; clear_row_loop n y (x + 1) end.
Definition clear_row (y : Z) : M unit := clear_row_loop (Z.to_nat COL_CNT) y 0.

Definition move_cursor : M unit :=
  v ← get;
  let cp := u16 (cx v + COL_CNT * cy v) in
  outw_3d4 (u16 (Z.lor 0x0e (Z.land cp 0xff00))) ;;
  outw_3d4 (u16 (Z.lor 0x0f (Z.shiftl cp 8))).

Fixpoint cls_loop (n : nat) (y : Z) : M unit :=
  match n with O => mret tt | S n => clear_row y ;; cls_loop n (y + 1) end.
Definition cls : M unit :=
  cls_loop (Z.to_nat ROW_CNT) 0 ;;
  modify (λ v, set_cx 0 (set_cy 0 v)) ;;
  move_cursor.

(** The [memmove] moves rows 1 to 24 up by one. *)
Definition newline : M unit :=
  modify (λ v, set_cx 0 (set_cy (cy v + 1) v)) ;;
  v ← get;
  if ROW_CNT <=? cy v then
    modify (set_cy (ROW_CNT - 1)) ;;
    modify (λ v, set_fb (take (Z.to_nat (ROW_CNT - 1)) (drop 1 (fb v)) ++ drop (Z.to_nat (ROW_CNT - 1)) (fb v)) v) ;;
    clear_row (ROW_CNT - 1)
  else mret tt.

Definition find_cursor : M (Z * Z) :=
  v ← get;
  let cp := u16 (Z.lor (u16 (Z.shiftl (crtc v).1 8)) (crtc v).2) in
  mret (cp mod COL_CNT, cp / COL_CNT).

Definition init : M unit :=
  v ← get;
  if inited v then mret tt
  else r ← find_cursor; let '(x, y) := r in put (MkVga true x y (fb v) (crtc v)).

(** The switch on the character, in the state [v].  The beep of character 7
    leaves the display alone. *)
Definition put_char (c : Z) (v : vga) : M unit :=
  if c =? 10 then newline
  else if c =? 12 then cls
  else if c =? 8 then if 0 <? cx v then put (set_cx (cx v - 1) v) else mret tt
  else if c =? 13 then put (set_cx 0 v)
  else if c =? 9 then
    put (set_cx (ROUND_UP (cx v + 1) 8) v) ;;
    v ← get; if COL_CNT <=? cx v then newline else mret tt
  else if c =? 7 then mret tt
  else
    set_cell (cy v) (cx v) c GRAY_ON_BLACK ;;
    modify (λ v, set_cx (cx v + 1) v) ;;
    v ← get; if COL_CNT <=? cx v then newline else mret tt.

Definition vga_putc (c : Z) : M unit := init ;; v ← get; put_char c v ;; move_cursor.

Fixpoint write (cs : list Z) : M unit := match cs with [] => mret tt | c :: cs => vga_putc c ;; write cs end.

(** ** Runs of the operations *)
Definition blank_row : list (Z * Z) := replicate 80 (32, GRAY_ON_BLACK).
Definition shaped (f : list (list (Z * Z))) : Prop := length f = 25%nat ∧ Forall (λ r, length r = 80%nat) f.
Definition cursor (cp : Z) : Z * Z := (cp / 256, cp mod 256).

Lemma set_cell_ok v y x c attr row : fb v !! Z.to_nat y = Some row → (Z.to_nat x < length row)%nat →
  set_cell y x c attr v = Ok (tt, set_fb (<[Z.to_nat y := <[Z.to_nat x := (u8 c, attr)]> row]> (fb v)) v).
Proof.
  intros Hy Hx. destruct (lookup_lt_is_Some_2 _ _ Hx) as [z Hz]. unfold set_cell. erewrite run_bind_ok by reflexivity.
  run_deref; [|exact Hy]. run_deref; [|exact Hz]. reflexivity.
Qed.

Lemma clear_row_loop_ok y n : ∀ x v row, fb v !! Z.to_nat y = Some row → 0 ≤ x → length row = (Z.to_nat x + n)%nat →
  clear_row_loop n y x v = Ok (tt, set_fb (<[Z.to_nat y := take (Z.to_nat x) row ++ replicate n (32, GRAY_ON_BLACK)]> (fb v)) v).
Proof.
  induction n as [|n IH]; intros x v row Hy Hx Hl.
  - cbn [clear_row_loop replicate]. rewrite app_nil_r, take_ge by lia. rewrite list_insert_id by done. by destruct v.
  - cbn [clear_row_loop]. erewrite run_bind_ok; [|apply (set_cell_ok v y x 32 _ row Hy); lia].
    assert (Hlt : (Z.to_nat y < length (fb v))%nat) by (by apply lookup_lt_is_Some_1; eexists).
    rewrite (IH _ _ (<[Z.to_nat x := (u8 32, GRAY_ON_BLACK)]> row)); [|cbn [fb set_fb]; by rewrite list_lookup_insert_eq|lia|rewrite length_insert; lia].
    cbn [fb set_fb]. rewrite list_insert_insert_eq. change (u8 32) with 32. replace (Z.to_nat (x + 1)) with (S (Z.to_nat x)) by lia.
    rewrite (take_S_r _ _ (32, GRAY_ON_BLACK)) by (apply list_lookup_insert_eq; lia). rewrite take_insert_ge by lia. by rewrite <- (assoc_L (++)).
Qed.

Lemma clear_row_ok y v : shaped (fb v) → 0 ≤ y < 25 → clear_row y v = Ok (tt, set_fb (<[Z.to_nat y := blank_row]> (fb v)) v).
Proof.
  intros [Hl Hr] Hy. destruct (lookup_lt_is_Some_2 (fb v) (Z.to_nat y)) as [row Hrow]; [lia|].
  unfold clear_row. rewrite (clear_row_loop_ok _ _ _ _ row); [done|done|lia|]. by rewrite (Forall_lookup_1 _ _ _ _ Hr Hrow).
Qed.

Lemma shaped_insert f y row : shaped f → length row = 80%nat → shaped (<[y := row]> f).
Proof. intros [Hl Hr] H. split; [by rewrite length_insert|by apply Forall_insert]. Qed.

Lemma cls_loop_ok n : ∀ y v, shaped (fb v) → 0 ≤ y → (Z.to_nat y + n = 25)%nat →
  cls_loop n y v = Ok (tt, set_fb (take (Z.to_nat y) (fb v) ++ replicate n blank_row) v).
Proof.
  induction n as [|n IH]; intros y v Hs Hy Hn.
  - cbn [cls_loop replicate]. rewrite app_nil_r, take_ge by (destruct Hs; lia). by destruct v.
  - cbn [cls_loop]. erewrite run_bind_ok; [|apply clear_row_ok; [done|lia]]. rewrite IH; [|by apply shaped_insert|lia|lia].
    cbn [fb set_fb]. replace (Z.to_nat (y + 1)) with (S (Z.to_nat y)) by lia.
    rewrite (take_S_r _ _ blank_row) by (apply list_lookup_insert_eq; destruct Hs; lia). rewrite take_insert_ge by lia. by rewrite <- (assoc_L (++)).
Qed.

(** The words that the cursor registers are set with. *)
Lemma cursor_words cp : 0 ≤ cp < 2000 →
  let hi := u16 (Z.lor 0x0e (Z.land cp 0xff00)) in let lo := u16 (Z.lor 0x0f (Z.shiftl cp 8)) in
  Z.land hi 0xff = 0x0e ∧ Z.shiftr (Z.land hi 0xff00) 8 = cp / 256 ∧ Z.land lo 0xff = 0x0f ∧ Z.shiftr (Z.land lo 0xff00) 8 = cp mod 256 ∧
  u16 (Z.lor (u16 (Z.shiftl (cp / 256) 8)) (cp mod 256)) = cp.
Proof.
  assert (H : forallb (λ cp, let hi := u16 (Z.lor 0x0e (Z.land cp 0xff00)) in let lo := u16 (Z.lor 0x0f (Z.shiftl cp 8)) in
    bool_decide (Z.land hi 0xff = 0x0e ∧ Z.shiftr (Z.land hi 0xff00) 8 = cp / 256 ∧ Z.land lo 0xff = 0x0f ∧ Z.shiftr (Z.land lo 0xff00) 8 = cp mod 256 ∧
      u16 (Z.lor (u16 (Z.shiftl (cp / 256) 8)) (cp mod 256)) = cp)) (seqZ 0 2000) = true) by (vm_compute; reflexivity).
  intros Hcp. apply (forallb_seqZ _ _ _ cp) in H; [|lia]. cbv beta zeta in H. by rewrite bool_decide_eq_true in H.
Qed.

Lemma move_cursor_ok v : 0 ≤ cx v < 80 → 0 ≤ cy v < 25 →
  move_cursor v = Ok (tt, MkVga (inited v) (cx v) (cy v) (fb v) (cursor (cx v + 80 * cy v))).
Proof.
  intros Hx Hy. unfold move_cursor. erewrite run_bind_ok by reflexivity. cbv zeta. unfold COL_CNT.
  assert (Ecp : u16 (cx v + 80 * cy v) = cx v + 80 * cy v) by (unfold u16; apply Z.mod_small; lia). rewrite Ecp.
  destruct (cursor_words (cx v + 80 * cy v) ltac:(lia)) as (H1 & H2 & H3 & H4 & _). unfold outw_3d4. rewrite H1, H2, H3, H4. reflexivity.
Qed.

Lemma newline_ok v : shaped (fb v) → 0 ≤ cy v < 25 →
  newline v = Ok (tt, if decide (cy v = 24) then MkVga (inited v) 0 24 (drop 1 (fb v) ++ [blank_row]) (crtc v)
                      else MkVga (inited v) 0 (cy v + 1) (fb v) (crtc v)).
Proof.
  intros Hs Hy. unfold newline. erewrite run_bind_ok by reflexivity. erewrite run_bind_ok by reflexivity. cbn [cy set_cx set_cy]. unfold ROW_CNT.
  destruct (decide (cy v = 24)) as [E|E]; [|by rewrite (proj2 (Z.leb_gt 25 (cy v + 1))) by lia].
  rewrite (proj2 (Z.leb_le 25 (cy v + 1))) by lia. erewrite run_bind_ok by reflexivity. erewrite run_bind_ok by reflexivity.
  destruct Hs as [Hl Hr]. change (Z.to_nat (25 - 1)) with 24%nat. set (f := take 24 (drop 1 (fb v)) ++ drop 24 (fb v)).
  assert (Hf : shaped f). { split; [unfold f; rewrite length_app, length_take, !length_drop; lia|].
    apply Forall_app_2; [by apply Forall_take, Forall_drop|by apply Forall_drop]. }
  rewrite clear_row_ok; [|exact Hf|lia]. unfold set_fb. cbn [fb set_cx set_cy cx cy inited crtc]. do 3 f_equal. fold f.
  unfold f. change (Z.to_nat (25 - 1)) with 24%nat. rewrite take_ge by (rewrite length_drop; lia).
  rewrite insert_app_r_alt by (rewrite length_drop; lia). f_equal. replace (24 - length (drop 1 (fb v)))%nat with 0%nat by (rewrite length_drop; lia).
  destruct (lookup_lt_is_Some_2 (fb v) 24) as [r Hr24]; [lia|]. rewrite (drop_S _ _ _ Hr24), drop_ge by lia. reflexivity.
Qed.

(** ** A sheet without end

    The display as its user sees it: a sheet of at least 25 rows that grows at
    the bottom, of which the screen shows the last 25. *)
Record sheet := MkSheet { rows : list (list (Z * Z)); sx : Z; sy : Z }.

Definition sheet_newline (s : sheet) : sheet :=
  MkSheet (rows s ++ if decide (sy s + 1 = Z.of_nat (length (rows s))) then [blank_row] else []) 0 (sy s + 1).
Definition advance_to (x : Z) (s : sheet) : sheet := if x <? 80 then MkSheet (rows s) x (sy s) else sheet_newline s.
Definition sheet_putc (s : sheet) (c : Z) : sheet :=
  if c =? 10 then sheet_newline s
  else if c =? 12 then MkSheet (replicate 25 blank_row) 0 0
  else if c =? 8 then MkSheet (rows s) (Z.max 0 (sx s - 1)) (sy s)
  else if c =? 13 then MkSheet (rows s) 0 (sy s)
  else if c =? 9 then advance_to (8 * (sx s / 8 + 1)) s
  else if c =? 7 then s
  else advance_to (sx s + 1) (MkSheet (alter (<[Z.to_nat (sx s) := (u8 c, GRAY_ON_BLACK)]>) (Z.to_nat (sy s)) (rows s)) (sx s) (sy s)).

(** The first row on the screen. *)
Definition top (s : sheet) : Z := Z.of_nat (length (rows s)) - 25.
Definition sheet_ok (s : sheet) : Prop :=
  0 ≤ top s ∧ Forall (λ r, length r = 80%nat) (rows s) ∧ 0 ≤ sx s < 80 ∧ top s ≤ sy s < top s + 25.

(** [v] shows [s]; before the first character the cursor is only in its
    registers. *)
Definition shows (s : sheet) (v : vga) : Prop :=
  sheet_ok s ∧ fb v = drop (Z.to_nat (top s)) (rows s) ∧ crtc v = cursor (sx s + 80 * (sy s - top s)) ∧
  (inited v = true → cx v = sx s ∧ cy v = sy s - top s).

Definition screen (i : bool) (s : sheet) (cur : Z * Z) : vga := MkVga i (sx s) (sy s - top s) (drop (Z.to_nat (top s)) (rows s)) cur.

Lemma screen_shaped s : sheet_ok s → shaped (drop (Z.to_nat (top s)) (rows s)).
Proof.
  intros (H1 & H2 & _). unfold top in *. split; [rewrite length_drop; lia|by apply Forall_drop].
Qed.

Lemma init_ok s v : shows s v → init v = Ok (tt, screen true s (crtc v)).
Proof.
  intros ((H1 & H2 & H3 & H4) & Hf & Hc & Hi). unfold init. erewrite run_bind_ok by reflexivity. destruct (inited v) eqn:E.
  - destruct (Hi eq_refl) as [Hx Hy]. unfold screen. rewrite <- Hx, <- Hy, <- Hf, <- E. by destruct v.
  - unfold find_cursor. erewrite run_bind_ok by reflexivity. rewrite Hc. cbv zeta. unfold cursor. cbn [fst snd].
    destruct (cursor_words (sx s + 80 * (sy s - top s)) ltac:(lia)) as (_ & _ & _ & _ & ->). unfold COL_CNT, screen. rewrite Hf.
    replace ((sx s + 80 * (sy s - top s)) mod 80) with (sx s); [replace ((sx s + 80 * (sy s - top s)) / 80) with (sy s - top s); [done|]|].
    + rewrite Z.mul_comm, Z.div_add, Z.div_small by lia. lia.
    + rewrite Z.mul_comm, Z.mod_add, Z.mod_small by lia. lia.
Qed.

Lemma sheet_newline_ok s : sheet_ok s → sheet_ok (sheet_newline s).
Proof.
  intros (H1 & H2 & H3 & H4). unfold sheet_ok, sheet_newline, top in *. cbn [rows sx sy]. rewrite length_app. destruct (decide _); cbn [length].
  - split_and!; try lia. apply Forall_app_2; [done|]. by apply Forall_singleton.
  - split_and!; try lia. by rewrite app_nil_r.
Qed.

Lemma newline_screen i s cur : sheet_ok s → newline (screen i s cur) = Ok (tt, screen i (sheet_newline s) cur).
Proof.
  intros Hs. rewrite newline_ok by first [by apply screen_shaped|destruct Hs as (?&?&?&?); simpl; lia]. destruct Hs as (H1 & H2 & H3 & H4).
  unfold screen, sheet_newline, top in *. cbn [cy fb inited crtc rows sx sy]. rewrite length_app. do 2 f_equal.
  destruct (decide (sy s - (Z.of_nat (length (rows s)) - 25) = 24)) as [E|E].
  - rewrite decide_True by lia. cbn [length]. f_equal; [lia|]. rewrite drop_drop, drop_app_le by lia. do 2 f_equal. lia.
  - rewrite decide_False by lia. cbn [length]. rewrite app_nil_r, Nat.add_0_r. f_equal. lia.
Qed.

Lemma advance_ok s x : sheet_ok s → 0 ≤ x → sheet_ok (advance_to x s).
Proof.
  intros Hs Hx. unfold advance_to. destruct (Z.ltb_spec x 80); [|by apply sheet_newline_ok]. destruct Hs as (H1 & H2 & H3 & H4).
  unfold sheet_ok, top in *. cbn [rows sx sy]. split_and!; first [done|lia].
Qed.

(** Setting the column, with a new line at the right margin. *)
Lemma advance_screen i s x cur : sheet_ok s → 0 ≤ x →
  (v ← get; if COL_CNT <=? cx v then newline else mret tt) (set_cx x (screen i s cur)) = Ok (tt, screen i (advance_to x s) cur).
Proof.
  intros Hs Hx. erewrite run_bind_ok by reflexivity. unfold COL_CNT, advance_to. cbn [cx set_cx screen].
  destruct (Z.ltb_spec x 80).
  - by rewrite (proj2 (Z.leb_gt 80 x)) by lia.
  - rewrite (proj2 (Z.leb_le 80 x)) by lia. rewrite newline_ok by first [by apply screen_shaped|destruct Hs as (?&?&?&?); simpl; lia].
    rewrite <- (newline_screen i s cur Hs). rewrite newline_ok by first [by apply screen_shaped|destruct Hs as (?&?&?&?); simpl; lia]. reflexivity.
Qed.

Lemma alter_is_insert {A} (f : A → A) (l : list A) : ∀ (i : nat) x, l !! i = Some x → alter f i l = <[i := f x]> l.
Proof. induction l as [|y l IH]; intros [|i] x H; try done; simpl in *; [by simplify_eq|]. f_equal. by apply IH. Qed.

Lemma put_cell_ok s c : sheet_ok s → let s' := MkSheet (alter (<[Z.to_nat (sx s) := (u8 c, GRAY_ON_BLACK)]>) (Z.to_nat (sy s)) (rows s)) (sx s) (sy s) in
  sheet_ok s' ∧ ∀ i cur, set_cell (sy s - top s) (sx s) c GRAY_ON_BLACK (screen i s cur) = Ok (tt, screen i s' cur).
Proof.
  intros (H1 & H2 & H3 & H4) s'. assert (Et : top s' = top s) by (unfold top, s'; cbn [rows]; by rewrite length_alter). split.
  - unfold sheet_ok. rewrite Et. cbn [s' rows sx sy]. split_and!; try done; try lia. apply Forall_alter; [done|].
    intros r Hr Hl. by rewrite length_insert.
  - intros i cur. destruct (lookup_lt_is_Some_2 (rows s) (Z.to_nat (sy s))) as [row Hrow]; [unfold top in *; lia|].
    assert (Hl := Forall_lookup_1 _ _ _ _ H2 Hrow). simpl in Hl.
    rewrite (set_cell_ok _ _ _ _ _ row); [| |lia].
    + unfold screen, set_fb. cbn [inited cx cy fb crtc]. rewrite Et. cbn [s' rows sx sy]. do 3 f_equal.
      rewrite (alter_is_insert _ _ _ row) by done. rewrite drop_insert_ge by lia.
      by replace (Z.to_nat (sy s) - Z.to_nat (top s))%nat with (Z.to_nat (sy s - top s)) by lia.
    + cbn [fb screen]. rewrite lookup_drop. by replace (_ + _)%nat with (Z.to_nat (sy s)) by lia.
Qed.

Lemma vga_putc_ok s v c : shows s v → ∃ v', vga_putc c v = Ok (tt, v') ∧ shows (sheet_putc s c) v'.
Proof.
  intros Hv. assert (Hs := proj1 Hv).
  assert (Hstep : ∀ cur, ∃ cur', sheet_ok (sheet_putc s c) ∧ put_char c (screen true s cur) (screen true s cur) = Ok (tt, screen true (sheet_putc s c) cur')).
  { intros cur. unfold sheet_putc, put_char. assert (Hs' := Hs). destruct Hs' as (H1 & H2 & H3 & H4).
    destruct (c =? 10). { exists cur. split; [by apply sheet_newline_ok|by apply newline_screen]. }
    destruct (c =? 12).
    { eexists. split; [unfold sheet_ok, top; cbn [rows sx sy]; rewrite length_replicate; split_and!; try lia; by apply Forall_replicate|].
      unfold cls. erewrite run_bind_ok; [|apply cls_loop_ok; [by apply screen_shaped|lia|done]]. erewrite run_bind_ok by reflexivity.
      rewrite move_cursor_ok by (simpl; lia). reflexivity. }
    destruct (c =? 8).
    { exists cur. split; [unfold sheet_ok, top in *; cbn [rows sx sy]; split_and!; first [done|lia]|]. cbn [cx screen].
      destruct (Z.ltb_spec 0 (sx s)); unfold screen, set_cx, top; cbn [rows sx sy]; [rewrite Z.max_r by lia|rewrite Z.max_l by lia; replace (sx s) with 0 by lia]; reflexivity. }
    destruct (c =? 13). { exists cur. split; [unfold sheet_ok, top in *; cbn [rows sx sy]; split_and!; first [done|lia]|]. reflexivity. }
    destruct (c =? 9).
    { exists cur. assert (0 ≤ sx s / 8) by (apply Z.div_pos; lia). split; [apply advance_ok; [done|lia]|]. erewrite run_bind_ok by reflexivity. cbn [cx screen].
      assert (Er : ROUND_UP (sx s + 1) 8 = 8 * (sx s / 8 + 1)). { unfold ROUND_UP. rewrite Z.quot_div_nonneg by lia.
        replace (sx s + 1 + 8 - 1) with (sx s + 1 * 8) by lia. rewrite Z.div_add by lia. lia. }
      rewrite Er. apply advance_screen; [done|lia]. }
    destruct (c =? 7); [by exists cur|]. destruct (put_cell_ok s c Hs) as [Hok Hrun]. exists cur. split; [apply advance_ok; [done|lia]|].
    cbn [cx cy screen]. rewrite (run_bind_ok _ _ _ _ _ (Hrun true cur)). erewrite run_bind_ok by reflexivity. apply advance_screen; [done|lia]. }
  destruct (Hstep (crtc v)) as (cur' & Hok & Hrun). unfold vga_putc. rewrite (run_bind_ok _ _ _ _ _ (init_ok s v Hv)).
  erewrite run_bind_ok by reflexivity. rewrite (run_bind_ok _ _ _ _ _ Hrun). destruct Hok as (H1 & H2 & H3 & H4).
  rewrite move_cursor_ok by (cbn [cx cy screen]; lia). eexists. split; [reflexivity|]. done.
Qed.

Lemma write_ok cs : ∀ s v, shows s v → ∃ v', write cs v = Ok (tt, v') ∧ shows (foldl sheet_putc s cs) v'.
Proof.
  induction cs as [|c cs IH]; intros s v Hv; [by exists v|]. destruct (vga_putc_ok s v c Hv) as (v1 & H1 & Hv1).
  destruct (IH _ _ Hv1) as (v2 & H2 & Hv2). exists v2. split; [|done]. cbn [write]. by rewrite (run_bind_ok _ _ _ _ _ H1).
Qed.

(** ** Text

    The lines of a text, folded at 80 columns: those that are complete and the
    one being written. *)
Definition layout_step (st : list (list Z) * list Z) (c : Z) : list (list Z) * list Z :=
  let '(d, cur) := st in
  if c =? 10 then (d ++ [cur], [])
  else let cur := cur ++ [c] in if (length cur =? 80)%nat then (d ++ [cur], []) else (d, cur).
Definition layout (text : list Z) : list (list Z) * list Z := foldl layout_step ([], []) text.

Definition is_text (c : Z) : Prop := c ≠ 7 ∧ c ≠ 8 ∧ c ≠ 9 ∧ c ≠ 12 ∧ c ≠ 13.
Definition cells (l : list Z) : list (Z * Z) := ((λ c, (u8 c, GRAY_ON_BLACK)) <$> l) ++ replicate (80 - length l) (32, GRAY_ON_BLACK).
Definition page (st : list (list Z) * list Z) : sheet :=
  let '(d, cur) := st in
  MkSheet ((cells <$> d) ++ [cells cur] ++ replicate (24 - length d) blank_row) (Z.of_nat (length cur)) (Z.of_nat (length d)).

Lemma page_newline d cur : (length cur ≤ 80)%nat → ∀ x, sheet_newline (MkSheet (rows (page (d, cur))) x (Z.of_nat (length d))) = page (d ++ [cur], []).
Proof.
  intros Hc x. unfold sheet_newline, page. cbn [rows sy]. rewrite !length_app, length_fmap, length_replicate. cbn [length].
  rewrite fmap_app. cbn [fmap list_fmap]. change (cells []) with blank_row. f_equal; [|lia].
  rewrite <- !(assoc_L (++)). f_equal. cbn [app]. f_equal. destruct (decide _) as [E|E].
  - replace (24 - length d)%nat with 0%nat by lia. by replace (24 - (length d + 1))%nat with 0%nat by lia.
  - replace (24 - length d)%nat with (S (24 - (length d + 1))) by lia. by rewrite app_nil_r.
Qed.

Lemma cells_snoc cur c : (length cur < 80)%nat → <[length cur := (u8 c, GRAY_ON_BLACK)]> (cells cur) = cells (cur ++ [c]).
Proof.
  intros Hl. unfold cells. rewrite insert_app_r_alt by (rewrite length_fmap; lia). rewrite length_fmap, Nat.sub_diag, fmap_app, length_app.
  replace (80 - length cur)%nat with (S (80 - (length cur + 1))) by lia. cbn [replicate]. by rewrite <- (assoc_L (++)).
Qed.

Lemma page_step d cur c : is_text c → (length cur < 80)%nat → sheet_putc (page (d, cur)) c = page (layout_step (d, cur) c).
Proof.
  intros (H7 & H8 & H9 & H12 & H13) Hl. unfold sheet_putc, layout_step. destruct (c =? 10).
  { rewrite <- (page_newline d cur ltac:(lia) (Z.of_nat (length cur))). reflexivity. }
  rewrite !(proj2 (Z.eqb_neq _ _)) by done.
  assert (Ec : alter (<[Z.to_nat (sx (page (d, cur))) := (u8 c, GRAY_ON_BLACK)]>) (Z.to_nat (sy (page (d, cur)))) (rows (page (d, cur))) =
    rows (page (d, cur ++ [c]))).
  { cbn [page rows sx sy]. rewrite !Nat2Z.id. rewrite alter_app_r_alt by (rewrite length_fmap; lia). rewrite length_fmap, Nat.sub_diag.
    cbn [app alter list_alter]. by rewrite cells_snoc. }
  rewrite Ec. unfold advance_to. cbn [page rows sx sy]. rewrite length_app. cbn [length]. destruct (Nat.eqb_spec (length cur + 1) 80) as [E|E].
  - rewrite (proj2 (Z.ltb_ge _ _)) by lia. rewrite <- (page_newline d (cur ++ [c]) ltac:(rewrite length_app; simpl; lia) (Z.of_nat (length cur))). reflexivity.
  - rewrite (proj2 (Z.ltb_lt _ _)) by lia. cbn [rows page]. rewrite length_app. cbn [length]. f_equal. lia.
Qed.

Lemma layout_short st c : (length st.2 < 80)%nat → (length (layout_step st c).2 < 80)%nat.
Proof.
  destruct st as [d cur]. cbn [snd]. intros Hl. unfold layout_step. destruct (c =? 10); [simpl; lia|]. rewrite length_app. cbn [length].
  destruct (Nat.eqb_spec (length cur + 1) 80); cbn [snd]; [simpl; lia|rewrite length_app; simpl; lia].
Qed.

Lemma page_text text : Forall is_text text → ∀ st, (length st.2 < 80)%nat → foldl sheet_putc (page st) text = page (foldl layout_step st text).
Proof.
  induction 1 as [|c text Hc _ IH]; intros [d cur] Hl; [done|]. cbn [foldl]. rewrite page_step by done. apply IH. by apply layout_short.
Qed.

(** C39: The display shows what is written.  Whatever it showed before, it
    is, after any characters, the last 25 rows of an endless sheet on which
    each character had its effect, with the cursor of the hardware at the
    place of the next one; no access leaves the frame buffer.  In particular, after
    a form feed a text appears as its lines, folded at 80 columns: the last 25
    of them, or all with blank rows below. *)
Theorem vga_shows_text s v cs text : shows s v → Forall is_text text →
  ∃ v', write cs v = Ok (tt, v') ∧ shows (foldl sheet_putc s cs) v' ∧
  ∃ v'', write (12 :: text) v' = Ok (tt, v'') ∧
    let '(d, cur) := layout text in
    fb v'' = drop (length d - 24) (cells <$> (d ++ [cur])) ++ replicate (24 - length d) blank_row ∧
    crtc v'' = cursor (Z.of_nat (length cur) + 80 * Z.min 24 (Z.of_nat (length d))).
Proof.
  intros Hv Ht. destruct (write_ok cs s v Hv) as (v' & H1 & Hv'). exists v'. split; [done|]. split; [done|].
  destruct (write_ok (12 :: text) _ _ Hv') as (v'' & H2 & Hv''). exists v''. split; [done|].
  cbn [foldl] in Hv''. change (sheet_putc (foldl sheet_putc s cs) 12) with (page ([], [])) in Hv''.
  rewrite (page_text text Ht ([], [])) in Hv'' by (simpl; lia). unfold layout. destruct (foldl layout_step ([], []) text) as [d cur].
  destruct Hv'' as (_ & Hf & Hc & _). unfold page, top in Hf, Hc. cbn [rows sx sy] in Hf, Hc.
  rewrite !length_app, length_fmap, length_replicate in Hf, Hc. cbn [length] in Hf, Hc. split.
  - rewrite Hf, fmap_app. cbn [fmap list_fmap]. rewrite (assoc_L (++)). rewrite drop_app_le by (rewrite length_app, length_fmap; simpl; lia).
    f_equal. f_equal. lia.
  - rewrite Hc. f_equal. lia.
Qed.

(** A new display, on which the machine has left its cursor in the third row. *)
Lemma vga_shows_text_witness : ∃ v' v'', write (repeat 66 100) (MkVga false 0 0 (replicate 25 blank_row) (0, 165)) = Ok (tt, v') ∧
  write [12; 72; 105; 10; 33] v' = Ok (tt, v'') ∧ fb v'' = cells [72; 105] :: cells [33] :: replicate 23 blank_row ∧ crtc v'' = (0, 81).
Proof.
  destruct (vga_shows_text (MkSheet (replicate 25 blank_row) 5 2) (MkVga false 0 0 (replicate 25 blank_row) (0, 165)) (repeat 66 100) [72; 105; 10; 33])
    as (v' & H1 & _ & v'' & H2 & Hf & Hc).
  - split; [split_and!; first [by apply Forall_replicate|by vm_compute]|]. done.
  - repeat constructor; lia.
  - exists v', v''. split; [exact H1|]. split; [exact H2|]. split; [exact Hf|exact Hc].
Defined.
End Vga.

(** ** The clock *)
Module Rtc.

Definition RTC_REG_SEC : Z := 0.
Definition RTC_REG_MIN : Z := 2.
Definition RTC_REG_HOUR : Z := 4.
Definition RTC_REG_MDAY : Z := 7.
Definition RTC_REG_MON : Z := 8.
Definition RTC_REG_YEAR : Z := 9.

Definition bcd_to_bin (x : Z) : Z := Z.land x 0x0f + Z.shiftr x 4 * 10.

Definition days_per_month : list Z := [31; 28; 31; 30; 31; 30; 31; 31; 30; 31; 30; 31].
Definition SECS_PER_DAY : Z := 24 * 60 * 60.

Section clock.
(** What the [t]-th access reads in the register [index]. *)
Variable cmos : nat → Z → Z.

Definition cmos_read (t : nat) (index : Z) : Z := u8 (cmos t index).

(** The loop that reads the time until the seconds are the same at its end. *)
Fixpoint read_loop (fuel : nat) (t : nat) : res (Z * Z * Z * Z * Z * Z) :=
  let rd i index := bcd_to_bin (cmos_read (t + i) index) in
  let sec := rd 0%nat RTC_REG_SEC in
  let min := rd 1%nat RTC_REG_MIN in
  let hour := rd 2%nat RTC_REG_HOUR in
  let mday := rd 3%nat RTC_REG_MDAY in
  let mon := rd 4%nat RTC_REG_MON in
  let year := rd 5%nat RTC_REG_YEAR in
  if sec =? rd 6%nat RTC_REG_SEC then Ok (sec, min, hour, mday, mon, year)
  else match fuel with O => Err Timeout | S fuel => read_loop fuel (t + 7) end.

(** The loop over the months. *)
Fixpoint months_loop (n : nat) (i time : Z) : res Z :=
  match n with
  | O => Ok time
  | S n => match days_per_month !! Z.to_nat (i - 1) with
           | Some d => months_loop n (i + 1) (u32 (time + d * 24 * 60 * 60))
           | None => Err Fault
           end
  end.

Definition rtc_get_time (fuel : nat) : res Z :=
  match read_loop fuel 0 with
  | Err e => Err e
  | Ok (sec, min, hour, mday, mon, year) =>
    let year := (if year <? 70 then year + 100 else year) - 70 in
    let time := u32 (s32 (s32 (s32 ((year * 365 + Z.quot (year - 1) 4) * 24) * 60) * 60)) in
    match months_loop (Z.to_nat mon) 1 time with
    | Err e => Err e
    | Ok time =>
      let time := if (2 <? mon) && (Z.rem year 4 =? 0) then u32 (time + 24 * 60 * 60) else time in
      let time := u32 (time + (mday - 1) * 24 * 60 * 60) in
      let time := u32 (time + hour * 60 * 60) in
      let time := u32 (time + min * 60) in
      Ok (u32 (time + sec))
    end
  end.
End clock.

(** ** The calendar *)
Definition leap (y : Z) : bool := (y mod 4 =? 0) && (negb (y mod 100 =? 0) || (y mod 400 =? 0)).
Definition month_days (y m : Z) : Z := nth (Z.to_nat (m - 1)) days_per_month 0 + if (m =? 2) && leap y then 1 else 0.
Definition sum (f : Z → Z) (a b : Z) : Z := foldr Z.add 0 (f <$> seqZ a (b - a)).
(** Days from the first of January 1970 to the first of a month. *)
Definition days (y m : Z) : Z := sum (λ i, if leap i then 366 else 365) 1970 y + sum (month_days y) 1 m.
Definition unix_time (y mon mday hour min sec : Z) : Z := (days y mon + (mday - 1)) * SECS_PER_DAY + hour * 3600 + min * 60 + sec.

(** The days by which the code is late: the month itself is counted, and the
    leap years are taken to be 1974, 1978 and so on. *)
Definition excess (y mon : Z) : Z :=
  let n := y - 1970 in
  nth (Z.to_nat (mon - 1)) days_per_month 0 + (if (2 <? mon) && (n mod 4 =? 0) then 1 else 0)
  - (if (2 <? mon) && (n mod 4 =? 2) then 1 else 0) - (if (0 <? n) && ((n mod 4 =? 3) || (n mod 4 =? 0)) then 1 else 0).

Definition to_bcd (x : Z) : Z := x / 10 * 16 + x mod 10.

Lemma bcd_roundtrip x : 0 ≤ x < 100 → bcd_to_bin (u8 (to_bcd x)) = x.
Proof.
  assert (H : forallb (λ x, bcd_to_bin (u8 (to_bcd x)) =? x) (seqZ 0 100) = true) by (vm_compute; reflexivity).
  intros Hx. apply (forallb_seqZ _ _ _ x) in H; [|lia]. by apply Z.eqb_eq.
Qed.

(** The days that the code counts. *)
Definition code_days (n mon : Z) : Z :=
  n * 365 + Z.quot (n - 1) 4 + foldr Z.add 0 (take (Z.to_nat mon) days_per_month) + if (2 <? mon) && (Z.rem n 4 =? 0) then 1 else 0.

Lemma code_days_ok n mon : 0 ≤ n < 100 → 1 ≤ mon ≤ 12 → code_days n mon = days (1970 + n) mon + excess (1970 + n) mon.
Proof.
  assert (H : forallb (λ n, forallb (λ mon, code_days n mon =? days (1970 + n) mon + excess (1970 + n) mon) (seqZ 1 12)) (seqZ 0 100) = true)
    by (vm_compute; reflexivity).
  intros Hn Hm. apply (forallb_seqZ _ _ _ n) in H; [|lia]. apply (forallb_seqZ _ _ _ mon) in H; [|lia]. by apply Z.eqb_eq.
Qed.

Lemma u32_add_l a b : u32 (u32 a + b) = u32 (a + b).
Proof. unfold u32. apply Zplus_mod_idemp_l. Qed.

Lemma s32_congr a : ∃ k, s32 a = a + k * 2 ^ 32.
Proof. unfold s32. exists (- ((a + 2 ^ 31) / 2 ^ 32)). assert (H := Z.div_mod (a + 2 ^ 31) (2 ^ 32) ltac:(lia)). lia. Qed.

Lemma u32_s32_mul a b : u32 (s32 a * b) = u32 (a * b).
Proof.
  destruct (s32_congr a) as [k ->]. unfold u32. replace ((a + k * 2 ^ 32) * b) with (a * b + k * b * 2 ^ 32) by lia. apply Z.mod_add. lia.
Qed.
Lemma u32_s32 a : u32 (s32 a) = u32 a.
Proof. rewrite <- (Z.mul_1_r (s32 a)), u32_s32_mul. f_equal. lia. Qed.

Lemma months_loop_ok n : ∀ i t, 1 ≤ i → (Z.to_nat (i - 1) + n ≤ 12)%nat →
  months_loop n i (u32 t) = Ok (u32 (t + foldr Z.add 0 (take n (drop (Z.to_nat (i - 1)) days_per_month)) * SECS_PER_DAY)).
Proof.
  induction n as [|n IH]; intros i t Hi Hn; [cbn [months_loop]; by rewrite take_0, Z.mul_0_l, Z.add_0_r|].
  destruct (lookup_lt_is_Some_2 days_per_month (Z.to_nat (i - 1))) as [d Hd]; [simpl; lia|]. cbn [months_loop]. rewrite Hd, u32_add_l, IH by lia.
  rewrite (drop_S _ _ _ Hd). replace (Z.to_nat (i + 1 - 1)) with (S (Z.to_nat (i - 1))) by lia. cbn [take foldr]. unfold SECS_PER_DAY. do 2 f_equal. lia.
Qed.

(** The time of day clock.  For a clock that stands at a date from 1970
    to 2069 with its fields in BCD, [rtc_get_time] ends after one pass over
    the registers and returns the seconds since 1970 modulo 2^32, too many by
    [excess] days. *)
Theorem rtc_get_time_correct cmos fuel y mon mday hour min sec :
  1970 ≤ y < 2070 → 1 ≤ mon ≤ 12 → 1 ≤ mday ≤ 31 → 0 ≤ hour < 24 → 0 ≤ min < 60 → 0 ≤ sec < 60 →
  (∀ t, cmos t RTC_REG_SEC = to_bcd sec ∧ cmos t RTC_REG_MIN = to_bcd min ∧ cmos t RTC_REG_HOUR = to_bcd hour ∧
        cmos t RTC_REG_MDAY = to_bcd mday ∧ cmos t RTC_REG_MON = to_bcd mon ∧ cmos t RTC_REG_YEAR = to_bcd (y mod 100)) →
  rtc_get_time cmos fuel = Ok (u32 (unix_time y mon mday hour min sec + excess y mon * SECS_PER_DAY)).
Proof.
  intros Hy Hmon Hmday Hhour Hmin Hsec Hc.
  assert (Hr : read_loop cmos fuel 0 = Ok (sec, min, hour, mday, mon, y mod 100)).
  { assert (E : ∀ t, cmos_read cmos t RTC_REG_SEC = u8 (to_bcd sec) ∧ cmos_read cmos t RTC_REG_MIN = u8 (to_bcd min) ∧
      cmos_read cmos t RTC_REG_HOUR = u8 (to_bcd hour) ∧ cmos_read cmos t RTC_REG_MDAY = u8 (to_bcd mday) ∧
      cmos_read cmos t RTC_REG_MON = u8 (to_bcd mon) ∧ cmos_read cmos t RTC_REG_YEAR = u8 (to_bcd (y mod 100))).
    { intros t. unfold cmos_read. destruct (Hc t) as (-> & -> & -> & -> & -> & ->). done. }
    assert (Hm := Z.mod_pos_bound y 100 ltac:(lia)).
    destruct fuel; cbn [read_loop]; cbv zeta; rewrite !(proj1 (E _)), (proj1 (proj2 (E _))), (proj1 (proj2 (proj2 (E _)))),
      (proj1 (proj2 (proj2 (proj2 (E _))))), (proj1 (proj2 (proj2 (proj2 (proj2 (E _)))))), (proj2 (proj2 (proj2 (proj2 (proj2 (E _))))));
      rewrite Z.eqb_refl, !bcd_roundtrip by lia; done. }
  unfold rtc_get_time. rewrite Hr. set (n := y - 1970). assert (En : (if y mod 100 <? 70 then y mod 100 + 100 else y mod 100) - 70 = n).
  { unfold n. Z.to_euclidean_division_equations. destruct (Z.ltb_spec r 70); lia. }
  rewrite En. cbv zeta.
  assert (Et : u32 (s32 (s32 (s32 ((n * 365 + Z.quot (n - 1) 4) * 24) * 60) * 60)) = u32 ((n * 365 + Z.quot (n - 1) 4) * SECS_PER_DAY)).
  { rewrite u32_s32, u32_s32_mul. rewrite <- Z.mul_assoc, u32_s32_mul. f_equal. unfold SECS_PER_DAY. lia. }
  rewrite Et, (months_loop_ok (Z.to_nat mon) 1) by lia. change (Z.to_nat (1 - 1)) with 0%nat. rewrite drop_0.
  assert (Hd := code_days_ok n mon ltac:(unfold n; lia) Hmon). replace (1970 + n) with y in Hd by (unfold n; lia).
  unfold code_days in Hd. unfold unix_time. destruct ((2 <? mon) && (Z.rem n 4 =? 0)); repeat (rewrite u32_add_l, <- ?Z.add_assoc);
    match goal with |- Ok (u32 ?a) = Ok (u32 ?b) => assert (a = b) as ->; [unfold SECS_PER_DAY|done] end; lia.
Qed.

(** One second before noon on the first of March 2020; the month has 31 days,
    and 2018 and 2022 would be leap years. *)
Lemma rtc_get_time_correct_witness :
  rtc_get_time (λ _ index, if index =? RTC_REG_SEC then 0x59 else if index =? RTC_REG_MIN then 0x59 else if index =? RTC_REG_HOUR then 0x11
    else if index =? RTC_REG_MDAY then 0x01 else if index =? RTC_REG_MON then 0x03 else 0x20) 0 = Ok (1583063999 + 30 * 86400).
Proof.
  rewrite (rtc_get_time_correct _ 0 2020 3 1 11 59 59); [reflexivity|lia|lia|lia|lia|lia|lia|].
  intros t. split_and!; reflexivity.
Defined.
End Rtc.

(** ** The timer chip *)
Module Pit.

Definition PIT_PORT_CONTROL : Z := 0x43.
Definition PIT_PORT_COUNTER (channel : Z) : Z := 0x40 + channel.
Definition PIT_HZ : Z := 1193180.

Definition count (frequency : Z) : Z :=
  u16 (if frequency <? 19 then 0 else if PIT_HZ <? frequency then 2 else Z.quot (PIT_HZ + Z.quot frequency 2) frequency).

(** The bytes that are sent to ports, in order. *)
Definition pit_configure_channel (channel mode frequency : Z) : res (list (Z * Z)) :=
  if negb ((channel =? 0) || (channel =? 2)) then Err Panic
  else if negb ((mode =? 2) || (mode =? 3)) then Err Panic
  else
    let n := count frequency in
    Ok [(PIT_PORT_CONTROL, u8 (Z.lor (Z.lor (Z.shiftl channel 6) 0x30) (Z.shiftl mode 1)));
        (PIT_PORT_COUNTER channel, u8 n); (PIT_PORT_COUNTER channel, u8 (Z.shiftr n 8))].

(** The two bytes of the counter are the number of cycles nearest to a period
    of the frequency, which fits in 16 bits. *)
Lemma pit_period channel mode frequency : channel = 0 ∨ channel = 2 → mode = 2 ∨ mode = 3 → 19 ≤ frequency ≤ PIT_HZ →
  ∃ control lo hi, pit_configure_channel channel mode frequency =
    Ok [(PIT_PORT_CONTROL, control); (PIT_PORT_COUNTER channel, lo); (PIT_PORT_COUNTER channel, hi)] ∧
    1 ≤ lo + 256 * hi < 65536 ∧ 2 * Z.abs ((lo + 256 * hi) * frequency - PIT_HZ) ≤ frequency.
Proof.
  unfold PIT_HZ. intros Hc Hm Hf. unfold pit_configure_channel, count, PIT_HZ.
  rewrite (proj2 (Z.ltb_ge frequency 19)), (proj2 (Z.ltb_ge 1193180 frequency)) by lia. rewrite !Z.quot_div_nonneg by (try apply Z.add_nonneg_nonneg; try apply Z.quot_pos; lia).
  set (q := (1193180 + frequency / 2) / frequency).
  assert (Hq : 1 ≤ q < 65536 ∧ 2 * Z.abs (q * frequency - 1193180) ≤ frequency).
  { unfold q. assert (E := Z.div_mod (1193180 + frequency / 2) frequency ltac:(lia)). assert (H := Z.mod_pos_bound (1193180 + frequency / 2) frequency ltac:(lia)).
    assert (E2 := Z.div_mod frequency 2 ltac:(lia)). assert (H2 := Z.mod_pos_bound frequency 2 ltac:(lia)). fold q in E |- *. split; nia. }
  assert (Hch : (channel =? 0) || (channel =? 2) = true) by (destruct Hc as [->| ->]; done).
  assert (Hmo : (mode =? 2) || (mode =? 3) = true) by (destruct Hm as [->| ->]; done). rewrite Hch, Hmo. cbn [negb].
  do 3 eexists. split; [reflexivity|]. assert (Eq : u8 (u16 q) + 256 * u8 (Z.shiftr (u16 q) 8) = q); [|rewrite Eq; exact Hq].
  unfold u8, u16. rewrite (Z.mod_small q) by lia. rewrite Z.shiftr_div_pow2 by lia. change (2 ^ 8) with 256.
  rewrite (Z.mod_small (q / 256)) by (split; [apply Z.div_pos; lia|apply Z.div_lt_upper_bound; lia]). assert (E := Z.div_mod q 256 ltac:(lia)). lia.
Qed.
End Pit.
