(* ===== verification/Serial.v ===== *)
(** * The serial port, the keyboard and the input buffer

    [src/pintos/devices/serial.c], [input.c] and [kbd.c] over interrupt
    queues.  [status] and [received] are what the line status and the receiver
    register will read, [ports] the bytes written to ports so far; a wait for
    which [status] has no end is a [Timeout]. *)
From S2P Require Import Prelude CInt Intq CStdlib Stdio.
From stdpp Require Import strings.

Open Scope Z_scope.

Module Serial.
Import Intq.

Definition IO_BASE : Z := 0x3f8.
Definition RBR_REG : Z := IO_BASE + 0.
Definition THR_REG : Z := IO_BASE + 0.
Definition IER_REG : Z := IO_BASE + 1.
Definition LS_REG : Z := IO_BASE + 0.
Definition MS_REG : Z := IO_BASE + 1.
Definition FCR_REG : Z := IO_BASE + 2.
Definition LCR_REG : Z := IO_BASE + 3.
Definition MCR_REG : Z := IO_BASE + 4.
Definition IER_RECV : Z := 0x01.
Definition IER_XMIT : Z := 0x02.
Definition LCR_N81 : Z := 0x03.
Definition LCR_DLAB : Z := 0x80.
Definition MCR_OUT2 : Z := 0x08.
Definition LSR_DR : Z := 0x01.
Definition LSR_THRE : Z := 0x20.

Inductive mode_t := UNINIT | POLL | QUEUE.

(** [mode] and [txq] of [serial.c], [buffer] of [input.c], and the port. *)
Record uart := MkUart {
  mode : mode_t;
  txq : intq;
  buffer : intq;
  status : list Z;
  received : list Z;
  ports : list (Z * Z)
}.

Definition set_mode m u := MkUart m (txq u) (buffer u) (status u) (received u) (ports u).
Definition set_txq q u := MkUart (mode u) q (buffer u) (status u) (received u) (ports u).
Definition set_buffer q u := MkUart (mode u) (txq u) q (status u) (received u) (ports u).
Definition set_status l u := MkUart (mode u) (txq u) (buffer u) l (received u) (ports u).
Definition set_received l u := MkUart (mode u) (txq u) (buffer u) (status u) l (ports u).

Abbreviation M := (ST uart).
Abbreviation on_txq := (zoom txq set_txq).
Abbreviation on_buffer := (zoom buffer set_buffer).

Definition outb (port value : Z) : M unit :=
  modify (λ u, MkUart (mode u) (txq u) (buffer u) (status u) (received u) (ports u ++ [(port, u8 value)])).

(** [inb (LSR_REG)] and [inb (RBR_REG)]. *)
Definition inb_lsr : M Z :=
  u ← get; match status u with [] => fail Timeout | s :: rest => put (set_status rest u) ;; mret s end.
Definition inb_rbr : M Z :=
  u ← get; match received u with [] => fail Timeout | b :: rest => put (set_received rest u) ;; mret b end.

Definition set_serial (bps : Z) : M unit :=
  let base_rate := Z.quot 1843200 16 in
  let divisor := Z.quot base_rate bps mod 2 ^ 16 in
  ASSERT ((300 <=? bps) && (bps <=? 115200)) ;;
  outb LCR_REG (Z.lor LCR_N81 LCR_DLAB) ;;
  outb LS_REG (Z.land divisor 0xff) ;;
  outb MS_REG (Z.shiftr divisor 8) ;;
  outb LCR_REG LCR_N81.

Definition init_poll : M unit :=
  u ← get;
  ASSERT (match mode u with UNINIT => true | _ => false end) ;;
  outb IER_REG 0 ;;
  outb FCR_REG 0 ;;
  set_serial 9600 ;;
  outb MCR_REG MCR_OUT2 ;;
  modify (λ u, set_txq (intq_init (txq u)) u) ;;
  modify (set_mode POLL).

(** The readings of the line status up to one with [LSR_THRE]. *)
Fixpoint poll_loop (fuel : nat) : M unit :=
  s ← inb_lsr;
  if negb (Z.land s LSR_THRE =? 0) then mret tt
  else match fuel with O => fail Timeout | S fuel => poll_loop fuel end.
Definition putc_poll (level_off : bool) (byte : Z) : M unit :=
  ASSERT level_off ;;
  u ← get;
  poll_loop (length (status u)) ;;
  outb THR_REG byte.

Definition input_full (level_off : bool) : M bool := ASSERT level_off ;; on_buffer (intq_full level_off).

Definition write_ier (level_off : bool) : M unit :=
  ASSERT level_off ;;
  e ← on_txq (intq_empty level_off);
  let ier := if negb e then Z.lor 0 IER_XMIT else 0 in
  f ← input_full level_off;
  let ier := if negb f then Z.lor ier IER_RECV else ier in
  outb IER_REG ier.

Definition serial_init_queue : M unit :=
  u ← get;
  (match mode u with UNINIT => init_poll | _ => mret tt end) ;;
  u ← get;
  ASSERT (match mode u with POLL => true | _ => false end) ;;
  modify (set_mode QUEUE) ;;
  write_ier true.

(** The end of [serial_putc], when the byte is queued by [m]; if the thread
    has to wait, it goes on here with [woken]. *)
Definition queue_byte (m : ST intq (outcome unit)) : M (outcome unit) :=
  r ← on_txq m;
  match r with Done _ => write_ier true ;; mret (Done tt) | Lock => mret Lock | Wait => mret Wait end.

(** [old_off]: interrupts were off. *)
Definition serial_putc (old_off in_intr : bool) (cur byte : Z) : M (outcome unit) :=
  u ← get;
  match mode u with
  | QUEUE =>
    f ← (if old_off then on_txq (intq_full true) else mret false);
    r ← (if f : bool then
           r ← on_txq (intq_getc true in_intr cur);
           match r with Done b => putc_poll true b ;; mret (Done tt) | Lock => mret Lock | Wait => mret Wait end
         else mret (Done tt));
    match r with Done _ => queue_byte (intq_putc true in_intr cur byte) | Lock => mret Lock | Wait => mret Wait end
  | m =>
    (match m with UNINIT => init_poll | _ => mret tt end) ;;
    putc_poll true byte ;; mret (Done tt)
  end.

Fixpoint flush_loop (fuel : nat) (in_intr : bool) (cur : Z) : M unit :=
  e ← on_txq (intq_empty true);
  if e : bool then mret tt else
  match fuel with
  | O => fail Timeout
  | S fuel =>
    r ← on_txq (intq_getc true in_intr cur);
    match r with Done b => putc_poll true b ;; flush_loop fuel in_intr cur | _ => fail Fault end
  end.
Definition serial_flush (in_intr : bool) (cur : Z) : M unit := flush_loop 64 in_intr cur.

Definition serial_notify (level_off : bool) : M unit :=
  ASSERT level_off ;; u ← get; match mode u with QUEUE => write_ier level_off | _ => mret tt end.

(** ** The input buffer *)
Definition input_init : M unit := modify (λ u, set_buffer (intq_init (buffer u)) u).
Definition input_putc (level_off in_intr : bool) (cur key : Z) : M unit :=
  ASSERT level_off ;;
  f ← on_buffer (intq_full level_off);
  ASSERT (negb f) ;;
  r ← on_buffer (intq_putc level_off in_intr cur key);
  match r with Done _ => serial_notify level_off | _ => fail Fault end.
Definition input_getc (cur : Z) : M (outcome Z) :=
  r ← on_buffer (intq_getc true false cur);
  match r with Done key => serial_notify true ;; mret (Done key) | r => mret r end.

(** ** The interrupt handler *)
Fixpoint receive_loop (fuel : nat) (cur : Z) : M unit :=
  f ← input_full true;
  if f : bool then mret tt else
  s ← inb_lsr;
  if Z.land s LSR_DR =? 0 then mret tt else
  match fuel with
  | O => fail Timeout
  | S fuel => b ← inb_rbr; input_putc true true cur b ;; receive_loop fuel cur
  end.
Fixpoint transmit_loop (fuel : nat) (cur : Z) : M unit :=
  e ← on_txq (intq_empty true);
  if e : bool then mret tt else
  s ← inb_lsr;
  if Z.land s LSR_THRE =? 0 then mret tt else
  match fuel with
  | O => fail Timeout
  | S fuel =>
    r ← on_txq (intq_getc true true cur);
    match r with Done b => outb THR_REG b ;; transmit_loop fuel cur | _ => fail Fault end
  end.
(** The queues hold at most 63 bytes. *)
Definition serial_interrupt (cur : Z) : M unit :=
  receive_loop 64 cur ;;
  transmit_loop 64 cur ;;
  write_ier true.

(** ** What has been sent

    A byte written to [THR_REG] is sent, unless the divisor latch is selected;
    the line control register says so. *)
Definition dlab_step (d : bool) (pv : Z * Z) : bool := if pv.1 =? LCR_REG then negb (Z.land pv.2 LCR_DLAB =? 0) else d.
Definition dlab (l : list (Z * Z)) : bool := foldl dlab_step false l.
Definition sent_step (st : bool * list Z) (pv : Z * Z) : bool * list Z :=
  (dlab_step st.1 pv, if (pv.1 =? THR_REG) && negb st.1 then st.2 ++ [pv.2] else st.2).
Definition sent (u : uart) : list Z := (foldl sent_step (false, []) (ports u)).2.

(** The bytes that have been sent or wait to be. *)
Definition pending (u : uart) : list Z := sent u ++ (u8 <$> contents (txq u)).
Definition is_ready (s : Z) : Prop := Z.land s LSR_THRE ≠ 0.
#[local] Instance is_ready_dec s : Decision (is_ready s).
Proof. unfold is_ready. apply _. Defined.
Definition ready_cnt (u : uart) : nat := length (filter is_ready (status u)).

Record uart_ok (u : uart) : Prop := MkUartOk {
  ok_txq : ok (txq u);
  ok_buffer : ok (buffer u);
  ok_dlab : dlab (ports u) = false;
  ok_direct : mode u ≠ QUEUE → contents (txq u) = []
}.

Definition add_port (p v : Z) (u : uart) : uart := MkUart (mode u) (txq u) (buffer u) (status u) (received u) (ports u ++ [(p, v)]).

Lemma sent_dlab l : ∀ st, (foldl sent_step st l).1 = foldl dlab_step st.1 l.
Proof. induction l as [|pv l IH]; intros st; [done|]. apply IH. Qed.

Lemma sent_add p v u : dlab (ports u) = false → sent (add_port p v u) = sent u ++ if p =? THR_REG then [v] else [].
Proof.
  intros Hd. unfold sent, add_port. cbn [ports]. rewrite foldl_app. cbn [foldl sent_step snd fst]. rewrite sent_dlab. cbn [fst].
  change (foldl dlab_step false (ports u)) with (dlab (ports u)). rewrite Hd. cbn [negb]. rewrite andb_true_r. destruct (p =? THR_REG); [done|by rewrite app_nil_r].
Qed.

Lemma add_port_ok p v u : p ≠ LCR_REG → uart_ok u → uart_ok (add_port p v u).
Proof.
  intros Hp [H1 H2 H3 H4]. split; try done. unfold add_port, dlab in *. cbn [ports]. rewrite foldl_app. cbn [foldl]. unfold dlab_step at 1. cbn [fst].
  by rewrite (proj2 (Z.eqb_neq _ _) Hp).
Qed.

Lemma set_txq_ok q u : ok q → (mode u ≠ QUEUE → contents q = []) → uart_ok u → uart_ok (set_txq q u).
Proof. intros Hq Hc [H1 H2 H3 H4]. by split. Qed.
Lemma set_buffer_ok q u : ok q → uart_ok u → uart_ok (set_buffer q u).
Proof. intros Hq [H1 H2 H3 H4]. by split. Qed.

(** ** Runs *)
Lemma txq_empty_ok u : uart_ok u → on_txq (intq_empty true) u = Ok (count (txq u) =? 0, u).
Proof. intros Hu. erewrite run_zoom_ok; [|apply empty_ok, Hu]. by destruct u. Qed.
Lemma txq_full_ok u : uart_ok u → on_txq (intq_full true) u = Ok (count (txq u) =? 63, u).
Proof. intros Hu. erewrite run_zoom_ok; [|apply full_ok, Hu]. by destruct u. Qed.
Lemma input_full_ok u : uart_ok u → input_full true u = Ok (count (buffer u) =? 63, u).
Proof. intros Hu. unfold input_full. run_assert; [|done]. erewrite run_zoom_ok; [|apply full_ok, Hu]. by destruct u. Qed.

Lemma write_ier_ok u : uart_ok u → ∃ v, write_ier true u = Ok (tt, add_port IER_REG v u).
Proof.
  intros Hu. unfold write_ier. run_assert; [|done]. rewrite (run_bind_ok _ _ _ _ _ (txq_empty_ok u Hu)). cbv zeta.
  rewrite (run_bind_ok _ _ _ _ _ (input_full_ok u Hu)). eexists. reflexivity.
Qed.

(** What the operations on one queue leave alone. *)
Definition same_input (u u' : uart) : Prop := buffer u' = buffer u ∧ received u' = received u ∧ mode u' = mode u.

Lemma poll_loop_ok l : ∀ u fuel, status u = l → (length l ≤ fuel)%nat → (0 < ready_cnt u)%nat →
  ∃ l', poll_loop fuel u = Ok (tt, set_status l' u) ∧ ready_cnt u = S (ready_cnt (set_status l' u)).
Proof.
  induction l as [|s l IH]; intros u fuel Hl Hf Hr; unfold ready_cnt in *; rewrite Hl in *; [simpl in Hr; lia|].
  assert (Hs : inb_lsr u = Ok (s, set_status l u)) by (unfold inb_lsr; erewrite run_bind_ok by reflexivity; by rewrite Hl).
  rewrite filter_cons in *. destruct fuel as [|fuel]; [simpl in Hf; lia|]. cbn [poll_loop]. rewrite (run_bind_ok _ _ _ _ _ Hs).
  unfold is_ready in *. destruct (decide (Z.land s LSR_THRE ≠ 0)) as [Hn|Hn].
  - rewrite (proj2 (Z.eqb_neq _ _) Hn). cbn [negb]. exists l. done.
  - destruct (Z.eqb_spec (Z.land s LSR_THRE) 0); [|done]. cbn [negb].
    destruct (IH (set_status l u) fuel eq_refl ltac:(simpl in Hf; lia) Hr) as (l' & Hrun & Hc). exists l'. done.
Qed.

Lemma putc_poll_ok u b : uart_ok u → (0 < ready_cnt u)%nat →
  ∃ u', putc_poll true b u = Ok (tt, u') ∧ uart_ok u' ∧ sent u' = sent u ++ [u8 b] ∧ txq u' = txq u ∧ same_input u u' ∧ ready_cnt u = S (ready_cnt u').
Proof.
  intros Hu Hr. unfold putc_poll. run_assert; [|done]. erewrite run_bind_ok by reflexivity.
  destruct (poll_loop_ok (status u) u (length (status u)) eq_refl ltac:(lia) Hr) as (l & Hrun & Hc). rewrite (run_bind_ok _ _ _ _ _ Hrun).
  exists (add_port THR_REG (u8 b) (set_status l u)). split; [done|]. assert (Hu' : uart_ok (set_status l u)) by (by destruct Hu).
  split; [by apply add_port_ok|]. split; [|done]. rewrite sent_add by apply Hu'. done.
Qed.

Lemma intq_init_ok q : ok q → ok (intq_init q) ∧ contents (intq_init q) = [].
Proof. intros [H1 H2 H3]. split; [by split|done]. Qed.

Definition init_ports : list (Z * Z) :=
  [(IER_REG, 0); (FCR_REG, 0); (LCR_REG, 0x83); (LS_REG, 12); (MS_REG, 0); (LCR_REG, LCR_N81); (MCR_REG, MCR_OUT2)].
Lemma init_ports_app l : ((((((l ++ [(IER_REG, 0)]) ++ [(FCR_REG, 0)]) ++ [(LCR_REG, 0x83)]) ++ [(LS_REG, 12)]) ++ [(MS_REG, 0)]) ++ [(LCR_REG, LCR_N81)]) ++ [(MCR_REG, MCR_OUT2)] = l ++ init_ports.
Proof. by rewrite <- !(assoc_L (++)). Qed.

Lemma init_poll_ok u : uart_ok u → mode u = UNINIT →
  ∃ u', init_poll u = Ok (tt, u') ∧ uart_ok u' ∧ pending u' = pending u ∧ mode u' = POLL ∧ buffer u' = buffer u ∧ received u' = received u ∧ status u' = status u.
Proof.
  intros [H1 H2 H3 H4] Hm. destruct (intq_init_ok (txq u) H1) as [Hq Hc].
  exists (MkUart POLL (intq_init (txq u)) (buffer u) (status u) (received u) (ports u ++ init_ports)).
  split; [rewrite <- (init_ports_app (ports u)); destruct u; simpl in Hm; subst; reflexivity|]. split; [split; [exact Hq|exact H2| |done]|].
  - cbn [ports]. unfold dlab. by rewrite foldl_app.
  - split; [|done]. unfold pending. cbn [txq]. rewrite Hc, H4 by congruence. f_equal. unfold sent. cbn [ports]. rewrite foldl_app.
    assert (Hd := sent_dlab (ports u) (false, [])). cbn [fst] in Hd. unfold dlab in H3. rewrite H3 in Hd.
    destruct (foldl sent_step (false, []) (ports u)) as [d l]. cbn [fst] in Hd. by subst d.
Qed.

(** A byte taken from the queue, and one put into it. *)
Lemma txq_getc_ok u in_intr cur : uart_ok u → 0 < count (txq u) →
  ∃ b q, on_txq (intq_getc true in_intr cur) u = Ok (Done b, set_txq q u) ∧ contents (txq u) = b :: contents q ∧ uart_ok (set_txq q u).
Proof.
  intros Hu Hc. assert (Hg := intq_getc_ok in_intr cur (txq u) (ok_txq u Hu)). assert (Hl := length_queue (txq u)).
  destruct (contents (txq u)) as [|b rest] eqn:E; [simpl in Hl; lia|]. destruct Hg as (q & Hrun & Hq & Hc' & _).
  exists b, q. split; [by apply run_zoom_ok|]. split; [by rewrite Hc'|]. apply set_txq_ok; [done| |done]. intros Hm. by rewrite (ok_direct u Hu Hm) in E.
Qed.

Lemma queue_byte_ok u in_intr cur byte : uart_ok u → mode u = QUEUE → count (txq u) < 63 →
  ∃ u', queue_byte (intq_putc true in_intr cur byte) u = Ok (Done tt, u') ∧ uart_ok u' ∧ pending u' = pending u ++ [u8 byte] ∧ same_input u u'.
Proof.
  intros Hu Hm Hc. assert (Hp := intq_putc_ok in_intr cur (txq u) byte (ok_txq u Hu)). assert (Hl := length_queue (txq u)).
  rewrite decide_False in Hp by lia. destruct Hp as (q & Hrun & Hq & Hc' & _). unfold queue_byte.
  erewrite run_bind_ok; [|apply run_zoom_ok; exact Hrun]. assert (Hu' : uart_ok (set_txq q u)) by (apply set_txq_ok; [done|by rewrite Hm|done]).
  destruct (write_ier_ok _ Hu') as [v Hv]. rewrite (run_bind_ok _ _ _ _ _ Hv). eexists. split; [reflexivity|]. split; [by apply add_port_ok|].
  split; [|done]. unfold pending. rewrite sent_add by apply Hu'. cbn [txq add_port set_txq]. rewrite app_nil_r, Hc', fmap_app. by rewrite (assoc_L (++)).
Qed.

Lemma same_input_trans u1 u2 u3 : same_input u1 u2 → same_input u2 u3 → same_input u1 u3.
Proof. intros (?&?&?) (?&?&?). split_and!; congruence. Qed.

Lemma serial_putc_ok u old_off in_intr cur byte : uart_ok u → (in_intr = true → old_off = true) → lock_holder (txq u) ≠ Some cur → (0 < ready_cnt u)%nat →
  ∃ r u', serial_putc old_off in_intr cur byte u = Ok (r, u') ∧ uart_ok u' ∧
    pending u' = pending u ++ (match r with Done _ => [u8 byte] | _ => [] end) ∧ buffer u' = buffer u ∧ received u' = received u ∧
    (r = Done tt ∨ old_off = false ∧ mode u = QUEUE ∧ length (contents (txq u)) = 63%nat).
Proof.
  intros Hu Hi Hlock Hr. unfold serial_putc. erewrite run_bind_ok by reflexivity. destruct (mode u) eqn:Hm.
  - destruct (init_poll_ok u Hu Hm) as (u1 & H1 & Hu1 & Hp1 & Hm1 & Hb1 & Hr1 & Hs1). rewrite (run_bind_ok _ _ _ _ _ H1).
    destruct (putc_poll_ok u1 byte Hu1) as (u2 & H2 & Hu2 & Hs2 & Ht2 & (Hb2 & Hr2 & _) & _); [unfold ready_cnt in *; by rewrite Hs1|].
    rewrite (run_bind_ok _ _ _ _ _ H2). exists (Done tt), u2. split; [done|]. split; [done|]. split; [|split_and!; try congruence; by left].
    rewrite <- Hp1. unfold pending. rewrite Hs2, Ht2, (ok_direct u1 Hu1) by congruence. by rewrite !app_nil_r.
  - erewrite run_bind_ok by reflexivity. destruct (putc_poll_ok u byte Hu Hr) as (u2 & H2 & Hu2 & Hs2 & Ht2 & (Hb2 & Hr2 & _) & _).
    rewrite (run_bind_ok _ _ _ _ _ H2). exists (Done tt), u2. split; [done|]. split; [done|]. split; [|split_and!; try congruence; by left].
    unfold pending. rewrite Hs2, Ht2, (ok_direct u Hu) by congruence. by rewrite !app_nil_r.
  - assert (Hl := length_queue (txq u)). assert (Hcr := count_range (txq u)). destruct old_off.
    + rewrite (run_bind_ok _ _ _ _ _ (txq_full_ok u Hu)). destruct (Z.eqb_spec (count (txq u)) 63) as [E|E].
      * destruct (txq_getc_ok u in_intr cur Hu ltac:(lia)) as (b & q & H1 & Hc1 & Hu1).
        destruct (putc_poll_ok (set_txq q u) b Hu1 Hr) as (u2 & H2 & Hu2 & Hs2 & Ht2 & (Hb2 & Hr2 & Hm2) & _).
        erewrite run_bind_ok; [|rewrite (run_bind_ok _ _ _ _ _ H1), (run_bind_ok _ _ _ _ _ H2); reflexivity].
        assert (Hc2 : count (txq u2) < 63). { rewrite Ht2. assert (Hl2 := length_queue q). rewrite Hc1 in Hl. simpl in *. lia. }
        destruct (queue_byte_ok u2 in_intr cur byte Hu2 ltac:(rewrite Hm2; exact Hm) Hc2) as (u3 & H3 & Hu3 & Hp3 & (Hb3 & Hr3 & _)).
        exists (Done tt), u3. split; [exact H3|]. split; [done|]. split; [|simpl in *; split_and!; try congruence; by left].
        rewrite Hp3. unfold pending. rewrite Hs2, Ht2, Hc1. cbn [txq set_txq fmap list_fmap]. rewrite <- !(assoc_L (++)). done.
      * erewrite run_bind_ok by reflexivity. destruct (queue_byte_ok u in_intr cur byte Hu Hm ltac:(lia)) as (u3 & H3 & Hu3 & Hp3 & (Hb3 & Hr3 & _)).
        exists (Done tt), u3. split; [exact H3|]. split_and!; try done. by left.
    + destruct in_intr; [by specialize (Hi eq_refl)|]. do 2 (erewrite run_bind_ok by reflexivity).
      destruct (decide (count (txq u) = 63)) as [E|E].
      * assert (Hp := intq_putc_ok false cur (txq u) byte (ok_txq u Hu)). rewrite decide_True in Hp by lia. unfold queue_byte, waits in *.
        destruct (lock_holder (txq u)) as [t|] eqn:El.
        -- rewrite decide_False in Hp by congruence. exists Lock, u. split; [|split_and!; try done; [by rewrite app_nil_r|right; split_and!; try done; lia]].
           erewrite run_bind_ok; [|apply run_zoom_ok; exact Hp]. by destruct u.
        -- set (q' := set_waiter _ _ _) in Hp. exists Wait, (set_txq q' u). split; [erewrite run_bind_ok; [|apply run_zoom_ok; exact Hp]; done|].
           assert (Hq' : ok q') by (by destruct (ok_txq u Hu)). split; [apply set_txq_ok; [done|by rewrite Hm|done]|].
           split; [by rewrite app_nil_r|]. split_and!; try done. right. split_and!; try done. lia.
      * destruct (queue_byte_ok u false cur byte Hu Hm ltac:(lia)) as (u3 & H3 & Hu3 & Hp3 & (Hb3 & Hr3 & _)).
        exists (Done tt), u3. split; [exact H3|]. split_and!; try done. by left.
Qed.

Lemma serial_flush_loop_ok in_intr cur fuel : ∀ u, uart_ok u → (length (contents (txq u)) ≤ fuel)%nat → (length (contents (txq u)) ≤ ready_cnt u)%nat →
  ∃ u', flush_loop fuel in_intr cur u = Ok (tt, u') ∧ uart_ok u' ∧ pending u' = pending u ∧ contents (txq u') = [] ∧ same_input u u'.
Proof.
  induction fuel as [|fuel IH]; intros u Hu Hf Hr; assert (Hl := length_queue (txq u)); assert (Hcr := count_range (txq u));
    cbn [flush_loop]; rewrite (run_bind_ok _ _ _ _ _ (txq_empty_ok u Hu)).
  - rewrite (proj2 (Z.eqb_eq _ _)) by lia. exists u. split_and!; try done. apply nil_length_inv. lia.
  - destruct (Z.eqb_spec (count (txq u)) 0) as [E|E]; [exists u; split_and!; try done; apply nil_length_inv; lia|].
    destruct (txq_getc_ok u in_intr cur Hu ltac:(lia)) as (b & q & H1 & Hc1 & Hu1). rewrite (run_bind_ok _ _ _ _ _ H1). rewrite Hc1 in Hf, Hr. cbn [length] in Hf, Hr.
    destruct (putc_poll_ok (set_txq q u) b Hu1 ltac:(unfold ready_cnt in *; simpl; lia)) as (u2 & H2 & Hu2 & Hs2 & Ht2 & Hi2 & Hr2).
    rewrite (run_bind_ok _ _ _ _ _ H2). destruct (IH u2 Hu2) as (u3 & H3 & Hu3 & Hp3 & Hc3 & Hi3);
      [rewrite Ht2; simpl; lia|rewrite Ht2; unfold ready_cnt in *; simpl in *; lia|].
    exists u3. split; [done|]. split; [done|]. split; [|split; [done|by eapply same_input_trans]].
    rewrite Hp3. unfold pending. rewrite Hs2, Ht2, Hc1. cbn [txq set_txq fmap list_fmap]. by rewrite <- (assoc_L (++)).
Qed.

Definition same_output (u u' : uart) : Prop := txq u' = txq u ∧ sent u' = sent u ∧ mode u' = mode u.

Lemma same_output_trans u1 u2 u3 : same_output u1 u2 → same_output u2 u3 → same_output u1 u3.
Proof. intros (?&?&?) (?&?&?). split_and!; congruence. Qed.

Lemma serial_notify_ok u : uart_ok u → ∃ u', serial_notify true u = Ok (tt, u') ∧ uart_ok u' ∧ same_output u u' ∧ same_input u u' ∧ status u' = status u.
Proof.
  intros Hu. unfold serial_notify. run_assert; [|done]. erewrite run_bind_ok by reflexivity. destruct (mode u) eqn:Hm; [by exists u|by exists u|].
  destruct (write_ier_ok u Hu) as [v ->]. eexists. split; [reflexivity|]. split; [by apply add_port_ok|]. split; [|done].
  split; [done|]. split; [|done]. rewrite sent_add by apply Hu. by rewrite app_nil_r.
Qed.

Lemma input_putc_ok u in_intr cur key : uart_ok u → count (buffer u) < 63 →
  ∃ u', input_putc true in_intr cur key u = Ok (tt, u') ∧ uart_ok u' ∧ contents (buffer u') = contents (buffer u) ++ [key] ∧
    same_output u u' ∧ status u' = status u ∧ received u' = received u.
Proof.
  intros Hu Hc. assert (Hl := length_queue (buffer u)). unfold input_putc. run_assert; [|done].
  erewrite run_bind_ok; [|apply run_zoom_ok, full_ok, Hu]. rewrite (proj2 (Z.eqb_neq _ _)) by lia. run_assert; [|done].
  assert (Hp := intq_putc_ok in_intr cur (buffer u) key (ok_buffer u Hu)). rewrite decide_False in Hp by lia. destruct Hp as (q & Hrun & Hq & Hc' & _).
  erewrite run_bind_ok; [|apply run_zoom_ok; destruct u; exact Hrun]. assert (Hu' : uart_ok (set_buffer q (set_buffer (buffer u) u))) by (apply set_buffer_ok; [done|by destruct u]).
  destruct (serial_notify_ok _ Hu') as (u' & H1 & Hu1 & Ho & (Hb & Hr & _) & Hs). exists u'. split; [done|]. split; [done|]. split; [by rewrite Hb|]. done.
Qed.

Lemma inb_lsr_ok u s l : status u = s :: l → inb_lsr u = Ok (s, set_status l u).
Proof. intros E. unfold inb_lsr. erewrite run_bind_ok by reflexivity. by rewrite E. Qed.

Lemma receive_loop_ok cur fuel : ∀ u, uart_ok u → (63 ≤ length (contents (buffer u)) + fuel)%nat → (fuel < length (status u))%nat → (fuel ≤ length (received u))%nat →
  ∃ u', receive_loop fuel cur u = Ok (tt, u') ∧ uart_ok u' ∧ contents (buffer u') ++ received u' = contents (buffer u) ++ received u ∧
    same_output u u' ∧ (length (status u) ≤ length (status u') + fuel + 1)%nat.
Proof.
  induction fuel as [|fuel IH]; intros u Hu Hf Hs Hr; assert (Hl := length_queue (buffer u)); assert (Hcr := count_range (buffer u));
    cbn [receive_loop]; rewrite (run_bind_ok _ _ _ _ _ (input_full_ok u Hu)).
  { rewrite (proj2 (Z.eqb_eq _ _)) by lia. exists u. split_and!; try done; lia. }
  destruct (Z.eqb_spec (count (buffer u)) 63); [exists u; split_and!; try done; lia|].
  destruct (status u) as [|s l] eqn:Es; [simpl in Hs; lia|]. rewrite (run_bind_ok _ _ _ _ _ (inb_lsr_ok u s l Es)). simpl in Hs.
  assert (Hu1 : uart_ok (set_status l u)) by (by destruct Hu). destruct (Z.land s LSR_DR =? 0).
  { exists (set_status l u). split_and!; try done. simpl. lia. }
  destruct (received u) as [|b rest] eqn:Er; [simpl in Hr; lia|]. simpl in Hr.
  erewrite run_bind_ok; [|unfold inb_rbr; erewrite run_bind_ok by reflexivity; cbn [received set_status]; rewrite Er; reflexivity].
  set (u2 := set_received rest (set_status l u)). assert (Hu2 : uart_ok u2) by (by destruct Hu1).
  destruct (input_putc_ok u2 true cur b Hu2 ltac:(simpl; lia)) as (u3 & H3 & Hu3 & Hc3 & Ho3 & Hs3 & Hr3). rewrite (run_bind_ok _ _ _ _ _ H3).
  destruct (IH u3 Hu3) as (u4 & H4 & Hu4 & Hc4 & Ho4 & Hs4); [rewrite Hc3, length_app; simpl; lia|rewrite Hs3; simpl; lia|rewrite Hr3; simpl; lia|].
  exists u4. split; [done|]. split; [done|]. split; [|split; [by eapply same_output_trans|rewrite Hs3 in Hs4; simpl in *; lia]].
  rewrite Hc4, Hc3, Hr3. cbn [buffer received u2 set_received set_status]. by rewrite <- (assoc_L (++)).
Qed.

Lemma transmit_loop_ok cur fuel : ∀ u, uart_ok u → (length (contents (txq u)) ≤ fuel)%nat → (fuel < length (status u))%nat →
  ∃ u', transmit_loop fuel cur u = Ok (tt, u') ∧ uart_ok u' ∧ pending u' = pending u ∧ same_input u u'.
Proof.
  induction fuel as [|fuel IH]; intros u Hu Hf Hs; assert (Hl := length_queue (txq u)); assert (Hcr := count_range (txq u));
    cbn [transmit_loop]; rewrite (run_bind_ok _ _ _ _ _ (txq_empty_ok u Hu)).
  { rewrite (proj2 (Z.eqb_eq _ _)) by lia. by exists u. }
  destruct (Z.eqb_spec (count (txq u)) 0); [by exists u|].
  destruct (status u) as [|s l] eqn:Es; [simpl in Hs; lia|]. rewrite (run_bind_ok _ _ _ _ _ (inb_lsr_ok u s l Es)). simpl in Hs.
  assert (Hu1 : uart_ok (set_status l u)) by (by destruct Hu). destruct (Z.land s LSR_THRE =? 0); [by exists (set_status l u)|].
  destruct (txq_getc_ok _ true cur Hu1 ltac:(simpl; lia)) as (b & q & H2 & Hc2 & Hu2). rewrite (run_bind_ok _ _ _ _ _ H2).
  erewrite run_bind_ok by reflexivity. set (u3 := add_port THR_REG (u8 b) (set_txq q (set_status l u))).
  assert (Hu3 : uart_ok u3) by (by apply add_port_ok). cbn [txq set_status] in Hc2.
  destruct (IH u3 Hu3) as (u4 & H4 & Hu4 & Hp4 & Hi4); [rewrite Hc2 in Hf; simpl in *; lia|simpl; lia|].
  exists u4. split; [done|]. split; [done|]. split; [|eapply same_input_trans; [|exact Hi4]; done].
  rewrite Hp4. unfold pending. unfold u3 at 1. rewrite sent_add by apply Hu2. cbn [txq u3 add_port set_txq set_status]. rewrite Hc2.
  rewrite Z.eqb_refl, fmap_cons. by rewrite <- (assoc_L (++)).
Qed.

Lemma serial_interrupt_ok u cur : uart_ok u → (130 ≤ length (status u))%nat → (64 ≤ length (received u))%nat →
  ∃ u', serial_interrupt cur u = Ok (tt, u') ∧ uart_ok u' ∧ pending u' = pending u ∧
    contents (buffer u') ++ received u' = contents (buffer u) ++ received u.
Proof.
  intros Hu Hs Hr. assert (Hl := length_queue (txq u)). assert (Hcr := count_range (txq u)). unfold serial_interrupt.
  destruct (receive_loop_ok cur 64 u Hu ltac:(lia) ltac:(lia) ltac:(lia)) as (u1 & H1 & Hu1 & Hc1 & (Ht1 & Hse1 & _) & Hs1). rewrite (run_bind_ok _ _ _ _ _ H1).
  destruct (transmit_loop_ok cur 64 u1 Hu1) as (u2 & H2 & Hu2 & Hp2 & (Hb2 & Hr2 & _)); [rewrite Ht1; lia|lia|]. rewrite (run_bind_ok _ _ _ _ _ H2).
  destruct (write_ier_ok u2 Hu2) as [v ->]. eexists. split; [reflexivity|]. split; [by apply add_port_ok|]. split.
  - unfold pending in *. rewrite sent_add by apply Hu2. cbn [txq add_port]. rewrite app_nil_r. rewrite Hp2, Ht1, Hse1. done.
  - cbn [buffer received add_port]. rewrite Hb2, Hr2. exact Hc1.
Qed.

(** C40: The serial port sends the bytes it is given, each once and in order,
    in polled and in queued operation.  [serial_putc] adds its byte to those
    sent or queued, unless the thread has to wait, which happens only with
    interrupts on and a full queue; it needs the port to become ready at some
    time.  The interrupt handler moves bytes from the queue to the port and
    from the port to the input buffer, and ends within 130 readings of the
    status.  [serial_flush] empties the queue. *)
Theorem serial_in_order u cur : uart_ok u →
  (∀ old_off in_intr byte, (in_intr = true → old_off = true) → lock_holder (txq u) ≠ Some cur → (0 < ready_cnt u)%nat →
    ∃ r u', serial_putc old_off in_intr cur byte u = Ok (r, u') ∧ uart_ok u' ∧
      pending u' = pending u ++ (match r with Done _ => [u8 byte] | _ => [] end) ∧ buffer u' = buffer u ∧ received u' = received u ∧
      (r = Done tt ∨ old_off = false ∧ mode u = QUEUE ∧ length (contents (txq u)) = 63%nat)) ∧
  ((130 ≤ length (status u))%nat → (64 ≤ length (received u))%nat →
    ∃ u', serial_interrupt cur u = Ok (tt, u') ∧ uart_ok u' ∧ pending u' = pending u ∧
      contents (buffer u') ++ received u' = contents (buffer u) ++ received u) ∧
  (∀ in_intr, (length (contents (txq u)) ≤ ready_cnt u)%nat →
    ∃ u', serial_flush in_intr cur u = Ok (tt, u') ∧ uart_ok u' ∧ pending u' = pending u ∧ contents (txq u') = [] ∧ same_input u u').
Proof.
  intros Hu. split; [intros; by apply serial_putc_ok|]. split; [intros; by apply serial_interrupt_ok|]. intros in_intr Hr.
  assert (Hl := length_queue (txq u)). assert (Hcr := count_range (txq u)). apply serial_flush_loop_ok; [done|lia|done].
Qed.

(** A port in queued operation with two bytes to send; two have come in. *)
Definition demo_uart : uart :=
  MkUart QUEUE (MkIntq None None None (72 :: 105 :: replicate 62 0) 2 0 []) (MkIntq None None (Some 7) (replicate 64 0) 5 5 [])
    (repeat 0x21 2 ++ repeat 0x20 128) ([111; 107] ++ replicate 62 0) [].
Lemma serial_in_order_witness : ∃ u, serial_interrupt 1 demo_uart = Ok (tt, u) ∧ pending u = [72; 105] ∧
  contents (buffer u) ++ received u = [111; 107] ++ replicate 62 0.
Proof.
  assert (Hu : uart_ok demo_uart) by (split; [split; [reflexivity|split; vm_compute; congruence..]|split; [reflexivity|split; vm_compute; congruence..]|reflexivity|done]).
  destruct (serial_in_order demo_uart 1 Hu) as (_ & H & _). destruct H as (u & H1 & _ & H2 & H3); [vm_compute; lia|vm_compute; lia|].
  exists u. split; [exact H1|]. split; [exact H2|exact H3].
Defined.
End Serial.

(** ** The keyboard *)
Module Kbd.
Import Serial.

Record kbd := MkKbd {
  left_shift : bool; right_shift : bool;
  left_alt : bool; right_alt : bool;
  left_ctrl : bool; right_ctrl : bool;
  caps_lock : bool;
  key_cnt : Z
}.

(** A [struct keymap]: the first scancode and the characters. *)
Abbreviation keymap := (Z * list Z)%type.
Definition invariant_keymap : list keymap :=
  [(0x01, [27]); (0x0e, [8]); (0x0f, 9 :: Stdio.chars "QWERTYUIOP"); (0x1c, [13]); (0x1e, Stdio.chars "ASDFGHJKL"); (0x2c, Stdio.chars "ZXCVBNM");
   (0x37, [42]); (0x39, [32]); (0x53, [127])].
Definition unshifted_keymap : list keymap :=
  [(0x02, Stdio.chars "1234567890-="); (0x1a, Stdio.chars "[]"); (0x27, Stdio.chars ";'`"); (0x2b, [92]); (0x33, Stdio.chars ",./")].
Definition shifted_keymap : list keymap :=
  [(0x02, Stdio.chars "!@#$%^&*()_+"); (0x1a, Stdio.chars "{}"); (0x27, [58; 34; 126]); (0x2b, Stdio.chars "|"); (0x33, Stdio.chars "<>?")].

Fixpoint map_key (k : list keymap) (scancode : Z) : option Z :=
  match k with
  | [] => None
  | (first, cs) :: k =>
    if (first <=? scancode) && (scancode <? first + Z.of_nat (length cs)) then cs !! Z.to_nat (scancode - first)
    else map_key k scancode
  end.

Definition isupper (c : Z) : bool := (65 <=? c) && (c <=? 90).
Definition tolower (c : Z) : Z := if isupper c then c - 65 + 97 else c.

(** The variable of a shift key set to [b]. *)
Definition shift_key (scancode : Z) (b : bool) (k : kbd) : kbd :=
  if scancode =? 0x2a then MkKbd b (right_shift k) (left_alt k) (right_alt k) (left_ctrl k) (right_ctrl k) (caps_lock k) (key_cnt k)
  else if scancode =? 0x36 then MkKbd (left_shift k) b (left_alt k) (right_alt k) (left_ctrl k) (right_ctrl k) (caps_lock k) (key_cnt k)
  else if scancode =? 0x38 then MkKbd (left_shift k) (right_shift k) b (right_alt k) (left_ctrl k) (right_ctrl k) (caps_lock k) (key_cnt k)
  else if scancode =? 0xe038 then MkKbd (left_shift k) (right_shift k) (left_alt k) b (left_ctrl k) (right_ctrl k) (caps_lock k) (key_cnt k)
  else if scancode =? 0x1d then MkKbd (left_shift k) (right_shift k) (left_alt k) (right_alt k) b (right_ctrl k) (caps_lock k) (key_cnt k)
  else if scancode =? 0xe01d then MkKbd (left_shift k) (right_shift k) (left_alt k) (right_alt k) (left_ctrl k) b (caps_lock k) (key_cnt k)
  else k.
Definition set_caps_lock b k := MkKbd (left_shift k) (right_shift k) (left_alt k) (right_alt k) (left_ctrl k) (right_ctrl k) b (key_cnt k).
Definition set_key_cnt n k := MkKbd (left_shift k) (right_shift k) (left_alt k) (right_alt k) (left_ctrl k) (right_ctrl k) (caps_lock k) n.

Abbreviation M := (ST (kbd * uart)).
Abbreviation on_uart := (zoom snd (λ u s, (s.1, u))).

(** The two bytes are what the data register reads; the result says whether
    the machine is rebooted, which ends it. *)
Definition keyboard_interrupt (cur byte1 byte2 : Z) : M bool :=
  s ← get;
  let k := s.1 in
  let shift := left_shift k || right_shift k in
  let alt := left_alt k || right_alt k in
  let ctrl := left_ctrl k || right_ctrl k in
  let code := if byte1 =? 0xe0 then Z.lor (Z.shiftl byte1 8) byte2 else byte1 in
  let release := negb (Z.land code 0x80 =? 0) in
  let code := Z.ldiff code 0x80 in
  if code =? 0x3a then
    (if release then mret tt else put (set_caps_lock (negb (caps_lock k)) k, s.2)) ;; mret false
  else
    let c := match map_key invariant_keymap code with
             | Some c => Some c
             | None => if shift then map_key shifted_keymap code else map_key unshifted_keymap code
             end in
    match c with
    | Some c =>
      if release then mret false
      else if (c =? 127) && ctrl && alt then mret true
      else
        let c := if ctrl && (0x40 <=? c) && (c <? 0x60) then u8 (c - 0x40) else if bool_decide (shift = caps_lock k) then tolower c else c in
        let c := if alt then u8 (c + 0x80) else c in
        f ← on_uart (input_full true);
        (if f : bool then mret tt
         else
           modify (λ s, (set_key_cnt (s64 (key_cnt s.1 + 1)) s.1, s.2)) ;;
           on_uart (input_putc true true cur c)) ;;
        mret false
    | None => put (shift_key code (negb release) k, s.2) ;; mret false
    end.

(** ** Letters *)
Definition letters : list (Z * Z) :=
  zip (seqZ 0x10 10) (Stdio.chars "QWERTYUIOP") ++ zip (seqZ 0x1e 9) (Stdio.chars "ASDFGHJKL") ++ zip (seqZ 0x2c 7) (Stdio.chars "ZXCVBNM").

(** What a letter key types: with a control key the control character,
    otherwise the letter in the case that the shift keys and the caps lock say;
    an alt key sets the high bit. *)
Definition typed (k : kbd) (letter : Z) : Z :=
  (if left_ctrl k || right_ctrl k then letter - 64
   else if xorb (left_shift k || right_shift k) (caps_lock k) then letter else letter + 32) + if left_alt k || right_alt k then 128 else 0.

Lemma letter_facts sc letter : (sc, letter) ∈ letters →
  0 < sc < 0x80 ∧ sc ≠ 0x3a ∧ 65 ≤ letter ≤ 90 ∧ map_key invariant_keymap sc = Some letter ∧
  Z.land sc 0x80 = 0 ∧ Z.ldiff sc 0x80 = sc ∧ Z.land (sc + 0x80) 0x80 = 0x80 ∧ Z.ldiff (sc + 0x80) 0x80 = sc ∧ sc + 0x80 ≠ 0xe0.
Proof.
  assert (H : forallb (λ p, bool_decide (0 < p.1 < 0x80 ∧ p.1 ≠ 0x3a ∧ 65 ≤ p.2 ≤ 90 ∧ map_key invariant_keymap p.1 = Some p.2 ∧
    Z.land p.1 0x80 = 0 ∧ Z.ldiff p.1 0x80 = p.1 ∧ Z.land (p.1 + 0x80) 0x80 = 0x80 ∧ Z.ldiff (p.1 + 0x80) 0x80 = p.1 ∧ p.1 + 0x80 ≠ 0xe0)) letters = true)
    by (vm_compute; reflexivity).
  intros Hin. rewrite forallb_forall in H. apply list_elem_of_In in Hin. specialize (H _ Hin). by apply bool_decide_eq_true in H.
Qed.

(** Typing a letter.  Pressing its key appends what it types to the
    input buffer and counts the key, unless the buffer is full, when nothing
    changes; releasing it does nothing.  Output is not disturbed. *)
Theorem kbd_types_letters cur byte2 k u sc letter : (sc, letter) ∈ letters → uart_ok u →
  keyboard_interrupt cur (sc + 0x80) byte2 (k, u) = Ok (false, (k, u)) ∧
  if decide (length (Intq.contents (buffer u)) = 63%nat) then keyboard_interrupt cur sc byte2 (k, u) = Ok (false, (k, u))
  else ∃ u', keyboard_interrupt cur sc byte2 (k, u) = Ok (false, (set_key_cnt (s64 (key_cnt k + 1)) k, u')) ∧ uart_ok u' ∧
         Intq.contents (buffer u') = Intq.contents (buffer u) ++ [typed k letter] ∧ same_output u u'.
Proof.
  intros Hin Hu. destruct (letter_facts sc letter Hin) as (H1 & H2 & H3 & H4 & H5 & H6 & H7 & H8 & H9).
  split.
  - unfold keyboard_interrupt. erewrite run_bind_ok by reflexivity. cbv zeta. rewrite (proj2 (Z.eqb_neq _ _) H9), H7, H8.
    rewrite (proj2 (Z.eqb_neq _ _) H2), H4. reflexivity.
  - assert (Hl := Intq.length_queue (buffer u)). assert (Hcr := Intq.count_range (buffer u)). assert (Hfull := input_full_ok u Hu).
    assert (Hput := input_putc_ok u true cur (typed k letter) Hu).
    assert (Ec : (let c := if (left_ctrl k || right_ctrl k) && (0x40 <=? letter) && (letter <? 0x60) then u8 (letter - 0x40)
                    else if bool_decide (left_shift k || right_shift k = caps_lock k) then tolower letter else letter in
                  if left_alt k || right_alt k then u8 (c + 0x80) else c) = typed k letter).
    { rewrite (proj2 (Z.leb_le 0x40 letter)), (proj2 (Z.ltb_lt letter 0x60)) by lia. rewrite !andb_true_r. unfold typed, tolower, isupper.
      rewrite (proj2 (Z.leb_le 65 letter)), (proj2 (Z.leb_le letter 90)) by lia. cbn [andb]. cbv zeta.
      destruct (left_ctrl k || right_ctrl k), (left_shift k || right_shift k), (caps_lock k), (left_alt k || right_alt k); simpl;
        rewrite ?(u8_id (letter - 64)), ?u8_id by (unfold in_u8; lia); lia. }
    unfold keyboard_interrupt. erewrite run_bind_ok by reflexivity. cbv zeta in Ec |- *. cbn [fst snd]. rewrite (proj2 (Z.eqb_neq sc 0xe0)) by lia.
    rewrite H5, H6. cbn [Z.eqb negb]. rewrite (proj2 (Z.eqb_neq _ _) H2), H4, (proj2 (Z.eqb_neq letter 127)) by lia. cbn [andb]. rewrite Ec.
    erewrite run_bind_ok; [|apply run_zoom_ok; exact Hfull]. cbn [fst].
    destruct (decide _) as [E|E]; [by rewrite (proj2 (Z.eqb_eq _ _)) by lia|]. rewrite (proj2 (Z.eqb_neq _ _)) by lia.
    destruct Hput as (u' & Hrun & Hu' & Hc & Ho & _); [lia|]. exists u'. split; [|done].
    erewrite run_bind_ok; [reflexivity|]. erewrite run_bind_ok by reflexivity. by erewrite run_zoom_ok by exact Hrun.
Qed.

(** Shift and G with the caps lock on: a small g. *)
Lemma kbd_types_letters_witness : ∃ u', keyboard_interrupt 1 0x22 0 (MkKbd true false false false false false true 9, demo_uart) =
  Ok (false, (MkKbd true false false false false false true 10, u')) ∧ Intq.contents (buffer u') = [103].
Proof.
  assert (Hu : uart_ok demo_uart) by (split; [split; [reflexivity|split; vm_compute; congruence..]|split; [reflexivity|split; vm_compute; congruence..]|reflexivity|done]).
  destruct (kbd_types_letters 1 0 (MkKbd true false false false false false true 9) demo_uart 0x22 71) as [_ H]; [apply list_elem_of_lookup_2 with 14%nat; reflexivity|exact Hu|].
  destruct H as (u' & H1 & _ & H2 & _). exists u'. split; [exact H1|exact H2].
Defined.
End Kbd.
