(* ===== verification/Swap.v ===== *)
(** * Swap space: [src/pintos/vm/swap.c]

    A table of slots over a block device, one page of eight sectors each.
    [swap_lock] makes [swalloc] and [swfree] single steps; the table's
    allocation succeeds. *)
From S2P Require Import Prelude CInt Palloc Block.

Open Scope Z_scope.

Module Swap.
Import Block.

Definition SWAP_PAGE_ERROR : Z := -1.

(** [PG_NUM_SECTORS] is a macro without parentheses, used as
    [swap_page * PGSIZE / BLOCK_SECTOR_SIZE] and on its own. *)
Definition PG_NUM_SECTORS : Z := Z.quot PGSIZE BLOCK_SECTOR_SIZE.
Definition base_sector (swap_page : Z) : Z := Z.quot (s32 (swap_page * PGSIZE)) BLOCK_SECTOR_SIZE.

(** The globals; a slot is its [free] flag. *)
Record swap (D : Type) := MkSwap { swap_block : block D; swap_table : list bool }.
Arguments MkSwap {D}.
Arguments swap_block {D}.
Arguments swap_table {D}.

Section swap.
Context {D : Type} `{!BlockDriver D}.
Abbreviation M := (ST (swap D)).

Definition set_swap_block (b : block D) (s : swap D) : swap D := MkSwap b (swap_table s).
Definition on_block {A} : ST (block D) A → M A := zoom swap_block set_swap_block.

Definition swalloc_init (b : block D) : swap D :=
  let swap_num_pages := s32 (u32 (block_size b * BLOCK_SECTOR_SIZE) / PGSIZE) in
  MkSwap b (replicate (Z.to_nat swap_num_pages) true).

(** The first free slot at or after [i]. *)
Fixpoint swalloc_loop (l : list bool) (i : Z) : Z :=
  match l with
  | [] => SWAP_PAGE_ERROR
  | free :: l => if free : bool then i else swalloc_loop l (i + 1)
  end.

Definition set_slot (i : Z) (free : bool) : M unit :=
  s ← get; deref (if i <? 0 then None else swap_table s !! Z.to_nat i) ;;
  put (MkSwap (swap_block s) (<[Z.to_nat i := free]> (swap_table s))).

Definition swalloc : M Z :=
  s ← get;
  let i := swalloc_loop (swap_table s) 0 in
  (if i =? SWAP_PAGE_ERROR then mret tt else set_slot i false) ;;
  mret i.

Definition swfree (swap_page : Z) : M unit := set_slot swap_page true.

(** The loops over the sectors of a page, [n] left. *)
Fixpoint read_sectors (n : nat) (sector : Z) : M (list Z) :=
  match n with
  | O => mret []
  | S n => d ← on_block (block_read (u32 sector)); l ← read_sectors n (sector + 1); mret (d ++ l)
  end.
Definition swap_page_read (swap_page : Z) : M (list Z) :=
  read_sectors (Z.to_nat PG_NUM_SECTORS) (base_sector swap_page).

Fixpoint write_sectors (n : nat) (sector : Z) (buffer : list Z) : M unit :=
  match n with
  | O => mret tt
  | S n => on_block (block_write (u32 sector) (take 512 buffer)) ;;
           write_sectors n (sector + 1) (drop 512 buffer)
  end.
Definition swap_page_write (swap_page : Z) (buffer : list Z) : M unit :=
  write_sectors (Z.to_nat PG_NUM_SECTORS) (base_sector swap_page) buffer.

(** ** Slots and what they hold *)

Definition PGSIZE_nat : nat := 4096.

(** A run of sectors, one after the other. *)
Definition sectors (b : block D) (sec : Z) (n : nat) : list Z :=
  concat ((λ k, sector_of b (sec + Z.of_nat k)) <$> seq 0 n).

(** The sectors of page [i], as one page. *)
Definition slot (s : swap D) (i : Z) : list Z :=
  sectors (swap_block s) (8 * i) 8.

(** Fewer than 2 GB, beyond which [base_sector] overflows. *)
Record swap_ok (s : swap D) : Prop := MkSwapOk {
  sw_block : block_ok (swap_block s);
  sw_fits : 8 * Z.of_nat (length (swap_table s)) ≤ size (swap_block s);
  sw_small : (length (swap_table s) ≤ Z.to_nat (2 ^ 19))%nat;
  sw_size : size (swap_block s) ≤ 2 ^ 32 - 8
}.

Definition slot_index (s : swap D) (i : Z) : Prop := 0 ≤ i < Z.of_nat (length (swap_table s)).
Definition slot_free (s : swap D) (i : Z) : bool := default false (swap_table s !! Z.to_nat i).

Lemma base_sector_val i : 0 ≤ i < 2 ^ 19 → base_sector i = 8 * i.
Proof.
  intros Hi. unfold base_sector, BLOCK_SECTOR_SIZE. rewrite PGSIZE_val, s32_id by (unfold in_s32; lia).
  rewrite quot_div_nonneg by lia. divlia.
Qed.

Lemma sectors_S b sec n : sectors b sec (S n) = sector_of b sec ++ sectors b (sec + 1) n.
Proof.
  unfold sectors. cbn [seq]. rewrite fmap_cons. cbn [concat].
  rewrite Z.add_0_r, <- (fmap_S_seq 0 n), <- list_fmap_compose. f_equal. f_equal.
  apply list_fmap_ext. intros k x _. cbv [compose]. f_equal. lia.
Qed.

Lemma sectors_ext b b' sec n :
  (∀ m, sec ≤ m < sec + Z.of_nat n → sector_of b' m = sector_of b m) → sectors b' sec n = sectors b sec n.
Proof.
  intros H. unfold sectors. f_equal. apply list_fmap_ext. intros k x Hk. apply lookup_seq in Hk. apply H. lia.
Qed.

Lemma read_sectors_ok n sec s :
  swap_ok s → 0 ≤ sec → sec + Z.of_nat n ≤ size (swap_block s) →
  ∃ s', read_sectors n sec s = Ok (sectors (swap_block s) sec n, s') ∧
    swap_ok s' ∧ swap_table s' = swap_table s ∧
    ∀ m, sector_of (swap_block s') m = sector_of (swap_block s) m.
Proof.
  revert sec s. induction n as [|n IH]; intros sec s Hok H0 Hn.
  { exists s. done. }
  cbn [read_sectors]. destruct Hok as [Hb Hf Hs Hz]. assert (Hsz := proj1 Hb).
  rewrite (u32_id sec) by (unfold in_u32; lia).
  destruct (block_read_ok (swap_block s) sec Hb ltac:(lia)) as (b & Hrun & Hb' & Hsize & Hsec).
  rewrite (run_bind_ok _ _ _ _ _ (run_zoom_ok swap_block set_swap_block _ _ _ _ Hrun)).
  set (s1 := set_swap_block b s).
  assert (Hok1 : swap_ok s1) by (constructor; [done|unfold s1; simpl; lia|done|unfold s1; simpl; lia]).
  destruct (IH (sec + 1) s1 Hok1 ltac:(lia) ltac:(unfold s1; simpl; lia)) as (s2 & Hrun2 & Hok2 & Ht2 & Hsec2).
  rewrite (run_bind_ok _ _ _ _ _ Hrun2). exists s2. split; [|split; [done|split; [done|]]].
  - rewrite sectors_S. unfold mret, ST_ret. do 3 f_equal. apply sectors_ext. intros m _. apply Hsec.
  - intros m. rewrite Hsec2. apply Hsec.
Qed.

Lemma write_sectors_ok n sec buf s :
  swap_ok s → 0 ≤ sec → sec + Z.of_nat n ≤ size (swap_block s) → length buf = (n * 512)%nat →
  ∃ s', write_sectors n sec buf s = Ok (tt, s') ∧ swap_ok s' ∧ swap_table s' = swap_table s ∧
    size (swap_block s') = size (swap_block s) ∧
    (∀ m, ¬ (sec ≤ m < sec + Z.of_nat n) → sector_of (swap_block s') m = sector_of (swap_block s) m) ∧
    sectors (swap_block s') sec n = buf.
Proof.
  revert sec buf s. induction n as [|n IH]; intros sec buf s Hok H0 Hn Hlen.
  { exists s. destruct buf; done. }
  cbn [write_sectors]. destruct Hok as [Hb Hf Hs Hz]. assert (Hsz := proj1 Hb).
  rewrite (u32_id sec) by (unfold in_u32; lia).
  destruct (block_write_ok (swap_block s) sec (take 512 buf) Hb ltac:(lia)) as (b & Hrun & Hb' & Hsize & Hsec).
  { unfold is_sector. rewrite length_take. lia. }
  rewrite (run_bind_ok _ _ _ _ _ (run_zoom_ok swap_block set_swap_block _ _ _ _ Hrun)).
  set (s1 := set_swap_block b s).
  assert (Hok1 : swap_ok s1) by (constructor; [done|unfold s1; simpl; lia|done|unfold s1; simpl; lia]).
  destruct (IH (sec + 1) (drop 512 buf) s1 Hok1 ltac:(lia) ltac:(unfold s1; simpl; lia))
    as (s2 & Hrun2 & Hok2 & Ht2 & Hsz2 & Hout & Hin); [rewrite length_drop; lia|].
  exists s2. split; [done|]. split; [done|]. split; [done|]. split; [by rewrite Hsz2|]. split.
  - intros m Hm. rewrite Hout by lia. unfold s1. simpl. rewrite Hsec. destruct (Z.eqb_spec m sec); [lia|done].
  - rewrite sectors_S, Hin, Hout by lia. unfold s1. simpl. rewrite Hsec, Z.eqb_refl. apply take_drop.
Qed.

Lemma swap_page_read_ok s i :
  swap_ok s → slot_index s i →
  ∃ s', swap_page_read i s = Ok (slot s i, s') ∧ swap_ok s' ∧ swap_table s' = swap_table s ∧
        ∀ j, slot s' j = slot s j.
Proof.
  intros Hok [Hi1 Hi2]. destruct Hok as [Hb Hf Hs Hz] eqn:E. clear E. unfold swap_page_read. rewrite base_sector_val by lia.
  destruct (read_sectors_ok 8 (8 * i) s Hok ltac:(lia) ltac:(lia)) as (s' & Hrun & Hok' & Ht & Hsec).
  exists s'. split; [exact Hrun|]. split; [done|]. split; [done|]. intros j.
  apply sectors_ext. intros m _. apply Hsec.
Qed.

Lemma swap_page_write_ok s i buf :
  swap_ok s → slot_index s i → length buf = PGSIZE_nat →
  ∃ s', swap_page_write i buf s = Ok (tt, s') ∧ swap_ok s' ∧ swap_table s' = swap_table s ∧
        slot s' i = buf ∧ ∀ j, j ≠ i → slot s' j = slot s j.
Proof.
  intros Hok [Hi1 Hi2] Hlen. destruct Hok as [Hb Hf Hs Hz] eqn:E. clear E. unfold swap_page_write. rewrite base_sector_val by lia.
  destruct (write_sectors_ok 8 (8 * i) buf s Hok ltac:(lia) ltac:(lia) Hlen) as (s' & Hrun & Hok' & Ht & _ & Hout & Hin).
  exists s'. split; [exact Hrun|]. split; [done|]. split; [done|]. split; [exact Hin|]. intros j Hj.
  apply sectors_ext. intros m Hm. apply Hout. lia.
Qed.

(** A write to the page returned when there is no free slot panics. *)
Lemma swap_page_write_error s buf :
  swap_ok s → swap_page_write SWAP_PAGE_ERROR buf s = Err Panic.
Proof.
  intros [_ _ _ Hs]. unfold swap_page_write. change (Z.to_nat PG_NUM_SECTORS) with 8%nat.
  change (base_sector SWAP_PAGE_ERROR) with (-8). cbn [write_sectors]. apply run_bind_err.
  change (u32 (-8)) with (2 ^ 32 - 8). apply run_zoom_err. apply run_bind_err. unfold check_sector.
  erewrite run_bind_ok; [|reflexivity]. destruct (Z.leb_spec (size (swap_block s)) (2 ^ 32 - 8)); [done|lia].
Qed.

(** What is in swap: the pages of the slots in use. *)
Definition held (s : swap D) (i : Z) : option (list Z) :=
  if decide (slot_index s i ∧ slot_free s i = false) then Some (slot s i) else None.

Lemma swalloc_loop_spec l i :
  0 ≤ i →
  let r := swalloc_loop l i in
  (r = SWAP_PAGE_ERROR ∧ ∀ k, l !! k ≠ Some true) ∨
  (i ≤ r ∧ l !! Z.to_nat (r - i) = Some true ∧ ∀ k, i ≤ Z.of_nat k + i < r → l !! k = Some false).
Proof.
  revert i. induction l as [|[] l IH]; intros i Hi; cbn [swalloc_loop].
  - left. split; [done|]. intros k. by rewrite lookup_nil.
  - right. rewrite Z.sub_diag. split_and!; [lia|done|]. intros k Hk. lia.
  - destruct (IH (i + 1) ltac:(lia)) as [[-> Hk]|(Hr & Hl & Hk)].
    + left. split; [done|]. intros [|k]; [done|apply Hk].
    + right. split_and!; [lia| |].
      * by replace (Z.to_nat (_ - i)) with (S (Z.to_nat (swalloc_loop l (i + 1) - (i + 1)))) by lia.
      * intros [|k] Hr'; [done|]. apply Hk. lia.
Qed.

(** The least free slot. *)
Definition least_free (s : swap D) (i : Z) : Prop :=
  slot_index s i ∧ slot_free s i = true ∧ ∀ j, 0 ≤ j < i → slot_free s j = false.

Lemma set_slot_ok i f s :
  swap_ok s → slot_index s i →
  set_slot i f s = Ok (tt, MkSwap (swap_block s) (<[Z.to_nat i := f]> (swap_table s))) ∧
  swap_ok (MkSwap (swap_block s) (<[Z.to_nat i := f]> (swap_table s))).
Proof.
  intros [Hb Hf Hs Hz] [H0 Hi]. split.
  - unfold set_slot. erewrite run_bind_ok; [|reflexivity].
    destruct (lookup_lt_is_Some_2 (swap_table s) (Z.to_nat i)) as [b E]; [lia|].
    erewrite run_bind_ok; [reflexivity|]. destruct (Z.ltb_spec i 0); [lia|]. by apply run_deref.
  - constructor; simpl; rewrite ?length_insert; done.
Qed.

Lemma set_slot_free i f s j :
  slot_index s i → slot_index s j →
  slot_free (MkSwap (swap_block s) (<[Z.to_nat i := f]> (swap_table s))) j =
  if j =? i then f else slot_free s j.
Proof.
  intros Hi [Hj1 Hj2]. unfold slot_index, slot_free in *. simpl. destruct (Z.eqb_spec j i) as [->|Hne].
  - rewrite list_lookup_insert_eq by lia. done.
  - rewrite list_lookup_insert_ne by lia. done.
Qed.

Lemma swalloc_ok s :
  swap_ok s →
  (∃ i s', least_free s i ∧ swalloc s = Ok (i, s') ∧ swap_ok s' ∧
     s' = MkSwap (swap_block s) (<[Z.to_nat i := false]> (swap_table s))) ∨
  ((∀ i, slot_index s i → slot_free s i = false) ∧ swalloc s = Ok (SWAP_PAGE_ERROR, s)).
Proof.
  intros Hok. unfold swalloc. erewrite run_bind_ok; [|reflexivity]. cbv zeta.
  destruct (swalloc_loop_spec (swap_table s) 0) as [[-> Hk]|(Hr & Hl & Hk)]; [lia|right|left].
  - split; [|done]. intros i [H0 Hi]. unfold slot_free.
    destruct (swap_table s !! Z.to_nat i) as [[]|] eqn:E; [by apply Hk in E|done|done].
  - set (i := swalloc_loop (swap_table s) 0) in *. rewrite Z.sub_0_r in Hl.
    assert (Hlt := lookup_lt_Some _ _ _ Hl).
    assert (Hidx : slot_index s i) by (unfold slot_index; lia).
    destruct (set_slot_ok i false s Hok Hidx) as [Hrun Hok'].
    destruct (Z.eqb_spec i SWAP_PAGE_ERROR) as [E|_]; [unfold SWAP_PAGE_ERROR in E; lia|].
    exists i. eexists. split; [|split; [by erewrite run_bind_ok|done]].
    split; [done|]. unfold slot_free. rewrite Hl. split; [done|]. intros j Hj.
    specialize (Hk (Z.to_nat j)). rewrite Hk by lia. done.
Qed.

Lemma held_used s i : slot_index s i → slot_free s i = false → held s i = Some (slot s i).
Proof. intros. unfold held. by rewrite decide_True. Qed.
Lemma held_free s i : slot_free s i = true → held s i = None.
Proof. intros H. unfold held. apply decide_False. rewrite H. naive_solver. Qed.
Lemma held_ext s s' i :
  length (swap_table s') = length (swap_table s) → slot_free s' i = slot_free s i → slot s' i = slot s i →
  held s' i = held s i.
Proof. unfold held, slot_index. intros -> -> ->. done. Qed.

(** Setting one slot's flag changes what is held in that slot only. *)
Lemma held_set_slot i (f : bool) s j :
  slot_index s i →
  held (MkSwap (swap_block s) (<[Z.to_nat i := f]> (swap_table s))) j =
  if j =? i then (if f then None else Some (slot s i)) else held s j.
Proof.
  intros Hi. destruct (decide (slot_index s j)) as [Hj|Hj].
  - assert (Hf := set_slot_free i f s j Hi Hj). destruct (Z.eqb_spec j i) as [->|Hne].
    + destruct f; [by apply held_free|]. rewrite held_used; [done| |done].
      unfold slot_index in *. simpl. by rewrite length_insert.
    + apply held_ext; [|done|done]. simpl. by rewrite length_insert.
  - destruct (Z.eqb_spec j i) as [->|Hne]; [done|]. unfold held.
    rewrite !decide_False; [done| |]; unfold slot_index in *; simpl; rewrite ?length_insert; tauto.
Qed.

Lemma held_length s i d : swap_ok s → held s i = Some d → length d = PGSIZE_nat.
Proof.
  intros [Hb Hf Hs Hz] Hh. unfold held in Hh. case_decide as Hd; [|done]. destruct Hd as [[H0 Hi] _]. injection Hh as <-.
  assert (Hlen : ∀ n sec, 0 ≤ sec → sec + Z.of_nat n ≤ size (swap_block s) → length (sectors (swap_block s) sec n) = (n * 512)%nat).
  { induction n as [|n IH]; intros sec Hsec Hn; [done|]. rewrite sectors_S, length_app, IH by lia.
    unfold sector_of. rewrite (drv_sector_len _ _ sec (proj2 (proj2 Hb))) by lia. lia. }
  unfold slot. rewrite Hlen by lia. done.
Qed.

(** Evicting a page: a slot is taken and the page written to it. *)
Lemma swap_out_ok s data :
  swap_ok s → length data = PGSIZE_nat →
  (∃ i s', least_free s i ∧ (k ← swalloc; swap_page_write k data ;; mret k) s = Ok (i, s') ∧ swap_ok s' ∧
     length (swap_table s') = length (swap_table s) ∧
     ∀ j, held s' j = if j =? i then Some data else held s j) ∨
  ((∀ i, slot_index s i → slot_free s i = false) ∧ swalloc s = Ok (SWAP_PAGE_ERROR, s)).
Proof.
  intros Hok Hlen. destruct (swalloc_ok s Hok) as [(i & s1 & Hi & Hrun & Hok1 & ->)|?]; [left|by right].
  assert (Hidx := proj1 Hi). set (s1 := MkSwap (swap_block s) (<[Z.to_nat i := false]> (swap_table s))) in *.
  assert (Hl1 : length (swap_table s1) = length (swap_table s)) by (unfold s1; simpl; by rewrite length_insert).
  destruct (swap_page_write_ok s1 i data Hok1) as (s2 & Hw & Hok2 & Ht & Hin & Hout);
    [unfold slot_index in *; by rewrite Hl1|done|].
  exists i, s2. split; [done|]. split; [|split; [done|split; [by rewrite Ht|]]].
  { rewrite (run_bind_ok _ _ _ _ _ Hrun), (run_bind_ok _ _ _ _ _ Hw). done. }
  intros j. assert (Hj := held_set_slot i false s j Hidx). fold s1 in Hj.
  destruct (Z.eqb_spec j i) as [E|Hne].
  - rewrite E in *. assert (slot_free s1 i = false).
    { unfold s1. rewrite set_slot_free, Z.eqb_refl; done. }
    rewrite held_used, Hin; [done| |]; unfold slot_index, slot_free in *; by rewrite Ht, ?Hl1.
  - rewrite <- Hj. apply held_ext; [by rewrite Ht|unfold slot_free; by rewrite Ht|by apply Hout].
Qed.

(** Loading a page: the slot is read and given back. *)
Lemma swap_in_ok s i data :
  swap_ok s → held s i = Some data →
  ∃ s', (d ← swap_page_read i; swfree i ;; mret d) s = Ok (data, s') ∧ swap_ok s' ∧
    length (swap_table s') = length (swap_table s) ∧
    ∀ j, held s' j = if j =? i then None else held s j.
Proof.
  intros Hok Hh. unfold held in Hh. case_decide as Hd; [|done]. injection Hh as <-. destruct Hd as [Hidx Hused].
  destruct (swap_page_read_ok s i Hok Hidx) as (s1 & Hr & Hok1 & Ht & Hsl).
  assert (Hidx1 : slot_index s1 i) by (unfold slot_index in *; by rewrite Ht).
  destruct (set_slot_ok i true s1 Hok1 Hidx1) as [Hf Hok2].
  eexists. split; [|split; [exact Hok2|split; [simpl; by rewrite length_insert, Ht|]]].
  { rewrite (run_bind_ok _ _ _ _ _ Hr). unfold swfree. rewrite (run_bind_ok _ _ _ _ _ Hf). done. }
  intros j. rewrite held_set_slot by done. destruct (Z.eqb_spec j i); [done|].
  apply held_ext; [by rewrite Ht|unfold slot_free; by rewrite Ht|done].
Qed.

Lemma swalloc_init_ok b :
  block_ok b → size b * 512 < 2 ^ 31 →
  swap_ok (swalloc_init b) ∧ length (swap_table (swalloc_init b)) = Z.to_nat (size b / 8) ∧
  ∀ i, held (swalloc_init b) i = None.
Proof.
  intros Hb Hs. assert (H0 := proj1 Hb).
  assert (Hn : s32 (u32 (block_size b * BLOCK_SECTOR_SIZE) / PGSIZE) = size b / 8).
  { unfold block_size, BLOCK_SECTOR_SIZE. rewrite u32_id by (unfold in_u32; lia).
    rewrite PGSIZE_val, s32_id; [divlia|unfold in_s32; divlia]. }
  assert (Hlen : length (swap_table (swalloc_init b)) = Z.to_nat (size b / 8)).
  { unfold swalloc_init. rewrite Hn. simpl. by rewrite length_replicate. }
  split; [|split; [done|]].
  - constructor; [done| | |]; rewrite ?Hlen; simpl; divlia.
  - intros i. unfold held. apply decide_False. intros [[Hi1 Hi2] Hf]. rewrite Hlen in Hi2.
    unfold slot_free, swalloc_init in Hf. rewrite Hn in Hf. cbn [swap_table] in Hf.
    rewrite lookup_replicate_2 in Hf by lia. done.
Qed.

(** C26: Swap space is a map from slots to pages.  Swapping a page out takes
    the least free slot, which held nothing, and adds the page there; the other
    slots keep their pages.  Swapping in returns exactly the page that was
    stored and frees its slot alone.  When every slot is in use, [swalloc]
    returns -1 and the write that follows panics. *)
Theorem swap_refines_slots s :
  swap_ok s →
  (∀ data, length data = PGSIZE_nat →
     (∃ i s', least_free s i ∧ held s i = None ∧
        (k ← swalloc; swap_page_write k data ;; mret k) s = Ok (i, s') ∧ swap_ok s' ∧
        ∀ j, held s' j = if j =? i then Some data else held s j) ∨
     ((∀ i, slot_index s i → held s i ≠ None) ∧
        (k ← swalloc; swap_page_write k data ;; mret k) s = Err Panic)) ∧
  (∀ i data, held s i = Some data →
     ∃ s', (d ← swap_page_read i; swfree i ;; mret d) s = Ok (data, s') ∧ swap_ok s' ∧
       ∀ j, held s' j = if j =? i then None else held s j).
Proof.
  intros Hok. split.
  - intros data Hlen. destruct (swap_out_ok s data Hok Hlen) as [(i & s' & Hi & Hrun & Hok' & _ & Hh)|[Hfull Hrun]].
    + left. exists i, s'. split_and!; [done|apply held_free, Hi|done..].
    + right. split; [intros i Hi; by rewrite (held_used s i Hi (Hfull i Hi))|].
      rewrite (run_bind_ok _ _ _ _ _ Hrun). apply run_bind_err. by apply swap_page_write_error.
  - intros i data Hh. destruct (swap_in_ok s i data Hok Hh) as (s' & ? & ? & _ & ?). by exists s'.
Qed.
End swap.

(** Swap space of two pages. *)
Definition demo_swap : swap ramdisk :=
  swalloc_init (MkBlock BLOCK_SWAP 17 (replicate 17 (replicate 512 0)) 0 0).

Lemma demo_swap_ok : swap_ok demo_swap.
Proof.
  apply swalloc_init_ok; [|simpl; lia]. split; [simpl; lia|]. split; [done|].
  split; [reflexivity|]. apply Forall_replicate. reflexivity.
Qed.

Lemma swap_refines_slots_witness :
  swap_ok demo_swap ∧ ∃ s', (k ← swalloc; swap_page_write k (replicate PGSIZE_nat 7) ;; mret k) demo_swap = Ok (0, s') ∧
    held s' 0 = Some (replicate PGSIZE_nat 7).
Proof.
  split; [exact demo_swap_ok|].
  destruct (swap_refines_slots demo_swap demo_swap_ok) as [Hout _].
  destruct (Hout (replicate PGSIZE_nat 7) (length_replicate _ _)) as [(i & s' & Hi & _ & Hrun & _ & Hh)|[Hfull _]].
  - assert (i = 0) as ->.
    { destruct Hi as ([H0 _] & _ & Hl). destruct (decide (0 < i)); [|lia]. by specialize (Hl 0 ltac:(lia)). }
    exists s'. split; [exact Hrun|]. rewrite Hh. reflexivity.
  - exfalso. apply (Hfull 0); [unfold slot_index; simpl; lia|reflexivity].
Defined.
End Swap.
