(* ===== verification/Vm.v ===== *)
(** * Virtual memory: [src/pintos/vm/frame.c], [src/pintos/vm/page.c] and the
    page fault handler of [src/pintos/userprog/exception.c]

    Pages ([struct page]) are heap objects with keys; the frame table is the
    sequence of its frames, and a [struct frame *] is a place in it.  A process
    is a key, and its supplemental page table a map from user pages to keys
    (what [hash.c] implements).  [junk] is what an allocated [struct page] holds
    before its fields are set.  A call is one step, as [page_lock] and
    [frame_lock] make it; that a thread does not acquire a lock it holds is
    checked, as [lock_acquire] does. *)
From S2P Require Import Prelude CInt Hash Palloc Pagedir PagedirSpec Mmu Block Swap.

Open Scope Z_scope.

(** * Files as virtual memory management sees them

    Pages are loaded from files ([filesys/file.c]).  The class [PageFiles] is
    what [vm/page.c] relies on: open files are handles on inodes, named by
    their sectors, and an inode has contents. *)

Class PageFiles (F : Type) := {
  file_reopen : nat → ST F (option nat);
  file_close : option nat → ST F unit;
  file_seek : nat → Z → ST F unit;
  file_read : nat → Z → ST F (list Z);
  file_write : nat → list Z → Z → ST F Z;
  file_length : nat → ST F Z;

  (** The open files, and the contents of the inodes. *)
  pf_rep : F → gmap nat Z → (Z → list Z) → Prop;

  pf_reopen x hs cs f sec : pf_rep x hs cs → hs !! f = Some sec →
    ∃ g x', file_reopen f x = Ok (Some g, x') ∧ hs !! g = None ∧ pf_rep x' (<[g := sec]> hs) cs;
  pf_length x hs cs f sec : pf_rep x hs cs → hs !! f = Some sec →
    ∃ x', file_length f x = Ok (Z.of_nat (length (cs sec)), x') ∧ pf_rep x' hs cs;
  pf_seek x hs cs f sec ofs : pf_rep x hs cs → hs !! f = Some sec → 0 ≤ ofs →
    ∃ x', file_seek f ofs x = Ok (tt, x') ∧ pf_rep x' hs cs;
  (** Reading from a place within the file. *)
  pf_read x hs cs f sec ofs n : pf_rep x hs cs → hs !! f = Some sec →
    0 ≤ ofs → 0 ≤ n → ofs + n ≤ Z.of_nat (length (cs sec)) → ofs + n < 2 ^ 31 →
    ∃ x1 x2, file_seek f ofs x = Ok (tt, x1) ∧
      file_read f n x1 = Ok (take (Z.to_nat n) (drop (Z.to_nat ofs) (cs sec)), x2) ∧ pf_rep x2 hs cs
}.

Module Vm.
Import Palloc (NULL, PAL_USER, PAL_ZERO).
Import Swap.

Inductive page_present := PRESENT_MEMORY | PRESENT_FILESYS | PRESENT_SWAP.

#[global] Instance page_present_eq_dec : EqDecision page_present.
Proof. solve_decision. Defined.

(** [struct page], less the fields no code uses. *)
Record page := MkPage {
  upage : Z; kpage : Z; present : page_present; writable : bool; tid : Z;
  p_file : option nat; ofs : Z; read_bytes : Z; zero_bytes : Z; swap_page : Z
}.

(** [struct frame]. *)
Record frame := MkFrame { f_kpage : Z; f_page : nat; last_accessed_tick : Z }.

(** The fields of [struct thread] that memory management uses. *)
Record uthread := MkThread { pagedir : Z; esp : Z; stack_pages : Z; process : option nat }.

Record vm (H D F : Type) := MkVm {
  hw : H;
  swp : swap D;
  fsys : F;
  pages : gmap nat page;
  frame_table : list frame;
  spts : gmap nat (gmap Z nat);
  threads : gmap Z uthread;
  current : Z;
  ticks : Z;
  next_key : nat;
  page_lock : bool;
  frame_lock : bool;
  page_fault_cnt : Z
}.
Arguments MkVm {H D F}.
Arguments hw {H D F}.
Arguments swp {H D F}.
Arguments fsys {H D F}.
Arguments pages {H D F}.
Arguments frame_table {H D F}.
Arguments spts {H D F}.
Arguments threads {H D F}.
Arguments current {H D F}.
Arguments ticks {H D F}.
Arguments next_key {H D F}.
Arguments page_lock {H D F}.
Arguments frame_lock {H D F}.
Arguments page_fault_cnt {H D F}.

(** ** Field updates *)
Section fields.
Context {H D F : Type}.

Definition set_hw x (s : vm H D F) : vm H D F :=
  MkVm x (swp s) (fsys s) (pages s) (frame_table s) (spts s) (threads s) (current s) (ticks s) (next_key s) (page_lock s) (frame_lock s) (page_fault_cnt s).
Definition set_swp x (s : vm H D F) : vm H D F :=
  MkVm (hw s) x (fsys s) (pages s) (frame_table s) (spts s) (threads s) (current s) (ticks s) (next_key s) (page_lock s) (frame_lock s) (page_fault_cnt s).
Definition set_fsys x (s : vm H D F) : vm H D F :=
  MkVm (hw s) (swp s) x (pages s) (frame_table s) (spts s) (threads s) (current s) (ticks s) (next_key s) (page_lock s) (frame_lock s) (page_fault_cnt s).
Definition set_pages x (s : vm H D F) : vm H D F :=
  MkVm (hw s) (swp s) (fsys s) x (frame_table s) (spts s) (threads s) (current s) (ticks s) (next_key s) (page_lock s) (frame_lock s) (page_fault_cnt s).
Definition set_frame_table x (s : vm H D F) : vm H D F :=
  MkVm (hw s) (swp s) (fsys s) (pages s) x (spts s) (threads s) (current s) (ticks s) (next_key s) (page_lock s) (frame_lock s) (page_fault_cnt s).
Definition set_spts x (s : vm H D F) : vm H D F :=
  MkVm (hw s) (swp s) (fsys s) (pages s) (frame_table s) x (threads s) (current s) (ticks s) (next_key s) (page_lock s) (frame_lock s) (page_fault_cnt s).
Definition set_threads x (s : vm H D F) : vm H D F :=
  MkVm (hw s) (swp s) (fsys s) (pages s) (frame_table s) (spts s) x (current s) (ticks s) (next_key s) (page_lock s) (frame_lock s) (page_fault_cnt s).
Definition set_next_key x (s : vm H D F) : vm H D F :=
  MkVm (hw s) (swp s) (fsys s) (pages s) (frame_table s) (spts s) (threads s) (current s) (ticks s) x (page_lock s) (frame_lock s) (page_fault_cnt s).
Definition set_page_lock x (s : vm H D F) : vm H D F :=
  MkVm (hw s) (swp s) (fsys s) (pages s) (frame_table s) (spts s) (threads s) (current s) (ticks s) (next_key s) x (frame_lock s) (page_fault_cnt s).
Definition set_frame_lock x (s : vm H D F) : vm H D F :=
  MkVm (hw s) (swp s) (fsys s) (pages s) (frame_table s) (spts s) (threads s) (current s) (ticks s) (next_key s) (page_lock s) x (page_fault_cnt s).
Definition set_page_fault_cnt x (s : vm H D F) : vm H D F :=
  MkVm (hw s) (swp s) (fsys s) (pages s) (frame_table s) (spts s) (threads s) (current s) (ticks s) (next_key s) (page_lock s) (frame_lock s) x.
End fields.

Definition set_kpage x p := MkPage (upage p) x (present p) (writable p) (tid p) (p_file p) (ofs p) (read_bytes p) (zero_bytes p) (swap_page p).
Definition set_present x p := MkPage (upage p) (kpage p) x (writable p) (tid p) (p_file p) (ofs p) (read_bytes p) (zero_bytes p) (swap_page p).
Definition set_swap_page x p := MkPage (upage p) (kpage p) (present p) (writable p) (tid p) (p_file p) (ofs p) (read_bytes p) (zero_bytes p) x.
Definition set_upage x p := MkPage x (kpage p) (present p) (writable p) (tid p) (p_file p) (ofs p) (read_bytes p) (zero_bytes p) (swap_page p).

Definition PUSHA_BYTES : Z := 32.
Definition MAX_STACK_SIZE : Z := 8192000.
Definition MIN_STACK_ADDRESS : Z := PHYS_BASE - MAX_STACK_SIZE.

Section vm.
Context {H D F : Type} `{!Mmu H, !BlockDriver D, !PageFiles F}.
Context (junk : page).
Abbreviation M := (ST (vm H D F)).

Definition on_hw {A} : ST H A → M A := zoom hw set_hw.
Definition on_swap {A} : ST (swap D) A → M A := zoom swp set_swp.
Definition on_fs {A} : ST F A → M A := zoom fsys set_fsys.

Definition acquire_page : M unit := s ← get; ASSERT (negb (page_lock s)) ;; modify (set_page_lock true).
Definition release_page : M unit := s ← get; ASSERT (page_lock s) ;; modify (set_page_lock false).
Definition acquire_frame : M unit := s ← get; ASSERT (negb (frame_lock s)) ;; modify (set_frame_lock true).
Definition release_frame : M unit := s ← get; ASSERT (frame_lock s) ;; modify (set_frame_lock false).

Definition get_page (k : nat) : M page := s ← get; deref (pages s !! k).
Definition upd_page (k : nat) (f : page → page) : M unit :=
  p ← get_page k; modify (λ s, set_pages (<[k := f p]> (pages s)) s).
(** [free] of a page. *)
Definition free_page (k : nat) : M unit := get_page k ;; modify (λ s, set_pages (delete k (pages s)) s).

(** [get_thread]: null if there is no such thread. *)
Definition get_thread (t : Z) : M (option uthread) := gets (λ s, threads s !! t).
Definition thread_current : M uthread := s ← get; deref (threads s !! current s).
Definition pagedir_of (t : Z) : M Z := o ← get_thread t; x ← deref o; mret (pagedir x).

(** ** [frame.c] *)

Definition falloc_init : M unit := modify (λ s, set_frame_lock false (set_frame_table [] s)).

(** [get_frame_to_evict]: the place of the first frame with the least tick. *)
Fixpoint evict_loop (l : list frame) (i : nat) (lru : nat) (lru_tick : Z) : nat :=
  match l with
  | [] => lru
  | f :: l => if last_accessed_tick f <? lru_tick then evict_loop l (S i) i (last_accessed_tick f)
              else evict_loop l (S i) lru lru_tick
  end.
Definition get_frame_to_evict : M nat :=
  s ← get; ASSERT (0 <? Z.of_nat (length (frame_table s))) ;;
  match frame_table s with
  | [] => fail Fault
  | f :: l => mret (evict_loop l 1 0 (last_accessed_tick f))
  end.

(** [get_frame]: the place of the frame of [kpage]. *)
Fixpoint get_frame (l : list frame) (k : Z) : option nat :=
  match l with
  | [] => None
  | f :: l => if f_kpage f =? k then Some O else S <$> get_frame l k
  end.

(** [falloc] as one step, as its callers and other kernel code see it: it holds
    [frame_lock].  A program that runs meanwhile does not take the lock: between
    [swap_page_write] and [pagedir_clear_page] it can still write to its page,
    and what it writes then is lost; such a write is no step of this model. *)
Definition falloc (pg : nat) (flags : Z) : M Z :=
  acquire_frame ;;
  k ← on_hw (palloc_get_page flags);
  if negb (k =? NULL) then
    t ← gets ticks;
    upd_page pg (set_kpage k) ;;
    modify (λ s, set_frame_table (frame_table s ++ [MkFrame k pg t]) s) ;;
    release_frame ;;
    mret k
  else
    i ← get_frame_to_evict;
    s ← get; evict_frame ← deref (frame_table s !! i);
    let evict := f_page evict_frame in
    modify (λ s, set_frame_table (delete i (frame_table s) ++ [evict_frame]) s) ;;
    p ← get_page evict;
    pd ← pagedir_of (tid p);
    dirty ← on_hw (pagedir_is_dirty pd (upage p));
    dirty ← (if dirty : bool then mret true else on_hw (pagedir_is_dirty pd (kpage p)));
    (if negb dirty && bool_decide (p_file p ≠ None) then
       upd_page evict (set_present PRESENT_FILESYS)
     else
       n ← on_swap swalloc;
       data ← on_hw (frame_read (kpage p));
       on_swap (swap_page_write n data) ;;
       upd_page evict (λ p, set_swap_page n (set_present PRESENT_SWAP p))) ;;
    (* the frame is the last one now *)
    modify (λ s, set_frame_table (<[Nat.pred (length (frame_table s)) :=
                   MkFrame (f_kpage evict_frame) pg (last_accessed_tick evict_frame)]> (frame_table s)) s) ;;
    p ← get_page evict;
    upd_page pg (set_kpage (kpage p)) ;;
    upd_page evict (set_kpage NULL) ;;
    p ← get_page evict;
    t ← get_thread (tid p);
    (if t is Some t then on_hw (pagedir_clear_page (pagedir t) (upage p)) else mret tt) ;;
    release_frame ;;
    p ← get_page pg;
    mret (kpage p).

Definition ffree (k : Z) : M unit :=
  acquire_frame ;;
  s ← get;
  (if get_frame (frame_table s) k is Some i then modify (set_frame_table (delete i (frame_table s))) else mret tt) ;;
  release_frame.

(** [frame_tick]: the frames from place [i] on. *)
Fixpoint frame_tick_loop (n : nat) (i : nat) (cur_tick : Z) : M unit :=
  match n with
  | O => mret tt
  | S n =>
    s ← get; f ← deref (frame_table s !! i);
    p ← get_page (f_page f);
    pd ← pagedir_of (tid p);
    accessed ← on_hw (pagedir_is_accessed pd (upage p));
    (if accessed : bool then
       modify (λ s, set_frame_table (<[i := MkFrame (f_kpage f) (f_page f) cur_tick]> (frame_table s)) s) ;;
       pd ← pagedir_of (tid p);
       on_hw (pagedir_set_accessed pd (upage p) false)
     else mret tt) ;;
    frame_tick_loop n (S i) cur_tick
  end.
Definition frame_tick : M unit :=
  s ← get; frame_tick_loop (length (frame_table s)) 0 (ticks s).

(** ** [page.c] *)

(** The hash of the four bytes of the page's address, and the order; the keys
    of [spts] are the addresses since pages are equal when neither is less. *)
Definition page_hash (p : page) : Z := Hash.hash_int (upage p).
Definition page_less (a b : page) : bool := upage a <? upage b.

Definition spage_init : M unit := modify (set_page_lock false).

(** [page_destructor]. *)
Definition page_destructor (k : nat) : M unit :=
  acquire_page ;;
  p ← get_page k;
  match present p with
  | PRESENT_MEMORY => ffree (kpage p)
  | PRESENT_SWAP => on_swap (swfree (swap_page p))
  | PRESENT_FILESYS => mret tt
  end ;;
  free_page k ;;
  release_page.

(** [page_lookup]: null is [None]. *)
Definition page_lookup (uaddr : Z) : M (option nat) :=
  t ← thread_current; s ← get;
  match process t with
  | Some q => spt ← deref (spts s !! q); mret (spt !! pg_round_down uaddr)
  | None => mret None
  end.

Definition page_exists (uaddr : Z) : M bool :=
  acquire_page ;; o ← page_lookup uaddr; release_page ;; mret (bool_decide (is_Some o)).

(** [get_stack_bottom] of [threads/thread.c]. *)
Definition get_stack_bottom : M Z := t ← thread_current; mret (u32 (PHYS_BASE - u32 (stack_pages t * PGSIZE))).

Definition is_unallocated_stack_access (fault_addr : Z) : M bool :=
  acquire_page ;;
  t ← thread_current; b ← get_stack_bottom;
  let result := (fault_addr <? b) && (u32 (esp t - PUSHA_BYTES) <=? fault_addr) && (MIN_STACK_ADDRESS <=? fault_addr) in
  release_page ;; mret result.

(** [page_add_spage_table]: [hash_insert] keeps an element that is there. *)
Definition page_add_spage_table (k : nat) : M unit :=
  t ← thread_current;
  match process t with
  | Some q =>
    p ← get_page k; s ← get; spt ← deref (spts s !! q);
    if spt !! upage p is Some _ then mret tt
    else modify (set_spts (<[q := <[upage p := k]> spt]> (spts s)))
  | None => mret tt
  end.

Definition install_page (u k : Z) (w : bool) : M bool :=
  t ← thread_current;
  x ← on_hw (pagedir_get_page (pagedir t) u);
  if x =? NULL then on_hw (pagedir_set_page (pagedir t) u k w) else mret false.

Definition page_frame_alloc (pg : nat) : M bool :=
  upd_page pg (λ p, set_upage (pg_round_down (upage p)) p) ;;
  k ← falloc pg (Z.lor PAL_USER PAL_ZERO);
  p ← get_page pg;
  if negb (k =? NULL) then install_page (upage p) k (writable p) else mret false.

Definition internal_page_free (pg : nat) : M unit :=
  t ← thread_current;
  p ← get_page pg;
  on_hw (pagedir_clear_page (pagedir t) (upage p)) ;;
  (if decide (present p = PRESENT_MEMORY) then on_hw (palloc_free_page (kpage p)) else mret tt) ;;
  ffree (kpage p) ;;
  on_fs (file_close (p_file p)) ;;
  q ← deref (process t);
  s ← get; spt ← deref (spts s !! q);
  modify (set_spts (<[q := delete (upage p) spt]> (spts s))) ;;
  free_page pg.

Definition page_free (uaddr : Z) : M unit :=
  acquire_page ;;
  o ← page_lookup uaddr;
  (if o is Some pg then internal_page_free pg else mret tt) ;;
  release_page.

(** [malloc (sizeof (struct page))]. *)
Definition new_page : M nat :=
  s ← get; let k := next_key s in
  modify (λ s, set_next_key (S k) (set_pages (<[k := junk]> (pages s)) s)) ;; mret k.

Definition stack_page_alloc : M Z :=
  acquire_page ;;
  pg ← new_page;
  b ← get_stack_bottom; s ← get;
  upd_page pg (λ p, MkPage (u32 (b - PGSIZE)) (kpage p) PRESENT_MEMORY true (current s) (p_file p) (ofs p)
                           (read_bytes p) (zero_bytes p) (swap_page p)) ;;
  page_add_spage_table pg ;;
  ok ← page_frame_alloc pg;
  (if ok : bool then
     t ← thread_current;
     modify (λ s, set_threads (<[current s := MkThread (pagedir t) (esp t) (u32 (stack_pages t + 1)) (process t)]> (threads s)) s)
   else
     (* [page_free (page)], which acquires [page_lock] first *)
     acquire_page) ;;
  p ← get_page pg;
  release_page ;;
  mret (upage p).

(** The loop of [stack_page_alloc_multiple]; the stack has at most 2000 pages. *)
Fixpoint stack_alloc_loop (fuel : nat) (uaddr stack_bottom : Z) : M Z :=
  match fuel with
  | O => fail Timeout
  | S fuel =>
    if uaddr <? stack_bottom then
      k ← stack_page_alloc;
      if k =? NULL then mret NULL
      else b ← get_stack_bottom; stack_alloc_loop fuel uaddr b
    else mret stack_bottom
  end.
Definition stack_page_alloc_multiple (uaddr : Z) : M Z :=
  ASSERT ((uaddr <? PHYS_BASE) && (MIN_STACK_ADDRESS <=? uaddr)) ;;
  b ← get_stack_bottom;
  stack_alloc_loop 2001 uaddr b.

Definition lazy_load_segment (uaddr : Z) (file : nat) (o rb zb : Z) (w : bool) : M unit :=
  acquire_page ;;
  pg ← new_page;
  s ← get;
  f ← on_fs (file_reopen file);
  upd_page pg (λ p, MkPage uaddr (kpage p) PRESENT_FILESYS w (current s) f o rb zb (swap_page p)) ;;
  page_add_spage_table pg ;;
  release_page.

Definition load_page_from_filesys (pg : nat) : M bool :=
  p ← get_page pg; ASSERT (bool_decide (present p = PRESENT_FILESYS)) ;;
  ok ← page_frame_alloc pg;
  if negb ok then mret false else
  p ← get_page pg;
  match p_file p with
  | None => fail Panic (* [file_seek] asserts that there is a file *)
  | Some f =>
    on_fs (file_seek f (ofs p)) ;;
    bytes ← on_fs (file_read f (s32 (read_bytes p)));
    on_hw (frame_write (kpage p) 0 bytes) ;;
    if negb (Z.of_nat (length bytes) =? s32 (read_bytes p)) then internal_page_free pg ;; mret false else
    on_hw (frame_write (kpage p) (read_bytes p) (replicate (Z.to_nat (zero_bytes p)) 0)) ;;
    upd_page pg (set_present PRESENT_MEMORY) ;;
    mret true
  end.

Definition load_page_from_swap (pg : nat) : M bool :=
  p ← get_page pg; ASSERT (bool_decide (present p = PRESENT_SWAP)) ;;
  ok ← page_frame_alloc pg;
  if negb ok then mret false else
  p ← get_page pg;
  data ← on_swap (swap_page_read (swap_page p));
  on_hw (frame_write (kpage p) 0 data) ;;
  on_swap (swfree (swap_page p)) ;;
  upd_page pg (set_present PRESENT_MEMORY) ;;
  mret true.

Definition load_page_into_frame (uaddr : Z) : M bool :=
  acquire_page ;;
  o ← page_lookup uaddr;
  result ← match o with
           | Some pg =>
             p ← get_page pg;
             match present p with
             | PRESENT_FILESYS => load_page_from_filesys pg
             | PRESENT_SWAP => load_page_from_swap pg
             | PRESENT_MEMORY => mret false
             end
           | None => mret false
           end;
  release_page ;;
  mret result.

(** ** [exception.c] *)

(** What becomes of the faulting thread: it goes on, exits, or is killed. *)
Inductive verdict := Resume | Exit (status : Z) | Kill.

Definition page_fault (not_present user : bool) (fault_addr f_esp : Z) : M verdict :=
  t ← thread_current;
  modify (λ s, set_threads (<[current s := MkThread (pagedir t) f_esp (stack_pages t) (process t)]> (threads s)) s) ;;
  modify (λ s, set_page_fault_cnt (page_fault_cnt s + 1) s) ;;
  if negb not_present then mret (Exit (-1)) else
  grow ← (if user then is_unallocated_stack_access fault_addr else mret false);
  success ← (if grow : bool then b ← stack_page_alloc_multiple fault_addr; mret (negb (b =? NULL))
             else if is_user_vaddr fault_addr then load_page_into_frame fault_addr else mret false);
  mret (if success : bool then Resume else Kill).

(** An access to a byte by the current thread, in user or in kernel mode, with
    the fault handler in between and the access tried again. *)
Definition mem_read (user : bool) (a f_esp : Z) : M (verdict + Z) :=
  t ← thread_current;
  r ← on_hw (cpu_read (pagedir t) a);
  match r with
  | Done v => mret (inr v)
  | ReadOnly => v ← page_fault false user a f_esp; mret (inl v)
  | NotPresent =>
    v ← page_fault true user a f_esp;
    match v with
    | Resume => r ← on_hw (cpu_read (pagedir t) a); mret (if r is Done x then inr x else inl Resume)
    | _ => mret (inl v)
    end
  end.
Definition mem_write (user : bool) (a x f_esp : Z) : M (verdict + unit) :=
  t ← thread_current;
  r ← on_hw (cpu_write (pagedir t) a x);
  match r with
  | Done _ => mret (inr tt)
  | ReadOnly => v ← page_fault false user a f_esp; mret (inl v)
  | NotPresent =>
    v ← page_fault true user a f_esp;
    match v with
    | Resume =>
      r ← on_hw (cpu_write (pagedir t) a x);
      match r with
      | Done _ => mret (inr tt)
      | ReadOnly => v ← page_fault false user a f_esp; mret (inl v)
      | NotPresent => mret (inl Resume)
      end
    | _ => mret (inl v)
    end
  end.
End vm.
End Vm.
