(* ===== verification/VmFalloc.v ===== *)
(** * [falloc] run to its end *)
From S2P Require Import Prelude CInt Palloc Pagedir PagedirSpec Mmu Block Swap Vm.

Open Scope Z_scope.

(** * The invariant of virtual memory

    What a page of a process contains, wherever it is, and how page records,
    frames, page directories and swap slots fit together. *)

Module VmInv.
Import Palloc (NULL).
Import Swap Vm.

Section inv.
Context {H D F : Type} `{!Mmu H, !BlockDriver D, !PageFiles F}.
Implicit Types (s : vm H D F) (m : mmu) (hs : gmap nat Z) (cs : Z → list Z) (p : page).

(** Thread [t], whose process is [q], has page [u] described by the page [k]. *)
Definition page_of (s : vm H D F) (t u : Z) (k : nat) : Prop :=
  ∃ x q spt, threads s !! t = Some x ∧ process x = Some q ∧ spts s !! q = Some spt ∧ spt !! u = Some k.

(** A page's bytes in its file, followed by zeros. *)
Definition file_bytes (hs : gmap nat Z) (cs : Z → list Z) (p : page) : list Z :=
  match p_file p ≫= λ f, hs !! f with
  | Some sec => take (Z.to_nat (read_bytes p)) (drop (Z.to_nat (ofs p)) (cs sec)) ++ replicate (Z.to_nat (zero_bytes p)) 0
  | None => []
  end.

Definition file_ok (hs : gmap nat Z) (cs : Z → list Z) (p : page) : Prop :=
  ∃ f sec, p_file p = Some f ∧ hs !! f = Some sec ∧ 0 ≤ ofs p ∧ 0 ≤ read_bytes p ∧ 0 ≤ zero_bytes p ∧
    read_bytes p + zero_bytes p = PGSIZE ∧ ofs p + read_bytes p ≤ Z.of_nat (length (cs sec)) ∧
    ofs p + read_bytes p < 2 ^ 31.

(** What a page contains. *)
Definition content (s : vm H D F) (m : mmu) (hs : gmap nat Z) (cs : Z → list Z) (p : page) : list Z :=
  match present p with
  | PRESENT_MEMORY => default [] (frames m !! kpage p)
  | PRESENT_SWAP => default [] (held (swp s) (swap_page p))
  | PRESENT_FILESYS => file_bytes hs cs p
  end.
Definition contents_of (s : vm H D F) (m : mmu) hs cs (k : nat) : option (list Z * bool) :=
  (λ p, (content s m hs cs p, writable p)) <$> pages s !! k.

(** A thread's memory: the bytes of its pages, and whether it may write them. *)
Definition space (s : vm H D F) (m : mmu) hs cs (t u : Z) : option (list Z * bool) :=
  threads s !! t ≫= λ x, process x ≫= λ q, spts s !! q ≫= λ spt, spt !! u ≫= contents_of s m hs cs.

(** Where page [p], with key [k], of a thread with page directory [pd] is.
    A page in memory has a frame and is mapped to it; the page [ex], which is
    about to be loaded, need not be yet. *)
Definition placed (ex : option nat) (s : vm H D F) (m : mmu) hs cs (pd : Z) (k : nat) (p : page) : Prop :=
  match present p with
  | PRESENT_MEMORY => Some k ≠ ex →
      m_page (maps m pd (upage p)) = Some (kpage p) ∧ m_writable (maps m pd (upage p)) = writable p ∧
      ∃ tick, MkFrame (kpage p) k tick ∈ frame_table s
  | PRESENT_SWAP => is_Some (held (swp s) (swap_page p)) ∧ m_page (maps m pd (upage p)) = None
  | PRESENT_FILESYS => file_ok hs cs p ∧ m_page (maps m pd (upage p)) = None
  end.

Record inv (ex : option nat) (s : vm H D F) (m : mmu) (hs : gmap nat Z) (cs : Z → list Z) : Prop := MkInv {
  i_hw : mm_rep (hw s) m;
  i_swap : swap_ok (swp s);
  i_fs : pf_rep (fsys s) hs cs;
  (** Threads have page directories and supplemental page tables of their own. *)
  i_thread t x q : threads s !! t = Some x → process x = Some q → pagedir x ∈ dirs m ∧ is_Some (spts s !! q);
  i_own t t' x x' q q' : threads s !! t = Some x → threads s !! t' = Some x' → process x = Some q →
    process x' = Some q' → pagedir x = pagedir x' ∨ q = q' → t = t';
  (** The records of the pages. *)
  i_page t u k : page_of s t u k → ∃ p, pages s !! k = Some p ∧ upage p = u ∧ tid p = t ∧ user_page u;
  i_fresh k : (next_key s ≤ k)%nat → pages s !! k = None;
  i_place t u k x p : page_of s t u k → threads s !! t = Some x → pages s !! k = Some p →
    placed ex s m hs cs (pagedir x) k p;
  i_ex t u k x : page_of s t u k → threads s !! t = Some x → ex = Some k → m_page (maps m (pagedir x) u) = None;
  i_none t x q u : threads s !! t = Some x → process x = Some q → user_page u → (∀ k, ¬ page_of s t u k) →
    m_page (maps m (pagedir x) u) = None;
  (** A swap slot belongs to one page. *)
  i_slot t u k t' u' k' p p' : page_of s t u k → page_of s t' u' k' → pages s !! k = Some p → pages s !! k' = Some p' →
    present p = PRESENT_SWAP → present p' = PRESENT_SWAP → swap_page p = swap_page p' → k = k';
  (** The frames. *)
  i_frame f : f ∈ frame_table s → is_Some (frames m !! f_kpage f) ∧ f_kpage f ∈ kdirty m ∧
    ∃ t u p, page_of s t u (f_page f) ∧ pages s !! f_page f = Some p ∧ kpage p = f_kpage f ∧
             (Some (f_page f) ≠ ex → present p = PRESENT_MEMORY);
  i_kpages : NoDup (f_kpage <$> frame_table s);
  i_fpages : NoDup (f_page <$> frame_table s)
}.

(** ** Consequences *)

Lemma page_of_inj ex s m hs cs t u t' u' k :
  inv ex s m hs cs → page_of s t u k → page_of s t' u' k → t = t' ∧ u = u'.
Proof.
  intros Hi H1 H2. destruct (i_page _ _ _ _ _ Hi _ _ _ H1) as (p & E & <- & <- & _).
  destruct (i_page _ _ _ _ _ Hi _ _ _ H2) as (p' & E' & <- & <- & _). by simplify_eq.
Qed.

Lemma page_of_fun s t u k k' : page_of s t u k → page_of s t u k' → k = k'.
Proof. intros (x & q & spt & ? & ? & ? & ?) (x' & q' & spt' & ? & ? & ? & ?). by simplify_eq. Qed.

Lemma space_page_of s m hs cs t u k : page_of s t u k → space s m hs cs t u = contents_of s m hs cs k.
Proof. intros (x & q & spt & E1 & E2 & E3 & E4). unfold space. by rewrite E1; simpl; rewrite E2; simpl; rewrite E3; simpl; rewrite E4. Qed.

Lemma space_none s m hs cs t u : (∀ k, ¬ page_of s t u k) → space s m hs cs t u = None.
Proof.
  intros Hn. unfold space. destruct (threads s !! t) as [x|] eqn:E1; [|done]. simpl.
  destruct (process x) as [q|] eqn:E2; [|done]. simpl. destruct (spts s !! q) as [spt|] eqn:E3; [|done]. simpl.
  destruct (spt !! u) as [k|] eqn:E4; [|done]. destruct (Hn k). by exists x, q, spt.
Qed.

Lemma page_of_dec s t u : (∃ k, page_of s t u k) ∨ (∀ k, ¬ page_of s t u k).
Proof.
  destruct (threads s !! t) as [x|] eqn:E1; [|right; intros k (x' & ?); naive_solver].
  destruct (process x) as [q|] eqn:E2; [|right; intros k (x' & ?); naive_solver].
  destruct (spts s !! q) as [spt|] eqn:E3; [|right; intros k (x' & ?); naive_solver].
  destruct (spt !! u) as [k|] eqn:E4; [left; by exists k, x, q, spt|right; intros k (x' & ?); naive_solver].
Qed.

(** Threads and tables are what [page_of] depends on. *)
Lemma page_of_same s s' t u k :
  threads s' = threads s → spts s' = spts s → page_of s' t u k ↔ page_of s t u k.
Proof. unfold page_of. by intros -> ->. Qed.

Lemma space_ext s m s' m' hs cs t u :
  threads s' = threads s → spts s' = spts s →
  (∀ k, page_of s t u k → contents_of s' m' hs cs k = contents_of s m hs cs k) →
  space s' m' hs cs t u = space s m hs cs t u.
Proof.
  intros E1 E2 Hc. destruct (page_of_dec s t u) as [(k & Hk)|Hn].
  - rewrite (space_page_of s m hs cs t u k Hk), (space_page_of s' m' hs cs t u k); [by apply Hc|]. exact (proj2 (page_of_same s s' t u k E1 E2) Hk).
  - rewrite !space_none; [done|done|]. intros k Hk. exact (Hn k (proj1 (page_of_same s s' t u k E1 E2) Hk)).
Qed.

(** A frame of the table, by its place. *)
Lemma frame_at ex s m hs cs i f :
  inv ex s m hs cs → frame_table s !! i = Some f →
  ∃ d t u p x, frames m !! f_kpage f = Some d ∧ f_kpage f ∈ kdirty m ∧ page_of s t u (f_page f) ∧
    pages s !! f_page f = Some p ∧ kpage p = f_kpage f ∧ upage p = u ∧ tid p = t ∧ user_page u ∧
    threads s !! t = Some x ∧ pagedir x ∈ dirs m ∧ (Some (f_page f) ≠ ex → present p = PRESENT_MEMORY).
Proof.
  intros Hi Hf. apply list_elem_of_lookup_2 in Hf.
  destruct (i_frame _ _ _ _ _ Hi f Hf) as ([d Hd] & Hk & t & u & p & Hpo & Hp & Hkp & Hpr).
  destruct (i_page _ _ _ _ _ Hi _ _ _ Hpo) as (p' & Hp' & Hu & Ht & Huu). simplify_eq.
  destruct Hpo as (x & q & spt & Hx & Hq & Hspt & Hk'). destruct (i_thread _ _ _ _ _ Hi _ _ _ Hx Hq) as [Hpd _].
  exists d, (tid p), (upage p), p, x. split_and!; try done. by exists x, q, spt.
Qed.
End inv.
End VmInv.

(** * Taking a frame

    [falloc] gives a frame to a page: a new one, or one taken from the page that
    was used least recently, which goes to swap.  The memory of every thread is
    as before. *)

Module VmEvict.
Import Palloc (NULL, PAL_USER, PAL_ZERO).
Import Swap Vm VmInv.

Section evict.
Context {H D F : Type} `{!Mmu H, !BlockDriver D, !PageFiles F}.
Implicit Types (s : vm H D F) (m : mmu) (hs : gmap nat Z) (cs : Z → list Z) (p : page).

(** ** A new frame *)
Definition taken (h : H) (k : Z) (pg : nat) (p : page) (s : vm H D F) : vm H D F :=
  set_frame_table (frame_table s ++ [MkFrame k pg (ticks s)]) (set_pages (<[pg := set_kpage k p]> (pages s)) (set_hw h s)).

Lemma inv_taken s m hs cs pg p t u k h :
  inv (Some pg) s m hs cs → page_of s t u pg → pages s !! pg = Some p →
  (∀ f, f ∈ frame_table s → f_page f ≠ pg) → frames m !! k = None →
  mm_rep h (kernel_write k (replicate PGSIZE_nat 0) m) →
  inv (Some pg) (taken h k pg p s) (kernel_write k (replicate PGSIZE_nat 0) m) hs cs.
Proof.
  intros Hi Hpo Hp Hnf Hk Hrep.
  assert (Hsame : ∀ t' u' k', page_of (taken h k pg p s) t' u' k' ↔ page_of s t' u' k') by (intros; by apply page_of_same).
  assert (Hpages : ∀ k', pages (taken h k pg p s) !! k' = if decide (k' = pg) then Some (set_kpage k p) else pages s !! k').
  { intros k'. simpl. destruct (decide (k' = pg)) as [->|]; [by rewrite lookup_insert_eq|by rewrite lookup_insert_ne]. }
  assert (Hback : ∀ k' p', pages (taken h k pg p s) !! k' = Some p' →
            ∃ p0, pages s !! k' = Some p0 ∧ present p0 = present p' ∧ swap_page p0 = swap_page p').
  { intros k' p' E. rewrite Hpages in E. case_decide; simplify_eq; eauto. }
  constructor.
  - done.
  - apply Hi.
  - apply Hi.
  - intros t' x q. apply (i_thread _ _ _ _ _ Hi).
  - intros t' t'' x x' q q'. apply (i_own _ _ _ _ _ Hi).
  - intros t' u' k' Hk'. apply Hsame in Hk'. destruct (i_page _ _ _ _ _ Hi _ _ _ Hk') as (p' & E & ? & ? & ?).
    rewrite Hpages. case_decide; simplify_eq; [by exists (set_kpage k p)|by exists p'].
  - intros k' Hk'. rewrite Hpages. assert (E := i_fresh _ _ _ _ _ Hi k' Hk'). case_decide; simplify_eq. done.
  - intros t' u' k' x p' Hk' Hx E. apply Hsame in Hk'. rewrite Hpages in E. case_decide as Hd; simplify_eq.
    + assert (Hpl := i_place _ _ _ _ _ Hi _ _ _ _ _ Hk' Hx Hp). unfold placed in *. simpl. by destruct (present p).
    + assert (Hpl := i_place _ _ _ _ _ Hi _ _ _ _ _ Hk' Hx E). unfold placed in *. simpl. destruct (present p'); try done.
      intros Hne. destruct (Hpl Hne) as (? & ? & tick & ?). split_and!; [done|done|]. exists tick. apply elem_of_app. by left.
  - intros t' u' k' x Hk' Hx Hex. apply Hsame in Hk'. by apply (i_ex _ _ _ _ _ Hi t' u' k').
  - intros t' x q u' Hx Hq Hu Hn. apply (i_none _ _ _ _ _ Hi t' x q u' Hx Hq Hu). intros k' Hk'. apply (Hn k'). by apply Hsame.
  - intros t1 u1 k1 t2 u2 k2 p1 p2 H1 H2 E1 E2 S1 S2 Esw. apply Hsame in H1. apply Hsame in H2.
    destruct (Hback _ _ E1) as (p1' & ? & ? & ?), (Hback _ _ E2) as (p2' & ? & ? & ?).
    eapply (i_slot _ _ _ _ _ Hi t1 u1 k1 t2 u2 k2 p1' p2'); try done; congruence.
  - intros f Hf. simpl in Hf. apply elem_of_app in Hf as [Hf|Hf].
    + destruct (i_frame _ _ _ _ _ Hi f Hf) as (Hsome & Hdirty & t' & u' & p' & H1 & H2 & H3 & H4).
      assert (f_kpage f ≠ k) by (intros E; rewrite E, Hk in Hsome; by destruct Hsome).
      split; [simpl; by rewrite lookup_insert_ne|]. split; [simpl; set_solver|]. exists t', u', p'.
      rewrite Hpages. rewrite decide_False by (by apply Hnf). split_and!; [by apply Hsame|done..].
    + apply list_elem_of_singleton in Hf as ->. simpl. rewrite lookup_insert_eq. split; [done|]. split; [set_solver|].
      exists t, u, (set_kpage k p). rewrite lookup_insert_eq. split_and!; [by apply Hsame|done|done|done].
  - simpl. rewrite fmap_app. apply NoDup_app. split; [apply Hi|]. split; [|apply NoDup_singleton].
    intros k' Hin Hk'. simpl in Hk'. apply list_elem_of_singleton in Hk' as ->. apply list_elem_of_fmap in Hin as (f & -> & Hf).
    destruct (i_frame _ _ _ _ _ Hi f Hf) as ([d Hd] & _). by rewrite Hk in Hd.
  - simpl. rewrite fmap_app. apply NoDup_app. split; [apply Hi|]. split; [|apply NoDup_singleton].
    intros k' Hin Hk'. simpl in Hk'. apply list_elem_of_singleton in Hk' as ->. apply list_elem_of_fmap in Hin as (f & E & Hf).
    by apply (Hnf f Hf).
Qed.
(** ** A frame taken from another page *)
Definition evicted (h : H) (w : swap D) (n : Z) (i : nat) (f : frame) (e : page) (pg : nat) (p : page) (s : vm H D F) : vm H D F :=
  set_hw h (set_swp w (set_frame_table (delete i (frame_table s) ++ [MkFrame (f_kpage f) pg (last_accessed_tick f)])
    (set_pages (<[f_page f := set_kpage NULL (set_swap_page n (set_present PRESENT_SWAP e))]>
                 (<[pg := set_kpage (f_kpage f) p]> (pages s))) s))).

Section evicted.
Context (s : vm H D F) (m : mmu) (hs : gmap nat Z) (cs : Z → list Z).
Context (pg : nat) (p : page) (t u : Z) (i : nat) (f : frame) (e : page) (x : uthread) (d : list Z) (n : Z) (h : H) (w : swap D).
Context (Hi : inv (Some pg) s m hs cs) (Hpo : page_of s t u pg) (Hp : pages s !! pg = Some p).
Context (Hnf : ∀ g, g ∈ frame_table s → f_page g ≠ pg) (Hf : frame_table s !! i = Some f).
Context (He : pages s !! f_page f = Some e) (Hx : threads s !! tid e = Some x) (Hd : frames m !! f_kpage f = Some d).
Context (Hn : held (swp s) n = None) (Hw : ∀ j, held w j = if j =? n then Some d else held (swp s) j) (Hwok : swap_ok w).
Let m' := map_at (pagedir x) (upage e) unmap m.
Context (Hrep : mm_rep h m').
Let e' := set_kpage NULL (set_swap_page n (set_present PRESENT_SWAP e)).
Let s' := evicted h w n i f e pg p s.

Lemma evicted_frame : f ∈ frame_table s.
Proof using Hf. by eapply list_elem_of_lookup_2. Qed.

Lemma evicted_of : page_of s (tid e) (upage e) (f_page f) ∧ kpage e = f_kpage f ∧ present e = PRESENT_MEMORY.
Proof using Hi Hf He Hnf.
  destruct (i_frame _ _ _ _ _ Hi f evicted_frame) as (_ & _ & t0 & u0 & p0 & H1 & H2 & H3 & H4). simplify_eq.
  destruct (i_page _ _ _ _ _ Hi _ _ _ H1) as (p1 & ? & <- & <- & _). simplify_eq. split; [done|]. split; [done|].
  apply H4. intros [= E]. by apply (Hnf f evicted_frame).
Qed.

Lemma evicted_pages k' : pages s' !! k' =
  if decide (k' = f_page f) then Some e' else if decide (k' = pg) then Some (set_kpage (f_kpage f) p) else pages s !! k'.
Proof.
  unfold s'. simpl. destruct (decide (k' = f_page f)) as [->|]; [by rewrite lookup_insert_eq|]. rewrite lookup_insert_ne by done.
  destruct (decide (k' = pg)) as [->|]; [by rewrite lookup_insert_eq|by rewrite lookup_insert_ne].
Qed.

(** Every page has its record, which names the same page of the same thread. *)
Lemma evicted_fwd k' p0 : pages s !! k' = Some p0 →
  ∃ p', pages s' !! k' = Some p' ∧ upage p' = upage p0 ∧ tid p' = tid p0 ∧ writable p' = writable p0.
Proof using Hp He. intros E. rewrite evicted_pages. repeat case_decide; simplify_eq; eauto. Qed.

Lemma evicted_same t' u' k' : page_of s' t' u' k' ↔ page_of s t' u' k'.
Proof. by apply page_of_same. Qed.

(** The remaining frames. *)
Lemma evicted_rest g : g ∈ delete i (frame_table s) ↔ g ∈ frame_table s ∧ f_page g ≠ f_page f.
Proof using Hi Hf.
  assert (Hperm := delete_Permutation _ _ _ Hf). assert (Hnd := i_fpages _ _ _ _ _ Hi).
  rewrite Hperm in Hnd at 1. apply NoDup_cons in Hnd as [Hnin _]. rewrite Hperm at 2. split.
  - intros Hg. split; [by right|]. intros E. apply Hnin. rewrite <- E. by apply list_elem_of_fmap_2.
  - intros [[->|?]%elem_of_cons ?]; done.
Qed.

(** Mappings of other pages are as they were. *)
Lemma evicted_maps t' x' u' k' : page_of s t' u' k' → threads s !! t' = Some x' → k' ≠ f_page f →
  maps m' (pagedir x') u' = maps m (pagedir x') u'.
Proof using Hi Hf He Hx Hnf.
  intros Hk' Hx' Hne. unfold m'. simpl. destruct (Z.eqb_spec (pagedir x') (pagedir x)) as [Epd|]; [|done].
  destruct (Z.eqb_spec u' (upage e)) as [->|]; [|done]. exfalso. apply Hne. destruct evicted_of as (Hof & _).
  assert (t' = tid e) as ->; [|by eapply page_of_fun].
  destruct Hk' as (y & q & spt & ? & ? & _), Hof as (y' & q' & spt' & ? & ? & _). simplify_eq.
  eapply (i_own _ _ _ _ _ Hi); eauto.
Qed.

Lemma evicted_unmapped pd u' : m_page (maps m pd u') = None → m_page (maps m' pd u') = None.
Proof. intros E. unfold m'. simpl. by destruct (_ && _). Qed.

Lemma evicted_held j : is_Some (held (swp s) j) → held w j = held (swp s) j.
Proof using Hn Hw. intros [d' E]. rewrite Hw. destruct (Z.eqb_spec j n) as [->|]; [by rewrite Hn in E|done]. Qed.

Lemma evicted_placed t' u' k' x' p' :
  page_of s' t' u' k' → threads s' !! t' = Some x' → pages s' !! k' = Some p' → placed (Some pg) s' m' hs cs (pagedir x') k' p'.
Proof using Hi Hf He Hx Hnf Hp Hn Hw.
  intros Hk' Hx' E. apply evicted_same in Hk'. simpl in Hx'. rewrite evicted_pages in E.
  destruct (decide (k' = f_page f)) as [->|Hne].
  { simplify_eq. unfold placed. simpl. rewrite Hw, Z.eqb_refl. split; [done|]. destruct evicted_of as (Hof & _).
    destruct (page_of_inj _ _ _ _ _ _ _ _ _ _ Hi Hof Hk') as [<- <-]. simplify_eq. by rewrite !Z.eqb_refl. }
  assert (∃ p0, pages s !! k' = Some p0 ∧ present p' = present p0 ∧ swap_page p' = swap_page p0 ∧ upage p' = upage p0 ∧
             writable p' = writable p0 ∧ file_ok hs cs p' = file_ok hs cs p0 ∧ (k' ≠ pg → p' = p0)) as (p0 & Hp0 & E1 & E2 & E3 & E4 & E5 & E6).
  { case_decide; simplify_eq; [by exists p|by exists p']. }
  assert (Hpl := i_place _ _ _ _ _ Hi _ _ _ _ _ Hk' Hx' Hp0).
  destruct (i_page _ _ _ _ _ Hi _ _ _ Hk') as (p1 & ? & Hu & _). simplify_eq.
  assert (Hmap := evicted_maps _ _ _ _ Hk' Hx' Hne). unfold placed in *. rewrite E1, E2, E3, E4, E5, Hmap.
  destruct (present p0); [|done|].
  - intros Hpg. destruct (Hpl Hpg) as (? & ? & tick & Hin). rewrite (E6 ltac:(congruence)). split_and!; [done|done|].
    exists tick. unfold s'. simpl. apply elem_of_app. left. by apply evicted_rest.
  - destruct Hpl as [Hh ?]. split; [|done]. unfold s'. simpl. by rewrite evicted_held.
Qed.

Lemma evicted_slot_back k' p' : pages s' !! k' = Some p' → present p' = PRESENT_SWAP →
  (k' = f_page f ∧ swap_page p' = n) ∨
  (k' ≠ f_page f ∧ ∃ p0, pages s !! k' = Some p0 ∧ present p0 = PRESENT_SWAP ∧ swap_page p0 = swap_page p').
Proof using Hp.
  intros E Hs. rewrite evicted_pages in E. destruct (decide (k' = f_page f)); simplify_eq; [by left|right].
  split; [done|]. case_decide; simplify_eq; eauto.
Qed.

Lemma evicted_slot_held t' u' k' p0 : page_of s t' u' k' → pages s !! k' = Some p0 → present p0 = PRESENT_SWAP →
  swap_page p0 ≠ n.
Proof using Hi Hn.
  intros Hk' E Hs Esw. assert (Hk := Hk'). destruct Hk as (x' & _ & _ & Hx' & _).
  assert (Hpl := i_place _ _ _ _ _ Hi _ _ _ _ _ Hk' Hx' E). unfold placed in Hpl. rewrite Hs, Esw, Hn in Hpl. by destruct Hpl as [[] _].
Qed.

Lemma inv_evicted : inv (Some pg) s' m' hs cs.
Proof using All.
  destruct evicted_of as (Hof & Hke & Hme).
  assert (Hfp : f_page f ≠ pg) by apply (Hnf f evicted_frame).
  constructor.
  - done.
  - done.
  - apply Hi.
  - intros t' x' q. apply (i_thread _ _ _ _ _ Hi).
  - intros t' t'' x1 x2 q q'. apply (i_own _ _ _ _ _ Hi).
  - intros t' u' k' Hk'%evicted_same. destruct (i_page _ _ _ _ _ Hi _ _ _ Hk') as (p0 & E & <- & <- & ?).
    destruct (evicted_fwd _ _ E) as (p' & ? & ? & ? & _). by exists p'.
  - intros k' Hk'. assert (E := i_fresh _ _ _ _ _ Hi k' Hk'). rewrite evicted_pages. repeat case_decide; simplify_eq. done.
  - apply evicted_placed.
  - intros t' u' k' x' Hk'%evicted_same Hx' Hex. apply evicted_unmapped. by apply (i_ex _ _ _ _ _ Hi t' u' k').
  - intros t' x' q u' Hx' Hq Hu Hnone. apply evicted_unmapped, (i_none _ _ _ _ _ Hi t' x' q u' Hx' Hq Hu).
    intros k' Hk'. apply (Hnone k'). by apply evicted_same.
  - intros t1 u1 k1 t2 u2 k2 p1 p2 H1%evicted_same H2%evicted_same E1 E2 S1 S2 Esw.
    destruct (evicted_slot_back _ _ E1 S1) as [[-> F1]|(_ & q1 & F1 & F2 & F3)],
      (evicted_slot_back _ _ E2 S2) as [[-> G1]|(_ & q2 & G1 & G2 & G3)]; [done|exfalso..|].
    + apply (evicted_slot_held _ _ _ _ H2 G1 G2). congruence.
    + apply (evicted_slot_held _ _ _ _ H1 F1 F2). congruence.
    + eapply (i_slot _ _ _ _ _ Hi t1 u1 k1 t2 u2 k2); try done. congruence.
  - intros g Hg. unfold s' in Hg. simpl in Hg. apply elem_of_app in Hg as [Hg|Hg].
    + apply evicted_rest in Hg as [Hg Hne]. destruct (i_frame _ _ _ _ _ Hi g Hg) as (Hs1 & Hs2 & t' & u' & p' & H1 & H2 & H3 & H4).
      split; [done|]. split; [done|]. exists t', u', p'. rewrite evicted_pages, decide_False, decide_False by (done || by apply Hnf).
      split_and!; [by apply evicted_same|done..].
    + apply list_elem_of_singleton in Hg as ->. simpl f_kpage. simpl f_page.
      destruct (i_frame _ _ _ _ _ Hi f evicted_frame) as (Hs1 & Hs2 & _). split; [done|]. split; [done|].
      exists t, u, (set_kpage (f_kpage f) p). rewrite evicted_pages, decide_False, decide_True by done.
      split_and!; [by apply evicted_same|done..].
  - unfold s'. simpl. rewrite fmap_app. simpl. assert (Hnd := i_kpages _ _ _ _ _ Hi).
    rewrite (delete_Permutation _ _ _ Hf) in Hnd at 1. by rewrite Permutation_app_comm.
  - unfold s'. simpl. rewrite fmap_app. simpl. rewrite Permutation_app_comm. simpl. apply NoDup_cons. split.
    + intros (g & E & Hg)%list_elem_of_fmap. apply evicted_rest in Hg as [Hg _]. by apply (Hnf g Hg).
    + assert (Hnd := i_fpages _ _ _ _ _ Hi). rewrite (delete_Permutation _ _ _ Hf) in Hnd at 1. by apply NoDup_cons in Hnd as [_ ?].
Qed.

(** The evicted page has its bytes in swap, the others where they were. *)
Lemma evicted_contents t' u' k' : page_of s t' u' k' → k' ≠ pg → contents_of s' m' hs cs k' = contents_of s m hs cs k'.
Proof using Hi Hf He Hnf Hd Hn Hw.
  intros Hk' Hne. unfold contents_of. rewrite evicted_pages. destruct evicted_of as (_ & Hke & Hme).
  destruct (decide (k' = f_page f)) as [->|].
  { rewrite He. simpl. unfold content. rewrite Hme. simpl. by rewrite Hw, Z.eqb_refl, Hke, Hd. }
  rewrite decide_False by done. destruct (pages s !! k') as [p0|] eqn:E; [|done]. simpl. do 2 f_equal. unfold content.
  destruct (present p0) eqn:Epr; [done|done|]. unfold s'. simpl. rewrite Hw.
  destruct (Z.eqb_spec (swap_page p0) n) as [Esw|]; [|done].
  by destruct (evicted_slot_held _ _ _ _ Hk' E Epr).
Qed.
End evicted.
End evict.
End VmEvict.

Module VmFalloc.
Import Palloc (NULL, PAL_USER, PAL_ZERO).
Import Swap Vm VmInv VmEvict.

Abbreviation USER_ZERO := (Z.lor PAL_USER PAL_ZERO).

(** ** The frame to evict *)

(** The frame at [i] has the least tick, and is the first that has it. *)
Definition lru (l : list frame) (i : nat) (f : frame) : Prop :=
  l !! i = Some f ∧ ∀ j g, l !! j = Some g →
    last_accessed_tick f ≤ last_accessed_tick g ∧ ((j < i)%nat → last_accessed_tick f < last_accessed_tick g).

Lemma vm_evict_loop_ok l pre i f :
  lru pre i f →
  ∃ f', lru (pre ++ l) (evict_loop l (length pre) i (last_accessed_tick f)) f'.
Proof.
  revert pre i f. induction l as [|g l IH]; intros pre i f Hlru; cbn [evict_loop].
  { exists f. by rewrite app_nil_r. }
  assert (Hlt := lookup_lt_Some _ _ _ (proj1 Hlru)).
  replace (S (length pre)) with (length (pre ++ [g])) by (rewrite length_app; simpl; lia).
  rewrite cons_middle, app_assoc. destruct Hlru as [Hi Hmin].
  assert (Hlook : ∀ j h, (pre ++ [g]) !! j = Some h → pre !! j = Some h ∨ (j = length pre ∧ h = g)).
  { intros j h [?|[Hge E]]%lookup_app_Some; [by left|right]. apply list_lookup_singleton_Some in E as [? ->]. split; [lia|done]. }
  destruct (Z.ltb_spec (last_accessed_tick g) (last_accessed_tick f)); apply IH.
  - split; [by rewrite list_lookup_middle|]. intros j h [E|[-> ->]]%Hlook; [|lia]. destruct (Hmin j h E). lia.
  - split; [by apply lookup_app_l_Some|]. intros j h [E|[-> ->]]%Hlook; [by apply Hmin|]. split; [done|lia].
Qed.

Section falloc.
Context {H D F : Type} `{!Mmu H, !BlockDriver D, !PageFiles F}.
Implicit Types (s : vm H D F) (m : mmu) (hs : gmap nat Z) (cs : Z → list Z) (p : page).

Lemma get_frame_to_evict_ok s :
  frame_table s ≠ [] → ∃ i f, get_frame_to_evict s = Ok (i, s) ∧ lru (frame_table s) i f.
Proof.
  intros Hne. destruct (frame_table s) as [|g l] eqn:E; [done|].
  destruct (vm_evict_loop_ok l [g] 0 g) as [f Hf].
  { split; [done|]. intros [|j] h Hj; [|done]. injection Hj as <-. lia. }
  exists (evict_loop l 1 0 (last_accessed_tick g)), f. split; [|exact Hf].
  unfold get_frame_to_evict. erewrite run_bind_ok; [|reflexivity]. run_assert; [|apply Z.ltb_lt; rewrite E; cbn [length]; lia]. by rewrite E.
Qed.

Lemma on_hw_read {A} (c : ST H A) s a : c (hw s) = Ok (a, hw s) → on_hw c s = Ok (a, s).
Proof. intros E. unfold on_hw. rewrite (run_zoom_ok _ _ _ _ _ _ E). by destruct s. Qed.

Lemma on_hw_ok {A} (c : ST H A) s a h : c (hw s) = Ok (a, h) → on_hw c s = Ok (a, set_hw h s).
Proof. apply run_zoom_ok. Qed.

Lemma pagedir_of_ok t s x : threads s !! t = Some x → pagedir_of t s = Ok (pagedir x, s).
Proof.
  intros E. unfold pagedir_of, get_thread. erewrite run_bind_ok; [|reflexivity].
  erewrite run_bind_ok; [|by apply run_deref]. done.
Qed.

Lemma insert_last {A} (l : list A) x y : <[Nat.pred (length (l ++ [x])) := y]> (l ++ [x]) = l ++ [y].
Proof.
  replace (Nat.pred (length (l ++ [x]))) with (length l + 0)%nat by (rewrite length_app; simpl; lia).
  by rewrite insert_app_r.
Qed.

Lemma upd_page_ok k f s p : pages s !! k = Some p → upd_page k f s = Ok (tt, set_pages (<[k := f p]> (pages s)) s).
Proof. intros E. unfold upd_page, get_page. erewrite run_bind_ok; [|erewrite run_bind_ok; [|reflexivity]; by apply run_deref]. done. Qed.

Lemma vm_get_page_ok k s p : pages s !! k = Some p → get_page k s = Ok (p, s).
Proof. intros E. unfold get_page. erewrite run_bind_ok; [|reflexivity]. by apply run_deref. Qed.

(** What a frame allocation leaves alone. *)
Record kept (s s' : vm H D F) : Prop := MkKept {
  k_threads : threads s' = threads s;
  k_spts : spts s' = spts s;
  k_current : current s' = current s;
  k_next : next_key s' = next_key s;
  k_page_lock : page_lock s' = page_lock s;
  k_fsys : fsys s' = fsys s;
  k_held j : is_Some (held (swp s) j) → held (swp s') j = held (swp s) j
}.

(** No frame is left, and there is none to take or no room in swap. *)
Definition exhausted (s : vm H D F) : Prop :=
  palloc_get_page USER_ZERO (hw s) = Ok (NULL, hw s) ∧
  (frame_table s = [] ∨ ∀ i, slot_index (swp s) i → slot_free (swp s) i = false).

(** Where the frame [k] comes from, and what it holds. *)
Definition frame_source (s : vm H D F) (m m' : mmu) (k : Z) : Prop :=
  (frames m' !! k = Some (replicate PGSIZE_nat 0) ∧ ∃ h, palloc_get_page USER_ZERO (hw s) = Ok (k, h) ∧ k ≠ NULL) ∨
  (palloc_get_page USER_ZERO (hw s) = Ok (NULL, hw s) ∧
   ∃ i f, lru (frame_table s) i f ∧ k = f_kpage f ∧ is_Some (frames m !! k) ∧ frames m' !! k = frames m !! k).

(** The path of [falloc] that finds a free frame. *)
Lemma falloc_take s pg p k h :
  frame_lock s = false → pages s !! pg = Some p → palloc_get_page USER_ZERO (hw s) = Ok (k, h) → k ≠ NULL →
  falloc pg USER_ZERO s = Ok (k, set_frame_lock false (taken h k pg p s)).
Proof.
  intros Hl Hp Hget Hk. unfold falloc, acquire_frame.
  erewrite run_bind_ok; [|erewrite run_bind_ok; [|reflexivity]; run_assert; [reflexivity|by rewrite Hl]].
  rewrite (run_bind_ok _ _ _ _ _ (on_hw_ok _ (set_frame_lock true s) k h Hget)).
  rewrite (proj2 (Z.eqb_neq k NULL) Hk). cbn [negb]. erewrite run_bind_ok; [|reflexivity].
  rewrite (run_bind_ok _ _ _ _ _ (upd_page_ok pg _ (set_hw h (set_frame_lock true s)) p Hp)). done.
Qed.

Lemma swalloc_full w :
  swap_ok w → (∀ i, slot_index w i → slot_free w i = false) → swalloc w = Ok (SWAP_PAGE_ERROR, w).
Proof.
  intros Hok Hfull. destruct (swalloc_ok w Hok) as [(i & w' & (Hi & Hfree & _) & _)|[_ ?]]; [|done].
  by rewrite Hfull in Hfree.
Qed.

(** The path that evicts a page, up to swap. *)
Section evicting.
Context (s : vm H D F) (m : mmu) (hs : gmap nat Z) (cs : Z → list Z).
Context (pg : nat) (p : page) (t u : Z) (i : nat) (f : frame) (e : page) (x : uthread) (d : list Z).
Context (Hi : inv (Some pg) s m hs cs) (Hpo : page_of s t u pg) (Hp : pages s !! pg = Some p).
Context (Hnf : ∀ g, g ∈ frame_table s → f_page g ≠ pg) (Hl : frame_lock s = false).
Context (Hget : palloc_get_page USER_ZERO (hw s) = Ok (NULL, hw s)).
Context (Hev : get_frame_to_evict (set_frame_lock true s) = Ok (i, set_frame_lock true s)) (Hf : frame_table s !! i = Some f).
Context (He : pages s !! f_page f = Some e) (Hx : threads s !! tid e = Some x) (Hd : frames m !! f_kpage f = Some d).
Context (Hpd : pagedir x ∈ dirs m) (Hu : user_page (upage e)) (Hke : kpage e = f_kpage f) (Hkd : f_kpage f ∈ kdirty m).
Let s1 := set_frame_table (delete i (frame_table s) ++ [f]) (set_frame_lock true s).

(** Every evicted page counts as dirty. *)
Lemma evict_dirty (K : bool → ST (vm H D F) Z) :
  (dirty ← on_hw (pagedir_is_dirty (pagedir x) (upage e));
   dirty ← (if dirty : bool then mret true else on_hw (pagedir_is_dirty (pagedir x) (kpage e)));
   K dirty) s1 = K true s1.
Proof using Hi Hpd Hu Hd Hke Hkd.
  assert (Hhw := i_hw _ _ _ _ _ Hi).
  rewrite (run_bind_ok _ _ _ _ _ (on_hw_read _ s1 _ (mm_is_dirty _ _ _ _ Hhw Hpd Hu))).
  destruct (m_dirty _); [done|]. rewrite Hke.
  rewrite (run_bind_ok _ _ _ _ _ (on_hw_read _ s1 _ (mm_is_kdirty _ _ _ _ _ Hhw Hpd Hd))). by rewrite bool_decide_true.
Qed.

(** [falloc] up to the choice of where to put the page. *)
Lemma falloc_start n w : swalloc (swp s) = Ok (n, w) →
  falloc pg USER_ZERO s = (on_swap (swap_page_write n d) ;;
            upd_page (f_page f) (λ p, set_swap_page n (set_present PRESENT_SWAP p)) ;;
            modify (λ s, set_frame_table (<[Nat.pred (length (frame_table s)) :=
                      MkFrame (f_kpage f) pg (last_accessed_tick f)]> (frame_table s)) s) ;;
            p ← get_page (f_page f);
            upd_page pg (set_kpage (kpage p)) ;;
            upd_page (f_page f) (set_kpage NULL) ;;
            p ← get_page (f_page f);
            t ← get_thread (tid p);
            (if t is Some t then on_hw (pagedir_clear_page (pagedir t) (upage p)) else mret tt) ;;
            release_frame ;;
            p ← get_page pg;
            mret (kpage p)) (set_swp w s1).
Proof using All.
  intros Hsw. unfold falloc, acquire_frame.
  erewrite run_bind_ok; [|erewrite run_bind_ok; [|reflexivity]; run_assert; [reflexivity|by rewrite Hl]].
  rewrite (run_bind_ok _ _ _ _ _ (on_hw_read _ (set_frame_lock true s) _ Hget)). cbn [negb Z.eqb NULL].
  rewrite (run_bind_ok _ _ _ _ _ Hev). erewrite run_bind_ok; [|reflexivity].
  erewrite run_bind_ok; [|by apply run_deref]. cbv zeta. erewrite run_bind_ok; [|reflexivity]. fold s1.
  rewrite (run_bind_ok _ _ _ _ _ (vm_get_page_ok (f_page f) s1 e He)).
  rewrite (run_bind_ok _ _ _ _ _ (pagedir_of_ok (tid e) s1 x Hx)). rewrite evict_dirty. cbn [negb andb].
  assert (Hsw' : on_swap swalloc s1 = Ok (n, set_swp w s1)) by exact (run_zoom_ok swp set_swp swalloc s1 n w Hsw).
  assert (Hread : on_hw (frame_read (kpage e)) (set_swp w s1) = Ok (d, set_swp w s1)).
  { apply on_hw_read. rewrite Hke. exact (mm_read _ _ _ _ (i_hw _ _ _ _ _ Hi) Hd). }
  unfold mbind, ST_bind. rewrite Hsw', Hread.
  destruct (on_swap (swap_page_write n d) (set_swp w s1)) as [[[] s3]|]; [|done].
  by destruct (upd_page _ _ _) as [[[] s4]|].
Qed.

Lemma falloc_full : swap_ok (swp s) → (∀ j, slot_index (swp s) j → slot_free (swp s) j = false) →
  falloc pg USER_ZERO s = Err Panic.
Proof using All.
  intros Hok Hfull. rewrite (falloc_start _ _ (swalloc_full _ Hok Hfull)). apply run_bind_err, run_zoom_err.
  by apply swap_page_write_error.
Qed.

Lemma falloc_evict n w w' h : f_page f ≠ pg → swalloc (swp s) = Ok (n, w) → swap_page_write n d w = Ok (tt, w') →
  pagedir_clear_page (pagedir x) (upage e) (hw s) = Ok (tt, h) →
  falloc pg USER_ZERO s = Ok (f_kpage f, set_frame_lock false (evicted h w' n i f e pg p s)).
Proof using All.
  intros Hne Hsw Hwr Hcl. rewrite (falloc_start _ _ Hsw).
  rewrite (run_bind_ok _ _ _ _ _ (run_zoom_ok swp set_swp _ (set_swp w s1) _ _ Hwr)).
  set (e1 := set_swap_page n (set_present PRESENT_SWAP e)).
  rewrite (run_bind_ok _ _ _ _ _ (upd_page_ok (f_page f) _ (set_swp w' (set_swp w s1)) e He)). fold e1.
  erewrite run_bind_ok; [|reflexivity]. set (s2 := set_frame_table _ _).
  assert (He1 : pages s2 !! f_page f = Some e1) by apply lookup_insert_eq.
  rewrite (run_bind_ok _ _ _ _ _ (vm_get_page_ok _ _ _ He1)).
  assert (Hp1 : pages s2 !! pg = Some p) by (simpl; by rewrite lookup_insert_ne).
  rewrite (run_bind_ok _ _ _ _ _ (upd_page_ok pg _ s2 p Hp1)). set (s3 := set_pages _ s2).
  assert (He3 : pages s3 !! f_page f = Some e1) by (simpl; by rewrite lookup_insert_ne, lookup_insert_eq by done).
  rewrite (run_bind_ok _ _ _ _ _ (upd_page_ok (f_page f) _ s3 e1 He3)). set (s4 := set_pages _ s3).
  rewrite (run_bind_ok _ _ _ _ _ (vm_get_page_ok (f_page f) s4 (set_kpage NULL e1) (lookup_insert_eq _ _ _))).
  erewrite run_bind_ok; [|reflexivity]. change (threads s4) with (threads s). change (tid (set_kpage NULL e1)) with (tid e).
  rewrite Hx. rewrite (run_bind_ok _ _ _ _ _ (on_hw_ok _ s4 tt h Hcl)). erewrite run_bind_ok; [|reflexivity].
  assert (Hp4 : pages s4 !! pg = Some (set_kpage (f_kpage f) p)).
  { simpl. rewrite lookup_insert_ne, lookup_insert_eq by done. change (kpage e1) with (kpage e). by rewrite Hke. }
  rewrite (run_bind_ok _ _ _ _ _ (vm_get_page_ok pg (set_frame_lock false (set_hw h s4)) _ Hp4)).
  unfold mret, ST_ret. do 2 f_equal. unfold evicted. change (kpage e1) with (kpage e) in *.
  unfold set_frame_lock, set_hw, set_swp, set_frame_table, set_pages. simpl. f_equal.
  - apply map_eq. intros k. destruct (decide (k = f_page f)) as [->|Hk1]; [by rewrite !lookup_insert_eq|].
    rewrite !(lookup_insert_ne _ (f_page f) k) by done.
    destruct (decide (k = pg)) as [->|Hk2]; [rewrite !lookup_insert_eq; by rewrite Hke|].
    by rewrite !lookup_insert_ne by done.
  - apply insert_last.
Qed.
End evicting.

(** [falloc] when no frame is free: the least recently used frame changes hands. *)
Lemma falloc_evicts s m hs cs pg p t u :
  inv (Some pg) s m hs cs → frame_lock s = false → page_of s t u pg → pages s !! pg = Some p →
  (∀ g, g ∈ frame_table s → f_page g ≠ pg) → palloc_get_page USER_ZERO (hw s) = Ok (NULL, hw s) → frame_table s ≠ [] →
  (∃ i f e x h w n, let s' := set_frame_lock false (evicted h w n i f e pg p s) in
     let m' := map_at (pagedir x) (upage e) unmap m in
     lru (frame_table s) i f ∧ pages s !! f_page f = Some e ∧ f_page f ≠ pg ∧ f_kpage f ≠ NULL ∧ is_Some (frames m !! f_kpage f) ∧
     falloc pg USER_ZERO s = Ok (f_kpage f, s') ∧ inv (Some pg) s' m' hs cs ∧
     (∀ t' u' k', page_of s t' u' k' → k' ≠ pg → contents_of s' m' hs cs k' = contents_of s m hs cs k') ∧
     (∀ j, is_Some (held (swp s) j) → held w j = held (swp s) j) ∧ (mm_room (hw s) → mm_room h)) ∨
  (falloc pg USER_ZERO s = Err Panic ∧ ∀ i, slot_index (swp s) i → slot_free (swp s) i = false).
Proof.
  intros Hi Hl Hpo Hp Hnf Hget Hne. assert (Hhw := i_hw _ _ _ _ _ Hi).
  destruct (get_frame_to_evict_ok (set_frame_lock true s) Hne) as (i & f & Hev & Hlru). assert (Hf := proj1 Hlru). simpl in Hf.
  destruct (frame_at _ _ _ _ _ _ _ Hi Hf) as (d & te & ue & e & x & Hd & Hkd & Hpe & He & Hke & <- & <- & Hu & Hx & Hpd & _).
  assert (Hfp : f_page f ≠ pg) by (apply Hnf; by eapply list_elem_of_lookup_2).
  destruct (mm_frame_wf _ _ _ _ Hhw Hd) as (Hlen & _ & Hlo & _). unfold PHYS_BASE in Hlo.
  destruct (swap_out_ok (swp s) d (i_swap _ _ _ _ _ Hi) Hlen) as [(n & w' & Hn & Hrun & Hwok & _ & Hw)|[Hfull _]].
  2: { right. split; [|done]. eapply (falloc_full s m hs cs pg p t u i f e x d); try done. apply Hi. }
  left. apply run_bind_inv in Hrun as (n' & w & Hsw & Hrun). apply run_bind_inv in Hrun as ([] & w2 & Hwr & [= -> ->]).
  destruct (mm_clear _ _ _ _ Hhw Hpd Hu) as (h & Hcl & Hrep & Hroom).
  assert (Hheld := held_free _ _ (proj1 (proj2 Hn))). exists i, f, e, x, h, w', n. cbv zeta.
  assert (Hi' := inv_evicted s m hs cs pg p t u i f e x d n h w' Hi Hpo Hp Hnf Hf He Hx Hd Hheld Hw Hwok Hrep).
  split; [exact Hlru|]. split; [done|]. split; [done|]. split; [unfold NULL; lia|]. split; [by exists d|].
  split; [eapply (falloc_evict s m hs cs pg p t u i f e x d); try done|].
  split; [by destruct Hi'; constructor|]. split; [|split; [intros j Hj; by eapply evicted_held|done]].
  intros t' u' k' Hk' Hne'. by eapply (evicted_contents s m hs cs pg p i f e x d n h w' Hi Hnf Hf He Hd Hheld Hw).
Qed.

Lemma falloc_ok s m hs cs pg p t u :
  inv (Some pg) s m hs cs → frame_lock s = false → page_of s t u pg → pages s !! pg = Some p →
  (∀ g, g ∈ frame_table s → f_page g ≠ pg) →
  (∃ k s' m', falloc pg USER_ZERO s = Ok (k, s') ∧ k ≠ NULL ∧ inv (Some pg) s' m' hs cs ∧ frame_lock s' = false ∧
     kept s s' ∧ pages s' !! pg = Some (set_kpage k p) ∧ (∃ tick, MkFrame k pg tick ∈ frame_table s') ∧
     (∀ t' u' k', page_of s t' u' k' → k' ≠ pg → contents_of s' m' hs cs k' = contents_of s m hs cs k') ∧
     frame_source s m m' k ∧ (mm_room (hw s) → mm_room (hw s'))) ∨
  (falloc pg USER_ZERO s = Err Panic ∧ exhausted s).
Proof.
  intros Hi Hl Hpo Hp Hnf. assert (Hhw := i_hw _ _ _ _ _ Hi).
  destruct (mm_get _ _ Hhw) as [Hget|(k & h & Hget & Hk & Hnone & Hrep & Hroom)]; cycle 1.
  { left. exists k, (set_frame_lock false (taken h k pg p s)), (kernel_write k (replicate PGSIZE_nat 0) m).
    assert (Hi' := inv_taken s m hs cs pg p t u k h Hi Hpo Hp Hnf Hnone Hrep).
    split; [by apply falloc_take|]. split; [done|]. split; [by destruct Hi'; constructor|]. split; [done|].
    split; [by constructor|]. split; [apply lookup_insert_eq|]. split; [exists (ticks s); apply elem_of_app; right; by apply list_elem_of_singleton|].
    split; [|split; [left; split; [apply lookup_insert_eq|by exists h]|done]].
    intros t' u' k' Hk' Hne. unfold contents_of. simpl. rewrite lookup_insert_ne by done.
    destruct (pages s !! k') as [p'|] eqn:E; [|done]. simpl. do 2 f_equal. unfold content. destruct (present p') eqn:Epr; [|done|done].
    simpl. rewrite lookup_insert_ne; [done|]. intros Ek. assert (Hx := Hk'). destruct Hx as (x & _ & _ & Hx & _).
    assert (Hpl := i_place _ _ _ _ _ Hi _ _ _ _ _ Hk' Hx E). unfold placed in Hpl. rewrite Epr in Hpl.
    destruct Hpl as (_ & _ & tick & Hin); [congruence|]. destruct (i_frame _ _ _ _ _ Hi _ Hin) as ([d Hd] & _). simpl in Hd.
    by rewrite <- Ek, Hnone in Hd. }
  destruct (decide (frame_table s = [])) as [Hempty|Hne].
  { right. split; [|split; [done|by left]]. unfold falloc, acquire_frame.
    erewrite run_bind_ok; [|erewrite run_bind_ok; [|reflexivity]; run_assert; [reflexivity|by rewrite Hl]].
    rewrite (run_bind_ok _ _ _ _ _ (on_hw_read _ (set_frame_lock true s) _ Hget)). cbn [negb Z.eqb NULL].
    apply run_bind_err. unfold get_frame_to_evict. erewrite run_bind_ok; [|reflexivity]. apply run_bind_err, run_assert_fail.
    simpl. by rewrite Hempty. }
  destruct (falloc_evicts s m hs cs pg p t u Hi Hl Hpo Hp Hnf Hget Hne)
    as [(i & f & e & x & h & w & n & Hlru & He & Hfp & Hnn & Hsome & Hrun & Hi' & Hc & Hh & Hroom)|[Hrun Hfull]]; [left|right].
  2: { split; [done|]. split; [done|by right]. }
  exists (f_kpage f). eexists _, _. split; [exact Hrun|]. split; [done|]. split; [exact Hi'|]. split; [done|].
  split; [by constructor|]. split; [simpl; by rewrite lookup_insert_ne, lookup_insert_eq|].
  split; [exists (last_accessed_tick f); apply elem_of_app; right; by apply list_elem_of_singleton|].
  split; [exact Hc|]. split; [right; split; [done|]; by exists i, f|done].
Qed.
End falloc.
End VmFalloc.
