(* ===== verification/VmLoad.v ===== *)
(** * Loading a page

    After [falloc] the page is entered in the page directory, filled and marked
    as present.  Nothing else changes, wherever the page came from. *)
From S2P Require Import Prelude CInt Palloc Pagedir PagedirSpec Mmu Block Swap Vm VmFalloc.

Open Scope Z_scope.

Module VmLoad.
Import Palloc (NULL, PAL_USER, PAL_ZERO).
Import Swap Vm VmInv VmEvict VmFalloc.

Section load.
Context {H D F : Type} `{!Mmu H, !BlockDriver D, !PageFiles F}.

(** ** The page is in its frame *)
Definition loaded (h : H) (w : swap D) (fs : F) (pg : nat) (p : page) (s : vm H D F) : vm H D F :=
  set_pages (<[pg := set_present PRESENT_MEMORY p]> (pages s)) (set_fsys fs (set_swp w (set_hw h s))).

Section loaded.
Context (s : vm H D F) (m m' : mmu) (hs : gmap nat Z) (cs : Z → list Z).
Context (pg : nat) (p : page) (t u tick : Z) (x : uthread) (d : list Z) (h : H) (w : swap D) (fs : F).
Context (Hi : inv (Some pg) s m hs cs) (Hpo : page_of s t u pg) (Hx : threads s !! t = Some x) (Hp : pages s !! pg = Some p).
Context (Hf : MkFrame (kpage p) pg tick ∈ frame_table s).
Context (Hdirs : dirs m' = dirs m) (Hmaps : maps m' = maps (map_at (pagedir x) u (λ _, Mapping (Some (kpage p)) (writable p) false false) m)).
Context (Hframes : frames m' = <[kpage p := d]> (frames m)) (Hdirty : kdirty m ⊆ kdirty m') (Hrep : mm_rep h m').
Context (Hwok : swap_ok w) (Hfs : pf_rep fs hs cs).
Context (Hw : ∀ t' u' k' p', page_of s t' u' k' → k' ≠ pg → pages s !! k' = Some p' → present p' = PRESENT_SWAP →
                held w (swap_page p') = held (swp s) (swap_page p')).
Let s' := loaded h w fs pg p s.

Lemma loaded_pages k' : pages s' !! k' = if decide (k' = pg) then Some (set_present PRESENT_MEMORY p) else pages s !! k'.
Proof. unfold s'. simpl. case_decide as E; [rewrite E; apply lookup_insert_eq|by apply lookup_insert_ne]. Qed.

Lemma loaded_same t' u' k' : page_of s' t' u' k' ↔ page_of s t' u' k'.
Proof. by apply page_of_same. Qed.

Lemma loaded_upage : upage p = u ∧ tid p = t ∧ user_page u.
Proof using Hi Hpo Hp. destruct (i_page _ _ _ _ _ Hi _ _ _ Hpo) as (p0 & E & ?). rewrite Hp in E. by injection E as <-. Qed.

(** Mappings of other pages are as they were. *)
Lemma loaded_maps t' x' q' u' : threads s !! t' = Some x' → process x' = Some q' → t' ≠ t ∨ u' ≠ u →
  maps m' (pagedir x') u' = maps m (pagedir x') u'.
Proof using Hi Hpo Hx Hmaps.
  intros Hx' Hq' Hne. rewrite Hmaps. simpl. destruct (Z.eqb_spec (pagedir x') (pagedir x)) as [Epd|]; [|done].
  destruct (Z.eqb_spec u' u) as [->|]; [|done]. destruct Hpo as (y & q & spt & ? & ? & _). simplify_eq.
  assert (t' = t) by (eapply (i_own _ _ _ _ _ Hi); eauto). naive_solver.
Qed.

Lemma loaded_map : maps m' (pagedir x) u = Mapping (Some (kpage p)) (writable p) false false.
Proof using Hmaps. rewrite Hmaps. simpl. by rewrite !Z.eqb_refl. Qed.

Lemma loaded_other t' u' k' x' : page_of s t' u' k' → threads s !! t' = Some x' → k' ≠ pg →
  maps m' (pagedir x') u' = maps m (pagedir x') u'.
Proof using Hi Hpo Hx Hmaps.
  intros Hk' Hx' Hne. assert (Hk := Hk'). destruct Hk as (y & q & spt & ? & ? & _). simplify_eq.
  apply (loaded_maps t' x' q); [done|done|]. destruct (decide (t' = t)) as [->|]; [|by left]. right. intros ->.
  apply Hne. by eapply page_of_fun.
Qed.

Lemma loaded_frame f : f ∈ frame_table s → is_Some (frames m' !! f_kpage f) ∧ f_kpage f ∈ kdirty m'.
Proof using Hi Hframes Hdirty.
  intros Hin. destruct (i_frame _ _ _ _ _ Hi f Hin) as (Hs & Hk & _). split; [|by apply Hdirty].
  rewrite Hframes. destruct (decide (kpage p = f_kpage f)) as [->|]; [by rewrite lookup_insert_eq|by rewrite lookup_insert_ne].
Qed.

(** Frames of other pages are other frames. *)
Lemma loaded_apart k k' tick' : MkFrame k k' tick' ∈ frame_table s → k' ≠ pg → k ≠ kpage p.
Proof using Hi Hf.
  intros Hin Hne ->. apply Hne. assert (Hnd := i_kpages _ _ _ _ _ Hi).
  apply list_elem_of_lookup in Hin as [i Hin]. apply list_elem_of_lookup in Hf as [j Hj].
  assert (i = j).
  { eapply NoDup_lookup; [exact Hnd| |]; rewrite list_lookup_fmap; [by rewrite Hin|by rewrite Hj]. }
  subst j. rewrite Hin in Hj. by injection Hj.
Qed.

Lemma loaded_placed t' u' k' x' p' :
  page_of s' t' u' k' → threads s' !! t' = Some x' → pages s' !! k' = Some p' → placed None s' m' hs cs (pagedir x') k' p'.
Proof using Hi Hpo Hx Hp Hf Hmaps Hw.
  intros Hk'%loaded_same Hx' E. simpl in Hx'. rewrite loaded_pages in E. destruct loaded_upage as (Eu & Et & _). case_decide as Ek.
  - subst k'. destruct (page_of_inj _ _ _ _ _ _ _ _ _ _ Hi Hpo Hk') as [<- <-]. rewrite Hx in Hx'. injection Hx' as <-. injection E as <-.
    unfold placed. simpl. intros _. rewrite Eu, loaded_map. split_and!; [done|done|]. by exists tick.
  - assert (Hpl := i_place _ _ _ _ _ Hi _ _ _ _ _ Hk' Hx' E). destruct (i_page _ _ _ _ _ Hi _ _ _ Hk') as (p0 & E0 & Hu & _).
    rewrite E in E0. injection E0 as <-. unfold placed in *. rewrite Hu in *. rewrite (loaded_other _ _ _ _ Hk' Hx' Ek). destruct (present p') eqn:Epr; [|done|].
    + intros _. apply Hpl. congruence.
    + destruct Hpl. split; [|done]. unfold s'. simpl. by rewrite (Hw _ _ _ _ Hk' Ek E Epr).
Qed.

Lemma inv_loaded : inv None s' m' hs cs.
Proof using All.
  destruct loaded_upage as (Eu & Et & Huser). constructor.
  - done.
  - done.
  - done.
  - intros t' x' q Hx' Hq. rewrite Hdirs. by apply (i_thread _ _ _ _ _ Hi t').
  - intros t1 t2 x1 x2 q1 q2. apply (i_own _ _ _ _ _ Hi).
  - intros t' u' k' Hk'%loaded_same. destruct (i_page _ _ _ _ _ Hi _ _ _ Hk') as (p0 & E & E1 & E2 & ?).
    rewrite loaded_pages. case_decide; simplify_eq; eauto.
  - intros k' Hk'. assert (E := i_fresh _ _ _ _ _ Hi k' Hk'). rewrite loaded_pages. case_decide; simplify_eq. done.
  - apply loaded_placed.
  - done.
  - intros t' x' q u' Hx' Hq Hu Hn. assert (Hn' : ∀ k, ¬ page_of s t' u' k) by (intros k Hk; apply (Hn k); by apply loaded_same).
    rewrite (loaded_maps t' x' q u' Hx' Hq); [by apply (i_none _ _ _ _ _ Hi t' x' q)|].
    destruct (decide (t' = t)) as [->|]; [|by left]. right. intros ->. by apply (Hn' pg).
  - intros t1 u1 k1 t2 u2 k2 p1 p2 H1%loaded_same H2%loaded_same E1 E2 S1 S2. rewrite loaded_pages in E1, E2.
    destruct (decide (k1 = pg)); [by simplify_eq|]. destruct (decide (k2 = pg)); [by simplify_eq|].
    by apply (i_slot _ _ _ _ _ Hi t1 u1 k1 t2 u2 k2).
  - intros f Hin. destruct (loaded_frame f Hin) as [Hs Hk]. split; [done|]. split; [done|].
    destruct (i_frame _ _ _ _ _ Hi f Hin) as (_ & _ & t' & u' & p' & H1 & H2 & H3 & H4).
    rewrite loaded_pages. case_decide as E.
    + assert (p' = p) as -> by congruence. exists t', u', (set_present PRESENT_MEMORY p). split_and!; [by apply loaded_same|done..].
    + exists t', u', p'. split_and!; [by apply loaded_same|done|done|]. intros _. apply H4. congruence.
  - apply Hi.
  - apply Hi.
Qed.

Lemma loaded_contents t' u' k' : page_of s t' u' k' → k' ≠ pg → contents_of s' m' hs cs k' = contents_of s m hs cs k'.
Proof using Hi Hf Hframes Hw.
  intros Hk' Hne. unfold contents_of. rewrite loaded_pages, decide_False by done.
  destruct (pages s !! k') as [p'|] eqn:E; [|done]. simpl. do 2 f_equal. unfold content. destruct (present p') eqn:Epr; [|done|].
  - rewrite Hframes. assert (Hk := Hk'). destruct Hk as (x' & _ & _ & Hx' & _).
    assert (Hpl := i_place _ _ _ _ _ Hi _ _ _ _ _ Hk' Hx' E). unfold placed in Hpl. rewrite Epr in Hpl.
    destruct Hpl as (_ & _ & tick' & Hin); [congruence|]. rewrite lookup_insert_ne; [done|].
    apply not_eq_sym. by eapply loaded_apart.
  - unfold s'. simpl. by rewrite (Hw _ _ _ _ Hk' Hne E Epr).
Qed.

Lemma loaded_content : contents_of s' m' hs cs pg = Some (d, writable p).
Proof using Hframes. unfold contents_of. rewrite loaded_pages, decide_True by done. simpl. unfold content. simpl. by rewrite Hframes, lookup_insert_eq. Qed.
End loaded.

(** ** A frame for a page *)

(** [s'] is [s] with frame [k] given to the page [pg]. *)
Record given (s : vm H D F) (m : mmu) hs cs (pg : nat) (p : page) (k : Z) (s' : vm H D F) (m' : mmu) : Prop := MkGiven {
  g_inv : inv (Some pg) s' m' hs cs;
  g_lock : frame_lock s' = false;
  g_kept : kept s s';
  g_page : pages s' !! pg = Some (set_kpage k p);
  g_frame : ∃ tick, MkFrame k pg tick ∈ frame_table s';
  g_contents t u k' : page_of s t u k' → k' ≠ pg → contents_of s' m' hs cs k' = contents_of s m hs cs k';
  g_source : frame_source s m m' k
}.

Lemma vm_thread_current_ok (s : vm H D F) x : threads s !! current s = Some x → thread_current s = Ok (x, s).
Proof. intros E. unfold thread_current. erewrite run_bind_ok; [|reflexivity]. by apply run_deref. Qed.

Lemma page_frame_alloc_ok s m hs cs pg p u x :
  inv (Some pg) s m hs cs → frame_lock s = false → page_of s (current s) u pg → threads s !! current s = Some x →
  pages s !! pg = Some p → (∀ g, g ∈ frame_table s → f_page g ≠ pg) → mm_room (hw s) →
  (∃ k s1 m1 h, page_frame_alloc pg s = Ok (true, set_hw h s1) ∧ given s m hs cs pg p k s1 m1 ∧
     mm_rep h (map_at (pagedir x) u (λ _, Mapping (Some k) (writable p) false false) m1)) ∨
  (page_frame_alloc pg s = Err Panic ∧ exhausted s).
Proof.
  intros Hi Hl Hpo Hx Hp Hnf Hroom. unfold page_frame_alloc.
  destruct (i_page _ _ _ _ _ Hi _ _ _ Hpo) as (p0 & E & Hu & _ & [Hub Hual]). rewrite Hp in E. injection E as <-.
  assert (Hround : set_upage (pg_round_down (upage p)) p = p).
  { rewrite Hu, pg_round_down_div by (unfold in_u32, PHYS_BASE in *; lia).
    replace (PGSIZE * (u / PGSIZE)) with u by (rewrite PGSIZE_val in *; divlia). rewrite <- Hu. by destruct p. }
  assert (Hupd : upd_page pg (λ p, set_upage (pg_round_down (upage p)) p) s = Ok (tt, s)).
  { rewrite (upd_page_ok pg _ s p Hp), Hround, insert_id by done. by destruct s. }
  rewrite (run_bind_ok _ _ _ _ _ Hupd).
  destruct (falloc_ok s m hs cs pg p _ u Hi Hl Hpo Hp Hnf)
    as [(k & s1 & m1 & Hrun & Hk & Hi1 & Hl1 & Hkept & Hp1 & Hf1 & Hc1 & Hsrc & Hr1)|[Hrun Hex]]; cycle 1.
  { right. split; [by apply run_bind_err|done]. }
  left. rewrite (run_bind_ok _ _ _ _ _ Hrun), (run_bind_ok _ _ _ _ _ (vm_get_page_ok _ _ _ Hp1)).
  rewrite (proj2 (Z.eqb_neq k NULL) Hk). cbn [negb]. destruct Hkept as [Ht Hs Hc Hn Hpl Hfs Hh] eqn:EK. clear EK.
  assert (Hx1 : threads s1 !! current s1 = Some x) by (by rewrite Ht, Hc).
  assert (Hpo1 : page_of s1 (current s1) u pg) by (apply (page_of_same s s1); [done..|by rewrite Hc]).
  assert (Hhw := i_hw _ _ _ _ _ Hi1). assert (Hdir : pagedir x ∈ dirs m1).
  { destruct Hpo1 as (x' & q & spt & E & Hq & _). rewrite Hx1 in E. injection E as <-. by apply (i_thread _ _ _ _ _ Hi1 _ _ _ Hx1 Hq). }
  assert (Hnone := i_ex _ _ _ _ _ Hi1 _ _ _ _ Hpo1 Hx1 eq_refl).
  unfold install_page. rewrite (run_bind_ok _ _ _ _ _ (vm_thread_current_ok _ _ Hx1)).
  change (upage (set_kpage k p)) with (upage p). change (writable (set_kpage k p)) with (writable p). rewrite Hu.
  rewrite (run_bind_ok _ _ _ _ _ (on_hw_read _ s1 _ (mm_get_page _ _ _ _ Hhw Hdir (conj Hub Hual)))).
  rewrite Hnone. simpl (_ =? _). cbv iota. destruct Hf1 as [tick Hin].
  destruct (i_frame _ _ _ _ _ Hi1 _ Hin) as ([d Hd] & _). simpl in Hd.
  destruct (mm_set_page _ _ _ _ k (writable p) d Hhw Hdir (conj Hub Hual) Hd Hnone) as [[Hno _]|(h & Hset & Hrep)]; [tauto|].
  exists k, s1, m1, h. split; [by apply on_hw_ok|]. split; [|done]. constructor; eauto.
Qed.

(** A page that is about to be loaded. *)
Lemma inv_absent s m hs cs pg p t u x :
  inv None s m hs cs → page_of s t u pg → threads s !! t = Some x → pages s !! pg = Some p → present p ≠ PRESENT_MEMORY →
  inv (Some pg) s m hs cs ∧ ∀ g, g ∈ frame_table s → f_page g ≠ pg.
Proof.
  intros Hi Hpo Hx Hp Hpr. split.
  - destruct Hi as [? ? ? ? ? Hpage ? Hpl ? ? ? Hfr ? ?] eqn:E. clear E. constructor; try done.
    + intros t' u' k' x' p' Hk' Hx' Hp'. specialize (Hpl t' u' k' x' p' Hk' Hx' Hp'). unfold placed in *.
      destruct (present p'); try done. intros _. by apply Hpl.
    + intros t' u' k' x' Hk' Hx' [= <-]. destruct (page_of_inj _ _ _ _ _ _ _ _ _ _ Hi Hpo Hk') as [<- <-].
      destruct (Hpage _ _ _ Hpo) as (p0 & ? & <- & _). simplify_eq.
      specialize (Hpl _ _ _ _ _ Hpo Hx Hp). unfold placed in Hpl. destruct (present p); [done|by destruct Hpl..].
    + intros f Hf. destruct (Hfr f Hf) as (? & ? & t' & u' & p' & ? & ? & ? & Hm). split_and!; try done.
      exists t', u', p'. split_and!; try done. intros _. by apply Hm.
  - intros g Hg E. destruct (i_frame _ _ _ _ _ Hi g Hg) as (_ & _ & _ & _ & p' & _ & Hp' & _ & Hm).
    rewrite E, Hp in Hp'. injection Hp' as <-. apply Hpr, Hm. done.
Qed.

Lemma patch_all bs d : length d = length bs → patch 0 bs d = bs.
Proof. intros E. unfold patch. simpl. rewrite drop_ge by lia. by rewrite app_nil_r. Qed.

Lemma patch_two a b d : length d = (length a + length b)%nat → patch (length a) b (patch 0 a d) = a ++ b.
Proof.
  intros E. unfold patch. simpl. rewrite take_app_length. f_equal. rewrite <- drop_drop, drop_app_length.
  rewrite drop_ge; [apply app_nil_r|]. rewrite length_drop. lia.
Qed.

(** ** The page is loaded and nothing else has changed *)
Record restored (s : vm H D F) (m : mmu) hs cs (x : uthread) (u : Z) (s' : vm H D F) (m' : mmu) : Prop := MkRestored {
  r_inv : inv None s' m' hs cs;
  r_space t v : space s' m' hs cs t v = space s m hs cs t v;
  r_threads : threads s' = threads s;
  r_spts : spts s' = spts s;
  r_current : current s' = current s;
  r_lock : frame_lock s' = false;
  r_page_lock : page_lock s' = page_lock s;
  r_mapped : ∃ k d w, maps m' (pagedir x) u = Mapping (Some k) w false false ∧ frames m' !! k = Some d ∧
               space s m hs cs (current s) u = Some (d, w)
}.

(** The common end of both ways to load a page. *)
Lemma load_finish s m hs cs pg p k s1 m1 m' u x d h w fs :
  inv (Some pg) s m hs cs → given s m hs cs pg p k s1 m1 →
  page_of s (current s) u pg → threads s !! current s = Some x → pages s !! pg = Some p →
  dirs m' = dirs m1 → maps m' = maps (map_at (pagedir x) u (λ _, Mapping (Some k) (writable p) false false) m1) →
  frames m' = <[k := d]> (frames m1) → kdirty m1 ⊆ kdirty m' → mm_rep h m' → swap_ok w → pf_rep fs hs cs →
  (∀ t' u' k' p', page_of s1 t' u' k' → k' ≠ pg → pages s1 !! k' = Some p' → present p' = PRESENT_SWAP →
     held w (swap_page p') = held (swp s1) (swap_page p')) →
  content s m hs cs p = d →
  restored s m hs cs x u (loaded h w fs pg (set_kpage k p) s1) m'.
Proof.
  intros Hi [Hi1 Hl1 Hkept Hp1 [tick Hin] Hc1 _] Hpo Hx Hp Hdirs Hmaps Hfr Hkd Hrep Hwok Hfs Hw Hcont.
  destruct Hkept as [Ht Hs Hcur Hn Hpl Hfs1 Hh].
  assert (Hpo1 : page_of s1 (current s) u pg) by (by apply (page_of_same s s1)).
  assert (Hx1 : threads s1 !! current s = Some x) by (by rewrite Ht).
  constructor; try done.
  - eapply (inv_loaded s1 m1 m' hs cs pg (set_kpage k p) (current s) u tick x d); done.
  - intros t v. apply space_ext; [done..|]. intros k' Hk'. destruct (decide (k' = pg)) as [->|Hne].
    + rewrite (loaded_content s1 m1 m' hs cs pg (set_kpage k p) d h w fs Hfr). unfold contents_of. rewrite Hp. simpl. by rewrite Hcont.
    + rewrite <- (Hc1 t v k' Hk' Hne).
      eapply (loaded_contents s1 m1 m' hs cs pg (set_kpage k p) tick d h w fs Hi1 Hin Hfr Hw); [|done].
      by apply (page_of_same s s1).
  - exists k, d, (writable p). split; [|split].
    + rewrite Hmaps. simpl. by rewrite !Z.eqb_refl.
    + rewrite Hfr. apply lookup_insert_eq.
    + rewrite (space_page_of _ _ _ _ _ _ _ Hpo). unfold contents_of. rewrite Hp. simpl. by rewrite Hcont.
Qed.

Lemma load_page_from_swap_ok s m hs cs pg p u x :
  inv None s m hs cs → frame_lock s = false → page_of s (current s) u pg → threads s !! current s = Some x →
  pages s !! pg = Some p → present p = PRESENT_SWAP → mm_room (hw s) →
  (∃ s' m', load_page_from_swap pg s = Ok (true, s') ∧ restored s m hs cs x u s' m') ∨
  (load_page_from_swap pg s = Err Panic ∧ exhausted s).
Proof.
  intros Hi0 Hl Hpo Hx Hp Hpr Hroom. destruct (inv_absent s m hs cs pg p _ u x Hi0 Hpo Hx Hp ltac:(congruence)) as [Hi Hnf].
  unfold load_page_from_swap. rewrite (run_bind_ok _ _ _ _ _ (vm_get_page_ok _ _ _ Hp)).
  run_assert; [|by apply bool_decide_eq_true].
  destruct (page_frame_alloc_ok s m hs cs pg p u x Hi Hl Hpo Hx Hp Hnf Hroom) as [(k & s1 & m1 & h & Hrun & Hg & Hrep)|[Hrun Hex]]; cycle 1.
  { right. split; [by apply run_bind_err|done]. }
  left. rewrite (run_bind_ok _ _ _ _ _ Hrun). cbn [negb]. assert (Hg' := Hg).
  destruct Hg as [Hi1 Hl1 Hkept Hp1 [tick Hin] Hc1 _].
  rewrite (run_bind_ok _ _ _ _ _ (vm_get_page_ok _ (set_hw h s1) _ Hp1)).
  assert (Hpl := i_place _ _ _ _ _ Hi0 _ _ _ _ _ Hpo Hx Hp). unfold placed in Hpl. rewrite Hpr in Hpl. destruct Hpl as [[d Hd] _].
  assert (Hd1 : held (swp s1) (swap_page p) = Some d) by (rewrite (k_held _ _ Hkept); [done|by exists d]).
  assert (Hsw1 := i_swap _ _ _ _ _ Hi1). assert (Hlen := held_length _ _ _ Hsw1 Hd1).
  destruct (swap_in_ok _ _ _ Hsw1 Hd1) as (w2 & Hswap & Hwok & _ & Hw2).
  apply run_bind_inv in Hswap as (d' & w1 & Hrd & Hswap). apply run_bind_inv in Hswap as ([] & w2' & Hfr & [= -> ->]).
  change (swap_page (set_kpage k p)) with (swap_page p). change (kpage (set_kpage k p)) with k.
  rewrite (run_bind_ok _ _ _ _ _ (run_zoom_ok swp set_swp _ (set_hw h s1) _ _ Hrd)).
  destruct (i_frame _ _ _ _ _ Hi1 _ Hin) as ([d0 Hd0] & _). simpl in Hd0.
  destruct (mm_frame_wf _ _ _ _ (i_hw _ _ _ _ _ Hi1) Hd0) as [Hlen0 _].
  destruct (mm_write _ _ k d0 0 d Hrep Hd0 ltac:(lia)) as (h2 & Hwr & Hrep2 & _); [rewrite Hlen, PGSIZE_val; unfold Swap.PGSIZE_nat; lia|].
  rewrite (run_bind_ok _ _ _ _ _ (on_hw_ok _ (set_swp w1 (set_hw h s1)) tt h2 Hwr)).
  rewrite (run_bind_ok _ _ _ _ _ (run_zoom_ok swp set_swp _ (set_hw h2 (set_swp w1 (set_hw h s1))) _ _ Hfr)).
  rewrite (run_bind_ok _ _ _ _ _ (upd_page_ok pg _ (set_swp w2 (set_hw h2 (set_swp w1 (set_hw h s1)))) _ Hp1)).
  eexists _, (kernel_write _ _ _). split; [reflexivity|].
  eapply (load_finish s m hs cs pg p k s1 m1 _ u x d h2 w2 (fsys s1) Hi Hg' Hpo Hx Hp);
    [| | | |exact Hrep2|exact Hwok|apply Hi1| |]; try reflexivity.
  - simpl. f_equal. apply patch_all. by rewrite Hlen, Hlen0.
  - apply union_subseteq_r.
  - intros t' u' k' p' Hk' Hne Hp' Hpr'. rewrite Hw2. destruct (Z.eqb_spec (swap_page p') (swap_page p)) as [E|]; [|done].
    destruct Hne. assert (Hpo1 : page_of s1 (current s) u pg) by (by apply (page_of_same s s1); [apply Hkept..|]).
    by apply (i_slot _ _ _ _ _ Hi1 t' u' k' (current s) u pg p' (set_kpage k p)).
  - unfold content. by rewrite Hpr, Hd.
Qed.

Lemma load_page_from_filesys_ok s m hs cs pg p u x :
  inv None s m hs cs → frame_lock s = false → page_of s (current s) u pg → threads s !! current s = Some x →
  pages s !! pg = Some p → present p = PRESENT_FILESYS → mm_room (hw s) →
  (∃ s' m', load_page_from_filesys pg s = Ok (true, s') ∧ restored s m hs cs x u s' m') ∨
  (load_page_from_filesys pg s = Err Panic ∧ exhausted s).
Proof.
  intros Hi0 Hl Hpo Hx Hp Hpr Hroom. destruct (inv_absent s m hs cs pg p _ u x Hi0 Hpo Hx Hp ltac:(congruence)) as [Hi Hnf].
  unfold load_page_from_filesys. rewrite (run_bind_ok _ _ _ _ _ (vm_get_page_ok _ _ _ Hp)).
  run_assert; [|by apply bool_decide_eq_true].
  destruct (page_frame_alloc_ok s m hs cs pg p u x Hi Hl Hpo Hx Hp Hnf Hroom) as [(k & s1 & m1 & h & Hrun & Hg & Hrep)|[Hrun Hex]]; cycle 1.
  { right. split; [by apply run_bind_err|done]. }
  left. rewrite (run_bind_ok _ _ _ _ _ Hrun). cbn [negb]. assert (Hg' := Hg).
  destruct Hg as [Hi1 Hl1 Hkept Hp1 [tick Hin] Hc1 _].
  rewrite (run_bind_ok _ _ _ _ _ (vm_get_page_ok _ (set_hw h s1) _ Hp1)).
  assert (Hpl := i_place _ _ _ _ _ Hi0 _ _ _ _ _ Hpo Hx Hp). unfold placed in Hpl. rewrite Hpr in Hpl.
  destruct Hpl as [(f & sec & Ef & Hsec & Ho & Hrb & Hzb & Hsum & Hfit & Hlim) _]. rewrite PGSIZE_val in Hsum.
  change (p_file (set_kpage k p)) with (p_file p). rewrite Ef.
  change (ofs (set_kpage k p)) with (ofs p). change (kpage (set_kpage k p)) with k.
  change (read_bytes (set_kpage k p)) with (read_bytes p). change (zero_bytes (set_kpage k p)) with (zero_bytes p).
  rewrite (s32_id (read_bytes p)) by (unfold in_s32; lia).
  destruct (pf_read _ _ _ f sec (ofs p) (read_bytes p) (i_fs _ _ _ _ _ Hi1) Hsec Ho Hrb Hfit Hlim) as (f1 & f2 & Hseek & Hread & Hfs).
  set (bs := take _ (drop _ (cs sec))) in Hread.
  assert (Hbs : length bs = Z.to_nat (read_bytes p)) by (unfold bs; rewrite length_take, length_drop; lia).
  rewrite (run_bind_ok _ _ _ _ _ (run_zoom_ok fsys set_fsys _ (set_hw h s1) _ _ Hseek)).
  rewrite (run_bind_ok _ _ _ _ _ (run_zoom_ok fsys set_fsys _ (set_fsys f1 (set_hw h s1)) _ _ Hread)).
  destruct (i_frame _ _ _ _ _ Hi1 _ Hin) as ([d0 Hd0] & _). simpl in Hd0.
  destruct (mm_frame_wf _ _ _ _ (i_hw _ _ _ _ _ Hi1) Hd0) as [Hlen0 _]. unfold Mmu.PGSIZE_nat in Hlen0.
  destruct (mm_write _ _ k d0 0 bs Hrep Hd0 ltac:(lia)) as (h2 & Hwr & Hrep2 & _); [rewrite PGSIZE_val; lia|].
  rewrite (run_bind_ok _ _ _ _ _ (on_hw_ok _ (set_fsys f2 (set_fsys f1 (set_hw h s1))) tt h2 Hwr)).
  rewrite Hbs, Z2Nat.id, Z.eqb_refl by lia. cbn [negb].
  destruct (mm_write _ _ k _ (read_bytes p) (replicate (Z.to_nat (zero_bytes p)) 0) Hrep2 (lookup_insert_eq _ _ _) Hrb)
    as (h3 & Hwr3 & Hrep3 & _); [rewrite length_replicate, PGSIZE_val; lia|].
  rewrite (run_bind_ok _ _ _ _ _ (on_hw_ok _ (set_hw h2 (set_fsys f2 (set_fsys f1 (set_hw h s1)))) tt h3 Hwr3)).
  rewrite (run_bind_ok _ _ _ _ _ (upd_page_ok pg _ (set_hw h3 (set_hw h2 (set_fsys f2 (set_fsys f1 (set_hw h s1))))) _ Hp1)).
  eexists _, (kernel_write _ _ _). split; [reflexivity|].
  eapply (load_finish s m hs cs pg p k s1 m1 _ u x (bs ++ replicate (Z.to_nat (zero_bytes p)) 0) h3 (swp s1) f2 Hi Hg' Hpo Hx Hp);
    [| | | |exact Hrep3|apply Hi1|exact Hfs| |]; try reflexivity; try done.
  - cbn [frames kernel_write map_at]. rewrite insert_insert_eq. f_equal. rewrite <- Hbs. apply patch_two. rewrite length_replicate. lia.
  - cbn [kdirty kernel_write map_at]. etrans; apply union_subseteq_r.
  - unfold content, file_bytes. rewrite Hpr, Ef. simpl. by rewrite Hsec.
Qed.

(** The address is in a page of the current thread that is not in memory. *)
Lemma load_page_into_frame_ok s m hs cs a pg p x :
  inv None s m hs cs → frame_lock s = false → page_lock s = false → threads s !! current s = Some x →
  page_of s (current s) (pg_round_down a) pg → pages s !! pg = Some p → present p ≠ PRESENT_MEMORY → mm_room (hw s) →
  (∃ s' m', load_page_into_frame a s = Ok (true, s') ∧ restored s m hs cs x (pg_round_down a) s' m') ∨
  (load_page_into_frame a s = Err Panic ∧ exhausted s).
Proof.
  intros Hi Hl Hpl Hx Hpo Hp Hpr Hroom. unfold load_page_into_frame, acquire_page.
  erewrite run_bind_ok; [|erewrite run_bind_ok; [|reflexivity]; run_assert; [reflexivity|by rewrite Hpl]].
  set (s0 := set_page_lock true s). assert (Hpo' := Hpo). destruct Hpo' as (x' & q & spt & Hx' & Hq & Hspt & Hk).
  rewrite Hx in Hx'. injection Hx' as <-.
  assert (Hlook : page_lookup a s0 = Ok (Some pg, s0)).
  { unfold page_lookup. rewrite (run_bind_ok _ _ _ _ _ (vm_thread_current_ok s0 x Hx)). erewrite run_bind_ok; [|reflexivity].
    rewrite Hq. erewrite run_bind_ok; [|by apply run_deref]. by rewrite Hk. }
  rewrite (run_bind_ok _ _ _ _ _ Hlook). assert (Hi' : inv None s0 m hs cs) by (by destruct Hi; constructor).
  assert (Hor : (∃ s' m', match present p with PRESENT_FILESYS => load_page_from_filesys pg | PRESENT_SWAP => load_page_from_swap pg
                         | PRESENT_MEMORY => mret false end s0 = Ok (true, s') ∧ restored s0 m hs cs x (pg_round_down a) s' m') ∨
                (match present p with PRESENT_FILESYS => load_page_from_filesys pg | PRESENT_SWAP => load_page_from_swap pg
                         | PRESENT_MEMORY => mret false end s0 = Err Panic ∧ exhausted s0)).
  { destruct (present p) eqn:E; [done| |]; [eapply load_page_from_filesys_ok|eapply load_page_from_swap_ok]; done. }
  destruct Hor as [(s' & m' & Hrun & [R1 R2 R3 R4 R5 R6 R7 R8])|[Hrun Hex]]; [left|right].
  - exists (set_page_lock false s'), m'. split.
    + erewrite run_bind_ok; [|rewrite (run_bind_ok _ _ _ _ _ (vm_get_page_ok pg s0 p Hp)); exact Hrun].
      unfold release_page. erewrite run_bind_ok; [reflexivity|]. erewrite run_bind_ok; [|reflexivity].
      run_assert; [reflexivity|]. rewrite R7. done.
    + constructor; try done. by destruct R1; constructor.
  - split; [|done]. apply run_bind_err. rewrite (run_bind_ok _ _ _ _ _ (vm_get_page_ok pg s0 p Hp)). exact Hrun.
Qed.
End load.
End VmLoad.
