(* ===== verification/VmStack.v ===== *)
(** * New pages: the stack and lazily loaded segments *)
From S2P Require Import Prelude CInt Palloc Pagedir PagedirSpec Mmu Block Swap Vm VmFalloc VmLoad.

Open Scope Z_scope.

Module VmStack.
Import Palloc (NULL, PAL_USER, PAL_ZERO).
Import Swap Vm VmInv VmEvict VmFalloc VmLoad.

Section stack.
Context {H D F : Type} `{!Mmu H, !BlockDriver D, !PageFiles F}.

(** ** A change of a thread's own fields *)
Section thread.
Context (s : vm H D F) (m : mmu) (hs : gmap nat Z) (cs : Z → list Z) (t : Z) (x x' : uthread).
Context (Hx : threads s !! t = Some x) (Hpd : pagedir x' = pagedir x) (Hpr : process x' = process x).
Let s' := set_threads (<[t := x']> (threads s)) s.

Lemma thread_lookup t0 y : threads s' !! t0 = Some y →
  ∃ y0, threads s !! t0 = Some y0 ∧ pagedir y = pagedir y0 ∧ process y = process y0.
Proof using Hx Hpd Hpr.
  simpl. destruct (decide (t0 = t)) as [->|]; [rewrite lookup_insert_eq; intros [= <-]; by exists x|].
  rewrite lookup_insert_ne by done. eauto.
Qed.

Lemma thread_page_of t0 u k : page_of s' t0 u k ↔ page_of s t0 u k.
Proof using Hx Hpd Hpr.
  split.
  - intros (y & q & spt & Hy & Hq & ? & ?). destruct (thread_lookup _ _ Hy) as (y0 & ? & _ & Hq'). exists y0, q, spt. by rewrite <- Hq'.
  - intros (y & q & spt & Hy & Hq & ? & ?). destruct (decide (t0 = t)) as [->|].
    + rewrite Hx in Hy. injection Hy as <-. exists x', q, spt. simpl. rewrite lookup_insert_eq, Hpr. done.
    + exists y, q, spt. simpl. by rewrite lookup_insert_ne.
Qed.

Lemma inv_thread ex : inv ex s m hs cs → inv ex s' m hs cs.
Proof using Hx Hpd Hpr.
  intros [? ? ? Ht Ho Hp ? Hpl Hex Hno Hsl Hfr ? ?]. constructor; try done.
  - intros t0 y q (y0 & ? & -> & ->)%thread_lookup Hq. by eapply Ht.
  - intros t1 t2 y1 y2 q1 q2 (z1 & ? & -> & ->)%thread_lookup (z2 & ? & -> & ->)%thread_lookup. by apply Ho.
  - intros t0 u k Hk%thread_page_of. by apply Hp.
  - intros t0 u k y p Hk%thread_page_of (y0 & ? & -> & _)%thread_lookup E. exact (Hpl t0 u k y0 p Hk ltac:(done) E).
  - intros t0 u k y Hk%thread_page_of (y0 & ? & -> & _)%thread_lookup. by apply (Hex t0 u k y0).
  - intros t0 y q u (y0 & ? & -> & ->)%thread_lookup Hq Hu Hn. apply (Hno t0 y0 q u); try done.
    intros k Hk. apply (Hn k). by apply thread_page_of.
  - intros t1 u1 k1 t2 u2 k2 p1 p2 H1%thread_page_of H2%thread_page_of. by apply Hsl with t1 u1 t2 u2.
  - intros f Hf. destruct (Hfr f Hf) as (? & ? & t0 & u & p & Hk & ?). split_and!; [done..|]. exists t0, u, p.
    split; [by apply thread_page_of|done].
Qed.

Lemma space_thread t0 u : space s' m hs cs t0 u = space s m hs cs t0 u.
Proof using Hx Hpd Hpr.
  unfold space. simpl. destruct (decide (t0 = t)) as [->|]; [|by rewrite lookup_insert_ne].
  rewrite lookup_insert_eq, Hx. simpl. by rewrite Hpr.
Qed.
End thread.

(** ** A new page in the supplemental page table *)
Definition added (q : nat) (spt : gmap Z nat) (p : page) (s : vm H D F) : vm H D F :=
  set_spts (<[q := <[upage p := next_key s]> spt]> (spts s))
    (set_next_key (S (next_key s)) (set_pages (<[next_key s := p]> (pages s)) s)).

Section added.
Context (s : vm H D F) (m : mmu) (hs : gmap nat Z) (cs : Z → list Z) (ex : option nat).
Context (t : Z) (x : uthread) (q : nat) (spt : gmap Z nat) (p : page).
Context (Hi : inv None s m hs cs) (Hx : threads s !! t = Some x) (Hq : process x = Some q) (Hspt : spts s !! q = Some spt).
Context (Htid : tid p = t) (Hu : user_page (upage p)) (Hnew : spt !! upage p = None).
Context (Hex : ex = None ∨ ex = Some (next_key s)).
Context (Hplace : m_page (maps m (pagedir x) (upage p)) = None → placed ex s m hs cs (pagedir x) (next_key s) p).
Context (Hnswap : present p ≠ PRESENT_SWAP).
Let s' := added q spt p s.

Lemma added_page_of t0 u k : page_of s' t0 u k ↔ page_of s t0 u k ∨ (t0 = t ∧ u = upage p ∧ k = next_key s).
Proof using Hi Hx Hq Hspt Hnew Htid.
  unfold s', page_of. simpl. split.
  - intros (y & q0 & spt0 & Hy & Hq0 & Hs0 & Hk). destruct (decide (q0 = q)) as [->|].
    + rewrite lookup_insert_eq in Hs0. injection Hs0 as <-.
      assert (t0 = t) as -> by (eapply (i_own _ _ _ _ _ Hi); eauto).
      destruct (decide (u = upage p)) as [->|]; [rewrite lookup_insert_eq in Hk; right; naive_solver|].
      rewrite lookup_insert_ne in Hk by done. left. by exists y, q, spt.
    + rewrite lookup_insert_ne in Hs0 by done. left. by exists y, q0, spt0.
  - intros [(y & q0 & spt0 & Hy & Hq0 & Hs0 & Hk)|(-> & -> & ->)].
    + destruct (decide (q0 = q)) as [->|].
      * exists y, q, (<[upage p:=next_key s]> spt). rewrite lookup_insert_eq. rewrite Hspt in Hs0. injection Hs0 as <-.
        rewrite lookup_insert_ne by (intros E; rewrite E, Hk in Hnew; done). done.
      * exists y, q0, spt0. by rewrite lookup_insert_ne.
    + exists x, q, (<[upage p:=next_key s]> spt). by rewrite !lookup_insert_eq.
Qed.

Lemma added_old t0 u k : page_of s t0 u k → k ≠ next_key s.
Proof using Hi.
  intros Hk E. destruct (i_page _ _ _ _ _ Hi _ _ _ Hk) as (p0 & Hp0 & _).
  rewrite (i_fresh _ _ _ _ _ Hi k) in Hp0; [done|]. by rewrite E.
Qed.

Lemma added_unmapped : m_page (maps m (pagedir x) (upage p)) = None.
Proof using Hi Hx Hq Hspt Hu Hnew Htid.
  apply (i_none _ _ _ _ _ Hi t x q); [done..|]. intros k (x' & q' & spt' & ? & ? & ? & Hk). by simplify_eq.
Qed.

Lemma added_other t0 u k p0 : page_of s t0 u k → pages s' !! k = Some p0 → pages s !! k = Some p0.
Proof using Hi. intros Hk%added_old E. unfold s' in E. simpl in E. by rewrite lookup_insert_ne in E. Qed.

Lemma inv_added : inv ex s' m hs cs.
Proof using All.
  assert (Hnk : ∀ t0 u k, page_of s t0 u k → ex ≠ Some k).
  { intros t0 u k Hk E. apply (added_old _ _ _ Hk). destruct Hex as [-> | ->]; [done|by injection E]. }
  constructor.
  - apply Hi.
  - apply Hi.
  - apply Hi.
  - intros t0 y q0 Hy Hq0. destruct (i_thread _ _ _ _ _ Hi t0 y q0 Hy Hq0). split; [done|]. unfold s'. simpl.
    destruct (decide (q0 = q)) as [->|]; [by rewrite lookup_insert_eq|by rewrite lookup_insert_ne].
  - apply Hi.
  - intros t0 u k [Hk|(-> & -> & ->)]%added_page_of.
    + destruct (i_page _ _ _ _ _ Hi _ _ _ Hk) as (p0 & ? & ?). exists p0. unfold s'. simpl.
      rewrite lookup_insert_ne; [done|]. apply not_eq_sym. by eapply added_old.
    + exists p. unfold s'. simpl. by rewrite lookup_insert_eq.
  - intros k Hk. unfold s' in *. simpl in *. rewrite lookup_insert_ne by lia. apply (i_fresh _ _ _ _ _ Hi). lia.
  - intros t0 u k y p0 [Hk|(-> & -> & ->)]%added_page_of Hy E.
    + assert (Hpl := i_place _ _ _ _ _ Hi _ _ _ _ _ Hk Hy (added_other _ _ _ _ Hk E)). unfold placed in *.
      destruct (present p0); try done. intros _. by apply Hpl.
    + unfold s' in E, Hy. simpl in E, Hy. rewrite lookup_insert_eq in E. injection E as <-. rewrite Hx in Hy. injection Hy as <-.
      exact (Hplace added_unmapped).
  - intros t0 u k y [Hk|(-> & -> & ->)]%added_page_of Hy E; [by destruct (Hnk _ _ _ Hk)|].
    unfold s' in Hy. simpl in Hy. rewrite Hx in Hy. injection Hy as <-. exact added_unmapped.
  - intros t0 y q0 u Hy Hq0 Huu Hn. apply (i_none _ _ _ _ _ Hi t0 y q0 u Hy Hq0 Huu). intros k Hk. apply (Hn k), added_page_of. by left.
  - intros t1 u1 k1 t2 u2 k2 p1 p2 [H1|(-> & -> & ->)]%added_page_of [H2|(-> & -> & ->)]%added_page_of E1 E2 S1 S2; [| | |done].
    + eapply (i_slot _ _ _ _ _ Hi t1 u1 k1 t2 u2 k2); eauto using added_other.
    + unfold s' in E2. simpl in E2. rewrite lookup_insert_eq in E2. by injection E2 as <-.
    + unfold s' in E1. simpl in E1. rewrite lookup_insert_eq in E1. by injection E1 as <-.
  - intros f Hf. destruct (i_frame _ _ _ _ _ Hi f Hf) as (? & ? & t0 & u & p0 & Hk & ? & ? & Hm). split_and!; [done..|].
    exists t0, u, p0. split_and!; [apply added_page_of; by left| |done|intros _; by apply Hm].
    unfold s'. simpl. rewrite lookup_insert_ne; [done|]. apply not_eq_sym. by eapply added_old.
  - apply Hi.
  - apply Hi.
Qed.

Lemma space_added t0 u : (t0 = t → u ≠ upage p) → space s' m hs cs t0 u = space s m hs cs t0 u.
Proof using Hi Hx Hq Hspt Hnew Htid.
  intros Hne. destruct (page_of_dec s t0 u) as [(k & Hk)|Hn].
  - rewrite (space_page_of s _ _ _ _ _ _ Hk), (space_page_of s' _ _ _ _ _ k) by (apply added_page_of; by left).
    unfold contents_of, s'. simpl. rewrite lookup_insert_ne; [done|]. apply not_eq_sym. by eapply added_old.
  - rewrite !space_none; [done|done|]. intros k [Hk|(-> & -> & _)]%added_page_of; [by apply (Hn k)|by apply Hne].
Qed.
End added.

(** ** The two ways to add a page *)
Section run.
Context (junk : page).

Definition allocated (s : vm H D F) : vm H D F :=
  set_next_key (S (next_key s)) (set_pages (<[next_key s := junk]> (pages s)) s).

Lemma vm_new_page_ok s : new_page junk s = Ok (next_key s, allocated s).
Proof. done. Qed.

(** The record is filled in and entered in the table. *)
Lemma fill_page_ok s x q spt p (f : page → page) :
  threads s !! current s = Some x → process x = Some q → spts s !! q = Some spt → spt !! upage p = None → f junk = p →
  ∃ s2, upd_page (next_key s) f (allocated s) = Ok (tt, s2) ∧ page_add_spage_table (next_key s) s2 = Ok (tt, added q spt p s).
Proof.
  intros Hx Hq Hspt Hnew <-. eexists. split; [apply upd_page_ok, lookup_insert_eq|].
  set (s2 := set_pages _ (allocated s)).
  assert (Hp2 : pages s2 !! next_key s = Some (f junk)) by apply lookup_insert_eq.
  unfold page_add_spage_table. rewrite (run_bind_ok _ _ _ _ _ (vm_thread_current_ok s2 x Hx)), Hq.
  rewrite (run_bind_ok _ _ _ _ _ (vm_get_page_ok _ _ _ Hp2)). erewrite run_bind_ok; [|reflexivity].
  erewrite run_bind_ok; [|by apply run_deref]. rewrite Hnew. unfold modify. do 2 f_equal.
  unfold s2, allocated, added, set_spts, set_pages, set_next_key. simpl. f_equal. apply insert_insert_eq.
Qed.

(** The bottom of a thread's stack. *)
Definition bottom (x : uthread) : Z := PHYS_BASE - stack_pages x * PGSIZE.
Definition grown (x : uthread) : uthread := MkThread (pagedir x) (esp x) (stack_pages x + 1) (process x).
Definition stack_ok (x : uthread) : Prop := 0 ≤ stack_pages x ∧ stack_pages x * PGSIZE ≤ MAX_STACK_SIZE.

Lemma get_stack_bottom_ok (s : vm H D F) x : threads s !! current s = Some x → stack_ok x → get_stack_bottom s = Ok (bottom x, s).
Proof.
  intros Hx [H0 H1]. unfold get_stack_bottom. rewrite (run_bind_ok _ _ _ _ _ (vm_thread_current_ok s x Hx)).
  unfold mret, ST_ret, bottom, PHYS_BASE, MAX_STACK_SIZE in *. rewrite PGSIZE_val in *.
  rewrite (u32_id (stack_pages x * 4096)), u32_id by (unfold in_u32; lia). done.
Qed.

(** What a new stack page holds: zeros in a new frame, and what the frame held
    before if it was taken from another page. *)
Definition stack_bytes (s : vm H D F) (m : mmu) (d : list Z) : Prop :=
  (d = replicate Mmu.PGSIZE_nat 0 ∧ ∃ k h, palloc_get_page USER_ZERO (hw s) = Ok (k, h) ∧ k ≠ NULL) ∨
  (palloc_get_page USER_ZERO (hw s) = Ok (NULL, hw s) ∧
   ∃ i f, lru (frame_table s) i f ∧ frames m !! f_kpage f = Some d).

Record stack_grown (s : vm H D F) (m : mmu) hs cs (x : uthread) (d : list Z) (s' : vm H D F) (m' : mmu) : Prop := MkGrown {
  sg_inv : inv None s' m' hs cs;
  sg_threads : threads s' = <[current s := grown x]> (threads s);
  sg_current : current s' = current s;
  sg_locks : frame_lock s' = false ∧ page_lock s' = false;
  sg_space t v : space s' m' hs cs t v =
    if (t =? current s) && (v =? bottom x - PGSIZE) then Some (d, true) else space s m hs cs t v;
  sg_mapped : ∃ k, maps m' (pagedir x) (bottom x - PGSIZE) = Mapping (Some k) true false false ∧ frames m' !! k = Some d;
  sg_bytes : stack_bytes s m d
}.

Lemma stack_page_alloc_ok s m hs cs x q :
  inv None s m hs cs → frame_lock s = false → page_lock s = false → threads s !! current s = Some x → process x = Some q →
  stack_ok x → stack_ok (grown x) → (∀ k, ¬ page_of s (current s) (bottom x - PGSIZE) k) → mm_room (hw s) →
  (∃ d s' m', stack_page_alloc junk s = Ok (bottom x - PGSIZE, s') ∧ stack_grown s m hs cs x d s' m') ∨
  (stack_page_alloc junk s = Err Panic ∧ exhausted s).
Proof.
  intros Hi Hl Hpl Hx Hq Hst Hst' Hnew Hroom. set (u := bottom x - PGSIZE) in *.
  assert (Hub : user_page u).
  { destruct Hst, Hst' as [_ Hst']. unfold user_page, u, bottom, grown, MAX_STACK_SIZE, PHYS_BASE in *. simpl in *. rewrite PGSIZE_val in *. split; [lia|divlia]. }
  unfold stack_page_alloc, acquire_page.
  erewrite run_bind_ok; [|erewrite run_bind_ok; [|reflexivity]; run_assert; [reflexivity|by rewrite Hpl]].
  set (s0 := set_page_lock true s). rewrite (run_bind_ok _ _ _ _ _ (vm_new_page_ok s0)).
  rewrite (run_bind_ok _ _ _ _ _ (get_stack_bottom_ok (allocated s0) x Hx Hst)). erewrite run_bind_ok; [|reflexivity].
  destruct (i_thread _ _ _ _ _ Hi _ _ _ Hx Hq) as [Hdir [spt Hspt]].
  assert (Hfree : spt !! u = None).
  { destruct (spt !! u) as [k|] eqn:E; [|done]. destruct (Hnew k). by exists x, q, spt. }
  rewrite (u32_id (bottom x - PGSIZE)) by (destruct Hub; unfold in_u32, u, PHYS_BASE in *; lia). fold u.
  set (p := MkPage u (kpage junk) PRESENT_MEMORY true (current s) (p_file junk) (ofs junk) (read_bytes junk) (zero_bytes junk) (swap_page junk)).
  destruct (fill_page_ok s0 x q spt p (λ p, MkPage u (kpage p) PRESENT_MEMORY true (current s) (p_file p) (ofs p)
              (read_bytes p) (zero_bytes p) (swap_page p)) Hx Hq Hspt Hfree eq_refl) as (s2 & Hfill & Hadd).
  change (current (allocated s0)) with (current s).
  rewrite (run_bind_ok _ _ _ _ _ Hfill), (run_bind_ok _ _ _ _ _ Hadd). set (s3 := added q spt p s0).
  assert (Hi0 : inv None s0 m hs cs) by (by destruct Hi; constructor).
  assert (Hi3 : inv (Some (next_key s)) s3 m hs cs).
  { apply (inv_added s0 m hs cs _ (current s) x q spt p); try done; by right. }
  assert (Hpo3 : page_of s3 (current s) u (next_key s)).
  { apply (added_page_of s0 m hs cs (current s) x q spt p Hi0 Hx Hq Hspt eq_refl Hfree). by right. }
  assert (Hp3 : pages s3 !! next_key s = Some p) by apply lookup_insert_eq.
  assert (Hnf : ∀ g, g ∈ frame_table s3 → f_page g ≠ next_key s).
  { intros g Hg. destruct (i_frame _ _ _ _ _ Hi g Hg) as (_ & _ & t0 & u0 & p0 & Hpo & _). by eapply (added_old s m hs cs). }
  destruct (page_frame_alloc_ok s3 m hs cs (next_key s) p u x Hi3 Hl Hpo3 Hx Hp3 Hnf Hroom)
    as [(k & s4 & m4 & h & Hrun & Hg & Hrep)|[Hrun Hex]]; cycle 1.
  { right. split; [by apply run_bind_err|exact Hex]. }
  left. rewrite (run_bind_ok _ _ _ _ _ Hrun). destruct Hg as [Hi4 Hl4 [K1 K2 K3 K4 K5 K6 K7] Hp4 [tick Hin] Hc4 Hsrc] eqn:EG. clear EG.
  destruct (i_frame _ _ _ _ _ Hi4 _ Hin) as ([d Hd] & _). simpl in Hd.
  assert (Hx4 : threads s4 !! current s = Some x) by (by rewrite K1).
  assert (Hpo4 : page_of s4 (current s) u (next_key s)) by (by apply (page_of_same s3 s4)).
  erewrite run_bind_ok; [|rewrite (run_bind_ok _ _ _ _ _ (vm_thread_current_ok (set_hw h s4) x ltac:(simpl; rewrite K3; exact Hx4))); reflexivity].
  set (m5 := map_at (pagedir x) u (λ _, Mapping (Some k) (writable p) false false) m4) in *.
  set (s5 := loaded h (swp s4) (fsys s4) (next_key s) (set_kpage k p) s4).
  assert (Hfr5 : frames m5 = <[k := d]> (frames m4)) by (simpl; by rewrite insert_id).
  assert (Hi5 : inv None s5 m5 hs cs).
  { eapply (inv_loaded s4 m4 m5 hs cs _ (set_kpage k p) (current s) u tick x d); try done; apply Hi4. }
  assert (Es5 : set_hw h s4 = s5).
  { unfold s5, loaded. change (set_present PRESENT_MEMORY (set_kpage k p)) with (set_kpage k p).
    unfold set_pages, set_hw, set_fsys, set_swp. simpl. by rewrite insert_id. }
  rewrite Es5. change (current s5) with (current s4). rewrite K3. change (current s3) with (current s).
  assert (Hgrown : grown x = MkThread (pagedir x) (esp x) (u32 (stack_pages x + 1)) (process x)).
  { unfold grown. rewrite u32_id; [done|]. destruct Hst, Hst'. unfold in_u32, MAX_STACK_SIZE in *. rewrite PGSIZE_val in *. lia. }
  rewrite <- Hgrown. set (s6 := set_threads (<[current s := grown x]> (threads s5)) s5).
  assert (Hp6 : pages s6 !! next_key s = Some (set_kpage k p)) by apply lookup_insert_eq.
  rewrite (run_bind_ok _ _ _ _ _ (vm_get_page_ok _ _ _ Hp6)).
  exists d, (set_page_lock false s6), m5. split.
  { unfold release_page. erewrite run_bind_ok; [reflexivity|]. erewrite run_bind_ok; [|reflexivity].
    run_assert; [reflexivity|]. change (page_lock s6) with (page_lock s4). by rewrite K5. }
  assert (Hi6 : inv None s6 m5 hs cs) by (by apply (inv_thread s5 m5 hs cs (current s) x (grown x))).
  constructor; [by destruct Hi6; constructor|simpl; by rewrite K1|exact K3|done| | |].
  - intros t v. transitivity (space s5 m5 hs cs t v).
    { exact (space_thread s5 m5 hs cs (current s) x (grown x) Hx4 eq_refl eq_refl t v). }
    fold u. destruct (decide (t = current s ∧ v = u)) as [[-> ->]|Hne].
    + rewrite !Z.eqb_refl. simpl. rewrite (space_page_of s5 _ _ _ _ _ (next_key s)) by done.
      by rewrite (loaded_content s4 m4 m5 hs cs (next_key s) (set_kpage k p) d h (swp s4) (fsys s4) Hfr5).
    + replace ((t =? current s) && (v =? u)) with false by (symmetry; apply andb_false_iff; lia).
      change (space s m hs cs t v) with (space s0 m hs cs t v).
      rewrite <- (space_added s0 m hs cs (current s) x q spt p Hi0 Hx Hq Hspt eq_refl Hfree) by (simpl; lia). fold s3.
      apply space_ext; [done..|]. intros k' Hk'. assert (Hk'' : k' ≠ next_key s).
      { intros ->. apply Hne. destruct (page_of_inj _ _ _ _ _ _ _ _ _ _ Hi3 Hpo3 Hk'). lia. }
      rewrite <- (Hc4 t v k' Hk' Hk'').
      eapply (loaded_contents s4 m4 m5 hs cs (next_key s) (set_kpage k p) tick d h (swp s4) (fsys s4) Hi4 Hin Hfr5); [done| |done].
      by apply (page_of_same s3 s4).
  - exists k. split; [unfold m5; simpl; by rewrite !Z.eqb_refl|done].
  - destruct Hsrc as [[E Hget]|(Hget & i & f & Hlru & -> & _ & E)]; [left|right].
    { split; [rewrite Hd in E; by injection E|by exists k]. }
    split; [exact Hget|]. exists i, f. split; [exact Hlru|congruence].
Qed.
End run.
End stack.
End VmStack.
