(* ===== verification/VmSpec.v ===== *)
(** * Properties of virtual memory *)
From S2P Require Import Prelude CInt Palloc Pagedir PagedirSpec Mmu Block Swap Vm VmFalloc VmLoad VmStack.

Open Scope Z_scope.

(** * Memory as a program sees it

    Reading and writing by the processor, with page faults, evictions and
    loads in between, is reading and writing of the thread's memory. *)

Module VmAccess.
Import Palloc (NULL, PAL_USER, PAL_ZERO).
Import Swap Vm VmInv VmEvict VmFalloc VmLoad VmStack.

Section access.
Context {H D F : Type} `{!Mmu H, !BlockDriver D, !PageFiles F}.

(** ** The processor's own changes: flags and bytes *)
Lemma inv_hw ex (s : vm H D F) m hs cs h m' :
  inv ex s m hs cs → mm_rep h m' → dirs m' = dirs m → kdirty m' = kdirty m →
  (∀ pd u, m_page (maps m' pd u) = m_page (maps m pd u) ∧ m_writable (maps m' pd u) = m_writable (maps m pd u)) →
  (∀ k, is_Some (frames m !! k) → is_Some (frames m' !! k)) →
  inv ex (set_hw h s) m' hs cs.
Proof.
  intros [? ? ? Ht Ho Hp ? Hpl Hex Hno Hsl Hfr ? ?] Hrep Hd Hk Hm Hf. constructor; try done.
  - intros t x q Hx Hq. rewrite Hd. by apply (Ht t).
  - intros t u k x p Hpo Hx E. specialize (Hpl t u k x p Hpo Hx E). unfold placed in *.
    destruct (Hm (pagedir x) (upage p)) as [-> ->]. by destruct (present p).
  - intros t u k x Hpo Hx E. rewrite (proj1 (Hm _ _)). by apply (Hex t u k).
  - intros t x q u Hx Hq Hu Hn. rewrite (proj1 (Hm _ _)). by apply (Hno t x q).
  - intros f Hin. destruct (Hfr f Hin) as (H1 & H2 & H3). rewrite Hk. split; [by apply Hf|done].
Qed.

Lemma space_hw (s : vm H D F) m hs cs h m' t u :
  frames m' = frames m → space (set_hw h s) m' hs cs t u = space s m hs cs t u.
Proof. intros E. apply space_ext; [done..|]. intros k _. unfold contents_of, content. simpl. by rewrite E. Qed.

(** A thread's page in memory is mapped to the frame that holds it. *)
Lemma resident (s : vm H D F) m hs cs t x u d w :
  inv None s m hs cs → threads s !! t = Some x → space s m hs cs t u = Some (d, w) →
  pagedir x ∈ dirs m ∧ user_page u ∧ ∃ pg p, page_of s t u pg ∧ pages s !! pg = Some p ∧
    match m_page (maps m (pagedir x) u) with
    | Some k => present p = PRESENT_MEMORY ∧ kpage p = k ∧ frames m !! k = Some d ∧
                m_writable (maps m (pagedir x) u) = w
    | None => present p ≠ PRESENT_MEMORY
    end.
Proof.
  intros Hi Hx Hsp. destruct (page_of_dec s t u) as [(pg & Hpo)|Hn]; [|by rewrite space_none in Hsp].
  rewrite (space_page_of _ _ _ _ _ _ _ Hpo) in Hsp. unfold contents_of in Hsp.
  destruct (i_page _ _ _ _ _ Hi _ _ _ Hpo) as (p & Hp & Hu & _ & Huser). rewrite Hp in Hsp. simpl in Hsp. injection Hsp as Hc Hw.
  assert (Hpl := i_place _ _ _ _ _ Hi _ _ _ _ _ Hpo Hx Hp). unfold placed in Hpl. rewrite Hu in Hpl.
  assert (Hdir : pagedir x ∈ dirs m).
  { destruct Hpo as (x' & q & _ & Hx' & Hq & _). rewrite Hx in Hx'. injection Hx' as <-. by apply (i_thread _ _ _ _ _ Hi _ _ _ Hx Hq). }
  split; [done|]. split; [done|]. exists pg, p. split; [done|]. split; [done|]. unfold content in Hc. destruct (present p) eqn:Epr.
  - destruct Hpl as (E1 & E2 & tick & Hin); [done|]. rewrite E1. split; [done|]. split; [done|]. split; [|congruence].
    destruct (i_frame _ _ _ _ _ Hi _ Hin) as ([d' Hd] & _). simpl in Hd. rewrite Hd in *. simpl in Hc. congruence.
  - destruct Hpl as [_ ->]. done.
  - destruct Hpl as [_ ->]. done.
Qed.

(** Two pages in memory are in different frames. *)
Lemma frames_apart (s : vm H D F) m hs cs t u pg p t' u' pg' p' :
  inv None s m hs cs → page_of s t u pg → pages s !! pg = Some p → present p = PRESENT_MEMORY →
  page_of s t' u' pg' → pages s !! pg' = Some p' → present p' = PRESENT_MEMORY → kpage p = kpage p' → pg = pg'.
Proof.
  intros Hi Hpo Hp Hpr Hpo' Hp' Hpr' Ek.
  assert (Hget : ∀ t u pg p, page_of s t u pg → pages s !! pg = Some p → present p = PRESENT_MEMORY →
            ∃ tick, MkFrame (kpage p) pg tick ∈ frame_table s).
  { intros t0 u0 pg0 p0 Hk E Em. assert (Hk' := Hk). destruct Hk' as (x & _ & _ & Hx & _).
    assert (Hpl := i_place _ _ _ _ _ Hi _ _ _ _ _ Hk Hx E). unfold placed in Hpl. rewrite Em in Hpl. by destruct Hpl as (_ & _ & ?). }
  destruct (Hget _ _ _ _ Hpo Hp Hpr) as [tk1 H1], (Hget _ _ _ _ Hpo' Hp' Hpr') as [tk2 H2].
  apply list_elem_of_lookup in H1 as [i H1]. apply list_elem_of_lookup in H2 as [j H2].
  assert (i = j); [|by simplify_eq].
  eapply NoDup_lookup; [exact (i_kpages _ _ _ _ _ Hi)| |]; rewrite list_lookup_fmap; [by rewrite H1|by rewrite H2, <- Ek].
Qed.

Lemma round_user a : 0 ≤ a < PHYS_BASE → user_page (pg_round_down a).
Proof.
  intros Ha. rewrite pg_round_down_div by (unfold in_u32, PHYS_BASE in *; lia). unfold user_page, PHYS_BASE in *.
  rewrite PGSIZE_val. split; divlia.
Qed.

Lemma ofs_bound a : 0 ≤ pg_ofs a < 4096.
Proof. rewrite pg_ofs_mod, PGSIZE_val. apply Z.mod_pos_bound. lia. Qed.

(** A read of a page in memory. *)
Lemma cpu_read_ok (s : vm H D F) m hs cs t x a d w k :
  inv None s m hs cs → threads s !! t = Some x → 0 ≤ a < PHYS_BASE →
  space s m hs cs t (pg_round_down a) = Some (d, w) → m_page (maps m (pagedir x) (pg_round_down a)) = Some k →
  ∃ h m', on_hw (cpu_read (pagedir x) a) s = Ok (Done (default 0 (d !! Z.to_nat (pg_ofs a))), set_hw h s) ∧
    inv None (set_hw h s) m' hs cs ∧ ∀ t' u', space (set_hw h s) m' hs cs t' u' = space s m hs cs t' u'.
Proof.
  intros Hi Hx Ha Hsp Hk. destruct (resident _ _ _ _ _ _ _ _ _ Hi Hx Hsp) as (Hdir & Huser & pg & p & Hpo & Hp & Hres).
  rewrite Hk in Hres. destruct Hres as (_ & _ & Hd & _).
  assert (Hcpu := mm_cpu_read _ _ _ _ (i_hw _ _ _ _ _ Hi) Hdir Ha). cbv zeta in Hcpu. rewrite Hk in Hcpu.
  destruct (Hcpu d Hd) as (h & Hrun & Hrep & _). exists h, (map_at (pagedir x) (pg_round_down a) (set_accessed true) m). split; [by apply on_hw_ok|]. split; [|intros; by apply space_hw].
  eapply inv_hw; [exact Hi|exact Hrep|done|done| |done]. intros pd u. simpl. by destruct (_ && _).
Qed.

(** A write to a page in memory. *)
Lemma cpu_write_ok (s : vm H D F) m hs cs t x a v d w k :
  inv None s m hs cs → threads s !! t = Some x → 0 ≤ a < PHYS_BASE →
  space s m hs cs t (pg_round_down a) = Some (d, w) → m_page (maps m (pagedir x) (pg_round_down a)) = Some k →
  if w : bool then
    ∃ h m', on_hw (cpu_write (pagedir x) a v) s = Ok (Done tt, set_hw h s) ∧ inv None (set_hw h s) m' hs cs ∧
      ∀ t' u', space (set_hw h s) m' hs cs t' u' =
        if (t' =? t) && (u' =? pg_round_down a) then Some (<[Z.to_nat (pg_ofs a) := v]> d, true) else space s m hs cs t' u'
  else on_hw (cpu_write (pagedir x) a v) s = Ok (ReadOnly, s).
Proof.
  intros Hi Hx Ha Hsp Hk. destruct (resident _ _ _ _ _ _ _ _ _ Hi Hx Hsp) as (Hdir & Huser & pg & p & Hpo & Hp & Hres).
  rewrite Hk in Hres. destruct Hres as (Hpr & Hkp & Hd & Hw).
  assert (Hcpu := mm_cpu_write _ _ _ _ v (i_hw _ _ _ _ _ Hi) Hdir Ha). cbv zeta in Hcpu. rewrite Hk in Hcpu.
  specialize (Hcpu d Hd). rewrite Hw in Hcpu. destruct w; [|by apply on_hw_read].
  destruct Hcpu as (h & Hrun & Hrep & _). eexists h, _. split; [by apply on_hw_ok|]. split.
  - eapply inv_hw; [exact Hi|exact Hrep|done|done| |].
    + intros pd u. simpl. by destruct (_ && _).
    + intros k' Hs. simpl. destruct (decide (k' = k)) as [->|]; [by rewrite lookup_insert_eq|by rewrite lookup_insert_ne].
  - intros t' u'. destruct (decide (t' = t ∧ u' = pg_round_down a)) as [[-> ->]|Hne].
    + rewrite !Z.eqb_refl. simpl. rewrite (space_page_of (set_hw h s) _ _ _ _ _ pg) by done. unfold contents_of. simpl. rewrite Hp. simpl.
      unfold content. rewrite Hpr, Hkp. simpl. rewrite lookup_insert_eq. simpl. do 2 f_equal.
      rewrite (space_page_of _ _ _ _ _ _ _ Hpo) in Hsp. unfold contents_of in Hsp. rewrite Hp in Hsp. simpl in Hsp. congruence.
    + replace ((t' =? t) && (u' =? pg_round_down a)) with false by (symmetry; apply andb_false_iff; lia).
      apply space_ext; [done..|]. intros k' Hk'. unfold contents_of. simpl. destruct (pages s !! k') as [p'|] eqn:E; [|done].
      simpl. do 2 f_equal. unfold content. destruct (present p') eqn:Epr; [|done|done]. simpl. rewrite lookup_insert_ne; [done|].
      intros Ek. assert (pg = k') as <- by (eapply (frames_apart s m hs cs t _ pg p t' u' k' p'); [done..|congruence]).
      destruct (page_of_inj _ _ _ _ _ _ _ _ _ _ Hi Hpo Hk'). lia.
Qed.
End access.
End VmAccess.

Module VmSpec.
Import Palloc (NULL, PAL_USER, PAL_ZERO).
Import Swap Vm VmInv VmEvict VmFalloc VmLoad VmStack VmAccess.

Section spec.
Context {H D F : Type} `{!Mmu H, !BlockDriver D, !PageFiles F} (junk : page).

(** The current thread [x] runs in user mode, and no lock is held. *)
Record running (s : vm H D F) (m : mmu) (hs : gmap nat Z) (cs : Z → list Z) (x : uthread) : Prop := MkRunning {
  u_inv : inv None s m hs cs;
  u_page_lock : page_lock s = false;
  u_frame_lock : frame_lock s = false;
  u_thread : threads s !! current s = Some x;
  u_stack : stack_ok x;
  u_room : mm_room (hw s)
}.

(** The address [a] is in the part of memory into which the stack grows. *)
Definition stack_access (x : uthread) (a f_esp : Z) : bool :=
  (a <? bottom x) && (u32 (f_esp - PUSHA_BYTES) <=? a) && (MIN_STACK_ADDRESS <=? a).

Definition with_esp (f_esp : Z) (x : uthread) : uthread := MkThread (pagedir x) f_esp (stack_pages x) (process x).
Definition faulting (f_esp : Z) (x : uthread) (s : vm H D F) : vm H D F :=
  set_page_fault_cnt (page_fault_cnt s + 1) (set_threads (<[current s := with_esp f_esp x]> (threads s)) s).

Lemma faulting_ok s m hs cs x f_esp : running s m hs cs x →
  running (faulting f_esp x s) m hs cs (with_esp f_esp x) ∧
  (∀ t v, space (faulting f_esp x s) m hs cs t v = space s m hs cs t v) ∧
  ∀ t u k, page_of (faulting f_esp x s) t u k ↔ page_of s t u k.
Proof.
  intros [Hi Hp Hf Hx Hs Hr]. split; [|split].
  - constructor; try done; [|simpl; apply lookup_insert_eq].
    assert (Hi' := inv_thread s m hs cs (current s) x (with_esp f_esp x) Hx eq_refl eq_refl None Hi). by destruct Hi'; constructor.
  - intros t v. by apply (space_thread s m hs cs (current s) x (with_esp f_esp x)).
  - intros t u k. by apply (thread_page_of s (current s) x (with_esp f_esp x)).
Qed.

(** What the fault handler decides on. *)
Lemma stack_access_ok s m hs cs x a f_esp : running s m hs cs x →
  is_unallocated_stack_access a (faulting f_esp x s) = Ok (stack_access x a f_esp, faulting f_esp x s).
Proof.
  intros Hr. destruct (faulting_ok s m hs cs x f_esp Hr) as ([_ Hp _ Hx Hst _] & _).
  set (s0 := faulting f_esp x s) in *. unfold is_unallocated_stack_access, acquire_page.
  erewrite run_bind_ok; [|erewrite run_bind_ok; [|reflexivity]; run_assert; [reflexivity|by rewrite Hp]].
  rewrite (run_bind_ok _ _ _ _ _ (vm_thread_current_ok (set_page_lock true s0) _ Hx)).
  rewrite (run_bind_ok _ _ _ _ _ (get_stack_bottom_ok (set_page_lock true s0) _ Hx Hst)). unfold release_page.
  erewrite run_bind_ok; [|erewrite run_bind_ok; [|reflexivity]; run_assert; [reflexivity|done]].
  unfold mret, ST_ret. do 2 f_equal. unfold s0, faulting, set_page_lock, set_page_fault_cnt, set_threads. simpl. f_equal. by rewrite <- Hp.
Qed.

Lemma page_fault_start user s m hs cs x a f_esp : running s m hs cs x → 0 ≤ a < PHYS_BASE →
  page_fault junk true user a f_esp s =
    (success ← (if user && stack_access x a f_esp then b ← stack_page_alloc_multiple junk a; mret (negb (b =? NULL))
                else load_page_into_frame a);
     mret (if success : bool then Resume else Kill)) (faulting f_esp x s).
Proof.
  intros Hr Ha. unfold page_fault. rewrite (run_bind_ok _ _ _ _ _ (vm_thread_current_ok s x (u_thread _ _ _ _ _ Hr))).
  do 2 (erewrite run_bind_ok; [|reflexivity]). cbn [negb]. change (set_page_fault_cnt _ _) with (faulting f_esp x s).
  assert (Hg : (if user then is_unallocated_stack_access a else mret false) (faulting f_esp x s) =
               Ok (user && stack_access x a f_esp, faulting f_esp x s))
    by (destruct user; [exact (stack_access_ok s m hs cs x a f_esp Hr)|done]).
  rewrite (run_bind_ok _ _ _ _ _ Hg). unfold is_user_vaddr. by rewrite (proj2 (Z.ltb_lt a PHYS_BASE)) by lia.
Qed.

(** A fault on a page that is not in memory loads it. *)
Lemma page_fault_load user s m hs cs x a f_esp pg p :
  running s m hs cs x → 0 ≤ a < PHYS_BASE → user && stack_access x a f_esp = false →
  page_of s (current s) (pg_round_down a) pg → pages s !! pg = Some p → present p ≠ PRESENT_MEMORY →
  (∃ s' m', page_fault junk true user a f_esp s = Ok (Resume, s') ∧ inv None s' m' hs cs ∧
     threads s' !! current s' = Some (with_esp f_esp x) ∧ current s' = current s ∧
     (∀ t v, space s' m' hs cs t v = space s m hs cs t v) ∧
     ∃ k, m_page (maps m' (pagedir x) (pg_round_down a)) = Some k) ∨
  (page_fault junk true user a f_esp s = Err Panic ∧ exhausted s).
Proof.
  intros Hr Ha Hst Hpo Hp Hpr. rewrite (page_fault_start user s m hs cs x a f_esp Hr Ha), Hst.
  destruct (faulting_ok s m hs cs x f_esp Hr) as ([Hi Hpl Hfl Hx _ Hroom] & Hsp & Hpof).
  destruct (load_page_into_frame_ok (faulting f_esp x s) m hs cs a pg p (with_esp f_esp x)) as [(s' & m' & Hrun & [R1 R2 R3 R4 R5 R6 R7 R8])|[Hrun Hex]];
    try done; [by apply Hpof|left|right].
  - exists s', m'. rewrite (run_bind_ok _ _ _ _ _ Hrun). split; [done|]. split; [done|].
    split; [by rewrite R3, R5|]. split; [by rewrite R5|]. split; [intros; by rewrite R2, Hsp|].
    destruct R8 as (k & d & w & E & _). exists k. change (pagedir x) with (pagedir (with_esp f_esp x)). by rewrite E.
  - split; [by apply run_bind_err|exact Hex].
Qed.

(** A fault because of missing rights. *)
Lemma page_fault_rights user s m hs cs x a f_esp :
  inv None s m hs cs → threads s !! current s = Some x →
  ∃ s', page_fault junk false user a f_esp s = Ok (Exit (-1), s') ∧ inv None s' m hs cs ∧
    ∀ t v, space s' m hs cs t v = space s m hs cs t v.
Proof.
  intros Hi Hx. exists (faulting f_esp x s). split; [|split].
  - unfold page_fault. rewrite (run_bind_ok _ _ _ _ _ (vm_thread_current_ok s x Hx)). done.
  - assert (Hi' := inv_thread s m hs cs (current s) x (with_esp f_esp x) Hx eq_refl eq_refl None Hi). by destruct Hi'; constructor.
  - intros t v. by apply (space_thread s m hs cs (current s) x (with_esp f_esp x)).
Qed.

(** An access to a page that is not mapped. *)
Lemma not_present s m hs cs x a d w :
  running s m hs cs x → 0 ≤ a < PHYS_BASE → space s m hs cs (current s) (pg_round_down a) = Some (d, w) →
  m_page (maps m (pagedir x) (pg_round_down a)) = None →
  on_hw (cpu_read (pagedir x) a) s = Ok (NotPresent, s) ∧ (∀ c, on_hw (cpu_write (pagedir x) a c) s = Ok (NotPresent, s)) ∧
  ∃ pg p, page_of s (current s) (pg_round_down a) pg ∧ pages s !! pg = Some p ∧ present p ≠ PRESENT_MEMORY.
Proof.
  intros [Hi _ _ Hx _ _] Ha Hsp Hk. destruct (resident _ _ _ _ _ _ _ _ _ Hi Hx Hsp) as (Hdir & _ & pg & p & Hpo & Hp & Hres).
  rewrite Hk in Hres. split; [|split; [intros c|by exists pg, p]]; apply on_hw_read.
  - assert (E := mm_cpu_read _ _ _ _ (i_hw _ _ _ _ _ Hi) Hdir Ha). cbv zeta in E. by rewrite Hk in E.
  - assert (E := mm_cpu_write _ _ _ _ c (i_hw _ _ _ _ _ Hi) Hdir Ha). cbv zeta in E. by rewrite Hk in E.
Qed.

Lemma mem_read_ok user s m hs cs x a f_esp d w b :
  running s m hs cs x → 0 ≤ a < PHYS_BASE → user && stack_access x a f_esp = false →
  space s m hs cs (current s) (pg_round_down a) = Some (d, w) → d !! Z.to_nat (pg_ofs a) = Some b →
  (∃ s' m', mem_read junk user a f_esp s = Ok (inr b, s') ∧ inv None s' m' hs cs ∧
      ∀ t v, space s' m' hs cs t v = space s m hs cs t v) ∨
  (mem_read junk user a f_esp s = Err Panic ∧ exhausted s).
Proof.
  intros Hr Ha Hst Hsp Hb. unfold mem_read. assert (Hx := u_thread _ _ _ _ _ Hr).
  rewrite (run_bind_ok _ _ _ _ _ (vm_thread_current_ok s x Hx)).
  destruct (m_page (maps m (pagedir x) (pg_round_down a))) as [k|] eqn:Ek.
  - left. destruct (cpu_read_ok s m hs cs _ x a d w k (u_inv _ _ _ _ _ Hr) Hx Ha Hsp Ek) as (h & m' & Hrun & Hi' & Hsp').
    rewrite (run_bind_ok _ _ _ _ _ Hrun), Hb. by exists (set_hw h s), m'.
  - destruct (not_present s m hs cs x a d w Hr Ha Hsp Ek) as (Hrun & _ & pg & p & Hpo & Hp & Hpr).
    rewrite (run_bind_ok _ _ _ _ _ Hrun).
    destruct (page_fault_load user s m hs cs x a f_esp pg p Hr Ha Hst Hpo Hp Hpr) as [(s1 & m1 & Hpf & Hi1 & Hx1 & Hc1 & Hsp1 & k & Ek1)|[Hpf Hex]].
    + left. rewrite (run_bind_ok _ _ _ _ _ Hpf). rewrite <- Hsp1, <- Hc1 in Hsp.
      destruct (cpu_read_ok s1 m1 hs cs _ _ a d w k Hi1 Hx1 Ha Hsp Ek1) as (h & m' & Hrun' & Hi' & Hsp').
      change (pagedir (with_esp f_esp x)) with (pagedir x) in Hrun'. rewrite (run_bind_ok _ _ _ _ _ Hrun'), Hb.
      exists (set_hw h s1), m'. split; [done|]. split; [done|]. intros t v. by rewrite Hsp', Hsp1.
    + right. split; [by apply run_bind_err|done].
Qed.

Lemma mem_write_ok user s m hs cs x a f_esp d w c :
  running s m hs cs x → 0 ≤ a < PHYS_BASE → user && stack_access x a f_esp = false →
  space s m hs cs (current s) (pg_round_down a) = Some (d, w) →
  (∃ s' m', mem_write junk user a c f_esp s = Ok ((if w then inr tt else inl (Exit (-1))), s') ∧ inv None s' m' hs cs ∧
      ∀ t v, space s' m' hs cs t v =
        if w && (t =? current s) && (v =? pg_round_down a) then Some (<[Z.to_nat (pg_ofs a) := c]> d, true)
        else space s m hs cs t v) ∨
  (mem_write junk user a c f_esp s = Err Panic ∧ exhausted s).
Proof.
  intros Hr Ha Hst Hsp. unfold mem_write. assert (Hx := u_thread _ _ _ _ _ Hr).
  rewrite (run_bind_ok _ _ _ _ _ (vm_thread_current_ok s x Hx)).
  destruct (m_page (maps m (pagedir x) (pg_round_down a))) as [k|] eqn:Ek.
  - left. assert (Hw := cpu_write_ok s m hs cs _ x a c d w k (u_inv _ _ _ _ _ Hr) Hx Ha Hsp Ek). destruct w.
    + destruct Hw as (h & m' & Hrun & Hi' & Hsp'). rewrite (run_bind_ok _ _ _ _ _ Hrun). by exists (set_hw h s), m'.
    + rewrite (run_bind_ok _ _ _ _ _ Hw).
      destruct (page_fault_rights user s m hs cs x a f_esp (u_inv _ _ _ _ _ Hr) Hx) as (s' & Hpf & Hi' & Hsp').
      rewrite (run_bind_ok _ _ _ _ _ Hpf). by exists s', m.
  - destruct (not_present s m hs cs x a d w Hr Ha Hsp Ek) as (_ & Hrun & pg & p & Hpo & Hp & Hpr).
    rewrite (run_bind_ok _ _ _ _ _ (Hrun c)).
    destruct (page_fault_load user s m hs cs x a f_esp pg p Hr Ha Hst Hpo Hp Hpr) as [(s1 & m1 & Hpf & Hi1 & Hx1 & Hc1 & Hsp1 & k & Ek1)|[Hpf Hex]].
    2: { right. split; [by apply run_bind_err|done]. }
    left. rewrite (run_bind_ok _ _ _ _ _ Hpf). rewrite <- Hsp1, <- Hc1 in Hsp.
    assert (Hw := cpu_write_ok s1 m1 hs cs _ _ a c d w k Hi1 Hx1 Ha Hsp Ek1).
    change (pagedir (with_esp f_esp x)) with (pagedir x) in Hw. destruct w.
    + destruct Hw as (h & m' & Hrun' & Hi' & Hsp'). rewrite (run_bind_ok _ _ _ _ _ Hrun'). exists (set_hw h s1), m'.
      split; [done|]. split; [done|]. intros t v. rewrite Hsp', Hc1, Hsp1. done.
    + rewrite (run_bind_ok _ _ _ _ _ Hw).
      destruct (page_fault_rights user s1 m1 hs cs _ a f_esp Hi1 Hx1) as (s' & Hpf' & Hi' & Hsp').
      rewrite (run_bind_ok _ _ _ _ _ Hpf'). exists s', m1. split; [done|]. split; [done|]. intros t v. by rewrite Hsp', Hsp1.
Qed.


(** C16: Stack growth.  A fault just below the stack, at or above the stack
    pointer less the 32 bytes of PUSHA, adds one writable page there and lets
    the program go on; all other memory, of this and every other thread, is as
    before.  The new page is zero when its frame came from the page allocator.
    When it was evicted, the page holds what the evicted page held: the least
    recently used one, of whatever program. *)
Theorem stack_fault_correct s m hs cs x q a f_esp :
  running s m hs cs x → process x = Some q → 0 ≤ a < PHYS_BASE → stack_access x a f_esp = true → bottom x - PGSIZE ≤ a →
  (∀ k, ¬ page_of s (current s) (bottom x - PGSIZE) k) →
  (∃ d s' m', page_fault junk true true a f_esp s = Ok (Resume, s') ∧ inv None s' m' hs cs ∧
     (∀ t v, space s' m' hs cs t v =
        if (t =? current s) && (v =? bottom x - PGSIZE) then Some (d, true) else space s m hs cs t v) ∧
     threads s' !! current s = Some (grown (with_esp f_esp x)) ∧ stack_bytes s m d) ∨
  (page_fault junk true true a f_esp s = Err Panic ∧ exhausted s).
Proof.
  intros Hr Hq Ha Hst Hlow Hnew. rewrite (page_fault_start true s m hs cs x a f_esp Hr Ha), Hst. cbn [andb].
  destruct (faulting_ok s m hs cs x f_esp Hr) as ([Hi Hpl Hfl Hx Hstk Hroom] & Hsp & Hpof).
  unfold stack_access in Hst. apply andb_true_iff in Hst as [[Hb _]%andb_true_iff Hmin].
  apply Z.ltb_lt in Hb. apply Z.leb_le in Hmin. set (s0 := faulting f_esp x s) in *. set (x0 := with_esp f_esp x) in *.
  assert (Hg : stack_ok (grown x0)).
  { destruct Hstk as [H0 H1]. unfold stack_ok, grown, bottom, MIN_STACK_ADDRESS, MAX_STACK_SIZE, x0 in *. simpl in *.
    rewrite PGSIZE_val in *. lia. }
  unfold stack_page_alloc_multiple.
  assert (Hstart : (ASSERT ((a <? PHYS_BASE) && (MIN_STACK_ADDRESS <=? a)) ;; b ← get_stack_bottom; stack_alloc_loop junk 2001 a b) s0 =
                   (k ← stack_page_alloc junk; if k =? NULL then mret NULL else b ← get_stack_bottom; stack_alloc_loop junk 2000 a b) s0).
  { run_assert; [|apply andb_true_iff; split; [apply Z.ltb_lt|apply Z.leb_le]; lia].
    rewrite (run_bind_ok _ _ _ _ _ (get_stack_bottom_ok s0 x0 Hx Hstk)). cbn [stack_alloc_loop].
    by rewrite (proj2 (Z.ltb_lt a (bottom x0))). }
  destruct (stack_page_alloc_ok junk s0 m hs cs x0 q Hi Hfl Hpl Hx Hq Hstk Hg) as [(d & s' & m' & Hrun & [G1 G2 G3 G4 G5 G6 G7])|[Hrun Hex]];
    [intros k Hk; apply (Hnew k); by apply Hpof|done|left|right].
  2: { split; [|exact Hex]. do 2 apply run_bind_err. rewrite Hstart. by apply run_bind_err. }
  assert (Hx' : threads s' !! current s' = Some (grown x0)) by (rewrite G2, G3; apply lookup_insert_eq).
  exists d, s', m'. split; [|split; [done|split; [|split]]].
  - rewrite (run_bind_ok _ _ _ true s'); [done|]. rewrite (run_bind_ok _ _ _ (bottom x - PGSIZE) s').
    2: { rewrite Hstart, (run_bind_ok _ _ _ _ _ Hrun). rewrite (proj2 (Z.eqb_neq (bottom x0 - PGSIZE) NULL)).
         2: { unfold NULL, MIN_STACK_ADDRESS, MAX_STACK_SIZE, PHYS_BASE, x0, bottom in *. simpl. rewrite PGSIZE_val in *. lia. }
         rewrite (run_bind_ok _ _ _ _ _ (get_stack_bottom_ok s' _ Hx' Hg)). cbn [stack_alloc_loop].
         replace (bottom (grown x0)) with (bottom x - PGSIZE) by (unfold bottom, grown, x0; simpl; lia).
         rewrite (proj2 (Z.ltb_ge a (bottom x - PGSIZE)) Hlow). reflexivity. }
    rewrite (proj2 (Z.eqb_neq (bottom x - PGSIZE) NULL)); [done|].
    unfold NULL, MIN_STACK_ADDRESS, MAX_STACK_SIZE, PHYS_BASE, bottom in *. rewrite PGSIZE_val in *. lia.
  - intros t v. rewrite G5. by rewrite Hsp.
  - change (current s) with (current s0). by rewrite <- G3.
  - exact G7.
Qed.

(** C15: Eviction.  When no frame is free, [falloc] takes the frame with the
    least access time, the first such, from its page; that page goes to swap,
    also when it is unchanged and comes from a file, and every page keeps its
    contents; without room in swap the kernel panics.  The frame keeps its
    access time: if it was the only least one, the page that has just received
    it is the next to be evicted. *)
Theorem eviction_correct (s : vm H D F) m hs cs pg p t u :
  inv (Some pg) s m hs cs → frame_lock s = false → page_of s t u pg → pages s !! pg = Some p →
  (∀ g, g ∈ frame_table s → f_page g ≠ pg) → palloc_get_page USER_ZERO (hw s) = Ok (NULL, hw s) → frame_table s ≠ [] →
  (∃ i f e s' m', lru (frame_table s) i f ∧ falloc pg USER_ZERO s = Ok (f_kpage f, s') ∧ inv (Some pg) s' m' hs cs ∧
     pages s' !! f_page f = Some e ∧ present e = PRESENT_SWAP ∧
     (∀ t' u' k, page_of s t' u' k → k ≠ pg → contents_of s' m' hs cs k = contents_of s m hs cs k) ∧
     ((∀ g, g ∈ frame_table s → f_page g ≠ f_page f → last_accessed_tick f < last_accessed_tick g) →
      lru (frame_table s') (Nat.pred (length (frame_table s))) (MkFrame (f_kpage f) pg (last_accessed_tick f)))) ∨
  (falloc pg USER_ZERO s = Err Panic ∧ ∀ i, slot_index (swp s) i → slot_free (swp s) i = false).
Proof.
  intros Hi Hl Hpo Hp Hnf Hget Hne. destruct (falloc_evicts s m hs cs pg p t u Hi Hl Hpo Hp Hnf Hget Hne)
    as [(i & f & e & x & h & w & n & Hlru & He & Hfp & _ & _ & Hrun & Hi' & Hc & _)|?]; [left|by right].
  exists i, f. eexists _, _, _. split; [done|]. split; [exact Hrun|]. split; [exact Hi'|].
  split; [simpl; apply lookup_insert_eq|]. split; [done|]. split; [exact Hc|]. intros Hmin.
  assert (Hlen : length (delete i (frame_table s)) = Nat.pred (length (frame_table s))).
  { rewrite length_delete by (by exists f; apply Hlru). lia. }
  rewrite <- Hlen. simpl. split; [by rewrite list_lookup_middle|]. intros j g [Hj|[Hge Hj]]%lookup_app_Some.
  - apply list_elem_of_lookup_2 in Hj as Hin. apply (evicted_rest s m hs cs pg i f Hi (proj1 Hlru)) in Hin as [Hin Hne'].
    simpl. specialize (Hmin g Hin Hne'). lia.
  - apply list_lookup_singleton_Some in Hj as [? <-]. simpl. lia.
Qed.
End spec.
End VmSpec.

(** * The access times of frames, and lazily loaded segments *)

Module VmTick.
Import Palloc (NULL, PAL_USER, PAL_ZERO).
Import Swap Vm VmInv VmEvict VmFalloc VmLoad VmStack VmAccess.

Section tick.
Context {H D F : Type} `{!Mmu H, !BlockDriver D, !PageFiles F}.

(** The accessed bit of the page in a frame. *)
Definition accessed (s : vm H D F) (m : mmu) (f : frame) : bool :=
  match pages s !! f_page f ≫= λ p, (λ x, (pagedir x, upage p)) <$> threads s !! tid p with
  | Some (pd, u) => m_accessed (maps m pd u)
  | None => false
  end.

Definition ticked (c : Z) (b : bool) (f : frame) : frame := if b then MkFrame (f_kpage f) (f_page f) c else f.

(** A change of access times keeps the invariant. *)
Lemma inv_ticks ex (s : vm H D F) m hs cs i f c :
  inv ex s m hs cs → frame_table s !! i = Some f →
  inv ex (set_frame_table (<[i := MkFrame (f_kpage f) (f_page f) c]> (frame_table s)) s) m hs cs.
Proof.
  intros [? ? ? Ht Ho Hp ? Hpl Hex Hno Hsl Hfr Hk Hpg] Hf.
  assert (Hmap : ∀ A (g : frame → A), g f = g (MkFrame (f_kpage f) (f_page f) c) →
            g <$> <[i := MkFrame (f_kpage f) (f_page f) c]> (frame_table s) = g <$> frame_table s).
  { intros A g E. rewrite list_fmap_insert. apply list_insert_id. rewrite list_lookup_fmap, Hf. simpl. by rewrite E. }
  constructor; try done; simpl; [| |by rewrite Hmap|by rewrite Hmap].
  - intros t u k x p Hpo Hx E. specialize (Hpl t u k x p Hpo Hx E). unfold placed in *. destruct (present p); try done.
    intros Hne. destruct (Hpl Hne) as (? & ? & tick & Hin). split_and!; [done..|]. simpl.
    apply list_elem_of_lookup in Hin as [j Hj]. destruct (decide (j = i)) as [->|].
    + rewrite Hf in Hj. injection Hj as ->. simpl. exists c. eapply (list_elem_of_lookup_2 _ i). apply list_lookup_insert_eq.
      by eapply lookup_lt_Some.
    + exists tick. eapply (list_elem_of_lookup_2 _ j). by rewrite list_lookup_insert_ne.
  - intros g [j Hj]%list_elem_of_lookup. apply list_lookup_insert_Some in Hj as [(-> & <- & _)|[_ Hj]].
    + simpl. exact (Hfr f (list_elem_of_lookup_2 _ _ _ Hf)).
    + exact (Hfr g (list_elem_of_lookup_2 _ _ _ Hj)).
Qed.

Record same_frames (i : nat) (c : Z) (s : vm H D F) (m : mmu) (hs : gmap nat Z) (cs : Z → list Z) (s' : vm H D F) (m' : mmu) : Prop := MkSame {
  t_inv : inv None s' m' hs cs;
  t_space t v : space s' m' hs cs t v = space s m hs cs t v;
  t_len : length (frame_table s') = length (frame_table s);
  t_frames j g : frame_table s !! j = Some g → frame_table s' !! j = Some (ticked c ((i <=? j)%nat && accessed s m g) g);
  t_bits j g : frame_table s' !! j = Some g → (i ≤ j)%nat → accessed s' m' g = false;
  t_old j g : frame_table s' !! j = Some g → (j < i)%nat → accessed s' m' g = accessed s m g;
  t_pages : pages s' = pages s;
  t_threads : threads s' = threads s
}.

Lemma tick_frame (s : vm H D F) m hs cs i f c :
  inv None s m hs cs → frame_table s !! i = Some f →
  ∃ s' m', (p ← get_page (f_page f);
            pd ← pagedir_of (tid p);
            accessed ← on_hw (pagedir_is_accessed pd (upage p));
            (if accessed : bool then
               modify (λ s, set_frame_table (<[i := MkFrame (f_kpage f) (f_page f) c]> (frame_table s)) s) ;;
               pd ← pagedir_of (tid p);
               on_hw (pagedir_set_accessed pd (upage p) false)
             else mret tt)) s = Ok (tt, s') ∧
    inv None s' m' hs cs ∧ (∀ t v, space s' m' hs cs t v = space s m hs cs t v) ∧
    frame_table s' = <[i := ticked c (accessed s m f) f]> (frame_table s) ∧ pages s' = pages s ∧ threads s' = threads s ∧
    accessed s' m' f = false ∧
    ∀ j g, frame_table s !! j = Some g → j ≠ i → accessed s' m' g = accessed s m g.
Proof.
  intros Hi Hf. destruct (frame_at _ _ _ _ _ _ _ Hi Hf) as (d & t & u & p & x & Hd & Hkd & Hpo & Hp & Hke & Hu & Ht & Huser & Hx & Hpd & Hm).
  assert (Hhw := i_hw _ _ _ _ _ Hi). rewrite (run_bind_ok _ _ _ _ _ (vm_get_page_ok _ _ _ Hp)). rewrite Ht.
  rewrite (run_bind_ok _ _ _ _ _ (pagedir_of_ok t s x Hx)). rewrite Hu.
  rewrite (run_bind_ok _ _ _ _ _ (on_hw_read _ s _ (mm_is_accessed _ _ _ _ Hhw Hpd Huser))).
  assert (Hacc : accessed s m f = m_accessed (maps m (pagedir x) u)).
  { unfold accessed. rewrite Hp. simpl. rewrite Ht, Hx. simpl. by rewrite Hu. }
  destruct (m_accessed (maps m (pagedir x) u)) eqn:Eb; cycle 1.
  { exists s, m. rewrite Hacc. simpl. rewrite list_insert_id by done. done. }
  erewrite run_bind_ok; [|reflexivity]. set (s1 := set_frame_table _ s).
  rewrite (run_bind_ok _ _ _ _ _ (pagedir_of_ok t s1 x Hx)).
  destruct (mm_clear_accessed _ _ _ _ Hhw Hpd Huser) as (h & Hcl & Hrep & _).
  exists (set_hw h s1), (map_at (pagedir x) u (set_accessed false) m). split; [exact (on_hw_ok _ s1 tt h Hcl)|].
  assert (Hi1 : inv None s1 m hs cs) by (by apply inv_ticks). split.
  { eapply inv_hw; [exact Hi1|exact Hrep|done|done| |done]. intros pd v. simpl. by destruct (_ && _). }
  split; [intros t' v; by apply (space_hw s1)|]. rewrite Hacc. split; [done|]. split; [done|]. split; [done|]. split.
  - unfold accessed. simpl. rewrite Hp. simpl. rewrite Ht, Hx. simpl. rewrite Hu, !Z.eqb_refl. done.
  - intros j g Hg Hne. destruct (frame_at _ _ _ _ _ _ _ Hi Hg) as (_ & t' & u' & p' & x' & _ & _ & Hpo' & Hp' & _ & Hu' & Ht' & _ & Hx' & _).
    unfold accessed. simpl. rewrite Hp'. simpl. rewrite Ht', Hx'. simpl. rewrite Hu'.
    destruct (Z.eqb_spec (pagedir x') (pagedir x)) as [Epd|]; [|done]. destruct (Z.eqb_spec u' u) as [->|]; [|done]. exfalso.
    apply Hne. destruct Hpo as (y & q & spt & E1 & E2 & E3 & E4), Hpo' as (y' & q' & spt' & G1 & G2 & G3 & G4). simplify_eq.
    assert (tid p' = tid p) as Etid by (eapply (i_own _ _ _ _ _ Hi); eauto).
    rewrite Etid in *. simplify_eq. eapply NoDup_lookup; [exact (i_fpages _ _ _ _ _ Hi)| |]; rewrite list_lookup_fmap.
    + by rewrite Hg.
    + rewrite Hf. simpl. congruence.
Qed.

Lemma frame_tick_loop_ok n i c (s : vm H D F) m hs cs :
  inv None s m hs cs → (i + n)%nat = length (frame_table s) →
  ∃ s' m', frame_tick_loop n i c s = Ok (tt, s') ∧ same_frames i c s m hs cs s' m'.
Proof.
  revert i s m. induction n as [|n IH]; intros i s m Hi Hlen.
  { exists s, m. split; [done|]. constructor; try done.
    - intros j g Hj. assert (Hlt := lookup_lt_Some _ _ _ Hj). destruct (Nat.leb_spec i j); [lia|done].
    - intros j g Hj Hij. assert (Hlt := lookup_lt_Some _ _ _ Hj). lia. }
  cbn [frame_tick_loop]. destruct (lookup_lt_is_Some_2 (frame_table s) i) as [f Hf]; [lia|].
  erewrite run_bind_ok; [|reflexivity]. erewrite run_bind_ok; [|by apply run_deref].
  destruct (tick_frame s m hs cs i f c Hi Hf) as (s1 & m1 & Hrun & Hi1 & Hsp1 & Hft1 & Hp1 & Ht1 & Hb1 & Ho1).
  destruct (IH (S i) s1 m1 Hi1) as (s2 & m2 & Hrun2 & [I2 Sp2 L2 F2 B2 O2 P2 T2]); [rewrite Hft1, length_insert; lia|].
  exists s2, m2. split.
  { revert Hrun. unfold mbind, ST_bind. destruct (get_page _ _) as [[p s3]|]; [|done].
    destruct (pagedir_of _ _) as [[pd s4]|]; [|done]. destruct (on_hw _ _) as [[b s5]|]; [|done].
    intros Hrun. revert Hrun. destruct b; simpl.
    - destruct (pagedir_of _ _) as [[pd' s6]|]; [|done]. intros ->. exact Hrun2.
    - intros [= ->]. exact Hrun2. }
  constructor; [done|intros; by rewrite Sp2|rewrite L2, Hft1; apply length_insert| | | |congruence|congruence].
  - intros j g Hj. destruct (decide (j = i)) as [->|Hne].
    + rewrite Hf in Hj. injection Hj as ->. rewrite Nat.leb_refl. simpl.
      rewrite (F2 i (ticked c (accessed s m g) g)); [|rewrite Hft1; apply list_lookup_insert_eq; by eapply lookup_lt_Some].
      by rewrite (proj2 (Nat.leb_gt (S i) i)) by lia.
    + rewrite (F2 j g) by (rewrite Hft1, list_lookup_insert_ne by done; done). rewrite (Ho1 j g Hj Hne). do 2 f_equal. f_equal.
      destruct (Nat.leb_spec (S i) j), (Nat.leb_spec i j); try done; lia.
  - intros j g Hj Hij. destruct (decide (j = i)) as [->|Hne]; [|apply (B2 j g Hj); lia].
    rewrite (O2 i g Hj) by lia. destruct (accessed s1 m1 g) eqn:E; [|done]. exfalso.
    assert (Hg : frame_table s1 !! i = Some (ticked c (accessed s m f) f)) by (rewrite Hft1; apply list_lookup_insert_eq; by eapply lookup_lt_Some).
    rewrite (F2 i _ Hg) in Hj. rewrite (proj2 (Nat.leb_gt (S i) i)) in Hj by lia. simpl in Hj. injection Hj as <-.
    revert E. unfold ticked, accessed in *. by destruct (match pages s !! f_page f ≫= _ with Some _ => _ | None => _ end); simpl; rewrite Hb1.
  - intros j g Hj Hij. rewrite (O2 j g Hj) by lia.
    destruct (lookup_lt_is_Some_2 (frame_table s) j) as [g0 Hg0].
    { assert (Hlt := lookup_lt_Some _ _ _ Hj). rewrite L2, Hft1, length_insert in Hlt. done. }
    assert (E : frame_table s1 !! j = Some g0) by (rewrite Hft1, list_lookup_insert_ne by lia; done).
    rewrite (F2 j _ E) in Hj. rewrite (proj2 (Nat.leb_gt (S i) j)) in Hj by lia. simpl in Hj. injection Hj as <-.
    apply (Ho1 j g0 Hg0). lia.
Qed.

(** A timer tick.  [frame_tick] gives the current time to exactly the
    frames whose pages have been accessed since the last one, clears the
    accessed bits, and changes neither the pages nor anyone's memory. *)
Theorem frame_tick_correct (s : vm H D F) m hs cs :
  inv None s m hs cs →
  ∃ s' m', frame_tick s = Ok (tt, s') ∧ inv None s' m' hs cs ∧
    (∀ t v, space s' m' hs cs t v = space s m hs cs t v) ∧ pages s' = pages s ∧
    length (frame_table s') = length (frame_table s) ∧
    ∀ j f, frame_table s !! j = Some f →
      ∃ f', frame_table s' !! j = Some f' ∧ f_kpage f' = f_kpage f ∧ f_page f' = f_page f ∧
        last_accessed_tick f' = (if accessed s m f then ticks s else last_accessed_tick f) ∧ accessed s' m' f' = false.
Proof.
  intros Hi. destruct (frame_tick_loop_ok (length (frame_table s)) 0 (ticks s) s m hs cs Hi eq_refl)
    as (s' & m' & Hrun & [I Sp L Fr B _ P _]).
  exists s', m'. split; [|split; [done|split; [done|split; [done|split; [done|]]]]].
  { unfold frame_tick. by erewrite run_bind_ok; [|reflexivity]. }
  intros j f Hj. exists (ticked (ticks s) (accessed s m f) f). assert (Hj' := Fr j f Hj). simpl in Hj'.
  split; [done|]. unfold ticked in *. destruct (accessed s m f) eqn:E; (split_and!; [done..|]); apply (B j); (done || lia).
Qed.

(** ** Lazily loaded segments *)

(** Opening another file. *)
Lemma inv_handle (s : vm H D F) m hs cs g sec fs :
  inv None s m hs cs → hs !! g = None → pf_rep fs (<[g := sec]> hs) cs →
  inv None (set_fsys fs s) m (<[g := sec]> hs) cs ∧
  ∀ t v, space (set_fsys fs s) m (<[g := sec]> hs) cs t v = space s m hs cs t v.
Proof.
  intros Hi Hg Hfs.
  assert (Hmono : ∀ f c, hs !! f = Some c → (<[g := sec]> hs) !! f = Some c) by (intros f c E; rewrite lookup_insert_ne; congruence).
  split.
  - destruct Hi as [? ? ? Ht Ho Hp ? Hpl Hex Hno Hsl Hfr ? ?]. constructor; try done.
    intros t u k x p Hpo Hx E. specialize (Hpl t u k x p Hpo Hx E). unfold placed in *. destruct (present p); try done.
    destruct Hpl as [(f & c & ? & ? & ?) ?]. split; [|done]. exists f, c. auto.
  - intros t v. destruct (page_of_dec s t v) as [(k & Hk)|Hn]; [|by rewrite !space_none].
    rewrite (space_page_of (set_fsys fs s) _ _ _ _ _ k Hk), (space_page_of s _ _ _ _ _ k Hk). unfold contents_of. simpl.
    destruct (pages s !! k) as [p|] eqn:E; [|done]. simpl. do 2 f_equal. unfold content. destruct (present p) eqn:Epr; [done| |done].
    assert (Hk' := Hk). destruct Hk' as (x & _ & _ & Hx & _). assert (Hpl := i_place _ _ _ _ _ Hi _ _ _ _ _ Hk Hx E).
    unfold placed in Hpl. rewrite Epr in Hpl. destruct Hpl as [(f & c & E1 & E2 & _) _].
    unfold file_bytes. rewrite E1. simpl. by rewrite E2, (Hmono _ _ E2).
Qed.

(** Under the invariant, memory is where there are pages. *)
Lemma space_none_page (s : vm H D F) m hs cs t u :
  inv None s m hs cs → space s m hs cs t u = None → ∀ k, ¬ page_of s t u k.
Proof.
  intros Hi Hs k Hk. rewrite (space_page_of _ _ _ _ _ _ k Hk) in Hs. unfold contents_of in Hs.
  destruct (i_page _ _ _ _ _ Hi _ _ _ Hk) as (p & Hp & _). by rewrite Hp in Hs.
Qed.

(** [lazy_load_segment] adds one page to the current thread's memory, which
    reads as the given bytes of the file followed by zeros, through a file of
    its own; nothing is read yet, no frame is used, and all other memory is as
    before. *)
Lemma lazy_load_ok (junk : page) (s : vm H D F) m hs cs x q u f sec o rb zb w :
  inv None s m hs cs → page_lock s = false → threads s !! current s = Some x → process x = Some q →
  user_page u → space s m hs cs (current s) u = None → hs !! f = Some sec →
  0 ≤ o → 0 ≤ rb → 0 ≤ zb → rb + zb = PGSIZE → o + rb ≤ Z.of_nat (length (cs sec)) → o + rb < 2 ^ 31 →
  ∃ g s', lazy_load_segment junk u f o rb zb w s = Ok (tt, s') ∧ hs !! g = None ∧
    inv None s' m (<[g := sec]> hs) cs ∧ frame_table s' = frame_table s ∧ hw s' = hw s ∧
    threads s' = threads s ∧ current s' = current s ∧ page_lock s' = false ∧ frame_lock s' = frame_lock s ∧
    ∀ t v, space s' m (<[g := sec]> hs) cs t v =
      if (t =? current s) && (v =? u)
      then Some (take (Z.to_nat rb) (drop (Z.to_nat o) (cs sec)) ++ replicate (Z.to_nat zb) 0, w)
      else space s m hs cs t v.
Proof.
  intros Hi Hpl Hx Hq Hu Hnew0 Hf Ho Hrb Hzb Hsum Hfit Hlim. assert (Hnew := space_none_page _ _ _ _ _ _ Hi Hnew0).
  destruct (pf_reopen _ _ _ f sec (i_fs _ _ _ _ _ Hi) Hf) as (g & fs & Hre & Hg & Hfs).
  destruct (inv_handle s m hs cs g sec fs Hi Hg Hfs) as [Hi1 Hsp1].
  destruct (i_thread _ _ _ _ _ Hi _ _ _ Hx Hq) as [_ [spt Hspt]].
  assert (Hfree : spt !! u = None).
  { destruct (spt !! u) as [k|] eqn:E; [|done]. destruct (Hnew k). by exists x, q, spt. }
  set (s1 := set_page_lock true (set_fsys fs s)). set (hs' := <[g := sec]> hs) in *.
  set (p := MkPage u (kpage junk) PRESENT_FILESYS w (current s) (Some g) o rb zb (swap_page junk)).
  assert (Hi1' : inv None s1 m hs' cs) by (by destruct Hi1; constructor).
  assert (Hok : file_ok hs' cs p) by (exists g, sec; simpl; unfold hs'; rewrite lookup_insert_eq; done).
  assert (Hi2 : inv None (added q spt p s1) m hs' cs).
  { apply (inv_added s1 m hs' cs None (current s) x q spt p); try done; by left. }
  destruct (fill_page_ok junk s1 x q spt p (λ p, MkPage u (kpage p) PRESENT_FILESYS w (current s) (Some g) o rb zb (swap_page p))
              Hx Hq Hspt Hfree eq_refl) as (s2 & Hfill & Hadd).
  exists g, (set_page_lock false (added q spt p s1)). split; [|split; [done|split; [by destruct Hi2; constructor|do 6 (split; [done|])]]].
  - unfold lazy_load_segment, acquire_page.
    erewrite run_bind_ok; [|erewrite run_bind_ok; [|reflexivity]; run_assert; [reflexivity|by rewrite Hpl]].
    rewrite (run_bind_ok _ _ _ _ _ (vm_new_page_ok junk (set_page_lock true s))). erewrite run_bind_ok; [|reflexivity].
    rewrite (run_bind_ok _ _ _ _ _ (run_zoom_ok fsys set_fsys _ (allocated junk (set_page_lock true s)) _ _ Hre)).
    change (set_fsys fs (allocated junk (set_page_lock true s))) with (allocated junk s1).
    change (next_key (set_page_lock true s)) with (next_key s1). change (current (allocated junk (set_page_lock true s))) with (current s).
    by rewrite (run_bind_ok _ _ _ _ _ Hfill), (run_bind_ok _ _ _ _ _ Hadd).
  - fold hs'. intros t v. change (space (set_page_lock false (added q spt p s1)) m hs' cs t v) with (space (added q spt p s1) m hs' cs t v).
    destruct (decide (t = current s ∧ v = u)) as [[-> ->]|Hne].
    + rewrite !Z.eqb_refl. simpl. rewrite (space_page_of _ _ _ _ _ _ (next_key s1)).
      * unfold contents_of. simpl. rewrite lookup_insert_eq. simpl. unfold content, file_bytes. simpl.
        unfold hs'. by rewrite lookup_insert_eq.
      * apply (added_page_of s1 m hs' cs (current s) x q spt p); try done. by right.
    + replace ((t =? current s) && (v =? u)) with false by (symmetry; apply andb_false_iff; lia).
      rewrite (space_added s1 m hs' cs (current s) x q spt p) by (done || (simpl; lia)). exact (Hsp1 t v).
Qed.
End tick.
End VmTick.
