(* ===== verification/Process.v ===== *)
(** * Processes: [src/pintos/userprog/process.c]

    A [struct process] is a heap object with a key; the process list is the
    sequence of the keys.  The supplemental page table of a process is the table
    of that key in the memory manager's state.  The semaphores that a thread
    raises when its program is loaded and when it exits are numbers, by thread.
    Code that may end the thread ([exit], [thread_exit]) returns [None] when it
    has.  [junk_page] and [junk] are what allocated records hold at first. *)
From S2P Require Import Prelude CInt CString Hash Palloc Pagedir PagedirSpec Mmu Bytes Block Swap Vm.

Open Scope Z_scope.

(** ** What processes need of page directories and of the file system *)
Class Pagedirs (H : Type) := {
  pagedir_create : ST H Z;
  pagedir_destroy : Z → ST H unit;
  pagedir_activate : Z → ST H unit;
}.

Class UserFiles (F : Type) := {
  filesys_open : list Z → ST F (option nat);
  filesys_open_dir : list Z → ST F (option nat);
  filesys_create : list Z → Z → bool → ST F bool;
  filesys_remove : list Z → ST F bool;
  file_tell : nat → ST F Z;
  file_deny_write : nat → ST F unit;
  file_inumber : nat → ST F Z;
  dir_open_root : ST F (option nat);
  dir_reopen : nat → ST F (option nat);
  dir_close : option nat → ST F unit;
  dir_readdir_strict : nat → ST F (option (list Z));
  dir_inumber : nat → ST F Z;
  (** The current directories of the processes, in the order of the process
      list, and the place of the current one. *)
  get_dirs : F → list (option nat);
  set_dirs : list (option nat) → option nat → F → F;
}.

Module Process.
Import Palloc (NULL, PAL_ZERO).
Import Swap Vm.

Definition TID_ERROR : Z := -1.

(** Elements of [fd_map]; [fd_file] is a file or a directory. *)
Record file_descriptor := MkFd { fd : Z; is_dir : bool; fd_file : nat }.

(** Elements of [mapid_map]. *)
Record mapid_entry := MkMapid { mapid : Z; m_file : nat; m_addr : Z; m_length : Z }.

(** [struct process]. *)
Record process := MkProcess {
  status : Z; pid : Z; parent_pid : Z; file_name : list Z; executable : option nat; dir : option nat;
  loaded_success : bool; is_waited_on : bool; fd_map : list file_descriptor; mapid_map : gmap Z mapid_entry
}.

Definition set_status x p := MkProcess x (pid p) (parent_pid p) (file_name p) (executable p) (dir p) (loaded_success p) (is_waited_on p) (fd_map p) (mapid_map p).
Definition set_pid x p := MkProcess (status p) x (parent_pid p) (file_name p) (executable p) (dir p) (loaded_success p) (is_waited_on p) (fd_map p) (mapid_map p).
Definition set_file_name x p := MkProcess (status p) (pid p) (parent_pid p) x (executable p) (dir p) (loaded_success p) (is_waited_on p) (fd_map p) (mapid_map p).
Definition set_executable x p := MkProcess (status p) (pid p) (parent_pid p) (file_name p) x (dir p) (loaded_success p) (is_waited_on p) (fd_map p) (mapid_map p).
Definition set_dir x p := MkProcess (status p) (pid p) (parent_pid p) (file_name p) (executable p) x (loaded_success p) (is_waited_on p) (fd_map p) (mapid_map p).
Definition set_loaded_success x p := MkProcess (status p) (pid p) (parent_pid p) (file_name p) (executable p) (dir p) x (is_waited_on p) (fd_map p) (mapid_map p).
Definition set_is_waited_on x p := MkProcess (status p) (pid p) (parent_pid p) (file_name p) (executable p) (dir p) (loaded_success p) x (fd_map p) (mapid_map p).
Definition set_fd_map x p := MkProcess (status p) (pid p) (parent_pid p) (file_name p) (executable p) (dir p) (loaded_success p) (is_waited_on p) x (mapid_map p).
Definition set_mapid_map x p := MkProcess (status p) (pid p) (parent_pid p) (file_name p) (executable p) (dir p) (loaded_success p) (is_waited_on p) (fd_map p) x.

(** [start] is what a new thread runs: the page and the text of its command
    line.  [console] is what has been written to it, [exits] the messages of
    [exit], [filesys_syscall_lock] the holder of the lock. *)
Record kernel (H D F : Type) := MkKernel {
  mem : vm H D F;
  procs : gmap nat process;
  process_list : list nat;
  next_proc : nat;
  next_tid : Z;
  loaded_sema : gmap Z Z;
  alive_sema : gmap Z Z;
  start : gmap Z (Z * list Z);
  console : list Z;
  exits : list (list Z * Z);
  filesys_syscall_lock : option Z
}.
Arguments MkKernel {H D F}.
Arguments mem {H D F}.
Arguments procs {H D F}.
Arguments process_list {H D F}.
Arguments next_proc {H D F}.
Arguments next_tid {H D F}.
Arguments loaded_sema {H D F}.
Arguments alive_sema {H D F}.
Arguments start {H D F}.
Arguments console {H D F}.
Arguments exits {H D F}.
Arguments filesys_syscall_lock {H D F}.

Section fields.
Context {H D F : Type}.
Implicit Type (s : kernel H D F).
Definition set_mem x s : kernel H D F := MkKernel x (procs s) (process_list s) (next_proc s) (next_tid s) (loaded_sema s) (alive_sema s) (start s) (console s) (exits s) (filesys_syscall_lock s).
Definition set_procs x s : kernel H D F := MkKernel (mem s) x (process_list s) (next_proc s) (next_tid s) (loaded_sema s) (alive_sema s) (start s) (console s) (exits s) (filesys_syscall_lock s).
Definition set_process_list x s : kernel H D F := MkKernel (mem s) (procs s) x (next_proc s) (next_tid s) (loaded_sema s) (alive_sema s) (start s) (console s) (exits s) (filesys_syscall_lock s).
Definition set_loaded_sema x s : kernel H D F := MkKernel (mem s) (procs s) (process_list s) (next_proc s) (next_tid s) x (alive_sema s) (start s) (console s) (exits s) (filesys_syscall_lock s).
Definition set_alive_sema x s : kernel H D F := MkKernel (mem s) (procs s) (process_list s) (next_proc s) (next_tid s) (loaded_sema s) x (start s) (console s) (exits s) (filesys_syscall_lock s).
Definition set_console x s : kernel H D F := MkKernel (mem s) (procs s) (process_list s) (next_proc s) (next_tid s) (loaded_sema s) (alive_sema s) (start s) x (exits s) (filesys_syscall_lock s).
Definition set_exits x s : kernel H D F := MkKernel (mem s) (procs s) (process_list s) (next_proc s) (next_tid s) (loaded_sema s) (alive_sema s) (start s) (console s) x (filesys_syscall_lock s).
Definition set_syscall_lock x s : kernel H D F := MkKernel (mem s) (procs s) (process_list s) (next_proc s) (next_tid s) (loaded_sema s) (alive_sema s) (start s) (console s) (exits s) x.
End fields.

Section process.
Context {H D F : Type} `{!Mmu H, !Pagedirs H, !BlockDriver D, !PageFiles F, !UserFiles F}.
Context (junk_page : page) (junk : process).
Abbreviation K := (kernel H D F).
Abbreviation M := (ST (kernel H D F)).

(** Code that may end the thread. *)
Definition never {A} : M (option A) := mret None.
Definition bindN {A B} (m : M (option A)) (k : A → M (option B)) : M (option B) :=
  r ← m; match r with Some a => k a | None => mret None end.
Definition some {A} (m : M A) : M (option A) := a ← m; mret (Some a).

Definition on_vm {A} : ST (vm H D F) A → M A := zoom mem set_mem.
Definition get_proc (k : nat) : M process := s ← get; deref (procs s !! k).
Definition upd_proc (k : nat) (f : process → process) : M unit :=
  p ← get_proc k; modify (λ s, set_procs (<[k := f p]> (procs s)) s).

(** [thread_current ()->process]. *)
Definition current_process : M (option nat) := t ← on_vm thread_current; mret (Vm.process t).

(** File system code, which sees the processes' current directories. *)
Definition proc_dirs (s : K) : list (option nat) := (λ k, procs s !! k ≫= dir) <$> process_list s.
Fixpoint put_dirs (l : list nat) (ds : list (option nat)) (ps : gmap nat process) : gmap nat process :=
  match l, ds with
  | k :: l, d :: ds => put_dirs l ds (match ps !! k with Some p => <[k := set_dir d p]> ps | None => ps end)
  | _, _ => ps
  end.
Definition current_index (s : K) : option nat :=
  threads (mem s) !! current (mem s) ≫= λ t, Vm.process t ≫= λ k, fst <$> list_find (k =.) (process_list s).
Definition on_files {A} (m : ST F A) : M A := s ← get;
  a ← on_vm (on_fs (modify (set_dirs (proc_dirs s) (current_index s)) ;; m));
  modify (λ s, set_procs (put_dirs (process_list s) (get_dirs (fsys (mem s))) (procs s)) s) ;;
  mret a.

(** ** The process list *)

Fixpoint get_process_loop (l : list nat) (id : Z) : M (option nat) :=
  match l with
  | [] => mret None
  | k :: l => p ← get_proc k; if pid p =? id then mret (Some k) else get_process_loop l id
  end.
Definition get_process (id : Z) : M (option nat) := s ← get; get_process_loop (process_list s) id.

Definition clean_process (id : Z) : M unit :=
  o ← get_process id; k ← deref o;
  modify (λ s, set_procs (delete k (procs s)) (set_process_list (filter (k ≠.) (process_list s)) s)).

(** The elements after [prev], which is the head of the list if [None]. *)
Fixpoint after (prev : nat) (l : list nat) : option (list nat) :=
  match l with [] => None | k :: l => if decide (k = prev) then Some l else after prev l end.
Fixpoint clean_loop (fuel : nat) (prev : option nat) (parent : Z) : M unit :=
  match fuel with
  | O => fail Timeout
  | S fuel =>
    s ← get;
    rest ← deref (match prev with None => Some (process_list s) | Some k => after k (process_list s) end);
    match rest with
    | [] => mret tt
    | k :: _ =>
      p ← get_proc k;
      if parent_pid p =? parent then clean_process (pid p) ;; clean_loop fuel prev parent
      else clean_loop fuel (Some k) parent
    end
  end.
Definition clean_child_processes (parent : Z) : M unit :=
  s ← get; clean_loop (S (length (process_list s))) None parent.

(** ** Starting a process *)

(** [thread_create (file_name, PRI_DEFAULT, start_process, fn_copy)]. *)
Definition thread_create (fn_copy : Z) (command : list Z) : M Z :=
  page ← on_vm (on_hw (palloc_get_page PAL_ZERO));
  if page =? NULL then mret TID_ERROR else
  s ← get;
  let tid := next_tid s in
  put (MkKernel (set_threads (<[tid := MkThread NULL 0 0 None]> (threads (mem s))) (mem s)) (procs s) (process_list s)
         (next_proc s) (tid + 1) (<[tid := 0]> (loaded_sema s)) (<[tid := 0]> (alive_sema s))
         (<[tid := (fn_copy, command)]> (start s)) (console s) (exits s) (filesys_syscall_lock s)) ;;
  mret tid.

(** The [struct process] of a new process, in the process list. *)
Definition new_process (parent : Z) (d : option nat) : M nat :=
  s ← get;
  let k := next_proc s in
  let m := mem s in
  put (MkKernel (set_spts (<[k := ∅]> (spts m)) m)
         (<[k := MkProcess (-1) (pid junk) parent (file_name junk) (executable junk) d (loaded_success junk) false [] ∅]> (procs s))
         (process_list s ++ [k]) (S k) (next_tid s) (loaded_sema s) (alive_sema s) (start s) (console s) (exits s)
         (filesys_syscall_lock s)) ;;
  mret k.

(** [name] is the text of the command line; [alloc] tells whether [malloc]
    finds memory for the [struct process].  The thread that [thread_create]
    makes does not run before the call returns. *)
Definition process_execute (alloc : bool) (name : list Z) : M Z :=
  fn_copy ← on_vm (on_hw (palloc_get_page 0));
  if fn_copy =? NULL then mret TID_ERROR else
  let command := take (Z.to_nat (PGSIZE - 1)) name in
  s ← get;
  let parent := current (mem s) in
  process ← (if alloc then
    o ← current_process;
    parent_dir ← (match o with Some q => p ← get_proc q; mret (dir p) | None => mret None end);
    d ← (match parent_dir with Some d => on_files (dir_reopen d) | None => on_files dir_open_root end);
    k ← new_process parent d; mret (Some k)
  else mret None);
  tid ← thread_create fn_copy command;
  s ← get;
  (if threads (mem s) !! tid is Some t then
     modify (λ s, set_mem (set_threads (<[tid := MkThread (pagedir t) (esp t) (stack_pages t) process]> (threads (mem s))) (mem s)) s)
   else mret tt) ;;
  (if tid =? TID_ERROR then on_vm (on_hw (palloc_free_page fn_copy))
   else k ← deref process; upd_proc k (set_pid tid)) ;;
  mret tid.

(** ** Ending a process *)

Definition sema_up (sema : K → gmap Z Z) (set : gmap Z Z → K → K) (t : Z) : M unit :=
  s ← get; v ← deref (sema s !! t); modify (set (<[t := u32 (v + 1)]> (sema s))).

(** [hash_destroy (&p->spage_table, page_destructor)]. *)
Fixpoint destroy_pages (l : list nat) : M unit :=
  match l with [] => mret tt | k :: l => on_vm (page_destructor k) ;; destroy_pages l end.

Definition process_exit : M unit :=
  t ← on_vm thread_current;
  (match Vm.process t with
   | Some k =>
     p ← get_proc k;
     clean_child_processes (pid p) ;;
     p ← get_proc k;
     (match executable p with Some f => on_files (file_close (Some f)) | None => mret tt end) ;;
     s ← get; spt ← deref (spts (mem s) !! k);
     destroy_pages (snd <$> map_to_list spt) ;;
     modify (λ s, set_mem (set_spts (delete k (spts (mem s))) (mem s)) s)
   | None => mret tt
   end) ;;
  if pagedir t =? NULL then mret tt else
  modify (λ s, set_mem (set_threads (<[current (mem s) := MkThread NULL (esp t) (stack_pages t) (Vm.process t)]> (threads (mem s))) (mem s)) s) ;;
  on_vm (on_hw (pagedir_activate NULL)) ;;
  on_vm (on_hw (pagedir_destroy (pagedir t))).

(** [thread_exit] of [threads/thread.c]: never returns. *)
Definition thread_exit {A} : M (option A) :=
  process_exit ;;
  s ← get;
  sema_up alive_sema set_alive_sema (current (mem s)) ;;
  modify (λ s, set_mem (set_threads (delete (current (mem s)) (threads (mem s))) (mem s)) s) ;;
  never.

(** [process_wait] up to the semaphore: the process whose status is to be
    returned and the thread to wait for, if it is alive. *)
Definition process_wait_begin (child_tid : Z) : M (option (nat * option Z)) :=
  s ← get;
  let cur := current (mem s) in
  o ← get_process child_tid;
  match o with
  | None => mret None
  | Some k =>
    p ← get_proc k;
    if (parent_pid p =? cur) && negb (is_waited_on p) then
      upd_proc k (set_is_waited_on true) ;;
      s ← get;
      mret (Some (k, if threads (mem s) !! child_tid is Some _ then Some child_tid else None))
    else mret None
  end.
(** Once the semaphore has been passed. *)
Definition process_wait_end (k : nat) : M Z := p ← get_proc k; mret (status p).

Definition process_activate : M unit := t ← on_vm thread_current; on_vm (on_hw (pagedir_activate (pagedir t))).
End process.
End Process.
