(* ===== verification/SyscallFile.v ===== *)
(** * The files of a process: [src/pintos/userprog/syscall-file.c]

    File descriptors, mapped files, and [exit] of [userprog/syscall.c], which
    gives them back.  The kernel reads and writes a program's memory through
    the program's page directory, byte by byte; [kesp] is what the interrupt
    frame has for the stack pointer when the kernel itself faults. *)
From S2P Require Import Prelude CInt Hash Palloc Pagedir PagedirSpec Mmu Block Swap Vm Process.

Open Scope Z_scope.

Module SyscallFile.
Import Palloc (NULL).
Import Swap Vm Process.

Definition MIN_FD : Z := 2.

Section files.
Context {H D F : Type} `{!Mmu H, !Pagedirs H, !BlockDriver D, !PageFiles F, !UserFiles F}.
Context (junk_page : page) (kesp : Z).
Abbreviation K := (kernel H D F).
Abbreviation M := (ST (kernel H D F)).

(** ** The program's memory *)

(** A fault that cannot be handled in the kernel panics ([kill]); reading does
    not violate a page's rights. *)
Definition kread (a : Z) : M Z :=
  r ← on_vm (mem_read junk_page false a kesp);
  match r with inr b => mret b | inl Resume => fail Timeout | inl _ => fail Panic end.
Fixpoint kread_bytes (a : Z) (n : nat) : M (list Z) :=
  match n with O => mret [] | S n => b ← kread a; l ← kread_bytes (u32 (a + 1)) n; mret (b :: l) end.

(** ** File descriptors *)

(** [fd_open_file]: whether it is a directory, and the file. *)
Definition fd_open_file (name : list Z) : M (option (bool * nat)) :=
  file ← on_files (filesys_open name);
  match file with
  | Some f => mret (Some (false, f))
  | None => d ← on_files (filesys_open_dir name); mret ((true,.) <$> d)
  end.

Definition fd_close_file (x : file_descriptor) : M unit :=
  if is_dir x then on_files (dir_close (Some (fd_file x))) else on_files (file_close (Some (fd_file x))).

Definition fd_get_inumber (x : file_descriptor) : M Z :=
  if is_dir x then on_files (dir_inumber (fd_file x)) else on_files (file_inumber (fd_file x)).

(** The loop of [create_fd] over the descriptors, with [e] at place [i]: the
    new descriptor, and the place it is inserted at. *)
Fixpoint create_fd_loop (l : list file_descriptor) (n : Z) (i : nat) : Z * nat :=
  match l with
  | [] => (n, i)
  | x :: l => if negb (n =? fd x) then (n, S i) else create_fd_loop l (n + 1) (S i)
  end.

Definition create_fd (name : list Z) : M Z :=
  o ← current_process;
  match o with
  | None => mret (-1)
  | Some k =>
    r ← fd_open_file name;
    match r with
    | None => mret (-1)
    | Some (d, f) =>
      p ← get_proc k;
      let '(n, i) := create_fd_loop (fd_map p) MIN_FD 0 in
      upd_proc k (set_fd_map (take i (fd_map p) ++ MkFd n d f :: drop i (fd_map p))) ;;
      mret n
    end
  end.

Fixpoint clean_fds_loop (n : nat) (k : nat) : M unit :=
  match n with
  | O => mret tt
  | S n =>
    p ← get_proc k;
    match fd_map p with
    | [] => mret tt
    | x :: l => upd_proc k (set_fd_map l) ;; fd_close_file x ;; clean_fds_loop n k
    end
  end.
Definition clean_fds : M unit :=
  o ← current_process;
  match o with Some k => p ← get_proc k; clean_fds_loop (length (fd_map p)) k | None => mret tt end.

Definition get_file_descriptor (n : Z) : M (option file_descriptor) :=
  o ← current_process;
  match o with
  | Some k => p ← get_proc k; mret (snd <$> list_find (λ x, fd x = n) (fd_map p))
  | None => mret None
  end.

(** ** Mapped files *)

(** The keys of [mapid_map] are the identifiers, since entries are equal when
    neither is less. *)
Definition mapid_hash (m : mapid_entry) : Z := Hash.hash_int (mapid m).
Definition mapid_less (a b : mapid_entry) : bool := mapid a <? mapid b.

Definition mapid_lookup (id : Z) : M (option mapid_entry) :=
  o ← current_process;
  match o with Some k => p ← get_proc k; mret (mapid_map p !! id) | None => mret None end.

(** The first identifier from [i] on that is free. *)
Fixpoint mapid_loop (fuel : nat) (i : Z) : M Z :=
  match fuel with
  | O => fail Timeout
  | S fuel => o ← mapid_lookup i; if o is Some _ then mapid_loop fuel (i + 1) else mret i
  end.

Definition create_mapid (n addr : Z) : M (option mapid_entry) :=
  ASSERT (is_user_vaddr addr) ;;
  o ← current_process;
  d ← get_file_descriptor n;
  match o, d with
  | Some k, Some x =>
    if is_dir x then mret None else
    len ← on_files (file_length (fd_file x));
    if 0 <? len then
      p ← get_proc k;
      i ← mapid_loop (S (size (mapid_map p))) 0;
      g ← on_files (file_reopen (fd_file x)); g ← deref g;
      len ← on_files (file_length g);
      let e := MkMapid i g addr (u32 len) in
      upd_proc k (λ p, set_mapid_map (<[i := e]> (mapid_map p)) p) ;;
      mret (Some e)
    else mret None
  | _, _ => mret None
  end.

(** The pages that are written back. *)
Fixpoint write_back (fuel : nat) (f : nat) (addr write_bytes : Z) : M unit :=
  if negb (0 <? write_bytes) then mret tt else
  match fuel with
  | O => fail Timeout
  | S fuel =>
    t ← on_vm thread_current;
    dirty ← on_vm (on_hw (pagedir_is_dirty (pagedir t) addr));
    (if dirty : bool then
       let page_write_bytes := if PGSIZE <? write_bytes then PGSIZE else write_bytes in
       file_contents ← kread_bytes addr (Z.to_nat page_write_bytes);
       on_files (file_write f file_contents page_write_bytes) ;; mret tt
     else mret tt) ;;
    write_back fuel f (u32 (addr + PGSIZE)) (write_bytes - PGSIZE)
  end.
Fixpoint free_pages (fuel : nat) (addr end_addr : Z) : M unit :=
  if negb (addr <=? end_addr) then mret tt else
  match fuel with
  | O => fail Timeout
  | S fuel => on_vm (page_free addr) ;; free_pages fuel (u32 (addr + PGSIZE)) end_addr
  end.

Definition internal_remove_mapid (m : mapid_entry) : M unit :=
  on_files (file_seek (m_file m) 0) ;;
  let fuel := Z.to_nat (m_length m / PGSIZE + 2) in
  write_back fuel (m_file m) (m_addr m) (s32 (m_length m)) ;;
  on_files (file_seek (m_file m) 0) ;;
  free_pages fuel (pg_round_down (m_addr m)) (u32 (m_addr m + m_length m)) ;;
  on_files (file_close (Some (m_file m))).

Definition remove_mapid (id : Z) : M unit :=
  o ← current_process;
  m ← mapid_lookup id;
  match m with
  | None => mret tt
  | Some m =>
    (match o with Some k => upd_proc k (λ p, set_mapid_map (delete id (mapid_map p)) p) | None => mret tt end) ;;
    internal_remove_mapid m
  end.

(** [hash_destroy (&p->mapid_map, mapid_destructor)]. *)
Fixpoint destroy_mapids (l : list mapid_entry) : M unit :=
  match l with [] => mret tt | m :: l => internal_remove_mapid m ;; destroy_mapids l end.
Definition clean_mapids : M unit :=
  o ← current_process;
  match o with
  | Some k => p ← get_proc k; destroy_mapids (snd <$> map_to_list (mapid_map p)) ;; upd_proc k (set_mapid_map ∅)
  | None => mret tt
  end.

(** ** [exit] *)

Definition exit {A} (st : Z) : M (option A) :=
  o ← current_process;
  (match o with
   | Some k =>
     upd_proc k (set_status st) ;;
     p ← get_proc k;
     (match dir p with Some d => on_files (dir_close (Some d)) | None => mret tt end) ;;
     clean_mapids ;;
     clean_fds
   | None => mret tt
   end) ;;
  k ← deref o; p ← get_proc k;
  modify (λ s, set_exits (exits s ++ [(file_name p, st)]) s) ;;
  thread_exit.

(** The kernel writes to the program's memory. *)
Definition kwrite (a v : Z) : M (option unit) :=
  r ← on_vm (mem_write junk_page false a v kesp);
  match r with
  | inr _ => mret (Some tt)
  | inl (Exit st) => exit st
  | inl Resume => fail Timeout
  | inl Kill => fail Panic
  end.
Fixpoint kwrite_bytes (a : Z) (bs : list Z) : M (option unit) :=
  match bs with [] => mret (Some tt) | b :: bs => bindN (kwrite a b) (λ _, kwrite_bytes (u32 (a + 1)) bs) end.
End files.
End SyscallFile.
