(* ===== verification/Exec.v ===== *)
(** * Loading and starting programs: [load] and [start_process] of
    [src/pintos/userprog/process.c]

    A file's headers are read as byte sequences and taken apart.  The command
    line is taken apart with [strtok_r] in a buffer of its own, and the kernel
    writes the arguments to the top of the new program's stack. *)
From S2P Require Import Prelude CInt CString Hash Palloc Pagedir PagedirSpec Mmu Bytes Block Swap Vm Process SyscallFile.

Open Scope Z_scope.

Module Exec.
Import Palloc (NULL).
Import Swap Vm Process SyscallFile.

(** ** ELF *)
Definition PT_NULL : Z := 0.
Definition PT_LOAD : Z := 1.
Definition PT_DYNAMIC : Z := 2.
Definition PT_INTERP : Z := 3.
Definition PT_NOTE : Z := 4.
Definition PT_SHLIB : Z := 5.
Definition PT_PHDR : Z := 6.
Definition PT_STACK : Z := 0x6474e551.
Definition PF_W : Z := 2.

Definition half_at (bs : list Z) (i : nat) : Z := nth i bs 0 + 2 ^ 8 * nth (i + 1) bs 0.
Definition word_at (bs : list Z) (i : nat) : Z := half_at bs i + 2 ^ 16 * half_at bs (i + 2).

(** The fields of the headers that the code uses. *)
Record Elf32_Ehdr := MkEhdr {
  e_ident : list Z; e_type : Z; e_machine : Z; e_version : Z; e_entry : Z; e_phoff : Z; e_phentsize : Z; e_phnum : Z
}.
Definition sizeof_Ehdr : Z := 52.
Definition ehdr_of (bs : list Z) : Elf32_Ehdr :=
  MkEhdr (take 16 bs) (half_at bs 16) (half_at bs 18) (word_at bs 20) (word_at bs 24) (word_at bs 28) (half_at bs 42) (half_at bs 44).

Record Elf32_Phdr := MkPhdr {
  p_type : Z; p_offset : Z; p_vaddr : Z; p_filesz : Z; p_memsz : Z; p_flags : Z
}.
Definition sizeof_Phdr : Z := 32.
Definition phdr_of (bs : list Z) : Elf32_Phdr :=
  MkPhdr (word_at bs 0) (word_at bs 4) (word_at bs 8) (word_at bs 16) (word_at bs 20) (word_at bs 24).

Definition good_header (bs : list Z) : bool :=
  let h := ehdr_of bs in
  (Z.of_nat (length bs) =? sizeof_Ehdr) && bool_decide (take 7 (e_ident h) = [0x7f; 69; 76; 70; 1; 1; 1]) &&
  (e_type h =? 2) && (e_machine h =? 3) && (e_version h =? 1) && (e_phentsize h =? sizeof_Phdr) && (e_phnum h <=? 1024).

(** The tests of [validate_segment] that do not need the file. *)
Definition valid_range (ph : Elf32_Phdr) : bool :=
  if p_memsz ph <? p_filesz ph then false
  else if p_memsz ph =? 0 then false
  else if negb (is_user_vaddr (p_vaddr ph)) then false
  else if negb (is_user_vaddr (u32 (p_vaddr ph + p_memsz ph))) then false
  else if u32 (p_vaddr ph + p_memsz ph) <? p_vaddr ph then false
  else if p_vaddr ph <? PGSIZE then false
  else true.

(** What the headers say of a segment: the place in the file, the page, the
    bytes to read and to clear, and whether it is writable. *)
Definition segment (ph : Elf32_Phdr) : Z * Z * Z * Z * bool :=
  let writable := negb (Z.land (p_flags ph) PF_W =? 0) in
  let file_page := Z.ldiff (p_offset ph) PGMASK in
  let mem_page := Z.ldiff (p_vaddr ph) PGMASK in
  let page_offset := Z.land (p_vaddr ph) PGMASK in
  if 0 <? p_filesz ph then
    let read_bytes := u32 (page_offset + p_filesz ph) in
    (file_page, mem_page, read_bytes, u32 (ROUND_UP (u32 (page_offset + p_memsz ph)) PGSIZE - read_bytes), writable)
  else (file_page, mem_page, 0, ROUND_UP (u32 (page_offset + p_memsz ph)) PGSIZE, writable).

Section exec.
Context {H D F : Type} `{!Mmu H, !Pagedirs H, !BlockDriver D, !PageFiles F, !UserFiles F}.
Context (junk_page : page) (kesp : Z).
Abbreviation K := (kernel H D F).
Abbreviation M := (ST (kernel H D F)).

Definition validate_segment (ph : Elf32_Phdr) (file : nat) : ST (vm H D F) bool :=
  if negb (Z.land (p_offset ph) PGMASK =? Z.land (p_vaddr ph) PGMASK) then mret false else
  len ← on_fs (file_length file);
  mret (if u32 len <? p_offset ph then false else valid_range ph).

(** The loop of [load_segment]. *)
Fixpoint load_segment_loop (fuel : nat) (file : nat) (o upage read_bytes zero_bytes : Z) (w : bool) : ST (vm H D F) unit :=
  if negb ((0 <? read_bytes) || (0 <? zero_bytes)) then mret tt else
  match fuel with
  | O => fail Timeout
  | S fuel =>
    let page_read_bytes := if read_bytes <? PGSIZE then read_bytes else PGSIZE in
    let page_zero_bytes := PGSIZE - page_read_bytes in
    lazy_load_segment junk_page upage file o page_read_bytes page_zero_bytes w ;;
    load_segment_loop fuel file (s32 (o + page_read_bytes)) (u32 (upage + PGSIZE)) (u32 (read_bytes - page_read_bytes))
      (u32 (zero_bytes - page_zero_bytes)) w
  end.

Definition load_segment (file : nat) (o upage read_bytes zero_bytes : Z) (w : bool) : ST (vm H D F) bool :=
  ASSERT (u32 (read_bytes + zero_bytes) mod PGSIZE =? 0) ;;
  ASSERT (pg_ofs upage =? 0) ;;
  ASSERT (Z.rem o PGSIZE =? 0) ;;
  on_fs (file_seek file o) ;;
  load_segment_loop (Z.to_nat ((read_bytes + zero_bytes) / PGSIZE)) file o upage read_bytes zero_bytes w ;;
  mret true.

(** [setup_stack]: the stack pointer. *)
Definition setup_stack : ST (vm H D F) (option Z) :=
  u ← stack_page_alloc junk_page; mret (if u =? NULL then None else Some PHYS_BASE).

(** The program headers; false: the file cannot be loaded. *)
Fixpoint load_headers (n : nat) (file : nat) (file_ofs : Z) : ST (vm H D F) bool :=
  match n with
  | O => mret true
  | S n =>
    len ← on_fs (file_length file);
    if (file_ofs <? 0) || (len <? file_ofs) then mret false else
    on_fs (file_seek file file_ofs) ;;
    bs ← on_fs (file_read file sizeof_Phdr);
    if negb (Z.of_nat (length bs) =? sizeof_Phdr) then mret false else
    let ph := phdr_of bs in
    let next := load_headers n file (s32 (file_ofs + sizeof_Phdr)) in
    if (p_type ph =? PT_DYNAMIC) || (p_type ph =? PT_INTERP) || (p_type ph =? PT_SHLIB) then mret false
    else if p_type ph =? PT_LOAD then
      valid ← validate_segment ph file;
      if valid : bool then
        let '(file_page, mem_page, read_bytes, zero_bytes, w) := segment ph in
        ok ← load_segment file (s32 file_page) mem_page read_bytes zero_bytes w;
        if ok : bool then next else mret false
      else mret false
    else next
  end.

(** After the file has been opened: the entry point and the stack pointer. *)
Definition load_file (file : nat) : ST (vm H D F) (option (Z * Z)) :=
  bs ← on_fs (file_read file sizeof_Ehdr);
  if negb (good_header bs) then mret None else
  let ehdr := ehdr_of bs in
  ok ← load_headers (Z.to_nat (e_phnum ehdr)) file (s32 (e_phoff ehdr));
  if negb ok then mret None else
  sp ← setup_stack;
  mret ((e_entry ehdr,.) <$> sp).

Definition load (name : list Z) : M (option (Z * Z)) :=
  s ← get;
  pd ← on_vm (on_hw pagedir_create);
  t ← on_vm thread_current;
  on_vm (modify (λ v, set_threads (<[current v := MkThread pd (esp t) (stack_pages t) (Vm.process t)]> (threads v)) v)) ;;
  r ← (if pd =? NULL then mret (None, None) else
       process_activate ;;
       file ← on_files (filesys_open name);
       match file with
       | None => mret (None, None)
       | Some f => r ← on_vm (load_file f); mret (r, Some f)
       end);
  let '(success, file) := r in
  o ← current_process;
  (match o with
   | Some k =>
     upd_proc k (set_loaded_success (bool_decide (is_Some success))) ;;
     (match file with
      | Some f => upd_proc k (set_executable (Some f)) ;; on_files (file_deny_write f)
      | None => mret tt
      end)
   | None => mret tt
   end) ;;
  sema_up loaded_sema set_loaded_sema (current (mem s)) ;;
  mret success.

(** ** Arguments *)
Definition COMMAND_MAX_CHARS : nat := 128.
Definition MAX_CHARS : nat := 16.
Definition MAX_ARGS : Z := 32.

(** The buffer for the command line, with the delimiter beside it. *)
Definition file_name_buf : Z := CString.buffer.
Definition space_str : Z := CString.delimiter.
Definition args_mem (command : list Z) : CString.mem := CString.token_mem 32 command.

(** The strings are pushed, first argument first: the stack pointer, the bytes
    pushed, and the addresses of the strings. *)
Fixpoint push_strings (fuel : nat) (m : CString.mem) (token save_ptr sp total_size : Z) (ptrs : list Z)
    : M (option (Z * Z * list Z)) :=
  if (token =? CString.NULL) || negb (Z.of_nat (length ptrs) <? MAX_ARGS) then mret (Some (sp, total_size, ptrs)) else
  match fuel with
  | O => fail Timeout
  | S fuel =>
    str ← lift (CString.string_at m token);
    let size := Z.of_nat (length str) + 1 in
    let sp := u32 (sp - size) in
    bindN (kwrite_bytes junk_page kesp sp (str ++ [0])) (λ _,
    r ← lift (CString.strtok_r CString.NULL space_str save_ptr m);
    let '((token, save_ptr), m) := r in
    push_strings fuel m token save_ptr sp (total_size + size) (ptrs ++ [sp]))
  end.

(** [*(int32_t * ) (esp -= 4) = w]. *)
Definition push_word (sp w : Z) : M (option Z) :=
  let sp := u32 (sp - 4) in bindN (kwrite_bytes junk_page kesp sp (le32 (u32 w))) (λ _, mret (Some sp)).

(** The addresses of the strings, last first. *)
Fixpoint push_pointers (l : list Z) (sp : Z) : M (option Z) :=
  match l with [] => mret (Some sp) | p :: l => bindN (push_word sp p) (push_pointers l) end.

(** The stack of a new program: its stack pointer.  The words come from the
    command line that [start_process] has cut to 127 characters. *)
Definition push_arguments (m : CString.mem) (token save_ptr sp : Z) : M (option Z) :=
  bindN (push_strings (S (Z.to_nat MAX_ARGS)) m token save_ptr sp 0 []) (λ r,
  let '(sp, total_size, ptrs) := r in
  let offset := total_size mod 4 + 4 in
  let sp := u32 (sp - offset) in
  bindN (kwrite_bytes junk_page kesp sp (replicate (Z.to_nat offset) 0)) (λ _,
  bindN (push_pointers (reverse ptrs) sp) (λ sp,
  bindN (push_word sp sp) (λ sp,
  bindN (push_word sp (Z.of_nat (length ptrs))) (λ sp,
  push_word sp 0))))).

(** [page] is the page of the command line; the result is where the program
    starts and its stack pointer. *)
Definition start_process (page : Z) (command : list Z) : M (option (Z * Z)) :=
  let file_name := take (COMMAND_MAX_CHARS - 1) command in
  r ← lift (CString.strtok_r file_name_buf space_str CString.NULL (args_mem file_name));
  let '((token, save_ptr), m) := r in
  name ← lift (CString.string_at m file_name_buf);
  success ← load name;
  o ← current_process; k ← deref o;
  upd_proc k (set_file_name (take (MAX_CHARS - 1) name)) ;;
  on_vm (on_hw (palloc_free_page page)) ;;
  match success with
  | None => thread_exit
  | Some (eip, sp) => bindN (push_arguments m token save_ptr sp) (λ sp, mret (Some (eip, sp)))
  end.
End exec.
End Exec.
