(* ===== verification/Syscall.v ===== *)
(** * System calls: [src/pintos/userprog/syscall.c]

    A call is a function of the kernel's state and the program's memory.  The
    kernel's accesses to a program's buffer come before the file operation that
    uses the bytes, or after the one that supplies them.  [exec] and [wait] stop
    at a semaphore; [key] is what [input_getc] returns. *)
From S2P Require Import Prelude CInt CString Hash Palloc Pagedir PagedirSpec Mmu Block Swap Vm Process SyscallFile Exec.

Open Scope Z_scope.

Module Syscall.
Import Palloc (NULL).
Import Swap Vm Process SyscallFile Exec.

(** [syscall-nr.h]. *)
Definition SYS_HALT : Z := 0.
Definition SYS_EXIT : Z := 1.
Definition SYS_EXEC : Z := 2.
Definition SYS_WAIT : Z := 3.
Definition SYS_CREATE : Z := 4.
Definition SYS_REMOVE : Z := 5.
Definition SYS_OPEN : Z := 6.
Definition SYS_FILESIZE : Z := 7.
Definition SYS_READ : Z := 8.
Definition SYS_WRITE : Z := 9.
Definition SYS_SEEK : Z := 10.
Definition SYS_TELL : Z := 11.
Definition SYS_CLOSE : Z := 12.
Definition SYS_MMAP : Z := 13.
Definition SYS_MUNMAP : Z := 14.
Definition SYS_CHDIR : Z := 15.
Definition SYS_MKDIR : Z := 16.
Definition SYS_READDIR : Z := 17.
Definition SYS_ISDIR : Z := 18.
Definition SYS_INUMBER : Z := 19.

Definition PID_ERROR : Z := -1.

(** How a call leaves the program: it goes on, perhaps with a result; it waits
    for thread [t], whose process is [k], to load its program or to exit; or
    the machine is switched off. *)
Inductive outcome := Returns (eax : option Z) | Loads (t : Z) (k : option nat) | Waits (t : Z) (k : nat) | Halts.

Definition of_bool (b : bool) : Z := if b then 1 else 0.

Section syscalls.
Context {H D F : Type} `{!Mmu H, !Pagedirs H, !BlockDriver D, !PageFiles F, !UserFiles F}.
Context (junk_page : page) (junk : process) (kesp key : Z).
Abbreviation K := (kernel H D F).
Abbreviation M := (ST (kernel H D F)).
Abbreviation kread := (kread junk_page kesp).
Abbreviation kread_bytes := (kread_bytes junk_page kesp).
Abbreviation kwrite := (kwrite junk_page kesp).
Abbreviation kwrite_bytes := (kwrite_bytes junk_page kesp).
Abbreviation exit := (exit junk_page kesp).

(** [lock_acquire] panics if the thread already holds the lock; a call that has
    to wait for another thread does not get past this point. *)
Definition acquire_filesys_syscall_lock : M unit :=
  s ← get;
  ASSERT (bool_decide (filesys_syscall_lock s ≠ Some (current (mem s)))) ;;
  if filesys_syscall_lock s is Some _ then fail Timeout
  else modify (λ s, set_syscall_lock (Some (current (mem s))) s).
Definition release_filesys_syscall_lock : M unit :=
  s ← get;
  ASSERT (bool_decide (filesys_syscall_lock s = Some (current (mem s)))) ;;
  modify (set_syscall_lock None).

(** [m] between the two, which gives the result of the call. *)
Definition locked {A} (m : M A) : M A :=
  acquire_filesys_syscall_lock ;; a ← m; release_filesys_syscall_lock ;; mret a.

(** ** Checking addresses *)

Definition validate_uaddr (a : Z) : M (option unit) :=
  if (a =? 0) || negb (is_user_vaddr a) then exit (-1) else
  ok ← on_vm (page_exists a);
  if ok : bool then mret (Some tt) else exit (-1).

Fixpoint validate_args_loop (n : nat) (a : Z) : M (option unit) :=
  match n with O => mret (Some tt) | S n => bindN (validate_uaddr a) (λ _, validate_args_loop n (u32 (a + 4))) end.
Definition validate_args (sp : Z) (args : nat) : M (option unit) := validate_args_loop (S args) sp.

(** The string at an address of the program's, as far as it has pages. *)
Fixpoint user_string_loop (fuel : nat) (a : Z) : M (list Z) :=
  match fuel with
  | O => fail Timeout
  | S fuel => b ← kread a; if b =? 0 then mret [] else l ← user_string_loop fuel (u32 (a + 1)); mret (b :: l)
  end.
Definition user_string (a : Z) : M (list Z) :=
  s ← get; o ← current_process;
  let pages := match o ≫= λ k, spts (mem s) !! k with Some spt => size spt | None => O end in
  user_string_loop (S (pages * Z.to_nat PGSIZE)) a.

(** The string, if its first and last bytes are valid. *)
Definition validate_string (a : Z) : M (option (list Z)) :=
  bindN (validate_uaddr a) (λ _,
  str ← user_string a;
  bindN (validate_uaddr (u32 (a + Z.of_nat (length str)))) (λ _, mret (Some str))).

(** ** The calls *)

Definition create_generic (name initial_size : Z) (d : bool) : M (option Z) :=
  bindN (validate_string name) (λ str,
  b ← locked (on_files (filesys_create str (s32 initial_size) d)); mret (Some (of_bool b))).
Definition create (file initial_size : Z) : M (option Z) := create_generic file initial_size false.
Definition mkdir (d : Z) : M (option Z) := create_generic d 0 true.

(** [exec] up to the semaphore, which it reaches with the lock held, when
    there is memory for the [struct process]. *)
Definition exec (cmd_line : Z) : M (option outcome) :=
  bindN (validate_string cmd_line) (λ str,
  acquire_filesys_syscall_lock ;;
  tid ← process_execute junk true str;
  s ← get;
  match threads (mem s) !! tid with
  | Some t => mret (Some (Loads tid (Vm.process t)))
  | None => release_filesys_syscall_lock ;; mret (Some (Returns (Some PID_ERROR)))
  end).
Definition exec_end (tid : Z) (k : option nat) : M Z :=
  ok ← (match k with Some k => p ← get_proc k; mret (loaded_success p) | None => mret false end);
  release_filesys_syscall_lock ;; mret (if ok : bool then tid else PID_ERROR).

(** [wait] up to the semaphore. *)
Definition wait (id : Z) : M outcome :=
  r ← process_wait_begin id;
  match r with
  | None => mret (Returns (Some (-1)))
  | Some (k, Some t) => mret (Waits t k)
  | Some (k, None) => st ← process_wait_end k; mret (Returns (Some st))
  end.

Definition remove (file : Z) : M (option Z) :=
  bindN (validate_string file) (λ str, b ← locked (on_files (filesys_remove str)); mret (Some (of_bool b))).
Definition open (file : Z) : M (option Z) :=
  bindN (validate_string file) (λ str, n ← locked (create_fd str); mret (Some n)).

(** The descriptor, unless it is one of a directory. *)
Definition file_of (n : Z) : M (option nat) :=
  d ← get_file_descriptor n;
  mret (match d with Some x => if is_dir x then None else Some (fd_file x) | None => None end).

Definition filesize (n : Z) : M Z :=
  locked (f ← file_of n; match f with Some f => on_files (file_length f) | None => mret (-1) end).

Definition read (n buffer size : Z) : M (option Z) :=
  bindN (validate_uaddr buffer) (λ _,
  bindN (validate_uaddr (u32 (buffer + size))) (λ _,
  acquire_filesys_syscall_lock ;;
  bindN (if n =? 0 then bindN (kwrite buffer key) (λ _, mret (Some 1)) else
         f ← file_of n;
         match f with
         | Some f =>
           bytes ← on_files (file_read f (s32 size));
           bindN (kwrite_bytes buffer bytes) (λ _, mret (Some (Z.of_nat (length bytes))))
         | None => mret (Some (-1))
         end) (λ r,
  release_filesys_syscall_lock ;; mret (Some r)))).

Definition write (n buffer size : Z) : M (option Z) :=
  bindN (validate_uaddr buffer) (λ _,
  bindN (validate_uaddr (u32 (buffer + size))) (λ _,
  some (locked (
    if n =? 1 then
      bytes ← kread_bytes buffer (Z.to_nat size);
      modify (λ s, set_console (console s ++ bytes) s) ;; mret (s32 size)
    else
      d ← get_file_descriptor n;
      match d with
      | None => mret 0
      | Some x =>
        if is_dir x then mret (-1) else
        bytes ← kread_bytes buffer (Z.to_nat (s32 size));
        on_files (file_write (fd_file x) bytes (s32 size))
      end)))).

Definition seek (n position : Z) : M unit :=
  locked (f ← file_of n; match f with Some f => on_files (file_seek f (s32 position)) | None => mret tt end).
Definition tell (n : Z) : M Z :=
  locked (f ← file_of n; match f with Some f => p ← on_files (file_tell f); mret (u32 p) | None => mret (u32 (-1)) end).

Definition close (n : Z) : M unit := locked (
  o ← current_process;
  match o with
  | None => mret tt
  | Some k =>
    p ← get_proc k;
    match list_find (λ x, fd x = n) (fd_map p) with
    | Some (i, x) => upd_proc k (set_fd_map (delete i (fd_map p))) ;; fd_close_file x
    | None => mret tt
    end
  end).

(** The two loops of [mmap]; the first is true if a page is taken. *)
Fixpoint mmap_check (fuel : nat) (paddr ofs len : Z) : M bool :=
  if negb (ofs <? len) then mret false else
  match fuel with
  | O => fail Timeout
  | S fuel =>
    b ← on_vm (page_exists (u32 (paddr + ofs)));
    if b : bool then mret true else mmap_check fuel (u32 (paddr + PGSIZE)) (ofs + PGSIZE) len
  end.
Fixpoint mmap_load (fuel : nat) (file : nat) (paddr ofs len : Z) : M unit :=
  if negb (ofs <? len) then mret tt else
  match fuel with
  | O => fail Timeout
  | S fuel =>
    let bytes_left := len - ofs in
    let page_read_bytes := if PGSIZE <? bytes_left then PGSIZE else bytes_left in
    on_vm (lazy_load_segment junk_page paddr file ofs page_read_bytes (PGSIZE - page_read_bytes) true) ;;
    mmap_load fuel file (u32 (paddr + PGSIZE)) (ofs + PGSIZE) len
  end.

Definition mmap (n addr : Z) : M Z :=
  if (addr =? 0) || negb (pg_ofs addr =? 0) then mret (-1) else
  locked (
    e ← create_mapid n addr;
    f ← file_of n;
    match e, f with
    | Some e, Some file =>
      len ← on_files (file_length file);
      let fuel := Z.to_nat (len / PGSIZE + 1) in
      taken ← mmap_check fuel addr 0 len;
      if taken : bool then mret (-1) else
      mmap_load fuel file addr 0 len ;;
      mret (mapid e)
    | _, _ => mret (-1)
    end).

Definition munmap (id : Z) : M unit := locked (remove_mapid junk_page kesp id).

Definition chdir (name : Z) : M Z :=
  str ← user_string name;
  d ← on_files (filesys_open_dir str);
  o ← current_process;
  match d, o with
  | Some d, Some k =>
    p ← get_proc k;
    (match dir p with Some old => on_files (dir_close (Some old)) | None => mret tt end) ;;
    upd_proc k (set_dir (Some d)) ;;
    mret 1
  | _, _ => mret 0
  end.

Definition readdir (n name : Z) : M (option Z) :=
  acquire_filesys_syscall_lock ;;
  d ← get_file_descriptor n;
  bindN (match d with
         | Some x =>
           if is_dir x then
             r ← on_files (dir_readdir_strict (fd_file x));
             match r with
             | Some str => bindN (kwrite_bytes name (str ++ [0])) (λ _, mret (Some 1))
             | None => mret (Some 0)
             end
           else mret (Some 0)
         | None => mret (Some 0)
         end) (λ r,
  release_filesys_syscall_lock ;; mret (Some r)).

Definition isdir (n : Z) : M Z :=
  locked (d ← get_file_descriptor n; mret (match d with Some x => of_bool (is_dir x) | None => 0 end)).
Definition inumber (n : Z) : M Z := locked (d ← get_file_descriptor n; x ← deref d; fd_get_inumber x).

(** ** The handler *)

(** The word at an address of the program's. *)
Definition arg (a : Z) : M Z := bs ← kread_bytes a 4; mret (word_at bs 0).

(** Runs [m] and returns its result to the program. *)
Definition result (m : M (option Z)) : M (option outcome) := bindN m (λ v, mret (Some (Returns (Some v)))).
Definition result1 (m : M Z) : M (option outcome) := v ← m; mret (Some (Returns (Some v))).
Definition no_result (m : M unit) : M (option outcome) := m ;; mret (Some (Returns None)).

Definition syscall_handler (sp : Z) : M (option outcome) :=
  t ← on_vm thread_current;
  on_vm (modify (λ v, set_threads (<[current v := MkThread (pagedir t) sp (stack_pages t) (Vm.process t)]> (threads v)) v)) ;;
  bindN (validate_uaddr sp) (λ _,
  n ← arg sp;
  let args1 f := bindN (validate_args sp 1) (λ _, a ← arg (u32 (sp + 4)); f a) in
  let args2 f := bindN (validate_args sp 2) (λ _, a ← arg (u32 (sp + 4)); b ← arg (u32 (sp + 8)); f a b) in
  let args3 f := bindN (validate_args sp 3) (λ _,
    a ← arg (u32 (sp + 4)); b ← arg (u32 (sp + 8)); c ← arg (u32 (sp + 12)); f a b c) in
  if n =? SYS_HALT then mret (Some Halts)
  else if n =? SYS_EXIT then args1 (λ a, exit (s32 a))
  else if n =? SYS_EXEC then args1 exec
  else if n =? SYS_WAIT then args1 (λ a, some (wait (s32 a)))
  else if n =? SYS_CREATE then args2 (λ a b, result (create a b))
  else if n =? SYS_REMOVE then args1 (λ a, result (remove a))
  else if n =? SYS_OPEN then args1 (λ a, result (open a))
  else if n =? SYS_FILESIZE then args1 (λ a, result1 (filesize (s32 a)))
  else if n =? SYS_READ then args3 (λ a b c, result (read (s32 a) b c))
  else if n =? SYS_WRITE then args3 (λ a b c, result (write (s32 a) b c))
  else if n =? SYS_SEEK then args2 (λ a b, no_result (seek (s32 a) b))
  else if n =? SYS_TELL then args1 (λ a, result1 (tell (s32 a)))
  else if n =? SYS_CLOSE then args1 (λ a, no_result (close (s32 a)))
  else if n =? SYS_MMAP then args2 (λ a b, result1 (mmap (s32 a) b))
  else if n =? SYS_MUNMAP then args1 (λ a, no_result (munmap (s32 a)))
  else if n =? SYS_CHDIR then args1 (λ a, result1 (chdir a))
  else if n =? SYS_MKDIR then args1 (λ a, result (mkdir a))
  else if n =? SYS_READDIR then args2 (λ a b, result (readdir (s32 a) b))
  else if n =? SYS_ISDIR then args1 (λ a, result1 (isdir (s32 a)))
  else if n =? SYS_INUMBER then args1 (λ a, result1 (inumber (s32 a)))
  else thread_exit).
End syscalls.
End Syscall.
