(* ===== verification/ExecSpec.v ===== *)
(** * Properties of loading programs *)
From S2P Require Import Prelude CInt CString CStringSpec Hash Palloc Pagedir PagedirSpec Mmu Bytes Block Swap Vm VmFalloc VmLoad VmStack VmSpec Process SyscallFile Exec.

Open Scope Z_scope.

Module ExecSpec.
Import Palloc (NULL).
Import Swap Vm VmInv VmFalloc VmLoad VmStack VmAccess VmSpec VmTick Process SyscallFile Exec.

(** ** Segments *)

(** [read] bytes of a file from [o] on, and [zero] zeros. *)
Definition image (bytes : list Z) (o read zero : Z) : list Z :=
  take (Z.to_nat read) (drop (Z.to_nat o) bytes) ++ replicate (Z.to_nat zero) 0.

Lemma image_first bytes o read zero rb :
  0 ≤ o → 0 ≤ read → 0 ≤ zero → o + read ≤ Z.of_nat (length bytes) → PGSIZE ≤ read + zero →
  rb = (if read <? PGSIZE then read else PGSIZE) →
  take (Z.to_nat PGSIZE) (image bytes o read zero) = image bytes o rb (PGSIZE - rb) ∧
  drop (Z.to_nat PGSIZE) (image bytes o read zero) = image bytes (o + rb) (read - rb) (zero - (PGSIZE - rb)) ∧
  0 ≤ rb ≤ read ∧ rb ≤ PGSIZE ∧ PGSIZE - rb ≤ zero.
Proof.
  intros Ho Hr Hz Hfit Hpg ->. unfold image. assert (HP : 0 < PGSIZE) by (rewrite PGSIZE_val; lia).
  destruct (Z.ltb_spec read PGSIZE) as [Hlt|Hge].
  - assert (Hl : length (take (Z.to_nat read) (drop (Z.to_nat o) bytes)) = Z.to_nat read)
      by (rewrite length_take, length_drop; lia).
    split; [|split; [|lia]].
    + rewrite take_app, Hl, (take_ge (take _ _)) by lia. f_equal. rewrite take_replicate. f_equal. lia.
    + rewrite drop_app, Hl, (drop_ge (take _ _)) by lia. rewrite Z.sub_diag. change (Z.to_nat 0) with O. rewrite take_0.
      cbn [app]. rewrite drop_replicate. f_equal. lia.
  - assert (Hl : (Z.to_nat PGSIZE ≤ length (take (Z.to_nat read) (drop (Z.to_nat o) bytes)))%nat)
      by (rewrite length_take, length_drop; lia).
    split; [|split; [|lia]].
    + rewrite take_app_le by done. rewrite take_take, Z.sub_diag. change (Z.to_nat 0) with O. cbn [replicate].
      rewrite app_nil_r. f_equal. lia.
    + rewrite drop_app_le by done. rewrite skipn_firstn_comm, drop_drop. f_equal; [|f_equal; lia].
      f_equal; [lia|f_equal; lia].
Qed.

Section segments.
Context {H D F : Type} `{!Mmu H, !BlockDriver D, !PageFiles F} (junk_page : page).
Implicit Types (s : vm H D F) (m : mmu) (hs : gmap nat Z) (cs : Z → list Z).

(** The pages from [u] on, [n] of them. *)
Definition in_pages (u n v : Z) : bool := (u <=? v) && (v <? u + n * PGSIZE) && (v mod PGSIZE =? 0).

(** The state after pages have been added to the memory of thread [t]: [new v]
    is what the new pages read as. *)
Record mapped (s s' : vm H D F) (m : mmu) hs hs' cs (t : Z) (mine : Z → bool) (new : Z → list Z * bool) : Prop := MkMapped {
  mp_handles : hs ⊆ hs';
  mp_inv : inv None s' m hs' cs;
  mp_frames : frame_table s' = frame_table s;
  mp_hw : hw s' = hw s;
  mp_threads : threads s' = threads s;
  mp_current : current s' = current s;
  mp_page_lock : page_lock s' = false;
  mp_frame_lock : frame_lock s' = frame_lock s;
  mp_space t' v : space s' m hs' cs t' v = if (t' =? t) && mine v then Some (new v) else space s m hs cs t' v
}.

Lemma load_segment_loop_ok (n : nat) : ∀ s m hs cs x q f sec o u read zero w,
  inv None s m hs cs → page_lock s = false → threads s !! current s = Some x → Vm.process x = Some q → hs !! f = Some sec →
  u mod PGSIZE = 0 → 0 ≤ u → u + Z.of_nat n * PGSIZE ≤ PHYS_BASE →
  0 ≤ o → 0 ≤ read → 0 ≤ zero → read + zero = Z.of_nat n * PGSIZE → o + read ≤ Z.of_nat (length (cs sec)) → o + read < 2 ^ 31 →
  (∀ v, in_pages u (Z.of_nat n) v = true → space s m hs cs (current s) v = None) →
  ∃ hs' s', load_segment_loop junk_page n f o u read zero w s = Ok (tt, s') ∧
    mapped s s' m hs hs' cs (current s) (in_pages u (Z.of_nat n))
      (λ v, (take (Z.to_nat PGSIZE) (drop (Z.to_nat (v - u)) (image (cs sec) o read zero)), w)).
Proof.
  assert (HP : 0 < PGSIZE) by (rewrite PGSIZE_val; lia).
  induction n as [|n IH]; intros s m hs cs x q f sec o u read zero w Hi Hpl Hx Hq Hf Hal Hu Hend Ho Hr Hz Hsum Hfit Hlim Hnew.
  { assert (read = 0 ∧ zero = 0) as [-> ->] by lia. exists hs, s. split; [done|]. constructor; try done.
    intros t v. replace (in_pages u (Z.of_nat 0) v) with false; [by rewrite andb_false_r|].
    symmetry. unfold in_pages. rewrite !andb_false_iff. destruct (Z.leb_spec u v); [|by left; left].
    left; right. apply Z.ltb_ge. lia. }
  destruct (image_first (cs sec) o read zero _ Ho Hr Hz Hfit ltac:(nia) eq_refl) as (Et & Ed & Hrb & HrbP & Hzb).
  cbn [load_segment_loop]. rewrite (proj2 (orb_true_iff (0 <? read) (0 <? zero))) by (rewrite !Z.ltb_lt; nia). cbn [negb].
  set (rb := if read <? PGSIZE then read else PGSIZE) in *.
  destruct (lazy_load_ok junk_page s m hs cs x q u f sec o rb (PGSIZE - rb) w)
    as (g & s1 & Hrun & Hg & Hi1 & Hft & Hhw & Hth & Hcu & Hpl1 & Hfl & Hsp); try done; try lia.
  { split; [nia|done]. }
  { apply Hnew. unfold in_pages. rewrite (proj2 (Z.leb_le u u)), (proj2 (Z.ltb_lt _ _)), Hal by nia. done. }
  run_with Hrun. rewrite s32_id by (unfold in_s32; lia).
  unfold PHYS_BASE in Hend. rewrite (u32_id (u + PGSIZE)), (u32_id (read - rb)), (u32_id (zero - (PGSIZE - rb))) by (unfold in_u32; nia).
  assert (Hpg : ∀ v, v mod PGSIZE = 0 → v < u + PGSIZE → u ≤ v → v = u).
  { intros v Hv H1 H2. rewrite PGSIZE_val in *. divlia. }
  destruct (IH s1 m (<[g := sec]> hs) cs x q f sec (o + rb) (u + PGSIZE) (read - rb) (zero - (PGSIZE - rb)) w)
    as (hs' & s' & Hrun' & [M1 M2 M3 M4 M5 M6 M7 M8 M9]); try done; try lia; try congruence.
  { rewrite lookup_insert_ne by congruence. done. }
  { rewrite PGSIZE_val in *. divlia. }
  { unfold PHYS_BASE. nia. }
  { intros v Hv. rewrite Hcu, Hsp. assert (Hv' := Hv). unfold in_pages in Hv. rewrite !andb_true_iff, Z.leb_le, Z.ltb_lt, Z.eqb_eq in Hv.
    rewrite (proj2 (Z.eqb_neq v u)) by lia. rewrite andb_false_r. apply Hnew. unfold in_pages.
    rewrite (proj2 (Z.leb_le _ _)), (proj2 (Z.ltb_lt _ _)), (proj2 (Z.eqb_eq _ _)); [done|lia|nia|lia]. }
  exists hs', s'. split; [exact Hrun'|]. constructor; try congruence.
  - transitivity (<[g := sec]> hs); [by apply insert_subseteq|done].
  - intros t v. rewrite M9, Hcu, Hsp. destruct (Z.eqb_spec t (current s)) as [->|Hne]; cbn [andb]; [|done].
    destruct (Z.eqb_spec v u) as [->|Hvu].
    + replace (in_pages (u + PGSIZE) (Z.of_nat n) u) with false by (symmetry; unfold in_pages; rewrite (proj2 (Z.leb_gt _ _)) by lia; done).
      replace (in_pages u (Z.of_nat (S n)) u) with true
        by (symmetry; unfold in_pages; rewrite (proj2 (Z.leb_le u u)), (proj2 (Z.ltb_lt _ _)), Hal by nia; done).
      rewrite Z.sub_diag. change (Z.to_nat 0) with O. rewrite drop_0, Et. done.
    + replace (in_pages u (Z.of_nat (S n)) v) with (in_pages (u + PGSIZE) (Z.of_nat n) v).
      2: { unfold in_pages. destruct (Z.eqb_spec (v mod PGSIZE) 0) as [Hv|]; [|by rewrite !andb_false_r]. rewrite !andb_true_r.
           apply eq_true_iff_eq. rewrite !andb_true_iff, !Z.leb_le, !Z.ltb_lt. split; [nia|]. intros [H1 H2].
           split; [|nia]. destruct (Z.le_gt_cases (u + PGSIZE) v); [done|]. destruct Hvu. by apply Hpg. }
      destruct (in_pages (u + PGSIZE) (Z.of_nat n) v) eqn:E; [|done].
      unfold in_pages in E. rewrite !andb_true_iff, Z.leb_le in E.
      rewrite <- Ed, drop_drop. do 4 f_equal. lia.
Qed.
Lemma inv_seek s m hs cs fs : inv None s m hs cs → pf_rep fs hs cs → inv None (set_fsys fs s) m hs cs.
Proof. intros Hi Hfs. by destruct Hi; constructor. Qed.

(** C18: Loading a segment.  [load_segment] gives the current thread the pages
    from [u] on, which read as [read] bytes of the file from [o] on followed by
    [zero] zeros, with the rights asked for; whatever the number of pages, it
    returns, reads nothing from the file yet and takes no frame, and all other
    memory of this and of every other thread is as before. *)
Theorem load_segment_correct s m hs cs x q f sec o u read zero w :
  inv None s m hs cs → page_lock s = false → threads s !! current s = Some x → Vm.process x = Some q → hs !! f = Some sec →
  u mod PGSIZE = 0 → 0 ≤ u → u + read + zero ≤ PHYS_BASE → 0 ≤ o → o mod PGSIZE = 0 →
  0 ≤ read → 0 ≤ zero → (read + zero) mod PGSIZE = 0 → o + read ≤ Z.of_nat (length (cs sec)) → o + read < 2 ^ 31 →
  let mine := in_pages u ((read + zero) / PGSIZE) in
  (∀ v, mine v = true → space s m hs cs (current s) v = None) →
  ∃ hs' s', load_segment junk_page f o u read zero w s = Ok (true, s') ∧
    mapped s s' m hs hs' cs (current s) mine
      (λ v, (take (Z.to_nat PGSIZE) (drop (Z.to_nat (v - u)) (image (cs sec) o read zero)), w)).
Proof.
  intros Hi Hpl Hx Hq Hf Hal Hu Hend Ho Hoal Hr Hz Hsum Hfit Hlim mine Hnew.
  assert (HP : 0 < PGSIZE) by (rewrite PGSIZE_val; lia).
  set (n := Z.to_nat ((read + zero) / PGSIZE)).
  assert (Hn : read + zero = Z.of_nat n * PGSIZE).
  { unfold n. rewrite Z2Nat.id by (apply Z.div_pos; lia). apply Z_div_exact_2 in Hsum; lia. }
  assert (En : Z.of_nat n = (read + zero) / PGSIZE) by (unfold n; rewrite Z2Nat.id; [done|apply Z.div_pos; lia]).
  destruct (pf_seek _ _ _ f sec o (i_fs _ _ _ _ _ Hi) Hf Ho) as (fs & Hseek & Hfs).
  destruct (load_segment_loop_ok n (set_fsys fs s) m hs cs x q f sec o u read zero w) as (hs' & s' & Hrun & [M1 M2 M3 M4 M5 M6 M7 M8 M9]);
    try done; [by apply inv_seek|lia|by rewrite En|].
  rewrite En in M9. exists hs', s'. split; [|by constructor]. unfold load_segment, PHYS_BASE in *.
  run_assert; [|rewrite u32_id, Hsum by (unfold in_u32; lia); done].
  run_assert; [|rewrite pg_ofs_mod, Hal; done]. run_assert; [|rewrite Z.rem_mod_nonneg, Hoal by lia; done].
  rewrite (run_bind_ok _ _ _ _ _ (run_zoom_ok fsys set_fsys _ s _ _ Hseek)). fold n. by run_with Hrun.
Qed.
End segments.

(** ** The stack *)

Lemma patch_cons ofs b bs (d : list Z) : (ofs + S (length bs) ≤ length d)%nat →
  patch (S ofs) bs (<[ofs := b]> d) = patch ofs (b :: bs) d.
Proof.
  intros Hl. unfold patch. simpl. rewrite (take_S_r _ _ b) by (apply list_lookup_insert_eq; lia).
  rewrite take_insert_ge by lia. rewrite drop_insert_lt by lia. rewrite <- (assoc_L (++)). simpl.
  by replace (ofs + S (length bs))%nat with (S (ofs + length bs)) by lia.
Qed.

(** Pushing [bs] on the stack that [d] holds from [ofs] on. *)
Lemma patch_push ofs bs (d : list Z) : (ofs + length bs ≤ length d)%nat →
  drop ofs (patch ofs bs d) = bs ++ drop (ofs + length bs) d.
Proof.
  intros Hl. unfold patch. rewrite drop_app, length_take, Nat.min_l by lia.
  rewrite drop_ge by (rewrite length_take; lia). by rewrite Nat.sub_diag.
Qed.

Section stack.
Context {H D F : Type} `{!Mmu H, !Pagedirs H, !BlockDriver D, !PageFiles F, !UserFiles F} (junk_page : page) (kesp : Z).
Implicit Types (s : kernel H D F) (m : mmu) (hs : gmap nat Z) (cs : Z → list Z) (stk : list Z).

Lemma bindN_ok {A B} (n : ST (kernel H D F) (option A)) (k : A → ST (kernel H D F) (option B)) s a s' :
  n s = Ok (Some a, s') → bindN n k s = k a s'.
Proof. intros Hn. unfold bindN. by rewrite (run_bind_ok _ _ _ _ _ Hn). Qed.

(** The current thread [x] has the writable page [u] in memory, and it contains
    [d]. *)
Record page_held s m hs cs (x : uthread) (u : Z) (d : list Z) : Prop := MkHeld {
  ph_inv : inv None (mem s) m hs cs;
  ph_thread : threads (mem s) !! current (mem s) = Some x;
  ph_user : user_page u;
  ph_memory : ∃ pg p, page_of (mem s) (current (mem s)) u pg ∧ pages (mem s) !! pg = Some p ∧ present p = PRESENT_MEMORY;
  ph_space : space (mem s) m hs cs (current (mem s)) u = Some (d, true);
  ph_length : length d = Z.to_nat PGSIZE
}.

(** Only the machine has changed, and of memory only page [u] of the current
    thread. *)
Definition touched s m s' m' hs cs (u : Z) : Prop :=
  (∃ h, s' = set_mem (set_hw h (mem s)) s) ∧
  ∀ t v, (t =? current (mem s)) && (v =? u) = false → space (mem s') m' hs cs t v = space (mem s) m hs cs t v.

Lemma touched_refl s m hs cs u : touched s m s m hs cs u.
Proof. split; [|done]. exists (hw (mem s)). by destruct s as [[]]. Qed.
Lemma touched_trans s1 m1 s2 m2 s3 m3 hs cs u :
  touched s1 m1 s2 m2 hs cs u → touched s2 m2 s3 m3 hs cs u → touched s1 m1 s3 m3 hs cs u.
Proof.
  intros [[h ->] H1] [[h' ->] H2]. split; [by exists h'|]. intros t v Ht. rewrite H2; [by apply H1|exact Ht].
Qed.

Lemma page_round u a : user_page u → u ≤ a < u + PGSIZE → pg_round_down a = u ∧ pg_ofs a = a - u ∧ 0 ≤ a < PHYS_BASE.
Proof.
  intros [Hu Hal] Ha. unfold PHYS_BASE in *. rewrite pg_ofs_mod. rewrite PGSIZE_val in *.
  assert (0 ≤ a < 3221225472) by divlia.
  rewrite pg_round_down_div by (unfold in_u32; lia). rewrite PGSIZE_val. split; [divlia|split; [divlia|lia]].
Qed.

Lemma kwrite_ok s m hs cs x u d a c : page_held s m hs cs x u d → u ≤ a < u + PGSIZE →
  ∃ s' m', kwrite junk_page kesp a c s = Ok (Some tt, s') ∧ touched s m s' m' hs cs u ∧
    page_held s' m' hs cs x u (<[Z.to_nat (a - u) := c]> d).
Proof.
  intros [Hi Hx Hu (pg & p & Hpo & Hp & Hpr) Hsp Hlen] Ha. destruct (page_round u a Hu Ha) as (Er & Eo & Hb).
  assert (Hpl := i_place _ _ _ _ _ Hi _ _ _ _ _ Hpo Hx Hp). unfold placed in Hpl. rewrite Hpr in Hpl. destruct Hpl as (Hk & _); [done|].
  destruct (i_page _ _ _ _ _ Hi _ _ _ Hpo) as (p' & Hp' & Eu & _). rewrite Hp in Hp'. injection Hp' as <-. rewrite Eu in Hk.
  rewrite <- Er in Hsp. assert (Hk' : m_page (maps m (pagedir x) (pg_round_down a)) = Some (kpage p)) by (by rewrite Er).
  destruct (cpu_write_ok (mem s) m hs cs _ x a c d true (kpage p) Hi Hx Hb Hsp Hk') as (h & m' & Hrun & Hi' & Hsp').
  rewrite Er, Eo in Hsp'. exists (set_mem (set_hw h (mem s)) s), m'. split; [|split; [split; [by exists h|]|]].
  - unfold kwrite, mem_write. assert (Hmw : mem_write junk_page false a c kesp (mem s) = Ok (inr tt, set_hw h (mem s))).
    { unfold mem_write. rewrite (run_bind_ok _ _ _ _ _ (vm_thread_current_ok (mem s) x Hx)). by rewrite (run_bind_ok _ _ _ _ _ Hrun). }
    by rewrite (run_bind_ok _ _ _ _ _ (run_zoom_ok mem set_mem _ s _ _ Hmw)).
  - intros t v Ht. by rewrite Hsp', Ht.
  - constructor; [done|done|done|by exists pg, p| |by rewrite length_insert].
    rewrite Hsp'. simpl. by rewrite !Z.eqb_refl.
Qed.

Lemma kwrite_bytes_ok bs : ∀ s m hs cs x u d a, page_held s m hs cs x u d → u ≤ a → a + Z.of_nat (length bs) ≤ u + PGSIZE →
  ∃ s' m', kwrite_bytes junk_page kesp a bs s = Ok (Some tt, s') ∧ touched s m s' m' hs cs u ∧
    page_held s' m' hs cs x u (patch (Z.to_nat (a - u)) bs d).
Proof.
  induction bs as [|b bs IH]; intros s m hs cs x u d a Hh Ha Hb; cbn [length kwrite_bytes] in *.
  - exists s, m. split; [done|]. split; [apply touched_refl|]. unfold patch. simpl. by rewrite Nat.add_0_r, take_drop.
  - destruct (kwrite_ok s m hs cs x u d a b Hh ltac:(lia)) as (s1 & m1 & Hrun & Ht1 & Hh1).
    assert (Hu := ph_user _ _ _ _ _ _ _ Hh). assert (Hl := ph_length _ _ _ _ _ _ _ Hh).
    destruct (page_round u a Hu ltac:(lia)) as (_ & _ & Hab). unfold PHYS_BASE in Hab.
    destruct (IH s1 m1 hs cs x u _ (a + 1) Hh1 ltac:(lia) ltac:(lia)) as (s2 & m2 & Hrun2 & Ht2 & Hh2).
    exists s2, m2. rewrite (bindN_ok _ _ _ _ _ Hrun). rewrite u32_id by (unfold in_u32; lia). split; [exact Hrun2|].
    split; [by eapply touched_trans|]. rewrite <- patch_cons by lia.
    by replace (S (Z.to_nat (a - u))) with (Z.to_nat (a + 1 - u)) by lia.
Qed.

(** The stack from [sp] to the end of page [u] is [stk]. *)
Definition stacked s m hs cs x u (sp : Z) stk : Prop :=
  ∃ d, page_held s m hs cs x u d ∧ u ≤ sp ≤ u + PGSIZE ∧ drop (Z.to_nat (sp - u)) d = stk.

Lemma push_ok bs s m hs cs x u sp stk : stacked s m hs cs x u sp stk → u + Z.of_nat (length bs) ≤ sp →
  let sp' := sp - Z.of_nat (length bs) in
  ∃ s' m', u32 sp' = sp' ∧ kwrite_bytes junk_page kesp sp' bs s = Ok (Some tt, s') ∧ touched s m s' m' hs cs u ∧
    stacked s' m' hs cs x u sp' (bs ++ stk).
Proof.
  intros (d & Hh & Hsp & <-) Hroom sp'. assert (Hu := ph_user _ _ _ _ _ _ _ Hh). assert (Hl := ph_length _ _ _ _ _ _ _ Hh).
  destruct (kwrite_bytes_ok bs s m hs cs x u d sp' Hh ltac:(lia) ltac:(lia)) as (s' & m' & Hrun & Ht & Hh').
  exists s', m'. split; [|split; [done|split; [done|]]].
  - apply u32_id. destruct Hu as [Hu _]. unfold in_u32, PHYS_BASE in *. rewrite PGSIZE_val in *. lia.
  - exists (patch (Z.to_nat (sp' - u)) bs d). split; [done|]. split; [lia|]. rewrite patch_push by lia.
    do 2 f_equal. lia.
Qed.

(** ** Strings and their addresses *)

(** The bytes that strings take with their null characters, their addresses
    when they are pushed below [sp] in order, and the stack they leave. *)
Fixpoint total_len (ws : list (list Z)) : Z :=
  match ws with [] => 0 | w :: ws => Z.of_nat (length w) + 1 + total_len ws end.
Fixpoint arg_ptrs (sp : Z) (ws : list (list Z)) : list Z :=
  match ws with [] => [] | w :: ws => let p := sp - (Z.of_nat (length w) + 1) in p :: arg_ptrs p ws end.
Definition pushed (ws : list (list Z)) stk : list Z := fold_left (λ stk w, (w ++ [0]) ++ stk) ws stk.

Lemma total_len_nonneg ws : 0 ≤ total_len ws.
Proof. induction ws; simpl; lia. Qed.

Lemma total_len_take n ws : total_len (take n ws) ≤ total_len ws.
Proof.
  revert n. induction ws as [|w ws IH]; intros [|n]; simpl; try lia.
  - assert (Hn := total_len_nonneg ws). lia.
  - specialize (IH n). lia.
Qed.

Lemma total_len_words ds w (l : list Z) : total_len (words_from ds w l) ≤ Z.of_nat (length w) + Z.of_nat (length l) + 1.
Proof.
  revert w. induction l as [|c l IH]; intros w; simpl.
  - destruct (decide (w = [])); simpl; lia.
  - destruct (decide (c ∈ ds)).
    + specialize (IH []). destruct (decide (w = [])) as [->|]; simpl in *; lia.
    + specialize (IH (w ++ [c])). rewrite length_app in IH. simpl in IH. lia.
Qed.

Lemma length_arg_ptrs ws : ∀ sp, length (arg_ptrs sp ws) = length ws.
Proof. induction ws as [|w ws IH]; intros sp; simpl; [done|by rewrite IH]. Qed.

Lemma arg_ptrs_bounds ws : ∀ sp p, p ∈ arg_ptrs sp ws → sp - total_len ws ≤ p < sp.
Proof.
  induction ws as [|w ws IH]; intros sp p; simpl; [by intros ?%elem_of_nil|].
  assert (Hn := total_len_nonneg ws). intros [->|Hp]%elem_of_cons; [lia|]. apply IH in Hp. lia.
Qed.

(** What was on a stack is still there, further up. *)
Lemma pushed_app ws : ∀ stk, ∃ new, pushed ws stk = new ++ stk ∧ Z.of_nat (length new) = total_len ws.
Proof.
  unfold pushed. induction ws as [|w ws IH]; intros stk; simpl; [by exists []|].
  destruct (IH ((w ++ [0]) ++ stk)) as (new & -> & Hl). exists (new ++ (w ++ [0])). split; [by rewrite !(assoc_L (++))|].
  rewrite !length_app. simpl. lia.
Qed.

Lemma drop_pushed new stk (n : nat) : (length new ≤ n)%nat → drop n (new ++ stk) = drop (n - length new) stk.
Proof. intros Hn. rewrite drop_app, drop_ge by done. done. Qed.

Lemma pushed_string ws : ∀ sp stk i w p, ws !! i = Some w → arg_ptrs sp ws !! i = Some p →
  let sp' := sp - total_len ws in
  sp' ≤ p ∧ take (S (length w)) (drop (Z.to_nat (p - sp')) (pushed ws stk)) = w ++ [0].
Proof.
  induction ws as [|w0 ws IH]; intros sp stk i w p Hw Hp sp'; [done|]. cbn [total_len arg_ptrs] in *.
  assert (Hn := total_len_nonneg ws). destruct i as [|i]; simpl in Hw, Hp.
  - injection Hw as <-. injection Hp as <-. split; [lia|]. unfold pushed. cbn [fold_left].
    destruct (pushed_app ws ((w0 ++ [0]) ++ stk)) as (new & E & Hl). fold (pushed ws ((w0 ++ [0]) ++ stk)). rewrite E.
    rewrite drop_pushed by lia. replace (Z.to_nat _ - length new)%nat with O by lia. rewrite drop_0.
    rewrite take_app_le by (rewrite length_app; simpl; lia). apply take_ge. rewrite length_app. simpl. lia.
  - destruct (IH (sp - (Z.of_nat (length w0) + 1)) ((w0 ++ [0]) ++ stk) i w p Hw Hp) as [H1 H2].
    split; [lia|]. rewrite <- H2. do 3 f_equal. lia.
Qed.

(** What is left of the command line: the tokens [ws], the first at [token]. *)
Definition tokens_left (cm : CString.mem) (token save : Z) (ws : list (list Z)) : Prop :=
  (token = CString.NULL ∧ ws = []) ∨
  ∃ w rest, between space_str [32] cm token w save rest ∧ ws = w :: words [32] rest.

Lemma tokens_next cm token save w ws : tokens_left cm token save (w :: ws) →
  token ≠ CString.NULL ∧ CString.string_at cm token = Ok w ∧
  ∃ t save' cm', CString.strtok_r CString.NULL space_str save cm = Ok ((t, save'), cm') ∧ tokens_left cm' t save' ws.
Proof.
  intros [[_ [=]]|(w' & rest & Hb & [= <- ->])]. split; [apply Hb|].
  split; [apply string_at_ok, Hb|]. destruct (next_token space_str [32] ltac:(done) cm token w save rest Hb)
    as [[E Hrun]|(t & w' & m' & save' & rest' & Hrun & E & _ & Hb' & _)].
  - exists CString.NULL. eexists _, cm. split; [exact Hrun|]. left. by rewrite E.
  - exists t, save', m'. split; [exact Hrun|]. right. exists w', rest'. by rewrite E.
Qed.

Lemma push_strings_ok fuel : ∀ s m hs cs x u cm token save sp total ptrs stk ws,
  let args := take (Z.to_nat MAX_ARGS - length ptrs) ws in
  stacked s m hs cs x u sp stk → tokens_left cm token save ws →
  (length ptrs ≤ Z.to_nat MAX_ARGS)%nat → (Z.to_nat MAX_ARGS - length ptrs < fuel)%nat → u + total_len args ≤ sp →
  ∃ s' m', push_strings junk_page kesp fuel cm token save sp total ptrs s
           = Ok (Some (sp - total_len args, total + total_len args, ptrs ++ arg_ptrs sp args), s') ∧
    touched s m s' m' hs cs u ∧ stacked s' m' hs cs x u (sp - total_len args) (pushed args stk).
Proof.
  induction fuel as [|fuel IH]; intros s m hs cs x u cm token save sp total ptrs stk ws args Hst Hws Hmax Hf Hroom; [lia|].
  assert (Hstop : args = [] → (token =? CString.NULL) || negb (Z.of_nat (length ptrs) <? MAX_ARGS) = true →
    ∃ s' m', push_strings junk_page kesp (S fuel) cm token save sp total ptrs s
             = Ok (Some (sp - total_len args, total + total_len args, ptrs ++ arg_ptrs sp args), s') ∧
      touched s m s' m' hs cs u ∧ stacked s' m' hs cs x u (sp - total_len args) (pushed args stk)).
  { intros -> E. cbn [push_strings]. rewrite E. exists s, m. simpl. rewrite Z.sub_0_r, Z.add_0_r, app_nil_r.
    split; [done|]. split; [apply touched_refl|done]. }
  destruct ws as [|w ws].
  { apply Hstop; [by destruct (Z.to_nat MAX_ARGS - length ptrs)%nat|]. destruct Hws as [[-> _]|(w & rest & _ & [=])]. done. }
  destruct (Z.ltb_spec (Z.of_nat (length ptrs)) MAX_ARGS) as [Hlt|Hge].
  2: { apply Hstop; [|by rewrite orb_true_r]. subst args. by replace (_ - _)%nat with O by lia. }
  clear Hstop. destruct (tokens_next cm token save w ws Hws) as (Hnn & Hstr & t & save' & cm' & Htok & Hws').
  assert (Ea : args = w :: take (Z.to_nat MAX_ARGS - length (ptrs ++ [sp - (Z.of_nat (length w) + 1)])) ws).
  { subst args. rewrite length_app. simpl. by replace (Z.to_nat MAX_ARGS - length ptrs)%nat
      with (S (Z.to_nat MAX_ARGS - (length ptrs + 1))) by lia. }
  rewrite Ea in *. clear args Ea. set (p := sp - (Z.of_nat (length w) + 1)) in *. cbn [total_len arg_ptrs] in *. fold p.
  set (args := take _ ws) in *. assert (Hn := total_len_nonneg args).
  assert (Hlen : Z.of_nat (length (w ++ [0])) = Z.of_nat (length w) + 1) by (rewrite length_app; simpl; lia).
  destruct (push_ok (w ++ [0]) s m hs cs x u sp stk Hst ltac:(lia)) as (s1 & m1 & Eu & Hw & Ht1 & Hst1).
  rewrite Hlen in *. fold p in Eu, Hw, Hst1.
  destruct (IH s1 m1 hs cs x u cm' t save' p (total + (Z.of_nat (length w) + 1)) (ptrs ++ [p]) ((w ++ [0]) ++ stk) ws)
    as (s2 & m2 & Hrun & Ht2 & Hst2); try done; [rewrite length_app; simpl; lia..|fold args; lia|].
  fold args in Hrun, Hst2. exists s2, m2. split; [|split; [by eapply touched_trans|]].
  - cbn [push_strings]. rewrite (proj2 (Z.eqb_neq _ _) Hnn), (proj2 (Z.ltb_lt _ _) Hlt). cbn [orb negb].
    rewrite (run_bind_ok (lift _) _ s w s) by (unfold lift; by rewrite Hstr). fold p. rewrite Eu. rewrite (bindN_ok _ _ _ _ _ Hw).
    rewrite (run_bind_ok (lift _) _ s1 _ s1) by (unfold lift; by rewrite Htok). cbv beta iota. rewrite Hrun.
    rewrite <- (assoc_L (++)). do 5 f_equal; unfold p; lia.
  - replace (sp - (Z.of_nat (length w) + 1 + total_len args)) with (p - total_len args) by (unfold p; lia). exact Hst2.
Qed.

Lemma length_le32 w : length (le32 w) = 4%nat.
Proof. done. Qed.

Lemma push_word_ok s m hs cs x u sp stk w : stacked s m hs cs x u sp stk → u + 4 ≤ sp → in_u32 w →
  ∃ s' m', push_word junk_page kesp sp w s = Ok (Some (sp - 4), s') ∧ touched s m s' m' hs cs u ∧
    stacked s' m' hs cs x u (sp - 4) (le32 w ++ stk).
Proof.
  intros Hst Hroom Hw. destruct (push_ok (le32 w) s m hs cs x u sp stk Hst) as (s1 & m1 & Eu & Hrun & Ht & Hst1);
    [rewrite length_le32; lia|]. rewrite length_le32 in *. change (Z.of_nat 4) with 4 in *.
  exists s1, m1. unfold push_word. rewrite Eu, (u32_id w Hw). by rewrite (bindN_ok _ _ _ _ _ Hrun).
Qed.

Lemma push_pointers_ok l : ∀ s m hs cs x u sp stk, stacked s m hs cs x u sp stk → u + 4 * Z.of_nat (length l) ≤ sp →
  Forall in_u32 l →
  ∃ s' m', push_pointers junk_page kesp l sp s = Ok (Some (sp - 4 * Z.of_nat (length l)), s') ∧ touched s m s' m' hs cs u ∧
    stacked s' m' hs cs x u (sp - 4 * Z.of_nat (length l)) (bytes_of_words (reverse l) ++ stk).
Proof.
  induction l as [|w l IH]; intros s m hs cs x u sp stk Hst Hroom Hl.
  - exists s, m. cbn [push_pointers length]. rewrite Z.sub_0_r. split; [done|]. split; [apply touched_refl|done].
  - apply Forall_cons in Hl as [Hw Hl]. cbn [length] in *.
    destruct (push_word_ok s m hs cs x u sp stk w Hst ltac:(lia) Hw) as (s1 & m1 & Hrun & Ht & Hst1).
    destruct (IH s1 m1 hs cs x u (sp - 4) (le32 w ++ stk) Hst1 ltac:(lia) Hl) as (s2 & m2 & Hrun2 & Ht2 & Hst2).
    exists s2, m2. cbn [push_pointers]. rewrite (bindN_ok _ _ _ _ _ Hrun), Hrun2.
    replace (sp - 4 * Z.of_nat (S (length l))) with (sp - 4 - 4 * Z.of_nat (length l)) by lia.
    split; [done|]. split; [by eapply touched_trans|]. rewrite reverse_cons. unfold bytes_of_words in *. rewrite bind_app.
    change ([w] ≫= le32) with (le32 w). rewrite <- (assoc_L (++)). exact Hst2.
Qed.

(** The whole stack. *)
Lemma arguments_pushed s m hs cs x d cm token save ws :
  let u := PHYS_BASE - PGSIZE in
  page_held s m hs cs x u d → tokens_left cm token save ws →
  let args := take (Z.to_nat MAX_ARGS) ws in
  let ptrs := arg_ptrs PHYS_BASE args in
  total_len args ≤ 128 →
  ∃ sp off s' m', push_arguments junk_page kesp cm token save PHYS_BASE s = Ok (Some sp, s') ∧ touched s m s' m' hs cs u ∧
    stacked s' m' hs cs x u sp
      (bytes_of_words [0; Z.of_nat (length args); sp + 12] ++ bytes_of_words ptrs ++ replicate (Z.to_nat off) 0 ++ pushed args []) ∧
    sp = PHYS_BASE - total_len args - off - 4 * Z.of_nat (length args) - 12 ∧ off = total_len args mod 4 + 4 ∧ 4 ≤ off < 8.
Proof.
  intros u Hh Hws args ptrs Hlen. assert (Hn := total_len_nonneg args).
  assert (Hargc : (length args ≤ 32)%nat) by (unfold args; rewrite length_take; unfold MAX_ARGS; lia).
  assert (Hst : stacked s m hs cs x u PHYS_BASE []).
  { exists d. split; [done|]. split; [unfold u; rewrite PGSIZE_val; lia|]. apply drop_ge.
    rewrite (ph_length _ _ _ _ _ _ _ Hh). unfold u. lia. }
  set (T := total_len args) in *. set (off := T mod 4 + 4).
  assert (Hoff : 4 ≤ off < 8) by (unfold off; divlia).
  assert (Hu : u = PHYS_BASE - 4096) by (unfold u; by rewrite PGSIZE_val). assert (HB : PHYS_BASE = 3221225472) by done.
  destruct (push_strings_ok (S (Z.to_nat MAX_ARGS)) s m hs cs x u cm token save PHYS_BASE 0 [] [] ws Hst Hws)
    as (s1 & m1 & Hr1 & Ht1 & Hst1); [cbn [length]; lia..| |].
  { change (take (Z.to_nat MAX_ARGS - length (@nil Z)) ws) with args. fold T. lia. }
  change (take (Z.to_nat MAX_ARGS - length (@nil Z)) ws) with args in Hr1, Hst1.
  cbn [app] in Hr1. fold ptrs in Hr1. fold T in Hr1, Hst1. rewrite Z.add_0_l in Hr1.
  destruct (push_ok (replicate (Z.to_nat off) 0) s1 m1 hs cs x u (PHYS_BASE - T) _ Hst1) as (s2 & m2 & Eu & Hr2 & Ht2 & Hst2);
    [rewrite length_replicate; lia|]. rewrite length_replicate in *.
  replace (PHYS_BASE - T - Z.of_nat (Z.to_nat off)) with (PHYS_BASE - T - off) in * by lia.
  assert (Hlp : length (reverse ptrs) = length args) by (rewrite length_reverse; apply length_arg_ptrs).
  destruct (push_pointers_ok (reverse ptrs) s2 m2 hs cs x u (PHYS_BASE - T - off) _ Hst2) as (s3 & m3 & Hr3 & Ht3 & Hst3);
    [rewrite Hlp; lia| |].
  { apply Forall_forall. intros p Hp. apply elem_of_reverse, arg_ptrs_bounds in Hp. unfold in_u32. fold T in Hp. lia. }
  rewrite Hlp, reverse_involutive in *. set (sp3 := PHYS_BASE - T - off - 4 * Z.of_nat (length args)) in *.
  destruct (push_word_ok s3 m3 hs cs x u sp3 _ sp3 Hst3) as (s4 & m4 & Hr4 & Ht4 & Hst4); [lia|unfold in_u32; lia|].
  destruct (push_word_ok s4 m4 hs cs x u (sp3 - 4) _ (Z.of_nat (length args)) Hst4) as (s5 & m5 & Hr5 & Ht5 & Hst5); [lia|unfold in_u32; lia|].
  destruct (push_word_ok s5 m5 hs cs x u (sp3 - 4 - 4) _ 0 Hst5) as (s6 & m6 & Hr6 & Ht6 & Hst6); [lia|unfold in_u32; lia|].
  exists (sp3 - 4 - 4 - 4), off, s6, m6. split_and!; [| | |lia|done|lia..].
  - unfold push_arguments. rewrite (bindN_ok _ _ _ _ _ Hr1). cbv beta iota zeta. fold off. rewrite Eu, (bindN_ok _ _ _ _ _ Hr2).
    rewrite (bindN_ok _ _ _ _ _ Hr3), (bindN_ok _ _ _ _ _ Hr4).
    replace (length ptrs) with (length args) by (symmetry; apply length_arg_ptrs). by rewrite (bindN_ok _ _ _ _ _ Hr5).
  - do 5 (eapply touched_trans; [eassumption|]). eassumption.
  - replace (sp3 - 4 - 4 - 4 + 12) with sp3 by lia. exact Hst6.
Qed.

(** C19: Program arguments.  [start_process] keeps the first 127 characters of
    the command line; the words it finds in these, the first 32 of them,
    become the arguments of the program, whatever the command line (what is
    beyond is lost, a word at the boundary is cut): below a null return
    address, the
    stack has their number and the address of [argv], which is right above it
    and holds the address of each, followed by a null pointer, and at each
    address is the word with a null character.  Nothing else in memory changes.
    The stack pointer is a multiple of 4 exactly when the words take an even
    number of bytes: the padding is [total_size % 4 + 4] where [- total_size]
    was meant. *)
Theorem arguments_correct s m hs cs x d command :
  let u := PHYS_BASE - PGSIZE in
  page_held s m hs cs x u d → Forall (λ c, 0 < c < 256) command →
  let file_name := take (COMMAND_MAX_CHARS - 1) command in
  let args := take (Z.to_nat MAX_ARGS) (words [32] file_name) in
  let argc := length args in
  let ptrs := arg_ptrs PHYS_BASE args in
  ∃ token save cm sp s' m' d',
    CString.strtok_r file_name_buf space_str CString.NULL (args_mem file_name) = Ok ((token, save), cm) ∧
    push_arguments junk_page kesp cm token save PHYS_BASE s = Ok (Some sp, s') ∧
    page_held s' m' hs cs x u d' ∧ touched s m s' m' hs cs u ∧ u ≤ sp < PHYS_BASE ∧
    let stack := drop (Z.to_nat (sp - u)) d' in
    take 12 stack = bytes_of_words [0; Z.of_nat argc; sp + 12] ∧
    take (4 * S argc) (drop 12 stack) = bytes_of_words (ptrs ++ [0]) ∧
    (∀ i w p, args !! i = Some w → ptrs !! i = Some p →
       sp ≤ p ∧ take (S (length w)) (drop (Z.to_nat (p - sp)) stack) = w ++ [0]) ∧
    sp mod 4 = 2 * (total_len args mod 2).
Proof.
  intros u Hh Hall file_name args argc ptrs.
  assert (Hc : Forall (λ c, 0 < c < 256) file_name) by (by apply Forall_take).
  assert (Hlen : (length file_name < COMMAND_MAX_CHARS)%nat)
    by (unfold file_name, COMMAND_MAX_CHARS; rewrite length_take; lia).
  destruct (tokens_start 32 file_name ltac:(done) Hc) as (token & save & cm & Htok & _ & Hcase).
  exists token, save, cm.
  assert (Hws : tokens_left cm token save (words [32] file_name)).
  { destruct Hcase as [(E & -> & _)|(w & rest & E & Hb & _)]; rewrite E; [by left|right; by exists w, rest]. }
  destruct (arguments_pushed s m hs cs x d cm token save (words [32] file_name) Hh Hws)
    as (sp & off & s' & m' & Hrun & Ht & (d' & Hh' & Hsp & Hst) & Esp & Eoff & Ho).
  { assert (E := total_len_take (Z.to_nat MAX_ARGS) (words [32] file_name)).
    assert (E' := total_len_words [32] [] file_name). unfold COMMAND_MAX_CHARS in Hlen. unfold words in *. simpl in E'. lia. }
  fold args in Hst, Esp, Eoff. fold ptrs in Hst. fold argc in Hst, Esp. fold u in Ht, Hh', Hsp, Hst.
  assert (Hn := total_len_nonneg args). assert (Hlp : length ptrs = argc) by apply length_arg_ptrs.
  assert (Hlb : length (bytes_of_words ptrs) = (4 * argc)%nat) by (rewrite length_bytes_of_words, Hlp; done).
  exists sp, s', m', d'. split; [exact Htok|]. split; [exact Hrun|]. split; [exact Hh'|]. split; [exact Ht|].
  split; [unfold u in *; lia|]. rewrite Hst. split; [done|]. split; [|split].
  - change (drop 12 _) with (bytes_of_words ptrs ++ replicate (Z.to_nat off) 0 ++ pushed args []).
    rewrite take_app, take_ge by lia. assert (Eb : bytes_of_words (ptrs ++ [0]) = bytes_of_words ptrs ++ le32 0) by (unfold bytes_of_words; by rewrite bind_app).
    rewrite Eb. f_equal.
    replace (4 * S argc - length (bytes_of_words ptrs))%nat with 4%nat by lia.
    rewrite take_app_le by (rewrite length_replicate; lia). rewrite take_replicate.
    by replace (4 `min` Z.to_nat off)%nat with 4%nat by lia.
  - intros i w p Hw Hp. destruct (pushed_string args PHYS_BASE [] i w p Hw Hp) as [H1 H2].
    set (base := PHYS_BASE - total_len args) in *. split; [lia|]. rewrite <- H2. f_equal.
    rewrite (assoc_L (++) _ _ (pushed args [])), (assoc_L (++) _ _ (pushed args [])), drop_pushed;
      rewrite !length_app, length_bytes_of_words, Hlb, length_replicate; cbn [length]; [f_equal|]; lia.
  - rewrite Esp, Eoff. unfold PHYS_BASE. divlia.
Qed.
End stack.
End ExecSpec.
