(* ===== verification/SyscallSpec.v ===== *)
(** * Properties of processes and system calls

    Descriptors, the process list, [wait] and [exit], and calls that bring the
    kernel down. *)
From S2P Require Import Prelude CInt CString Hash Palloc Pagedir PagedirSpec Mmu Block Swap Vm Process SyscallFile Exec Syscall.

Open Scope Z_scope.

Module SyscallSpec.
Import Palloc (NULL).
Import Swap Vm Process SyscallFile Exec Syscall.

(** ** Descriptors *)

(** Descriptors in order, from [n] on. *)
Definition ordered (n : Z) (l : list file_descriptor) : Prop :=
  StronglySorted Z.lt (fd <$> l) ∧ Forall (λ x, n ≤ x) (fd <$> l).

(** The first element with descriptor [n]. *)
Definition find_fd (n : Z) (l : list file_descriptor) : option file_descriptor := snd <$> list_find (λ x, fd x = n) l.

Lemma find_fd_cons n x l : find_fd n (x :: l) = if decide (fd x = n) then Some x else find_fd n l.
Proof. unfold find_fd. simpl. destruct (decide (fd x = n)); [done|]. by destruct (list_find _ l) as [[]|]. Qed.

Lemma find_fd_app n l l' : n ∉ fd <$> l → find_fd n (l ++ l') = find_fd n l'.
Proof.
  induction l as [|x l IH]; intros Hn; [done|]. rewrite <- app_comm_cons, find_fd_cons.
  rewrite fmap_cons, not_elem_of_cons in Hn. destruct Hn as [Hx Hn]. rewrite decide_False by congruence. by apply IH.
Qed.

Lemma find_fd_insert n x l l' : fd x ≠ n → find_fd n (l ++ x :: l') = find_fd n (l ++ l').
Proof.
  intros Hx. induction l as [|y l IH]; simpl; rewrite !find_fd_cons; [by rewrite decide_False|].
  destruct (decide (fd y = n)); [done|exact IH].
Qed.

Lemma create_fd_loop_ok l : ∀ n0 i0, ordered n0 l →
  let '(n, i) := create_fd_loop l n0 i0 in
  n0 ≤ n ∧ n ∉ fd <$> l ∧ (∀ n', n0 ≤ n' < n → n' ∈ fd <$> l).
Proof.
  induction l as [|x l IH]; intros n0 i0 [Hs Hf]; simpl.
  - split; [lia|]. split; [apply not_elem_of_nil|lia].
  - rewrite fmap_cons in *. apply StronglySorted_inv in Hs as [Hs Hx]. apply Forall_cons in Hf as [Hxn Hf].
    rewrite Forall_forall in Hx. destruct (Z.eqb_spec n0 (fd x)) as [->|Hne]; simpl.
    + specialize (IH (fd x + 1) (S i0)). destruct (create_fd_loop l (fd x + 1) (S i0)) as [n i].
      destruct IH as (H1 & H2 & H3). { split; [done|]. apply Forall_forall. intros y Hy. specialize (Hx y Hy). lia. }
      split; [lia|]. split; [rewrite not_elem_of_cons; split; [lia|done]|]. intros n' Hn'.
      destruct (decide (n' = fd x)) as [->|]; [by left|right; apply H3; lia].
    + split; [lia|]. split; [|lia]. rewrite not_elem_of_cons. split; [done|]. intros Hy. specialize (Hx _ Hy). lia.
Qed.

(** Without a gap the new descriptor is the next one, and goes to the end. *)
Lemma create_fd_loop_full l : ∀ n0 i0, fd <$> l = seqZ n0 (Z.of_nat (length l)) →
  create_fd_loop l n0 i0 = (n0 + Z.of_nat (length l), (i0 + length l)%nat).
Proof.
  induction l as [|x l IH]; intros n0 i0 Hl; simpl; [f_equal; lia|].
  rewrite seqZ_cons in Hl by (simpl; lia). injection Hl as Hx Hl. rewrite Hx, Z.eqb_refl. simpl.
  rewrite (IH (n0 + 1) (S i0)); [f_equal; lia|]. etrans; [exact Hl|]. f_equal; lia.
Qed.

(** Where a descriptor goes when there is a gap: behind the one after it. *)
Lemma create_fd_loop_gap l : ∀ n0 i0 n y l', fd <$> l = seqZ n0 (n - n0) → n0 ≤ n → fd y ≠ n →
  create_fd_loop (l ++ y :: l') n0 i0 = (n, (i0 + length l + 1)%nat).
Proof.
  induction l as [|x l IH]; intros n0 i0 n y l' Hl Hn Hy.
  - destruct (decide (n = n0)) as [->|]; [|by rewrite seqZ_cons in Hl by lia]. simpl.
    rewrite (proj2 (Z.eqb_neq n0 (fd y))) by congruence. simpl. f_equal. lia.
  - destruct (decide (n = n0)) as [->|Hne]; [by rewrite Z.sub_diag in Hl|].
    rewrite seqZ_cons in Hl by lia. rewrite fmap_cons in Hl. injection Hl as E Hl. simpl.
    rewrite (proj2 (Z.eqb_eq n0 (fd x))) by congruence. simpl.
    rewrite (IH (n0 + 1) (S i0) n y l'); [f_equal; lia| |lia|done]. rewrite Hl. f_equal. lia.
Qed.

Section calls.
Context {H D F : Type} `{!Mmu H, !Pagedirs H, !BlockDriver D, !PageFiles F, !UserFiles F}.
Context (junk_page : page) (junk : process) (kesp key : Z).
Abbreviation K := (kernel H D F).
Implicit Types (s : K) (k : nat) (p : process).

(** The current thread belongs to process [k], whose record is [p]. *)
Definition running_process s k p : Prop := current_process s = Ok (Some k, s) ∧ procs s !! k = Some p.

Definition with_proc k (p : process) s : K := set_procs (<[k := p]> (procs s)) s.

Lemma get_proc_ok s k p : procs s !! k = Some p → get_proc k s = Ok (p, s).
Proof. intros E. unfold get_proc. erewrite run_bind_ok by reflexivity. by rewrite E. Qed.

Lemma upd_proc_ok s k p f : procs s !! k = Some p → upd_proc k f s = Ok (tt, with_proc k (f p) s).
Proof. intros E. unfold upd_proc. by rewrite (run_bind_ok _ _ _ _ _ (get_proc_ok s k p E)). Qed.

Lemma running_update s k p q : running_process s k p → running_process (with_proc k q s) k q.
Proof.
  intros [Hc Hp]. split; [|apply lookup_insert_eq]. unfold current_process in *. unfold on_vm in *.
  destruct (thread_current (mem s)) as [[t v]|] eqn:E.
  - assert (E' : zoom mem set_mem thread_current (with_proc k q s) = Ok (t, with_proc k q s)).
    { unfold zoom. change (mem (with_proc k q s)) with (mem s). rewrite E. do 2 f_equal.
      assert (v = mem s) as ->; [|by destruct s]. revert E. unfold thread_current, get, mbind, ST_bind, deref.
      destruct (threads (mem s) !! current (mem s)); [by intros [= _ <-]|done]. }
    assert (E'' : zoom mem set_mem thread_current s = Ok (t, set_mem v s)) by (unfold zoom; by rewrite E).
    rewrite (run_bind_ok _ _ _ _ _ E'') in Hc. rewrite (run_bind_ok _ _ _ _ _ E').
    unfold mret, ST_ret in *. injection Hc as Hq _. by rewrite Hq.
  - unfold zoom, mbind, ST_bind in Hc. by rewrite E in Hc.
Qed.

Lemma get_file_descriptor_ok s k p n : running_process s k p → get_file_descriptor n s = Ok (find_fd n (fd_map p), s).
Proof.
  intros [Hc Hp]. unfold get_file_descriptor. rewrite (run_bind_ok _ _ _ _ _ Hc). cbv beta iota.
  by rewrite (run_bind_ok _ _ _ _ _ (get_proc_ok s k p Hp)).
Qed.

Lemma create_fd_run s s1 k p0 p name d f :
  running_process s k p0 → fd_open_file name s = Ok (Some (d, f), s1) → running_process s1 k p →
  let '(n, i) := create_fd_loop (fd_map p) MIN_FD 0 in
  create_fd name s = Ok (n, with_proc k (set_fd_map (take i (fd_map p) ++ MkFd n d f :: drop i (fd_map p)) p) s1).
Proof.
  intros [Hc _] Hopen [_ Hp]. unfold create_fd. rewrite (run_bind_ok _ _ _ _ _ Hc). cbv beta iota.
  rewrite (run_bind_ok _ _ _ _ _ Hopen). cbv beta iota. rewrite (run_bind_ok _ _ _ _ _ (get_proc_ok s1 k p Hp)).
  destruct (create_fd_loop (fd_map p) MIN_FD 0) as [n i]. by rewrite (run_bind_ok _ _ _ _ _ (upd_proc_ok s1 k p _ Hp)).
Qed.

(** C20: Opening a file in a process whose list of descriptors is in order:
    [open] gives it the least descriptor from 2 on that is free; after the call
    the descriptor stands for the file, and every other one for what it did.
    If the descriptors had no gap, the new one goes to the end of the list and
    the list is again in order and without a gap; after a gap the order is lost
    ([descriptor_reused]). *)
Theorem create_fd_correct s s1 k p0 p name d f :
  running_process s k p0 → fd_open_file name s = Ok (Some (d, f), s1) → running_process s1 k p → ordered MIN_FD (fd_map p) →
  ∃ n s', create_fd name s = Ok (n, s') ∧ MIN_FD ≤ n ∧ get_file_descriptor n s1 = Ok (None, s1) ∧
    (∀ n', MIN_FD ≤ n' < n → ∃ x, get_file_descriptor n' s1 = Ok (Some x, s1)) ∧
    get_file_descriptor n s' = Ok (Some (MkFd n d f), s') ∧
    (∀ n' r, n' ≠ n → get_file_descriptor n' s1 = Ok (r, s1) → get_file_descriptor n' s' = Ok (r, s')) ∧
    (fd <$> fd_map p = seqZ MIN_FD (Z.of_nat (length (fd_map p))) →
     ∃ p', running_process s' k p' ∧ fd_map p' = fd_map p ++ [MkFd n d f] ∧
       fd <$> fd_map p' = seqZ MIN_FD (Z.of_nat (length (fd_map p')))).
Proof.
  intros Hr Hopen Hr1 Hord. assert (Hfull := create_fd_loop_full (fd_map p) MIN_FD 0). assert (Hrun := create_fd_run s s1 k p0 p name d f Hr Hopen Hr1).
  assert (Hl := create_fd_loop_ok (fd_map p) MIN_FD 0 Hord). destruct (create_fd_loop (fd_map p) MIN_FD 0) as [n i].
  destruct Hl as (Hn & Hfree & Hused). set (q := set_fd_map _ p) in Hrun.
  assert (Hr2 : running_process (with_proc k q s1) k q) by (by eapply running_update).
  assert (Hnone : ∀ l, n ∉ fd <$> l → find_fd n l = None).
  { intros l Hnl. rewrite <- (app_nil_r l). by rewrite find_fd_app. }
  exists n, (with_proc k q s1). split; [exact Hrun|]. split; [done|].
  rewrite (get_file_descriptor_ok s1 k p n Hr1), (get_file_descriptor_ok _ k q n Hr2). split; [by rewrite Hnone|]. split; [|split; [|split]].
  - intros n' Hn'. specialize (Hused n' Hn'). rewrite (get_file_descriptor_ok s1 k p n' Hr1).
    destruct (find_fd n' (fd_map p)) as [x|] eqn:E; [by exists x|]. exfalso.
    apply fmap_None, list_find_None in E. apply list_elem_of_fmap in Hused as (y & -> & Hy).
    rewrite Forall_forall in E. by apply (E y Hy).
  - unfold q. cbn [fd_map set_fd_map]. rewrite find_fd_app, find_fd_cons, decide_True; [done..|].
    intros Hin. apply Hfree. apply list_elem_of_fmap in Hin as (y & -> & Hy). apply list_elem_of_fmap.
    exists y. split; [done|]. rewrite <- (take_drop i (fd_map p)). apply elem_of_app. by left.
  - intros n' r Hne. rewrite (get_file_descriptor_ok s1 k p n' Hr1), (get_file_descriptor_ok _ k q n' Hr2).
    intros [= <-]. unfold q. cbn [fd_map set_fd_map]. rewrite find_fd_insert by (simpl; congruence). by rewrite take_drop.
  - intros Hl. specialize (Hfull Hl). injection Hfull as En Ei. exists q. split; [done|]. unfold q. cbn [fd_map set_fd_map].
    rewrite take_ge, drop_ge by lia. split; [done|]. rewrite fmap_app, length_app, Hl. cbn [fmap list_fmap fd length].
    rewrite En, Nat2Z.inj_add, seqZ_app by lia. done.
Qed.

(** The same descriptor for two files.  When a descriptor has been
    closed while higher ones are open, [create_fd] puts the new one behind the
    first of those, and the next search stops at the same gap: the second file
    gets the descriptor of the first, which is then out of reach. *)
Theorem descriptor_reused s s1 s2 s3 k p0 p1 p2 p3 l n y l' name1 name2 d1 f1 d2 f2 :
  running_process s k p0 → fd_open_file name1 s = Ok (Some (d1, f1), s1) → running_process s1 k p1 →
  fd_map p1 = l ++ y :: l' → fd <$> l = seqZ MIN_FD (n - MIN_FD) → MIN_FD ≤ n → n < fd y →
  create_fd name1 s = Ok (n, s2) → running_process s2 k p2 →
  fd_open_file name2 s2 = Ok (Some (d2, f2), s3) → running_process s3 k p3 → fd_map p3 = fd_map p2 →
  get_file_descriptor n s2 = Ok (Some (MkFd n d1 f1), s2) ∧
  ∃ s4, create_fd name2 s2 = Ok (n, s4) ∧ get_file_descriptor n s4 = Ok (Some (MkFd n d2 f2), s4).
Proof.
  intros Hr Hopen Hr1 Hmap Hl Hn Hy Hrun1 Hr2 Hopen2 Hr3 Ep3.
  assert (Hnl : n ∉ fd <$> l) by (rewrite Hl, elem_of_seqZ; lia).
  assert (Hfind : ∀ x l2, fd x = n → find_fd n ((l ++ [y]) ++ x :: l2) = Some x).
  { intros x l2 Hx. rewrite find_fd_app, find_fd_cons, decide_True; [done..|].
    rewrite fmap_app, elem_of_app. intros [?|Hin]; [done|]. apply list_elem_of_singleton in Hin. simpl in Hin. lia. }
  assert (Hput : ∀ z, take (0 + length l + 1) (l ++ y :: z) = l ++ [y] ∧ drop (0 + length l + 1) (l ++ y :: z) = z).
  { intros z. simpl. replace (l ++ y :: z) with ((l ++ [y]) ++ z) by (by rewrite <- (assoc_L (++))).
    replace (length l + 1)%nat with (length (l ++ [y])) by (rewrite length_app; simpl; lia).
    split; [apply take_app_length|apply drop_app_length]. }
  assert (H1 := create_fd_run s s1 k p0 p1 name1 d1 f1 Hr Hopen Hr1).
  rewrite Hmap, (create_fd_loop_gap l MIN_FD 0 n y l' Hl Hn ltac:(lia)) in H1. destruct (Hput l') as [Et Ed]. rewrite Et, Ed in H1.
  rewrite H1 in Hrun1. injection Hrun1 as <-. assert (Hp2 := proj2 Hr2). unfold with_proc in Hp2. cbn [procs set_procs] in Hp2.
  rewrite lookup_insert_eq in Hp2. injection Hp2 as Hp2.
  assert (Hm2 : fd_map p2 = l ++ y :: MkFd n d1 f1 :: l').
  { rewrite <- Hp2. cbn [fd_map set_fd_map]. by rewrite <- (assoc_L (++)). }
  split.
  - rewrite (get_file_descriptor_ok _ k p2 n Hr2), Hm2.
    change (l ++ y :: MkFd n d1 f1 :: l') with (l ++ [y] ++ MkFd n d1 f1 :: l'). rewrite (assoc_L (++)). by rewrite Hfind.
  - assert (H2 := create_fd_run _ s3 k p2 p3 name2 d2 f2 Hr2 Hopen2 Hr3).
    rewrite Ep3, Hm2, (create_fd_loop_gap l MIN_FD 0 n y _ Hl Hn ltac:(lia)) in H2. destruct (Hput (MkFd n d1 f1 :: l')) as [Et' Ed'].
    rewrite Et', Ed' in H2. eexists. split; [exact H2|]. set (q := set_fd_map _ p3).
    rewrite (get_file_descriptor_ok _ k q n) by (by eapply running_update). unfold q. cbn [fd_map set_fd_map]. by rewrite Hfind.
Qed.

(** ** What stays the same *)

(** Threads keep their processes, and the current thread is the same. *)
Definition vm_same (v v' : vm H D F) : Prop :=
  current v' = current v ∧ ∀ t, Vm.process <$> threads v' !! t = Vm.process <$> threads v !! t.

#[local] Instance vm_same_preorder : PreOrder vm_same.
Proof.
  split; [by split|]. intros v1 v2 v3 [E1 H1] [E2 H2]. split; [congruence|]. intros t. by rewrite H2.
Qed.

Lemma preserves_current_thread {A} (k : uthread → ST (vm H D F) A) :
  (∀ v x a v', threads v !! current v = Some x → k x v = Ok (a, v') → vm_same v v') → preserves vm_same (x ← thread_current; k x).
Proof.
  intros Hk v a v' (x & v1 & H1 & H2)%run_bind_inv. unfold thread_current in H1. apply run_bind_inv in H1 as (v2 & v3 & [= <- <-] & H1).
  unfold deref in H1. destruct (threads v !! current v) as [y|] eqn:E; [|done]. injection H1 as -> ->. by eapply Hk.
Qed.

Lemma vm_same_thread v x y : threads v !! current v = Some x → Vm.process y = Vm.process x →
  vm_same v (set_threads (<[current v := y]> (threads v)) v).
Proof.
  intros Hx Hy. split; [done|]. intros t. simpl. destruct (decide (t = current v)) as [->|].
  - rewrite lookup_insert_eq, Hx. simpl. by rewrite Hy.
  - by rewrite lookup_insert_ne.
Qed.

Lemma vm_same_hw {A} (m : ST H A) : preserves vm_same (on_hw m).
Proof. by apply preserves_zoom. Qed.
Lemma vm_same_swap {A} (m : ST (swap D) A) : preserves vm_same (on_swap m).
Proof. by apply preserves_zoom. Qed.
Lemma vm_same_fs {A} (m : ST F A) : preserves vm_same (on_fs m).
Proof. by apply preserves_zoom. Qed.
Lemma vm_same_modify f : (∀ v, vm_same v (f v)) → preserves vm_same (modify f).
Proof. apply preserves_modify. Qed.
Lemma vm_same_modify_simple (f : vm H D F → vm H D F) :
  (∀ v, current (f v) = current v) → (∀ v, threads (f v) = threads v) → preserves vm_same (modify f).
Proof. intros E1 E2. apply preserves_modify. intros v. split; [apply E1|]. intros t. by rewrite E2. Qed.
#[local] Hint Resolve vm_same_hw vm_same_swap vm_same_fs : preserves.
#[local] Hint Extern 2 (preserves vm_same (modify _)) => (apply vm_same_modify_simple; reflexivity) : preserves.

Lemma get_page_same k : preserves vm_same (get_page k).
Proof. unfold get_page. preserve. Qed.
Lemma upd_page_same k f : preserves vm_same (upd_page k f).
Proof. unfold upd_page. preserve; eauto using get_page_same. Qed.
#[local] Hint Resolve get_page_same upd_page_same : preserves.
Lemma thread_current_same : preserves vm_same (thread_current (H := H) (D := D) (F := F)).
Proof. unfold thread_current. preserve. Qed.
Lemma free_page_same k : preserves vm_same (free_page k).
Proof. unfold free_page. preserve. Qed.
Lemma locks_same : preserves vm_same (acquire_page (H := H) (D := D) (F := F)) ∧ preserves vm_same (release_page (H := H) (D := D) (F := F)) ∧
  preserves vm_same (acquire_frame (H := H) (D := D) (F := F)) ∧ preserves vm_same (release_frame (H := H) (D := D) (F := F)).
Proof. unfold acquire_page, release_page, acquire_frame, release_frame. split_and!; preserve. Qed.
#[local] Hint Resolve thread_current_same free_page_same : preserves.
#[local] Hint Extern 1 (preserves vm_same acquire_page) => apply locks_same : preserves.
#[local] Hint Extern 1 (preserves vm_same release_page) => apply locks_same : preserves.
#[local] Hint Extern 1 (preserves vm_same acquire_frame) => apply locks_same : preserves.
#[local] Hint Extern 1 (preserves vm_same release_frame) => apply locks_same : preserves.
Lemma ffree_same (k : Z) : preserves vm_same (ffree (H := H) (D := D) (F := F) k).
Proof. unfold ffree. preserve. Qed.
#[local] Hint Resolve ffree_same : preserves.
Lemma page_lookup_same a : preserves vm_same (page_lookup (H := H) (D := D) (F := F) a).
Proof. unfold page_lookup. preserve. Qed.
Lemma falloc_same pg flags : preserves vm_same (falloc pg flags).
Proof. unfold falloc, get_frame_to_evict, pagedir_of, get_thread. preserve. Qed.
Lemma internal_page_free_same pg : preserves vm_same (internal_page_free pg).
Proof. unfold internal_page_free. preserve. Qed.
#[local] Hint Resolve page_lookup_same falloc_same internal_page_free_same : preserves.
Lemma page_frame_alloc_same pg : preserves vm_same (page_frame_alloc pg).
Proof. unfold page_frame_alloc, install_page. preserve. Qed.
#[local] Hint Resolve page_frame_alloc_same : preserves.
Lemma load_page_into_frame_same a : preserves vm_same (load_page_into_frame a).
Proof. unfold load_page_into_frame, load_page_from_filesys, load_page_from_swap. preserve. Qed.
#[local] Hint Resolve load_page_into_frame_same : preserves.

(** A fault in the kernel. *)
Lemma page_fault_same np a e : preserves vm_same (page_fault junk_page np false a e).
Proof.
  unfold page_fault. apply preserves_current_thread. intros v x r v' Hx.
  intros (? & v1 & [= _ <-] & Hrun)%run_bind_inv.
  transitivity (set_threads (<[current v := MkThread (pagedir x) e (stack_pages x) (Vm.process x)]> (threads v)) v);
    [by eapply vm_same_thread|]. apply run_bind_inv in Hrun as (? & v2 & [= _ <-] & Hrun).
  destruct np; cbn [negb] in Hrun; [|injection Hrun as _ <-; done].
  apply run_bind_inv in Hrun as (? & v3 & [= <- <-] & Hrun). apply run_bind_inv in Hrun as (b & v4 & Hload & [= _ <-]).
  destruct (is_user_vaddr a); [|injection Hload as _ <-; done]. by apply (load_page_into_frame_same a) in Hload.
Qed.
#[local] Hint Resolve page_fault_same : preserves.
Lemma mem_read_same a e : preserves vm_same (mem_read junk_page false a e).
Proof. unfold mem_read. preserve. Qed.
Lemma page_free_same a : preserves vm_same (page_free a).
Proof. unfold page_free. preserve. Qed.
Lemma page_destructor_same k : preserves vm_same (page_destructor k).
Proof. unfold page_destructor. preserve. Qed.
#[local] Hint Resolve mem_read_same page_free_same page_destructor_same : preserves.

(** What identifies a process, with its status. *)
Definition identity (p : process) : Z * Z * Z * bool := (status p, pid p, parent_pid p, is_waited_on p).

Definition same s s' : Prop :=
  process_list s' = process_list s ∧ vm_same (mem s) (mem s') ∧
  ∀ k, identity <$> procs s' !! k = identity <$> procs s !! k.

#[local] Instance same_preorder : PreOrder same.
Proof.
  split; [intros s; by split; [|split]|]. intros s1 s2 s3 (E1 & M1 & P1) (E2 & M2 & P2).
  split; [congruence|]. split; [by etransitivity|]. intros k. by rewrite P2.
Qed.

Lemma same_vm {A} (m : ST (vm H D F) A) : preserves vm_same m → preserves same (on_vm m).
Proof. intros Hm. apply (preserves_zoom_with same vm_same); [done|]. intros s v Hv. by split; [|split]. Qed.

Lemma put_dirs_identity l ds : ∀ ps k, identity <$> put_dirs l ds ps !! k = identity <$> ps !! k.
Proof.
  revert ds. induction l as [|i l IH]; intros [|d ds] ps k; try done. cbn [put_dirs]. rewrite IH.
  destruct (ps !! i) as [p|] eqn:E; [|done]. destruct (decide (k = i)) as [->|]; [by rewrite lookup_insert_eq, E|by rewrite lookup_insert_ne].
Qed.

Lemma same_modify (f : K → K) : (∀ s, process_list (f s) = process_list s) → (∀ s, mem (f s) = mem s) →
  (∀ s k, identity <$> procs (f s) !! k = identity <$> procs s !! k) → preserves same (modify f).
Proof.
  intros E1 E2 E3. apply preserves_modify. intros s. split; [apply E1|]. split; [by rewrite E2|apply E3].
Qed.
#[local] Hint Extern 2 (preserves same (on_vm _)) => (apply same_vm) : preserves.

Lemma on_files_same {A} (m : ST F A) : preserves same (on_files m).
Proof.
  unfold on_files. preserve. apply same_modify; [done|done|]. intros s k. simpl. apply put_dirs_identity.
Qed.
Lemma get_proc_same k : preserves same (get_proc (H := H) (D := D) (F := F) k).
Proof. unfold get_proc. preserve. Qed.
#[local] Hint Resolve on_files_same get_proc_same : preserves.

Lemma upd_proc_same k f : (∀ p, identity (f p) = identity p) → preserves same (upd_proc (H := H) (D := D) (F := F) k f).
Proof.
  intros Hf s a s' (p & s1 & H1 & H2)%run_bind_inv. unfold get_proc in H1. apply run_bind_inv in H1 as (s2 & s3 & [= <- <-] & H1).
  unfold deref in H1. destruct (procs s !! k) as [q|] eqn:E; [|done]. injection H1 as -> ->. injection H2 as _ <-.
  split; [done|]. split; [done|]. intros k'. simpl. destruct (decide (k' = k)) as [->|];
    [rewrite lookup_insert_eq, E; simpl; by rewrite Hf|by rewrite lookup_insert_ne].
Qed.
#[local] Hint Extern 2 (preserves same (upd_proc _ _)) => (apply upd_proc_same; reflexivity) : preserves.

Lemma current_process_same : preserves same (current_process (H := H) (D := D) (F := F)).
Proof. unfold current_process. preserve. Qed.
#[local] Hint Resolve current_process_same : preserves.
Lemma kread_same a : preserves same (kread junk_page kesp a).
Proof. unfold kread. preserve. Qed.
#[local] Hint Resolve kread_same : preserves.
Lemma kread_bytes_same n : ∀ a, preserves same (kread_bytes junk_page kesp a n).
Proof. induction n as [|n IH]; intros a; cbn [kread_bytes]; preserve. Qed.
#[local] Hint Resolve kread_bytes_same : preserves.
Lemma fd_open_file_same name : preserves same (fd_open_file (H := H) (D := D) (F := F) name).
Proof. unfold fd_open_file. preserve. Qed.
Lemma fd_close_file_same x : preserves same (fd_close_file (H := H) (D := D) (F := F) x).
Proof. unfold fd_close_file. preserve. Qed.
#[local] Hint Resolve fd_close_file_same : preserves.
Lemma create_fd_same name : preserves same (create_fd (H := H) (D := D) (F := F) name).
Proof. unfold create_fd. pose proof fd_open_file_same. preserve. Qed.
Lemma clean_fds_same : preserves same (clean_fds (H := H) (D := D) (F := F)).
Proof.
  assert (Hl : ∀ n k, preserves same (clean_fds_loop (H := H) (D := D) (F := F) n k)).
  { induction n as [|n IH]; intros k; cbn [clean_fds_loop]; preserve. }
  unfold clean_fds. preserve.
Qed.
Lemma write_back_same fuel : ∀ f a n, preserves same (write_back junk_page kesp fuel f a n).
Proof.
  induction fuel as [|fuel IH]; intros f a n; cbn [write_back]; preserve.
Qed.
Lemma free_pages_same fuel : ∀ a e, preserves same (free_pages fuel a e).
Proof. induction fuel as [|fuel IH]; intros a e; cbn [free_pages]; preserve. Qed.
#[local] Hint Resolve clean_fds_same write_back_same free_pages_same : preserves.
Lemma clean_mapids_same : preserves same (clean_mapids junk_page kesp).
Proof.
  assert (Hl : ∀ l, preserves same (destroy_mapids junk_page kesp l)).
  { induction l as [|e l IH]; cbn [destroy_mapids]; unfold internal_remove_mapid; preserve. }
  unfold clean_mapids. preserve.
Qed.
#[local] Hint Resolve clean_mapids_same : preserves.

(** ** The process list *)

(** Every process in the list has a record, and a process identifier of its
    own. *)
Record procs_ok s : Prop := ProcsOk {
  po_nodup : NoDup (process_list s);
  po_record k : k ∈ process_list s → is_Some (procs s !! k);
  po_pid k k' p p' : k ∈ process_list s → k' ∈ process_list s → procs s !! k = Some p → procs s !! k' = Some p' →
    pid p = pid p' → k = k';
}.

Lemma same_record s s' k p' : same s s' → procs s' !! k = Some p' → ∃ p, procs s !! k = Some p ∧ identity p' = identity p.
Proof.
  intros (_ & _ & Hs) Hp. specialize (Hs k). rewrite Hp in Hs. simpl in Hs. symmetry in Hs.
  apply fmap_Some in Hs as (p & Hp' & E). by exists p.
Qed.
Lemma same_record' s s' k p : same s s' → procs s !! k = Some p → ∃ p', procs s' !! k = Some p' ∧ identity p' = identity p.
Proof.
  intros (_ & _ & Hs) Hp. specialize (Hs k). rewrite Hp in Hs. simpl in Hs.
  apply fmap_Some in Hs as (p' & Hp' & E). by exists p'.
Qed.

Lemma procs_ok_same s s' : same s s' → procs_ok s → procs_ok s'.
Proof.
  intros Hs [H1 H2 H3]. assert (El := proj1 Hs). split; rewrite El; [done| |].
  - intros k Hk. destruct (H2 k Hk) as [p Hp]. destruct (same_record' s s' k p Hs Hp) as (p' & ? & _). by exists p'.
  - intros k k' p p' Hk Hk' Hp Hp' E. destruct (same_record s s' k p Hs Hp) as (q & Hq & Ei), (same_record s s' k' p' Hs Hp') as (q' & Hq' & Ei').
    apply (H3 k k' q q'); try done. unfold identity in *. congruence.
Qed.

Lemma get_process_ok s k p : procs_ok s → k ∈ process_list s → procs s !! k = Some p → get_process (pid p) s = Ok (Some k, s).
Proof.
  intros [H1 H2 H3] Hk Hp. unfold get_process. erewrite run_bind_ok by reflexivity.
  assert (Hsub : ∀ i, i ∈ process_list s → i ∈ process_list s) by done. revert Hk Hsub. generalize (process_list s) at 1 2 4.
  induction l as [|i l IH]; intros Hk Hsub; [by apply elem_of_nil in Hk|]. cbn [get_process_loop].
  destruct (H2 i) as [q Hq]; [apply Hsub; by left|]. rewrite (run_bind_ok _ _ _ _ _ (get_proc_ok s i q Hq)).
  destruct (Z.eqb_spec (pid q) (pid p)) as [E|E].
  - assert (i = k) as -> by (eapply (H3 i k q p); try done; apply Hsub; [by left|done]). done.
  - apply elem_of_cons in Hk as [->|Hk]; [by simplify_eq|]. apply IH; [done|]. intros j Hj. apply Hsub. by right.
Qed.

(** [k] is a child of [parent]. *)
Definition child s (parent : Z) k : Prop := ∃ p, procs s !! k = Some p ∧ parent_pid p = parent.
#[local] Instance child_dec s parent k : Decision (child s parent k).
Proof.
  unfold child. destruct (procs s !! k) as [p|]; [|right; intros (p & [=] & _)].
  destruct (decide (parent_pid p = parent)); [left; by exists p|right; intros (q & [= <-] & ?); done].
Defined.

Lemma after_last (done rest : list nat) k : NoDup ((done ++ [k]) ++ rest) → after k ((done ++ [k]) ++ rest) = Some rest.
Proof.
  induction done as [|i done IH]; simpl; [intros _; by rewrite decide_True|].
  intros [Hi Hn]%NoDup_cons. rewrite decide_False; [by apply IH|]. intros ->. apply Hi. rewrite !elem_of_app. left; right. by left.
Qed.

Lemma filter_other (l : list nat) k : k ∉ l → filter (k ≠.) l = l.
Proof.
  induction l as [|i l IH]; [done|]. intros [Hi Hl]%not_elem_of_cons. rewrite filter_cons_True by done. by rewrite IH.
Qed.
Lemma filter_agree (P Q : nat → Prop) `{!∀ i, Decision (P i)} `{!∀ i, Decision (Q i)} (l : list nat) :
  (∀ i, i ∈ l → P i ↔ Q i) → filter P l = filter Q l.
Proof.
  induction l as [|i l IH]; intros Hl; [done|]. assert (Hi := Hl i ltac:(by left)).
  rewrite !filter_cons, IH by (intros j Hj; apply Hl; by right). by rewrite (decide_ext _ _ _ _ Hi).
Qed.
Lemma filter_middle (l l' : list nat) k : NoDup (l ++ k :: l') → filter (k ≠.) (l ++ k :: l') = l ++ l'.
Proof.
  intros (H1 & H2 & H3)%NoDup_app. apply NoDup_cons in H3 as [H3 _]. rewrite filter_app, filter_cons_False by (intros E; by apply E).
  f_equal; apply filter_other; [intros Hk; by apply (H2 k Hk); left|done].
Qed.

Lemma clean_process_ok s l l' k p : procs_ok s → process_list s = l ++ k :: l' → procs s !! k = Some p →
  ∃ s', clean_process (pid p) s = Ok (tt, s') ∧ s' = set_procs (delete k (procs s)) (set_process_list (l ++ l') s) ∧ procs_ok s'.
Proof.
  intros Hok Hl Hp. assert (Hk : k ∈ process_list s) by (rewrite Hl, elem_of_app; right; by left).
  eexists. split; [|split; [reflexivity|]].
  - unfold clean_process. rewrite (run_bind_ok _ _ _ _ _ (get_process_ok s k p Hok Hk Hp)).
    erewrite run_bind_ok; [|by apply run_deref]. unfold modify. rewrite Hl, filter_middle; [done|]. rewrite <- Hl. apply Hok.
  - destruct Hok as [H1 H2 H3]. rewrite Hl in *. assert (Hne : ∀ i, i ∈ l ++ l' → i ≠ k).
    { intros i Hi ->. apply NoDup_app in H1 as (_ & Hd & Hn). apply NoDup_cons in Hn as [Hn _].
      apply elem_of_app in Hi as [Hi|Hi]; [by apply (Hd k Hi); left|done]. }
    assert (Hin : ∀ i, i ∈ l ++ l' → i ∈ l ++ k :: l') by (intros i; rewrite !elem_of_app, elem_of_cons; tauto).
    split; cbn [process_list procs set_procs set_process_list].
    + rewrite <- Permutation_middle in H1. by apply NoDup_cons in H1 as [_ ?].
    + intros i Hi. rewrite lookup_delete_ne by (symmetry; by apply Hne). apply H2, Hin, Hi.
    + intros i i' q q' Hi Hi' [_ Hq]%lookup_delete_Some [_ Hq']%lookup_delete_Some. apply H3; auto.
Qed.

Lemma clean_loop_ok parent : ∀ fuel rest done s,
  procs_ok s → process_list s = done ++ rest → (length rest < fuel)%nat →
  ∃ ps, let s' := set_procs ps (set_process_list (done ++ filter (λ k, ¬ child s parent k) rest) s) in
    clean_loop fuel (last done) parent s = Ok (tt, s') ∧ procs_ok s' ∧
    ∀ k, ps !! k = if decide (k ∈ rest ∧ child s parent k) then None else procs s !! k.
Proof.
  induction fuel as [|fuel IH]; intros rest done s Hok Hl Hf; [lia|]. cbn [clean_loop]. erewrite run_bind_ok by reflexivity.
  assert (Hrest : match last done with None => Some (process_list s) | Some k => after k (process_list s) end = Some rest).
  { destruct done as [|i done' _] using rev_ind; [by rewrite Hl|]. rewrite last_snoc, Hl. apply after_last.
    rewrite <- Hl. apply Hok. }
  erewrite run_bind_ok; [|by apply run_deref]. clear Hrest. destruct rest as [|k rest].
  { exists (procs s). cbn [filter list_filter]. rewrite <- Hl. replace (set_procs _ _) with s by (by destruct s).
    split; [done|]. split; [done|]. intros k. rewrite decide_False; [done|]. by intros [?%elem_of_nil _]. }
  destruct (po_record s Hok k) as [p Hp]; [rewrite Hl, elem_of_app; right; by left|].
  rewrite (run_bind_ok _ _ _ _ _ (get_proc_ok s k p Hp)). simpl in Hf.
  assert (Hnk : k ∉ rest).
  { assert (Hn := po_nodup s Hok). rewrite Hl in Hn. apply NoDup_app in Hn as (_ & _ & Hn). by apply NoDup_cons in Hn as [? _]. }
  destruct (Z.eqb_spec (parent_pid p) parent) as [E|E].
  - assert (Hc : child s parent k) by (by exists p).
    destruct (clean_process_ok s done rest k p Hok Hl Hp) as (s1 & Hrun & -> & Hok1). rewrite (run_bind_ok _ _ _ _ _ Hrun).
    set (s1 := set_procs _ _) in *. destruct (IH rest done s1 Hok1 eq_refl ltac:(lia)) as (ps & Hrun' & Hok' & Hps).
    assert (Hch : ∀ i, i ∈ rest → child s1 parent i ↔ child s parent i).
    { intros i Hi. unfold child, s1. simpl. rewrite lookup_delete_ne by (intros ->; done). done. }
    assert (Ef : filter (λ i, ¬ child s1 parent i) rest = filter (λ i, ¬ child s parent i) (k :: rest)).
    { rewrite filter_cons_False by tauto. apply filter_agree. intros i Hi. specialize (Hch i Hi). tauto. }
    rewrite Ef in Hrun', Hok'. exists ps. split; [exact Hrun'|]. split; [exact Hok'|]. intros i. rewrite Hps. unfold s1 at 2. simpl.
    destruct (decide (i = k)) as [->|Hi].
    + rewrite decide_False by tauto. rewrite lookup_delete_eq. rewrite decide_True; [done|]. split; [by left|done].
    + rewrite lookup_delete_ne by done. apply decide_ext. rewrite elem_of_cons.
      split; [intros [H1 H2]; split; [by right|by apply Hch]|intros [[?|H1] H2]; [done|split; [done|by apply Hch]]].
  - assert (Hc : ¬ child s parent k) by (intros (q & Hq & ?); simplify_eq).
    destruct (IH rest (done ++ [k]) s Hok) as (ps & Hrun' & Hok' & Hps); [by rewrite <- (assoc_L (++))|lia|].
    rewrite last_snoc in Hrun'. exists ps. rewrite filter_cons_True by done.
    rewrite <- (assoc_L (++)) in Hrun', Hok'. split; [exact Hrun'|]. split; [exact Hok'|]. intros i. rewrite Hps. apply decide_ext.
    rewrite elem_of_cons. split; [tauto|]. intros [[->|?] ?]; [done|tauto].
Qed.

Lemma clean_children_ok s parent : procs_ok s →
  ∃ ps, let s' := set_procs ps (set_process_list (filter (λ k, ¬ child s parent k) (process_list s)) s) in
    clean_child_processes parent s = Ok (tt, s') ∧ procs_ok s' ∧
    ∀ k, ps !! k = if decide (k ∈ process_list s ∧ child s parent k) then None else procs s !! k.
Proof.
  intros Hok. destruct (clean_loop_ok parent (S (length (process_list s))) (process_list s) [] s Hok eq_refl ltac:(lia)) as (ps & Hrun & Hrest).
  exists ps. split; [|exact Hrest]. unfold clean_child_processes. erewrite run_bind_ok by reflexivity. exact Hrun.
Qed.

(** C21: When a process exits, [clean_child_processes] goes through the list
    while it takes records out of it: it ends, the records of the children are
    gone, those of the others are as they were and in the same order, and
    nothing else changes. *)
Theorem clean_children_correct s parent : procs_ok s →
  ∃ s', clean_child_processes parent s = Ok (tt, s') ∧ procs_ok s' ∧
    process_list s' = filter (λ k, ¬ child s parent k) (process_list s) ∧
    (∀ k, procs s' !! k = if decide (k ∈ process_list s ∧ child s parent k) then None else procs s !! k) ∧
    set_procs (procs s) (set_process_list (process_list s) s') = s.
Proof.
  intros Hok. destruct (clean_children_ok s parent Hok) as (ps & Hrun & Hok' & Hps).
  eexists. split; [exact Hrun|]. split; [exact Hok'|]. split; [reflexivity|]. split; [exact Hps|by destruct s].
Qed.

(** ** Waiting and exiting *)

(** The scheduler goes on with thread [t]. *)
Definition switch_to (t : Z) s : K :=
  let v := mem s in
  set_mem (MkVm (hw v) (swp v) (fsys v) (pages v) (frame_table v) (spts v) (threads v) t (ticks v) (next_key v) (page_lock v) (frame_lock v) (page_fault_cnt v)) s.

Lemma wait_begin_ok s k p : procs_ok s → k ∈ process_list s → procs s !! k = Some p →
  parent_pid p = current (mem s) → is_waited_on p = false →
  process_wait_begin (pid p) s =
    Ok (Some (k, if threads (mem s) !! pid p is Some _ then Some (pid p) else None), with_proc k (set_is_waited_on true p) s).
Proof.
  intros Hok Hk Hp Hpar Hw. unfold process_wait_begin. erewrite run_bind_ok by reflexivity.
  rewrite (run_bind_ok _ _ _ _ _ (get_process_ok s k p Hok Hk Hp)). cbv beta iota.
  rewrite (run_bind_ok _ _ _ _ _ (get_proc_ok s k p Hp)), Hpar, Z.eqb_refl, Hw. cbn [andb negb].
  rewrite (run_bind_ok _ _ _ _ _ (upd_proc_ok s k p _ Hp)). by erewrite run_bind_ok by reflexivity.
Qed.

Lemma wait_refused s k p : procs_ok s → k ∈ process_list s → procs s !! k = Some p →
  parent_pid p ≠ current (mem s) ∨ is_waited_on p = true → wait (pid p) s = Ok (Returns (Some (-1)), s).
Proof.
  intros Hok Hk Hp Hno. unfold wait. rewrite (run_bind_ok _ _ s None s); [reflexivity|]. unfold process_wait_begin. erewrite run_bind_ok by reflexivity.
  rewrite (run_bind_ok _ _ _ _ _ (get_process_ok s k p Hok Hk Hp)). cbv beta iota.
  rewrite (run_bind_ok _ _ _ _ _ (get_proc_ok s k p Hp)).
  destruct Hno as [Hne| ->]; [rewrite (proj2 (Z.eqb_neq _ _) Hne); done|by rewrite andb_false_r].
Qed.

Lemma with_proc_same s k p q : procs s !! k = Some p → pid q = pid p → procs_ok s → procs_ok (with_proc k q s).
Proof.
  intros Hp Hq [H1 H2 H3].
  assert (Hl : ∀ i r, procs (with_proc k q s) !! i = Some r → ∃ r', procs s !! i = Some r' ∧ pid r' = pid r).
  { intros i r. unfold with_proc. simpl. intros [[<- <-]|[_ Hr]]%lookup_insert_Some; [by exists p|by exists r]. }
  split; [done| |].
  - intros i Hi. unfold with_proc. simpl. destruct (decide (i = k)) as [->|];
      [rewrite lookup_insert_eq; by eexists|rewrite lookup_insert_ne by done; by apply H2].
  - intros i i' r r' Hi Hi' (x & Hx & Ex)%Hl (x' & Hx' & Ex')%Hl E. apply (H3 i i' x x'); try done. congruence.
Qed.

(** Process [k] is still there, and nothing that identifies it has changed. *)
Definition kept k p s s' : Prop :=
  procs_ok s' ∧ k ∈ process_list s' ∧ (∃ p', procs s' !! k = Some p' ∧ identity p' = identity p) ∧ vm_same (mem s) (mem s').

Lemma kept_same k p s s1 s2 : kept k p s s1 → same s1 s2 → kept k p s s2.
Proof.
  intros (Hok & Hk & (p1 & Hp1 & E1) & Hv) Hs. split; [by eapply procs_ok_same|]. split; [by rewrite (proj1 Hs)|]. split.
  - destruct (same_record' s1 s2 k p1 Hs Hp1) as (p2 & ? & ?). exists p2. split; [done|congruence].
  - transitivity (mem s1); [done|apply Hs].
Qed.

Lemma destroy_pages_same l : preserves same (destroy_pages (H := H) (D := D) (F := F) l).
Proof. induction l as [|i l IH]; cbn [destroy_pages]; preserve. Qed.
Lemma delete_spt_same (k : nat) : preserves same (modify (λ s : K, set_mem (set_spts (delete k (spts (mem s))) (mem s)) s)).
Proof. apply preserves_modify. by intros s. Qed.
#[local] Hint Resolve destroy_pages_same delete_spt_same : preserves.

Lemma thread_current_inv s t s' : on_vm thread_current s = Ok (t, s') → s' = s ∧ threads (mem s) !! current (mem s) = Some t.
Proof.
  unfold on_vm, zoom, thread_current, get, mbind, ST_bind, deref. destruct (threads (mem s) !! current (mem s)) as [x|]; [|done].
  intros [= <- <-]. split; [by destruct s|done].
Qed.

Lemma current_process_inv s o s' : current_process s = Ok (o, s') →
  s' = s ∧ ∃ t, threads (mem s) !! current (mem s) = Some t ∧ Vm.process t = o.
Proof.
  intros (t & s1 & [-> Ht]%thread_current_inv & [= <- <-])%run_bind_inv. split; [done|]. by exists t.
Qed.

Lemma current_process_ok s x : threads (mem s) !! current (mem s) = Some x → current_process s = Ok (Vm.process x, s).
Proof.
  intros Hx. unfold current_process, on_vm, zoom, thread_current, get, mbind, ST_bind, deref. rewrite Hx. by destruct s.
Qed.
Lemma current_process_same' s s' k : current_process s = Ok (Some k, s) → vm_same (mem s) (mem s') → current_process s' = Ok (Some k, s').
Proof.
  intros (_ & t & Ht & Et)%current_process_inv [Ec Hth]. specialize (Hth (current (mem s'))). rewrite Ec, Ht in Hth.
  destruct (threads (mem s') !! current (mem s)) as [t'|] eqn:Ht'; [|done]. injection Hth as Et'.
  rewrite (current_process_ok s' t') by congruence. by rewrite Et', Et.
Qed.

(** The end of [process_exit]: the thread gives its page directory back. *)
Lemma leave_pagedir_same s t a s' : threads (mem s) !! current (mem s) ≫= Vm.process = Vm.process t →
  is_Some (threads (mem s) !! current (mem s)) →
  (if pagedir t =? NULL then mret tt else
   modify (λ s, set_mem (set_threads (<[current (mem s) := MkThread NULL (esp t) (stack_pages t) (Vm.process t)]> (threads (mem s))) (mem s)) s) ;;
   on_vm (on_hw (pagedir_activate NULL)) ;; on_vm (on_hw (pagedir_destroy (pagedir t)))) s = Ok (a, s') → same s s'.
Proof.
  intros Hp [x Hx]. destruct (pagedir t =? NULL); [by intros [= _ <-]|]. intros (? & s1 & [= _ <-] & Hrun)%run_bind_inv.
  transitivity (set_mem (set_threads (<[current (mem s) := MkThread NULL (esp t) (stack_pages t) (Vm.process t)]> (threads (mem s))) (mem s)) s).
  - split; [done|]. split; [|done]. eapply vm_same_thread; [exact Hx|]. rewrite Hx in Hp. by symmetry.
  - assert (Hq : preserves same (on_vm (on_hw (pagedir_activate NULL)) ;; on_vm (on_hw (pagedir_destroy (pagedir t))))) by preserve.
    exact (Hq _ _ _ Hrun).
Qed.

Lemma process_exit_kept s k p a s' : procs_ok s → running_process s k p → k ∈ process_list s → parent_pid p ≠ pid p →
  process_exit s = Ok (a, s') → kept k p s s'.
Proof.
  intros Hok [(_ & t0 & Ht0 & Et0)%current_process_inv Hp] Hk Hpar. unfold process_exit.
  intros (t & s1 & [-> Ht]%thread_current_inv & Hrun)%run_bind_inv. rewrite Ht0 in Ht. injection Ht as <-.
  apply run_bind_inv in Hrun as ([] & s5 & Hbody & Hend). rewrite Et0 in Hbody. cbv beta iota in Hbody.
  rewrite (run_bind_ok _ _ _ _ _ (get_proc_ok s k p Hp)) in Hbody.
  destruct (clean_children_ok s (pid p) Hok) as (ps & Hclean & Hok' & Hps). rewrite (run_bind_ok _ _ _ _ _ Hclean) in Hbody.
  assert (Hc : ¬ child s (pid p) k) by (intros (q & Hq & ?); simplify_eq).
  set (s2 := set_procs _ _) in *. assert (Hk2 : kept k p s s2).
  { split; [done|]. split; [apply list_elem_of_filter; done|]. split; [|done]. exists p. split; [|done].
    unfold s2. simpl. rewrite Hps. rewrite decide_False by tauto. done. }
  assert (Hs : same s2 s5).
  { revert Hbody. match goal with |- ?m s2 = _ → _ => assert (Hq : preserves same m) by preserve end. apply Hq. }
  assert (Hk5 := kept_same k p s s2 s5 Hk2 Hs). eapply kept_same; [exact Hk5|].
  destruct Hk5 as (_ & _ & _ & Ec & Et). specialize (Et (current (mem s))). rewrite Ht0 in Et. simpl in Et.
  eapply leave_pagedir_same; [..|exact Hend]; rewrite Ec; destruct (threads (mem s5) !! current (mem s)); simplify_eq/=; eauto; congruence.
Qed.

(** [exit]: the thread is gone, the process is there with its status. *)
Lemma exit_kept {A} s k p st (r : option A) s' : procs_ok s → running_process s k p → k ∈ process_list s → parent_pid p ≠ pid p →
  exit junk_page kesp st s = Ok (r, s') →
  r = None ∧ procs_ok s' ∧ k ∈ process_list s' ∧ (∃ p', procs s' !! k = Some p' ∧ identity p' = identity (set_status st p)) ∧
  threads (mem s') !! current (mem s) = None.
Proof.
  intros Hok Hr Hk Hpar. assert (Hp := proj2 Hr). unfold exit. rewrite (run_bind_ok _ _ _ _ _ (proj1 Hr)). cbv beta iota.
  intros ([] & s2 & Hbody & Hrun)%run_bind_inv. rewrite (run_bind_ok _ _ _ _ _ (upd_proc_ok s k p _ Hp)) in Hbody.
  set (q := set_status st p) in *. set (s1 := with_proc k q s) in *.
  assert (Hr1 : running_process s1 k q) by (by eapply running_update).
  assert (Hk1 : kept k q s1 s1). { split; [by eapply with_proc_same|]. split; [done|]. split; [exists q; split; [apply Hr1|done]|done]. }
  assert (Hs : same s1 s2).
  { revert Hbody. match goal with |- ?m s1 = _ → _ => assert (Hq : preserves same m) by preserve end. apply Hq. }
  assert (Hk2 := kept_same k q s1 s1 s2 Hk1 Hs). destruct Hk2 as (Hok2 & Hl2 & (p2 & Hp2 & E2) & Hv2).
  erewrite run_bind_ok in Hrun by reflexivity. rewrite (run_bind_ok _ _ _ _ _ (get_proc_ok s2 k p2 Hp2)) in Hrun.
  erewrite run_bind_ok in Hrun by reflexivity. set (s3 := set_exits _ s2) in *.
  unfold thread_exit in Hrun. apply run_bind_inv in Hrun as ([] & s4 & Hexit & Hrun).
  assert (Hr3 : running_process s3 k p2).
  { split; [|done]. eapply (current_process_same' s1); [apply Hr1|exact Hv2]. }
  apply process_exit_kept with (k := k) (p := p2) in Hexit; [|by destruct Hok2|done|done|unfold identity in E2; simpl in E2; congruence].
  destruct Hexit as (Hok4 & Hl4 & (p4 & Hp4 & E4) & Hv4). erewrite run_bind_ok in Hrun by reflexivity.
  apply run_bind_inv in Hrun as ([] & s5 & Hup & Hrun).
  assert (Hs5 : same s4 s5). { revert Hup. assert (Hq : preserves same (sema_up (H := H) (D := D) (F := F) alive_sema set_alive_sema (current (mem s4)))); [|apply Hq]. unfold sema_up. preserve. apply same_modify; done. }
  erewrite run_bind_ok in Hrun by reflexivity. injection Hrun as <- <-. split; [done|].
  assert (Hk5 : kept k p2 s4 s5) by (eapply kept_same; [|exact Hs5]; split; [done|]; split; [done|]; split; [by exists p4|done]).
  destruct Hk5 as (Hok5 & Hl5 & (p5 & Hp5 & E5) & Hv5). split; [by destruct Hok5|]. split; [done|].
  split; [exists p5; split; [done|congruence]|]. simpl.
  replace (current (mem s)) with (current (mem s5)); [apply lookup_delete_eq|].
  rewrite (proj1 Hv5), (proj1 Hv4). exact (proj1 Hv2).
Qed.

(** C17: [wait] after [exit].  When a process has exited with status [st],
    its thread is gone but its record is there: the parent's [wait] for it does
    not block and returns [st], a second [wait] returns -1, and so does the
    [wait] of a process that is not its parent. *)
Theorem wait_gets_exit_status s k p st s' : procs_ok s → running_process s k p → k ∈ process_list s →
  pid p = current (mem s) → parent_pid p ≠ pid p → is_waited_on p = false →
  exit (A := outcome) junk_page kesp st s = Ok (None, s') →
  (∃ s1, wait (pid p) (switch_to (parent_pid p) s') = Ok (Returns (Some st), s1) ∧
         wait (pid p) s1 = Ok (Returns (Some (-1)), s1)) ∧
  ∀ t, t ≠ parent_pid p → wait (pid p) (switch_to t s') = Ok (Returns (Some (-1)), switch_to t s').
Proof.
  intros Hok Hr Hk Hpid Hpar Hw Hexit.
  destruct (exit_kept s k p st _ s' Hok Hr Hk Hpar Hexit) as (_ & Hok' & Hk' & (p' & Hp' & E) & Hgone).
  injection E as E1 E2 E3 E4. cbn in E1, E2, E3, E4. rewrite <- Hpid in Hgone. rewrite <- E2 in Hgone |- *. rewrite <- E3.
  assert (Hsw : ∀ t, procs_ok (switch_to t s')) by (intros t; by destruct Hok').
  split.
  - set (s2 := switch_to (parent_pid p') s'). assert (Hp2 : procs s2 !! k = Some p') by done.
    assert (Hp3 : procs (with_proc k (set_is_waited_on true p') s2) !! k = Some (set_is_waited_on true p')) by apply lookup_insert_eq.
    exists (with_proc k (set_is_waited_on true p') s2). split.
    + unfold wait. erewrite run_bind_ok; [|apply (wait_begin_ok s2 k p'); [apply Hsw|done|done|done|congruence]].
      change (threads (mem s2)) with (threads (mem s')). rewrite Hgone. cbv beta iota.
      erewrite run_bind_ok; [|unfold process_wait_end; by rewrite (run_bind_ok _ _ _ _ _ (get_proc_ok _ k _ Hp3))].
      cbn [status set_is_waited_on]. by rewrite E1.
    + change (pid p') with (pid (set_is_waited_on true p')).
      apply (wait_refused _ k); [eapply with_proc_same; [exact Hp2|done|apply Hsw]|done|done|by right].
  - intros t Ht. apply (wait_refused _ k p'); [apply Hsw|done|done|left]. simpl. congruence.
Qed.

(** A child that outlives its parent.  The parent's exit frees the record
    of the child although the child's thread still uses it: the child's own
    [exit] then touches freed memory. *)
Theorem orphan_exit_faults s k parent t x st : procs_ok s → k ∈ process_list s → child s parent k →
  threads (mem s) !! t = Some x → Vm.process x = Some k →
  ∃ s', clean_child_processes parent s = Ok (tt, s') ∧ threads (mem s') !! t = Some x ∧
    exit (A := outcome) junk_page kesp st (switch_to t s') = Err Fault.
Proof.
  intros Hok Hk Hc Ht Hx. destruct (clean_children_ok s parent Hok) as (ps & Hrun & _ & Hps).
  eexists. split; [exact Hrun|]. split; [exact Ht|]. set (s' := set_procs _ _). set (s1 := switch_to t s').
  assert (Hcur : current_process s1 = Ok (Some k, s1)).
  { rewrite (current_process_ok s1 x Ht). by rewrite Hx. }
  unfold exit. rewrite (run_bind_ok _ _ _ _ _ Hcur). cbv beta iota. apply run_bind_err. apply run_bind_err.
  unfold upd_proc. apply run_bind_err. unfold get_proc. erewrite run_bind_ok by reflexivity.
  change (procs s1 !! k) with (ps !! k). by rewrite Hps, decide_True.
Qed.

(** ** Arguments that nobody checks *)

Definition locked_state s : K := set_syscall_lock (Some (current (mem s))) s.

Lemma locked_fails {A} (m : ST K A) s e : filesys_syscall_lock s = None → m (locked_state s) = Err e → locked m s = Err e.
Proof.
  intros Hl He. unfold locked. rewrite (run_bind_ok _ _ s tt (locked_state s)); [by apply run_bind_err|].
  unfold acquire_filesys_syscall_lock. erewrite run_bind_ok by reflexivity. by rewrite Hl.
Qed.

Lemma locked_running s k p : running_process s k p → running_process (locked_state s) k p.
Proof. intros [Hc Hp]. split; [|done]. by eapply (current_process_same' s). Qed.

Lemma seek_panics s k p n f pos : running_process s k p → filesys_syscall_lock s = None →
  find_fd n (fd_map p) = Some (MkFd n false f) → 2 ^ 31 ≤ pos < 2 ^ 32 →
  (∀ ds c z, z < 0 → file_seek f z (set_dirs ds c (fsys (mem s))) = Err Panic) → seek n pos s = Err Panic.
Proof.
  intros Hr Hl Hf Hpos Hseek. apply locked_fails; [done|]. set (s1 := locked_state s).
  assert (Hd := get_file_descriptor_ok s1 k p n (locked_running s k p Hr)). rewrite Hf in Hd. unfold file_of.
  rewrite (run_bind_ok _ _ s1 (Some f) s1) by (by rewrite (run_bind_ok _ _ _ _ _ Hd)).
  unfold on_files. erewrite run_bind_ok by reflexivity. apply run_bind_err. unfold on_vm, on_fs, zoom, modify, mbind, ST_bind.
  unfold s1. cbn [locked_state set_syscall_lock mem]. rewrite Hseek; [done|].
  unfold s32. assert (E : (pos + 2 ^ 31) mod 2 ^ 32 = pos + 2 ^ 31 - 2 ^ 32); [|lia].
  symmetry. apply (Z.mod_unique_pos _ _ 1); lia.
Qed.

Lemma inumber_faults s k p n : running_process s k p → filesys_syscall_lock s = None → find_fd n (fd_map p) = None →
  inumber n s = Err Fault.
Proof.
  intros Hr Hl Hf. apply locked_fails; [done|]. assert (Hd := get_file_descriptor_ok _ k p n (locked_running s k p Hr)).
  rewrite Hf in Hd. by rewrite (run_bind_ok _ _ _ _ _ Hd).
Qed.

Lemma mmap_panics s k p n addr : running_process s k p → filesys_syscall_lock s = None →
  PHYS_BASE ≤ addr < 2 ^ 32 → pg_ofs addr = 0 → mmap junk_page n addr s = Err Panic.
Proof.
  intros Hr Hl Ha Hofs. unfold mmap. rewrite (proj2 (Z.eqb_neq addr 0)) by (unfold PHYS_BASE in Ha; lia).
  rewrite Hofs. cbn [orb negb Z.eqb]. apply locked_fails; [done|]. apply run_bind_err. unfold create_mapid. apply run_bind_err.
  unfold is_user_vaddr. by rewrite (proj2 (Z.ltb_ge addr PHYS_BASE)) by lia.
Qed.
End calls.
End SyscallSpec.
