(* ===== verification/Cache.v ===== *)
(** * The buffer cache: [src/pintos/filesys/cache.c]

    The cache keeps up to 64 sectors of the file system device in memory,
    writes dirty entries back when they are evicted and when the whole cache
    is flushed, and evicts the entry with the oldest access tick.  The state
    is the array of entries, the device, the timer's tick count and the
    counters; [get_cache_entry] returns an index into the array, as the C
    function returns a pointer into it. *)
From S2P Require Import Prelude CInt Bytes Block.
Import Block.

Open Scope Z_scope.

Module Cache.

Definition CACHE_NUM_SECTORS : nat := 64.
Definition MAX_READ_AHEAD_THREADS : Z := 10.

(** [struct cache_entry]. *)
Record cache_entry := Entry {
  sector : Z;
  free : bool;
  dirty : bool;
  last_accessed_tick : Z;
  data : list Z;
}.

(** The static variables of the module and what it uses of its environment:
    [fs_device] and the timer's [ticks]. *)
Record state (D : Type) := State {
  cache : list cache_entry;
  fs_device : block D;
  ticks : Z;
  cache_reads : Z;
  cache_writes : Z;
  read_ahead_threads : Z;
}.
Arguments State {D}.
Arguments cache {D}.
Arguments fs_device {D}.
Arguments ticks {D}.
Arguments cache_reads {D}.
Arguments cache_writes {D}.
Arguments read_ahead_threads {D}.

Section ops.
Context {D : Type} `{!BlockDriver D}.
Abbreviation M := (ST (state D)).

Definition set_cache (c : list cache_entry) (s : state D) : state D :=
  State c (fs_device s) (ticks s) (cache_reads s) (cache_writes s) (read_ahead_threads s).
Definition set_device (d : block D) (s : state D) : state D :=
  State (cache s) d (ticks s) (cache_reads s) (cache_writes s) (read_ahead_threads s).

(** [*cache_entry] for [cache_entry = cache + i], read and written. *)
Definition get_entry (i : nat) : M cache_entry := s ← get; deref (cache s !! i).
Definition put_entry (i : nat) (e : cache_entry) : M unit :=
  s ← get; deref (cache s !! i) ;; put (set_cache (<[i := e]> (cache s)) s).

(** The effect of [cache_init] on an array with any contents: every entry
    becomes free.  (The write-behind thread it starts is the [Flush] step of
    the runs below.) *)
Definition cache_init (device : block D) (s : state D) : state D :=
  set_device device
    (set_cache ((λ e, Entry (sector e) true (dirty e) (last_accessed_tick e) (data e)) <$> cache s) s).

Definition read_cache_entry_from_disk (i : nat) : M unit :=
  e ← get_entry i;
  d ← zoom fs_device set_device (block_read (sector e));
  put_entry i (Entry (sector e) (free e) false (last_accessed_tick e) d).

Definition write_cache_entry_to_disk (i : nat) : M unit :=
  e ← get_entry i;
  if dirty e then
    zoom fs_device set_device (block_write (sector e) (data e)) ;;
    put_entry i (Entry (sector e) (free e) false (last_accessed_tick e) (data e))
  else mret tt.

(** Does entry [e] hold sector [n]? *)
Definition holds (n : Z) (e : cache_entry) : bool := (sector e =? n) && negb (free e).

Definition cache_entry_exists (n : Z) : M bool := gets (λ s, existsb (holds n) (cache s)).

(** The scan of [get_cache_entry] from index [i]: the entry that holds the
    sector, or else the first free entry seen. *)
Fixpoint scan_entries (n : Z) (es : list cache_entry) (i : nat) (free_cache_entry : option nat)
    : nat + option nat :=
  match es with
  | [] => inr free_cache_entry
  | e :: es =>
    if holds n e then inl i
    else scan_entries n es (S i)
           (match free_cache_entry with
            | None => if free e then Some i else None
            | Some j => Some j
            end)
  end.

Fixpoint evict_loop (es : list cache_entry) (i : nat) (best : nat) (best_tick : Z) : nat :=
  match es with
  | [] => best
  | e :: es =>
    if last_accessed_tick e <? best_tick then evict_loop es (S i) i (last_accessed_tick e)
    else evict_loop es (S i) best best_tick
  end.

Definition get_cache_entry_to_evict : M nat :=
  s ← get;
  match cache s with
  | [] => fail Fault
  | e0 :: es => mret (evict_loop es 1 0 (last_accessed_tick e0))
  end.

(** Runs with [cache_lock] held from start to end. *)
Definition get_cache_entry (n : Z) : M nat :=
  s ← get;
  match scan_entries n (cache s) 0 None with
  | inl i => mret i
  | inr (Some i) =>
    e ← get_entry i;
    put_entry i (Entry n false (dirty e) (last_accessed_tick e) (data e)) ;;
    read_cache_entry_from_disk i ;;
    mret i
  | inr None =>
    i ← get_cache_entry_to_evict;
    write_cache_entry_to_disk i ;;
    e ← get_entry i;
    put_entry i (Entry n (free e) (dirty e) (last_accessed_tick e) (data e)) ;;
    read_cache_entry_from_disk i ;;
    mret i
  end.

(** [memcpy (buffer, cache_entry->data + sector_ofs, size)] and what follows
    it, after the lock has been released. *)
Definition copy_out (i : nat) (sector_ofs size : Z) : M (list Z) :=
  e ← get_entry i;
  (if (sector_ofs <? 0) || (size <? 0) || (Z.of_nat (length (data e)) <? sector_ofs + size)
   then fail Fault else mret tt) ;;
  let buffer := take (Z.to_nat size) (drop (Z.to_nat sector_ofs) (data e)) in
  s ← get;
  put_entry i (Entry (sector e) (free e) (dirty e) (ticks s) (data e)) ;;
  modify (λ s, State (cache s) (fs_device s) (ticks s) (u32 (cache_reads s + 1)) (cache_writes s)
                 (read_ahead_threads s)) ;;
  mret buffer.

(** The lookup and the copy without another thread in between; the code
    releases the lock before it copies, and [cache_copy_race] below shows what
    can happen there. *)
Definition cache_read_partial (n : Z) (sector_ofs size : Z) : M (list Z) :=
  ASSERT (s32 (sector_ofs + size) <=? BLOCK_SECTOR_SIZE) ;;
  i ← get_cache_entry n;
  copy_out i sector_ofs size.

Definition cache_read (n : Z) : M (list Z) := cache_read_partial n 0 BLOCK_SECTOR_SIZE.

Definition copy_in (i : nat) (buffer : list Z) (sector_ofs size : Z) : M unit :=
  e ← get_entry i;
  (if (sector_ofs <? 0) || (size <? 0) || (Z.of_nat (length (data e)) <? sector_ofs + size)
      || (Z.of_nat (length buffer) <? size)
   then fail Fault else mret tt) ;;
  s ← get;
  put_entry i (Entry (sector e) (free e) true (ticks s)
                 (splice (Z.to_nat sector_ofs) (take (Z.to_nat size) buffer) (data e))) ;;
  modify (λ s, State (cache s) (fs_device s) (ticks s) (cache_reads s) (u32 (cache_writes s + 1))
                 (read_ahead_threads s)).

Definition cache_write_partial (n : Z) (buffer : list Z) (sector_ofs size : Z) : M unit :=
  ASSERT (s32 (sector_ofs + size) <=? BLOCK_SECTOR_SIZE) ;;
  i ← get_cache_entry n;
  copy_in i buffer sector_ofs size.

Definition cache_write (n : Z) (buffer : list Z) : M unit :=
  cache_write_partial n buffer 0 BLOCK_SECTOR_SIZE.

(** [cache_read_async] when the allocation of its argument succeeds: starts
    a thread, which is [cache_read_thread] below, if it may and if the
    sector is not cached. Returns whether it did. *)
Definition cache_read_async (n : Z) : M bool :=
  s ← get;
  found ← cache_entry_exists n;
  if (read_ahead_threads s <? MAX_READ_AHEAD_THREADS) && negb found then
    put (State (cache s) (fs_device s) (ticks s) (cache_reads s) (cache_writes s)
           (u32 (read_ahead_threads s + 1))) ;;
    mret true
  else mret false.

Definition cache_read_thread (n : Z) : M unit :=
  get_cache_entry n ;;
  modify (λ s, State (cache s) (fs_device s) (ticks s) (cache_reads s) (cache_writes s)
                 (u32 (read_ahead_threads s - 1))).

Fixpoint flush_loop (n : nat) (i : nat) : M unit :=
  match n with
  | O => mret tt
  | S n =>
    e ← get_entry i;
    (if negb (free e) then write_cache_entry_to_disk i else mret tt) ;;
    flush_loop n (S i)
  end.

Definition write_cache_to_disk : M unit := flush_loop CACHE_NUM_SECTORS 0.
End ops.

(** ** The invariant and the contents a client sees *)
Section spec.
Context {D : Type} `{!BlockDriver D}.
Implicit Types (s : state D) (e : cache_entry) (i j : nat) (n m : Z).

(** An entry in use caches a sector of the device, and agrees with the
    device unless it is dirty. *)
Definition entry_ok (dev : block D) e : Prop :=
  free e = false →
  0 ≤ sector e < size dev ∧ is_sector (data e) ∧
  (dirty e = false → data e = sector_of dev (sector e)).

Record inv s : Prop := Inv {
  inv_len : length (cache s) = CACHE_NUM_SECTORS;
  inv_dev : block_ok (fs_device s);
  inv_entry i e : cache s !! i = Some e → entry_ok (fs_device s) e;
  inv_unique i j ei ej : cache s !! i = Some ei → cache s !! j = Some ej →
    free ei = false → free ej = false → sector ei = sector ej → i = j;
}.

(** The contents of sector [n]: the cached copy if there is one. *)
Definition view s n : list Z :=
  match List.find (holds n) (cache s) with
  | Some e => data e
  | None => sector_of (fs_device s) n
  end.

Lemma holds_true n e : holds n e = true ↔ sector e = n ∧ free e = false.
Proof. unfold holds. rewrite andb_true_iff, Z.eqb_eq, negb_true_iff. done. Qed.

(** No entry caches sector [n]. *)
Definition absent (es : list cache_entry) n : Prop := ∀ i e, es !! i = Some e → holds n e = false.

Lemma view_hit s n i e : inv s → cache s !! i = Some e → holds n e = true → view s n = data e.
Proof.
  intros Hinv Hi He. unfold view. destruct (List.find (holds n) (cache s)) as [e'|] eqn:Hf.
  - apply List.find_some in Hf as [Hin He'].
    apply list_elem_of_In, list_elem_of_lookup in Hin as [j Hj].
    apply holds_true in He as [E1 F1]. apply holds_true in He' as [E2 F2].
    assert (i = j) by (eapply (inv_unique s); eauto; congruence). congruence.
  - assert (Hin : In e (cache s)) by (apply list_elem_of_In, list_elem_of_lookup; eauto).
    rewrite (List.find_none _ _ Hf e Hin) in He. done.
Qed.

Lemma view_miss s n : absent (cache s) n → view s n = sector_of (fs_device s) n.
Proof.
  intros Ha. unfold view. destruct (List.find (holds n) (cache s)) as [e|] eqn:Hf; [|done].
  apply List.find_some in Hf as [Hin He].
  apply list_elem_of_In, list_elem_of_lookup in Hin as [j Hj]. rewrite (Ha j e) in He; done.
Qed.

Lemma view_cases s n : inv s →
  (∃ i e, cache s !! i = Some e ∧ holds n e = true ∧ view s n = data e) ∨
  (absent (cache s) n ∧ view s n = sector_of (fs_device s) n).
Proof.
  intros Hinv. destruct (List.find (holds n) (cache s)) as [e|] eqn:Hf.
  - left. apply List.find_some in Hf as [Hin He].
    apply list_elem_of_In, list_elem_of_lookup in Hin as [j Hj].
    exists j, e. split_and!; [done|done|by eapply view_hit].
  - right. assert (Ha : absent (cache s) n).
    { intros i e Hi. apply (List.find_none _ _ Hf). apply list_elem_of_In, list_elem_of_lookup. eauto. }
    split; [done|by apply view_miss].
Qed.

(** ** Replacing one entry *)

(** The entry at [i] gives way to a clean copy of sector [n]; [dev'] has
    received the old entry's data if that was dirty. *)
Lemma replace_entry s i e dev' n t :
  inv s → cache s !! i = Some e → absent (cache s) n → 0 ≤ n < size (fs_device s) →
  block_ok dev' → size dev' = size (fs_device s) →
  (∀ m, (free e = true ∨ m ≠ sector e) → sector_of dev' m = sector_of (fs_device s) m) →
  (free e = false → sector_of dev' (sector e) = data e) →
  let e' := Entry n false false t (sector_of dev' n) in
  let s' := set_device dev' (set_cache (<[i := e']> (cache s)) s) in
  inv s' ∧ ∀ m, view s' m = view s m.
Proof.
  intros Hinv Hi Ha Hn Hdev' Hsize Hoth Hold e' s'.
  assert (Hlt : (i < length (cache s))%nat) by (by eapply lookup_lt_Some).
  assert (Hlook : ∀ j ej, cache s' !! j = Some ej →
    (j = i ∧ ej = e') ∨ (j ≠ i ∧ cache s !! j = Some ej)).
  { intros j ej. simpl. rewrite list_lookup_insert_Some. intuition congruence. }
  assert (Hinv' : inv s').
  { split.
    - simpl. rewrite length_insert. apply Hinv.
    - done.
    - intros j ej Hj. apply Hlook in Hj as [[-> ->]|[Hne Hj]]; unfold entry_ok; simpl.
      + intros _. rewrite Hsize. split; [done|]. split; [|done].
        destruct Hdev' as (_ & _ & Hok). eapply drv_sector_len; [exact Hok|lia].
      + intros Hf. destruct (inv_entry s Hinv j ej Hj Hf) as (H1 & H2 & H3).
        rewrite Hsize. split; [done|]. split; [done|]. intros Hd. rewrite Hoth; [by apply H3|].
        destruct (free e) eqn:Ef; [by left|right]. intros E. apply Hne.
        eapply (inv_unique s); eauto.
    - intros j k ej ek Hj Hk Fj Fk E.
      apply Hlook in Hj as [[-> ->]|[Hne Hj]]; apply Hlook in Hk as [[-> ->]|[Hne' Hk]]; simpl in *.
      + done.
      + exfalso. assert (holds n ek = true) as Hh by (apply holds_true; auto).
        rewrite (Ha k ek Hk) in Hh. done.
      + exfalso. assert (holds n ej = true) as Hh by (apply holds_true; auto).
        rewrite (Ha j ej Hj) in Hh. done.
      + eapply (inv_unique s); eauto. }
  split; [done|]. intros m.
  destruct (Z.eq_dec m n) as [->|Hmn].
  { rewrite (view_hit s' n i e' Hinv'); [|by apply list_lookup_insert_eq|by apply holds_true].
    simpl. rewrite view_miss by done. apply Hoth.
    destruct (free e) eqn:Ef; [by left|right]. intros ->. specialize (Ha i e Hi).
    assert (holds (sector e) e = true) by (by apply holds_true). congruence. }
  destruct (view_cases s m Hinv) as [(j & ej & Hj & Hh & ->)|[Hab ->]].
  - destruct (decide (j = i)) as [->|Hji].
    + assert (ej = e) as -> by congruence. apply holds_true in Hh as [<- Hf].
      rewrite view_miss; [by apply Hold|]. intros k ek Hk.
      apply Hlook in Hk as [[-> ->]|[Hne Hk]].
      * destruct (holds (sector e) e') eqn:Eh; [|done]. apply holds_true in Eh as [E _].
        simpl in E. congruence.
      * destruct (holds (sector e) ek) eqn:Eh; [|done]. apply holds_true in Eh as [E F].
        exfalso. apply Hne. eapply (inv_unique s); eauto.
    + rewrite (view_hit s' m j ej Hinv'); [done| |done]. simpl.
      by rewrite list_lookup_insert_ne.
  - rewrite view_miss.
    + simpl. apply Hoth. destruct (free e) eqn:Ef; [by left|right]. intros ->.
      specialize (Hab i e Hi). assert (holds (sector e) e = true) by (by apply holds_true). congruence.
    + intros k ek Hk. apply Hlook in Hk as [[-> ->]|[Hne Hk]]; [|by eapply Hab].
      destruct (holds m e') eqn:Eh; [|done]. apply holds_true in Eh as [E _]. simpl in E. congruence.
Qed.

(** ** Running the entry operations *)

Lemma get_entry_ok s i e : cache s !! i = Some e → get_entry i s = Ok (e, s).
Proof. intros H. unfold get_entry. erewrite run_bind_ok; [|reflexivity]. by rewrite H. Qed.

Lemma put_entry_ok s i e e' :
  cache s !! i = Some e → put_entry i e' s = Ok (tt, set_cache (<[i := e']> (cache s)) s).
Proof. intros H. unfold put_entry. erewrite run_bind_ok; [|reflexivity]. by rewrite H. Qed.

Lemma read_entry_ok s i e :
  cache s !! i = Some e → block_ok (fs_device s) → 0 ≤ sector e < size (fs_device s) →
  ∃ d', read_cache_entry_from_disk i s
        = Ok (tt, set_device d' (set_cache (<[i := Entry (sector e) (free e) false
                    (last_accessed_tick e) (sector_of (fs_device s) (sector e))]> (cache s)) s)) ∧
    block_ok d' ∧ size d' = size (fs_device s) ∧
    ∀ m, sector_of d' m = sector_of (fs_device s) m.
Proof.
  intros Hi Hb Hn. destruct (block_read_ok _ _ Hb Hn) as (d' & Hrun & Hb' & Hsz & Hm).
  exists d'. split; [|done]. unfold read_cache_entry_from_disk.
  run_with (get_entry_ok _ _ _ Hi). erewrite run_bind_ok; [|by apply run_zoom_ok].
  by erewrite put_entry_ok.
Qed.

Lemma write_entry_ok s i e :
  cache s !! i = Some e → block_ok (fs_device s) → 0 ≤ sector e < size (fs_device s) →
  is_sector (data e) → (dirty e = false → data e = sector_of (fs_device s) (sector e)) →
  ∃ d' c', write_cache_entry_to_disk i s = Ok (tt, set_device d' (set_cache c' s)) ∧
    c' = <[i := Entry (sector e) (free e) false (last_accessed_tick e) (data e)]> (cache s) ∧
    block_ok d' ∧ size d' = size (fs_device s) ∧ sector_of d' (sector e) = data e ∧
    ∀ m, m ≠ sector e → sector_of d' m = sector_of (fs_device s) m.
Proof.
  intros Hi Hb Hn Hdata Hclean. unfold write_cache_entry_to_disk.
  run_with (get_entry_ok _ _ _ Hi). destruct (dirty e) eqn:Ed.
  - destruct (block_write_ok _ _ (data e) Hb Hn Hdata) as (d' & Hrun & Hb' & Hsz & Hm).
    erewrite run_bind_ok; [|by apply run_zoom_ok]. erewrite put_entry_ok; [|exact Hi].
    eexists d', _. split; [reflexivity|]. split; [done|]. split_and!; try done.
    + by rewrite Hm, Z.eqb_refl.
    + intros m Hne. rewrite Hm. destruct (Z.eqb_spec m (sector e)); [congruence|done].
  - exists (fs_device s), (cache s). split; [by destruct s|]. split_and!; try done.
    + symmetry. apply list_insert_id. rewrite Hi. f_equal. by destruct e; simpl in *; subst.
    + symmetry. by apply Hclean.
Qed.

Lemma scan_entries_inl n es i fo k :
  scan_entries n es i fo = inl k →
  (i ≤ k)%nat ∧ ∃ e, es !! (k - i)%nat = Some e ∧ holds n e = true.
Proof.
  revert i fo. induction es as [|e es IH]; intros i fo; simpl; [done|].
  destruct (holds n e) eqn:E.
  - intros [= ->]. split; [lia|]. exists e. by rewrite Nat.sub_diag.
  - intros (H1 & e' & H2 & H3)%IH. split; [lia|]. exists e'.
    replace (k - i)%nat with (S (k - S i)) by lia. done.
Qed.

Lemma scan_entries_inr n es i fo r :
  scan_entries n es i fo = inr r →
  absent es n ∧
  match r with
  | Some k => fo = Some k ∨ ((i ≤ k)%nat ∧ ∃ e, es !! (k - i)%nat = Some e ∧ free e = true)
  | None => fo = None ∧ ∀ j e, es !! j = Some e → free e = false
  end.
Proof.
  revert i fo. induction es as [|e es IH]; intros i fo; simpl.
  { intros [= <-]. split; [by intros j e ?|]. destruct fo; [by left|done]. }
  destruct (holds n e) eqn:E; [done|]. intros (Hab & Hr)%IH. split.
  { intros [|j] e' Hj; simpl in Hj; [congruence|by eapply Hab]. }
  destruct r as [k|].
  - destruct Hr as [Hr|(H1 & e' & H2 & H3)].
    + destruct fo; [by left|]. destruct (free e) eqn:Ef; [|done]. injection Hr as <-.
      right. split; [lia|]. exists e. by rewrite Nat.sub_diag.
    + right. split; [lia|]. exists e'. replace (k - i)%nat with (S (k - S i)) by lia. done.
  - destruct Hr as [Hr Hall]. destruct fo; [done|]. destruct (free e) eqn:Ef; [done|].
    split; [done|]. intros [|j] e' Hj; simpl in Hj; [congruence|by eapply Hall].
Qed.

(** The first entry with the least access tick. *)
Lemma evict_loop_ok es pre best eb :
  pre !! best = Some eb →
  (∀ j e, pre !! j = Some e → last_accessed_tick eb ≤ last_accessed_tick e) →
  (∀ j e, (j < best)%nat → pre !! j = Some e → last_accessed_tick eb < last_accessed_tick e) →
  ∃ e, (pre ++ es) !! evict_loop es (length pre) best (last_accessed_tick eb) = Some e ∧
    (∀ j e', (pre ++ es) !! j = Some e' → last_accessed_tick e ≤ last_accessed_tick e') ∧
    (∀ j e', (j < evict_loop es (length pre) best (last_accessed_tick eb))%nat →
       (pre ++ es) !! j = Some e' → last_accessed_tick e < last_accessed_tick e').
Proof.
  revert pre best eb. induction es as [|e es IH]; intros pre best eb Hb Hle Hlt; simpl.
  { rewrite app_nil_r. eauto. }
  replace (pre ++ e :: es) with ((pre ++ [e]) ++ es) by (by rewrite <- (assoc_L (++))).
  replace (S (length pre)) with (length (pre ++ [e])) by (rewrite length_app; simpl; lia).
  assert (Hsn : ∀ j e', (pre ++ [e]) !! j = Some e' → pre !! j = Some e' ∨ (j = length pre ∧ e' = e)).
  { intros j e' Hj. apply lookup_app_Some in Hj as [Hj|[Hj Hj']]; [by left|right].
    apply list_lookup_singleton_Some in Hj' as [? ->]. split; [lia|done]. }
  assert (Hbl : (best < length pre)%nat) by (by eapply lookup_lt_Some).
  destruct (Z.ltb_spec (last_accessed_tick e) (last_accessed_tick eb)).
  - apply (IH (pre ++ [e]) (length pre) e).
    + rewrite lookup_app_r by lia. by rewrite Nat.sub_diag.
    + intros j e' [Hj|[_ ->]]%Hsn; [|lia]. apply Hle in Hj. lia.
    + intros j e' Hjl [Hj|[-> ->]]%Hsn; [|lia]. apply Hle in Hj. lia.
  - apply (IH (pre ++ [e]) best eb).
    + by apply lookup_app_l_Some.
    + intros j e' [Hj|[_ ->]]%Hsn; [by eapply Hle|lia].
    + intros j e' Hjl [Hj|[-> ->]]%Hsn; [by eapply Hlt|lia].
Qed.

Lemma evict_ok s : inv s →
  ∃ i e, get_cache_entry_to_evict s = Ok (i, s) ∧ cache s !! i = Some e ∧
    (∀ j e', cache s !! j = Some e' → last_accessed_tick e ≤ last_accessed_tick e') ∧
    (∀ j e', (j < i)%nat → cache s !! j = Some e' → last_accessed_tick e < last_accessed_tick e').
Proof.
  intros Hinv. assert (Hlen := inv_len s Hinv). unfold get_cache_entry_to_evict.
  erewrite run_bind_ok; [|reflexivity]. destruct (cache s) as [|e0 es] eqn:Ec; [done|].
  destruct (evict_loop_ok es [e0] 0 e0) as (e & H1 & H2 & H3).
  - done.
  - intros j e [-> ->]%list_lookup_singleton_Some. lia.
  - intros. lia.
  - exists (evict_loop es 1 0 (last_accessed_tick e0)), e. done.
Qed.

(** Everything but the entries and the device's driver is unchanged. *)
Definition same_env s s' : Prop :=
  size (fs_device s') = size (fs_device s) ∧ ticks s' = ticks s ∧
  read_ahead_threads s' = read_ahead_threads s.

Lemma get_cache_entry_ok s n : inv s → 0 ≤ n < size (fs_device s) →
  ∃ i e s', get_cache_entry n s = Ok (i, s') ∧ inv s' ∧ cache s' !! i = Some e ∧
    holds n e = true ∧ (∀ m, view s' m = view s m) ∧ same_env s s'.
Proof.
  intros Hinv Hn. unfold get_cache_entry. erewrite run_bind_ok; [|reflexivity].
  assert (Hdev := inv_dev s Hinv).
  destruct (scan_entries n (cache s) 0 None) as [i|[i|]] eqn:Hscan.
  - apply scan_entries_inl in Hscan as (_ & e & He & Hh). rewrite Nat.sub_0_r in He.
    exists i, e, s. done.
  - apply scan_entries_inr in Hscan as (Hab & [|(_ & e & He & Hf)]); [done|].
    rewrite Nat.sub_0_r in He. assert (Hlt := lookup_lt_Some _ _ _ He).
    run_with (get_entry_ok _ _ _ He). run_with (put_entry_ok s i e
      (Entry n false (dirty e) (last_accessed_tick e) (data e)) He).
    set (s1 := set_cache _ s).
    assert (He1 : cache s1 !! i = Some (Entry n false (dirty e) (last_accessed_tick e) (data e)))
      by (by apply list_lookup_insert_eq).
    destruct (read_entry_ok s1 i _ He1 Hdev Hn) as (d' & Hrun & Hb' & Hsz & Hm). simpl in Hrun.
    run_with Hrun. rewrite list_insert_insert_eq. simpl in Hm.
    destruct (replace_entry s i e d' n (last_accessed_tick e) Hinv He Hab Hn Hb' Hsz)
      as [Hinv' Hv]; [intros m _; apply Hm|congruence|].
    rewrite Hm in Hinv', Hv. eexists i, _, _. split; [reflexivity|]. split; [exact Hinv'|].
    split; [by apply list_lookup_insert_eq|]. split; [by apply holds_true|]. done.
  - apply scan_entries_inr in Hscan as (Hab & _ & Hall).
    destruct (evict_ok s Hinv) as (i & e & Hev & He & _). run_with Hev.
    assert (Hf := Hall i e He). assert (Hlt := lookup_lt_Some _ _ _ He).
    destruct (inv_entry s Hinv i e He Hf) as (Hse & Hda & Hcl).
    destruct (write_entry_ok s i e He Hdev Hse Hda Hcl) as (d1 & c1 & Hrun1 & -> & Hb1 & Hsz1 & Hw1 & Hm1).
    run_with Hrun1. set (s1 := set_device d1 _).
    assert (He1 : cache s1 !! i = Some (Entry (sector e) (free e) false (last_accessed_tick e) (data e)))
      by (by apply list_lookup_insert_eq).
    run_with (get_entry_ok _ _ _ He1). run_with (put_entry_ok s1 i _
      (Entry n (free e) false (last_accessed_tick e) (data e)) He1).
    set (s2 := set_cache _ s1).
    assert (He2 : cache s2 !! i = Some (Entry n (free e) false (last_accessed_tick e) (data e))).
    { apply list_lookup_insert_eq. simpl. by rewrite length_insert. }
    destruct (read_entry_ok s2 i _ He2 Hb1) as (d' & Hrun & Hb' & Hsz & Hm);
      [simpl; rewrite Hsz1; exact Hn|]. simpl in Hrun. run_with Hrun. simpl in Hm, Hsz.
    rewrite !list_insert_insert_eq, Hf.
    destruct (replace_entry s i e d' n (last_accessed_tick e) Hinv He Hab Hn Hb')
      as [Hinv' Hv]; [congruence|intros m [Hx|Hx]; [congruence|rewrite Hm; by apply Hm1]
                     |intros _; by rewrite Hm|].
    rewrite Hm in Hinv', Hv. eexists i, _, _. split; [reflexivity|]. split; [exact Hinv'|].
    split; [by apply list_lookup_insert_eq|]. split; [by apply holds_true|]. split; [exact Hv|].
    split; [simpl; congruence|done].
Qed.

(** A miss with every entry in use, once the victim has been written back. *)
Lemma get_cache_entry_miss s n i v d1 :
  0 ≤ n < size (fs_device s) → absent (cache s) n →
  (∀ i e, cache s !! i = Some e → free e = false) →
  get_cache_entry_to_evict s = Ok (i, s) → cache s !! i = Some v →
  let s1 := set_device d1 (set_cache (<[i := Entry (sector v) (free v) false
              (last_accessed_tick v) (data v)]> (cache s)) s) in
  write_cache_entry_to_disk i s = Ok (tt, s1) → block_ok d1 → size d1 = size (fs_device s) →
  ∃ s', get_cache_entry n s = Ok (i, s') ∧ (∀ j, j ≠ i → cache s' !! j = cache s !! j) ∧
    ∀ m, sector_of (fs_device s') m = sector_of d1 m.
Proof.
  intros Hn Hab Hfull Hev Hi s1 Hrun Hb1 Hsz1. unfold get_cache_entry.
  erewrite run_bind_ok; [|reflexivity].
  destruct (scan_entries n (cache s) 0 None) as [k|[k|]] eqn:Hscan.
  - apply scan_entries_inl in Hscan as (_ & e & Hk & Hh). rewrite (Hab _ e Hk) in Hh. done.
  - apply scan_entries_inr in Hscan as (_ & [Hk|(_ & e & Hk & Hf)]); [done|].
    rewrite (Hfull _ e Hk) in Hf. done.
  - run_with Hev. run_with Hrun.
    assert (Hlt : (i < length (cache s))%nat) by (by eapply lookup_lt_Some).
    assert (He1 : cache s1 !! i = Some (Entry (sector v) (free v) false (last_accessed_tick v) (data v)))
      by (by apply list_lookup_insert_eq).
    run_with (get_entry_ok _ _ _ He1). run_with (put_entry_ok s1 i _
      (Entry n (free v) false (last_accessed_tick v) (data v)) He1).
    set (s2 := set_cache _ s1).
    assert (He2 : cache s2 !! i = Some (Entry n (free v) false (last_accessed_tick v) (data v))).
    { apply list_lookup_insert_eq. simpl. by rewrite length_insert. }
    destruct (read_entry_ok s2 i _ He2 Hb1) as (d' & Hrun' & Hb' & Hsz & Hm);
      [simpl; rewrite Hsz1; exact Hn|]. simpl in Hrun'. run_with Hrun'.
    eexists. split; [reflexivity|]. split; [|done]. intros j Hj. simpl.
    by rewrite !list_lookup_insert_ne by done.
Qed.

(** ** Changing the contents of one entry in place *)
Lemma touch_entry s i e e' :
  inv s → cache s !! i = Some e → free e = false → free e' = false → sector e' = sector e →
  is_sector (data e') →
  (dirty e' = false → data e' = sector_of (fs_device s) (sector e)) →
  let s' := set_cache (<[i := e']> (cache s)) s in
  inv s' ∧ ∀ m, view s' m = if m =? sector e then data e' else view s m.
Proof.
  intros Hinv Hi Hf Hf' Hsec Hdata Hcl s'.
  assert (Hlt : (i < length (cache s))%nat) by (by eapply lookup_lt_Some).
  assert (Hlook : ∀ j ej, cache s' !! j = Some ej →
    (j = i ∧ ej = e') ∨ (j ≠ i ∧ cache s !! j = Some ej)).
  { intros j ej. simpl. rewrite list_lookup_insert_Some. intuition congruence. }
  destruct (inv_entry s Hinv i e Hi Hf) as (Hrange & _ & _).
  assert (Hinv' : inv s').
  { split.
    - simpl. rewrite length_insert. apply Hinv.
    - apply Hinv.
    - intros j ej Hj. apply Hlook in Hj as [[-> ->]|[Hne Hj]]; [|by eapply (inv_entry s)].
      intros _. rewrite Hsec. done.
    - intros j k ej ek Hj Hk Fj Fk E.
      apply Hlook in Hj as [[-> ->]|[Hne Hj]]; apply Hlook in Hk as [[-> ->]|[Hne' Hk]].
      + done.
      + eapply (inv_unique s Hinv i k e ek); eauto; congruence.
      + eapply (inv_unique s Hinv j i ej e); eauto; congruence.
      + eapply (inv_unique s); eauto. }
  split; [done|]. intros m. destruct (Z.eqb_spec m (sector e)) as [->|Hm].
  { apply (view_hit s' _ i e' Hinv'); [by apply list_lookup_insert_eq|].
    apply holds_true. by rewrite Hsec. }
  destruct (view_cases s m Hinv) as [(j & ej & Hj & Hh & ->)|[Hab ->]].
  - apply (view_hit s' m j ej Hinv'); [|done]. simpl. rewrite list_lookup_insert_ne; [done|].
    intros <-. apply holds_true in Hh as [E _]. congruence.
  - rewrite view_miss; [done|]. intros k ek Hk. apply Hlook in Hk as [[-> ->]|[Hne Hk]].
    + destruct (holds m e') eqn:Eh; [|done]. apply holds_true in Eh as [E _]. congruence.
    + by eapply Hab.
Qed.

(** Statistics and read-ahead counters do not matter to the invariant. *)
Lemma inv_counters s r w t k :
  inv s → inv (State (cache s) (fs_device s) t r w k) ∧
  ∀ m, view (State (cache s) (fs_device s) t r w k) m = view s m.
Proof. intros []. split; [by split|done]. Qed.

Definition valid_access s n ofs sz : Prop :=
  0 ≤ n < size (fs_device s) ∧ 0 ≤ ofs ∧ 0 ≤ sz ∧ ofs + sz ≤ 512.

Lemma cache_read_partial_ok s n ofs sz :
  inv s → valid_access s n ofs sz →
  ∃ s', cache_read_partial n ofs sz s
        = Ok (take (Z.to_nat sz) (drop (Z.to_nat ofs) (view s n)), s') ∧
    inv s' ∧ (∀ m, view s' m = view s m) ∧ same_env s s'.
Proof.
  intros Hinv (Hn & Ho & Hs & Hos). unfold cache_read_partial.
  run_assert; [|rewrite s32_id by (unfold in_s32; lia); unfold BLOCK_SECTOR_SIZE; lia].
  destruct (get_cache_entry_ok s n Hinv Hn) as (i & e & s1 & Hrun & Hinv1 & Hi & Hh & Hv & Henv).
  run_with Hrun. unfold copy_out. run_with (get_entry_ok _ _ _ Hi).
  assert (Hview : view s1 n = data e) by (by apply (view_hit s1 n i e)).
  apply holds_true in Hh as [Hsec Hf].
  destruct (inv_entry s1 Hinv1 i e Hi Hf) as (_ & Hdata & Hcl).
  erewrite run_bind_ok; cycle 1.
  { unfold is_sector in Hdata. rewrite Hdata.
    destruct (Z.ltb_spec ofs 0), (Z.ltb_spec sz 0), (Z.ltb_spec (Z.of_nat 512) (ofs + sz));
      try lia; reflexivity. }
  erewrite run_bind_ok; [|reflexivity].
  run_with (put_entry_ok s1 i e (Entry (sector e) (free e) (dirty e) (ticks s1) (data e)) Hi).
  erewrite run_bind_ok; [|reflexivity].
  destruct (touch_entry s1 i e (Entry (sector e) (free e) (dirty e) (ticks s1) (data e)))
    as [Hinv2 Hv2]; [done..|].
  destruct (inv_counters _ (u32 (cache_reads s1 + 1)) (cache_writes s1) (ticks s1)
              (read_ahead_threads s1) Hinv2) as [Hinv3 Hv3].
  rewrite <- (Hv n), Hview. eexists. split; [reflexivity|]. split; [exact Hinv3|].
  split; [|exact Henv]. intros m. rewrite <- Hv. etrans; [exact (Hv3 m)|]. rewrite Hv2, Hsec. simpl.
  destruct (Z.eqb_spec m n) as [->|]; [by rewrite Hview|done].
Qed.

Lemma cache_write_partial_ok s n buf ofs sz :
  inv s → valid_access s n ofs sz → sz ≤ Z.of_nat (length buf) →
  ∃ s', cache_write_partial n buf ofs sz s = Ok (tt, s') ∧ inv s' ∧
    (∀ m, view s' m = if m =? n then splice (Z.to_nat ofs) (take (Z.to_nat sz) buf) (view s n)
                      else view s m) ∧ same_env s s'.
Proof.
  intros Hinv (Hn & Ho & Hs & Hos) Hbuf. unfold cache_write_partial.
  run_assert; [|rewrite s32_id by (unfold in_s32; lia); unfold BLOCK_SECTOR_SIZE; lia].
  destruct (get_cache_entry_ok s n Hinv Hn) as (i & e & s1 & Hrun & Hinv1 & Hi & Hh & Hv & Henv).
  run_with Hrun. unfold copy_in. run_with (get_entry_ok _ _ _ Hi).
  assert (Hview : view s1 n = data e) by (by apply (view_hit s1 n i e)).
  apply holds_true in Hh as [Hsec Hf].
  destruct (inv_entry s1 Hinv1 i e Hi Hf) as (_ & Hdata & Hcl).
  erewrite run_bind_ok; cycle 1.
  { unfold is_sector in Hdata. rewrite Hdata.
    destruct (Z.ltb_spec ofs 0), (Z.ltb_spec sz 0), (Z.ltb_spec (Z.of_nat 512) (ofs + sz)),
      (Z.ltb_spec (Z.of_nat (length buf)) sz); try lia; reflexivity. }
  erewrite run_bind_ok; [|reflexivity].
  set (e' := Entry (sector e) (free e) true (ticks s1)
               (splice (Z.to_nat ofs) (take (Z.to_nat sz) buf) (data e))).
  run_with (put_entry_ok s1 i e e' Hi).
  destruct (touch_entry s1 i e e') as [Hinv2 Hv2]; [done..| |done|].
  { unfold is_sector. simpl. rewrite splice_length; [done|].
    unfold is_sector in Hdata. rewrite Hdata, length_take. lia. }
  destruct (inv_counters _ (cache_reads s1) (u32 (cache_writes s1 + 1)) (ticks s1)
              (read_ahead_threads s1) Hinv2) as [Hinv3 Hv3].
  eexists. split; [reflexivity|]. split; [exact Hinv3|]. split; [|exact Henv].
  intros m. etrans; [exact (Hv3 m)|]. rewrite Hv2, Hsec. simpl. rewrite <- Hview, <- !Hv. done.
Qed.

(** ** Flushing *)

(** Writing back the entries from [i] on leaves the contents alone and the
    first [i + k] entries clean. *)
Lemma flush_loop_ok k s i :
  inv s → (i + k = length (cache s))%nat →
  (∀ j e, (j < i)%nat → cache s !! j = Some e → free e = false → dirty e = false) →
  ∃ s', flush_loop k i s = Ok (tt, s') ∧ inv s' ∧ (∀ m, view s' m = view s m) ∧ same_env s s' ∧
    (∀ j e, cache s' !! j = Some e → free e = false → dirty e = false).
Proof.
  revert s i. induction k as [|k IH]; intros s i Hinv Hlen Hclean; cbn [flush_loop].
  { exists s. split_and!; try done. intros j e Hj. apply (Hclean j e); [|done].
    apply lookup_lt_Some in Hj. lia. }
  destruct (lookup_lt_is_Some_2 (cache s) i) as [e He]; [lia|].
  run_with (get_entry_ok _ _ _ He). destruct (free e) eqn:Ef; cbn [negb].
  - erewrite run_bind_ok; [|reflexivity]. apply (IH s (S i) Hinv); [lia|].
    intros j ej Hj Hlj Hfj. destruct (decide (j = i)) as [->|]; [congruence|].
    apply (Hclean j ej); (done || lia).
  - destruct (inv_entry s Hinv i e He Ef) as (Hse & Hda & Hcl).
    destruct (write_entry_ok s i e He (inv_dev s Hinv) Hse Hda Hcl)
      as (d1 & c1 & Hrun & -> & Hb1 & Hsz1 & Hw1 & Hm1).
    run_with Hrun.
    set (e' := Entry (sector e) (free e) false (last_accessed_tick e) (data e)) in *.
    set (s1 := set_device d1 (set_cache (<[i := e']> (cache s)) s)).
    assert (Hlt : (i < length (cache s))%nat) by lia.
    assert (Hlook : ∀ j ej, cache s1 !! j = Some ej →
      (j = i ∧ ej = e') ∨ (j ≠ i ∧ cache s !! j = Some ej)).
    { intros j ej. simpl. rewrite list_lookup_insert_Some. intuition congruence. }
    assert (Hne : ∀ j ej, j ≠ i → cache s !! j = Some ej → free ej = false → sector ej ≠ sector e).
    { intros j ej Hj Hlj Hfj E. apply Hj. eapply (inv_unique s); eauto. }
    assert (Hinv1 : inv s1).
    { split; simpl.
      - rewrite length_insert. apply Hinv.
      - done.
      - intros j ej [[-> ->]|[Hj Hlj]]%Hlook Hfj; simpl; rewrite Hsz1.
        + split; [done|]. split; [done|]. intros _. by symmetry.
        + destruct (inv_entry s Hinv j ej Hlj Hfj) as (H1 & H2 & H3). split; [done|]. split; [done|].
          intros Hd. simpl.
          rewrite Hm1; [by apply H3|]. by eapply Hne.
      - intros j1 j2 e1 e2 [[-> ->]|[Hj1 Hl1]]%Hlook [[-> ->]|[Hj2 Hl2]]%Hlook F1 F2 E; simpl in *.
        + done.
        + exfalso. by eapply (Hne j2 e2).
        + exfalso. by eapply (Hne j1 e1).
        + eapply (inv_unique s); eauto. }
    assert (Hv1 : ∀ m, view s1 m = view s m).
    { intros m. destruct (view_cases s m Hinv) as [(j & ej & Hj & Hh & ->)|[Hab ->]].
      - destruct (decide (j = i)) as [->|Hji].
        + assert (ej = e) as -> by congruence.
          apply (view_hit s1 m i e' Hinv1); [by apply list_lookup_insert_eq|done].
        + apply (view_hit s1 m j ej Hinv1); [|done]. simpl. by rewrite list_lookup_insert_ne.
      - rewrite view_miss.
        + simpl. apply Hm1. intros ->. specialize (Hab i e He).
          assert (holds (sector e) e = true) by (by apply holds_true). congruence.
        + intros j ej [[-> ->]|[Hj Hlj]]%Hlook; [exact (Hab i e He)|by eapply Hab]. }
    destruct (IH s1 (S i) Hinv1) as (s2 & Hrun2 & Hinv2 & Hv2 & Henv2 & Hc2).
    + simpl. rewrite length_insert. lia.
    + intros j ej Hj [[-> ->]|[Hji Hlj]]%Hlook Hfj; [done|]. apply (Hclean j ej); (done || lia).
    + exists s2. split; [done|]. split; [done|]. split; [intros m; by rewrite Hv2|]. split; [|done].
      destruct Henv2 as (E1 & E2 & E3). unfold same_env. rewrite E1, E2, E3. simpl. by rewrite Hsz1.
Qed.

Lemma write_cache_to_disk_ok s :
  inv s →
  ∃ s', write_cache_to_disk s = Ok (tt, s') ∧ inv s' ∧ (∀ m, view s' m = view s m) ∧ same_env s s' ∧
    ∀ m, sector_of (fs_device s') m = view s m.
Proof.
  intros Hinv. unfold write_cache_to_disk.
  destruct (flush_loop_ok CACHE_NUM_SECTORS s 0 Hinv) as (s' & Hrun & Hinv' & Hv & Henv & Hc).
  - by rewrite (inv_len s Hinv).
  - intros. lia.
  - exists s'. split_and!; try done. intros m. rewrite <- Hv.
    destruct (view_cases s' m Hinv') as [(j & e & Hj & Hh & ->)|[_ ->]]; [|done].
    apply holds_true in Hh as [<- Hf]. destruct (inv_entry s' Hinv' j e Hj Hf) as (_ & _ & H3).
    symmetry. apply H3. by eapply Hc.
Qed.

(** ** Read-ahead *)
Lemma cache_read_async_ok s n :
  inv s → ∃ b s', cache_read_async n s = Ok (b, s') ∧ inv s' ∧ (∀ m, view s' m = view s m) ∧
    size (fs_device s') = size (fs_device s).
Proof.
  intros Hinv. unfold cache_read_async. erewrite run_bind_ok; [|reflexivity].
  erewrite run_bind_ok; [|reflexivity].
  destruct ((read_ahead_threads s <? MAX_READ_AHEAD_THREADS) && negb (existsb (holds n) (cache s)));
    eexists _, _; (split; [reflexivity|]); [|done].
  destruct (inv_counters s (cache_reads s) (cache_writes s) (ticks s)
              (u32 (read_ahead_threads s + 1)) Hinv). done.
Qed.

Lemma cache_read_thread_ok s n :
  inv s → 0 ≤ n < size (fs_device s) →
  ∃ s', cache_read_thread n s = Ok (tt, s') ∧ inv s' ∧ (∀ m, view s' m = view s m) ∧
    size (fs_device s') = size (fs_device s).
Proof.
  intros Hinv Hn. unfold cache_read_thread.
  destruct (get_cache_entry_ok s n Hinv Hn) as (i & e & s1 & Hrun & Hinv1 & _ & _ & Hv & Hsz & _).
  run_with Hrun. eexists. split; [reflexivity|].
  destruct (inv_counters s1 (cache_reads s1) (cache_writes s1) (ticks s1)
              (u32 (read_ahead_threads s1 - 1)) Hinv1) as [Hinv2 Hv2].
  split; [done|]. split; [|done]. intros m. etrans; [apply Hv2|done].
Qed.

Lemma cache_init_inv s dev :
  length (cache s) = CACHE_NUM_SECTORS → block_ok dev →
  inv (cache_init dev s) ∧ ∀ m, view (cache_init dev s) m = sector_of dev m.
Proof.
  intros Hlen Hdev.
  assert (Hfree : ∀ i e, cache (cache_init dev s) !! i = Some e → free e = true).
  { intros i e. simpl. rewrite list_lookup_fmap. intros (e' & _ & ->)%fmap_Some. done. }
  split; [split|].
  - simpl. by rewrite length_fmap.
  - done.
  - intros i e Hi Hf. rewrite (Hfree i e Hi) in Hf. done.
  - intros i j ei ej Hi _ Hf. rewrite (Hfree i ei Hi) in Hf. done.
  - intros m. apply view_miss. intros i e Hi. unfold holds. by rewrite (Hfree i e Hi), andb_false_r.
Qed.
End spec.

(** ** Runs of the cache

    What the threads of the system ask of the cache, in the order in which
    their critical sections happen: reads and writes of parts of sectors, the
    two halves of an asynchronous read-ahead, the write-behind thread's flush,
    and the timer interrupt. *)
Inductive cache_op :=
| CRead (n ofs sz : Z)
| CWrite (n : Z) (buf : list Z) (ofs sz : Z)
| CReadAsync (n : Z)
| CReadThread (n : Z)
| CFlush
| CTick.

Section runs.
Context {D : Type} `{!BlockDriver D}.
Implicit Types (s : state D).

Definition run_op (op : cache_op) : ST (state D) (list Z) :=
  match op with
  | CRead n ofs sz => cache_read_partial n ofs sz
  | CWrite n buf ofs sz => cache_write_partial n buf ofs sz ;; mret []
  | CReadAsync n => cache_read_async n ;; mret []
  | CReadThread n => cache_read_thread n ;; mret []
  | CFlush => write_cache_to_disk ;; mret []
  | CTick => modify (λ s, State (cache s) (fs_device s) (s64 (ticks s + 1)) (cache_reads s)
                            (cache_writes s) (read_ahead_threads s)) ;; mret []
  end.

Fixpoint run_ops (ops : list cache_op) : ST (state D) (list (list Z)) :=
  match ops with
  | [] => mret []
  | op :: ops => x ← run_op op; xs ← run_ops ops; mret (x :: xs)
  end.

(** The specification: sectors that are read and written in place. *)
Definition spec_op (op : cache_op) (f : Z → list Z) : list Z * (Z → list Z) :=
  match op with
  | CRead n ofs sz => (take (Z.to_nat sz) (drop (Z.to_nat ofs) (f n)), f)
  | CWrite n buf ofs sz =>
    ([], λ m, if m =? n then splice (Z.to_nat ofs) (take (Z.to_nat sz) buf) (f n) else f m)
  | _ => ([], f)
  end.

Fixpoint spec_ops (ops : list cache_op) (f : Z → list Z) : list (list Z) * (Z → list Z) :=
  match ops with
  | [] => ([], f)
  | op :: ops =>
    let '(x, f1) := spec_op op f in
    let '(xs, f2) := spec_ops ops f1 in
    (x :: xs, f2)
  end.

(** Sector on the device, bytes inside the sector, buffer long enough. *)
Definition op_ok (sectors : Z) (op : cache_op) : Prop :=
  match op with
  | CRead n ofs sz => 0 ≤ n < sectors ∧ 0 ≤ ofs ∧ 0 ≤ sz ∧ ofs + sz ≤ 512
  | CWrite n buf ofs sz =>
    (0 ≤ n < sectors ∧ 0 ≤ ofs ∧ 0 ≤ sz ∧ ofs + sz ≤ 512) ∧ sz ≤ Z.of_nat (length buf)
  | CReadThread n => 0 ≤ n < sectors
  | CReadAsync _ | CFlush | CTick => True
  end.

Lemma run_op_ok s op f :
  inv s → (∀ m, view s m = f m) → op_ok (size (fs_device s)) op →
  ∃ s', run_op op s = Ok ((spec_op op f).1, s') ∧ inv s' ∧
    (∀ m, view s' m = (spec_op op f).2 m) ∧ size (fs_device s') = size (fs_device s).
Proof.
  intros Hinv Hf Hok. destruct op as [n ofs sz|n buf ofs sz|n|n| |]; simpl in *.
  - destruct (cache_read_partial_ok s n ofs sz Hinv Hok) as (s' & -> & Hi & Hv & Hsz & _).
    rewrite Hf. eexists. split; [reflexivity|]. split; [done|]. split; [|done].
    intros m. by rewrite Hv.
  - destruct Hok as [Hok Hl].
    destruct (cache_write_partial_ok s n buf ofs sz Hinv Hok Hl) as (s' & Hrun & Hi & Hv & Hsz & _).
    run_with Hrun. eexists. split; [reflexivity|]. split; [done|]. split; [|done].
    intros m. by rewrite Hv, !Hf.
  - destruct (cache_read_async_ok s n Hinv) as (b & s' & Hrun & Hi & Hv & Hsz).
    run_with Hrun. eexists. split; [reflexivity|]. split; [done|]. split; [|done].
    intros m. by rewrite Hv.
  - destruct (cache_read_thread_ok s n Hinv Hok) as (s' & Hrun & Hi & Hv & Hsz).
    run_with Hrun. eexists. split; [reflexivity|]. split; [done|]. split; [|done].
    intros m. by rewrite Hv.
  - destruct (write_cache_to_disk_ok s Hinv) as (s' & Hrun & Hi & Hv & (Hsz & _) & _).
    run_with Hrun. eexists. split; [reflexivity|]. split; [done|]. split; [|done].
    intros m. by rewrite Hv.
  - erewrite run_bind_ok; [|reflexivity]. eexists. split; [reflexivity|].
    destruct (inv_counters s (cache_reads s) (cache_writes s) (s64 (ticks s + 1))
                (read_ahead_threads s) Hinv) as [Hi Hv].
    split; [done|]. split; [|done]. intros m. etrans; [apply Hv|done].
Qed.

Lemma run_ops_ok ops s f :
  inv s → (∀ m, view s m = f m) → Forall (op_ok (size (fs_device s))) ops →
  ∃ s', run_ops ops s = Ok ((spec_ops ops f).1, s') ∧ inv s' ∧
    (∀ m, view s' m = (spec_ops ops f).2 m) ∧ size (fs_device s') = size (fs_device s).
Proof.
  revert s f. induction ops as [|op ops IH]; intros s f Hinv Hf Hall; simpl.
  { exists s. done. }
  inversion Hall as [|? ? H1 H2]; subst.
  destruct (run_op_ok s op f Hinv Hf H1) as (s1 & Hrun & Hi1 & Hv1 & Hsz1).
  destruct (spec_op op f) as [x f1]. simpl in *. run_with Hrun. rewrite <- Hsz1 in H2.
  destruct (IH s1 f1 Hi1 Hv1 H2) as (s2 & Hrun2 & Hi2 & Hv2 & Hsz2). run_with Hrun2.
  destruct (spec_ops ops f1) as [xs f2]. simpl in *. eexists. split; [reflexivity|].
  split; [done|]. split; [done|congruence].
Qed.
End runs.

(** ** The properties of the cache *)

(** C6. The buffer cache is transparent: started by [cache_init] on any
    working device, every sequence of in-bounds reads, writes, read-aheads,
    flushes and timer ticks runs without panic or fault and returns exactly
    what reading and writing the device's sectors in place would return,
    whatever was evicted, written back or re-read on the way; and a final
    [write_cache_to_disk] (as at shutdown) leaves the device itself holding
    those contents. *)
Theorem cache_transparent {D} `{!BlockDriver D} (s : state D) dev ops :
  length (cache s) = CACHE_NUM_SECTORS → block_ok dev → Forall (op_ok (size dev)) ops →
  let '(outs, f) := spec_ops ops (sector_of dev) in
  ∃ s' s'', run_ops ops (cache_init dev s) = Ok (outs, s') ∧ (∀ m, view s' m = f m) ∧
    write_cache_to_disk s' = Ok (tt, s'') ∧ ∀ m, sector_of (fs_device s'') m = f m.
Proof.
  intros Hlen Hdev Hall. destruct (cache_init_inv s dev Hlen Hdev) as [Hinv Hv].
  destruct (run_ops_ok ops _ _ Hinv Hv Hall) as (s' & Hrun & Hi & Hv' & _).
  destruct (spec_ops ops (sector_of dev)) as [outs f]. simpl in *.
  destruct (write_cache_to_disk_ok s' Hi) as (s'' & Hrun2 & _ & _ & _ & Hdisk).
  exists s', s''. split_and!; [done..|]. intros m. by rewrite Hdisk.
Qed.

(** Replacement is least-recently-used: when no entry is free and none
    holds the requested sector, [get_cache_entry] gives the sector the first
    of the entries whose last access tick is least, after writing a dirty
    victim's data to its sector; every other entry stays where it is. *)
Theorem cache_evicts_lru {D} `{!BlockDriver D} (s : state D) n :
  inv s → 0 ≤ n < size (fs_device s) →
  (∀ i e, cache s !! i = Some e → free e = false) → absent (cache s) n →
  ∃ i victim s', get_cache_entry n s = Ok (i, s') ∧ cache s !! i = Some victim ∧
    (∀ j e, cache s !! j = Some e → last_accessed_tick victim ≤ last_accessed_tick e) ∧
    (∀ j e, (j < i)%nat → cache s !! j = Some e → last_accessed_tick victim < last_accessed_tick e) ∧
    (∀ j, j ≠ i → cache s' !! j = cache s !! j) ∧
    sector_of (fs_device s') (sector victim) = data victim.
Proof.
  intros Hinv Hn Hfull Hab.
  destruct (evict_ok s Hinv) as (i & v & Hev & Hi & Hle & Hlt).
  destruct (inv_entry s Hinv i v Hi (Hfull i v Hi)) as (Hse & Hda & Hcl).
  destruct (write_entry_ok s i v Hi (inv_dev s Hinv) Hse Hda Hcl)
    as (d1 & c1 & Hrun & -> & Hb1 & Hsz1 & Hw1 & Hm1).
  destruct (get_cache_entry_miss s n i v d1 Hn Hab Hfull Hev Hi Hrun Hb1 Hsz1)
    as (s' & Hrun' & Hoth & Hsec).
  exists i, v, s'. split_and!; [done..|]. by rewrite Hsec.
Qed.

(** ** A small disk, for examples *)

(** [n] sectors; every byte of sector [k] is [k]. *)
Definition demo_sector (k : nat) : list Z := replicate 512 (Z.of_nat k).
Definition demo_device (n : nat) : block ramdisk :=
  MkBlock BLOCK_FILESYS (Z.of_nat n) (demo_sector <$> seq 0 n) 0 0.
(** Sector [k] in entry [k], last accessed at tick [k]. *)
Definition demo_entry (k : nat) : cache_entry :=
  Entry (Z.of_nat k) false false (Z.of_nat k) (demo_sector k).
Definition demo_full : state ramdisk :=
  State (demo_entry <$> seq 0 64) (demo_device 66) 100 0 0 0.

Lemma demo_device_ok n : Z.of_nat n < 2 ^ 32 → block_ok (demo_device n).
Proof.
  intros Hn. split; [simpl; lia|]. split; [done|]. split.
  - simpl. by rewrite length_fmap, length_seq.
  - simpl. apply Forall_fmap, Forall_true. intros k. unfold is_sector. apply length_replicate.
Qed.

Lemma demo_entry_inv i e : cache demo_full !! i = Some e → (i < 64)%nat ∧ e = demo_entry i.
Proof.
  change (cache demo_full) with (demo_entry <$> seq 0 64). rewrite list_lookup_fmap. intros (k & Hk & ->)%fmap_Some.
  apply lookup_seq in Hk as [-> Hlt]. done.
Qed.

Lemma demo_full_inv : inv demo_full.
Proof.
  split.
  - reflexivity.
  - apply demo_device_ok. lia.
  - intros i e [Hi ->]%demo_entry_inv _. split; [simpl; lia|]. split; [apply length_replicate|]. intros _.
    change (demo_sector i = (if Z.of_nat i <? 0 then [] else
              default [] ((demo_sector <$> seq 0 66) !! Z.to_nat (Z.of_nat i)))).
    destruct (Z.ltb_spec (Z.of_nat i) 0); [lia|].
    rewrite Nat2Z.id, list_lookup_fmap, lookup_seq_lt by lia. done.
  - intros i j ei ej [_ ->]%demo_entry_inv [_ ->]%demo_entry_inv _ _ E. simpl in E. lia.
Qed.

Definition demo_ops : list cache_op :=
  [CWrite 3 [7; 8] 510 2; CReadAsync 9; CReadThread 9] ++
  ((λ k, CRead k 0 4) <$> seqZ 0 66) ++ [CTick; CFlush; CRead 3 509 3].

Lemma cache_transparent_witness :
  ∃ s' s'', run_ops demo_ops (cache_init (demo_device 66) demo_full)
      = Ok ((spec_ops demo_ops (sector_of (demo_device 66))).1, s') ∧
    write_cache_to_disk s' = Ok (tt, s'') ∧
    take 3 (drop 509 (sector_of (fs_device s'') 3)) = [3; 7; 8].
Proof.
  assert (Hops : Forall (op_ok (size (demo_device 66))) demo_ops).
  { unfold demo_ops. rewrite !Forall_app. split; [|split].
    - repeat constructor; simpl; lia.
    - apply Forall_fmap, Forall_forall. intros k Hk%elem_of_seqZ. simpl. lia.
    - repeat constructor; simpl; lia. }
  assert (H := cache_transparent demo_full (demo_device 66) demo_ops eq_refl
                 (demo_device_ok 66 ltac:(lia)) Hops).
  destruct (spec_ops demo_ops (sector_of (demo_device 66))) as [outs f] eqn:E.
  destruct H as (s' & s'' & H1 & _ & H3 & H4). exists s', s''. split; [exact H1|]. split; [exact H3|].
  rewrite H4. apply (f_equal snd) in E. simpl in E. subst f. vm_compute. reflexivity.
Defined.

Lemma cache_evicts_lru_witness :
  ∃ i victim s', get_cache_entry 65 demo_full = Ok (i, s') ∧ cache demo_full !! i = Some victim ∧
    (∀ j, j ≠ i → cache s' !! j = cache demo_full !! j).
Proof.
  destruct (cache_evicts_lru demo_full 65 demo_full_inv) as (i & v & s' & H1 & H2 & _ & _ & H5 & _).
  - simpl. lia.
  - by intros i e [_ ->]%demo_entry_inv.
  - intros i e [Hi ->]%demo_entry_inv. unfold holds. simpl. rewrite andb_true_r.
    apply Z.eqb_neq. lia.
  - exists i, v, s'. done.
Defined.

(** The window the comment in [cache_read_partial] warns of is real: the
    lock is released between [get_cache_entry] and the copy, and when another
    thread's read of a further sector runs in between, the entry changes
    hands, so the reader of sector 0 gets the bytes of sector 64, and a
    writer of sector 0 corrupts sector 64 instead and its own write is lost. *)
Theorem cache_copy_race :
  ∃ (s s1 s2 : state ramdisk) i outs,
    inv s ∧ get_cache_entry 0 s = Ok (i, s1) ∧ run_ops [CRead 64 0 1] s1 = Ok (outs, s2) ∧
    (∃ s3, copy_out i 0 2 s2 = Ok ([64; 64], s3)) ∧ take 2 (view s 0) = [0; 0] ∧
    (∃ s3, copy_in i [7; 7] 0 2 s2 = Ok (tt, s3) ∧
       take 2 (view s3 0) = [0; 0] ∧ take 2 (view s3 64) = [7; 7]).
Proof.
  exists demo_full. eexists _, _, _, _. split; [exact demo_full_inv|].
  split; [vm_compute; reflexivity|]. split; [vm_compute; reflexivity|].
  split; [eexists; vm_compute; reflexivity|]. split; [vm_compute; reflexivity|].
  eexists. split; [vm_compute; reflexivity|]. split; vm_compute; reflexivity.
Qed.

End Cache.

(** ** The contract of the cache towards the file system

    What [inode.c] relies on: partial reads and writes of sectors that behave
    as on an array of sectors, and an asynchronous read that changes nothing
    it can see. *)
Class SectorStore (S : Type) := {
  store_read_partial : Z → Z → Z → ST S (list Z);
  store_write_partial : Z → list Z → Z → Z → ST S unit;
  store_read_async : Z → ST S unit;
  store_ok : S → Prop;
  store_sectors : S → Z;
  store_view : S → Z → list Z;
  store_view_len s n : store_ok s → 0 ≤ n < store_sectors s → is_sector (store_view s n);
  store_read_spec s n ofs sz :
    store_ok s → 0 ≤ n < store_sectors s → 0 ≤ ofs → 0 ≤ sz → ofs + sz ≤ 512 →
    ∃ s', store_read_partial n ofs sz s
          = Ok (take (Z.to_nat sz) (drop (Z.to_nat ofs) (store_view s n)), s') ∧
      store_ok s' ∧ store_sectors s' = store_sectors s ∧ ∀ m, store_view s' m = store_view s m;
  store_write_spec s n buf ofs sz :
    store_ok s → 0 ≤ n < store_sectors s → 0 ≤ ofs → 0 ≤ sz → ofs + sz ≤ 512 →
    sz ≤ Z.of_nat (length buf) →
    ∃ s', store_write_partial n buf ofs sz s = Ok (tt, s') ∧
      store_ok s' ∧ store_sectors s' = store_sectors s ∧
      ∀ m, store_view s' m
           = if m =? n then splice (Z.to_nat ofs) (take (Z.to_nat sz) buf) (store_view s n)
             else store_view s m;
  store_write_panic s n buf ofs sz :
    0 ≤ ofs → 0 ≤ sz → 512 < ofs + sz < 2 ^ 31 → store_write_partial n buf ofs sz s = Err Panic;
  store_read_async_spec s n :
    store_ok s → ∃ s', store_read_async n s = Ok (tt, s') ∧
      store_ok s' ∧ store_sectors s' = store_sectors s ∧ ∀ m, store_view s' m = store_view s m;
}.

(** The buffer cache meets it. *)
#[export] Program Instance cache_store {D} `{!BlockDriver D} : SectorStore (Cache.state D) := {|
  store_read_partial := Cache.cache_read_partial;
  store_write_partial := Cache.cache_write_partial;
  store_read_async n := Cache.cache_read_async n ;; mret tt;
  store_ok := Cache.inv;
  store_sectors s := size (Cache.fs_device s);
  store_view := Cache.view;
|}.
Next Obligation.
  intros D ? s n Hinv Hn. destruct (Cache.view_cases s n Hinv) as [(i & e & Hi & Hh & ->)|[_ ->]].
  - apply Cache.holds_true in Hh as [<- Hf]. by apply (Cache.inv_entry s Hinv i e Hi Hf).
  - destruct (Cache.inv_dev s Hinv) as (_ & _ & Hd). by eapply drv_sector_len.
Qed.
Next Obligation.
  intros D ? s n ofs sz Hinv Hn Ho Hs Hos.
  destruct (Cache.cache_read_partial_ok s n ofs sz Hinv) as (s' & Hrun & Hi & Hv & Hsz & _); [done|].
  exists s'. done.
Qed.
Next Obligation.
  intros D ? s n buf ofs sz Hinv Hn Ho Hs Hos Hl.
  destruct (Cache.cache_write_partial_ok s n buf ofs sz Hinv) as (s' & Hrun & Hi & Hv & Hsz & _);
    [done..|]. exists s'. done.
Qed.
Next Obligation.
  intros D ? s n buf ofs sz Ho Hs Hos. unfold Cache.cache_write_partial. apply run_bind_err.
  apply run_assert_fail. rewrite s32_id by (unfold in_s32; lia). apply Z.leb_gt.
  unfold BLOCK_SECTOR_SIZE. lia.
Qed.
Next Obligation.
  intros D ? s n Hinv. destruct (Cache.cache_read_async_ok s n Hinv) as (b & s' & Hrun & Hi & Hv & Hsz).
  exists s'. run_with Hrun. done.
Qed.
