(* ===== verification/Inode.v ===== *)
(** * Inodes and the free map: [src/pintos/filesys/inode.c] and the
    allocation functions of [src/pintos/filesys/free-map.c]

    The two call each other: a write may extend its inode, which allocates
    sectors, which writes the free map to its file.  The functions on that
    cycle take the writer they call as an argument and [inode_write_at] ties
    the knot with fuel.  Pointers to [struct inode] and [struct file] are
    keys of a heap; an [inode_disk] is a value that the functions that modify
    it return.  Sectors are reached through [SectorStore], the contract of
    the buffer cache.  Kernel heap allocations succeed. *)
From S2P Require Import Prelude CInt Bytes Bitmap Block Cache.

Open Scope Z_scope.

Definition INODE_MAGIC : Z := 0x494e4f44.
Definition INODE_NUM_DBLOCKS : Z := 12.
Definition INDBLOCK_NUM_CHILDREN : Z := 128.
Definition DOUBLY_INDBLOCK_NUM_GRANDCHILDREN : Z := INDBLOCK_NUM_CHILDREN * INDBLOCK_NUM_CHILDREN.
Definition DBLOCK_END_BOUND : Z := INODE_NUM_DBLOCKS.
Definition INDBLOCK_END_BOUND : Z := DBLOCK_END_BOUND + INDBLOCK_NUM_CHILDREN + 1.

Module Inode.

(** [struct inode_disk], the padding after [is_dir] included. *)
Record inode_disk := InodeDisk {
  i_length : Z;
  i_is_dir : bool;
  i_padding : Z;
  dblocks : list Z;
  indblock : Z;
  doubly_indblock : Z;
  magic : Z;
  unused : list Z;
}.

(** Its representation as the 128 words of a sector. *)
Definition words_of_disk (d : inode_disk) : list Z :=
  u32 (i_length d) :: Z.b2z (i_is_dir d) + 256 * i_padding d ::
  dblocks d ++ indblock d :: doubly_indblock d :: magic d :: unused d.
Definition disk_of_words (ws : list Z) : inode_disk :=
  InodeDisk (s32 (nth 0 ws 0)) (negb (nth 1 ws 0 mod 256 =? 0)) (nth 1 ws 0 / 256)
    (take 12 (drop 2 ws)) (nth 14 ws 0) (nth 15 ws 0) (nth 16 ws 0) (drop 17 ws).
Definition encode (d : inode_disk) : list Z := bytes_of_words (words_of_disk d).
Definition decode (bs : list Z) : inode_disk := disk_of_words (words_of_bytes bs).

(** [struct inode]; its list element is its place in [open_inodes]. *)
Record inode := MkInode {
  sector : Z;
  open_cnt : Z;
  removed : bool;
  deny_write_cnt : Z;
}.

(** [struct file] of [file.c]. *)
Record file := MkFile {
  file_inode : nat;
  pos : Z;
  deny_write : bool;
}.

(** The file system: the store below it, the static variables of [free-map.c]
    and [inode.c], and the heap objects they point to. *)
Record fs (S : Type) := Fs {
  store : S;
  free_map : Bitmap.bitmap;
  free_map_file : option nat;
  inodes : gmap nat inode;
  open_inodes : list nat;
  files : gmap nat file;
  next : nat;
}.
Arguments Fs {S}.
Arguments store {S}.
Arguments free_map {S}.
Arguments free_map_file {S}.
Arguments inodes {S}.
Arguments open_inodes {S}.
Arguments files {S}.
Arguments next {S}.

(** ** Geometry *)

Definition bytes_to_data_sectors (size : Z) : Z :=
  u32 (Z.quot (s32 (size + BLOCK_SECTOR_SIZE - 1)) BLOCK_SECTOR_SIZE).

Definition bytes_to_indirect_sectors (size : Z) : Z :=
  let data_sectors_left := bytes_to_data_sectors size in
  if data_sectors_left <=? INODE_NUM_DBLOCKS then 0
  else
    let data_sectors_left := u32 (data_sectors_left - INODE_NUM_DBLOCKS) in
    if data_sectors_left <=? INDBLOCK_NUM_CHILDREN then 1
    else
      let data_sectors_left := u32 (data_sectors_left - INDBLOCK_NUM_CHILDREN) in
      let doubly_indblocks := u32 (Z.quot (u32 (data_sectors_left + INDBLOCK_NUM_CHILDREN - 1))
                                     INDBLOCK_NUM_CHILDREN) in
      u32 (2 + doubly_indblocks).

Definition bytes_to_sectors (size : Z) : Z :=
  u32 (bytes_to_data_sectors size + bytes_to_indirect_sectors size).

Section ops.
Context {S : Type} `{!SectorStore S}.
Abbreviation M := (ST (fs S)).

Definition set_store (x : S) (s : fs S) : fs S :=
  Fs x (free_map s) (free_map_file s) (inodes s) (open_inodes s) (files s) (next s).
Definition set_free_map (b : Bitmap.bitmap) (s : fs S) : fs S :=
  Fs (store s) b (free_map_file s) (inodes s) (open_inodes s) (files s) (next s).
Definition set_inodes (h : gmap nat inode) (s : fs S) : fs S :=
  Fs (store s) (free_map s) (free_map_file s) h (open_inodes s) (files s) (next s).
Definition set_open_inodes (l : list nat) (s : fs S) : fs S :=
  Fs (store s) (free_map s) (free_map_file s) (inodes s) l (files s) (next s).
Definition set_files (h : gmap nat file) (s : fs S) : fs S :=
  Fs (store s) (free_map s) (free_map_file s) (inodes s) (open_inodes s) h (next s).
Definition set_free_map_file (f : option nat) (s : fs S) : fs S :=
  Fs (store s) (free_map s) f (inodes s) (open_inodes s) (files s) (next s).

Definition with_store {A} (m : ST S A) : M A := zoom store set_store m.
Definition with_free_map {A} (m : ST Bitmap.bitmap A) : M A := zoom free_map set_free_map m.

(** The cache, through its contract. *)
Definition cache_read_partial (n ofs size : Z) : M (list Z) :=
  with_store (store_read_partial n ofs size).
Definition cache_read (n : Z) : M (list Z) := cache_read_partial n 0 BLOCK_SECTOR_SIZE.
Definition cache_write_partial (n : Z) (buffer : list Z) (ofs size : Z) : M unit :=
  with_store (store_write_partial n buffer ofs size).
Definition cache_write (n : Z) (buffer : list Z) : M unit :=
  cache_write_partial n buffer 0 BLOCK_SECTOR_SIZE.
Definition cache_read_async (n : Z) : M unit := with_store (store_read_async n).

Definition get_inode (p : nat) : M inode := s ← get; deref (inodes s !! p).
Definition put_inode (p : nat) (i : inode) : M unit :=
  s ← get; put (set_inodes (<[p := i]> (inodes s)) s).

(** A sector read as an array of 128 sector numbers. *)
Definition read_indblock (n : Z) : M (list Z) := bs ← cache_read n; mret (words_of_bytes bs).

Definition byte_to_sector (d : inode_disk) (pos : Z) : M Z :=
  let sector_num := u32 (Z.quot pos BLOCK_SECTOR_SIZE) in
  if sector_num <? INODE_NUM_DBLOCKS then deref (dblocks d !! Z.to_nat sector_num)
  else
    let sector_num := u32 (sector_num - INODE_NUM_DBLOCKS) in
    if sector_num <? INDBLOCK_NUM_CHILDREN then
      ib ← read_indblock (indblock d);
      deref (ib !! Z.to_nat sector_num)
    else
      let sector_num := u32 (sector_num - INDBLOCK_NUM_CHILDREN) in
      if sector_num <? DOUBLY_INDBLOCK_NUM_GRANDCHILDREN then
        ib ← read_indblock (doubly_indblock d);
        child ← deref (ib !! Z.to_nat (sector_num / INDBLOCK_NUM_CHILDREN));
        ib ← read_indblock child;
        deref (ib !! Z.to_nat (sector_num mod INDBLOCK_NUM_CHILDREN))
      else mret (u32 (-1)).

(** On a non-null inode. *)
Definition inode_get_data (p : nat) : M inode_disk :=
  i ← get_inode p; bs ← cache_read (sector i); mret (decode bs).

Definition inode_length (p : nat) : M Z := d ← inode_get_data p; mret (i_length d).

Definition inode_is_dir (p : option nat) : M bool :=
  match p with
  | None => mret false
  | Some p => d ← inode_get_data p; mret (i_is_dir d)
  end.

Definition inode_get_inumber (p : nat) : M Z := i ← get_inode p; mret (sector i).

Definition inode_get_sector (p : option nat) : M Z :=
  match p with
  | None => mret (u32 (-1))
  | Some p => i ← get_inode p; mret (sector i)
  end.

Definition inode_init : M unit := modify (set_open_inodes []).

Definition inode_reopen (p : option nat) : M (option nat) :=
  match p with
  | None => mret None
  | Some p =>
    i ← get_inode p;
    put_inode p (MkInode (sector i) (s32 (open_cnt i + 1)) (removed i) (deny_write_cnt i)) ;;
    mret (Some p)
  end.

(** The search of [inode_open] through the open inodes. *)
Fixpoint find_open (n : Z) (ps : list nat) : M (option nat) :=
  match ps with
  | [] => mret None
  | p :: ps => i ← get_inode p; if sector i =? n then mret (Some p) else find_open n ps
  end.

Definition inode_open (n : Z) : M (option nat) :=
  s ← get;
  found ← find_open n (open_inodes s);
  match found with
  | Some p => inode_reopen (Some p)
  | None =>
    let p := next s in
    put (Fs (store s) (free_map s) (free_map_file s) (<[p := MkInode n 1 false 0]> (inodes s))
           (p :: open_inodes s) (files s) (Datatypes.S p)) ;;
    mret (Some p)
  end.

Definition inode_remove (p : nat) : M unit :=
  i ← get_inode p; put_inode p (MkInode (sector i) (open_cnt i) true (deny_write_cnt i)).

Definition inode_deny_write (p : nat) : M unit :=
  i ← get_inode p;
  let c := s32 (deny_write_cnt i + 1) in
  put_inode p (MkInode (sector i) (open_cnt i) (removed i) c) ;;
  ASSERT (c <=? open_cnt i).

Definition inode_allow_write (p : nat) : M unit :=
  i ← get_inode p;
  ASSERT (0 <? deny_write_cnt i) ;;
  ASSERT (deny_write_cnt i <=? open_cnt i) ;;
  put_inode p (MkInode (sector i) (open_cnt i) (removed i) (s32 (deny_write_cnt i - 1))).

(** ** Reading *)

(** The loop of [inode_read_at]; [acc] is what has been copied to the
    buffer so far, so the result is the buffer's new contents and its
    length the number of bytes read. *)
Fixpoint read_loop (fuel : nat) (p : nat) (d : inode_disk) (size offset : Z) (acc : list Z)
    : M (list Z) :=
  match fuel with
  | O => fail Timeout
  | Datatypes.S fuel =>
    if 0 <? size then
      sector_idx ← byte_to_sector d offset;
      let sector_ofs := Z.rem offset BLOCK_SECTOR_SIZE in
      len ← inode_length p;
      let inode_left := s32 (len - offset) in
      let sector_left := BLOCK_SECTOR_SIZE - sector_ofs in
      let min_left := if inode_left <? sector_left then inode_left else sector_left in
      let chunk_size := if size <? min_left then size else min_left in
      if chunk_size <=? 0 then mret acc
      else
        let size := size - chunk_size in
        let offset := s32 (offset + chunk_size) in
        len ← inode_length p;
        let next_inode_left := s32 (len - offset) in
        (if (0 <? size) && (0 <? next_inode_left) then
           next_idx ← byte_to_sector d offset; cache_read_async next_idx
         else mret tt) ;;
        chunk ← cache_read_partial sector_idx sector_ofs chunk_size;
        read_loop fuel p d size offset (acc ++ chunk)
    else mret acc
  end.

Definition inode_read_at (p : nat) (size offset : Z) : M (list Z) :=
  d ← inode_get_data p;
  read_loop (Datatypes.S (Z.to_nat size)) p d size offset [].

(** ** Allocation *)
Section allocation.
(** [inode_write_at] on the inode of the free map's file. *)
Variable write_at : nat → list Z → Z → Z → M Z.

(** [bitmap_write (free_map, free_map_file)]. *)
Definition bitmap_write : M bool :=
  s ← get;
  let size := s32 (Bitmap.byte_cnt (Bitmap.bit_cnt (free_map s))) in
  fp ← deref (free_map_file s);
  f ← deref (files s !! fp);
  n ← write_at (file_inode f) (bytes_of_words (Bitmap.bits (free_map s))) size 0;
  mret (n =? size).

(** The search of [free_map_allocate] from sector [i], [n] sectors left;
    returns the sectors stored so far and whether it succeeded. *)
Fixpoint allocate_loop (n : nat) (i cnt : Z) (sectorp : list Z) : M (list Z * bool) :=
  match n with
  | O => mret (sectorp, false)
  | Datatypes.S n =>
    t ← with_free_map (Bitmap.bitmap_test i);
    sectorp ← (if negb t then with_free_map (Bitmap.bitmap_mark i) ;; mret (sectorp ++ [i])
               else mret sectorp);
    if Z.of_nat (length sectorp) =? cnt then
      s ← get;
      match free_map_file s with
      | None => mret (sectorp, true)
      | Some _ => b ← bitmap_write; mret (sectorp, b)
      end
    else allocate_loop n (i + 1) cnt sectorp
  end.

(** [for (i = 0; i < allocated; ++i) bitmap_reset (free_map, i)]. *)
Fixpoint reset_loop (n : nat) (i : Z) : M unit :=
  match n with
  | O => mret tt
  | Datatypes.S n => with_free_map (Bitmap.bitmap_reset i) ;; reset_loop n (i + 1)
  end.

Definition free_map_allocate (cnt : Z) : M (option (list Z)) :=
  if cnt =? 0 then mret (Some [])
  else
    s ← get;
    r ← allocate_loop (Z.to_nat (Bitmap.bitmap_size (free_map s))) 0 cnt [];
    let '(sectorp, ok) := r in
    if ok : bool then mret (Some sectorp)
    else reset_loop (length sectorp) 0 ;; mret None.

Definition free_map_release (n cnt : Z) : M unit :=
  a ← with_free_map (Bitmap.bitmap_all n cnt);
  ASSERT a ;;
  with_free_map (Bitmap.bitmap_set_multiple n cnt false) ;;
  bitmap_write ;; mret tt.

(** ** Extension *)
Definition zeros : list Z := replicate 512 0.

(** [for (i = 0; i < n; ++i) { cache_write ( **sectors, zeros); ++( *sectors); }] *)
Fixpoint zero_loop (n : nat) (sectors : list Z) : M (list Z) :=
  match n with
  | O => mret sectors
  | Datatypes.S n =>
    x ← deref (head sectors); cache_write x zeros ;; zero_loop n (tail sectors)
  end.

(** The loop of [inode_disk_extend_dblock], at slot [k]. *)
Fixpoint dblock_loop (n : nat) (k : Z) (d : inode_disk) (sectors : list Z)
    : M (inode_disk * list Z) :=
  match n with
  | O => mret (d, sectors)
  | Datatypes.S n =>
    x ← deref (head sectors);
    cache_write x zeros ;;
    deref (dblocks d !! Z.to_nat k) ;;
    dblock_loop n (k + 1)
      (InodeDisk (i_length d) (i_is_dir d) (i_padding d) (<[Z.to_nat k := x]> (dblocks d))
         (indblock d) (doubly_indblock d) (magic d) (unused d)) (tail sectors)
  end.

(** These three return the new values of what the C functions change
    through pointers: [*sectors], [*sector_ofs], [*total_sectors_to_write]. *)
Definition inode_disk_extend_dblock (d : inode_disk) (sectors : list Z)
    (sector_ofs total_sectors_to_write : Z) : M (inode_disk * list Z * Z * Z) :=
  if INODE_NUM_DBLOCKS <=? sector_ofs then
    mret (d, sectors, sector_ofs - INODE_NUM_DBLOCKS, total_sectors_to_write)
  else
    let sectors_to_write_max := INODE_NUM_DBLOCKS - sector_ofs in
    let sectors_to_write :=
      if sectors_to_write_max <? total_sectors_to_write then sectors_to_write_max
      else total_sectors_to_write in
    r ← dblock_loop (Z.to_nat sectors_to_write) sector_ofs d sectors;
    mret (r.1, r.2, 0, total_sectors_to_write - sectors_to_write).

Definition inode_disk_extend_indblock_children (ib : Z) (sectors : list Z)
    (sector_ofs total_sectors_to_write : Z) : M (list Z * Z * Z) :=
  if INDBLOCK_NUM_CHILDREN <=? sector_ofs then
    mret (sectors, sector_ofs - INDBLOCK_NUM_CHILDREN, total_sectors_to_write)
  else
    let sectors_to_write :=
      if INDBLOCK_NUM_CHILDREN <? total_sectors_to_write then INDBLOCK_NUM_CHILDREN
      else total_sectors_to_write in
    cache_write_partial ib (bytes_of_words sectors) (sector_ofs * 4) (sectors_to_write * 4) ;;
    sectors ← zero_loop (Z.to_nat sectors_to_write) sectors;
    mret (sectors, 0, total_sectors_to_write - sectors_to_write).

(** The loop over the direct children of a doubly indirect block:
    [n] is [direct_children_left], [idx] is [direct_children_sectors_idx]. *)
Fixpoint doubly_loop (n : nat) (new_child : bool) (idx : Z) (children : list Z)
    (sectors indirect_sectors : list Z) (sector_ofs sectors_to_write : Z)
    : M (list Z * list Z * list Z * Z * Z) :=
  match n with
  | O => mret (children, sectors, indirect_sectors, sector_ofs, sectors_to_write)
  | Datatypes.S n =>
    deref (children !! Z.to_nat idx) ;;
    r ← (if new_child then
           x ← deref (head indirect_sectors);
           mret (<[Z.to_nat idx := x]> children, tail indirect_sectors)
         else mret (children, indirect_sectors));
    let '(children, indirect_sectors) := r in
    child ← deref (children !! Z.to_nat idx);
    r ← inode_disk_extend_indblock_children child sectors sector_ofs sectors_to_write;
    let '(sectors, sector_ofs, sectors_to_write) := r in
    doubly_loop n true (idx + 1) children sectors indirect_sectors sector_ofs sectors_to_write
  end.

Definition inode_disk_extend_doubly_indblock_children (db : Z)
    (sectors indirect_sectors : list Z) (sector_ofs sectors_to_write : Z) : M unit :=
  let num_direct_children :=
    Z.quot (u32 (sectors_to_write + INDBLOCK_NUM_CHILDREN - 1)) INDBLOCK_NUM_CHILDREN in
  let new_child := sector_ofs mod INDBLOCK_NUM_CHILDREN =? 0 in
  children ← read_indblock db;
  let idx := sector_ofs / INDBLOCK_NUM_CHILDREN in
  r ← doubly_loop (Z.to_nat num_direct_children) new_child idx children sectors indirect_sectors
        (sector_ofs mod INDBLOCK_NUM_CHILDREN) sectors_to_write;
  let '(children, _, _, _, _) := r in
  cache_write db (bytes_of_words children).

Definition set_length (d : inode_disk) (n : Z) : inode_disk :=
  InodeDisk n (i_is_dir d) (i_padding d) (dblocks d) (indblock d) (doubly_indblock d)
    (magic d) (unused d).
Definition set_indblock (d : inode_disk) (n : Z) : inode_disk :=
  InodeDisk (i_length d) (i_is_dir d) (i_padding d) (dblocks d) n (doubly_indblock d)
    (magic d) (unused d).
Definition set_doubly_indblock (d : inode_disk) (n : Z) : inode_disk :=
  InodeDisk (i_length d) (i_is_dir d) (i_padding d) (dblocks d) (indblock d) n
    (magic d) (unused d).

(** Returns the result and the new contents of [*inode_disk]. *)
Definition inode_disk_extend (d : inode_disk) (new_length : Z) : M (bool * inode_disk) :=
  if new_length <? i_length d then mret (false, d)
  else
    let data_sectors_to_write :=
      u32 (bytes_to_data_sectors new_length - bytes_to_data_sectors (i_length d)) in
    let indirect_sectors_to_write :=
      u32 (bytes_to_indirect_sectors new_length - bytes_to_indirect_sectors (i_length d)) in
    let sectors_to_write := u32 (data_sectors_to_write + indirect_sectors_to_write) in
    let sector_ofs := bytes_to_data_sectors (i_length d) in
    let d := set_length d new_length in
    if sectors_to_write =? 0 then mret (true, d)
    else
      a ← free_map_allocate sectors_to_write;
      match a with
      | None => mret (false, d)
      | Some sectors =>
        let indirect_sectors := drop (Z.to_nat data_sectors_to_write) sectors in
        r ← inode_disk_extend_dblock d sectors sector_ofs data_sectors_to_write;
        let '(d, sectors, sector_ofs, data_sectors_to_write) := r in
        if data_sectors_to_write <=? 0 then mret (true, d)
        else
          r ← (if sector_ofs =? 0 then
                 x ← deref (head indirect_sectors);
                 mret (set_indblock d x, tail indirect_sectors)
               else mret (d, indirect_sectors));
          let '(d, indirect_sectors) := r in
          r ← inode_disk_extend_indblock_children (indblock d) sectors sector_ofs
                data_sectors_to_write;
          let '(sectors, sector_ofs, data_sectors_to_write) := r in
          if data_sectors_to_write <=? 0 then mret (true, d)
          else
            r ← (if sector_ofs =? 0 then
                   x ← deref (head indirect_sectors);
                   mret (set_doubly_indblock d x, tail indirect_sectors)
                 else mret (d, indirect_sectors));
            let '(d, indirect_sectors) := r in
            inode_disk_extend_doubly_indblock_children (doubly_indblock d) sectors
              indirect_sectors sector_ofs data_sectors_to_write ;;
            mret (true, d)
      end.

(** [inode_create] when its allocation succeeds. *)
Definition inode_create (n : Z) (length : Z) (is_dir : bool) : M bool :=
  ASSERT (0 <=? length) ;;
  let d := InodeDisk 0 is_dir 0 (replicate 12 0) 0 0 INODE_MAGIC (replicate 111 0) in
  r ← inode_disk_extend d length;
  let '(ok, d) := r in
  (if ok : bool then cache_write n (encode d) else mret tt) ;;
  mret true.

(** ** Deallocation *)

(** [for (i = 0; i < n; ++i) inode_disk_free_sector (xs[i], &sectors_left)] from [i]. *)
Definition inode_disk_free_sector (n sectors_left : Z) : M Z :=
  free_map_release n 1 ;; mret (u32 (sectors_left - 1)).
Fixpoint free_loop (n : nat) (i : nat) (xs : list Z) (sectors_left : Z) : M Z :=
  match n with
  | O => mret sectors_left
  | Datatypes.S n =>
    x ← deref (xs !! i);
    sectors_left ← inode_disk_free_sector x sectors_left;
    free_loop n (Datatypes.S i) xs sectors_left
  end.

(** [while (sectors_left > 0)] over the doubly indirect block; [i] stays 0. *)
Fixpoint free_doubly_loop (fuel : nat) (ib : list Z) (sectors_left : Z) : M unit :=
  match fuel with
  | O => fail Timeout
  | Datatypes.S fuel =>
    if 0 <? sectors_left then
      x ← deref (ib !! 0%nat);
      nested ← read_indblock x;
      sectors_left ← inode_disk_free_sector x sectors_left;
      let dblocks_to_free :=
        if sectors_left <? INDBLOCK_NUM_CHILDREN then sectors_left else INDBLOCK_NUM_CHILDREN in
      sectors_left ← free_loop (Z.to_nat dblocks_to_free) 0 nested sectors_left;
      free_doubly_loop fuel ib sectors_left
    else mret tt
  end.

Definition inode_disk_free (d : inode_disk) : M unit :=
  let sectors_left := bytes_to_sectors (i_length d) in
  let dblocks_to_free := if sectors_left <? DBLOCK_END_BOUND then sectors_left else DBLOCK_END_BOUND in
  sectors_left ← free_loop (Z.to_nat dblocks_to_free) 0 (dblocks d) sectors_left;
  let sectors_left := u32 (sectors_left - DBLOCK_END_BOUND) in
  if s32 sectors_left <=? 0 then mret tt
  else
    ib ← read_indblock (indblock d);
    sectors_left ← inode_disk_free_sector (indblock d) sectors_left;
    let indblocks_to_free :=
      if sectors_left <? INDBLOCK_END_BOUND then sectors_left else INDBLOCK_END_BOUND in
    sectors_left ← free_loop (Z.to_nat indblocks_to_free) 0 ib sectors_left;
    let sectors_left := u32 (sectors_left - INDBLOCK_END_BOUND) in
    if sectors_left <=? 0 then mret tt
    else
      ib ← read_indblock (doubly_indblock d);
      sectors_left ← inode_disk_free_sector (doubly_indblock d) sectors_left;
      free_doubly_loop 129 ib sectors_left.

Definition inode_close (p : option nat) : M unit :=
  match p with
  | None => mret tt
  | Some p =>
    i ← get_inode p;
    let c := s32 (open_cnt i - 1) in
    put_inode p (MkInode (sector i) c (removed i) (deny_write_cnt i)) ;;
    if c =? 0 then
      modify (λ s, set_open_inodes (List.remove Nat.eq_dec p (open_inodes s)) s) ;;
      (if removed i then
         free_map_release (sector i) 1 ;;
         d ← inode_get_data p;
         inode_disk_free d
       else mret tt) ;;
      modify (λ s, set_inodes (delete p (inodes s)) s)
    else mret tt
  end.
End allocation.

(** ** Writing *)

Fixpoint write_loop (fuel : nat) (p : nat) (d : inode_disk) (buffer : list Z)
    (size offset bytes_written : Z) : M Z :=
  match fuel with
  | O => fail Timeout
  | Datatypes.S fuel =>
    if 0 <? size then
      sector_idx ← byte_to_sector d offset;
      let sector_ofs := Z.rem offset BLOCK_SECTOR_SIZE in
      len ← inode_length p;
      let inode_left := s32 (len - offset) in
      let sector_left := BLOCK_SECTOR_SIZE - sector_ofs in
      let min_left := if inode_left <? sector_left then inode_left else sector_left in
      let chunk_size := if size <? min_left then size else min_left in
      if chunk_size <=? 0 then mret bytes_written
      else
        cache_write_partial sector_idx (drop (Z.to_nat bytes_written) buffer) sector_ofs chunk_size ;;
        write_loop fuel p d buffer (size - chunk_size) (s32 (offset + chunk_size))
          (bytes_written + chunk_size)
    else mret bytes_written
  end.

(** [depth] bounds the nesting of [inode_write_at] in itself: a write that
    extends its inode writes the free map's file, which is not extended. *)
Fixpoint inode_write_at_rec (depth : nat) (p : nat) (buffer : list Z) (size offset : Z) : M Z :=
  match depth with
  | O => fail Timeout
  | Datatypes.S depth =>
    i ← get_inode p;
    if negb (deny_write_cnt i =? 0) then mret 0
    else
      d ← inode_get_data p;
      r ← inode_disk_extend (inode_write_at_rec depth) d (s32 (offset + size));
      let '(ok, d) := r in
      (if ok : bool then cache_write (sector i) (encode d) else mret tt) ;;
      write_loop (Datatypes.S (Z.to_nat size)) p d buffer size offset 0
  end.

Definition inode_write_at : nat → list Z → Z → Z → M Z := inode_write_at_rec 2.
End ops.

End Inode.
