(* ===== verification/InodeSpec.v ===== *)
(** * What an inode means

    The sectors of a device as a function [v]; from it, the blocks an inode
    consists of ([owned]), the bytes of its file ([contents]), and how they
    depend on [v].  Then the runs of [byte_to_sector] and of [inode_read_at]
    in these terms. *)
From S2P Require Import Prelude CInt Bytes Bitmap Block Cache Inode.
Import Inode.

Open Scope Z_scope.

(** ** Files as functions of the sectors *)
Section geometry.
Implicit Types (v : Z → list Z) (d : inode_disk) (n k : nat).

Definition words v (x : Z) : list Z := words_of_bytes (v x).
Definition child v d (j : nat) : Z := nth j (words v (doubly_indblock d)) 0.

(** The sector of block [k] of the file. *)
Definition fsec v d k : Z :=
  if (k <? 12)%nat then nth k (dblocks d) 0
  else if (k <? 140)%nat then nth (k - 12) (words v (indblock d)) 0
  else nth ((k - 140) mod 128) (words v (child v d ((k - 140) / 128))) 0.

(** Number of data blocks, and of children of the doubly indirect block. *)
Definition nblocks d : nat := Z.to_nat (DIV_ROUND_UP (i_length d) 512).
Definition nchildren n : nat := ((n - 140 + 127) / 128)%nat.

Definition data_sectors v d n : list Z := fsec v d <$> seq 0 n.
Definition index_sectors v d n : list Z :=
  (if (n <=? 12)%nat then [] else [indblock d]) ++
  (if (n <=? 140)%nat then []
   else doubly_indblock d :: (child v d <$> seq 0 (nchildren n))).

Definition disk v (sec : Z) : inode_disk := decode (v sec).
Definition owned v (sec : Z) : list Z :=
  let d := disk v sec in sec :: index_sectors v d (nblocks d) ++ data_sectors v d (nblocks d).

Definition contents_of v d : list Z :=
  take (Z.to_nat (i_length d)) (concat (v <$> data_sectors v d (nblocks d))).
Definition contents v (sec : Z) : list Z := contents_of v (disk v sec).

(** The largest file: 12 + 128 + 128 * 128 blocks. *)
Definition MAX_LENGTH : Z := 16524 * 512.

Record wf_disk d : Prop := WfDisk {
  wf_length : 0 ≤ i_length d ≤ MAX_LENGTH;
  wf_padding : 0 ≤ i_padding d < 2 ^ 24;
  wf_dblocks : length (dblocks d) = 12%nat;
  wf_unused : length (unused d) = 111%nat;
  wf_words : Forall in_u32 (dblocks d ++ indblock d :: doubly_indblock d :: magic d :: unused d);
}.

Lemma length_words_of_disk d : wf_disk d → length (words_of_disk d) = 128%nat.
Proof.
  intros []. unfold words_of_disk. cbn [length]. rewrite length_app. cbn [length]. lia.
Qed.

Lemma length_encode d : wf_disk d → is_sector (encode d).
Proof.
  intros Hd. unfold is_sector, encode. rewrite length_bytes_of_words, length_words_of_disk; done.
Qed.

Lemma s32_u32 x : in_s32 x → s32 (u32 x) = x.
Proof. unfold in_s32, s32, u32. intros. divlia. Qed.

Lemma decode_encode d : wf_disk d → decode (encode d) = d.
Proof.
  intros [Hl Hp Hdb Hu Hw]. unfold decode, encode.
  assert (Hw' : Forall in_u32 (words_of_disk d)).
  { unfold words_of_disk. constructor; [apply u32_range|]. constructor; [|done].
    unfold in_u32. destruct (i_is_dir d); simpl; lia. }
  rewrite <- (app_nil_r (bytes_of_words _)), words_of_bytes_of_words by done. rewrite app_nil_r.
  destruct d as [len isd pad db ib dib mg un]; simpl in *.
  do 12 (destruct db as [|? db]; [done|]). destruct db; [|done].
  unfold disk_of_words, words_of_disk. simpl. f_equal.
  - apply s32_u32. unfold in_s32, MAX_LENGTH in *. lia.
  - rewrite (Z.mul_comm 256), Z_mod_plus_full. by destruct isd.
  - destruct isd; simpl; divlia.
Qed.
End geometry.

(** ** Running the cache operations *)

Definition upd (v : Z → list Z) (n : Z) (b : list Z) (m : Z) : list Z := if m =? n then b else v m.

Lemma upd_eq v n b : upd v n b n = b.
Proof. unfold upd. by rewrite Z.eqb_refl. Qed.
Lemma upd_ne v n b m : m ≠ n → upd v n b m = v m.
Proof. unfold upd. intros. destruct (Z.eqb_spec m n); done. Qed.

Section runs.
Context {S : Type} `{!SectorStore S}.
Implicit Types (s : fs S) (v : Z → list Z) (d : inode_disk).

(** In state [s] the device has [N] sectors with contents [v]. *)
Definition sees (N : Z) v s : Prop :=
  store_ok (store s) ∧ store_sectors (store s) = N ∧ ∀ m, store_view (store s) m = v m.

(** [s'] differs from [s] in the store only. *)
Definition only_store s s' : Prop := s' = set_store (store s') s.

Lemma only_store_refl s : only_store s s.
Proof. by destruct s. Qed.
Lemma only_store_trans s1 s2 s3 : only_store s1 s2 → only_store s2 s3 → only_store s1 s3.
Proof. unfold only_store. intros H1 H2. rewrite H2, H1. done. Qed.

Lemma only_store_fields s s' : only_store s s' →
  free_map s' = free_map s ∧ free_map_file s' = free_map_file s ∧ inodes s' = inodes s ∧
  open_inodes s' = open_inodes s ∧ files s' = files s ∧ next s' = next s.
Proof. intros ->. done. Qed.

Lemma sees_ext N v v' s : (∀ m, v m = v' m) → sees N v s → sees N v' s.
Proof. intros E (H1 & H2 & H3). split_and!; try done. intros m. by rewrite H3. Qed.

Lemma sees_len N v s n : sees N v s → 0 ≤ n < N → length (v n) = 512%nat.
Proof. intros (H1 & <- & H3) Hn. rewrite <- H3. by apply store_view_len. Qed.

Lemma words_len N v s n : sees N v s → 0 ≤ n < N → length (words v n) = 128%nat.
Proof. intros Hs Hn. apply length_words_of_bytes. by rewrite (sees_len N v s). Qed.

Lemma sees_read_partial N v s n ofs sz :
  sees N v s → 0 ≤ n < N → 0 ≤ ofs → 0 ≤ sz → ofs + sz ≤ 512 →
  ∃ s', cache_read_partial n ofs sz s = Ok (take (Z.to_nat sz) (drop (Z.to_nat ofs) (v n)), s') ∧
    sees N v s' ∧ only_store s s'.
Proof.
  intros (H1 & <- & H3) Hn Ho Hs Hos.
  destruct (store_read_spec (store s) n ofs sz) as (x & Hrun & Hok & Hsz & Hv); [done..|].
  exists (set_store x s). unfold cache_read_partial, with_store.
  erewrite run_zoom_ok by exact Hrun. rewrite H3. split_and!; try done.
  split_and!; try done. intros m. etrans; [apply Hv|done].
Qed.

Lemma sees_read N v s n :
  sees N v s → 0 ≤ n < N → ∃ s', cache_read n s = Ok (v n, s') ∧ sees N v s' ∧ only_store s s'.
Proof.
  intros Hs Hn. destruct (sees_read_partial N v s n 0 512 Hs Hn) as (s' & Hrun & H); [lia..|].
  exists s'. split; [|done]. unfold cache_read, BLOCK_SECTOR_SIZE. rewrite Hrun.
  change (drop (Z.to_nat 0) (v n)) with (v n). rewrite take_ge; [done|]. rewrite (sees_len N v s n) by done. lia.
Qed.

Lemma sees_write_partial N v s n buf ofs sz :
  sees N v s → 0 ≤ n < N → 0 ≤ ofs → 0 ≤ sz → ofs + sz ≤ 512 → sz ≤ Z.of_nat (length buf) →
  ∃ s', cache_write_partial n buf ofs sz s = Ok (tt, s') ∧
    sees N (upd v n (splice (Z.to_nat ofs) (take (Z.to_nat sz) buf) (v n))) s' ∧ only_store s s'.
Proof.
  intros (H1 & <- & H3) Hn Ho Hs Hos Hl.
  destruct (store_write_spec (store s) n buf ofs sz) as (x & Hrun & Hok & Hsz & Hv); [done..|].
  exists (set_store x s). unfold cache_write_partial, with_store.
  erewrite run_zoom_ok by exact Hrun. split_and!; try done.
  split_and!; try done. intros m. etrans; [apply Hv|]. unfold upd. by rewrite !H3.
Qed.

Lemma sees_write N v s n buf :
  sees N v s → 0 ≤ n < N → is_sector buf →
  ∃ s', cache_write n buf s = Ok (tt, s') ∧ sees N (upd v n buf) s' ∧ only_store s s'.
Proof.
  unfold is_sector. intros Hs Hn Hb.
  destruct (sees_write_partial N v s n buf 0 512 Hs Hn) as (s' & Hrun & H & Ho); [lia..|].
  exists s'. split_and!; [exact Hrun| |done]. eapply sees_ext; [|exact H]. intros m.
  unfold upd. destruct (m =? n); [|done]. rewrite take_ge by lia. apply splice_all.
  by rewrite (sees_len N v s n).
Qed.

Lemma sees_read_async N v s n :
  sees N v s → ∃ s', cache_read_async n s = Ok (tt, s') ∧ sees N v s' ∧ only_store s s'.
Proof.
  intros (H1 & <- & H3). destruct (store_read_async_spec (store s) n H1) as (x & Hrun & Hok & Hsz & Hv).
  exists (set_store x s). unfold cache_read_async, with_store. erewrite run_zoom_ok by exact Hrun.
  split_and!; try done. split_and!; try done. intros m. etrans; [apply Hv|done].
Qed.

Lemma read_indblock_ok N v s n :
  sees N v s → 0 ≤ n < N → ∃ s', read_indblock n s = Ok (words v n, s') ∧ sees N v s' ∧ only_store s s'.
Proof.
  intros Hs Hn. destruct (sees_read N v s n Hs Hn) as (s' & Hrun & H).
  exists s'. unfold read_indblock. run_with Hrun. done.
Qed.

(** ** Finding the sector of a byte *)

(** The index sectors consulted for block [k] are on the device. *)
Definition lookup_ok (N : Z) v d (k : nat) : Prop :=
  (k < 12)%nat ∨ ((k < 140)%nat ∧ 0 ≤ indblock d < N) ∨
  (140 ≤ Z.of_nat k < 16524 ∧ 0 ≤ doubly_indblock d < N ∧ 0 ≤ child v d ((k - 140) / 128) < N) ∨
  16524 ≤ Z.of_nat k.

Lemma nth_lookup_lt {A} (l : list A) i x : (i < length l)%nat → l !! i = Some (nth i l x).
Proof. intros Hi. rewrite nth_lookup. destruct (lookup_lt_is_Some_2 l i Hi) as [y ->]. done. Qed.

Lemma byte_to_sector_ok N v s d pos :
  sees N v s → length (dblocks d) = 12%nat → 0 ≤ pos < 2 ^ 31 →
  lookup_ok N v d (Z.to_nat (pos / 512)) →
  ∃ s', byte_to_sector d pos s
        = Ok (if pos <? MAX_LENGTH then fsec v d (Z.to_nat (pos / 512)) else u32 (-1), s') ∧
    sees N v s' ∧ only_store s s'.
Proof.
  intros Hs Hdb Hpos Hlk.
  set (k := pos / 512) in *. assert (Hk : 0 ≤ k < 2 ^ 22) by (subst k; divlia).
  assert (Hmax : (pos <? MAX_LENGTH) = (k <? 16524)).
  { unfold MAX_LENGTH. subst k. destruct (Z.ltb_spec pos (16524 * 512)), (Z.ltb_spec (pos / 512) 16524);
      (done || divlia). }
  rewrite Hmax. clear Hmax.
  assert (E : u32 (Z.quot pos BLOCK_SECTOR_SIZE) = k).
  { unfold BLOCK_SECTOR_SIZE. rewrite quot_div_nonneg by lia. apply u32_id. unfold in_u32. lia. }
  unfold byte_to_sector. rewrite E. unfold fsec. unfold lookup_ok in Hlk.
  destruct (Z.ltb_spec k INODE_NUM_DBLOCKS) as [H12|H12]; unfold INODE_NUM_DBLOCKS in H12.
  { destruct (Nat.ltb_spec (Z.to_nat k) 12), (Z.ltb_spec k 16524); [|lia..]. exists s.
    rewrite (nth_lookup_lt _ _ 0) by lia. split_and!; [done..|apply only_store_refl]. }
  destruct (Nat.ltb_spec (Z.to_nat k) 12); [lia|].
  unfold INODE_NUM_DBLOCKS, INDBLOCK_NUM_CHILDREN, DOUBLY_INDBLOCK_NUM_GRANDCHILDREN,
    INDBLOCK_NUM_CHILDREN.
  rewrite (u32_id (k - 12)) by (unfold in_u32; lia).
  destruct (Z.ltb_spec (k - 12) 128) as [H140|H140].
  { destruct (Nat.ltb_spec (Z.to_nat k) 140), (Z.ltb_spec k 16524); [|lia..].
    destruct Hlk as [?|[[_ Hi]|[[? _]|?]]]; [lia| |lia..].
    destruct (read_indblock_ok N v s (indblock d) Hs Hi) as (s1 & Hrun & Hs1 & Ho1).
    run_with Hrun. rewrite (nth_lookup_lt _ _ 0) by (rewrite (words_len N v s) by done; lia).
    exists s1. split_and!; [|done..]. by replace (Z.to_nat (k - 12)) with (Z.to_nat k - 12)%nat by lia. }
  destruct (Nat.ltb_spec (Z.to_nat k) 140); [lia|].
  rewrite (u32_id (k - 12 - 128)) by (unfold in_u32; lia).
  destruct (Z.ltb_spec (k - 12 - 128) (128 * 128)), (Z.ltb_spec k 16524); try lia.
  2:{ exists s. split_and!; [done..|apply only_store_refl]. }
  destruct Hlk as [?|[[? _]|[(_ & Hd & Hc)|?]]]; [lia..| |lia].
  assert (Ej : Z.to_nat ((k - 12 - 128) / 128) = ((Z.to_nat k - 140) / 128)%nat).
  { rewrite Z2Nat.inj_div by lia. f_equal. lia. }
  assert (Em : Z.to_nat ((k - 12 - 128) mod 128) = ((Z.to_nat k - 140) mod 128)%nat).
  { rewrite Z2Nat.inj_mod by lia. f_equal. lia. }
  assert (Hj : ((Z.to_nat k - 140) / 128 < 128)%nat).
  { apply Nat.Div0.div_lt_upper_bound. lia. }
  destruct (read_indblock_ok N v s _ Hs Hd) as (s1 & Hrun & Hs1 & Ho1). run_with Hrun.
  rewrite Ej, Em. run_deref; [|apply (nth_lookup_lt _ _ 0); by rewrite (words_len N v s)].
  destruct (read_indblock_ok N v s1 _ Hs1 Hc) as (s2 & Hrun2 & Hs2 & Ho2). run_with Hrun2.
  rewrite (nth_lookup_lt _ _ 0).
  - exists s2. split_and!; [done..|by eapply only_store_trans].
  - rewrite (words_len N v s) by done. apply Nat.mod_upper_bound. lia.
Qed.

(** ** Well-formed files *)
Record file_ok (N : Z) v d : Prop := FileOk {
  file_wf : wf_disk d;
  file_range x : x ∈ index_sectors v d (nblocks d) ++ data_sectors v d (nblocks d) → 0 ≤ x < N;
}.

Lemma nblocks_bound d : wf_disk d → Z.of_nat (nblocks d) ≤ 16524.
Proof.
  intros [[H1 H2] _ _ _ _]. unfold nblocks, MAX_LENGTH in *.
  assert (DIV_ROUND_UP (i_length d) 512 ≤ 16524) by (apply DIV_ROUND_UP_spec; lia). lia.
Qed.

(** A byte of the file lies in one of its blocks. *)
Lemma block_of_byte d pos :
  wf_disk d → 0 ≤ pos < i_length d → (Z.to_nat (pos / 512) < nblocks d)%nat.
Proof.
  intros [[H1 H2] _ _ _ _] Hpos. unfold nblocks. apply Z2Nat.inj_lt; [divlia| |].
  - apply DIV_ROUND_UP_nonneg; lia.
  - apply Z.lt_nge. rewrite DIV_ROUND_UP_spec by lia. divlia.
Qed.

Lemma file_lookup_ok N v d k : file_ok N v d → (k < nblocks d)%nat → lookup_ok N v d k.
Proof.
  intros [Hwf Hr] Hk. assert (Hb := nblocks_bound d Hwf). unfold lookup_ok.
  unfold index_sectors in Hr. destruct (Nat.lt_ge_cases k 12) as [|H12]; [by left|right].
  destruct (Nat.lt_ge_cases k 140) as [|H140]; [left|right; left].
  - split; [done|]. apply Hr. destruct (Nat.leb_spec (nblocks d) 12); [lia|].
    apply elem_of_app. left. apply elem_of_app. left. by apply list_elem_of_singleton.
  - assert (Hin : ∀ x, x ∈ doubly_indblock d :: (child v d <$> seq 0 (nchildren (nblocks d))) → 0 ≤ x < N).
    { intros x Hx. apply Hr. destruct (Nat.leb_spec (nblocks d) 140); [lia|].
      apply elem_of_app. left. apply elem_of_app. by right. }
    split; [lia|]. split; [apply Hin; left|]. apply Hin. right. apply list_elem_of_fmap. eexists.
    split; [reflexivity|]. apply elem_of_seq. split; [lia|]. rewrite Nat.add_0_l. unfold nchildren.
    apply Nat.Div0.div_lt_upper_bound.
    assert (H := Nat.div_mod_eq (nblocks d - 140 + 127) 128).
    assert (Hm := Nat.mod_upper_bound (nblocks d - 140 + 127) 128 ltac:(lia)). lia.
Qed.

Lemma file_fsec_range N v d k : file_ok N v d → (k < nblocks d)%nat → 0 ≤ fsec v d k < N.
Proof.
  intros [_ Hr] Hk. apply Hr, elem_of_app. right. apply list_elem_of_fmap. exists k.
  split; [done|]. apply elem_of_seq. lia.
Qed.

Lemma file_blocks N v s d : sees N v s → file_ok N v d → blocks 512 (v <$> data_sectors v d (nblocks d)).
Proof.
  intros Hs [_ Hr]. apply Forall_fmap, Forall_forall. intros x Hx. simpl.
  apply (sees_len N v s); [done|]. apply Hr, elem_of_app. by right.
Qed.

Lemma length_contents N v s d :
  sees N v s → file_ok N v d → length (contents_of v d) = Z.to_nat (i_length d).
Proof.
  intros Hs Hf. unfold contents_of. apply length_take_le.
  rewrite (length_concat_blocks 512) by (by eapply file_blocks).
  unfold data_sectors. rewrite !length_fmap, length_seq. unfold nblocks.
  destruct Hf as [[[H1 H2] _ _ _ _] _].
  assert (H := proj1 (DIV_ROUND_UP_spec (i_length d) 512 _ H1 ltac:(lia)) (Z.le_refl _)). lia.
Qed.

Lemma data_sectors_lookup v d n k : (k < n)%nat → data_sectors v d n !! k = Some (fsec v d k).
Proof. intros. unfold data_sectors. by rewrite list_lookup_fmap, lookup_seq_lt. Qed.

(** Reading [c] bytes at [offset] without leaving the block. *)
Lemma contents_chunk N v s d offset c :
  sees N v s → file_ok N v d → 0 ≤ offset → 0 < c → offset + c ≤ i_length d →
  offset mod 512 + c ≤ 512 →
  take (Z.to_nat c) (drop (Z.to_nat offset) (contents_of v d))
  = take (Z.to_nat c) (drop (Z.to_nat (offset mod 512)) (v (fsec v d (Z.to_nat (offset / 512))))).
Proof.
  intros Hs Hf Ho Hc Hlen Hin. unfold contents_of.
  assert (Hk : (Z.to_nat (offset / 512) < nblocks d)%nat)
    by (apply block_of_byte; [apply Hf|lia]).
  rewrite take_drop_take by lia.
  assert (Eo : Z.to_nat offset = (512 * Z.to_nat (offset / 512) + Z.to_nat (offset mod 512))%nat).
  { rewrite (Z.div_mod offset 512) at 1 by lia.
    assert (0 ≤ offset / 512) by divlia. assert (0 ≤ offset mod 512) by divlia. lia. }
  rewrite Eo at 1. rewrite (concat_read 512 _ _ (v (fsec v d (Z.to_nat (offset / 512))))).
  - done.
  - by eapply file_blocks.
  - rewrite list_lookup_fmap, data_sectors_lookup by done. done.
  - assert (0 ≤ offset mod 512) by divlia. lia.
Qed.
End runs.
