(* ===== verification/InodeWrite.v ===== *)
(** * Writing files: the loop of [inode_write_at]

    How a file's blocks and contents depend on the sectors, and that the
    write loop overwrites a slice of the contents and nothing else. *)
From S2P Require Import Prelude CInt Bitmap Bytes Block Cache Inode InodeSpec.

Open Scope Z_scope.

(** * Reading files: [inode_read_at]

    The loop over sectors, with its read-ahead and its end-of-file test,
    returns a slice of the file's contents and changes nothing a client can
    see. *)
Import Inode.

Section read.
Context {S : Type} `{!SectorStore S}.
Implicit Types (s : fs S) (v : Z → list Z) (d : inode_disk).

Lemma get_inode_ok s p i : inodes s !! p = Some i → get_inode p s = Ok (i, s).
Proof. intros H. unfold get_inode. erewrite run_bind_ok; [|reflexivity]. by rewrite H. Qed.

Lemma inode_get_data_ok N v s p i :
  sees N v s → inodes s !! p = Some i → 0 ≤ sector i < N →
  ∃ s', inode_get_data p s = Ok (disk v (sector i), s') ∧ sees N v s' ∧ only_store s s'.
Proof.
  intros Hs Hp Hi. destruct (sees_read N v s (sector i) Hs Hi) as (s' & Hrun & H).
  exists s'. unfold inode_get_data. run_with (get_inode_ok _ _ _ Hp). run_with Hrun. done.
Qed.

Lemma inode_length_ok N v s p i :
  sees N v s → inodes s !! p = Some i → 0 ≤ sector i < N →
  ∃ s', inode_length p s = Ok (i_length (disk v (sector i)), s') ∧ sees N v s' ∧ only_store s s'.
Proof.
  intros Hs Hp Hi. destruct (inode_get_data_ok N v s p i Hs Hp Hi) as (s' & Hrun & H).
  exists s'. unfold inode_length. run_with Hrun. done.
Qed.

Lemma only_store_inode s s' p i : only_store s s' → inodes s !! p = Some i → inodes s' !! p = Some i.
Proof. intros (_ & _ & -> & _)%only_store_fields. done. Qed.

(** What both loops compute before they decide on a chunk. *)
Definition chunk (len size offset : Z) : Z := Z.min size (Z.min (len - offset) (512 - offset mod 512)).

Lemma chunk_eq len size offset :
  0 ≤ offset → in_s32 (len - offset) →
  (let inode_left := s32 (len - offset) in
   let sector_left := BLOCK_SECTOR_SIZE - Z.rem offset BLOCK_SECTOR_SIZE in
   let min_left := if inode_left <? sector_left then inode_left else sector_left in
   if size <? min_left then size else min_left) = chunk len size offset.
Proof.
  intros Ho Hr. cbv zeta. rewrite s32_id by done. unfold chunk, BLOCK_SECTOR_SIZE.
  rewrite Z.rem_mod_nonneg by lia. destruct (Z.ltb_spec (len - offset) (512 - offset mod 512)); bcase; lia.
Qed.

Section loop.
Context (N : Z) (v : Z → list Z) (p : nat) (i : inode).
Let d := disk v (sector i).
Hypothesis Hfile : file_ok N v d.
Hypothesis Hsec : 0 ≤ sector i < N.

(** The block looked up at [offset] is one of the file's, or its index
    sectors are at least on the device. *)
Definition eof_ok (size offset : Z) : Prop :=
  offset + size ≤ i_length d ∨ lookup_ok N v d (Z.to_nat (Z.max offset (i_length d) / 512)).

Lemma lookup_at size offset :
  0 < size → 0 ≤ offset → eof_ok size offset → lookup_ok N v d (Z.to_nat (offset / 512)).
Proof.
  intros Hs Ho Heof. destruct (Z.lt_ge_cases offset (i_length d)) as [Hlt|Hge].
  - apply file_lookup_ok; [done|]. apply block_of_byte; [apply Hfile|lia].
  - destruct Heof as [?|H]; [lia|]. by rewrite Z.max_l in H by lia.
Qed.

(** The read-ahead. *)
Lemma read_ahead_ok s size offset :
  sees N v s → 0 ≤ offset < 2 ^ 31 → 
  ∃ s', (if (0 <? size) && (0 <? s32 (i_length d - offset)) then
           next_idx ← byte_to_sector d offset; cache_read_async next_idx
         else mret tt) s = Ok (tt, s') ∧ sees N v s' ∧ only_store s s'.
Proof.
  intros Hs Ho. assert (Hl := wf_length d (file_wf _ _ _ Hfile)). unfold MAX_LENGTH in Hl.
  rewrite s32_id by (unfold in_s32; lia).
  destruct ((0 <? size) && (0 <? i_length d - offset)) eqn:E.
  - apply andb_true_iff in E as [_ E%Z.ltb_lt].
    destruct (byte_to_sector_ok N v s d offset Hs) as (s1 & Hrun & Hs1 & Ho1).
    + apply Hfile.
    + lia.
    + apply file_lookup_ok; [done|]. apply block_of_byte; [apply Hfile|lia].
    + run_with Hrun. edestruct (sees_read_async N v s1) as (s2 & Hrun2 & Hs2 & Ho2); [done|].
      exists s2. rewrite Hrun2. split_and!; [done..|by eapply only_store_trans].
  - exists s. split_and!; [done..|apply only_store_refl].
Qed.

Lemma read_loop_ok fuel s size offset acc :
  sees N v s → inodes s !! p = Some i →
  0 ≤ size < Z.of_nat fuel → 0 ≤ offset → offset + size < 2 ^ 31 → eof_ok size offset →
  ∃ s', read_loop fuel p d size offset acc s
        = Ok (acc ++ take (Z.to_nat size) (drop (Z.to_nat offset) (contents_of v d)), s') ∧
    sees N v s' ∧ only_store s s'.
Proof.
  assert (Hl := wf_length d (file_wf _ _ _ Hfile)). unfold MAX_LENGTH in Hl.
  revert s size offset acc. induction fuel as [|fuel IH]; intros s size offset acc Hs Hp Hf Ho Hos Heof;
    [lia|]. cbn [read_loop].
  destruct (Z.ltb_spec 0 size) as [Hsz|Hsz].
  2:{ exists s. replace (Z.to_nat size) with 0%nat by lia. rewrite app_nil_r.
      split_and!; [done..|apply only_store_refl]. }
  assert (Hlk := lookup_at size offset Hsz Ho Heof).
  destruct (byte_to_sector_ok N v s d offset Hs) as (s1 & Hrun1 & Hs1 & Ho1);
    [apply Hfile|lia|done|]. run_with Hrun1.
  destruct (inode_length_ok N v s1 p i Hs1 (only_store_inode _ _ _ _ Ho1 Hp) Hsec)
    as (s2 & Hrun2 & Hs2 & Ho2). run_with Hrun2. fold d.
  assert (Ech := chunk_eq (i_length d) size offset Ho ltac:(unfold in_s32; lia)).
  cbv zeta in Ech |- *. rewrite Ech. clear Ech.
  assert (Hp2 := only_store_inode _ _ _ _ Ho2 (only_store_inode _ _ _ _ Ho1 Hp)).
  assert (Hm : 0 ≤ offset mod 512 < 512) by (apply Z.mod_pos_bound; lia).
  set (c := chunk (i_length d) size offset). assert (Ec : c = chunk (i_length d) size offset) by done.
  clearbody c. unfold chunk in Ec.
  destruct (Z.leb_spec c 0) as [Hc|Hc].
  { exists s2. rewrite drop_ge, take_nil, app_nil_r.
    - split_and!; [done..|by eapply only_store_trans].
    - rewrite (length_contents N v s) by done. lia. }
  rewrite (s32_id (offset + c)) by (unfold in_s32; lia).
  destruct (inode_length_ok N v s2 p i Hs2 Hp2 Hsec) as (s3 & Hrun3 & Hs3 & Ho3). run_with Hrun3.
  fold d. destruct (read_ahead_ok s3 (size - c) (offset + c) Hs3) as (s4 & Hrun4 & Hs4 & Ho4); [lia|].
  run_with Hrun4.
  assert (Hk : (Z.to_nat (offset / 512) < nblocks d)%nat)
    by (apply block_of_byte; [apply Hfile|lia]).
  destruct (sees_read_partial N v s4 (fsec v d (Z.to_nat (offset / 512))) (offset mod 512) c)
    as (s5 & Hrun5 & Hs5 & Ho5); [done|by apply file_fsec_range|lia..|].
  destruct (Z.ltb_spec offset MAX_LENGTH) as [_|Hx]; [|unfold MAX_LENGTH in Hx; lia].
  rewrite Z.rem_mod_nonneg by (unfold BLOCK_SECTOR_SIZE; lia). unfold BLOCK_SECTOR_SIZE.
  run_with Hrun5. rewrite <- (contents_chunk N v s) by (done || lia).
  assert (Ho05 : only_store s s5) by (repeat (eapply only_store_trans; [eassumption|]); apply only_store_refl).
  destruct (IH s5 (size - c) (offset + c)
              (acc ++ take (Z.to_nat c) (drop (Z.to_nat offset) (contents_of v d))))
    as (s6 & Hrun6 & Hs6 & Ho6); [done|by eapply only_store_inode|lia..| |].
  { destruct Heof as [H|H]; [left; lia|right].
    destruct (Z.le_gt_cases (offset + c) (i_length d)); [|lia].
    rewrite Z.max_r in H |- * by lia. done. }
  exists s6. rewrite Hrun6. split_and!; [|done|by eapply only_store_trans].
  rewrite <- (assoc_L (++)). do 3 f_equal.
  replace (Z.to_nat (offset + c)) with (Z.to_nat offset + Z.to_nat c)%nat by lia.
  rewrite <- take_drop_app. do 2 f_equal. lia.
Qed.
End loop.
End read.

(** For a well-formed inode, whether its blocks are direct, indirect or doubly
    indirect, [inode_read_at] terminates and returns the bytes of the file from
    [offset] on, as many as were asked for or as the file has left.  A read
    that reaches the end of a file looks up the block there, so the index
    sectors for that block must be on the device. *)
Lemma inode_read_at_ok {S} `{!SectorStore S} (s : fs S) N v p i size offset :
  sees N v s → inodes s !! p = Some i → 0 ≤ sector i < N → file_ok N v (disk v (sector i)) →
  0 ≤ size → 0 ≤ offset → offset + size < 2 ^ 31 →
  offset + size ≤ i_length (disk v (sector i)) ∨
    lookup_ok N v (disk v (sector i)) (Z.to_nat (Z.max offset (i_length (disk v (sector i))) / 512)) →
  ∃ s', inode_read_at p size offset s
        = Ok (take (Z.to_nat size) (drop (Z.to_nat offset) (contents v (sector i))), s') ∧
    sees N v s' ∧ only_store s s'.
Proof.
  intros Hs Hp Hsec Hfile Hsz Ho Hos Heof. unfold inode_read_at.
  destruct (inode_get_data_ok N v s p i Hs Hp Hsec) as (s1 & Hrun1 & Hs1 & Ho1). run_with Hrun1.
  destruct (read_loop_ok N v p i Hfile Hsec (Datatypes.S (Z.to_nat size)) s1 size offset [])
    as (s2 & Hrun2 & Hs2 & Ho2); [done|by eapply only_store_inode|lia|lia|lia|done|].
  exists s2. rewrite Hrun2. split_and!; [done..|by eapply only_store_trans].
Qed.

Import Inode.

(** ** Locality: a file depends on the sectors it owns only *)
Section local.
Implicit Types (v : Z → list Z) (d : inode_disk) (n k : nat).

Lemma indblock_index v d n : (12 < n)%nat → indblock d ∈ index_sectors v d n.
Proof.
  intros. unfold index_sectors. apply elem_of_app. left.
  destruct (Nat.leb_spec n 12); [lia|]. by apply list_elem_of_singleton.
Qed.
Lemma doubly_index v d n : (140 < n)%nat → doubly_indblock d ∈ index_sectors v d n.
Proof.
  intros. unfold index_sectors. apply elem_of_app. right.
  destruct (Nat.leb_spec n 140); [lia|]. by left.
Qed.
Lemma child_index v d n k :
  (140 ≤ k < n)%nat → child v d ((k - 140) / 128) ∈ index_sectors v d n.
Proof.
  intros. unfold index_sectors. apply elem_of_app. right.
  destruct (Nat.leb_spec n 140); [lia|]. right. apply list_elem_of_fmap. eexists.
  split; [reflexivity|]. apply elem_of_seq. split; [lia|]. rewrite Nat.add_0_l. unfold nchildren.
  apply Nat.Div0.div_lt_upper_bound.
  assert (E := Nat.div_mod_eq (n - 140 + 127) 128).
  assert (Hm := Nat.mod_upper_bound (n - 140 + 127) 128 ltac:(lia)). lia.
Qed.

Section agree.
Context (v v' : Z → list Z) (d : inode_disk) (n : nat).
Hypothesis Hagree : ∀ x, x ∈ index_sectors v d n → v' x = v x.

Lemma child_local j : (140 < n)%nat → child v' d j = child v d j.
Proof. intros Hn. unfold child, words. rewrite Hagree; [done|]. by apply doubly_index. Qed.

Lemma fsec_local k : (k < n)%nat → fsec v' d k = fsec v d k.
Proof.
  intros Hk. unfold fsec. destruct (Nat.ltb_spec k 12); [done|]. destruct (Nat.ltb_spec k 140).
  - unfold words. rewrite Hagree; [done|]. apply indblock_index. lia.
  - rewrite child_local by lia. unfold words. rewrite Hagree; [done|]. apply child_index. lia.
Qed.

Lemma data_local : data_sectors v' d n = data_sectors v d n.
Proof.
  unfold data_sectors. apply list_fmap_ext. intros k x Hk. apply lookup_seq in Hk as [-> Hk].
  by apply fsec_local.
Qed.

Lemma index_local : index_sectors v' d n = index_sectors v d n.
Proof.
  unfold index_sectors. f_equal. destruct (Nat.leb_spec n 140); [done|]. f_equal.
  apply list_fmap_ext. intros k x _. by apply child_local.
Qed.
End agree.

(** The inode's own sector and its index sectors. *)
Definition meta v sec : list Z := sec :: index_sectors v (disk v sec) (nblocks (disk v sec)).

Lemma owned_meta v sec : owned v sec = meta v sec ++ data_sectors v (disk v sec) (nblocks (disk v sec)).
Proof. done. Qed.

Lemma owned_local v v' sec :
  (∀ x, x ∈ meta v sec → v' x = v x) → disk v' sec = disk v sec ∧ owned v' sec = owned v sec.
Proof.
  intros H. assert (E : disk v' sec = disk v sec) by (unfold disk; rewrite H; [done|left]).
  split; [done|]. unfold owned. rewrite E.
  rewrite (index_local v v'), (data_local v v'); [done|..]; intros; apply H; by right.
Qed.

(** All the bytes of the blocks, the slack after the end of file included. *)
Definition raw v d : list Z := concat (v <$> data_sectors v d (nblocks d)).

Lemma raw_local v v' sec :
  (∀ x, x ∈ owned v sec → v' x = v x) → raw v' (disk v' sec) = raw v (disk v sec).
Proof.
  intros H. rewrite owned_meta in H.
  destruct (owned_local v v' sec) as [E _]; [intros; apply H, elem_of_app; by left|]. rewrite E.
  unfold raw. rewrite (data_local v v') by (intros; apply H, elem_of_app; left; by right).
  f_equal. apply list_fmap_ext. intros k x Hk. apply H, elem_of_app. right.
  by eapply list_elem_of_lookup_2.
Qed.

Lemma contents_raw v sec : contents v sec = take (Z.to_nat (i_length (disk v sec))) (raw v (disk v sec)).
Proof. done. Qed.

Lemma contents_local v v' sec :
  (∀ x, x ∈ owned v sec → v' x = v x) → contents v' sec = contents v sec.
Proof.
  intros H. rewrite !contents_raw, (raw_local v v') by done.
  destruct (owned_local v v' sec) as [-> _]; [|done]. intros. apply H. rewrite owned_meta.
  apply elem_of_app. by left.
Qed.
End local.

(** ** Overwriting part of one block *)
Section chunks.
Implicit Types (v : Z → list Z) (d : inode_disk) (n k : nat).

(** [v'] is [v] with some of the file's data sectors overwritten so that its
    blocks now hold [bytes]. *)
Record overwritten v sec (bytes : list Z) v' : Prop := Overwritten {
  ow_other m : m ∉ data_sectors v (disk v sec) (nblocks (disk v sec)) → v' m = v m;
  ow_raw : raw v' (disk v sec) = bytes;
}.

Lemma overwritten_owned v sec bytes v' :
  NoDup (owned v sec) → overwritten v sec bytes v' →
  disk v' sec = disk v sec ∧ owned v' sec = owned v sec.
Proof.
  intros Hnd [Ho _]. apply owned_local. intros x Hx. apply Ho. intros Hd.
  rewrite owned_meta in Hnd. apply NoDup_app in Hnd as (_ & Hnd & _). by eapply Hnd.
Qed.

Lemma raw_splice v d k o bs :
  let x := fsec v d k in
  blocks 512 (v <$> data_sectors v d (nblocks d)) →
  NoDup (data_sectors v d (nblocks d)) → x ∉ index_sectors v d (nblocks d) →
  (k < nblocks d)%nat → (o + length bs ≤ 512)%nat →
  raw (upd v x (splice o bs (v x))) d = splice (512 * k + o) bs (raw v d).
Proof.
  intros x Hbl Hnd Hx Hk Ho. unfold raw. set (v' := upd v x (splice o bs (v x))).
  assert (Hloc : ∀ y, y ∈ index_sectors v d (nblocks d) → v' y = v y).
  { intros y Hy. apply upd_ne. congruence. }
  rewrite (data_local v v') by done.
  assert (Hl : data_sectors v d (nblocks d) !! k = Some x) by (by apply data_sectors_lookup).
  rewrite <- (concat_splice 512 _ k (v x)); [|done|by rewrite list_lookup_fmap, Hl|done].
  f_equal. apply list_eq. intros j. rewrite list_lookup_fmap.
  destruct (decide (j = k)) as [->|Hj].
  - rewrite list_lookup_insert_eq, Hl; [simpl; unfold v'; by rewrite upd_eq|].
    rewrite length_fmap. unfold data_sectors. by rewrite length_fmap, length_seq.
  - rewrite list_lookup_insert_ne, list_lookup_fmap by done.
    destruct (data_sectors v d (nblocks d) !! j) as [y|] eqn:Ey; [|done]. simpl. f_equal.
    apply upd_ne. intros ->. apply Hj. by eapply NoDup_lookup.
Qed.
End chunks.

Section write.
Context {S : Type} `{!SectorStore S}.
Implicit Types (s : fs S) (v : Z → list Z) (d : inode_disk).

(** A file in a state: its inode well formed, its sectors on the device and
    distinct. *)
Record inode_ok (N : Z) v (sec : Z) : Prop := InodeOk {
  iok_wf : wf_disk (disk v sec);
  iok_range x : x ∈ owned v sec → 0 ≤ x < N;
  iok_nodup : NoDup (owned v sec);
}.

Lemma inode_ok_file N v sec : inode_ok N v sec → file_ok N v (disk v sec).
Proof. intros []. split; [done|]. intros x Hx. apply iok_range0. by right. Qed.

Lemma inode_ok_sector N v sec : inode_ok N v sec → 0 ≤ sec < N.
Proof. intros []. apply iok_range0. left. Qed.

Lemma inode_ok_owned N v v' sec :
  disk v' sec = disk v sec → owned v' sec = owned v sec → inode_ok N v sec → inode_ok N v' sec.
Proof. intros E1 E2 []. split; rewrite ?E1, ?E2; done. Qed.

Lemma length_raw N v s sec :
  sees N v s → inode_ok N v sec → length (raw v (disk v sec)) = (512 * nblocks (disk v sec))%nat.
Proof.
  intros Hs Hi. unfold raw. rewrite (length_concat_blocks 512).
  - unfold data_sectors. by rewrite !length_fmap, length_seq.
  - eapply file_blocks; [done|by apply inode_ok_file].
Qed.

Lemma length_le_raw d : wf_disk d → (Z.to_nat (i_length d) ≤ 512 * nblocks d)%nat.
Proof.
  intros [[H1 _] _ _ _ _]. unfold nblocks.
  assert (H := proj1 (DIV_ROUND_UP_spec (i_length d) 512 _ H1 ltac:(lia)) (Z.le_refl _)). lia.
Qed.

(** One chunk of a write. *)
Lemma write_chunk_ok N v s sec offset bs :
  let d := disk v sec in let x := fsec v d (Z.to_nat (offset / 512)) in
  let v1 := upd v x (splice (Z.to_nat (offset mod 512)) bs (v x)) in
  sees N v s → inode_ok N v sec → 0 ≤ offset → bs ≠ [] →
  offset + Z.of_nat (length bs) ≤ i_length d → offset mod 512 + Z.of_nat (length bs) ≤ 512 →
  inode_ok N v1 sec ∧ overwritten v sec (splice (Z.to_nat offset) bs (raw v d)) v1.
Proof.
  intros d x v1 Hs Hi Ho Hbs Hlen Hin. assert (Hnd := iok_nodup _ _ _ Hi).
  assert (0 < length bs)%nat by (destruct bs; simpl; [done|lia]).
  assert (Hk : (Z.to_nat (offset / 512) < nblocks d)%nat).
  { apply block_of_byte; [apply Hi|lia]. }
  assert (Hx : x ∈ data_sectors v d (nblocks d)).
  { eapply list_elem_of_lookup_2, data_sectors_lookup. done. }
  rewrite owned_meta in Hnd. apply NoDup_app in Hnd as (_ & Hdis & Hnd). fold d in Hdis, Hnd.
  assert (Hm : 0 ≤ offset mod 512) by (apply Z.mod_pos_bound; lia).
  assert (How : overwritten v sec (splice (Z.to_nat offset) bs (raw v d)) v1).
  { split.
    - intros m Hm'. apply upd_ne. intros ->. done.
    - fold d. unfold v1, x. rewrite raw_splice; [|..|done|lia].
      + f_equal. rewrite (Z.div_mod offset 512) at 3 by lia.
        assert (0 ≤ offset / 512) by (apply Z.div_pos; lia). lia.
      + eapply file_blocks; [done|by apply inode_ok_file].
      + done.
      + intros Hx'. eapply (Hdis x); [|done]. by right. }
  split; [|done]. destruct (overwritten_owned _ _ _ _ (iok_nodup _ _ _ Hi) How) as [E1 E2].
  by eapply inode_ok_owned.
Qed.

Lemma overwritten_trans v1 v2 v3 sec b2 b3 :
  NoDup (owned v1 sec) → overwritten v1 sec b2 v2 → overwritten v2 sec b3 v3 → overwritten v1 sec b3 v3.
Proof.
  intros Hnd H12 H23. destruct (overwritten_owned _ _ _ _ Hnd H12) as [Ed Eo].
  rewrite !owned_meta, Ed in Eo. destruct H12 as [Ho _], H23 as [Ho' Hr'].
  assert (Ei : data_sectors v2 (disk v1 sec) (nblocks (disk v1 sec))
               = data_sectors v1 (disk v1 sec) (nblocks (disk v1 sec))).
  { apply app_inj_2 in Eo; [by destruct Eo|]. unfold data_sectors. by rewrite !length_fmap. }
  rewrite Ed in *. split; [|done]. intros m Hm. rewrite Ho' by (by rewrite Ei). by apply Ho.
Qed.

Lemma write_loop_ok N p i buffer fuel s v size offset w :
  let d := disk v (sector i) in
  sees N v s → inodes s !! p = Some i → inode_ok N v (sector i) →
  0 ≤ size < Z.of_nat fuel → 0 ≤ offset → offset + size ≤ i_length d → 0 ≤ w →
  w + size ≤ Z.of_nat (length buffer) →
  ∃ s' v', write_loop fuel p d buffer size offset w s = Ok (w + size, s') ∧
    sees N v' s' ∧ only_store s s' ∧ inode_ok N v' (sector i) ∧
    overwritten v (sector i)
      (splice (Z.to_nat offset) (take (Z.to_nat size) (drop (Z.to_nat w) buffer)) (raw v d)) v'.
Proof.
  revert s v size offset w. induction fuel as [|fuel IH];
    intros s v size offset w d Hs Hp Hi Hf Ho Hlen Hw Hbuf; [lia|]. cbn [write_loop].
  assert (Hl := wf_length d (iok_wf _ _ _ Hi)). unfold MAX_LENGTH in Hl.
  destruct (Z.ltb_spec 0 size) as [Hsz|Hsz].
  2:{ exists s, v. replace size with 0 by lia. change (Z.to_nat 0) with 0%nat.
      rewrite Z.add_0_r, take_0, splice_nil.
      split_and!; [done..|apply only_store_refl|done|by split]. }
  assert (Hfile := inode_ok_file _ _ _ Hi). assert (Hsec := inode_ok_sector _ _ _ Hi).
  assert (Hk : (Z.to_nat (offset / 512) < nblocks d)%nat)
    by (apply block_of_byte; [apply Hi|lia]).
  destruct (byte_to_sector_ok N v s d offset Hs) as (s1 & Hrun1 & Hs1 & Ho1);
    [apply Hfile|lia|by apply file_lookup_ok|]. run_with Hrun1.
  destruct (inode_length_ok N v s1 p i Hs1 (only_store_inode _ _ _ _ Ho1 Hp) Hsec)
    as (s2 & Hrun2 & Hs2 & Ho2). run_with Hrun2. fold d.
  assert (Ech := chunk_eq (i_length d) size offset Ho ltac:(unfold in_s32; lia)).
  cbv zeta in Ech |- *. rewrite Ech. clear Ech.
  assert (Hm : 0 ≤ offset mod 512 < 512) by (apply Z.mod_pos_bound; lia).
  set (c := chunk (i_length d) size offset). assert (Ec : c = chunk (i_length d) size offset) by done.
  clearbody c. unfold chunk in Ec. destruct (Z.leb_spec c 0) as [Hc|Hc]; [lia|].
  destruct (Z.ltb_spec offset MAX_LENGTH) as [_|Hx]; [|unfold MAX_LENGTH in Hx; lia].
  rewrite Z.rem_mod_nonneg by (unfold BLOCK_SECTOR_SIZE; lia). unfold BLOCK_SECTOR_SIZE.
  rewrite s32_id by (unfold in_s32; lia).
  assert (Hb : Z.of_nat (length (drop (Z.to_nat w) buffer)) = Z.of_nat (length buffer) - w)
    by (rewrite length_drop; lia).
  destruct (sees_write_partial N v s2 (fsec v d (Z.to_nat (offset / 512)))
              (drop (Z.to_nat w) buffer) (offset mod 512) c)
    as (s3 & Hrun3 & Hs3 & Ho3); [done|by apply file_fsec_range|lia..|].
  run_with Hrun3. set (bs := take (Z.to_nat c) (drop (Z.to_nat w) buffer)) in *.
  assert (Hbl : length bs = Z.to_nat c) by (apply length_take_le; lia).
  destruct (write_chunk_ok N v s (sector i) offset bs Hs Hi Ho) as [Hi3 How3];
    [intros E; rewrite E in Hbl; simpl in Hbl; lia|fold d; lia|lia|]. fold d in Hs3, Hi3, How3.
  set (v3 := upd v _ _) in *.
  destruct (overwritten_owned _ _ _ _ (iok_nodup _ _ _ Hi) How3) as [Ed Eo].
  assert (Ho03 : only_store s s3) by (repeat (eapply only_store_trans; [eassumption|]); apply only_store_refl).
  destruct (IH s3 v3 (size - c) (offset + c) (w + c)) as (s4 & v4 & Hrun4 & Hs4 & Ho4 & Hi4 & How4);
    [done|by eapply only_store_inode|done|lia|lia|rewrite Ed; fold d; lia|lia..|].
  rewrite Ed in Hrun4, How4. fold d in Hrun4, How4.
  exists s4, v4. rewrite Hrun4. split_and!; [do 2 f_equal; lia|done|by eapply only_store_trans|done|].
  eapply (overwritten_trans v v3); [apply Hi|done|].
  assert (Er := ow_raw _ _ _ _ How3). fold d in Er. rewrite Er in How4.
  replace (Z.to_nat (offset + c)) with (Z.to_nat offset + length bs)%nat in How4 by lia.
  rewrite splice_splice in How4.
  - replace (Z.to_nat (w + c)) with (Z.to_nat w + Z.to_nat c)%nat in How4 by lia.
    unfold bs in How4. rewrite <- take_drop_app in How4.
    replace (Z.to_nat c + Z.to_nat (size - c))%nat with (Z.to_nat size) in How4 by lia. done.
  - assert (Hr := length_raw N v s _ Hs Hi). fold d in Hr. rewrite Hr.
    assert (H := length_le_raw d (iok_wf _ _ _ Hi)).
    rewrite Hbl, length_take, length_drop. lia.
Qed.
End write.

(** ** Writing the inode back *)
Section put_disk.
Context {S : Type} `{!SectorStore S}.
Implicit Types (v : Z → list Z) (d : inode_disk).

Lemma disk_upd v sec d : wf_disk d → disk (upd v sec (encode d)) sec = d.
Proof. intros Hd. unfold disk. rewrite upd_eq. by apply decode_encode. Qed.

Lemma not_sec_meta N v sec x :
  inode_ok N v sec → x ∈ index_sectors v (disk v sec) (nblocks (disk v sec)) ++
                          data_sectors v (disk v sec) (nblocks (disk v sec)) → x ≠ sec.
Proof.
  intros [_ _ Hnd] Hx ->. unfold owned in Hnd. by apply NoDup_cons in Hnd as [? _].
Qed.

(** Writing back an unchanged inode changes nothing but its padding. *)
Lemma put_disk_same N v sec :
  let v1 := upd v sec (encode (disk v sec)) in
  inode_ok N v sec →
  disk v1 sec = disk v sec ∧ owned v1 sec = owned v sec ∧
  raw v1 (disk v sec) = raw v (disk v sec) ∧ inode_ok N v1 sec.
Proof.
  intros v1 Hi. assert (Ed : disk v1 sec = disk v sec) by (apply disk_upd, Hi).
  assert (Hx : ∀ x, x ∈ index_sectors v (disk v sec) (nblocks (disk v sec)) ++
                        data_sectors v (disk v sec) (nblocks (disk v sec)) → v1 x = v x).
  { intros x Hx. apply upd_ne. by apply (not_sec_meta N v). }
  assert (Hix : ∀ x, x ∈ index_sectors v (disk v sec) (nblocks (disk v sec)) → v1 x = v x).
  { intros. apply Hx, elem_of_app. by left. }
  assert (Eo : owned v1 sec = owned v sec).
  { unfold owned. rewrite Ed, (index_local v v1), (data_local v v1); done. }
  split_and!; [done..| |by eapply inode_ok_owned].
  unfold raw. rewrite (data_local v v1) by done. f_equal. apply list_fmap_ext.
  intros k x Hk. apply Hx, elem_of_app. right. by eapply list_elem_of_lookup_2.
Qed.

Lemma extend_same write_at d (s : fs S) :
  inode_disk_extend write_at d (i_length d) s = Ok ((true, d), s).
Proof.
  unfold inode_disk_extend. rewrite Z.ltb_irrefl, !Z.sub_diag.
  change (u32 (u32 0 + u32 0) =? 0) with true. by destruct d.
Qed.

(** A write over the whole length of a file. *)
Lemma write_at_whole depth N v (s : fs S) p i buffer :
  let sec := sector i in let len := i_length (disk v sec) in
  sees N v s → inodes s !! p = Some i → inode_ok N v sec → deny_write_cnt i = 0 →
  len ≤ Z.of_nat (length buffer) →
  ∃ s' v', inode_write_at_rec (Datatypes.S depth) p buffer len 0 s = Ok (len, s') ∧
    sees N v' s' ∧ only_store s s' ∧ inode_ok N v' sec ∧
    disk v' sec = disk v sec ∧ owned v' sec = owned v sec ∧
    (∀ m, m ∉ owned v sec → v' m = v m) ∧
    raw v' (disk v sec) = splice 0 (take (Z.to_nat len) buffer) (raw v (disk v sec)).
Proof.
  intros sec len Hs Hp Hi Hdeny Hbuf. cbn [inode_write_at_rec].
  assert (Hl := wf_length _ (iok_wf _ _ _ Hi)). fold len in Hl. unfold MAX_LENGTH in Hl.
  assert (Hsec := inode_ok_sector _ _ _ Hi).
  run_with (get_inode_ok _ _ _ Hp). rewrite Hdeny. cbn [Z.eqb negb].
  destruct (inode_get_data_ok N v s p i Hs Hp Hsec) as (s1 & Hrun1 & Hs1 & Ho1). run_with Hrun1.
  rewrite Z.add_0_l, s32_id by (unfold in_s32; lia).
  run_with (extend_same (inode_write_at_rec depth) (disk v (sector i)) s1). cbv beta iota.
  destruct (sees_write N v s1 sec (encode (disk v sec)) Hs1 Hsec) as (s2 & Hrun2 & Hs2 & Ho2);
    [apply length_encode, Hi|]. run_with Hrun2.
  destruct (put_disk_same N v sec Hi) as (Ed & Eo & Er & Hi2).
  set (v2 := upd v sec (encode (disk v sec))) in *.
  assert (Ho02 := only_store_trans _ _ _ Ho1 Ho2).
  destruct (write_loop_ok N p i buffer (Datatypes.S (Z.to_nat len)) s2 v2 len 0 0)
    as (s3 & v3 & Hrun3 & Hs3 & Ho3 & Hi3 & How);
    [done|by eapply only_store_inode|done|lia|lia|fold sec; rewrite Ed; fold len; lia|lia|lia|].
  fold sec in Hrun3, Hi3, How. rewrite Ed in Hrun3, How. exists s3, v3. fold sec. rewrite Hrun3.
  destruct (overwritten_owned _ _ _ _ (iok_nodup _ _ _ Hi2) How) as [Ed3 Eo3].
  split_and!; [done|done|by eapply only_store_trans|done|congruence|congruence| |].
  - intros m Hm. rewrite (ow_other _ _ _ _ How).
    + apply upd_ne. intros ->. apply Hm. left.
    + intros Hd. apply Hm. rewrite <- Eo. rewrite owned_meta. apply elem_of_app. by right.
  - assert (Hr3 := ow_raw _ _ _ _ How). rewrite Ed in Hr3. rewrite Hr3. by rewrite Er.
Qed.
End put_disk.
