(* ===== verification/FsInv.v ===== *)
(** * The file system invariant

    Every sector belongs to at most one inode, the sectors that belong to an
    inode are marked in the free map, and the free map's own file is one of
    the files.  [live] is the set of inodes in use, by sector number. *)
From S2P Require Import Prelude CInt Bitmap Bytes Block Cache Inode InodeSpec InodeWrite.

Open Scope Z_scope.

Import Inode.

Definition FREE_MAP_SECTOR : Z := 0.
Definition ROOT_DIR_SECTOR : Z := 1.

Section inv.
Implicit Types (v : Z → list Z) (sec x : Z) (live : gset Z).

(** The bytes between the end of file and the end of its last block. *)
Definition zero_tail v sec : Prop :=
  Forall (λ b, b = 0) (drop (Z.to_nat (i_length (disk v sec))) (raw v (disk v sec))).

Record live_ok (N : Z) v live : Prop := LiveOk {
  lo_inode sec : sec ∈ live → inode_ok N v sec;
  lo_tail sec : sec ∈ live → zero_tail v sec;
  lo_disj sec1 sec2 x : sec1 ∈ live → sec2 ∈ live → sec1 ≠ sec2 →
    x ∈ owned v sec1 → x ∈ owned v sec2 → False;
}.

Lemma zero_tail_local v v' sec :
  (∀ x, x ∈ owned v sec → v' x = v x) → zero_tail v sec → zero_tail v' sec.
Proof.
  intros H Ht. unfold zero_tail. rewrite (raw_local v v') by done.
  destruct (owned_local v v' sec) as [-> _]; [|done]. intros. apply H. rewrite owned_meta.
  apply elem_of_app. by left.
Qed.

Lemma owned_local_full v v' sec :
  (∀ x, x ∈ owned v sec → v' x = v x) → disk v' sec = disk v sec ∧ owned v' sec = owned v sec.
Proof.
  intros H. apply owned_local. intros x Hx. apply H. rewrite owned_meta. apply elem_of_app. by left.
Qed.

(** One inode changes, on its own sectors and on sectors [new] that nobody
    owned; it may own them afterwards. *)
Lemma live_ok_step N v v' live sec0 (new : list Z) :
  live_ok N v live → sec0 ∈ live →
  (∀ x sec, x ∈ new → sec ∈ live → x ∉ owned v sec) →
  (∀ m, m ∉ owned v sec0 → m ∉ new → v' m = v m) →
  (∀ x, x ∈ owned v' sec0 → x ∈ owned v sec0 ∨ x ∈ new) →
  inode_ok N v' sec0 → zero_tail v' sec0 →
  live_ok N v' live ∧
  (∀ sec, sec ∈ live → sec ≠ sec0 →
     disk v' sec = disk v sec ∧ owned v' sec = owned v sec ∧ contents v' sec = contents v sec).
Proof.
  intros Hok H0 Hnew Hv Hown Hi Ht.
  assert (Hsame : ∀ sec, sec ∈ live → sec ≠ sec0 → ∀ x, x ∈ owned v sec → v' x = v x).
  { intros sec Hs Hne x Hx. apply Hv.
    - intros Hx0. by eapply (lo_disj N v live Hok sec sec0 x).
    - intros Hx0. by apply (Hnew x sec). }
  assert (Heq : ∀ sec, sec ∈ live → sec ≠ sec0 → disk v' sec = disk v sec ∧ owned v' sec = owned v sec).
  { intros sec Hs Hne. apply owned_local_full. by apply Hsame. }
  split.
  - split.
    + intros sec Hs. destruct (decide (sec = sec0)) as [->|Hne]; [done|].
      destruct (Heq sec Hs Hne). eapply inode_ok_owned; [done..|]. by apply (lo_inode N v live).
    + intros sec Hs. destruct (decide (sec = sec0)) as [->|Hne]; [done|].
      apply (zero_tail_local v); [by apply Hsame|]. by apply (lo_tail N v live).
    + intros sec1 sec2 x H1 H2 Hne Hx1 Hx2.
      destruct (decide (sec1 = sec0)) as [->|Hn1].
      { destruct (Heq sec2 H2 ltac:(done)) as [_ E]. rewrite E in Hx2.
        destruct (Hown x Hx1) as [Hx|Hx]; [by apply (lo_disj N v live Hok sec0 sec2 x)|by apply (Hnew x sec2)]. }
      destruct (Heq sec1 H1 Hn1) as [_ E1]. rewrite E1 in Hx1.
      destruct (decide (sec2 = sec0)) as [->|Hn2].
      { destruct (Hown x Hx2) as [Hx|Hx]; [by apply (lo_disj N v live Hok sec1 sec0 x)|by apply (Hnew x sec1)]. }
      destruct (Heq sec2 H2 Hn2) as [_ E2]. rewrite E2 in Hx2.
      by eapply (lo_disj N v live Hok sec1 sec2 x).
  - intros sec Hs Hne. destruct (Heq sec Hs Hne). split_and!; [done..|].
    apply contents_local. by apply Hsame.
Qed.

(** Overwriting within the length keeps the tail. *)
Lemma overwritten_tail N v v' sec (ofs : nat) bs :
  length (raw v (disk v sec)) = (512 * nblocks (disk v sec))%nat → inode_ok N v sec →
  (ofs + length bs ≤ Z.to_nat (i_length (disk v sec)))%nat →
  overwritten v sec (splice ofs bs (raw v (disk v sec))) v' →
  zero_tail v sec → zero_tail v' sec ∧ contents v' sec = splice ofs bs (contents v sec).
Proof.
  intros Hraw Hi Hle How Ht. destruct (overwritten_owned _ _ _ _ (iok_nodup _ _ _ Hi) How) as [Ed _].
  assert (Hlen := length_le_raw _ (iok_wf _ _ _ Hi)).
  unfold zero_tail. rewrite contents_raw, Ed, (ow_raw _ _ _ _ How). split.
  - rewrite drop_splice; [done|done|lia].
  - rewrite take_splice; [done|done|lia].
Qed.
End inv.

Section fs_inv.
Context {S : Type} `{!SectorStore S}.
Implicit Types (s : fs S) (v : Z → list Z) (live : gset Z).

Record fs_ok (N : Z) v s live : Prop := FsOk {
  fo_sees : sees N v s;
  fo_size : 0 ≤ N ≤ 2 ^ 30;
  fo_live : live_ok N v live;
  fo_map : Bitmap.wf (free_map s) ∧ Bitmap.bit_cnt (free_map s) = N;
  fo_used sec x : sec ∈ live → x ∈ owned v sec → Bitmap.bit (free_map s) x = true;
  fo_file fp : free_map_file s = Some fp →
    FREE_MAP_SECTOR ∈ live ∧ i_length (disk v FREE_MAP_SECTOR) = Bitmap.byte_cnt N ∧
    ∃ f i, files s !! fp = Some f ∧ inodes s !! file_inode f = Some i ∧
      sector i = FREE_MAP_SECTOR ∧ deny_write_cnt i = 0;
}.

(** The free map on the device is the one in memory. *)
Definition synced v s : Prop :=
  contents v FREE_MAP_SECTOR = bytes_of_words (Bitmap.bits (free_map s)).

Lemma byte_cnt_eq N : 0 ≤ N ≤ 2 ^ 30 →
  Bitmap.byte_cnt N = 4 * ((N + 31) / 32) ∧ in_s32 (Bitmap.byte_cnt N).
Proof.
  intros HN. unfold Bitmap.byte_cnt, Bitmap.elem_cnt, Bitmap.ELEM_BITS.
  rewrite DIV_ROUND_UP_div by lia. replace (N + 32 - 1) with (N + 31) by lia.
  assert (0 ≤ (N + 31) / 32 ≤ 2 ^ 25) by (Z.to_euclidean_division_equations; lia).
  rewrite (u32_id ((N + 31) / 32)), u32_id by (unfold in_u32; lia). unfold in_s32. lia.
Qed.

Lemma length_bits b N : Bitmap.wf b → Bitmap.bit_cnt b = N → 0 ≤ N ≤ 2 ^ 30 →
  Z.of_nat (length (bytes_of_words (Bitmap.bits b))) = Bitmap.byte_cnt N.
Proof.
  intros Hwf <- HN. rewrite length_bytes_of_words. destruct Hwf as (_ & Hl & _).
  destruct (byte_cnt_eq _ HN) as [-> _]. rewrite Hl.
  unfold Bitmap.elem_cnt, Bitmap.ELEM_BITS.
  rewrite DIV_ROUND_UP_div by lia. 
  assert (0 ≤ (Bitmap.bit_cnt b + 32 - 1) / 32 ≤ 2 ^ 25) by (Z.to_euclidean_division_equations; lia).
  replace (Bitmap.bit_cnt b + 31) with (Bitmap.bit_cnt b + 32 - 1) by lia.
  rewrite u32_id by (unfold in_u32; lia). lia.
Qed.
End fs_inv.

(** * Deciding the file system invariant

    A boolean test of [fs_ok] for concrete file systems, and that it is
    sound. *)
Import Inode.

Section check.
Implicit Types (v : Z → list Z) (d : inode_disk) (b : Bitmap.bitmap).

Definition u32_check (x : Z) : bool := (0 <=? x) && (x <? 2 ^ 32).
Definition wf_disk_check d : bool :=
  (0 <=? i_length d) && (i_length d <=? MAX_LENGTH) && (0 <=? i_padding d) && (i_padding d <? 2 ^ 24) &&
  (length (dblocks d) =? 12)%nat && (length (unused d) =? 111)%nat &&
  forallb u32_check (dblocks d ++ indblock d :: doubly_indblock d :: magic d :: unused d).
Definition inode_check (N : Z) v (sec : Z) : bool :=
  wf_disk_check (disk v sec) && forallb (λ x, (0 <=? x) && (x <? N)) (owned v sec) &&
  bool_decide (NoDup (owned v sec)) &&
  forallb (λ x, x =? 0) (drop (Z.to_nat (i_length (disk v sec))) (raw v (disk v sec))).
Definition disjoint_check v (l : list Z) : bool :=
  forallb (λ a, forallb (λ c, (a =? c) || forallb (λ x, negb (bool_decide (x ∈ owned v c))) (owned v a)) l) l.

Definition fs_check (N : Z) v b (l : list Z) : bool :=
  forallb (inode_check N v) l && disjoint_check v l &&
  forallb (λ sec, forallb (Bitmap.bit b) (owned v sec)) l &&
  (length (Bitmap.bits b) =? Z.to_nat (Bitmap.elem_cnt N))%nat && forallb u32_check (Bitmap.bits b).

Lemma forallb_elem {A} (f : A → bool) l x : forallb f l = true → x ∈ l → f x = true.
Proof. intros H Hx%list_elem_of_In. rewrite forallb_forall in H. auto. Qed.

Lemma u32_check_ok l : forallb u32_check l = true → Forall in_u32 l.
Proof.
  intros H. apply Forall_forall. intros x Hx. apply (forallb_elem _ _ _ H) in Hx. unfold u32_check in Hx.
  unfold in_u32. lia.
Qed.

Lemma inode_check_ok N v sec : inode_check N v sec = true → inode_ok N v sec ∧ zero_tail v sec.
Proof.
  unfold inode_check, wf_disk_check. rewrite !andb_true_iff.
  intros [[[[[[[[[H1 H2] H3] H4] H5] H6] H7] H8] H9] H10]. split.
  - split.
    + split; [lia|lia|by apply Nat.eqb_eq|by apply Nat.eqb_eq|by apply u32_check_ok].
    + intros x Hx. apply (forallb_elem _ _ _ H8) in Hx. lia.
    + by apply bool_decide_eq_true in H9.
  - apply Forall_forall. intros x Hx. apply (forallb_elem _ _ _ H10) in Hx. lia.
Qed.

Lemma disjoint_check_ok v l sec1 sec2 x : disjoint_check v l = true →
  sec1 ∈ l → sec2 ∈ l → sec1 ≠ sec2 → x ∈ owned v sec1 → x ∈ owned v sec2 → False.
Proof.
  intros H H1 H2 Hne Hx1 Hx2. apply (forallb_elem _ _ _ H) in H1. apply (forallb_elem _ _ _ H1) in H2.
  apply orb_true_iff in H2 as [H2|H2]; [lia|]. apply (forallb_elem _ _ _ H2) in Hx1.
  by rewrite bool_decide_true in Hx1.
Qed.

Lemma fs_check_ok {S} `{!SectorStore S} (s : fs S) N v l :
  sees N v s → 0 ≤ N ≤ 2 ^ 30 → Bitmap.bit_cnt (free_map s) = N → fs_check N v (free_map s) l = true →
  (∀ fp, free_map_file s = Some fp →
     FREE_MAP_SECTOR ∈ l ∧ i_length (disk v FREE_MAP_SECTOR) = Bitmap.byte_cnt N ∧
     ∃ f i, files s !! fp = Some f ∧ inodes s !! file_inode f = Some i ∧
       sector i = FREE_MAP_SECTOR ∧ deny_write_cnt i = 0) →
  fs_ok N v s (list_to_set l).
Proof.
  intros Hs HN Hbc Hc Hf. unfold fs_check in Hc. rewrite !andb_true_iff in Hc.
  destruct Hc as [[[[H1 H2] H3] H4] H5]. split; try done.
  - split.
    + intros sec Hx%elem_of_list_to_set. apply (forallb_elem _ _ _ H1) in Hx. by apply inode_check_ok in Hx as [? _].
    + intros sec Hx%elem_of_list_to_set. apply (forallb_elem _ _ _ H1) in Hx. by apply inode_check_ok in Hx as [_ ?].
    + intros sec1 sec2 x X1%elem_of_list_to_set X2%elem_of_list_to_set. by apply (disjoint_check_ok v l).
  - split; [|done]. split; [|split].
    + rewrite Hbc. lia.
    + rewrite Hbc. by apply Nat.eqb_eq.
    + by apply u32_check_ok.
  - intros sec x Hx%elem_of_list_to_set Ho. apply (forallb_elem _ _ _ H3) in Hx. by apply (forallb_elem _ _ _ Hx).
  - intros fp Hfp. destruct (Hf fp Hfp) as (F1 & F2). split; [by apply elem_of_list_to_set|done].
Qed.
End check.
