(* ===== verification/FreeMapSpec.v ===== *)
(** * Allocation from the free map: [src/pintos/filesys/free-map.c]

    [free_map_allocate] takes the first free sectors, marks them and writes
    the map to its file; [free_map_release] clears marks.  When there are too
    few free sectors the failure path clears the wrong marks. *)
From S2P Require Import Prelude CInt Bitmap Bytes Block Cache Inode InodeSpec InodeWrite FsInv.
Import Inode.

Open Scope Z_scope.

(** The free sectors at or after [i], [n] sectors long. *)
Definition is_free (b : Bitmap.bitmap) (k : Z) : bool := negb (Bitmap.bit b k).
Definition free_sectors (b : Bitmap.bitmap) (i : Z) (n : nat) : list Z :=
  List.filter (is_free b) (seqZ i (Z.of_nat n)).

(** [b'] is [b] with the sectors of [l] marked. *)
Definition marked (b b' : Bitmap.bitmap) (l : list Z) : Prop :=
  Bitmap.wf b' ∧ Bitmap.bit_cnt b' = Bitmap.bit_cnt b ∧
  ∀ k, 0 ≤ k < Bitmap.bit_cnt b → Bitmap.bit b' k = Bitmap.bit b k || bool_decide (k ∈ l).

Section lemmas.
Implicit Types (b : Bitmap.bitmap) (l : list Z).

Lemma marked_refl b : Bitmap.wf b → marked b b [].
Proof.
  intros Hwf. split_and!; [done..|]. intros k _. rewrite bool_decide_false by (by apply not_elem_of_nil).
  by rewrite orb_false_r.
Qed.

Lemma marked_trans b1 b2 b3 l1 l2 :
  marked b1 b2 l1 → marked b2 b3 l2 → marked b1 b3 (l1 ++ l2).
Proof.
  intros (Hw1 & Hc1 & Hb1) (Hw2 & Hc2 & Hb2). split_and!; [done|congruence|].
  intros k Hk. rewrite Hb2, Hb1 by (done || lia). rewrite <- orb_assoc. f_equal.
  destruct (decide (k ∈ l1)), (decide (k ∈ l2));
    rewrite !bool_decide_decide; repeat destruct (decide _); set_solver.
Qed.

Lemma marked_one b b' i : Bitmap.updated b b' (Bitmap.one i true) → marked b b' [i].
Proof.
  intros (Hw & Hc & Hb). split_and!; [done..|]. intros k Hk. rewrite Hb by done. unfold Bitmap.one.
  destruct (Z.eqb_spec k i) as [->|Hne].
  - rewrite bool_decide_true by (by apply list_elem_of_singleton). by rewrite orb_true_r.
  - rewrite bool_decide_false; [by rewrite orb_false_r|]. by rewrite list_elem_of_singleton.
Qed.

Lemma free_sectors_S b i n :
  free_sectors b i (S n) = (if is_free b i then [i] else []) ++ free_sectors b (i + 1) n.
Proof.
  unfold free_sectors. rewrite Nat2Z.inj_succ, seqZ_cons by lia. rewrite Z.pred_succ.
  unfold Z.succ at 1. simpl. by destruct (is_free b i).
Qed.

(** Marking earlier sectors does not change what is free later. *)
Lemma free_sectors_marked b b' i n l :
  marked b b' l → (∀ x, x ∈ l → x < i) → 0 ≤ i → i + Z.of_nat n ≤ Bitmap.bit_cnt b →
  free_sectors b' i n = free_sectors b i n.
Proof.
  intros (_ & _ & Hb) Hl H0 H1. unfold free_sectors. apply List.filter_ext_in. intros k Hk.
  apply list_elem_of_In, elem_of_seqZ in Hk. unfold is_free. f_equal. rewrite Hb by lia.
  rewrite bool_decide_false; [by rewrite orb_false_r|]. intros ?%Hl. lia.
Qed.

Lemma free_sectors_elem b i n x :
  x ∈ free_sectors b i n ↔ i ≤ x < i + Z.of_nat n ∧ Bitmap.bit b x = false.
Proof.
  unfold free_sectors. rewrite list_elem_of_In, filter_In, <- list_elem_of_In, elem_of_seqZ.
  unfold is_free. by rewrite negb_true_iff.
Qed.

Lemma free_sectors_NoDup b i n : NoDup (free_sectors b i n).
Proof. apply NoDup_ListNoDup, List.NoDup_filter, NoDup_ListNoDup, NoDup_seqZ. Qed.

(** Marking the first [k] free sectors leaves the others free. *)
Lemma free_sectors_taken b b' n k :
  Bitmap.bit_cnt b = Z.of_nat n → marked b b' (take k (free_sectors b 0 n)) →
  free_sectors b' 0 n = drop k (free_sectors b 0 n).
Proof.
  intros Hn (_ & _ & Hb). set (F := free_sectors b 0 n) in *.
  assert (HF : free_sectors b' 0 n = List.filter (λ x, negb (bool_decide (x ∈ take k F))) F).
  { assert (H : ∀ l, (∀ x, x ∈ l → 0 ≤ x < Bitmap.bit_cnt b) → List.filter (is_free b') l
                = List.filter (λ x, negb (bool_decide (x ∈ take k F))) (List.filter (is_free b) l)).
    { induction l as [|x l IH]; intros Hin; [done|]. simpl. rewrite IH by set_solver.
      assert (E : is_free b' x = is_free b x && negb (bool_decide (x ∈ take k F))).
      { unfold is_free. rewrite Hb by set_solver. by rewrite negb_orb. }
      rewrite E. destruct (is_free b x); simpl; [|done]. by destruct (bool_decide (x ∈ take k F)). }
    unfold free_sectors at 1. rewrite H; [done|]. intros x Hx%elem_of_seqZ. lia. }
  rewrite HF. clear HF. set (P := λ x, negb (bool_decide (x ∈ take k F))).
  transitivity (List.filter P (take k F ++ drop k F)); [by rewrite take_drop|]. rewrite List.filter_app.
  assert (Hnd := free_sectors_NoDup b 0 n). fold F in Hnd. rewrite <- (take_drop k F) in Hnd.
  apply NoDup_app in Hnd as (_ & Hd & _).
  assert (Ht : List.filter P (take k F) = []).
  { apply List.incl_l_nil. unfold P. intros x [Hx1 Hx2]%filter_In. apply list_elem_of_In in Hx1.
    by rewrite bool_decide_true in Hx2. }
  rewrite Ht. simpl. apply List.forallb_filter_id. unfold P. apply List.forallb_forall. intros x Hx%list_elem_of_In.
  rewrite bool_decide_false; [done|]. intros Hx2. by apply (Hd x).
Qed.
End lemmas.

Section run.
Context {S : Type} `{!SectorStore S}.
Implicit Types (s : fs S) (b : Bitmap.bitmap).
Variable write_at : nat → list Z → Z → Z → ST (fs S) Z.

Lemma with_free_map_ok {A} (m : ST Bitmap.bitmap A) s a b :
  m (free_map s) = Ok (a, b) → with_free_map m s = Ok (a, set_free_map b s).
Proof. intros H. unfold with_free_map. by apply run_zoom_ok. Qed.

Lemma set_free_map_id s : set_free_map (free_map s) s = s.
Proof. by destruct s. Qed.

(** What [allocate_loop] does once it has all its sectors. *)
Definition finish (l : list Z) : ST (fs S) (list Z * bool) :=
  s ← get;
  match free_map_file s with
  | None => mret (l, true)
  | Some _ => ok ← bitmap_write write_at; mret (l, ok)
  end.

Lemma allocate_loop_ok n s i cnt acc :
  let b := free_map s in let F := free_sectors b i n in
  let want := (Z.to_nat cnt - length acc)%nat in
  Bitmap.wf b → 0 ≤ i → i + Z.of_nat n = Bitmap.bit_cnt b → Z.of_nat (length acc) < cnt →
  ((want ≤ length F)%nat ∧ ∃ b', marked b b' (take want F) ∧
     allocate_loop write_at n i cnt acc s = finish (acc ++ take want F) (set_free_map b' s)) ∨
  ((length F < want)%nat ∧ ∃ b', marked b b' F ∧
     allocate_loop write_at n i cnt acc s = Ok ((acc ++ F, false), set_free_map b' s)).
Proof.
  cbv zeta. revert s i acc. induction n as [|n IH]; intros s i acc Hwf Hi Hn Hacc.
  { right. split; [simpl; lia|]. exists (free_map s). split; [by apply marked_refl|].
    unfold free_sectors. simpl. by rewrite app_nil_r, set_free_map_id. }
  cbn [allocate_loop]. rewrite free_sectors_S.
  erewrite run_bind_ok by (apply with_free_map_ok, Bitmap.bitmap_test_ok; done || lia).
  rewrite set_free_map_id. unfold is_free.
  destruct (Bitmap.bit (free_map s) i) eqn:Ebit; cbn [negb app].
  - erewrite run_bind_ok by reflexivity.
    destruct (Z.eqb_spec (Z.of_nat (length acc)) cnt); [lia|]. apply IH; (done || lia).
  - destruct (Bitmap.bitmap_mark_ok (free_map s) i Hwf) as (b1 & Hrun & Hm%marked_one); [lia|].
    erewrite run_bind_ok by (erewrite run_bind_ok by (apply with_free_map_ok; exact Hrun); reflexivity).
    rewrite length_app. cbn [length].
    destruct (Z.eqb_spec (Z.of_nat (length acc + 1)) cnt) as [E|E].
    + left. replace (Z.to_nat cnt - length acc)%nat with 1%nat by lia. cbn [length take].
      split; [lia|]. exists b1. split; [done|]. reflexivity.
    + assert (Hf : free_sectors b1 (i + 1) n = free_sectors (free_map s) (i + 1) n).
      { eapply free_sectors_marked; [done|..]; [|lia..]. intros x ->%list_elem_of_singleton. lia. }
      assert (Hm' := Hm). destruct Hm' as (Hw1 & Hc1 & Hb1).
      specialize (IH (set_free_map b1 s) (i + 1) (acc ++ [i])).
      cbn [free_map set_free_map] in IH. rewrite Hf, length_app in IH. cbn [length] in IH.
      replace (Z.to_nat cnt - length acc)%nat
        with (Datatypes.S (Z.to_nat cnt - (length acc + 1)))%nat by lia. cbn [length take].
      destruct IH as [[H1 (b' & H2 & H3)]|[H1 (b' & H2 & H3)]]; [done|lia..|left|right];
        (split; [lia|]; exists b'; split; [by apply (marked_trans _ b1 b' [i])|];
         rewrite H3, <- (assoc_L (++)); done).
Qed.

(** The failure path: it clears marks [0], [1], ... *)
Lemma reset_loop_ok n s i :
  let b := free_map s in
  Bitmap.wf b → 0 ≤ i → i + Z.of_nat n ≤ Bitmap.bit_cnt b →
  ∃ b', reset_loop n i s = Ok (tt, set_free_map b' s) ∧ Bitmap.wf b' ∧
    Bitmap.bit_cnt b' = Bitmap.bit_cnt b ∧
    ∀ k, 0 ≤ k < Bitmap.bit_cnt b →
      Bitmap.bit b' k = if (i <=? k) && (k <? i + Z.of_nat n) then false else Bitmap.bit b k.
Proof.
  revert s i. induction n as [|n IH]; intros s i b Hwf Hi Hn; cbn [reset_loop].
  { exists b. split; [unfold b; by rewrite set_free_map_id|]. split_and!; [done..|]. intros k _.
    destruct (Z.leb_spec i k), (Z.ltb_spec k (i + Z.of_nat 0)); (done || lia). }
  destruct (Bitmap.bitmap_reset_ok b i Hwf) as (b1 & Hrun & Hw1 & Hc1 & Hb1); [lia|].
  erewrite run_bind_ok by (apply with_free_map_ok; exact Hrun).
  destruct (IH (set_free_map b1 s) (i + 1)) as (b' & Hrun' & Hw' & Hc' & Hb');
    cbn [free_map set_free_map] in *; [done|lia..|].
  exists b'. split; [done|]. split; [done|]. split; [congruence|]. intros k Hk.
  rewrite Hb', Hb1 by lia. unfold Bitmap.one.
  destruct (Z.leb_spec (i + 1) k), (Z.ltb_spec k (i + 1 + Z.of_nat n)), (Z.leb_spec i k),
    (Z.ltb_spec k (i + Z.of_nat (Datatypes.S n))), (Z.eqb_spec k i); simpl; (done || lia).
Qed.
End run.

(** ** Writing the map to its file *)
Section write_map.
Context {S : Type} `{!SectorStore S}.
Implicit Types (s : fs S) (v : Z → list Z) (live : gset Z).

(** The invariant does not mention which marks are spare. *)
Lemma fs_ok_marked N v s live b' l :
  fs_ok N v s live → marked (free_map s) b' l → fs_ok N v (set_free_map b' s) live.
Proof.
  intros [Hs HN Hl [Hm Hc] Hu Hf] (Hw & Hc' & Hb). split; try done.
  - split; [done|]. simpl. congruence.
  - intros sec x Hsec Hx. simpl. rewrite Hb; [by rewrite (Hu sec x)|].
    rewrite Hc. by apply (iok_range N v sec (lo_inode _ _ _ Hl sec Hsec)).
Qed.

(** The invariant after a change of the store that touches one inode's
    sectors and keeps its shape. *)
Lemma fs_ok_store N v v' s s' live sec :
  fs_ok N v s live → sees N v' s' → only_store s s' → sec ∈ live →
  (∀ m, m ∉ owned v sec → v' m = v m) → owned v' sec = owned v sec →
  disk v' sec = disk v sec → inode_ok N v' sec → zero_tail v' sec →
  fs_ok N v' s' live ∧
  (∀ sec', sec' ∈ live → sec' ≠ sec →
     disk v' sec' = disk v sec' ∧ owned v' sec' = owned v sec' ∧ contents v' sec' = contents v sec').
Proof.
  intros [Hs HN Hl [Hm Hc] Hu Hf] Hs' Ho Hsec Hv Eo Ed Hi Ht.
  destruct (live_ok_step N v v' live sec [] Hl Hsec) as [Hl' Hoth]; try done.
  { intros x sec' Hx. by apply elem_of_nil in Hx. }
  { intros m Hm'. by auto. }
  { intros x. rewrite Eo. by left. }
  split; [|done]. destruct (only_store_fields _ _ Ho) as (E1 & E2 & E3 & E4 & E5 & E6).
  assert (Heq : ∀ sec', sec' ∈ live → disk v' sec' = disk v sec' ∧ owned v' sec' = owned v sec').
  { intros sec' Hs2. destruct (decide (sec' = sec)) as [->|Hne]; [done|].
    destruct (Hoth sec' Hs2 Hne) as (? & ? & _). done. }
  split; rewrite ?E1, ?E2; try done.
  - intros sec' x Hs2 Hx. destruct (Heq sec' Hs2) as [_ E]. rewrite E in Hx. by apply (Hu sec').
  - intros fp Hfp. destruct (Hf fp Hfp) as (H0 & Hlen & f & i & H1 & H2 & H3 & H4).
    split; [done|]. destruct (Heq _ H0) as [-> _]. split; [done|]. exists f, i. by rewrite E3, E5.
Qed.

Lemma bitmap_write_ok depth N v s live fp :
  fs_ok N v s live → free_map_file s = Some fp →
  ∃ s' v', bitmap_write (inode_write_at_rec (Datatypes.S depth)) s = Ok (true, s') ∧
    fs_ok N v' s' live ∧ only_store s s' ∧ synced v' s' ∧
    (∀ m, m ∉ owned v FREE_MAP_SECTOR → v' m = v m) ∧
    (∀ sec, sec ∈ live → disk v' sec = disk v sec ∧ owned v' sec = owned v sec) ∧
    (∀ sec, sec ∈ live → sec ≠ FREE_MAP_SECTOR → contents v' sec = contents v sec).
Proof.
  intros Hok Hfp. destruct (fo_file _ _ _ _ Hok fp Hfp) as (H0 & Hlen & f & i & Hf & Hi & Hsec & Hdeny).
  assert (Hin := lo_inode _ _ _ (fo_live _ _ _ _ Hok) _ H0).
  destruct (fo_map _ _ _ _ Hok) as [Hwf Hcnt]. assert (HN := fo_size _ _ _ _ Hok).
  destruct (byte_cnt_eq N HN) as [Hbc Hbs].
  assert (Hbuf := length_bits _ _ Hwf Hcnt HN).
  unfold bitmap_write. erewrite run_bind_ok by reflexivity.
  run_deref; [|exact Hfp]. run_deref; [|exact Hf].
  rewrite Hcnt, s32_id by done. rewrite <- Hlen in Hbuf |- *.
  destruct (write_at_whole depth N v s (file_inode f) i (bytes_of_words (Bitmap.bits (free_map s))))
    as (s' & v' & Hrun & Hs' & Ho & Hi' & Ed & Eo & Hoth & Hraw); [apply Hok|done|by rewrite Hsec|done|rewrite Hsec; lia|].
  rewrite Hsec in *. run_with Hrun. rewrite Z.eqb_refl.
  assert (Hr := length_raw N v s _ (fo_sees _ _ _ _ Hok) Hin).
  assert (Hle := length_le_raw _ (iok_wf _ _ _ Hin)).
  rewrite take_ge in Hraw by lia.
  assert (Htail : zero_tail v' FREE_MAP_SECTOR).
  { unfold zero_tail. rewrite Ed, Hraw. rewrite drop_splice by lia.
    by apply (lo_tail N v live (fo_live _ _ _ _ Hok)). }
  destruct (fs_ok_store N v v' s s' live FREE_MAP_SECTOR Hok) as [Hok' Hsame]; try done.
  exists s', v'. split_and!; try done.
  - unfold synced. destruct (only_store_fields _ _ Ho) as (-> & _).
    rewrite contents_raw, Ed, Hraw, take_splice by lia. apply splice_all.
    rewrite length_take. lia.
  - intros sec Hsc. destruct (decide (sec = FREE_MAP_SECTOR)) as [->|Hne]; [done|].
    destruct (Hsame sec Hsc Hne) as (? & ? & _). done.
  - intros sec Hsc Hne. by apply Hsame.
Qed.

(** ** Successful and failed allocation *)

(** What a write of the free map's file leaves alone. *)
Record map_written v s v' live : Prop := MapWritten {
  mw_other m : m ∉ owned v FREE_MAP_SECTOR ∨ free_map_file s = None → v' m = v m;
  mw_shape sec : sec ∈ live → disk v' sec = disk v sec ∧ owned v' sec = owned v sec;
  mw_contents sec : sec ∈ live → sec ≠ FREE_MAP_SECTOR → contents v' sec = contents v sec;
}.

Lemma finish_ok depth N v s live l :
  fs_ok N v s live →
  ∃ s' v', finish (inode_write_at_rec (Datatypes.S depth)) l s = Ok ((l, true), s') ∧
    fs_ok N v' s' live ∧ only_store s s' ∧ (free_map_file s ≠ None → synced v' s') ∧
    map_written v s v' live.
Proof.
  intros Hok. unfold finish. erewrite run_bind_ok by reflexivity.
  destruct (free_map_file s) as [fp|] eqn:Efp.
  - destruct (bitmap_write_ok depth N v s live fp Hok Efp)
      as (s' & v' & Hw & Hok' & Ho & Hsy & Hoth & Hsh & Hc).
    run_with Hw. exists s', v'. split_and!; try done. split; try done.
    intros m [Hm|Hm]; [by apply Hoth|congruence].
  - exists s, v. split_and!; try done. apply only_store_refl.
Qed.

Lemma free_map_allocate_ok depth N v s live cnt :
  fs_ok N v s live → 0 < cnt →
  cnt ≤ Z.of_nat (length (free_sectors (free_map s) 0 (Z.to_nat N))) →
  let l := take (Z.to_nat cnt) (free_sectors (free_map s) 0 (Z.to_nat N)) in
  ∃ s' v' b', free_map_allocate (inode_write_at_rec (Datatypes.S depth)) cnt s = Ok (Some l, s') ∧
    fs_ok N v' s' live ∧ only_store (set_free_map b' s) s' ∧ marked (free_map s) b' l ∧
    (free_map_file s ≠ None → synced v' s') ∧ map_written v s v' live.
Proof.
  intros Hok Hcnt Hfree l. destruct (fo_map _ _ _ _ Hok) as [Hwf Hbc].
  assert (HN := fo_size _ _ _ _ Hok). unfold free_map_allocate.
  destruct (Z.eqb_spec cnt 0); [lia|]. erewrite run_bind_ok by reflexivity.
  unfold Bitmap.bitmap_size. rewrite Hbc.
  destruct (allocate_loop_ok (inode_write_at_rec (Datatypes.S depth)) (Z.to_nat N) s 0 cnt [])
    as [[_ (b' & Hm & Hrun)]|[Hlt _]]; simpl length in *; [done|lia..| |lia].
  rewrite Nat.sub_0_r in *. simpl app in Hrun. fold l in Hrun, Hm.
  assert (Hok1 := fs_ok_marked N v s live b' l Hok Hm).
  destruct (finish_ok depth N v (set_free_map b' s) live l Hok1)
    as (s' & v' & Hfin & Hok' & Ho & Hsy & [Hmw1 Hmw2 Hmw3]).
  rewrite Hfin in Hrun. run_with Hrun. exists s', v', b'. split_and!; try done.
Qed.

(** Free sectors are free of every inode. *)
Lemma free_sectors_fresh N v s live x sec :
  fs_ok N v s live → x ∈ free_sectors (free_map s) 0 (Z.to_nat N) → sec ∈ live → x ∉ owned v sec.
Proof.
  intros Hok Hx Hsec Hown. apply free_sectors_elem in Hx as [_ Hb].
  rewrite (fo_used _ _ _ _ Hok sec x Hsec Hown) in Hb. done.
Qed.
End write_map.

(** Allocation is first-fit, exclusive and durable: with at least [cnt]
    free sectors, [free_map_allocate] returns the [cnt] lowest-numbered free
    sectors, none of which belongs to any inode, marks exactly them, and, once
    the free map file is open, the file's bytes on the device are the new map;
    every inode keeps its sectors and every other file its contents. *)
Theorem free_map_allocate_correct {S} `{!SectorStore S} (s : fs S) N v live cnt :
  fs_ok N v s live → 0 < cnt →
  cnt ≤ Z.of_nat (length (free_sectors (free_map s) 0 (Z.to_nat N))) →
  ∃ l s' v', free_map_allocate inode_write_at cnt s = Ok (Some l, s') ∧
    l = take (Z.to_nat cnt) (free_sectors (free_map s) 0 (Z.to_nat N)) ∧ NoDup l ∧
    Z.of_nat (length l) = cnt ∧ (∀ x sec, x ∈ l → sec ∈ live → x ∉ owned v sec) ∧
    fs_ok N v' s' live ∧ marked (free_map s) (free_map s') l ∧
    (free_map_file s ≠ None → synced v' s') ∧
    (∀ sec, sec ∈ live → owned v' sec = owned v sec ∧
       (sec ≠ FREE_MAP_SECTOR → contents v' sec = contents v sec)).
Proof.
  intros Hok Hcnt Hfree.
  destruct (free_map_allocate_ok 1 N v s live cnt Hok Hcnt Hfree)
    as (s' & v' & b' & Hrun & Hok' & Ho & Hm & Hsy & [Hmw1 Hmw2 Hmw3]).
  eexists _, s', v'. split; [exact Hrun|]. split; [done|].
  split; [apply take_NoDup, free_sectors_NoDup|].
  split; [rewrite length_take; lia|]. split.
  { intros x sec Hx Hsec. eapply free_sectors_fresh; [done| |done].
    by eapply elem_of_take_incl. }
  split; [done|]. split; [by rewrite Ho|]. split; [done|].
  intros sec Hsec. split; [by apply Hmw2|]. by apply Hmw3.
Qed.

(** The failure path of [free_map_allocate] is wrong: when fewer than
    [cnt] sectors are free, say [k] of them, it returns false, but instead of
    releasing those [k] sectors it clears the marks of sectors [0] to [k - 1],
    whoever owns them (sector 0 is the free map's own inode), and leaves the
    sectors it had taken marked. *)
Theorem free_map_allocate_failure {S} `{!SectorStore S} (s : fs S) write_at N cnt :
  Bitmap.wf (free_map s) → Bitmap.bit_cnt (free_map s) = N →
  let k := Z.of_nat (length (free_sectors (free_map s) 0 (Z.to_nat N))) in
  k < cnt →
  ∃ b', free_map_allocate write_at cnt s = Ok (None, set_free_map b' s) ∧
    ∀ x, 0 ≤ x < N → Bitmap.bit b' x = negb (x <? k).
Proof.
  intros Hwf HN k Hk. assert (H0 : 0 ≤ N) by (destruct Hwf; lia).
  unfold free_map_allocate. destruct (Z.eqb_spec cnt 0); [unfold k in Hk; lia|].
  erewrite run_bind_ok by reflexivity. unfold Bitmap.bitmap_size. rewrite HN.
  destruct (allocate_loop_ok write_at (Z.to_nat N) s 0 cnt [])
    as [[Hle _]|[_ (b1 & (Hw1 & Hc1 & Hb1) & Hrun)]]; simpl length in *; [done|lia..|].
  simpl app in Hrun. run_with Hrun. cbv beta iota.
  assert (Hkn : k ≤ N).
  { unfold k, free_sectors. etrans; [apply Nat2Z.inj_le, List.filter_length_le|]. rewrite length_seqZ. lia. }
  destruct (reset_loop_ok (length (free_sectors (free_map s) 0 (Z.to_nat N))) (set_free_map b1 s) 0)
    as (b2 & Hrun2 & _ & Hc2 & Hb2); cbn [free_map set_free_map] in *; [done|lia|fold k; lia|].
  run_with Hrun2. exists b2. split; [done|]. intros x Hx. rewrite Hb2 by lia. fold k.
  rewrite Z.add_0_l. destruct (Z.leb_spec 0 x), (Z.ltb_spec x k); simpl; try (done || lia).
  rewrite Hb1 by lia. destruct (Bitmap.bit (free_map s) x) eqn:E; [done|]. simpl.
  apply bool_decide_eq_true, free_sectors_elem. split; [lia|done].
Qed.
