(* ===== verification/InodeExtend.v ===== *)
(** * Growing files: [inode_disk_extend]

    The helpers that hand freshly allocated sectors to the direct blocks and
    to the indirect block, and the growth of a file to at most 140 blocks
    (71,680 bytes): the file keeps its blocks, gets the allocated ones, and
    its contents are padded with zeros. *)
From S2P Require Import Prelude CInt Bitmap Bytes Block Cache Inode InodeSpec InodeWrite FsInv FreeMapSpec.
Import Inode.

Open Scope Z_scope.

(** [v] after zeros have been written to the sectors of [l]. *)
Definition zeroed (v : Z → list Z) (l : list Z) (m : Z) : list Z :=
  if bool_decide (m ∈ l) then zeros else v m.

Lemma zeroed_in v l m : m ∈ l → zeroed v l m = zeros.
Proof. intros. unfold zeroed. by rewrite bool_decide_true. Qed.
Lemma zeroed_out v l m : m ∉ l → zeroed v l m = v m.
Proof. intros. unfold zeroed. by rewrite bool_decide_false. Qed.
Lemma zeroed_cons v x l m : zeroed (upd v x zeros) l m = zeroed v (x :: l) m.
Proof.
  destruct (decide (m ∈ l)) as [Hl|Hl].
  - rewrite !zeroed_in; [done|by right|done].
  - rewrite zeroed_out by done. destruct (decide (m = x)) as [->|Hne].
    + rewrite upd_eq, zeroed_in; [done|left].
    + rewrite upd_ne, zeroed_out; [done| |done]. by apply not_elem_of_cons.
Qed.

Section helpers.
Context {S : Type} `{!SectorStore S}.
Implicit Types (s : fs S) (v : Z → list Z) (d : inode_disk) (sectors : list Z).

Definition in_dev (N : Z) (l : list Z) : Prop := Forall (λ x, 0 ≤ x < N) l.

Lemma zeros_sector : is_sector zeros.
Proof. reflexivity. Qed.

Lemma zero_loop_ok N n v s sectors :
  sees N v s → (n ≤ length sectors)%nat → in_dev N sectors →
  ∃ s', zero_loop n sectors s = Ok (drop n sectors, s') ∧
    sees N (zeroed v (take n sectors)) s' ∧ only_store s s'.
Proof.
  revert v s sectors. induction n as [|n IH]; intros v s sectors Hs Hn Hd; cbn [zero_loop].
  { exists s. split_and!; [done| |apply only_store_refl]. eapply sees_ext; [|done]. intros m.
    symmetry. apply zeroed_out. apply not_elem_of_nil. }
  destruct sectors as [|x sectors]; [simpl in Hn; lia|]. apply Forall_cons in Hd as [Hx Hd].
  erewrite run_bind_ok by reflexivity.
  destruct (sees_write N v s x zeros Hs Hx zeros_sector) as (s1 & Hrun1 & Hs1 & Ho1).
  run_with Hrun1. cbn [tail]. simpl in Hn.
  destruct (IH _ s1 sectors Hs1) as (s2 & Hrun2 & Hs2 & Ho2); [lia|done|].
  exists s2. rewrite Hrun2. split_and!; [done| |by eapply only_store_trans].
  eapply sees_ext; [|done]. intros m. apply zeroed_cons.
Qed.

Definition set_dblocks d (l : list Z) : inode_disk :=
  InodeDisk (i_length d) (i_is_dir d) (i_padding d) l (indblock d) (doubly_indblock d)
    (magic d) (unused d).

Lemma dblock_loop_ok N n (k : nat) d v s sectors :
  sees N v s → (k + n ≤ length (dblocks d))%nat → (n ≤ length sectors)%nat → in_dev N sectors →
  ∃ s', dblock_loop n (Z.of_nat k) d sectors s
        = Ok ((set_dblocks d (splice k (take n sectors) (dblocks d)), drop n sectors), s') ∧
    sees N (zeroed v (take n sectors)) s' ∧ only_store s s'.
Proof.
  revert k d v s sectors. induction n as [|n IH]; intros k d v s sectors Hs Hk Hn Hd; cbn [dblock_loop].
  { exists s. rewrite take_0, splice_nil. split_and!; [by destruct d| |apply only_store_refl].
    eapply sees_ext; [|done]. intros m. symmetry. apply zeroed_out. apply not_elem_of_nil. }
  destruct sectors as [|x sectors]; [simpl in Hn; lia|]. apply Forall_cons in Hd as [Hx Hd].
  erewrite run_bind_ok by reflexivity.
  destruct (sees_write N v s x zeros Hs Hx zeros_sector) as (s1 & Hrun1 & Hs1 & Ho1).
  run_with Hrun1. destruct (lookup_lt_is_Some_2 (dblocks d) k) as [y Hy]; [lia|].
  rewrite Nat2Z.id. run_deref; [|exact Hy]. cbn [tail]. simpl in Hn.
  replace (Z.of_nat k + 1) with (Z.of_nat (Datatypes.S k)) by lia.
  destruct (IH (Datatypes.S k) (set_dblocks d (<[k := x]> (dblocks d))) _ s1 sectors Hs1)
    as (s2 & Hrun2 & Hs2 & Ho2); [cbn [dblocks set_dblocks]; rewrite length_insert; lia|lia|done|].
  exists s2. split_and!; [|eapply sees_ext; [|done]; intros m; apply zeroed_cons
                          |by eapply only_store_trans].
  unfold set_dblocks in Hrun2 at 1. rewrite Hrun2. unfold set_dblocks.
  cbn [dblocks i_length i_is_dir i_padding indblock doubly_indblock magic unused take drop].
  do 4 f_equal.
  assert (E : <[k := x]> (dblocks d) = splice k [x] (dblocks d)).
  { rewrite insert_take_drop by lia. unfold splice. cbn. by rewrite Nat.add_1_r. }
  rewrite E. replace (Datatypes.S k) with (k + length [x])%nat by (simpl; lia).
  rewrite splice_splice; [done|]. rewrite length_take. simpl. lia.
Qed.

Lemma indblock_children_ok N v s ib sectors ofs total :
  sees N v s → 0 ≤ ib < N → N ≤ 2 ^ 32 → 0 ≤ ofs < 128 → 0 < total → ofs + total ≤ 128 →
  total ≤ Z.of_nat (length sectors) → in_dev N sectors →
  let l := take (Z.to_nat total) sectors in
  ∃ s' v1, inode_disk_extend_indblock_children ib sectors ofs total s
        = Ok ((drop (Z.to_nat total) sectors, 0, 0), s') ∧
    sees N (zeroed v1 l) s' ∧ only_store s s' ∧ (∀ m, m ≠ ib → v1 m = v m) ∧
    words v1 ib = splice (Z.to_nat ofs) l (words v ib).
Proof.
  intros Hs Hib HN Ho Ht Hot Hl Hd l. unfold inode_disk_extend_indblock_children, INDBLOCK_NUM_CHILDREN.
  destruct (Z.leb_spec 128 ofs); [lia|].
  replace (if 128 <? total then 128 else total) with total by (bcase; lia).
  destruct (sees_write_partial N v s ib (bytes_of_words sectors) (ofs * 4) (total * 4))
    as (s1 & Hrun1 & Hs1 & Ho1); [done..|lia|lia|lia|rewrite length_bytes_of_words; lia|].
  run_with Hrun1. set (v1 := upd v ib _) in Hs1.
  destruct (zero_loop_ok N (Z.to_nat total) v1 s1 sectors Hs1) as (s2 & Hrun2 & Hs2 & Ho2);
    [lia|done|]. run_with Hrun2. exists s2, v1. rewrite Z.sub_diag.
  split_and!; [done|done|by eapply only_store_trans|intros m Hm; by apply upd_ne|].
  unfold words, v1. rewrite upd_eq.
  assert (Hib512 := sees_len N v s ib Hs Hib).
  assert (Hu : Forall in_u32 l).
  { apply Forall_take. eapply Forall_impl; [exact Hd|]. unfold in_u32. simpl. lia. }
  assert (Et : take (Z.to_nat (total * 4)) (bytes_of_words sectors) = bytes_of_words l).
  { unfold bytes_of_words, l. rewrite <- (take_drop (Z.to_nat total) sectors) at 1.
    rewrite bind_app. apply take_app_length'.
    change (Z.to_nat (total * 4) = length (bytes_of_words (take (Z.to_nat total) sectors))).
    rewrite length_bytes_of_words, length_take. lia. }
  rewrite Et. replace (Z.to_nat (ofs * 4)) with (4 * Z.to_nat ofs)%nat by lia.
  apply (words_of_bytes_splice _ 128); [done| |done]. unfold l. rewrite length_take. lia.
Qed.
End helpers.

(** ** Handing out the allocated sectors *)
Section hand_out.
Context {S : Type} `{!SectorStore S}.
Implicit Types (s : fs S) (v : Z → list Z) (d : inode_disk) (l : list Z).

(** What [inode_disk_extend] does with the sectors it has allocated. *)
Definition hand_out d (sectors : list Z) (sector_ofs data_sectors_to_write : Z)
    : ST (fs S) (bool * inode_disk) :=
  let indirect_sectors := drop (Z.to_nat data_sectors_to_write) sectors in
  r ← inode_disk_extend_dblock d sectors sector_ofs data_sectors_to_write;
  let '(d, sectors, sector_ofs, data_sectors_to_write) := r in
  if data_sectors_to_write <=? 0 then mret (true, d)
  else
    r ← (if sector_ofs =? 0 then
           x ← deref (head indirect_sectors);
           mret (set_indblock d x, tail indirect_sectors)
         else mret (d, indirect_sectors));
    let '(d, indirect_sectors) := r in
    r ← inode_disk_extend_indblock_children (indblock d) sectors sector_ofs data_sectors_to_write;
    let '(sectors, sector_ofs, data_sectors_to_write) := r in
    if data_sectors_to_write <=? 0 then mret (true, d)
    else
      r ← (if sector_ofs =? 0 then
             x ← deref (head indirect_sectors);
             mret (set_doubly_indblock d x, tail indirect_sectors)
           else mret (d, indirect_sectors));
      let '(d, indirect_sectors) := r in
      inode_disk_extend_doubly_indblock_children (doubly_indblock d) sectors
        indirect_sectors sector_ofs data_sectors_to_write ;;
      mret (true, d).

Lemma inode_disk_extend_hand_out write_at d new_length :
  inode_disk_extend write_at d new_length =
  if new_length <? i_length d then mret (false, d)
  else
    let data := u32 (bytes_to_data_sectors new_length - bytes_to_data_sectors (i_length d)) in
    let cnt := u32 (data + u32 (bytes_to_indirect_sectors new_length
                                - bytes_to_indirect_sectors (i_length d))) in
    let d1 := set_length d new_length in
    if cnt =? 0 then mret (true, d1)
    else
      a ← free_map_allocate write_at cnt;
      match a with
      | None => mret (false, d1)
      | Some sectors => hand_out d1 sectors (bytes_to_data_sectors (i_length d)) data
      end.
Proof. reflexivity. Qed.

(** How many of [cnt] sectors go to the direct blocks of a file of [nb]. *)
Definition direct (nb cnt : nat) : nat := if (nb <? 12)%nat then Nat.min (12 - nb) cnt else 0%nat.

Lemma extend_dblock_ok N v s d l nb cnt :
  sees N v s → length (dblocks d) = 12%nat → (cnt ≤ length l)%nat → in_dev N l →
  let m := direct nb cnt in
  ∃ s', inode_disk_extend_dblock d l (Z.of_nat nb) (Z.of_nat cnt) s
        = Ok ((set_dblocks d (splice nb (take m l) (dblocks d)), drop m l,
               Z.of_nat (nb + m - 12), Z.of_nat (cnt - m)), s') ∧
    sees N (zeroed v (take m l)) s' ∧ only_store s s'.
Proof.
  intros Hs Hdb Hc Hd m. unfold inode_disk_extend_dblock, INODE_NUM_DBLOCKS. unfold direct in m.
  destruct (Z.leb_spec 12 (Z.of_nat nb)), (Nat.ltb_spec nb 12); [lia| | |lia]; subst m.
  - exists s. rewrite take_0, splice_nil, drop_0. split_and!; [| |apply only_store_refl].
    + rewrite Nat.add_0_r, Nat.sub_0_r. replace (Z.of_nat nb - 12) with (Z.of_nat (nb - 12)) by lia.
      by destruct d.
    + eapply sees_ext; [|done]. intros x. symmetry. apply zeroed_out, not_elem_of_nil.
  - replace (if 12 - Z.of_nat nb <? Z.of_nat cnt then 12 - Z.of_nat nb else Z.of_nat cnt)
      with (Z.of_nat (Nat.min (12 - nb) cnt)) by (bcase; lia).
    set (m := Nat.min (12 - nb) cnt). rewrite Nat2Z.id.
    destruct (dblock_loop_ok N m nb d v s l Hs) as (s' & Hrun & Hs' & Ho'); [lia|lia|done|].
    run_with Hrun. exists s'. split_and!; [|done..]. cbn [fst snd].
    replace (Z.of_nat (nb + m - 12)) with 0 by lia.
    replace (Z.of_nat cnt - Z.of_nat m) with (Z.of_nat (cnt - m)) by lia. done.
Qed.

Lemma data_sectors_app v v' d d' nb cnt l :
  (∀ k, (k < nb)%nat → fsec v' d' k = fsec v d k) →
  (∀ j, (j < cnt)%nat → fsec v' d' (nb + j) = nth j l 0) → (cnt ≤ length l)%nat →
  data_sectors v' d' (nb + cnt) = data_sectors v d nb ++ take cnt l.
Proof.
  intros Hold Hnew Hl. unfold data_sectors. rewrite seq_app, fmap_app. f_equal.
  - apply list_fmap_ext. intros k x Hk. apply lookup_seq in Hk as [-> Hk]. by apply Hold.
  - apply list_eq. intros j. rewrite list_lookup_fmap, lookup_take.
    destruct (decide (j < cnt)%nat) as [Hj|Hj].
    + rewrite lookup_seq_lt by done. cbn. rewrite Hnew by done. symmetry. apply nth_lookup_lt. lia.
    + by rewrite lookup_seq_ge by lia.
Qed.

Lemma nth_take_drop (l : list Z) a b j : (j < b)%nat → nth j (take b (drop a l)) 0 = nth (a + j) l 0.
Proof. intros. rewrite !nth_lookup, lookup_take, lookup_drop. by rewrite decide_True. Qed.

Lemma index_sectors_small v d n :
  (n ≤ 140)%nat → index_sectors v d n = if (n <=? 12)%nat then [] else [indblock d].
Proof.
  intros. unfold index_sectors. destruct (Nat.leb_spec n 140); [|lia]. by rewrite app_nil_r.
Qed.

(** [d'] is [d] with other block pointers. *)
Definition same_header d d' : Prop :=
  i_length d' = i_length d ∧ i_is_dir d' = i_is_dir d ∧ i_padding d' = i_padding d ∧
  doubly_indblock d' = doubly_indblock d ∧ magic d' = magic d ∧ unused d' = unused d.

Lemma wf_disk_pointers d d' :
  wf_disk d → same_header d d' → length (dblocks d') = 12%nat →
  Forall in_u32 (dblocks d') → in_u32 (indblock d') → wf_disk d'.
Proof.
  intros [H1 H2 H3 H4 H5] (E1 & _ & E3 & E4 & E5 & E6) Hl Hd Hi.
  rewrite Forall_app, !Forall_cons in H5. destruct H5 as (_ & _ & Hdb & Hm & Hu).
  split; rewrite ?E1, ?E3, ?E6; try done. rewrite Forall_app, !Forall_cons, E4, E5. done.
Qed.

Lemma in_dev_u32 N l : N ≤ 2 ^ 32 → in_dev N l → Forall in_u32 l.
Proof. intros HN Hl. eapply Forall_impl; [exact Hl|]. unfold in_u32. simpl. lia. Qed.

Lemma wf_splice_dblocks N d nb m l :
  N ≤ 2 ^ 32 → wf_disk d → in_dev N l → (nb + m ≤ 12)%nat ∨ m = 0%nat → (m ≤ length l)%nat →
  let db := splice nb (take m l) (dblocks d) in length db = 12%nat ∧ Forall in_u32 db.
Proof.
  intros HN Hd Hl Hm Hml. assert (H5 := wf_words d Hd). rewrite Forall_app in H5. destruct H5 as [H5 _].
  assert (Hdb := wf_dblocks d Hd). destruct Hm as [Hm| ->].
  - cbv zeta. rewrite splice_length by (rewrite length_take; lia). split; [done|]. unfold splice.
    rewrite !Forall_app. split_and!; [by apply Forall_take|apply Forall_take; by eapply in_dev_u32|].
    by apply Forall_drop.
  - rewrite take_0, splice_nil. done.
Qed.

(** The result of [hand_out] for a file that grows from [nb] to [nb + cnt]
    blocks with the sectors [l]: [cnt] for data, the rest for the index. *)
Record grown (N : Z) v d nb cnt l v' d' : Prop := Grown {
  gr_data : data_sectors v' d' (nb + cnt) = data_sectors v d nb ++ take cnt l;
  gr_index : index_sectors v' d' (nb + cnt) = index_sectors v d nb ++ drop cnt l;
  gr_other m : m ∉ l → m ∉ index_sectors v d nb → v' m = v m;
  gr_zero x : x ∈ take cnt l → v' x = zeros;
  gr_header : same_header d d';
  gr_wf : wf_disk d';
}.

Lemma fsec_direct v d k : (k < 12)%nat → fsec v d k = nth k (dblocks d) 0.
Proof. intros. unfold fsec. by destruct (Nat.ltb_spec k 12); [|lia]. Qed.
Lemma fsec_indirect v d k :
  (12 ≤ k < 140)%nat → fsec v d k = nth (k - 12) (words v (indblock d)) 0.
Proof.
  intros. unfold fsec. destruct (Nat.ltb_spec k 12); [lia|]. by destruct (Nat.ltb_spec k 140); [|lia].
Qed.

(** Direct blocks before and after the splice. *)
Lemma nth_new_dblocks d nb cnt l k :
  let m := direct nb cnt in
  length (dblocks d) = 12%nat → (cnt ≤ length l)%nat → (k < 12)%nat → (k < nb + cnt)%nat →
  nth k (splice nb (take m l) (dblocks d)) 0 =
  if (k <? nb)%nat then nth k (dblocks d) 0 else nth (k - nb) l 0.
Proof.
  intros m Hdb Hl Hk Hkn. unfold direct in m. destruct (Nat.ltb_spec nb 12).
  - assert (Hml : length (take m l) = m) by (rewrite length_take; lia).
    rewrite nth_splice by lia. rewrite Hml. destruct (Nat.ltb_spec k nb); [done|].
    destruct (Nat.ltb_spec k (nb + m)); [|lia].
    rewrite <- (drop_0 l) at 1. rewrite nth_take_drop by lia. done.
  - subst m. rewrite take_0, splice_nil. destruct (Nat.ltb_spec k nb); [done|lia].
Qed.

Lemma hand_out_direct N v s d l nb cnt :
  sees N v s → N ≤ 2 ^ 32 → wf_disk d → (0 < cnt)%nat → (nb + cnt ≤ 12)%nat →
  length l = cnt → in_dev N l →
  ∃ s' v' d', hand_out d l (Z.of_nat nb) (Z.of_nat cnt) s = Ok ((true, d'), s') ∧
    sees N v' s' ∧ only_store s s' ∧ grown N v d nb cnt l v' d'.
Proof.
  intros Hs HN Hd Hc Hnb Hl Hdev. assert (Hdb := wf_dblocks d Hd).
  assert (Em : direct nb cnt = cnt).
  { unfold direct. destruct (Nat.ltb_spec nb 12); lia. }
  destruct (extend_dblock_ok N v s d l nb cnt Hs Hdb) as (s' & Hrun & Hs' & Ho'); [lia|done|].
  unfold hand_out. rewrite Em in *. run_with Hrun. cbv beta iota. rewrite Nat.sub_diag.
  cbn [Z.of_nat Z.leb Z.compare].
  eexists s', _, _. split; [reflexivity|]. split; [exact Hs'|]. split; [done|].
  rewrite take_ge in * by lia.
  destruct (wf_splice_dblocks N d nb cnt l) as [Hl12 Hu]; [done..|lia|lia|].
  rewrite take_ge in Hl12, Hu by lia. split.
  - apply data_sectors_app; [intros k Hk|intros j Hj|lia]; rewrite !fsec_direct by lia; cbn [dblocks set_dblocks];
      assert (Hn := nth_new_dblocks d nb cnt l); cbv zeta in Hn; rewrite Em, take_ge in Hn by lia;
      rewrite Hn by lia.
    + by destruct (Nat.ltb_spec k nb); [|lia].
    + destruct (Nat.ltb_spec (nb + j) nb); [lia|]. f_equal. lia.
  - rewrite !index_sectors_small by lia. destruct (Nat.leb_spec (nb + cnt) 12), (Nat.leb_spec nb 12); try lia.
    by rewrite drop_ge by lia.
  - intros x Hx _. by apply zeroed_out.
  - intros x Hx. rewrite take_ge in Hx by lia. by apply zeroed_in.
  - done.
  - apply (wf_disk_pointers d); try done.
    assert (H5 := wf_words d Hd). rewrite Forall_app, Forall_cons in H5. apply H5.
Qed.

(** The pointer to the indirect block after growth: an old one, or the
    sector set aside for it. *)
Definition new_ind d nb cnt l : Z := if (nb <=? 12)%nat then nth cnt l 0 else indblock d.

Lemma hand_out_indirect N v s d l nb cnt :
  sees N v s → N ≤ 2 ^ 32 → wf_disk d → (0 < cnt)%nat → (12 < nb + cnt ≤ 140)%nat →
  length l = (cnt + if (nb <=? 12)%nat then 1 else 0)%nat → in_dev N l → NoDup l →
  ((12 < nb)%nat → 0 ≤ indblock d < N ∧ indblock d ∉ l) →
  ∃ s' v' d', hand_out d l (Z.of_nat nb) (Z.of_nat cnt) s = Ok ((true, d'), s') ∧
    sees N v' s' ∧ only_store s s' ∧ grown N v d nb cnt l v' d'.
Proof.
  intros Hs HN Hd Hc Hnb Hl Hdev Hnd Hind. assert (Hdb := wf_dblocks d Hd).
  destruct (extend_dblock_ok N v s d l nb cnt Hs Hdb) as (s1 & Hrun1 & Hs1 & Ho1); [lia|done|].
  set (m := direct nb cnt) in *.
  assert (Hm : (nb + m ≤ 12)%nat ∨ m = 0%nat) by (unfold m, direct; destruct (Nat.ltb_spec nb 12); lia).
  assert (Hm12 : (12 ≤ nb + m)%nat) by (unfold m, direct; destruct (Nat.ltb_spec nb 12); lia).
  assert (Hmc : (m < cnt)%nat) by (unfold m, direct; destruct (Nat.ltb_spec nb 12); lia).
  unfold hand_out. run_with Hrun1. cbv beta iota. rewrite Nat2Z.id.
  destruct (Z.leb_spec (Z.of_nat (cnt - m)) 0); [lia|].
  set (d1 := set_dblocks d (splice nb (take m l) (dblocks d))).
  set (ib := new_ind d nb cnt l).
  assert (Hib : 0 ≤ ib < N ∧ ib ∉ take cnt l).
  { unfold ib, new_ind. destruct (Nat.leb_spec nb 12) as [Hle|Hgt].
    - assert (Hlk : l !! cnt = Some (nth cnt l 0)) by (apply nth_lookup_lt; lia).
      split; [by eapply (Forall_lookup_1 _ _ _ _ Hdev)|]. intros (j & Hj)%list_elem_of_lookup.
      apply lookup_take_Some in Hj as [Hj Hlt]. assert (j = cnt) by (by eapply NoDup_lookup). lia.
    - destruct (Hind Hgt) as [? Hn]. split; [done|]. intros Hx. apply Hn. by eapply elem_of_take_incl. }
  destruct Hib as [Hib Hibl].
  assert (Hd2 : ∃ ind2, (if Z.of_nat (nb + m - 12) =? 0 then
             x ← deref (head (drop cnt l)); mret (set_indblock d1 x, tail (drop cnt l))
           else mret (d1, drop cnt l)) s1 = Ok ((set_indblock d1 ib, ind2), s1)).
  { unfold ib, new_ind. destruct (Z.eqb_spec (Z.of_nat (nb + m - 12)) 0), (Nat.leb_spec nb 12).
    - assert (Hlk : l !! cnt = Some (nth cnt l 0)) by (apply nth_lookup_lt; lia).
      rewrite (drop_S _ _ _ Hlk). eexists. reflexivity.
    - lia.
    - destruct Hm; lia.
    - eexists. by destruct d. }
  destruct Hd2 as [ind2 Hd2]. run_with Hd2. cbv beta iota. cbn [indblock set_indblock].
  destruct (indblock_children_ok N (zeroed v (take m l)) s1 ib (drop m l)
              (Z.of_nat (nb + m - 12)) (Z.of_nat (cnt - m)))
    as (s2 & v2 & Hrun2 & Hs2 & Ho2 & Hv2 & Hw2); try done; try lia.
  { rewrite length_drop. lia. }
  { by apply Forall_drop. }
  run_with Hrun2. cbv beta iota. cbn [Z.leb Z.compare]. rewrite !Nat2Z.id in *.
  eexists s2, _, _. split; [reflexivity|]. split; [exact Hs2|].
  split; [by eapply only_store_trans|].
  destruct (wf_splice_dblocks N d nb m l) as [Hl12 Hu]; [done..|lia|].
  set (v' := zeroed v2 (take (cnt - m) (drop m l))).
  assert (Esplit : take cnt l = take m l ++ take (cnt - m) (drop m l)).
  { rewrite take_take_drop. f_equal. lia. }
  assert (Hwords : words v' ib = splice (nb + m - 12) (take (cnt - m) (drop m l)) (words v ib)).
  { transitivity (words v2 ib); [|rewrite Hw2; f_equal].
    - unfold words, v'. rewrite zeroed_out; [done|]. intros Hx. apply Hibl. rewrite Esplit.
      apply elem_of_app. by right.
    - unfold words. rewrite zeroed_out; [done|]. intros Hx. apply Hibl. rewrite Esplit.
      apply elem_of_app. by left. }
  assert (Hwl : length (words v ib) = 128%nat) by (by eapply words_len).
  assert (Hll : length (take (cnt - m) (drop m l)) = (cnt - m)%nat)
    by (rewrite length_take, length_drop; lia).
  assert (Hnew : ∀ k, (k < nb + cnt)%nat →
    fsec v' (set_indblock d1 ib) k = if (k <? nb)%nat then fsec v d k else nth (k - nb) l 0).
  { intros k Hk. destruct (Nat.lt_ge_cases k 12) as [H12|H12].
    - rewrite !fsec_direct by done. cbn [dblocks set_indblock set_dblocks d1].
      apply (nth_new_dblocks d nb cnt l k); (done || lia).
    - rewrite !fsec_indirect by lia. cbn [indblock set_indblock]. rewrite Hwords, nth_splice by lia.
      rewrite Hll. destruct (Nat.ltb_spec (k - 12) (nb + m - 12)), (Nat.ltb_spec k nb).
      + unfold ib, new_ind. by destruct (Nat.leb_spec nb 12); [lia|].
      + lia.
      + destruct Hm; lia.
      + destruct (Nat.ltb_spec (k - 12) (nb + m - 12 + (cnt - m))); [|lia].
        rewrite nth_take_drop by lia. f_equal. lia. }
  split.
  - apply data_sectors_app; [intros k Hk|intros j Hj|lia]; rewrite Hnew by lia.
    + by destruct (Nat.ltb_spec k nb); [|lia].
    + destruct (Nat.ltb_spec (nb + j) nb); [lia|]. f_equal. lia.
  - rewrite !index_sectors_small by lia. destruct (Nat.leb_spec (nb + cnt) 12); [lia|].
    cbn [indblock set_indblock]. unfold ib, new_ind. destruct (Nat.leb_spec nb 12).
    + rewrite (drop_S l (nth cnt l 0) cnt) by (apply nth_lookup_lt; lia).
      by rewrite drop_ge by lia.
    + by rewrite drop_ge by lia.
  - intros x Hx Hxi. unfold v'. rewrite zeroed_out.
    + rewrite Hv2; [apply zeroed_out|].
      * intros Hin. apply Hx. by eapply elem_of_take_incl.
      * intros ->. unfold ib, new_ind in Hx, Hxi. rewrite index_sectors_small in Hxi by lia.
        destruct (Nat.leb_spec nb 12); [|by apply Hxi, list_elem_of_singleton].
        apply Hx. eapply list_elem_of_lookup_2, nth_lookup_lt. lia.
    + intros Hin. apply Hx. by eapply elem_of_drop_incl, elem_of_take_incl.
  - intros x Hx. rewrite Esplit, elem_of_app in Hx. unfold v'.
    destruct (decide (x ∈ take (cnt - m) (drop m l))); [by apply zeroed_in|].
    destruct Hx as [Hx|Hx]; [|done]. rewrite zeroed_out by done. rewrite Hv2; [by apply zeroed_in|].
    intros ->. apply Hibl. rewrite Esplit. apply elem_of_app. by left.
  - done.
  - apply (wf_disk_pointers d); try done. cbn [indblock set_indblock]. unfold in_u32. lia.
Qed.
End hand_out.
