(* ===== verification/FileGrow.v ===== *)
(** * [inode_write_at]: growing and writing a file

    Puts together allocation, growth, the write-back of the inode and the
    write loop: a write beyond the end of a file of up to 140 blocks pads it
    with zeros and writes the bytes; no other file changes. *)
From S2P Require Import Prelude CInt Bitmap Bytes Block Cache Inode InodeSpec InodeWrite FsInv FreeMapSpec InodeExtend.
Import Inode.

Open Scope Z_scope.

(** The largest file without a doubly indirect block. *)
Definition SMALL_LENGTH : Z := 140 * 512.

Definition blocks_for (len : Z) : nat := Z.to_nat (DIV_ROUND_UP len 512).
Definition indirect_for (len : Z) : nat := if (blocks_for len <=? 12)%nat then 0%nat else 1%nat.
(** Sectors to allocate when a file of [len] bytes grows to [new]. *)
Definition needed (len new : Z) : nat :=
  ((blocks_for new - blocks_for len) + (indirect_for new - indirect_for len))%nat.

Section sizes.
Lemma blocks_for_bound len : 0 ≤ len ≤ SMALL_LENGTH → (blocks_for len ≤ 140)%nat.
Proof.
  unfold SMALL_LENGTH, blocks_for. intros H.
  assert (DIV_ROUND_UP len 512 ≤ 140) by (apply DIV_ROUND_UP_spec; lia). lia.
Qed.

Lemma blocks_for_mono l1 l2 : 0 ≤ l1 ≤ l2 → (blocks_for l1 ≤ blocks_for l2)%nat.
Proof.
  intros H. unfold blocks_for. assert (H' := DIV_ROUND_UP_mono l1 l2 512 H ltac:(lia)).
  assert (0 ≤ DIV_ROUND_UP l1 512) by (apply DIV_ROUND_UP_nonneg; lia). lia.
Qed.

Lemma blocks_for_max len : 0 ≤ len ≤ MAX_LENGTH → Z.of_nat (blocks_for len) ≤ 16524.
Proof.
  unfold MAX_LENGTH, blocks_for. intros H.
  assert (DIV_ROUND_UP len 512 ≤ 16524) by (apply DIV_ROUND_UP_spec; lia). lia.
Qed.

Lemma data_sectors_for_max len :
  0 ≤ len ≤ MAX_LENGTH → bytes_to_data_sectors len = Z.of_nat (blocks_for len).
Proof.
  intros H. assert (Hb := blocks_for_max len H). unfold blocks_for, MAX_LENGTH in *.
  unfold bytes_to_data_sectors, BLOCK_SECTOR_SIZE. rewrite s32_id by (unfold in_s32; lia).
  change (Z.quot (len + 512 - 1) 512) with (DIV_ROUND_UP len 512).
  assert (0 ≤ DIV_ROUND_UP len 512) by (apply DIV_ROUND_UP_nonneg; lia).
  rewrite u32_id by (unfold in_u32; lia). lia.
Qed.

Lemma data_sectors_for len :
  0 ≤ len ≤ SMALL_LENGTH → bytes_to_data_sectors len = Z.of_nat (blocks_for len).
Proof. intros H. apply data_sectors_for_max. unfold SMALL_LENGTH, MAX_LENGTH in *. lia. Qed.

Lemma indirect_sectors_for len :
  0 ≤ len ≤ SMALL_LENGTH → bytes_to_indirect_sectors len = Z.of_nat (indirect_for len).
Proof.
  intros H. assert (Hb := blocks_for_bound len H). unfold bytes_to_indirect_sectors, indirect_for.
  rewrite data_sectors_for by done. unfold INODE_NUM_DBLOCKS, INDBLOCK_NUM_CHILDREN.
  destruct (Z.leb_spec (Z.of_nat (blocks_for len)) 12), (Nat.leb_spec (blocks_for len) 12);
    [done|lia|lia|].
  rewrite u32_id by (unfold in_u32; lia).
  destruct (Z.leb_spec (Z.of_nat (blocks_for len) - 12) 128); [done|lia].
Qed.

Lemma indirect_for_mono l1 l2 : 0 ≤ l1 ≤ l2 → (indirect_for l1 ≤ indirect_for l2)%nat.
Proof.
  intros H%blocks_for_mono. unfold indirect_for.
  destruct (Nat.leb_spec (blocks_for l1) 12), (Nat.leb_spec (blocks_for l2) 12); lia.
Qed.

(** The counts [inode_disk_extend] computes. *)
Lemma extend_counts len new :
  0 ≤ len ≤ new → new ≤ SMALL_LENGTH →
  let data := u32 (bytes_to_data_sectors new - bytes_to_data_sectors len) in
  data = Z.of_nat (blocks_for new - blocks_for len) ∧
  u32 (data + u32 (bytes_to_indirect_sectors new - bytes_to_indirect_sectors len))
  = Z.of_nat (needed len new).
Proof.
  intros H Hn data. assert (Hm := blocks_for_mono len new H). assert (Hi := indirect_for_mono len new H).
  assert (Hb := blocks_for_bound new ltac:(lia)).
  assert (Hib : (indirect_for new ≤ 1)%nat) by (unfold indirect_for; destruct (_ <=? _)%nat; lia).
  assert (Hd : data = Z.of_nat (blocks_for new - blocks_for len)).
  { unfold data. rewrite !data_sectors_for by lia. rewrite u32_id by (unfold in_u32; lia). lia. }
  split; [done|]. rewrite Hd, !indirect_sectors_for by lia.
  rewrite (u32_id (Z.of_nat (indirect_for new) - _)) by (unfold in_u32; lia).
  rewrite u32_id by (unfold in_u32; lia). unfold needed. lia.
Qed.
End sizes.

Section extend.
Context {S : Type} `{!SectorStore S}.
Implicit Types (s : fs S) (v : Z → list Z) (d : inode_disk) (live : gset Z).

Lemma set_length_pointers v d n k :
  data_sectors v (set_length d n) k = data_sectors v d k ∧
  index_sectors v (set_length d n) k = index_sectors v d k.
Proof. done. Qed.

Lemma wf_set_length d n : wf_disk d → 0 ≤ n ≤ MAX_LENGTH → wf_disk (set_length d n).
Proof. intros [] Hn. by split. Qed.

(** Growth without new blocks. *)
Lemma grown_refl N v d nb : wf_disk d → grown N v d nb 0 [] v d.
Proof.
  intros Hd. split; try done.
  - by rewrite Nat.add_0_r, app_nil_r.
  - by rewrite Nat.add_0_r, app_nil_r.
  - intros x Hx. by apply elem_of_nil in Hx.
Qed.

(** [l] may be handed out: distinct sectors of the device that no inode owns. *)
Record fresh_list (N : Z) v live (l : list Z) : Prop := FreshList {
  fl_nodup : NoDup l;
  fl_dev : in_dev N l;
  fl_fresh x sec : x ∈ l → sec ∈ live → x ∉ owned v sec;
}.

Lemma inode_disk_extend_ok depth N v s live sec new :
  let d := disk v sec in let len := i_length d in
  fs_ok N v s live → sec ∈ live → len ≤ new ≤ SMALL_LENGTH →
  (needed len new ≤ length (free_sectors (free_map s) 0 (Z.to_nat N)))%nat →
  ∃ s1 v1 b' l s' v' d',
    inode_disk_extend (inode_write_at_rec (Datatypes.S depth)) d new s = Ok ((true, d'), s') ∧
    l = take (needed len new) (free_sectors (free_map s) 0 (Z.to_nat N)) ∧
    fs_ok N v1 s1 live ∧ only_store (set_free_map b' s) s1 ∧ marked (free_map s) b' l ∧
    (free_map_file s ≠ None → synced v s → synced v1 s1) ∧ map_written v s v1 live ∧
    fresh_list N v1 live l ∧ only_store s1 s' ∧ sees N v' s' ∧
    grown N v1 (set_length (disk v1 sec) new) (blocks_for len) (blocks_for new - blocks_for len) l v' d'.
Proof.
  intros d len Hok Hsec Hnew Hneed.
  assert (Hin := lo_inode _ _ _ (fo_live _ _ _ _ Hok) sec Hsec).
  assert (Hwf := iok_wf _ _ _ Hin). fold d in Hwf.
  assert (Hlen := wf_length d Hwf). fold len in Hlen.
  assert (HN := fo_size _ _ _ _ Hok).
  rewrite inode_disk_extend_hand_out. fold len. destruct (Z.ltb_spec new len); [lia|].
  destruct (extend_counts len new) as [Ed Ec]; [lia..|]. cbv zeta in *. rewrite Ec, Ed.
  rewrite data_sectors_for by lia.
  assert (Hwf' : wf_disk (set_length d new)).
  { apply wf_set_length; [done|]. unfold SMALL_LENGTH, MAX_LENGTH in *. lia. }
  destruct (Z.eqb_spec (Z.of_nat (needed len new)) 0) as [E0|E0].
  { exists s, v, (free_map s), [], s, v, (set_length d new). rewrite set_free_map_id.
    split_and!; try done; try apply only_store_refl.
    - by replace (needed len new) with 0%nat by lia.
    - by apply marked_refl, (fo_map _ _ _ _ Hok).
    - split; [by apply NoDup_nil|by apply Forall_nil|]. intros x ? Hx. by apply elem_of_nil in Hx.
    - apply Hok.
    - replace (blocks_for new - blocks_for len)%nat with 0%nat by (unfold needed in E0; lia).
      by apply grown_refl. }
  destruct (free_map_allocate_ok depth N v s live (Z.of_nat (needed len new)) Hok)
    as (s1 & v1 & b' & Hrun & Hok1 & Ho1 & Hm & Hsy & Hmw); [lia|lia|].
  run_with Hrun. rewrite Nat2Z.id in *.
  set (l := take (needed len new) (free_sectors (free_map s) 0 (Z.to_nat N))) in *.
  destruct (mw_shape _ _ _ _ Hmw sec Hsec) as [Ed1 Eo1].
  assert (Hfl : fresh_list N v1 live l).
  { split.
    - apply take_NoDup, free_sectors_NoDup.
    - apply Forall_forall. intros x Hx%elem_of_take_incl. apply free_sectors_elem in Hx as [Hx _]. lia.
    - intros x sec' Hx%elem_of_take_incl Hs'. destruct (mw_shape _ _ _ _ Hmw sec' Hs') as [_ ->].
      by eapply free_sectors_fresh. }
  assert (Hll : length l = needed len new) by (unfold l; rewrite length_take; lia).
  assert (Hb := blocks_for_mono len new ltac:(lia)). assert (Hb' := blocks_for_bound new ltac:(lia)).
  assert (Hs1 := fo_sees _ _ _ _ Hok1).
  set (nb := blocks_for len) in *. set (cnt := (blocks_for new - nb)%nat) in *.
  assert (Hcnt : (0 < cnt)%nat).
  { unfold needed, indirect_for in E0. fold nb in E0.
    destruct (Nat.leb_spec (blocks_for new) 12), (Nat.leb_spec nb 12); lia. }
  assert (Hgrow : ∃ s' v' d', hand_out (set_length d new) l (Z.of_nat nb) (Z.of_nat cnt) s1
                  = Ok ((true, d'), s') ∧ sees N v' s' ∧ only_store s1 s' ∧
                  grown N v1 (set_length d new) nb cnt l v' d').
  { unfold needed, indirect_for in Hll. fold nb cnt in Hll.
    destruct (Nat.leb_spec (blocks_for new) 12).
    - apply hand_out_direct; try done; try lia. apply Hfl.
    - apply hand_out_indirect; try done; try lia.
      + destruct (Nat.leb_spec nb 12); lia.
      + apply Hfl.
      + apply Hfl.
      + intros H12. assert (Hi : indblock d ∈ owned v1 sec).
        { rewrite Eo1. right. apply elem_of_app. left. by apply indblock_index. }
        split.
        * apply (iok_range N v1 sec); [|done]. by apply (lo_inode _ _ _ (fo_live _ _ _ _ Hok1)).
        * intros Hx. by eapply (fl_fresh _ _ _ _ Hfl). }
  destruct Hgrow as (s' & v' & d' & Hrun' & Hs' & Ho' & Hg).
  exists s1, v1, b', l, s', v', d'. rewrite Ed1. split_and!; try done. intros Hf _. by apply Hsy.
Qed.
End extend.

(** ** After the inode has been written back *)
Section put_grown.
Context {S : Type} `{!SectorStore S}.
Implicit Types (s : fs S) (v : Z → list Z) (d : inode_disk) (live : gset Z).

Variables (N : Z) (v1 v' : Z → list Z) (live : gset Z) (sec new : Z) (l : list Z) (d' : inode_disk).
Let d := disk v1 sec.
Let len := i_length d.
Let nb := blocks_for len.
Let cnt := (blocks_for new - nb)%nat.
Let v2 := upd v' sec (encode d').
Hypothesis Hlive : live_ok N v1 live.
Hypothesis Hsec : sec ∈ live.
Hypothesis Hnew : len ≤ new.
Hypothesis Hfl : fresh_list N v1 live l.
Hypothesis Hcl : (cnt ≤ length l)%nat.
Hypothesis Hg : grown N v1 (set_length d new) nb cnt l v' d'.

Let Hin : inode_ok N v1 sec := lo_inode _ _ _ Hlive sec Hsec.
Let idx := index_sectors v1 d nb.
Let dat := data_sectors v1 d nb.

Lemma put_len : 0 ≤ len.
Proof. apply (wf_length _ (iok_wf _ _ _ Hin)). Qed.

Lemma put_nblocks : nblocks d' = (nb + cnt)%nat.
Proof.
  destruct (gr_header _ _ _ _ _ _ _ _ Hg) as [E _]. unfold nblocks. rewrite E.
  assert (H := blocks_for_mono len new (conj put_len Hnew)). unfold cnt, nb, blocks_for in *. simpl. lia.
Qed.

Lemma put_owned_eq : owned v1 sec = sec :: idx ++ dat.
Proof. done. Qed.

Lemma put_sec_fresh x : x ∈ idx ++ dat ++ l → x ≠ sec.
Proof.
  intros Hx ->. assert (Hnd := iok_nodup _ _ _ Hin). rewrite put_owned_eq in Hnd.
  apply NoDup_cons in Hnd as [Hn _]. rewrite (assoc_L (++)), elem_of_app in Hx.
  destruct Hx as [Hx|Hx]; [done|]. eapply (fl_fresh _ _ _ _ Hfl); [done|exact Hsec|left].
Qed.

Lemma put_disk : disk v2 sec = d'.
Proof. apply disk_upd, (gr_wf _ _ _ _ _ _ _ _ Hg). Qed.

Lemma put_shape :
  index_sectors v2 d' (nblocks d') = idx ++ drop cnt l ∧
  data_sectors v2 d' (nblocks d') = dat ++ take cnt l.
Proof.
  rewrite put_nblocks.
  assert (Ei := gr_index _ _ _ _ _ _ _ _ Hg). assert (Ed := gr_data _ _ _ _ _ _ _ _ Hg).
  assert (Hloc : ∀ x, x ∈ index_sectors v' d' (nb + cnt) → v2 x = v' x).
  { intros x Hx. rewrite Ei in Hx. apply upd_ne, put_sec_fresh. apply elem_of_app in Hx as [Hx|Hx].
    - apply elem_of_app. by left.
    - rewrite !elem_of_app. right. right. by eapply elem_of_drop_incl. }
  rewrite (index_local v' v2), (data_local v' v2) by done. rewrite Ei, Ed. done.
Qed.

Lemma put_owned : owned v2 sec ≡ₚ owned v1 sec ++ l.
Proof.
  unfold owned at 1. rewrite put_disk. destruct put_shape as [-> ->]. rewrite put_owned_eq.
  rewrite <- (take_drop cnt l) at 3. solve_Permutation.
Qed.

Lemma put_inode_ok : inode_ok N v2 sec.
Proof.
  split.
  - rewrite put_disk. apply (gr_wf _ _ _ _ _ _ _ _ Hg).
  - intros x Hx. rewrite put_owned in Hx. apply elem_of_app in Hx as [Hx|Hx].
    + by apply (iok_range _ _ _ Hin).
    + apply (Forall_forall (λ x, 0 ≤ x < N) l); [apply Hfl|done].
  - rewrite put_owned. apply NoDup_app. split_and!; [apply Hin| |apply Hfl].
    intros x Hx Hxl. by eapply (fl_fresh _ _ _ _ Hfl).
Qed.

Lemma put_other m : m ∉ owned v1 sec → m ∉ l → v2 m = v1 m.
Proof.
  intros Hm Hml. rewrite put_owned_eq in Hm. apply not_elem_of_cons in Hm as [Hne Hm].
  unfold v2. rewrite upd_ne by done. apply (gr_other _ _ _ _ _ _ _ _ Hg); [done|].
  intros Hx. apply Hm, elem_of_app. by left.
Qed.

Lemma put_raw : raw v2 d' = raw v1 d ++ replicate (cnt * 512) 0.
Proof.
  unfold raw. destruct put_shape as [_ ->]. rewrite fmap_app, concat_app. f_equal.
  - f_equal. apply list_fmap_ext. intros k x Hx%list_elem_of_lookup_2. unfold v2.
    assert (Hnd := iok_nodup _ _ _ Hin). rewrite put_owned_eq in Hnd.
    apply NoDup_cons in Hnd as [_ Hnd]. apply NoDup_app in Hnd as (_ & Hdis & _).
    rewrite upd_ne by (apply put_sec_fresh; set_solver).
    apply (gr_other _ _ _ _ _ _ _ _ Hg).
    + intros Hxl. eapply (fl_fresh _ _ _ _ Hfl); [done|exact Hsec|]. rewrite put_owned_eq.
      right. apply elem_of_app. by right.
    + intros Hxi. by eapply Hdis.
  - rewrite <- concat_replicate. rewrite <- (length_take_le l cnt) at 2 by done.
    change (replicate 512 0) with zeros. rewrite <- concat_const. f_equal. apply list_fmap_ext.
    intros k x Hx%list_elem_of_lookup_2. unfold v2. rewrite upd_ne.
    + by apply (gr_zero _ _ _ _ _ _ _ _ Hg).
    + apply put_sec_fresh. rewrite !elem_of_app. right. right. by eapply elem_of_take_incl.
Qed.

Lemma put_contents :
  length (raw v1 d) = (512 * nb)%nat → zero_tail v1 sec →
  contents v2 sec = contents v1 sec ++ replicate (Z.to_nat new - Z.to_nat len) 0 ∧ zero_tail v2 sec.
Proof.
  intros Hr Ht. unfold zero_tail in Ht |- *. rewrite !contents_raw, put_disk, put_raw.
  destruct (gr_header _ _ _ _ _ _ _ _ Hg) as [El _]. rewrite El. cbn [i_length set_length].
  fold d in Ht |- *. fold len in Ht |- *.
  assert (Hlr : (Z.to_nat len ≤ 512 * nb)%nat) by apply (length_le_raw _ (iok_wf _ _ _ Hin)).
  assert (Hnr : (Z.to_nat new ≤ 512 * (nb + cnt))%nat).
  { rewrite <- put_nblocks. assert (H := length_le_raw _ (gr_wf _ _ _ _ _ _ _ _ Hg)).
    rewrite El in H. exact H. }
  apply Forall_zero_replicate in Ht. rewrite length_drop in Ht.
  rewrite <- (take_drop (Z.to_nat len) (raw v1 d)), Ht, <- !(assoc_L (++)), <- replicate_add.
  assert (Htl : length (take (Z.to_nat len) (raw v1 d)) = Z.to_nat len) by (rewrite length_take; lia).
  set (c := take (Z.to_nat len) (raw v1 d)) in *.
  replace (Z.to_nat new) with (length c + (Z.to_nat new - Z.to_nat len))%nat at 1 3
    by (pose proof put_len; lia).
  rewrite take_app_add, drop_app_add, drop_replicate.
  rewrite take_replicate. rewrite (take_app_length' c) by done.
  split; [|by apply Forall_replicate]. do 2 f_equal. lia.
Qed.
End put_grown.

(** ** The whole write *)
Section write_at.
Context {S : Type} `{!SectorStore S}.
Implicit Types (s : fs S) (v : Z → list Z) (live : gset Z).

(** The bytes of a file after [buf] has been written at [offset]. *)
Definition write_spec (old buf : list Z) (offset : nat) : list Z :=
  splice offset buf (old ++ replicate (offset + length buf - length old) 0).

(** An inode's header and its sectors are as before. *)
Definition same_shape v v' (sec : Z) : Prop := disk v' sec = disk v sec ∧ owned v' sec = owned v sec.
Lemma same_shape_trans v1 v2 v3 sec : same_shape v1 v2 sec → same_shape v2 v3 sec → same_shape v1 v3 sec.
Proof. unfold same_shape. intuition congruence. Qed.

(** [fs_ok] after a change to one inode that is not the free map's. *)
Lemma fs_ok_grow N v1 v2 s1 s2 live sec l :
  fs_ok N v1 s1 live → sec ∈ live → sec ≠ FREE_MAP_SECTOR ∨ free_map_file s1 = None →
  fresh_list N v1 live l → (∀ x, x ∈ l → Bitmap.bit (free_map s1) x = true) →
  sees N v2 s2 → only_store s1 s2 → inode_ok N v2 sec → zero_tail v2 sec →
  (∀ m, m ∉ owned v1 sec → m ∉ l → v2 m = v1 m) →
  (∀ x, x ∈ owned v2 sec → x ∈ owned v1 sec ∨ x ∈ l) →
  fs_ok N v2 s2 live ∧
  (∀ sec', sec' ∈ live → sec' ≠ sec → contents v2 sec' = contents v1 sec') ∧
  (∀ sec', sec' ∈ live → sec' ≠ sec → same_shape v1 v2 sec').
Proof.
  intros [Hs HN Hl [Hm Hc] Hu Hf] Hsec Hne Hfl Hbits Hs2 Ho Hi Ht Hoth Hown.
  destruct (live_ok_step N v1 v2 live sec l Hl Hsec) as [Hl2 Hsame]; try done.
  { intros x sec' Hx Hs'. by apply (fl_fresh _ _ _ _ Hfl). }
  destruct (only_store_fields _ _ Ho) as (E1 & E2 & E3 & E4 & E5 & E6).
  split; [|split; intros sec' Hs' Hne'; [by apply Hsame|split; by apply Hsame]].
  split; rewrite ?E1, ?E2; try done.
  - intros sec' x Hs' Hx. destruct (decide (sec' = sec)) as [->|Hne'].
    + destruct (Hown x Hx) as [Hx'|Hx']; [by apply (Hu sec)|by apply Hbits].
    + destruct (Hsame sec' Hs' Hne') as (_ & E & _). rewrite E in Hx. by apply (Hu sec').
  - intros fp Hfp. destruct (Hf fp Hfp) as (H0 & Hlen & f & i & H1 & H2 & H3 & H4).
    split; [done|]. assert (Hn0 : FREE_MAP_SECTOR ≠ sec) by (destruct Hne; congruence).
    destruct (Hsame _ H0 Hn0) as (-> & _ & _). split; [done|]. exists f, i. by rewrite E3, E5.
Qed.

(** The write loop, in terms of the invariant. *)
Lemma write_loop_fs_ok N v s live p i buffer size offset :
  let d := disk v (sector i) in
  fs_ok N v s live → inodes s !! p = Some i → sector i ∈ live →
  sector i ≠ FREE_MAP_SECTOR ∨ free_map_file s = None →
  0 ≤ size ≤ Z.of_nat (length buffer) → 0 ≤ offset → offset + size ≤ i_length d →
  ∃ s' v', write_loop (Datatypes.S (Z.to_nat size)) p d buffer size offset 0 s = Ok (size, s') ∧
    fs_ok N v' s' live ∧ only_store s s' ∧ disk v' (sector i) = d ∧
    contents v' (sector i) = splice (Z.to_nat offset) (take (Z.to_nat size) buffer) (contents v (sector i)) ∧
    (∀ sec', sec' ∈ live → sec' ≠ sector i → contents v' sec' = contents v sec') ∧
    (∀ sec', sec' ∈ live → sec' ≠ sector i → same_shape v v' sec').
Proof.
  intros d Hok Hp Hsec Hne Hsz Ho Hlen.
  assert (Hin := lo_inode _ _ _ (fo_live _ _ _ _ Hok) _ Hsec).
  assert (Hs := fo_sees _ _ _ _ Hok).
  destruct (write_loop_ok N p i buffer (Datatypes.S (Z.to_nat size)) s v size offset 0)
    as (s' & v' & Hrun & Hs' & Ho' & Hi' & How); [done..|lia|lia|fold d; lia|lia|lia|].
  rewrite drop_0 in How. fold d in How, Hrun.
  destruct (overwritten_owned _ _ _ _ (iok_nodup _ _ _ Hin) How) as [Ed Eo].
  destruct (overwritten_tail N v v' (sector i) (Z.to_nat offset) (take (Z.to_nat size) buffer))
    as [Ht Hcont]; [by eapply length_raw|done|rewrite length_take; fold d; lia|done
                   |by apply (lo_tail _ _ _ (fo_live _ _ _ _ Hok))|].
  destruct (fs_ok_grow N v v' s s' live (sector i) []) as (Hok' & Hsame & Hshape); try done.
  - split; [by apply NoDup_nil|by apply Forall_nil|]. intros x ? Hx. by apply elem_of_nil in Hx.
  - intros x Hx. by apply elem_of_nil in Hx.
  - intros m Hm _. apply (ow_other _ _ _ _ How). intros Hd. apply Hm. rewrite owned_meta.
    apply elem_of_app. by right.
  - intros x. rewrite Eo. by left.
  - exists s', v'. rewrite Z.add_0_l in Hrun. done.
Qed.

Lemma fs_ok_quiet N v s s' live : fs_ok N v s live → sees N v s' → only_store s s' → fs_ok N v s' live.
Proof.
  intros [Hs HN Hl Hm Hu Hf] Hs' Ho. destruct (only_store_fields _ _ Ho) as (E1 & E2 & E3 & _ & E5 & _).
  split; rewrite ?E1, ?E2, ?E3, ?E5; done.
Qed.

(** The objects in memory are the same; the store and the map may differ. *)
Definition same_heap s s' : Prop :=
  free_map_file s' = free_map_file s ∧ inodes s' = inodes s ∧ open_inodes s' = open_inodes s ∧
  files s' = files s ∧ next s' = next s.

Lemma same_heap_refl s : same_heap s s.
Proof. done. Qed.
Lemma same_heap_trans s1 s2 s3 : same_heap s1 s2 → same_heap s2 s3 → same_heap s1 s3.
Proof. unfold same_heap. intuition congruence. Qed.
Lemma only_store_heap s s' : only_store s s' → same_heap s s'.
Proof. intros (_ & ? & ? & ? & ? & ?)%only_store_fields. done. Qed.
Lemma set_free_map_heap s b : same_heap s (set_free_map b s).
Proof. done. Qed.

(** What the first half of a write, up to the loop, achieves. *)
Record prepared N v s live sec new v2 s2 : Prop := Prepared {
  pr_ok : fs_ok N v2 s2 live;
  pr_length : i_length (disk v2 sec) = Z.max (i_length (disk v sec)) new;
  pr_contents : contents v2 sec
    = contents v sec ++ replicate (Z.to_nat new - Z.to_nat (i_length (disk v sec))) 0;
  pr_others sec' : sec' ∈ live → sec' ≠ sec → sec' ≠ FREE_MAP_SECTOR → contents v2 sec' = contents v sec';
  pr_synced : free_map_file s ≠ None → synced v s → synced v2 s2;
  pr_heap : same_heap s s2;
  pr_shape sec' : sec' ∈ live → sec' ≠ sec → same_shape v v2 sec';
  pr_dir : i_is_dir (disk v2 sec) = i_is_dir (disk v sec);
  pr_free : free_sectors (free_map s2) 0 (Z.to_nat N)
    = drop (needed (i_length (disk v sec)) new) (free_sectors (free_map s) 0 (Z.to_nat N));
}.

Lemma extend_put_ok depth N v s live sec new :
  let d := disk v sec in
  fs_ok N v s live → sec ∈ live → sec ≠ FREE_MAP_SECTOR → 0 ≤ new ≤ SMALL_LENGTH →
  (needed (i_length d) new ≤ length (free_sectors (free_map s) 0 (Z.to_nat N)))%nat →
  ∃ ok d2 s1 s2 v2,
    inode_disk_extend (inode_write_at_rec (Datatypes.S depth)) d new s = Ok ((ok, d2), s1) ∧
    (if ok : bool then cache_write sec (encode d2) else mret tt) s1 = Ok (tt, s2) ∧
    disk v2 sec = d2 ∧ prepared N v s live sec new v2 s2.
Proof.
  intros d Hok Hsec Hne Hnew Hneed.
  assert (Hin := lo_inode _ _ _ (fo_live _ _ _ _ Hok) _ Hsec).
  destruct (Z.lt_ge_cases new (i_length d)) as [Hlt|Hge].
  { exists false, d, s, s, v. split_and!; [|done|done|].
    - unfold inode_disk_extend. by destruct (Z.ltb_spec new (i_length d)); [|lia].
    - split; try done.
      + fold d. lia.
      + fold d. replace (Z.to_nat new - Z.to_nat (i_length d))%nat with 0%nat by lia.
        by rewrite app_nil_r.
      + fold d. assert (Hb := blocks_for_mono new (i_length d) ltac:(lia)).
        replace (needed (i_length d) new) with 0%nat; [done|]. unfold needed, indirect_for.
        destruct (Nat.leb_spec (blocks_for new) 12), (Nat.leb_spec (blocks_for (i_length d)) 12); lia. }
  destruct (inode_disk_extend_ok depth N v s live sec new Hok Hsec) as
    (s1 & v1 & b' & l & s2 & v' & d' & Hrun & El & Hok1 & Ho1 & Hm & Hsy & Hmw & Hfl & Ho2 & Hs2 & Hg);
    [fold d; lia|done|].
  destruct (mw_shape _ _ _ _ Hmw sec Hsec) as [Ed1 Eo1]. fold d in Ed1, Hg.
  rewrite <- Ed1 in Hg, Hge.
  assert (Hin1 := lo_inode _ _ _ (fo_live _ _ _ _ Hok1) _ Hsec).
  assert (Hwf' := gr_wf _ _ _ _ _ _ _ _ Hg).
  destruct (sees_write N v' s2 sec (encode d') Hs2 (inode_ok_sector _ _ _ Hin))
    as (s3 & Hrun3 & Hs3 & Ho3); [by apply length_encode|].
  assert (Hcl : (blocks_for new - blocks_for (i_length (disk v1 sec)) ≤ length l)%nat).
  { assert (E := gr_data _ _ _ _ _ _ _ _ Hg). apply (f_equal length) in E.
    unfold data_sectors in E. rewrite length_app, !length_fmap, !length_seq, length_take in E. lia. }
  set (v2 := upd v' sec (encode d')) in *.
  assert (Hlive1 := fo_live _ _ _ _ Hok1).
  destruct (put_contents N v1 v' live sec new l d' Hlive1 Hsec Hge Hfl Hcl Hg) as [Hcont Htail];
    [by eapply length_raw, Hin1; apply Hok1|by apply (lo_tail _ _ _ Hlive1)|]. fold v2 in Hcont, Htail.
  assert (Hb' : ∀ x, x ∈ l → Bitmap.bit (free_map s1) x = true).
  { intros x Hx. rewrite Ho1. cbn [free_map set_store set_free_map].
    destruct Hm as (_ & Hc & Hb). rewrite Hb; [rewrite bool_decide_true by done; apply orb_true_r|].
    destruct (fo_map _ _ _ _ Hok) as [_ ->].
    by apply (Forall_forall (λ x, 0 ≤ x < N) l); [apply Hfl|]. }
  assert (Ho13 := only_store_trans _ _ _ Ho2 Ho3).
  destruct (fs_ok_grow N v1 v2 s1 s3 live sec l) as (Hok3 & Hsame & Hshape); try done; [by left|..].
  { by apply (put_inode_ok N v1 v' live sec new l d'). }
  { by apply (put_other N v1 v' sec new l d'). }
  { assert (Hpo : owned v2 sec ≡ₚ owned v1 sec ++ l) by (by apply (put_owned N v1 v' live sec new l d')).
    intros x Hx. rewrite Hpo in Hx. by apply elem_of_app. }
  assert (Hd2 : disk v2 sec = d') by (by apply (put_disk N v1 v' sec new l d')).
  exists true, d', s2, s3, v2. split_and!; [done..|].
  destruct (only_store_fields _ _ Ho13) as (E1 & E2 & E3 & E4 & E5 & E6).
  destruct (only_store_fields _ _ Ho1) as (F1 & F2 & F3 & F4 & F5 & F6).
  split; try done.
  - rewrite Hd2.
    destruct (gr_header _ _ _ _ _ _ _ _ Hg) as [-> _]. rewrite Ed1 in Hge. cbn [i_length set_length].
    change (new = Z.max (i_length d) new). lia.
  - rewrite Hcont, Ed1. by rewrite (mw_contents _ _ _ _ Hmw) by done.
  - intros sec' Hs' Hn1 Hn2. rewrite Hsame by done. by apply (mw_contents _ _ _ _ Hmw).
  - intros Hf Hsv. specialize (Hsy Hf Hsv). unfold synced in *. rewrite E1, <- Hsy.
    destruct (free_map_file s) as [fp|] eqn:Efp; [|done].
    apply Hsame; [|done]. by apply (fo_file _ _ _ _ Hok fp).
  - eapply same_heap_trans, only_store_heap, Ho13.
    by eapply same_heap_trans, only_store_heap, Ho1.
  - intros sec' Hs' Hn. eapply same_shape_trans; [|by apply Hshape]. by apply (mw_shape _ _ _ _ Hmw).
  - rewrite Hd2. destruct (gr_header _ _ _ _ _ _ _ _ Hg) as (_ & -> & _). cbn [i_is_dir set_length]. by rewrite Ed1.
  - rewrite E1, F1. cbn [free_map set_free_map]. apply free_sectors_taken; [|by rewrite <- El].
    destruct (fo_map _ _ _ _ Hok) as [_ ->]. assert (HN := fo_size _ _ _ _ Hok). lia.
Qed.
End write_at.

(** A write to a file of up to 140 blocks, with enough free sectors. *)
Lemma inode_write_at_ok {S} `{!SectorStore S} (s : fs S) N v live p i buffer size offset :
  let sec := sector i in let len := i_length (disk v sec) in
  fs_ok N v s live → inodes s !! p = Some i → sec ∈ live →
  sec ≠ FREE_MAP_SECTOR → deny_write_cnt i = 0 →
  0 ≤ size ≤ Z.of_nat (length buffer) → 0 ≤ offset → offset + size ≤ SMALL_LENGTH →
  (needed len (offset + size) ≤ length (free_sectors (free_map s) 0 (Z.to_nat N)))%nat →
  (free_map_file s ≠ None → synced v s) →
  ∃ s' v', inode_write_at p buffer size offset s = Ok (size, s') ∧ fs_ok N v' s' live ∧
    i_length (disk v' sec) = Z.max len (offset + size) ∧ same_heap s s' ∧
    contents v' sec = write_spec (contents v sec) (take (Z.to_nat size) buffer) (Z.to_nat offset) ∧
    (∀ sec', sec' ∈ live → sec' ≠ sec → sec' ≠ FREE_MAP_SECTOR → contents v' sec' = contents v sec') ∧
    (free_map_file s ≠ None → synced v' s') ∧
    (∀ sec', sec' ∈ live → sec' ≠ sec → same_shape v v' sec') ∧ i_is_dir (disk v' sec) = i_is_dir (disk v sec) ∧
    free_sectors (free_map s') 0 (Z.to_nat N)
      = drop (needed len (offset + size)) (free_sectors (free_map s) 0 (Z.to_nat N)).
Proof.
  intros sec len Hok Hp Hsec Hne Hdeny Hsz Ho Hmax Hneed Hsync.
  assert (Hs := fo_sees _ _ _ _ Hok).
  assert (Hin := lo_inode _ _ _ (fo_live _ _ _ _ Hok) _ Hsec).
  assert (Hlen := wf_length _ (iok_wf _ _ _ Hin)). fold len in Hlen.
  assert (Hlc : length (contents v sec) = Z.to_nat len)
    by (eapply length_contents; [done|by apply inode_ok_file]).
  unfold inode_write_at. cbn [inode_write_at_rec]. run_with (get_inode_ok _ _ _ Hp).
  rewrite Hdeny. cbn [Z.eqb negb].
  destruct (inode_get_data_ok N v s p i Hs Hp (inode_ok_sector _ _ _ Hin)) as (s0 & Hrun0 & Hs0 & Ho0).
  run_with Hrun0. fold sec. rewrite s32_id by (unfold in_s32, SMALL_LENGTH in *; lia).
  assert (Hok0 := fs_ok_quiet _ _ _ _ _ Hok Hs0 Ho0).
  destruct (only_store_fields _ _ Ho0) as (E1 & E2 & E3 & _).
  destruct (extend_put_ok 0 N v s0 live sec (offset + size) Hok0 Hsec Hne) as
    (ok & d2 & s1 & s2 & v2 & Hrun1 & Hrun2 & Ed & [Hok2 Hl2 Hc2 Hoth2 Hsy2 Hh2 Hsh2 Hdir2 Hfr2]);
    [lia|by rewrite E1|].
  run_with Hrun1. cbv beta iota. run_with Hrun2. rewrite <- Ed.
  destruct (write_loop_fs_ok N v2 s2 live p i buffer size offset Hok2)
    as (s3 & v3 & Hrun3 & Hok3 & Ho3 & Ed3 & Hc3 & Hsame3 & Hshape3); try done.
  { destruct Hh2 as (_ & -> & _). by rewrite E3. }
  { by left. }
  { fold sec. lia. }
  exists s3, v3. split; [exact Hrun3|]. split; [done|]. fold sec in Ed3, Hc3, Hsame3, Hshape3. split_and!.
  - by rewrite Ed3, Hl2.
  - eapply same_heap_trans; [apply only_store_heap, Ho0|]. eapply same_heap_trans; [exact Hh2|].
    by apply only_store_heap.
  - rewrite Hc3, Hc2. unfold write_spec. fold len. do 3 f_equal. rewrite Hlc, length_take. lia.
  - intros sec' Hs' Hn1 Hn2. rewrite Hsame3 by done. by apply Hoth2.
  - rewrite E2 in Hsy2. intros Hf. specialize (Hsync Hf).
    assert (Hsy : synced v2 s2) by (apply Hsy2; [done|]; unfold synced in *; by rewrite E1).
    unfold synced in *. destruct (only_store_fields _ _ Ho3) as (-> & _). rewrite <- Hsy.
    destruct (free_map_file s) as [fp|] eqn:Efp; [|done].
    apply Hsame3; [|done]. by apply (fo_file _ _ _ _ Hok fp).
  - intros sec' Hs' Hn. eapply same_shape_trans; [by apply Hsh2|by apply Hshape3].
  - by rewrite Ed3.
  - destruct (only_store_fields _ _ Ho3) as (-> & _). rewrite Hfr2. by rewrite E1.
Qed.
