(* ===== verification/File.v ===== *)
(** * Open files and the free map's file: [src/pintos/filesys/file.c] and the
    rest of [src/pintos/filesys/free-map.c]

    A [struct file] is an inode and a position; the functions are those of
    [file.c] on the heap of files.  [FreeMap] has the functions that create
    and open the file the free map is kept in. *)
From S2P Require Import Prelude CInt Bitmap Bytes Block Cache Inode InodeSpec InodeWrite FsInv.
Import Inode.

Open Scope Z_scope.

Module File.
Section ops.
Context {S : Type} `{!SectorStore S}.
Abbreviation M := (ST (fs S)).

Definition get_file (fp : nat) : M file := s ← get; deref (files s !! fp).
Definition put_file (fp : nat) (f : file) : M unit :=
  s ← get; put (set_files (<[fp := f]> (files s)) s).

(** [file_open] when its allocation succeeds. *)
Definition file_open (p : option nat) : M (option nat) :=
  match p with
  | Some p =>
    s ← get;
    let fp := next s in
    put (Fs (store s) (free_map s) (free_map_file s) (inodes s) (open_inodes s)
           (<[fp := MkFile p 0 false]> (files s)) (Datatypes.S fp)) ;;
    mret (Some fp)
  | None => inode_close inode_write_at None ;; mret None
  end.

Definition file_reopen (fp : nat) : M (option nat) :=
  f ← get_file fp;
  p ← inode_reopen (Some (file_inode f));
  file_open p.

Definition file_allow_write (fp : nat) : M unit :=
  f ← get_file fp;
  if deny_write f then
    put_file fp (MkFile (file_inode f) (pos f) false) ;;
    inode_allow_write (file_inode f)
  else mret tt.

Definition file_deny_write (fp : nat) : M unit :=
  f ← get_file fp;
  if negb (deny_write f) then
    put_file fp (MkFile (file_inode f) (pos f) true) ;;
    inode_deny_write (file_inode f)
  else mret tt.

Definition file_close (fp : option nat) : M unit :=
  match fp with
  | None => mret tt
  | Some fp =>
    file_allow_write fp ;;
    f ← get_file fp;
    inode_close inode_write_at (Some (file_inode f)) ;;
    modify (λ s, set_files (delete fp (files s)) s)
  end.

Definition file_get_inode (fp : nat) : M nat := f ← get_file fp; mret (file_inode f).

(** The result is the bytes read; the C result is their number. *)
Definition file_read (fp : nat) (size : Z) : M (list Z) :=
  f ← get_file fp;
  bytes ← inode_read_at (file_inode f) size (pos f);
  f ← get_file fp;
  put_file fp (MkFile (file_inode f) (s32 (pos f + Z.of_nat (length bytes))) (deny_write f)) ;;
  mret bytes.

Definition file_read_at (fp : nat) (size file_ofs : Z) : M (list Z) :=
  f ← get_file fp; inode_read_at (file_inode f) size file_ofs.

Definition file_write (fp : nat) (buffer : list Z) (size : Z) : M Z :=
  f ← get_file fp;
  bytes_written ← inode_write_at (file_inode f) buffer size (pos f);
  f ← get_file fp;
  put_file fp (MkFile (file_inode f) (s32 (pos f + bytes_written)) (deny_write f)) ;;
  mret bytes_written.

Definition file_write_at (fp : nat) (buffer : list Z) (size file_ofs : Z) : M Z :=
  f ← get_file fp; inode_write_at (file_inode f) buffer size file_ofs.

Definition file_length (fp : nat) : M Z := f ← get_file fp; inode_length (file_inode f).

Definition file_seek (fp : nat) (new_pos : Z) : M unit :=
  f ← get_file fp;
  ASSERT (0 <=? new_pos) ;;
  put_file fp (MkFile (file_inode f) new_pos (deny_write f)).

Definition file_tell (fp : nat) : M Z := f ← get_file fp; mret (pos f).
End ops.
End File.

Module FreeMap.
Import File.
Section ops.
Context {S : Type} `{!SectorStore S}.
Abbreviation M := (ST (fs S)).

(** [free_map_init]; [junk] is what the bitmap's allocation contains. *)
Definition free_map_init (sectors : Z) (junk : list Z) : M unit :=
  match Bitmap.bitmap_create sectors junk with
  | Ok b => modify (set_free_map b)
  | Err e => fail e
  end ;;
  with_free_map (Bitmap.bitmap_mark FREE_MAP_SECTOR) ;;
  with_free_map (Bitmap.bitmap_mark ROOT_DIR_SECTOR).

(** [bitmap_read (free_map, free_map_file)]: reads the words and clears the
    bits beyond the last sector. *)
Definition bitmap_read (fp : nat) : M bool :=
  s ← get;
  let cnt := Bitmap.bit_cnt (free_map s) in
  if 0 <? cnt then
    let size := s32 (Bitmap.byte_cnt cnt) in
    bytes ← file_read_at fp size 0;
    let old := Bitmap.bits (free_map s) in
    let ws := words_of_bytes (splice 0 bytes (bytes_of_words old)) in
    let last := Z.to_nat (Bitmap.elem_cnt cnt - 1) in
    w ← deref (ws !! last);
    modify (set_free_map
              (Bitmap.MkBitmap cnt (<[last := Z.land w (Bitmap.last_mask (free_map s))]> ws))) ;;
    mret (Z.of_nat (length bytes) =? size)
  else mret true.

(** [free_map_file = file_open (inode_open (FREE_MAP_SECTOR))] with its
    null check. *)
Definition open_map_file : M nat :=
  p ← inode_open FREE_MAP_SECTOR;
  fp ← file_open p;
  modify (set_free_map_file fp) ;;
  match fp with Some fp => mret fp | None => fail Panic end.

Definition free_map_open : M unit :=
  fp ← open_map_file;
  ok ← bitmap_read fp;
  if ok : bool then mret tt else fail Panic.

Definition free_map_close : M unit :=
  s ← get; file_close (free_map_file s).

Definition free_map_create : M unit :=
  s ← get;
  ok ← inode_create inode_write_at FREE_MAP_SECTOR (s32 (Bitmap.bitmap_file_size (free_map s))) false;
  (if ok : bool then mret tt else fail Panic) ;;
  open_map_file ;;
  ok ← bitmap_write inode_write_at;
  if ok : bool then mret tt else fail Panic.
End ops.
End FreeMap.
