(* ===== verification/FileSpec.v ===== *)
(** * The behaviour of open files

    Reads and writes through a [struct file]: the bytes, the position, and
    that a write can be read back. *)
From S2P Require Import Prelude CInt Bitmap Bytes Block Cache Inode InodeSpec InodeWrite FsInv FreeMapSpec InodeExtend FileGrow File.
Import Inode File.

Open Scope Z_scope.

Section files.
Context {S : Type} `{!SectorStore S}.
Implicit Types (s : fs S) (v : Z → list Z) (live : gset Z).

Lemma get_file_ok s fp f : files s !! fp = Some f → get_file fp s = Ok (f, s).
Proof. intros H. unfold get_file. erewrite run_bind_ok by reflexivity. by rewrite H. Qed.

Lemma put_file_ok s fp f : put_file fp f s = Ok (tt, set_files (<[fp := f]> (files s)) s).
Proof. reflexivity. Qed.

(** File [fp] is open on the live inode [i], at position [p]. *)
Record file_at s live fp (ip : nat) (i : inode) (p : Z) (dw : bool) : Prop := FileAt {
  fa_file : files s !! fp = Some (MkFile ip p dw);
  fa_inode : inodes s !! ip = Some i;
  fa_live : sector i ∈ live;
}.

(** Moving the position of a file other than the free map's. *)
Lemma fs_ok_move N v s live fp f :
  fs_ok N v s live → free_map_file s ≠ Some fp → fs_ok N v (set_files (<[fp := f]> (files s)) s) live.
Proof.
  intros [Hs HN Hl Hm Hu Hf] Hne. split; try done. intros fp' Hfp'. cbn [free_map_file set_files] in Hfp'.
  destruct (Hf fp' Hfp') as (H0 & Hlen & f' & i & H1 & H2). split; [done|]. split; [done|].
  exists f', i. split; [|done]. cbn [files set_files]. rewrite lookup_insert_ne by congruence. done.
Qed.

Lemma file_at_heap s s' live fp ip i p dw :
  same_heap s s' → file_at s live fp ip i p dw → file_at s' live fp ip i p dw.
Proof. intros (E1 & E2 & _ & E4 & _) []. by split; rewrite ?E2, ?E4. Qed.

Lemma file_at_moved s live fp ip i p dw p' :
  file_at s live fp ip i p dw →
  file_at (set_files (<[fp := MkFile ip p' dw]> (files s)) s) live fp ip i p' dw.
Proof. intros []. split; try done. by apply lookup_insert_eq. Qed.

(** Reading at the position, in terms of the invariant. *)
Lemma file_read_full N v s live fp ip i p dw size :
  let d := disk v (sector i) in
  fs_ok N v s live → file_at s live fp ip i p dw → free_map_file s ≠ Some fp →
  0 ≤ size → 0 ≤ p → p + size < 2 ^ 31 →
  p + size ≤ i_length d ∨ lookup_ok N v d (Z.to_nat (Z.max p (i_length d) / 512)) →
  let bytes := take (Z.to_nat size) (drop (Z.to_nat p) (contents v (sector i))) in
  ∃ s', file_read fp size s = Ok (bytes, s') ∧ fs_ok N v s' live ∧
    file_at s' live fp ip i (p + Z.of_nat (length bytes)) dw ∧
    free_map s' = free_map s ∧ inodes s' = inodes s ∧ free_map_file s' = free_map_file s.
Proof.
  intros d Hok Hfa Hne Hsz Hp Hps Heof bytes. destruct Hfa as [Hf Hi Hlive] eqn:E. clear E.
  assert (Hin := lo_inode _ _ _ (fo_live _ _ _ _ Hok) _ Hlive).
  destruct (inode_read_at_ok s N v ip i size p) as (s1 & Hrun1 & Hs1 & Ho1);
    [apply Hok|done|by apply (inode_ok_sector N v)|by apply inode_ok_file|done..|].
  unfold file_read. run_with (get_file_ok _ _ _ Hf). cbn [file_inode pos]. run_with Hrun1. fold bytes.
  assert (Hb : Z.of_nat (length bytes) ≤ size) by (unfold bytes; rewrite length_take; lia).
  assert (Hfa1 : file_at s1 live fp ip i p dw) by (eapply file_at_heap; [by apply only_store_heap|done]).
  run_with (get_file_ok _ _ _ (fa_file _ _ _ _ _ _ _ Hfa1)).
  erewrite run_bind_ok by apply put_file_ok. cbn [file_inode pos deny_write].
  rewrite s32_id by (unfold in_s32; lia). eexists. split; [reflexivity|].
  destruct (only_store_fields _ _ Ho1) as (E1 & E2 & E3 & _).
  split_and!; [|by eapply file_at_moved|done..].
  apply fs_ok_move; [by eapply fs_ok_quiet|congruence].
Qed.

Lemma file_read_ok N v s live fp ip i p dw size :
  let d := disk v (sector i) in
  fs_ok N v s live → file_at s live fp ip i p dw → free_map_file s ≠ Some fp →
  0 ≤ size → 0 ≤ p → p + size < 2 ^ 31 →
  p + size ≤ i_length d ∨ lookup_ok N v d (Z.to_nat (Z.max p (i_length d) / 512)) →
  let bytes := take (Z.to_nat size) (drop (Z.to_nat p) (contents v (sector i))) in
  ∃ s', file_read fp size s = Ok (bytes, s') ∧ fs_ok N v s' live ∧
    file_at s' live fp ip i (p + Z.of_nat (length bytes)) dw ∧
    free_map s' = free_map s ∧ inodes s' = inodes s.
Proof.
  intros d Hok Hfa Hne Hsz Hp Hps Heof. destruct (file_read_full N v s live fp ip i p dw size) as (s' & H1 & H2 & H3 & H4 & H5 & _); [done..|].
  by exists s'.
Qed.

Lemma file_seek_ok N v s live fp ip i p dw new_pos :
  fs_ok N v s live → file_at s live fp ip i p dw → free_map_file s ≠ Some fp → 0 ≤ new_pos →
  ∃ s', file_seek fp new_pos s = Ok (tt, s') ∧ fs_ok N v s' live ∧ file_at s' live fp ip i new_pos dw ∧
    free_map_file s' = free_map_file s.
Proof.
  intros Hok Hfa Hne Hp. unfold file_seek. run_with (get_file_ok _ _ _ (fa_file _ _ _ _ _ _ _ Hfa)).
  run_assert; [|by apply Z.leb_le]. rewrite put_file_ok. eexists. split; [reflexivity|].
  split_and!; [by apply fs_ok_move|by eapply file_at_moved|done].
Qed.

Lemma file_write_ok N v s live fp ip i p dw buffer size :
  let sec := sector i in
  fs_ok N v s live → file_at s live fp ip i p dw → free_map_file s ≠ Some fp →
  sec ≠ FREE_MAP_SECTOR → deny_write_cnt i = 0 →
  0 ≤ size ≤ Z.of_nat (length buffer) → 0 ≤ p → p + size ≤ SMALL_LENGTH →
  (needed (i_length (disk v sec)) (p + size) ≤ length (free_sectors (free_map s) 0 (Z.to_nat N)))%nat →
  (free_map_file s ≠ None → synced v s) →
  ∃ s' v', file_write fp buffer size s = Ok (size, s') ∧ fs_ok N v' s' live ∧
    i_length (disk v' sec) = Z.max (i_length (disk v sec)) (p + size) ∧
    contents v' sec = write_spec (contents v sec) (take (Z.to_nat size) buffer) (Z.to_nat p) ∧
    (∀ sec', sec' ∈ live → sec' ≠ sec → sec' ≠ FREE_MAP_SECTOR → contents v' sec' = contents v sec') ∧
    (free_map_file s ≠ None → synced v' s') ∧
    file_at s' live fp ip i (p + size) dw ∧ free_map_file s' = free_map_file s.
Proof.
  intros sec Hok Hfa Hne Hsec Hdeny Hsz Hp Hmax Hneed Hsync.
  destruct (inode_write_at_ok s N v live ip i buffer size p)
    as (s1 & v1 & Hrun & Hok1 & Hlen & Hh & Hc & Hoth & Hsy & _ & _);
    [done|apply (fa_inode _ _ _ _ _ _ _ Hfa)|apply (fa_live _ _ _ _ _ _ _ Hfa)|done..|].
  unfold file_write. run_with (get_file_ok _ _ _ (fa_file _ _ _ _ _ _ _ Hfa)).
  cbn [file_inode pos]. run_with Hrun. assert (Hfa1 := file_at_heap _ _ _ _ _ _ _ _ Hh Hfa).
  run_with (get_file_ok _ _ _ (fa_file _ _ _ _ _ _ _ Hfa1)).
  erewrite run_bind_ok by apply put_file_ok. cbn [file_inode pos deny_write].
  unfold SMALL_LENGTH in Hmax. rewrite s32_id by (unfold in_s32; lia).
  destruct Hh as (E1 & _). eexists _, v1. split; [reflexivity|].
  split_and!; [apply fs_ok_move; [done|congruence]|done..|by eapply file_at_moved|done].
Qed.
End files.

(** Reading an open file returns the file's bytes: for any file (direct,
    indirect and doubly indirect blocks), [file_read] terminates without panic
    or fault, returns exactly the bytes from the file's position on, as many
    as were asked for or as the file has left, advances the position by their
    number, and changes no sector, no other file and no inode.  (A read that
    reaches the end of the file needs the index sectors looked up there to be
    on the device.) *)
Theorem file_read_correct {S} `{!SectorStore S} (s : fs S) N v live fp ip i p dw size :
  fs_ok N v s live → file_at s live fp ip i p dw → free_map_file s ≠ Some fp →
  0 ≤ size → 0 ≤ p → p + size < 2 ^ 31 →
  p + size ≤ i_length (disk v (sector i)) ∨
    lookup_ok N v (disk v (sector i)) (Z.to_nat (Z.max p (i_length (disk v (sector i))) / 512)) →
  let bytes := take (Z.to_nat size) (drop (Z.to_nat p) (contents v (sector i))) in
  ∃ s', file_read fp size s = Ok (bytes, s') ∧ fs_ok N v s' live ∧
    file_at s' live fp ip i (p + Z.of_nat (length bytes)) dw ∧
    free_map s' = free_map s ∧ inodes s' = inodes s.
Proof. intros. by apply file_read_ok. Qed.

(** C4. Writing an open file, growth included, within limits: if the write ends
    within the first 140 blocks (direct and indirect) and there are enough free
    sectors for the growth, [file_write] writes all its
    bytes and advances the position past them; the file's contents become the
    old ones, padded with zeros up to the position if that lies beyond the end
    of file, with the new bytes in place; every other file keeps its contents;
    no sector gets two owners, the owned ones are marked, and the free map on
    the device still equals the one in memory. *)
Theorem file_write_correct {S} `{!SectorStore S} (s : fs S) N v live fp ip i p dw buffer size :
  let sec := sector i in
  fs_ok N v s live → file_at s live fp ip i p dw → free_map_file s ≠ Some fp →
  sec ≠ FREE_MAP_SECTOR → deny_write_cnt i = 0 →
  0 ≤ size ≤ Z.of_nat (length buffer) → 0 ≤ p → p + size ≤ SMALL_LENGTH →
  (needed (i_length (disk v sec)) (p + size) ≤ length (free_sectors (free_map s) 0 (Z.to_nat N)))%nat →
  (free_map_file s ≠ None → synced v s) →
  ∃ s' v', file_write fp buffer size s = Ok (size, s') ∧ fs_ok N v' s' live ∧
    contents v' sec = write_spec (contents v sec) (take (Z.to_nat size) buffer) (Z.to_nat p) ∧
    (∀ sec', sec' ∈ live → sec' ≠ sec → sec' ≠ FREE_MAP_SECTOR → contents v' sec' = contents v sec') ∧
    (free_map_file s ≠ None → synced v' s') ∧ file_at s' live fp ip i (p + size) dw.
Proof.
  intros sec Hok Hfa Hne Hsec Hdeny Hsz Hp Hmax Hneed Hsync.
  destruct (file_write_ok N v s live fp ip i p dw buffer size)
    as (s' & v' & Hrun & Hok' & _ & Hc & Hoth & Hsy & Hfa' & _); [done..|].
  exists s', v'. done.
Qed.

(** C5. What is written can be read back: after [file_write] of [size] bytes
    at the current position, [file_seek] back to it and [file_read] of [size]
    bytes returns the bytes written. *)
Theorem file_write_read_back {S} `{!SectorStore S} (s : fs S) N v live fp ip i p dw buffer size :
  let sec := sector i in
  fs_ok N v s live → file_at s live fp ip i p dw → free_map_file s ≠ Some fp →
  sec ≠ FREE_MAP_SECTOR → deny_write_cnt i = 0 →
  0 ≤ size ≤ Z.of_nat (length buffer) → 0 ≤ p → p + size ≤ SMALL_LENGTH →
  (needed (i_length (disk v sec)) (p + size) ≤ length (free_sectors (free_map s) 0 (Z.to_nat N)))%nat →
  (free_map_file s ≠ None → synced v s) →
  ∃ s', (file_write fp buffer size ;; file_seek fp p ;; file_read fp size) s
        = Ok (take (Z.to_nat size) buffer, s').
Proof.
  intros sec Hok Hfa Hne Hsec Hdeny Hsz Hp Hmax Hneed Hsync.
  destruct (file_write_ok N v s live fp ip i p dw buffer size)
    as (s1 & v1 & Hrun & Hok1 & Hl1 & Hc & _ & _ & Hfa1 & Ef); [done..|].
  run_with Hrun.
  destruct (file_seek_ok N v1 s1 live fp ip i (p + size) dw p) as (s2 & Hrun2 & Hok2 & Hfa2 & Ef2);
    [done..|congruence|done|]. run_with Hrun2. unfold SMALL_LENGTH in Hmax.
  destruct (file_read_ok N v1 s2 live fp ip i p dw size) as (s3 & Hrun3 & _);
    [done..|congruence|lia|done|lia|left; fold sec in Hl1 |- *; rewrite Hl1; lia|].
  exists s3. rewrite Hrun3. do 2 f_equal. fold sec in Hc |- *. rewrite Hc. unfold write_spec.
  set (buf := take (Z.to_nat size) buffer).
  assert (Hb : length buf = Z.to_nat size) by (unfold buf; rewrite length_take; lia).
  rewrite <- Hb. apply splice_read. rewrite length_app, length_replicate. lia.
Qed.
