(* ===== verification/FileRemove.v ===== *)
(** * Removing files: [free_map_release], [inode_disk_free], [inode_close]

    The last close of a removed inode gives its sectors back.  For files of
    direct blocks only it does; for larger ones the arithmetic of
    [inode_disk_free] loses sectors. *)
From S2P Require Import Prelude CInt Bitmap Bytes Block Cache Inode InodeSpec InodeWrite FsInv FreeMapSpec InodeExtend FileGrow File.

Open Scope Z_scope.

Import Inode.

(** [b'] is [b] with the marks of [l] cleared. *)
Definition cleared (b b' : Bitmap.bitmap) (l : list Z) : Prop :=
  Bitmap.wf b' ∧ Bitmap.bit_cnt b' = Bitmap.bit_cnt b ∧
  ∀ k, 0 ≤ k < Bitmap.bit_cnt b → Bitmap.bit b' k = Bitmap.bit b k && negb (bool_decide (k ∈ l)).

Section cleared.
Implicit Types (b : Bitmap.bitmap) (l : list Z).

Lemma cleared_refl b : Bitmap.wf b → cleared b b [].
Proof.
  intros Hwf. split_and!; [done..|]. intros k _. rewrite bool_decide_false by (by apply not_elem_of_nil).
  by rewrite andb_true_r.
Qed.

Lemma cleared_trans b1 b2 b3 l1 l2 : cleared b1 b2 l1 → cleared b2 b3 l2 → cleared b1 b3 (l1 ++ l2).
Proof.
  intros (Hw1 & Hc1 & Hb1) (Hw2 & Hc2 & Hb2). split_and!; [done|congruence|].
  intros k Hk. rewrite Hb2, Hb1 by (done || lia). rewrite <- andb_assoc, <- negb_orb. do 2 f_equal.
  destruct (decide (k ∈ l1)), (decide (k ∈ l2));
    rewrite !bool_decide_decide; repeat destruct (decide _); set_solver.
Qed.

Lemma cleared_range b b' x : Bitmap.updated b b' (Bitmap.range x 1 false) → cleared b b' [x].
Proof.
  intros (Hw & Hc & Hb). split_and!; [done..|]. intros k Hk. rewrite Hb by done. unfold Bitmap.range.
  destruct (Z.eq_dec k x) as [->|Hne].
  - rewrite bool_decide_true by (by apply list_elem_of_singleton).
    destruct (Z.leb_spec x x), (Z.ltb_spec x (x + 1)); try lia. by rewrite andb_false_r.
  - rewrite bool_decide_false by (by rewrite list_elem_of_singleton).
    destruct (Z.leb_spec x k), (Z.ltb_spec k (x + 1)); simpl; try lia; by rewrite andb_true_r.
Qed.
End cleared.

Section release.
Context {S : Type} `{!SectorStore S}.
Implicit Types (s : fs S) (v : Z → list Z) (live : gset Z).

(** [s'] is [s] after the marks of [l] have been cleared and the map written
    to its file. *)
Record released N v s live (l : list Z) v' s' : Prop := Released {
  rl_ok : fs_ok N v' s' live;
  rl_map : cleared (free_map s) (free_map s') l;
  rl_heap : same_heap s s';
  rl_other m : m ∉ owned v FREE_MAP_SECTOR → v' m = v m;
  rl_owned sec : sec ∈ live → owned v' sec = owned v sec;
  rl_contents sec : sec ∈ live → sec ≠ FREE_MAP_SECTOR → contents v' sec = contents v sec;
}.

Lemma released_refl N v s live : fs_ok N v s live → released N v s live [] v s.
Proof. intros Hok. split; try done. apply cleared_refl, Hok. Qed.

Lemma released_trans N v1 s1 v2 s2 v3 s3 live l1 l2 :
  FREE_MAP_SECTOR ∈ live →
  released N v1 s1 live l1 v2 s2 → released N v2 s2 live l2 v3 s3 →
  released N v1 s1 live (l1 ++ l2) v3 s3.
Proof.
  intros H0 [A1 A2 A3 A4 A5 A6] [B1 B2 B3 B4 B5 B6]. split; try done.
  - by eapply cleared_trans.
  - by eapply same_heap_trans.
  - intros m Hm. rewrite B4 by (by rewrite A5). by apply A4.
  - intros sec Hs. rewrite B5 by done. by apply A5.
  - intros sec Hs Hne. rewrite B6 by done. by apply A6.
Qed.

(** Releasing a marked sector that no live inode owns. *)
Lemma free_map_release_ok depth N v s live fp x :
  fs_ok N v s live → free_map_file s = Some fp → 0 ≤ x < N → Bitmap.bit (free_map s) x = true →
  (∀ sec, sec ∈ live → x ∉ owned v sec) →
  ∃ s' v', free_map_release (inode_write_at_rec (Datatypes.S depth)) x 1 s = Ok (tt, s') ∧
    released N v s live [x] v' s' ∧ synced v' s'.
Proof.
  intros Hok Hfp Hx Hbit Hfree. destruct (fo_map _ _ _ _ Hok) as [Hwf Hcnt]. unfold free_map_release.
  erewrite run_bind_ok; cycle 1.
  { apply with_free_map_ok. unfold Bitmap.bitmap_all. erewrite run_bind_ok; [reflexivity|].
    apply Bitmap.bitmap_contains_ok; (done || lia). }
  rewrite set_free_map_id.
  run_assert; cycle 1.
  { apply negb_true_iff. apply Bitmap.exists_bit_false; [lia|]. intros k Hk.
    replace k with x by lia. done. }
  destruct (Bitmap.bitmap_set_multiple_ok (free_map s) x 1 false) as (b1 & Hrun1 & Hu); [done|lia..|].
  apply cleared_range in Hu as Hcl.
  erewrite run_bind_ok by (apply with_free_map_ok; exact Hrun1).
  assert (Hok1 : fs_ok N v (set_free_map b1 s) live).
  { destruct Hok as [Hs HN Hl Hm Hus Hf]. destruct Hcl as (Hw1 & Hc1 & Hb1). split; try done.
    - split; [done|]. cbn. congruence.
    - intros sec y Hsec Hy. cbn. rewrite Hb1, (Hus sec y) by (done || (rewrite Hcnt;
        by apply (iok_range N v sec (lo_inode _ _ _ Hl sec Hsec)))). simpl.
      rewrite bool_decide_false; [done|]. intros ->%list_elem_of_singleton. by apply (Hfree sec). }
  destruct (bitmap_write_ok depth N v (set_free_map b1 s) live fp Hok1)
    as (s2 & v2 & Hrun2 & Hok2 & Ho2 & Hsy & Hoth & Hsh & Hc); [done|].
  run_with Hrun2. exists s2, v2. split; [reflexivity|]. split; [|done]. split; try done.
  - destruct (only_store_fields _ _ Ho2) as (-> & _). done.
  - apply only_store_heap in Ho2. exact Ho2.
  - intros sec Hsec. by apply Hsh.
Qed.

(** Releasing the sectors of a list one by one. *)
Lemma free_loop_ok depth N n v s live fp i xs left :
  fs_ok N v s live → free_map_file s = Some fp → (i + n ≤ length xs)%nat →
  Z.of_nat n ≤ left < 2 ^ 32 → NoDup (take n (drop i xs)) →
  (∀ x, x ∈ take n (drop i xs) → 0 ≤ x < N ∧ Bitmap.bit (free_map s) x = true ∧
     ∀ sec, sec ∈ live → x ∉ owned v sec) →
  ∃ s' v', free_loop (inode_write_at_rec (Datatypes.S depth)) n i xs left s = Ok (left - Z.of_nat n, s') ∧
    released N v s live (take n (drop i xs)) v' s' ∧ (synced v s → synced v' s').
Proof.
  revert v s i left. induction n as [|n IH]; intros v s i left Hok Hfp Hi Hleft Hnd Hxs; cbn [free_loop].
  { exists s, v. rewrite take_0, Z.sub_0_r. split_and!; [done| |done]. by apply released_refl. }
  destruct (lookup_lt_is_Some_2 xs i) as [x Hx]; [lia|].
  rewrite (drop_S _ _ _ Hx) in Hxs, Hnd |- *. cbn [take] in Hxs, Hnd |- *.
  apply NoDup_cons in Hnd as [Hxn Hnd]. run_deref; [|exact Hx].
  destruct (Hxs x) as (Hxr & Hxb & Hxf); [left|].
  destruct (free_map_release_ok depth N v s live fp x Hok Hfp Hxr Hxb Hxf)
    as (s1 & v1 & Hrun1 & Hrel1 & Hsy1).
  unfold inode_disk_free_sector.
  erewrite run_bind_ok by (erewrite run_bind_ok by exact Hrun1; reflexivity).
  rewrite u32_id by (unfold in_u32; lia).
  assert (H0 : FREE_MAP_SECTOR ∈ live) by (by apply (fo_file _ _ _ _ Hok fp)).
  assert (Hrel1' := Hrel1). destruct Hrel1' as [Hok1 Hcl1 Hh1 Hoth1 Hown1 Hcon1].
  destruct (IH v1 s1 (Datatypes.S i) (left - 1)) as (s2 & v2 & Hrun2 & Hrel2 & Hsy2);
    [done|destruct Hh1 as (-> & _); done|lia|lia|done|..].
  - intros y Hy. destruct (Hxs y) as (Hyr & Hyb & Hyf); [by right|]. split_and!; [lia..| |].
    + destruct Hcl1 as (_ & _ & Hb1). rewrite Hb1 by (destruct (fo_map _ _ _ _ Hok) as [_ ->]; lia).
      rewrite Hyb. simpl. rewrite bool_decide_false; [done|]. by intros ->%list_elem_of_singleton.
    + intros sec Hsec. rewrite Hown1 by done. by apply Hyf.
  - exists s2, v2. rewrite Hrun2. split_and!; [do 2 f_equal; lia| |].
    + by apply (released_trans N v s v1 s1 v2 s2 live [x]).
    + intros _. by apply Hsy2.
Qed.

Lemma data_sectors_direct v d m : (m ≤ 12)%nat → length (dblocks d) = 12%nat →
  data_sectors v d m = take m (dblocks d).
Proof.
  intros Hm Hd. unfold data_sectors. apply list_eq. intros k. rewrite list_lookup_fmap, lookup_take.
  destruct (decide (k < m)%nat).
  - rewrite lookup_seq_lt by done. cbn. rewrite fsec_direct by lia. symmetry. apply nth_lookup_lt. lia.
  - by rewrite lookup_seq_ge by lia.
Qed.

Lemma data_sectors_take v d m n : (m ≤ n)%nat → take m (data_sectors v d n) = data_sectors v d m.
Proof.
  intros. unfold data_sectors. rewrite <- fmap_take. f_equal. rewrite take_seq. f_equal. lia.
Qed.

(** [inode_disk_free] on a file of up to 23 blocks releases its direct
    blocks, and nothing else. *)
Lemma inode_disk_free_ok depth N v s live fp d :
  let n := nblocks d in let l := take 12 (data_sectors v d n) in
  fs_ok N v s live → free_map_file s = Some fp → wf_disk d → (n ≤ 23)%nat → NoDup l →
  (∀ x, x ∈ l → 0 ≤ x < N ∧ Bitmap.bit (free_map s) x = true ∧
     ∀ sec, sec ∈ live → x ∉ owned v sec) →
  ∃ s' v', inode_disk_free (inode_write_at_rec (Datatypes.S depth)) d s = Ok (tt, s') ∧
    released N v s live l v' s' ∧ (synced v s → synced v' s').
Proof.
  intros n l Hok Hfp Hwf Hn Hnd Hl. unfold inode_disk_free.
  assert (Hlen : 0 ≤ i_length d ≤ SMALL_LENGTH).
  { assert (H := length_le_raw d Hwf). fold n in H. destruct Hwf as [[H1 _] _ _ _ _].
    unfold SMALL_LENGTH. lia. }
  assert (En : blocks_for (i_length d) = n) by done.
  assert (Es : bytes_to_sectors (i_length d) = Z.of_nat (n + if (n <=? 12)%nat then 0 else 1)).
  { unfold bytes_to_sectors. rewrite data_sectors_for, indirect_sectors_for by done.
    unfold indirect_for. rewrite En, u32_id by (unfold in_u32; destruct (n <=? 12)%nat; lia). lia. }
  rewrite Es. unfold DBLOCK_END_BOUND, INODE_NUM_DBLOCKS.
  set (m := Nat.min n 12). set (tot := (n + if (n <=? 12)%nat then 0 else 1)%nat).
  assert (Htot : (m ≤ tot ≤ 24)%nat ∧ (tot ≤ 12 → tot = n)%nat ∧ (12 ≤ tot → 12 ≤ n)%nat).
  { unfold tot, m. destruct (Nat.leb_spec n 12); lia. }
  replace (if Z.of_nat tot <? 12 then Z.of_nat tot else 12) with (Z.of_nat m).
  2:{ unfold m. destruct (Z.ltb_spec (Z.of_nat tot) 12); lia. }
  assert (El : take m (drop 0 (dblocks d)) = l).
  { rewrite drop_0, <- (data_sectors_direct v) by (lia || apply Hwf). unfold l, m.
    destruct (Nat.le_gt_cases n 12).
    - rewrite (take_ge (data_sectors v d n)); [f_equal; lia|].
      unfold data_sectors. rewrite length_fmap, length_seq. lia.
    - rewrite data_sectors_take by lia. f_equal. lia. }
  rewrite Nat2Z.id.
  destruct (free_loop_ok depth N m v s live fp 0 (dblocks d) (Z.of_nat tot) Hok Hfp)
    as (s1 & v1 & Hrun & Hrel & Hsy); [rewrite (wf_dblocks d Hwf); lia|lia|by rewrite El|by rewrite El|].
  run_with Hrun. rewrite El in Hrel.
  assert (Eneg : s32 (u32 (Z.of_nat tot - Z.of_nat m - 12)) = Z.of_nat tot - Z.of_nat m - 12)
    by (apply s32_u32; unfold in_s32; lia).
  rewrite Eneg. destruct (Z.leb_spec (Z.of_nat tot - Z.of_nat m - 12) 0); [|lia].
  exists s1, v1. done.
Qed.
End release.

(** ** The last close of a removed inode *)
Section close.
Context {S : Type} `{!SectorStore S}.
Implicit Types (s : fs S) (v : Z → list Z) (live : gset Z).

Lemma elem_of_minus live (sec x : Z) : x ∈ live ∖ {[sec]} ↔ x ∈ live ∧ x ≠ sec.
Proof. by rewrite elem_of_difference, elem_of_singleton. Qed.

Lemma fs_ok_shrink N v s live sec :
  fs_ok N v s live → sec ≠ FREE_MAP_SECTOR → fs_ok N v s (live ∖ {[sec]}).
Proof.
  intros [Hs HN [L1 L2 L3] Hm Hu Hf] Hne.
  assert (Hsub : ∀ x, x ∈ live ∖ {[sec]} → x ∈ live) by (intros x Hx; by apply elem_of_minus in Hx as [? _]).
  split; try done.
  - split; [auto..|]. intros sec1 sec2 x H1 H2. apply L3; auto.
  - intros sec' x Hs'. apply Hu. auto.
  - intros fp Hfp. destruct (Hf fp Hfp) as [H0 H]. split; [by apply elem_of_minus|done].
Qed.

(** Changes to in-memory inodes other than the free map's. *)
Lemma fs_ok_inodes N v s live h l :
  fs_ok N v s live → (∀ q j, inodes s !! q = Some j → sector j = FREE_MAP_SECTOR → h !! q = Some j) →
  fs_ok N v (set_open_inodes l (set_inodes h s)) live.
Proof.
  intros [Hs HN Hl Hm Hu Hf] Hh. split; try done. intros fp Hfp.
  destruct (Hf fp Hfp) as (H0 & Hlen & f & i & H1 & H2 & H3 & H4). split_and!; [done..|].
  exists f, i. split_and!; try done. cbn. by apply Hh.
Qed.

Lemma inode_close_removed_ok N v s live p i fp :
  let sec := sector i in let d := disk v sec in
  let l := sec :: take 12 (data_sectors v d (nblocks d)) in
  fs_ok N v s live → free_map_file s = Some fp →
  inodes s !! p = Some i → open_cnt i = 1 → removed i = true →
  sec ∈ live → sec ≠ FREE_MAP_SECTOR → (nblocks d ≤ 23)%nat →
  ∃ s' v', inode_close inode_write_at (Some p) s = Ok (tt, s') ∧
    fs_ok N v' s' (live ∖ {[sec]}) ∧ cleared (free_map s) (free_map s') l ∧ synced v' s' ∧
    inodes s' = delete p (inodes s) ∧ open_inodes s' = List.remove Nat.eq_dec p (open_inodes s) ∧
    (∀ sec', sec' ∈ live → sec' ≠ sec → sec' ≠ FREE_MAP_SECTOR → contents v' sec' = contents v sec').
Proof.
  intros sec d l Hok Hfp Hp Hcnt Hrem Hsec Hne Hn.
  assert (Hin := lo_inode _ _ _ (fo_live _ _ _ _ Hok) _ Hsec). fold sec in Hin.
  assert (Hsr := inode_ok_sector _ _ _ Hin).
  unfold inode_close. run_with (get_inode_ok _ _ _ Hp). rewrite Hcnt.
  change (s32 (1 - 1)) with 0. cbn [Z.eqb].
  erewrite run_bind_ok by reflexivity. erewrite run_bind_ok by reflexivity. rewrite Hrem.
  set (i0 := MkInode (sector i) 0 true (deny_write_cnt i)).
  set (s1 := set_open_inodes _ _).
  assert (Hpne : ∀ q j, inodes s !! q = Some j → sector j = FREE_MAP_SECTOR → q ≠ p).
  { intros q j Hq Hj ->. rewrite Hp in Hq. injection Hq as <-. done. }
  assert (Hok1 : fs_ok N v s1 (live ∖ {[sec]})).
  { apply fs_ok_shrink; [|done]. apply (fs_ok_inodes N v s); [done|].
    intros q j Hq Hj. rewrite lookup_insert_ne; [done|]. symmetry. by apply (Hpne q j). }
  assert (Hown : ∀ x sec', x ∈ owned v sec → sec' ∈ live ∖ {[sec]} → x ∉ owned v sec').
  { intros x sec' Hx [Hs' Hn']%elem_of_minus Hx'.
    by eapply (lo_disj _ _ _ (fo_live _ _ _ _ Hok) sec sec' x). }
  assert (Hsec_own : sec ∈ owned v sec) by left.
  destruct (free_map_release_ok 1 N v s1 (live ∖ {[sec]}) fp sec Hok1)
    as (s2 & v2 & Hrun2 & Hrel2 & Hsy2); [done|done|by apply (fo_used _ _ _ _ Hok sec)|intros; by apply Hown|].
  assert (Hrel2' := Hrel2). destruct Hrel2' as [Hok2 Hcl2 Hh2 Hoth2 Hown2 Hcon2].
  assert (H0 : FREE_MAP_SECTOR ∈ live ∖ {[sec]}) by (by apply (fo_file _ _ _ _ Hok1 fp)).
  assert (Ed2 : disk v2 sec = d).
  { unfold disk. rewrite Hoth2; [done|]. by apply Hown. }
  destruct (inode_get_data_ok N v2 s2 p i0 (fo_sees _ _ _ _ Hok2)) as (s3 & Hrun3 & Hs3 & Ho3);
    [|done|]. { destruct Hh2 as (_ & -> & _). by apply lookup_insert_eq. }
  change (sector i0) with sec in Hrun3. rewrite Ed2 in Hrun3.
  assert (Hok3 := fs_ok_quiet _ _ _ _ _ Hok2 Hs3 Ho3).
  destruct (only_store_fields _ _ Ho3) as (F1 & F2 & F3 & F4 & F5 & F6).
  assert (Hwf : wf_disk d) by apply Hin.
  assert (Edat : take 12 (data_sectors v2 d (nblocks d)) = take 12 (data_sectors v d (nblocks d))).
  { destruct (Nat.le_gt_cases (nblocks d) 12).
    - by rewrite !(data_sectors_direct _ d (nblocks d)) by (lia || apply Hwf).
    - rewrite !data_sectors_take, !(data_sectors_direct _ d 12) by (lia || apply Hwf). done. }
  assert (Hnd := iok_nodup _ _ _ Hin). rewrite owned_meta in Hnd. fold d in Hnd.
  assert (Hnsec : sec ∉ take 12 (data_sectors v d (nblocks d))).
  { apply NoDup_app in Hnd as (_ & Hdis & _). intros Hx%elem_of_take_incl.
    by apply (Hdis sec); [left|]. }
  apply NoDup_app in Hnd as (_ & _ & Hnd).
  assert (Hdat : ∀ x, x ∈ take 12 (data_sectors v d (nblocks d)) → x ∈ owned v sec).
  { intros x Hx%elem_of_take_incl. rewrite owned_meta. apply elem_of_app. by right. }
  destruct (inode_disk_free_ok 1 N v2 s3 (live ∖ {[sec]}) fp d Hok3)
    as (s4 & v4 & Hrun4 & Hrel4 & Hsy4).
  { rewrite F2. by destruct Hh2 as (-> & _). }
  { done. } { done. } { rewrite Edat. by apply take_NoDup. }
  { rewrite Edat. intros x Hx. assert (Hxo := Hdat x Hx). split_and!.
    - by apply (iok_range _ _ _ Hin).
    - by apply (iok_range _ _ _ Hin).
    - rewrite F1. destruct Hcl2 as (_ & _ & Hb). rewrite Hb.
      + cbn. rewrite (fo_used _ _ _ _ Hok sec x Hsec Hxo). rewrite bool_decide_false; [done|].
        intros ->%list_elem_of_singleton. done.
      + destruct (fo_map _ _ _ _ Hok1) as [_ ->]. by apply (iok_range _ _ _ Hin).
    - intros sec' Hs'. rewrite Hown2 by done. by apply Hown. }
  rewrite Edat in Hrel4. destruct Hrel4 as [Hok4 Hcl4 Hh4 Hoth4 Hown4 Hcon4].
  assert (Hheap : same_heap s1 s4).
  { eapply same_heap_trans; [exact Hh2|]. eapply same_heap_trans; [by apply only_store_heap|done]. }
  destruct Hheap as (G1 & G2 & G3 & G4 & G5).
  erewrite run_bind_ok.
  2:{ run_with Hrun2. run_with Hrun3. exact Hrun4. }
  eexists _, v4. split; [reflexivity|].
  assert (Hoi : open_inodes s4 = List.remove Nat.eq_dec p (open_inodes s)) by (by rewrite G3).
  split_and!.
  - assert (Hfin := fs_ok_inodes N v4 s4 (live ∖ {[sec]}) (delete p (inodes s4)) (open_inodes s4) Hok4).
    apply Hfin. intros q j Hq Hj. rewrite lookup_delete_ne; [done|]. intros <-.
    rewrite G2 in Hq. cbn in Hq. rewrite lookup_insert_eq in Hq. injection Hq as <-. done.
  - cbn. rewrite F1 in Hcl4. by apply (cleared_trans _ (free_map s2) _ [sec]).
  - apply Hsy4. unfold synced in *. by rewrite F1.
  - cbn. rewrite G2. cbn. by rewrite delete_insert_eq.
  - cbn. done.
  - intros sec' Hs' Hn1 Hn2. by rewrite Hcon4, Hcon2 by (done || by apply elem_of_minus).
Qed.
End close.

(** The last close of a removed file of at most 12 blocks gives back
    exactly its sectors: the marks of its inode's sector and of all its blocks
    are cleared in memory and in the free map's file, every other mark and
    file is as before, the inode is forgotten, and the invariant holds for the
    remaining files. *)
Theorem inode_close_frees_file {S} `{!SectorStore S} (s : fs S) N v live p i fp :
  let sec := sector i in
  fs_ok N v s live → free_map_file s = Some fp →
  inodes s !! p = Some i → open_cnt i = 1 → removed i = true →
  sec ∈ live → sec ≠ FREE_MAP_SECTOR → (nblocks (disk v sec) ≤ 12)%nat →
  ∃ s' v', inode_close inode_write_at (Some p) s = Ok (tt, s') ∧
    fs_ok N v' s' (live ∖ {[sec]}) ∧ cleared (free_map s) (free_map s') (owned v sec) ∧ synced v' s' ∧
    inodes s' = delete p (inodes s) ∧
    (∀ sec', sec' ∈ live → sec' ≠ sec → sec' ≠ FREE_MAP_SECTOR → contents v' sec' = contents v sec').
Proof.
  intros sec Hok Hfp Hp Hcnt Hrem Hsec Hne Hn.
  destruct (inode_close_removed_ok N v s live p i fp) as (s' & v' & Hrun & Hok' & Hcl & Hsy & Hi & _ & Hc);
    [done..|fold sec; lia|].
  exists s', v'. split_and!; try done. unfold owned. fold sec in Hcl |- *.
  rewrite index_sectors_small by lia. destruct (Nat.leb_spec (nblocks (disk v sec)) 12); [|lia].
  rewrite take_ge in Hcl; [done|]. unfold data_sectors. rewrite length_fmap, length_seq. lia.
Qed.

(** Larger removed files leak: for a file of 13 to 23 blocks
    [inode_disk_free] subtracts the 12 direct blocks twice from the count of
    sectors left and stops, so after the last close the indirect block and all
    blocks it points to stay marked although no inode owns them. *)
Theorem inode_close_leaks {S} `{!SectorStore S} (s : fs S) N v live p i fp :
  let sec := sector i in let d := disk v sec in
  fs_ok N v s live → free_map_file s = Some fp →
  inodes s !! p = Some i → open_cnt i = 1 → removed i = true →
  sec ∈ live → sec ≠ FREE_MAP_SECTOR → (13 ≤ nblocks d ≤ 23)%nat →
  ∃ s' v', inode_close inode_write_at (Some p) s = Ok (tt, s') ∧ fs_ok N v' s' (live ∖ {[sec]}) ∧
    ∀ x, x ∈ indblock d :: drop 12 (data_sectors v d (nblocks d)) → Bitmap.bit (free_map s') x = true.
Proof.
  intros sec d Hok Hfp Hp Hcnt Hrem Hsec Hne Hn.
  destruct (inode_close_removed_ok N v s live p i fp) as (s' & v' & Hrun & Hok' & (_ & _ & Hb) & _);
    [done..|fold sec d; lia|].
  exists s', v'. split_and!; try done. intros x Hx.
  assert (Hin := lo_inode _ _ _ (fo_live _ _ _ _ Hok) _ Hsec). fold sec in Hin.
  assert (Hxo : x ∈ index_sectors v d (nblocks d) ++ data_sectors v d (nblocks d)).
  { apply elem_of_app. apply elem_of_cons in Hx as [->|Hx].
    - left. apply indblock_index. lia.
    - right. by eapply elem_of_drop_incl. }
  assert (Hxo' : x ∈ owned v sec) by (unfold owned; by right).
  destruct (fo_map _ _ _ _ Hok) as [_ Hc]. rewrite Hb by (rewrite Hc; by apply (iok_range _ _ _ Hin)).
  rewrite (fo_used _ _ _ _ Hok sec x Hsec Hxo'). apply negb_true_iff, bool_decide_eq_false.
  fold sec d. assert (Hnd := iok_nodup _ _ _ Hin). unfold owned in Hnd. fold d in Hnd.
  apply NoDup_cons in Hnd as [Hns Hnd]. intros [->|Hx12]%elem_of_cons; [done|].
  apply NoDup_app in Hnd as (_ & Hdis & Hnd). apply elem_of_cons in Hx as [->|Hx].
  - eapply Hdis; [|by eapply elem_of_take_incl]. apply indblock_index. lia.
  - rewrite <- (take_drop 12 (data_sectors v d (nblocks d))) in Hnd.
    apply NoDup_app in Hnd as (_ & Hd & _). by eapply Hd.
Qed.

(** * Where growth fails

    [inode_disk_extend_indblock_children] caps the number of sectors it writes
    at the size of the indirect block instead of at the room left in it, so a
    single write that takes a file from inside the indirect block past its end
    trips an assertion of the buffer cache. *)
Import Inode.

Section crossing.
Context {S : Type} `{!SectorStore S}.
Implicit Types (s : fs S) (v : Z → list Z) (d : inode_disk).

Lemma indirect_sectors_large len :
  SMALL_LENGTH < len ≤ MAX_LENGTH →
  bytes_to_indirect_sectors len = 2 + (Z.of_nat (blocks_for len) - 13) / 128.
Proof.
  intros H. assert (Hb := blocks_for_max len ltac:(unfold SMALL_LENGTH in H; lia)).
  assert (Hb' : 140 < Z.of_nat (blocks_for len)).
  { unfold SMALL_LENGTH, blocks_for in *. apply Z.lt_nge. rewrite Z2Nat.id.
    - rewrite DIV_ROUND_UP_spec by lia. lia.
    - apply DIV_ROUND_UP_nonneg; lia. }
  unfold bytes_to_indirect_sectors. rewrite data_sectors_for_max by (unfold SMALL_LENGTH in H; lia).
  set (n := Z.of_nat (blocks_for len)) in *. unfold INODE_NUM_DBLOCKS, INDBLOCK_NUM_CHILDREN.
  destruct (Z.leb_spec n 12); [lia|]. rewrite (u32_id (n - 12)) by (unfold in_u32; lia).
  destruct (Z.leb_spec (n - 12) 128); [lia|]. rewrite (u32_id (n - 12 - 128)) by (unfold in_u32; lia).
  rewrite (u32_id (n - 12 - 128 + 128 - 1)) by (unfold in_u32; lia).
  replace (n - 12 - 128 + 128 - 1) with (n - 13) by lia. rewrite quot_div_nonneg by lia.
  assert (0 ≤ (n - 13) / 128 ≤ 130) by divlia.
  rewrite !u32_id by (unfold in_u32; rewrite ?u32_id by (unfold in_u32; lia); lia). done.
Qed.

(** Handing out sectors to the indirect block of a file that outgrows it. *)
Lemma hand_out_crossing d l nb cnt s :
  (12 < nb < 140)%nat → (140 < nb + cnt)%nat →
  hand_out d l (Z.of_nat nb) (Z.of_nat cnt) s = Err Panic.
Proof.
  intros Hnb Hc. unfold hand_out, inode_disk_extend_dblock, INODE_NUM_DBLOCKS.
  destruct (Z.leb_spec 12 (Z.of_nat nb)); [|lia]. erewrite run_bind_ok by reflexivity. cbv beta iota.
  destruct (Z.leb_spec (Z.of_nat cnt) 0); [lia|].
  destruct (Z.eqb_spec (Z.of_nat nb - 12) 0); [lia|]. erewrite run_bind_ok by reflexivity. cbv beta iota.
  apply run_bind_err. unfold inode_disk_extend_indblock_children, INDBLOCK_NUM_CHILDREN.
  destruct (Z.leb_spec 128 (Z.of_nat nb - 12)); [lia|]. apply run_bind_err.
  unfold cache_write_partial, with_store, zoom. rewrite store_write_panic; [done|..]; try bcase; lia.
Qed.
End crossing.

(** Growing a file across the end of its indirect block panics: for a
    file of 13 to 139 blocks and any write that ends beyond block 140, with
    enough free sectors for it, [inode_write_at] fails the assertion
    [sector_ofs + size <= BLOCK_SECTOR_SIZE] of the buffer cache. *)
Theorem inode_write_crossing_panics {S} `{!SectorStore S} (s : fs S) N v live p i buffer size offset :
  let sec := sector i in let n := nblocks (disk v sec) in
  fs_ok N v s live → inodes s !! p = Some i → sec ∈ live → deny_write_cnt i = 0 →
  (12 < n < 140)%nat → 0 ≤ size → 0 ≤ offset → SMALL_LENGTH < offset + size ≤ MAX_LENGTH →
  bytes_to_sectors (offset + size) ≤ Z.of_nat (length (free_sectors (free_map s) 0 (Z.to_nat N))) →
  inode_write_at p buffer size offset s = Err Panic.
Proof.
  intros sec n Hok Hp Hsec Hdeny Hn Hsz Ho Hbig Hfree.
  assert (Hs := fo_sees _ _ _ _ Hok).
  assert (Hin := lo_inode _ _ _ (fo_live _ _ _ _ Hok) _ Hsec).
  assert (Hwf := iok_wf _ _ _ Hin). assert (Hlr := length_le_raw _ Hwf).
  assert (Hl := wf_length _ Hwf). fold sec in Hwf, Hlr, Hl. fold n in Hlr.
  set (len := i_length (disk v sec)) in *. set (new := offset + size) in *.
  unfold SMALL_LENGTH, MAX_LENGTH in Hl, Hbig.
  assert (En : blocks_for len = n) by done.
  assert (Hb := blocks_for_max new ltac:(unfold MAX_LENGTH; lia)).
  assert (Hb' : (140 < blocks_for new)%nat).
  { unfold blocks_for. apply Nat2Z.inj_lt. rewrite Z2Nat.id by (apply DIV_ROUND_UP_nonneg; lia).
    apply Z.lt_nge. rewrite DIV_ROUND_UP_spec by lia. lia. }
  unfold inode_write_at. cbn [inode_write_at_rec]. run_with (get_inode_ok _ _ _ Hp).
  rewrite Hdeny. cbn [Z.eqb negb].
  destruct (inode_get_data_ok N v s p i Hs Hp (inode_ok_sector _ _ _ Hin)) as (s0 & Hrun0 & Hs0 & Ho0).
  run_with Hrun0. fold sec new. rewrite s32_id by (unfold in_s32; lia). apply run_bind_err.
  rewrite inode_disk_extend_hand_out. fold len. destruct (Z.ltb_spec new len); [lia|].
  assert (Hi1 : bytes_to_indirect_sectors len = 1).
  { rewrite indirect_sectors_for by (unfold SMALL_LENGTH; lia). unfold indirect_for. rewrite En.
    destruct (Nat.leb_spec n 12); [lia|done]. }
  assert (Hi2 := indirect_sectors_large new ltac:(unfold SMALL_LENGTH, MAX_LENGTH; lia)).
  assert (Hd1 : bytes_to_data_sectors len = Z.of_nat n)
    by (rewrite data_sectors_for_max, En by (unfold MAX_LENGTH; lia); done).
  assert (Hd2 := data_sectors_for_max new ltac:(unfold MAX_LENGTH; lia)).
  unfold bytes_to_sectors in Hfree. rewrite Hd2 in Hfree. cbv zeta. rewrite Hd1, Hd2, Hi1.
  assert (Hi3 : 3 ≤ bytes_to_indirect_sectors new ≤ 132) by (rewrite Hi2; divlia).
  set (x := bytes_to_indirect_sectors new) in *.
  rewrite (u32_id (Z.of_nat (blocks_for new) + x)) in Hfree by (unfold in_u32; lia).
  rewrite (u32_id (Z.of_nat (blocks_for new) - Z.of_nat n)), (u32_id (x - 1)) by (unfold in_u32; lia).
  rewrite u32_id by (unfold in_u32; lia). bcase; [lia|].
  assert (Hok0 := fs_ok_quiet _ _ _ _ _ Hok Hs0 Ho0).
  destruct (only_store_fields _ _ Ho0) as (E1 & _).
  destruct (free_map_allocate_ok 0 N v s0 live (Z.of_nat (blocks_for new) - Z.of_nat n + (x - 1)) Hok0)
    as (s1 & v1 & b' & Hrun & _); [lia|rewrite E1; lia|].
  run_with Hrun. replace (Z.of_nat (blocks_for new) - Z.of_nat n) with (Z.of_nat (blocks_for new - n)) by lia.
  apply hand_out_crossing; lia.
Qed.

(** * The table of open inodes

    Every inode in memory is in [open_inodes] with a positive count, and no
    sector is open twice; [inode_open], [inode_reopen] and [inode_close] keep
    it so. *)
Import Inode.

Section table.
Context {S : Type} `{!SectorStore S}.
Implicit Types (s : fs S) (v : Z → list Z) (live : gset Z) (p q : nat).

Record table_ok s : Prop := TableOk {
  to_open p : p ∈ open_inodes s ↔ is_Some (inodes s !! p);
  to_nodup : NoDup (open_inodes s);
  to_fresh p : is_Some (inodes s !! p) → (p < next s)%nat;
  to_count p i : inodes s !! p = Some i → 1 ≤ open_cnt i < 2 ^ 31 - 1;
  to_once p q i j : inodes s !! p = Some i → inodes s !! q = Some j → sector i = sector j → p = q;
}.

Definition opened (i : inode) : inode :=
  MkInode (sector i) (open_cnt i + 1) (removed i) (deny_write_cnt i).

(** What the table looks like after [inode_open (n)]. *)
Definition open_result s (n : Z) (q : nat) (j : inode) : Prop :=
  sector j = n ∧
  match inodes s !! q with
  | Some j0 => sector j0 = n ∧ j = opened j0
  | None => j = MkInode n 1 false 0 ∧ q = next s ∧ ∀ p i, inodes s !! p = Some i → sector i ≠ n
  end.

Lemma find_open_ok n l : ∀ s, (∀ p, p ∈ l → is_Some (inodes s !! p)) →
  ∃ r, find_open n l s = Ok (r, s) ∧
    match r with
    | Some q => q ∈ l ∧ ∃ j, inodes s !! q = Some j ∧ sector j = n
    | None => ∀ p i, p ∈ l → inodes s !! p = Some i → sector i ≠ n
    end.
Proof.
  induction l as [|p l IH]; intros s Hl; simpl.
  - exists None. split; [done|]. intros p i Hp. by apply elem_of_nil in Hp.
  - destruct (Hl p) as [i Hi]; [by left|]. run_with (get_inode_ok _ _ _ Hi).
    destruct (Z.eqb_spec (sector i) n) as [E|E].
    + exists (Some p). split; [done|]. split; [by left|eauto].
    + destruct (IH s) as (r & Hr & H). { intros q Hq. apply Hl. by right. }
      exists r. split; [done|]. destruct r as [q|].
      * destruct H as [H1 H2]. split; [by right|done].
      * intros q j [->|Hq]%elem_of_cons Hj; [congruence|by eapply H].
Qed.

(** The same table with other stores and maps. *)
Lemma table_ok_heap s s' : same_heap s s' → table_ok s → table_ok s'.
Proof. intros (_ & E2 & E3 & _ & E5) [H1 H2 H3 H4 H5]. split; rewrite ?E2, ?E3, ?E5; done. Qed.

Lemma inode_open_ok N v s live n :
  fs_ok N v s live → table_ok s → (∀ p i, inodes s !! p = Some i → open_cnt i < 2 ^ 31 - 2) →
  ∃ q j s', inode_open n s = Ok (Some q, s') ∧ open_result s n q j ∧
    inodes s' = <[q := j]> (inodes s) ∧ table_ok s' ∧ fs_ok N v s' live ∧
    free_map s' = free_map s ∧ free_map_file s' = free_map_file s ∧ files s' = files s.
Proof.
  intros Hok [H1 H2 H3 H4 H5] Hcnt. unfold inode_open. erewrite run_bind_ok by reflexivity.
  destruct (find_open_ok n (open_inodes s) s) as (r & Hrun & Hr); [intros p; apply H1|].
  run_with Hrun. destruct r as [q|].
  - destruct Hr as (Hq & j & Hj & Hn). cbn [inode_reopen]. run_with (get_inode_ok _ _ _ Hj).
    assert (Hc := H4 q j Hj). assert (Hc' := Hcnt q j Hj). rewrite s32_id by (unfold in_s32; lia). fold (opened j).
    erewrite run_bind_ok by reflexivity. exists q, (opened j). eexists. split; [reflexivity|].
    split; [split; [done|by rewrite Hj]|]. split; [done|]. split; [|split].
    + split; cbn [inodes open_inodes next set_inodes]; try done.
      * intros p. rewrite lookup_insert_is_Some'. rewrite H1. split; [by right|]. intros [<-|?]; [eauto|done].
      * intros p. rewrite lookup_insert_is_Some'. intros [<-|?]; apply H3; eauto.
      * intros p i [[<- <-]|[_ Hi]]%lookup_insert_Some; [simpl; lia|by apply (H4 p)].
      * intros p1 p2 i1 i2 [[<- <-]|[N1 E1]]%lookup_insert_Some [[<- <-]|[N2 E2]]%lookup_insert_Some Hs; try done.
        -- by eapply (H5 q p2).
        -- by eapply (H5 p1 q).
        -- by eapply (H5 p1 p2).
    + destruct Hok as [Hs HN Hl Hm Hu Hf]. split; try done. intros fp Hfp.
      destruct (Hf fp Hfp) as (H0 & Hlen & f & i & F1 & F2 & F3 & F4). split_and!; [done..|].
      cbn [files inodes set_inodes]. destruct (decide (file_inode f = q)) as [E|E].
      * exists f, (opened j). rewrite E in *. rewrite lookup_insert_eq. simplify_eq. done.
      * exists f, i. by rewrite lookup_insert_ne.
    + done.
  - assert (Hfr : inodes s !! next s = None).
    { destruct (inodes s !! next s) eqn:E; [|done]. specialize (H3 (next s)). rewrite E in H3.
      specialize (H3 ltac:(eauto)). lia. }
    erewrite run_bind_ok by reflexivity. eexists _, (MkInode n 1 false 0), _. split; [reflexivity|].
    assert (Hnew : ∀ p i, inodes s !! p = Some i → sector i ≠ n).
    { intros p i Hi. apply (Hr p i); [|done]. apply H1. eauto. }
    split; [split; [done|by rewrite Hfr]|]. split; [done|]. split; [|split].
    + split; cbn [inodes open_inodes next].
      * intros p. rewrite lookup_insert_is_Some', elem_of_cons, H1. naive_solver.
      * apply NoDup_cons. split; [|done]. rewrite H1, Hfr. by intros [? ?].
      * intros p. rewrite lookup_insert_is_Some'. intros [<-|?%H3]; lia.
      * intros p i [[<- <-]|[_ Hi]]%lookup_insert_Some; [simpl; lia|by apply (H4 p)].
      * intros p1 p2 i1 i2 [[<- <-]|[N1 E1]]%lookup_insert_Some [[<- <-]|[N2 E2]]%lookup_insert_Some Hs; try done.
        -- exfalso. by apply (Hnew p2 i2).
        -- exfalso. by apply (Hnew p1 i1).
        -- by eapply (H5 p1 p2).
    + destruct Hok as [Hs HN Hl Hm Hu Hf]. split; try done. intros fp Hfp.
      destruct (Hf fp Hfp) as (H0 & Hlen & f & i & F1 & F2 & F3 & F4). split_and!; [done..|].
      exists f, i. cbn [files inodes]. rewrite lookup_insert_ne by congruence. done.
    + done.
Qed.

(** Taking back one open of an inode that stays open or was not removed. *)
Definition closed_table s p (i : inode) : gmap nat inode :=
  if open_cnt i =? 1 then delete p (inodes s)
  else <[p := MkInode (sector i) (open_cnt i - 1) (removed i) (deny_write_cnt i)]> (inodes s).

Lemma inode_close_ok N v s live p i :
  fs_ok N v s live → table_ok s → inodes s !! p = Some i →
  removed i = false ∨ 1 < open_cnt i → sector i ≠ FREE_MAP_SECTOR →
  ∃ s', inode_close inode_write_at (Some p) s = Ok (tt, s') ∧
    inodes s' = closed_table s p i ∧ table_ok s' ∧ fs_ok N v s' live ∧
    free_map s' = free_map s ∧ free_map_file s' = free_map_file s ∧ files s' = files s.
Proof.
  intros Hok Ht Hi Hr Hfm. assert (Ht' := Ht). destruct Ht' as [H1 H2 H3 H4 H5].
  assert (Hc := H4 p i Hi). unfold inode_close. run_with (get_inode_ok _ _ _ Hi).
  rewrite s32_id by (unfold in_s32; lia). erewrite run_bind_ok by reflexivity.
  assert (Hpne : ∀ q j, inodes s !! q = Some j → sector j = FREE_MAP_SECTOR → q ≠ p)
    by (intros q j Hq Hj ->; rewrite Hi in Hq; by simplify_eq).
  unfold closed_table. destruct (Z.eqb_spec (open_cnt i - 1) 0) as [E|E].
  - destruct Hr as [->|?]; [|lia]. rewrite (proj2 (Z.eqb_eq _ _)) by lia.
    erewrite run_bind_ok by reflexivity. erewrite run_bind_ok by reflexivity.
    eexists. split; [reflexivity|]. cbn [inodes open_inodes set_inodes set_open_inodes].
    rewrite delete_insert_eq. split; [done|]. split; [|split; [|done]].
    + split; cbn [inodes open_inodes next set_inodes set_open_inodes]; rewrite ?delete_insert_eq.
      * intros q. rewrite lookup_delete_is_Some, <- H1. rewrite !list_elem_of_In. split.
        -- intros Hq. apply in_remove in Hq as [Hq Hne]. done.
        -- intros [Hne Hq]. by apply in_in_remove.
      * apply NoDup_ListNoDup. rewrite <- remove_alt. apply List.NoDup_filter. by apply NoDup_ListNoDup.
      * intros q [_ Hq]%lookup_delete_is_Some. by apply H3.
      * intros q j [_ Hq]%lookup_delete_Some. by apply (H4 q).
      * intros q1 q2 j1 j2 [_ Hq1]%lookup_delete_Some [_ Hq2]%lookup_delete_Some. by apply H5.
    + assert (Hf := fs_ok_inodes N v s live (delete p (inodes s)) (List.remove Nat.eq_dec p (open_inodes s)) Hok).
      apply Hf. intros q j Hq Hj. rewrite lookup_delete_ne; [done|]. symmetry. by eapply Hpne.
  - rewrite (proj2 (Z.eqb_neq _ _)) by lia. eexists. split; [reflexivity|].
    split; [done|]. split; [|split; [|done]].
    + split; cbn [inodes open_inodes next set_inodes]; try done.
      * intros q. rewrite lookup_insert_is_Some', H1. split; [by right|]. intros [<-|?]; [eauto|done].
      * intros q. rewrite lookup_insert_is_Some'. intros [<-|?]; apply H3; eauto.
      * intros q j [[<- <-]|[_ Hq]]%lookup_insert_Some; [simpl; lia|by apply (H4 q)].
      * intros q1 q2 j1 j2 [[<- <-]|[N1 E1]]%lookup_insert_Some [[<- <-]|[N2 E2]]%lookup_insert_Some Hs; try done.
        -- by eapply (H5 p q2).
        -- by eapply (H5 q1 p).
        -- by eapply (H5 q1 q2).
    + assert (Hf := fs_ok_inodes N v s live
        (<[p := MkInode (sector i) (open_cnt i - 1) (removed i) (deny_write_cnt i)]> (inodes s)) (open_inodes s) Hok).
      apply Hf. intros q j Hq Hj. rewrite lookup_insert_ne; [done|]. symmetry. by eapply Hpne.
Qed.
End table.
