(* ===== verification/FsFiles.v ===== *)
(** * The file system as virtual memory management sees it

    The open files of [filesys/file.c] keep the interface [PageFiles]: a file
    that the file system invariant covers can be reopened, measured and read,
    and its contents are those of its inode. *)
From S2P Require Import Prelude CInt Bitmap Bytes Block Vm Cache Inode InodeSpec InodeWrite FsInv FreeMapSpec InodeExtend FileGrow File FileSpec FileRemove.
Import Inode File.

Open Scope Z_scope.

Section fs_files.
Context {S : Type} `{!SectorStore S}.
Implicit Types (x : fs S) (v : Z → list Z) (live : gset Z) (hs : gmap nat Z) (cs : Z → list Z).

(** Handle [f] is a file open on the live inode in sector [sec]. *)
Definition handle x live (f : nat) (sec : Z) : Prop :=
  free_map_file x ≠ Some f ∧ ∃ ip i p dw, file_at x live f ip i p dw ∧ sector i = sec.

Definition fresh_files x : Prop := ∀ f, is_Some (files x !! f) → (f < next x)%nat.

Definition handles v x live hs cs : Prop :=
  ∀ f sec, hs !! f = Some sec → handle x live f sec ∧ cs sec = contents v sec.

Definition fs_rep x hs cs : Prop :=
  ∃ N v live, fs_ok N v x live ∧ fresh_files x ∧ handles v x live hs cs.

(** What keeps handles: the files but for their positions, the inodes but for
    their counts. *)
Lemma handle_mono x x' live f sec :
  free_map_file x' = free_map_file x →
  (∀ fl, files x !! f = Some fl → ∃ p, files x' !! f = Some (MkFile (file_inode fl) p (deny_write fl))) →
  (∀ ip i, inodes x !! ip = Some i → ∃ j, inodes x' !! ip = Some j ∧ sector j = sector i) →
  handle x live f sec → handle x' live f sec.
Proof.
  intros Hm Hf Hi (H2 & ip & i & p & dw & [F1 F2 F3] & <-). rewrite <- Hm in H2. split; [done|].
  destruct (Hf _ F1) as [p' Hp]. destruct (Hi _ _ F2) as (j & Hj & Ej).
  exists ip, j, p', dw. split; [|done]. split; [done..|]. by rewrite Ej.
Qed.

Lemma handles_heap v x x' live hs cs : same_heap x x' → handles v x live hs cs → handles v x' live hs cs.
Proof.
  intros (E1 & E2 & _ & E4 & E5) Hh f sec Hf. destruct (Hh _ _ Hf). split; [|done].
  eapply (handle_mono x); [done| | |done].
  - intros [ip p dw] Hfl. exists p. by rewrite E4.
  - intros ip i Hi. exists i. by rewrite E2.
Qed.

Lemma handles_moved v x live g ip i p dw p' hs cs :
  file_at x live g ip i p dw → handles v x live hs cs →
  handles v (set_files (<[g := MkFile ip p' dw]> (files x)) x) live hs cs.
Proof.
  intros [Hg _ _] Hh f sec Hf. destruct (Hh _ _ Hf). split; [|done]. eapply (handle_mono x); [done| | |done].
  - intros [ipf pf dwf] Hfl. cbn [files set_files]. destruct (decide (f = g)) as [->|Hne].
    + exists p'. rewrite lookup_insert_eq. by simplify_eq.
    + exists pf. by rewrite lookup_insert_ne.
  - intros ip' i' Hi. by exists i'.
Qed.

Lemma fs_rep_heap x x' N v live hs cs :
  fresh_files x → handles v x live hs cs → fs_ok N v x' live → same_heap x x' → fs_rep x' hs cs.
Proof.
  intros Hfr Hh Hok E. exists N, v, live. split; [done|]. split; [|exact (handles_heap _ _ _ _ _ _ E Hh)].
  intros f. destruct E as (_ & _ & _ & -> & ->). apply Hfr.
Qed.

Lemma fs_rep_moved x N v live g ip i p dw p' hs cs :
  fresh_files x → handles v x live hs cs → fs_ok N v x live → file_at x live g ip i p dw → free_map_file x ≠ Some g →
  fs_rep (set_files (<[g := MkFile ip p' dw]> (files x)) x) hs cs.
Proof.
  intros Hfr Hh Hok Hg Hne. exists N, v, live. split; [by apply fs_ok_move|]. split; [|by eapply handles_moved].
  intros f. cbn [files next set_files]. rewrite lookup_insert_is_Some'. intros [<-|?]; apply Hfr; [|done].
  by rewrite (fa_file _ _ _ _ _ _ _ Hg).
Qed.

Lemma fs_files_length x hs cs f sec : fs_rep x hs cs → hs !! f = Some sec →
  ∃ x', File.file_length f x = Ok (Z.of_nat (length (cs sec)), x') ∧ fs_rep x' hs cs.
Proof.
  intros (N & v & live & Hok & Hfr & Hh) Hf.
  destruct (Hh _ _ Hf) as [(Hne & ip & i & p & dw & Hfa & <-) ->].
  assert (Hin := lo_inode _ _ _ (fo_live _ _ _ _ Hok) _ (fa_live _ _ _ _ _ _ _ Hfa)).
  unfold File.file_length. run_with (get_file_ok _ _ _ (fa_file _ _ _ _ _ _ _ Hfa)). cbn [file_inode].
  destruct (inode_length_ok N v x ip i) as (x' & Hrun & Hs & Ho);
    [apply Hok|apply (fa_inode _ _ _ _ _ _ _ Hfa)|by apply (inode_ok_sector N v)|].
  exists x'. rewrite Hrun. unfold contents. rewrite (length_contents N v x); [|apply Hok|by apply inode_ok_file].
  assert (Hl := wf_length _ (iok_wf _ _ _ Hin)). rewrite Z2Nat.id by lia.
  split; [done|]. eapply fs_rep_heap; [done..|by eapply fs_ok_quiet|by apply only_store_heap].
Qed.

Lemma fs_files_seek x hs cs f sec ofs : fs_rep x hs cs → hs !! f = Some sec → 0 ≤ ofs →
  ∃ x', File.file_seek f ofs x = Ok (tt, x') ∧ fs_rep x' hs cs.
Proof.
  intros (N & v & live & Hok & Hfr & Hh) Hf Hofs. destruct (Hh _ _ Hf) as [(Hne & ip & i & p & dw & Hfa & _) _].
  unfold File.file_seek. run_with (get_file_ok _ _ _ (fa_file _ _ _ _ _ _ _ Hfa)).
  run_assert; [|by apply Z.leb_le]. rewrite put_file_ok. eexists. split; [reflexivity|]. by eapply fs_rep_moved.
Qed.

Lemma fs_files_read x hs cs f sec ofs n : fs_rep x hs cs → hs !! f = Some sec →
  0 ≤ ofs → 0 ≤ n → ofs + n ≤ Z.of_nat (length (cs sec)) → ofs + n < 2 ^ 31 →
  ∃ x1 x2, File.file_seek f ofs x = Ok (tt, x1) ∧
    File.file_read f n x1 = Ok (take (Z.to_nat n) (drop (Z.to_nat ofs) (cs sec)), x2) ∧ fs_rep x2 hs cs.
Proof.
  intros (N & v & live & Hok & Hfr & Hh) Hf Hofs Hn Hle Hb.
  destruct (Hh _ _ Hf) as [(Hne & ip & i & p & dw & Hfa & <-) Hcs]. rewrite Hcs in *.
  assert (Hin := lo_inode _ _ _ (fo_live _ _ _ _ Hok) _ (fa_live _ _ _ _ _ _ _ Hfa)).
  unfold contents in Hle. rewrite (length_contents N v x) in Hle; [|apply Hok|by apply inode_ok_file].
  assert (Hl := wf_length _ (iok_wf _ _ _ Hin)).
  set (x1 := set_files (<[f := MkFile ip ofs dw]> (files x)) x).
  assert (Hok1 : fs_ok N v x1 live) by (by apply fs_ok_move).
  assert (Hfa1 : file_at x1 live f ip i ofs dw) by (by eapply file_at_moved).
  assert (Hfr1 : fresh_files x1).
  { intros g. subst x1. cbn [files next set_files]. rewrite lookup_insert_is_Some'.
    intros [<-|?]; apply Hfr; [|done]. by rewrite (fa_file _ _ _ _ _ _ _ Hfa). }
  assert (Hh1 : handles v x1 live hs cs) by (by eapply handles_moved).
  destruct (inode_read_at_ok x1 N v ip i n ofs) as (x2 & Hrun & Hs2 & Ho2);
    [apply Hok1|apply Hfa1|by apply (inode_ok_sector N v)|by apply inode_ok_file|done..|left; lia|].
  exists x1. unfold File.file_seek. run_with (get_file_ok _ _ _ (fa_file _ _ _ _ _ _ _ Hfa)).
  run_assert; [|by apply Z.leb_le]. rewrite put_file_ok. cbn [file_inode deny_write]. fold x1.
  unfold File.file_read. run_with (get_file_ok _ _ _ (fa_file _ _ _ _ _ _ _ Hfa1)). cbn [file_inode pos].
  run_with Hrun. assert (Eh := only_store_heap _ _ Ho2).
  assert (Hfa2 : file_at x2 live f ip i ofs dw) by (by eapply file_at_heap).
  run_with (get_file_ok _ _ _ (fa_file _ _ _ _ _ _ _ Hfa2)).
  erewrite run_bind_ok by apply put_file_ok. eexists. split; [reflexivity|]. split; [reflexivity|].
  cbn [file_inode pos deny_write].
  eapply (fs_rep_moved x2 N v live f ip i ofs dw); [|by eapply handles_heap|by eapply fs_ok_quiet|done|].
  - intros g. destruct Eh as (_ & _ & _ & -> & ->). apply Hfr1.
  - destruct Eh as (-> & _). done.
Qed.

(** Counting one more open of an inode. *)
Lemma fs_ok_recount N v x live ip i n :
  fs_ok N v x live → inodes x !! ip = Some i →
  fs_ok N v (set_inodes (<[ip := MkInode (sector i) n (removed i) (deny_write_cnt i)]> (inodes x)) x) live.
Proof.
  intros [Hs HN Hl Hm Hu Hf] Hi. split; try done. intros fp Hfp.
  destruct (Hf fp Hfp) as (H0 & Hlen & f & j & F1 & F2 & F3 & F4). split_and!; [done..|].
  cbn [files inodes set_inodes]. destruct (decide (file_inode f = ip)) as [E|E].
  - eexists f, _. rewrite E in *. rewrite lookup_insert_eq. simplify_eq. done.
  - exists f, j. by rewrite lookup_insert_ne.
Qed.

Lemma fs_files_reopen x hs cs f sec : fs_rep x hs cs → hs !! f = Some sec →
  ∃ g x', File.file_reopen f x = Ok (Some g, x') ∧ hs !! g = None ∧ fs_rep x' (<[g := sec]> hs) cs.
Proof.
  intros (N & v & live & Hok & Hfr & Hh) Hf.
  destruct (Hh _ _ Hf) as [(Hne & ip & i & p & dw & Hfa & Hsec) Hcs]. exists (next x).
  unfold File.file_reopen. run_with (get_file_ok _ _ _ (fa_file _ _ _ _ _ _ _ Hfa)). cbn [file_inode].
  set (i' := MkInode (sector i) (s32 (open_cnt i + 1)) (removed i) (deny_write_cnt i)).
  set (x1 := set_inodes (<[ip := i']> (inodes x)) x).
  assert (Hre : inode_reopen (Some ip) x = Ok (Some ip, x1)).
  { cbn [inode_reopen]. run_with (get_inode_ok _ _ _ (fa_inode _ _ _ _ _ _ _ Hfa)). reflexivity. }
  run_with Hre. cbn [file_open]. erewrite run_bind_ok by reflexivity. erewrite run_bind_ok by reflexivity.
  eexists. split; [reflexivity|].
  set (x2 := Fs _ _ _ _ _ _ _).
  assert (Hnew : files x !! next x = None).
  { apply eq_None_not_Some. intros H%Hfr. lia. }
  split.
  { destruct (hs !! next x) as [sec'|] eqn:E; [|done].
    destruct (Hh _ _ E) as [(_ & ip' & i2 & p' & dw' & Hfa' & _) _].
    assert (H := fa_file _ _ _ _ _ _ _ Hfa'). congruence. }
  assert (Hok1 : fs_ok N v x1 live) by (apply fs_ok_recount; [done|apply Hfa]).
  assert (Hnm : free_map_file x ≠ Some (next x)).
  { intros E. destruct (fo_file _ _ _ _ Hok _ E) as (_ & _ & fl & _ & H & _). congruence. }
  assert (Hin : ∀ jp j, inodes x !! jp = Some j → ∃ j', inodes x2 !! jp = Some j' ∧ sector j' = sector j).
  { intros jp j Hj. change (inodes x2) with (<[ip := i']> (inodes x)). destruct (decide (jp = ip)) as [->|Hj'].
    - rewrite lookup_insert_eq. assert (H := fa_inode _ _ _ _ _ _ _ Hfa). simplify_eq. eauto.
    - rewrite lookup_insert_ne by done. eauto. }
  exists N, v, live. split; [|split].
  - assert (Hm := fs_ok_move N v x1 live (next x) (MkFile ip 0 false) Hok1 Hnm). by destruct Hm.
  - intros g. change (files x2) with (<[next x := MkFile ip 0 false]> (files x)). change (next x2) with (Datatypes.S (next x)).
    rewrite lookup_insert_is_Some'. intros [<-|?%Hfr]; lia.
  - intros g sec' [[<- <-]|[Hg Hs']]%lookup_insert_Some.
    + split; [|done]. split; [done|]. destruct (Hin ip i) as (j' & Hj' & Ej'); [apply Hfa|].
      exists ip, j', 0, false. split; [|congruence]. split; [by apply lookup_insert_eq|done|].
      rewrite Ej'. apply Hfa.
    + destruct (Hh _ _ Hs') as [Hg' ?]. split; [|done]. eapply (handle_mono x); [done| |done|exact Hg'].
      intros [ip' p' dw'] Hfl. exists p'. change (files x2) with (<[next x := MkFile ip 0 false]> (files x)). by rewrite lookup_insert_ne.
Qed.

#[export] Instance fs_page_files : PageFiles (fs S) := {
  PageFiles.file_reopen := File.file_reopen;
  PageFiles.file_close := File.file_close;
  PageFiles.file_seek := File.file_seek;
  PageFiles.file_read := File.file_read;
  PageFiles.file_write := File.file_write;
  PageFiles.file_length := File.file_length;
  pf_rep := fs_rep;
  pf_reopen := fs_files_reopen;
  pf_length := fs_files_length;
  pf_seek := fs_files_seek;
  pf_read := fs_files_read;
}.
End fs_files.
