(* ===== verification/Directory.v ===== *)
(** * Directories: [src/pintos/filesys/directory.c]

    A directory is an inode whose contents are an array of entries of 20
    bytes.  [struct dir] objects live in a heap of their own beside the file
    system's state; the processes' current directories, which
    [dir_open_current] and [process_dir_remove] use, are there too.  Names are
    byte strings without their null character.  Heap allocations succeed. *)
From S2P Require Import Prelude CInt Bitmap Bytes Block Cache Inode InodeSpec InodeWrite FsInv File.
Import Inode.

Open Scope Z_scope.

Module Directory.

Definition NAME_MAX : Z := 14.
Definition CURRENT_DIR : list Z := [46].
Definition PARENT_DIR : list Z := [46; 46].

(** [struct dir]. *)
Record dir := MkDir { d_inode : nat; d_pos : Z }.

(** [struct dir_entry]: [e_name] is an array of 15 characters, [e_in_use] a
    byte. *)
Record dir_entry := DirEntry { e_sector : Z; e_name : list Z; e_in_use : Z }.

Definition entry_size : Z := 20.
Definition bytes_of_entry (e : dir_entry) : list Z :=
  bytes_of_words [e_sector e] ++ e_name e ++ [e_in_use e].
Definition entry_of_bytes (bs : list Z) : dir_entry :=
  DirEntry (nth 0 (words_of_bytes (take 4 bs)) 0) (take 15 (drop 4 bs)) (nth 19 bs 0).

(** ** Strings in arrays *)

(** [strcmp] on two arrays of characters. *)
Fixpoint strcmp (a b : list Z) : res Z :=
  match a, b with
  | x :: a, y :: b =>
    if negb (x =? 0) && (x =? y) then strcmp a b
    else Ok (if x <? y then -1 else if y <? x then 1 else 0)
  | _, _ => Err Fault
  end.

(** The string in an array. *)
Fixpoint string_in (a : list Z) : res (list Z) :=
  match a with
  | [] => Err Fault
  | x :: a => if x =? 0 then Ok [] else
      match string_in a with Ok s => Ok (x :: s) | Err e => Err e end
  end.

(** [strlcpy (dst, src, size)] for an array [dst] of [size] characters. *)
Definition strlcpy (dst src : list Z) : list Z :=
  let n := Nat.min (length src) (length dst - 1) in
  take n src ++ 0 :: drop (n + 1) dst.

(** ** State *)

(** The file system, the open directories and the current directory of each
    process ([None] once it has been removed); [current] is the process of the
    running thread, if it has one. *)
Record dfs (S : Type) := Dfs {
  base : fs S;
  dirs : gmap nat dir;
  next_dir : nat;
  process_dirs : list (option nat);
  current : option nat;
}.
Arguments Dfs {S}.
Arguments base {S}.
Arguments dirs {S}.
Arguments next_dir {S}.
Arguments process_dirs {S}.
Arguments current {S}.

Section ops.
Context {S : Type} `{!SectorStore S}.
Abbreviation M := (ST (dfs S)).

(** What a [struct dir_entry] on the stack holds before it is written. *)
Variable junk : dir_entry.

Definition set_base (b : fs S) (s : dfs S) : dfs S :=
  Dfs b (dirs s) (next_dir s) (process_dirs s) (current s).
Definition set_dirs (h : gmap nat dir) (s : dfs S) : dfs S :=
  Dfs (base s) h (next_dir s) (process_dirs s) (current s).
Definition set_process_dirs (l : list (option nat)) (s : dfs S) : dfs S :=
  Dfs (base s) (dirs s) (next_dir s) l (current s).
Definition with_fs {A} (m : ST (fs S) A) : M A := zoom base set_base m.

Definition get_dir (dp : nat) : M dir := s ← get; deref (dirs s !! dp).
Definition put_dir (dp : nat) (d : dir) : M unit :=
  s ← get; put (set_dirs (<[dp := d]> (dirs s)) s).

(** ** Opening and closing *)

(** When its allocation succeeds. *)
Definition dir_open (p : option nat) : M (option nat) :=
  match p with
  | Some p =>
    s ← get;
    let dp := next_dir s in
    put (Dfs (base s) (<[dp := MkDir p 0]> (dirs s)) (Datatypes.S dp) (process_dirs s) (current s)) ;;
    mret (Some dp)
  | None => with_fs (inode_close inode_write_at None) ;; mret None
  end.

Definition dir_open_root : M (option nat) :=
  p ← with_fs (inode_open ROOT_DIR_SECTOR); dir_open p.

Definition dir_get_inode (dp : nat) : M nat := d ← get_dir dp; mret (d_inode d).

Definition dir_reopen (dp : nat) : M (option nat) :=
  d ← get_dir dp;
  p ← with_fs (inode_reopen (Some (d_inode d)));
  dir_open p.

Definition dir_close (dp : option nat) : M unit :=
  match dp with
  | None => mret tt
  | Some dp =>
    d ← get_dir dp;
    with_fs (inode_close inode_write_at (Some (d_inode d))) ;;
    modify (λ s, set_dirs (delete dp (dirs s)) s)
  end.

(** ** Searching *)

(** [inode_read_at (inode, &e, sizeof e, ofs)]: how many bytes it read, and
    the entry, whose remaining bytes are what they were. *)
Definition read_entry (p : nat) (e : dir_entry) (ofs : Z) : M (Z * dir_entry) :=
  bs ← with_fs (inode_read_at p entry_size ofs);
  mret (Z.of_nat (length bs), entry_of_bytes (bs ++ drop (length bs) (bytes_of_entry e))).

(** The loops over a directory get as many steps as the largest file has
    entries. *)
Definition MAX_ENTRIES : nat := Z.to_nat (MAX_LENGTH / entry_size + 2).

Fixpoint lookup_loop (fuel : nat) (p : nat) (name : list Z) (e : dir_entry) (ofs : Z)
    : M (option (dir_entry * Z)) :=
  match fuel with
  | O => fail Timeout
  | Datatypes.S fuel =>
    r ← read_entry p e (s32 ofs);
    let '(n, e) := r in
    if n =? entry_size then
      found ← (if negb (e_in_use e =? 0) then c ← lift (strcmp (name ++ [0]) (e_name e)); mret (c =? 0)
               else mret false);
      if found : bool then mret (Some (e, s32 ofs))
      else lookup_loop fuel p name e (u32 (ofs + entry_size))
    else mret None
  end.

(** The entry and its offset; [None]: returns false. *)
Definition lookup (dp : nat) (name : list Z) : M (option (dir_entry * Z)) :=
  d ← get_dir dp;
  lookup_loop MAX_ENTRIES (d_inode d) name junk 0.

(** The value of [*inode]; the C function returns whether it is non-null. *)
Definition dir_lookup (dp : nat) (name : list Z) : M (option nat) :=
  r ← lookup dp name;
  match r with
  | Some (e, _) => with_fs (inode_open (e_sector e))
  | None => mret None
  end.

(** ** Adding *)

(** The loop of [dir_add]: the offset of a free slot, and the entry as the
    last read left it. *)
Fixpoint free_slot_loop (fuel : nat) (p : nat) (e : dir_entry) (ofs : Z) : M (dir_entry * Z) :=
  match fuel with
  | O => fail Timeout
  | Datatypes.S fuel =>
    r ← read_entry p e ofs;
    let '(n, e) := r in
    if n =? entry_size then
      if e_in_use e =? 0 then mret (e, ofs)
      else free_slot_loop fuel p e (s32 (ofs + entry_size))
    else mret (e, ofs)
  end.

(** [dir_init], with the [dir_add] it calls. *)
Definition dir_init_with (dir_add : nat → list Z → Z → bool → M bool)
    (sector parent_sector : Z) : M unit :=
  p ← with_fs (inode_open sector);
  dir ← dir_open p;
  match dir with
  | None => mret tt
  | Some dir =>
    dir_add dir CURRENT_DIR sector false ;;
    dir_add dir PARENT_DIR parent_sector false ;;
    mret tt
  end.

(** [dir_add] calls itself through [dir_init], once: [depth] is 2. *)
Fixpoint dir_add_rec (depth : nat) (dp : nat) (name : list Z) (inode_sector : Z) (is_dir : bool)
    : M bool :=
  match depth with
  | O => fail Timeout
  | Datatypes.S depth =>
    if (Z.of_nat (length name) =? 0) || (NAME_MAX <? Z.of_nat (length name)) then mret false
    else
      r ← lookup dp name;
      match r with
      | Some _ => mret false
      | None =>
        d ← get_dir dp;
        r ← free_slot_loop MAX_ENTRIES (d_inode d) junk 0;
        let '(e, ofs) := r in
        let e := DirEntry inode_sector (strlcpy (e_name e) name) 1 in
        n ← with_fs (inode_write_at (d_inode d) (bytes_of_entry e) entry_size ofs);
        let success := n =? entry_size in
        (if success && is_dir then
           parent ← with_fs (inode_get_sector (Some (d_inode d)));
           dir_init_with (dir_add_rec depth) inode_sector parent
         else mret tt) ;;
        mret success
      end
  end.

Definition dir_add : nat → list Z → Z → bool → M bool := dir_add_rec 2.
Definition dir_init : Z → Z → M unit := dir_init_with dir_add.

Definition dir_create_root : M bool :=
  result ← with_fs (inode_create inode_write_at ROOT_DIR_SECTOR 0 true);
  (if result : bool then dir_init ROOT_DIR_SECTOR ROOT_DIR_SECTOR else mret tt) ;;
  mret result.

(** ** Listing *)
Fixpoint readdir_loop (fuel : nat) (dp : nat) (e : dir_entry) : M (option (list Z)) :=
  match fuel with
  | O => fail Timeout
  | Datatypes.S fuel =>
    d ← get_dir dp;
    r ← read_entry (d_inode d) e (d_pos d);
    let '(n, e) := r in
    if n =? entry_size then
      put_dir dp (MkDir (d_inode d) (s32 (d_pos d + entry_size))) ;;
      if negb (e_in_use e =? 0) then name ← lift (string_in (e_name e)); mret (Some name)
      else readdir_loop fuel dp e
    else mret None
  end.
(** The name stored; [None]: returns false. *)
Definition dir_readdir (dp : nat) : M (option (list Z)) := readdir_loop MAX_ENTRIES dp junk.

Definition dot_name (name : list Z) : bool :=
  bool_decide (name = CURRENT_DIR) || bool_decide (name = PARENT_DIR).
Fixpoint strict_loop (fuel : nat) (dp : nat) : M (option (list Z)) :=
  match fuel with
  | O => fail Timeout
  | Datatypes.S fuel =>
    r ← dir_readdir dp;
    match r with
    | Some name => if dot_name name then strict_loop fuel dp else mret (Some name)
    | None => mret None
    end
  end.
Definition dir_readdir_strict (dp : nat) : M (option (list Z)) := strict_loop MAX_ENTRIES dp.

Fixpoint size_loop (fuel : nat) (dp : nat) (size : Z) : M Z :=
  match fuel with
  | O => fail Timeout
  | Datatypes.S fuel =>
    r ← dir_readdir_strict dp;
    match r with Some _ => size_loop fuel dp (u32 (size + 1)) | None => mret size end
  end.
Definition dir_size (dp : nat) : M Z :=
  d ← get_dir dp;
  size ← size_loop MAX_ENTRIES dp 0;
  d' ← get_dir dp;
  put_dir dp (MkDir (d_inode d') (d_pos d)) ;;
  mret size.

(** ** Current directories *)

(** [process_dir_remove] of [userprog/process.c]: the loop over the
    processes. *)
Fixpoint process_dirs_loop (n : Z) (l : list (option nat)) : M (list (option nat)) :=
  match l with
  | [] => mret []
  | None :: l => l ← process_dirs_loop n l; mret (None :: l)
  | Some dp :: l =>
    p ← dir_get_inode dp;
    m ← with_fs (inode_get_sector (Some p));
    l ← process_dirs_loop n l;
    mret ((if n =? m then None else Some dp) :: l)
  end.
Definition process_dir_remove (p : nat) : M unit :=
  n ← with_fs (inode_get_sector (Some p));
  s ← get;
  l ← process_dirs_loop n (process_dirs s);
  modify (set_process_dirs l).

Definition dir_open_current : M (option nat) :=
  s ← get;
  match current s with
  | Some pid =>
    dir ← deref (process_dirs s !! pid);
    match dir with Some dp => dir_reopen dp | None => mret None end
  | None => dir_open_root
  end.

(** ** Removing *)

(** The part of [dir_remove] about directories: [Some b] leaves the function
    with result [b] without reaching its end. *)
Inductive verdict := Return (b : bool) | GotoDone | GoOn.
Definition check_child (p : nat) : M verdict :=
  child_dir ← dir_open (Some p);
  child_dir ← deref child_dir;
  cp ← dir_get_inode child_dir;
  n ← with_fs (inode_get_sector (Some cp));
  if n =? ROOT_DIR_SECTOR then mret (Return false)
  else
    size ← dir_size child_dir;
    if 0 <? size then dir_close (Some child_dir) ;; mret GotoDone
    else dir_close (Some child_dir) ;; process_dir_remove p ;; mret GoOn.

(** The part from [done:] on. *)
Definition remove_done (p : option nat) (success : bool) : M bool :=
  with_fs (inode_close inode_write_at p) ;; mret success.

Definition dir_remove (dp : nat) (name : list Z) : M bool :=
  r ← lookup dp name;
  match r with
  | None => remove_done None false
  | Some (e, ofs) =>
    inode ← with_fs (inode_open (e_sector e));
    match inode with
    | None => remove_done None false
    | Some p =>
      is_dir ← with_fs (inode_is_dir (Some p));
      v ← (if is_dir : bool then check_child p else mret GoOn);
      match v with
      | Return b => mret b
      | GotoDone => remove_done (Some p) false
      | GoOn =>
        d ← get_dir dp;
        n ← with_fs (inode_write_at (d_inode d) (bytes_of_entry (DirEntry (e_sector e) (e_name e) 0))
                       entry_size ofs);
        if negb (n =? entry_size) then remove_done (Some p) false
        else with_fs (inode_remove p) ;; remove_done (Some p) true
      end
    end
  end.
End ops.

End Directory.
