(* ===== verification/DirMap.v ===== *)
(** * What a directory means

    The bytes of a directory as slots of 20 bytes, and the slots in use as a
    map from names to inode sectors; how the map changes when a slot is
    written. *)
From S2P Require Import Prelude CInt Bitmap Bytes Block Cache Inode InodeSpec InodeWrite FsInv FreeMapSpec InodeExtend FileGrow File Directory.

Open Scope Z_scope.

Import Inode Directory.

(** ** Slots *)
Definition slot (c : list Z) (k : nat) : dir_entry := entry_of_bytes (take 20 (drop (20 * k) c)).
Definition slots (c : list Z) : list dir_entry := slot c <$> seq 0 (length c / 20).

(** What an entry says: its name and its sector, if it is in use. *)
Definition binding (e : dir_entry) : option (list Z * Z) :=
  if e_in_use e =? 0 then None
  else match string_in (e_name e) with Ok s => Some (s, e_sector e) | Err _ => None end.
Definition bindings (c : list Z) : list (list Z * Z) := omap binding (slots c).
Definition dir_map (c : list Z) : gmap (list Z) Z := list_to_map (bindings c).

(** The contents of a directory: whole slots, the names in use terminated and
    different. *)
Record dir_ok (c : list Z) : Prop := DirOk {
  do_length : (length c mod 20 = 0)%nat;
  do_names e : e ∈ slots c → e_in_use e ≠ 0 → is_Some (binding e);
  do_nodup : NoDup (bindings c).*1;
}.

Definition valid_name (name : list Z) : Prop := Forall (λ x, 0 < x < 256) name.

Lemma length_slots c : length (slots c) = (length c / 20)%nat.
Proof. unfold slots. by rewrite length_fmap, length_seq. Qed.
Lemma slots_lookup c k : (k < length c / 20)%nat → slots c !! k = Some (slot c k).
Proof. intros Hk. unfold slots. by rewrite list_lookup_fmap, lookup_seq_lt. Qed.

(** ** Strings *)
Lemma strcmp_string a : ∀ s name, string_in a = Ok s → valid_name name →
  ∃ r, strcmp (name ++ [0]) a = Ok r ∧ (r =? 0) = bool_decide (name = s).
Proof.
  induction a as [|y a IH]; intros s name Ha Hn; [done|]. simpl in Ha.
  destruct (Z.eqb_spec y 0) as [->|Hy].
  - injection Ha as <-. destruct name as [|x name]; simpl.
    + by exists 0.
    + apply Forall_cons in Hn as [Hx _]. rewrite (proj2 (Z.eqb_neq x 0)) by lia. simpl.
      eexists. split; [done|]. do 2 bcase; simpl; try lia; done.
  - destruct (string_in a) as [s1|] eqn:E; [|done]. injection Ha as <-.
    destruct name as [|x name]; simpl.
    + eexists. split; [done|]. do 2 bcase; simpl; try lia; done.
    + apply Forall_cons in Hn as [Hx Hn]. rewrite (proj2 (Z.eqb_neq x 0)) by lia. simpl.
      destruct (Z.eqb_spec x y) as [->|Hxy].
      * destruct (IH s1 name eq_refl Hn) as (r & -> & Hr). exists r. split; [done|]. rewrite Hr.
        apply bool_decide_ext. naive_solver.
      * eexists. split; [done|]. rewrite (bool_decide_false (x :: name = _)) by congruence.
        do 2 bcase; simpl; try lia; done.
Qed.

Lemma string_in_app s rest : valid_name s → string_in (s ++ 0 :: rest) = Ok s.
Proof.
  induction 1 as [|x s Hx _ IH]; [done|]. simpl. rewrite (proj2 (Z.eqb_neq x 0)) by lia. by rewrite IH.
Qed.

Lemma strlcpy_fits dst src : (length src < length dst)%nat →
  strlcpy dst src = src ++ 0 :: drop (length src + 1) dst.
Proof.
  intros H. unfold strlcpy. replace (length src `min` (length dst - 1))%nat with (length src) by lia.
  by rewrite take_ge by lia.
Qed.

(** ** Entries as bytes *)
Lemma entry_bytes e : in_u32 (e_sector e) → length (e_name e) = 15%nat →
  entry_of_bytes (bytes_of_entry e) = e.
Proof.
  destruct e as [n nm u]. intros Hn Hl. unfold entry_of_bytes, bytes_of_entry. cbn [e_sector e_name e_in_use] in *.
  do 15 (destruct nm as [|? nm]; [done|]). destruct nm; [|done]. cbn -[Z.pow Z.modulo Z.div un32].
  f_equal. by apply un32_le32.
Qed.
Lemma length_entry e : length (e_name e) = 15%nat → length (bytes_of_entry e) = 20%nat.
Proof. intros H. unfold bytes_of_entry. rewrite !length_app, length_bytes_of_words, H. done. Qed.
Lemma entry_name_in_use bs : length bs = 20%nat →
  length (e_name (entry_of_bytes bs)) = 15%nat.
Proof. intros H. cbn [entry_of_bytes e_name]. rewrite length_take, length_drop. lia. Qed.
(** The fields other than the sector survive whatever its value. *)
Lemma entry_bytes_fields e : length (e_name e) = 15%nat →
  e_in_use (entry_of_bytes (bytes_of_entry e)) = e_in_use e ∧
  e_name (entry_of_bytes (bytes_of_entry e)) = e_name e.
Proof.
  destruct e as [n nm u]. intros Hl. unfold entry_of_bytes, bytes_of_entry. cbn [e_sector e_name e_in_use] in *.
  do 15 (destruct nm as [|? nm]; [done|]). by destruct nm.
Qed.

(** ** Writing a slot *)
Lemma write_spec_slots c k bs : (length c mod 20 = 0)%nat → (k ≤ length c / 20)%nat → length bs = 20%nat →
  let c' := write_spec c bs (20 * k) in
  (length c' mod 20 = 0)%nat ∧
  slots c' = if (k <? length c / 20)%nat then <[k := entry_of_bytes bs]> (slots c)
             else slots c ++ [entry_of_bytes bs].
Proof.
  intros Hm Hk Hb. set (n := (length c / 20)%nat) in *.
  assert (Hc : length c = (20 * n)%nat) by (pose proof (Nat.div_mod_eq (length c) 20); lia).
  cbv zeta. unfold write_spec. rewrite Hb, Hc.
  set (r := replicate (20 * k + 20 - 20 * n) 0).
  assert (Hcr : length (c ++ r) = (20 * Nat.max n (k + 1))%nat)
    by (unfold r; rewrite length_app, length_replicate; lia).
  assert (Hl : length (splice (20 * k) bs (c ++ r)) = (20 * Nat.max n (k + 1))%nat)
    by (rewrite splice_length; lia).
  split; [rewrite Hl, Nat.mul_comm; apply Nat.Div0.mod_mul|].
  assert (Hn' : (length (splice (20 * k) bs (c ++ r)) / 20 = Nat.max n (k + 1))%nat)
    by (rewrite Hl, Nat.mul_comm; apply Nat.div_mul; lia).
  assert (Hslot : ∀ j, (j < Nat.max n (k + 1))%nat → slot (splice (20 * k) bs (c ++ r)) j
                        = if decide (j = k) then entry_of_bytes bs else slot c j).
  { intros j Hj. unfold slot. destruct (decide (j = k)) as [->|Hne].
    - f_equal. rewrite <- Hb at 1. apply splice_read. lia.
    - f_equal. unfold splice. destruct (decide (j < k)%nat).
      + rewrite drop_app_le, take_app_le by (rewrite ?length_drop, ?length_take; lia).
        rewrite take_drop_take by lia. rewrite drop_app_le, take_app_le by (rewrite ?length_drop; lia). done.
      + rewrite drop_app_ge by (rewrite length_take; lia). rewrite length_take, Nat.min_l by lia.
        rewrite drop_app_ge by lia. rewrite drop_drop, Hb.
        replace (20 * k + 20 + (20 * j - 20 * k - 20))%nat with (20 * j)%nat by lia.
        rewrite drop_app_le, take_app_le by (rewrite ?length_drop; lia). done. }
  apply list_eq. intros j. destruct (decide (j < Nat.max n (k + 1))%nat) as [Hj|Hj].
  - rewrite slots_lookup by lia. rewrite Hslot by done. destruct (Nat.ltb_spec k n).
    + rewrite list_lookup_insert. rewrite length_slots. fold n. rewrite slots_lookup by (fold n; lia).
      repeat case_decide; try done; lia.
    + assert (k = n) as -> by lia. case_decide as E.
      * subst j. rewrite lookup_app_r by (by rewrite length_slots). by rewrite length_slots, Nat.sub_diag.
      * rewrite lookup_app_l by (rewrite length_slots; fold n; lia). by rewrite slots_lookup by (fold n; lia).
  - rewrite lookup_ge_None_2 by (rewrite length_slots; lia). symmetry. apply lookup_ge_None_2.
    destruct (Nat.ltb_spec k n); rewrite ?length_insert, ?length_app, length_slots; fold n; simpl; lia.
Qed.

(** ** Changing one binding *)
Lemma omap_insert_none {A B} (f : A → option B) l k x y :
  l !! k = Some x → f y = None → omap f l ≡ₚ option_list (f x) ++ omap f (<[k := y]> l).
Proof.
  intros Hk Hy. assert (Hlt := lookup_lt_Some _ _ _ Hk). rewrite <- (take_drop_middle l k x Hk) at 1.
  rewrite insert_take_drop by done. rewrite !omap_app. cbn [omap list_omap]. rewrite Hy.
  destruct (f x); simpl; [by rewrite Permutation_middle|done].
Qed.

Lemma omap_insert_some {A B} (f : A → option B) l k x y b :
  l !! k = Some x → f x = None → f y = Some b → omap f (<[k := y]> l) ≡ₚ b :: omap f l.
Proof.
  intros Hk Hx Hy. assert (Hlt := lookup_lt_Some _ _ _ Hk). rewrite <- (take_drop_middle l k x Hk) at 2.
  rewrite insert_take_drop by done. rewrite !omap_app. cbn [omap list_omap]. rewrite Hx, Hy. simpl.
  by rewrite Permutation_middle.
Qed.

Definition matches (name : list Z) (e : dir_entry) : Prop := fst <$> binding e = Some name.
#[export] Instance matches_dec name e : Decision (matches name e).
Proof. unfold matches. apply _. Defined.

Lemma matches_binding name e : matches name e ↔ binding e = Some (name, e_sector e).
Proof.
  unfold matches, binding. destruct (e_in_use e =? 0); [naive_solver|].
  destruct (string_in (e_name e)); naive_solver.
Qed.

Lemma dir_map_binding c name x : dir_ok c → dir_map c !! name = Some x ↔ (name, x) ∈ bindings c.
Proof. intros Hc. symmetry. apply elem_of_list_to_map. apply Hc. Qed.

(** Searching the slots is looking up the map. *)
Lemma find_slot_map c name : dir_ok c →
  match list_find (matches name) (slots c) with
  | Some (j, e) => slots c !! j = Some e ∧ matches name e ∧ dir_map c !! name = Some (e_sector e)
  | None => dir_map c !! name = None
  end.
Proof.
  intros Hc. destruct (list_find (matches name) (slots c)) as [[j e]|] eqn:E.
  - apply list_find_Some in E as (Hj & Hm & _). split_and!; [done..|]. apply dir_map_binding; [done|].
    apply list_elem_of_omap. exists e. split; [by eapply list_elem_of_lookup_2|by apply matches_binding].
  - apply list_find_None in E. destruct (dir_map c !! name) as [x|] eqn:Ex; [|done]. exfalso.
    apply dir_map_binding in Ex; [|done]. apply list_elem_of_omap in Ex as (e & He & Hb).
    rewrite Forall_forall in E. apply (E e He). unfold matches. by rewrite Hb.
Qed.

(** The bindings after an entry has been written into a slot that was free or
    at the end. *)
Lemma bindings_add c k bs b :
  (length c mod 20 = 0)%nat → length bs = 20%nat → binding (entry_of_bytes bs) = Some b →
  (∃ e, slots c !! k = Some e ∧ binding e = None) ∨ k = (length c / 20)%nat →
  bindings (write_spec c bs (20 * k)) ≡ₚ b :: bindings c.
Proof.
  intros Hm Hb He Hk. unfold bindings. destruct (write_spec_slots c k bs Hm) as [_ ->]; [|done|].
  { destruct Hk as [(e & Hk & _)| ->]; [|done]. apply lookup_lt_Some in Hk. rewrite length_slots in Hk. lia. }
  destruct Hk as [(e & Hk & Hn)| ->].
  - assert (Hlt := lookup_lt_Some _ _ _ Hk). rewrite length_slots in Hlt.
    rewrite (proj2 (Nat.ltb_lt _ _) Hlt). by eapply omap_insert_some.
  - rewrite Nat.ltb_irrefl, omap_app. cbn [omap list_omap]. rewrite He. by rewrite <- Permutation_cons_append.
Qed.

Lemma slots_names c k bs : dir_ok c → (k ≤ length c / 20)%nat → length bs = 20%nat →
  (e_in_use (entry_of_bytes bs) ≠ 0 → is_Some (binding (entry_of_bytes bs))) →
  ∀ e, e ∈ slots (write_spec c bs (20 * k)) → e_in_use e ≠ 0 → is_Some (binding e).
Proof.
  intros Hc Hk Hb He e Hin Hu. destruct (write_spec_slots c k bs (do_length c Hc) Hk Hb) as [_ E].
  rewrite E in Hin. destruct (k <? length c / 20)%nat.
  - apply list_elem_of_lookup in Hin as [j Hj]. apply list_lookup_insert_Some in Hj as [(-> & <- & _)|[_ Hj]];
      [by apply He|]. apply (do_names c Hc); [by eapply list_elem_of_lookup_2|done].
  - apply elem_of_app in Hin as [Hin| ->%list_elem_of_singleton]; [by apply (do_names c Hc)|by apply He].
Qed.

Lemma dir_ok_add c k bs name x :
  dir_ok c → length bs = 20%nat → binding (entry_of_bytes bs) = Some (name, x) → dir_map c !! name = None →
  (∃ e, slots c !! k = Some e ∧ e_in_use e = 0) ∨ k = (length c / 20)%nat →
  let c' := write_spec c bs (20 * k) in dir_ok c' ∧ dir_map c' = <[name := x]> (dir_map c).
Proof.
  intros Hc Hb He Hname Hk c'. assert (Hperm : bindings c' ≡ₚ (name, x) :: bindings c).
  { apply bindings_add; [apply Hc|done|done|]. destruct Hk as [(e & Hk & Hu)|Hk]; [left|by right].
    exists e. split; [done|]. unfold binding. by rewrite Hu. }
  assert (Hkl : (k ≤ length c / 20)%nat).
  { destruct Hk as [(e & Hk & _)| ->]; [|done]. apply lookup_lt_Some in Hk. rewrite length_slots in Hk. lia. }
  assert (Hnd : NoDup (((name, x) :: bindings c).*1)).
  { simpl. apply NoDup_cons. split; [|apply Hc]. by apply not_elem_of_list_to_map. }
  split.
  - split.
    + by apply write_spec_slots; [apply Hc|done|done].
    + apply slots_names; done.
    + by rewrite Hperm.
  - unfold dir_map. rewrite <- list_to_map_cons. apply list_to_map_proper; [by rewrite Hperm|done].
Qed.

Lemma dir_ok_remove c k bs name e :
  dir_ok c → length bs = 20%nat → slots c !! k = Some e → matches name e →
  e_in_use (entry_of_bytes bs) = 0 →
  let c' := write_spec c bs (20 * k) in dir_ok c' ∧ dir_map c' = delete name (dir_map c).
Proof.
  intros Hc Hb Hk Hm Hu c'. assert (Hlt := lookup_lt_Some _ _ _ Hk). rewrite length_slots in Hlt.
  assert (Hn : binding (entry_of_bytes bs) = None) by (unfold binding; by rewrite Hu).
  assert (Hperm : bindings c ≡ₚ (name, e_sector e) :: bindings c').
  { unfold bindings, c'. destruct (write_spec_slots c k bs) as [_ ->]; [apply Hc|lia|done|].
    rewrite (proj2 (Nat.ltb_lt _ _) Hlt). apply matches_binding in Hm.
    rewrite (omap_insert_none binding (slots c) k e _ Hk Hn) at 1. by rewrite Hm. }
  assert (Hnd : NoDup (((name, e_sector e) :: bindings c').*1)) by (rewrite <- Hperm; apply Hc).
  assert (Hnd' := Hnd). simpl in Hnd'. apply NoDup_cons in Hnd' as [Hnin Hnd'].
  split.
  - split; [|apply slots_names; try done; lia|done]. apply write_spec_slots; [apply Hc|lia|done].
  - unfold dir_map. rewrite (list_to_map_proper (bindings c) _ (do_nodup c Hc) Hperm). simpl.
    symmetry. apply delete_insert_id. by apply not_elem_of_list_to_map_1.
Qed.

(** * Running the loops over a directory

    The scans of [directory.c] over a well-formed directory of at most 307
    slots (its direct blocks), in terms of the slots. *)
Import Inode Directory.

(** The bytes of the direct blocks. *)
Definition DIRECT_LENGTH : Z := 6144.

Section run.
Context {S : Type} `{!SectorStore S}.
Implicit Types (s : dfs S) (v : Z → list Z) (live : gset Z).

(** Only the store below the file system differs. *)
Definition quiet s s' : Prop := s' = set_base (base s') s ∧ only_store (base s) (base s').

Lemma quiet_refl s : quiet s s.
Proof. split; [by destruct s|apply only_store_refl]. Qed.
Lemma quiet_trans s1 s2 s3 : quiet s1 s2 → quiet s2 s3 → quiet s1 s3.
Proof.
  intros [E1 H1] [E2 H2]. split; [rewrite E2, E1; done|by eapply only_store_trans].
Qed.
Lemma quiet_fields s s' : quiet s s' →
  dirs s' = dirs s ∧ next_dir s' = next_dir s ∧ process_dirs s' = process_dirs s ∧ current s' = current s ∧
  same_heap (base s) (base s') ∧ free_map (base s') = free_map (base s).
Proof. intros [-> H]. cbn. split_and!; try done; [by apply only_store_heap|by apply only_store_fields in H as (? & _)]. Qed.
Lemma quiet_inode s s' q i : quiet s s' → inodes (base s) !! q = Some i → inodes (base s') !! q = Some i.
Proof. intros [_ H]. by apply only_store_inode. Qed.

Lemma with_fs_ok {A} (m : ST (fs S) A) s a b : m (base s) = Ok (a, b) → with_fs m s = Ok (a, set_base b s).
Proof. apply run_zoom_ok. Qed.
Lemma get_dir_ok s dp d : dirs s !! dp = Some d → get_dir dp s = Ok (d, s).
Proof. intros H. unfold get_dir. erewrite run_bind_ok by reflexivity. by rewrite H. Qed.

Section scan.
Context (N : Z) (v : Z → list Z) (live : gset Z) (p : nat) (i : inode).
Let c := contents v (sector i).
Let n := (length c / 20)%nat.
Hypothesis Hlive : sector i ∈ live.
Hypothesis Hc : (length c mod 20 = 0)%nat.
Hypothesis Hlen : i_length (disk v (sector i)) < DIRECT_LENGTH.

(** The directory's inode is open and the file system consistent. *)
Definition scannable s : Prop := fs_ok N v (base s) live ∧ inodes (base s) !! p = Some i.

Lemma scannable_length s : scannable s →
  Z.of_nat (length c) = i_length (disk v (sector i)) ∧ length c = (20 * n)%nat.
Proof.
  intros [Hok Hp]. assert (Hin := lo_inode _ _ _ (fo_live _ _ _ _ Hok) _ Hlive).
  assert (Hw := wf_length _ (iok_wf _ _ _ Hin)).
  split; [|pose proof (Nat.div_mod_eq (length c) 20); unfold n; lia].
  unfold c, contents. rewrite (length_contents N v (base s)); [lia|apply Hok|by apply inode_ok_file].
Qed.

Lemma read_slot_ok s e k : scannable s → (k ≤ n)%nat →
  ∃ s', read_entry p e (20 * Z.of_nat k) s
        = Ok ((if (k <? n)%nat then (20, slot c k) else (0, entry_of_bytes (bytes_of_entry e))), s') ∧
    scannable s' ∧ quiet s s'.
Proof.
  intros Hs Hk. destruct (scannable_length s Hs) as [Hl1 Hl2]. destruct Hs as [Hok Hp].
  assert (Hin := lo_inode _ _ _ (fo_live _ _ _ _ Hok) _ Hlive).
  assert (Hd : 20 * Z.of_nat n < DIRECT_LENGTH) by lia. unfold DIRECT_LENGTH in *.
  destruct (inode_read_at_ok (base s) N v p i entry_size (20 * Z.of_nat k)) as (b & Hrun & Hb & Ho);
    [apply Hok|done|by apply (inode_ok_sector N v)|by apply inode_ok_file|done|lia|unfold entry_size; lia| |].
  { right. left. assert (Z.max (20 * Z.of_nat k) (i_length (disk v (sector i))) / 512 < 12)
      by (apply Z.div_lt_upper_bound; lia). lia. }
  exists (set_base b s). unfold read_entry. erewrite run_bind_ok by (by apply with_fs_ok).
  assert (Hq : quiet s (set_base b s)) by done.
  split_and!; [|split; [by eapply fs_ok_quiet|by eapply quiet_inode]|done].
  fold c. change (Z.to_nat entry_size) with 20%nat.
  replace (Z.to_nat (20 * Z.of_nat k)) with (20 * k)%nat by lia. do 2 f_equal.
  destruct (Nat.ltb_spec k n).
  - assert (El : length (take 20 (drop (20 * k) c)) = 20%nat) by (rewrite length_take, length_drop; lia).
    rewrite El. f_equal. unfold slot, entry_of_bytes. rewrite !take_app_le, drop_app_le, take_app_le, app_nth1;
      rewrite ?length_drop; try lia. done.
  - rewrite drop_ge by lia. done.
Qed.

Lemma scan_offset k : (k ≤ n)%nat → ∀ s, scannable s →
  s32 (20 * Z.of_nat k) = 20 * Z.of_nat k ∧ u32 (20 * Z.of_nat k + entry_size) = 20 * Z.of_nat (k + 1) ∧
  s32 (20 * Z.of_nat k + entry_size) = 20 * Z.of_nat (k + 1).
Proof.
  intros Hk s Hs. destruct (scannable_length s Hs) as [H1 H2]. unfold DIRECT_LENGTH in Hlen.
  unfold entry_size. rewrite !s32_id, u32_id by (unfold in_s32, in_u32; lia). lia.
Qed.

Lemma drop_slots_cons k e l : drop k (slots c) = e :: l → (k < n)%nat ∧ e = slot c k ∧ drop (k + 1) (slots c) = l.
Proof.
  intros E. assert (Hk : (k < n)%nat).
  { destruct (decide (k < n)%nat); [done|]. rewrite drop_ge in E by (rewrite length_slots; fold n; lia). done. }
  rewrite (drop_S _ _ _ (slots_lookup c k Hk)) in E. injection E as <- <-. by rewrite Nat.add_1_r.
Qed.
Lemma drop_slots_nil k : (k ≤ n)%nat → drop k (slots c) = [] → k = n.
Proof.
  intros Hk E. apply (f_equal length) in E. rewrite length_drop, length_slots in E. fold n in E. simpl in E. lia.
Qed.

Lemma lookup_loop_ok name l : valid_name name → dir_ok c → ∀ fuel k e s,
  drop k (slots c) = l → (k ≤ n)%nat → (length l < fuel)%nat → scannable s →
  ∃ s', lookup_loop fuel p name e (20 * Z.of_nat k) s
        = Ok ((λ '(j, e), (e, 20 * Z.of_nat (k + j))) <$> list_find (matches name) l, s') ∧
    scannable s' ∧ quiet s s'.
Proof.
  intros Hname Hdir. induction l as [|e0 l IH]; intros fuel k e s El Hk Hf Hs; (destruct fuel as [|fuel]; [lia|]); simpl.
  - pose proof (drop_slots_nil k Hk El) as Ek; subst k. destruct (scan_offset n Hk s Hs) as (-> & _ & _).
    destruct (read_slot_ok s e n Hs Hk) as (s' & Hrun & Hs' & Hq). rewrite Nat.ltb_irrefl in Hrun.
    run_with Hrun. by exists s'.
  - simpl in Hf. apply drop_slots_cons in El as (Hlt & -> & El). destruct (scan_offset k Hk s Hs) as (-> & E2 & _).
    destruct (read_slot_ok s e k Hs Hk) as (s1 & Hrun & Hs1 & Hq). rewrite (proj2 (Nat.ltb_lt _ _) Hlt) in Hrun.
    run_with Hrun. cbv beta iota. change (20 =? entry_size) with true. cbv iota.
    assert (Hfound : (if negb (e_in_use (slot c k) =? 0) then c0 ← lift (strcmp (name ++ [0]) (e_name (slot c k))); mret (c0 =? 0)
               else mret false) s1 = Ok (bool_decide (matches name (slot c k)), s1)).
    { destruct (Z.eqb_spec (e_in_use (slot c k)) 0) as [Hu|Hu]; cbn [negb].
      - rewrite bool_decide_false; [done|]. unfold matches, binding. by rewrite Hu.
      - destruct (do_names c Hdir (slot c k)) as [b Hb]; [|done|].
        { eapply list_elem_of_lookup_2, slots_lookup. exact Hlt. }
        unfold binding in Hb. rewrite (proj2 (Z.eqb_neq _ _) Hu) in Hb.
        destruct (string_in (e_name (slot c k))) as [str|] eqn:Estr; [|done]. injection Hb as <-.
        destruct (strcmp_string _ str name Estr Hname) as (r & Hr & Er).
        rewrite (run_bind_ok (lift _) _ s1 r s1) by (unfold lift; by rewrite Hr). rewrite Er. unfold mret, ST_ret. do 2 f_equal.
        apply bool_decide_ext. unfold matches, binding. rewrite (proj2 (Z.eqb_neq _ _) Hu), Estr. simpl. naive_solver. }
    run_with Hfound. case_decide as Hm.
    + rewrite bool_decide_true by done.
      exists s1. simpl. by rewrite Nat.add_0_r.
    + rewrite bool_decide_false by done. rewrite E2.
      destruct (IH fuel (k + 1)%nat (slot c k) s1 El) as (s2 & Hrun2 & Hs2 & Hq2); [lia|lia|done|].
      exists s2. split_and!; [|done|by eapply quiet_trans]. rewrite Hrun2. do 2 f_equal.
      destruct (list_find (matches name) l) as [[j e1]|]; simpl; [|done]. do 3 f_equal. lia.
Qed.

Lemma free_slot_loop_ok l : ∀ fuel k e s,
  drop k (slots c) = l → (k ≤ n)%nat → (length l < fuel)%nat → length (e_name e) = 15%nat → scannable s →
  ∃ s' e' j, free_slot_loop fuel p e (20 * Z.of_nat k) s = Ok ((e', 20 * Z.of_nat j), s') ∧
    length (e_name e') = 15%nat ∧ ((∃ e, slots c !! j = Some e ∧ e_in_use e = 0) ∨ j = n) ∧
    scannable s' ∧ quiet s s'.
Proof.
  induction l as [|e0 l IH]; intros fuel k e s El Hk Hf He Hs; (destruct fuel as [|fuel]; [lia|]); simpl.
  - pose proof (drop_slots_nil k Hk El) as Ek; subst k.
    destruct (read_slot_ok s e n Hs Hk) as (s' & Hrun & Hs' & Hq). rewrite Nat.ltb_irrefl in Hrun.
    run_with Hrun. exists s', (entry_of_bytes (bytes_of_entry e)), n. split_and!; [done| |by right|done..].
    by apply entry_name_in_use, length_entry.
  - simpl in Hf. apply drop_slots_cons in El as (Hlt & -> & El). destruct (scan_offset k Hk s Hs) as (_ & _ & E2).
    destruct (scannable_length s Hs) as [_ Hcl].
    assert (Hen : length (e_name (slot c k)) = 15%nat).
    { apply entry_name_in_use. rewrite length_take, length_drop. lia. }
    destruct (read_slot_ok s e k Hs Hk) as (s1 & Hrun & Hs1 & Hq). rewrite (proj2 (Nat.ltb_lt _ _) Hlt) in Hrun.
    run_with Hrun. cbv beta iota. change (20 =? entry_size) with true. cbv iota.
    destruct (Z.eqb_spec (e_in_use (slot c k)) 0) as [Hu|Hu].
    + exists s1, (slot c k), k. split_and!; [done|done| |done..]. left. exists (slot c k).
      by rewrite slots_lookup.
    + rewrite E2. destruct (IH fuel (k + 1)%nat (slot c k) s1 El) as (s2 & e2 & j & Hrun2 & H1 & H2 & H3 & H4);
        [lia|lia|done|done|]. exists s2, e2, j. split_and!; try done. by eapply quiet_trans.
Qed.

(** The constant fuel is enough. *)
Lemma max_entries_enough s k : scannable s → (length (drop k (slots c)) < MAX_ENTRIES)%nat.
Proof.
  intros Hs. destruct (scannable_length s Hs) as [H1 H2]. rewrite length_drop, length_slots. fold n.
  unfold DIRECT_LENGTH in Hlen. apply Nat2Z.inj_lt. unfold MAX_ENTRIES. change (MAX_LENGTH / entry_size + 2) with 423016. lia.
Qed.
End scan.
End run.
