(* ===== verification/DirectorySpec.v ===== *)
(** * The behaviour of directories

    A directory is a map from names to inode sectors: searching, adding,
    removing and listing, on directories within their direct blocks. *)
From S2P Require Import Prelude CInt Bitmap Bytes Block Cache Inode InodeSpec InodeWrite FsInv FreeMapSpec InodeExtend FileGrow File FileRemove Directory DirMap.
Import Inode Directory.

Open Scope Z_scope.

Section dirs.
Context {S : Type} `{!SectorStore S}.
Implicit Types (s : dfs S) (v : Z → list Z) (live : gset Z).
Variable junk : dir_entry.

(** [dp] is an open directory on inode [i], at key [ip], well formed. *)
Record dir_at v s live dp (ip : nat) (i : inode) (pos : Z) : Prop := DirAt {
  da_dir : dirs s !! dp = Some (MkDir ip pos);
  da_inode : inodes (base s) !! ip = Some i;
  da_live : sector i ∈ live;
  da_ok : dir_ok (contents v (sector i));
  da_length : i_length (disk v (sector i)) < DIRECT_LENGTH;
}.

Lemma dir_at_quiet v s s' live dp ip i pos :
  quiet s s' → dir_at v s live dp ip i pos → dir_at v s' live dp ip i pos.
Proof.
  intros Hq []. destruct (quiet_fields s s' Hq) as (E & _). split; try done; [by rewrite E|by eapply quiet_inode].
Qed.

Lemma lookup_ok_run N v s live dp ip i pos name :
  fs_ok N v (base s) live → dir_at v s live dp ip i pos → valid_name name →
  ∃ s', lookup junk dp name s
        = Ok ((λ '(j, e), (e, 20 * Z.of_nat j)) <$> list_find (matches name) (slots (contents v (sector i))), s') ∧
    fs_ok N v (base s') live ∧ quiet s s'.
Proof.
  intros Hok [Hd Hi Hl Hc Hlen] Hname. unfold lookup. run_with (get_dir_ok _ _ _ Hd). cbn [d_inode].
  assert (Hsc : scannable N v live ip i s) by done.
  destruct (lookup_loop_ok N v live ip i Hl (do_length _ Hc) Hlen name (slots (contents v (sector i))) Hname Hc
              MAX_ENTRIES 0 junk s) as (s' & Hrun & [Hok' _] & Hq); [done|lia| |done|].
  { apply (max_entries_enough N v live ip i Hl (do_length _ Hc) Hlen s 0 Hsc). }
  exists s'. split; [exact Hrun|done].
Qed.

(** A search opens the inode that the map names. *)
Lemma dir_lookup_ok N v s live dp ip i pos name :
  fs_ok N v (base s) live → dir_at v s live dp ip i pos → valid_name name →
  table_ok (base s) → (∀ p j, inodes (base s) !! p = Some j → open_cnt j < 2 ^ 31 - 2) →
  match dir_map (contents v (sector i)) !! name with
  | None => ∃ s', dir_lookup junk dp name s = Ok (None, s') ∧ fs_ok N v (base s') live ∧ quiet s s'
  | Some n => ∃ q j s', dir_lookup junk dp name s = Ok (Some q, s') ∧ open_result (base s) n q j ∧
      inodes (base s') = <[q := j]> (inodes (base s)) ∧ s' = set_base (base s') s ∧
      fs_ok N v (base s') live ∧ table_ok (base s') ∧ free_map (base s') = free_map (base s) ∧
      free_map_file (base s') = free_map_file (base s) ∧ files (base s') = files (base s)
  end.
Proof.
  intros Hok Hd Hname Ht Hcnt. destruct (lookup_ok_run N v s live dp ip i pos name Hok Hd Hname) as (s1 & Hrun & Hok1 & Hq).
  unfold dir_lookup. rewrite (run_bind_ok _ _ _ _ _ Hrun).
  assert (Hfind := find_slot_map _ name (da_ok _ _ _ _ _ _ _ Hd)).
  destruct (list_find (matches name) _) as [[k e]|].
  - destruct Hfind as (_ & _ & ->). cbn [fmap option_fmap option_map].
    destruct (quiet_fields s s1 Hq) as (_ & _ & _ & _ & Hh & Ef). assert (Hh' := Hh). destruct Hh' as (E1 & E2 & E3 & E4 & E5).
    destruct (inode_open_ok N v (base s1) live (e_sector e)) as (q & j & b & Ho & Hres & Ei & Ht' & Hok' & F1 & F2 & F3);
      [done|by eapply table_ok_heap|by rewrite E2|].
    rewrite (with_fs_ok _ _ _ _ Ho). eexists q, j, _. split; [reflexivity|]. cbn [base set_base].
    split_and!; try done; try congruence.
    + unfold open_result in *. by rewrite E2, E5 in Hres.
    + destruct Hq as [-> _]. done.
  - rewrite Hfind. cbn [fmap option_fmap option_map]. exists s1. done.
Qed.

(** ** Adding *)

Lemma needed_slot len ofs : 0 ≤ ofs ≤ len → (needed len (ofs + 20) ≤ needed len (len + 20))%nat.
Proof.
  intros Ho. assert (Hb := blocks_for_mono (ofs + 20) (len + 20) ltac:(lia)). unfold needed, indirect_for.
  destruct (Nat.leb_spec (blocks_for (ofs + 20)) 12), (Nat.leb_spec (blocks_for (len + 20)) 12); lia.
Qed.
(** The sectors an entry more may need. *)
Definition slot_need v (i : inode) : nat :=
  needed (i_length (disk v (sector i))) (i_length (disk v (sector i)) + 20).

(** What has changed after an entry was written into directory [i]. *)
Record slot_written N v s live (i : inode) v' s' : Prop := SlotWritten {
  sw_ok : fs_ok N v' (base s') live;
  sw_state : s' = set_base (base s') s;
  sw_heap : same_heap (base s) (base s');
  sw_length : i_length (disk v' (sector i)) ≤ i_length (disk v (sector i)) + 20;
  sw_others sec : sec ∈ live → sec ≠ sector i → sec ≠ FREE_MAP_SECTOR → contents v' sec = contents v sec;
  sw_synced : free_map_file (base s) ≠ None → synced v' (base s');
  sw_shape sec : sec ∈ live → sec ≠ sector i → same_shape v v' sec;
  sw_dir : i_is_dir (disk v' (sector i)) = i_is_dir (disk v (sector i));
  sw_free : ∃ k, (k ≤ slot_need v i)%nat ∧ free_sectors (free_map (base s')) 0 (Z.to_nat N)
                               = drop k (free_sectors (free_map (base s)) 0 (Z.to_nat N));
}.

Lemma write_slot_ok N v s live ip i e k :
  let c := contents v (sector i) in
  fs_ok N v (base s) live → inodes (base s) !! ip = Some i → sector i ∈ live →
  (length c mod 20 = 0)%nat → (k ≤ length c / 20)%nat → length (e_name e) = 15%nat →
  sector i ≠ FREE_MAP_SECTOR → deny_write_cnt i = 0 →
  i_length (disk v (sector i)) < DIRECT_LENGTH →
  (needed (i_length (disk v (sector i))) (20 * Z.of_nat k + 20)
     ≤ length (free_sectors (free_map (base s)) 0 (Z.to_nat N)))%nat →
  (free_map_file (base s) ≠ None → synced v (base s)) →
  ∃ s' v', with_fs (inode_write_at ip (bytes_of_entry e) entry_size (20 * Z.of_nat k)) s = Ok (entry_size, s') ∧
    slot_written N v s live i v' s' ∧ contents v' (sector i) = write_spec c (bytes_of_entry e) (20 * k).
Proof.
  intros c Hok Hi Hl Hm Hk He Hfm Hdeny Hlen Hfree Hsync.
  assert (Hin := lo_inode _ _ _ (fo_live _ _ _ _ Hok) _ Hl).
  assert (Hlc : Z.of_nat (length c) = i_length (disk v (sector i))).
  { unfold c, contents. rewrite (length_contents N v (base s)); [|apply Hok|by apply inode_ok_file].
    assert (Hw := wf_length _ (iok_wf _ _ _ Hin)). lia. }
  assert (Hofs : 0 ≤ 20 * Z.of_nat k ≤ i_length (disk v (sector i)))
    by (pose proof (Nat.div_mod_eq (length c) 20); lia).
  assert (Hneed := needed_slot _ _ Hofs). fold (slot_need v i) in Hneed. unfold DIRECT_LENGTH in Hlen.
  destruct (inode_write_at_ok (base s) N v live ip i (bytes_of_entry e) entry_size (20 * Z.of_nat k))
    as (b & v' & Hrun & Hok' & Hl' & Hh & Hc' & Hoth & Hsy & Hshp & Hisd & Hfr); try done.
  { rewrite length_entry by done. unfold entry_size. lia. }
  { lia. }
  { unfold entry_size, SMALL_LENGTH. lia. }
  exists (set_base b s), v'. split; [by apply with_fs_ok|]. split.
  - split; cbn [base set_base]; try done.
    + rewrite Hl'. unfold entry_size. lia.
    + eexists. split; [exact Hneed|]. exact Hfr.
  - rewrite Hc'. unfold c. change (Z.to_nat entry_size) with 20%nat. rewrite take_ge by (rewrite length_entry by done; lia).
    f_equal. lia.
Qed.

Lemma slot_written_quiet N v s s1 live i v' s' :
  quiet s s1 → slot_written N v s1 live i v' s' → slot_written N v s live i v' s'.
Proof.
  intros Hq [H1 H2 H3 H4 H5 H6 H7 H8 H9]. destruct (quiet_fields s s1 Hq) as (_ & _ & _ & _ & Hh & Ef).
  split; try done.
  - destruct Hq as [E _]. rewrite H2, E. done.
  - by eapply same_heap_trans.
  - destruct Hh as (E & _). by rewrite <- E.
  - by rewrite <- Ef.
Qed.

(** The directory's position and inode after that. *)
Lemma slot_written_dir N v s live dp ip i pos v' s' :
  slot_written N v s live i v' s' → dir_at v s live dp ip i pos → dir_ok (contents v' (sector i)) →
  i_length (disk v (sector i)) + 20 < DIRECT_LENGTH → dir_at v' s' live dp ip i pos.
Proof.
  intros Hw [H1 H2 H3 H4 H5] Hc Hl. destruct (sw_heap _ _ _ _ _ _ _ Hw) as (_ & E & _).
  assert (Hl' := sw_length _ _ _ _ _ _ _ Hw). split; try done; [by rewrite (sw_state _ _ _ _ _ _ _ Hw)|by rewrite E|lia].
Qed.

(** What [dir_add] needs of a directory to write an entry into it: writable,
    below its limit, and a free sector at hand. *)
Record writable N v s (i : inode) : Prop := Writable {
  wr_sector : sector i ≠ FREE_MAP_SECTOR;
  wr_deny : deny_write_cnt i = 0;
  wr_length : i_length (disk v (sector i)) + 20 < DIRECT_LENGTH;
  wr_free : (slot_need v i ≤ length (free_sectors (free_map (base s)) 0 (Z.to_nat N)))%nat;
  wr_synced : free_map_file (base s) ≠ None → synced v (base s);
}.

Lemma writable_quiet N v s s' i : quiet s s' → writable N v s i → writable N v s' i.
Proof.
  intros Hq [H1 H2 H3 H4 H5]. destruct (quiet_fields s s' Hq) as (_ & _ & _ & _ & (E & _) & Ef).
  split; try done; unfold synced in *; by rewrite ?E, ?Ef.
Qed.

Definition good_name (name : list Z) : Prop := valid_name name ∧ (1 ≤ length name ≤ 14)%nat.

(** The entry [dir_add] writes. *)
Lemma new_entry_binding e name x : good_name name → in_u32 x → length (e_name e) = 15%nat →
  let e' := DirEntry x (strlcpy (e_name e) name) 1 in
  length (e_name e') = 15%nat ∧ binding (entry_of_bytes (bytes_of_entry e')) = Some (name, x).
Proof.
  intros [Hv Hl] Hx He e'. assert (Hs : strlcpy (e_name e) name = name ++ 0 :: drop (length name + 1) (e_name e))
    by (apply strlcpy_fits; lia).
  assert (Hlen : length (e_name e') = 15%nat)
    by (cbn; rewrite Hs, length_app; cbn [length]; rewrite length_drop; lia).
  split; [done|]. rewrite entry_bytes by done. unfold binding. cbn [e_in_use e_name e_sector e'].
  by rewrite Hs, string_in_app.
Qed.

(** [dir_add] of a new name, up to the initialisation of a new directory. *)
Lemma dir_add_run depth N v s live dp ip i pos name x is_dir :
  fs_ok N v (base s) live → dir_at v s live dp ip i pos → writable N v s i →
  good_name name → in_u32 x → length (e_name junk) = 15%nat →
  dir_map (contents v (sector i)) !! name = None →
  ∃ s1 v1, dir_add_rec junk (Datatypes.S depth) dp name x is_dir s
      = ((if is_dir then parent ← with_fs (inode_get_sector (Some ip));
                         dir_init_with (dir_add_rec junk depth) x parent else mret tt) ;; mret true) s1 ∧
    slot_written N v s live i v1 s1 ∧ dir_at v1 s1 live dp ip i pos ∧
    dir_map (contents v1 (sector i)) = <[name := x]> (dir_map (contents v (sector i))).
Proof.
  intros Hok Hd Hw Hname Hx Hj Hnew. destruct Hd as [Hdp Hi Hl Hc Hlen] eqn:E. clear E.
  cbn [dir_add_rec]. destruct Hname as [Hv Hn] eqn:E. clear E.
  destruct (Z.eqb_spec (Z.of_nat (length name)) 0); [lia|]. cbn [orb]. unfold NAME_MAX.
  destruct (Z.ltb_spec 14 (Z.of_nat (length name))); [lia|].
  destruct (lookup_ok_run N v s live dp ip i pos name Hok Hd Hv) as (s1 & Hrun1 & Hok1 & Hq1).
  rewrite (run_bind_ok _ _ _ _ _ Hrun1). clear Hrun1.
  assert (Hfind := find_slot_map _ name Hc).
  destruct (list_find (matches name) _) as [[k e]|]; [destruct Hfind as (_ & _ & Hsome); congruence|].
  cbn [fmap option_fmap option_map]. assert (Hd1 := dir_at_quiet _ _ _ _ _ _ _ _ Hq1 Hd).
  run_with (get_dir_ok _ _ _ (da_dir _ _ _ _ _ _ _ Hd1)). cbn [d_inode].
  assert (Hsc : scannable N v live ip i s1) by (split; [done|apply (da_inode _ _ _ _ _ _ _ Hd1)]).
  destruct (free_slot_loop_ok N v live ip i Hl (do_length _ Hc) Hlen (slots (contents v (sector i)))
              MAX_ENTRIES 0 junk s1) as (s2 & e & k & Hrun2 & He & Hk & [Hok2 Hi2] & Hq2); [done|lia| |done|done|].
  { apply (max_entries_enough N v live ip i Hl (do_length _ Hc) Hlen s1 0 Hsc). }
  change (20 * Z.of_nat 0) with 0 in Hrun2. rewrite (run_bind_ok _ _ _ _ _ Hrun2). clear Hrun2. cbv beta iota.
  assert (Hq := quiet_trans _ _ _ Hq1 Hq2). assert (Hw2 := writable_quiet _ _ _ _ _ Hq Hw).
  destruct (new_entry_binding e name x Hname Hx He) as [Hl15 Hb].
  destruct Hw2 as [W1 W2 W3 W4 W5].
  destruct (write_slot_ok N v s2 live ip i (DirEntry x (strlcpy (e_name e) name) 1) k)
    as (s3 & v3 & Hrun3 & Hsw & Hc3); try done.
  { apply Hc. }
  2: { etrans; [|exact W4]. apply needed_slot. destruct (scannable_length N v live ip i Hl (do_length _ Hc) s2) as [L1 L2]; [done|].
       destruct Hk as [(e0 & Hk & _)| ->]; [apply lookup_lt_Some in Hk; rewrite length_slots in Hk|]; lia. }
  { destruct Hk as [(e0 & Hk & _)| ->]; [|done]. apply lookup_lt_Some in Hk. rewrite length_slots in Hk. lia. }
  rewrite (run_bind_ok _ _ _ _ _ Hrun3). clear Hrun3. change (entry_size =? entry_size) with true. cbn [andb].
  destruct (dir_ok_add (contents v (sector i)) k (bytes_of_entry (DirEntry x (strlcpy (e_name e) name) 1)) name x)
    as [Hc3' Hm3]; try done. { by apply length_entry. }
  rewrite <- Hc3 in Hc3', Hm3. assert (Hsw' := slot_written_quiet _ _ _ _ _ _ _ _ Hq Hsw).
  exists s3, v3. split_and!; [done|done|by eapply slot_written_dir|done].
Qed.

(** ** New directories *)
Lemma dir_open_ok s p : dir_open (Some p) s = Ok (Some (next_dir s),
  Dfs (base s) (<[next_dir s := MkDir p 0]> (dirs s)) (Datatypes.S (next_dir s)) (process_dirs s) (current s)).
Proof. reflexivity. Qed.

(** The entries of a fresh directory. *)
Definition fresh_dir (x parent : Z) : gmap (list Z) Z := {[ CURRENT_DIR := x; PARENT_DIR := parent ]}.

(** An empty inode that is about to become a directory. *)
Record blank v s live (x : Z) : Prop := Blank {
  bl_live : x ∈ live;
  bl_sector : x ≠ FREE_MAP_SECTOR;
  bl_u32 : in_u32 x;
  bl_length : i_length (disk v x) = 0;
  bl_closed p j : inodes (base s) !! p = Some j → sector j ≠ x;
}.

Lemma blank_dir_ok v x : i_length (disk v x) = 0 → dir_ok (contents v x) ∧ dir_map (contents v x) = ∅.
Proof. intros E. unfold contents, contents_of. rewrite E. simpl. split; [|done]. split; [done| |by apply NoDup_nil]. intros e He. by apply elem_of_nil in He. Qed.

(** [dir_add] of a new name that is no directory. *)
Lemma dir_add_plain depth N v s live dp ip i pos name x :
  fs_ok N v (base s) live → dir_at v s live dp ip i pos → writable N v s i →
  good_name name → in_u32 x → length (e_name junk) = 15%nat →
  dir_map (contents v (sector i)) !! name = None →
  ∃ s1 v1, dir_add_rec junk (Datatypes.S depth) dp name x false s = Ok (true, s1) ∧
    slot_written N v s live i v1 s1 ∧ dir_at v1 s1 live dp ip i pos ∧
    dir_map (contents v1 (sector i)) = <[name := x]> (dir_map (contents v (sector i))).
Proof.
  intros. destruct (dir_add_run depth N v s live dp ip i pos name x false) as (s1 & v1 & Hrun & H'); [done..|].
  exists s1, v1. split; [exact Hrun|done].
Qed.

Record dir_made N v s live x parent v' s' : Prop := DirMade {
  dm_ok : fs_ok N v' (base s') live;
  dm_map : dir_ok (contents v' x) ∧ dir_map (contents v' x) = fresh_dir x parent;
  dm_others sec : sec ∈ live → sec ≠ x → sec ≠ FREE_MAP_SECTOR → contents v' sec = contents v sec;
  dm_synced : free_map_file (base s) ≠ None → synced v' (base s');
  (** the directory stays open: it is never closed *)
  dm_open : inodes (base s') = <[next (base s) := MkInode x 1 false 0]> (inodes (base s));
  dm_dirs : dirs s' = <[next_dir s := MkDir (next (base s)) 0]> (dirs s);
}.

Lemma fresh_names x parent :
  good_name CURRENT_DIR ∧ good_name PARENT_DIR ∧
  (<[CURRENT_DIR := x]> ∅ : gmap (list Z) Z) !! PARENT_DIR = None ∧
  <[PARENT_DIR := parent]> (<[CURRENT_DIR := x]> ∅) = fresh_dir x parent.
Proof.
  split; [split; [repeat constructor; lia|simpl; lia]|]. split; [split; [repeat constructor; lia|simpl; lia]|].
  split; [by rewrite lookup_insert_ne|]. unfold fresh_dir. rewrite insert_insert_ne by done. done.
Qed.

Lemma dir_init_ok depth N v s live x parent :
  fs_ok N v (base s) live → table_ok (base s) → (∀ p j, inodes (base s) !! p = Some j → open_cnt j < 2 ^ 31 - 2) →
  blank v s live x → in_u32 parent → length (e_name junk) = 15%nat →
  (1 ≤ length (free_sectors (free_map (base s)) 0 (Z.to_nat N)))%nat →
  (free_map_file (base s) ≠ None → synced v (base s)) →
  ∃ s' v', dir_init_with (dir_add_rec junk (Datatypes.S depth)) x parent s = Ok (tt, s') ∧
    dir_made N v s live x parent v' s'.
Proof.
  intros Hok Ht Hcnt [Hxl Hxf Hxu Hx0 Hxc] Hpar Hj Hfree Hsync.
  destruct (blank_dir_ok v x Hx0) as [Hc0 Hm0]. destruct (fresh_names x parent) as (Hn1 & Hn2 & Hn3 & Hn4).
  destruct (inode_open_ok N v (base s) live x Hok Ht Hcnt) as (q & j & b & Ho & Hres & Ei & Ht1 & Hok1 & F1 & F2 & F3).
  assert (Hj' : j = MkInode x 1 false 0 ∧ q = next (base s)).
  { destruct Hres as [_ Hres]. destruct (inodes (base s) !! q) as [j0|] eqn:Eq; [|naive_solver].
    destruct Hres as [Hs _]. exfalso. by eapply Hxc. }
  destruct Hj' as [-> ->]. unfold dir_init_with. run_with (with_fs_ok _ _ _ _ Ho). run_with (dir_open_ok (set_base b s) (next (base s))).
  cbv beta iota. set (s1 := Dfs _ _ _ _ _). set (q := next (base s)) in *. set (i := MkInode x 1 false 0) in *.
  assert (Hd1 : dir_at v s1 live (next_dir s) q i 0).
  { split; cbn; try done; [apply lookup_insert_eq|rewrite Ei; apply lookup_insert_eq|].
    change (i_length (disk v x) < 6144). lia. }
  assert (Hw1 : writable N v s1 i).
  { split; cbn [base s1 set_base].
    - done.
    - done.
    - change (i_length (disk v x) + 20 < 6144). lia.
    - unfold slot_need. cbn [sector i]. by rewrite F1, Hx0.
    - rewrite F2. unfold synced in *. by rewrite F1. }
  destruct (dir_add_plain depth N v s1 live (next_dir s) q i 0 CURRENT_DIR x) as (s2 & v2 & Hrun2 & Hsw2 & Hd2 & Hm2); try done.
  { cbn [sector i]. by rewrite Hm0. }
  run_with Hrun2. cbn [sector i] in Hm2. rewrite Hm0 in Hm2.
  destruct Hsw2 as [Hok2 Est2 Hh2 Hl2 Hoth2 Hsy2 Hsh2 Hdir2 (k2 & Hk2 & Hfr2)].
  assert (Hfm2 : free_map_file (base s2) = free_map_file (base s)) by (destruct Hh2 as (-> & _); done).
  assert (Hlen2 : i_length (disk v2 x) = 20).
  { assert (Hlc : Z.of_nat (length (contents v2 x)) = i_length (disk v2 x)).
    { assert (Hin := lo_inode _ _ _ (fo_live _ _ _ _ Hok2) _ Hxl). unfold contents.
      rewrite (length_contents N v2 (base s2)); [|apply Hok2|by apply inode_ok_file].
      assert (Hwl := wf_length _ (iok_wf _ _ _ Hin)). lia. }
    cbn [sector i] in Hl2. rewrite Hx0 in Hl2.
    assert (Hne : length (contents v2 x) ≠ 0%nat).
    { intros E. destruct (contents v2 x) eqn:Ec; [|done].
      change (dir_map []) with (∅ : gmap (list Z) Z) in Hm2.
      assert (Hc := lookup_insert_eq (∅ : gmap (list Z) Z) CURRENT_DIR x). rewrite <- Hm2 in Hc. done. }
    assert (H20 := do_length _ (da_ok _ _ _ _ _ _ _ Hd2)). cbn [sector i] in H20.
    pose proof (Nat.div_mod_eq (length (contents v2 x)) 20). lia. }
  assert (Hw2 : writable N v2 s2 i).
  { split; try done; cbn [sector i].
    - rewrite Hlen2. unfold DIRECT_LENGTH. lia.
    - unfold slot_need. cbn [sector i]. rewrite Hlen2. vm_compute. lia.
    - rewrite Hfm2. intros Hf. apply Hsy2. change (free_map_file b ≠ None). by rewrite F2. }
  destruct (dir_add_plain depth N v2 s2 live (next_dir s) q i 0 PARENT_DIR parent) as (s3 & v3 & Hrun3 & Hsw3 & Hd3 & Hm3); try done.
  { cbn [sector i]. by rewrite Hm2. }
  run_with Hrun3. eexists s3, v3. split; [reflexivity|].
  destruct Hsw3 as [Hok3 Est3 Hh3 Hl3 Hoth3 Hsy3 Hsh3 Hdir3 _]. cbn [sector i] in *. split; try done.
  - split; [apply Hd3|]. rewrite Hm3, Hm2. done.
  - intros sec H1 H2 H3. rewrite Hoth3 by done. by apply Hoth2.
  - intros Hf. apply Hsy3. by rewrite Hfm2.
  - destruct Hh3 as (_ & -> & _). destruct Hh2 as (_ & -> & _). exact Ei.
  - rewrite Est3, Est2. done.
Qed.

Lemma mkdir_ok depth N v s live dp ip i pos name x :
  fs_ok N v (base s) live → dir_at v s live dp ip i pos → writable N v s i →
  (slot_need v i < length (free_sectors (free_map (base s)) 0 (Z.to_nat N)))%nat →
  table_ok (base s) → (∀ p j, inodes (base s) !! p = Some j → open_cnt j < 2 ^ 31 - 2) →
  blank v s live x → sector i ≠ x → good_name name → length (e_name junk) = 15%nat →
  dir_map (contents v (sector i)) !! name = None →
  ∃ s' v', dir_add_rec junk (Datatypes.S (Datatypes.S depth)) dp name x true s = Ok (true, s') ∧
    dir_ok (contents v' (sector i)) ∧
    dir_map (contents v' (sector i)) = <[name := x]> (dir_map (contents v (sector i))) ∧
    fs_ok N v' (base s') live ∧ dir_ok (contents v' x) ∧ dir_map (contents v' x) = fresh_dir x (sector i) ∧
    (∀ sec, sec ∈ live → sec ≠ sector i → sec ≠ x → sec ≠ FREE_MAP_SECTOR → contents v' sec = contents v sec) ∧
    (free_map_file (base s) ≠ None → synced v' (base s')) ∧
    inodes (base s') = <[next (base s) := MkInode x 1 false 0]> (inodes (base s)).
Proof.
  intros Hok Hd Hw Hfree Ht Hcnt [B1 B2 B3 B4 B5] Hne Hname Hj Hnew.
  destruct (dir_add_run (Datatypes.S depth) N v s live dp ip i pos name x true) as (s1 & v1 & Hrun & Hsw & Hd1 & Hm1); [done..|].
  destruct Hsw as [Hok1 Est1 Hh1 Hl1 Hoth1 Hsy1 Hsh1 Hdir1 (k & Hk & Hfr)]. assert (Hh1' := Hh1). destruct Hh1' as (E1 & E2 & E3 & E4 & E5).
  assert (Hin := lo_inode _ _ _ (fo_live _ _ _ _ Hok) _ (da_live _ _ _ _ _ _ _ Hd)).
  assert (Hr := inode_ok_sector _ _ _ Hin). assert (HN := fo_size _ _ _ _ Hok).
  assert (Hb1 : blank v1 s1 live x).
  { split; try done; [|by rewrite E2]. assert (Hx := lo_inode _ _ _ (fo_live _ _ _ _ Hok1) _ B1).
    assert (Hlc := length_contents N v1 (base s1) (disk v1 x) (fo_sees _ _ _ _ Hok1) (inode_ok_file _ _ _ Hx)).
    fold (contents v1 x) in Hlc. rewrite Hoth1 in Hlc by done. unfold contents, contents_of in Hlc. rewrite B4 in Hlc.
    change (Z.to_nat 0) with 0%nat in Hlc. rewrite take_0 in Hlc. cbn [length] in Hlc.
    assert (Hwl := wf_length _ (iok_wf _ _ _ Hx)). lia. }
  assert (Hf1 : free_map_file (base s1) ≠ None → synced v1 (base s1)) by (rewrite E1; exact Hsy1).
  assert (Hfree1 : (1 ≤ length (free_sectors (free_map (base s1)) 0 (Z.to_nat N)))%nat)
    by (rewrite Hfr, length_drop; lia).
  assert (Hcnt1 : ∀ p j, inodes (base s1) !! p = Some j → open_cnt j < 2 ^ 31 - 2) by (rewrite E2; exact Hcnt).
  assert (Hps : in_u32 (sector i)) by (unfold in_u32; lia).
  destruct (dir_init_ok depth N v1 s1 live x (sector i) Hok1 (table_ok_heap _ _ Hh1 Ht) Hcnt1 Hb1 Hps Hj Hfree1 Hf1)
    as (s2 & v2 & Hrun2 & [M1 [M2 M2'] M3 M4 M5 M6]).
  exists s2, v2. rewrite Hrun. cbv iota.
  assert (Hsec : with_fs (inode_get_sector (Some ip)) s1 = Ok (sector i, s1)).
  { rewrite (with_fs_ok _ _ (sector i) (base s1)); [by destruct s1|]. cbn [inode_get_sector].
    by run_with (get_inode_ok _ _ _ (da_inode _ _ _ _ _ _ _ Hd1)). }
  split.
  { erewrite run_bind_ok; [reflexivity|]. run_with Hsec. exact Hrun2. }
  assert (Hci : contents v2 (sector i) = contents v1 (sector i)).
  { apply M3; [apply Hd|done|apply Hw]. }
  rewrite Hci. split_and!; try done.
  - apply Hd1.
  - intros sec H1 H2 H3 H4. rewrite M3 by done. by apply Hoth1.
  - intros Hf. apply M4. by rewrite E1.
  - by rewrite M5, E2, E5.
Qed.
End dirs.

(** Searching a directory looks its map up: on a directory within its
    direct blocks, [dir_lookup] terminates without panic or fault; for a name
    the map binds to sector [n] it returns the one in-memory inode of [n], the
    one already open with its count raised or a fresh one, and for any other
    name null; the file system, its files and its free map stay as they are,
    and no sector is open twice. *)
Theorem dir_lookup_correct {S} `{!SectorStore S} (s : dfs S) junk N v live dp ip i pos name :
  fs_ok N v (base s) live → dir_at v s live dp ip i pos → valid_name name →
  table_ok (base s) → (∀ p j, inodes (base s) !! p = Some j → open_cnt j < 2 ^ 31 - 2) →
  match dir_map (contents v (sector i)) !! name with
  | None => ∃ s', dir_lookup junk dp name s = Ok (None, s') ∧ fs_ok N v (base s') live ∧ quiet s s'
  | Some n => ∃ q j s', dir_lookup junk dp name s = Ok (Some q, s') ∧ open_result (base s) n q j ∧
      inodes (base s') = <[q := j]> (inodes (base s)) ∧
      fs_ok N v (base s') live ∧ table_ok (base s') ∧ free_map (base s') = free_map (base s)
  end.
Proof.
  intros Hok Hd Hn Ht Hc. assert (H := dir_lookup_ok junk N v s live dp ip i pos name Hok Hd Hn Ht Hc).
  destruct (dir_map _ !! name); [|done]. destruct H as (q & j & s' & H1 & H2 & H3 & _ & H4 & H5 & H6 & _).
  by exists q, j, s'.
Qed.

(** C10. [dir_add] inserts into the map: a valid name that is not bound yet is
    bound to the given sector, in a slot that was free or a new one at the
    end, whatever the stack held before; every other name of the directory and
    every other file is as before, and the free map is written.  A name that
    is bound already, an empty name and one of more than 14 characters are
    refused and nothing changes. *)
Theorem dir_add_correct {S} `{!SectorStore S} (s : dfs S) junk N v live dp ip i pos name x :
  let m := dir_map (contents v (sector i)) in
  fs_ok N v (base s) live → dir_at v s live dp ip i pos → writable N v s i →
  valid_name name → in_u32 x → length (e_name junk) = 15%nat →
  if decide (m !! name = None ∧ (1 ≤ length name ≤ 14)%nat) then
    ∃ s' v', dir_add junk dp name x false s = Ok (true, s') ∧ fs_ok N v' (base s') live ∧
      dir_at v' s' live dp ip i pos ∧ dir_map (contents v' (sector i)) = <[name := x]> m ∧
      (∀ sec, sec ∈ live → sec ≠ sector i → sec ≠ FREE_MAP_SECTOR → contents v' sec = contents v sec) ∧
      (free_map_file (base s) ≠ None → synced v' (base s'))
  else ∃ s', dir_add junk dp name x false s = Ok (false, s') ∧ fs_ok N v (base s') live ∧ quiet s s'.
Proof.
  intros m Hok Hd Hw Hv Hx Hj. destruct (decide _) as [[Hnew Hl]|Hbad].
  - destruct (dir_add_plain junk 1 N v s live dp ip i pos name x) as (s1 & v1 & Hrun & [] & Hd1 & Hm); try done.
    exists s1, v1. split; [exact Hrun|]. done.
  - unfold dir_add. cbn [dir_add_rec]. unfold NAME_MAX.
    destruct (Z.eqb_spec (Z.of_nat (length name)) 0); [exists s; split_and!; [done..|apply quiet_refl]|].
    destruct (Z.ltb_spec 14 (Z.of_nat (length name))); [exists s; split_and!; [done..|apply quiet_refl]|]. cbn [orb].
    destruct (lookup_ok_run junk N v s live dp ip i pos name Hok Hd Hv) as (s1 & Hrun1 & Hok1 & Hq1).
    rewrite (run_bind_ok _ _ _ _ _ Hrun1). assert (Hfind := find_slot_map _ name (da_ok _ _ _ _ _ _ _ Hd)).
    destruct (list_find (matches name) _) as [[k e]|]; [by exists s1|].
    exfalso. apply Hbad. split; [done|lia].
Qed.

(** C12. Making a directory: [dir_add] with an empty inode as a new directory
    binds the name in the parent and leaves the new directory with exactly the
    entries ["."], itself, and [".."], its parent; all other files keep their
    contents.  The new directory is left open (nobody closes it). *)
Theorem mkdir_correct {S} `{!SectorStore S} (s : dfs S) junk N v live dp ip i pos name x :
  fs_ok N v (base s) live → dir_at v s live dp ip i pos → writable N v s i →
  (slot_need v i < length (free_sectors (free_map (base s)) 0 (Z.to_nat N)))%nat →
  table_ok (base s) → (∀ p j, inodes (base s) !! p = Some j → open_cnt j < 2 ^ 31 - 2) →
  blank v s live x → sector i ≠ x → good_name name → length (e_name junk) = 15%nat →
  dir_map (contents v (sector i)) !! name = None →
  ∃ s' v', dir_add junk dp name x true s = Ok (true, s') ∧ fs_ok N v' (base s') live ∧
    dir_map (contents v' (sector i)) = <[name := x]> (dir_map (contents v (sector i))) ∧
    dir_map (contents v' x) = fresh_dir x (sector i) ∧
    (∀ sec, sec ∈ live → sec ≠ sector i → sec ≠ x → sec ≠ FREE_MAP_SECTOR → contents v' sec = contents v sec) ∧
    inodes (base s') = <[next (base s) := MkInode x 1 false 0]> (inodes (base s)).
Proof.
  intros. destruct (mkdir_ok junk 0 N v s live dp ip i pos name x)
    as (s' & v' & Hrun & _ & Hm & Hok & _ & Hx & Hoth & _ & Hin); try done.
  exists s', v'. split; [exact Hrun|done].
Qed.
