(* ===== verification/DirList.v ===== *)
(** * Listing directories

    [dir_readdir] and its relatives return the names of the slots in use, in
    order; [dir_size] counts those that are not ["."] or [".."]. *)
From S2P Require Import Prelude CInt Bitmap Bytes Block Cache Inode InodeSpec InodeWrite FsInv FreeMapSpec InodeExtend FileGrow File FileRemove Directory DirMap DirectorySpec.

Open Scope Z_scope.

(** * Removing names

    [dir_remove] of a file deletes its binding, and frees the file if nobody
    has it open. *)
Import Inode Directory.

Section remove.
Context {S : Type} `{!SectorStore S}.
Implicit Types (s : dfs S) (v : Z → list Z) (live : gset Z).
Variable junk : dir_entry.

Definition removed_inode (j : inode) : inode := MkInode (sector j) (open_cnt j) true (deny_write_cnt j).

(** Marking an inode other than the free map's. *)
Lemma inode_remove_ok N v (b : fs S) live q j :
  fs_ok N v b live → table_ok b → inodes b !! q = Some j → sector j ≠ FREE_MAP_SECTOR →
  let b' := set_inodes (<[q := removed_inode j]> (inodes b)) b in
  inode_remove q b = Ok (tt, b') ∧ fs_ok N v b' live ∧ table_ok b'.
Proof.
  intros Hok [H1 H2 H3 H4 H5] Hq Hne b'. unfold inode_remove. run_with (get_inode_ok _ _ _ Hq).
  split; [done|]. split.
  - assert (Hf := fs_ok_inodes N v b live (<[q := removed_inode j]> (inodes b)) (open_inodes b) Hok).
    unfold b'. apply Hf. intros p i Hp Hi. rewrite lookup_insert_ne; [done|]. intros ->. rewrite Hq in Hp. by simplify_eq.
  - unfold b'. split; cbn [inodes open_inodes next set_inodes]; try done.
    + intros p. rewrite lookup_insert_is_Some', H1. split; [by right|]. intros [<-|?]; [eauto|done].
    + intros p. rewrite lookup_insert_is_Some'. intros [<-|?]; apply H3; eauto.
    + intros p i [[<- <-]|[_ Hi]]%lookup_insert_Some; [by apply (H4 q j)|by apply (H4 p)].
    + intros p1 p2 i1 i2 [[<- <-]|[N1 E1]]%lookup_insert_Some [[<- <-]|[N2 E2]]%lookup_insert_Some Hs; try done.
      * by eapply (H5 q p2).
      * by eapply (H5 p1 q).
      * by eapply (H5 p1 p2).
Qed.

(** The first part of [dir_remove] on a file: its entry is erased. *)
Lemma erase_ok N v s live dp ip i pos name x :
  let c := contents v (sector i) in
  fs_ok N v (base s) live → dir_at v s live dp ip i pos → valid_name name →
  sector i ≠ FREE_MAP_SECTOR → deny_write_cnt i = 0 →
  (free_map_file (base s) ≠ None → synced v (base s)) →
  table_ok (base s) → (∀ p j, inodes (base s) !! p = Some j → open_cnt j < 2 ^ 31 - 2) →
  dir_map c !! name = Some x → x ∈ live → x ≠ sector i → x ≠ FREE_MAP_SECTOR → i_is_dir (disk v x) = false →
  ∃ q j s' v', dir_remove junk dp name s = (with_fs (inode_remove q) ;; remove_done (Some q) true) s' ∧
    open_result (base s) x q j ∧ inodes (base s') = <[q := j]> (inodes (base s)) ∧ s' = set_base (base s') s ∧
    fs_ok N v' (base s') live ∧ table_ok (base s') ∧ free_map_file (base s') = free_map_file (base s) ∧
    dir_ok (contents v' (sector i)) ∧ dir_map (contents v' (sector i)) = delete name (dir_map c) ∧
    (∀ sec, sec ∈ live → sec ≠ sector i → sec ≠ FREE_MAP_SECTOR → contents v' sec = contents v sec) ∧
    (∀ sec, sec ∈ live → sec ≠ sector i → same_shape v v' sec) ∧
    (free_map_file (base s) ≠ None → synced v' (base s')).
Proof.
  intros c Hok Hd Hname Hfm Hdeny Hsync Ht Hcnt Hx Hxl Hxi Hxf Hxd.
  assert (Hc := da_ok _ _ _ _ _ _ _ Hd). fold c in Hc.
  destruct (lookup_ok_run junk N v s live dp ip i pos name Hok Hd Hname) as (s1 & Hrun1 & Hok1 & Hq1).
  assert (Hfind := find_slot_map c name Hc). fold c in Hrun1. unfold dir_remove.
  rewrite (run_bind_ok _ _ _ _ _ Hrun1). clear Hrun1.
  destruct (list_find (matches name) (slots c)) as [[k e]|]; [|congruence].
  destruct Hfind as (Hk & Hm & Hx'). assert (e_sector e = x) as Ex by congruence.
  cbn [fmap option_fmap option_map]. rewrite Ex.
  destruct (quiet_fields s s1 Hq1) as (Q1 & Q2 & Q3 & Q4 & Hh1 & Ef1). assert (Hh1' := Hh1).
  destruct Hh1' as (E1 & E2 & E3 & E4 & E5).
  destruct (inode_open_ok N v (base s1) live x) as (q & j & b & Ho & Hres & Ei & Ht2 & Hok2 & F1 & F2 & F3);
    [done|by eapply table_ok_heap|by rewrite E2|].
  rewrite (run_bind_ok _ _ _ _ _ (with_fs_ok _ _ _ _ Ho)). clear Ho. cbv beta iota.
  assert (Hsj : sector j = x) by apply Hres.
  assert (Hinx := lo_inode _ _ _ (fo_live _ _ _ _ Hok) _ Hxl). assert (Hrx := inode_ok_sector _ _ _ Hinx).
  destruct (inode_get_data_ok N v b q j) as (b3 & Hrun3 & Hs3 & Ho3); [apply Hok2|rewrite Ei; apply lookup_insert_eq|by rewrite Hsj|].
  rewrite Hsj in Hrun3.
  assert (Hisd : with_fs (inode_is_dir (Some q)) (set_base b s1) = Ok (false, set_base b3 (set_base b s1))).
  { apply with_fs_ok. cbn [inode_is_dir base set_base]. run_with Hrun3. by rewrite Hxd. }
  rewrite (run_bind_ok _ _ _ _ _ Hisd). clear Hisd. cbv iota. erewrite run_bind_ok by reflexivity. cbv beta iota.
  set (s3 := set_base b3 (set_base b s1)).
  assert (Hok3 : fs_ok N v (base s3) live) by (eapply fs_ok_quiet; [exact Hok2|done|done]).
  destruct (only_store_fields _ _ Ho3) as (G1 & G2 & G3 & G4 & G5 & G6).
  assert (Hipq : ip ≠ q).
  { intros ->. destruct Hres as [_ Hres]. rewrite E2, (da_inode _ _ _ _ _ _ _ Hd) in Hres.
    destruct Hres as [Hbad _]. congruence. }
  assert (Hi3 : inodes (base s3) !! ip = Some i).
  { cbn. rewrite G3, Ei, lookup_insert_ne, E2 by done. apply Hd. }
  assert (Hdir3 : dirs s3 !! dp = Some (MkDir ip pos)) by (cbn; rewrite Q1; apply Hd).
  run_with (get_dir_ok _ _ _ Hdir3). cbn [d_inode].
  assert (Hlt := lookup_lt_Some _ _ _ Hk). rewrite length_slots in Hlt.
  destruct (scannable_length N v live ip i (da_live _ _ _ _ _ _ _ Hd) (do_length _ Hc) s3) as [L1 L2]; [done|].
  fold c in L1, L2.
  assert (He15 : length (e_name e) = 15%nat).
  { rewrite slots_lookup in Hk by done. injection Hk as <-. apply entry_name_in_use. rewrite length_take, length_drop. lia. }
  destruct (write_slot_ok N v s3 live ip i (DirEntry x (e_name e) 0) k) as (s4 & v4 & Hrun4 & Hsw & Hc4); try done.
  { apply Hd. }
  { apply Hc. }
  { fold c. lia. }
  { apply Hd. }
  { assert (Hb := blocks_for_mono (20 * Z.of_nat k + 20) (i_length (disk v (sector i))) ltac:(lia)).
    replace (needed (i_length (disk v (sector i))) (20 * Z.of_nat k + 20)) with 0%nat; [lia|].
    unfold needed, indirect_for.
    destruct (Nat.leb_spec (blocks_for (20 * Z.of_nat k + 20)) 12), (Nat.leb_spec (blocks_for (i_length (disk v (sector i)))) 12); lia. }
  { cbn. rewrite G2, F2, E1. intros Hf. specialize (Hsync Hf). unfold synced in *. by rewrite G1, F1, Ef1. }
  rewrite (run_bind_ok _ _ _ _ _ Hrun4). change (entry_size =? entry_size) with true. cbn [negb].
  destruct (dir_ok_remove c k (bytes_of_entry (DirEntry x (e_name e) 0)) name e) as [Hc5 Hm5]; try done.
  { by apply length_entry. }
  { by apply entry_bytes_fields. }
  fold c in Hc4. rewrite <- Hc4 in Hc5, Hm5. destruct Hsw as [W1 W2 W3 W4 W5 W6 W7 W8 W9].
  assert (W3' := W3). destruct W3' as (V1 & V2 & V3 & V4 & V5). cbn [base set_base s3] in V1, V2, V3, V4, V5.
  exists q, j, s4, v4. split; [done|]. split_and!; try done.
  - unfold open_result in *. by rewrite E2, E5 in Hres.
  - by rewrite V2, G3, Ei, E2.
  - rewrite W2. unfold s3. destruct Hq1 as [Eq1 _]. rewrite Eq1. done.
  - eapply table_ok_heap; [exact W3|]. eapply table_ok_heap; [|exact Ht2]. by apply only_store_heap.
  - by rewrite V1, G2, F2, E1.
  - intros Hf. apply W6. cbn. by rewrite G2, F2, E1.
Qed.
(** The rest of [dir_remove], on a file that others have open. *)
Lemma unlink_open N v s live q j0 :
  fs_ok N v (base s) live → table_ok (base s) → inodes (base s) !! q = Some (opened j0) →
  sector j0 ≠ FREE_MAP_SECTOR → 1 ≤ open_cnt j0 →
  ∃ s', (with_fs (inode_remove q) ;; remove_done (Some q) true) s = Ok (true, s') ∧
    fs_ok N v (base s') live ∧ free_map (base s') = free_map (base s) ∧
    inodes (base s') !! q = Some (removed_inode j0).
Proof.
  intros Hok Ht Hq Hne Hc.
  destruct (inode_remove_ok N v (base s) live q _ Hok Ht Hq Hne) as (Hrun & Hok2 & Ht2).
  rewrite (run_bind_ok _ _ _ _ _ (with_fs_ok _ s _ _ Hrun)). set (b2 := set_inodes _ (base s)) in *.
  assert (Hq2 : inodes b2 !! q = Some (removed_inode (opened j0))) by apply lookup_insert_eq.
  destruct (inode_close_ok N v b2 live q _ Hok2 Ht2 Hq2) as (b3 & Hrun3 & Ei3 & _ & Hok3 & F1 & _);
    [right; simpl; lia|done|].
  unfold remove_done. rewrite (run_bind_ok _ _ _ _ _ (with_fs_ok _ (set_base b2 s) _ _ Hrun3)).
  eexists. split; [reflexivity|]. cbn [base set_base]. split_and!; [done|done|].
  rewrite Ei3. unfold closed_table. cbn [open_cnt removed_inode opened]. destruct (Z.eqb_spec (open_cnt j0 + 1) 1); [lia|].
  rewrite lookup_insert_eq. unfold removed_inode. cbn. do 2 f_equal. lia.
Qed.

(** The same on a file that nobody else has open: its sectors are freed. *)
Lemma unlink_closed N v s live q x fp :
  fs_ok N v (base s) live → table_ok (base s) → inodes (base s) !! q = Some (MkInode x 1 false 0) →
  free_map_file (base s) = Some fp → x ∈ live → x ≠ FREE_MAP_SECTOR → (nblocks (disk v x) ≤ 12)%nat →
  ∃ s' v', (with_fs (inode_remove q) ;; remove_done (Some q) true) s = Ok (true, s') ∧
    fs_ok N v' (base s') (live ∖ {[x]}) ∧ synced v' (base s') ∧
    (∀ y, y ∈ owned v x → Bitmap.bit (free_map (base s')) y = false) ∧
    (∀ sec, sec ∈ live → sec ≠ x → sec ≠ FREE_MAP_SECTOR → contents v' sec = contents v sec).
Proof.
  intros Hok Ht Hq Hfp Hxl Hxf Hnb.
  destruct (inode_remove_ok N v (base s) live q _ Hok Ht Hq Hxf) as (Hrun & Hok2 & Ht2).
  rewrite (run_bind_ok _ _ _ _ _ (with_fs_ok _ s _ _ Hrun)). set (b2 := set_inodes _ (base s)) in *.
  assert (Hq2 : inodes b2 !! q = Some (removed_inode (MkInode x 1 false 0))) by apply lookup_insert_eq.
  destruct (inode_close_removed_ok N v b2 live q (removed_inode (MkInode x 1 false 0)) fp)
    as (b3 & v3 & Hrun3 & Hok3 & Hcl & Hsy3 & _ & _ & Hoth3); try done; cbn [sector removed_inode] in *; [lia|].
  unfold remove_done. rewrite (run_bind_ok _ _ _ _ _ (with_fs_ok _ (set_base b2 s) _ _ Hrun3)).
  eexists _, v3. split; [reflexivity|]. cbn [base set_base]. split_and!; try done.
  intros y Hy. destruct Hcl as (_ & _ & Hbit).
  assert (Hinx := lo_inode _ _ _ (fo_live _ _ _ _ Hok) _ Hxl). assert (Hry := iok_range _ _ _ Hinx y Hy).
  destruct (fo_map _ _ _ _ Hok2) as [_ Hbc]. rewrite Hbit by (rewrite Hbc; done).
  rewrite bool_decide_true; [apply andb_false_r|]. unfold owned in Hy.
  rewrite take_ge by (unfold data_sectors; rewrite length_fmap, length_seq; lia).
  rewrite index_sectors_small in Hy by lia. destruct (Nat.leb_spec (nblocks (disk v x)) 12); [done|lia].
Qed.
End remove.

(** C11. Removing a file of at most 12 blocks: [dir_remove] deletes the name
    from the directory's map and touches no other name and no other file.  If
    the file is not open, its inode and data sectors become free at once; if it
    is open, it is marked and keeps its contents and its sectors for those who
    have it open.  (Of a file of 13 to 23 blocks not all sectors are freed, see
    [inode_close_leaks].) *)
Theorem dir_remove_correct {S} `{!SectorStore S} (s : dfs S) junk N v live dp ip i pos name x fp :
  let c := contents v (sector i) in
  fs_ok N v (base s) live → dir_at v s live dp ip i pos → valid_name name →
  sector i ≠ FREE_MAP_SECTOR → deny_write_cnt i = 0 →
  free_map_file (base s) = Some fp → synced v (base s) →
  table_ok (base s) → (∀ p j, inodes (base s) !! p = Some j → open_cnt j < 2 ^ 31 - 2) →
  dir_map c !! name = Some x → x ∈ live → x ≠ sector i → x ≠ FREE_MAP_SECTOR →
  i_is_dir (disk v x) = false → (nblocks (disk v x) ≤ 12)%nat →
  ∃ s' v', dir_remove junk dp name s = Ok (true, s') ∧
    dir_ok (contents v' (sector i)) ∧ dir_map (contents v' (sector i)) = delete name (dir_map c) ∧
    (∀ sec, sec ∈ live → sec ≠ sector i → sec ≠ x → sec ≠ FREE_MAP_SECTOR → contents v' sec = contents v sec) ∧
    synced v' (base s') ∧
    ((∀ p j, inodes (base s) !! p = Some j → sector j ≠ x) →
       fs_ok N v' (base s') (live ∖ {[x]}) ∧ ∀ y, y ∈ owned v x → Bitmap.bit (free_map (base s')) y = false) ∧
    (∀ p j, inodes (base s) !! p = Some j → sector j = x →
       fs_ok N v' (base s') live ∧ contents v' x = contents v x ∧
       inodes (base s') !! p = Some (removed_inode j)).
Proof.
  intros c Hok Hd Hname Hfm Hdeny Hfp Hsync Ht Hcnt Hx Hxl Hxi Hxf Hxd Hnb.
  destruct (erase_ok junk N v s live dp ip i pos name x) as
    (q & j & s1 & v1 & Hrun & Hres & Ei & Est & Hok1 & Ht1 & Efp & Hc1 & Hm1 & Hoth & Hsh & Hsy); try done.
  rewrite Hfp in Efp. specialize (Hsy ltac:(congruence)). rewrite Hrun.
  assert (Hq1 : inodes (base s1) !! q = Some j) by (rewrite Ei; apply lookup_insert_eq).
  destruct (Hsh x Hxl Hxi) as [Edx Eox].
  destruct Hres as [Hsj Hres]. destruct (inodes (base s) !! q) as [j0|] eqn:Ej0.
  - destruct Hres as [Hs0 ->]. assert (Hc0 := to_count _ Ht q j0 Ej0).
    destruct (unlink_open N v1 s1 live q j0) as (s2 & Hrun2 & Hok2 & Ef & Hq2); [done..|congruence|lia|].
    exists s2, v1. split_and!; try done.
    + intros sec H1 H2 H3 H4. by apply Hoth.
    + unfold synced in *. by rewrite Ef.
    + intros Hno. exfalso. by apply (Hno q j0).
    + intros p j' Hp Hj'. assert (p = q) as -> by (eapply (to_once _ Ht p q); [done..|congruence]).
      rewrite Ej0 in Hp. injection Hp as <-. split; [done|]. split; [by apply Hoth|done].
  - destruct Hres as (-> & -> & Hno).
    destruct (unlink_closed N v1 s1 live (next (base s)) x fp) as (s2 & v2 & Hrun2 & Hok2 & Hsy2 & Hbits & Hoth2);
      [done..|by rewrite Edx|].
    assert (Eci : contents v2 (sector i) = contents v1 (sector i)) by (apply Hoth2; [apply Hd|done|done]).
    exists s2, v2. rewrite Eci. split_and!; try done.
    + intros sec H1 H2 H3 H4. rewrite Hoth2 by done. by apply Hoth.
    + intros _. split; [done|]. by rewrite <- Eox.
    + intros p j' Hp Hj'. exfalso. by apply (Hno p j').
Qed.

Import Inode Directory.

Definition names (c : list Z) : list (list Z) := (bindings c).*1.
(** The names from slot [k] on. *)
Definition names_from (c : list Z) (k : nat) : list (list Z) := (omap binding (drop k (slots c))).*1.

Section list.
Context {S : Type} `{!SectorStore S}.
Implicit Types (s : dfs S).
Variable junk : dir_entry.
Context (N : Z) (v : Z → list Z) (live : gset Z) (dp ip : nat) (i : inode).
Let c := contents v (sector i).
Let n := (length c / 20)%nat.

(** Only the store and the directory's position differ. *)
Definition moved s s' (pos : Z) : Prop :=
  ∃ b, only_store (base s) b ∧ s' = set_base b (set_dirs (<[dp := MkDir ip pos]> (dirs s)) s).
Lemma moved_trans s1 s2 s3 p2 p3 : moved s1 s2 p2 → moved s2 s3 p3 → moved s1 s3 p3.
Proof.
  intros (b2 & H2 & ->) (b3 & H3 & ->). exists b3. split; [by eapply only_store_trans|].
  unfold set_base, set_dirs. cbn. by rewrite insert_insert_eq.
Qed.

(** The directory is open at slot [k]. *)
Definition at_slot s (k : nat) : Prop :=
  fs_ok N v (base s) live ∧ dir_at v s live dp ip i (20 * Z.of_nat k) ∧ (k ≤ n)%nat.

Lemma at_slot_quiet s s' k : fs_ok N v (base s') live → quiet s s' → at_slot s k → at_slot s' k ∧ moved s s' (20 * Z.of_nat k).
Proof.
  intros Hok Hq (_ & Hd & Hk). split; [split_and!; [done|by eapply dir_at_quiet|done]|].
  destruct Hq as [E Ho]. exists (base s'). split; [done|]. rewrite E at 1. unfold set_base, set_dirs. cbn.
  by rewrite insert_id by apply Hd.
Qed.
Lemma at_slot_moved s k j : at_slot s k → (j ≤ n)%nat →
  let s' := set_dirs (<[dp := MkDir ip (20 * Z.of_nat j)]> (dirs s)) s in
  at_slot s' j ∧ moved s s' (20 * Z.of_nat j).
Proof.
  intros (Hok & [] & Hk) Hj s'. split.
  - split_and!; [done| |done]. split; try done. apply lookup_insert_eq.
  - exists (base s). split; [apply only_store_refl|done].
Qed.

Lemma at_slot_scan s k : at_slot s k →
  scannable N v live ip i s ∧ sector i ∈ live ∧ (length c mod 20 = 0)%nat ∧
  i_length (disk v (sector i)) < DIRECT_LENGTH ∧ dir_ok c.
Proof. intros (Hok & Hd & Hk). split; [split; [done|apply Hd]|]. split_and!; apply Hd. Qed.

(** One call returns the next name and moves behind its slot. *)
Lemma readdir_loop_ok l : ∀ k fuel e s,
  drop k (slots c) = l → at_slot s k → (length l < fuel)%nat →
  ∃ r j s', readdir_loop fuel dp e s = Ok (r, s') ∧ at_slot s' j ∧ moved s s' (20 * Z.of_nat j) ∧ (k ≤ j)%nat ∧
    match r with
    | Some name => names_from c k = name :: names_from c j ∧ (k < j)%nat
    | None => names_from c k = [] ∧ j = n
    end.
Proof.
  induction l as [|e0 l IH]; intros k fuel e s El Hs Hf; (destruct fuel as [|fuel]; [lia|]); simpl;
    destruct (at_slot_scan s k Hs) as (Hsc & Hl & Hm & Hlen & Hdir); assert (Hs' := Hs); destruct Hs' as (Hok & Hd & Hk);
    (erewrite run_bind_ok by (apply get_dir_ok, Hd)); cbn [d_inode d_pos].
  - pose proof (drop_slots_nil v i Hm k Hk El) as Ek. fold c n in Ek. subst k.
    destruct (read_slot_ok N v live ip i Hl Hm Hlen s e n Hsc Hk) as (s1 & Hrun & [Hok1 _] & Hq).
    fold c n in Hrun. rewrite Nat.ltb_irrefl in Hrun. run_with Hrun.
    destruct (at_slot_quiet s s1 n Hok1 Hq Hs) as [H1 H2]. exists None, n, s1. split_and!; try done.
    unfold names_from. by rewrite El.
  - simpl in Hf. assert (El' := El). destruct (drop_slots_cons v i Hm k e0 l El) as (Hlt & -> & El2). fold c n in Hlt, El2, El'.
    destruct (read_slot_ok N v live ip i Hl Hm Hlen s e k Hsc Hk) as (s1 & Hrun & [Hok1 _] & Hq).
    fold c n in Hrun. rewrite (proj2 (Nat.ltb_lt _ _) Hlt) in Hrun. run_with Hrun. cbv beta iota.
    change (20 =? entry_size) with true. cbv iota.
    destruct (at_slot_quiet s s1 k Hok1 Hq Hs) as [Hs1 Hmv1].
    destruct (scan_offset N v live ip i Hl Hm Hlen k Hk s Hsc) as (_ & _ & E2). rewrite E2.
    destruct (at_slot_moved s1 k (k + 1) Hs1) as [Hs2 Hmv2]; [lia|].
    rewrite (run_bind_ok _ _ _ tt (set_dirs (<[dp := MkDir ip (20 * Z.of_nat (k + 1))]> (dirs s1)) s1)) by reflexivity.
    set (s2 := set_dirs _ s1) in *. assert (Hmv := moved_trans _ _ _ _ _ Hmv1 Hmv2). fold c.
    assert (Hnk : names_from c k = (omap binding [slot c k]).*1 ++ names_from c (k + 1)).
    { unfold names_from. by rewrite El', El2, <- fmap_app, <- omap_app. }
    destruct (Z.eqb_spec (e_in_use (slot c k)) 0) as [Hu|Hu]; cbn [negb].
    + destruct (IH (k + 1)%nat fuel (slot c k) s2 El2 Hs2) as (r & j & s3 & Hrun3 & H1 & H2 & H3 & H4); [lia|].
      exists r, j, s3. split_and!; [done|done|by eapply moved_trans|lia|].
      assert (Hb : binding (slot c k) = None) by (unfold binding; by rewrite Hu).
      cbn [omap list_omap] in Hnk. rewrite Hb in Hnk. simpl in Hnk. rewrite Hnk. destruct r; [|done].
      split; [apply H4|lia].
    + destruct (do_names c Hdir (slot c k)) as [[nm x] Hb]; [|done|].
      { eapply list_elem_of_lookup_2, slots_lookup. exact Hlt. }
      assert (Hb' := Hb). unfold binding in Hb'. rewrite (proj2 (Z.eqb_neq _ _) Hu) in Hb'.
      destruct (string_in (e_name (slot c k))) as [str|] eqn:Estr; [|done]. injection Hb' as -> _.
      rewrite (run_bind_ok (lift _) _ s2 nm s2) by reflexivity.
      exists (Some nm), (k + 1)%nat, s2. split_and!; try done; try lia.
      rewrite Hnk. cbn [omap list_omap]. by rewrite Hb.
Qed.

Lemma dir_readdir_ok s k : at_slot s k →
  ∃ r j s', dir_readdir junk dp s = Ok (r, s') ∧ at_slot s' j ∧ moved s s' (20 * Z.of_nat j) ∧ (k ≤ j)%nat ∧
    match r with
    | Some name => names_from c k = name :: names_from c j ∧ (k < j)%nat
    | None => names_from c k = [] ∧ j = n
    end.
Proof.
  intros Hs. destruct (at_slot_scan s k Hs) as (Hsc & Hl & Hm & Hlen & Hdir).
  apply (readdir_loop_ok (drop k (slots c)) k MAX_ENTRIES junk s); [done|done|].
  by apply (max_entries_enough N v live ip i Hl Hm Hlen s).
Qed.

(** The names other than ["."] and [".."]. *)
Abbreviation plain := (List.filter (λ nm, negb (dot_name nm))).

Lemma strict_loop_ok fuel : ∀ s k, at_slot s k → (n - k < fuel)%nat →
  ∃ r j s', strict_loop junk fuel dp s = Ok (r, s') ∧ at_slot s' j ∧ moved s s' (20 * Z.of_nat j) ∧ (k ≤ j)%nat ∧
    match r with
    | Some name => plain (names_from c k) = name :: plain (names_from c j) ∧ (k < j)%nat
    | None => plain (names_from c k) = [] ∧ j = n
    end.
Proof.
  induction fuel as [|fuel IH]; intros s k Hs Hf; [lia|]. simpl.
  destruct (dir_readdir_ok s k Hs) as (r & j & s1 & Hrun & Hs1 & Hm1 & Hkj & Hr). run_with Hrun.
  destruct r as [nm|].
  - destruct Hr as [Hn Hlt]. assert (Hj : (j ≤ n)%nat) by apply Hs1. rewrite Hn. simpl.
    destruct (dot_name nm) eqn:Edot; simpl.
    + destruct (IH s1 j Hs1) as (r & j2 & s2 & Hrun2 & Hs2 & Hm2 & Hkj2 & Hr2); [lia|].
      exists r, j2, s2. split_and!; [done|done|by eapply moved_trans|lia|]. destruct r; [|done].
      split; [apply Hr2|lia].
    + by exists (Some nm), j, s1.
  - exists None, j, s1. destruct Hr as [-> ->]. by split_and!.
Qed.

Lemma strict_fuel s k : at_slot s k → (n - k < MAX_ENTRIES)%nat.
Proof.
  intros Hs. destruct (at_slot_scan s k Hs) as (Hsc & Hl & Hm & Hlen & Hdir).
  assert (H := max_entries_enough N v live ip i Hl Hm Hlen s k Hsc).
  rewrite length_drop, length_slots in H. by fold c n in H.
Qed.

Lemma size_loop_ok fuel : ∀ s k size, at_slot s k → (n - k < fuel)%nat → 0 ≤ size → size + Z.of_nat (n - k) < 2 ^ 32 →
  ∃ s', size_loop junk fuel dp size s = Ok (size + Z.of_nat (length (plain (names_from c k))), s') ∧
    at_slot s' n ∧ moved s s' (20 * Z.of_nat n).
Proof.
  induction fuel as [|fuel IH]; intros s k size Hs Hf Hsz Hmax; [lia|]. cbn [size_loop].
  destruct (strict_loop_ok MAX_ENTRIES s k Hs (strict_fuel s k Hs)) as (r & j & s1 & Hrun & Hs1 & Hm1 & Hkj & Hr).
  unfold dir_readdir_strict. rewrite (run_bind_ok _ _ _ _ _ Hrun). destruct r as [nm|].
  - destruct Hr as [Hn Hlt]. assert (Hj : (j ≤ n)%nat) by apply Hs1. rewrite u32_id by (unfold in_u32; lia).
    destruct (IH s1 j (size + 1) Hs1) as (s2 & Hrun2 & Hs2 & Hm2); [lia..|].
    exists s2. rewrite Hrun2, Hn. split_and!; [|done|by eapply moved_trans]. do 2 f_equal. cbn [length]. lia.
  - destruct Hr as [-> ->]. exists s1. split_and!; [|done..]. unfold mret, ST_ret. do 2 f_equal. simpl. lia.
Qed.
End list.

(** [fsutil_ls_subdir]'s loop over an open directory ([src/pintos/filesys/fsutil.c]). *)
Fixpoint ls_loop {S} `{!SectorStore S} (fuel : nat) (junk : dir_entry) (dp : nat) : ST (dfs S) (list (list Z)) :=
  match fuel with
  | O => fail Timeout
  | Datatypes.S fuel =>
    r ← dir_readdir junk dp;
    match r with
    | Some name => l ← ls_loop fuel junk dp; mret (name :: l)
    | None => mret []
    end
  end.

Lemma ls_loop_ok {S} `{!SectorStore S} junk N v live dp ip i fuel : ∀ (s : dfs S) k,
  let c := contents v (sector i) in
  at_slot N v live dp ip i s k → (length c / 20 - k < fuel)%nat →
  ∃ s', ls_loop fuel junk dp s = Ok (names_from c k, s') ∧ fs_ok N v (base s') live ∧
    moved dp ip s s' (20 * Z.of_nat (length c / 20)).
Proof.
  induction fuel as [|fuel IH]; intros s k c Hs Hf; [lia|]. cbn [ls_loop].
  destruct (dir_readdir_ok junk N v live dp ip i s k Hs) as (r & j & s1 & Hrun & Hs1 & Hm1 & Hkj & Hr).
  run_with Hrun. fold c in Hr. destruct r as [nm|].
  - destruct Hr as [-> Hlt]. assert (Hj : (j ≤ length c / 20)%nat) by apply Hs1. destruct (IH s1 j Hs1) as (s2 & Hrun2 & Hok2 & Hm2); [fold c; lia|].
    run_with Hrun2. exists s2. split_and!; [done|done|by eapply moved_trans].
  - destruct Hr as [-> ->]. exists s1. split_and!; [done|apply Hs1|done].
Qed.

(** C13. Listing is complete and terminates: reading an open directory from
    its start returns every bound name exactly once, in slot order, then
    nothing more; [dir_size], which guards the removal of directories, counts
    the names other than ["."] and [".."], and puts the position back. *)
Theorem dir_listing_correct {S} `{!SectorStore S} (s : dfs S) junk N v live dp ip i :
  let c := contents v (sector i) in
  fs_ok N v (base s) live → dir_at v s live dp ip i 0 →
  (∃ s', ls_loop MAX_ENTRIES junk dp s = Ok (names c, s') ∧ fs_ok N v (base s') live) ∧
  NoDup (names c) ∧ list_to_set (names c) = dom (dir_map c) ∧
  ∃ s', dir_size junk dp s = Ok (Z.of_nat (length (List.filter (λ nm, negb (dot_name nm)) (names c))), s') ∧
    fs_ok N v (base s') live ∧ quiet s s'.
Proof.
  intros c Hok Hd. assert (Hs : at_slot N v live dp ip i s 0) by (split_and!; [done|done|lia]).
  assert (Hfuel := strict_fuel N v live dp ip i s 0 Hs). fold c in Hfuel.
  assert (Hc := da_ok _ _ _ _ _ _ _ Hd). fold c in Hc.
  split_and!.
  - destruct (ls_loop_ok junk N v live dp ip i MAX_ENTRIES s 0 Hs Hfuel) as (s' & Hrun & Hok' & _).
    exists s'. done.
  - apply Hc.
  - unfold dir_map, names. by rewrite dom_list_to_map_L.
  - unfold dir_size. run_with (get_dir_ok _ _ _ (da_dir _ _ _ _ _ _ _ Hd)).
    destruct (at_slot_scan N v live dp ip i s 0 Hs) as (Hsc & Hl & Hm & Hlen & _).
    destruct (scannable_length N v live ip i Hl Hm s Hsc) as [L1 L2]. unfold DIRECT_LENGTH in Hlen. fold c in L1, L2.
    destruct (size_loop_ok junk N v live dp ip i MAX_ENTRIES s 0 0 Hs Hfuel) as (s1 & Hrun & Hs1 & Hm1); [lia|fold c; lia|].
    rewrite (run_bind_ok _ _ _ _ _ Hrun). destruct Hs1 as (Hok1 & Hd1 & _).
    run_with (get_dir_ok _ _ _ (da_dir _ _ _ _ _ _ _ Hd1)). cbn [d_inode d_pos].
    erewrite run_bind_ok by reflexivity. eexists. split; [reflexivity|]. split; [done|].
    destruct Hm1 as (b & Hb & ->). split; [|done]. unfold set_base, set_dirs. cbn. rewrite insert_insert_eq.
    by rewrite insert_id by apply Hd.
Qed.
