(* ===== verification/Filesys.v ===== *)
(** * Paths and the file system's interface: [src/pintos/filesys/filesys.c]

    [parse_name] walks a path through [strtok_r] on a private copy of the
    name, which lives in a memory of its own; the others are compositions of
    the directory, inode and file operations. *)
From S2P Require Import Prelude CInt CString Bitmap Bytes Block Cache Inode InodeSpec InodeWrite FsInv File Directory.
Import Inode Directory.

Open Scope Z_scope.

Module Filesys.

(** The memory [parse_name] works in: the copy of the name at address 16 and
    the delimiter string ["/"] at address 1. *)
Definition name_cpy : Z := CString.buffer.
Definition slash : Z := CString.delimiter.
Definition name_mem (name : list Z) : CString.mem := CString.token_mem 47 name.

Section ops.
Context {S : Type} `{!SectorStore S}.
Abbreviation M := (ST (dfs S)).
Variable junk : dir_entry.

(** The loop over the subdirectories; [None]: [parse_name] returns false. *)
Fixpoint parse_loop (fuel : nat) (m : CString.mem) (save_ptr : Z) (dir : option nat) (token : Z)
    : M (option (option nat * Z * CString.mem)) :=
  match fuel with
  | O => fail Timeout
  | Datatypes.S fuel =>
    r ← lift (CString.strtok_r CString.NULL slash save_ptr m);
    let '((next, save_ptr), m) := r in
    if next =? CString.NULL then mret (Some (dir, token, m))
    else
      dp ← (match dir with Some dp => mret dp | None => fail Panic end);
      name ← lift (CString.string_at m token);
      inode ← dir_lookup junk dp name;
      match inode with
      | None => dir_close dir ;; mret None
      | Some p =>
        dir_close dir ;;
        is_dir ← with_fs (inode_is_dir (Some p));
        if is_dir : bool then dir ← dir_open (Some p); parse_loop fuel m save_ptr dir next
        else mret None
      end
  end.

(** The directory and the last name; [None]: returns false. *)
Definition parse_name (name : list Z) : M (option (option nat * list Z)) :=
  r ← lift (CString.strtok_r name_cpy slash CString.NULL (name_mem name));
  let '((token, save_ptr), m) := r in
  c ← lift (match m !! name_cpy with Some c => Ok c | None => Err Fault end);
  start ← (if c =? 47 then
             dir ← dir_open_root;
             mret (if token =? CString.NULL then inr (dir, CURRENT_DIR) else inl (Some dir))
           else if token =? CString.NULL then mret (inl None)
           else
             dir ← dir_open_current;
             mret (inl (match dir with Some _ => Some dir | None => None end)));
  match start with
  | inr result => mret (Some result)
  | inl None => mret None
  | inl (Some dir) =>
    r ← parse_loop (Datatypes.S (length name)) m save_ptr dir token;
    match r with
    | None => mret None
    | Some (dir, token, m) =>
      last ← lift (CString.string_at m token);
      if NAME_MAX + 1 <? Z.of_nat (length last) + 1 then dir_close dir ;; mret None
      else mret (Some (dir, last))
    end
  end.

(** [free_map_allocate (1, &inode_sector)] with [inode_sector] initially 0:
    its final value and the result. *)
Definition allocate_inode_sector : M (Z * bool) :=
  with_fs (s ← get;
    r ← allocate_loop inode_write_at (Z.to_nat (Bitmap.bitmap_size (free_map s))) 0 1 [];
    let '(sectorp, ok) := r in
    (if ok : bool then mret tt else reset_loop (length sectorp) 0) ;;
    mret (default 0 (head sectorp), ok)).

Definition filesys_create (full_name : list Z) (initial_size : Z) (is_dir : bool) : M bool :=
  r ← parse_name full_name;
  match r with
  | None => mret false
  | Some (dir, name) =>
    r ← (match dir with
         | None => mret (0, false)
         | Some dp =>
           r ← allocate_inode_sector;
           let '(inode_sector, ok) := r in
           if ok : bool then
             ok ← with_fs (inode_create inode_write_at inode_sector initial_size is_dir);
             if ok : bool then
               ok ← dir_add junk dp name inode_sector is_dir; mret (inode_sector, ok)
             else mret (inode_sector, false)
           else mret (inode_sector, false)
         end);
    let '(inode_sector, success) := r in
    (if negb success && negb (inode_sector =? 0) then
       with_fs (free_map_release inode_write_at inode_sector 1)
     else mret tt) ;;
    dir_close dir ;;
    mret success
  end.

Definition filesys_open_internal (full_name : list Z) : M (option nat) :=
  r ← parse_name full_name;
  match r with
  | None => mret None
  | Some (dir, name) =>
    inode ← (match dir with Some dp => dir_lookup junk dp name | None => mret None end);
    dir_close dir ;;
    mret inode
  end.

Definition filesys_open (name : list Z) : M (option nat) :=
  inode ← filesys_open_internal name;
  match inode with
  | Some p =>
    is_dir ← with_fs (inode_is_dir (Some p));
    if negb is_dir then with_fs (File.file_open (Some p)) else mret None
  | None => mret None
  end.

Definition filesys_open_dir (name : list Z) : M (option nat) :=
  inode ← filesys_open_internal name;
  match inode with
  | Some p =>
    is_dir ← with_fs (inode_is_dir (Some p));
    if is_dir : bool then dir_open (Some p) else mret None
  | None => mret None
  end.

Definition filesys_remove (full_name : list Z) : M bool :=
  r ← parse_name full_name;
  match r with
  | None => mret false
  | Some (dir, name) =>
    success ← (match dir with Some dp => dir_remove junk dp name | None => mret false end);
    dir_close dir ;;
    mret success
  end.

Definition do_format : M unit :=
  with_fs FreeMap.free_map_create ;;
  ok ← dir_create_root junk;
  (if ok : bool then mret tt else fail Panic) ;;
  with_fs FreeMap.free_map_close.

(** With a file system device of [sectors] sectors in place; [bits] is what
    the allocation of the free map contains. *)
Definition filesys_init (sectors : Z) (bits : list Z) (format : bool) : M unit :=
  with_fs inode_init ;;
  with_fs (FreeMap.free_map_init sectors bits) ;;
  (if format then do_format else mret tt) ;;
  with_fs FreeMap.free_map_open.
End ops.

(** Over the buffer cache. *)
Definition filesys_done {D} `{!Block.BlockDriver D} : ST (dfs (Cache.state D)) unit :=
  with_fs (with_store Cache.write_cache_to_disk) ;;
  with_fs FreeMap.free_map_close.

End Filesys.
