(* ===== verification/FilesysSpec.v ===== *)
(** * The behaviour of paths

    The tree of directories on the device gives every path a meaning
    ([resolve]); [parse_name] and [filesys_open_internal] find it. *)
From S2P Require Import Prelude CInt CString CStringSpec Bitmap Bytes Block Cache Inode InodeSpec InodeWrite FsInv FreeMapSpec InodeExtend FileGrow File FileRemove Directory DirMap DirectorySpec Filesys.
Import Inode Directory Filesys.

Open Scope Z_scope.

(** ** Paths in the tree *)

(** The directory reached from directory [sec] through [comps]. *)
Fixpoint walk (v : Z → list Z) (sec : Z) (comps : list (list Z)) : option Z :=
  match comps with
  | [] => Some sec
  | name :: comps =>
    match dir_map (contents v sec) !! name with
    | Some x => if i_is_dir (disk v x) then walk v x comps else None
    | None => None
    end
  end.

Definition components (path : list Z) : list (list Z) := CStringSpec.words [47] path.
Definition absolute (path : list Z) : bool := match path with c :: _ => c =? 47 | [] => false end.

(** What a path names, for a thread whose current directory is the root. *)
Definition resolve (v : Z → list Z) (path : list Z) : option Z :=
  match components path with
  | [] => if absolute path then dir_map (contents v ROOT_DIR_SECTOR) !! CURRENT_DIR else None
  | comps =>
    sec ← walk v ROOT_DIR_SECTOR (removelast comps);
    let name := List.last comps [] in
    if (length name <=? 14)%nat then dir_map (contents v sec) !! name else None
  end.

(** Every directory on the device is well formed, within its direct blocks,
    and names live inodes; the root is a directory and the free map is not. *)
Record tree_ok (v : Z → list Z) (live : gset Z) : Prop := TreeOk {
  tr_dir sec : sec ∈ live → i_is_dir (disk v sec) = true →
    dir_ok (contents v sec) ∧ i_length (disk v sec) < DIRECT_LENGTH;
  tr_live sec name x : sec ∈ live → i_is_dir (disk v sec) = true →
    dir_map (contents v sec) !! name = Some x → x ∈ live;
  tr_root : ROOT_DIR_SECTOR ∈ live ∧ i_is_dir (disk v ROOT_DIR_SECTOR) = true;
  tr_map : i_is_dir (disk v FREE_MAP_SECTOR) = false;
}.

(** ** Walking *)
Section walk.
Context {S : Type} `{!SectorStore S}.
Implicit Types (s : dfs S).
Variable junk : dir_entry.
Context (N : Z) (v : Z → list Z) (live : gset Z).
Hypothesis Htree : tree_ok v live.

(** A consistent file system with no removed inode in memory; [K] bounds the
    open counts. *)
Record walker s (K : Z) : Prop := Walker {
  wk_ok : fs_ok N v (base s) live;
  wk_table : table_ok (base s);
  wk_inodes p j : inodes (base s) !! p = Some j → open_cnt j < K ∧ removed j = false;
  wk_bound : 1 ≤ K;
}.

Lemma walker_mono s K K' : K ≤ K' → walker s K → walker s K'.
Proof. intros HK [H1 H2 H3 H4]. split; try done; [|lia]. intros p j Hp. destruct (H3 p j Hp). split; [lia|done]. Qed.

Lemma walker_quiet s s' K : fs_ok N v (base s') live → quiet s s' → walker s K → walker s' K.
Proof.
  intros Hok Hq [H1 H2 H3 H4]. destruct (quiet_fields s s' Hq) as (_ & _ & _ & _ & Hh & _).
  split; [done|by eapply table_ok_heap| |done]. destruct Hh as (_ & -> & _). done.
Qed.

Lemma walker_opened s K x q j : walker s K → open_result (base s) x q j →
  ∀ p i, <[q := j]> (inodes (base s)) !! p = Some i → open_cnt i < K + 1 ∧ removed i = false.
Proof.
  intros [_ _ H3 H4] [_ Hres] p i [[<- <-]|[_ Hp]]%lookup_insert_Some; [|destruct (H3 p i Hp); split; [lia|done]].
  destruct (inodes (base s) !! q) as [j0|] eqn:E.
  - destruct Hres as [_ ->]. destruct (H3 q j0 E). simpl. split; [lia|done].
  - destruct Hres as (-> & _). simpl. split; [lia|done].
Qed.

(** Opening an inode, whoever else has it open. *)
Lemma walker_open s K x : walker s K → K ≤ 2 ^ 31 - 2 →
  ∃ q j b, inode_open x (base s) = Ok (Some q, b) ∧ walker (set_base b s) (K + 1) ∧
    open_result (base s) x q j ∧ inodes b = <[q := j]> (inodes (base s)).
Proof.
  intros Hw HK. destruct (Hw) as [H1 H2 H3 H4].
  destruct (inode_open_ok N v (base s) live x H1 H2) as (q & j & b & Hrun & Hres & Ei & Ht & Hok & _).
  { intros p j Hp. destruct (H3 p j Hp). lia. }
  exists q, j, b. split; [done|]. split; [|done]. split; [done|done| |lia]. cbn [base set_base]. rewrite Ei.
  by eapply walker_opened.
Qed.

Lemma dir_close_ok s K dp q pos j :
  walker s K → dirs s !! dp = Some (MkDir q pos) → inodes (base s) !! q = Some j → sector j ≠ FREE_MAP_SECTOR →
  ∃ s', dir_close (Some dp) s = Ok (tt, s') ∧ walker s' K ∧ inodes (base s') = closed_table (base s) q j.
Proof.
  intros [H1 H2 H3 H4] Hd Hj Hne. destruct (H3 q j Hj) as [Hc Hr].
  destruct (inode_close_ok N v (base s) live q j H1 H2 Hj (or_introl Hr) Hne) as (b & Hrun & Ei & Ht & Hok & _).
  unfold dir_close. run_with (get_dir_ok _ _ _ Hd). cbn [d_inode]. rewrite (run_bind_ok _ _ _ _ _ (with_fs_ok _ s _ _ Hrun)).
  eexists. split; [reflexivity|]. split; [|done]. split; cbn [base set_base set_dirs]; try done.
  rewrite Ei. unfold closed_table. intros p i. destruct (open_cnt j =? 1).
  - intros [_ Hp]%lookup_delete_Some. by apply H3 in Hp.
  - intros [[<- <-]|[_ Hp]]%lookup_insert_Some; [simpl; split; [lia|done]|by apply H3 in Hp].
Qed.

(** The walk is at directory [sec]. *)
Definition here s (sec : Z) (dp : nat) : Prop :=
  ∃ q j pos, dir_at v s live dp q j pos ∧ sector j = sec ∧ i_is_dir (disk v sec) = true.

Lemma here_sector s sec dp : here s sec dp → sec ∈ live ∧ sec ≠ FREE_MAP_SECTOR.
Proof. intros (q & j & pos & Hd & <- & Hdir). split; [apply Hd|]. intros E. rewrite E, (tr_map _ _ Htree) in Hdir. done. Qed.

(** Opening a directory inode as a directory. *)
Lemma here_open s K q j x : walker s K → inodes (base s) !! q = Some j → sector j = x → x ∈ live →
  i_is_dir (disk v x) = true →
  ∃ dp s', dir_open (Some q) s = Ok (Some dp, s') ∧ walker s' K ∧ here s' x dp.
Proof.
  intros [H1 H2 H3 H4] Hq Hx Hl Hdir. eexists _, _. split; [apply dir_open_ok|]. split; [done|].
  destruct (tr_dir _ _ Htree x Hl Hdir) as [T1 T2].
  exists q, j, 0. split; [|done]. split; cbn [dirs base]; rewrite ?Hx; try done. apply lookup_insert_eq.
Qed.

(** One component: the child is opened and the parent closed. *)
Lemma lookup_close s K sec dp name :
  walker s K → K ≤ 2 ^ 31 - 2 → here s sec dp → valid_name name →
  match dir_map (contents v sec) !! name with
  | None => ∃ s1 s2, dir_lookup junk dp name s = Ok (None, s1) ∧ dir_close (Some dp) s1 = Ok (tt, s2) ∧ walker s2 K
  | Some x => ∃ q j s1 s2, dir_lookup junk dp name s = Ok (Some q, s1) ∧ dir_close (Some dp) s1 = Ok (tt, s2) ∧
      walker s2 (K + 1) ∧ inodes (base s2) !! q = Some j ∧ sector j = x
  end.
Proof.
  intros Hw HK Hh Hname. destruct (here_sector s sec dp Hh) as [_ Hfm]. destruct Hh as (qd & jd & pos & Hd & <- & Hdir).
  assert (Hcnt : ∀ p j, inodes (base s) !! p = Some j → open_cnt j < 2 ^ 31 - 2)
    by (intros p j Hp; destruct (wk_inodes _ _ Hw p j Hp); lia).
  assert (Hlk := dir_lookup_ok junk N v s live dp qd jd pos name (wk_ok _ _ Hw) Hd Hname (wk_table _ _ Hw) Hcnt).
  destruct (dir_map _ !! name) as [x|].
  - destruct Hlk as (q & j & s1 & Hrun & Hres & Ei & Est & Hok1 & Ht1 & _).
    assert (Hw1 : walker s1 (K + 1)).
    { split; [done|done| |destruct Hw; lia]. rewrite Ei. by eapply walker_opened. }
    assert (Hd1 : dirs s1 !! dp = Some (MkDir qd pos)) by (rewrite Est; apply Hd).
    assert (Hsj : sector j = x) by apply Hres.
    destruct (decide (qd = q)) as [->|Hne].
    + destruct Hres as [_ Hres]. rewrite (da_inode _ _ _ _ _ _ _ Hd) in Hres. destruct Hres as [Hx ->].
      destruct (dir_close_ok s1 (K + 1) dp q pos (opened jd) Hw1 Hd1) as (s2 & Hrun2 & Hw2 & Ei2);
        [rewrite Ei; apply lookup_insert_eq|done|].
      eexists q, _, s1, s2. split_and!; [done..| |].
      * rewrite Ei2. unfold closed_table. assert (Hc := to_count _ (wk_table _ _ Hw) _ _ (da_inode _ _ _ _ _ _ _ Hd)).
        cbn [open_cnt opened]. destruct (Z.eqb_spec (open_cnt jd + 1) 1); [lia|]. apply lookup_insert_eq.
      * simpl. by rewrite <- Hx.
    + destruct (dir_close_ok s1 (K + 1) dp qd pos jd Hw1 Hd1) as (s2 & Hrun2 & Hw2 & Ei2);
        [rewrite Ei, lookup_insert_ne by done; apply Hd|done|].
      exists q, j, s1, s2. split_and!; try done. rewrite Ei2. unfold closed_table.
      destruct (open_cnt jd =? 1); [rewrite lookup_delete_ne by done|rewrite lookup_insert_ne by done];
        rewrite Ei; apply lookup_insert_eq.
  - destruct Hlk as (s1 & Hrun & Hok1 & Hq). assert (Hw1 := walker_quiet _ _ _ Hok1 Hq Hw).
    assert (Hd1 := dir_at_quiet _ _ _ _ _ _ _ _ Hq Hd).
    destruct (dir_close_ok s1 K dp qd pos jd Hw1) as (s2 & Hrun2 & Hw2 & _); [apply Hd1|apply Hd1|done|].
    by exists s1, s2.
Qed.

Lemma inode_is_dir_ok s K q j : walker s K → inodes (base s) !! q = Some j → sector j ∈ live →
  ∃ s', with_fs (inode_is_dir (Some q)) s = Ok (i_is_dir (disk v (sector j)), s') ∧ walker s' K ∧
    inodes (base s') !! q = Some j.
Proof.
  intros Hw Hq Hl. assert (Hin := lo_inode _ _ _ (fo_live _ _ _ _ (wk_ok _ _ Hw)) _ Hl).
  destruct (inode_get_data_ok N v (base s) q j (fo_sees _ _ _ _ (wk_ok _ _ Hw)) Hq (inode_ok_sector _ _ _ Hin))
    as (b & Hrun & Hs & Ho).
  exists (set_base b s).
  split; [apply (with_fs_ok (inode_is_dir (Some q)) s); exact (run_bind_ok _ _ _ _ _ Hrun)|].
  split; [|by eapply only_store_inode]. eapply walker_quiet; [|split; [done|exact Ho]|exact Hw].
  by eapply fs_ok_quiet; [apply Hw|..].
Qed.

Lemma token_valid m p w : CStringSpec.cstr m p w → valid_name w.
Proof. intros [_ H]. exact H. Qed.

(** The loop of [parse_name]. *)
Lemma parse_loop_ok fuel : ∀ s K sec dp m token w save rest,
  walker s K → K + Z.of_nat fuel ≤ 2 ^ 31 - 2 → here s sec dp → between slash [47] m token w save rest →
  (length rest < fuel)%nat →
  match walk v sec (removelast (w :: components rest)) with
  | Some sec' => ∃ s' dp' token' m', parse_loop junk fuel m save (Some dp) token s = Ok (Some (Some dp', token', m'), s') ∧
      walker s' (K + Z.of_nat fuel) ∧ here s' sec' dp' ∧
      CStringSpec.cstr m' token' (List.last (w :: components rest) [])
  | None => ∃ s', parse_loop junk fuel m save (Some dp) token s = Ok (None, s') ∧ walker s' (K + Z.of_nat fuel)
  end.
Proof.
  induction fuel as [|fuel IH]; intros s K sec dp m token w save rest Hw HK Hh Hm Hf; [lia|]. cbn [parse_loop].
  destruct (next_token slash [47] ltac:(done) m token w save rest Hm) as
    [[Ew Hrun]|(t & w' & m' & save' & rest' & Hrun & Ew & Htok & Hm' & Hlen)];
    (rewrite (run_bind_ok (lift _) _ s _ s) by (unfold lift; by rewrite Hrun)); cbv beta iota; fold (components rest) in Ew; rewrite Ew; try fold (components rest').
  - cbn [removelast walk List.last]. eexists s, dp, token, m. split; [reflexivity|].
    split; [eapply walker_mono, Hw; lia|]. split; [done|apply Hm].
  - rewrite (proj2 (Z.eqb_neq t CString.NULL)) by apply Hm'.
    erewrite run_bind_ok by reflexivity.
    rewrite (run_bind_ok (lift _) _ s w s) by (unfold lift; by rewrite (string_at_ok _ _ _ Htok)).
    change (removelast (w :: w' :: components rest')) with (w :: removelast (w' :: components rest')).
    change (List.last (w :: w' :: components rest') []) with (List.last (w' :: components rest') []).
    cbn [walk]. assert (Hlk := lookup_close s K sec dp w Hw ltac:(lia) Hh (token_valid _ _ _ Htok)).
    destruct (here_sector s sec dp Hh) as [Hsl _].
    assert (Hsd : i_is_dir (disk v sec) = true) by (destruct Hh as (? & ? & ? & _ & _ & ?); done).
    destruct (dir_map (contents v sec) !! w) as [x|] eqn:Ex.
    + destruct Hlk as (q & j & s1 & s2 & Hrun1 & Hrun2 & Hw2 & Hq & Hsx). rewrite (run_bind_ok _ _ _ _ _ Hrun1). cbv beta iota. rewrite (run_bind_ok _ _ _ _ _ Hrun2).
      assert (Hxl : x ∈ live) by (by eapply (tr_live _ _ Htree sec w)).
      destruct (inode_is_dir_ok s2 (K + 1) q j Hw2 Hq ltac:(by rewrite Hsx)) as (s3 & Hrun3 & Hw3 & Hq3).
      rewrite (run_bind_ok _ _ _ _ _ Hrun3). rewrite Hsx. destruct (i_is_dir (disk v x)) eqn:Hxd.
      * destruct (here_open s3 (K + 1) q j x Hw3 Hq3 Hsx Hxl Hxd) as (dp4 & s4 & Hrun4 & Hw4 & Hh4).
        rewrite (run_bind_ok _ _ _ _ _ Hrun4). assert (HI := IH s4 (K + 1) x dp4 m' t w' save' rest' Hw4 ltac:(lia) Hh4 Hm' ltac:(lia)).
        replace (K + Z.of_nat (Datatypes.S fuel)) with (K + 1 + Z.of_nat fuel) by lia. exact HI.
      * eexists. split; [reflexivity|]. eapply walker_mono, Hw3. lia.
    + destruct Hlk as (s1 & s2 & Hrun1 & Hrun2 & Hw2). rewrite (run_bind_ok _ _ _ _ _ Hrun1). cbv beta iota. rewrite (run_bind_ok _ _ _ _ _ Hrun2).
      eexists. split; [reflexivity|]. eapply walker_mono, Hw2. lia.
Qed.

Lemma open_root_ok s K : walker s K → K ≤ 2 ^ 31 - 2 →
  ∃ dp s', dir_open_root s = Ok (Some dp, s') ∧ walker s' (K + 1) ∧ here s' ROOT_DIR_SECTOR dp.
Proof.
  intros Hw HK. destruct (walker_open s K ROOT_DIR_SECTOR Hw HK) as (q & j & b & Hrun & Hw1 & Hres & Ei).
  destruct (tr_root _ _ Htree) as [Hl Hd]. unfold dir_open_root.
  rewrite (run_bind_ok _ _ _ _ _ (with_fs_ok _ s _ _ Hrun)).
  apply (here_open (set_base b s) (K + 1) q j); try done; [|apply Hres].
  cbn [base set_base]. rewrite Ei. apply lookup_insert_eq.
Qed.

(** The first token. *)
Lemma first_token path : valid_name path →
  ∃ token save m c, CString.strtok_r name_cpy slash CString.NULL (name_mem path) = Ok ((token, save), m) ∧
    m !! name_cpy = Some c ∧ (c =? 47) = absolute path ∧
    ((components path = [] ∧ token = CString.NULL) ∨
     ∃ w rest, components path = w :: components rest ∧ between slash [47] m token w save rest ∧ (length rest < length path)%nat).
Proof.
  intros Hv. assert (Hp := token_mem_buffer 47 path Hv).
  assert (Hc : ∃ c, name_mem path !! name_cpy = Some c ∧ (c =? 47) = absolute path).
  { destruct path as [|c path].
    - apply cstr_nil in Hp. by exists 0.
    - apply cstr_cons in Hp as (Hc & _). by exists c. }
  destruct Hc as (c & Hc & Hca). destruct (tokens_start 47 path ltac:(done) Hv) as (t & a & m & Hrun & Hm0 & Hcase).
  exists t, a, m, c. split; [exact Hrun|]. split; [by rewrite (Hm0 name_cpy) by done|]. split; [done|].
  destruct Hcase as [(Ew & -> & _)|(w & rest & Ew & Hm & Hlen)]; [by left|right]. by exists w, rest.
Qed.

(** [parse_name] for a thread that starts at the root. *)
Lemma parse_name_ok s K path :
  let K' := K + 2 + Z.of_nat (length path) in
  walker s K → K' ≤ 2 ^ 31 - 2 → valid_name path → absolute path = true ∨ current s = None →
  let ok name sec := ∃ dp s', parse_name junk path s = Ok (Some (Some dp, name), s') ∧ walker s' K' ∧ here s' sec dp in
  let failed := ∃ s', parse_name junk path s = Ok (None, s') ∧ walker s' K' in
  match components path with
  | [] => if absolute path then ok CURRENT_DIR ROOT_DIR_SECTOR else failed
  | comps =>
    match walk v ROOT_DIR_SECTOR (removelast comps) with
    | Some sec => if (length (List.last comps []) <=? 14)%nat then ok (List.last comps []) sec else failed
    | None => failed
    end
  end.
Proof.
  intros K' Hw HK Hv Habs ok failed. subst ok failed. unfold K' in *. clear K'. unfold parse_name.
  destruct (first_token path Hv) as (token & save & m & c & Hrun & Hc & Hca & Htok).
  rewrite (run_bind_ok (lift _) _ s _ s) by (unfold lift; by rewrite Hrun). cbv beta iota.
  rewrite (run_bind_ok (lift _) _ s _ s) by (unfold lift; by rewrite Hc). cbv beta iota. rewrite Hca.
  destruct (open_root_ok s K Hw ltac:(lia)) as (dp & s1 & Hrun1 & Hw1 & Hh1).
  assert (Hmono : ∀ s', walker s' (K + 1) → walker s' (K + 2 + Z.of_nat (length path)))
    by (intros s'; apply walker_mono; lia).
  destruct Htok as [[Ew ->]|(w & rest & Ew & Hm & Hlen)]; rewrite Ew.
  - cbn [Z.eqb CString.NULL]. destruct (absolute path).
    + exists dp, s1. rewrite (run_bind_ok _ _ s (inr (Some dp, CURRENT_DIR)) s1); [|by run_with Hrun1].
      split; [done|]. split; [by apply Hmono|done].
    + exists s. rewrite (run_bind_ok _ _ s (inl None) s); [|done]. split; [done|]. eapply walker_mono, Hw. lia.
  - assert (Hnn : (token =? CString.NULL) = false) by apply Z.eqb_neq, Hm.
    assert (Hstart : (if absolute path then
             dir ← dir_open_root;
             mret (if token =? CString.NULL then inr (dir, CURRENT_DIR) else inl (Some dir))
           else if token =? CString.NULL then mret (inl None)
           else
             dir ← dir_open_current;
             mret (inl (match dir with Some _ => Some dir | None => None end))) s
           = Ok (inl (Some (Some dp)), s1)).
    { rewrite Hnn. destruct (absolute path); [by run_with Hrun1|]. destruct Habs as [?|Hcur]; [done|].
      assert (Ecur : dir_open_current s = Ok (Some dp, s1)).
      { unfold dir_open_current. erewrite run_bind_ok by reflexivity. by rewrite Hcur. }
      by run_with Ecur. }
    rewrite (run_bind_ok _ _ _ _ _ Hstart). clear Hstart. cbv beta iota.
    assert (Hloop := parse_loop_ok (Datatypes.S (length path)) s1 (K + 1) ROOT_DIR_SECTOR dp m token w save rest Hw1
                       ltac:(lia) Hh1 Hm ltac:(lia)).
    replace (K + 1 + Z.of_nat (Datatypes.S (length path))) with (K + 2 + Z.of_nat (length path)) in Hloop by lia.
    destruct (walk v ROOT_DIR_SECTOR (removelast (w :: components rest))) as [sec|].
    + destruct Hloop as (s2 & dp2 & t2 & m2 & Hrun2 & Hw2 & Hh2 & Hlast).
      rewrite (run_bind_ok _ _ _ _ _ Hrun2). cbv beta iota. clear Hrun2.
      rewrite (run_bind_ok (lift _) _ s2 _ s2) by (unfold lift; by rewrite (string_at_ok _ _ _ Hlast)).
      set (last := List.last (w :: components rest) []) in *. unfold NAME_MAX.
      destruct (Nat.leb_spec (length last) 14), (Z.ltb_spec (14 + 1) (Z.of_nat (length last) + 1)); try lia.
      * exists dp2, s2. done.
      * destruct (here_sector s2 sec dp2 Hh2) as [_ Hfm]. destruct Hh2 as (q & j & pos & Hd & <- & _).
        destruct (dir_close_ok s2 _ dp2 q pos j Hw2) as (s3 & Hrun3 & Hw3 & _); [apply Hd|apply Hd|done|].
        exists s3. rewrite (run_bind_ok _ _ _ _ _ Hrun3). done.
    + destruct Hloop as (s2 & Hrun2 & Hw2). exists s2. rewrite (run_bind_ok _ _ _ _ _ Hrun2). done.
Qed.

(** Looking the last name up. *)
Lemma open_last s K sec dp name : walker s K → K ≤ 2 ^ 31 - 2 → here s sec dp → valid_name name →
  match dir_map (contents v sec) !! name with
  | Some x => ∃ q j s', (inode ← dir_lookup junk dp name; dir_close (Some dp) ;; mret inode) s = Ok (Some q, s') ∧
      walker s' (K + 1) ∧ inodes (base s') !! q = Some j ∧ sector j = x ∧ x ∈ live
  | None => ∃ s', (inode ← dir_lookup junk dp name; dir_close (Some dp) ;; mret inode) s = Ok (None, s') ∧
      walker s' (K + 1)
  end.
Proof.
  intros Hw HK Hh Hv. assert (Hlk := lookup_close s K sec dp name Hw HK Hh Hv).
  destruct (here_sector s sec dp Hh) as [Hsl _].
  assert (Hsd : i_is_dir (disk v sec) = true) by (destruct Hh as (? & ? & ? & _ & _ & ?); done).
  destruct (dir_map (contents v sec) !! name) as [x|] eqn:Ex.
  - destruct Hlk as (q & j & s1 & s2 & Hrun1 & Hrun2 & Hw2 & Hq & Hsx). exists q, j, s2.
    split; [run_with Hrun1; by run_with Hrun2|]. split_and!; try done. by eapply (tr_live _ _ Htree sec name).
  - destruct Hlk as (s1 & s2 & Hrun1 & Hrun2 & Hw2). exists s2.
    split; [run_with Hrun1; by run_with Hrun2|]. eapply walker_mono, Hw2. lia.
Qed.
End walk.

Lemma last_valid comps : Forall valid_name comps → valid_name (List.last comps []).
Proof.
  induction 1 as [|w l Hw Hl IH]; [by constructor|]. destruct l; [done|]. exact IH.
Qed.
Lemma components_valid path : valid_name path → Forall valid_name (components path).
Proof.
  unfold components, CStringSpec.words. assert (Hg : ∀ w, valid_name w → valid_name path → Forall valid_name (CStringSpec.words_from [47] w path)); [|intros Hp; apply Hg; [constructor|done]].
  induction path as [|c path IH]; intros w Hw Hp; simpl.
  - destruct (decide (w = [])); by repeat constructor.
  - apply Forall_cons in Hp as [Hc Hp]. destruct (decide (c ∈ [47])).
    + destruct (decide (w = [])); [|constructor; [done|]]; apply IH; by try constructor.
    + apply IH; [|done]. apply Forall_app. split; [done|by constructor].
Qed.

(** C9. Paths mean what the directory tree says: for a kernel thread, or for
    any thread and an absolute path, [filesys_open_internal] walks the
    components of the path, however many slashes separate them, from the root,
    terminates without panic or fault, and opens the inode the tree names
    there; it returns null if a component is missing, is no directory where
    one is needed, or is longer than a name can be.  The file system is as
    before and no sector is open twice. *)
Theorem filesys_open_resolves {S} `{!SectorStore S} (s : dfs S) junk N v live K path :
  tree_ok v live → walker N v live s K → K + 4 + Z.of_nat (length path) ≤ 2 ^ 31 →
  valid_name path → absolute path = true ∨ current s = None →
  match resolve v path with
  | Some x => ∃ q j s', filesys_open_internal junk path s = Ok (Some q, s') ∧
      inodes (base s') !! q = Some j ∧ sector j = x ∧ x ∈ live ∧ fs_ok N v (base s') live ∧ table_ok (base s')
  | None => ∃ s', filesys_open_internal junk path s = Ok (None, s') ∧ fs_ok N v (base s') live ∧ table_ok (base s')
  end.
Proof.
  intros Ht Hw HK Hv Habs. assert (Hp := parse_name_ok junk N v live Ht s K path Hw ltac:(lia) Hv Habs). cbv zeta in Hp.
  unfold resolve, filesys_open_internal. assert (Hvc := last_valid _ (components_valid path Hv)).
  assert (Hfin : ∀ sec dp name s1, walker N v live s1 (K + 2 + Z.of_nat (length path)) → here v live s1 sec dp → valid_name name →
    parse_name junk path s = Ok (Some (Some dp, name), s1) →
    match dir_map (contents v sec) !! name with
    | Some x => ∃ q j s', filesys_open_internal junk path s = Ok (Some q, s') ∧
        inodes (base s') !! q = Some j ∧ sector j = x ∧ x ∈ live ∧ fs_ok N v (base s') live ∧ table_ok (base s')
    | None => ∃ s', filesys_open_internal junk path s = Ok (None, s') ∧ fs_ok N v (base s') live ∧ table_ok (base s')
    end).
  { intros sec dp name s1 Hw1 Hh1 Hn Hrun. unfold filesys_open_internal. rewrite (run_bind_ok _ _ _ _ _ Hrun). cbv beta iota.
    assert (Hl := open_last junk N v live Ht s1 _ sec dp name Hw1 ltac:(lia) Hh1 Hn).
    destruct (dir_map (contents v sec) !! name) as [x|].
    - destruct Hl as (q & j & s2 & Hr & [] & H). exists q, j, s2. naive_solver.
    - destruct Hl as (s2 & Hr & []). exists s2. naive_solver. }
  assert (Hbad : (∃ s', parse_name junk path s = Ok (None, s') ∧ walker N v live s' (K + 2 + Z.of_nat (length path))) →
    ∃ s', filesys_open_internal junk path s = Ok (None, s') ∧ fs_ok N v (base s') live ∧ table_ok (base s')).
  { intros (s1 & Hrun & []). exists s1. unfold filesys_open_internal. rewrite (run_bind_ok _ _ _ _ _ Hrun). done. }
  fold (filesys_open_internal junk path). destruct (components path) as [|w comps].
  - destruct (absolute path); [|by apply Hbad]. destruct Hp as (dp & s1 & Hrun & Hw1 & Hh1).
    eapply Hfin; try done. repeat constructor; lia.
  - destruct (walk v ROOT_DIR_SECTOR (removelast (w :: comps))) as [sec|]; [|by apply Hbad]. cbn [mbind option_bind].
    destruct (length (List.last (w :: comps) []) <=? 14)%nat; [|by apply Hbad].
    destruct Hp as (dp & s1 & Hrun & Hw1 & Hh1). by eapply Hfin.
Qed.
