(* ===== verification/FsDemo.v ===== *)
(** * A small file system, for examples

    A device of 200 sectors that holds the free map's file (inode in sector 0,
    data in sector 2), a file of 600 bytes (inode in sector 5, data in sectors
    6 and 7) and one of 13 blocks (inode in sector 20, data in 21 to 32 and 34,
    indirect block in 33), under an empty buffer cache; and the file system's
    properties at work on it. *)
From S2P Require Import Prelude CInt Bitmap Bytes Block Cache Inode InodeSpec InodeWrite FsInv FreeMapSpec InodeExtend FileGrow File FileSpec FileRemove.
Import Block Inode File.

Open Scope Z_scope.

Definition demo_inode (len : Z) (blocks : list Z) (ind : Z) : inode_disk :=
  InodeDisk len false 0 (blocks ++ replicate (12 - length blocks) 0) ind 0 INODE_MAGIC (replicate 111 0).

Definition demo_fs_map : Bitmap.bitmap := Bitmap.MkBitmap 200 [4293918949; 7; 0; 0; 0; 0; 0].

Definition demo_fs_sector (k : nat) : list Z :=
  match k with
  | 0%nat => encode (demo_inode 28 [2] 0)
  | 2%nat => bytes_of_words (Bitmap.bits demo_fs_map ++ replicate 121 0)
  | 5%nat => encode (demo_inode 600 [6; 7] 0)
  | 6%nat => replicate 512 1
  | 7%nat => replicate 88 2 ++ replicate 424 0
  | 20%nat => encode (demo_inode 6656 (seqZ 21 12) 33)
  | 33%nat => bytes_of_words (34 :: replicate 127 0)
  | _ => replicate 512 9
  end.

Definition demo_fs_device : block ramdisk :=
  MkBlock BLOCK_FILESYS 200 (demo_fs_sector <$> seq 0 200) 0 0.

Definition demo_fs : fs (Cache.state ramdisk) :=
  Fs (Cache.cache_init demo_fs_device
        (Cache.State (replicate 64 (Cache.Entry 0 false false 0 [])) demo_fs_device 0 0 0 0))
    demo_fs_map (Some 1%nat)
    {[ 0%nat := MkInode 0 1 false 0; 3%nat := MkInode 5 1 false 0; 4%nat := MkInode 20 1 false 0 ]}
    [4%nat; 3%nat; 0%nat] {[ 1%nat := MkFile 0 0 false; 2%nat := MkFile 3 500 false ]} 5.

Definition demo_view : Z → list Z := sector_of demo_fs_device.
Definition demo_live : gset Z := list_to_set [0; 5; 20].

Lemma demo_fs_device_ok : block_ok demo_fs_device.
Proof.
  split; [simpl; lia|]. split; [done|]. split; [reflexivity|].
  apply (bool_decide_eq_true (Forall _ _)). vm_compute. reflexivity.
Qed.

Lemma demo_sees : sees 200 demo_view demo_fs.
Proof.
  destruct (Cache.cache_init_inv
    (Cache.State (replicate 64 (Cache.Entry 0 false false 0 [])) demo_fs_device 0 0 0 0)
    demo_fs_device) as [Hi Hv]; [reflexivity|exact demo_fs_device_ok|].
  split; [exact Hi|]. split; [reflexivity|exact Hv].
Qed.

Lemma demo_disk_0 : disk demo_view 0 = demo_inode 28 [2] 0.
Proof. vm_compute. reflexivity. Qed.
Lemma demo_disk_5 : disk demo_view 5 = demo_inode 600 [6; 7] 0.
Proof. vm_compute. reflexivity. Qed.
Lemma demo_disk_20 : disk demo_view 20 = demo_inode 6656 (seqZ 21 12) 33.
Proof. vm_compute. reflexivity. Qed.
Lemma demo_owned_5 : owned demo_view 5 = [5; 6; 7].
Proof. vm_compute. reflexivity. Qed.
Lemma demo_owned_20 : owned demo_view 20 = [20; 33; 21; 22; 23; 24; 25; 26; 27; 28; 29; 30; 31; 32; 34].
Proof. vm_compute. reflexivity. Qed.

Lemma demo_fs_ok : fs_ok 200 demo_view demo_fs demo_live.
Proof.
  apply fs_check_ok; [exact demo_sees|lia|reflexivity|vm_compute; reflexivity|].
  intros fp [= <-]. split; [left|]. split; [unfold FREE_MAP_SECTOR; by rewrite demo_disk_0|].
  exists (MkFile 0 0 false), (MkInode 0 1 false 0). done.
Qed.

Lemma demo_synced : synced demo_view demo_fs.
Proof. vm_compute. reflexivity. Qed.

(** ** The properties at work *)

Lemma free_map_allocate_correct_witness :
  ∃ s' v', free_map_allocate inode_write_at 3 demo_fs = Ok (Some [1; 3; 4], s') ∧
    fs_ok 200 v' s' demo_live ∧ synced v' s'.
Proof.
  destruct (free_map_allocate_correct demo_fs 200 demo_view demo_live 3 demo_fs_ok)
    as (l & s' & v' & Hrun & El & _ & _ & _ & Hok & _ & Hsy & _).
  - lia.
  - vm_compute. done.
  - exists s', v'. rewrite Hrun, El. split; [vm_compute; reflexivity|]. split; [done|]. by apply Hsy.
Defined.

Lemma free_map_allocate_failure_witness :
  ∃ b', free_map_allocate inode_write_at 190 demo_fs = Ok (None, set_free_map b' demo_fs) ∧
    Bitmap.bit b' 0 = false.
Proof.
  destruct (free_map_allocate_failure demo_fs inode_write_at 200 190) as (b' & Hrun & Hb).
  - apply (fo_map _ _ _ _ demo_fs_ok).
  - reflexivity.
  - vm_compute. reflexivity.
  - exists b'. split; [done|]. rewrite Hb by lia. vm_compute. reflexivity.
Defined.


(** File 2 is the file of 600 bytes, at position 500. *)
Lemma demo_file_at : file_at demo_fs demo_live 2 3 (MkInode 5 1 false 0) 500 false.
Proof. split; [reflexivity|reflexivity|]. unfold demo_live. set_solver. Qed.

Lemma file_read_correct_witness :
  ∃ s', file_read 2 200 demo_fs = Ok (replicate 12 1 ++ replicate 88 2, s') ∧
    file_at s' demo_live 2 3 (MkInode 5 1 false 0) 600 false.
Proof.
  destruct (file_read_correct demo_fs 200 demo_view demo_live 2 3 (MkInode 5 1 false 0) 500 false 200
              demo_fs_ok demo_file_at) as (s' & Hrun & _ & Hfa & _); [done|lia..| |].
  - right. cbn [sector]. rewrite demo_disk_5. left. vm_compute. lia.
  - exists s'. rewrite Hrun. split; [vm_compute; reflexivity|exact Hfa].
Defined.

Lemma file_write_correct_witness :
  ∃ s' v', file_write 2 (replicate 7000 7) 7000 demo_fs = Ok (7000, s') ∧ fs_ok 200 v' s' demo_live ∧
    contents v' 5 = take 500 (contents demo_view 5) ++ replicate 7000 7 ∧ synced v' s'.
Proof.
  destruct (file_write_correct demo_fs 200 demo_view demo_live 2 3 (MkInode 5 1 false 0) 500 false
              (replicate 7000 7) 7000 demo_fs_ok demo_file_at) as (s' & v' & Hrun & Hok & Hc & _ & Hsy & _).
  - done.
  - done.
  - reflexivity.
  - rewrite length_replicate. vm_compute. done.
  - lia.
  - unfold SMALL_LENGTH. lia.
  - cbn [sector]. rewrite demo_disk_5. vm_compute. lia.
  - intros _. exact demo_synced.
  - exists s', v'. split; [exact Hrun|]. split; [exact Hok|]. split; [|by apply Hsy].
    cbn [sector] in Hc. rewrite Hc. vm_compute. reflexivity.
Defined.

Lemma file_write_read_back_witness :
  ∃ s', (file_write 2 [4; 5; 6] 3 ;; file_seek 2 500 ;; file_read 2 3) demo_fs = Ok ([4; 5; 6], s').
Proof.
  destruct (file_write_read_back demo_fs 200 demo_view demo_live 2 3 (MkInode 5 1 false 0) 500 false
              [4; 5; 6] 3 demo_fs_ok demo_file_at) as (s' & Hrun).
  - done.
  - done.
  - reflexivity.
  - simpl. lia.
  - lia.
  - unfold SMALL_LENGTH. lia.
  - cbn [sector]. rewrite demo_disk_5. vm_compute. lia.
  - intros _. exact demo_synced.
  - exists s'. exact Hrun.
Defined.

(** Reading past the end of a file can panic the kernel: [inode_read_at]
    looks up the block of the offset before it compares the offset with the
    length, so for an offset in the range of the doubly indirect block it
    follows the zero pointer of a file that has none into sector 0, takes a
    word of that sector (here the magic number of the free map's inode) for a
    sector number, and the block layer panics on it.  A user program gets
    there with [seek] and [read] on any small file. *)
Theorem inode_read_past_eof_panics :
  fs_ok 200 demo_view demo_fs demo_live ∧
  (file_seek 2 1120256 ;; file_read 2 1) demo_fs = Err Panic.
Proof. split; [exact demo_fs_ok|]. vm_compute. reflexivity. Qed.

(** The same file system with both files removed but still open. *)
Definition demo_removed : fs (Cache.state ramdisk) :=
  set_open_inodes [4%nat; 3%nat; 0%nat]
    (set_inodes {[ 0%nat := MkInode 0 1 false 0; 3%nat := MkInode 5 1 true 0; 4%nat := MkInode 20 1 true 0 ]}
       demo_fs).

Lemma demo_removed_ok : fs_ok 200 demo_view demo_removed demo_live.
Proof.
  apply fs_ok_inodes; [exact demo_fs_ok|]. intros q j Hq Hj. cbn [demo_fs inodes] in Hq.
  destruct (decide (q = 0%nat)) as [->|H0]; [done|]. rewrite lookup_insert_ne in Hq by done.
  destruct (decide (q = 3%nat)) as [->|H3].
  { rewrite lookup_insert_eq in Hq. injection Hq as <-. done. }
  rewrite lookup_insert_ne in Hq by done. apply lookup_singleton_Some in Hq as [<- <-]. done.
Qed.

Lemma inode_close_frees_file_witness :
  ∃ s' v', inode_close inode_write_at (Some 3%nat) demo_removed = Ok (tt, s') ∧
    fs_ok 200 v' s' (demo_live ∖ {[5]}) ∧ cleared demo_fs_map (free_map s') [5; 6; 7] ∧ synced v' s'.
Proof.
  destruct (inode_close_frees_file demo_removed 200 demo_view demo_live 3 (MkInode 5 1 true 0) 1
              demo_removed_ok) as (s' & v' & Hrun & Hok & Hcl & Hsy & _).
  - reflexivity.
  - reflexivity.
  - reflexivity.
  - reflexivity.
  - unfold demo_live. set_solver.
  - done.
  - cbn [sector]. rewrite demo_disk_5. vm_compute. lia.
  - exists s', v'. cbn [sector] in Hcl. rewrite demo_owned_5 in Hcl. split; [exact Hrun|].
    split; [exact Hok|]. split; [exact Hcl|exact Hsy].
Defined.

Lemma inode_close_leaks_witness :
  ∃ s' v', inode_close inode_write_at (Some 4%nat) demo_removed = Ok (tt, s') ∧
    fs_ok 200 v' s' (demo_live ∖ {[20]}) ∧
    Bitmap.bit (free_map s') 33 = true ∧ Bitmap.bit (free_map s') 34 = true.
Proof.
  destruct (inode_close_leaks demo_removed 200 demo_view demo_live 4 (MkInode 20 1 true 0) 1
              demo_removed_ok) as (s' & v' & Hrun & Hok & Hleak).
  - reflexivity.
  - reflexivity.
  - reflexivity.
  - reflexivity.
  - unfold demo_live. set_solver.
  - done.
  - cbn [sector]. rewrite demo_disk_20. vm_compute. lia.
  - exists s', v'. split; [exact Hrun|]. split; [exact Hok|]. cbn [sector] in Hleak.
    rewrite demo_disk_20 in Hleak. split; apply Hleak; [by left|].
    apply (bool_decide_eq_true (_ ∈ _)). vm_compute. reflexivity.
Defined.

Lemma inode_write_crossing_panics_witness : inode_write_at 4 [1] 1 72000 demo_fs = Err Panic.
Proof.
  apply (inode_write_crossing_panics demo_fs 200 demo_view demo_live 4 (MkInode 20 1 false 0)).
  - exact demo_fs_ok.
  - reflexivity.
  - unfold demo_live. set_solver.
  - reflexivity.
  - cbn [sector]. rewrite demo_disk_20. vm_compute. lia.
  - lia.
  - lia.
  - unfold SMALL_LENGTH, MAX_LENGTH. lia.
  - vm_compute. done.
Defined.
