(* ===== verification/Fsutil.v ===== *)
(** * File system utilities and the kernel command line

    [Fsutil]: [src/pintos/filesys/fsutil.c] over the file system, a scratch
    device and the console; the messages of extraction and archiving are left
    out, and buffers can be had.  [Boot]: the command line of
    [src/pintos/threads/init.c], its options and its actions. *)
From S2P Require Import Prelude CInt CStdlib CString Stdio StdioSpec Ustar Bytes Random Block Cache Inode InodeSpec InodeWrite FsInv FreeMapSpec InodeExtend FileGrow File FileSpec Directory Filesys FsDemo.
From stdpp Require Import strings.

Open Scope Z_scope.

Module Fsutil.
Import Block Inode Directory.

(** [scratch] is the device with the role; the sectors are the static
    variables of [fsutil_extract] and of [fsutil_append]. *)
Record util (S D : Type) := MkUtil {
  fsys : dfs S;
  scratch : option (block D);
  extract_sector : Z;
  append_sector : Z;
  cons : Stdio.console
}.
Arguments MkUtil {S D}.
Arguments fsys {S D}.
Arguments scratch {S D}.
Arguments extract_sector {S D}.
Arguments append_sector {S D}.
Arguments cons {S D}.

Section ops.
Context {S D : Type} `{!SectorStore S} `{!BlockDriver D}.
Abbreviation M := (ST (util S D)).
(** What an entry on the stack holds, the byte behind a buffer of 512 bytes,
    and the running thread. *)
Variable junk : dir_entry.
Variable beyond : Z.
Variable cur : Z.

Definition set_fsys x (s : util S D) : util S D := MkUtil x (scratch s) (extract_sector s) (append_sector s) (cons s).
Definition set_scratch x (s : util S D) : util S D := MkUtil (fsys s) x (extract_sector s) (append_sector s) (cons s).
Definition set_extract x (s : util S D) : util S D := MkUtil (fsys s) (scratch s) x (append_sector s) (cons s).
Definition set_append x (s : util S D) : util S D := MkUtil (fsys s) (scratch s) (extract_sector s) x (cons s).
Definition set_cons x (s : util S D) : util S D := MkUtil (fsys s) (scratch s) (extract_sector s) (append_sector s) x.

Definition on_fs {A} (m : ST (dfs S) A) : M A := zoom fsys set_fsys m.
Definition on_file {A} (m : ST (fs S) A) : M A := on_fs (with_fs m).
Definition print (format : list Z) (args : list Stdio.arg) : M unit := zoom cons set_cons (Stdio.printf false cur format args).

(** An operation on the scratch device. *)
Definition on_scratch {A} (m : ST (block D) A) : M A :=
  s ← get;
  match scratch s with
  | None => fail Panic
  | Some b => r ← lift (m b); let '(a, b') := r in modify (set_scratch (Some b')) ;; mret a
  end.

(** The files of a directory, as many as it can have. *)
Fixpoint ls_loop (fuel : nat) (dp : nat) : M unit :=
  name ← on_fs (Directory.dir_readdir junk dp);
  match name with
  | None => mret tt
  | Some name =>
    print (Stdio.chars "%s" ++ [10]) [Stdio.Str (Some name)] ;;
    match fuel with O => fail Timeout | Datatypes.S fuel => ls_loop fuel dp end
  end.
Definition fsutil_ls_subdir (dir_name : list Z) : M unit :=
  dir ← on_fs (Filesys.filesys_open_dir junk dir_name);
  match dir with
  | None => print (Stdio.chars "No directory named %s" ++ [10]) [Stdio.Str (Some dir_name)]
  | Some dp =>
    print (Stdio.chars "Files in the %s:" ++ [10]) [Stdio.Str (Some dir_name)] ;;
    ls_loop Directory.MAX_ENTRIES dp ;;
    on_fs (Directory.dir_close (Some dp)) ;;
    print (Stdio.chars "End of listing." ++ [10]) []
  end.
Definition fsutil_ls : M unit := fsutil_ls_subdir [47].

Fixpoint cat_loop (fuel : nat) (fp : nat) : M unit :=
  pos ← on_file (File.file_tell fp);
  bytes ← on_file (File.file_read fp 4096);
  if (length bytes =? 0)%nat then mret tt
  else
    zoom cons set_cons (Stdio.hex_dump false cur pos bytes true) ;;
    match fuel with O => fail Timeout | Datatypes.S fuel => cat_loop fuel fp end.
Definition fsutil_cat (file_name : list Z) : M unit :=
  print (Stdio.chars "Printing '%s' to the console..." ++ [10]) [Stdio.Str (Some file_name)] ;;
  file ← on_fs (Filesys.filesys_open junk file_name);
  match file with
  | None => fail Panic
  | Some fp =>
    size ← on_file (File.file_length fp);
    cat_loop (Z.to_nat size) fp ;;
    on_file (File.file_close (Some fp))
  end.

Definition fsutil_rm (file_name : list Z) : M unit :=
  print (Stdio.chars "Deleting '%s'..." ++ [10]) [Stdio.Str (Some file_name)] ;;
  ok ← on_fs (Filesys.filesys_remove junk file_name);
  if ok : bool then mret tt else fail Panic.

(** ** Extraction *)
(** [block_read (src, sector++, buffer)]. *)
Definition next_block : M (list Z) :=
  s ← get;
  let sector := extract_sector s in
  modify (set_extract (u32 (sector + 1))) ;;
  on_scratch (block_read sector).

Fixpoint copy_in_loop (fuel : nat) (fp : nat) (size : Z) : M unit :=
  if negb (0 <? size) then mret tt else
  match fuel with
  | O => fail Timeout
  | Datatypes.S fuel =>
    let chunk_size := if 512 <? size then 512 else size in
    data ← next_block;
    n ← on_file (File.file_write fp data chunk_size);
    if negb (n =? chunk_size) then fail Panic
    else copy_in_loop fuel fp (size - chunk_size)
  end.

Definition extract_file (file_name : list Z) (size : Z) : M unit :=
  ok ← on_fs (Filesys.filesys_create junk file_name size false);
  (if ok : bool then mret tt else fail Panic) ;;
  dst ← on_fs (Filesys.filesys_open junk file_name);
  match dst with
  | None => fail Panic
  | Some fp => copy_in_loop (Z.to_nat size) fp size ;; on_file (File.file_close (Some fp))
  end.

(** The loop over the headers: a sector for each turn. *)
Fixpoint extract_loop (fuel : nat) : M unit :=
  header ← next_block;
  r ← lift (Ustar.ustar_parse_header header);
  match r with
  | inl _ => fail Panic
  | inr (file_name, type, size) =>
    if type =? Ustar.USTAR_EOF then mret tt
    else
      (if type =? Ustar.USTAR_DIRECTORY then mret tt
       else if type =? Ustar.USTAR_REGULAR then extract_file (default [] file_name) size
       else mret tt) ;;
      match fuel with O => fail Timeout | Datatypes.S fuel => extract_loop fuel end
  end.

Definition fsutil_extract : M unit :=
  s ← get;
  match scratch s with
  | None => fail Panic
  | Some src =>
    extract_loop (Z.to_nat (block_size src)) ;;
    on_scratch (block_write 0 (replicate 512 0)) ;;
    on_scratch (block_write 1 (replicate 512 0))
  end.

(** ** Archiving *)
(** [block_write (dst, sector++, buffer)]. *)
Definition append_block (buffer : list Z) : M unit :=
  s ← get;
  let sector := append_sector s in
  modify (set_append (u32 (sector + 1))) ;;
  on_scratch (block_write sector buffer).

Fixpoint copy_out_loop (fuel : nat) (fp : nat) (size : Z) : M unit :=
  if negb (0 <? size) then mret tt else
  match fuel with
  | O => fail Timeout
  | Datatypes.S fuel =>
    let chunk_size := if 512 <? size then 512 else size in
    s ← get;
    (match scratch s with
     | Some dst => if block_size dst <=? append_sector s then fail Panic else mret tt
     | None => fail Panic
     end) ;;
    bytes ← on_file (File.file_read fp chunk_size);
    if negb (Z.of_nat (length bytes) =? chunk_size) then fail Panic
    else
      append_block (bytes ++ replicate (512 - length bytes) 0) ;;
      copy_out_loop fuel fp (size - chunk_size)
  end.

(** With the file open: the header, the contents and the end marker, of which
    the second half is written over the first, from one byte further on. *)
Definition append_file (file_name : list Z) (fp : nat) : M unit :=
  size ← on_file (File.file_length fp);
  s ← get;
  (match scratch s with Some _ => mret tt | None => fail Panic end) ;;
  header ← lift (Ustar.ustar_make_header file_name Ustar.USTAR_REGULAR size);
  match header with
  | None => fail Panic
  | Some header =>
    append_block header ;;
    copy_out_loop (Z.to_nat size) fp size ;;
    s ← get;
    on_scratch (block_write (append_sector s) (replicate 512 0)) ;;
    s ← get;
    on_scratch (block_write (append_sector s) (replicate 511 0 ++ [beyond]))
  end.

Definition fsutil_append (file_name : list Z) : M unit :=
  src ← on_fs (Filesys.filesys_open junk file_name);
  match src with
  | None => fail Panic
  | Some fp => append_file file_name fp ;; on_file (File.file_close (Some fp))
  end.
End ops.

(** ** What an archive is *)
Section archive.
Context {S D : Type} `{!SectorStore S} `{!BlockDriver D}.
Variable N : Z.
Variable v : Z → list Z.
Variable live : gset Z.
Variable fp ip : nat.
Variable i : inode.
Variable dw : bool.
Let data : list Z := contents v (sector i).

(** The file system is in order, and the file is open at [p]. *)
Definition open_at (p : Z) (s : util S D) : Prop :=
  fs_ok N v (base (fsys s)) live ∧ file_at (base (fsys s)) live fp ip i p dw ∧ free_map_file (base (fsys s)) ≠ Some fp.

Lemma open_length s p : open_at p s → Z.of_nat (length data) = i_length (disk v (sector i)).
Proof.
  intros (Hok & Hfa & _). assert (Hin := lo_inode _ _ _ (fo_live _ _ _ _ Hok) _ (fa_live _ _ _ _ _ _ _ Hfa)).
  unfold data, contents. rewrite (length_contents N v (base (fsys s))); [|apply Hok|by apply inode_ok_file].
  assert (Hl := wf_length _ (iok_wf _ _ _ Hin)). lia.
Qed.

Lemma length_ok s p : open_at p s → ∃ s', on_file (File.file_length fp) s = Ok (Z.of_nat (length data), s') ∧ open_at p s' ∧
  scratch s' = scratch s ∧ append_sector s' = append_sector s.
Proof.
  intros Ho. assert (El := open_length s p Ho). destruct Ho as (Hok & Hfa & Hne). rewrite El.
  assert (Hin := lo_inode _ _ _ (fo_live _ _ _ _ Hok) _ (fa_live _ _ _ _ _ _ _ Hfa)).
  destruct (inode_length_ok N v (base (fsys s)) ip i) as (x & Hrun & Hs & Hst);
    [apply Hok|apply (fa_inode _ _ _ _ _ _ _ Hfa)|by apply (inode_ok_sector N v)|].
  exists (set_fsys (set_base x (fsys s)) s). split.
  - unfold on_file, on_fs, with_fs. apply run_zoom_ok, run_zoom_ok. unfold File.file_length.
    run_with (get_file_ok _ _ _ (fa_file _ _ _ _ _ _ _ Hfa)). exact Hrun.
  - split; [|done]. split; [by eapply fs_ok_quiet|]. destruct (only_store_fields _ _ Hst) as (_ & E2 & _).
    split; [eapply file_at_heap; [by apply only_store_heap|done]|]. cbn [fsys set_fsys base set_base]. congruence.
Qed.

Lemma read_ok s p n : open_at p s → 0 ≤ p → 0 ≤ n → p + n ≤ Z.of_nat (length data) → p + n < 2 ^ 31 →
  ∃ s', on_file (File.file_read fp n) s = Ok (take (Z.to_nat n) (drop (Z.to_nat p) data), s') ∧ open_at (p + n) s' ∧
    scratch s' = scratch s ∧ append_sector s' = append_sector s.
Proof.
  intros Ho Hp Hn Hle H31. assert (El := open_length s p Ho). destruct Ho as (Hok & Hfa & Hne).
  destruct (file_read_full N v (base (fsys s)) live fp ip i p dw n) as (x & Hrun & Hok' & Hfa' & _ & _ & Ef); [done..|left; lia|].
  fold data in Hrun, Hfa'. exists (set_fsys (set_base x (fsys s)) s). split; [by apply run_zoom_ok, run_zoom_ok|]. split; [|done].
  split; [done|]. split; [|cbn [fsys set_fsys base set_base]; congruence].
  rewrite length_take, length_drop in Hfa'. by replace (p + n) with (p + Z.of_nat (Z.to_nat n `min` (length data - Z.to_nat p))) by lia.
Qed.

Lemma scratch_write_ok (s : util S D) b a sec : scratch s = Some b → block_ok b → 0 ≤ a < size b → is_sector sec →
  ∃ b', on_scratch (block_write a sec) s = Ok (tt, set_scratch (Some b') s) ∧ block_ok b' ∧ size b' = size b ∧
    ∀ m, sector_of b' m = if m =? a then sec else sector_of b m.
Proof.
  intros Hs Hb Ha Hsec. destruct (block_write_ok b a sec Hb Ha Hsec) as (b' & Hrun & H1 & H2 & H3). exists b'. split; [|done].
  unfold on_scratch. erewrite run_bind_ok by reflexivity. rewrite Hs, Hrun. erewrite run_bind_ok by reflexivity. reflexivity.
Qed.

Lemma append_block_ok (s : util S D) b sec : scratch s = Some b → block_ok b → 0 ≤ append_sector s < size b → is_sector sec →
  ∃ b', append_block sec s = Ok (tt, set_scratch (Some b') (set_append (append_sector s + 1) s)) ∧ block_ok b' ∧ size b' = size b ∧
    ∀ m, sector_of b' m = if m =? append_sector s then sec else sector_of b m.
Proof.
  intros Hs Hb Ha Hsec. assert (Hsz := proj1 Hb). unfold append_block. erewrite run_bind_ok by reflexivity. cbv zeta. erewrite run_bind_ok by reflexivity.
  rewrite u32_id by (unfold in_u32; lia). by apply (scratch_write_ok (set_append (append_sector s + 1) s)).
Qed.

(** The sector that holds the [j]-th 512 bytes of [l], filled up with zeros. *)
Definition chunk (l : list Z) (j : nat) : list Z := let c := take 512 (drop (512 * j) l) in c ++ replicate (512 - length c) 0.
Definition chunks (l : list Z) : Z := DIV_ROUND_UP (Z.of_nat (length l)) 512.

Lemma copy_out_loop_ok fuel : ∀ (s : util S D) b p, open_at p s → scratch s = Some b → block_ok b → 0 ≤ p ≤ Z.of_nat (length data) → Z.of_nat (length data) < 2 ^ 31 →
  Z.of_nat (length data) - p ≤ Z.of_nat fuel → 0 ≤ append_sector s → append_sector s + chunks (drop (Z.to_nat p) data) ≤ size b →
  ∃ s' b', copy_out_loop fuel fp (Z.of_nat (length data) - p) s = Ok (tt, s') ∧ open_at (Z.of_nat (length data)) s' ∧ scratch s' = Some b' ∧ block_ok b' ∧
    size b' = size b ∧ append_sector s' = append_sector s + chunks (drop (Z.to_nat p) data) ∧
    ∀ m, sector_of b' m = if decide (append_sector s ≤ m < append_sector s + chunks (drop (Z.to_nat p) data))
                          then chunk (drop (Z.to_nat p) data) (Z.to_nat (m - append_sector s)) else sector_of b m.
Proof.
  unfold chunks. induction fuel as [|fuel IH]; intros s b p Ho Hs Hb Hp H31 Hf Ha Hroom; rewrite length_drop in *; cbn [copy_out_loop];
    destruct (Z.ltb_spec 0 (Z.of_nat (length data) - p)) as [Hlt|Hge]; cbn [negb]; try lia.
  1, 3: replace (length data - Z.to_nat p)%nat with 0%nat by lia; change (DIV_ROUND_UP (Z.of_nat 0) 512) with 0; exists s, b;
        replace p with (Z.of_nat (length data)) in Ho by lia; split_and!; try done; [lia|]; intros m; by rewrite decide_False by lia.
  set (r := Z.of_nat (length data) - p) in *. set (n := if 512 <? r then 512 else r).
  assert (Hn : 0 < n ≤ 512 ∧ n ≤ r ∧ (n = 512 ∨ n = r)) by (unfold n; destruct (Z.ltb_spec 512 r); lia).
  replace (Z.of_nat (length data - Z.to_nat p)) with r in * by lia. rewrite DIV_ROUND_UP_div in * by lia.
  set (k := (r + 512 - 1) / 512) in *. assert (Hk : k = 1 + (r - n + 512 - 1) / 512).
  { unfold k. destruct Hn as (Hn1 & Hn2 & [E|E]); rewrite E.
    - replace (r + 512 - 1) with (r - 512 + 512 - 1 + 1 * 512) by lia. rewrite Z.div_add by lia. lia.
    - rewrite Z.sub_diag. change (1 + (0 + 512 - 1) / 512) with 1. symmetry. apply (Z.div_unique _ _ _ (r - 1)); lia. }
  assert (Hk' : 0 ≤ (r - n + 512 - 1) / 512) by (apply Z.div_pos; lia). set (k' := (r - n + 512 - 1) / 512) in *.
  erewrite run_bind_ok by reflexivity. rewrite Hs. unfold block_size. rewrite (proj2 (Z.leb_gt (size b) (append_sector s))) by lia. erewrite run_bind_ok by reflexivity.
  destruct (read_ok s p n Ho ltac:(lia) ltac:(lia) ltac:(lia) ltac:(lia)) as (s1 & H1 & Ho1 & Hs1 & Ha1). rewrite (run_bind_ok _ _ _ _ _ H1).
  set (bytes := take (Z.to_nat n) (drop (Z.to_nat p) data)). assert (Hlen : length bytes = Z.to_nat n) by (unfold bytes; rewrite length_take, length_drop; lia).
  rewrite Hlen, Z2Nat.id, Z.eqb_refl by lia. cbn [negb].
  destruct (append_block_ok s1 b (bytes ++ replicate (512 - Z.to_nat n) 0)) as (b2 & H2 & Hb2 & Hsz2 & Hm2);
    [congruence|done|lia|unfold is_sector; rewrite length_app, length_replicate; lia|]. rewrite (run_bind_ok _ _ _ _ _ H2).
  set (s2 := set_scratch (Some b2) (set_append (append_sector s1 + 1) s1)).
  destruct (IH s2 b2 (p + n)) as (s3 & b3 & H3 & Ho3 & Hs3 & Hb3 & Hsz3 & Ha3 & Hm3); [exact Ho1|done|done|lia|done|lia|cbn; lia| |].
  { rewrite length_drop, Hsz2. cbn [append_sector s2 set_scratch set_append]. rewrite Ha1.
    replace (Z.of_nat (length data - Z.to_nat (p + n))) with (r - n) by lia. rewrite DIV_ROUND_UP_div by lia. fold k'. lia. }
  rewrite length_drop in Ha3, Hm3. replace (Z.of_nat (length data - Z.to_nat (p + n))) with (r - n) in Ha3, Hm3 by lia. rewrite DIV_ROUND_UP_div in Ha3, Hm3 by lia.
  fold k' in Ha3, Hm3. cbn [append_sector s2 set_scratch set_append] in Ha3, Hm3. rewrite Ha1 in *.
  exists s3, b3. replace (r - n) with (Z.of_nat (length data) - (p + n)) by lia. split; [exact H3|]. split_and!; try done; [congruence|lia|].
  intros m. rewrite Hm3, Hm2. destruct (decide (append_sector s + 1 ≤ m < append_sector s + 1 + k')) as [Hin|Hout].
  - rewrite decide_True by lia. assert (En : n = 512) by (destruct Hn as (_ & _ & [?|E]); [done|]; unfold k' in Hin; rewrite E, Z.sub_diag in Hin; change ((0 + 512 - 1) / 512) with 0 in Hin; lia).
    unfold chunk. rewrite !drop_drop.
    by replace (Z.to_nat p + 512 * Z.to_nat (m - append_sector s))%nat with (Z.to_nat (p + n) + 512 * Z.to_nat (m - (append_sector s + 1)))%nat by lia.
  - destruct (Z.eqb_spec m (append_sector s)) as [->|Hm]; [|by rewrite decide_False by lia]. rewrite decide_True by lia.
    rewrite Z.sub_diag. unfold chunk. rewrite Nat.mul_0_r, drop_0.
    assert (Eb : take 512 (drop (Z.to_nat p) data) = bytes).
    { unfold bytes. destruct Hn as (Hn1 & Hn2 & [E|E]); [by rewrite E|]. rewrite (take_ge _ 512), take_ge by (rewrite length_drop; lia). done. }
    by rewrite Eb, Hlen.
Qed.

Lemma sector_chunk l j : is_sector (chunk l j).
Proof. unfold is_sector, chunk. rewrite length_app, length_replicate, length_take. lia. Qed.

(** The chunks of [l] are [l] and zeros. *)
Lemma concat_chunks n : ∀ l, (length l ≤ 512 * n)%nat → concat (chunk l <$> seq 0 n) = l ++ replicate (512 * n - length l) 0.
Proof.
  induction n as [|n IH]; intros l Hl; [destruct l; simpl in *; [done|lia]|].
  rewrite <- cons_seq, fmap_cons. cbn [concat]. rewrite <- fmap_S_seq, <- list_fmap_compose.
  rewrite (list_fmap_ext _ (chunk (drop 512 l))).
  2:{ intros j x _. unfold compose, chunk. rewrite drop_drop. by replace (512 * Datatypes.S x)%nat with (512 + 512 * x)%nat by lia. }
  rewrite IH by (rewrite length_drop; lia). rewrite length_drop. unfold chunk. rewrite Nat.mul_0_r, drop_0, length_take.
  destruct (decide (length l ≤ 512)%nat) as [Hs|Hs].
  - rewrite take_ge, drop_ge by lia. rewrite app_nil_l, <- (assoc_L (++)), <- replicate_add. do 2 f_equal. lia.
  - replace (512 - 512 `min` length l)%nat with 0%nat by lia. cbn [replicate]. rewrite app_nil_r, (assoc_L (++)), take_drop. do 2 f_equal. lia.
Qed.
End archive.

(** C38: Archiving a file.  With the file open at its start, enough room on
    the scratch device and a name that fits, [fsutil_append] writes at its
    place on the device a header that is parsed as the name and the length of
    the file, the contents of the file, filled up with zeros to whole sectors,
    and behind them, where the next file goes, a sector that is zero but for
    its last byte, which is whatever follows the buffer in memory; all other
    sectors and all files stay as they are. *)
Theorem fsutil_append_correct {S D} `{!SectorStore S} `{!BlockDriver D} (beyond : Z) N v live fp ip i dw (s : util S D) b file_name stripped :
  let data := contents v (sector i) in
  let a := append_sector s in
  let n := chunks data in
  open_at N v live fp ip i dw 0 s → scratch s = Some b → block_ok b → Z.of_nat (length data) < 2 ^ 31 →
  Forall (λ c, 0 < c < 256) file_name → Ustar.strip_antisocial_prefixes file_name = Ok stripped → (length stripped ≤ 99)%nat →
  0 ≤ a → a + 1 + n < size b →
  ∃ s' b', append_file beyond file_name fp s = Ok (tt, s') ∧ open_at N v live fp ip i dw (Z.of_nat (length data)) s' ∧
    scratch s' = Some b' ∧ block_ok b' ∧ append_sector s' = a + 1 + n ∧
    Ustar.ustar_parse_header (sector_of b' a) = Ok (inr (Some stripped, Ustar.USTAR_REGULAR, Z.of_nat (length data))) ∧
    concat ((λ j, sector_of b' (a + 1 + Z.of_nat j)) <$> seq 0 (Z.to_nat n)) = data ++ replicate (512 * Z.to_nat n - length data) 0 ∧
    sector_of b' (a + 1 + n) = replicate 511 0 ++ [beyond] ∧
    ∀ m, m < a ∨ a + 1 + n < m → sector_of b' m = sector_of b m.
Proof.
  intros data a n Ho Hs Hb H31 Hname Hstrip Hlen Ha Hroom.
  assert (Hn : 0 ≤ n ∧ Z.of_nat (length data) ≤ n * 512).
  { unfold n, chunks. split; [apply DIV_ROUND_UP_nonneg; lia|]. by apply (DIV_ROUND_UP_spec (Z.of_nat (length data)) 512); lia. }
  unfold append_file. destruct (length_ok N v live fp ip i dw s 0 Ho) as (s1 & H1 & Ho1 & Hs1 & Ha1). rewrite (run_bind_ok _ _ _ _ _ H1).
  erewrite run_bind_ok by reflexivity. rewrite Hs1, Hs. erewrite run_bind_ok by reflexivity. fold data.
  destruct (Ustar.make_parse_header file_name Ustar.USTAR_REGULAR (Z.of_nat (length data)) Hname ltac:(lia) (or_introl eq_refl)) as (st & Est & Hmake).
  rewrite Hstrip in Est. injection Est as <-. destruct (Hmake Hlen) as (header & Hmk & Hhl & Hparse). rewrite Hmk. erewrite run_bind_ok by reflexivity.
  destruct (append_block_ok s1 b header) as (b2 & H2 & Hb2 & Hsz2 & Hm2); [congruence|done|rewrite Ha1; fold a; lia|exact Hhl|].
  rewrite (run_bind_ok _ _ _ _ _ H2). rewrite Ha1 in *. fold a in H2, Hm2 |- *. set (s2 := set_scratch (Some b2) (set_append (a + 1) s1)).
  destruct (copy_out_loop_ok N v live fp ip i dw (Z.to_nat (Z.of_nat (length data))) s2 b2 0) as (s3 & b3 & H3 & Ho3 & Hs3 & Hb3 & Hsz3 & Ha3 & Hm3);
    [exact Ho1|done|done|fold data; lia|fold data; lia|fold data; lia|cbn; lia|cbn [append_sector s2 set_scratch set_append]; rewrite drop_0; fold data n; lia|].
  change (Z.to_nat 0) with 0%nat in *. rewrite drop_0 in *. rewrite Z.sub_0_r in H3. fold data in H3, Ho3, Ha3, Hm3. fold n in Ha3, Hm3.
  cbn [append_sector s2 set_scratch set_append] in Ha3, Hm3.
  rewrite (run_bind_ok _ _ _ _ _ H3). erewrite run_bind_ok by reflexivity. rewrite Ha3.
  destruct (scratch_write_ok s3 b3 (a + 1 + n) (replicate 512 0)) as (b4 & H4 & Hb4 & Hsz4 & Hm4); [done|done|lia|apply length_replicate|].
  rewrite (run_bind_ok _ _ _ _ _ H4). erewrite run_bind_ok by reflexivity. cbn [append_sector set_scratch]. rewrite Ha3.
  destruct (scratch_write_ok (set_scratch (Some b4) s3) b4 (a + 1 + n) (replicate 511 0 ++ [beyond])) as (b5 & H5 & Hb5 & Hsz5 & Hm5);
    [done|done|lia|unfold is_sector; by rewrite length_app, length_replicate|].
  rewrite H5. eexists _, b5. split; [reflexivity|]. split; [exact Ho3|]. split; [done|]. split; [done|]. split; [exact Ha3|].
  assert (Hsec : ∀ m, sector_of b5 m = if decide (m = a + 1 + n) then replicate 511 0 ++ [beyond]
    else if decide (a + 1 ≤ m < a + 1 + n) then chunk data (Z.to_nat (m - (a + 1))) else if decide (m = a) then header else sector_of b m).
  { intros m. rewrite Hm5, Hm4, Hm3, Hm2. destruct (Z.eqb_spec m (a + 1 + n)); [by rewrite decide_True|]. rewrite (decide_False (P := m = _)) by done.
    destruct (decide (a + 1 ≤ m < a + 1 + n)); [done|]. destruct (Z.eqb_spec m a); [by rewrite decide_True|by rewrite decide_False]. }
  split; [rewrite Hsec, !decide_False, decide_True by lia; exact Hparse|]. split.
  - rewrite <- concat_chunks by lia. f_equal. apply list_fmap_ext. intros j x Hx. apply lookup_seq in Hx as [-> Hx].
    rewrite Hsec, decide_False, decide_True by lia. f_equal. lia.
  - split; [by rewrite Hsec, decide_True|]. intros m Hm. by rewrite Hsec, !decide_False by lia.
Qed.

(** The file of 600 bytes of the example file system goes to sector 3 of a
    device of ten. *)
Definition demo_scratch : block ramdisk := MkBlock BLOCK_SCRATCH 10 (replicate 10 (replicate 512 9)) 0 0.
Definition demo_util : util _ ramdisk :=
  MkUtil (Dfs (set_files (<[2%nat := MkFile 3 0 false]> (files demo_fs)) demo_fs) ∅ 0 [] None) (Some demo_scratch) 0 3 Stdio.fresh.
Lemma fsutil_append_correct_witness : ∃ s' b', append_file 1 [47; 102] 2 demo_util = Ok (tt, s') ∧ scratch s' = Some b' ∧ append_sector s' = 6 ∧
  Ustar.ustar_parse_header (sector_of b' 3) = Ok (inr (Some [102], Ustar.USTAR_REGULAR, 600)) ∧ sector_of b' 6 = replicate 511 0 ++ [1].
Proof.
  assert (Ho : open_at 200 demo_view demo_live 2 3 (MkInode 5 1 false 0) false 0 demo_util).
  { split; [apply fs_ok_move; [exact demo_fs_ok|done]|]. split; [apply (file_at_moved demo_fs _ _ _ _ 500); exact demo_file_at|done]. }
  assert (El : length (contents demo_view 5) = 600%nat) by (vm_compute; reflexivity).
  assert (En : chunks (contents demo_view 5) = 2) by (unfold chunks; rewrite El; reflexivity).
  assert (Hb : block_ok demo_scratch) by (split; [simpl; lia|]; split; [discriminate|]; split; [reflexivity|]; apply Forall_replicate; reflexivity).
  assert (Hlt : Z.of_nat (length (contents demo_view 5)) < 2 ^ 31) by (rewrite El; lia).
  assert (Hname : Forall (λ c, 0 < c < 256) [47; 102]) by (repeat constructor; lia).
  assert (Hstrip : Ustar.strip_antisocial_prefixes [47; 102] = Ok [102]) by reflexivity.
  assert (Hlen : (length [102] ≤ 99)%nat) by (simpl; lia).
  assert (Hroom : 3 + 1 + chunks (contents demo_view 5) < size demo_scratch) by (rewrite En; reflexivity).
  destruct (fsutil_append_correct 1 200 demo_view demo_live 2 3 (MkInode 5 1 false 0) false demo_util demo_scratch [47; 102] [102]
    Ho eq_refl Hb Hlt Hname Hstrip Hlen ltac:(simpl; lia) Hroom) as (s' & b' & H1 & _ & H2 & _ & H3 & H4 & _ & H5 & _).
  exists s', b'. split; [exact H1|]. split; [exact H2|]. split; [rewrite H3; change (3 + 1 + chunks (contents demo_view 5) = 6); rewrite En; reflexivity|].
  split; [change 600 with (Z.of_nat 600); rewrite <- El; exact H4|]. change 6 with (3 + 1 + 2). rewrite <- En. exact H5.
Defined.
End Fsutil.

(** ** The kernel command line *)
Module Boot.

Definition LOADER_ARGS_LEN : Z := 128.

(** The loop over the arguments in [area], the bytes the loader has left;
    [argv] has room for 65 pointers. *)
Fixpoint args_loop (n : nat) (area : list Z) (p : nat) (argv : list (list Z)) : res (list (list Z)) :=
  match n with
  | O => if (65 <=? length argv)%nat then Err Fault else Ok argv
  | S n =>
    if LOADER_ARGS_LEN <=? Z.of_nat p then Err Panic
    else if (65 <=? length argv)%nat then Err Fault
    else
      let s := Ustar.string_in (drop p area) in
      args_loop n area (p + length s + 1) (argv ++ [s])
  end.
Definition read_command_line (argc : Z) (area : list Z) : res (list (list Z)) := args_loop (Z.to_nat (s32 argc)) area 0 [].

Inductive shutdown_type := SHUTDOWN_NONE | SHUTDOWN_POWER_OFF | SHUTDOWN_REBOOT.

(** The variables that the options set. *)
Record options := MkOptions {
  how : shutdown_type;
  format_filesys : bool;
  filesys_bdev_name : option (list Z);
  scratch_bdev_name : option (list Z);
  swap_bdev_name : option (list Z);
  thread_mlfqs : bool;
  user_page_limit : Z;
  rng : Random.rng
}.

(** An option taken apart by [strtok_r]: its name, and its value if it has
    one. *)
Definition split_option (arg : list Z) : res (list Z * option (list Z)) :=
  match CString.strtok_r CString.buffer CString.delimiter CString.NULL (CString.token_mem 61 arg) with
  | Err e => Err e
  | Ok ((name, save_ptr), m) =>
    match CString.strtok_r CString.NULL (CString.delimiter + 1) save_ptr m with
    | Err e => Err e
    | Ok ((value, _), m) =>
      match CString.string_at m name with
      | Err e => Err e
      | Ok name =>
        if value =? CString.NULL then Ok (name, None)
        else match CString.string_at m value with Ok v => Ok (name, Some v) | Err e => Err e end
      end
    end
  end.

(** What one option does; [None]: the machine is powered off. *)
Definition set_option (name : list Z) (value : option (list Z)) (o : options) : res (option options) :=
  let opt s := bool_decide (name = Stdio.chars s) in
  let number := match value with Some v => Ok (CStdlib.atoi v) | None => Err Panic end in
  if opt "-h" then Ok None
  else if opt "-q" then Ok (Some (MkOptions SHUTDOWN_POWER_OFF (format_filesys o) (filesys_bdev_name o) (scratch_bdev_name o) (swap_bdev_name o) (thread_mlfqs o) (user_page_limit o) (rng o)))
  else if opt "-r" then Ok (Some (MkOptions SHUTDOWN_REBOOT (format_filesys o) (filesys_bdev_name o) (scratch_bdev_name o) (swap_bdev_name o) (thread_mlfqs o) (user_page_limit o) (rng o)))
  else if opt "-f" then Ok (Some (MkOptions (how o) true (filesys_bdev_name o) (scratch_bdev_name o) (swap_bdev_name o) (thread_mlfqs o) (user_page_limit o) (rng o)))
  else if opt "-filesys" then Ok (Some (MkOptions (how o) (format_filesys o) value (scratch_bdev_name o) (swap_bdev_name o) (thread_mlfqs o) (user_page_limit o) (rng o)))
  else if opt "-scratch" then Ok (Some (MkOptions (how o) (format_filesys o) (filesys_bdev_name o) value (swap_bdev_name o) (thread_mlfqs o) (user_page_limit o) (rng o)))
  else if opt "-swap" then Ok (Some (MkOptions (how o) (format_filesys o) (filesys_bdev_name o) (scratch_bdev_name o) value (thread_mlfqs o) (user_page_limit o) (rng o)))
  else if opt "-rs" then
    match number with
    | Ok n => Ok (Some (MkOptions (how o) (format_filesys o) (filesys_bdev_name o) (scratch_bdev_name o) (swap_bdev_name o) (thread_mlfqs o) (user_page_limit o) (Random.random_init (u32 n) (rng o))))
    | Err e => Err e
    end
  else if opt "-mlfqs" then Ok (Some (MkOptions (how o) (format_filesys o) (filesys_bdev_name o) (scratch_bdev_name o) (swap_bdev_name o) true (user_page_limit o) (rng o)))
  else if opt "-ul" then
    match number with
    | Ok n => Ok (Some (MkOptions (how o) (format_filesys o) (filesys_bdev_name o) (scratch_bdev_name o) (swap_bdev_name o) (thread_mlfqs o) (u32 n) (rng o)))
    | Err e => Err e
    end
  else Err Panic.

(** The arguments that are left; [time] is what the clock says. *)
Fixpoint options_loop (argv : list (list Z)) (o : options) : res (option (options * list (list Z))) :=
  match argv with
  | arg :: rest =>
    match arg with
    | 45 :: _ =>
      match split_option arg with
      | Err e => Err e
      | Ok (name, value) =>
        match set_option name value o with
        | Err e => Err e
        | Ok None => Ok None
        | Ok (Some o) => options_loop rest o
        end
      end
    | _ => Ok (Some (o, argv))
    end
  | [] => Ok (Some (o, []))
  end.
Definition parse_options (time : Z) (argv : list (list Z)) (o : options) : res (option (options * list (list Z))) :=
  match options_loop argv o with
  | Ok (Some (o, argv)) =>
    Ok (Some (MkOptions (how o) (format_filesys o) (filesys_bdev_name o) (scratch_bdev_name o) (swap_bdev_name o) (thread_mlfqs o) (user_page_limit o)
                (Random.random_init (u32 time) (rng o)), argv))
  | r => r
  end.

(** The table of actions: names and numbers of arguments, the name included. *)
Definition actions : list (list Z * nat) :=
  [(Stdio.chars "run", 2); (Stdio.chars "ls", 1); (Stdio.chars "cat", 2); (Stdio.chars "rm", 2); (Stdio.chars "extract", 1); (Stdio.chars "append", 2)]%nat.

Section actions.
(** What an action does, given its name and arguments. *)
Context {W : Type} (invoke : list (list Z) → ST W unit).

Fixpoint run_actions_loop (fuel : nat) (argv : list (list Z)) : ST W unit :=
  match argv with
  | [] => mret tt
  | name :: _ =>
    match fuel with
    | O => fail Timeout
    | S fuel =>
      match list_find (λ a, a.1 = name) actions with
      | None => fail Panic
      | Some (_, (_, argc)) =>
        if (length argv <? argc)%nat then fail Panic
        else invoke (take argc argv) ;; run_actions_loop fuel (drop argc argv)
      end
    end
  end.
Definition run_actions (argv : list (list Z)) : ST W unit := run_actions_loop (length argv) argv.
End actions.

Example options_example : match parse_options 5 [Stdio.chars "-q"; Stdio.chars "-filesys=hdb1"; Stdio.chars "-ul=40"; Stdio.chars "run"]
    (MkOptions SHUTDOWN_NONE false None None None false 0 (Random.MkRng [] 0 0 false)) with
  | Ok (Some (o, argv)) => (how o, filesys_bdev_name o, user_page_limit o, argv) | _ => (SHUTDOWN_NONE, None, 0, []) end =
  (SHUTDOWN_POWER_OFF, Some (Stdio.chars "hdb1"), 40, [Stdio.chars "run"]).
Proof. vm_compute. reflexivity. Qed.

(** ** Reading and running *)
Definition stored (args : list (list Z)) : list Z := concat ((λ s, s ++ [0]) <$> args).

Lemma string_in_stored s rest : Forall (λ c, c ≠ 0) s → Ustar.string_in (s ++ 0 :: rest) = s.
Proof. induction 1 as [|c s Hc _ IH]; [done|]. simpl. rewrite (proj2 (Z.eqb_neq _ _) Hc). by rewrite IH. Qed.

Lemma args_loop_ok area args : Forall (Forall (λ c, c ≠ 0)) args → ∀ p argv rest, drop p area = stored args ++ rest →
  (length argv + length args ≤ 64)%nat → (p + length (stored args) ≤ 128)%nat → args_loop (length args) area p argv = Ok (argv ++ args).
Proof.
  induction 1 as [|s args Hs _ IH]; intros p argv rest Hd Hc Hl.
  { cbn [length args_loop] in *. rewrite (proj2 (Nat.leb_gt 65 (length argv))) by lia. by rewrite app_nil_r. }
  cbn [length args_loop]. change (stored (s :: args)) with ((s ++ [0]) ++ stored args) in *. rewrite !length_app in Hl. cbn [length] in Hc, Hl. unfold LOADER_ARGS_LEN.
  rewrite (proj2 (Z.leb_gt 128 (Z.of_nat p))), (proj2 (Nat.leb_gt 65 (length argv))) by lia.
  rewrite Hd, <- !(assoc_L (++)). cbn [app]. rewrite string_in_stored by done. rewrite (IH _ _ rest); [by rewrite <- (assoc_L (++))| |rewrite length_app; simpl; lia|lia].
  replace (p + length s + 1)%nat with (p + (length s + 1))%nat by lia. rewrite <- drop_drop, Hd, <- !(assoc_L (++)). rewrite <- drop_drop, drop_app_length. done.
Qed.

(** An action of the table with its arguments. *)
Definition is_action (a : list (list Z)) : Prop := ∃ name args n argc, a = name :: args ∧ list_find (λ e, e.1 = name) actions = Some (n, (name, argc)) ∧ length a = argc.

Lemma run_actions_loop_ok {W} (invoke : list (list Z) → ST W unit) acts : Forall is_action acts → ∀ fuel w, (length acts ≤ fuel)%nat →
  run_actions_loop invoke fuel (concat acts) w = foldr (λ a m, invoke a ;; m) (mret tt) acts w.
Proof.
  induction 1 as [|a acts (name & args & n & argc & -> & Hf & Hl) _ IH]; intros fuel w Hfuel; [by destruct fuel|].
  cbn [length] in Hfuel. destruct fuel as [|fuel]; [lia|]. cbn [concat app run_actions_loop foldr]. rewrite Hf. cbn [length] in Hl.
  rewrite app_comm_cons, (proj2 (Nat.ltb_ge _ _)) by (rewrite length_app; simpl; lia).
  rewrite take_app_le, take_ge, drop_app_le, drop_ge by (simpl; lia). rewrite app_nil_l. unfold mbind, ST_bind.
  destruct (invoke (name :: args) w) as [[[] w']|]; [|done]. apply IH. lia.
Qed.

(** The kernel command line.  Up to 64 arguments that the loader has
    stored are read back as they are; after the options, the actions are
    carried out in their order, each with its arguments, until one fails. *)
Theorem command_line_runs {W} (invoke : list (list Z) → ST W unit) args rest time o o' acts w :
  Forall (Forall (λ c, c ≠ 0)) args → (length args ≤ 64)%nat → (length (stored args) ≤ 128)%nat →
  Forall is_action acts → parse_options time args o = Ok (Some (o', concat acts)) →
  read_command_line (Z.of_nat (length args)) (stored args ++ rest) = Ok args ∧
  run_actions invoke (concat acts) w = foldr (λ a m, invoke a ;; m) (mret tt) acts w ∧
  rng o' = Random.random_init (u32 time) (rng o).
Proof.
  intros Hz Hc Hl Hacts Hp. split; [|split].
  - unfold read_command_line. rewrite s32_id by (unfold in_s32; lia). rewrite Nat2Z.id. by apply (args_loop_ok _ args Hz 0 [] rest).
  - apply run_actions_loop_ok; [done|]. clear Hp. induction Hacts as [|a acts (name & as' & n & argc & -> & _) _ IH]; [done|]. cbn [length concat app]. rewrite length_app. lia.
  - unfold parse_options in Hp. destruct (options_loop args o) as [[[o1 argv]|]|]; try done. by injection Hp as <- _.
Qed.

(** [-rs=7 run x ls]: the seed is the one of the clock. *)
Definition demo_args : list (list Z) := [Stdio.chars "-rs=7"; Stdio.chars "run"; Stdio.chars "x"; Stdio.chars "ls"].
Definition demo_options : options := MkOptions SHUTDOWN_NONE false None None None false 0 (Random.MkRng [] 0 0 false).
Lemma command_line_runs_witness :
  read_command_line 4 (stored demo_args ++ replicate 113 0) = Ok demo_args ∧
  run_actions (λ a, modify (λ l, l ++ [length a])) [Stdio.chars "run"; Stdio.chars "x"; Stdio.chars "ls"] [] = Ok (tt, [2%nat; 1%nat]).
Proof.
  assert (Hz : Forall (Forall (λ c, c ≠ 0)) demo_args) by (repeat constructor; discriminate).
  assert (Ha : Forall is_action [[Stdio.chars "run"; Stdio.chars "x"]; [Stdio.chars "ls"]]).
  { constructor; [|constructor; [|constructor]]; [eexists _, _, 0%nat, 2%nat|eexists _, _, 1%nat, 1%nat]; (split; [reflexivity|split; reflexivity]). }
  assert (Hp : ∃ o', parse_options 5 demo_args demo_options = Ok (Some (o', concat [[Stdio.chars "run"; Stdio.chars "x"]; [Stdio.chars "ls"]])))
    by (eexists; vm_compute; reflexivity).
  destruct Hp as [o' Hp].
  destruct (command_line_runs (λ a, modify (λ l, l ++ [length a])) demo_args (replicate 113 0) 5 demo_options o' [[Stdio.chars "run"; Stdio.chars "x"]; [Stdio.chars "ls"]] [] Hz) as (H1 & H2 & _);
    [simpl; lia|vm_compute; lia|exact Ha|exact Hp|].
  split; [exact H1|exact H2].
Defined.
End Boot.
