(* ===== verification/DirDemo.v ===== *)
(** * A small directory, for examples

    A device of 100 sectors with the free map's file (inode in sector 0, data
    in 2), a root directory (inode in 1, data in 3) that holds ["."], [".."]
    and ["a"], the file ["a"] of 10 bytes (inode in 5, data in 6) and an empty
    inode (sector 8), under an empty buffer cache; and the properties of
    directories at work on it. *)
From S2P Require Import Prelude CInt Bitmap Bytes Block Cache Inode InodeSpec InodeWrite FsInv FreeMapSpec InodeExtend FileGrow File FileRemove Directory DirMap DirectorySpec DirList Filesys FilesysSpec.
Import Block Inode Directory.

Open Scope Z_scope.

Definition name_a : list Z := [97].
Definition name_b : list Z := [98].
Definition demo_entry (x : Z) (name : list Z) : list Z :=
  bytes_of_entry (DirEntry x (name ++ replicate (15 - length name) 0) 1).
Definition demo_disk (is_dir : bool) (len : Z) (blocks : list Z) : inode_disk :=
  InodeDisk len is_dir 0 (blocks ++ replicate (12 - length blocks) 0) 0 0 INODE_MAGIC (replicate 111 0).

Definition dir_demo_map : Bitmap.bitmap := Bitmap.MkBitmap 100 [367; 0; 0; 0].

Definition dir_demo_sector (k : nat) : list Z :=
  match k with
  | 0%nat => encode (demo_disk false 16 [2])
  | 1%nat => encode (demo_disk true 60 [3])
  | 2%nat => bytes_of_words (Bitmap.bits dir_demo_map ++ replicate 124 0)
  | 3%nat => demo_entry 1 CURRENT_DIR ++ demo_entry 1 PARENT_DIR ++ demo_entry 5 name_a ++ replicate 452 0
  | 5%nat => encode (demo_disk false 10 [6])
  | 6%nat => replicate 10 7 ++ replicate 502 0
  | 8%nat => encode (demo_disk true 0 [])
  | _ => replicate 512 9
  end.
Definition dir_demo_device : block ramdisk :=
  MkBlock BLOCK_FILESYS 100 (dir_demo_sector <$> seq 0 100) 0 0.
Definition fresh_cache (dev : block ramdisk) : Cache.state ramdisk :=
  Cache.cache_init dev (Cache.State (replicate 64 (Cache.Entry 0 false false 0 [])) dev 0 0 0 0).

Definition dir_demo_fs : fs (Cache.state ramdisk) :=
  Fs (fresh_cache dir_demo_device) dir_demo_map (Some 1%nat)
    {[ 0%nat := MkInode 0 1 false 0; 2%nat := MkInode 1 1 false 0 ]} [2%nat; 0%nat]
    {[ 1%nat := MkFile 0 0 false ]} 3.
Definition dir_demo : dfs (Cache.state ramdisk) := Dfs dir_demo_fs {[ 0%nat := MkDir 2 0 ]} 1 [] None.
Definition demo_junk : dir_entry := DirEntry 77 (replicate 15 3) 255.

Definition dir_view : Z → list Z := sector_of dir_demo_device.
Definition dir_live : gset Z := list_to_set [0; 1; 5; 8].
Definition root : inode := MkInode 1 1 false 0.

Lemma dir_demo_sees : sees 100 dir_view dir_demo_fs.
Proof.
  destruct (Cache.cache_init_inv
    (Cache.State (replicate 64 (Cache.Entry 0 false false 0 [])) dir_demo_device 0 0 0 0)
    dir_demo_device) as [Hi Hv]; [reflexivity| |].
  - split; [simpl; lia|]. split; [done|]. split; [reflexivity|].
    apply (bool_decide_eq_true (Forall _ _)). vm_compute. reflexivity.
  - split; [exact Hi|]. split; [reflexivity|exact Hv].
Qed.

Lemma dir_demo_ok : fs_ok 100 dir_view (base dir_demo) dir_live.
Proof.
  apply fs_check_ok; [exact dir_demo_sees|lia|reflexivity|vm_compute; reflexivity|].
  intros fp [= <-]. split; [left|]. split; [vm_compute; reflexivity|].
  exists (MkFile 0 0 false), (MkInode 0 1 false 0). done.
Qed.
Lemma dir_demo_synced : synced dir_view (base dir_demo).
Proof. vm_compute. reflexivity. Qed.

Lemma dir_demo_inodes p j : inodes (base dir_demo) !! p = Some j →
  (p = 0%nat ∧ j = MkInode 0 1 false 0) ∨ (p = 2%nat ∧ j = root).
Proof.
  cbn. intros [[<- <-]|[_ H]]%lookup_insert_Some; [by left|]. apply lookup_singleton_Some in H as [<- <-]. by right.
Qed.

Lemma dir_demo_table : table_ok (base dir_demo).
Proof.
  split.
  - intros p. cbn. split.
    + intros [->|[->|[]%elem_of_nil]%elem_of_cons]%elem_of_cons; eauto.
    + intros [j Hj]. apply dir_demo_inodes in Hj as [[-> _]|[-> _]]; set_solver.
  - apply (bool_decide_eq_true (NoDup _)). reflexivity.
  - intros p [j Hj]. apply dir_demo_inodes in Hj as [[-> _]|[-> _]]; simpl; lia.
  - intros p j [[-> ->]|[-> ->]]%dir_demo_inodes; simpl; lia.
  - intros p q i j [[-> ->]|[-> ->]]%dir_demo_inodes [[-> ->]|[-> ->]]%dir_demo_inodes; done.
Qed.
Lemma dir_demo_count p j : inodes (base dir_demo) !! p = Some j → open_cnt j < 2 ^ 31 - 2.
Proof. intros [[-> ->]|[-> ->]]%dir_demo_inodes; simpl; lia. Qed.

Lemma dir_demo_at : dir_at dir_view dir_demo dir_live 0 2 root 0.
Proof.
  split; [reflexivity|reflexivity|unfold dir_live; set_solver| |vm_compute; reflexivity].
  split.
  - vm_compute. reflexivity.
  - intros e He. assert (Hall : forallb (λ e, negb (bool_decide (binding e = None))) (slots (contents dir_view 1)) = true)
      by (vm_compute; reflexivity).
    apply (forallb_elem _ _ _ Hall) in He. intros _. apply negb_true_iff, bool_decide_eq_false in He.
    by apply not_eq_None_Some.
  - apply (bool_decide_eq_true (NoDup _)). vm_compute. reflexivity.
Qed.
Lemma dir_demo_writable : writable 100 dir_view dir_demo root.
Proof. split; [done|done|vm_compute; reflexivity|vm_compute; lia|intros _; exact dir_demo_synced]. Qed.

Lemma demo_valid name : forallb (λ x, (0 <? x) && (x <? 256)) name = true → valid_name name.
Proof. intros H. apply Forall_forall. intros x Hx. apply (forallb_elem _ _ _ H) in Hx. lia. Qed.

Lemma dir_lookup_correct_witness :
  ∃ q j s', dir_lookup demo_junk 0 name_a dir_demo = Ok (Some q, s') ∧ sector j = 5 ∧
    inodes (base s') = <[q := j]> (inodes (base dir_demo)) ∧ fs_ok 100 dir_view (base s') dir_live.
Proof.
  assert (H := dir_lookup_correct dir_demo demo_junk 100 dir_view dir_live 0 2 root 0 name_a dir_demo_ok dir_demo_at
                 (demo_valid name_a eq_refl) dir_demo_table dir_demo_count).
  assert (E : dir_map (contents dir_view (sector root)) !! name_a = Some 5) by (vm_compute; reflexivity).
  rewrite E in H. destruct H as (q & j & s' & Hrun & [Hj _] & Hi & Hok & _). exists q, j, s'.
  split; [exact Hrun|]. split; [exact Hj|]. split; [exact Hi|exact Hok].
Defined.

Lemma dir_add_correct_witness :
  ∃ s' v', dir_add demo_junk 0 name_b 9 false dir_demo = Ok (true, s') ∧ fs_ok 100 v' (base s') dir_live ∧
    dir_map (contents v' 1) = <[name_b := 9]> (dir_map (contents dir_view 1)).
Proof.
  assert (H := dir_add_correct dir_demo demo_junk 100 dir_view dir_live 0 2 root 0 name_b 9 dir_demo_ok dir_demo_at
                 dir_demo_writable (demo_valid name_b eq_refl) ltac:(unfold in_u32; lia) eq_refl).
  cbv zeta in H. rewrite decide_True in H.
  - destruct H as (s' & v' & Hrun & Hok & _ & Hm & _). exists s', v'.
    split; [exact Hrun|]. split; [exact Hok|exact Hm].
  - split; [vm_compute; reflexivity|simpl; lia].
Defined.

Lemma dir_demo_blank : blank dir_view dir_demo dir_live 8.
Proof.
  split; [unfold dir_live; set_solver|done|unfold in_u32; lia|vm_compute; reflexivity|].
  intros p j [[-> ->]|[-> ->]]%dir_demo_inodes; done.
Qed.

Lemma mkdir_correct_witness :
  ∃ s' v', dir_add demo_junk 0 name_b 8 true dir_demo = Ok (true, s') ∧ fs_ok 100 v' (base s') dir_live ∧
    dir_map (contents v' 1) = <[name_b := 8]> (dir_map (contents dir_view 1)) ∧
    dir_map (contents v' 8) = fresh_dir 8 1.
Proof.
  destruct (mkdir_correct dir_demo demo_junk 100 dir_view dir_live 0 2 root 0 name_b 8 dir_demo_ok dir_demo_at
              dir_demo_writable) as (s' & v' & Hrun & Hok & Hm & Hx & _).
  - vm_compute. lia.
  - exact dir_demo_table.
  - exact dir_demo_count.
  - exact dir_demo_blank.
  - done.
  - split; [by apply demo_valid|simpl; lia].
  - reflexivity.
  - vm_compute. reflexivity.
  - exists s', v'. split; [exact Hrun|]. split; [exact Hok|]. split; [exact Hm|exact Hx].
Defined.

Lemma dir_remove_correct_witness :
  ∃ s' v', dir_remove demo_junk 0 name_a dir_demo = Ok (true, s') ∧
    dir_map (contents v' 1) = delete name_a (dir_map (contents dir_view 1)) ∧
    fs_ok 100 v' (base s') (dir_live ∖ {[5]}) ∧ Bitmap.bit (free_map (base s')) 6 = false.
Proof.
  destruct (dir_remove_correct dir_demo demo_junk 100 dir_view dir_live 0 2 root 0 name_a 5 1 dir_demo_ok dir_demo_at)
    as (s' & v' & Hrun & _ & Hm & _ & _ & Hfree & _).
  - by apply demo_valid.
  - done.
  - done.
  - reflexivity.
  - exact dir_demo_synced.
  - exact dir_demo_table.
  - exact dir_demo_count.
  - vm_compute. reflexivity.
  - unfold dir_live. set_solver.
  - done.
  - done.
  - vm_compute. reflexivity.
  - vm_compute. lia.
  - exists s', v'. split; [exact Hrun|]. split; [exact Hm|].
    destruct Hfree as [Hok Hbit]; [by intros p j [[-> ->]|[-> ->]]%dir_demo_inodes|].
    split; [exact Hok|]. apply Hbit. vm_compute. right. left.
Defined.

Lemma dir_listing_correct_witness :
  (∃ s', ls_loop MAX_ENTRIES demo_junk 0 dir_demo = Ok ([CURRENT_DIR; PARENT_DIR; name_a], s')) ∧
  ∃ s', dir_size demo_junk 0 dir_demo = Ok (1, s').
Proof.
  destruct (dir_listing_correct dir_demo demo_junk 100 dir_view dir_live 0 2 root dir_demo_ok dir_demo_at)
    as ((s1 & Hrun1 & _) & _ & _ & (s2 & Hrun2 & _)).
  assert (E : names (contents dir_view (sector root)) = [CURRENT_DIR; PARENT_DIR; name_a]) by (vm_compute; reflexivity).
  rewrite E in Hrun1, Hrun2. split; [exists s1; exact Hrun1|]. exists s2. exact Hrun2.
Defined.

(** ** Paths *)
Lemma dir_demo_tree : tree_ok dir_view dir_live.
Proof.
  assert (Hdirs : ∀ sec, sec ∈ dir_live → i_is_dir (disk dir_view sec) = true → sec = 1 ∨ sec = 8).
  { intros sec Hs Hd. assert (sec = 0 ∨ sec = 1 ∨ sec = 5 ∨ sec = 8) as [->|[->|[->| ->]]]
      by (unfold dir_live in Hs; set_solver); [vm_compute in Hd; discriminate|by left|vm_compute in Hd; discriminate|by right]. }
  assert (Hblank := blank_dir_ok dir_view 8 ltac:(vm_compute; reflexivity)).
  split.
  - intros sec Hs Hd. destruct (Hdirs sec Hs Hd) as [->| ->].
    + split; [apply (da_ok _ _ _ _ _ _ _ dir_demo_at)|apply (da_length _ _ _ _ _ _ _ dir_demo_at)].
    + split; [apply Hblank|vm_compute; reflexivity].
  - intros sec name x Hs Hd Hx. destruct (Hdirs sec Hs Hd) as [->| ->].
    + apply (dir_map_binding _ _ _ (da_ok _ _ _ _ _ _ _ dir_demo_at)) in Hx.
      assert (Hall : forallb (λ b, bool_decide (b.2 ∈ [0; 1; 5; 8])) (bindings (contents dir_view 1)) = true)
        by (vm_compute; reflexivity).
      apply (forallb_elem _ _ _ Hall), bool_decide_eq_true in Hx. unfold dir_live. by apply elem_of_list_to_set.
    + destruct Hblank as [_ E]. rewrite E in Hx. by rewrite lookup_empty in Hx.
  - split; [unfold dir_live; set_solver|vm_compute; reflexivity].
  - vm_compute. reflexivity.
Qed.

Lemma dir_demo_walker : walker 100 dir_view dir_live dir_demo 2.
Proof.
  split; [exact dir_demo_ok|exact dir_demo_table| |lia].
  intros p j [[-> ->]|[-> ->]]%dir_demo_inodes; simpl; split; (lia || reflexivity).
Qed.

(** ["//./a"]. *)
Definition path_a : list Z := [47; 47; 46; 47; 97].
Lemma filesys_open_resolves_witness :
  ∃ q j s', Filesys.filesys_open_internal demo_junk path_a dir_demo = Ok (Some q, s') ∧
    inodes (base s') !! q = Some j ∧ sector j = 5.
Proof.
  assert (H := filesys_open_resolves dir_demo demo_junk 100 dir_view dir_live 2 path_a dir_demo_tree dir_demo_walker
                 ltac:(simpl; lia) (demo_valid path_a eq_refl) (or_introl eq_refl)).
  assert (E : resolve dir_view path_a = Some 5) by (vm_compute; reflexivity).
  rewrite E in H. destruct H as (q & j & s' & Hrun & Hq & Hj & _). exists q, j, s'.
  split; [exact Hrun|]. split; [exact Hq|exact Hj].
Defined.

(** ** A file system from formatting to removal *)

(** A machine with the given device and nothing in memory. *)
Definition boot (dev : block ramdisk) : dfs (Cache.state ramdisk) :=
  Dfs (Fs (fresh_cache dev) (Bitmap.MkBitmap 0 []) None ∅ [] ∅ 0) ∅ 0 [] None.
Definition unformatted : block ramdisk := MkBlock BLOCK_FILESYS 100 (replicate 100 (replicate 512 9)) 0 0.
(** ["/d"]. *)
Definition path_d : list Z := [47; 100].
Definition mount (format : bool) : ST (dfs (Cache.state ramdisk)) unit :=
  Filesys.filesys_init demo_junk 100 (replicate 4 0) format.

(** Removing a directory depends on a leak: [dir_init] leaves a new
    directory open for good, and [dir_remove] closes the inode of the
    directory it removes once too often.  In the session that created it the
    two make up for each other.  After a shutdown and a reboot the directory
    is not open, and removing it uses its inode after it has been freed. *)
Theorem rmdir_after_reboot_faults :
  (∃ s, (mount true ;; Filesys.filesys_create demo_junk path_d 0 true ;; Filesys.filesys_remove demo_junk path_d)
          (boot unformatted) = Ok (true, s)) ∧
  match (mount true ;; Filesys.filesys_create demo_junk path_d 0 true ;; Filesys.filesys_done)
          (boot unformatted) with
  | Ok (_, s) => (mount false ;; Filesys.filesys_remove demo_junk path_d) (boot (Cache.fs_device (store (base s)))) = Err Fault
  | Err _ => False
  end.
Proof. split; [eexists; vm_compute; reflexivity|vm_compute; reflexivity]. Qed.
