(* ===== verification/VmDemo.v ===== *)
(** * A process with two pages, for examples

    The machine of [PagedirDemo], which has a single page for users, the swap
    device of [Swap] with two slots and the file system of [FsDemo]; one thread
    whose process has two pages of the file of 600 bytes, neither in memory. *)
From S2P Require Import Prelude CInt Bitmap Palloc PallocSpec Pagedir PagedirRun PagedirSpec PagedirDestroy Mmu MmuMachine Bytes Block Swap Vm Cache Inode InodeSpec FsInv File FileSpec FsFiles FsDemo.
From S2P Require Import Vm VmFalloc VmLoad VmStack VmSpec.

Open Scope Z_scope.

Module VmDemo.
Import Palloc (NULL, User, Kernel, pool_of).
#[local] Existing Instance Block.ramdisk_driver.
Import Block (ramdisk, ramdisk_driver).
Import PallocSpec PagedirInv PagedirDemo MmuMachine Swap Vm VmInv VmFalloc VmLoad VmStack VmTick VmSpec.

Abbreviation demo_hw_type := (MmuMachine.hw demo_init 300).
Definition demo_hw : demo_hw_type := MkHw demo_machine ∅.
Definition demo_mmu : mmu := MkMmu {[demo_pd]} (λ _ _, no_mapping) ∅ ∅.

Definition demo_junk : page := MkPage 0 0 PRESENT_MEMORY false 0 None 0 0 0 0.
Definition demo_page (u : Z) : page := MkPage u 0 PRESENT_FILESYS true 1 (Some 2%nat) 0 600 3496 0.
Definition demo_thread : uthread := MkThread demo_pd 0 1 (Some 0%nat).
Definition demo_vm : vm demo_hw_type ramdisk (Inode.fs (Cache.state ramdisk)) :=
  MkVm demo_hw demo_swap demo_fs {[ 0%nat := demo_page 0x8048000; 1%nat := demo_page 0x8049000 ]} []
    {[ 0%nat := {[ 0x8048000 := 0%nat; 0x8049000 := 1%nat ]} ]} {[ 1 := demo_thread ]} 1 7 2 false false 0.

(** File 2 of the file system is open on the inode in sector 5. *)
Definition demo_handles : gmap nat Z := {[ 2%nat := 5 ]}.
Definition demo_contents : Z → list Z := contents FsDemo.demo_view.

Lemma demo_no_user_frame k : ¬ user_frame demo_machine k.
Proof.
  intros (i & (Hi & Hn & Hu) & _). unfold npages in Hn. simpl in Hn. assert (i = 0) as -> by lia.
  specialize (Hu 0 ltac:(lia)). discriminate Hu.
Qed.

Lemma demo_hw_ok : hw_rep demo_hw demo_mmu.
Proof.
  constructor.
  - exact demo_ram_ok.
  - exact demo_cr3_ok.
  - intros pd Hpd. cbn [dirs demo_mmu] in Hpd. apply elem_of_singleton in Hpd as ->. split; [exact demo_pd_ok|]. split; [unfold demo_pd, demo_init; lia|].
    intros u [Hu _]. exact (demo_view u Hu).
  - intros pd pd' p H1 H2 _ _. cbn [dirs demo_mmu] in H1, H2. apply elem_of_singleton in H1, H2. congruence.
  - intros k. split; [intros [d Hd]; simpl in Hd; discriminate Hd|]. intros Hk. destruct (demo_no_user_frame k Hk).
  - intros k d Hd. discriminate Hd.
  - intros k [d Hd]. discriminate Hd.
  - intros i [Hi Hn]. unfold npages in Hn. simpl in Hn. assert (i = 0) as -> by lia. reflexivity.
Qed.

Lemma demo_room : hw_room demo_hw.
Proof.
  exists 2. split; [lia|]. split; [unfold npages; simpl; lia|]. intros k Hk. assert (k = 2) as -> by lia. reflexivity.
Qed.

Lemma demo_files : pf_rep demo_fs demo_handles demo_contents.
Proof.
  exists 200, FsDemo.demo_view, demo_live. split; [exact demo_fs_ok|]. split.
  - intros f [fl Hf]. cbn [demo_fs Inode.files Inode.next] in *.
    apply lookup_insert_Some in Hf as [[<- _]|[_ [<- _]%lookup_singleton_Some]]; lia.
  - intros f sec Hf. unfold demo_handles in Hf. apply lookup_singleton_Some in Hf as [<- <-]. split; [|reflexivity]. split; [done|].
    exists 3%nat, (Inode.MkInode 5 1 false 0), 500, false. split; [exact demo_file_at|reflexivity].
Qed.

Lemma demo_threads t x : threads demo_vm !! t = Some x → t = 1 ∧ x = demo_thread.
Proof. cbn [threads demo_vm]. by intros [<- <-]%lookup_singleton_Some. Qed.

Lemma demo_page_of t u k : page_of demo_vm t u k →
  t = 1 ∧ (u = 0x8048000 ∧ k = 0%nat ∨ u = 0x8049000 ∧ k = 1%nat).
Proof.
  intros (x & q & spt & Ht & Hq & Hs & Hu). apply demo_threads in Ht as [-> ->]. cbn [spts demo_vm] in Hs.
  simpl in Hq. injection Hq as <-. rewrite lookup_singleton_eq in Hs. injection Hs as <-. split; [done|].
  apply lookup_insert_Some in Hu as [[<- <-]|[_ [<- <-]%lookup_singleton_Some]]; auto.
Qed.

Lemma demo_pages k p : pages demo_vm !! k = Some p → p = demo_page (upage p) ∧ (k = 0%nat ∨ k = 1%nat).
Proof. cbn [pages demo_vm]. intros [[<- <-]|[_ [<- <-]%lookup_singleton_Some]]%lookup_insert_Some; auto. Qed.

Lemma demo_length : length (demo_contents 5) = 600%nat.
Proof. vm_compute. reflexivity. Qed.

Lemma demo_inv : inv None demo_vm demo_mmu demo_handles demo_contents.
Proof.
  constructor.
  - exact demo_hw_ok.
  - exact demo_swap_ok.
  - exact demo_files.
  - intros t x q [-> ->]%demo_threads [= <-]. split; [cbn [dirs demo_mmu pagedir demo_thread]; by apply elem_of_singleton|]. by eexists.
  - intros t t' x x' q q' [-> _]%demo_threads [-> _]%demo_threads _ _ _. reflexivity.
  - intros t u k [-> [[-> ->]|[-> ->]]]%demo_page_of; eexists; (split; [reflexivity|]);
      (split; [reflexivity|]); (split; [reflexivity|]); unfold user_page, PHYS_BASE; rewrite PGSIZE_val; (split; [lia|reflexivity]).
  - intros k Hk. apply eq_None_not_Some. intros [p Hp]. apply demo_pages in Hp as [_ [-> | ->]]; simpl in Hk; lia.
  - intros t u k x p _ _ [-> _]%demo_pages. split; [|reflexivity]. exists 2%nat, 5.
    cbn [p_file demo_page ofs read_bytes zero_bytes]. rewrite demo_length, PGSIZE_val. split_and!; try reflexivity; lia.
  - intros t u k x _ _ [=].
  - intros. reflexivity.
  - intros t u k t' u' k' p p' _ _ [-> _]%demo_pages _ [=].
  - intros f Hf. by apply elem_of_nil in Hf.
  - apply NoDup_nil_2.
  - apply NoDup_nil_2.
Qed.

Lemma demo_running : running demo_vm demo_mmu demo_handles demo_contents demo_thread.
Proof.
  constructor; [exact demo_inv|reflexivity|reflexivity|reflexivity| |exact demo_room].
  unfold stack_ok, MAX_STACK_SIZE, bottom. simpl. rewrite ?PGSIZE_val. lia.
Qed.
Lemma demo_space : space demo_vm demo_mmu demo_handles demo_contents 1 0x8048000 =
  Some (file_bytes demo_handles demo_contents (demo_page 0x8048000), true).
Proof. reflexivity. Qed.

Lemma demo_free : match palloc_get_page USER_ZERO (hw demo_vm) with Ok (k, _) => k =? NULL | Err _ => true end = false.
Proof. vm_compute. reflexivity. Qed.

Lemma demo_not_exhausted : ¬ exhausted demo_vm.
Proof. intros [E _]. assert (H := demo_free). rewrite E in H. discriminate H. Qed.


(** A push onto the full first page of the stack. *)
Lemma stack_fault_correct_witness :
  ∃ s', page_fault demo_junk true true 0xbfffeffc 0xbffff000 demo_vm = Ok (Resume, s') ∧
    threads s' !! 1 = Some (MkThread demo_pd 0xbffff000 2 (Some 0%nat)).
Proof.
  destruct (stack_fault_correct demo_junk demo_vm demo_mmu demo_handles demo_contents demo_thread 0 0xbfffeffc 0xbffff000 demo_running)
    as [(d & s' & m' & Hrun & _ & _ & Ht & _)|[_ Hex]].
  - reflexivity.
  - unfold PHYS_BASE. lia.
  - vm_compute. reflexivity.
  - vm_compute. intros E. discriminate E.
  - intros k [_ [[E _]|[E _]]]%demo_page_of; vm_compute in E; discriminate E.
  - exists s'. split; [exact Hrun|exact Ht].
  - destruct (demo_not_exhausted Hex).
Defined.

(** ** After the first page has been loaded *)
Definition demo_result := mem_read demo_junk true 0x8048201 0xc0000000 demo_vm.
Definition demo_loaded := match demo_result with Ok (_, s) => s | Err _ => demo_vm end.

Lemma demo_loaded_inv : ∃ m, inv None demo_loaded m demo_handles demo_contents.
Proof.
  destruct (mem_read_ok demo_junk true demo_vm demo_mmu demo_handles demo_contents demo_thread 0x8048201 0xc0000000
              (file_bytes demo_handles demo_contents (demo_page 0x8048000)) true 2 demo_running)
    as [(s' & m' & Hrun & Hi & _)|[_ Hex]].
  - unfold PHYS_BASE. lia.
  - vm_compute. reflexivity.
  - exact demo_space.
  - vm_compute. reflexivity.
  - exists m'. unfold demo_loaded, demo_result. rewrite Hrun. exact Hi.
  - destruct (demo_not_exhausted Hex).
Qed.

Lemma demo_loaded_table : frame_table demo_loaded = [MkFrame 0xc0123000 0 7].
Proof. vm_compute. reflexivity. Qed.
Lemma demo_loaded_page : pages demo_loaded !! 1%nat = Some (demo_page 0x8049000).
Proof. vm_compute. reflexivity. Qed.
Lemma demo_loaded_page_of : page_of demo_loaded 1 0x8049000 1.
Proof.
  exists (MkThread demo_pd 0xc0000000 1 (Some 0%nat)), 0%nat. eexists. split; [vm_compute; reflexivity|].
  split; [reflexivity|]. split; vm_compute; reflexivity.
Qed.

Lemma demo_loaded_full : match palloc_get_page USER_ZERO (hw demo_loaded) with Ok (k, _) => k =? NULL | Err _ => false end = true.
Proof. vm_compute. reflexivity. Qed.

Lemma demo_loaded_slot : slot_index (swp demo_loaded) 0 ∧ slot_free (swp demo_loaded) 0 = true.
Proof. split; vm_compute; [split; [intros E; discriminate E|reflexivity]|reflexivity]. Qed.

(** The second page needs the frame of the first. *)
Lemma eviction_correct_witness :
  ∃ s' e, falloc 1 USER_ZERO demo_loaded = Ok (0xc0123000, s') ∧ pages s' !! 0%nat = Some e ∧ present e = PRESENT_SWAP.
Proof.
  destruct demo_loaded_inv as [m Hi].
  destruct (inv_absent demo_loaded m demo_handles demo_contents 1 (demo_page 0x8049000) 1 0x8049000
              (MkThread demo_pd 0xc0000000 1 (Some 0%nat)) Hi demo_loaded_page_of) as [Hi' Hnf];
    [vm_compute; reflexivity|exact demo_loaded_page|discriminate|].
  destruct (eviction_correct demo_loaded m demo_handles demo_contents 1 (demo_page 0x8049000) 1 0x8049000 Hi')
    as [(i & f & e & s' & m' & [Hl _] & Hrun & _ & He & Hpr & _)|[_ Hfull]].
  - vm_compute. reflexivity.
  - exact demo_loaded_page_of.
  - exact demo_loaded_page.
  - exact Hnf.
  - assert (Hg := demo_loaded_full). destruct (mm_get _ _ (i_hw _ _ _ _ _ Hi)) as [E|(k & h & E & Hk & _)]; [exact E|].
    rewrite E in Hg. apply Z.eqb_eq in Hg. destruct (Hk Hg).
  - rewrite demo_loaded_table. discriminate.
  - rewrite demo_loaded_table in Hl. apply list_lookup_singleton_Some in Hl as [_ <-]. exists s', e.
    split; [exact Hrun|]. split; [exact He|exact Hpr].
  - destruct demo_loaded_slot as [H1 H2]. specialize (Hfull 0 H1). congruence.
Defined.

Lemma frame_tick_correct_witness :
  ∃ s', frame_tick demo_loaded = Ok (tt, s') ∧ length (frame_table s') = 1%nat ∧ pages s' = pages demo_loaded.
Proof.
  destruct demo_loaded_inv as [m Hi].
  destruct (frame_tick_correct demo_loaded m demo_handles demo_contents Hi) as (s' & m' & Hrun & _ & _ & Hp & Hl & _).
  exists s'. split; [exact Hrun|]. split; [rewrite Hl, demo_loaded_table; reflexivity|exact Hp].
Defined.
End VmDemo.
