(* ===== verification/UserKernel.v ===== *)
(** * The kernel put together

    The file system of [Filesys] and the machine of [MmuMachine] are what
    processes and system calls use ([UserFiles], [PageFiles], [Pagedirs]); and
    a kernel with the directory of [DirDemo], the machine of [PagedirDemo] and
    a few processes, on which the properties of processes and system calls are
    put to work. *)
From S2P Require Import Prelude CInt CString Bitmap Palloc Pagedir PagedirDestroy Mmu MmuMachine Bytes Block Swap Vm VmFalloc VmStack VmSpec Process SyscallFile Exec Syscall ExecSpec SyscallSpec Cache Inode InodeSpec FsInv File FsFiles Directory DirMap Filesys DirDemo VmDemo.

Open Scope Z_scope.

(** ** The file system *)
Section user_files.
Context {S : Type} `{!SectorStore S} (junk : Directory.dir_entry).
Import Directory.

Definition dfs_rep (x : dfs S) (hs : gmap nat Z) (cs : Z → list Z) : Prop := fs_rep (base x) hs cs.

#[export] Program Instance dfs_page_files : PageFiles (dfs S) := {
  PageFiles.file_reopen f := with_fs (File.file_reopen f);
  PageFiles.file_close f := with_fs (File.file_close f);
  PageFiles.file_seek f pos := with_fs (File.file_seek f pos);
  PageFiles.file_read f n := with_fs (File.file_read f n);
  PageFiles.file_write f bs n := with_fs (File.file_write f bs n);
  PageFiles.file_length f := with_fs (File.file_length f);
  pf_rep := dfs_rep
}.
Next Obligation.
  intros x hs cs f sec Hr Hf. destruct (fs_files_reopen _ _ _ _ _ Hr Hf) as (g & b & Hrun & Hg & Hb).
  exists g, (set_base b x). split; [by apply with_fs_ok|done].
Qed.
Next Obligation.
  intros x hs cs f sec Hr Hf. destruct (fs_files_length _ _ _ _ _ Hr Hf) as (b & Hrun & Hb).
  exists (set_base b x). split; [by apply with_fs_ok|done].
Qed.
Next Obligation.
  intros x hs cs f sec ofs Hr Hf Hofs. destruct (fs_files_seek _ _ _ _ _ _ Hr Hf Hofs) as (b & Hrun & Hb).
  exists (set_base b x). split; [by apply with_fs_ok|done].
Qed.
Next Obligation.
  intros x hs cs f sec ofs n Hr Hf Ho Hn Hle Hlt. destruct (fs_files_read _ _ _ _ _ _ _ Hr Hf Ho Hn Hle Hlt) as (b & b' & Hrun & Hrun' & Hb).
  exists (set_base b x), (set_base b' (set_base b x)). split; [by apply with_fs_ok|]. split; [by apply with_fs_ok|done].
Qed.

Instance dfs_user_files : UserFiles (dfs S) := {
  UserFiles.filesys_open := Filesys.filesys_open junk;
  UserFiles.filesys_open_dir := Filesys.filesys_open_dir junk;
  UserFiles.filesys_create := Filesys.filesys_create junk;
  UserFiles.filesys_remove := Filesys.filesys_remove junk;
  UserFiles.file_tell f := with_fs (File.file_tell f);
  UserFiles.file_deny_write f := with_fs (File.file_deny_write f);
  UserFiles.file_inumber f := with_fs (p ← File.file_get_inode f; Inode.inode_get_sector (Some p));
  UserFiles.dir_open_root := Directory.dir_open_root;
  UserFiles.dir_reopen := Directory.dir_reopen;
  UserFiles.dir_close := Directory.dir_close;
  UserFiles.dir_readdir_strict := Directory.dir_readdir_strict junk;
  UserFiles.dir_inumber d := p ← Directory.dir_get_inode d; with_fs (Inode.inode_get_sector (Some p));
  UserFiles.get_dirs := process_dirs;
  UserFiles.set_dirs l c x := Dfs (base x) (dirs x) (next_dir x) l c
}.
End user_files.

(** ** The machine *)
#[export] Instance hw_pagedirs (init_page_dir init_ram_pages : Z) : Pagedirs (MmuMachine.hw init_page_dir init_ram_pages) := {
  Pagedirs.pagedir_create := MmuMachine.on_mach (Pagedir.pagedir_create init_page_dir);
  Pagedirs.pagedir_destroy pd := MmuMachine.on_mach (Pagedir.pagedir_destroy init_page_dir pd);
  Pagedirs.pagedir_activate pd := MmuMachine.on_mach (Pagedir.pagedir_activate init_page_dir pd)
}.

(** ** Bad arguments *)
Section bad_arguments.
Import Swap Vm Process SyscallFile Exec Syscall SyscallSpec.
Context {S H D : Type} `{!SectorStore S, !Mmu H, !Pagedirs H, !BlockDriver D} (junk : Directory.dir_entry) (junk_page : page).
#[local] Existing Instance dfs_user_files.
#[local] Instance bad_files : UserFiles (Directory.dfs S) := dfs_user_files junk.
Implicit Types (s : kernel H D (Directory.dfs S)).

(** Any program can bring the kernel down: [seek] to a place from 2 GB
    on in an open file fails an assertion, [inumber] of a descriptor that is
    not open follows a null pointer, and [mmap] at a page of the kernel's part
    of the address space fails an assertion. *)
Theorem unchecked_arguments_crash s k p n : running_process s k p → filesys_syscall_lock s = None →
  (∀ f pos, find_fd n (fd_map p) = Some (MkFd n false f) → is_Some (Inode.files (Directory.base (fsys (mem s))) !! f) →
     2 ^ 31 ≤ pos < 2 ^ 32 → seek n pos s = Err Panic) ∧
  (find_fd n (fd_map p) = None → inumber n s = Err Fault) ∧
  (∀ addr, PHYS_BASE ≤ addr < 2 ^ 32 → pg_ofs addr = 0 → mmap junk_page n addr s = Err Panic).
Proof.
  intros Hr Hl. split; [|split].
  - intros f pos Hf [x Hx] Hpos. apply (seek_panics s k p n f pos Hr Hl Hf Hpos). intros ds c z Hz.
    apply run_zoom_err. unfold File.file_seek, File.get_file. erewrite run_bind_ok; [|erewrite run_bind_ok by reflexivity; by apply run_deref].
    apply run_bind_err. by rewrite (proj2 (Z.leb_gt 0 z)).
  - by apply (inumber_faults s k p).
  - intros addr. by apply (mmap_panics junk_page s k p).
Qed.
End bad_arguments.

(** ** Examples *)
Module UserDemo.
#[local] Existing Instance Block.ramdisk_driver.
Import Block (ramdisk, ramdisk_driver).
Import Palloc (NULL).
Import PagedirDemo Swap Vm VmInv VmStack VmSpec Process SyscallFile Exec Syscall ExecSpec SyscallSpec VmDemo.

Abbreviation dfs := (Directory.dfs (Cache.state ramdisk)).
#[local] Instance demo_user_files : UserFiles dfs := dfs_user_files DirDemo.demo_junk.
Abbreviation demo_kernel := (kernel demo_hw_type ramdisk dfs).

(** Process [pid] of thread [parent], in the root directory. *)
Definition demo_process (pid parent : Z) (fds : list file_descriptor) : process :=
  MkProcess (-1) pid parent DirDemo.name_a None (Some 0%nat) true false fds ∅.
Definition demo_junk_process : process := demo_process 77 77 [].

(** Thread 1 is the kernel's own, thread 2 runs process 0 and, if there is one,
    thread 3 process 1. *)
Definition user_vm (ts : gmap Z uthread) : vm demo_hw_type ramdisk dfs :=
  MkVm demo_hw demo_swap DirDemo.dir_demo ∅ [] {[ 0%nat := ∅; 1%nat := ∅ ]} ts 2 7 0 false false 0.
Definition two_threads : gmap Z uthread := {[ 1 := MkThread NULL 0 0 None; 2 := MkThread demo_pd 0 0 (Some 0%nat) ]}.
Definition three_threads : gmap Z uthread := <[ 3 := MkThread NULL 0 0 (Some 1%nat) ]> two_threads.
Definition user_kernel (ts : gmap Z uthread) (ps : list process) : demo_kernel :=
  MkKernel (user_vm ts) (map_seq 0 ps) (seq 0 (length ps)) (length ps) 4 ∅ {[ 1 := 0; 2 := 0; 3 := 0 ]} ∅ [] [] None.

Definition one_process fds : demo_kernel := user_kernel two_threads [demo_process 2 1 fds].
Definition with_child : demo_kernel := user_kernel three_threads [demo_process 2 1 []; demo_process 3 2 []].

(** Process 0 runs after [m] has been run. *)
Lemma demo_runs {A} (m : ST demo_kernel A) s (P : A → demo_kernel → bool) :
  match m s with Ok (a, s') => P a s' | Err _ => false end = true → ∃ a s', m s = Ok (a, s') ∧ P a s' = true.
Proof. destruct (m s) as [[a s']|]; [|done]. intros E. by exists a, s'. Qed.

Lemma one_running fds : running_process (one_process fds) 0 (demo_process 2 1 fds).
Proof. split; reflexivity. Qed.

(** ** Processes *)
Lemma with_child_ok : procs_ok with_child.
Proof.
  assert (Hk : ∀ k p, k ∈ [0; 1]%nat → procs with_child !! k = Some p → k = 0%nat ∧ pid p = 2 ∨ k = 1%nat ∧ pid p = 3).
  { intros k p [->|[->|[]%elem_of_nil]%elem_of_cons]%elem_of_cons; cbn; intros [= <-]; auto. }
  split.
  - apply NoDup_ListNoDup. vm_compute. repeat constructor; intros Hin; repeat destruct Hin as [Hin|Hin]; try discriminate Hin; destruct Hin.
  - intros k [->|[->|[]%elem_of_nil]%elem_of_cons]%elem_of_cons; by eexists.
  - intros k k' p p' Hin Hin' Hp Hp' E.
    destruct (Hk k p Hin Hp) as [[-> E1]|[-> E1]], (Hk k' p' Hin' Hp') as [[-> E2]|[-> E2]]; done || lia.
Qed.

Lemma clean_children_correct_witness :
  procs_ok with_child ∧ ∃ s', clean_child_processes 2 with_child = Ok (tt, s') ∧ process_list s' = [0%nat].
Proof.
  split; [exact with_child_ok|]. destruct (clean_children_correct with_child 2 with_child_ok) as (s' & Hrun & _ & Hl & _).
  exists s'. split; [exact Hrun|]. rewrite Hl. vm_compute. reflexivity.
Defined.

(** Process 0 exits, and thread 1 waits for it. *)
Lemma wait_gets_exit_status_witness :
  ∃ s' s1, exit demo_junk 0 7 with_child = Ok (None (A := outcome), s') ∧ wait 2 (switch_to 1 s') = Ok (Returns (Some 7), s1).
Proof.
  destruct (demo_runs (exit (A := outcome) demo_junk 0 7) with_child (λ r _, if r is None then true else false)) as (r & s' & Hrun & Hr).
  { vm_compute. reflexivity. }
  destruct r as [r|]; [discriminate Hr|].
  destruct (wait_gets_exit_status demo_junk 0 with_child 0 (demo_process 2 1 []) 7 s' with_child_ok) as [(s1 & Hw & _) _].
  - split; reflexivity.
  - left.
  - reflexivity.
  - discriminate.
  - reflexivity.
  - exact Hrun.
  - exists s', s1. split; [exact Hrun|exact Hw].
Defined.

(** Process 0 exits, then its child. *)
Lemma orphan_exit_faults_witness :
  ∃ s', clean_child_processes 2 with_child = Ok (tt, s') ∧ exit (A := outcome) demo_junk 0 0 (switch_to 3 s') = Err Fault.
Proof.
  destruct (orphan_exit_faults demo_junk 0 with_child 1 2 3 (MkThread NULL 0 0 (Some 1%nat)) 0 with_child_ok) as (s' & H1 & _ & H2).
  - right. left.
  - eexists. split; reflexivity.
  - reflexivity.
  - reflexivity.
  - exists s'. split; [exact H1|exact H2].
Defined.

(** ** Descriptors *)
#[local] Instance fd_eq_dec : EqDecision file_descriptor.
Proof. solve_decision. Defined.

(** Opening ["a"]: the result, and the descriptors of process 0 afterwards. *)
Lemma demo_open (s : demo_kernel) fds : current_process s = Ok (Some 0%nat, s) →
  match fd_open_file DirDemo.name_a s with
  | Ok (Some (false, _), s') => bool_decide (fd_map <$> procs s' !! 0%nat = Some fds)
  | _ => false
  end = true →
  ∃ f s' p, fd_open_file DirDemo.name_a s = Ok (Some (false, f), s') ∧ running_process s' 0 p ∧ fd_map p = fds.
Proof.
  intros Hc Hrun. destruct (fd_open_file DirDemo.name_a s) as [[[[[] f]|] s']|] eqn:E; try done.
  apply bool_decide_eq_true, fmap_Some in Hrun as (p & Hp & Ep). exists f, s', p. split; [done|]. split; [|done].
  split; [|done]. eapply (current_process_same' s); [exact Hc|]. by apply (fd_open_file_same DirDemo.name_a s (Some (false, f)) s').
Qed.

Definition open_fds : list file_descriptor := [MkFd 2 true 0; MkFd 3 true 0].

Lemma create_fd_correct_witness :
  ordered MIN_FD open_fds ∧
  ∃ n f s', create_fd DirDemo.name_a (one_process open_fds) = Ok (n, s') ∧ get_file_descriptor n s' = Ok (Some (MkFd n false f), s').
Proof.
  assert (Hord : ordered MIN_FD open_fds) by (split; repeat constructor; simpl; unfold MIN_FD; lia).
  split; [exact Hord|]. destruct (demo_open (one_process open_fds) open_fds eq_refl) as (f & s1 & p & Hopen & Hr & Ep).
  { vm_compute. reflexivity. }
  destruct (create_fd_correct (one_process open_fds) s1 0 (demo_process 2 1 open_fds) p DirDemo.name_a false f)
    as (n & s' & Hrun & _ & _ & _ & Hget & _).
  - apply one_running.
  - exact Hopen.
  - exact Hr.
  - rewrite Ep. exact Hord.
  - exists n, f, s'. split; [exact Hrun|exact Hget].
Defined.

(** Descriptor 3 is open when ["a"] is opened twice. *)
Definition gap_fds : list file_descriptor := [MkFd 3 true 0].
Definition gap_fds' : list file_descriptor := [MkFd 3 true 0; MkFd 2 false 4].

Lemma descriptor_reused_witness :
  ∃ f2 s2 s4, create_fd DirDemo.name_a (one_process gap_fds) = Ok (2, s2) ∧ create_fd DirDemo.name_a s2 = Ok (2, s4) ∧
    get_file_descriptor 2 s4 = Ok (Some (MkFd 2 false f2), s4).
Proof.
  destruct (demo_open (one_process gap_fds) gap_fds eq_refl) as (f1 & s1 & p1 & Hopen & Hr1 & Ep1).
  { vm_compute. reflexivity. }
  destruct (demo_runs (create_fd DirDemo.name_a) (one_process gap_fds) (λ n s', (n =? 2) &&
    bool_decide (fd_map <$> procs s' !! 0%nat = Some gap_fds') &&
    match fd_open_file DirDemo.name_a s' with
    | Ok (Some (false, _), s') => bool_decide (fd_map <$> procs s' !! 0%nat = Some gap_fds')
    | _ => false
    end)) as (n & s2 & Hrun & [[->%Z.eqb_eq Hm]%andb_true_iff Hopen2]%andb_true_iff).
  { vm_compute. reflexivity. }
  apply bool_decide_eq_true, fmap_Some in Hm as (p2 & Hp2 & Ep2).
  assert (Hc2 : current_process s2 = Ok (Some 0%nat, s2)).
  { eapply (current_process_same' (one_process gap_fds)); [reflexivity|].
    by apply (create_fd_same DirDemo.name_a (one_process gap_fds) 2 s2). }
  destruct (demo_open s2 gap_fds' Hc2 Hopen2) as (f2 & s3 & p3 & Hopen3 & Hr3 & Ep3).
  destruct (descriptor_reused (one_process gap_fds) s1 s2 s3 0 (demo_process 2 1 gap_fds) p1 p2 p3 [] 2 (MkFd 3 true 0) []
              DirDemo.name_a DirDemo.name_a false f1 false f2) as [_ (s4 & Hrun4 & Hget4)].
  - apply one_running.
  - exact Hopen.
  - exact Hr1.
  - exact Ep1.
  - reflexivity.
  - unfold MIN_FD. lia.
  - simpl. lia.
  - exact Hrun.
  - split; [exact Hc2|exact Hp2].
  - exact Hopen3.
  - exact Hr3.
  - rewrite Ep3. exact Ep2.
  - exists f2, s2, s4. split; [exact Hrun|]. split; [exact Hrun4|exact Hget4].
Defined.

(** ** Bad arguments *)
Lemma unchecked_arguments_crash_witness :
  mmap demo_junk 9 0xc0000000 (one_process open_fds) = Err Panic ∧ inumber 9 (one_process open_fds) = Err Fault ∧
  seek 4 0x80000000 (one_process [MkFd 4 false 1]) = Err Panic.
Proof.
  destruct (unchecked_arguments_crash DirDemo.demo_junk demo_junk (one_process open_fds) 0 (demo_process 2 1 open_fds) 9
              (one_running _) eq_refl) as (_ & H2 & H3).
  destruct (unchecked_arguments_crash DirDemo.demo_junk demo_junk (one_process [MkFd 4 false 1]) 0 (demo_process 2 1 [MkFd 4 false 1]) 4
              (one_running _) eq_refl) as (H1 & _ & _).
  split; [|split].
  - apply (H3 0xc0000000); [unfold PHYS_BASE; lia|reflexivity].
  - apply H2. reflexivity.
  - apply (H1 1%nat); [reflexivity|by eexists|lia].
Defined.

(** ** Loading a program *)

(** The 600 bytes of file 2 at 0x8050000. *)
Lemma load_segment_correct_witness :
  ∃ s', load_segment demo_junk 2 0 0x8050000 600 3496 true demo_vm = Ok (true, s').
Proof.
  destruct (load_segment_correct demo_junk demo_vm demo_mmu demo_handles demo_contents demo_thread 0 2 5 0 0x8050000 600 3496 true demo_inv)
    as (hs' & s' & Hrun & _).
  - reflexivity.
  - reflexivity.
  - reflexivity.
  - reflexivity.
  - reflexivity.
  - lia.
  - unfold PHYS_BASE. lia.
  - lia.
  - reflexivity.
  - lia.
  - lia.
  - reflexivity.
  - rewrite demo_length. lia.
  - lia.
  - intros v Hv. apply space_none. unfold in_pages in Hv. apply andb_true_iff in Hv as [[Hv _]%andb_true_iff _]. apply Z.leb_le in Hv.
    intros k [_ [[E _]|[E _]]]%demo_page_of; lia.
  - exists s'. exact Hrun.
Defined.

(** The state before the stack is set up. *)
Definition empty_contents : Z → list Z := InodeSpec.contents DirDemo.dir_view.

Lemma user_files_ok : pf_rep (fsys (user_vm two_threads)) ∅ empty_contents.
Proof.
  exists 100, DirDemo.dir_view, DirDemo.dir_live. split; [exact DirDemo.dir_demo_ok|]. split; [|by intros f sec Hf].
  intros f [fl Hf]. change (({[ 1%nat := Inode.MkFile 0 0 false ]} : gmap nat _) !! f = Some fl) in Hf.
  apply lookup_singleton_Some in Hf as [<- _]. simpl. lia.
Qed.

Lemma user_threads t x q : threads (user_vm two_threads) !! t = Some x → Vm.process x = Some q →
  t = 2 ∧ x = MkThread demo_pd 0 0 (Some 0%nat) ∧ q = 0%nat.
Proof.
  unfold user_vm, two_threads. cbn [threads]. intros [[<- <-]|[_ [<- <-]%lookup_singleton_Some]]%lookup_insert_Some; intros [= <-]; done.
Qed.

Lemma user_no_pages t u k : ¬ page_of (user_vm two_threads) t u k.
Proof. intros (x & q & spt & Ht & Hq & Hs & Hu). destruct (user_threads t x q Ht Hq) as (_ & _ & ->). injection Hs as <-. discriminate Hu. Qed.

Lemma user_inv : inv None (user_vm two_threads) demo_mmu ∅ empty_contents.
Proof.
  constructor.
  - exact demo_hw_ok.
  - exact demo_swap_ok.
  - exact user_files_ok.
  - intros t x q Ht Hq. destruct (user_threads t x q Ht Hq) as (_ & -> & ->). split; [cbn [dirs demo_mmu pagedir]; by apply elem_of_singleton|by eexists].
  - intros t t' x x' q q' Ht Ht' Hq Hq' _. destruct (user_threads t x q Ht Hq) as [-> _], (user_threads t' x' q' Ht' Hq') as [-> _]. done.
  - intros t u k []%user_no_pages.
  - done.
  - intros t u k x p []%user_no_pages.
  - intros t u k x []%user_no_pages.
  - done.
  - intros t u k t' u' k' p p' []%user_no_pages.
  - intros f []%elem_of_nil.
  - apply NoDup_nil_2.
  - apply NoDup_nil_2.
Qed.

(** The stack is set up. *)
Definition stack_page : Z := PHYS_BASE - PGSIZE.
Lemma user_stack : ∃ (s : demo_kernel) m x d, page_held s m ∅ empty_contents x stack_page d.
Proof.
  assert (Hrun : match stack_page_alloc demo_junk (user_vm two_threads) with
                 | Ok (_, v) => bool_decide (spts v !! 0%nat = Some {[ stack_page := 0%nat ]}) &&
                                bool_decide (present <$> pages v !! 0%nat = Some PRESENT_MEMORY)
                 | Err _ => false end = true) by (vm_compute; reflexivity).
  set (x := MkThread demo_pd 0 0 (Some 0%nat)).
  destruct (stack_page_alloc_ok demo_junk (user_vm two_threads) demo_mmu ∅ empty_contents x 0 user_inv)
    as [(d & v & m & Hv & [G1 G2 G3 G4 G5 G6 G7])|[Hv _]].
  - reflexivity.
  - reflexivity.
  - reflexivity.
  - reflexivity.
  - split; vm_compute; intros E; discriminate E.
  - split; vm_compute; intros E; discriminate E.
  - intros k. apply user_no_pages.
  - exact demo_room.
  - rewrite Hv in Hrun. apply andb_true_iff in Hrun as [Hs Hp]. apply bool_decide_eq_true in Hs, Hp. apply fmap_Some in Hp as (p & Hp & Ep).
    exists (set_mem v (one_process [])), m, (grown x), d.
    assert (Ht : threads v !! current v = Some (grown x)) by (rewrite G2, G3; apply lookup_insert_eq).
    constructor; [exact G1|exact Ht| | | |].
    + split; [unfold stack_page, PHYS_BASE; rewrite PGSIZE_val; lia|reflexivity].
    + exists 0%nat, p. split; [|split; [exact Hp|symmetry; exact Ep]]. exists (grown x), 0%nat, {[ stack_page := 0%nat ]}.
      split; [exact Ht|]. split; [reflexivity|]. split; [exact Hs|apply lookup_singleton_eq].
    + cbn [mem set_mem]. rewrite G3, G5. reflexivity.
    + destruct G7 as [[-> _]|[E _]]; [apply length_replicate|]. assert (Hf := demo_free). unfold user_vm in E. cbn [hw demo_vm] in E, Hf.
      rewrite E in Hf. discriminate Hf.
  - rewrite Hv in Hrun. discriminate Hrun.
Qed.

(** The command line ["ls a"]. *)
Definition demo_command : list Z := [108; 115; 32; 97].
Lemma arguments_correct_witness :
  ∃ s sp s' token save cm, push_arguments demo_junk 0 cm token save PHYS_BASE (s : demo_kernel) = Ok (Some sp, s') ∧ sp mod 4 = 2 * (5 mod 2).
Proof.
  destruct user_stack as (s & m & x & d & Hh).
  destruct (arguments_correct demo_junk 0 s m ∅ empty_contents x d demo_command Hh) as (token & save & cm & sp & s' & m' & d' & _ & Hrun & _ & _ & _ & _ & _ & _ & Hal).
  - repeat constructor.
  - exists s, sp, s', token, save, cm. split; [exact Hrun|]. rewrite Hal. vm_compute. reflexivity.
Defined.
End UserDemo.
